(* ===== verification/_CoqProject ===== *)
-Q . S2P
Prelude.v
CMemory.v
CString.v
FileStore.v
Lz4.v
Lz4Encode.v
Lz4Decode.v
Lz4Roundtrip.v
Lz4Safety.v
CMonad.v
Disk.v
Exfat.v
ExfatDisk.v
ExfatBitmap.v
ExfatDir.v
ExfatCreate.v
ExfatFormat.v
ExfatData.v
ExfatLimits.v
Vfs.v
VfsProofs.v
Ports.v
Ata.v
MathLib.v
Time.v
Mmu.v
Pmm.v
PageTable.v
Pci.v
Nvme.v
Elf.v
ElfProofs.v
UserMem.v
UserMemProofs.v
UserMap.v
Isolation.v
UserDemo.v
LinuxFd.v
LinuxCalls.v
LinuxProofs.v
LinuxSafe.v
LinuxMap.v
Accounts.v
AccountProofs.v
AccountLogin.v
Native.v
NativeSafe.v
Console.v
ConsoleSpec.v
ConsoleProofs.v
Workspaces.v
WorkspaceProofs.v
Keyboard.v
KeyboardProofs.v
LineInput.v
LineEdit.v
LineInputProofs.v
ShellPath.v
ShellPathProofs.v
ShellAccess.v
ShellWords.v
ShellWordsProofs.v
Script.v
ScriptNumbers.v
ScriptVars.v
ScriptSafe.v
ScriptProofs.v
Heap.v
HeapProofs.v
Sheet.v
SheetProofs.v
Scheduler.v
SchedProofs.v
SchedReach.v
Calc.v
CalcProofs.v
CalcSession.v
Bash.v
BashWords.v
BashSafe.v
