(* ===== verification/Prelude.v ===== *)
(** * WindogeOS: a verification development

    WindogeOS is a small 64-bit operating system in C: a kernel with a physical
    page allocator and per-process page tables, a preemptive round-robin
    scheduler, an ELF loader, native and Linux system calls, an ATA disk driver
    with an exFAT file system and a drive layer on top of it, accounts, a console
    with four workspaces, two shells, and user programs, among them a script
    interpreter.  This library is a shallow embedding of its core with the theorems
    that make it correct.

    ** How the parts interact

    A program is an ELF file.  The scheduler starts it: it creates an address
    space (mmu.c), the loader (elf.c) reads the file through the drive layer
    (vfs.c), which calls exfat.c, which calls the disk driver (ata.c).  The timer
    interrupt rotates the tasks; the file descriptors, the drive, the workspace
    and the address space of the outgoing task are saved and those of the incoming
    one restored.  Programs call the kernel through two dispatchers (syscall.c and
    linux_syscall.c), which check every user pointer against the page tables
    before they follow it.  Shell commands name files through paths that are made
    canonical and checked against the user (bash.c, dogeshell.c, hfs.c).  Keys come
    from the keyboard interrupt through a ring buffer, are edited into lines and
    shown by the console (print.c, input.c, workspaces.c).  Scripts run as a user
    program (dogescript.c) that hands unknown commands back to the shell; user
    programs allocate with the heap of dogelib.h.

    ** Conventions

    Integers are [Z] with every narrowing written out ([u8] .. [u64], [s32],
    [s64]).  A C array is a list of bytes; reading or writing outside it, a null
    dereference, or a page fault of the kernel is undefined behaviour, the value
    [None] of an [option]; so a theorem that concludes [= Some ...] includes the
    absence of undefined behaviour.  Stateful code is state passing, in the larger
    components through the monad of CMonad.v, whose early return is the C
    [return] (or [goto failure]) inside a block.  Components meet at type classes:
    operations ([FileStore], [ExecStore], [BlockDevice], [Ports], [LinuxStore], [Kernel],
    [NativeStore], [NativeKernel], [Programs], [AccountStore], [Services], [Clock],
    [Tasks], [PendingKeys], [HasKeyboard], [Commands], [ScriptOs], [UserMaps], [SheetOs], [CalcOs],
    [ConfigPorts], [Machine], [BashOs]) and their laws
    ([SafeStore], [LawfulStore], [LawfulDisk], [Controller], [Rtc], [LawfulLinux],
    [SafeLinux], [SafeKernel], [SafeNative], [SafeMachine], [LawfulAccounts],
    [PlainClock], [OrderlyKeys], [TypingWorld], [SafeOs], [SheetFiles], [SafeSheetOs],
    [TypedOs], [HostBridge], [BashLaws]); the clients are proved
    against the laws, and each class of laws has a concrete instance.  What the
    console shows is modelled in the console itself, in the interpreter and in bash;
    the messages other components print are not.

    ** Files, and the code they model (paths under src/)

    - Prelude: machine integers, buffers, shared lemmas, tactics and hints.
    - CMemory (helper/string/memory.c), CString (helper/string/string.c):
      [memcpy] and companions over one flat memory, and the string library:
      [memmove_spec], [itoa_atoi_roundtrip], [unsigned_printers_agree].
    - FileStore: what the file system promises to the codec and the loader.
    - Lz4, Lz4Encode, Lz4Decode, Lz4Roundtrip, Lz4Safety (kernel/kutil/lz4_pack.c):
      compression followed by decompression restores the file ([lz4_roundtrip]);
      on any input, and with any I/O failure, the codec stays inside its arrays
      and returns ([lz4_decompress_safe], [lz4_compress_safe],
      [lz4_compress_block_fits]).
    - CMonad: the monad, and programs that keep an invariant and return ([safe],
      with a rule per statement).
    - Disk: what a disk promises to the file system.
    - Exfat (helper/drivers/filesystem/exfat.c) with ExfatDisk, ExfatBitmap,
      ExfatDir, ExfatCreate, ExfatFormat, ExfatData: allocation, directories,
      creation, formatting and file data.  The volume invariant [fs_ok] is
      established by [format_then_mount]; [create_then_lookup] and
      [write_then_read] are the refinement of a map from names to contents.
      ExfatLimits: concrete volumes, [fifth_file_out_of_bounds].
    - Vfs, VfsProofs (helper/drivers/filesystem/vfs.c): drives and paths;
      [split_path_exact], [vfs_write_then_read].
    - Ports, Ata (helper/drivers/filesystem/ata.c): the PIO driver against an
      automaton of the controller; [ata_refines_disk] discharges what Disk asks.
    - Pci (helper/drivers/pci_pcie): configuration access against a host bridge;
      [pci_get_bar_exact], [pcie_registers_distinct].
    - Nvme (helper/drivers/nvme/nvme.c): the admin queue and the scan at boot;
      [boot_page_leaves_pool], [stale_completion].
    - MathLib (helper/math), Time (helper/time/time.c): [clock_text].
    - Mmu, Pmm, PageTable (helper/core/memory): [pmm_refines_stack]
      (the allocator is a stack of distinct pages), [map_unmap_page]; limits:
      [map_user_page_out_of_memory], [kmalloc_overlaps_pmm].
    - Elf, ElfProofs (helper/core/execute/elf.c and headers):
      [load_checks_program] (the checks are those of the headers in the file),
      [arguments_layout],
      [long_arguments_overwrite_tables].
    - UserMem, UserMemProofs, UserMap, UserDemo (helper/core/syscall/syscall.c):
      the pointer checks agree with the page walk of the processor
      ([user_range_accessible_exact], [copy_user_string_exact]);
      [native_map_unmap].
    - Isolation: the invariant [confined]: memory differs only where the program
      itself may write.
    - LinuxFd, LinuxCalls, LinuxProofs, LinuxSafe, LinuxMap
      (helper/core/syscall/linux_syscall.c): the whole dispatcher;
      [linux_open_spec], [linux_write_spec], [linux_lseek_spec],
      [linux_mmap_anonymous].
    - Native, NativeSafe (helper/core/syscall/syscall.c): the native
      dispatcher; [syscalls_confined]: whatever registers a program passes, a
      system call returns and writes only what the program may write, if the file
      system and the console return from the calls it makes into them.
    - Accounts, AccountProofs, AccountLogin (helper/core/hfs.c):
      [can_access_path_exact], [account_login].
    - Console, ConsoleSpec, ConsoleProofs (helper/dogeio/raw.c,
      helper/dogeio/print.c, kernel/tui/menubar.c): cells, cursor, colours, glyphs
      and escape sequences; [dogeio_print_refines] is the refinement of an abstract
      terminal.
    - Workspaces, WorkspaceProofs (kernel/tui/workspaces.c, and what the timer of
      scheduler.c does to the consoles, [console_on_timer]): the four consoles;
      [workspaces_independent].
    - Keyboard, KeyboardProofs (helper/dogeio/input.c): the ring buffer and the
      decoder of scancodes; [keys_in_order], against the layout of a US keyboard
      (Module UsKeyboard).
    - LineInput, LineEdit, LineInputProofs
      (helper/dogeio/input.c): [dogeio_input] against a line editor ([runs]);
      [dogeio_input_line].
    - ShellPath, ShellPathProofs, ShellAccess (kernel/bash.c,
      kernel/dogeshell.c): canonical paths and access checks;
      [authorize_path_exact], [dogeshell_authorize_exact].
    - ShellWords, ShellWordsProofs (kernel/dogeshell.c): the tokenizer and the
      execution of a command line; [dogeshell_tokenize_exact] against the reference
      [lex] of words and quotes.
    - Bash (kernel/bash.c): the whole shell; what it asks of other components is one
      type of calls.  BashWords: [bash_arguments_exact] against the reference lexer
      [lex], [bash_list_exact] against the meaning of a command list.  BashSafe:
      [bash_line_safe], every command line is executed without undefined behaviour
      and hands on only paths that its own access check allows; Module BashDemo runs it on a machine
      that records the calls.
    - Script, ScriptNumbers, ScriptVars, ScriptSafe, ScriptProofs
      (apps/dogescript.c): the whole interpreter; [dogescript_terminates] (every script
      ends, inside the arrays), [expanded_command_words] (a value expanded into a
      shell command is one word of it), [variables_refine_map], [math_exact].
    - Heap, HeapProofs (library/dogelib.h): the allocator of user programs;
      [heap_refines]: a finite map from pointers to sizes.
    - Sheet, SheetProofs (apps/packages/dogesheet.c): the spreadsheet;
      [sheet_roundtrip], [sheet_session].
    - Calc, CalcProofs, CalcSession (apps/packages/avcalc.c): the calculator;
      [calc_exact] against the reference evaluation [value], [calc_shows].
    - Scheduler, SchedProofs, SchedReach
      (helper/core/execute/scheduler.c): [reachable_sched_ok],
      [process_table_refines], [round_robin_fair], [context_switch_roundtrip],
      [exit_keeps_registers].

    ** Fuel and bounds

    Loops the source counts are structural on their count.  The others carry
    fuel, and the theorems conclude [Some], so the fuel is shown to be enough:
    the codec passes the length of what is left to read or write plus one (each
    round moves at least a byte); walks over strings and paths pass the length
    of the buffer; digit loops pass the digits of their type; loops over page
    ranges and the searches for free ranges pass 2^36, the number of pages of a
    48-bit half space, as binary fuel that is consumed lazily; [copy_rounds] is
    2^64, the largest length a 64-bit counter can ask for; the polls of the ATA
    driver are bounded in the source itself ([ATA_TIMEOUT]).  The clock driver
    waits for the update flag without a bound in the source; the model gives it
    2^64 polls and its theorem assumes the flag clears within them.  Printing takes
    as fuel the length of the text; the menu bar is drawn at nesting depth 1, which
    its theorems show to suffice; the waits for keys take the number of rounds as
    a parameter and the theorem gives one that is enough for the keys that arrive.
    A script has at most 2^20 bytes, so [script_rounds], 2^20 + 1, bounds its lines,
    and [step_rounds], 500002, exceeds the step limit of the source.  A heap has fewer
    than 2^64 blocks ([heap_rounds]).  The NVMe driver waits for a completion without a
    bound in the source; the model gives it 2^64 polls ([wait_rounds]).  The calculator
    reduces an angle in at most 2^64 steps, and its parser takes the length of the text.
    A command line of bash has at most as many rounds as characters; the dialogue
    [system_bash] takes the number of rounds and the depth of nested shells as
    parameters, and [bash_line_safe] assumes of a nested shell that it returns.

    ** Not modelled

    - boot sequence and first-start dialogue (kernel/kernel.c, kernel/start.c), serial
      log and hardware information: effects on devices with little logic;
    - descriptor tables, interrupt stubs, FPU state: instructions; the scheduler
      starts where the stubs hand it the saved frame;
    - translation caches: a changed page table is seen at once;
    - built-in commands of Dogeshell, packages and settings: mostly dialogue over the
      drive layer;
    - the other user programs under apps/ (assembler, editors, the
      small calculator calc.c and the remaining packages), and the
      one-line wrappers of system calls in library/, whose string functions behave
      as those of CString;
    - the growth of a user heap beyond its first mapping has no theorem, since the
      code passes the arguments of the mapping in the wrong registers ([second_page_refused]). *)

From Stdlib Require Export ZArith Lia Wf_nat.
From Stdlib Require Import Ascii.
From stdpp Require Export base tactics option list numbers gmap strings.

#[global] Open Scope Z_scope.
#[global] Arguments reverse : simpl never.

(** ** Machine integers.  Values are [Z]; every narrowing is written out. *)

Definition u8 (x : Z) : Z := x mod 256.
Definition u16 (x : Z) : Z := x mod 65536.
Definition u32 (x : Z) : Z := x mod 4294967296.
Definition u64 (x : Z) : Z := x mod 18446744073709551616.

(** Conversion to a two's complement [int]/[int64_t]. *)
Definition s32 (x : Z) : Z := (x + 2147483648) mod 4294967296 - 2147483648.
Definition s64 (x : Z) : Z :=
  (x + 9223372036854775808) mod 18446744073709551616 - 9223372036854775808.

Definition UINT32_MAX : Z := 4294967295.
Definition UINT64_MAX : Z := 18446744073709551615.
Definition INT_MAX : Z := 2147483647.
Definition INT_MIN : Z := -2147483648.

Definition is_u8 (x : Z) : Prop := 0 <= x < 256.
Definition is_u16 (x : Z) : Prop := 0 <= x < 65536.
Definition is_u32 (x : Z) : Prop := 0 <= x < 4294967296.
Definition is_u64 (x : Z) : Prop := 0 <= x < 18446744073709551616.

(** ** Byte buffers.  A C array is a list of byte values; an access outside it
    is undefined behaviour, the value [None]. *)

Abbreviation bytes := (list Z).

Definition zlen {A} (l : list A) : Z := Z.of_nat (length l).

Definition rd {A} (b : list A) (i : Z) : option A :=
  if i <? 0 then None else b !! Z.to_nat i.

Definition wr {A} (b : list A) (i : Z) (v : A) : option (list A) :=
  if (0 <=? i) && (i <? zlen b) then Some (<[Z.to_nat i := v]> b) else None.

(** [n] consecutive cells from [off]; writing a block at [off]. *)
Definition slice {A} (b : list A) (off n : Z) : option (list A) :=
  if (0 <=? off) && (0 <=? n) && (off + n <=? zlen b)
  then Some (take (Z.to_nat n) (drop (Z.to_nat off) b)) else None.

Definition blit {A} (b : list A) (off : Z) (src : list A) : option (list A) :=
  if (0 <=? off) && (off + zlen src <=? zlen b)
  then Some (take (Z.to_nat off) b ++ src ++ drop (Z.to_nat off + length src) b)
  else None.

Definition zeros (n : nat) : bytes := replicate n 0.
Definition is_bytes (b : bytes) : Prop := Forall is_u8 b.

(** String literals of the source, as the bytes of their characters. *)
Definition ch (c : ascii) : Z := Z.of_nat (nat_of_ascii c).

Fixpoint lit (s : string) : bytes :=
  match s with
  | EmptyString => []
  | String c t => ch c :: lit t
  end.

(** ** Little-endian fields. *)

Fixpoint le_bytes (n : nat) (v : Z) : bytes :=
  match n with
  | O => []
  | S n' => v mod 256 :: le_bytes n' (v / 256)
  end.

Fixpoint le_val (b : bytes) : Z :=
  match b with
  | [] => 0
  | x :: t => x + 256 * le_val t
  end.

(** A field of [n] bytes at [off] of a byte buffer. *)
Definition ld (n : nat) (b : bytes) (off : Z) : option Z :=
  le_val <$> slice b off (Z.of_nat n).
Definition st (n : nat) (b : bytes) (off v : Z) : option bytes :=
  blit b off (le_bytes n v).

(** ** Automation.  [zs] turns lengths into [Z] and calls [lia]; the [cbuf]
    database rewrites buffer accesses at the seam of a concatenation. *)

Create HintDb cbuf.
Create Rewrite HintDb cbuf.
Create HintDb cint.

Ltac unfold_int :=
  unfold u8, u16, u32, u64, s32, s64, is_u8, is_u16, is_u32, is_u64,
    UINT32_MAX, UINT64_MAX, INT_MAX, INT_MIN in *.

Ltac zs :=
  unfold zlen in *;
  rewrite ?length_app, ?length_cons, ?length_nil, ?length_take, ?length_drop,
    ?length_replicate, ?length_insert, ?length_reverse, ?length_fmap in *;
  cbn [length] in *; lia.

Ltac bool_true :=
  repeat match goal with
  | H : context [(?a <? ?b)] |- _ => destruct (Z.ltb_spec a b); try lia
  | H : context [(?a <=? ?b)] |- _ => destruct (Z.leb_spec a b); try lia
  | H : context [(?a =? ?b)] |- _ => destruct (Z.eqb_spec a b); try lia
  | |- context [(?a <? ?b)] => destruct (Z.ltb_spec a b); try lia
  | |- context [(?a <=? ?b)] => destruct (Z.leb_spec a b); try lia
  | |- context [(?a =? ?b)] => destruct (Z.eqb_spec a b); try lia
  end; cbn [andb orb negb] in *.

(** The same on the goal only. *)
Ltac bgoal :=
  repeat match goal with
  | |- context [(?a <? ?b)] => destruct (Z.ltb_spec a b); try lia
  | |- context [(?a <=? ?b)] => destruct (Z.leb_spec a b); try lia
  | |- context [(?a =? ?b)] => destruct (Z.eqb_spec a b); try lia
  end; cbn [andb orb negb].

(** Running a bound computation by rewriting; conversion would compare the
    continuations first. *)
Lemma Some_bind {A B} (a : A) (f : A -> option B) : (Some a ≫= f) = f a.
Proof. done. Qed.

(** ** Lemmas on machine integers. *)

Lemma u8_small x : is_u8 x -> u8 x = x.
Proof. unfold_int. intros. apply Z.mod_small. lia. Qed.
Lemma u16_small x : is_u16 x -> u16 x = x.
Proof. unfold_int. intros. apply Z.mod_small. lia. Qed.
Lemma u32_small x : is_u32 x -> u32 x = x.
Proof. unfold_int. intros. apply Z.mod_small. lia. Qed.
Lemma u64_small x : is_u64 x -> u64 x = x.
Proof. unfold_int. intros. apply Z.mod_small. lia. Qed.
Lemma s32_small x : INT_MIN <= x <= INT_MAX -> s32 x = x.
Proof. unfold_int. intros. rewrite Z.mod_small; lia. Qed.
Lemma u8_range x : is_u8 (u8 x).
Proof. unfold_int. apply Z.mod_pos_bound. lia. Qed.
Lemma u32_range x : is_u32 (u32 x).
Proof. unfold_int. apply Z.mod_pos_bound. lia. Qed.
Lemma u64_range x : is_u64 (u64 x).
Proof. unfold_int. apply Z.mod_pos_bound. lia. Qed.
#[export] Hint Resolve u8_range u32_range u64_range : cint.

Lemma eqb_neq x y : x <> y -> (x =? y) = false.
Proof. apply Z.eqb_neq. Qed.

Lemma land_ones_mod x n : 0 <= n -> Z.land x (2 ^ n - 1) = x mod 2 ^ n.
Proof.
  intros. replace (2 ^ n - 1) with (Z.ones n)
    by (rewrite Z.ones_equiv; lia). apply Z.land_ones; lia.
Qed.

(** Disjoint bit ranges: [|] is [+]. *)
Lemma lor_add_low x y n :
  0 <= n -> 0 <= x < 2 ^ n -> Z.lor x (y * 2 ^ n) = x + y * 2 ^ n.
Proof.
  intros Hn Hx. rewrite <- (Z.shiftl_mul_pow2 y n) by lia.
  rewrite <- Z.lxor_lor, <- Z.add_nocarry_lxor; try reflexivity.
  all: apply Z.bits_inj'; intros i Hi;
    rewrite Z.land_spec, Z.bits_0, Z.shiftl_spec by lia;
    destruct (Z.lt_ge_cases i n);
    [ rewrite (Z.testbit_neg_r y) by lia; apply andb_false_r
    | rewrite <- (Z.mod_small x (2 ^ n)) by lia;
      rewrite Z.mod_pow2_bits_high by lia; reflexivity ].
Qed.

(** ** Lemmas on buffers. *)

Lemma zlen_nonneg {A} (l : list A) : 0 <= zlen l.
Proof. unfold zlen. lia. Qed.
Lemma zlen_app {A} (l k : list A) : zlen (l ++ k) = zlen l + zlen k.
Proof. zs. Qed.
Lemma zlen_cons {A} (x : A) l : zlen (x :: l) = 1 + zlen l.
Proof. zs. Qed.
Lemma zlen_nil {A} : zlen (@nil A) = 0.
Proof. reflexivity. Qed.
Lemma zlen_replicate {A} n (x : A) : zlen (replicate n x) = Z.of_nat n.
Proof. zs. Qed.
Lemma zlen_0_nil {A} (l : list A) : zlen l = 0 -> l = [].
Proof. destruct l; [done | zs]. Qed.
#[export] Hint Resolve zlen_nonneg : core.
#[export] Hint Rewrite @zlen_app @zlen_cons @zlen_nil @zlen_replicate : cbuf.

Lemma rd_lookup {A} (b : list A) i : 0 <= i -> rd b i = b !! Z.to_nat i.
Proof. intros. unfold rd. by bool_true. Qed.

Lemma rd_Some {A} (b : list A) i x : rd b i = Some x -> 0 <= i < zlen b.
Proof.
  unfold rd. bool_true; [done|]. intros ?%lookup_lt_Some. zs.
Qed.

Lemma rd_is_Some {A} (b : list A) i : 0 <= i < zlen b -> is_Some (rd b i).
Proof. intros. rewrite rd_lookup by lia. apply lookup_lt_is_Some. zs. Qed.

Lemma rd_None {A} (b : list A) i : zlen b <= i -> rd b i = None.
Proof.
  intros. pose proof (zlen_nonneg b).
  rewrite rd_lookup by lia. apply lookup_ge_None. zs.
Qed.

Lemma rd_app_l {A} (p t : list A) i : i < zlen p -> rd (p ++ t) i = rd p i.
Proof.
  intros. unfold rd. bool_true; [done|]. apply lookup_app_l. zs.
Qed.

Lemma rd_app_r {A} (p t : list A) i :
  zlen p <= i -> rd (p ++ t) i = rd t (i - zlen p).
Proof.
  intros. pose proof (zlen_nonneg p). rewrite !rd_lookup by lia.
  rewrite lookup_app_r by zs. f_equal. zs.
Qed.

Lemma rd_mid {A} (p : list A) x t : rd (p ++ x :: t) (zlen p) = Some x.
Proof. rewrite rd_app_r by lia. by rewrite Z.sub_diag. Qed.

Lemma rd_cons_S {A} (x : A) l i : 0 <= i -> rd (x :: l) (i + 1) = rd l i.
Proof.
  intros. rewrite !rd_lookup by lia.
  by rewrite Z2Nat.inj_add, Nat.add_comm by lia.
Qed.

Lemma wr_Some {A} (b b' : list A) i v :
  wr b i v = Some b' <-> 0 <= i < zlen b /\ b' = <[Z.to_nat i := v]> b.
Proof.
  unfold wr. split.
  - bool_true; [|done..]. intros [= <-]. split; [lia|done].
  - intros [? ->]. by bool_true.
Qed.

Lemma wr_total {A} (b : list A) i v :
  0 <= i < zlen b -> wr b i v = Some (<[Z.to_nat i := v]> b).
Proof. intros. by apply wr_Some. Qed.

Lemma wr_is_Some {A} (b : list A) i v : 0 <= i < zlen b -> is_Some (wr b i v).
Proof. intros. rewrite wr_total by done. by eexists. Qed.

Lemma wr_zlen {A} (b b' : list A) i v : wr b i v = Some b' -> zlen b' = zlen b.
Proof. intros [? ->]%wr_Some. zs. Qed.

Lemma rd_wr_eq {A} (b b' : list A) i v : wr b i v = Some b' -> rd b' i = Some v.
Proof.
  intros [? ->]%wr_Some. rewrite rd_lookup by lia.
  apply list_lookup_insert_eq. zs.
Qed.

Lemma rd_wr_ne {A} (b b' : list A) i j v :
  wr b i v = Some b' -> i <> j -> rd b' j = rd b j.
Proof.
  intros [? ->]%wr_Some ?. unfold rd. bool_true; [done|].
  apply list_lookup_insert_ne. lia.
Qed.

Lemma wr_mid {A} (p : list A) x t v : wr (p ++ x :: t) (zlen p) v = Some (p ++ v :: t).
Proof.
  rewrite wr_total by zs. f_equal. unfold zlen. rewrite Nat2Z.id.
  by rewrite insert_app_r_alt, Nat.sub_diag by lia.
Qed.

Lemma list_eq_rd {A} (a b : list A) :
  zlen a = zlen b -> (forall i, 0 <= i < zlen a -> rd a i = rd b i) -> a = b.
Proof.
  intros Hl H. apply list_eq_same_length with (length a); [zs | done |].
  intros i x y Hi Hx Hy.
  specialize (H (Z.of_nat i) ltac:(zs)).
  rewrite !rd_lookup, Nat2Z.id in H by lia. congruence.
Qed.

Lemma slice_Some {A} (b s : list A) off n :
  slice b off n = Some s <->
  0 <= off /\ 0 <= n /\ off + n <= zlen b /\
  s = take (Z.to_nat n) (drop (Z.to_nat off) b).
Proof.
  unfold slice. split.
  - bool_true; [|done..]. intros [= <-]. auto.
  - intros (?&?&?&->). by bool_true.
Qed.

Lemma slice_zlen {A} (b s : list A) off n : slice b off n = Some s -> zlen s = n.
Proof. intros (?&?&?&->)%slice_Some. zs. Qed.

Lemma rd_slice {A} (b s : list A) off n i :
  slice b off n = Some s -> 0 <= i < n -> rd s i = rd b (off + i).
Proof.
  intros (?&?&?&->)%slice_Some ?. rewrite !rd_lookup by lia.
  rewrite lookup_take_lt by lia. rewrite lookup_drop. f_equal. lia.
Qed.

Lemma slice_total {A} (b : list A) off n :
  0 <= off -> 0 <= n -> off + n <= zlen b -> is_Some (slice b off n).
Proof. intros. eexists. apply slice_Some. auto. Qed.

Lemma slice_mid {A} (p m t : list A) : slice (p ++ m ++ t) (zlen p) (zlen m) = Some m.
Proof.
  apply slice_Some. split_and!; [zs..|]. unfold zlen. rewrite !Nat2Z.id.
  by rewrite drop_app_length, take_app_length.
Qed.

Lemma blit_Some {A} (b b' src : list A) off :
  blit b off src = Some b' <->
  0 <= off /\ off + zlen src <= zlen b /\
  b' = take (Z.to_nat off) b ++ src ++ drop (Z.to_nat off + length src) b.
Proof.
  unfold blit. split.
  - bool_true; [|done..]. intros [= <-]. auto.
  - intros (?&?&->). by bool_true.
Qed.

Lemma blit_0_Some {A} (b b' src : list A) :
  blit b 0 src = Some b' <-> zlen src <= zlen b /\ b' = src ++ drop (length src) b.
Proof.
  rewrite blit_Some. change (Z.to_nat 0) with 0%nat. rewrite take_0. cbn [app Nat.add].
  rewrite Z.add_0_l. split; [by intros (_&?&?) | by intros [? ?]].
Qed.

Lemma blit_zlen {A} (b b' src : list A) off :
  blit b off src = Some b' -> zlen b' = zlen b.
Proof. intros (?&?&->)%blit_Some. zs. Qed.

Lemma blit_total {A} (b src : list A) off :
  0 <= off -> off + zlen src <= zlen b -> is_Some (blit b off src).
Proof. intros. eexists. apply blit_Some. auto. Qed.

Lemma blit_mid {A} (p m src t : list A) :
  zlen m = zlen src -> blit (p ++ m ++ t) (zlen p) src = Some (p ++ src ++ t).
Proof.
  intros. apply blit_Some. split_and!; [zs..|]. unfold zlen in *. rewrite !Nat2Z.id.
  rewrite take_app_length. do 2 f_equal.
  rewrite app_assoc, drop_app_ge by (rewrite length_app; lia).
  rewrite length_app. replace (_ - _)%nat with 0%nat by lia. done.
Qed.

Lemma rd_blit {A} (b b' src : list A) off i :
  blit b off src = Some b' ->
  rd b' i = if (off <=? i) && (i <? off + zlen src) then rd src (i - off) else rd b i.
Proof.
  intros (?&?&->)%blit_Some.
  assert (zlen (take (Z.to_nat off) b) = off) as Hp by zs.
  destruct (Z.leb_spec off i); cbn [andb].
  - rewrite rd_app_r by lia. rewrite Hp.
    destruct (Z.ltb_spec i (off + zlen src)).
    + apply rd_app_l. lia.
    + rewrite rd_app_r by lia. rewrite !rd_lookup by lia.
      rewrite lookup_drop. f_equal. zs.
  - rewrite rd_app_l by lia. unfold rd. bool_true; [done|].
    apply lookup_take_lt. lia.
Qed.

Lemma wr_blit {A} (b : list A) i v : wr b i v = blit b i [v].
Proof.
  unfold wr, blit. change (zlen [v]) with 1.
  destruct (Z.leb_spec 0 i); [|done]; cbn [andb].
  destruct (Z.ltb_spec i (zlen b)), (Z.leb_spec (i + 1) (zlen b)); try lia; [|done].
  f_equal. rewrite insert_take_drop by zs. cbn [length].
  by rewrite Nat.add_1_r.
Qed.

Lemma blit_nil {A} (b : list A) i : 0 <= i <= zlen b -> blit b i [] = Some b.
Proof.
  intros. apply blit_Some. split_and!; [lia | zs |]. cbn.
  by rewrite Nat.add_0_r, take_drop.
Qed.

Lemma blit_cons {A} (b : list A) i x src :
  blit b i (x :: src) = wr b i x ≫= fun b' => blit b' (i + 1) src.
Proof.
  destruct (decide (0 <= i < zlen b)) as [Hi|Hi].
  - rewrite (wr_total b i x Hi). cbn.
    assert (wr b i x = Some (<[Z.to_nat i:=x]> b)) as Hw by by apply wr_total.
    destruct (decide (i + zlen (x :: src) <= zlen b)) as [Hl|Hl].
    + destruct (blit_total b (x :: src) i) as [b1 H1]; [lia..|].
      destruct (blit_total (<[Z.to_nat i:=x]> b) src (i + 1)) as [b2 H2];
        [lia | rewrite (wr_zlen _ _ _ _ Hw); zs |].
      rewrite H1, H2. f_equal. apply list_eq_rd.
      { rewrite (blit_zlen _ _ _ _ H1), (blit_zlen _ _ _ _ H2). by rewrite (wr_zlen _ _ _ _ Hw). }
      intros j Hj. rewrite (rd_blit _ _ _ _ _ H1), (rd_blit _ _ _ _ _ H2), zlen_cons.
      pose proof (zlen_nonneg src). destruct (Z.eq_dec i j) as [<-|Hne].
      * bool_true. rewrite Z.sub_diag. by rewrite (rd_wr_eq _ _ _ _ Hw).
      * rewrite (rd_wr_ne _ _ _ _ _ Hw Hne). bool_true; try done.
        rewrite <- (rd_cons_S x src (j - (i + 1))) by lia. f_equal. lia.
    + unfold blit. rewrite zlen_cons in *.
      assert (zlen (<[Z.to_nat i:=x]> b) = zlen b) as -> by zs. by bool_true.
  - unfold wr, blit. rewrite zlen_cons. pose proof (zlen_nonneg src).
    destruct (Z.leb_spec 0 i); [|done]. cbn.
    destruct (Z.ltb_spec i (zlen b)); [lia|]. cbn. bool_true; done.
Qed.

Lemma blit_app {A} (b : list A) i s1 s2 :
  0 <= i <= zlen b ->
  blit b i (s1 ++ s2) = blit b i s1 ≫= fun b' => blit b' (i + zlen s1) s2.
Proof.
  revert b i. induction s1 as [|x s1 IH]; intros b i Hi.
  - rewrite blit_nil by done. cbn. by rewrite zlen_nil, Z.add_0_r.
  - cbn [app]. rewrite !blit_cons. destruct (wr b i x) as [b'|] eqn:Hw; [|done]. cbn.
    pose proof (wr_zlen _ _ _ _ Hw). apply wr_Some in Hw as [? _].
    rewrite IH by lia. destruct (blit b' (i + 1) s1); [|done]. cbn. f_equal. zs.
Qed.

Lemma slice_blit {A} (b b' src : list A) off :
  blit b off src = Some b' -> slice b' off (zlen src) = Some src.
Proof.
  intros H. pose proof (blit_zlen _ _ _ _ H) as Hl.
  apply blit_Some in H as (?&?&->).
  assert (zlen (take (Z.to_nat off) b) = off) as Hp by zs.
  pose proof (slice_mid (take (Z.to_nat off) b) src (drop (Z.to_nat off + length src) b)) as Hm.
  by rewrite Hp in Hm.
Qed.

Lemma is_bytes_app a b : is_bytes (a ++ b) <-> is_bytes a /\ is_bytes b.
Proof. apply Forall_app. Qed.
Lemma is_bytes_cons x b : is_bytes (x :: b) <-> is_u8 x /\ is_bytes b.
Proof. apply Forall_cons. Qed.
Lemma is_bytes_zeros n : is_bytes (zeros n).
Proof. apply Forall_replicate. unfold_int. lia. Qed.
Lemma is_bytes_rd b i x : is_bytes b -> rd b i = Some x -> is_u8 x.
Proof.
  intros Hb Hx. pose proof (rd_Some _ _ _ Hx). rewrite rd_lookup in Hx by lia.
  exact (Forall_lookup_1 _ _ _ _ Hb Hx).
Qed.
Lemma is_bytes_wr b b' i v :
  is_bytes b -> is_u8 v -> wr b i v = Some b' -> is_bytes b'.
Proof. intros Hb Hv [? ->]%wr_Some. by apply Forall_insert. Qed.
Lemma is_bytes_slice b s off n : is_bytes b -> slice b off n = Some s -> is_bytes s.
Proof.
  intros Hb (?&?&?&->)%slice_Some. by apply Forall_take, Forall_drop.
Qed.
Lemma is_bytes_blit b b' src off :
  is_bytes b -> is_bytes src -> blit b off src = Some b' -> is_bytes b'.
Proof.
  intros Hb Hs (?&?&->)%blit_Some. apply is_bytes_app; split; [by apply Forall_take|].
  apply is_bytes_app; split; [done | by apply Forall_drop].
Qed.
#[export] Hint Resolve is_bytes_zeros is_bytes_wr is_bytes_slice is_bytes_blit : cbuf.

(** ** Lemmas on little-endian fields. *)

Lemma length_le_bytes n v : length (le_bytes n v) = n.
Proof. revert v. induction n; intros; cbn; auto. Qed.
Lemma zlen_le_bytes n v : zlen (le_bytes n v) = Z.of_nat n.
Proof. unfold zlen. by rewrite length_le_bytes. Qed.
#[export] Hint Rewrite zlen_le_bytes : cbuf.

Lemma is_bytes_le n v : is_bytes (le_bytes n v).
Proof.
  revert v. induction n; intros; cbn; constructor; [|apply IHn].
  unfold_int. apply Z.mod_pos_bound. lia.
Qed.

Lemma le_val_le_bytes n v : le_val (le_bytes n v) = v mod 256 ^ Z.of_nat n.
Proof.
  revert v. induction n as [|n IH]; intros v; cbn [le_bytes le_val].
  - by rewrite Z.mod_1_r.
  - rewrite IH, Nat2Z.inj_succ, Z.pow_succ_r by lia.
    rewrite Z.rem_mul_r by (try apply Z.pow_pos_nonneg; lia). lia.
Qed.

Lemma le_val_range b : is_bytes b -> 0 <= le_val b < 256 ^ zlen b.
Proof.
  induction 1 as [|x b Hx Hb IH]; [change (0 <= 0 < 1); lia|].
  pose proof (zlen_nonneg b). rewrite zlen_cons, Z.pow_add_r by lia.
  cbn [le_val]. unfold_int. lia.
Qed.

Lemma le_bytes_le_val b : is_bytes b -> le_bytes (length b) (le_val b) = b.
Proof.
  induction 1 as [|x b Hx Hb IH]; [done|]. cbn [length le_bytes le_val]. unfold_int.
  rewrite (Z.mul_comm 256), Z_mod_plus_full, Z.mod_small by lia.
  rewrite Z.div_add, Z.div_small, Z.add_0_l by lia. by rewrite IH.
Qed.

(** Storing a field and loading it back. *)
Lemma ld_st n b b' off v :
  st n b off v = Some b' -> ld n b' off = Some (v mod 256 ^ Z.of_nat n).
Proof.
  unfold st, ld. intros H%slice_blit. rewrite zlen_le_bytes in H.
  rewrite H. cbn. by rewrite le_val_le_bytes.
Qed.

Lemma ld_blit_ne n b b' off src o :
  blit b o src = Some b' ->
  off + Z.of_nat n <= o \/ o + zlen src <= off -> ld n b' off = ld n b off.
Proof.
  intros Hb Hd. unfold ld. pose proof (blit_zlen _ _ _ _ Hb) as Hl.
  destruct (slice b off (Z.of_nat n)) as [s|] eqn:Hs.
  - destruct (slice_total b' off (Z.of_nat n)) as [s' Hs'];
      [by apply slice_Some in Hs as (?&?&?&?); lia..|].
    rewrite Hs'. do 2 f_equal. pose proof (slice_zlen _ _ _ _ Hs).
    pose proof (slice_zlen _ _ _ _ Hs').
    apply list_eq_rd; [lia|]. intros i Hi.
    rewrite (rd_slice _ _ _ _ i Hs), (rd_slice _ _ _ _ i Hs') by lia.
    rewrite (rd_blit _ _ _ _ _ Hb). bool_true; done.
  - unfold slice in *. rewrite Hl. by destruct (_ && _).
Qed.
