(* ===== verification/CMemory.v ===== *)
(** * The compiler-support memory routines (helper/string/memory.c)

    [memcpy], [memset], [memmove] and [memcmp], as the loops of the source over
    one flat byte memory, so that overlapping arguments mean what they mean in C.
    A pointer is an index of that memory; an access outside it is undefined
    behaviour ([None]).  The theorems show that the loops perform the block
    operations [slice]/[blit] of the prelude, which the other components use. *)

From S2P Require Import Prelude.

(** [for (i = i0; k more times; i++) pdest[i] = psrc[i];] *)
Fixpoint copy_up (mem : bytes) (dest src i : Z) (k : nat) : option bytes :=
  match k with
  | O => Some mem
  | S k' =>
      x ← rd mem (src + i);
      mem' ← wr mem (dest + i) x;
      copy_up mem' dest src (i + 1) k'
  end.

(** [for (i = n; i > 0; i--) pdest[i-1] = psrc[i-1];] *)
Fixpoint copy_down (mem : bytes) (dest src : Z) (i : nat) : option bytes :=
  match i with
  | O => Some mem
  | S i' =>
      x ← rd mem (src + Z.of_nat i');
      mem' ← wr mem (dest + Z.of_nat i') x;
      copy_down mem' dest src i'
  end.

Definition memcpy (mem : bytes) (dest src n : Z) : option (Z * bytes) :=
  mem' ← copy_up mem dest src 0 (Z.to_nat n);
  Some (dest, mem').

Fixpoint set_loop (mem : bytes) (s c i : Z) (k : nat) : option bytes :=
  match k with
  | O => Some mem
  | S k' => mem' ← wr mem (s + i) (u8 c); set_loop mem' s c (i + 1) k'
  end.

Definition memset (mem : bytes) (s c n : Z) : option (Z * bytes) :=
  mem' ← set_loop mem s c 0 (Z.to_nat n);
  Some (s, mem').

Definition memmove (mem : bytes) (dest src n : Z) : option (Z * bytes) :=
  if dest <? src then
    mem' ← copy_up mem dest src 0 (Z.to_nat n);
    Some (dest, mem')
  else if src <? dest then
    mem' ← copy_down mem dest src (Z.to_nat n);
    Some (dest, mem')
  else Some (dest, mem).

(** Two separate read-only objects, so the comparison takes two buffers. *)
Fixpoint cmp_loop (p1 p2 : bytes) (i : Z) (k : nat) : option Z :=
  match k with
  | O => Some 0
  | S k' =>
      x ← rd p1 i;
      y ← rd p2 i;
      if x =? y then cmp_loop p1 p2 (i + 1) k'
      else Some (if x <? y then -1 else 1)
  end.

Definition memcmp (s1 s2 : bytes) (n : Z) : option Z := cmp_loop s1 s2 0 (Z.to_nat n).

(** ** What the copy loops leave in memory *)

Lemma copy_up_spec mem0 dest src n :
  0 <= dest -> 0 <= src -> dest + n <= zlen mem0 -> src + n <= zlen mem0 ->
  dest <= src \/ src + n <= dest ->
  forall k mem i,
    0 <= i -> i + Z.of_nat k = n -> zlen mem = zlen mem0 ->
    (forall j, rd mem j =
       if (dest <=? j) && (j <? dest + i) then rd mem0 (src + (j - dest)) else rd mem0 j) ->
    exists mem', copy_up mem dest src i k = Some mem' /\ zlen mem' = zlen mem0 /\
      forall j, rd mem' j =
        if (dest <=? j) && (j <? dest + n) then rd mem0 (src + (j - dest)) else rd mem0 j.
Proof.
  intros Hd Hs Hdl Hsl Hov. induction k as [|k IH]; intros mem i Hi Hn Hl H; cbn [copy_up].
  - exists mem. replace n with i by lia. auto.
  - assert (rd mem (src + i) = rd mem0 (src + i)) as Hx by (rewrite H; bool_true; done).
    destruct (rd_is_Some mem0 (src + i)) as [x Ex]; [lia|].
    rewrite Hx, Ex; cbn.
    rewrite wr_total by lia. cbn.
    set (mem1 := <[Z.to_nat (dest + i) := x]> mem).
    assert (wr mem (dest + i) x = Some mem1) as Hw by (apply wr_total; lia).
    apply IH; [lia | lia | rewrite (wr_zlen _ _ _ _ Hw); lia |].
    intros j. destruct (Z.eq_dec (dest + i) j) as [<-|Hne].
    + rewrite (rd_wr_eq _ _ _ _ Hw). bool_true. rewrite <- Ex. f_equal. lia.
    + rewrite (rd_wr_ne _ _ _ _ _ Hw Hne), H. bool_true; done.
Qed.

Lemma copy_down_spec mem0 dest src n :
  0 <= dest -> 0 <= src -> dest + n <= zlen mem0 -> src + n <= zlen mem0 ->
  src <= dest ->
  forall k mem,
    Z.of_nat k <= n -> zlen mem = zlen mem0 ->
    (forall j, rd mem j =
       if (dest + Z.of_nat k <=? j) && (j <? dest + n)
       then rd mem0 (src + (j - dest)) else rd mem0 j) ->
    exists mem', copy_down mem dest src k = Some mem' /\ zlen mem' = zlen mem0 /\
      forall j, rd mem' j =
        if (dest <=? j) && (j <? dest + n) then rd mem0 (src + (j - dest)) else rd mem0 j.
Proof.
  intros Hd Hs Hdl Hsl Hov. induction k as [|k IH]; intros mem Hn Hl H; cbn [copy_down].
  - exists mem. rewrite Z.add_0_r in H. auto.
  - assert (rd mem (src + Z.of_nat k) = rd mem0 (src + Z.of_nat k)) as Hx
      by (rewrite H; bool_true; done).
    destruct (rd_is_Some mem0 (src + Z.of_nat k)) as [x Ex]; [lia|].
    rewrite Hx, Ex; cbn.
    rewrite wr_total by lia. cbn.
    set (mem1 := <[Z.to_nat (dest + Z.of_nat k) := x]> mem).
    assert (wr mem (dest + Z.of_nat k) x = Some mem1) as Hw by (apply wr_total; lia).
    apply IH; [lia | rewrite (wr_zlen _ _ _ _ Hw); lia |].
    intros j. destruct (Z.eq_dec (dest + Z.of_nat k) j) as [<-|Hne].
    + rewrite (rd_wr_eq _ _ _ _ Hw). bool_true. rewrite <- Ex. f_equal. lia.
    + rewrite (rd_wr_ne _ _ _ _ _ Hw Hne), H. bool_true; done.
Qed.

(** A memory that agrees pointwise with a block write is that block write. *)
Lemma pointwise_blit (mem mem' s : bytes) dest src n :
  0 <= dest -> 0 <= src -> 0 <= n -> dest + n <= zlen mem -> src + n <= zlen mem ->
  slice mem src n = Some s -> zlen mem' = zlen mem ->
  (forall j, rd mem' j =
     if (dest <=? j) && (j <? dest + n) then rd mem (src + (j - dest)) else rd mem j) ->
  blit mem dest s = Some mem'.
Proof.
  intros Hd Hsrc Hn Hdl Hsl Hs Hl H. pose proof (slice_zlen _ _ _ _ Hs) as Hz.
  destruct (blit_total mem s dest) as [m Hm]; [lia..|]. rewrite Hm. f_equal.
  apply list_eq_rd; [rewrite (blit_zlen _ _ _ _ Hm); lia|].
  intros i Hi. rewrite (rd_blit _ _ _ _ _ Hm), H, Hz.
  destruct (_ && _) eqn:E; [|done].
  apply andb_true_iff in E as [?%Z.leb_le ?%Z.ltb_lt].
  rewrite (rd_slice _ _ _ _ _ Hs) by lia. done.
Qed.

(** [memcpy] of ranges that do not overlap writes the source block at [dest]. *)
Theorem memcpy_spec mem dest src n s :
  0 <= dest -> dest + n <= zlen mem -> slice mem src n = Some s ->
  dest + n <= src \/ src + n <= dest ->
  exists mem', memcpy mem dest src n = Some (dest, mem') /\ blit mem dest s = Some mem'.
Proof.
  intros Hd Hdl Hs Hov. pose proof Hs as (?&?&?&_)%slice_Some.
  destruct (copy_up_spec mem dest src n ltac:(lia) ltac:(lia) ltac:(lia) ltac:(lia)
    ltac:(lia) (Z.to_nat n) mem 0) as (m & Hm & Hl & Hj);
    [lia | lia | done | intros j; bool_true; done |].
  exists m. unfold memcpy. rewrite Hm. split; [done|].
  by apply (pointwise_blit mem m s dest src n).
Qed.

(** for every placement of the two ranges, overlapping or not, [memmove]
    returns [dest] and leaves in the destination range the bytes the source
    range had before the call, every other byte unchanged, without ever
    touching memory outside the two ranges. *)
Theorem memmove_spec mem dest src n s :
  0 <= dest -> dest + n <= zlen mem -> slice mem src n = Some s ->
  exists mem', memmove mem dest src n = Some (dest, mem') /\ blit mem dest s = Some mem'.
Proof.
  intros Hd Hdl Hs. pose proof Hs as (?&?&?&_)%slice_Some. unfold memmove.
  destruct (Z.ltb_spec dest src); [|destruct (Z.ltb_spec src dest)].
  - destruct (copy_up_spec mem dest src n ltac:(lia) ltac:(lia) ltac:(lia) ltac:(lia)
      ltac:(lia) (Z.to_nat n) mem 0) as (m & Hm & Hl & Hj);
      [lia | lia | done | intros j; bool_true; done |].
    exists m. rewrite Hm. split; [done|]. by apply (pointwise_blit mem m s dest src n).
  - destruct (copy_down_spec mem dest src n ltac:(lia) ltac:(lia) ltac:(lia) ltac:(lia)
      ltac:(lia) (Z.to_nat n) mem) as (m & Hm & Hl & Hj);
      [lia | done | intros j; bool_true; done |].
    exists m. rewrite Hm. split; [done|]. by apply (pointwise_blit mem m s dest src n).
  - exists mem. split; [done|]. assert (dest = src) as -> by lia.
    apply (pointwise_blit mem mem s src src n); try done; try lia. intros j. bool_true; try done.
    f_equal; lia.
Qed.

Lemma memmove_spec_witness :
  exists mem', memmove [1; 2; 3; 4; 5; 6] 1 0 4 = Some (1, mem') /\
    blit [1; 2; 3; 4; 5; 6] 1 [1; 2; 3; 4] = Some mem'.
Proof. apply memmove_spec; vm_compute; congruence. Defined.

Lemma set_loop_spec s c n mem0 :
  0 <= s -> s + n <= zlen mem0 ->
  forall k mem i, 0 <= i -> i + Z.of_nat k = n -> zlen mem = zlen mem0 ->
    (forall j, rd mem j = if (s <=? j) && (j <? s + i) then Some (u8 c) else rd mem0 j) ->
    exists mem', set_loop mem s c i k = Some mem' /\ zlen mem' = zlen mem0 /\
      forall j, rd mem' j = if (s <=? j) && (j <? s + n) then Some (u8 c) else rd mem0 j.
Proof.
  intros Hs Hsl. induction k as [|k IH]; intros mem i Hi Hn Hl H; cbn [set_loop].
  - exists mem. replace n with i by lia. auto.
  - rewrite wr_total by lia. cbn.
    set (mem1 := <[Z.to_nat (s + i) := u8 c]> mem).
    assert (wr mem (s + i) (u8 c) = Some mem1) as Hw by (apply wr_total; lia).
    apply IH; [lia | lia | rewrite (wr_zlen _ _ _ _ Hw); lia |].
    intros j. destruct (Z.eq_dec (s + i) j) as [<-|Hne].
    + rewrite (rd_wr_eq _ _ _ _ Hw). by bool_true.
    + rewrite (rd_wr_ne _ _ _ _ _ Hw Hne), H. bool_true; done.
Qed.

Lemma rd_replicate {A} n (x : A) i : 0 <= i < Z.of_nat n -> rd (replicate n x) i = Some x.
Proof. intros. rewrite rd_lookup by lia. apply lookup_replicate_2. lia. Qed.

(** [memset] writes [n] copies of the low byte of [c]. *)
Theorem memset_spec mem s c n :
  0 <= s -> 0 <= n -> s + n <= zlen mem ->
  exists mem', memset mem s c n = Some (s, mem') /\
    blit mem s (replicate (Z.to_nat n) (u8 c)) = Some mem'.
Proof.
  intros Hs Hn Hl. destruct (set_loop_spec s c n mem ltac:(lia) ltac:(lia) (Z.to_nat n) mem 0)
    as (m & Hm & Hlm & H); [lia | lia | done | intros j; bool_true; done |].
  exists m. unfold memset. rewrite Hm. split; [done|].
  destruct (blit_total mem (replicate (Z.to_nat n) (u8 c)) s) as [m' Hm'];
    [lia | rewrite zlen_replicate; lia |].
  rewrite Hm'. f_equal. apply list_eq_rd; [rewrite (blit_zlen _ _ _ _ Hm'); lia|].
  intros i Hi. rewrite (rd_blit _ _ _ _ _ Hm'), H, zlen_replicate, Z2Nat.id by lia.
  destruct (_ && _) eqn:E; [|done]. rewrite rd_replicate; [done|].
  apply andb_true_iff in E as [?%Z.leb_le ?%Z.ltb_lt]. lia.
Qed.

Lemma cmp_loop_spec p1 p2 n :
  n <= zlen p1 -> n <= zlen p2 ->
  forall k i, 0 <= i -> i + Z.of_nat k = n ->
  exists r, cmp_loop p1 p2 i k = Some r /\ (r = -1 \/ r = 0 \/ r = 1) /\
    (r = 0 <-> forall j, i <= j < n -> rd p1 j = rd p2 j).
Proof.
  intros H1 H2. induction k as [|k IH]; intros i Hi Hn; cbn [cmp_loop].
  - exists 0. split_and!; auto. split; [intros _ j Hj; lia | done].
  - destruct (rd_is_Some p1 i) as [x Ex]; [lia|].
    destruct (rd_is_Some p2 i) as [y Ey]; [lia|]. rewrite Ex, Ey; cbn.
    destruct (Z.eqb_spec x y) as [->|Hne].
    + destruct (IH (i + 1)) as (r & Hr & Hc & Hiff); [lia..|].
      exists r. split_and!; [done..|]. rewrite Hiff. split; intros H j Hj.
      * destruct (Z.eq_dec i j) as [<-|]; [congruence | apply H; lia].
      * apply H. lia.
    + eexists. split; [done|]. destruct (x <? y); split_and!; auto;
        (split; [lia | intros H; specialize (H i ltac:(lia)); congruence]).
Qed.

(** [memcmp] of two readable ranges terminates with -1, 0 or 1, and it
    returns 0 exactly when the two ranges hold the same [n] bytes. *)
Theorem memcmp_zero_iff s1 s2 n a b :
  slice s1 0 n = Some a -> slice s2 0 n = Some b ->
  exists r, memcmp s1 s2 n = Some r /\ (r = -1 \/ r = 0 \/ r = 1) /\ (r = 0 <-> a = b).
Proof.
  intros Ha Hb. pose proof Ha as (_&?&?&_)%slice_Some. pose proof Hb as (_&_&?&_)%slice_Some.
  destruct (cmp_loop_spec s1 s2 n ltac:(lia) ltac:(lia) (Z.to_nat n) 0)
    as (r & Hr & Hc & Hiff); [lia..|].
  exists r. split_and!; [done..|]. rewrite Hiff. split.
  - intros Heq. apply list_eq_rd.
    + rewrite (slice_zlen _ _ _ _ Ha), (slice_zlen _ _ _ _ Hb). done.
    + intros i Hi. rewrite (slice_zlen _ _ _ _ Ha) in Hi.
      rewrite (rd_slice _ _ _ _ _ Ha), (rd_slice _ _ _ _ _ Hb) by lia. apply Heq. lia.
  - intros -> j Hj. pose proof (rd_slice _ _ _ _ j Ha ltac:(lia)) as E1.
    pose proof (rd_slice _ _ _ _ j Hb ltac:(lia)) as E2.
    rewrite Z.add_0_l in E1, E2. congruence.
Qed.

Lemma memcmp_zero_iff_witness :
  exists r, memcmp [1; 2; 3] [1; 2; 4] 2 = Some r /\
    (r = -1 \/ r = 0 \/ r = 1) /\ (r = 0 <-> [1; 2] = [1; 2]).
Proof. apply memcmp_zero_iff; reflexivity. Defined.
