(* ===== verification/CString.v ===== *)
(** * The string routines of the kernel (helper/string/string.c)

    A [char *] is the list of byte values from the address it points to up to
    the end of its object; reading or writing past that end is undefined
    behaviour, the value [None].  A pointer the source compares with [NULL] is
    an [option].  Characters are kept as their byte values 0..255: the source
    only compares them with ASCII constants or for equality, where the sign of
    [char] makes no difference.  Loops that walk a string are structural on it;
    the digit loops carry a fuel that bounds the digits of their integer type. *)

From S2P Require Import Prelude.

Definition c_tab : Z := 9.
Definition c_nl : Z := 10.
Definition c_cr : Z := 13.
Definition c_space : Z := 32.
Definition c_plus : Z := 43.
Definition c_minus : Z := 45.
Definition c_dot : Z := 46.
Definition c_slash : Z := 47.
Definition c_0 : Z := 48.
Definition c_9 : Z := 57.
Definition c_colon : Z := 58.
Definition c_x : Z := 120.

Definition is_digit (c : Z) : bool := (c_0 <=? c) && (c <=? c_9).

(** ** Comparison *)

Fixpoint str_strcmp (str1 str2 : bytes) : option Z :=
  match str1, str2 with
  | a :: str1', b :: str2' =>
      if negb (a =? 0) && (a =? b) then str_strcmp str1' str2' else Some (a - b)
  | _, _ => None
  end.

Fixpoint strncmp_loop (str1 str2 : bytes) (n : nat) {struct n} : option Z :=
  match n with
  | O => Some 0
  | S n' =>
      match str1, str2 with
      | a :: str1', b :: str2' =>
          if negb (a =? 0) && (a =? b) then strncmp_loop str1' str2' n' else Some (a - b)
      | _, _ => None
      end
  end.

Definition str_strncmp (str1 str2 : bytes) (n : Z) : option Z :=
  strncmp_loop str1 str2 (Z.to_nat n).

Fixpoint str_startswith (str prefix : bytes) {struct prefix} : option Z :=
  match prefix with
  | [] => None
  | p :: prefix' =>
      if p =? 0 then Some 1
      else match str with
           | [] => None
           | c :: str' => if c =? p then str_startswith str' prefix' else Some 0
           end
  end.

(** ** Length, copy, concatenation *)

Fixpoint strlen_loop (str : bytes) : option Z :=
  match str with
  | [] => None
  | c :: str' => if c =? 0 then Some 0 else n ← strlen_loop str'; Some (n + 1)
  end.

Definition str_strlen (str : option bytes) : option Z :=
  match str with
  | None => Some 0
  | Some str => strlen_loop str
  end.

(** The copy loop of [str_strcpy] and [str_strcat], from index [i] of [dest]:
    bytes are stored up to and including the terminator. *)
Fixpoint strcpy_loop (dest : bytes) (i : Z) (src : bytes) : option bytes :=
  match src with
  | [] => None
  | c :: src' =>
      dest ← wr dest i c;
      if c =? 0 then Some dest else strcpy_loop dest (i + 1) src'
  end.

Definition str_strcpy (dest src : bytes) : option bytes := strcpy_loop dest 0 src.

Definition str_strcat (dest src : bytes) : option bytes :=
  ptr ← strlen_loop dest;
  strcpy_loop dest ptr src.

Fixpoint ncopy_loop (dest : bytes) (i : Z) (src : bytes) (k : nat) {struct k}
  : option bytes :=
  match k with
  | O => Some dest
  | S k' =>
      match src with
      | [] => None
      | c :: src' => dest ← wr dest i c; ncopy_loop dest (i + 1) src' k'
      end
  end.

(** The body of [str_strncpy] once both pointers are known not to be NULL:
    the result code and the destination. *)
Definition strncpy_body (destination source : bytes) (capacity : Z) : option (Z * bytes) :=
  if capacity =? 0 then Some (-1, destination)
  else
    length ← strlen_loop source;
    if capacity <=? length then Some (-1, destination)
    else
      destination ← ncopy_loop destination 0 source (Z.to_nat (length + 1));
      Some (0, destination).

Definition str_strncpy (destination source : option bytes) (capacity : Z)
  : option (Z * option bytes) :=
  match destination, source with
  | Some d, Some s => '(rc, d) ← strncpy_body d s capacity; Some (rc, Some d)
  | _, _ => Some (-1, destination)
  end.

(** ** Trimming and padding *)

(** [while (len > 0 && ws(str[len-1])) str[--len] = 0;] *)
Fixpoint trim_loop (ws : Z -> bool) (len : nat) (str : bytes) : option bytes :=
  match len with
  | O => Some str
  | S len' =>
      c ← rd str (Z.of_nat len');
      if ws c then str ← wr str (Z.of_nat len') 0; trim_loop ws len' str else Some str
  end.

Definition is_blank (c : Z) : bool :=
  (c =? c_cr) || (c =? c_nl) || (c =? c_space) || (c =? c_tab).

Definition clean_input_string (str : option bytes) : option (option bytes) :=
  match str with
  | None => Some None
  | Some str =>
      len ← strlen_loop str;
      str ← trim_loop is_blank (Z.to_nat len) str;
      Some (Some str)
  end.

Fixpoint pad_copy (dest src : bytes) (i target_len : Z) : option (Z * bytes) :=
  match src with
  | [] => None
  | c :: src' =>
      if negb (c =? 0) && (i <? target_len)
      then dest ← wr dest i c; pad_copy dest src' (i + 1) target_len
      else Some (i, dest)
  end.

Fixpoint pad_fill (dest : bytes) (i pad_char : Z) (k : nat) : option (Z * bytes) :=
  match k with
  | O => Some (i, dest)
  | S k' => dest ← wr dest i pad_char; pad_fill dest (i + 1) pad_char k'
  end.

Definition str_pad (dest src : bytes) (target_len pad_char : Z) : option bytes :=
  '(i, dest) ← pad_copy dest src 0 target_len;
  '(i, dest) ← pad_fill dest i pad_char (Z.to_nat (target_len - i));
  wr dest i 0.

(** ** Numbers to text *)

(** [while (value > 0) { str[i++] = '0' + value % 10; value /= 10; }]; twenty
    rounds are enough for every [uint64_t]. *)
Fixpoint dec_loop (fuel : nat) (value i : Z) (str : bytes) : option (Z * bytes) :=
  if value =? 0 then Some (i, str)
  else match fuel with
       | O => None
       | S fuel' =>
           str ← wr str i (u8 (value mod 10 + c_0));
           dec_loop fuel' (value / 10) (i + 1) str
       end.

Definition u64_digits : nat := 20.

(** [while (start < end) swap(str[start++], str[end--]);]; [n] bounds the
    rounds ([end - start] of them at most). *)
Fixpoint swap_loop (n : nat) (start stop : Z) (str : bytes) : option bytes :=
  if start <? stop then
    match n with
    | O => None
    | S n' =>
        temp ← rd str start;
        e ← rd str stop;
        str ← wr str start e;
        str ← wr str stop temp;
        swap_loop n' (start + 1) (stop - 1) str
    end
  else Some str.

(** [while (i > 0) out[j++] = temp[--i];] *)
Fixpoint rev_copy (out : bytes) (j : Z) (temp : bytes) (i : nat) : option (Z * bytes) :=
  match i with
  | O => Some (j, out)
  | S i' =>
      c ← rd temp (Z.of_nat i');
      out ← wr out j c;
      rev_copy out (j + 1) temp i'
  end.

Definition put_zero (str : bytes) : option bytes := str ← wr str 0 c_0; wr str 1 0.

(** The local buffer [buf] of the source is uninitialised; each of its cells is
    written before it is read, so its initial contents do not matter. *)
Definition u16_to_str (value : Z) (out : bytes) : option bytes :=
  if value =? 0 then put_zero out
  else
    '(i, buf) ← dec_loop 5 value 0 (zeros 6);
    '(j, out) ← rev_copy out 0 buf (Z.to_nat i);
    wr out i 0.

Definition str_ltoa (num : Z) (str : bytes) : option bytes :=
  if num =? 0 then put_zero str
  else
    '(i, temp) ← dec_loop u64_digits num 0 (zeros 32);
    '(j, str) ← rev_copy str 0 temp (Z.to_nat i);
    wr str j 0.

Definition str_kutoa (value : Z) (str : bytes) : option bytes :=
  if value =? 0 then put_zero str
  else
    '(i, str) ← dec_loop u64_digits value 0 str;
    str ← wr str i 0;
    swap_loop (Z.to_nat i) 0 (i - 1) str.

Definition str_u64toa (n : Z) (str : bytes) : option bytes :=
  if n =? 0 then put_zero str
  else
    '(i, str) ← dec_loop u64_digits n 0 str;
    str ← wr str i 0;
    swap_loop (Z.to_nat i) 0 (i - 1) str.

(** The signed loop of [str_itoa]: C's [%] and [/] truncate towards zero. *)
Fixpoint itoa_loop (fuel : nat) (is_negative : bool) (n i : Z) (str : bytes)
  : option (Z * bytes) :=
  if n =? 0 then Some (i, str)
  else match fuel with
       | O => None
       | S fuel' =>
           let rem := Z.rem n 10 in
           str ← wr str i (u8 ((if is_negative then - rem else rem) + c_0));
           itoa_loop fuel' is_negative (Z.quot n 10) (i + 1) str
       end.

Definition str_itoa (n : Z) (str : bytes) : option bytes :=
  if n =? 0 then put_zero str
  else
    let is_negative := n <? 0 in
    '(i, str) ← itoa_loop 10 is_negative n 0 str;
    '(i, str) ← (if is_negative
                 then str ← wr str i c_minus; Some (i + 1, str)
                 else Some (i, str));
    str ← wr str i 0;
    swap_loop (Z.to_nat i) 0 (i - 1) str.

Definition hex_digits : bytes := lit "0123456789ABCDEF" ++ [0].

Fixpoint hex_loop (fuel : nat) (value p : Z) (buf : bytes) : option (Z * bytes) :=
  if value =? 0 then Some (p, buf)
  else match fuel with
       | O => None
       | S fuel' =>
           d ← rd hex_digits (Z.land value 15);
           buf ← wr buf (p - 1) d;
           hex_loop fuel' (Z.shiftr value 4) (p - 1) buf
       end.

(** The result is the index of [buf] the returned pointer points to. *)
Definition uint64_to_str (value : Z) (buf : bytes) : option (Z * bytes) :=
  buf ← wr buf 18 0;
  if value =? 0 then
    buf ← wr buf 17 c_0;
    buf ← wr buf 16 c_x;
    Some (16, buf)
  else
    '(p, buf) ← hex_loop 16 value 18 buf;
    buf ← wr buf (p - 1) c_x;
    buf ← wr buf (p - 2) c_0;
    Some (p - 2, buf).

(** ** Text to numbers *)

Fixpoint to_u16_loop (s : bytes) (result : Z) : option Z :=
  match s with
  | [] => None
  | c :: s' =>
      if c =? 0 then Some result
      else if negb (is_digit c) then Some result
      else to_u16_loop s' (u16 (result * 10 + u16 (c - c_0)))
  end.

Definition str_to_u16 (s : bytes) : option Z := to_u16_loop s 0.

Fixpoint atoi_loop (s : bytes) (res sign : Z) : option Z :=
  match s with
  | [] => None
  | c :: s' =>
      if is_digit c then
        if Z.quot (INT_MAX - (c - c_0)) 10 <? res
        then Some (if sign =? 1 then INT_MAX else INT_MIN)
        else atoi_loop s' (res * 10 + (c - c_0)) sign
      else Some (res * sign)
  end.

Definition str_atoi (s : bytes) : option Z :=
  match s with
  | [] => None
  | c :: s' =>
      if c =? c_minus then atoi_loop s' 0 (-1)
      else if c =? c_plus then atoi_loop s' 0 1
      else atoi_loop s 0 1
  end.

Fixpoint to_u8_loop (str : bytes) (res : Z) : option Z :=
  match str with
  | [] => None
  | c :: str' =>
      if is_digit c then
        let res := u32 (res * 10 + u32 (c - c_0)) in
        if 255 <? res then Some 255 else to_u8_loop str' res
      else Some (u8 res)
  end.

Fixpoint skip_ws (str : bytes) : option bytes :=
  match str with
  | [] => None
  | c :: str' =>
      if (c =? c_space) || (c =? c_tab) || (c =? c_nl) then skip_ws str' else Some str
  end.

Definition str_to_u8 (str : option bytes) : option Z :=
  match str with
  | None => Some 0
  | Some str => str ← skip_ws str; to_u8_loop str 0
  end.

(** ** Splitting a file name at its last dot *)

Fixpoint last_dot (input : bytes) (length dot_index : Z) : option (Z * Z) :=
  match input with
  | [] => None
  | c :: input' =>
      if c =? 0 then Some (length, dot_index)
      else last_dot input' (length + 1) (if c =? c_dot then length else dot_index)
  end.

Definition str_split_filename (input name ext : bytes) : option (bytes * bytes) :=
  '(length, dot_index) ← last_dot input 0 (-1);
  let i := Z.max 0 dot_index in
  name ← ncopy_loop name 0 input (Z.to_nat i);
  name ← wr name i 0;
  let j := if dot_index =? -1 then 0 else length - (dot_index + 1) in
  ext ← ncopy_loop ext 0 (drop (Z.to_nat (dot_index + 1)) input) (Z.to_nat j);
  ext ← wr ext j 0;
  Some (name, ext).

(** ** Character conversions (helper/string/convert.c) *)
Definition str_u8tochar (input : Z) : Z :=
  if input <? 128 then input else input - 256.
Definition str_chartou8 (input : Z) : Z := u8 input.

(** A string literal, with its terminator. *)
Definition clit (s : string) : bytes := lit s ++ [0].

(** * Specification vocabulary *)

Definition nozero (s : bytes) : Prop := Forall (fun c => c <> 0) s.

(** The object [b] holds the C string [s]. *)
Definition cstr (b s : bytes) : Prop := exists t, b = s ++ 0 :: t /\ nozero s.

Fixpoint drop_while (f : Z -> bool) (s : bytes) : bytes :=
  match s with
  | [] => []
  | c :: s' => if f c then drop_while f s' else s
  end.

(** [s] without its longest suffix of characters in [f]. *)
Definition rtrim (f : Z -> bool) (s : bytes) : bytes := reverse (drop_while f (reverse s)).

(** The decimal digits of [v], least significant first. *)
Fixpoint lsd (fuel : nat) (v : Z) : bytes :=
  match fuel with
  | O => []
  | S fuel' => if v =? 0 then [] else (v mod 10 + c_0) :: lsd fuel' (v / 10)
  end.

(** The decimal numeral of a [uint64_t]. *)
Definition dec (v : Z) : bytes := if v =? 0 then [c_0] else reverse (lsd u64_digits v).

(** The value of a digit string in base [b]. *)
Definition dval (s : bytes) : Z := foldl (fun a c => a * 10 + (c - c_0)) 0 s.

Definition clamp_int (x : Z) : Z := Z.max INT_MIN (Z.min INT_MAX x).

(** * Lemmas *)

Lemma nozero_app a b : nozero (a ++ b) <-> nozero a /\ nozero b.
Proof. apply Forall_app. Qed.

Lemma cstr_cons c b s : c <> 0 -> cstr b s -> cstr (c :: b) (c :: s).
Proof. intros Hc (t & -> & Hs). exists t. split; [done|]. by constructor. Qed.

Lemma cstr_nil b : cstr (0 :: b) [].
Proof. exists b. split; [done | constructor]. Qed.

Lemma cstr_clit s : nozero (lit s) -> cstr (clit s) (lit s).
Proof. intros Hs. by exists []. Qed.

Ltac lit_ok := apply cstr_clit; repeat constructor; done.

Lemma cstr_inv b s : cstr b s ->
  (s = [] /\ exists t, b = 0 :: t) \/
  (exists c s' b', s = c :: s' /\ b = c :: b' /\ c <> 0 /\ cstr b' s').
Proof.
  intros (t & -> & Hs). destruct s as [|c s']; [left; cbn; eauto|].
  apply Forall_cons in Hs as [Hc Hs]. right. exists c, s', (s' ++ 0 :: t).
  split_and!; try done. by exists t.
Qed.

Lemma cstr_zlen b s : cstr b s -> zlen s < zlen b.
Proof. intros (t & -> & _). zs. Qed.

Ltac cstr_ind H :=
  match type of H with
  | cstr ?b ?s =>
      revert b H; induction s as [|? s IH]; intros b H;
      apply cstr_inv in H as [(? & ? & ->) | (? & ? & ? & ? & -> & ? & H)];
      simplify_eq; cbn
  end.

Lemma strlen_cstr b s : cstr b s -> strlen_loop b = Some (zlen s).
Proof.
  intros H. cstr_ind H; [done|]. rewrite eqb_neq by done. rewrite (IH _ H). cbn.
  f_equal. zs.
Qed.

Lemma strlen_Some b n : strlen_loop b = Some n -> exists s, cstr b s /\ n = zlen s.
Proof.
  revert n. induction b as [|c b IH]; intros n; cbn; [done|].
  destruct (Z.eqb_spec c 0) as [->|Hc].
  - intros [= <-]. exists []. split; [apply cstr_nil | done].
  - intros (m & Hm & [= <-])%bind_Some. destruct (IH m Hm) as (s & Hs & ->).
    exists (c :: s). split; [by apply cstr_cons | zs].
Qed.

Lemma strcpy_blit dest i src s :
  cstr src s -> strcpy_loop dest i src = blit dest i (s ++ [0]).
Proof.
  intros H. revert dest i. cstr_ind H; intros dest i; rewrite blit_cons.
  - destruct (wr dest i 0) eqn:Hw; [|done]. cbn. symmetry. apply blit_nil.
    pose proof (wr_zlen _ _ _ _ Hw). apply wr_Some in Hw as [? _]. lia.
  - destruct (wr dest i _) eqn:Hw; [|done]. cbn. rewrite eqb_neq by done. by apply IH.
Qed.

Lemma ncopy_blit dest i src k :
  0 <= i <= zlen dest -> (k <= length src)%nat ->
  ncopy_loop dest i src k = blit dest i (take k src).
Proof.
  revert dest i src. induction k as [|k IH]; intros dest i src Hi Hk.
  - cbn [ncopy_loop]. by rewrite take_0, (blit_nil dest i Hi).
  - destruct src as [|c src]; [cbn in Hk; lia|]. cbn [ncopy_loop take]. rewrite blit_cons.
    destruct (wr dest i c) eqn:Hw; [|done]. cbn.
    pose proof (wr_zlen _ _ _ _ Hw). apply wr_Some in Hw as [? _].
    apply IH; [lia | cbn in Hk; lia].
Qed.

Lemma take_cstr b s : cstr b s -> take (S (length s)) b = s ++ [0].
Proof.
  intros (t & -> & _).
  replace (s ++ 0 :: t) with ((s ++ [0]) ++ t) by by rewrite <- app_assoc.
  apply take_app_length'. rewrite length_app. cbn. lia.
Qed.

Lemma cstr_blit dest dest' s :
  nozero s -> blit dest 0 (s ++ [0]) = Some dest' -> cstr dest' s.
Proof.
  intros Hs (?&?&->)%blit_Some. cbn. rewrite <- app_assoc. eexists. split; [done|done].
Qed.

(** The two outcomes of [str_strncpy]. *)
Lemma strncpy_fits d src s cap :
  cstr src s -> zlen s < cap ->
  strncpy_body d src cap = (fun d' => (0, d')) <$> blit d 0 (s ++ [0]).
Proof.
  intros Hs Hc. unfold strncpy_body. pose proof (zlen_nonneg s). bool_true.
  rewrite (strlen_cstr _ _ Hs). cbn. bool_true.
  rewrite ncopy_blit; [|split; [lia | apply zlen_nonneg] | pose proof (cstr_zlen _ _ Hs); zs].
  replace (Z.to_nat (zlen s + 1)) with (S (length s)) by zs.
  rewrite (take_cstr _ _ Hs). by destruct (blit d 0 (s ++ [0])).
Qed.

Lemma strncpy_too_long d src s cap :
  cstr src s -> cap <= zlen s -> strncpy_body d src cap = Some (-1, d).
Proof.
  intros Hs Hc. unfold strncpy_body. destruct (cap =? 0); [done|].
  rewrite (strlen_cstr _ _ Hs). cbn. by bool_true.
Qed.

Lemma trim_loop_spec ws s t :
  exists k, trim_loop ws (length s) (s ++ t) = Some (rtrim ws s ++ replicate k 0 ++ t) /\
    (length (rtrim ws s) + k = length s)%nat.
Proof.
  revert t. induction s as [|c s IH] using rev_ind; intros t.
  - exists 0%nat. done.
  - rewrite length_app, Nat.add_1_r. cbn [trim_loop].
    rewrite <- app_assoc. cbn [app]. change (Z.of_nat (length s)) with (zlen s).
    rewrite rd_mid. cbn. unfold rtrim. rewrite reverse_app, reverse_singleton. cbn.
    destruct (ws c).
    + rewrite wr_mid. cbn. destruct (IH (0 :: t)) as (k & Hk & Hl). exists (S k).
      rewrite Hk. unfold rtrim in *. split; [|lia]. do 2 f_equal.
      by rewrite replicate_S_end, <- app_assoc.
    + exists 0%nat. cbn. rewrite reverse_cons, reverse_involutive, <- app_assoc. cbn.
      split; [done|]. rewrite length_app. cbn. lia.
Qed.

Lemma rtrim_prefix ws s : exists u, s = rtrim ws s ++ u /\ Forall (fun c => ws c = true) u.
Proof.
  induction s as [|c s IH] using rev_ind.
  - by exists [].
  - unfold rtrim. rewrite reverse_app, reverse_singleton. cbn. destruct (ws c) eqn:E.
    + destruct IH as (u & Hu & Hf). exists (u ++ [c]). unfold rtrim in Hu.
      rewrite app_assoc, <- Hu. split; [done|]. by apply Forall_app; split; [|constructor].
    + exists []. by rewrite reverse_cons, reverse_involutive, app_nil_r.
Qed.

Lemma rtrim_last ws s c : last (rtrim ws s) = Some c -> ws c = false.
Proof.
  unfold rtrim. rewrite <- head_reverse, reverse_involutive.
  induction (reverse s) as [|d l IH]; cbn; [done|].
  destruct (ws d) eqn:E; [exact IH|]. cbn. congruence.
Qed.

(** Trimming a C string in place leaves the trimmed C string. *)
Lemma trim_cstr ws b s :
  cstr b s -> exists b', trim_loop ws (length s) b = Some b' /\
    cstr b' (rtrim ws s) /\ zlen b' = zlen b.
Proof.
  intros (t & -> & Hs). destruct (trim_loop_spec ws s (0 :: t)) as (k & Hk & Hl).
  rewrite Hk. eexists. split; [done|]. split; [|zs].
  destruct (rtrim_prefix ws s) as (u & Hu & _).
  assert (nozero (rtrim ws s)) by (apply (nozero_app _ u); by rewrite <- Hu).
  destruct k; (eexists; split; [reflexivity | done]).
Qed.

(** ** Digits *)

Lemma lsd_digits fuel v : 0 <= v -> Forall (fun c => is_digit c = true) (lsd fuel v).
Proof.
  revert v. induction fuel as [|fuel IH]; intros v Hv; cbn; [constructor|].
  destruct (v =? 0); constructor; [|by apply IH, Z.div_pos; lia].
  unfold is_digit, c_0, c_9. pose proof (Z.mod_pos_bound v 10). bool_true; done.
Qed.

Lemma dval_snoc s c : dval (s ++ [c]) = dval s * 10 + (c - c_0).
Proof. unfold dval. by rewrite foldl_app. Qed.

Lemma dval_lsd fuel v :
  0 <= v < 10 ^ Z.of_nat fuel -> dval (reverse (lsd fuel v)) = v.
Proof.
  revert v. induction fuel as [|fuel IH]; intros v Hv.
  - change (10 ^ Z.of_nat 0) with 1 in Hv. change (0 = v). lia.
  - cbn [lsd]. destruct (Z.eqb_spec v 0) as [->|]; [done|].
    rewrite reverse_cons, dval_snoc, IH; [pose proof (Z.div_mod v 10); lia|].
    rewrite Nat2Z.inj_succ, Z.pow_succ_r in Hv by lia.
    split; [apply Z.div_pos; lia | apply Z.div_lt_upper_bound; lia].
Qed.

Lemma length_lsd fuel v : (length (lsd fuel v) <= fuel)%nat.
Proof.
  revert v. induction fuel as [|fuel IH]; intros v; cbn; [lia|].
  destruct (v =? 0); cbn; [lia|]. specialize (IH (v / 10)). lia.
Qed.

Lemma lsd_nonempty fuel v : 0 < v -> (0 < fuel)%nat -> lsd fuel v <> [].
Proof. intros Hv Hf. destruct fuel; [lia|]. cbn. by rewrite eqb_neq by lia. Qed.

Lemma dec_loop_blit fuel v i str :
  0 <= v < 10 ^ Z.of_nat fuel -> 0 <= i <= zlen str ->
  dec_loop fuel v i str =
  (fun str' => (i + zlen (lsd fuel v), str')) <$> blit str i (lsd fuel v).
Proof.
  revert v i str. induction fuel as [|fuel IH]; intros v i str Hv Hi.
  - change (10 ^ Z.of_nat 0) with 1 in Hv. assert (v = 0) as -> by lia. cbn.
    rewrite blit_nil by done. cbn.
    do 2 f_equal. zs.
  - cbn [dec_loop lsd]. destruct (Z.eqb_spec v 0) as [->|Hne].
    + rewrite blit_nil by done. cbn. do 2 f_equal. zs.
    + rewrite blit_cons. pose proof (Z.mod_pos_bound v 10).
      rewrite u8_small by (unfold_int; unfold c_0; lia).
      destruct (wr str i (v mod 10 + c_0)) as [str'|] eqn:Hw; [|done]. cbn [mbind option_bind].
      pose proof (wr_zlen _ _ _ _ Hw). apply wr_Some in Hw as [? _].
      rewrite IH; [| |lia].
      2: { rewrite Nat2Z.inj_succ, Z.pow_succ_r in Hv by lia.
           split; [apply Z.div_pos; lia | apply Z.div_lt_upper_bound; lia]. }
      destruct (blit str' (i + 1) (lsd fuel (v / 10))); [|done]. cbn. do 2 f_equal. zs.
Qed.

Lemma swap_loop_spec m :
  forall n p t, (length m <= n)%nat ->
  swap_loop n (zlen p) (zlen p + zlen m - 1) (p ++ m ++ t) = Some (p ++ reverse m ++ t).
Proof.
  induction m as [m IH] using (induction_ltof1 _ (@length Z)). unfold ltof in IH.
  intros n p t Hn. destruct m as [|x m]; [|destruct m as [|y m _] using rev_ind].
  - destruct n; cbn [swap_loop]; rewrite ?zlen_nil; by bool_true.
  - destruct n; cbn [swap_loop]; rewrite zlen_cons, zlen_nil; by bool_true.
  - destruct n as [|n]; [cbn in Hn; lia|]. cbn [swap_loop].
    pose proof (zlen_nonneg m). rewrite zlen_cons, zlen_app. cbn [zlen length].
    change (zlen [y]) with 1.
    destruct (Z.ltb_spec (zlen p) (zlen p + (1 + (zlen m + 1)) - 1)); [|lia].
    replace (p ++ (x :: m ++ [y]) ++ t) with (p ++ x :: (m ++ y :: t))
      by by rewrite <- app_comm_cons, <- app_assoc.
    rewrite rd_mid. cbn [mbind option_bind].
    replace (zlen p + (1 + (zlen m + 1)) - 1) with (zlen (p ++ x :: m)) by zs.
    replace (p ++ x :: m ++ y :: t) with ((p ++ x :: m) ++ y :: t)
      by by rewrite <- app_assoc.
    rewrite rd_mid. cbn [mbind option_bind].
    rewrite <- app_assoc, <- app_comm_cons, wr_mid. cbn [mbind option_bind].
    replace (p ++ y :: m ++ y :: t) with ((p ++ y :: m) ++ y :: t)
      by by rewrite <- app_assoc.
    replace (zlen (p ++ x :: m)) with (zlen (p ++ y :: m)) by zs.
    rewrite wr_mid. cbn [mbind option_bind].
    replace ((p ++ y :: m) ++ x :: t) with ((p ++ [y]) ++ m ++ (x :: t))
      by by rewrite <- !app_assoc.
    replace (zlen p + 1) with (zlen (p ++ [y])) by zs.
    replace (zlen (p ++ y :: m) - 1) with (zlen (p ++ [y]) + zlen m - 1) by zs.
    rewrite IH; [| cbn; rewrite length_app; lia | cbn in Hn; rewrite length_app in Hn; lia].
    f_equal. rewrite reverse_cons, reverse_app, reverse_singleton. cbn.
    by rewrite <- !app_assoc.
Qed.

Lemma rev_copy_blit temp i out j :
  (i <= length temp)%nat -> 0 <= j <= zlen out ->
  rev_copy out j temp i =
  (fun out' => (j + Z.of_nat i, out')) <$> blit out j (reverse (take i temp)).
Proof.
  revert out j. induction i as [|i IH]; intros out j Hi Hj; cbn [rev_copy].
  - rewrite take_0. change (reverse []) with (@nil Z). rewrite blit_nil by done. cbn. by rewrite Z.add_0_r.
  - destruct (rd_is_Some temp (Z.of_nat i)) as [c Hc]; [zs|]. rewrite Hc. cbn [mbind option_bind].
    rewrite rd_lookup, Nat2Z.id in Hc by lia.
    rewrite (take_S_r _ _ _ Hc), reverse_app, reverse_singleton. cbn [app].
    rewrite blit_cons. destruct (wr out j c) as [out'|] eqn:Hw; [|done]. cbn [mbind option_bind].
    pose proof (wr_zlen _ _ _ _ Hw). apply wr_Some in Hw as [? _].
    rewrite IH by lia. destruct (blit _ _ _); [|done]. cbn. do 2 f_equal. lia.
Qed.

(** ** The unsigned printers *)

Lemma put_zero_blit str : 2 <= zlen str -> put_zero str = blit str 0 (dec 0 ++ [0]).
Proof.
  intros. change (dec 0 ++ [0]) with [c_0; 0]. unfold put_zero. rewrite blit_cons.
  destruct (wr str 0 c_0) as [s1|] eqn:H1; [|done]. cbn.
  rewrite blit_cons. change (0 + 1) with 1. destruct (wr s1 1 0) as [s2|] eqn:H2; [|done]. cbn.
  symmetry. apply blit_nil. pose proof (wr_zlen _ _ _ _ H1). pose proof (wr_zlen _ _ _ _ H2). lia.
Qed.

Lemma dec_pos v : 0 < v -> dec v = reverse (lsd u64_digits v).
Proof. intros. unfold dec. by rewrite eqb_neq by lia. Qed.

Lemma u64_lt_digits v : is_u64 v -> 0 <= v < 10 ^ Z.of_nat u64_digits.
Proof. unfold_int. change (10 ^ Z.of_nat u64_digits) with 100000000000000000000. lia. Qed.

Lemma blit_zlen_pre {A} (b b' : list A) i s : blit b i s = Some b' -> i + zlen s <= zlen b.
Proof. by intros (_&?&_)%blit_Some. Qed.

(** Emitting digits low first, a terminator, and reversing in place. *)
Lemma emit_reverse v str :
  is_u64 v -> 0 < v -> zlen (dec v) < zlen str ->
  ('(i, str) ← dec_loop u64_digits v 0 str;
   str ← wr str i 0; swap_loop (Z.to_nat i) 0 (i - 1) str) = blit str 0 (dec v ++ [0]).
Proof.
  intros Hv Hp Hl. rewrite (dec_pos v Hp) in *. set (ds := lsd u64_digits v) in *.
  assert (zlen (reverse ds) = zlen ds) as Hr by zs. rewrite Hr in Hl.
  rewrite dec_loop_blit; [|by apply u64_lt_digits|split; [lia|apply zlen_nonneg]].
  fold ds. destruct (blit_total str ds 0) as [s1 H1]; [lia..|]. rewrite H1.
  cbn [fmap option_fmap option_map mbind option_bind]. rewrite Z.add_0_l.
  apply blit_0_Some in H1 as [_ ->].
  destruct (drop (length ds) str) as [|x t] eqn:Hd.
  { apply (f_equal zlen) in Hd. zs. }
  rewrite wr_mid. cbn [mbind option_bind].
  pose proof (swap_loop_spec ds (Z.to_nat (zlen ds)) [] (0 :: t)) as Hs.
  rewrite zlen_nil, Z.add_0_l in Hs. cbn [app] in Hs. rewrite Hs by zs.
  symmetry. apply blit_0_Some. split; [zs|].
  rewrite length_app, length_reverse, <- app_assoc, <- drop_drop, Hd. done.
Qed.

(** Emitting into a scratch buffer and copying back to front. *)
Lemma emit_copy v n str :
  is_u64 v -> 0 < v -> zlen (dec v) < zlen str -> (u64_digits <= n)%nat ->
  ('(i, temp) ← dec_loop u64_digits v 0 (zeros n);
   '(j, str) ← rev_copy str 0 temp (Z.to_nat i); wr str j 0) = blit str 0 (dec v ++ [0]).
Proof.
  intros Hv Hp Hl Hn. rewrite (dec_pos v Hp) in *. set (ds := lsd u64_digits v) in *.
  assert (zlen (reverse ds) = zlen ds) as Hr by zs. rewrite Hr in Hl.
  assert (length ds <= u64_digits)%nat by apply length_lsd.
  assert (zlen ds <= Z.of_nat n) as Hdn by zs.
  rewrite dec_loop_blit; [|by apply u64_lt_digits|split; [lia|apply zlen_nonneg]].
  fold ds. destruct (blit_total (zeros n) ds 0) as [s1 H1]; [lia | unfold zeros; zs |].
  rewrite H1. cbn [fmap option_fmap option_map mbind option_bind]. rewrite Z.add_0_l.
  apply blit_0_Some in H1 as [_ ->].
  unfold zlen at 1. rewrite Nat2Z.id. rewrite rev_copy_blit; [| rewrite length_app; lia |].
  2: split; [lia | apply zlen_nonneg].
  rewrite take_app_length. rewrite blit_app by (split; [lia | apply zlen_nonneg]).
  rewrite Hr, !Z.add_0_l. destruct (blit str 0 (reverse ds)) as [s2|] eqn:H2; [|done].
  cbn. apply wr_blit.
Qed.

(** the three unsigned printers of the kernel agree: for every [uint64_t]
    and every destination with room, [str_ltoa] (scratch buffer, copied back to
    front), [str_kutoa] and [str_u64toa] (digits emitted in place, then
    reversed) store exactly the decimal numeral of the value and a terminating
    NUL, and touch no byte after it; the numeral reads back as the value. *)
Theorem unsigned_printers_agree v str :
  is_u64 v -> zlen (dec v) < zlen str ->
  str_ltoa v str = blit str 0 (dec v ++ [0]) /\
  str_kutoa v str = blit str 0 (dec v ++ [0]) /\
  str_u64toa v str = blit str 0 (dec v ++ [0]) /\
  dval (dec v) = v.
Proof.
  intros Hv Hl. unfold str_ltoa, str_kutoa, str_u64toa.
  destruct (Z.eqb_spec v 0) as [->|Hne].
  - change (zlen (dec 0)) with 1 in Hl. rewrite put_zero_blit by lia. done.
  - assert (0 < v) by (unfold_int; lia).
    rewrite emit_reverse by done. split_and!; [|done..|].
    + apply emit_copy; [done..|]. unfold u64_digits. lia.
    + rewrite dec_pos by done. by apply dval_lsd, u64_lt_digits.
Qed.

Lemma unsigned_printers_agree_witness :
  str_ltoa UINT64_MAX (zeros 21) = Some (lit "18446744073709551615" ++ [0]) /\
  dval (dec UINT64_MAX) = UINT64_MAX.
Proof.
  destruct (unsigned_printers_agree UINT64_MAX (zeros 21)) as (-> & _ & _ & ->);
    [vm_compute; split; congruence | reflexivity |].
  split; vm_compute; reflexivity.
Defined.

(** ** Parsing *)

Lemma is_digit_range c : is_digit c = true -> 0 <= c - c_0 <= 9.
Proof. unfold is_digit, c_0, c_9. bool_true; try done. Qed.

Lemma dval_cons_acc ds a :
  foldl (fun a c => a * 10 + (c - c_0)) a ds = a * 10 ^ zlen ds + dval ds.
Proof.
  unfold dval. induction ds as [|d ds IH] using rev_ind; [change (a = a * 1 + 0); lia|].
  rewrite !foldl_app. cbn. rewrite IH.
  rewrite zlen_app, Z.pow_add_r by zs. change (10 ^ zlen [d]) with 10. lia.
Qed.

Lemma dval_nonneg ds : Forall (fun c => is_digit c = true) ds -> 0 <= dval ds.
Proof.
  induction ds as [|d ds IH] using rev_ind; [cbn; lia|].
  intros [Hds Hd]%Forall_app. rewrite dval_snoc. apply (Forall_singleton (fun c => is_digit c = true)) in Hd.
  pose proof (is_digit_range _ Hd). specialize (IH Hds). lia.
Qed.

Lemma atoi_loop_spec ds c t res sign :
  Forall (fun c => is_digit c = true) ds -> is_digit c = false ->
  sign = 1 \/ sign = -1 -> 0 <= res <= INT_MAX ->
  atoi_loop (ds ++ c :: t) res sign =
  Some (clamp_int (sign * (res * 10 ^ zlen ds + dval ds))).
Proof.
  intros Hds Hc Hsign. revert res. induction Hds as [|d ds Hd Hds IH]; intros res Hres; cbn [app atoi_loop].
  - rewrite Hc. unfold dval, clamp_int. cbn. unfold_int. f_equal.
    rewrite Z.mul_1_r, Z.add_0_r. destruct Hsign; subst; lia.
  - rewrite Hd. pose proof (is_digit_range _ Hd) as Hr.
    rewrite Z.quot_div_nonneg by (unfold_int; lia).
    assert (dval (d :: ds) = (d - c_0) * 10 ^ zlen ds + dval ds) as Hv.
    { unfold dval at 1. cbn. apply dval_cons_acc. }
    rewrite Hv, zlen_cons, Z.pow_add_r by zs. change (10 ^ 1) with 10.
    pose proof (dval_nonneg ds Hds). pose proof (Z.pow_pos_nonneg 10 (zlen ds) ltac:(lia) (zlen_nonneg _)).
    destruct (Z.ltb_spec ((INT_MAX - (d - c_0)) / 10) res) as [Hov|Hok].
    + assert (INT_MAX < res * 10 + (d - c_0)).
      { pose proof (Z.mul_succ_div_gt (INT_MAX - (d - c_0)) 10 ltac:(lia)). unfold_int. lia. }
      assert (INT_MAX < res * (10 * 10 ^ zlen ds) + ((d - c_0) * 10 ^ zlen ds + dval ds)) by nia.
      unfold clamp_int. unfold_int. destruct Hsign; subst; cbn; f_equal; lia.
    + assert (res * 10 + (d - c_0) <= INT_MAX).
      { pose proof (Z.mul_div_le (INT_MAX - (d - c_0)) 10 ltac:(lia)). lia. }
      rewrite IH by lia. f_equal. f_equal. lia.
Qed.

(** [str_atoi] on an optional sign, digits and any non-digit terminator
    never overflows an [int]: the result is the value of the numeral clamped to
    [INT_MIN, INT_MAX], for digit strings of every length. *)
Theorem str_atoi_clamps (neg : bool) ds c t :
  Forall (fun c => is_digit c = true) ds -> is_digit c = false ->
  str_atoi ((if neg then [c_minus] else [c_plus]) ++ ds ++ c :: t) =
  Some (clamp_int ((if neg then -1 else 1) * dval ds)).
Proof.
  intros Hds Hc. unfold str_atoi. destruct neg; cbn [app]; cbn;
    rewrite atoi_loop_spec; auto; unfold_int; lia.
Qed.

Lemma str_atoi_clamps_witness :
  str_atoi (lit "-99999999999999999999" ++ [0]) = Some INT_MIN.
Proof.
  refine (str_atoi_clamps true (lit "99999999999999999999") 0 [] _ eq_refl).
  repeat constructor.
Defined.

(** ** Signed round trip *)

Lemma itoa_loop_dec fuel neg v i str :
  0 <= v ->
  itoa_loop fuel neg (if neg then - v else v) i str = dec_loop fuel v i str.
Proof.
  revert v i str. induction fuel as [|fuel IH]; intros v i str Hv; cbn [itoa_loop dec_loop].
  all: replace ((if neg then - v else v) =? 0) with (v =? 0)
    by (destruct neg; bool_true; done).
  - done.
  - destruct (v =? 0); [done|].
    assert ((if neg then - Z.rem (if neg then - v else v) 10
             else Z.rem (if neg then - v else v) 10) = v mod 10) as ->.
    { destruct neg; rewrite ?Z.rem_opp_l, ?Z.opp_involutive by lia; by apply Z.rem_mod_nonneg; lia. }
    assert (Z.quot (if neg then - v else v) 10 = if neg then - (v / 10) else v / 10) as ->.
    { destruct neg; rewrite ?Z.quot_opp_l by lia; by rewrite Z.quot_div_nonneg by lia. }
    destruct (wr _ _ _); [|done]. cbn. apply IH, Z.div_pos; lia.
Qed.

(** The numeral of an [int]. *)
Definition sdec (n : Z) : bytes :=
  if n =? 0 then [c_0]
  else (if n <? 0 then [c_minus] else []) ++ reverse (lsd 10 (Z.abs n)).

Lemma int_abs_digits n : INT_MIN <= n <= INT_MAX -> 0 <= Z.abs n < 10 ^ Z.of_nat 10.
Proof. unfold_int. change (10 ^ Z.of_nat 10) with 10000000000. lia. Qed.

Lemma str_itoa_blit n str :
  INT_MIN <= n <= INT_MAX -> 12 <= zlen str ->
  str_itoa n str = blit str 0 (sdec n ++ [0]).
Proof.
  intros Hn Hl. unfold str_itoa, sdec. destruct (Z.eqb_spec n 0) as [->|Hne].
  { rewrite put_zero_blit by lia. done. }
  pose proof (itoa_loop_dec 10 (n <? 0) (Z.abs n) 0 str ltac:(lia)) as Hd.
  replace (if n <? 0 then - Z.abs n else Z.abs n) with n in Hd by (bool_true; lia).
  rewrite Hd. set (ds := lsd 10 (Z.abs n)).
  assert (length ds <= 10)%nat as Hds by apply length_lsd.
  rewrite dec_loop_blit; [|by apply int_abs_digits | lia]. fold ds.
  destruct (blit_total str ds 0) as [s1 H1]; [lia | zs |]. rewrite H1.
  cbn [fmap option_fmap option_map mbind option_bind]. rewrite Z.add_0_l.
  apply blit_0_Some in H1 as [_ ->].
  destruct (drop (length ds) str) as [|x [|y t]] eqn:Hdr;
    [apply (f_equal zlen) in Hdr; zs..|].
  pose proof (fun b => swap_loop_spec (ds ++ b) (Z.to_nat (zlen (ds ++ b))) []) as Hs.
  destruct (n <? 0).
  - rewrite wr_mid. cbn [mbind option_bind].
    replace (ds ++ c_minus :: y :: t) with ((ds ++ [c_minus]) ++ y :: t)
      by by rewrite <- app_assoc.
    replace (zlen ds + 1) with (zlen (ds ++ [c_minus])) by zs.
    rewrite wr_mid. cbn [mbind option_bind].
    specialize (Hs [c_minus] (0 :: t)). rewrite zlen_nil, Z.add_0_l in Hs.
    cbn [app] in Hs. rewrite Hs by zs. symmetry. apply blit_0_Some.
    rewrite reverse_app, reverse_singleton. split; [zs|].
    rewrite !length_app, length_reverse, <- !app_assoc. cbn [app length].
    do 2 f_equal. f_equal. replace (1 + length ds + 1)%nat with (length ds + 2)%nat by lia.
    by rewrite <- drop_drop, Hdr.
  - cbn [mbind option_bind]. rewrite wr_mid. cbn [mbind option_bind].
    specialize (Hs [] (0 :: y :: t)). rewrite app_nil_r, zlen_nil, Z.add_0_l in Hs.
    cbn [app] in Hs. rewrite Hs by zs. symmetry. apply blit_0_Some. cbn [app].
    split; [zs|]. rewrite length_app, length_reverse, <- app_assoc, <- drop_drop, Hdr. done.
Qed.

(** [str_itoa] followed by [str_atoi] is the identity on every [int],
    [INT_MIN] included: twelve bytes of destination are always enough, the
    printed text is a C string, and reading it back gives the same number. *)
Theorem itoa_atoi_roundtrip n str :
  INT_MIN <= n <= INT_MAX -> 12 <= zlen str ->
  exists out, str_itoa n str = Some out /\ zlen out = zlen str /\ str_atoi out = Some n.
Proof.
  intros Hn Hl. rewrite str_itoa_blit by done.
  pose proof (int_abs_digits n Hn) as Habs. pose proof (length_lsd 10 (Z.abs n)) as Hll.
  destruct (blit_total str (sdec n ++ [0]) 0) as [out Hout]; [lia| |].
  { unfold sdec. destruct (n =? 0), (n <? 0); zs. }
  exists out. split; [done|]. split; [by eapply blit_zlen|].
  apply blit_0_Some in Hout as [_ ->]. set (t := drop _ _). clearbody t.
  unfold sdec. destruct (Z.eqb_spec n 0) as [->|Hne]; [done|].
  assert (Forall (fun c => is_digit c = true) (reverse (lsd 10 (Z.abs n)))) as Hd
    by (apply Forall_reverse, lsd_digits; lia).
  pose proof (dval_lsd 10 (Z.abs n) Habs) as Hv. revert Hd Hv.
  generalize (lsd_nonempty 10 (Z.abs n) ltac:(lia) ltac:(lia)).
  intros Hnil Hd Hv. rewrite <- !app_assoc. destruct (Z.ltb_spec n 0).
  - cbn [app]. unfold str_atoi. rewrite Z.eqb_refl.
    rewrite atoi_loop_spec, Hv by (auto; unfold_int; lia).
    unfold clamp_int. unfold_int. f_equal. lia.
  - destruct (reverse (lsd 10 (Z.abs n))) as [|d ds] eqn:E.
    { by apply (f_equal length) in E; rewrite length_reverse in E; destruct (lsd _ _). }
    cbn [app]. pose proof (atoi_loop_spec (d :: ds) 0 t 0 1 Hd eq_refl
      ltac:(auto) ltac:(unfold_int; lia)) as H'.
    unfold str_atoi. apply Forall_cons in Hd as [Hd _].
    pose proof (is_digit_range _ Hd). unfold c_minus, c_plus, c_0 in *.
    rewrite !eqb_neq by lia. cbn [app] in *. rewrite H', Hv.
    unfold clamp_int. unfold_int. f_equal. lia.
Qed.

Lemma itoa_atoi_roundtrip_witness :
  exists out, str_itoa INT_MIN (zeros 12) = Some out /\ zlen out = zlen (zeros 12) /\
    str_atoi out = Some INT_MIN.
Proof. apply itoa_atoi_roundtrip; vm_compute; [split; congruence | congruence]. Defined.

(** ** Comparison and copying contracts *)

Lemma strcmp_cstr b1 s1 b2 s2 :
  cstr b1 s1 -> cstr b2 s2 ->
  exists r, str_strcmp b1 b2 = Some r /\ (r = 0 <-> s1 = s2).
Proof.
  intros H1 H2. revert b2 s2 H2. cstr_ind H1; intros b2 s2 H2;
    apply cstr_inv in H2 as [(-> & u & ->) | (d & s2' & b2' & -> & -> & Hd & H2)]; cbn.
  - exists 0. done.
  - eexists. split; [done|]. split; [lia | done].
  - rewrite eqb_neq by done. cbn. eexists. split; [done|].
    split; [lia | done].
  - rewrite eqb_neq by done. cbn. destruct (Z.eqb_spec x d) as [->|].
    + destruct (IH _ H1 _ _ H2) as (r & -> & Hr). exists r. split; [done|].
      rewrite Hr. split; [by intros -> | by intros [= ->]].
    + eexists. split; [done|]. split; [lia | congruence].
Qed.

Lemma startswith_cstr b s p q :
  cstr b s -> cstr p q ->
  exists r, str_startswith b p = Some r /\ (r = 1 \/ r = 0) /\ (r = 1 <-> q `prefix_of` s).
Proof.
  intros Hb Hp. revert b s Hb. cstr_ind Hp; intros b' s' Hb.
  - exists 1. split_and!; auto. split; [intros _; apply prefix_nil | done].
  - rewrite eqb_neq by done.
    apply cstr_inv in Hb as [(-> & u & ->) | (d & s2' & b2' & -> & -> & Hd & Hb)].
    + rewrite eqb_neq by done. exists 0. split_and!; auto. split; [done|].
      by intros ?%prefix_nil_inv.
    + destruct (Z.eqb_spec d x) as [->|Hne].
      * destruct (IH _ Hp _ _ Hb) as (r & Hr & Hc & Hi). exists r. split_and!; [done..|].
        rewrite Hi. split; [apply prefix_cons | apply prefix_cons_inv_2].
      * exists 0. split_and!; auto. split; [done|]. intros ?%prefix_cons_inv_1. congruence.
Qed.

(** the string predicates decide what their names say on every pair of C
    strings: [str_strcmp] returns 0 exactly for equal strings, and
    [str_startswith] returns 1 exactly for a prefix and 0 otherwise; neither
    reads past a terminator. *)
Theorem string_predicates_decide b1 s1 b2 s2 :
  cstr b1 s1 -> cstr b2 s2 ->
  (exists r, str_strcmp b1 b2 = Some r /\ (r = 0 <-> s1 = s2)) /\
  (exists r, str_startswith b1 b2 = Some r /\ (r = 1 \/ r = 0) /\ (r = 1 <-> s2 `prefix_of` s1)).
Proof. intros. split; [by apply strcmp_cstr | by apply startswith_cstr]. Qed.

Lemma string_predicates_decide_witness :
  (exists r, str_strcmp (lit "users" ++ [0]) (lit "us" ++ [0]) = Some r /\
     (r = 0 <-> lit "users" = lit "us")) /\
  (exists r, str_startswith (lit "users" ++ [0]) (lit "us" ++ [0]) = Some r /\
     (r = 1 \/ r = 0) /\ (r = 1 <-> lit "us" `prefix_of` lit "users")).
Proof.
  apply string_predicates_decide; exists []; (split; [reflexivity|]);
    repeat constructor; discriminate.
Defined.

(** [str_strncpy] is all or nothing.  With a source string [s] and a
    destination of at least [capacity] bytes, either [s] and its terminator fit
    and they are what the destination then holds (result 0), or the result is
    -1 and no byte of the destination has changed; in both cases nothing at or
    beyond [capacity] is written. *)
Theorem str_strncpy_all_or_nothing d src s capacity :
  cstr src s -> 0 <= capacity <= zlen d ->
  exists rc d', str_strncpy (Some d) (Some src) capacity = Some (rc, Some d') /\
    (forall i, capacity <= i -> rd d' i = rd d i) /\
    ((rc = 0 /\ zlen s < capacity /\ cstr d' s) \/
     (rc = -1 /\ capacity <= zlen s /\ d' = d)).
Proof.
  intros Hs Hc. unfold str_strncpy. destruct (Z.lt_ge_cases (zlen s) capacity).
  - rewrite (strncpy_fits _ _ _ _ Hs) by done.
    destruct (blit_total d (s ++ [0]) 0) as [d' Hd]; [lia | zs |]. rewrite Hd. cbn.
    exists 0, d'. split_and!; [done| |left; split_and!; auto].
    + intros i Hi. rewrite (rd_blit _ _ _ _ _ Hd). rewrite zlen_app. change (zlen [0]) with 1.
      pose proof (zlen_nonneg s). by bool_true.
    + destruct Hs as (t & -> & Hs). by eapply cstr_blit.
  - rewrite (strncpy_too_long _ _ _ _ Hs) by lia. cbn. exists (-1), d. split_and!; auto.
Qed.

Lemma str_strncpy_all_or_nothing_witness :
  exists rc d', str_strncpy (Some (zeros 8)) (Some (lit "abc" ++ [0])) 4 = Some (rc, Some d') /\
    (forall i, 4 <= i -> rd d' i = rd (zeros 8) i) /\
    ((rc = 0 /\ zlen (lit "abc") < 4 /\ cstr d' (lit "abc")) \/
     (rc = -1 /\ 4 <= zlen (lit "abc") /\ d' = zeros 8)).
Proof.
  apply str_strncpy_all_or_nothing.
  - exists []. split; [reflexivity|]. repeat constructor; discriminate.
  - vm_compute. split; congruence.
Defined.

(** ** Hexadecimal *)

Fixpoint hexs (fuel : nat) (v : Z) : bytes :=
  match fuel with
  | O => []
  | S fuel' =>
      if v =? 0 then [] else hexs fuel' (v / 16) ++ [nth (Z.to_nat (v mod 16)) hex_digits 0]
  end.

Definition hex_digit_val (c : Z) : Z := if is_digit c then c - c_0 else c - 55.
Definition hval (s : bytes) : Z := foldl (fun a c => a * 16 + hex_digit_val c) 0 s.

Lemma hex_digit_nth v : 0 <= v < 16 ->
  rd hex_digits v = Some (nth (Z.to_nat v) hex_digits 0) /\
  hex_digit_val (nth (Z.to_nat v) hex_digits 0) = v.
Proof.
  intros H. assert (v = 0 \/ v = 1 \/ v = 2 \/ v = 3 \/ v = 4 \/ v = 5 \/ v = 6 \/ v = 7 \/
    v = 8 \/ v = 9 \/ v = 10 \/ v = 11 \/ v = 12 \/ v = 13 \/ v = 14 \/ v = 15) as E by lia.
  repeat destruct E as [->|E]; [..|subst]; split; reflexivity.
Qed.

Lemma hval_hexs fuel v : 0 <= v < 16 ^ Z.of_nat fuel -> hval (hexs fuel v) = v.
Proof.
  revert v. induction fuel as [|fuel IH]; intros v Hv; cbn [hexs].
  - change (16 ^ Z.of_nat 0) with 1 in Hv. change (0 = v). lia.
  - destruct (Z.eqb_spec v 0) as [->|]; [done|].
    rewrite Nat2Z.inj_succ, Z.pow_succ_r in Hv by lia.
    assert (hval (hexs fuel (v / 16)) = v / 16) as IH'
      by (apply IH; split; [apply Z.div_pos; lia | apply Z.div_lt_upper_bound; lia]).
    unfold hval in *. rewrite foldl_app, IH'. cbn [foldl].
    rewrite (proj2 (hex_digit_nth (v mod 16) ltac:(apply Z.mod_pos_bound; lia))).
    pose proof (Z.div_mod v 16). lia.
Qed.

Lemma length_hexs fuel v : (length (hexs fuel v) <= fuel)%nat.
Proof.
  revert v. induction fuel as [|fuel IH]; intros v; cbn; [lia|].
  destruct (v =? 0); cbn; [lia|]. rewrite length_app. cbn. specialize (IH (v / 16)). lia.
Qed.

Lemma hex_loop_spec fuel v pre w t :
  0 <= v < 16 ^ Z.of_nat fuel -> length w = length (hexs fuel v) ->
  hex_loop fuel v (zlen (pre ++ w)) (pre ++ w ++ t) =
  Some (zlen pre, pre ++ hexs fuel v ++ t).
Proof.
  revert v w t. induction fuel as [|fuel IH]; intros v w t Hv Hw; cbn [hexs hex_loop] in *.
  - change (16 ^ Z.of_nat 0) with 1 in Hv. destruct w; [|done].
    rewrite app_nil_r. assert (v = 0) as -> by lia. done.
  - destruct (Z.eqb_spec v 0) as [->|Hne]; [destruct w; [|done]; by rewrite app_nil_r|].
    rewrite length_app in Hw. cbn [length] in Hw.
    destruct w as [|x w _] using rev_ind; [cbn in Hw; lia|].
    rewrite length_app in Hw. cbn [length] in Hw.
    change 15 with (2 ^ 4 - 1). rewrite land_ones_mod by lia. change (2 ^ 4) with 16.
    rewrite (proj1 (hex_digit_nth (v mod 16) ltac:(apply Z.mod_pos_bound; lia))).
    cbn [mbind option_bind]. set (d := nth _ _ _).
    replace (zlen (pre ++ w ++ [x]) - 1) with (zlen (pre ++ w)) by zs.
    replace (pre ++ (w ++ [x]) ++ t) with ((pre ++ w) ++ x :: t) by by rewrite <- !app_assoc.
    rewrite wr_mid. cbn [mbind option_bind]. rewrite Z.shiftr_div_pow2 by lia.
    change (2 ^ 4) with 16. rewrite <- app_assoc.
    rewrite IH; [by rewrite <- !app_assoc | | lia].
    rewrite Nat2Z.inj_succ, Z.pow_succ_r in Hv by lia.
    split; [apply Z.div_pos; lia | apply Z.div_lt_upper_bound; lia].
Qed.

(** for every non-zero [uint64_t] and a buffer of nineteen bytes,
    [uint64_to_str] stays inside the buffer and returns a pointer to "0x",
    upper-case hexadecimal digits whose value is the argument, and a NUL. *)
Theorem uint64_to_str_hex v buf :
  0 < v -> is_u64 v -> 19 <= zlen buf ->
  exists p buf' ds t, uint64_to_str v buf = Some (p, buf') /\ 0 <= p /\
    drop (Z.to_nat p) buf' = [c_0; c_x] ++ ds ++ 0 :: t /\ hval ds = v.
Proof.
  intros Hp Hv Hl. unfold uint64_to_str. rewrite wr_total by lia. cbn [mbind option_bind].
  rewrite eqb_neq by lia. change (Z.to_nat 18) with 18%nat.
  rewrite insert_take_drop by zs. set (ds := hexs 16 v).
  assert (length ds <= 16)%nat as Hds by apply length_hexs.
  set (pre := take (18 - length ds) (take 18 buf)).
  set (w := drop (18 - length ds) (take 18 buf)).
  assert (take 18 buf = pre ++ w) as Hpw by (symmetry; apply take_drop).
  assert (length pre = (18 - length ds)%nat) as Hpl by (unfold pre; rewrite !length_take; unfold zlen in Hl; lia).
  assert (length w = length ds) as Hwl by (unfold w; rewrite length_drop, length_take; unfold zlen in Hl; lia).
  assert (zlen (pre ++ w) = 18) as H18 by (unfold zlen; rewrite length_app; lia).
  clearbody pre w. rewrite Hpw, <- app_assoc, <- H18.
  assert (0 <= v < 16 ^ Z.of_nat 16) as Hv16.
  { change (16 ^ Z.of_nat 16) with 18446744073709551616. unfold_int. lia. }
  rewrite hex_loop_spec by done. fold ds. cbn [mbind option_bind].
  destruct pre as [|x pre _] using rev_ind; [cbn [length] in Hpl; lia|].
  destruct pre as [|y pre _] using rev_ind; [cbn [length app] in Hpl; lia|].
  replace (zlen ((pre ++ [y]) ++ [x]) - 1) with (zlen (pre ++ [y])) by zs.
  rewrite <- (app_assoc (pre ++ [y])). cbn [app]. rewrite wr_mid. cbn [mbind option_bind].
  replace (zlen ((pre ++ [y]) ++ [x]) - 2) with (zlen pre) by zs.
  rewrite <- (app_assoc pre). cbn [app]. rewrite wr_mid. cbn [mbind option_bind].
  do 4 eexists. split; [done|]. split; [apply zlen_nonneg|]. split.
  - unfold zlen. rewrite Nat2Z.id, drop_app_length. done.
  - by apply hval_hexs.
Qed.

Lemma uint64_to_str_hex_witness :
  exists p buf' ds t, uint64_to_str 48879 (zeros 19) = Some (p, buf') /\ 0 <= p /\
    drop (Z.to_nat p) buf' = [c_0; c_x] ++ ds ++ 0 :: t /\ hval ds = 48879.
Proof. apply uint64_to_str_hex; [lia | unfold_int; lia | vm_compute; congruence]. Defined.

(** for the value 0 the prefix is written the wrong way round: the string
    [uint64_to_str] returns is "x0", not "0x0". *)
Theorem uint64_to_str_zero buf :
  19 <= zlen buf ->
  exists buf' t, uint64_to_str 0 buf = Some (16, buf') /\ drop 16 buf' = [c_x; c_0; 0] ++ t.
Proof.
  intros Hl. unfold uint64_to_str. rewrite wr_blit.
  destruct (blit_total buf [0] 18) as [b1 H1]; [lia | zs |].
  rewrite H1. cbn [mbind option_bind Z.eqb]. pose proof (blit_zlen _ _ _ _ H1).
  rewrite (wr_blit b1). destruct (blit_total b1 [c_0] 17) as [b2 H2]; [lia | zs |].
  rewrite H2. cbn [mbind option_bind]. pose proof (blit_zlen _ _ _ _ H2).
  rewrite (wr_blit b2). destruct (blit_total b2 [c_x] 16) as [b3 H3]; [lia | zs |].
  rewrite H3. cbn [mbind option_bind]. exists b3, (drop 19 b3). split; [done|].
  pose proof (blit_zlen _ _ _ _ H3).
  assert (rd b3 16 = Some c_x) as E1 by (by rewrite (rd_blit _ _ _ _ _ H3)).
  assert (rd b3 17 = Some c_0) as E2
    by (by rewrite (rd_blit _ _ _ _ _ H3), (rd_blit _ _ _ _ _ H2)).
  assert (rd b3 18 = Some 0) as E3
    by (by rewrite (rd_blit _ _ _ _ _ H3), (rd_blit _ _ _ _ _ H2), (rd_blit _ _ _ _ _ H1)).
  rewrite rd_lookup in E1, E2, E3 by lia.
  by rewrite (drop_S _ _ 16 E1), (drop_S _ _ 17 E2), (drop_S _ _ 18 E3).
Qed.

Lemma uint64_to_str_zero_witness :
  exists buf' t, uint64_to_str 0 (zeros 19) = Some (16, buf') /\ drop 16 buf' = [c_x; c_0; 0] ++ t.
Proof. apply uint64_to_str_zero. vm_compute. congruence. Defined.

(** [clean_input_string] removes exactly the trailing blanks (CR, LF, space,
    tab): the buffer keeps its size and then holds the original string without
    its longest blank suffix, which no longer ends in a blank. *)
Theorem clean_input_string_trims b s :
  cstr b s ->
  exists b' u, clean_input_string (Some b) = Some (Some b') /\ zlen b' = zlen b /\
    cstr b' (rtrim is_blank s) /\ s = rtrim is_blank s ++ u /\
    Forall (fun c => is_blank c = true) u /\
    (forall c, last (rtrim is_blank s) = Some c -> is_blank c = false).
Proof.
  intros Hs. unfold clean_input_string. rewrite (strlen_cstr _ _ Hs). cbn [mbind option_bind].
  unfold zlen. rewrite Nat2Z.id. destruct (trim_cstr is_blank b s Hs) as (b' & -> & Hb & Hl).
  destruct (rtrim_prefix is_blank s) as (u & Hu & Hf). exists b', u.
  split_and!; try done. apply rtrim_last.
Qed.

Lemma clean_input_string_trims_witness :
  exists b' u, clean_input_string (Some (lit "ab " ++ [10; 0])) = Some (Some b') /\
    zlen b' = 5 /\ cstr b' (rtrim is_blank (lit "ab " ++ [10])) /\
    lit "ab " ++ [10] = rtrim is_blank (lit "ab " ++ [10]) ++ u /\
    Forall (fun c => is_blank c = true) u /\
    (forall c, last (rtrim is_blank (lit "ab " ++ [10])) = Some c -> is_blank c = false).
Proof.
  apply (clean_input_string_trims (lit "ab " ++ [10; 0]) (lit "ab " ++ [10])).
  exists []. split; [reflexivity|]. repeat constructor; discriminate.
Defined.

(** ** Numerals *)

Lemma dec_digits v : 0 <= v -> Forall (fun c => is_digit c = true) (dec v).
Proof.
  intros Hv. unfold dec. destruct (v =? 0); [by constructor|]. apply Forall_reverse, lsd_digits, Hv.
Qed.

Lemma dval_dec v : is_u64 v -> dval (dec v) = v.
Proof.
  intros Hv. unfold dec. destruct (Z.eqb_spec v 0) as [->|]; [done|]. by apply dval_lsd, u64_lt_digits.
Qed.

(** ** Terminated texts *)

Definition is_text (b : bytes) : Prop := exists s, cstr b s.

Lemma is_text_cons c b : is_text b -> is_text (c :: b).
Proof.
  intros (s & Hs). destruct (Z.eq_dec c 0) as [->|Hc]; [exists []; apply cstr_nil|]. exists (c :: s). by apply cstr_cons.
Qed.

Lemma is_text_app a b : is_text b -> is_text (a ++ b).
Proof. intros Hb. induction a as [|c a IH]; [done|]. by apply is_text_cons. Qed.

Lemma is_text_zero a b : is_text (a ++ 0 :: b).
Proof. apply is_text_app. exists []. apply cstr_nil. Qed.

Lemma is_text_rd b i : rd b i = Some 0 -> is_text b.
Proof.
  intros E. pose proof (rd_Some _ _ _ E) as Hi. rewrite rd_lookup in E by lia. rewrite <- (take_drop_middle _ _ _ E). apply is_text_zero.
Qed.

Lemma is_text_drop b i j : rd b j = Some 0 -> 0 <= i <= j -> is_text (drop (Z.to_nat i) b).
Proof.
  intros E Hi. apply (is_text_rd _ (j - i)). rewrite rd_lookup in * by lia. rewrite lookup_drop. rewrite <- E. f_equal. lia.
Qed.

Lemma is_text_clit s : is_text (clit s).
Proof. apply is_text_zero. Qed.

Lemma is_text_prefix a b : is_text a -> is_text (a ++ b).
Proof. intros (s & t & -> & Hs). exists s, (t ++ b). by rewrite <- app_assoc. Qed.

Lemma is_text_tail c b : c <> 0 -> is_text (c :: b) -> is_text b.
Proof.
  intros Hc (s & t & E & Hs). destruct s as [|d s]; cbn in E; simplify_eq. apply Forall_cons in Hs as [_ Hs]. by exists s, t.
Qed.

Lemma is_text_head b : is_text b -> exists c t, b = c :: t /\ (c <> 0 -> is_text t).
Proof.
  intros Hb. destruct b as [|c t]; [destruct Hb as (s & t & E & _); by destruct s|].
  exists c, t. split; [done|]. intros Hc. by eapply is_text_tail.
Qed.

(** ** Numerals *)

Lemma length_lsd_bound fuel v k : 0 <= v < 10 ^ Z.of_nat k -> (length (lsd fuel v) <= k)%nat.
Proof.
  revert v k. induction fuel as [|fuel IH]; intros v k Hv; cbn [lsd]; [cbn; lia|].
  destruct (Z.eqb_spec v 0) as [->|Hne]; [cbn; lia|]. destruct k as [|k]; [change (10 ^ Z.of_nat 0) with 1 in Hv; lia|].
  cbn [length]. apply le_n_S, IH. rewrite Nat2Z.inj_succ, Z.pow_succ_r in Hv by lia.
  split; [apply Z.div_pos; lia | apply Z.div_lt_upper_bound; lia].
Qed.

Lemma zlen_dec_bound v k : 0 <= v < 10 ^ Z.of_nat k -> (0 < k)%nat -> zlen (dec v) <= Z.of_nat k.
Proof.
  intros Hv Hk. unfold dec. destruct (v =? 0); [change (zlen [c_0]) with 1; lia|].
  pose proof (length_lsd_bound u64_digits v k Hv). zs.
Qed.

Lemma digits_nozero ds : Forall (fun c => is_digit c = true) ds -> nozero ds.
Proof. intros Hd. eapply Forall_impl; [exact Hd|]. intros c Hc ->. done. Qed.

Lemma forallb_digits ds : forallb is_digit ds = true <-> Forall (fun c => is_digit c = true) ds.
Proof. rewrite forallb_forall, Forall_forall. by setoid_rewrite list_elem_of_In. Qed.
