(* ===== verification/FileStore.v ===== *)
(** * What the file system promises to its clients

    The codec, the ELF loader and the package tools only use four entry points
    of helper/drivers/filesystem/vfs.c.  [FileStore] names them; a path is the
    byte string the caller passes.  Results are the C return codes; a read also
    yields the bytes it stored at the start of the caller's buffer.  [None] is
    undefined behaviour inside the file system.

    [SafeStore] is what the clients need for memory safety: calls may fail in
    any way but do not corrupt memory.  [LawfulStore] adds functional behaviour
    in a store that is not failing: [contents] is the abstract map from paths to
    file contents.  [MemStore] is a concrete instance of all three. *)

From S2P Require Import Prelude.

Class FileStore (F : Type) := {
  fs_create : F -> bytes -> option (Z * F);
  fs_delete : F -> bytes -> option (Z * F);
  fs_append_data : F -> bytes -> bytes -> option (Z * F);
  fs_read_raw_at : F -> bytes -> Z -> Z -> option (Z * bytes * F);
}.

Class SafeStore (F : Type) `{FileStore F} := {
  store_ok : F -> Prop;
  safe_create f p : store_ok f -> exists rc f', fs_create f p = Some (rc, f') /\ store_ok f';
  safe_delete f p : store_ok f -> exists rc f', fs_delete f p = Some (rc, f') /\ store_ok f';
  safe_append f p d :
    store_ok f -> is_bytes d ->
    exists rc f', fs_append_data f p d = Some (rc, f') /\ store_ok f';
  safe_read f p off n :
    store_ok f -> 0 <= off -> 0 < n <= INT_MAX ->
    exists rc d f', fs_read_raw_at f p off n = Some (rc, d, f') /\ store_ok f' /\
      is_bytes d /\ rc <= zlen d <= n;
}.

Class LawfulStore (F : Type) `{SafeStore F} := {
  contents : F -> gmap bytes bytes;
  law_bytes f p c : store_ok f -> contents f !! p = Some c -> is_bytes c;
  law_create f p :
    store_ok f -> contents f !! p = None ->
    exists f', fs_create f p = Some (0, f') /\ store_ok f' /\
      contents f' = <[p := []]> (contents f);
  law_append f p c d :
    store_ok f -> is_bytes d -> contents f !! p = Some c ->
    exists f', fs_append_data f p d = Some (0, f') /\ store_ok f' /\
      contents f' = <[p := c ++ d]> (contents f);
  law_read f p c off n :
    store_ok f -> contents f !! p = Some c -> 0 <= off -> 0 < n <= INT_MAX ->
    let d := take (Z.to_nat n) (drop (Z.to_nat off) c) in
    exists f', fs_read_raw_at f p off n = Some (zlen d, d, f') /\ store_ok f' /\
      contents f' = contents f;
}.

(** ** An in-memory store *)

Module MemStore.

Record t := mk { files : gmap bytes bytes }.

Definition create (f : t) (p : bytes) : option (Z * t) :=
  match files f !! p with
  | Some _ => Some (-1, f)
  | None => Some (0, mk (<[p := []]> (files f)))
  end.

Definition delete_file (f : t) (p : bytes) : option (Z * t) :=
  match files f !! p with
  | Some _ => Some (1, mk (delete p (files f)))
  | None => Some (-1, f)
  end.

Definition append (f : t) (p d : bytes) : option (Z * t) :=
  match files f !! p with
  | Some c => Some (0, mk (<[p := c ++ d]> (files f)))
  | None => Some (-1, f)
  end.

Definition read_at (f : t) (p : bytes) (off n : Z) : option (Z * bytes * t) :=
  match files f !! p with
  | Some c => let d := take (Z.to_nat n) (drop (Z.to_nat off) c) in Some (zlen d, d, f)
  | None => Some (-1, [], f)
  end.

Definition valid (f : t) : Prop := map_Forall (fun _ c => is_bytes c) (files f).

#[global] Instance store : FileStore t := {
  fs_create := create; fs_delete := delete_file;
  fs_append_data := append; fs_read_raw_at := read_at }.

Lemma valid_insert f p c : valid f -> is_bytes c -> valid (mk (<[p := c]> (files f))).
Proof. intros. by apply map_Forall_insert_2. Qed.

Lemma read_bytes c off n : is_bytes c -> is_bytes (take (Z.to_nat n) (drop (Z.to_nat off) c)).
Proof. intros. by apply Forall_take, Forall_drop. Qed.

#[global] Instance safe : SafeStore t.
Proof.
  refine {| store_ok := valid |}.
  - intros f p Hv. cbn. unfold create. destruct (files f !! p); do 2 eexists; (split; [done|]); [done|].
    apply valid_insert; [done | constructor].
  - intros f p Hv. cbn. unfold delete_file. destruct (files f !! p); do 2 eexists; (split; [done|]); [|done].
    by apply map_Forall_delete.
  - intros f p d Hv Hd. cbn. unfold append.
    destruct (files f !! p) eqn:E; do 2 eexists; (split; [done|]); [|done].
    apply valid_insert; [done|]. apply is_bytes_app. split; [by eapply Hv | done].
  - intros f p off n Hv Ho Hn. cbn. unfold read_at. destruct (files f !! p) as [c|] eqn:E;
      do 3 eexists; (split; [done|]); (split; [done|]).
    + split; [by eapply read_bytes, Hv | zs].
    + split; [constructor | zs].
Defined.

#[global] Instance lawful : LawfulStore t.
Proof.
  refine {| contents := files |}.
  - intros f p c Hv Hp. by eapply Hv.
  - intros f p Hv Hp. cbn. unfold create. rewrite Hp. eexists; split; [done|]. split; [|done].
    apply valid_insert; [done | constructor].
  - intros f p c d Hv Hd Hp. cbn. unfold append. rewrite Hp. eexists; split; [done|]. split; [|done].
    apply valid_insert; [done|]. apply is_bytes_app. split; [by eapply Hv | done].
  - intros f p c off n Hv Hp Ho Hn. cbn. unfold read_at. rewrite Hp. eexists. done.
Defined.

End MemStore.
