(* ===== verification/Lz4.v ===== *)
(** * The LZ4 codec (kernel/kutil/lz4_pack.c): data and operations

    The read-ahead buffer, the write buffer, the block compressor with its hash
    table, and the decompressor with its 4 KiB history ring, as state passing
    over a [FileStore].  Console messages are not modelled.  [None] is undefined
    behaviour (an access outside one of the C arrays).  Loops that are not
    counted carry fuel; the callers pass one that bounds the rounds (each round
    of [lz4_read_at] and [lz4_write] moves at least one byte, each round of the
    block compressor advances [index], each token or extension byte advances
    [src_idx]), and the theorems of Lz4Roundtrip and Lz4Safety show it is never exhausted. *)

From S2P Require Import Prelude FileStore.

Definition LZ4_WINDOW_SIZE : Z := 4096.
Definition LZ4_READ_AHEAD_SIZE : Z := 4096.
Definition LZ4_OUTPUT_SIZE : Z := 65536.
Definition LZ4_BLOCK_BUFFER_SIZE : Z := 8192.
Definition LZ4_HASH_SIZE : Z := 4096.

Record lz4_read_buffer_t := RB {
  rb_path : bytes;
  rb_file_size : Z;
  rb_start : Z;
  rb_length : Z;
  rb_data : bytes;
}.

Record lz4_write_buffer_t := WB {
  wb_path : option bytes;
  wb_data : bytes;
  wb_length : Z;
  wb_capacity : Z;
}.

Record lz4_decode_output_t := DO {
  do_path : bytes;
  do_history : bytes;
  do_data : bytes;
  do_length : Z;
  do_produced : Z;
}.

Section Codec.
Context {F : Type} `{FileStore F}.

(** ** Buffered reading *)

(** Make the buffer cover [offset] (lines 44-55).  The first component is the
    result of the read, positive when no read was needed. *)
Definition refill (buffer : lz4_read_buffer_t) (f : F) (offset : Z)
  : option (Z * lz4_read_buffer_t * F) :=
  if (offset <? rb_start buffer) ||
     (rb_length buffer <=? u64 (offset - rb_start buffer)) then
    let requested := u64 (rb_file_size buffer - offset) in
    let requested :=
      if LZ4_READ_AHEAD_SIZE <? requested then LZ4_READ_AHEAD_SIZE else requested in
    '(bytes_read, stored, f) ← fs_read_raw_at f (rb_path buffer) offset requested;
    data ← blit (rb_data buffer) 0 stored;
    Some (bytes_read,
          if bytes_read <=? 0
          then RB (rb_path buffer) (rb_file_size buffer) (rb_start buffer)
                  (rb_length buffer) data
          else RB (rb_path buffer) (rb_file_size buffer) offset (u32 bytes_read) data, f)
  else Some (1, buffer, f).

(** The result code, the bytes stored so far in the array [destination] of
    [capacity] bytes, the buffer and the store. *)
Fixpoint read_loop (fuel : nat) (capacity : Z) (buffer : lz4_read_buffer_t) (f : F)
    (offset : Z) (destination : bytes) (length : Z)
  : option (Z * bytes * lz4_read_buffer_t * F) :=
  match fuel with
  | O => None
  | S fuel' =>
      if length =? 0 then Some (0, destination, buffer, f)
      else if rb_file_size buffer <=? offset then Some (-1, destination, buffer, f)
      else
        '(bytes_read, buffer, f) ← refill buffer f offset;
        if bytes_read <=? 0 then Some (-1, destination, buffer, f)
        else
          let buffer_offset := u32 (offset - rb_start buffer) in
          let available := u32 (rb_length buffer - buffer_offset) in
          let batch := if length <? available then length else available in
          chunk ← slice (rb_data buffer) buffer_offset batch;
          if capacity <? zlen destination + batch then None
          else read_loop fuel' capacity buffer f (u64 (offset + batch)) (destination ++ chunk)
                         (u32 (length - batch))
  end.

(** [capacity] is the size of the array the caller passes. *)
Definition lz4_read_at (capacity : Z) (buffer : lz4_read_buffer_t) (f : F) (offset length : Z)
  : option (Z * bytes * lz4_read_buffer_t * F) :=
  read_loop (S (Z.to_nat length)) capacity buffer f offset [] length.

(** ** Buffered writing *)

Definition lz4_write_flush (buffer : lz4_write_buffer_t) (f : F)
  : option (Z * lz4_write_buffer_t * F) :=
  if wb_length buffer =? 0 then Some (0, buffer, f)
  else
    match wb_path buffer with
    | None => None
    | Some path =>
        d ← slice (wb_data buffer) 0 (wb_length buffer);
        '(rc, f) ← fs_append_data f path d;
        if negb (rc =? 0) then Some (-1, buffer, f)
        else Some (0, WB (wb_path buffer) (wb_data buffer) 0 (wb_capacity buffer), f)
    end.

Fixpoint write_loop (fuel : nat) (buffer : lz4_write_buffer_t) (f : F) (data : bytes)
    (length : Z) : option (Z * lz4_write_buffer_t * F) :=
  match fuel with
  | O => None
  | S fuel' =>
      if length =? 0 then Some (0, buffer, f)
      else
        let available := u32 (wb_capacity buffer - wb_length buffer) in
        let batch := if length <? available then length else available in
        chunk ← slice data 0 batch;
        wdata ← blit (wb_data buffer) (wb_length buffer) chunk;
        let buffer := WB (wb_path buffer) wdata (u32 (wb_length buffer + batch))
                         (wb_capacity buffer) in
        let data := drop (Z.to_nat batch) data in
        let length := u32 (length - batch) in
        if wb_length buffer =? wb_capacity buffer then
          match wb_path buffer with
          | None => Some (-1, buffer, f)
          | Some _ =>
              '(rc, buffer, f) ← lz4_write_flush buffer f;
              if negb (rc =? 0) then Some (-1, buffer, f)
              else write_loop fuel' buffer f data length
          end
        else write_loop fuel' buffer f data length
  end.

Definition lz4_write (buffer : lz4_write_buffer_t) (f : F) (data : bytes) (length : Z)
  : option (Z * lz4_write_buffer_t * F) :=
  write_loop (S (Z.to_nat length)) buffer f data length.

Fixpoint length_loop (fuel : nat) (output : lz4_write_buffer_t) (f : F) (length : Z)
  : option (Z * lz4_write_buffer_t * F) :=
  match fuel with
  | O => None
  | S fuel' =>
      if 255 <=? length then
        '(rc, output, f) ← lz4_write output f [255] 1;
        if negb (rc =? 0) then Some (-1, output, f)
        else length_loop fuel' output f (length - 255)
      else lz4_write output f [u8 length] 1
  end.

Definition lz4_write_length (output : lz4_write_buffer_t) (f : F) (length : Z)
  : option (Z * lz4_write_buffer_t * F) :=
  length_loop (S (Z.to_nat length)) output f length.

(** One LZ4 sequence: token, literal length extension, literals, and, unless
    [match_length] is 0, the offset and the match length extension. *)
Definition lz4_write_sequence (output : lz4_write_buffer_t) (f : F) (literals : bytes)
    (literal_length match_length match_offset : Z)
  : option (Z * lz4_write_buffer_t * F) :=
  let encoded_match_length := if 0 <? match_length then u32 (match_length - 4) else 0 in
  let token := u8 (Z.lor (Z.shiftl (if literal_length <? 15 then literal_length else 15) 4)
                         (if encoded_match_length <? 15 then encoded_match_length else 15)) in
  '(rc, output, f) ← lz4_write output f [token] 1;
  if negb (rc =? 0) then Some (-1, output, f) else
  '(rc, output, f) ← (if 15 <=? literal_length
                      then lz4_write_length output f (literal_length - 15)
                      else Some (0, output, f));
  if negb (rc =? 0) then Some (-1, output, f) else
  '(rc, output, f) ← lz4_write output f literals literal_length;
  if negb (rc =? 0) then Some (-1, output, f) else
  if match_length =? 0 then Some (0, output, f) else
  let offset_bytes := [u8 (Z.land match_offset 255);
                       u8 (Z.land (Z.shiftr match_offset 8) 255)] in
  '(rc, output, f) ← lz4_write output f offset_bytes 2;
  if negb (rc =? 0) then Some (-1, output, f) else
  '(rc, output, f) ← (if 15 <=? encoded_match_length
                      then lz4_write_length output f (encoded_match_length - 15)
                      else Some (0, output, f));
  if negb (rc =? 0) then Some (-1, output, f) else
  Some (0, output, f).

(** ** Block compression *)

Definition lz4_hash (data : bytes) (offset : Z) : option Z :=
  b0 ← rd data offset;
  b1 ← rd data (offset + 1);
  b2 ← rd data (offset + 2);
  b3 ← rd data (offset + 3);
  let value := Z.lor (Z.lor (Z.lor b0 (Z.shiftl b1 8)) (Z.shiftl b2 16)) (Z.shiftl b3 24) in
  Some (Z.shiftr (u32 (value * 2654435761)) 20).

(** The bytes at [candidate] and [index] agree on the four positions tested. *)
Definition match4 (source : bytes) (candidate index : Z) : option bool :=
  a0 ← rd source candidate; c0 ← rd source index;
  if negb (a0 =? c0) then Some false else
  a1 ← rd source (candidate + 1); c1 ← rd source (index + 1);
  if negb (a1 =? c1) then Some false else
  a2 ← rd source (candidate + 2); c2 ← rd source (index + 2);
  if negb (a2 =? c2) then Some false else
  a3 ← rd source (candidate + 3); c3 ← rd source (index + 3);
  Some (a3 =? c3).

Fixpoint extend_match (fuel : nat) (source : bytes)
    (candidate index match_length maximum_match : Z) : option Z :=
  match fuel with
  | O => None
  | S fuel' =>
      if match_length <? maximum_match then
        a ← rd source (candidate + match_length);
        c ← rd source (index + match_length);
        if a =? c
        then extend_match fuel' source candidate index (match_length + 1) maximum_match
        else Some match_length
      else Some match_length
  end.

(** [for (pos = index + 1; pos < match_end && pos <= source_size - 4; pos++)] *)
Fixpoint rehash (k : nat) (source : bytes) (table : list Z) (pos match_end source_size : Z)
  : option (list Z) :=
  match k with
  | O => Some table
  | S k' =>
      if (pos <? match_end) && (pos <=? source_size - 4) then
        h ← lz4_hash source pos;
        table ← wr table h pos;
        rehash k' source table (pos + 1) match_end source_size
      else Some table
  end.

Fixpoint compress_loop (fuel : nat) (output : lz4_write_buffer_t) (f : F) (table : list Z)
    (source : bytes) (source_size anchor index : Z)
  : option (Z * Z * lz4_write_buffer_t * F) :=
  match fuel with
  | O => None
  | S fuel' =>
      if (12 <=? source_size) && (index <=? source_size - 12) then
        hash ← lz4_hash source index;
        candidate ← rd table hash;
        table ← wr table hash index;
        found ← (if (candidate =? UINT32_MAX) ||
                    (LZ4_WINDOW_SIZE <? u32 (index - candidate))
                 then Some false else match4 source candidate index);
        if negb found
        then compress_loop fuel' output f table source source_size anchor (index + 1)
        else
          let maximum_match := source_size - 5 - index in
          match_length ← extend_match (Z.to_nat source_size) source candidate index 4
                                      maximum_match;
          '(rc, output, f) ←
            lz4_write_sequence output f (drop (Z.to_nat anchor) source) (index - anchor)
                               match_length (index - candidate);
          if negb (rc =? 0) then Some (-1, anchor, output, f)
          else
            let match_end := index + match_length in
            table ← rehash (Z.to_nat source_size) source table (index + 1) match_end source_size;
            compress_loop fuel' output f table source source_size match_end match_end
      else Some (0, anchor, output, f)
  end.

Definition lz4_compress_block (output : lz4_write_buffer_t) (f : F) (source : bytes)
    (source_size : Z) : option (Z * lz4_write_buffer_t * F) :=
  let table := replicate (Z.to_nat LZ4_HASH_SIZE) UINT32_MAX in
  '(rc, anchor, output, f) ←
    compress_loop (S (Z.to_nat source_size)) output f table source source_size 0 0;
  if negb (rc =? 0) then Some (-1, output, f)
  else if 0 <? source_size then
    '(rc, output, f) ←
      lz4_write_sequence output f (drop (Z.to_nat anchor) source) (source_size - anchor) 0 0;
    if negb (rc =? 0) then Some (-1, output, f) else Some (0, output, f)
  else Some (0, output, f).

Definition le32 (v : Z) : bytes :=
  [u8 (Z.land v 255); u8 (Z.land (Z.shiftr v 8) 255);
   u8 (Z.land (Z.shiftr v 16) 255); u8 (Z.land (Z.shiftr v 24) 255)].

(** The block loop of [kernel_lz4_compress]; [block] and [source_buffer] are the
    static block buffer and the stack buffer, reused by every round. *)
Fixpoint compress_blocks (fuel : nat) (output : lz4_write_buffer_t) (f : F)
    (source_buffer block : bytes) (src_path : bytes) (source_size offset : Z)
  : option (bool * lz4_write_buffer_t * F) :=
  match fuel with
  | O => None
  | S fuel' =>
      if offset <? source_size then
        let requested := source_size - offset in
        let requested :=
          if LZ4_READ_AHEAD_SIZE <? requested then LZ4_READ_AHEAD_SIZE else requested in
        '(bytes_read, stored, f) ← fs_read_raw_at f src_path offset requested;
        source_buffer ← blit source_buffer 0 stored;
        if (bytes_read <=? 0) || negb (u32 bytes_read =? requested) then Some (true, output, f)
        else
          '(rc, block_output, f) ←
            lz4_compress_block (WB None block 0 LZ4_BLOCK_BUFFER_SIZE) f source_buffer requested;
          let n := wb_length block_output in
          if negb (rc =? 0) || (n =? 0) || (LZ4_BLOCK_BUFFER_SIZE <=? n)
          then Some (true, output, f)
          else
            '(rc, output, f) ← lz4_write output f (le32 requested ++ le32 n) 8;
            if negb (rc =? 0) then Some (true, output, f) else
            '(rc, output, f) ← lz4_write output f (wb_data block_output) n;
            if negb (rc =? 0) then Some (true, output, f) else
            compress_blocks fuel' output f source_buffer (wb_data block_output) src_path
                            source_size (u32 (offset + requested))
      else Some (false, output, f)
  end.

(** [out], [source_buffer] and [block] are what the static and stack buffers
    hold on entry. *)
Definition kernel_lz4_compress (f : F) (out source_buffer block : bytes)
    (src_path : bytes) (src_size : Z) (dst_path : bytes) : option (Z * F) :=
  if UINT32_MAX <? src_size then Some (-1, f)
  else
    let source_size := u32 src_size in
    let output := WB (Some dst_path) out 0 LZ4_OUTPUT_SIZE in
    '(rc, f) ← fs_create f dst_path;
    if negb (rc =? 0) then Some (-1, f)
    else
      let header := le32 source_size ++ lit "LZ4C" in
      '(rc, output, f) ← lz4_write output f header 8;
      '(failed, output, f) ←
        (if negb (rc =? 0) then Some (true, output, f)
         else compress_blocks (S (Z.to_nat source_size)) output f source_buffer block
                              src_path source_size 0);
      '(failed, output, f) ←
        (if (failed : bool) then Some (true, output, f)
         else '(rc, output, f) ← lz4_write_flush output f;
              Some (negb (rc =? 0), output, f));
      if (failed : bool) then '(_, f) ← fs_delete f dst_path; Some (-1, f)
      else Some (0, f).

(** ** Decompression *)

Definition lz4_output_byte (output : lz4_decode_output_t) (f : F) (value : Z)
  : option (Z * lz4_decode_output_t * F) :=
  history ← wr (do_history output) (Z.land (do_produced output) (LZ4_WINDOW_SIZE - 1)) value;
  data ← wr (do_data output) (do_length output) value;
  let length := do_length output + 1 in
  let produced := u32 (do_produced output + 1) in
  if length =? LZ4_OUTPUT_SIZE then
    d ← slice data 0 length;
    '(rc, f) ← fs_append_data f (do_path output) d;
    if negb (rc =? 0) then Some (-1, DO (do_path output) history data length produced, f)
    else Some (0, DO (do_path output) history data 0 produced, f)
  else Some (0, DO (do_path output) history data length produced, f).

(** Result code, [*src_idx], [*length], the buffer and the store. *)
Fixpoint ext_loop (fuel : nat) (input : lz4_read_buffer_t) (f : F)
    (src_idx limit length : Z) : option (Z * Z * Z * lz4_read_buffer_t * F) :=
  match fuel with
  | O => None
  | S fuel' =>
      if limit <=? src_idx then Some (-1, src_idx, length, input, f)
      else
        '(rc, dst, input, f) ← lz4_read_at 1 input f src_idx 1;
        if negb (rc =? 0) then Some (-1, src_idx, length, input, f)
        else
          extension ← rd dst 0;
          let src_idx := u64 (src_idx + 1) in
          if UINT64_MAX - length <? extension then Some (-1, src_idx, length, input, f)
          else
            let length := u64 (length + extension) in
            if extension =? 255 then ext_loop fuel' input f src_idx limit length
            else Some (0, src_idx, length, input, f)
  end.

Definition lz4_read_length (input : lz4_read_buffer_t) (f : F) (src_idx limit length : Z)
  : option (Z * Z * Z * lz4_read_buffer_t * F) :=
  ext_loop (S (Z.to_nat (limit - src_idx))) input f src_idx limit length.

Fixpoint emit_literals (output : lz4_decode_output_t) (f : F) (batch : bytes)
  : option (bool * lz4_decode_output_t * F) :=
  match batch with
  | [] => Some (false, output, f)
  | b :: batch' =>
      '(rc, output, f) ← lz4_output_byte output f b;
      if negb (rc =? 0) then Some (true, output, f) else emit_literals output f batch'
  end.

(** [while (literals_remaining > 0)], through the 512-byte [literal_buffer]. *)
Fixpoint copy_literals (fuel : nat) (input : lz4_read_buffer_t)
    (output : lz4_decode_output_t) (f : F) (src_idx literals_remaining : Z)
  : option (bool * Z * lz4_read_buffer_t * lz4_decode_output_t * F) :=
  match fuel with
  | O => None
  | S fuel' =>
      if literals_remaining =? 0 then Some (false, src_idx, input, output, f)
      else
        let batch := if 512 <? literals_remaining then 512 else u32 literals_remaining in
        '(rc, literal_buffer, input, f) ← lz4_read_at 512 input f src_idx batch;
        if negb (rc =? 0) then Some (true, src_idx, input, output, f)
        else
          '(failed, output, f) ← emit_literals output f literal_buffer;
          if (failed : bool)
          then Some (true, u64 (src_idx + batch), input, output, f)
          else copy_literals fuel' input output f (u64 (src_idx + batch))
                             (literals_remaining - batch)
  end.

(** [for (i = 0; i < match_length; i++)] *)
Fixpoint copy_match (k : nat) (output : lz4_decode_output_t) (f : F) (match_offset : Z)
  : option (bool * lz4_decode_output_t * F) :=
  match k with
  | O => Some (false, output, f)
  | S k' =>
      let history_idx := Z.land (u32 (do_produced output - match_offset))
                                (LZ4_WINDOW_SIZE - 1) in
      b ← rd (do_history output) history_idx;
      '(rc, output, f) ← lz4_output_byte output f b;
      if negb (rc =? 0) then Some (true, output, f) else copy_match k' output f match_offset
  end.

(** What a round of the sequence loop does next: [break] with [failed] set or
    not, or another round. *)
Inductive seq_next := SeqFail | SeqBreak | SeqAgain.

(** The second half of a round of the sequence loop (lines 363-401): offset,
    match length, match copy. *)
Definition decode_match (input : lz4_read_buffer_t) (output : lz4_decode_output_t) (f : F)
    (token src_idx block_end block_start block_target : Z)
  : option (seq_next * Z * lz4_read_buffer_t * lz4_decode_output_t * F) :=
  if u64 (block_end - src_idx) <? 2 then Some (SeqFail, src_idx, input, output, f) else
  '(rc, ob, input, f) ← lz4_read_at 2 input f src_idx 2;
  if negb (rc =? 0) then Some (SeqFail, src_idx, input, output, f) else
  let src_idx := u64 (src_idx + 2) in
  o0 ← rd ob 0; o1 ← rd ob 1;
  let match_offset := Z.lor o0 (Z.shiftl o1 8) in
  if (match_offset =? 0) || (LZ4_WINDOW_SIZE <? match_offset) ||
     (u32 (do_produced output - block_start) <? match_offset)
  then Some (SeqFail, src_idx, input, output, f) else
  let match_length := Z.land token 15 + 4 in
  '(rc, src_idx, match_length, input, f) ←
    (if Z.land token 15 =? 15
     then lz4_read_length input f src_idx block_end match_length
     else Some (0, src_idx, match_length, input, f));
  if negb (rc =? 0) then Some (SeqFail, src_idx, input, output, f) else
  if u64 (block_target - do_produced output) <? match_length
  then Some (SeqFail, src_idx, input, output, f) else
  '(failed, output, f) ← copy_match (Z.to_nat match_length) output f match_offset;
  Some (if (failed : bool) then SeqFail else SeqAgain, src_idx, input, output, f).

(** One round of the sequence loop (lines 316-401). *)
Definition decode_sequence (input : lz4_read_buffer_t) (output : lz4_decode_output_t) (f : F)
    (src_idx block_end block_start block_target : Z)
  : option (seq_next * Z * lz4_read_buffer_t * lz4_decode_output_t * F) :=
  '(rc, tb, input, f) ← lz4_read_at 1 input f src_idx 1;
  if negb (rc =? 0) then Some (SeqFail, src_idx, input, output, f) else
  token ← rd tb 0;
  let src_idx := u64 (src_idx + 1) in
  let literal_length := Z.shiftr token 4 in
  '(rc, src_idx, literal_length, input, f) ←
    (if literal_length =? 15
     then lz4_read_length input f src_idx block_end literal_length
     else Some (0, src_idx, literal_length, input, f));
  if negb (rc =? 0) then Some (SeqFail, src_idx, input, output, f) else
  if (u64 (block_target - do_produced output) <? literal_length) ||
     (u64 (block_end - src_idx) <? literal_length)
  then Some (SeqFail, src_idx, input, output, f) else
  '(failed, src_idx, input, output, f) ←
    copy_literals (S (Z.to_nat literal_length)) input output f src_idx literal_length;
  if (failed : bool) then Some (SeqFail, src_idx, input, output, f) else
  if do_produced output =? block_target
  then Some (if src_idx =? block_end then SeqBreak else SeqFail, src_idx, input, output, f)
  else decode_match input output f token src_idx block_end block_start block_target.

(** The sequence loop of one block (lines 314-402). *)
Fixpoint decode_block (fuel : nat) (input : lz4_read_buffer_t)
    (output : lz4_decode_output_t) (f : F)
    (src_idx block_end block_start block_target : Z)
  : option (bool * Z * lz4_read_buffer_t * lz4_decode_output_t * F) :=
  match fuel with
  | O => None
  | S fuel' =>
      if (src_idx <? block_end) && (do_produced output <? block_target) then
        '(next, src_idx, input, output, f) ←
          decode_sequence input output f src_idx block_end block_start block_target;
        match next with
        | SeqFail => Some (true, src_idx, input, output, f)
        | SeqBreak => Some (false, src_idx, input, output, f)
        | SeqAgain => decode_block fuel' input output f src_idx block_end block_start block_target
        end
      else Some (false, src_idx, input, output, f)
  end.

Definition of_le32 (b : bytes) (off : Z) : option Z :=
  b0 ← rd b off; b1 ← rd b (off + 1); b2 ← rd b (off + 2); b3 ← rd b (off + 3);
  Some (Z.lor (Z.lor (Z.lor b0 (Z.shiftl b1 8)) (Z.shiftl b2 16)) (Z.shiftl b3 24)).

(** The framed block header (lines 285-312): [None] inside is the [break] with
    [failed] set, otherwise [block_target] and [block_end]. *)
Definition read_block_header (input : lz4_read_buffer_t) (f : F)
    (src_idx src_size original_size produced : Z)
  : option (option (Z * Z) * Z * lz4_read_buffer_t * F) :=
  if u64 (src_size - src_idx) <? 8 then Some (None, src_idx, input, f) else
  '(rc, hdr, input, f) ← lz4_read_at 8 input f src_idx 8;
  if negb (rc =? 0) then Some (None, src_idx, input, f) else
  let src_idx := u64 (src_idx + 8) in
  block_original_size ← of_le32 hdr 0;
  block_compressed_size ← of_le32 hdr 4;
  if (block_original_size =? 0) || (block_compressed_size =? 0) ||
     (u32 (original_size - produced) <? block_original_size) ||
     (u64 (src_size - src_idx) <? block_compressed_size)
  then Some (None, src_idx, input, f)
  else Some (Some (u32 (produced + block_original_size),
                   u64 (src_idx + block_compressed_size)), src_idx, input, f).

(** The loop over blocks (lines 281-408). *)
Fixpoint decode_blocks (fuel : nat) (framed : bool) (input : lz4_read_buffer_t)
    (output : lz4_decode_output_t) (f : F) (src_idx src_size original_size : Z)
  : option (bool * Z * lz4_decode_output_t * F) :=
  match fuel with
  | O => None
  | S fuel' =>
      if do_produced output <? original_size then
        let block_start := do_produced output in
        '(limits, src_idx, input, f) ←
          (if framed
           then read_block_header input f src_idx src_size original_size (do_produced output)
           else Some (Some (original_size, src_size), src_idx, input, f));
        match limits with
        | None => Some (true, src_idx, output, f)
        | Some (block_target, block_end) =>
            '(failed, src_idx, input, output, f) ←
              decode_block (S (Z.to_nat (block_end - src_idx))) input output f
                           src_idx block_end block_start block_target;
            let failed := failed || negb (do_produced output =? block_target) ||
                          negb (src_idx =? block_end) in
            if negb framed || failed then Some (failed, src_idx, output, f)
            else decode_blocks fuel' framed input output f src_idx src_size original_size
        end
      else Some (false, src_idx, output, f)
  end.

(** From the creation of the destination to the end (lines 265-423). *)
Definition decompress_body (f : F) (history out : bytes) (input : lz4_read_buffer_t)
    (framed : bool) (src_size original_size : Z) (dst_path : bytes) : option (Z * F) :=
  '(rc, f) ← fs_create f dst_path;
  if negb (rc =? 0) then Some (-1, f) else
  let output := DO dst_path history out 0 0 in
  '(failed, src_idx, output, f) ←
    decode_blocks (S (Z.to_nat original_size)) framed input output f
                  (if framed then 8 else 4) src_size original_size;
  let failed := failed || negb (do_produced output =? original_size) ||
                negb (src_idx =? src_size) in
  '(failed, f) ←
    (if negb failed && (0 <? do_length output) then
       d ← slice (do_data output) 0 (do_length output);
       '(rc, f) ← fs_append_data f dst_path d;
       Some (negb (rc =? 0), f)
     else Some (failed, f));
  if (failed : bool) then '(_, f) ← fs_delete f dst_path; Some (-1, f)
  else Some (0, f).

(** [history] and [out] are the static buffers on entry; the members of [input]
    without an initialiser are zero. *)
Definition kernel_lz4_decompress (f : F) (history out : bytes)
    (src_path : bytes) (src_size : Z) (dst_path : bytes) : option (Z * F) :=
  if src_size <? 4 then Some (-1, f) else
  let input := RB src_path src_size UINT64_MAX 0 (zeros 4096) in
  '(rc, header, input, f) ← lz4_read_at 4 input f 0 4;
  if negb (rc =? 0) then Some (-1, f) else
  original_size ← of_le32 header 0;
  '(framed, input, f) ←
    (if 8 <=? src_size then
       '(rc, marker, input, f) ← lz4_read_at 4 input f 4 4;
       Some ((rc =? 0) && bool_decide (marker = lit "LZ4C"), input, f)
     else Some (false, input, f));
  if original_size =? 0 then
    let expected_size := if (framed : bool) then 8 else 4 in
    if negb (src_size =? expected_size) then Some (-1, f) else
    '(rc, f) ← fs_create f dst_path;
    if negb (rc =? 0) then Some (-1, f) else Some (0, f)
  else decompress_body f history out input framed src_size original_size dst_path.

End Codec.
