(* ===== verification/Lz4Encode.v ===== *)
(** * The LZ4 compressor produces a valid encoding

    The format of an LZ4 sequence as a function ([enc_seq]), the relation
    [parses] between a block and the sequences that reproduce it, and the proof
    that [lz4_compress_block] always succeeds on a block of at most 4096 bytes
    and leaves a parse of the block in its buffer. *)

From S2P Require Import Prelude FileStore Lz4.

(** ** The format *)

(** The extension bytes of a length. *)
Definition ext_bytes (n : Z) : bytes := replicate (Z.to_nat (n / 255)) 255 ++ [n mod 255].

Definition ext_if (n : Z) : bytes := if 15 <=? n then ext_bytes (n - 15) else [].

Definition enc_seq (lits : bytes) (m off : Z) : bytes :=
  let em := if 0 <? m then m - 4 else 0 in
  [Z.min (zlen lits) 15 * 16 + Z.min em 15] ++ ext_if (zlen lits) ++ lits ++
  (if m =? 0 then [] else le_bytes 2 off ++ ext_if em).

(** [parses src a enc]: the sequences encoded by [enc] rebuild the first [a]
    bytes of [src] (literals and back references inside the block). *)
Inductive parses (src : bytes) : Z -> bytes -> Prop :=
| parses_nil : parses src 0 []
| parses_seq a enc l lits m off :
    parses src a enc ->
    0 <= l -> slice src a l = Some lits ->
    4 <= m -> 1 <= off <= a + l -> off <= LZ4_WINDOW_SIZE ->
    a + l + m <= zlen src ->
    (forall j, 0 <= j < m -> rd src (a + l + j) = rd src (a + l + j - off)) ->
    parses src (a + l + m) (enc ++ enc_seq lits m off).

(** ** Numbers *)

Lemma token_value L M :
  0 <= L <= 15 -> 0 <= M <= 15 -> u8 (Z.lor (Z.shiftl L 4) M) = L * 16 + M.
Proof.
  intros HL HM. rewrite Z.lor_comm, Z.shiftl_mul_pow2 by lia.
  rewrite lor_add_low by lia. rewrite u8_small; [lia | unfold_int; lia].
Qed.

Lemma land255 v : Z.land v 255 = v mod 256.
Proof. change 255 with (2 ^ 8 - 1). by rewrite land_ones_mod by lia. Qed.

Lemma u8_land_shiftr v k : 0 <= k -> u8 (Z.land (Z.shiftr v k) 255) = (v / 2 ^ k) mod 256.
Proof.
  intros. rewrite land255, Z.shiftr_div_pow2 by lia. apply u8_small.
  unfold_int. apply Z.mod_pos_bound. lia.
Qed.

Lemma le32_le_bytes v : le32 v = le_bytes 4 v.
Proof.
  unfold le32. cbn [le_bytes]. rewrite !u8_land_shiftr by lia. rewrite land255.
  rewrite u8_small by (unfold_int; apply Z.mod_pos_bound; lia).
  rewrite !Z.div_div by lia. done.
Qed.

Lemma le16_le_bytes v :
  [u8 (Z.land v 255); u8 (Z.land (Z.shiftr v 8) 255)] = le_bytes 2 v.
Proof.
  cbn [le_bytes]. rewrite !u8_land_shiftr by lia. rewrite land255.
  by rewrite u8_small by (unfold_int; apply Z.mod_pos_bound; lia).
Qed.

Lemma length_ext_bytes n : 0 <= n -> zlen (ext_bytes n) = n / 255 + 1.
Proof. intros. unfold ext_bytes. pose proof (Z.div_pos n 255). zs. Qed.

Lemma ext_bytes_step n : 255 <= n -> ext_bytes n = 255 :: ext_bytes (n - 255).
Proof.
  intros. unfold ext_bytes.
  assert (n = (n - 255) + 1 * 255) as E by lia. rewrite E at 1 2.
  rewrite Z.div_add, Z_mod_plus_full by lia.
  rewrite Z2Nat.inj_add, Nat.add_1_r by (try apply Z.div_pos; lia). done.
Qed.

Lemma ext_bytes_small n : 0 <= n < 255 -> ext_bytes n = [n].
Proof. intros. unfold ext_bytes. by rewrite Z.div_small, Z.mod_small by lia. Qed.

Lemma is_bytes_ext n : 0 <= n -> is_bytes (ext_bytes n).
Proof.
  intros. unfold ext_bytes. apply is_bytes_app. split.
  - apply Forall_replicate. unfold_int. lia.
  - constructor; [|constructor]. pose proof (Z.mod_pos_bound n 255). unfold_int. lia.
Qed.

Lemma zlen_ext_if n : 0 <= n -> 0 <= 15 * zlen (ext_if n) <= n.
Proof.
  intros. unfold ext_if. bool_true; [|zs].
  rewrite length_ext_bytes by lia.
  pose proof (Z.mul_div_le (n - 15) 255). pose proof (Z.div_pos (n - 15) 255). lia.
Qed.

Lemma is_bytes_ext_if n : 0 <= n -> is_bytes (ext_if n).
Proof. intros. unfold ext_if. bool_true; [apply is_bytes_ext; lia | constructor]. Qed.

Definition em_of (m : Z) : Z := if 0 <? m then m - 4 else 0.

Lemma em_of_nonneg m : m = 0 \/ 4 <= m -> 0 <= em_of m.
Proof. unfold em_of. intros. bool_true; lia. Qed.

Lemma is_bytes_enc_seq lits m off :
  is_bytes lits -> m = 0 \/ 4 <= m -> is_bytes (enc_seq lits m off).
Proof.
  intros Hl Hm. unfold enc_seq. pose proof (zlen_nonneg lits).
  pose proof (em_of_nonneg m Hm). fold (em_of m). rewrite !is_bytes_app.
  split_and!; [|by apply is_bytes_ext_if | done | ].
  - constructor; [|constructor]. unfold_int. lia.
  - destruct (m =? 0); [constructor|]. apply is_bytes_app.
    split; [apply is_bytes_le | by apply is_bytes_ext_if].
Qed.

Lemma zlen_enc_seq_pos lits m off : 0 < zlen (enc_seq lits m off).
Proof. unfold enc_seq. rewrite zlen_app. set (t := _ ++ _ ++ _). pose proof (zlen_nonneg t). zs. Qed.

(** A sequence is at most one fifteenth longer than what it stands for. *)
Lemma enc_seq_size lits m off :
  4 <= m -> 15 * zlen (enc_seq lits m off) <= 16 * (zlen lits + m).
Proof.
  intros Hm. unfold enc_seq. fold (em_of m). pose proof (zlen_nonneg lits).
  pose proof (zlen_ext_if (zlen lits) ltac:(lia)).
  pose proof (zlen_ext_if (em_of m) (em_of_nonneg m ltac:(lia))) as He.
  unfold em_of in *. assert ((0 <? m) = true) as E by lia. rewrite E in *.
  rewrite eqb_neq by lia. autorewrite with cbuf. lia.
Qed.

Lemma enc_last_size lits :
  15 * zlen (enc_seq lits 0 0) <= 16 * zlen lits + 15.
Proof.
  unfold enc_seq. cbn [Z.eqb Z.ltb Z.compare]. pose proof (zlen_nonneg lits).
  pose proof (zlen_ext_if (zlen lits) ltac:(lia)). autorewrite with cbuf. lia.
Qed.

(** ** Writing into a buffer that is not flushed *)

Definition wb_holds (wb : lz4_write_buffer_t) (s : bytes) : Prop :=
  zlen (wb_data wb) = wb_capacity wb /\ 0 < wb_capacity wb < 4294967296 /\
  wb_length wb = zlen s /\ zlen s < wb_capacity wb /\ exists t, wb_data wb = s ++ t.

(** [wb'] is [wb] after [d] more bytes. *)
Definition block_buffer (wb : lz4_write_buffer_t) (s : bytes) : Prop :=
  wb_path wb = None /\ wb_capacity wb = LZ4_BLOCK_BUFFER_SIZE /\ wb_holds wb s.

Lemma block_buffer_init block :
  zlen block = LZ4_BLOCK_BUFFER_SIZE -> block_buffer (WB None block 0 LZ4_BLOCK_BUFFER_SIZE) [].
Proof.
  intros. unfold block_buffer, wb_holds, LZ4_BLOCK_BUFFER_SIZE in *. cbn.
  split_and!; try done. by exists block.
Qed.

Section Writer.
Context {F : Type} `{FileStore F}.
Implicit Types f : F.

(** One round of [lz4_write] that does not fill the buffer. *)
Lemma blit_append (s t d : bytes) :
  zlen d <= zlen t ->
  blit (s ++ t) (zlen s) d = Some (s ++ d ++ drop (length d) t).
Proof.
  intros Hd. apply blit_Some. split_and!; [apply zlen_nonneg | zs |].
  unfold zlen. rewrite Nat2Z.id, take_app_length. do 2 f_equal.
  rewrite drop_app_ge by lia. f_equal. lia.
Qed.

Lemma write_block wb f s d rest :
  block_buffer wb s -> zlen s + zlen d < LZ4_BLOCK_BUFFER_SIZE ->
  exists wb', lz4_write wb f (d ++ rest) (zlen d) = Some (0, wb', f) /\
    block_buffer wb' (s ++ d).
Proof.
  intros (Hp & Hcap & Hlen & Hc & Hl & Hs & t & Ht) Hd. unfold lz4_write.
  unfold LZ4_BLOCK_BUFFER_SIZE in *. pose proof (zlen_nonneg s). pose proof (zlen_nonneg d).
  cbn [write_loop].
  destruct (Z.eqb_spec (zlen d) 0) as [E|E].
  { apply zlen_0_nil in E as ->. exists wb. rewrite app_nil_r. split; [done|].
    unfold block_buffer, wb_holds. split_and!; try done; try lia. by exists t. }
  rewrite Hcap, Hl, (u32_small (8192 - zlen s)) by (unfold_int; lia).
  destruct (Z.ltb_spec (zlen d) (8192 - zlen s)); [|lia].
  pose proof (slice_mid [] d rest) as Hsl. rewrite zlen_nil in Hsl. cbn [app] in Hsl.
  rewrite Hsl. cbn [mbind option_bind]. rewrite Ht in *.
  rewrite blit_append by (rewrite zlen_app in Hlen; lia). cbn [mbind option_bind wb_length wb_capacity wb_path].
  rewrite u32_small by (unfold_int; lia). rewrite (eqb_neq (zlen s + zlen d)) by lia.
  rewrite u32_small by (unfold_int; lia). rewrite Z.sub_diag.
  destruct (Z.to_nat (zlen d)) eqn:En; [lia|]. cbn [write_loop Z.eqb].
  eexists. split; [done|]. unfold block_buffer, wb_holds. cbn.
  split_and!; try done; try lia; try zs.
  exists (drop (length d) t). by rewrite <- app_assoc.
Qed.

Lemma write_block1 wb f s b :
  block_buffer wb s -> zlen s + 1 < LZ4_BLOCK_BUFFER_SIZE ->
  exists wb', lz4_write wb f [b] 1 = Some (0, wb', f) /\ block_buffer wb' (s ++ [b]).
Proof. intros. by apply (write_block wb f s [b] []). Qed.

Lemma length_loop_block fuel n wb f s :
  block_buffer wb s -> 0 <= n < Z.of_nat fuel ->
  zlen s + zlen (ext_bytes n) < LZ4_BLOCK_BUFFER_SIZE ->
  exists wb', length_loop fuel wb f n = Some (0, wb', f) /\
    block_buffer wb' (s ++ ext_bytes n).
Proof.
  revert n wb s. induction fuel as [|fuel IH]; intros n wb s Hb Hn Hz; [lia|].
  cbn [length_loop]. destruct (Z.leb_spec 255 n).
  - rewrite ext_bytes_step in * by lia. rewrite zlen_cons in Hz.
    pose proof (zlen_nonneg (ext_bytes (n - 255))).
    destruct (write_block1 wb f s 255 Hb) as (wb1 & -> & Hb1); [lia|]. cbn [mbind option_bind negb Z.eqb].
    destruct (IH (n - 255) wb1 (s ++ [255]) Hb1) as (wb2 & -> & Hb2); [lia | zs |].
    exists wb2. split; [done|]. by rewrite <- app_assoc in Hb2.
  - rewrite ext_bytes_small in * by lia. rewrite u8_small by (unfold_int; lia).
    apply write_block1; [done | zs].
Qed.

Lemma write_length_block n wb f s :
  block_buffer wb s -> 0 <= n -> zlen s + zlen (ext_bytes n) < LZ4_BLOCK_BUFFER_SIZE ->
  exists wb', lz4_write_length wb f n = Some (0, wb', f) /\ block_buffer wb' (s ++ ext_bytes n).
Proof. intros. apply length_loop_block; [done | lia | done]. Qed.

(** The optional extension. *)
Lemma write_ext_block n wb f s :
  block_buffer wb s -> 0 <= n -> zlen s + zlen (ext_if n) < LZ4_BLOCK_BUFFER_SIZE ->
  exists wb', (if 15 <=? n then lz4_write_length wb f (n - 15) else Some (0, wb, f))
    = Some (0, wb', f) /\ block_buffer wb' (s ++ ext_if n).
Proof.
  intros Hb Hn. unfold ext_if. bool_true; intros Hz.
  - apply write_length_block; [done | lia | done].
  - exists wb. by rewrite app_nil_r.
Qed.

Lemma write_sequence_block wb f s lits rest m off :
  block_buffer wb s -> m = 0 \/ 4 <= m < 4294967296 ->
  zlen s + zlen (enc_seq lits m off) < LZ4_BLOCK_BUFFER_SIZE ->
  exists wb', lz4_write_sequence wb f (lits ++ rest) (zlen lits) m off = Some (0, wb', f) /\
    block_buffer wb' (s ++ enc_seq lits m off).
Proof.
  intros Hb Hm. unfold enc_seq. fold (em_of m).
  pose proof (zlen_nonneg lits) as Hll. pose proof (em_of_nonneg m ltac:(lia)) as Hem.
  unfold lz4_write_sequence.
  assert ((if 0 <? m then u32 (m - 4) else 0) = em_of m) as ->.
  { unfold em_of. bool_true. apply u32_small. unfold_int. lia. }
  assert ((if zlen lits <? 15 then zlen lits else 15) = Z.min (zlen lits) 15) as ->
    by (bool_true; lia).
  assert ((if em_of m <? 15 then em_of m else 15) = Z.min (em_of m) 15) as ->
    by (bool_true; lia).
  rewrite token_value by lia. set (tok := _ * 16 + _).
  autorewrite with cbuf. intros Hz.
  pose proof (zlen_nonneg (ext_if (zlen lits))).
  pose proof (zlen_nonneg (if m =? 0 then [] else le_bytes 2 off ++ ext_if (em_of m))).
  destruct (write_block1 wb f s tok Hb) as (wb1 & -> & Hb1); [lia|].
  cbn [mbind option_bind negb Z.eqb].
  destruct (write_ext_block (zlen lits) wb1 f _ Hb1 Hll) as (wb2 & -> & Hb2);
    [autorewrite with cbuf; lia|].
  cbn [mbind option_bind negb Z.eqb].
  destruct (write_block wb2 f _ lits rest Hb2) as (wb3 & -> & Hb3);
    [autorewrite with cbuf; lia|].
  cbn [mbind option_bind negb Z.eqb]. rewrite <- !app_assoc in Hb3.
  destruct (Z.eqb_spec m 0) as [->|Hne]; [exists wb3; by rewrite app_nil_r|].
  rewrite le16_le_bytes. autorewrite with cbuf in Hz.
  pose proof (zlen_nonneg (ext_if (em_of m))).
  destruct (write_block wb3 f _ (le_bytes 2 off) [] Hb3) as (wb4 & Hw4 & Hb4);
    [autorewrite with cbuf; lia|].
  rewrite app_nil_r, zlen_le_bytes in Hw4. change (Z.of_nat 2) with 2 in Hw4. rewrite Hw4.
  cbn [mbind option_bind negb Z.eqb].
  destruct (write_ext_block (em_of m) wb4 f _ Hb4 Hem) as (wb5 & -> & Hb5);
    [autorewrite with cbuf; lia|].
  cbn [mbind option_bind negb Z.eqb]. exists wb5. split; [done|].
  by rewrite <- !app_assoc in Hb5.
Qed.

End Writer.

(** ** The match finder *)

Lemma lz4_hash_ok source i :
  0 <= i -> i + 4 <= zlen source -> exists h, lz4_hash source i = Some h /\ 0 <= h < LZ4_HASH_SIZE.
Proof.
  intros Hi Hl. unfold lz4_hash.
  destruct (rd_is_Some source i) as [b0 ->]; [lia|].
  destruct (rd_is_Some source (i + 1)) as [b1 ->]; [lia|].
  destruct (rd_is_Some source (i + 2)) as [b2 ->]; [lia|].
  destruct (rd_is_Some source (i + 3)) as [b3 ->]; [lia|].
  cbn [mbind option_bind]. eexists. split; [done|].
  rewrite Z.shiftr_div_pow2 by lia. set (x := u32 _).
  assert (is_u32 x) by apply u32_range. unfold_int. unfold LZ4_HASH_SIZE.
  change (2 ^ 20) with 1048576. split; [apply Z.div_pos; lia | apply Z.div_lt_upper_bound; lia].
Qed.

Definition agree (source : bytes) (candidate index n : Z) : Prop :=
  forall j, 0 <= j < n -> rd source (candidate + j) = rd source (index + j).

Lemma match4_ok source candidate index :
  0 <= candidate -> 0 <= index -> candidate + 4 <= zlen source -> index + 4 <= zlen source ->
  exists b, match4 source candidate index = Some b /\ (b = true -> agree source candidate index 4).
Proof.
  intros Hc Hi Hcl Hil. unfold match4, agree.
  destruct (rd_is_Some source candidate) as [a0 A0]; [lia|].
  destruct (rd_is_Some source (candidate + 1)) as [a1 A1]; [lia|].
  destruct (rd_is_Some source (candidate + 2)) as [a2 A2]; [lia|].
  destruct (rd_is_Some source (candidate + 3)) as [a3 A3]; [lia|].
  destruct (rd_is_Some source index) as [b0 B0]; [lia|].
  destruct (rd_is_Some source (index + 1)) as [b1 B1]; [lia|].
  destruct (rd_is_Some source (index + 2)) as [b2 B2]; [lia|].
  destruct (rd_is_Some source (index + 3)) as [b3 B3]; [lia|].
  rewrite A0, A1, A2, A3, B0, B1, B2, B3. cbn [mbind option_bind].
  destruct (Z.eqb_spec a0 b0) as [->|]; cbn [negb]; [|by exists false].
  destruct (Z.eqb_spec a1 b1) as [->|]; cbn [negb]; [|by exists false].
  destruct (Z.eqb_spec a2 b2) as [->|]; cbn [negb]; [|by exists false].
  destruct (Z.eqb_spec a3 b3) as [->|]; [|by exists false].
  exists true. split; [done|]. intros _ j Hj.
  assert (j = 0 \/ j = 1 \/ j = 2 \/ j = 3) as [-> | [-> | [-> | -> ]]] by lia;
    rewrite ?Z.add_0_r; congruence.
Qed.

Lemma extend_match_ok fuel source candidate index n maximum :
  0 <= candidate < index -> index + maximum <= zlen source ->
  0 <= n <= maximum -> maximum - n < Z.of_nat fuel -> agree source candidate index n ->
  exists m, extend_match fuel source candidate index n maximum = Some m /\
    n <= m <= maximum /\ agree source candidate index m.
Proof.
  intros Hc Hl. revert n. induction fuel as [|fuel IH]; intros n Hn Hf Ha; [lia|].
  cbn [extend_match]. destruct (Z.ltb_spec n maximum).
  - destruct (rd_is_Some source (candidate + n)) as [a A]; [lia|].
    destruct (rd_is_Some source (index + n)) as [b B]; [lia|].
    rewrite A, B. cbn [mbind option_bind]. destruct (Z.eqb_spec a b) as [->|Hne].
    + destruct (IH (n + 1)) as (m & -> & Hm & Ham); [lia | lia | |].
      { intros j Hj. destruct (Z.eq_dec j n) as [->|]; [congruence | apply Ha; lia]. }
      exists m. split_and!; auto; lia.
    + exists n. split_and!; auto; lia.
  - exists n. split_and!; auto; lia.
Qed.

(** Every table entry is empty or a position before [bound]. *)
Definition table_ok (table : list Z) (bound : Z) : Prop :=
  zlen table = LZ4_HASH_SIZE /\ Forall (fun e => e = UINT32_MAX \/ 0 <= e < bound) table.

Lemma table_ok_wr table table' h pos bound bound' :
  table_ok table bound -> wr table h pos = Some table' -> 0 <= pos < bound' -> bound <= bound' ->
  table_ok table' bound'.
Proof.
  intros [Hl Hf] Hw Hp Hb. split; [by rewrite (wr_zlen _ _ _ _ Hw)|].
  apply wr_Some in Hw as [_ ->]. apply Forall_insert; [|lia].
  eapply Forall_impl; [done|]. cbn. lia.
Qed.

Lemma table_ok_mono table bound bound' :
  table_ok table bound -> bound <= bound' -> table_ok table bound'.
Proof. intros [Hl Hf] Hb. split; [done|]. eapply Forall_impl; [done|]. cbn. lia. Qed.

Lemma table_ok_rd table bound h :
  table_ok table bound -> 0 <= h < LZ4_HASH_SIZE ->
  exists e, rd table h = Some e /\ (e = UINT32_MAX \/ 0 <= e < bound).
Proof.
  intros [Hl Hf] Hh. destruct (rd_is_Some table h) as [e He]; [lia|].
  exists e. split; [done|]. rewrite rd_lookup in He by lia. exact (Forall_lookup_1 _ _ _ _ Hf He).
Qed.

Lemma rehash_ok k source table pos match_end n :
  n <= zlen source -> 0 <= pos -> table_ok table pos -> pos <= match_end ->
  exists table', rehash k source table pos match_end n = Some table' /\ table_ok table' match_end.
Proof.
  intros Hn. revert table pos. induction k as [|k IH]; intros table pos Hp Ht Hpm; cbn [rehash].
  - exists table. split; [done|]. by eapply table_ok_mono.
  - destruct (Z.ltb_spec pos match_end); cbn [andb];
      [|exists table; split; [done|]; by eapply table_ok_mono].
    destruct (Z.leb_spec pos (n - 4)); [|exists table; split; [done|]; by eapply table_ok_mono].
    destruct (lz4_hash_ok source pos) as (h & -> & Hh); [lia..|]. cbn [mbind option_bind].
    destruct Ht as [Hl Hf]. destruct (wr table h pos) as [table1|] eqn:Hw;
      [|by rewrite wr_total in Hw by lia]. cbn [mbind option_bind].
    apply IH; [lia | | lia]. eapply (table_ok_wr table); [by split | done | lia | lia].
Qed.

(** ** The block compressor *)

Section Compressor.
Context {F : Type} `{FileStore F}.
Variables (source : bytes) (n : Z) (f : F).
Hypothesis Hn : 0 <= n <= LZ4_WINDOW_SIZE.
Hypothesis Hsrc : n <= zlen source.

(** The invariant of the main loop. *)
Definition loop_inv (wb : lz4_write_buffer_t) (table : list Z) (anchor index : Z) (enc : bytes) :=
  block_buffer wb enc /\ parses source anchor enc /\ 15 * zlen enc <= 16 * anchor /\
  0 <= anchor <= index /\ index <= n /\ table_ok table index.

Lemma parses_range a enc : parses source a enc -> 0 <= a <= zlen source.
Proof. pose proof (zlen_nonneg source). induction 1; lia. Qed.

(** One sequence is emitted for a match of length [m] at [index]. *)
Lemma emit_match wb table anchor index enc candidate m :
  loop_inv wb table anchor index enc -> 0 <= candidate < index ->
  4 <= m -> index + m <= n - 5 -> agree source candidate index m ->
  exists wb' enc', lz4_write_sequence wb f (drop (Z.to_nat anchor) source) (index - anchor) m
      (index - candidate) = Some (0, wb', f) /\
    block_buffer wb' enc' /\ parses source (index + m) enc' /\
    15 * zlen enc' <= 16 * (index + m).
Proof.
  unfold LZ4_WINDOW_SIZE in *. intros (Hb & Hp & Hs & Ha & Hi & Ht) Hc Hm Him Hag.
  destruct (slice_total source anchor (index - anchor)) as [lits Hl]; [lia..|].
  pose proof (slice_zlen _ _ _ _ Hl) as Hll.
  pose proof (enc_seq_size lits m (index - candidate) Hm) as Hsz.
  destruct (write_sequence_block wb f enc lits (drop (Z.to_nat index) source) m (index - candidate) Hb)
    as (wb' & Hw & Hb'); [lia | unfold LZ4_BLOCK_BUFFER_SIZE; lia |].
  exists wb', (enc ++ enc_seq lits m (index - candidate)). split_and!; [| done | | zs].
  - rewrite Hll in Hw. rewrite <- Hw. f_equal. apply slice_Some in Hl as (_&_&_&->).
    replace (Z.to_nat index) with (Z.to_nat anchor + Z.to_nat (index - anchor))%nat by lia.
    by rewrite <- drop_drop, take_drop.
  - replace (index + m) with (anchor + (index - anchor) + m) by lia.
    apply parses_seq; [done | lia | done | done | lia | unfold LZ4_WINDOW_SIZE; lia | lia |].
    intros j Hj. replace (anchor + (index - anchor) + j) with (index + j) by lia.
    rewrite <- (Hag j Hj). f_equal. lia.
Qed.

Lemma compress_loop_ok fuel wb table anchor index enc :
  loop_inv wb table anchor index enc -> n - index < Z.of_nat fuel ->
  exists wb' a enc', compress_loop fuel wb f table source n anchor index = Some (0, a, wb', f) /\
    block_buffer wb' enc' /\ parses source a enc' /\ 15 * zlen enc' <= 16 * a /\
    0 <= a <= n /\ (a = anchor \/ a <= n - 5).
Proof.
  revert wb table anchor index enc.
  induction fuel as [|fuel IH]; intros wb table anchor index enc Hinv Hf;
    [destruct Hinv as (_&_&_&_&?&_); lia|].
  pose proof Hinv as (Hb & Hp & Hs & Ha & Hi & Ht). cbn [compress_loop].
  destruct (Z.leb_spec 12 n); cbn [andb]; [|exists wb, anchor, enc; split_and!; auto; lia].
  destruct (Z.leb_spec index (n - 12)); [|exists wb, anchor, enc; split_and!; auto; lia].
  destruct (lz4_hash_ok source index) as (h & -> & Hh); [lia..|]. cbn [mbind option_bind].
  destruct (table_ok_rd table index h Ht Hh) as (candidate & -> & Hc). cbn [mbind option_bind].
  destruct (wr table h index) as [table1|] eqn:Hw; cbn [mbind option_bind];
    [|destruct Ht; rewrite wr_total in Hw by lia; done].
  assert (table_ok table1 (index + 1)) as Ht1 by (eapply table_ok_wr; [done|done|lia|lia]).
  assert (exists found, (if (candidate =? UINT32_MAX) || (LZ4_WINDOW_SIZE <? u32 (index - candidate))
      then Some false else match4 source candidate index) = Some found /\
      (found = true -> 0 <= candidate < index /\ agree source candidate index 4))
    as (found & -> & Hfound).
  { destruct (Z.eqb_spec candidate UINT32_MAX); [by exists false|].
    destruct (LZ4_WINDOW_SIZE <? _); [by exists false|]. cbn [orb].
    destruct Hc as [?|Hc]; [done|].
    destruct (match4_ok source candidate index) as (b & -> & Hb'); [lia..|].
    exists b. split; [done|]. auto. }
  cbn [mbind option_bind]. destruct found; cbn [negb].
  - destruct (Hfound eq_refl) as [Hc' Hag].
    destruct (extend_match_ok (Z.to_nat n) source candidate index 4 (n - 5 - index))
      as (m & -> & Hm & Hagm); [lia..|done|]. cbn [mbind option_bind].
    destruct (emit_match wb table anchor index enc candidate m Hinv) as (wb' & enc' & -> & Hb' & Hp' & Hs');
      [lia..|done|]. cbn [mbind option_bind negb Z.eqb].
    destruct (rehash_ok (Z.to_nat n) source table1 (index + 1) (index + m) n)
      as (table2 & -> & Ht2); [lia | lia | done | lia |]. cbn [mbind option_bind].
    destruct (IH wb' table2 (index + m) (index + m) enc') as (wb2 & a & enc2 & -> & ? & ? & ? & ? & ?);
      [unfold loop_inv; split_and!; auto; lia | lia |].
    exists wb2, a, enc2. split_and!; auto; lia.
  - apply (IH wb table1 anchor (index + 1) enc); [unfold loop_inv; split_and!; auto; lia | lia].
Qed.

(** A block of at most 4096 bytes always fits the 8192-byte block buffer. *)
Lemma compress_block_ok block :
  0 < n -> zlen block = LZ4_BLOCK_BUFFER_SIZE ->
  exists wb a enc lits,
    lz4_compress_block (WB None block 0 LZ4_BLOCK_BUFFER_SIZE) f source n = Some (0, wb, f) /\
    block_buffer wb (enc ++ enc_seq lits 0 0) /\ parses source a enc /\
    0 <= a < n /\ slice source a (n - a) = Some lits /\
    15 * zlen (enc ++ enc_seq lits 0 0) <= 16 * n + 15.
Proof.
  intros Hn0 Hblk. unfold lz4_compress_block.
  destruct (compress_loop_ok (S (Z.to_nat n)) (WB None block 0 LZ4_BLOCK_BUFFER_SIZE)
    (replicate (Z.to_nat LZ4_HASH_SIZE) UINT32_MAX) 0 0 [])
    as (wb & a & enc & -> & Hb & Hp & Hs & Ha & Ha'); [|lia|].
  { unfold loop_inv, table_ok.
    split_and!; [by apply block_buffer_init | constructor | zs | lia | lia | lia | |].
    - by rewrite zlen_replicate.
    - apply Forall_replicate. by left. }
  cbn [mbind option_bind negb Z.eqb]. destruct (Z.ltb_spec 0 n); [|lia].
  assert (a < n) as Han by lia.
  destruct (slice_total source a (n - a)) as [lits Hl]; [lia..|].
  pose proof (slice_zlen _ _ _ _ Hl) as Hll. pose proof (enc_last_size lits) as Hsz.
  destruct (write_sequence_block wb f enc lits (drop (Z.to_nat n) source) 0 0 Hb)
    as (wb' & Hw & Hb'); [lia | unfold LZ4_BLOCK_BUFFER_SIZE, LZ4_WINDOW_SIZE in *; lia |].
  assert (lits ++ drop (Z.to_nat n) source = drop (Z.to_nat a) source) as Hd.
  { apply slice_Some in Hl as (_&_&_&->).
    replace (Z.to_nat n) with (Z.to_nat a + Z.to_nat (n - a))%nat by lia.
    by rewrite <- drop_drop, take_drop. }
  rewrite Hd, Hll in Hw. rewrite Hw. cbn [mbind option_bind negb Z.eqb].
  exists wb', a, enc, lits. split_and!; auto; try lia. zs.
Qed.

End Compressor.
