(* ===== verification/Lz4Decode.v ===== *)
(** * The LZ4 decompressor inverts the encoding

    Invariants of the read-ahead buffer ([rb_inv]: it caches a range of the
    archive) and of the decoder output ([out_inv]: flushed file plus buffer are
    the bytes produced so far, and the history ring holds the last 4096 of
    them), and the behaviour of each decoder loop on a well-formed archive. *)

From S2P Require Import Prelude FileStore Lz4 Lz4Encode.

(** ** Slices of slices *)

Lemma slice_app_split {A} (b s1 s2 : list A) off n m :
  slice b off n = Some s1 -> slice b (off + n) m = Some s2 ->
  slice b off (n + m) = Some (s1 ++ s2).
Proof.
  intros (?&?&?&->)%slice_Some (?&?&?&->)%slice_Some. apply slice_Some.
  split_and!; [lia..|]. rewrite (Z2Nat.inj_add n m), (Z2Nat.inj_add off n) by lia.
  by rewrite <- drop_drop, take_take_drop.
Qed.

Lemma slice_app_inv {A} (b s1 s2 : list A) off :
  slice b off (zlen (s1 ++ s2)) = Some (s1 ++ s2) ->
  slice b off (zlen s1) = Some s1 /\ slice b (off + zlen s1) (zlen s2) = Some s2.
Proof.
  rewrite zlen_app. intros (?&?&?&He)%slice_Some. pose proof (zlen_nonneg s1). pose proof (zlen_nonneg s2).
  rewrite Z2Nat.inj_add, <- take_take_drop, drop_drop in He by lia.
  apply app_inj_1 in He as [E1 E2]; [|zs].
  split; apply slice_Some; (split_and!; [lia..|]); [done|].
  by rewrite Z2Nat.inj_add by lia.
Qed.

Lemma slice_cons_inv {A} (b s : list A) x off :
  slice b off (zlen (x :: s)) = Some (x :: s) ->
  slice b off 1 = Some [x] /\ slice b (off + 1) (zlen s) = Some s.
Proof. apply (slice_app_inv b [x] s). Qed.

Lemma slice_eq_rd {A} (b s : list A) off :
  0 <= off -> off + zlen s <= zlen b ->
  (forall i, 0 <= i < zlen s -> rd b (off + i) = rd s i) -> slice b off (zlen s) = Some s.
Proof.
  intros Ho Hl H. destruct (slice_total b off (zlen s)) as [s' Hs']; [lia | apply zlen_nonneg | lia|].
  rewrite Hs'. f_equal. apply list_eq_rd; [apply (slice_zlen _ _ _ _ Hs')|].
  intros i Hi. rewrite (slice_zlen _ _ _ _ Hs') in Hi. rewrite (rd_slice _ _ _ _ _ Hs') by lia. by apply H.
Qed.

Section Decoder.
Context {F : Type} `{LawfulStore F}.
Implicit Types f : F.

(** [p] is the archive, [c] its contents, [q] the destination, and [g0] the
    files of the store. *)
Variables (p q c : bytes) (g0 : gmap bytes bytes).
Hypothesis Hpq : p <> q.
Hypothesis Hg0 : g0 !! p = Some c.
Hypothesis Hcb : is_bytes c.
Hypothesis Hcl : zlen c < 9223372036854775808.

Definition rb_inv (rb : lz4_read_buffer_t) : Prop :=
  rb_path rb = p /\ rb_file_size rb = zlen c /\ zlen (rb_data rb) = 4096 /\
  ((rb_length rb = 0 /\ rb_start rb = UINT64_MAX) \/
   (0 < rb_length rb <= 4096 /\ 0 <= rb_start rb /\ rb_start rb + rb_length rb <= zlen c /\
    forall i, 0 <= i < rb_length rb -> rd (rb_data rb) i = rd c (rb_start rb + i))).

(** A store in which the archive can be read. *)
Definition src_ok f : Prop := store_ok f /\ contents f !! p = Some c.

(** The buffer covers [off]. *)
Definition covers (rb : lz4_read_buffer_t) (off : Z) : Prop :=
  rb_start rb <= off < rb_start rb + rb_length rb.

Lemma refill_ok rb f off :
  rb_inv rb -> src_ok f -> 0 <= off < zlen c ->
  exists br rb' f',
    refill rb f off = Some (br, rb', f') /\
    0 < br /\ rb_inv rb' /\ covers rb' off /\ src_ok f' /\ contents f' = contents f.
Proof.
  intros Hrb [Hok Hc] Ho. pose proof Hrb as (Hp & Hfs & Hd & Hcase). unfold refill.
  destruct ((off <? rb_start rb) || (rb_length rb <=? u64 (off - rb_start rb))) eqn:E.
  - rewrite Hfs, Hp, u64_small by (unfold_int; lia). cbn zeta.
    set (req := if LZ4_READ_AHEAD_SIZE <? zlen c - off then LZ4_READ_AHEAD_SIZE else zlen c - off).
    assert (0 < req <= 4096 /\ req <= zlen c - off) as [Hr Hr2]
      by (unfold req, LZ4_READ_AHEAD_SIZE; bool_true).
    destruct (law_read f p c off req Hok Hc ltac:(lia) ltac:(unfold_int; lia)) as (f' & Hrd & Hok' & Hc').
    set (d := take (Z.to_nat req) (drop (Z.to_nat off) c)) in *.
    assert (slice c off req = Some d) as Hsl by (apply slice_Some; split_and!; lia || done).
    pose proof (slice_zlen _ _ _ _ Hsl) as Hdl. rewrite Hrd. cbn [mbind option_bind].
    destruct (blit_total (rb_data rb) d 0) as [dat Hdat]; [lia..|]. rewrite Hdat. cbn [mbind option_bind].
    destruct (Z.leb_spec (zlen d) 0); [lia|]. rewrite (u32_small (zlen d)) by (unfold_int; lia).
    do 3 eexists. split; [done|]. unfold rb_inv, covers, src_ok. cbn. rewrite Hc'.
    split_and!; try done; try lia.
    + by rewrite (blit_zlen _ _ _ _ Hdat).
    + right. split_and!; try lia. intros i Hi. rewrite (rd_blit _ _ _ _ _ Hdat).
      rewrite Z.sub_0_r. bgoal. by rewrite (rd_slice _ _ _ _ _ Hsl) by lia.
  - apply orb_false_iff in E as [E1%Z.ltb_ge E2%Z.leb_gt].
    exists 1, rb, f. split; [done|]. unfold covers, src_ok. split_and!; try done; try lia.
    destruct Hcase as [[Hl Hs]|(?&?&?&?)].
    + rewrite Hs in E1. unfold_int. lia.
    + rewrite u64_small in E2 by (unfold_int; lia). lia.
Qed.

Lemma read_loop_ok fuel cap rb f off dest len :
  rb_inv rb -> src_ok f -> 0 <= off -> 0 <= len < 4294967296 -> off + len <= zlen c ->
  len < Z.of_nat fuel -> zlen dest + len <= cap ->
  exists d rb' f', read_loop fuel cap rb f off dest len = Some (0, dest ++ d, rb', f') /\
    slice c off len = Some d /\ rb_inv rb' /\ src_ok f' /\ contents f' = contents f.
Proof.
  revert rb f off dest len. induction fuel as [|fuel IH];
    intros rb f off dest len Hrb Hf Ho Hl Hol Hfu Hcap; [lia|]. cbn [read_loop].
  destruct (Z.eqb_spec len 0) as [->|Hne].
  { exists [], rb, f. rewrite app_nil_r. split; [done|]. split; [|done].
    apply slice_Some. split_and!; auto; lia. }
  pose proof Hrb as (_ & Hfs & _ & _). rewrite Hfs.
  destruct (Z.leb_spec (zlen c) off); [lia|].
  destruct (refill_ok rb f off Hrb Hf ltac:(lia)) as (br & rb1 & f1 & -> & Hbr & Hrb1 & Hcov & Hf1 & Hc1).
  cbn [mbind option_bind]. destruct (Z.leb_spec br 0); [lia|].
  pose proof Hrb1 as (_ & _ & Hd & Hcase).
  destruct Hcase as [[Hl0 _]|(Hlen & Hst & Hle & Hdat)]; [unfold covers in Hcov; lia|].
  unfold covers in Hcov. rewrite (u32_small (off - _)) by (unfold_int; lia).
  rewrite u32_small by (unfold_int; lia).
  set (batch := if len <? _ then len else _).
  assert (0 < batch <= len /\ batch <= rb_length rb1 - (off - rb_start rb1)) as [Hb Hb2]
    by (unfold batch; bool_true).
  destruct (slice_total c off batch) as [ch Hch]; [lia..|].
  assert (slice (rb_data rb1) (off - rb_start rb1) batch = Some ch) as ->.
  { pose proof (slice_zlen _ _ _ _ Hch) as Hz. rewrite <- Hz. apply slice_eq_rd; [lia|lia|].
    intros i Hi. rewrite Hdat by lia. rewrite (rd_slice _ _ _ _ _ Hch) by lia. f_equal. lia. }
  cbn [mbind option_bind]. pose proof (slice_zlen _ _ _ _ Hch) as Hchl. destruct (Z.ltb_spec cap (zlen dest + batch)); [lia|].
  rewrite u64_small by (unfold_int; lia). rewrite u32_small by (unfold_int; lia).
  destruct (IH rb1 f1 (off + batch) (dest ++ ch) (len - batch) Hrb1 Hf1)
    as (d & rb2 & f2 & -> & Hd2 & Hrb2 & Hf2 & Hc2); [rewrite ?zlen_app; lia..|].
  exists (ch ++ d), rb2, f2. rewrite <- app_assoc. split_and!; try done; try congruence.
  replace len with (batch + (len - batch)) by lia. by apply slice_app_split.
Qed.

(** Reading [s] where the archive holds [s]. *)
Lemma read_at_ok cap rb f off s :
  rb_inv rb -> src_ok f -> slice c off (zlen s) = Some s -> zlen s < 4294967296 -> zlen s <= cap ->
  exists rb' f', lz4_read_at cap rb f off (zlen s) = Some (0, s, rb', f') /\
    rb_inv rb' /\ src_ok f' /\ contents f' = contents f.
Proof.
  intros Hrb Hf Hs Hl Hcap. pose proof Hs as (?&?&?&_)%slice_Some.
  destruct (read_loop_ok (S (Z.to_nat (zlen s))) cap rb f off [] (zlen s) Hrb Hf)
    as (d & rb' & f' & Hr & Hd & ?); [rewrite ?zlen_nil; lia..|].
  exists rb', f'. unfold lz4_read_at. rewrite Hr. assert (d = s) as -> by congruence. done.
Qed.

Lemma read1_ok rb f off x :
  rb_inv rb -> src_ok f -> slice c off 1 = Some [x] ->
  exists rb' f', lz4_read_at 1 rb f off 1 = Some (0, [x], rb', f') /\
    rb_inv rb' /\ src_ok f' /\ contents f' = contents f.
Proof. intros. by apply (read_at_ok 1 rb f off [x]). Qed.

(** ** Length extensions *)

Lemma ext_loop_ok fuel rb f idx limit len n :
  rb_inv rb -> src_ok f -> 0 <= n -> 0 <= len -> len + n < 4294967296 ->
  slice c idx (zlen (ext_bytes n)) = Some (ext_bytes n) ->
  idx + zlen (ext_bytes n) <= limit -> limit - idx < Z.of_nat fuel ->
  exists rb' f', ext_loop fuel rb f idx limit len =
      Some (0, idx + zlen (ext_bytes n), len + n, rb', f') /\
    rb_inv rb' /\ src_ok f' /\ contents f' = contents f.
Proof.
  revert rb f idx len n. induction fuel as [|fuel IH];
    intros rb f idx len n Hrb Hf Hn Hlen Hov Hs Hlim Hfu.
  { rewrite length_ext_bytes in Hlim by lia. pose proof (Z.div_pos n 255). lia. }
  pose proof Hs as (Hi0 & _ & Hi1 & _)%slice_Some. cbn [ext_loop].
  destruct (Z.le_gt_cases 255 n).
  - rewrite (ext_bytes_step n) in * by lia. apply slice_cons_inv in Hs as [Hs1 Hs2].
    rewrite zlen_cons in *. pose proof (zlen_nonneg (ext_bytes (n - 255))).
    destruct (Z.leb_spec limit idx); [lia|].
    destruct (read1_ok rb f idx 255 Hrb Hf Hs1) as (rb1 & f1 & -> & Hrb1 & Hf1 & Hc1).
    cbn [mbind option_bind negb Z.eqb]. change (rd [255] 0) with (Some 255). cbn [mbind option_bind].
    rewrite (u64_small (idx + 1)) by (unfold_int; lia).
    destruct (Z.ltb_spec (UINT64_MAX - len) 255); [unfold_int; lia|].
    rewrite u64_small by (unfold_int; lia). cbn [Z.eqb Pos.eqb].
    destruct (IH rb1 f1 (idx + 1) (len + 255) (n - 255) Hrb1 Hf1) as (rb2 & f2 & -> & ? & ? & ?);
      [lia..|done|lia|lia|].
    exists rb2, f2. split_and!; try done; try congruence.
    rewrite Z.add_assoc. by replace (len + 255 + (n - 255)) with (len + n) by lia.
  - rewrite (ext_bytes_small n) in * by lia. change (zlen [n]) with 1 in *.
    destruct (Z.leb_spec limit idx); [lia|].
    destruct (read1_ok rb f idx n Hrb Hf Hs) as (rb1 & f1 & -> & Hrb1 & Hf1 & Hc1).
    cbn [mbind option_bind negb Z.eqb]. change (rd [n] 0) with (Some n). cbn [mbind option_bind].
    rewrite (u64_small (idx + 1)) by (unfold_int; lia).
    destruct (Z.ltb_spec (UINT64_MAX - len) n); [unfold_int; lia|].
    rewrite u64_small by (unfold_int; lia). rewrite eqb_neq by lia. by exists rb1, f1.
Qed.

(** A length nibble with its optional extension. *)
Lemma nibble_ok rb f idx limit n base :
  rb_inv rb -> src_ok f -> 0 <= n -> 0 <= base -> n + base < 4294967296 ->
  0 <= idx -> slice c idx (zlen (ext_if n)) = Some (ext_if n) -> idx + zlen (ext_if n) <= limit ->
  exists rb' f',
    (if Z.min n 15 =? 15
     then lz4_read_length rb f idx limit (Z.min n 15 + base)
     else Some (0, idx, Z.min n 15 + base, rb, f))
    = Some (0, idx + zlen (ext_if n), n + base, rb', f') /\
    rb_inv rb' /\ src_ok f' /\ contents f' = contents f.
Proof.
  intros Hrb Hf Hn Hb Hov Hi. unfold ext_if.
  destruct (Z.leb_spec 15 n); intros Hs Hl.
  - rewrite Z.min_r by lia. cbn [Z.eqb Pos.eqb].
    pose proof (zlen_nonneg (ext_bytes (n - 15))).
    destruct (ext_loop_ok (S (Z.to_nat (limit - idx))) rb f idx limit (15 + base) (n - 15) Hrb Hf)
      as (rb' & f' & He & ?); [lia..|done|lia|lia|].
    exists rb', f'. unfold lz4_read_length. rewrite He. split; [|done]. do 4 f_equal. lia.
  - rewrite Z.min_l by lia. rewrite eqb_neq by lia. exists rb, f. change (zlen []) with 0.
    by rewrite Z.add_0_r.
Qed.

(** ** The output side *)

(** [o] is everything produced so far. *)
Definition out_inv (out : lz4_decode_output_t) f (o : bytes) : Prop :=
  store_ok f /\ do_path out = q /\ zlen (do_data out) = LZ4_OUTPUT_SIZE /\
  is_bytes (do_data out) /\ zlen (do_history out) = LZ4_WINDOW_SIZE /\
  do_produced out = zlen o /\ 0 <= do_length out < LZ4_OUTPUT_SIZE /\
  (exists flushed, contents f = <[q := flushed]> g0 /\
     flushed ++ take (Z.to_nat (do_length out)) (do_data out) = o) /\
  is_bytes o /\
  forall j, 0 <= j -> zlen o - LZ4_WINDOW_SIZE <= j < zlen o ->
    rd (do_history out) (j mod LZ4_WINDOW_SIZE) = rd o j.

Lemma out_src_ok out f o : out_inv out f o -> src_ok f.
Proof.
  intros (Hok&_&_&_&_&_&_&(fl&Hc&_)&_). split; [done|]. rewrite Hc.
  by rewrite lookup_insert_ne.
Qed.

Lemma out_inv_same out f f' o :
  out_inv out f o -> src_ok f' -> contents f' = contents f -> out_inv out f' o.
Proof.
  intros (?&?&?&?&?&?&?&(fl&Hc&?)&?&?) [Hok _] Heq. repeat split; try done; try lia.
  exists fl. by rewrite Heq.
Qed.

Lemma land_window x : Z.land x (LZ4_WINDOW_SIZE - 1) = x mod LZ4_WINDOW_SIZE.
Proof. exact (land_ones_mod x 12 ltac:(lia)). Qed.

(** The ring after one more byte. *)
Lemma ring_step (h h' o : bytes) v :
  wr h (zlen o mod LZ4_WINDOW_SIZE) v = Some h' ->
  (forall j, 0 <= j -> zlen o - LZ4_WINDOW_SIZE <= j < zlen o ->
     rd h (j mod LZ4_WINDOW_SIZE) = rd o j) ->
  forall j, 0 <= j -> zlen (o ++ [v]) - LZ4_WINDOW_SIZE <= j < zlen (o ++ [v]) ->
    rd h' (j mod LZ4_WINDOW_SIZE) = rd (o ++ [v]) j.
Proof.
  intros Hw Hr j Hj Hj2. rewrite zlen_app in Hj2. change (zlen [v]) with 1 in Hj2.
  unfold LZ4_WINDOW_SIZE in *.
  destruct (Z.eq_dec j (zlen o)) as [->|Hne].
  - by rewrite (rd_wr_eq _ _ _ _ Hw), rd_mid.
  - rewrite rd_app_l by lia. rewrite <- Hr by lia. apply (rd_wr_ne _ _ _ _ _ Hw).
    intros E. pose proof (Z.div_mod j 4096). pose proof (Z.div_mod (zlen o) 4096). lia.
Qed.

Lemma output_byte_ok out f o v :
  out_inv out f o -> is_u8 v -> zlen o + 1 < 4294967296 ->
  exists out' f', lz4_output_byte out f v = Some (0, out', f') /\ out_inv out' f' (o ++ [v]).
Proof.
  intros (Hok&Hp&Hd&Hdb&Hh&Hpr&Hl&(fl&Hc&Ho)&Hob&Hring) Hv Hz. unfold lz4_output_byte.
  rewrite land_window, Hpr. pose proof (zlen_nonneg o).
  assert (0 <= zlen o mod LZ4_WINDOW_SIZE < LZ4_WINDOW_SIZE) as Hm
    by (apply Z.mod_pos_bound; unfold LZ4_WINDOW_SIZE; lia).
  destruct (wr (do_history out) _ v) as [h|] eqn:Eh; [|by rewrite wr_total in Eh by lia].
  destruct (wr (do_data out) (do_length out) v) as [dat|] eqn:Ed; [|by rewrite wr_total in Ed by lia].
  cbn [mbind option_bind]. rewrite u32_small by (unfold_int; lia).
  pose proof (ring_step _ _ _ _ Eh Hring) as Hring'.
  pose proof (wr_zlen _ _ _ _ Eh) as Hh'. pose proof (wr_zlen _ _ _ _ Ed) as Hd'.
  assert (is_bytes dat) as Hdb' by exact (is_bytes_wr _ _ _ _ Hdb Hv Ed).
  assert (is_bytes (o ++ [v])) as Hob' by (apply is_bytes_app; split; [done | by constructor]).
  assert (take (Z.to_nat (do_length out + 1)) dat =
          take (Z.to_nat (do_length out)) (do_data out) ++ [v]) as Htk.
  { apply wr_Some in Ed as [? ->]. rewrite Z2Nat.inj_add, Nat.add_1_r by lia.
    assert (Z.to_nat (do_length out) < length (do_data out))%nat by (unfold zlen in Hd; lia).
    rewrite (take_S_r _ _ v) by by apply list_lookup_insert_eq.
    by rewrite take_insert_ge by lia. }
  assert (contents f !! q = Some fl) as Hq by by rewrite Hc, lookup_insert_eq.
  destruct (Z.eqb_spec (do_length out + 1) LZ4_OUTPUT_SIZE) as [E|E].
  - assert (slice dat 0 (do_length out + 1) =
            Some (take (Z.to_nat (do_length out)) (do_data out) ++ [v])) as ->.
    { apply slice_Some. split_and!; [lia..|]. by rewrite drop_0, Htk. }
    cbn [mbind option_bind].
    destruct (law_append f q fl (take (Z.to_nat (do_length out)) (do_data out) ++ [v]) Hok)
      as (f' & Ha & Hok' & Hc'); [apply is_bytes_app; split; [by apply Forall_take | by constructor] | done |].
    rewrite Hp, Ha. cbn [mbind option_bind negb Z.eqb]. do 2 eexists. split; [done|].
    unfold out_inv. cbn [do_path do_history do_data do_length do_produced].
    split_and!; [done | done | lia | done | lia | by rewrite zlen_app | lia | lia | | done | done].
    eexists. rewrite Hc', Hc, insert_insert_eq. split; [done|].
    change (Z.to_nat 0) with 0%nat. rewrite take_0, app_nil_r, app_assoc. by rewrite Ho.
  - do 2 eexists. split; [done|].
    unfold out_inv. cbn [do_path do_history do_data do_length do_produced].
    split_and!; [done | done | lia | done | lia | by rewrite zlen_app | lia | lia | | done | done].
    exists fl. split; [done|]. by rewrite Htk, app_assoc, Ho.
Qed.

Lemma emit_literals_ok d out f o :
  out_inv out f o -> is_bytes d -> zlen o + zlen d < 4294967296 ->
  exists out' f', emit_literals out f d = Some (false, out', f') /\ out_inv out' f' (o ++ d).
Proof.
  revert out f o. induction d as [|v d IH]; intros out f o Hi Hd Hz; cbn [emit_literals].
  - exists out, f. by rewrite app_nil_r.
  - apply is_bytes_cons in Hd as [Hv Hd]. rewrite zlen_cons in Hz. pose proof (zlen_nonneg d).
    destruct (output_byte_ok out f o v Hi Hv) as (out1 & f1 & -> & Hi1); [lia|].
    cbn [mbind option_bind negb Z.eqb].
    destruct (IH out1 f1 (o ++ [v]) Hi1 Hd) as (out2 & f2 & -> & Hi2); [zs|].
    exists out2, f2. split; [done|]. by rewrite <- app_assoc in Hi2.
Qed.

Lemma copy_literals_ok fuel rb out f o idx lits :
  rb_inv rb -> out_inv out f o -> slice c idx (zlen lits) = Some lits ->
  zlen o + zlen lits < 4294967296 -> zlen lits < Z.of_nat fuel ->
  exists rb' out' f', copy_literals fuel rb out f idx (zlen lits) =
      Some (false, idx + zlen lits, rb', out', f') /\
    rb_inv rb' /\ out_inv out' f' (o ++ lits).
Proof.
  revert rb out f o idx lits. induction fuel as [|fuel IH];
    intros rb out f o idx lits Hrb Hi Hs Hz Hfu; [pose proof (zlen_nonneg lits); lia|].
  cbn [copy_literals]. pose proof (zlen_nonneg lits). pose proof (zlen_nonneg o).
  destruct (Z.eqb_spec (zlen lits) 0) as [E|E].
  { apply zlen_0_nil in E. subst lits. exists rb, out, f. change (zlen []) with 0.
    by rewrite app_nil_r, Z.add_0_r. }
  set (batch := if 512 <? zlen lits then 512 else u32 (zlen lits)).
  assert (0 < batch <= zlen lits /\ batch <= 512) as [Hb Hb512].
  { unfold batch. rewrite u32_small by (unfold_int; lia). destruct (Z.ltb_spec 512 (zlen lits)); lia. }
  set (l1 := take (Z.to_nat batch) lits). set (l2 := drop (Z.to_nat batch) lits).
  assert (lits = l1 ++ l2) as Hlits by (symmetry; apply take_drop). rewrite Hlits in Hs.
  assert (zlen l1 = batch) as Hl1 by (unfold l1; zs).
  assert (zlen l2 = zlen lits - batch) as Hl2 by (unfold l2; zs).
  apply slice_app_inv in Hs as [Hs1 Hs2]. pose proof Hs2 as (?&?&?&_)%slice_Some.
  pose proof Hs1 as (?&?&?&_)%slice_Some.
  destruct (read_at_ok 512 rb f idx l1 Hrb (out_src_ok _ _ _ Hi) Hs1) as (rb1 & f1 & Hr & Hrb1 & Hf1 & Hc1); [lia..|].
  rewrite Hl1 in Hr. rewrite Hr. cbn [mbind option_bind negb Z.eqb].
  pose proof (out_inv_same _ _ _ _ Hi Hf1 Hc1) as Hi1.
  destruct (emit_literals_ok l1 out f1 o Hi1) as (out2 & f2 & -> & Hi2);
    [exact (is_bytes_slice _ _ _ _ Hcb Hs1) | lia |].
  cbn [mbind option_bind]. rewrite u64_small by (unfold_int; lia).
  rewrite <- Hl2. rewrite Hl1 in Hs2.
  destruct (IH rb1 out2 f2 (o ++ l1) (idx + batch) l2 Hrb1 Hi2) as (rb3 & out3 & f3 & -> & Hrb3 & Hi3);
    [done | zs | lia |].
  exists rb3, out3, f3. rewrite <- app_assoc, <- Hlits in Hi3. split_and!; try done.
  replace (idx + batch + zlen l2) with (idx + zlen lits) by lia. done.
Qed.

(** Copying [k] bytes from [off] back continues [T] when [T] repeats there. *)
Lemma copy_match_ok k T a off out f :
  out_inv out f (take (Z.to_nat a) T) -> is_bytes T -> zlen T < 4294967296 ->
  0 <= a -> a + Z.of_nat k <= zlen T -> 1 <= off <= a -> off <= LZ4_WINDOW_SIZE ->
  (forall j, 0 <= j < Z.of_nat k -> rd T (a + j) = rd T (a + j - off)) ->
  exists out' f', copy_match k out f off = Some (false, out', f') /\
    out_inv out' f' (take (Z.to_nat (a + Z.of_nat k)) T).
Proof.
  revert a out f. induction k as [|k IH]; intros a out f Hi HT HTl Ha Hk Ho Hw Hrep; cbn [copy_match].
  - exists out, f. by rewrite Z.add_0_r.
  - pose proof Hi as (_&_&_&_&_&Hpr&_&_&_&Hring).
    assert (zlen (take (Z.to_nat a) T) = a) as Hta by zs. rewrite Hta in *.
    rewrite Hpr, (u32_small (a - off)) by (unfold_int; lia). rewrite land_window.
    rewrite Hring by lia. destruct (rd_is_Some T a) as [v Hv]; [lia|].
    assert (rd (take (Z.to_nat a) T) (a - off) = Some v) as ->.
    { rewrite <- Hv. specialize (Hrep 0 ltac:(lia)). rewrite !Z.add_0_r in Hrep. rewrite Hrep.
      rewrite !rd_lookup by lia. apply lookup_take_lt. lia. }
    cbn [mbind option_bind].
    destruct (output_byte_ok out f _ v Hi) as (out1 & f1 & -> & Hi1);
      [exact (is_bytes_rd _ _ _ HT Hv) | lia |]. cbn [mbind option_bind negb Z.eqb].
    assert (take (Z.to_nat a) T ++ [v] = take (Z.to_nat (a + 1)) T) as Htk.
    { rewrite Z2Nat.inj_add, Nat.add_1_r by lia. rewrite rd_lookup in Hv by lia.
      by rewrite (take_S_r _ _ _ Hv). }
    rewrite Htk in Hi1.
    destruct (IH (a + 1) out1 f1 Hi1) as (out2 & f2 & -> & Hi2); try done; try lia.
    { intros j Hj. specialize (Hrep (j + 1) ltac:(lia)).
      replace (a + 1 + j) with (a + (j + 1)) by lia. exact Hrep. }
    exists out2, f2. split; [done|]. by replace (a + Z.of_nat (S k)) with (a + 1 + Z.of_nat k) by lia.
Qed.

(** ** One sequence *)

Lemma token_nibbles L M :
  0 <= L <= 15 -> 0 <= M <= 15 ->
  Z.shiftr (L * 16 + M) 4 = L /\ Z.land (L * 16 + M) 15 = M.
Proof.
  intros HL HM. split.
  - rewrite Z.shiftr_div_pow2 by lia. change (2 ^ 4) with 16.
    rewrite Z.div_add_l, Z.div_small by lia. lia.
  - change 15 with (2 ^ 4 - 1). rewrite land_ones_mod by lia. change (2 ^ 4) with 16.
    rewrite Z.add_comm, Z_mod_plus_full, Z.mod_small by lia. done.
Qed.

Lemma offset_value off :
  0 <= off <= LZ4_WINDOW_SIZE -> Z.lor (off mod 256) (Z.shiftl (off / 256 mod 256) 8) = off.
Proof.
  unfold LZ4_WINDOW_SIZE. intros Ho.
  pose proof (Z.div_mod off 256). pose proof (Z.mod_pos_bound off 256).
  rewrite (Z.mod_small (off / 256)) by (split; [apply Z.div_pos; lia | apply Z.div_lt_upper_bound; lia]).
  rewrite Z.shiftl_mul_pow2, lor_add_low by lia. change (2 ^ 8) with 256. lia.
Qed.

Section Sequence.
(** [T] is everything produced once the block is decoded, [bs] the start of the
    block in it, [be] the end of the block in the archive. *)
Variables (T : bytes) (bs be : Z).
Hypothesis HTb : is_bytes T.
Hypothesis HTl : zlen T < 4294967296.
Hypothesis Hbs : 0 <= bs.
Hypothesis Hbe : be <= zlen c.

Lemma decode_match_ok rb out f token idx A m off :
  rb_inv rb -> out_inv out f (take (Z.to_nat A) T) ->
  Z.land token 15 = Z.min (m - 4) 15 -> 4 <= m -> bs <= A -> A + m <= zlen T ->
  1 <= off <= A - bs -> off <= LZ4_WINDOW_SIZE ->
  (forall j, 0 <= j < m -> rd T (A + j) = rd T (A + j - off)) ->
  let e := le_bytes 2 off ++ ext_if (m - 4) in
  slice c idx (zlen e) = Some e -> idx + zlen e <= be ->
  exists rb' out' f',
    decode_match rb out f token idx be bs (zlen T) =
      Some (SeqAgain, idx + zlen e, rb', out', f') /\
    rb_inv rb' /\ out_inv out' f' (take (Z.to_nat (A + m)) T).
Proof.
  intros Hrb Hi Htok Hm HA HAm Hoff Hw Hrep e Hs Hlim. unfold decode_match.
  pose proof Hs as (Hi0&_&Hi1&_)%slice_Some. subst e. apply slice_app_inv in Hs as [Hs1 Hs2].
  rewrite zlen_app, zlen_le_bytes in *. change (Z.of_nat 2) with 2 in *.
  pose proof (zlen_nonneg (ext_if (m - 4))). pose proof (zlen_nonneg T).
  rewrite (u64_small (be - idx)) by (unfold_int; lia).
  destruct (Z.ltb_spec (be - idx) 2); [lia|].
  destruct (read_at_ok 2 rb f idx (le_bytes 2 off) Hrb (out_src_ok _ _ _ Hi)) as (rb1 & f1 & Hr & Hrb1 & Hf1 & Hc1);
    [by rewrite zlen_le_bytes..|].
  rewrite zlen_le_bytes in Hr. change (Z.of_nat 2) with 2 in Hr. rewrite Hr.
  cbn [mbind option_bind negb Z.eqb le_bytes].
  change (rd [off mod 256; off / 256 mod 256] 0) with (Some (off mod 256)).
  change (rd [off mod 256; off / 256 mod 256] 1) with (Some (off / 256 mod 256)).
  cbn [mbind option_bind]. rewrite offset_value by lia.
  pose proof (out_inv_same _ _ _ _ Hi Hf1 Hc1) as Hi'.
  assert (do_produced out = A) as Hpr by (destruct Hi as (_&_&_&_&_&->&_); zs). rewrite Hpr.
  rewrite (u32_small (A - bs)), (u64_small (idx + 2)), (u64_small (zlen T - A)) by (unfold_int; lia).
  destruct (Z.eqb_spec off 0); [lia|]. destruct (Z.ltb_spec LZ4_WINDOW_SIZE off); [lia|].
  destruct (Z.ltb_spec (A - bs) off); [lia|]. cbn [orb]. rewrite Htok.
  destruct (nibble_ok rb1 f1 (idx + 2) be (m - 4) 4 Hrb1 Hf1) as (rb2 & f2 & -> & Hrb2 & Hf2 & Hc2);
    [lia | lia | lia | lia | done | lia |].
  cbn [mbind option_bind negb Z.eqb].
  destruct (Z.ltb_spec (zlen T - A) (m - 4 + 4)); [lia|].
  pose proof (out_inv_same _ _ _ _ Hi' Hf2 Hc2) as Hi2.
  destruct (copy_match_ok (Z.to_nat (m - 4 + 4)) T A off out f2 Hi2 HTb HTl)
    as (out3 & f3 & -> & Hi3); [lia | lia | lia | done | |].
  { intros j Hj. apply Hrep. lia. }
  cbn [mbind option_bind]. exists rb2, out3, f3. split_and!; [|done|].
  - by rewrite Z.add_assoc.
  - by replace (A + m) with (A + Z.of_nat (Z.to_nat (m - 4 + 4))) by lia.
Qed.

(** Token and literals, common to the two kinds of sequence. *)
Lemma decode_head_ok rb out f idx A lits M rest :
  rb_inv rb -> out_inv out f (take (Z.to_nat A) T) -> 0 <= A ->
  0 <= M <= 15 -> slice T A (zlen lits) = Some lits ->
  let e := [Z.min (zlen lits) 15 * 16 + M] ++ ext_if (zlen lits) ++ lits ++ rest in
  slice c idx (zlen e) = Some e -> idx + zlen e <= be ->
  let idx' := idx + 1 + zlen (ext_if (zlen lits)) + zlen lits in
  exists rb' out' f',
    decode_sequence rb out f idx be bs (zlen T) =
      (if do_produced out' =? zlen T
       then Some (if idx' =? be then SeqBreak else SeqFail, idx', rb', out', f')
       else decode_match rb' out' f' (Z.min (zlen lits) 15 * 16 + M) idx' be bs (zlen T)) /\
    rb_inv rb' /\ out_inv out' f' (take (Z.to_nat (A + zlen lits)) T) /\
    slice c idx' (zlen rest) = Some rest.
Proof.
  intros Hrb Hi HA HM HT e Hs Hlim idx'. unfold decode_sequence. subst e.
  pose proof Hs as (Hi0&_&Hi1&_)%slice_Some. apply slice_app_inv in Hs as [Hs0 Hs1].
  apply slice_app_inv in Hs1 as [Hs1 Hs2]. apply slice_app_inv in Hs2 as [Hs2 Hs3].
  rewrite !zlen_app in *. set (tok := _ * 16 + _) in *. change (zlen [tok]) with 1 in *.
  pose proof (zlen_nonneg (ext_if (zlen lits))). pose proof (zlen_nonneg lits).
  pose proof (zlen_nonneg rest). pose proof HT as (_&_&HTA&_)%slice_Some.
  destruct (read1_ok rb f idx tok Hrb (out_src_ok _ _ _ Hi) Hs0) as (rb1 & f1 & -> & Hrb1 & Hf1 & Hc1).
  cbn [mbind option_bind negb Z.eqb]. change (rd [tok] 0) with (Some tok). cbn [mbind option_bind].
  destruct (token_nibbles (Z.min (zlen lits) 15) M) as [Hsh _]; [lia..|]. fold tok in Hsh. rewrite Hsh.
  rewrite (u64_small (idx + 1)) by (unfold_int; lia).
  destruct (nibble_ok rb1 f1 (idx + 1) be (zlen lits) 0 Hrb1 Hf1)
    as (rb2 & f2 & Hnib & Hrb2 & Hf2 & Hc2); [lia | lia | lia | lia | done | lia |].
  rewrite !Z.add_0_r in Hnib. rewrite Hnib. cbn [mbind option_bind negb Z.eqb].
  pose proof (out_inv_same _ _ _ _ (out_inv_same _ _ _ _ Hi Hf1 Hc1) Hf2 Hc2) as Hi2.
  assert (do_produced out = A) as Hpr by (destruct Hi as (_&_&_&_&_&->&_); zs). rewrite Hpr.
  rewrite (u64_small (zlen T - A)), (u64_small (be - _)) by (unfold_int; lia).
  destruct (Z.ltb_spec (zlen T - A) (zlen lits)); [lia|].
  destruct (Z.ltb_spec (be - (idx + 1 + zlen (ext_if (zlen lits)))) (zlen lits)); [lia|]. cbn [orb].
  destruct (copy_literals_ok (S (Z.to_nat (zlen lits))) rb2 out f2 _ (idx + 1 + zlen (ext_if (zlen lits))) lits Hrb2 Hi2)
    as (rb3 & out3 & f3 & -> & Hrb3 & Hi3); [done | zs | lia |].
  cbn [mbind option_bind]. exists rb3, out3, f3. split; [done|]. split_and!; [done| |].
  - apply slice_Some in HT as (_&_&_&HTe). rewrite HTe in Hi3 at 1.
    by rewrite take_take_drop, <- Z2Nat.inj_add in Hi3 by lia.
  - exact Hs3.
Qed.

Lemma decode_seq_step rb out f idx A lits m off :
  rb_inv rb -> out_inv out f (take (Z.to_nat A) T) -> bs <= A ->
  slice T A (zlen lits) = Some lits -> 4 <= m -> A + zlen lits + m <= zlen T ->
  1 <= off <= A + zlen lits - bs -> off <= LZ4_WINDOW_SIZE ->
  (forall j, 0 <= j < m -> rd T (A + zlen lits + j) = rd T (A + zlen lits + j - off)) ->
  slice c idx (zlen (enc_seq lits m off)) = Some (enc_seq lits m off) ->
  idx + zlen (enc_seq lits m off) <= be ->
  exists rb' out' f',
    decode_sequence rb out f idx be bs (zlen T) =
      Some (SeqAgain, idx + zlen (enc_seq lits m off), rb', out', f') /\
    rb_inv rb' /\ out_inv out' f' (take (Z.to_nat (A + zlen lits + m)) T).
Proof.
  intros Hrb Hi HA HT Hm HAm Hoff Hw Hrep. unfold enc_seq. fold (em_of m).
  assert (em_of m = m - 4) as -> by (unfold em_of; bool_true). rewrite (eqb_neq m 0) by lia.
  intros Hs Hlim. pose proof (zlen_nonneg lits).
  destruct (decode_head_ok rb out f idx A lits (Z.min (m - 4) 15) (le_bytes 2 off ++ ext_if (m - 4)) Hrb Hi)
    as (rb1 & out1 & f1 & -> & Hrb1 & Hi1 & Hs1); [lia | lia | done | done | done |].
  assert (do_produced out1 = A + zlen lits) as -> by (destruct Hi1 as (_&_&_&_&_&->&_); zs).
  rewrite (eqb_neq (A + zlen lits)) by lia. rewrite !zlen_app in Hlim. rewrite !zlen_app.
  set (tok := _ * 16 + _) in *. change (zlen [tok]) with 1 in *.
  destruct (decode_match_ok rb1 out1 f1 tok (idx + 1 + zlen (ext_if (zlen lits)) + zlen lits)
    (A + zlen lits) m off Hrb1 Hi1) as (rb2 & out2 & f2 & -> & Hrb2 & Hi2); try done; try lia.
  { apply token_nibbles; lia. }
  { rewrite zlen_app. lia. }
  exists rb2, out2, f2. split_and!; try done. rewrite zlen_app, !Z.add_assoc. done.
Qed.

Lemma decode_seq_last rb out f idx A lits :
  rb_inv rb -> out_inv out f (take (Z.to_nat A) T) -> 0 <= A ->
  slice T A (zlen lits) = Some lits -> A + zlen lits = zlen T ->
  slice c idx (zlen (enc_seq lits 0 0)) = Some (enc_seq lits 0 0) ->
  idx + zlen (enc_seq lits 0 0) = be ->
  exists rb' out' f',
    decode_sequence rb out f idx be bs (zlen T) = Some (SeqBreak, be, rb', out', f') /\
    rb_inv rb' /\ out_inv out' f' T.
Proof.
  intros Hrb Hi HA HT HAl. unfold enc_seq. cbn [Z.ltb Z.compare Z.eqb].
  change (Z.min 0 15) with 0. intros Hs Hlim.
  destruct (decode_head_ok rb out f idx A lits 0 [] Hrb Hi)
    as (rb1 & out1 & f1 & -> & Hrb1 & Hi1 & Hs1); [lia | lia | done | done | lia |].
  rewrite HAl in Hi1. rewrite take_ge in Hi1 by zs.
  assert (do_produced out1 = zlen T) as -> by by destruct Hi1 as (_&_&_&_&_&->&_).
  rewrite Z.eqb_refl. rewrite !zlen_app in Hlim. change (zlen []) with 0 in Hlim.
  set (tok := Z.min _ _ * 16 + _) in Hlim. change (zlen [tok]) with 1 in Hlim.
  assert (idx + 1 + zlen (ext_if (zlen lits)) + zlen lits = be) as -> by lia.
  rewrite Z.eqb_refl. by exists rb1, out1, f1.
Qed.

End Sequence.

(** ** One block *)

Section Block.
Variables (pre source : bytes) (n be : Z).
Let T : bytes := pre ++ take (Z.to_nat n) source.
Hypothesis Hn : 0 <= n <= zlen source.
Hypothesis HTb : is_bytes T.
Hypothesis HTl : zlen T < 4294967296.
Hypothesis Hbe : be <= zlen c.

Lemma zlen_T : zlen T = zlen pre + n.
Proof. unfold T. zs. Qed.

Lemma rd_T i : 0 <= i < n -> rd T (zlen pre + i) = rd source i.
Proof.
  intros. pose proof (zlen_nonneg pre). unfold T. rewrite rd_app_r by lia.
  replace (zlen pre + i - zlen pre) with i by lia. rewrite !rd_lookup by lia.
  apply lookup_take_lt. lia.
Qed.

Lemma slice_T a s : 0 <= a -> a + zlen s <= n -> slice source a (zlen s) = Some s ->
  slice T (zlen pre + a) (zlen s) = Some s.
Proof.
  intros Ha Hs Hsl. pose proof (zlen_nonneg pre). apply slice_eq_rd; [lia | rewrite zlen_T; lia|].
  intros i Hi. replace (zlen pre + a + i) with (zlen pre + (a + i)) by lia.
  rewrite rd_T by lia. by rewrite (rd_slice _ _ _ _ _ Hsl) by lia.
Qed.

Lemma parse_decode a enc :
  parses source a enc -> a <= n ->
  forall fuel rb out f idx,
    rb_inv rb -> out_inv out f pre -> slice c idx (zlen enc) = Some enc ->
    idx + zlen enc < be -> zlen enc < Z.of_nat fuel ->
    exists fuel' rb' out' f',
      decode_block fuel rb out f idx be (zlen pre) (zlen T) =
      decode_block fuel' rb' out' f' (idx + zlen enc) be (zlen pre) (zlen T) /\
      Z.of_nat fuel <= Z.of_nat fuel' + zlen enc /\
      rb_inv rb' /\ out_inv out' f' (take (Z.to_nat (zlen pre + a)) T).
Proof.
  pose proof (zlen_nonneg pre) as Hpre. pose proof zlen_T as HzT.
  induction 1 as [|a enc l lits m off Hp IH Hl Hlits Hm Hoff Hw Ham Hrep];
    intros Han fuel rb out f idx Hrb Hi Hs Hlim Hfu.
  - exists fuel, rb, out, f. change (zlen []) with 0. rewrite Z.add_0_r. split_and!; try done; try lia.
    unfold T. rewrite Z.add_0_r. unfold zlen. by rewrite Nat2Z.id, take_app_length.
  - pose proof (parses_range _ _ _ Hp) as Ha. pose proof (zlen_enc_seq_pos lits m off) as Hpos.
    pose proof (slice_zlen _ _ _ _ Hlits) as Hll. apply slice_app_inv in Hs as [Hs1 Hs2].
    rewrite zlen_app in *.
    destruct (IH ltac:(lia) fuel rb out f idx Hrb Hi Hs1) as (fuel1 & rb1 & out1 & f1 & -> & Hf1 & Hrb1 & Hi1);
      [lia..|]. rewrite <- Hll in *.
    destruct fuel1 as [|fuel1]; [lia|]. cbn [decode_block].
    assert (do_produced out1 = zlen pre + a) as -> by (destruct Hi1 as (_&_&_&_&_&->&_); zs).
    destruct (Z.ltb_spec (idx + zlen enc) be); [|lia].
    destruct (Z.ltb_spec (zlen pre + a) (zlen T)); [|lia]. cbn [andb].
    destruct (decode_seq_step T (zlen pre) be HTb HTl Hpre Hbe rb1 out1 f1 (idx + zlen enc)
      (zlen pre + a) lits m off Hrb1 Hi1) as (rb2 & out2 & f2 & -> & Hrb2 & Hi2); try done; try lia.
    { apply slice_T; [lia|lia|done]. }
    { intros j Hj. specialize (Hrep j Hj).
      replace (zlen pre + a + zlen lits + j) with (zlen pre + (a + zlen lits + j)) by lia.
      replace (zlen pre + (a + zlen lits + j) - off) with (zlen pre + (a + zlen lits + j - off)) by lia.
      by rewrite !rd_T by lia. }
    cbn [mbind option_bind]. exists fuel1, rb2, out2, f2. rewrite Z.add_assoc.
    split_and!; try done; try lia. by rewrite !Z.add_assoc.
Qed.

Lemma decode_block_ok a enc lits rb out f idx :
  parses source a enc -> 0 <= a < n -> slice source a (n - a) = Some lits ->
  rb_inv rb -> out_inv out f pre ->
  let e := enc ++ enc_seq lits 0 0 in
  slice c idx (zlen e) = Some e -> idx + zlen e = be ->
  exists rb' out' f',
    decode_block (S (Z.to_nat (be - idx))) rb out f idx be (zlen pre) (zlen T) =
      Some (false, be, rb', out', f') /\
    rb_inv rb' /\ out_inv out' f' T.
Proof.
  intros Hp Ha Hl Hrb Hi e Hs Hlim. subst e. pose proof (zlen_nonneg pre) as Hpre.
  pose proof zlen_T as HzT. pose proof (zlen_enc_seq_pos lits 0 0). pose proof (zlen_nonneg enc).
  pose proof (slice_zlen _ _ _ _ Hl) as Hll. apply slice_app_inv in Hs as [Hs1 Hs2]. rewrite zlen_app in *.
  destruct (parse_decode a enc Hp ltac:(lia) (S (Z.to_nat (be - idx))) rb out f idx Hrb Hi Hs1)
    as (fuel1 & rb1 & out1 & f1 & -> & Hf1 & Hrb1 & Hi1); [lia..|].
  destruct fuel1 as [|fuel1]; [lia|]. cbn [decode_block].
  assert (do_produced out1 = zlen pre + a) as -> by (destruct Hi1 as (_&_&_&_&_&->&_); zs).
  destruct (Z.ltb_spec (idx + zlen enc) be); [|lia].
  destruct (Z.ltb_spec (zlen pre + a) (zlen T)); [|lia]. cbn [andb].
  destruct (decode_seq_last T (zlen pre) be HTl Hbe rb1 out1 f1 (idx + zlen enc)
    (zlen pre + a) lits Hrb1 Hi1) as (rb2 & out2 & f2 & -> & Hrb2 & Hi2); try done; try lia.
  { apply slice_T; [lia | lia | by rewrite Hll]. }
  cbn [mbind option_bind]. by exists rb2, out2, f2.
Qed.

End Block.

(** ** The whole archive *)

(** [e] is the encoding the compressor makes of the block [chunk]. *)
Definition block_ok (chunk e : bytes) : Prop :=
  exists source a enc lits,
    chunk = take (Z.to_nat (zlen chunk)) source /\ zlen chunk <= zlen source /\
    parses source a enc /\ 0 <= a < zlen chunk /\
    slice source a (zlen chunk - a) = Some lits /\ e = enc ++ enc_seq lits 0 0.

Definition frame (chunk e : bytes) : bytes :=
  (le_bytes 4 (zlen chunk) ++ le_bytes 4 (zlen e)) ++ e.

Inductive frames : bytes -> bytes -> Prop :=
| frames_nil : frames [] []
| frames_snoc d r chunk e :
    frames d r -> block_ok chunk e -> 0 < zlen chunk <= LZ4_READ_AHEAD_SIZE ->
    0 < zlen e < LZ4_BLOCK_BUFFER_SIZE -> frames (d ++ chunk) (r ++ frame chunk e).

Lemma of_le32_bytes b0 b1 b2 b3 :
  is_bytes [b0; b1; b2; b3] ->
  Z.lor (Z.lor (Z.lor b0 (Z.shiftl b1 8)) (Z.shiftl b2 16)) (Z.shiftl b3 24) =
  le_val [b0; b1; b2; b3].
Proof.
  intros Hb. repeat (apply is_bytes_cons in Hb as [? Hb]). unfold_int.
  rewrite !Z.shiftl_mul_pow2 by lia. cbn [le_val].
  rewrite (lor_add_low b0 b1 8), (lor_add_low _ b2 16), (lor_add_low _ b3 24) by lia. lia.
Qed.

Lemma of_le32_at b off v :
  slice b off 4 = Some (le_bytes 4 v) -> 0 <= v < 4294967296 -> of_le32 b off = Some v.
Proof.
  intros Hs Hv. pose proof Hs as (Ho&_&Hl&_)%slice_Some. unfold of_le32.
  pose proof (is_bytes_le 4 v) as Hb.
  assert (le_val (le_bytes 4 v) = v) as Hval.
  { rewrite le_val_le_bytes. change (256 ^ Z.of_nat 4) with 4294967296. apply Z.mod_small. lia. }
  pose proof (fun i Hi => rd_slice _ _ _ _ i Hs Hi) as Hrd.
  destruct (le_bytes 4 v) as [|b0 [|b1 [|b2 [|b3 [|]]]]] eqn:E;
    try (by apply (f_equal length) in E; rewrite length_le_bytes in E).
  pose proof (Hrd 0 ltac:(lia)) as R0. pose proof (Hrd 1 ltac:(lia)) as R1.
  pose proof (Hrd 2 ltac:(lia)) as R2. pose proof (Hrd 3 ltac:(lia)) as R3.
  rewrite Z.add_0_r in R0. rewrite <- R0, <- R1, <- R2, <- R3.
  change (rd [b0; b1; b2; b3] 0) with (Some b0).
  change (rd [b0; b1; b2; b3] 1) with (Some b1). change (rd [b0; b1; b2; b3] 2) with (Some b2).
  change (rd [b0; b1; b2; b3] 3) with (Some b3). cbn [mbind option_bind].
  f_equal. rewrite <- Hval. by apply of_le32_bytes.
Qed.

Lemma le_bytes_app_slices v w :
  slice (le_bytes 4 v ++ le_bytes 4 w) 0 4 = Some (le_bytes 4 v) /\
  slice (le_bytes 4 v ++ le_bytes 4 w) 4 4 = Some (le_bytes 4 w).
Proof.
  split.
  - exact (slice_mid [] (le_bytes 4 v) (le_bytes 4 w)).
  - pose proof (slice_mid (le_bytes 4 v) (le_bytes 4 w) []) as Hm. by rewrite app_nil_r in Hm.
Qed.

Lemma frames_decode D d r :
  frames d r -> d `prefix_of` D -> is_bytes D -> zlen D < 4294967296 ->
  forall fuel rb out f idx,
    rb_inv rb -> out_inv out f [] -> slice c idx (zlen r) = Some r ->
    zlen D < Z.of_nat fuel ->
    exists fuel' rb' out' f',
      decode_blocks fuel true rb out f idx (zlen c) (zlen D) =
      decode_blocks fuel' true rb' out' f' (idx + zlen r) (zlen c) (zlen D) /\
      Z.of_nat fuel <= Z.of_nat fuel' + zlen d /\
      rb_inv rb' /\ out_inv out' f' d.
Proof.
  intros Hfr Hpre HDb HDl.
  induction Hfr as [|d r chunk e Hfr IH (source & a & enc & lits & Hch & Hch2 & Hp & Ha & Hli & He) Hc1 Hc2];
    intros fuel rb out f idx Hrb Hi Hs Hfu.
  - exists fuel, rb, out, f. change (zlen []) with 0. rewrite Z.add_0_r. split_and!; try done; lia.
  - destruct Hpre as [t Ht]. apply slice_app_inv in Hs as [Hs1 Hs2].
    destruct (IH ltac:(by exists (chunk ++ t); rewrite Ht, <- app_assoc) fuel rb out f idx Hrb Hi Hs1 Hfu)
      as (fuel1 & rb1 & out1 & f1 & -> & Hf1 & Hrb1 & Hi1).
    unfold LZ4_READ_AHEAD_SIZE, LZ4_BLOCK_BUFFER_SIZE in *.
    pose proof (zlen_nonneg t). pose proof (zlen_nonneg d). pose proof (zlen_nonneg r).
    assert (zlen D = zlen d + zlen chunk + zlen t) as HzD by (rewrite Ht; zs).
    destruct fuel1 as [|fuel1]; [lia|]. cbn [decode_blocks].
    assert (do_produced out1 = zlen d) as -> by by destruct Hi1 as (_&_&_&_&_&->&_).
    destruct (Z.ltb_spec (zlen d) (zlen D)); [|lia].
    pose proof Hs2 as (Hi0&_&Hi1'&_)%slice_Some. unfold frame in Hs2, Hi1'.
    apply slice_app_inv in Hs2 as [Hs2 Hs3].
    set (hdr := le_bytes 4 (zlen chunk) ++ le_bytes 4 (zlen e)) in *.
    assert (zlen hdr = 8) as Hz8 by (unfold hdr; autorewrite with cbuf; lia).
    rewrite zlen_app, Hz8 in Hi1'. unfold read_block_header.
    rewrite (u64_small (zlen c - _)) by (unfold_int; lia).
    destruct (Z.ltb_spec (zlen c - (idx + zlen r)) 8); [lia|].
    destruct (read_at_ok 8 rb1 f1 (idx + zlen r) hdr Hrb1 (out_src_ok _ _ _ Hi1) Hs2)
      as (rb2 & f2 & Hr & Hrb2 & Hf2 & Hcf); [lia..|].
    rewrite Hz8 in Hr, Hs3. rewrite Hr. cbn [mbind option_bind negb Z.eqb].
    rewrite (u64_small (idx + zlen r + 8)) by (unfold_int; lia).
    destruct (le_bytes_app_slices (zlen chunk) (zlen e)) as [Hh1 Hh2].
    rewrite (of_le32_at hdr 0 (zlen chunk) Hh1) by lia.
    rewrite (of_le32_at hdr 4 (zlen e) Hh2) by lia.
    cbn [mbind option_bind].
    rewrite (u32_small (zlen D - zlen d)), (u64_small (zlen c - _)) by (unfold_int; lia).
    rewrite (eqb_neq (zlen chunk)), (eqb_neq (zlen e)) by lia.
    destruct (Z.ltb_spec (zlen D - zlen d) (zlen chunk)); [lia|].
    destruct (Z.ltb_spec (zlen c - (idx + zlen r + 8)) (zlen e)); [lia|]. cbn [orb mbind option_bind].
    rewrite (u32_small (zlen d + zlen chunk)), u64_small by (unfold_int; lia).
    pose proof (out_inv_same _ _ _ _ Hi1 Hf2 Hcf) as Hi2.
    assert (is_bytes (d ++ chunk)) as Hdc by (rewrite Ht in HDb; apply is_bytes_app in HDb; tauto).
    destruct (decode_block_ok d source (zlen chunk) (idx + zlen r + 8 + zlen e)) with
      (a := a) (enc := enc) (lits := lits) (rb := rb2) (out := out1) (f := f2) (idx := idx + zlen r + 8)
      as (rb3 & out3 & f3 & Hdb & Hrb3 & Hi3); try done; try lia.
    { by rewrite <- Hch. }
    { rewrite <- Hch, zlen_app. lia. }
    { by rewrite <- He. }
    { by rewrite <- He. }
    rewrite <- Hch in Hdb, Hi3. rewrite zlen_app in Hdb. rewrite Hdb. cbn [mbind option_bind].
    assert (do_produced out3 = zlen d + zlen chunk) as ->
      by (destruct Hi3 as (_&_&_&_&_&->&_); apply zlen_app).
    rewrite !Z.eqb_refl. cbn [orb negb]. exists fuel1, rb3, out3, f3.
    unfold frame. fold hdr. rewrite (zlen_app d), (zlen_app r), (zlen_app hdr), Hz8.
    split_and!; try done; try lia. by rewrite !Z.add_assoc.
Qed.

End Decoder.
