(* ===== verification/Lz4Roundtrip.v ===== *)
(** * LZ4: the compressor and the decompressor compose to the identity

    The file-backed write buffer, the framed archive [kernel_lz4_compress]
    writes, and the round trip through [kernel_lz4_decompress], over any
    [LawfulStore]. *)

From S2P Require Import Prelude FileStore Lz4 Lz4Encode Lz4Decode.

(** ** Bytes of encodings, size of archives *)

Lemma parses_bytes source a enc : is_bytes source -> parses source a enc -> is_bytes enc.
Proof.
  intros Hs. induction 1 as [|a enc l lits m off Hp IH ? Hl ? ? ? ? ?]; [constructor|].
  apply is_bytes_app. split; [done|]. apply is_bytes_enc_seq; [|lia]. exact (is_bytes_slice _ _ _ _ Hs Hl).
Qed.

Lemma frames_size d r : frames d r -> zlen r <= 8200 * zlen d.
Proof.
  unfold LZ4_READ_AHEAD_SIZE, LZ4_BLOCK_BUFFER_SIZE.
  induction 1 as [|d r chunk e Hf IH Hb Hc He]; [zs|].
  unfold frame, LZ4_BLOCK_BUFFER_SIZE in *. autorewrite with cbuf. lia.
Qed.

Lemma frames_empty d r : frames d r -> d = [] -> r = [].
Proof.
  intros [|d' r' chunk e _ _ Hc _] Hd; [done|]. apply app_eq_nil in Hd as [_ ->].
  change (zlen []) with 0 in Hc. lia.
Qed.

Lemma frames_decompose_bytes d r : frames d r -> zlen r = 0 -> d = [].
Proof.
  intros [|d' r' chunk e _ _ Hc He]; [done|]. intros Hz. unfold frame in Hz.
  pose proof (zlen_nonneg r'). autorewrite with cbuf in Hz. lia.
Qed.

(** One round of the block loop: the encoding of a block of the source buffer. *)
Lemma block_frame {F} `{FileStore F} (f : F) source n block :
  is_bytes source -> 0 < n <= LZ4_READ_AHEAD_SIZE -> n <= zlen source ->
  zlen block = LZ4_BLOCK_BUFFER_SIZE ->
  exists wb e t,
    lz4_compress_block (WB None block 0 LZ4_BLOCK_BUFFER_SIZE) f source n = Some (0, wb, f) /\
    wb_length wb = zlen e /\ wb_data wb = e ++ t /\ zlen (wb_data wb) = LZ4_BLOCK_BUFFER_SIZE /\
    is_bytes e /\ 0 < zlen e < LZ4_BLOCK_BUFFER_SIZE /\
    block_ok (take (Z.to_nat n) source) e.
Proof.
  intros Hsb Hn Hl Hb.
  destruct (compress_block_ok source n f ltac:(unfold LZ4_WINDOW_SIZE, LZ4_READ_AHEAD_SIZE in *; lia) Hl block ltac:(lia) Hb)
    as (wb & a & enc & lits & Hw & (_ & Hcap & Hd & _ & Hlen & _ & t & Ht) & Hps & Ha & Hli & Hsize).
  exists wb, (enc ++ enc_seq lits 0 0), t. pose proof (zlen_enc_seq_pos lits 0 0).
  pose proof (zlen_nonneg enc). unfold LZ4_READ_AHEAD_SIZE, LZ4_BLOCK_BUFFER_SIZE in *.
  assert (zlen (take (Z.to_nat n) source) = n) as Hz by zs.
  split_and!; try done; try (rewrite zlen_app in *; lia).
  - apply is_bytes_app. split; [by eapply parses_bytes|]. apply is_bytes_enc_seq; [|lia].
    exact (is_bytes_slice _ _ _ _ Hsb Hli).
  - exists source, a, enc, lits. rewrite Hz. by split_and!; try lia.
Qed.

(** ** The file-backed writer *)

Section PathWriter.
Context {F : Type} `{LawfulStore F}.
Implicit Types f : F.
Variables (q : bytes) (g0 : gmap bytes bytes).

(** [s] is everything written so far: flushed to [q] or still in the buffer. *)
Definition pw_inv (wb : lz4_write_buffer_t) f (s : bytes) : Prop :=
  store_ok f /\ wb_path wb = Some q /\ wb_capacity wb = LZ4_OUTPUT_SIZE /\
  zlen (wb_data wb) = LZ4_OUTPUT_SIZE /\ is_bytes (wb_data wb) /\
  0 <= wb_length wb < LZ4_OUTPUT_SIZE /\
  exists flushed, contents f = <[q := flushed]> g0 /\
    flushed ++ take (Z.to_nat (wb_length wb)) (wb_data wb) = s.

Lemma flush_ok path data len cap f flushed :
  store_ok f -> path = Some q -> 0 <= len <= zlen data -> is_bytes data ->
  contents f = <[q := flushed]> g0 ->
  exists f', lz4_write_flush (WB path data len cap) f = Some (0, WB path data 0 cap, f') /\
    store_ok f' /\ contents f' = <[q := flushed ++ take (Z.to_nat len) data]> g0.
Proof.
  intros Hok -> Hl Hb Hc. unfold lz4_write_flush. cbn.
  destruct (Z.eqb_spec len 0) as [->|Hne].
  { exists f. split; [done|]. split; [done|]. by rewrite app_nil_r. }
  destruct (slice_total data 0 len) as [d Hd]; [lia..|]. rewrite Hd. cbn [mbind option_bind].
  pose proof (is_bytes_slice _ _ _ _ Hb Hd) as Hdb.
  apply slice_Some in Hd as (_&_&_&->). change (Z.to_nat 0) with 0%nat in *. rewrite drop_0 in *.
  destruct (law_append f q flushed (take (Z.to_nat len) data) Hok Hdb) as (f' & -> & Hok' & Hc').
  { by rewrite Hc, lookup_insert_eq. }
  cbn. exists f'. split; [done|]. split; [done|]. by rewrite Hc', Hc, insert_insert_eq.
Qed.

Lemma write_loop_ok fuel wb f s d rest :
  pw_inv wb f s -> is_bytes d -> zlen d < 4294967296 -> zlen d < Z.of_nat fuel ->
  exists wb' f', write_loop fuel wb f (d ++ rest) (zlen d) = Some (0, wb', f') /\
    pw_inv wb' f' (s ++ d).
Proof.
  revert wb f s d. induction fuel as [|fuel IH]; intros wb f s d Hi Hd Hl Hfu;
    [pose proof (zlen_nonneg d); lia|].
  cbn [write_loop]. pose proof (zlen_nonneg d). destruct (Z.eqb_spec (zlen d) 0) as [E|Hne].
  { apply zlen_0_nil in E as ->. rewrite app_nil_r. by exists wb, f. }
  destruct Hi as (Hok & Hp & Hcap & Hz & Hb & Hlen & flushed & Hc & Hs).
  unfold LZ4_OUTPUT_SIZE in *. rewrite Hcap, (u32_small (65536 - _)) by (unfold_int; lia).
  set (batch := if zlen d <? 65536 - wb_length wb then zlen d else 65536 - wb_length wb).
  assert (0 < batch <= zlen d /\ wb_length wb + batch <= 65536) as [Hba Hba2] by (unfold batch; bool_true).
  set (d1 := take (Z.to_nat batch) d). set (d2 := drop (Z.to_nat batch) d).
  assert (d = d1 ++ d2) as Hsplit by (symmetry; apply take_drop).
  assert (zlen d1 = batch) as Hd1 by (unfold d1; zs).
  assert (zlen d2 = zlen d - batch) as Hd2 by (unfold d2; zs).
  assert (slice (d ++ rest) 0 batch = Some d1) as ->.
  { rewrite Hsplit, <- app_assoc, <- Hd1. exact (slice_mid [] d1 (d2 ++ rest)). }
  cbn [mbind option_bind].
  destruct (blit_total (wb_data wb) d1 (wb_length wb)) as [w Hw]; [lia..|].
  rewrite Hw. cbn [mbind option_bind wb_length wb_capacity wb_path].
  assert (drop (Z.to_nat batch) (d ++ rest) = d2 ++ rest) as -> by (apply drop_app_le; zs).
  rewrite Hp, (u32_small (zlen d - batch)), (u32_small (wb_length wb + batch)) by (unfold_int; lia).
  rewrite Hsplit in Hd. apply is_bytes_app in Hd as [Hdb1 Hdb2].
  assert (flushed ++ take (Z.to_nat (wb_length wb + batch)) w = s ++ d1) as Hnew.
  { apply blit_Some in Hw as (?&?&->). rewrite <- Hs, <- app_assoc. f_equal.
    rewrite take_app_ge, length_take, take_app_le by zs.
    f_equal. apply take_ge. zs. }
  pose proof (is_bytes_blit _ _ _ _ Hb Hdb1 Hw) as Hwb. pose proof (blit_zlen _ _ _ _ Hw) as Hwz.
  rewrite <- Hd2, Hsplit, (app_assoc s). destruct (Z.eqb_spec (wb_length wb + batch) 65536) as [Ef|Ef].
  - destruct (flush_ok (Some q) w (wb_length wb + batch) 65536 f flushed) as (f1 & -> & Hok1 & Hc1);
      try done; [lia|]. cbn [mbind option_bind negb Z.eqb]. rewrite Hnew in Hc1.
    apply IH; [|done|lia|lia]. unfold pw_inv, LZ4_OUTPUT_SIZE. cbn.
    split_and!; try done; try lia. exists (s ++ d1). by rewrite app_nil_r.
  - apply IH; [|done|lia|lia]. unfold pw_inv, LZ4_OUTPUT_SIZE. cbn.
    split_and!; try done; try lia. by exists flushed.
Qed.

Lemma write_ok wb f s d rest :
  pw_inv wb f s -> is_bytes d -> zlen d < 4294967296 ->
  exists wb' f', lz4_write wb f (d ++ rest) (zlen d) = Some (0, wb', f') /\ pw_inv wb' f' (s ++ d).
Proof. intros. apply write_loop_ok; try done. lia. Qed.

End PathWriter.

(** ** The archive the compressor writes *)

Section Archive.
Context {F : Type} `{LawfulStore F}.
Implicit Types f : F.
Variables (p q data : bytes) (g0 : gmap bytes bytes).
Hypothesis Hpq : p <> q.
Hypothesis Hp : g0 !! p = Some data.
Hypothesis Hsz : zlen data < 4294967296.
Hypothesis Hdb : is_bytes data.

Lemma pw_read wb f s off n :
  pw_inv q g0 wb f s -> 0 <= off -> 0 < n -> off + n <= zlen data -> n <= LZ4_READ_AHEAD_SIZE ->
  exists d f', fs_read_raw_at f p off n = Some (n, d, f') /\ slice data off n = Some d /\
    pw_inv q g0 wb f' s.
Proof.
  intros (Hok & Hi1 & Hi2 & Hi3 & Hi4 & Hi5 & fl & Hc & Hs) Ho Hn Hle Hra.
  unfold LZ4_READ_AHEAD_SIZE in *.
  destruct (law_read f p data off n Hok) as (f' & Hr & Hok' & Hc'); [|lia|unfold_int; lia|].
  { by rewrite Hc, lookup_insert_ne. }
  set (d := take (Z.to_nat n) (drop (Z.to_nat off) data)) in *.
  assert (slice data off n = Some d) as Hsl by (apply slice_Some; split_and!; lia || done).
  rewrite (slice_zlen _ _ _ _ Hsl) in Hr. exists d, f'. split; [done|]. split; [done|].
  split_and!; try done; try lia. exists fl. by rewrite Hc'.
Qed.

Lemma compress_blocks_ok fuel wb f sb block h r off :
  pw_inv q g0 wb f (h ++ r) -> frames (take (Z.to_nat off) data) r ->
  zlen sb = LZ4_READ_AHEAD_SIZE -> is_bytes sb -> zlen block = LZ4_BLOCK_BUFFER_SIZE ->
  0 <= off <= zlen data -> zlen data - off < Z.of_nat fuel ->
  exists wb' f' r', compress_blocks fuel wb f sb block p (zlen data) off = Some (false, wb', f') /\
    pw_inv q g0 wb' f' (h ++ r') /\ frames data r'.
Proof.
  revert wb f sb block r off. induction fuel as [|fuel IH];
    intros wb f sb block r off Hi Hfr Hsb Hsbb Hbl Ho Hfu; [lia|].
  cbn [compress_blocks]. destruct (Z.ltb_spec off (zlen data)).
  2:{ exists wb, f, r. split; [done|]. split; [done|]. by rewrite take_ge in Hfr by zs. }
  set (n := if LZ4_READ_AHEAD_SIZE <? zlen data - off then LZ4_READ_AHEAD_SIZE else zlen data - off).
  assert (0 < n <= LZ4_READ_AHEAD_SIZE /\ off + n <= zlen data) as [Hn Hn2]
    by (unfold n, LZ4_READ_AHEAD_SIZE; bool_true).
  destruct (pw_read wb f (h ++ r) off n Hi) as (d & f1 & -> & Hsl & Hi1); [lia..|].
  pose proof (slice_zlen _ _ _ _ Hsl) as Hdz. cbn [mbind option_bind].
  destruct (blit_total sb d 0) as [sb' Hsb']; [lia..|]. rewrite Hsb'. cbn [mbind option_bind].
  unfold LZ4_READ_AHEAD_SIZE in *. rewrite (u32_small n) by (unfold_int; lia).
  destruct (Z.leb_spec n 0); [lia|]. rewrite Z.eqb_refl. cbn [orb negb].
  pose proof (is_bytes_slice _ _ _ _ Hdb Hsl) as Hdb'.
  pose proof (is_bytes_blit _ _ _ _ Hsbb Hdb' Hsb') as Hsbb'.
  pose proof (blit_zlen _ _ _ _ Hsb') as Hsbz.
  destruct (block_frame f1 sb' n block) as (bo & e & t & -> & Hbl1 & Hbl2 & Hbl3 & Heb & Hez & Hblk);
    try done; [lia|]. cbn [mbind option_bind negb Z.eqb orb]. rewrite Hbl1.
  rewrite eqb_neq by lia. destruct (Z.leb_spec LZ4_BLOCK_BUFFER_SIZE (zlen e)); [lia|]. cbn [orb].
  assert (take (Z.to_nat n) sb' = d) as Htk.
  { apply blit_0_Some in Hsb' as [? ->]. apply take_app_length'. zs. }
  rewrite Htk in Hblk.
  set (hdr := le32 n ++ le32 (zlen e)).
  assert (hdr = le_bytes 4 (zlen d) ++ le_bytes 4 (zlen e)) as Hhdr
    by (unfold hdr; by rewrite !le32_le_bytes, Hdz).
  assert (zlen hdr = 8) as Hz8 by done.
  assert (is_bytes hdr) as Hhb by (rewrite Hhdr; apply is_bytes_app; split; apply is_bytes_le).
  destruct (write_ok q g0 wb f1 (h ++ r) hdr [] Hi1 Hhb ltac:(lia)) as (wb2 & f2 & Hw2 & Hi2).
  rewrite app_nil_r, Hz8 in Hw2. rewrite Hw2. cbn [mbind option_bind negb Z.eqb].
  unfold LZ4_BLOCK_BUFFER_SIZE in *.
  destruct (write_ok q g0 wb2 f2 ((h ++ r) ++ hdr) e t Hi2 Heb ltac:(lia)) as (wb3 & f3 & Hw3 & Hi3).
  rewrite Hbl2, Hw3. cbn [mbind option_bind negb Z.eqb]. rewrite u32_small by (unfold_int; lia).
  apply (IH _ _ _ _ (r ++ frame d e)).
  - unfold frame. rewrite <- Hhdr. by rewrite <- !app_assoc in *.
  - assert (take (Z.to_nat (off + n)) data = take (Z.to_nat off) data ++ d) as ->.
    { rewrite Z2Nat.inj_add by lia. rewrite <- take_take_drop. f_equal.
      apply slice_Some in Hsl as (_&_&_&->). done. }
    apply frames_snoc; [done|done| |done]. unfold LZ4_READ_AHEAD_SIZE. lia.
  - by rewrite Hsbz.
  - done.
  - by rewrite <- Hbl2.
  - lia.
  - lia.
Qed.

End Archive.

(** The bytes of an archive: a header and the frames. *)
Definition archive_of (data r : bytes) : bytes :=
  (le_bytes 4 (zlen data) ++ lit "LZ4C") ++ r.

Section Whole.
Context {F : Type} `{LawfulStore F}.
Implicit Types f : F.

Lemma compress_ok f out sb block src arc data :
  store_ok f -> contents f !! src = Some data -> contents f !! arc = None ->
  zlen data <= UINT32_MAX ->
  zlen out = LZ4_OUTPUT_SIZE -> is_bytes out ->
  zlen sb = LZ4_READ_AHEAD_SIZE -> is_bytes sb -> zlen block = LZ4_BLOCK_BUFFER_SIZE ->
  exists f' r,
    kernel_lz4_compress f out sb block src (zlen data) arc = Some (0, f') /\
    frames data r /\ store_ok f' /\
    contents f' = <[arc := archive_of data r]> (contents f).
Proof.
  intros Hok Hs Ha Hz Ho Hob Hsb Hsbb Hbl. pose proof (zlen_nonneg data).
  pose proof (law_bytes f src data Hok Hs) as Hdb. unfold kernel_lz4_compress.
  assert (src <> arc) as Hne by congruence.
  destruct (Z.ltb_spec UINT32_MAX (zlen data)); [lia|].
  destruct (law_create f arc Hok Ha) as (f1 & -> & Hok1 & Hc1). cbn [mbind option_bind negb Z.eqb].
  rewrite u32_small by (unfold_int; lia). set (hdr := le32 (zlen data) ++ lit "LZ4C").
  assert (hdr = le_bytes 4 (zlen data) ++ lit "LZ4C") as Hhdr by (unfold hdr; by rewrite le32_le_bytes).
  assert (zlen hdr = 8) as Hz8 by done.
  assert (is_bytes hdr) as Hhb.
  { rewrite Hhdr. apply is_bytes_app. split; [apply is_bytes_le|]. apply (bool_decide_unpack _). done. }
  assert (pw_inv arc (contents f) (WB (Some arc) out 0 LZ4_OUTPUT_SIZE) f1 []) as Hi.
  { unfold pw_inv, LZ4_OUTPUT_SIZE in *. cbn. split_and!; try done. exists []. done. }
  destruct (write_ok _ _ _ _ _ hdr [] Hi Hhb ltac:(lia)) as (wb2 & f2 & Hw2 & Hi2).
  rewrite app_nil_r, Hz8 in Hw2. rewrite Hw2. cbn [mbind option_bind negb Z.eqb].
  destruct (compress_blocks_ok src arc data (contents f) Hne Hs ltac:(unfold_int; lia) Hdb
    (S (Z.to_nat (zlen data))) wb2 f2 sb block hdr [] 0) as (wb3 & f3 & r & -> & Hi3 & Hfr); try done; try lia.
  { constructor. }
  cbn [mbind option_bind].
  destruct wb3 as [pth dat len cap]. destruct Hi3 as (Hok3 & Hpt & _ & Hdz & Hdb3 & Hlen & fl & Hc3 & Hs3).
  cbn in Hpt, Hdz, Hdb3, Hlen, Hs3.
  destruct (flush_ok arc (contents f) pth dat len cap f3 fl) as (f4 & -> & Hok4 & Hc4); try done; [lia|].
  cbn [mbind option_bind negb Z.eqb]. exists f4, r. rewrite Hs3 in Hc4. split_and!; try done.
  rewrite Hc4. unfold archive_of. by rewrite <- Hhdr.
Qed.

Lemma archive_size data r :
  frames data r -> zlen data <= UINT32_MAX ->
  zlen (archive_of data r) = 8 + zlen r /\ zlen (archive_of data r) < 9223372036854775808.
Proof.
  intros Hfr Hz. pose proof (frames_size _ _ Hfr). unfold_int. unfold archive_of.
  rewrite !zlen_app, zlen_le_bytes. change (zlen (lit "LZ4C")) with 4. lia.
Qed.

(** The decoder loop over the frames of the whole file. *)
Lemma decompress_body_ok f history out rb arc dst data r g0 :
  let c := archive_of data r in
  frames data r -> is_bytes data -> 0 < zlen data <= UINT32_MAX -> is_bytes c ->
  arc <> dst -> g0 !! arc = Some c -> g0 !! dst = None -> store_ok f -> contents f = g0 ->
  rb_inv arc c rb ->
  zlen history = LZ4_WINDOW_SIZE -> zlen out = LZ4_OUTPUT_SIZE -> is_bytes out ->
  exists f', decompress_body f history out rb true (zlen c) (zlen data) dst = Some (0, f') /\
    store_ok f' /\ contents f' = <[dst := data]> g0.
Proof.
  intros c Hfr Hdb Hz Hcb Hne Hg Hgd Hok Hc Hrb Hh Ho Hob. unfold decompress_body.
  destruct (archive_size data r Hfr ltac:(lia)) as [Hcz Hcl]. fold c in Hcz, Hcl.
  destruct (law_create f dst Hok ltac:(by rewrite Hc)) as (f1 & -> & Hok1 & Hc1). cbn [mbind option_bind negb Z.eqb].
  assert (out_inv dst g0 (DO dst history out 0 0) f1 []) as Hi.
  { unfold out_inv, LZ4_OUTPUT_SIZE, LZ4_WINDOW_SIZE in *. cbn. split_and!; try done.
    - exists []. split; [|done]. by rewrite Hc1, Hc.
    - constructor.
    - intros j Hj Hj'. change (zlen []) with 0 in Hj'. lia. }
  assert (slice c 8 (zlen r) = Some r) as Hsl.
  { pose proof (slice_mid (le_bytes 4 (zlen data) ++ lit "LZ4C") r []) as Hm. by rewrite app_nil_r in Hm. }
  destruct (frames_decode arc dst c g0 Hne Hg Hcb Hcl data data r Hfr ltac:(done) Hdb ltac:(unfold_int; lia)
    (S (Z.to_nat (zlen data))) rb (DO dst history out 0 0) f1 8 Hrb Hi Hsl ltac:(lia))
    as (fuel' & rb' & out' & f2 & -> & Hfu & Hrb' & Hi').
  destruct fuel' as [|fuel']; [lia|]. cbn [decode_blocks].
  pose proof Hi' as (Hok2 & Hpath & Hdz & Hdab & _ & Hpr & Hlen & (fl & Hc2 & Hfl) & _ & _).
  rewrite Hpr, Z.ltb_irrefl. cbn [mbind option_bind]. rewrite Hpr, Hcz, !Z.eqb_refl. cbn [orb negb andb].
  destruct (Z.ltb_spec 0 (do_length out')).
  - destruct (slice_total (do_data out') 0 (do_length out')) as [d Hd]; [lia..|]. rewrite Hd.
    pose proof (is_bytes_slice _ _ _ _ Hdab Hd) as Hdb'. apply slice_Some in Hd as (_&_&_&->).
    change (Z.to_nat 0) with 0%nat in *. rewrite drop_0 in *. cbn [mbind option_bind].
    destruct (law_append f2 dst fl _ Hok2 Hdb') as (f3 & -> & Hok3 & Hc3).
    { by rewrite Hc2, lookup_insert_eq. }
    cbn [mbind option_bind negb Z.eqb]. exists f3. split_and!; [done..|].
    by rewrite Hc3, Hc2, insert_insert_eq, Hfl.
  - cbn [mbind option_bind]. exists f2. split_and!; [done..|]. rewrite Hc2.
    replace (do_length out') with 0 in Hfl by lia. by rewrite app_nil_r in Hfl; subst.
Qed.

Lemma decompress_ok f history out arc dst data r :
  let c := archive_of data r in
  frames data r -> is_bytes data -> zlen data <= UINT32_MAX ->
  arc <> dst -> contents f !! arc = Some c -> contents f !! dst = None -> store_ok f ->
  zlen history = LZ4_WINDOW_SIZE -> zlen out = LZ4_OUTPUT_SIZE -> is_bytes out ->
  exists f', kernel_lz4_decompress f history out arc (zlen c) dst = Some (0, f') /\
    store_ok f' /\ contents f' = <[dst := data]> (contents f).
Proof.
  intros c Hfr Hdb Hz Hne Hg Hgd Hok Hh Ho Hob. unfold kernel_lz4_decompress.
  destruct (archive_size data r Hfr Hz) as [Hcz Hcl]. fold c in Hcz, Hcl.
  pose proof (zlen_nonneg r). pose proof (zlen_nonneg data). pose proof (law_bytes f arc c Hok Hg) as Hcb.
  destruct (Z.ltb_spec (zlen c) 4); [lia|].
  set (rb := RB arc (zlen c) UINT64_MAX 0 (zeros 4096)).
  assert (rb_inv arc c rb) as Hrb by (split_and!; try done; left; done).
  assert (src_ok arc c f) as Hsrc by done.
  set (h := le_bytes 4 (zlen data)).
  assert (slice c 0 4 = Some h /\ slice c 4 4 = Some (lit "LZ4C")) as [Hs1 Hs2].
  { split; [pose proof (slice_mid [] h (lit "LZ4C" ++ r)) as Hm
           | pose proof (slice_mid h (lit "LZ4C") r) as Hm];
    unfold c, archive_of; fold h; rewrite <- app_assoc; exact Hm. }
  destruct (read_at_ok arc c Hcl 4 rb f 0 h Hrb Hsrc Hs1) as (rb1 & f1 & Hr1 & Hrb1 & Hsrc1 & Hc1); [done..|].
  change (zlen h) with 4 in Hr1. rewrite Hr1. cbn [mbind option_bind negb Z.eqb].
  assert (slice h 0 4 = Some h) as Hh4.
  { pose proof (slice_mid [] h []) as Hm. by rewrite app_nil_r in Hm. }
  rewrite (of_le32_at h 0 (zlen data) Hh4) by (unfold_int; lia). cbn [mbind option_bind].
  destruct (Z.leb_spec 8 (zlen c)); [|lia].
  destruct (read_at_ok arc c Hcl 4 rb1 f1 4 (lit "LZ4C") Hrb1 Hsrc1 Hs2) as (rb2 & f2 & Hr2 & Hrb2 & Hsrc2 & Hc2); [done..|].
  change (zlen (lit "LZ4C")) with 4 in Hr2. rewrite Hr2. cbn [mbind option_bind].
  rewrite bool_decide_eq_true_2 by done. cbn [Z.eqb andb].
  destruct Hsrc2 as [Hok2 _].
  assert (contents f2 = contents f) as Hcf by congruence.
  destruct (Z.eqb_spec (zlen data) 0) as [E|E].
  - apply zlen_0_nil in E as ->. rewrite (frames_empty _ _ Hfr eq_refl) in *.
    rewrite Hcz. change (8 + zlen []) with 8. cbn [negb Z.eqb].
    destruct (law_create f2 dst Hok2) as (f3 & -> & Hok3 & Hc3); [by rewrite Hcf|].
    exists f3. split; [done|]. split; [done|]. by rewrite Hc3, Hcf.
  - rewrite <- Hcf in *. apply (decompress_body_ok f2 history out rb2 arc dst data r (contents f2)); try done. lia.
Qed.

End Whole.


(** compressing one block of at most 4096 bytes into the 8192-byte block
    buffer never fails and never fills the buffer: the encoding is at most
    16/15 of the block plus one byte. *)
Theorem lz4_compress_block_fits {F} `{FileStore F} (f : F) (source block : bytes) (n : Z) :
  0 < n <= LZ4_READ_AHEAD_SIZE -> n <= zlen source -> zlen block = LZ4_BLOCK_BUFFER_SIZE ->
  exists wb, lz4_compress_block (WB None block 0 LZ4_BLOCK_BUFFER_SIZE) f source n = Some (0, wb, f) /\
    0 < wb_length wb /\ 15 * wb_length wb <= 16 * n + 15.
Proof.
  intros Hn Hs Hb.
  destruct (compress_block_ok source n f ltac:(unfold LZ4_WINDOW_SIZE, LZ4_READ_AHEAD_SIZE in *; lia) Hs block ltac:(lia) Hb)
    as (wb & a & enc & lits & Hw & (_ & _ & _ & _ & Hlen & _) & _ & _ & _ & Hsz).
  exists wb. rewrite Hlen. pose proof (zlen_enc_seq_pos lits 0 0). pose proof (zlen_nonneg enc).
  split; [done|]. split; [|done]. rewrite zlen_app. lia.
Qed.

(** ** Witnesses, on the in-memory store *)

Definition demo_store : MemStore.t := MemStore.mk {[ lit "a.txt" := lit "abababababababababab" ]}.

Lemma demo_store_ok : store_ok demo_store.
Proof. apply map_Forall_singleton. apply (bool_decide_unpack _). reflexivity. Qed.

Lemma zlen_zeros n : 0 <= n -> zlen (zeros (Z.to_nat n)) = n.
Proof. intros. unfold zeros. rewrite zlen_replicate. lia. Qed.


Lemma lz4_compress_block_fits_witness :
  exists wb, lz4_compress_block (WB None (zeros (Z.to_nat 8192)) 0 LZ4_BLOCK_BUFFER_SIZE)
      demo_store (lit "abababababababababab") 20 = Some (0, wb, demo_store) /\
    0 < wb_length wb /\ 15 * wb_length wb <= 16 * 20 + 15.
Proof.
  apply (lz4_compress_block_fits demo_store (lit "abababababababababab") (zeros (Z.to_nat 8192)) 20);
    [split; [reflexivity | discriminate] | discriminate | exact (zlen_zeros 8192 ltac:(lia))].
Defined.
