(* ===== verification/Lz4Safety.v ===== *)
(** * LZ4: safety on arbitrary input

    Over any [SafeStore], whose reads and writes may fail or return arbitrary
    bytes, the codec never leaves one of its arrays and always returns: no
    archive, however malformed, can make the decompressor misbehave. *)

From S2P Require Import Prelude FileStore Lz4 Lz4Encode Lz4Decode Lz4Roundtrip.

Definition rc_ok (rc : Z) : Prop := rc = 0 \/ rc = -1.

Section Safety.
Context {F : Type} `{SafeStore F}.
Implicit Types f : F.

(** ** Reading *)

Definition rs_inv (rb : lz4_read_buffer_t) : Prop :=
  is_u64 (rb_file_size rb) /\ zlen (rb_data rb) = 4096 /\ is_bytes (rb_data rb) /\
  is_u64 (rb_start rb) /\ 0 <= rb_length rb <= 4096 /\
  (0 < rb_length rb -> rb_start rb + rb_length rb <= rb_file_size rb).

(** Same archive size. *)
Definition same_file (rb rb' : lz4_read_buffer_t) : Prop := rb_file_size rb' = rb_file_size rb.

Lemma refill_safe rb f off :
  rs_inv rb -> store_ok f -> 0 <= off < rb_file_size rb ->
  exists br rb' f', refill rb f off = Some (br, rb', f') /\ rs_inv rb' /\ store_ok f' /\
    same_file rb rb' /\
    (0 < br -> rb_start rb' <= off < rb_start rb' + rb_length rb').
Proof.
  intros Hrb Hok Ho. pose proof Hrb as (Hfs & Hd & Hb & Hst & Hl & Hle). unfold refill, same_file.
  destruct ((off <? rb_start rb) || (rb_length rb <=? u64 (off - rb_start rb))) eqn:E.
  - unfold is_u64 in *. rewrite u64_small by (unfold is_u64; lia). cbn zeta.
    set (req := if LZ4_READ_AHEAD_SIZE <? _ then _ else _).
    assert (0 < req <= 4096 /\ req <= rb_file_size rb - off) as [Hr Hr2]
      by (unfold req, LZ4_READ_AHEAD_SIZE; bool_true).
    destruct (safe_read f (rb_path rb) off req Hok ltac:(lia) ltac:(unfold_int; lia))
      as (rc & d & f' & -> & Hok' & Hdb & Hdl). cbn [mbind option_bind].
    destruct (blit_total (rb_data rb) d 0) as [dat Hdat]; [lia..|]. rewrite Hdat. cbn [mbind option_bind].
    pose proof (blit_zlen _ _ _ _ Hdat). pose proof (is_bytes_blit _ _ _ _ Hb Hdb Hdat).
    do 3 eexists. split; [done|]. unfold rs_inv, is_u64. destruct (Z.leb_spec rc 0); cbn.
    + split_and!; try done; try lia.
    + rewrite u32_small by (unfold_int; lia). split_and!; try done; try lia.
  - apply orb_false_iff in E as [E1%Z.ltb_ge E2%Z.leb_gt]. unfold is_u64 in *.
    rewrite u64_small in E2 by (unfold is_u64; lia).
    exists 1, rb, f. split; [done|]. split_and!; try done; lia.
Qed.

Lemma read_loop_safe fuel cap rb f off dest len :
  rs_inv rb -> store_ok f -> is_u64 off -> 0 <= len < 4294967296 -> is_bytes dest ->
  len < Z.of_nat fuel -> zlen dest + len <= cap ->
  exists rc d rb' f', read_loop fuel cap rb f off dest len = Some (rc, d, rb', f') /\
    rc_ok rc /\ is_bytes d /\ rs_inv rb' /\ store_ok f' /\ same_file rb rb' /\
    (rc = 0 -> zlen d = zlen dest + len /\ (0 < len -> off + len <= rb_file_size rb)).
Proof.
  revert rb f off dest len. induction fuel as [|fuel IH];
    intros rb f off dest len Hrb Hok Ho Hl Hdb Hfu Hcap; [lia|]. cbn [read_loop].
  destruct (Z.eqb_spec len 0) as [->|Hne].
  { exists 0, dest, rb, f. unfold rc_ok, same_file. split_and!; auto; lia. }
  destruct (Z.leb_spec (rb_file_size rb) off).
  { exists (-1), dest, rb, f. unfold rc_ok, same_file. split_and!; auto; lia. }
  unfold is_u64 in Ho.
  destruct (refill_safe rb f off Hrb Hok ltac:(lia)) as (br & rb1 & f1 & -> & Hrb1 & Hok1 & Hsf & Hcov).
  cbn [mbind option_bind]. destruct (Z.leb_spec br 0).
  { exists (-1), dest, rb1, f1. unfold rc_ok. split_and!; auto; lia. }
  specialize (Hcov ltac:(lia)). pose proof Hrb1 as (Hfs & Hd & Hb & Hst & Hlen & Hle).
  specialize (Hle ltac:(lia)). unfold is_u64, same_file in *.
  rewrite (u32_small (off - _)) by (unfold_int; lia).
  rewrite (u32_small (rb_length rb1 - (off - rb_start rb1))) by (unfold_int; lia).
  set (batch := if len <? _ then len else _).
  assert (0 < batch <= len /\ batch <= rb_length rb1 - (off - rb_start rb1)) as [Hba Hba2]
    by (unfold batch; bool_true).
  destruct (slice_total (rb_data rb1) (off - rb_start rb1) batch) as [ch Hch]; [lia..|].
  rewrite Hch. cbn [mbind option_bind]. destruct (Z.ltb_spec cap (zlen dest + batch)); [lia|].
  rewrite u64_small by (unfold_int; lia). rewrite u32_small by (unfold_int; lia).
  pose proof (is_bytes_slice _ _ _ _ Hb Hch) as Hcb. pose proof (slice_zlen _ _ _ _ Hch) as Hcz.
  destruct (IH rb1 f1 (off + batch) (dest ++ ch) (len - batch))
    as (rc & d & rb2 & f2 & -> & Hrc & Hd2 & Hrb2 & Hok2 & Hsf2 & Hz); try done; try (rewrite ?zlen_app; lia).
  { apply is_bytes_app. done. }
  exists rc, d, rb2, f2. split_and!; try done; try congruence.
  rewrite zlen_app in Hz. intros Hr0. specialize (Hz Hr0). lia.
Qed.

Lemma read_at_safe cap rb f off len :
  rs_inv rb -> store_ok f -> is_u64 off -> 0 < len < 4294967296 -> len <= cap ->
  exists rc d rb' f', lz4_read_at cap rb f off len = Some (rc, d, rb', f') /\
    rc_ok rc /\ is_bytes d /\ rs_inv rb' /\ store_ok f' /\ same_file rb rb' /\
    (rc = 0 -> zlen d = len /\ off + len <= rb_file_size rb).
Proof.
  intros. destruct (read_loop_safe (S (Z.to_nat len)) cap rb f off [] len)
    as (rc & d & rb2 & f2 & ? & ? & ? & ? & ? & ? & Hz); try done; try (rewrite ?zlen_nil; lia); [constructor|].
  exists rc, d, rb2, f2. change (zlen []) with 0 in Hz. split_and!; try done; intros Hr; specialize (Hz Hr); lia.
Qed.

(** ** Length extensions *)

Lemma ext_loop_safe fuel rb f idx limit len :
  rs_inv rb -> store_ok f -> is_u64 limit -> 0 <= idx <= limit -> is_u64 len ->
  limit - idx < Z.of_nat fuel ->
  exists rc idx' len' rb' f', ext_loop fuel rb f idx limit len = Some (rc, idx', len', rb', f') /\
    rc_ok rc /\ rs_inv rb' /\ store_ok f' /\ same_file rb rb' /\ is_u64 len' /\ idx <= idx' <= limit.
Proof.
  revert rb f idx len. induction fuel as [|fuel IH]; intros rb f idx len Hrb Hok Hlim Hi Hl Hfu; [lia|].
  cbn [ext_loop]. unfold is_u64 in Hlim. destruct (Z.leb_spec limit idx).
  { exists (-1), idx, len, rb, f. unfold rc_ok, same_file. split_and!; auto; lia. }
  destruct (read_at_safe 1 rb f idx 1 Hrb Hok ltac:(unfold is_u64; lia) ltac:(lia) ltac:(lia))
    as (rc & d & rb1 & f1 & -> & Hrc & Hd & Hrb1 & Hok1 & Hsf & Hz). cbn [mbind option_bind].
  destruct (Z.eqb_spec rc 0) as [->|]; cbn [negb].
  2:{ exists (-1), idx, len, rb1, f1. unfold rc_ok. split_and!; auto; lia. }
  destruct (Hz eq_refl) as [Hz1 _]. destruct (rd_is_Some d 0) as [x Hx]; [lia|]. rewrite Hx.
  pose proof (is_bytes_rd _ _ _ Hd Hx) as Hxb. cbn [mbind option_bind].
  rewrite (u64_small (idx + 1)) by (unfold_int; lia). unfold is_u8, is_u64 in Hxb, Hl.
  destruct (Z.ltb_spec (UINT64_MAX - len) x).
  { exists (-1), (idx + 1), len, rb1, f1. unfold rc_ok. split_and!; auto; unfold is_u64; lia. }
  rewrite u64_small by (unfold_int; lia). destruct (x =? 255).
  - destruct (IH rb1 f1 (idx + 1) (len + x)) as (rc & i' & l' & rb2 & f2 & -> & ?&?&?&?&?&?);
      try done; try (unfold_int; lia).
    exists rc, i', l', rb2, f2. unfold same_file in *. split_and!; try done; try lia; congruence.
  - exists 0, (idx + 1), (len + x), rb1, f1. unfold rc_ok. split_and!; auto; unfold_int; lia.
Qed.

(** The optional extension of a nibble, literal length and match length alike. *)
Lemma opt_ext_safe (b : bool) rb f idx limit len :
  rs_inv rb -> store_ok f -> is_u64 limit -> 0 <= idx <= limit -> is_u64 len ->
  exists rc idx' len' rb' f',
    (if b then lz4_read_length rb f idx limit len else Some (0, idx, len, rb, f))
      = Some (rc, idx', len', rb', f') /\
    rc_ok rc /\ rs_inv rb' /\ store_ok f' /\ same_file rb rb' /\ is_u64 len' /\ idx <= idx' <= limit.
Proof.
  intros. destruct b.
  - apply ext_loop_safe; try done. lia.
  - exists 0, idx, len, rb, f. unfold rc_ok, same_file. split_and!; auto; lia.
Qed.

(** ** Output *)

Definition os_inv (out : lz4_decode_output_t) : Prop :=
  zlen (do_data out) = LZ4_OUTPUT_SIZE /\ is_bytes (do_data out) /\
  zlen (do_history out) = LZ4_WINDOW_SIZE /\ is_bytes (do_history out) /\
  is_u32 (do_produced out) /\ 0 <= do_length out < LZ4_OUTPUT_SIZE.

Lemma output_byte_safe out f v :
  os_inv out -> store_ok f -> is_u8 v ->
  exists rc out' f', lz4_output_byte out f v = Some (rc, out', f') /\ store_ok f' /\
    (rc = 0 -> os_inv out').
Proof.
  intros (Hd & Hdb & Hh & Hhb & Hp & Hl) Hok Hv. unfold lz4_output_byte. rewrite land_window.
  unfold LZ4_OUTPUT_SIZE, LZ4_WINDOW_SIZE in *.
  pose proof (Z.mod_pos_bound (do_produced out) 4096 ltac:(lia)).
  destruct (wr_is_Some (do_history out) (do_produced out mod 4096) v) as [h Hh']; [lia|]. rewrite Hh'.
  destruct (wr_is_Some (do_data out) (do_length out) v) as [d Hd']; [lia|]. cbn [mbind option_bind]. rewrite Hd'.
  cbn [mbind option_bind]. pose proof (is_bytes_wr _ _ _ _ Hdb Hv Hd') as Hdb2.
  pose proof (is_bytes_wr _ _ _ _ Hhb Hv Hh') as Hhb2.
  pose proof (wr_zlen _ _ _ _ Hd'). pose proof (wr_zlen _ _ _ _ Hh').
  assert (forall l, 0 <= l < 65536 -> os_inv (DO (do_path out) h d l (u32 (do_produced out + 1)))) as Hnew.
  { intros l Hll. unfold os_inv, LZ4_OUTPUT_SIZE, LZ4_WINDOW_SIZE. cbn.
    split_and!; try done; try lia; apply u32_range. }
  destruct (Z.eqb_spec (do_length out + 1) 65536) as [E|E].
  - destruct (slice_total d 0 (do_length out + 1)) as [s Hs]; [lia..|]. rewrite Hs. cbn [mbind option_bind].
    destruct (safe_append f (do_path out) s Hok (is_bytes_slice _ _ _ _ Hdb2 Hs)) as (rc & f' & -> & Hok').
    cbn [mbind option_bind]. destruct (rc =? 0); cbn [negb]; do 3 eexists; (split; [done|]); (split; [done|]);
      [intros _; apply Hnew; lia | done].
  - do 3 eexists. split; [done|]. split; [done|]. intros _. apply Hnew. lia.
Qed.

Lemma emit_literals_safe d out f :
  os_inv out -> store_ok f -> is_bytes d ->
  exists failed out' f', emit_literals out f d = Some (failed, out', f') /\ store_ok f' /\
    (failed = false -> os_inv out').
Proof.
  revert out f. induction d as [|x d IH]; intros out f Ho Hok Hd; cbn [emit_literals].
  { by exists false, out, f. }
  apply is_bytes_cons in Hd as [Hx Hd].
  destruct (output_byte_safe out f x Ho Hok Hx) as (rc & out1 & f1 & -> & Hok1 & Ho1). cbn [mbind option_bind].
  destruct (Z.eqb_spec rc 0) as [->|]; cbn [negb]; [auto|]. by exists true, out1, f1.
Qed.

Lemma copy_literals_safe fuel rb out f idx n :
  rs_inv rb -> os_inv out -> store_ok f -> 0 <= idx -> 0 <= n -> is_u64 (idx + n) ->
  n < Z.of_nat fuel ->
  exists failed idx' rb' out' f',
    copy_literals fuel rb out f idx n = Some (failed, idx', rb', out', f') /\
    rs_inv rb' /\ store_ok f' /\ same_file rb rb' /\
    (failed = false -> os_inv out' /\ idx' = idx + n).
Proof.
  revert rb out f idx n. induction fuel as [|fuel IH];
    intros rb out f idx n Hrb Ho Hok Hi Hn Hin Hfu; [lia|]. cbn [copy_literals].
  destruct (Z.eqb_spec n 0) as [->|].
  { exists false, idx, rb, out, f. unfold same_file. split_and!; auto. intros _. split; [done|lia]. }
  unfold is_u64 in *.
  assert ((if 512 <? n then 512 else u32 n) = Z.min 512 n) as ->.
  { destruct (Z.ltb_spec 512 n); [lia|]. rewrite u32_small by (unfold_int; lia). lia. }
  destruct (read_at_safe 512 rb f idx (Z.min 512 n) Hrb Hok ltac:(unfold is_u64; lia) ltac:(lia) ltac:(lia))
    as (rc & d & rb1 & f1 & -> & Hrc & Hd & Hrb1 & Hok1 & Hsf & Hz). cbn [mbind option_bind].
  destruct (rc =? 0); cbn [negb]; [|by exists true, idx, rb1, out, f1].
  destruct (emit_literals_safe d out f1 Ho Hok1 Hd) as ([] & out2 & f2 & -> & Hok2 & Ho2); cbn [mbind option_bind].
  { by eexists true, _, rb1, out2, f2. }
  rewrite u64_small by (unfold_int; lia).
  destruct (IH rb1 out2 f2 (idx + Z.min 512 n) (n - Z.min 512 n))
    as (failed & i' & rb3 & out3 & f3 & -> & Hrb3 & Hok3 & Hsf3 & Hfin); try done; try (unfold_int; lia); auto.
  exists failed, i', rb3, out3, f3. unfold same_file in *. split_and!; try done; try congruence.
  intros Hff. destruct (Hfin Hff). split; [done | lia].
Qed.

Lemma copy_match_safe k out f off :
  os_inv out -> store_ok f ->
  exists failed out' f', copy_match k out f off = Some (failed, out', f') /\ store_ok f' /\
    (failed = false -> os_inv out').
Proof.
  revert out f. induction k as [|k IH]; intros out f Ho Hok; cbn [copy_match].
  { by exists false, out, f. }
  pose proof Ho as (_ & _ & Hh & Hhb & _ & _). rewrite land_window. unfold LZ4_WINDOW_SIZE in *.
  set (i := _ mod 4096). assert (0 <= i < 4096) by (apply Z.mod_pos_bound; lia).
  destruct (rd_is_Some (do_history out) i) as [x Hx]; [lia|]. rewrite Hx. cbn [mbind option_bind].
  destruct (output_byte_safe out f x Ho Hok (is_bytes_rd _ _ _ Hhb Hx)) as (rc & out1 & f1 & -> & Hok1 & Ho1).
  cbn [mbind option_bind]. destruct (Z.eqb_spec rc 0) as [->|]; cbn [negb]; [auto|]. by exists true, out1, f1.
Qed.

(** ** Sequences and blocks *)

Definition final_ok (next : seq_next) (out : lz4_decode_output_t) : Prop :=
  next <> SeqFail -> os_inv out.

Section Limits.
Variables (be bs bt : Z).
Hypothesis Hbe : is_u64 be.

(** The state after a round: a round that asks for another made progress. *)
Definition round_ok (idx : Z) (rb : lz4_read_buffer_t)
    (r : seq_next * Z * lz4_read_buffer_t * lz4_decode_output_t * F) : Prop :=
  let '(next, idx', rb', out', f') := r in
  rs_inv rb' /\ store_ok f' /\ same_file rb rb' /\ final_ok next out' /\
  (next <> SeqFail -> idx < idx' <= be).

Ltac seq_fail := eexists; (split; [reflexivity|]); unfold round_ok, final_ok, same_file in *;
  split_and!; try done; try congruence.

Lemma decode_match_safe rb out f token idx :
  rs_inv rb -> os_inv out -> store_ok f -> 0 <= idx <= be -> is_u8 token ->
  exists r, decode_match rb out f token idx be bs bt = Some r /\ round_ok idx rb r.
Proof.
  intros Hrb Ho Hok Hi Ht. unfold decode_match. unfold is_u64, is_u8 in *.
  rewrite (u64_small (be - idx)) by (unfold_int; lia). destruct (Z.ltb_spec (be - idx) 2); [seq_fail|].
  destruct (read_at_safe 2 rb f idx 2 Hrb Hok ltac:(unfold is_u64; lia) ltac:(lia) ltac:(lia))
    as (rc & d & rb1 & f1 & -> & Hrc & Hd & Hrb1 & Hok1 & Hsf & Hz). cbn [mbind option_bind].
  destruct (Z.eqb_spec rc 0) as [->|]; cbn [negb]; [|seq_fail]. destruct (Hz eq_refl) as [Hz2 _].
  rewrite u64_small by (unfold_int; lia).
  destruct (rd_is_Some d 0) as [x0 ->]; [lia|]. destruct (rd_is_Some d 1) as [x1 ->]; [lia|].
  cbn [mbind option_bind]. destruct (_ || _); [seq_fail|].
  assert (is_u64 (Z.land token 15 + 4)) as Hlen.
  { change 15 with (2 ^ 4 - 1). rewrite land_ones_mod by lia.
    pose proof (Z.mod_pos_bound token (2 ^ 4) ltac:(lia)). unfold_int. lia. }
  destruct (opt_ext_safe (Z.land token 15 =? 15) rb1 f1 (idx + 2) be (Z.land token 15 + 4) Hrb1 Hok1)
    as (rc & i2 & l2 & rb2 & f2 & -> & Hrc2 & Hrb2 & Hok2 & Hsf2 & Hl2 & Hi2); try done; try lia.
  cbn [mbind option_bind]. destruct (rc =? 0); cbn [negb]; [|seq_fail].
  destruct (_ <? _); [seq_fail|].
  destruct (copy_match_safe (Z.to_nat l2) out f2 (Z.lor x0 (Z.shiftl x1 8)) Ho Hok2)
    as (failed & out3 & f3 & -> & Hok3 & Ho3). cbn [mbind option_bind].
  destruct failed; seq_fail; auto; lia.
Qed.

Lemma decode_sequence_safe rb out f idx :
  rs_inv rb -> os_inv out -> store_ok f -> 0 <= idx < be ->
  exists r, decode_sequence rb out f idx be bs bt = Some r /\ round_ok idx rb r.
Proof.
  intros Hrb Ho Hok Hi. unfold decode_sequence. unfold is_u64 in *.
  destruct (read_at_safe 1 rb f idx 1 Hrb Hok ltac:(unfold is_u64; lia) ltac:(lia) ltac:(lia))
    as (rc & d & rb1 & f1 & -> & Hrc & Hd & Hrb1 & Hok1 & Hsf & Hz). cbn [mbind option_bind].
  destruct (Z.eqb_spec rc 0) as [->|]; cbn [negb]; [|seq_fail]. destruct (Hz eq_refl) as [Hz2 _].
  destruct (rd_is_Some d 0) as [token Ht]; [lia|]. rewrite Ht. pose proof (is_bytes_rd _ _ _ Hd Ht) as Htb.
  cbn [mbind option_bind]. rewrite (u64_small (idx + 1)) by (unfold_int; lia).
  assert (is_u64 (Z.shiftr token 4)) as Hlen.
  { rewrite Z.shiftr_div_pow2 by lia. unfold is_u8 in Htb. split; [apply Z.div_pos; lia|].
    apply Z.div_lt_upper_bound; lia. }
  destruct (opt_ext_safe (Z.shiftr token 4 =? 15) rb1 f1 (idx + 1) be (Z.shiftr token 4) Hrb1 Hok1)
    as (rc & i2 & n & rb2 & f2 & -> & Hrc2 & Hrb2 & Hok2 & Hsf2 & Hl2 & Hi2); try done; try lia.
  cbn [mbind option_bind]. destruct (rc =? 0); cbn [negb]; [|seq_fail].
  rewrite (u64_small (be - i2)) by (unfold_int; lia).
  destruct (Z.ltb_spec (be - i2) n); rewrite ?orb_true_r; [seq_fail|]. rewrite orb_false_r.
  destruct (_ <? n); [seq_fail|]. unfold is_u64 in Hl2.
  destruct (copy_literals_safe (S (Z.to_nat n)) rb2 out f2 i2 n Hrb2 Ho Hok2)
    as (failed & i3 & rb3 & out3 & f3 & -> & Hrb3 & Hok3 & Hsf3 & Hfin); try (unfold_int; lia).
  cbn [mbind option_bind]. destruct failed; [seq_fail|]. destruct (Hfin eq_refl) as [Ho3 ->].
  destruct (do_produced out3 =? bt).
  { destruct (i2 + n =? be); seq_fail; auto; lia. }
  destruct (decode_match_safe rb3 out3 f3 token (i2 + n) Hrb3 Ho3 Hok3 ltac:(lia) Htb)
    as ([[[[next i4] rb4] out4] f4] & -> & Hr). eexists. split; [done|]. unfold round_ok, same_file in *.
  destruct Hr as (?&?&?&?&Hp). split_and!; try done; try congruence; intros Hnf; specialize (Hp Hnf); lia.
Qed.

Lemma decode_block_safe fuel rb out f idx :
  rs_inv rb -> os_inv out -> store_ok f -> 0 <= idx <= be -> be - idx < Z.of_nat fuel ->
  exists failed idx' rb' out' f',
    decode_block fuel rb out f idx be bs bt = Some (failed, idx', rb', out', f') /\
    rs_inv rb' /\ store_ok f' /\ same_file rb rb' /\ (failed = false -> os_inv out').
Proof.
  revert rb out f idx. induction fuel as [|fuel IH]; intros rb out f idx Hrb Ho Hok Hi Hfu; [lia|].
  cbn [decode_block]. destruct (Z.ltb_spec idx be); cbn [andb]; [|by exists false, idx, rb, out, f].
  destruct (do_produced out <? bt); [|by exists false, idx, rb, out, f].
  destruct (decode_sequence_safe rb out f idx Hrb Ho Hok ltac:(lia))
    as ([[[[next i2] rb2] out2] f2] & -> & Hrb2 & Hok2 & Hsf2 & Ho2 & Hp). cbn [mbind option_bind].
  destruct next.
  - by exists true, i2, rb2, out2, f2.
  - exists false, i2, rb2, out2, f2. split_and!; auto.
  - destruct (IH rb2 out2 f2 i2 Hrb2 (Ho2 ltac:(done)) Hok2) as (fl & i3 & rb3 & out3 & f3 & -> & ?&?&?&?).
    { specialize (Hp ltac:(done)). lia. } { specialize (Hp ltac:(done)). lia. }
    exists fl, i3, rb3, out3, f3. unfold same_file in *. split_and!; try done; congruence.
Qed.

End Limits.

Lemma of_le32_safe b off :
  is_bytes b -> 0 <= off -> off + 4 <= zlen b -> exists v, of_le32 b off = Some v /\ is_u32 v.
Proof.
  intros Hb Ho Hl. destruct (slice_total b off 4) as [s Hs]; [lia..|].
  exists (le_val s). pose proof (is_bytes_slice _ _ _ _ Hb Hs) as Hsb.
  pose proof (slice_zlen _ _ _ _ Hs) as Hz. pose proof (le_val_range s Hsb) as Hr.
  rewrite Hz in Hr. split; [|exact Hr]. apply of_le32_at; [|exact Hr].
  pose proof (le_bytes_le_val s Hsb) as He. replace (length s) with 4%nat in He by zs. by rewrite He.
Qed.

(** ** The loop over blocks *)

Lemma read_block_header_safe rb f idx size orig produced :
  rs_inv rb -> store_ok f -> is_u64 size -> 0 <= idx <= size ->
  is_u32 orig -> 0 <= produced < orig ->
  exists lim idx' rb' f', read_block_header rb f idx size orig produced = Some (lim, idx', rb', f') /\
    rs_inv rb' /\ store_ok f' /\
    (forall bt be, lim = Some (bt, be) ->
       0 <= idx' <= be /\ be <= size /\ produced < bt <= orig).
Proof.
  intros Hrb Hok Hs Hi Ho Hp. unfold read_block_header. unfold is_u64, is_u32 in *.
  rewrite (u64_small (size - idx)) by (unfold_int; lia). destruct (Z.ltb_spec (size - idx) 8).
  { by exists None, idx, rb, f. }
  destruct (read_at_safe 8 rb f idx 8 Hrb Hok ltac:(unfold is_u64; lia) ltac:(lia) ltac:(lia))
    as (rc & d & rb1 & f1 & -> & Hrc & Hd & Hrb1 & Hok1 & Hsf & Hz). cbn [mbind option_bind].
  destruct (Z.eqb_spec rc 0) as [->|]; cbn [negb]; [|by exists None, idx, rb1, f1].
  destruct (Hz eq_refl) as [Hz2 _]. rewrite (u64_small (idx + 8)) by (unfold_int; lia).
  destruct (of_le32_safe d 0 Hd) as (v0 & -> & Hv0); [lia..|].
  destruct (of_le32_safe d 4 Hd) as (v1 & -> & Hv1); [lia..|]. cbn [mbind option_bind].
  unfold is_u32 in *. rewrite (u32_small (orig - produced)) by (unfold_int; lia).
  rewrite (u64_small (size - (idx + 8))) by (unfold_int; lia).
  destruct (Z.eqb_spec v0 0); [by exists None, (idx + 8), rb1, f1|].
  destruct (Z.eqb_spec v1 0); [by exists None, (idx + 8), rb1, f1|].
  destruct (Z.ltb_spec (orig - produced) v0); [by exists None, (idx + 8), rb1, f1|].
  destruct (Z.ltb_spec (size - (idx + 8)) v1); [by exists None, (idx + 8), rb1, f1|]. cbn [orb].
  rewrite u32_small, u64_small by (unfold_int; lia). do 4 eexists. split; [done|].
  split_and!; try done. intros bt be [= <- <-]. lia.
Qed.

Lemma decode_blocks_safe fuel framed rb out f idx size orig :
  rs_inv rb -> os_inv out -> store_ok f -> is_u64 size -> 0 <= idx <= size -> is_u32 orig ->
  orig - do_produced out < Z.of_nat fuel -> 0 < Z.of_nat fuel ->
  exists failed idx' out' f',
    decode_blocks fuel framed rb out f idx size orig = Some (failed, idx', out', f') /\
    store_ok f' /\ (failed = false -> os_inv out').
Proof.
  revert rb out f idx. induction fuel as [|fuel IH];
    intros rb out f idx Hrb Ho Hok Hs Hi Hor Hfu Hf0; [lia|]. cbn [decode_blocks].
  pose proof Ho as (_ & _ & _ & _ & Hpr & _). unfold is_u32 in Hpr.
  destruct (Z.ltb_spec (do_produced out) orig); [|by exists false, idx, out, f].
  assert (exists lim idx' rb' f',
    (if framed then read_block_header rb f idx size orig (do_produced out)
     else Some (Some (orig, size), idx, rb, f)) = Some (lim, idx', rb', f') /\
    rs_inv rb' /\ store_ok f' /\ (forall bt be, lim = Some (bt, be) ->
       0 <= idx' <= be /\ be <= size /\ do_produced out < bt <= orig))
    as (lim & idx1 & rb1 & f1 & -> & Hrb1 & Hok1 & Hlim).
  { destruct framed; [apply read_block_header_safe; try done; lia|].
    do 4 eexists. split; [done|]. split_and!; try done. intros bt be [= <- <-]. lia. }
  cbn [mbind option_bind]. destruct lim as [[bt be]|]; [|by exists true, idx1, out, f1].
  destruct (Hlim bt be eq_refl) as (Hi1 & Hbe & Hbt). unfold is_u64 in Hs.
  destruct (decode_block_safe be (do_produced out) bt ltac:(unfold is_u64; lia)
    (S (Z.to_nat (be - idx1))) rb1 out f1 idx1 Hrb1 Ho Hok1 Hi1 ltac:(lia))
    as (failed & idx2 & rb2 & out2 & f2 & -> & Hrb2 & Hok2 & Hsf2 & Ho2). cbn [mbind option_bind].
  destruct framed; cbn [negb orb].
  2:{ do 4 eexists. split; [done|]. split; [done|]. destruct failed; [done|]. auto. }
  destruct failed; cbn [orb]; [by eexists true, idx2, out2, f2|].
  destruct (Z.eqb_spec (do_produced out2) bt) as [E|]; cbn [negb orb]; [|by eexists true, idx2, out2, f2].
  destruct (Z.eqb_spec idx2 be) as [->|]; cbn [negb]; [|by eexists true, idx2, out2, f2].
  apply IH; auto; lia.
Qed.

Lemma decompress_body_safe f history out rb (framed : bool) size orig dst :
  rs_inv rb -> store_ok f -> is_u64 size -> (if framed then 8 else 4) <= size -> is_u32 orig ->
  zlen history = LZ4_WINDOW_SIZE -> is_bytes history ->
  zlen out = LZ4_OUTPUT_SIZE -> is_bytes out ->
  exists rc f', decompress_body f history out rb framed size orig dst = Some (rc, f') /\
    rc_ok rc /\ store_ok f'.
Proof.
  intros Hrb Hok Hs Hfs Ho Hh Hhb Hout Hob. unfold decompress_body, rc_ok.
  destruct (safe_create f dst Hok) as (rc & f1 & -> & Hok1). cbn [mbind option_bind].
  destruct (rc =? 0); cbn [negb]; [|by exists (-1), f1; auto].
  destruct (decode_blocks_safe (S (Z.to_nat orig)) framed rb (DO dst history out 0 0) f1
    (if framed then 8 else 4) size orig) as (failed & idx & out2 & f2 & -> & Hok2 & Ho2); try done.
  { destruct framed; lia. } { unfold is_u32 in Ho. cbn. lia. }
  cbn [mbind option_bind]. set (fl := failed || _ || _).
  assert (exists (b : bool) (f3 : F), (if negb fl && (0 <? do_length out2)
    then d ← slice (do_data out2) 0 (do_length out2); '(rc, f) ← fs_append_data f2 dst d;
         Some (negb (rc =? 0), f)
    else Some (fl, f2)) = Some (b, f3) /\ store_ok f3) as (b & f3 & -> & Hok3).
  { destruct fl eqn:Efl; cbn [negb andb]; [by eexists _, _|].
    destruct (0 <? do_length out2); [|by eexists _, _].
    assert (failed = false) as ->.
    { unfold fl in Efl. by destruct failed. }
    destruct (Ho2 eq_refl) as (Hd & Hdb & _ & _ & _ & Hl).
    destruct (slice_total (do_data out2) 0 (do_length out2)) as [d Hd']; [lia..|]. rewrite Hd'. cbn [mbind option_bind].
    destruct (safe_append f2 dst d Hok2 (is_bytes_slice _ _ _ _ Hdb Hd')) as (rc' & f3 & -> & ?). by eexists _, _. }
  cbn [mbind option_bind]. destruct b; [|by exists 0, f3; auto].
  destruct (safe_delete f3 dst Hok3) as (rc' & f4 & -> & ?). by exists (-1), f4; auto.
Qed.

End Safety.

Lemma lz4_decompress_safe_ok {F} `{SafeStore F} (f : F) history out (src : bytes) (size : Z) (dst : bytes) :
  store_ok f -> is_u64 size ->
  zlen history = LZ4_WINDOW_SIZE -> is_bytes history ->
  zlen out = LZ4_OUTPUT_SIZE -> is_bytes out ->
  exists rc f', kernel_lz4_decompress f history out src size dst = Some (rc, f') /\
    (rc = 0 \/ rc = -1) /\ store_ok f'.
Proof.
  intros Hok Hs Hh Hhb Ho Hob. unfold kernel_lz4_decompress.
  destruct (Z.ltb_spec size 4); [by exists (-1), f; auto|].
  set (rb := RB src size UINT64_MAX 0 (zeros 4096)).
  assert (rs_inv rb) as Hrb.
  { split; [exact Hs|]. split; [done|]. split; [apply is_bytes_zeros|]. by repeat split. }
  destruct (read_at_safe 4 rb f 0 4 Hrb Hok) as (rc & d & rb1 & f1 & -> & Hrc & Hd & Hrb1 & Hok1 & Hsf & Hz); [done..|].
  cbn [mbind option_bind]. destruct (Z.eqb_spec rc 0) as [->|]; cbn [negb]; [|by exists (-1), f1; auto].
  destruct (Hz eq_refl) as [Hz4 _]. destruct (of_le32_safe d 0 Hd) as (orig & -> & Hor); [lia..|].
  cbn [mbind option_bind].
  assert (exists (framed : bool) (rb2 : lz4_read_buffer_t) (f2 : F), (if 8 <=? size then
      '(rc, marker, input, f) ← lz4_read_at 4 rb1 f1 4 4;
       Some ((rc =? 0) && bool_decide (marker = lit "LZ4C"), input, f)
     else Some (false, rb1, f1)) = Some (framed, rb2, f2) /\ rs_inv rb2 /\ store_ok f2 /\
     (if framed then 8 else 4) <= size) as (framed & rb2 & f2 & -> & Hrb2 & Hok2 & Hfr).
  { destruct (Z.leb_spec 8 size); [|by exists false, rb1, f1].
    destruct (read_at_safe 4 rb1 f1 4 4 Hrb1 Hok1) as (rc & m & rb2 & f2 & -> & _ & _ & Hrb2 & Hok2 & _ & _); [done..|].
    cbn [mbind option_bind]. do 3 eexists. split; [done|]. split_and!; try done. destruct (_ && _); lia. }
  cbn [mbind option_bind]. destruct (orig =? 0).
  - destruct (negb _); [by exists (-1), f2; auto|].
    destruct (safe_create f2 dst Hok2) as (rc' & f3 & -> & Hok3). cbn [mbind option_bind].
    destruct (negb _); eexists _, f3; auto.
  - by apply decompress_body_safe.
Qed.

(** C10: whatever the bytes of the archive (and whatever size its caller claims),
    and whatever reads, writes and creations fail (the calls of the file store
    return, [SafeStore]), [kernel_lz4_decompress] stays inside its arrays - the
    output, history and read-ahead buffers and the arrays of 1, 2, 4, 8 and 512
    bytes that it reads fields, headers and literals into -, terminates, and
    returns 0 or -1. *)
Theorem lz4_decompress_safe {F} `{SafeStore F} (f : F) history out (src : bytes) (size : Z) (dst : bytes) :
  store_ok f -> is_u64 size ->
  zlen history = LZ4_WINDOW_SIZE -> is_bytes history ->
  zlen out = LZ4_OUTPUT_SIZE -> is_bytes out ->
  exists rc f', kernel_lz4_decompress f history out src size dst = Some (rc, f') /\
    (rc = 0 \/ rc = -1) /\ store_ok f'.
Proof. apply lz4_decompress_safe_ok. Qed.

Lemma lz4_decompress_safe_witness :
  exists rc f', kernel_lz4_decompress demo_store (zeros (Z.to_nat 4096)) (zeros (Z.to_nat 65536))
      (lit "a.txt") 20 (lit "b.txt") = Some (rc, f') /\ (rc = 0 \/ rc = -1) /\ store_ok f'.
Proof.
  apply (lz4_decompress_safe demo_store (zeros (Z.to_nat 4096)) (zeros (Z.to_nat 65536)) (lit "a.txt") 20);
    [apply demo_store_ok | done | exact (zlen_zeros 4096 ltac:(lia)) | apply is_bytes_zeros
    | exact (zlen_zeros 65536 ltac:(lia)) | apply is_bytes_zeros].
Defined.

(** ** The compressor *)

Section CompressSafety.
Context {F : Type} `{SafeStore F}.
Implicit Types f : F.

Definition ps_inv (wb : lz4_write_buffer_t) : Prop :=
  is_Some (wb_path wb) /\ wb_capacity wb = LZ4_OUTPUT_SIZE /\
  zlen (wb_data wb) = LZ4_OUTPUT_SIZE /\ is_bytes (wb_data wb) /\
  0 <= wb_length wb < LZ4_OUTPUT_SIZE.

Lemma write_flush_safe wb f :
  is_Some (wb_path wb) -> is_bytes (wb_data wb) -> 0 <= wb_length wb <= zlen (wb_data wb) -> store_ok f ->
  exists rc wb' f', lz4_write_flush wb f = Some (rc, wb', f') /\ store_ok f' /\
    (rc = 0 -> wb' = WB (wb_path wb) (wb_data wb) 0 (wb_capacity wb)).
Proof.
  intros [p Hp] Hb Hl Hok. unfold lz4_write_flush. rewrite Hp.
  destruct (Z.eqb_spec (wb_length wb) 0) as [E|E].
  { exists 0, wb, f. split; [done|]. split; [done|]. intros _. destruct wb; cbn in *. by subst. }
  destruct (slice_total (wb_data wb) 0 (wb_length wb)) as [d Hd]; [lia..|]. rewrite Hd. cbn [mbind option_bind].
  destruct (safe_append f p d Hok (is_bytes_slice _ _ _ _ Hb Hd)) as (rc & f' & -> & Hok'). cbn [mbind option_bind].
  destruct (rc =? 0); cbn [negb]; do 3 eexists; (split; [done|]); by (split; [done|]).
Qed.

Lemma write_loop_safe fuel wb f d rest :
  ps_inv wb -> store_ok f -> is_bytes d -> zlen d < 4294967296 -> zlen d < Z.of_nat fuel ->
  exists rc wb' f', write_loop fuel wb f (d ++ rest) (zlen d) = Some (rc, wb', f') /\ store_ok f' /\
    (rc = 0 -> ps_inv wb').
Proof.
  revert wb f d. induction fuel as [|fuel IH]; intros wb f d Hi Hok Hd Hl Hfu;
    [pose proof (zlen_nonneg d); lia|].
  cbn [write_loop]. pose proof (zlen_nonneg d). destruct (Z.eqb_spec (zlen d) 0) as [E|Hne].
  { by exists 0, wb, f. }
  destruct Hi as (Hp & Hcap & Hz & Hb & Hlen). unfold LZ4_OUTPUT_SIZE in *.
  rewrite Hcap, (u32_small (65536 - _)) by (unfold_int; lia).
  set (batch := if zlen d <? 65536 - wb_length wb then zlen d else 65536 - wb_length wb).
  assert (0 < batch <= zlen d /\ wb_length wb + batch <= 65536) as [Hba Hba2] by (unfold batch; bool_true).
  set (d1 := take (Z.to_nat batch) d). set (d2 := drop (Z.to_nat batch) d).
  assert (d = d1 ++ d2) as Hsplit by (symmetry; apply take_drop).
  assert (zlen d1 = batch) as Hd1 by (unfold d1; zs).
  assert (zlen d2 = zlen d - batch) as Hd2 by (unfold d2; zs).
  rewrite Hsplit in Hd. apply is_bytes_app in Hd as [Hdb1 Hdb2].
  assert (slice (d ++ rest) 0 batch = Some d1) as ->.
  { rewrite Hsplit, <- app_assoc, <- Hd1. exact (slice_mid [] d1 (d2 ++ rest)). }
  cbn [mbind option_bind].
  destruct (blit_total (wb_data wb) d1 (wb_length wb)) as [w Hw]; [lia..|].
  rewrite Hw. cbn [mbind option_bind wb_length wb_capacity wb_path].
  assert (drop (Z.to_nat batch) (d ++ rest) = d2 ++ rest) as -> by (apply drop_app_le; zs).
  pose proof (is_bytes_blit _ _ _ _ Hb Hdb1 Hw) as Hwb. pose proof (blit_zlen _ _ _ _ Hw) as Hwz.
  rewrite <- Hd2, (u32_small (zlen d2)), (u32_small (wb_length wb + batch)) by (unfold_int; lia).
  assert (forall l, 0 <= l < 65536 -> ps_inv (WB (wb_path wb) w l 65536)) as Hnew.
  { intros l Hll. unfold ps_inv, LZ4_OUTPUT_SIZE. cbn. split_and!; try done; lia. }
  destruct (Z.eqb_spec (wb_length wb + batch) 65536).
  - destruct (wb_path wb) as [q|] eqn:Hq; [|by destruct Hp].
    destruct (write_flush_safe (WB (Some q) w (wb_length wb + batch) 65536) f)
      as (rc & wb1 & f1 & -> & Hok1 & Hwb1); try done; [cbn; lia|]. cbn [mbind option_bind].
    destruct (Z.eqb_spec rc 0) as [->|]; cbn [negb]; [|by exists (-1), wb1, f1].
    rewrite (Hwb1 eq_refl). cbn [wb_path wb_data wb_capacity]. apply IH; try done; try lia. by apply Hnew.
  - apply IH; try done; try lia. apply Hnew. lia.
Qed.

Lemma write_safe wb f d rest :
  ps_inv wb -> store_ok f -> is_bytes d -> zlen d < 4294967296 ->
  exists rc wb' f', lz4_write wb f (d ++ rest) (zlen d) = Some (rc, wb', f') /\ store_ok f' /\
    (rc = 0 -> ps_inv wb').
Proof. intros. apply write_loop_safe; try done. lia. Qed.

Lemma write_hdr_safe wb f d :
  ps_inv wb -> store_ok f -> is_bytes d -> zlen d = 8 ->
  exists rc wb' f', lz4_write wb f d 8 = Some (rc, wb', f') /\ store_ok f' /\ (rc = 0 -> ps_inv wb').
Proof.
  intros Hi Hok Hd Hz. destruct (write_safe wb f d [] Hi Hok Hd ltac:(lia)) as (rc & wb' & f' & Hw & ?).
  rewrite app_nil_r, Hz in Hw. eauto.
Qed.

Lemma compress_blocks_safe fuel wb f sb block p size off :
  ps_inv wb -> store_ok f -> zlen sb = LZ4_READ_AHEAD_SIZE -> is_bytes sb ->
  zlen block = LZ4_BLOCK_BUFFER_SIZE -> is_u32 size -> 0 <= off <= size -> size - off < Z.of_nat fuel ->
  exists failed wb' f', compress_blocks fuel wb f sb block p size off = Some (failed, wb', f') /\
    store_ok f' /\ (failed = false -> ps_inv wb').
Proof.
  revert wb f sb block off. induction fuel as [|fuel IH];
    intros wb f sb block off Hi Hok Hsb Hsbb Hbl Hs Ho Hfu; [lia|]. unfold is_u32 in Hs.
  cbn [compress_blocks]. destruct (Z.ltb_spec off size); [|by exists false, wb, f].
  set (n := if LZ4_READ_AHEAD_SIZE <? size - off then LZ4_READ_AHEAD_SIZE else size - off).
  assert (0 < n <= LZ4_READ_AHEAD_SIZE /\ off + n <= size) as [Hn Hn2]
    by (unfold n, LZ4_READ_AHEAD_SIZE; bool_true).
  unfold LZ4_READ_AHEAD_SIZE in Hn, Hsb.
  destruct (safe_read f p off n Hok ltac:(lia) ltac:(unfold_int; lia)) as (rc & d & f1 & -> & Hok1 & Hdb & Hdl).
  cbn [mbind option_bind]. destruct (blit_total sb d 0) as [sb' Hsb']; [lia..|]. rewrite Hsb'.
  cbn [mbind option_bind]. destruct (_ || _); [by exists true, wb, f1|].
  pose proof (is_bytes_blit _ _ _ _ Hsbb Hdb Hsb') as Hsbb'. pose proof (blit_zlen _ _ _ _ Hsb') as Hsbz.
  destruct (block_frame f1 sb' n block) as (bo & e & t & -> & Hbl1 & Hbl2 & Hbl3 & Heb & Hez & Hblk);
    try done; unfold LZ4_READ_AHEAD_SIZE; try lia. cbn [mbind option_bind]. rewrite Hbl1.
  destruct (_ || _); [by exists true, wb, f1|].
  destruct (write_hdr_safe wb f1 (le32 n ++ le32 (zlen e)) Hi Hok1) as (rc2 & wb2 & f2 & -> & Hok2 & Hi2); [|done|].
  { rewrite !le32_le_bytes. apply is_bytes_app. split; apply is_bytes_le. }
  cbn [mbind option_bind]. destruct (Z.eqb_spec rc2 0) as [->|]; cbn [negb]; [|by exists true, wb2, f2].
  unfold LZ4_BLOCK_BUFFER_SIZE in Hez. rewrite Hbl2.
  destruct (write_safe wb2 f2 e t (Hi2 eq_refl) Hok2 Heb ltac:(lia)) as (rc3 & wb3 & f3 & -> & Hok3 & Hi3).
  cbn [mbind option_bind]. destruct (Z.eqb_spec rc3 0) as [->|]; cbn [negb]; [|by exists true, wb3, f3].
  rewrite u32_small by (unfold_int; lia). rewrite <- Hbl2. apply IH; auto; unfold LZ4_READ_AHEAD_SIZE; lia.
Qed.

End CompressSafety.

Lemma lz4_compress_safe_ok {F} `{SafeStore F} (f : F) out sb block (src : bytes) (size : Z) (dst : bytes) :
  store_ok f -> is_u64 size -> zlen out = LZ4_OUTPUT_SIZE -> is_bytes out ->
  zlen sb = LZ4_READ_AHEAD_SIZE -> is_bytes sb -> zlen block = LZ4_BLOCK_BUFFER_SIZE ->
  exists rc f', kernel_lz4_compress f out sb block src size dst = Some (rc, f') /\
    (rc = 0 \/ rc = -1) /\ store_ok f'.
Proof.
  intros Hok Hs Ho Hob Hsb Hsbb Hbl. unfold kernel_lz4_compress. unfold is_u64 in Hs.
  destruct (Z.ltb_spec UINT32_MAX size); [by exists (-1), f; auto|].
  rewrite u32_small by (unfold_int; lia).
  destruct (safe_create f dst Hok) as (rc & f1 & -> & Hok1). cbn [mbind option_bind].
  destruct (rc =? 0); cbn [negb]; [|by exists (-1), f1; auto].
  assert (ps_inv (WB (Some dst) out 0 LZ4_OUTPUT_SIZE)) as Hi by (split; [by eexists|]; by repeat split).
  destruct (write_hdr_safe _ f1 (le32 size ++ lit "LZ4C") Hi Hok1) as (rc2 & wb2 & f2 & -> & Hok2 & Hi2); [|done|].
  { rewrite le32_le_bytes. apply is_bytes_app. split; [apply is_bytes_le|]. apply (bool_decide_unpack _). done. }
  cbn [mbind option_bind].
  assert (exists (fl : bool) wb3 f3, (if negb (rc2 =? 0) then Some (true, wb2, f2)
    else compress_blocks (S (Z.to_nat size)) wb2 f2 sb block src size 0) = Some (fl, wb3, f3) /\
    store_ok f3 /\ (fl = false -> ps_inv wb3)) as (fl & wb3 & f3 & -> & Hok3 & Hi3).
  { destruct (Z.eqb_spec rc2 0) as [->|]; cbn [negb]; [|by exists true, wb2, f2].
    apply compress_blocks_safe; auto; unfold_int; lia. }
  cbn [mbind option_bind]. destruct fl.
  - cbn. destruct (safe_delete f3 dst Hok3) as (rc' & f4 & -> & ?). by exists (-1), f4; auto.
  - destruct (Hi3 eq_refl) as (Hp & _ & Hz & Hb & Hl).
    destruct (write_flush_safe wb3 f3 Hp Hb ltac:(lia) Hok3) as (rc4 & wb4 & f4 & -> & Hok4 & _).
    cbn [mbind option_bind]. destruct (negb _); [|by exists 0, f4; auto].
    destruct (safe_delete f4 dst Hok4) as (rc' & f5 & -> & ?). by exists (-1), f5; auto.
Qed.

(** whatever reads, writes and creations fail, [kernel_lz4_compress] stays
    inside its arrays, terminates, and returns 0 or -1, for every file size. *)
Theorem lz4_compress_safe {F} `{SafeStore F} (f : F) out sb block (src : bytes) (size : Z) (dst : bytes) :
  store_ok f -> is_u64 size -> zlen out = LZ4_OUTPUT_SIZE -> is_bytes out ->
  zlen sb = LZ4_READ_AHEAD_SIZE -> is_bytes sb -> zlen block = LZ4_BLOCK_BUFFER_SIZE ->
  exists rc f', kernel_lz4_compress f out sb block src size dst = Some (rc, f') /\
    (rc = 0 \/ rc = -1) /\ store_ok f'.
Proof. apply lz4_compress_safe_ok. Qed.

Lemma lz4_compress_safe_witness :
  exists rc f', kernel_lz4_compress demo_store (zeros (Z.to_nat 65536)) (zeros (Z.to_nat 4096))
      (zeros (Z.to_nat 8192)) (lit "missing") 20 (lit "b.txt") = Some (rc, f') /\
    (rc = 0 \/ rc = -1) /\ store_ok f'.
Proof.
  apply (lz4_compress_safe demo_store (zeros (Z.to_nat 65536)) (zeros (Z.to_nat 4096)) (zeros (Z.to_nat 8192)));
    [apply demo_store_ok | done | exact (zlen_zeros 65536 ltac:(lia)) | apply is_bytes_zeros
    | exact (zlen_zeros 4096 ltac:(lia)) | apply is_bytes_zeros | exact (zlen_zeros 8192 ltac:(lia))].
Defined.
