(* ===== verification/CMonad.v ===== *)
(** * State, undefined behaviour and early return

    [M S A] is the monad in which the drivers are written: a state [S] is
    threaded, [None] is undefined behaviour, and a statement either yields a
    value or has executed [return rc].  [fn] is the body of a C function: it
    catches the early return. *)

From S2P Require Import Prelude.

Inductive outcome (A : Type) := Val (a : A) | Ret (rc : Z).
Arguments Val {A} a.
Arguments Ret {A} rc.

Definition M (S A : Type) : Type := S -> option (outcome A * S).

#[global] Instance M_ret {S} : MRet (M S) := fun A a s => Some (Val a, s).
#[global] Instance M_bind {S} : MBind (M S) := fun A B k m s =>
  match m s with
  | None => None
  | Some (Val a, s') => k a s'
  | Some (Ret rc, s') => Some (Ret rc, s')
  end.

(** [return rc;] *)
Definition exit {S A} (rc : Z) : M S A := fun s => Some (Ret rc, s).

(** A pure step that may be undefined. *)
Definition lift {S A} (o : option A) : M S A := fun s => a ← o; Some (Val a, s).

Definition gets {S A} (f : S -> A) : M S A := fun s => Some (Val (f s), s).
Definition modify {S} (f : S -> S) : M S unit := fun s => Some (Val tt, f s).

(** A function body whose value is its result. *)
Definition fn {S} (m : M S Z) : M S Z := fun s =>
  match m s with
  | None => None
  | Some (Val rc, s') => Some (Val rc, s')
  | Some (Ret rc, s') => Some (Val rc, s')
  end.

(** A call whose early return is looked at by the caller. *)
Definition attempt {S A} (m : M S A) : M S (A + Z) := fun s =>
  match m s with
  | None => None
  | Some (Val a, s') => Some (Val (inl a), s')
  | Some (Ret rc, s') => Some (Val (inr rc), s')
  end.

(** [for (i = a; k rounds; i += step) body(i)] *)
Fixpoint for_loop {S} (k : nat) (i step : Z) (body : Z -> M S unit) : M S unit :=
  match k with
  | O => mret tt
  | S k' => body i ;; for_loop k' (i + step) step body
  end.

(** [while (true)] with a state [a]: the body yields the next state or the
    result of the loop.  At most [p] rounds are run; the recursion is on the
    binary digits of [p], so that bounds like 2^64 are affordable. *)
Fixpoint while_pos {S A B} (p : positive) (body : A -> M S (A + B)) (a : A) : M S (A + B) :=
  match p with
  | xH => body a
  | xO p' =>
      r ← while_pos p' body a;
      match r with inl a => while_pos p' body a | inr b => mret (inr b) end
  | xI p' =>
      r ← body a;
      match r with
      | inr b => mret (inr b)
      | inl a =>
          r ← while_pos p' body a;
          match r with inl a => while_pos p' body a | inr b => mret (inr b) end
      end
  end.

(** The loop with a result: running out of rounds is no behaviour at all. *)
Definition while_true {S A B} (p : positive) (body : A -> M S (A + B)) (a : A) : M S B :=
  r ← while_pos p body a;
  match r with inr b => mret b | inl _ => lift None end.

(** Run a component's operation on the part of the state that belongs to it. *)
Definition zoom {S T A} (get : S -> T) (set : T -> S -> S) (m : M T A) : M S A := fun s =>
  match m (get s) with
  | None => None
  | Some (o, t) => Some (o, set t s)
  end.

(** ** Running *)

Section Run.
Context {S A B : Type}.
Implicit Types (m : M S A) (k : A -> M S B) (s : S).

Lemma bind_val m k s s' a : m s = Some (Val a, s') -> (m ≫= k) s = k a s'.
Proof. unfold mbind, M_bind. by intros ->. Qed.

Lemma bind_exit m k s s' rc : m s = Some (Ret rc, s') -> (m ≫= k) s = Some (Ret rc, s').
Proof. unfold mbind, M_bind. by intros ->. Qed.

Lemma bind_ret (a : A) k s : (mret a ≫= k) s = k a s.
Proof. done. Qed.

Lemma bind_lift (o : option A) a k s : o = Some a -> (lift o ≫= k) s = k a s.
Proof. intros ->. done. Qed.

Lemma bind_gets (f : S -> A) k s : (gets f ≫= k) s = k (f s) s.
Proof. done. Qed.

Lemma bind_modify (f : S -> S) (k : unit -> M S B) s : (modify f ≫= k) s = k tt (f s).
Proof. done. Qed.

Lemma bind_ext m k (k' : A -> M S B) s : (forall a s', k a s' = k' a s') -> (m ≫= k) s = (m ≫= k') s.
Proof. intros H. unfold mbind, M_bind. by destruct (m s) as [[[a|rc] s']|]. Qed.

Lemma bind_eq m (m' : M S A) k s : m s = m' s -> (m ≫= k) s = (m' ≫= k) s.
Proof. intros H. unfold mbind, M_bind. by rewrite H. Qed.

Lemma bind_inv m k s r :
  (m ≫= k) s = Some r ->
  (exists a s', m s = Some (Val a, s') /\ k a s' = Some r) \/
  (exists rc s', m s = Some (Ret rc, s') /\ r = (Ret rc, s')).
Proof.
  unfold mbind, M_bind. destruct (m s) as [[[a|rc] s']|]; [|intros [= <-]|done].
  - intros. left. by exists a, s'.
  - right. by exists rc, s'.
Qed.

End Run.

(** A program that ends normally ran its first statement normally. *)
Lemma bind_val_inv {S A B} (m : M S A) (k : A -> M S B) s b s' :
  (m ≫= k) s = Some (Val b, s') ->
  exists a s1, m s = Some (Val a, s1) /\ k a s1 = Some (Val b, s').
Proof.
  intros [?|(rc & s1 & _ & ?)]%bind_inv; [done | discriminate].
Qed.

Lemma bind_assoc {S A B C} (m : M S A) (k : A -> M S B) (k' : B -> M S C) s :
  ((m ≫= k) ≫= k') s = (m ≫= fun a => k a ≫= k') s.
Proof. unfold mbind, M_bind. by destruct (m s) as [[[a|rc] s']|]. Qed.

Lemma fn_val {S} (m : M S Z) s s' rc : m s = Some (Val rc, s') -> fn m s = Some (Val rc, s').
Proof. unfold fn. by intros ->. Qed.

Lemma fn_exit {S} (m : M S Z) s s' rc : m s = Some (Ret rc, s') -> fn m s = Some (Val rc, s').
Proof. unfold fn. by intros ->. Qed.

(** Run the first statement of a program: [H] is its outcome, or the value of
    a pure step. *)
Ltac mrun H := rewrite (bind_val _ _ _ _ _ H).
Ltac mlift H := rewrite (bind_lift _ _ _ _ H).

(** Invert a run that ended normally: [minv H as pat] opens the first bind of
    [H]; [mcond H as E] decides a conditional whose other branch returns early. *)
Tactic Notation "minv" hyp(H) "as" simple_intropattern(pat) :=
  apply bind_val_inv in H; destruct H as pat.
Tactic Notation "mcond" hyp(H) "as" ident(E) :=
  match type of H with
  | (if ?b then _ else _) _ = _ => destruct b eqn:E; try discriminate H
  end.

(** Rounds of a loop that keep an invariant. *)
Lemma for_loop_inv {S} (I : Z -> S -> Prop) k step (body : Z -> M S unit) i s :
  (forall j s, (exists n : nat, j = i + Z.of_nat n * step /\ (n < k)%nat) -> I j s ->
     exists s', body j s = Some (Val tt, s') /\ I (j + step) s') ->
  I i s ->
  exists s', for_loop k i step body s = Some (Val tt, s') /\ I (i + Z.of_nat k * step) s'.
Proof.
  revert i s. induction k as [|k IH]; intros i s Hb Hi; cbn [for_loop].
  { exists s. split; [done|]. by replace (i + Z.of_nat 0 * step) with i by lia. }
  destruct (Hb i s) as (s1 & H1 & Hi1); [exists 0%nat; lia | done |].
  destruct (IH (i + step) s1) as (s2 & H2 & Hi2); [|done|].
  { intros j sj (n & -> & Hn) Hj. apply Hb; [exists (Datatypes.S n); lia | done]. }
  exists s2. erewrite bind_val by done. split; [done|].
  by replace (i + Z.of_nat (Datatypes.S k) * step) with (i + step + Z.of_nat k * step) by lia.
Qed.

(** The same, counting the rounds. *)
Lemma for_loop_count {S} (I : nat -> S -> Prop) k step (body : Z -> M S unit) i s :
  (forall m s, (m < k)%nat -> I m s ->
     exists s', body (i + Z.of_nat m * step) s = Some (Val tt, s') /\ I (Datatypes.S m) s') ->
  I 0%nat s -> exists s', for_loop k i step body s = Some (Val tt, s') /\ I k s'.
Proof.
  revert i s I. induction k as [|k IH]; intros i s I Hb Hi; cbn [for_loop]; [by exists s|].
  destruct (Hb 0%nat s) as (s1 & H1 & Hi1); [lia | done |]. rewrite Z.add_0_r in H1. mrun H1.
  apply (IH (i + step) s1 (fun m => I (Datatypes.S m))); [|done]. intros m s2 Hm Hi2.
  destruct (Hb (Datatypes.S m) s2) as (s3 & H3 & Hi3); [lia | done |]. exists s3. split; [|done].
  rewrite <- H3. f_equal. lia.
Qed.

(** A round that returns early ends the loop. *)
Lemma for_loop_exit {S} (I : nat -> S -> Prop) k m rc step (body : Z -> M S unit) i s s' :
  (m < k)%nat ->
  (forall j s, (j < m)%nat -> I j s ->
     exists s', body (i + Z.of_nat j * step) s = Some (Val tt, s') /\ I (Datatypes.S j) s') ->
  (forall s, I m s -> body (i + Z.of_nat m * step) s = Some (Ret rc, s')) ->
  I 0%nat s -> for_loop k i step body s = Some (Ret rc, s').
Proof.
  revert i s I k. induction m as [|m IH]; intros i s I k Hk Hb He Hi; (destruct k as [|k]; [lia|]); cbn [for_loop].
  - specialize (He s Hi). rewrite Z.add_0_r in He. by rewrite (bind_exit _ _ _ _ _ He).
  - destruct (Hb 0%nat s) as (s1 & H1 & Hi1); [lia | done |]. rewrite Z.add_0_r in H1. mrun H1.
    apply (IH (i + step) s1 (fun m => I (Datatypes.S m))); [lia | | | done].
    + intros j s2 Hj Hi2. destruct (Hb (Datatypes.S j) s2) as (s3 & H3 & Hi3); [lia | done |]. exists s3. split; [|done].
      rewrite <- H3. f_equal. lia.
    + intros s2 Hi2. rewrite <- (He s2 Hi2). f_equal. lia.
Qed.

(** ** Unbounded loops *)

Section While.
Context {S A B : Type}.
Implicit Types (body : A -> M S (A + B)) (s : S) (a : A).

Fixpoint while_nat (n : nat) body a : M S (A + B) :=
  match n with
  | O => mret (inl a)
  | Datatypes.S n' =>
      r ← body a;
      match r with inl a => while_nat n' body a | inr b => mret (inr b) end
  end.

Lemma while_nat_add n m body a s :
  while_nat (n + m) body a s =
  (r ← while_nat n body a; match r with inl a => while_nat m body a | inr b => mret (inr b) end) s.
Proof.
  revert a s. induction n as [|n IH]; intros a s; cbn [Nat.add while_nat]; [done|].
  unfold mbind, M_bind. destruct (body a s) as [[[[a'|b]|rc] s']|]; first [apply IH | done].
Qed.

Lemma while_pos_nat p body a s : while_pos p body a s = while_nat (Pos.to_nat p) body a s.
Proof.
  revert a s. induction p as [p IH|p IH|]; intros a s; cbn [while_pos].
  - rewrite Pos2Nat.inj_xI.
    replace (Datatypes.S (2 * Pos.to_nat p)) with (1 + (Pos.to_nat p + Pos.to_nat p))%nat by lia.
    cbn [Nat.add while_nat]. unfold mbind, M_bind.
    destruct (body a s) as [[[[a'|b]|rc] s']|]; try done.
    rewrite while_nat_add. unfold mbind, M_bind. rewrite IH.
    destruct (while_nat _ _ a' s') as [[[[a''|b]|rc] s'']|]; first [apply IH | done].
  - rewrite Pos2Nat.inj_xO.
    replace (2 * Pos.to_nat p)%nat with (Pos.to_nat p + Pos.to_nat p)%nat by lia.
    rewrite while_nat_add. unfold mbind, M_bind. rewrite IH.
    destruct (while_nat _ _ a s) as [[[[a''|b]|rc] s'']|]; first [apply IH | done].
  - change (Pos.to_nat 1) with 1%nat. cbn [while_nat]. unfold mbind, M_bind.
    by destruct (body a s) as [[[[a'|b]|rc] s']|].
Qed.

(** A loop whose variant [n] decreases ends with its postcondition [Q]. *)
Lemma while_true_inv (I : nat -> A -> S -> Prop) (Q : B -> S -> Prop) p body :
  (forall n a s, I n a s ->
     (exists b s', body a s = Some (Val (inr b), s') /\ Q b s') \/
     (exists m a' s', body a s = Some (Val (inl a'), s') /\ (m < n)%nat /\ I m a' s')) ->
  forall n a s, I n a s -> (n < Pos.to_nat p)%nat ->
  exists b s', while_true p body a s = Some (Val b, s') /\ Q b s'.
Proof.
  intros Hstep n a s Hi Hn. unfold while_true, mbind at 1, M_bind at 1. rewrite while_pos_nat.
  assert (forall k n a s, I n a s -> (n < k)%nat ->
    exists b s', while_nat k body a s = Some (Val (inr b), s') /\ Q b s') as Hk.
  { clear n a s Hi Hn. induction k as [|k IH]; intros n a s Hi Hn; [lia|]. cbn [while_nat].
    destruct (Hstep n a s Hi) as [(b & s' & E & Hq)|(m & a' & s' & E & Hm & Hi')];
      rewrite (bind_val _ _ _ _ _ E).
    - by exists b, s'.
    - apply (IH m); [done | lia]. }
  destruct (Hk _ n a s Hi Hn) as (b & s' & E & Hq). rewrite E. by exists b, s'.
Qed.

End While.

(** ** Programs that keep an invariant

    [safe I m Q]: from a state with [I] the program [m] runs to its end, without
    undefined behaviour, the invariant holds again, and a value it yields has
    [Q].  The rules follow the statements of the monad; [safe_step] applies them. *)

Definition safe {S A} (I : S -> Prop) (m : M S A) (Q : A -> Prop) : Prop :=
  forall s, I s -> exists o s', m s = Some (o, s') /\ I s' /\ match o with Val a => Q a | Ret _ => True end.

Section Rules.
Context {S : Type} (I : S -> Prop).

Lemma safe_ret {A} (a : A) (Q : A -> Prop) : Q a -> safe I (mret a) Q.
Proof. intros Hq s Hs. by exists (Val a), s. Qed.

Lemma safe_exit {A} rc (Q : A -> Prop) : safe I (exit rc) Q.
Proof. intros s Hs. by exists (Ret rc), s. Qed.

Lemma safe_conseq {A} (m : M S A) (P Q : A -> Prop) : safe I m P -> (forall a, P a -> Q a) -> safe I m Q.
Proof.
  intros Hm Hpq s Hs. destruct (Hm s Hs) as (o & s' & E & Hs' & Ho). exists o, s'. split_and!; try done.
  destruct o; [by apply Hpq | done].
Qed.

Lemma safe_bind {A B} (m : M S A) (k : A -> M S B) (P : A -> Prop) (Q : B -> Prop) :
  safe I m P -> (forall a, P a -> safe I (k a) Q) -> safe I (m ≫= k) Q.
Proof.
  intros Hm Hk s Hs. destruct (Hm s Hs) as ([a|rc] & s' & E & Hs' & Ho).
  - rewrite (bind_val _ _ _ _ _ E). by apply (Hk a Ho).
  - rewrite (bind_exit _ _ _ _ _ E). by exists (Ret rc), s'.
Qed.

Lemma safe_gets {A} (f : S -> A) (Q : A -> Prop) : (forall s, I s -> Q (f s)) -> safe I (gets f) Q.
Proof. intros Hf s Hs. exists (Val (f s)), s. split_and!; [done | done | by apply Hf]. Qed.

Lemma safe_lift {A} (o : option A) (Q : A -> Prop) : (exists a, o = Some a /\ Q a) -> safe I (lift o) Q.
Proof. intros (a & -> & Hq) s Hs. by exists (Val a), s. Qed.

Lemma safe_modify (f : S -> S) : (forall s, I s -> I (f s)) -> safe I (modify f) (fun _ => True).
Proof. intros Hf s Hs. exists (Val tt), (f s). split_and!; [done | by apply Hf | done]. Qed.

Lemma safe_if {A} (b : bool) (m1 m2 : M S A) Q :
  (b = true -> safe I m1 Q) -> (b = false -> safe I m2 Q) -> safe I (if b then m1 else m2) Q.
Proof. destruct b; auto. Qed.

Lemma safe_for_loop k i step (body : Z -> M S unit) :
  (forall j, safe I (body j) (fun _ => True)) -> safe I (for_loop k i step body) (fun _ => True).
Proof.
  intros Hb. revert i. induction k as [|k IH]; intros i; cbn [for_loop]; [by apply safe_ret|].
  apply (safe_bind _ _ (fun _ => True)); [apply Hb | intros _ _; apply IH].
Qed.

Lemma safe_attempt {A} (m : M S A) (Q : A -> Prop) :
  safe I m Q -> safe I (attempt m) (fun r => match r with inl a => Q a | inr _ => True end).
Proof.
  intros Hm s Hs. destruct (Hm s Hs) as ([a|rc] & s' & E & Hs' & Ho); unfold attempt; rewrite E;
    eexists (Val _), s'; done.
Qed.

(** A loop whose [measure] decreases. *)
Lemma safe_while {A B} (P : A -> Prop) (measure : A -> nat) (Q : B -> Prop) p (body : A -> M S (A + B)) a :
  (forall a, P a -> safe I (body a) (fun r =>
     match r with inl a' => P a' /\ (measure a' < measure a)%nat | inr b => Q b end)) ->
  P a -> (measure a < Pos.to_nat p)%nat -> safe I (while_true p body a) Q.
Proof.
  intros Hb Ha Hm. apply (safe_bind _ _ (fun r => match r with inl _ => False | inr b => Q b end)).
  2: { intros [?|b] Hq; [done | by apply safe_ret]. }
  assert (forall n a, P a -> (measure a < n)%nat ->
    safe I (while_nat n body a) (fun r => match r with inl _ => False | inr b => Q b end)) as Hn.
  { clear a Ha Hm. induction n as [|n IH]; intros a Ha Hlt; [lia|]. cbn [while_nat].
    eapply safe_bind; [by apply Hb|]. intros [a'|b] Hr; [|by apply safe_ret]. destruct Hr as [Ha' Hd]. apply IH; [done | lia]. }
  intros s Hs. rewrite while_pos_nat. by apply (Hn _ a).
Qed.

(** The program ends with a value, not with an early return. *)
Definition total {A} (m : M S A) (Q : A -> Prop) : Prop :=
  forall s, I s -> exists a s', m s = Some (Val a, s') /\ I s' /\ Q a.

Lemma total_safe {A} (m : M S A) (Q : A -> Prop) : total m Q -> safe I m Q.
Proof. intros Hm s Hs. destruct (Hm s Hs) as (a & s' & ? & ? & ?). by exists (Val a), s'. Qed.

Lemma total_ret {A} (a : A) (Q : A -> Prop) : Q a -> total (mret a) Q.
Proof. intros Hq s Hs. by exists a, s. Qed.

Lemma total_bind {A B} (m : M S A) (k : A -> M S B) (P : A -> Prop) (Q : B -> Prop) :
  total m P -> (forall a, P a -> total (k a) Q) -> total (m ≫= k) Q.
Proof.
  intros Hm Hk s Hs. destruct (Hm s Hs) as (a & s' & E & Hs' & Ha). rewrite (bind_val _ _ _ _ _ E). by apply (Hk a Ha).
Qed.

Lemma total_gets {A} (f : S -> A) (Q : A -> Prop) : (forall s, I s -> Q (f s)) -> total (gets f) Q.
Proof. intros Hf s Hs. exists (f s), s. split_and!; [done | done | by apply Hf]. Qed.

Lemma total_lift {A} (o : option A) (Q : A -> Prop) : (exists a, o = Some a /\ Q a) -> total (lift o) Q.
Proof. intros (a & -> & Hq) s Hs. by exists a, s. Qed.

Lemma total_modify (f : S -> S) : (forall s, I s -> I (f s)) -> total (modify f) (fun _ => True).
Proof. intros Hf s Hs. exists tt, (f s). split_and!; [done | by apply Hf | done]. Qed.

Lemma total_if {A} (b : bool) (m1 m2 : M S A) Q :
  (b = true -> total m1 Q) -> (b = false -> total m2 Q) -> total (if b then m1 else m2) Q.
Proof. destruct b; auto. Qed.

(** Any number of rounds of a loop that keeps [P]. *)
Lemma total_rounds {A B} (P : A -> Prop) (Q : B -> Prop) (body : A -> M S (A + B)) n a :
  (forall a, P a -> total (body a) (fun r => match r with inl a => P a | inr b => Q b end)) ->
  P a -> total (while_nat n body a) (fun r => match r with inl a => P a | inr b => Q b end).
Proof.
  intros Hb. revert a. induction n as [|n IH]; intros a Ha; cbn [while_nat]; [by apply total_ret|].
  eapply total_bind; [by apply Hb|]. intros [a'|b] Hr; [by apply IH | by apply total_ret].
Qed.

Lemma total_fn (m : M S Z) : safe I m (fun _ => True) -> total (fn m) (fun _ => True).
Proof.
  intros Hm s Hs. destruct (Hm s Hs) as ([a|rc] & s' & E & Hs' & _); eexists _, s';
    (split; [first [exact (fn_val _ _ _ _ E) | exact (fn_exit _ _ _ _ E)] | done]).
Qed.

End Rules.

(** An operation on a part of the state. *)
Lemma safe_zoom {S T A} (I : S -> Prop) (J : T -> Prop) (get : S -> T) (set : T -> S -> S) (m : M T A) (Q : A -> Prop) :
  (forall s, I s -> J (get s)) -> (forall s t, I s -> J t -> I (set t s)) -> safe J m Q -> safe I (zoom get set m) Q.
Proof.
  intros Hg Hst Hm s Hs. destruct (Hm (get s) (Hg s Hs)) as (o & t & E & Ht & Ho). unfold zoom. rewrite E.
  exists o, (set t s). split_and!; [done | by apply Hst | done].
Qed.

Create HintDb safe.
#[export] Hint Resolve safe_exit total_safe total_fn : safe.

(** One rule, chosen by the first statement of the program; what is known of an
    operation comes from the hints. *)
Ltac safe_step :=
  lazymatch goal with
  | |- total _ (fn _) _ => apply total_fn
  | |- safe _ (mret _) _ => apply safe_ret
  | |- safe _ (exit _) _ => apply safe_exit
  | |- safe _ (fn _) _ => apply total_safe, total_fn
  | |- safe _ (?m ≫= _) _ =>
      first [eapply safe_bind; [solve [eauto with safe]|let a := fresh "a" in let Ha := fresh "Ha" in intros a Ha; cbv beta in Ha]
            | match m with
              | (if _ then _ else _) => apply (safe_bind _ _ _ (fun _ => True)); [|intros ? _]
              | match _ with _ => _ end => apply (safe_bind _ _ _ (fun _ => True)); [|intros ? _]
              end]
  | |- safe _ (if ?b then _ else _) _ => first [apply safe_if; intros ? | destruct b eqn:?]
  | |- safe _ (match ?x with _ => _ end) _ => destruct x eqn:?
  | |- safe _ _ _ => solve [eauto with safe | eapply safe_conseq; [solve [eauto with safe] | by intros]]
  | |- True => exact I
  end.

(** The same for programs without an early return. *)
Create HintDb total.

Ltac total_step :=
  lazymatch goal with
  | |- total _ (mret _) _ => apply total_ret; try exact I
  | |- total _ (?m ≫= _) _ =>
      first [eapply total_bind; [solve [eauto with total]|let a := fresh "a" in let Ha := fresh "Ha" in intros a Ha; cbv beta in Ha]
            | match m with
              | (if _ then _ else _) => apply (total_bind _ _ _ (fun _ => True)); [|intros ? _]
              end]
  | |- total _ (if _ then _ else _) _ => apply total_if; intros ?
  | |- total _ _ _ => solve [eauto with total]
  end.
