(* ===== verification/Disk.v ===== *)
(** * What the disk driver promises to the file system

    The entry points of helper/drivers/filesystem/disk.h that exfat.c and vfs.c
    use.  A read yields the 512 bytes when the driver returns 0 and [None] when
    it returns an error (no caller looks at the buffer of a failed read).
    [LawfulDisk] is the behaviour of a drive without I/O errors: [image] maps
    the addresses of the selected drive to their sectors.  [MemDisk] is an
    in-memory instance; Ata.v relates the driver of ata.c to it. *)

From S2P Require Import Prelude.

Definition SECTOR : Z := 512.

Class BlockDevice (D : Type) := {
  ata_current_drive : D -> Z;
  ata_drive_sector_count : D -> Z -> Z;
  ata_drive_present : D -> Z -> bool;
  ata_select_drive : D -> Z -> Z * D;
  ata_probe_devices : D -> D;
  ata_read_sector : D -> Z -> Z -> option bytes * D;
  ata_write_sector : D -> Z -> Z -> bytes -> Z * D;
}.

Definition is_sector (b : bytes) : Prop := zlen b = SECTOR /\ is_bytes b.

Class LawfulDisk (D : Type) `{BlockDevice D} := {
  image : D -> Z -> option bytes;
  law_sector d lba b : image d lba = Some b -> is_sector b;
  law_disk_read d lba b :
    image d lba = Some b -> ata_read_sector d (ata_current_drive d) lba = (Some b, d);
  law_disk_write d lba b b' :
    image d lba = Some b -> is_sector b' ->
    exists d', ata_write_sector d (ata_current_drive d) lba b' = (0, d') /\
      ata_current_drive d' = ata_current_drive d /\
      (forall drive, ata_drive_sector_count d' drive = ata_drive_sector_count d drive) /\
      forall x, image d' x = if x =? lba then Some b' else image d x;
}.

(** ** A disk in memory *)

Module MemDisk.

(** Two drives; [sectors] holds what was written, the other sectors of a drive
    are zero. *)
Record t := mk { drive : Z; capacity : Z -> Z; sectors : gmap (Z * Z) bytes }.

Definition read (d : t) (dr lba : Z) : option bytes * t :=
  if (0 <=? lba) && (lba <? capacity d dr)
  then (Some (default (zeros 512) (sectors d !! (dr, lba))), d) else (None, d).

Definition write (d : t) (dr lba : Z) (b : bytes) : Z * t :=
  if (0 <=? lba) && (lba <? capacity d dr)
  then (0, mk (drive d) (capacity d) (<[(dr, lba) := b]> (sectors d))) else (-1, d).

#[global] Instance device : BlockDevice t := {
  ata_current_drive := drive;
  ata_drive_sector_count := capacity;
  ata_drive_present d dr := 0 <? capacity d dr;
  ata_select_drive d dr :=
    if (0 <=? dr) && (dr <? 2) then (0, mk dr (capacity d) (sectors d)) else (-1, d);
  ata_probe_devices d := mk 0 (capacity d) (sectors d);
  ata_read_sector := read;
  ata_write_sector := write;
}.

Definition blank (n : Z) : t := mk 0 (fun dr => if dr =? 0 then n else 0) ∅.

#[global] Instance is_sector_dec b : Decision (is_sector b).
Proof. unfold is_sector, is_bytes, is_u8. apply _. Defined.

Definition image_of (d : t) (lba : Z) : option bytes :=
  match read d (drive d) lba with
  | (Some b, _) => if bool_decide (is_sector b) then Some b else None
  | _ => None
  end.

#[global] Instance lawful : LawfulDisk t.
Proof.
  refine {| image := image_of |}.
  - intros d lba b. unfold image_of. destruct (read _ _ _) as [[b'|] _]; [|done].
    case_bool_decide; [|done]. by intros [= <-].
  - intros d lba b. cbn. unfold image_of. destruct (read d (drive d) lba) as [[b'|] d'] eqn:E; [|done].
    case_bool_decide; [|done]. intros [= ->]. unfold read in E. destruct (_ && _); by simplify_eq.
  - intros d lba b b' Hi Hb. unfold image_of, read in Hi. cbn. unfold write.
    destruct ((0 <=? lba) && (lba <? capacity d (drive d))) eqn:E; [|done].
    eexists. split; [done|]. cbn. split; [done|]. split; [done|]. intros x. unfold image_of, read. cbn.
    destruct (Z.eqb_spec x lba) as [->|Hne].
    + rewrite E, lookup_insert_eq. cbn. by rewrite bool_decide_eq_true_2.
    + rewrite lookup_insert_ne by congruence. by destruct ((0 <=? x) && _).
Defined.

End MemDisk.

