(* ===== verification/Exfat.v ===== *)
(** * The exFAT driver (helper/drivers/filesystem/exfat.c): data and operations

    The file-scope variables and the disk are the state [exfat]; each C function
    is a program of the monad [Fs].  Sector and cluster buffers on the stack are
    byte lists of their C size; an access outside one of them is undefined
    behaviour.  Sums of a cluster address and a sector index stay below 2^64
    (the address is below 2^63 + 2^32, the index below 2^55), so they are written
    without a wrap.  Log messages are not modelled.  A pointer a function tests for
    NULL is an [option]. *)

From S2P Require Import Prelude CMonad Disk CString.

Definition EXFAT_PARTITION_LBA : Z := 4096.
Definition FS_BASE_LBA : Z := 4096.
Definition EXFAT_MAX_BITMAP_CLUSTERS : Z := 32768.
Definition EXFAT_MAX_TOTAL_SECTORS : Z := 2048 + EXFAT_MAX_BITMAP_CLUSTERS * 8.
Definition EXFAT_MIN_TOTAL_SECTORS : Z := 4096.
Definition EXFAT_TYPE_BITMAP : Z := 0x81.
Definition EXFAT_TYPE_UPCASE : Z := 0x82.
Definition EXFAT_TYPE_FILE : Z := 0x85.
Definition EXFAT_TYPE_STREAM : Z := 0xC0.
Definition EXFAT_TYPE_NAME : Z := 0xC1.

(** Offsets of the fields of [exfat_header_t]. *)
Module Vbr.
Definition fs_name : Z := 3.
Definition partition_offset : Z := 64.
Definition volume_length : Z := 72.
Definition fat_offset : Z := 80.
Definition fat_length : Z := 84.
Definition cluster_heap_offset : Z := 88.
Definition cluster_count : Z := 92.
Definition root_dir_cluster : Z := 96.
Definition volume_serial : Z := 100.
Definition fs_revision : Z := 104.
Definition bytes_per_sector_shift : Z := 108.
Definition sectors_per_cluster_shift : Z := 109.
Definition num_fats : Z := 110.
Definition drive_select : Z := 111.
Definition boot_signature : Z := 510.
End Vbr.

(** Offsets in [exfat_dentry_file_t], [exfat_dentry_stream_t] and
    [exfat_dentry_name_t]. *)
Module Dentry.
Definition entry_type : Z := 0.
Definition secondary_count : Z := 1.
Definition set_checksum : Z := 2.
Definition file_attributes : Z := 4.
Definition flags : Z := 1.
Definition name_length : Z := 3.
Definition name_hash : Z := 4.
Definition valid_data_length : Z := 8.
Definition first_cluster : Z := 20.
Definition data_length : Z := 24.
Definition unicode_name : Z := 2.
End Dentry.

Record exfat_target_t := Target {
  t_cluster : Z;
  t_size : Z;
  t_is_dir : bool;
  t_entry_lba : Z;
  t_entry_offset : Z;
}.

Record exfat (D : Type) := EX {
  g_current_cluster : Z;
  g_current_path : bytes;
  g_cluster_heap_offset : Z;
  g_sectors_per_cluster : Z;
  g_root_cluster : Z;
  g_cluster_count : Z;
  g_dev : D;
}.
Arguments EX {D}.
Arguments g_current_cluster {D}.
Arguments g_current_path {D}.
Arguments g_cluster_heap_offset {D}.
Arguments g_sectors_per_cluster {D}.
Arguments g_root_cluster {D}.
Arguments g_cluster_count {D}.
Arguments g_dev {D}.

Definition with_dev {D} (d : D) (s : exfat D) : exfat D :=
  EX (g_current_cluster s) (g_current_path s) (g_cluster_heap_offset s)
     (g_sectors_per_cluster s) (g_root_cluster s) (g_cluster_count s) d.

Definition with_cwd {D} (cluster : Z) (path : bytes) (s : exfat D) : exfat D :=
  EX cluster path (g_cluster_heap_offset s)
     (g_sectors_per_cluster s) (g_root_cluster s) (g_cluster_count s) (g_dev s).

Definition with_cluster {D} (cluster : Z) (s : exfat D) : exfat D :=
  with_cwd cluster (g_current_path s) s.

(** The initial values of the file-scope variables. *)
Definition exfat_init {D} (d : D) : exfat D :=
  EX 4 (lit "/" ++ zeros 255) 2048 8 4 ((2097152 - 2048) / 8) d.

(** Several fields stored into one buffer. *)
Fixpoint put_fields (b : bytes) (l : list (nat * Z * Z)) : option bytes :=
  match l with
  | [] => Some b
  | (n, off, v) :: l' => b ← st n b off v; put_fields b l'
  end.

(** ** Checksums *)

(** [i] is the index of the head of [sector]. *)
Fixpoint exfat_calc_boot_crc (sector : bytes) (i : Z) (crc : Z) (is_vbr : bool) : Z :=
  match sector with
  | [] => crc
  | b :: sector' =>
      exfat_calc_boot_crc sector' (i + 1)
        (if is_vbr && ((i =? 106) || (i =? 107) || (i =? 112)) then crc
         else u32 ((if Z.land crc 1 =? 0 then 0 else 0x80000000) + Z.shiftr crc 1 + b))
        is_vbr
  end.

Fixpoint entry_crc_loop (entries : bytes) (i crc : Z) : Z :=
  match entries with
  | [] => crc
  | b :: entries' =>
      entry_crc_loop entries' (i + 1)
        (if (i =? 2) || (i =? 3) then crc
         else u16 ((if Z.land crc 1 =? 0 then 0 else 0x8000) + Z.shiftr crc 1 + b))
  end.

(** The entry set of [count] entries at [off] of [buf]. *)
Definition exfat_calc_entry_crc (buf : bytes) (off count : Z) : option Z :=
  entries ← slice buf off (u8 count * 32);
  Some (entry_crc_loop entries 0 0).

Definition hash_step (hash byte : Z) : Z :=
  u16 ((if Z.land hash 1 =? 0 then 0 else 0x8000) + Z.shiftr hash 1 + byte).

Fixpoint exfat_calc_name_hash (name : list Z) (hash : Z) : Z :=
  match name with
  | [] => hash
  | ch :: name' =>
      let ch := if (97 <=? ch) && (ch <=? 122) then ch - 32 else ch in
      let hash := hash_step hash (Z.land ch 255) in
      exfat_calc_name_hash name' (hash_step hash (Z.land (Z.shiftr ch 8) 255))
  end.

(** ** Names *)

Definition to_lower (c : Z) : Z := if (65 <=? c) && (c <=? 90) then c + 32 else c.

Fixpoint exfat_name_equal (left right : bytes) : option bool :=
  match left, right with
  | l :: left', r :: right' =>
      if (l =? 0) || (r =? 0) then Some ((l =? 0) && (r =? 0))
      else if to_lower l =? to_lower r then exfat_name_equal left' right' else Some false
  | _, _ => None
  end.

(** The characters of one name entry, appended to what [name_buf] holds. *)
Fixpoint name_entry_chars (k : nat) (buf : bytes) (off : Z) (name : bytes) : option bytes :=
  match k with
  | O => Some name
  | S k' =>
      ch ← ld 2 buf off;
      if ch =? 0 then Some name
      else name_entry_chars k' buf (off + 2) (if zlen name <? 255 then name ++ [u8 ch] else name)
  end.

(** [for (sec = 2; sec <= secondary_count; sec++)]: [name_buf] up to the last
    character stored; the array is zero after it. *)
Fixpoint entry_name_loop (k : nat) (buf : bytes) (i sec : Z) (name : bytes) : option bytes :=
  match k with
  | O => Some name
  | S k' =>
      if 4096 <=? i + sec * 32 then Some name
      else
        ty ← rd buf (i + sec * 32);
        name ← (if ty =? EXFAT_TYPE_NAME
                then name_entry_chars 15 buf (i + sec * 32 + Dentry.unicode_name) name
                else Some name);
        entry_name_loop k' buf i (sec + 1) name
  end.

Definition entry_name (buf : bytes) (i secondary_count : Z) : option bytes :=
  entry_name_loop (Z.to_nat (secondary_count - 1)) buf i 2 [].

Section Driver.
Context {D : Type} `{BlockDevice D}.

Abbreviation Fs := (M (exfat D)).

Definition exfat_cluster_lba (s : exfat D) (cluster : Z) : Z :=
  u64 (u32 (EXFAT_PARTITION_LBA + g_cluster_heap_offset s) +
       u64 (u32 (cluster - 2) * g_sectors_per_cluster s)).

(** The sector on success, [None] when the read failed. *)
Definition exfat_sector_read (lba : Z) : Fs (option bytes) := fun s =>
  if 2 ^ 48 <=? lba then Some (Val None, s)
  else
    let '(r, d) := ata_read_sector (g_dev s) (ata_current_drive (g_dev s)) lba in
    Some (Val r, with_dev d s).

Definition exfat_sector_write (lba : Z) (buffer : bytes) : Fs Z := fun s =>
  if 2 ^ 48 <=? lba then Some (Val (-1), s)
  else
    let '(rc, d) := ata_write_sector (g_dev s) (ata_current_drive (g_dev s)) lba buffer in
    Some (Val rc, with_dev d s).

(** [if (exfat_sector_read(lba, buf) != 0) return rc;] *)
Definition read_or (rc lba : Z) : Fs bytes :=
  r ← exfat_sector_read lba;
  match r with
  | Some b => mret b
  | None => exit rc
  end.

(** [if (exfat_sector_write(lba, buf) != 0) return rc;] *)
Definition write_or (rc lba : Z) (b : bytes) : Fs unit :=
  r ← exfat_sector_write lba b;
  if negb (r =? 0) then exit rc else mret tt.

(** ** The allocation bitmap *)

Definition bit_is_set (sector : bytes) (bit : Z) : option bool :=
  b ← rd sector (bit / 8);
  Some (negb (Z.land b (Z.shiftl 1 (bit mod 8)) =? 0)).

Definition set_bit (sector : bytes) (bit : Z) : option bytes :=
  b ← rd sector (bit / 8);
  wr sector (bit / 8) (u8 (Z.lor b (Z.shiftl 1 (bit mod 8)))).

Definition clear_bit (sector : bytes) (bit : Z) : option bytes :=
  b ← rd sector (bit / 8);
  wr sector (bit / 8) (u8 (Z.land b (Z.lnot (Z.shiftl 1 (bit mod 8))))).

(** Set the bit of cluster index [i], as the marking loop does. *)
Definition mark_cluster (base i : Z) : Fs unit :=
  sec_buf ← read_or 0 (base + i / 4096);
  sec_buf ← lift (set_bit sec_buf (i mod 4096));
  write_or 0 (base + i / 4096) sec_buf.

(** One bitmap sector: returns [consecutive] and [start_cluster], or leaves the
    function once a run is long enough. *)
Fixpoint scan_bits (k : nat) (sector : bytes) (base s bit total count consecutive start : Z)
  : Fs (Z * Z) :=
  match k with
  | O => mret (consecutive, start)
  | S k' =>
      let current_idx := s * 4096 + bit in
      if total <=? current_idx then mret (consecutive, start)
      else
        used ← lift (bit_is_set sector bit);
        if (used : bool)
        then scan_bits k' sector base s (bit + 1) total count 0 start
        else
          let start := if consecutive =? 0 then current_idx else start in
          let consecutive := consecutive + 1 in
          if consecutive =? count
          then for_loop (Z.to_nat count) start 1 (mark_cluster base);; exit (u32 (start + 2))
          else scan_bits k' sector base s (bit + 1) total count consecutive start
  end.

Fixpoint scan_sectors (k : nat) (base s total count consecutive start : Z) : Fs unit :=
  match k with
  | O => mret tt
  | S k' =>
      sector ← read_or 0 (base + s);
      '(consecutive, start) ← scan_bits 4096 sector base s 0 total count consecutive start;
      scan_sectors k' base (s + 1) total count consecutive start
  end.

(** The first cluster of a run of [count] clusters, or 0. *)
Definition exfat_alloc_blocks (count : Z) : Fs Z := fn (
  if count =? 0 then mret 0
  else
    base ← gets (fun s => exfat_cluster_lba s 2);
    total ← gets g_cluster_count;
    scan_sectors (Z.to_nat (u32 (total + 4095) / 4096)) base 0 total count 0 0;;
    mret 0).

Definition exfat_alloc_block : Fs Z := exfat_alloc_blocks 1.

(** A failed read skips the cluster, a failed write is ignored. *)
Definition free_cluster (base i : Z) : Fs unit :=
  r ← exfat_sector_read (base + i / 4096);
  match r with
  | None => mret tt
  | Some sector =>
      sector ← lift (clear_bit sector (i mod 4096));
      exfat_sector_write (base + i / 4096) sector;;
      mret tt
  end.

Definition exfat_free_blocks (cluster count : Z) : Fs unit :=
  if (cluster <? 2) || (count =? 0) then mret tt
  else
    base ← gets (fun s => exfat_cluster_lba s 2);
    let start_idx := cluster - 2 in
    for_loop (Z.to_nat (u32 (start_idx + count) - start_idx)) start_idx 1 (free_cluster base).

Definition exfat_free_block (cluster : Z) : Fs unit := exfat_free_blocks cluster 1.

(** ** Looking up a name *)

(** [k] sectors from [lba] on, into consecutive parts of a buffer. *)
Fixpoint read_sectors (k : nat) (lba : Z) : Fs bytes :=
  match k with
  | O => mret []
  | S k' => b ← read_or (-1) lba; rest ← read_sectors k' (lba + 1); mret (b ++ rest)
  end.

(** The entry at [i] of the directory, once it is the one looked for. *)
Definition target_at (cluster_buf : bytes) (base_lba i : Z) : option exfat_target_t :=
  first ← ld 4 cluster_buf (i + 32 + Dentry.first_cluster);
  len ← ld 8 cluster_buf (i + 32 + Dentry.data_length);
  attr ← ld 2 cluster_buf (i + Dentry.file_attributes);
  Some (Target first len (negb (Z.land attr 0x10 =? 0)) (base_lba + i / 512) (i mod 512)).

(** [for (i = 0; i <= 4096 - 96; i += 32)]; 126 rounds and
    the final test are enough. *)
Fixpoint resolve_loop (fuel : nat) (cluster_buf target_name : bytes) (base_lba i : Z)
  : option (option exfat_target_t) :=
  match fuel with
  | O => None
  | S fuel' =>
      if 4096 - 96 <? i then Some None
      else
        ty ← rd cluster_buf i;
        if negb (ty =? EXFAT_TYPE_FILE)
        then resolve_loop fuel' cluster_buf target_name base_lba (i + 32)
        else
          count ← rd cluster_buf (i + Dentry.secondary_count);
          name ← entry_name cluster_buf i count;
          found ← exfat_name_equal (name ++ [0]) target_name;
          if (found : bool) then t ← target_at cluster_buf base_lba i; Some (Some t)
          else resolve_loop fuel' cluster_buf target_name base_lba (i + count * 32 + 32)
  end.

Definition resolve_fuel : nat := 127.

(** [None] is the result -1. *)
Definition exfat_resolve_entry (target_name : bytes) : Fs (option exfat_target_t) := fun s =>
  let base_lba := exfat_cluster_lba s (g_current_cluster s) in
  match read_sectors 8 base_lba s with
  | None => None
  | Some (Ret _, s) => Some (Val None, s)
  | Some (Val cluster_buf, s) =>
      t ← resolve_loop resolve_fuel cluster_buf target_name base_lba 0;
      Some (Val t, s)
  end.

(** [if (exfat_resolve_entry(name, &target) != 0) return -1;] *)
Definition resolve_or (name : bytes) : Fs exfat_target_t :=
  t ← exfat_resolve_entry name;
  match t with
  | Some t => mret t
  | None => exit (-1)
  end.

Definition exfat_get_info (name : option bytes) : Fs (option (Z * bool)) :=
  match name with
  | None => mret None
  | Some name =>
      t ← exfat_resolve_entry name;
      mret ((fun t => (t_size t, t_is_dir t)) <$> t)
  end.

(** ** Mounting and formatting *)

Definition fs_label : bytes := lit "EXFAT   ".

Definition exfat_mount : Fs Z := fn (
  sector ← read_or (-1) EXFAT_PARTITION_LBA;
  name ← lift (slice sector Vbr.fs_name 8);
  if negb (bool_decide (name = fs_label)) then exit 0
  else
    bps ← lift (ld 1 sector Vbr.bytes_per_sector_shift);
    spc ← lift (ld 1 sector Vbr.sectors_per_cluster_shift);
    heap ← lift (ld 4 sector Vbr.cluster_heap_offset);
    root ← lift (ld 4 sector Vbr.root_dir_cluster);
    count ← lift (ld 4 sector Vbr.cluster_count);
    if negb (bps =? 9) || (32 <=? spc) || (heap =? 0) || (root <? 2) || (count =? 0)
    then exit (-1)
    else
      path ← gets g_current_path;
      path ← lift (str_strcpy path (lit "/" ++ [0]));
      modify (fun s =>
        EX root path heap (2 ^ spc) root
           (if EXFAT_MAX_BITMAP_CLUSTERS <? count then EXFAT_MAX_BITMAP_CLUSTERS else count)
           (g_dev s));;
      mret 1).

Definition exfat_upcase_default : bytes :=
  [0x61; 0x00; 0x00; 0x00; 0x1A; 0x00; 0x41; 0x00] ++ zeros 120.

Definition vbr_sector (total_sectors fat_len heap_offset cluster_cnt : Z) : option bytes :=
  b ← blit (zeros 512) 0 [0xEB; 0x76; 0x90];
  b ← blit b Vbr.fs_name fs_label;
  put_fields b [
    (8%nat, Vbr.partition_offset, EXFAT_PARTITION_LBA);
    (8%nat, Vbr.volume_length, total_sectors);
    (4%nat, Vbr.fat_offset, 128);
    (4%nat, Vbr.fat_length, fat_len);
    (4%nat, Vbr.cluster_heap_offset, heap_offset);
    (4%nat, Vbr.cluster_count, cluster_cnt);
    (4%nat, Vbr.root_dir_cluster, 4);
    (4%nat, Vbr.volume_serial, 0x87654321);
    (2%nat, Vbr.fs_revision, 0x0100);
    (1%nat, Vbr.bytes_per_sector_shift, 9);
    (1%nat, Vbr.sectors_per_cluster_shift, 3);
    (1%nat, Vbr.num_fats, 1);
    (1%nat, Vbr.drive_select, 0x80);
    (2%nat, Vbr.boot_signature, 0xAA55)].

(** The main and the backup copies of sectors 1 to 10 of the boot region. *)
Fixpoint write_boot_region (k : nat) (i crc : Z) : Fs Z :=
  match k with
  | O => mret crc
  | S k' =>
      let crc := exfat_calc_boot_crc (zeros 512) 0 crc false in
      write_or (-1) (EXFAT_PARTITION_LBA + i) (zeros 512);;
      write_or (-1) (EXFAT_PARTITION_LBA + 12 + i) (zeros 512);;
      write_boot_region k' (i + 1) crc
  end.

Definition fat_sector : option bytes :=
  put_fields (zeros 512)
    [(4%nat, 0, 0xFFFFFFF8); (4%nat, 4, 0xFFFFFFFF); (4%nat, 8, 0xFFFFFFFF);
     (4%nat, 12, 0xFFFFFFFF); (4%nat, 16, 0xFFFFFFFF)].

Definition write_bitmap_sector (heap_offset i : Z) : Fs unit :=
  sector ← lift (if i =? 0 then wr (zeros 512) 0 0x07 else Some (zeros 512));
  write_or (-1) (EXFAT_PARTITION_LBA + heap_offset + i) sector.

Definition root_sector (cluster_cnt : Z) : option bytes :=
  put_fields (zeros 512)
    [(1%nat, 0, EXFAT_TYPE_BITMAP); (4%nat, 20, 2); (8%nat, 24, (cluster_cnt + 7) / 8);
     (1%nat, 32, EXFAT_TYPE_UPCASE); (4%nat, 36, 0xE6163351); (4%nat, 52, 3);
     (8%nat, 56, 128)].

Definition exfat_wipe_and_format : Fs Z := fn (
  drive_sector_count ← gets (fun s => ata_drive_sector_count (g_dev s) (ata_current_drive (g_dev s)));
  if drive_sector_count <=? EXFAT_PARTITION_LBA then exit (-1) else
  let available_sectors := drive_sector_count - EXFAT_PARTITION_LBA in
  if available_sectors <? EXFAT_MIN_TOTAL_SECTORS then exit (-1) else
  let total_sectors :=
    if EXFAT_MAX_TOTAL_SECTORS <? available_sectors then EXFAT_MAX_TOTAL_SECTORS
    else available_sectors in
  let heap_offset := 2048 in
  let cluster_cnt := (total_sectors - heap_offset) / 8 in
  let fat_len := ((cluster_cnt + 2) * 4 + 511) / 512 in
  vbr ← lift (vbr_sector total_sectors fat_len heap_offset cluster_cnt);
  let crc := exfat_calc_boot_crc vbr 0 0 true in
  write_or (-1) (EXFAT_PARTITION_LBA + 0) vbr;;
  write_or (-1) (EXFAT_PARTITION_LBA + 12) vbr;;
  crc ← write_boot_region 10 1 crc;
  let crc_table := concat (replicate 128 (le_bytes 4 crc)) in
  write_or (-1) (EXFAT_PARTITION_LBA + 11) crc_table;;
  write_or (-1) (EXFAT_PARTITION_LBA + 23) crc_table;;
  fat ← lift fat_sector;
  write_or (-1) (EXFAT_PARTITION_LBA + 128) fat;;
  let bitmap_sectors := (cluster_cnt + 4095) / 4096 in
  for_loop (Z.to_nat bitmap_sectors) 0 1 (write_bitmap_sector heap_offset);;
  upcase ← lift (blit (zeros 512) 0 exfat_upcase_default);
  write_or (-1) (EXFAT_PARTITION_LBA + heap_offset + 8) upcase;;
  root ← lift (root_sector cluster_cnt);
  write_or (-1) (EXFAT_PARTITION_LBA + heap_offset + 16) root;;
  path ← gets g_current_path;
  path ← lift (str_strcpy path (lit "/" ++ [0]));
  modify (fun s => EX 4 path (g_cluster_heap_offset s) (g_sectors_per_cluster s)
                      (g_root_cluster s) cluster_cnt (g_dev s));;
  mret 0).

(** ** Creating a node *)

(** The entries of the [k] * 32 bytes from [pos] on are all unused. *)
Fixpoint slot_fits (k : nat) (cluster_buf : bytes) (pos : Z) : option bool :=
  match k with
  | O => Some true
  | S k' =>
      type ← rd cluster_buf pos;
      if negb (Z.land type 0x80 =? 0) && negb (type =? 0) then Some false
      else slot_fits k' cluster_buf (pos + 32)
  end.

(** [for (i = 0; i <= 4096 - needed_bytes; i += 32)]; -1 when no slot fits. *)
Fixpoint find_slot (fuel : nat) (total_entries : nat) (cluster_buf : bytes) (i : Z) : option Z :=
  match fuel with
  | O => None
  | S fuel' =>
      if 4096 - Z.of_nat total_entries * 32 <? i then Some (-1)
      else
        fits ← slot_fits total_entries cluster_buf i;
        if (fits : bool) then Some i else find_slot fuel' total_entries cluster_buf (i + 32)
  end.

Definition slot_fuel : nat := 129.

(** [(uint16_t)name[i]] of a signed [char]. *)
Definition widen (c : Z) : Z := if c <? 128 then c else c + 0xFF00.

(** The name entries of an entry set, of up to 15 characters each. *)
Fixpoint put_names (k : nat) (buf : bytes) (off : Z) (chars : list Z) : option bytes :=
  match k with
  | O => Some buf
  | S k' =>
      buf ← wr buf off EXFAT_TYPE_NAME;
      buf ← blit buf (off + Dentry.unicode_name) (concat (map (le_bytes 2) (take 15 chars)));
      put_names k' buf (off + 32) (drop 15 chars)
  end.

(** The entry set of a new node, stored at [slot]. *)
Definition put_entry_set (cluster_buf : bytes) (slot name_entries : Z) (chars : list Z)
    (is_dir : bool) (new_cluster : Z) : option bytes :=
  let secondary_count := 1 + name_entries in
  buf ← blit cluster_buf slot (zeros (Z.to_nat ((1 + secondary_count) * 32)));
  buf ← put_fields buf [
    (1%nat, slot + Dentry.entry_type, EXFAT_TYPE_FILE);
    (1%nat, slot + Dentry.secondary_count, secondary_count);
    (2%nat, slot + Dentry.file_attributes, if is_dir then 0x10 else 0x20);
    (1%nat, slot + 32 + Dentry.entry_type, EXFAT_TYPE_STREAM);
    (1%nat, slot + 32 + Dentry.flags, 0x03);
    (1%nat, slot + 32 + Dentry.name_length, zlen chars);
    (4%nat, slot + 32 + Dentry.first_cluster, new_cluster);
    (2%nat, slot + 32 + Dentry.name_hash, exfat_calc_name_hash chars 0)];
  buf ← put_names (Z.to_nat name_entries) buf (slot + 64) chars;
  crc ← exfat_calc_entry_crc buf slot (secondary_count + 1);
  st 2 buf (slot + Dentry.set_checksum) crc.

(** [if (exfat_sector_write(base_lba + s, cluster_buf + s * 512) != 0) return -1;] *)
Definition write_part (base_lba : Z) (cluster_buf : bytes) (s : Z) : Fs unit :=
  b ← lift (slice cluster_buf (s * 512) 512);
  write_or (-1) (base_lba + s) b.

(** [if (is_dir)]: the eight sectors of the new cluster are zeroed. *)
Definition zero_dir (is_dir : bool) (new_cluster : Z) : Fs unit :=
  if is_dir then
    dir_lba ← gets (fun s => exfat_cluster_lba s new_cluster);
    for_loop 8 0 1 (fun k => write_or (-1) (dir_lba + k) (zeros 512))
  else mret tt.

Definition exfat_create_node (name : option bytes) (is_dir : bool) : Fs Z := fn (
  match name with
  | None => exit (-1)
  | Some name =>
      c0 ← lift (rd name 0);
      if c0 =? 0 then exit (-1) else
      base_lba ← gets (fun s => exfat_cluster_lba s (g_current_cluster s));
      cluster_buf ← read_sectors 8 base_lba;
      len ← lift (strlen_loop name);
      let len := u32 len in
      let len := if 255 <? len then 255 else len in
      let name_entries := (len + 14) / 15 in
      let secondary_count := 1 + name_entries in
      let total_entries := 1 + secondary_count in
      let needed_bytes := total_entries * 32 in
      slot ← lift (find_slot slot_fuel (Z.to_nat total_entries) cluster_buf 0);
      if slot =? -1 then exit (-1) else
      new_cluster ← exfat_alloc_block;
      if new_cluster =? 0 then exit (-1) else
      zero_dir is_dir new_cluster;;
      chars ← lift (slice name 0 len);
      cluster_buf ← lift (put_entry_set cluster_buf slot name_entries (map widen chars)
                                        is_dir new_cluster);
      let start_sec := slot / 512 in
      let end_sec := (slot + needed_bytes - 1) / 512 in
      for_loop (Z.to_nat (end_sec - start_sec + 1)) start_sec 1 (write_part base_lba cluster_buf);;
      mret 0
  end).

(** ** Writing *)

Definition clusters_of (size : Z) : Z :=
  if size =? 0 then 1 else u32 (u64 (size + 4095) / 4096).

(** [chunk] bytes of [data] from [i * 512] on, in a zeroed sector. *)
Definition data_sector (data : bytes) (count i : Z) : option bytes :=
  let chunk := if 512 <? u64 (count - i * 512) then 512 else u64 (count - i * 512) in
  d ← slice data (i * 512) chunk;
  blit (zeros 512) 0 d.

Definition write_data_sector (base_lba : Z) (data : bytes) (count i : Z) : Fs unit :=
  sector ← lift (data_sector data count i);
  write_or (-1) (base_lba + i) sector.

(** The end of [exfat_write_file], [exfat_append_file] and
    [exfat_truncate_last_line]: the stream entry gets its new fields and the
    set its checksum, all inside the one sector the set starts in. *)
Definition update_entry (target : exfat_target_t) (first_cluster : option Z) (size : Z) : Fs Z :=
  sector ← read_or (-1) (t_entry_lba target);
  let off := t_entry_offset target in
  sector ← lift (match first_cluster with
                 | Some c => st 4 sector (off + 32 + Dentry.first_cluster) c
                 | None => Some sector
                 end);
  sector ← lift (st 8 sector (off + 32 + Dentry.data_length) size);
  sector ← lift (st 8 sector (off + 32 + Dentry.valid_data_length) size);
  count ← lift (rd sector (off + Dentry.secondary_count));
  crc ← lift (exfat_calc_entry_crc sector off (count + 1));
  sector ← lift (st 2 sector (off + Dentry.set_checksum) crc);
  exfat_sector_write (t_entry_lba target) sector.

(** The clusters to write to: the old run when its length is right, otherwise a
    new one, the old one being released. *)
Definition pick_run (target : exfat_target_t) (old_clusters new_clusters : Z) : Fs Z :=
  if negb (new_clusters =? old_clusters) then
    allocated ← exfat_alloc_blocks new_clusters;
    if allocated =? 0 then exit (-1)
    else exfat_free_blocks (t_cluster target) old_clusters;; mret allocated
  else mret (t_cluster target).

Definition exfat_write_file (name data : bytes) (count : Z) : Fs Z := fn (
  target ← resolve_or name;
  let old_clusters := clusters_of (t_size target) in
  let new_clusters := clusters_of count in
  active_cluster ← pick_run target old_clusters new_clusters;
  base_lba ← gets (fun s => exfat_cluster_lba s active_cluster);
  let sectors_needed := u64 (count + 511) / 512 in
  for_loop (Z.to_nat sectors_needed) 0 1 (write_data_sector base_lba data count);;
  update_entry target (Some active_cluster) count).

(** Move the sectors of a file whose run of clusters is too short. *)
Definition copy_sector (old_lba new_lba s : Z) : Fs unit :=
  temp ← read_or (-1) (old_lba + s);
  write_or (-1) (new_lba + s) temp.

(** [while (remaining > 0)]; each round appends at least one byte. *)
Fixpoint append_loop (fuel : nat) (start_lba current_offset remaining : Z) (src : bytes)
  : Fs unit :=
  match fuel with
  | O => lift None
  | S fuel' =>
      if remaining =? 0 then mret tt
      else
        let sec_index := current_offset / 512 in
        let sec_offset := current_offset mod 512 in
        let write_len := if remaining <? 512 - sec_offset then remaining else 512 - sec_offset in
        temp ← (if 0 <? sec_offset then read_or (-1) (start_lba + sec_index)
                else mret (zeros 512));
        d ← lift (slice src 0 write_len);
        temp ← lift (blit temp sec_offset d);
        write_or (-1) (start_lba + sec_index) temp;;
        append_loop fuel' start_lba (u64 (current_offset + write_len)) (remaining - write_len)
                    (drop (Z.to_nat write_len) src)
  end.

Definition exfat_append_file (name data : bytes) (count : Z) : Fs Z := fn (
  target ← resolve_or name;
  if count =? 0 then exit 0 else
  let new_total := u64 (t_size target + count) in
  let old_clusters := clusters_of (t_size target) in
  let new_clusters := u32 (u64 (new_total + 4095) / 4096) in
  active_cluster ←
    (if old_clusters <? new_clusters then
       allocated ← exfat_alloc_blocks new_clusters;
       if allocated =? 0 then exit (-1) else
       old_lba ← gets (fun s => exfat_cluster_lba s (t_cluster target));
       new_lba ← gets (fun s => exfat_cluster_lba s allocated);
       let old_sectors := u64 (t_size target + 511) / 512 in
       for_loop (Z.to_nat old_sectors) 0 1 (copy_sector old_lba new_lba);;
       exfat_free_blocks (t_cluster target) old_clusters;;
       mret allocated
     else mret (t_cluster target));
  start_lba ← gets (fun s => exfat_cluster_lba s active_cluster);
  append_loop (S (Z.to_nat count)) start_lba (t_size target) count data;;
  update_entry target (Some active_cluster) new_total).

(** ** Reading *)

(** [while (left > 0)]: the bytes stored at [dst] so far are [out]. *)
Fixpoint read_data_loop (fuel : nat) (base_lba left sector_offset : Z) (out : bytes)
  : Fs bytes :=
  match fuel with
  | O => lift None
  | S fuel' =>
      if left =? 0 then mret out
      else
        sector ← read_or (-1) base_lba;
        let chunk := if left <? 512 - sector_offset then left else 512 - sector_offset in
        d ← lift (slice sector sector_offset chunk);
        read_data_loop fuel' (base_lba + 1) (left - chunk) 0 (out ++ d)
  end.

(** The result and the bytes stored at [out_buf]; [buf_ok] is [out_buf != NULL].
    Only complete reads are stored as far as callers are concerned: after an
    error they ignore the buffer. *)
Definition exfat_read_file_at (name : bytes) (buf_ok : bool) (offset max_bytes : Z)
  : Fs (Z * bytes) := fun s =>
  let body : Fs (Z * bytes) :=
    if negb buf_ok && negb (max_bytes =? 0) then exit (-1) else
    target ← resolve_or name;
    if (t_size target <=? offset) || (max_bytes =? 0) then mret (0, []) else
    base_lba ← gets (fun s => exfat_cluster_lba s (t_cluster target) + offset / 512);
    let bytes_to_read :=
      if max_bytes <? t_size target - offset then max_bytes else t_size target - offset in
    out ← read_data_loop (S (Z.to_nat bytes_to_read)) base_lba bytes_to_read (offset mod 512) [];
    mret (s64 bytes_to_read, out) in
  match body s with
  | None => None
  | Some (Val r, s) => Some (Val r, s)
  | Some (Ret rc, s) => Some (Val (rc, []), s)
  end.

Definition exfat_read_file (name : bytes) (buf_ok : bool) (max_bytes : Z) : Fs (Z * bytes) :=
  exfat_read_file_at name buf_ok 0 max_bytes.

(** ** Deleting *)

(** [sector[entry_offset + i * 32] &= 0x7F] for each entry of the set. *)
Fixpoint clear_in_use (k : nat) (sector : bytes) (off : Z) : option bytes :=
  match k with
  | O => Some sector
  | S k' =>
      b ← rd sector off;
      sector ← wr sector off (Z.land b 0x7F);
      clear_in_use k' sector (off + 32)
  end.

Definition exfat_delete_node (name : bytes) : Fs Z := fn (
  target ← resolve_or name;
  exfat_free_blocks (t_cluster target) (clusters_of (t_size target));;
  sector ← read_or (-1) (t_entry_lba target);
  count ← lift (rd sector (t_entry_offset target + Dentry.secondary_count));
  sector ← lift (clear_in_use (Z.to_nat (u8 (count + 1))) sector (t_entry_offset target));
  exfat_sector_write (t_entry_lba target) sector).

(** ** Truncating the last line *)

(** [while (tail_offset >= 0 && sector[tail_offset] != '\n')], on an unsigned
    [tail_offset]. *)
Fixpoint tail_loop (tail_offset : nat) (sector : bytes) (remove_count : Z) : option Z :=
  b ← rd sector (Z.of_nat tail_offset);
  if b =? c_nl then Some remove_count
  else match tail_offset with
       | O => Some (remove_count + 1)
       | S t => tail_loop t sector (remove_count + 1)
       end.

(** How many bytes the last line of a last sector has, its newline included. *)
Definition tail_length (sector : bytes) (tail_offset : Z) : option Z :=
  last ← rd sector tail_offset;
  if last =? c_nl then
    tail_offset ←
      (if 0 <? tail_offset then
         prev ← rd sector (tail_offset - 1);
         Some (if negb (prev =? c_nl) then tail_offset - 1 else tail_offset)
       else Some tail_offset);
    tail_loop (Z.to_nat tail_offset) sector 1
  else tail_loop (Z.to_nat tail_offset) sector 0.

Definition exfat_truncate_last_line (name : bytes) : Fs Z := fn (
  target ← resolve_or name;
  if t_size target =? 0 then exit (-1) else
  base_lba ← gets (fun s => exfat_cluster_lba s (t_cluster target));
  sector ← read_or (-1) (base_lba + (t_size target - 1) / 512);
  remove_count ← lift (tail_length sector ((t_size target - 1) mod 512));
  let new_len := if remove_count <? t_size target then t_size target - remove_count else 0 in
  update_entry target None new_len).

(** ** Listing *)

(** The digits, most significant first; [exfat_num_to_str] also writes a
    terminator. *)
Definition exfat_num_to_str (num : Z) (out : bytes) : option bytes :=
  if num =? 0 then put_zero out
  else
    '(i, tmp) ← dec_loop u64_digits num 0 (zeros 32);
    '(j, out) ← rev_copy out 0 tmp (Z.to_nat i);
    wr out j 0.

(** The name of an entry set inside one sector, as [exfat_print_directory]
    collects it: nothing stops the loop at the end of the sector. *)
Fixpoint sector_name_loop (k : nat) (sector : bytes) (i sec : Z) (name : bytes) : option bytes :=
  match k with
  | O => Some name
  | S k' =>
      ty ← rd sector (i + sec * 32);
      name ← (if ty =? EXFAT_TYPE_NAME
              then name_entry_chars 15 sector (i + sec * 32 + Dentry.unicode_name) name
              else Some name);
      sector_name_loop k' sector i (sec + 1) name
  end.

(** The text up to the terminator of a C string. *)
Fixpoint c_text (b : bytes) : bytes :=
  match b with
  | [] => []
  | c :: b' => if c =? 0 then [] else c :: c_text b'
  end.

(** The line printed for an entry. *)
Definition entry_line (name : bytes) (attributes size : Z) : option bytes :=
  if negb (Z.land attributes 0x10 =? 0) then Some (lit "DIR  " ++ c_text name)
  else
    size_str ← exfat_num_to_str size (zeros 32);
    name_str ← str_pad (zeros 32) (name ++ [0]) 16 c_space;
    Some (lit "FILE " ++ c_text name_str ++ lit " | " ++ c_text size_str ++ lit " bytes").

(** The entries of one sector: the lines printed, and whether an unused entry
    ended the listing. *)
Fixpoint print_sector (fuel : nat) (hidden : bool) (sector : bytes) (i : Z)
  : option (list bytes * bool) :=
  match fuel with
  | O => None
  | S fuel' =>
      if 512 <=? i then Some ([], false)
      else
        ty ← rd sector i;
        if ty =? 0 then Some ([], true)
        else if negb (ty =? EXFAT_TYPE_FILE) then print_sector fuel' hidden sector (i + 32)
        else
          count ← rd sector (i + Dentry.secondary_count);
          name ← sector_name_loop (Z.to_nat (count - 1)) sector i 2 [];
          attr ← ld 2 sector (i + Dentry.file_attributes);
          if negb hidden && ((default 0 (head name) =? c_dot) || negb (Z.land attr 0x02 =? 0))
          then print_sector fuel' hidden sector (i + count * 32 + 32)
          else
            size ← (if negb (Z.land attr 0x10 =? 0) then Some 0
                    else ld 8 sector (i + 32 + Dentry.data_length));
            line ← entry_line name attr size;
            '(lines, ended) ← print_sector fuel' hidden sector (i + count * 32 + 32);
            Some (line :: lines, ended)
  end.

Fixpoint print_sectors (k : nat) (hidden : bool) (lba : Z) : Fs (list bytes) :=
  match k with
  | O => mret []
  | S k' =>
      sector ← read_or (-1) lba;
      '(lines, ended) ← lift (print_sector 17 hidden sector 0);
      if (ended : bool) then mret lines
      else rest ← print_sectors k' hidden (lba + 1); mret (lines ++ rest)
  end.

(** The lines printed; [None] inside is the result -1. *)
Definition exfat_print_directory (hidden : bool) : Fs (option (list bytes)) := fun s =>
  match print_sectors 8 hidden (exfat_cluster_lba s (g_current_cluster s)) s with
  | None => None
  | Some (Val lines, s) => Some (Val (Some lines), s)
  | Some (Ret _, s) => Some (Val None, s)
  end.

(** The characters of one name entry: the name so far and [supported_name]. *)
Fixpoint list_name_chars (k : nat) (buf : bytes) (off : Z) (name : bytes) : option (bytes * bool) :=
  match k with
  | O => Some (name, true)
  | S k' =>
      if 255 <=? zlen name then Some (name, true)
      else
        codepoint ← ld 2 buf off;
        if codepoint =? 0 then Some (name, true)
        else if 0x7F <? codepoint then Some (name, false)
        else list_name_chars k' buf (off + 2) (name ++ [u8 codepoint])
  end.

Fixpoint list_name_loop (k : nat) (buf : bytes) (offset secondary : Z) (name : bytes)
  : option (bytes * bool) :=
  match k with
  | O => Some (name, true)
  | S k' =>
      let name_offset := offset + secondary * 32 in
      if 4096 <? name_offset + 32 then Some (name, false)
      else
        ty ← rd buf name_offset;
        if negb (ty =? EXFAT_TYPE_NAME) then list_name_loop k' buf offset (secondary + 1) name
        else
          '(name, supported) ← list_name_chars 15 buf (name_offset + Dentry.unicode_name) name;
          if negb supported then Some (name, false)
          else list_name_loop k' buf offset (secondary + 1) name
  end.

(** The names found, in order, whether stored or not. *)
Fixpoint list_loop (fuel : nat) (include_directories : bool) (buf : bytes) (offset : Z)
  : option (list bytes) :=
  match fuel with
  | O => None
  | S fuel' =>
      if 4096 - 96 <? offset then Some []
      else
        ty ← rd buf offset;
        if ty =? 0 then Some []
        else if negb (ty =? EXFAT_TYPE_FILE)
        then list_loop fuel' include_directories buf (offset + 32)
        else
          count ← rd buf (offset + Dentry.secondary_count);
          attr ← ld 2 buf (offset + Dentry.file_attributes);
          if negb include_directories && negb (Z.land attr 0x10 =? 0)
          then list_loop fuel' include_directories buf (offset + count * 32 + 32)
          else
            '(name, supported) ← list_name_loop (Z.to_nat (count - 1)) buf offset 2 [];
            rest ← list_loop fuel' include_directories buf (offset + count * 32 + 32);
            Some (if supported && (0 <? zlen name) then name :: rest else rest)
  end.

(** The result and the strings stored in [names], at most [capacity] of them;
    [names_ok] is [names != NULL]. *)
Definition exfat_list_entries_impl (names_ok : bool) (capacity : Z) (include_directories : bool)
  : Fs (Z * list bytes) := fun s =>
  if negb names_ok && negb (capacity =? 0) then Some (Val (-1, []), s)
  else
    match read_sectors 8 (exfat_cluster_lba s (g_current_cluster s)) s with
    | None => None
    | Some (Ret rc, s) => Some (Val (rc, []), s)
    | Some (Val cluster_buf, s) =>
        found ← list_loop resolve_fuel include_directories cluster_buf 0;
        Some (Val (zlen found, take (Z.to_nat capacity) found), s)
    end.

Definition exfat_list_files (names_ok : bool) (capacity : Z) : Fs (Z * list bytes) :=
  exfat_list_entries_impl names_ok capacity false.

Definition exfat_list_entries (names_ok : bool) (capacity : Z) : Fs (Z * list bytes) :=
  exfat_list_entries_impl names_ok capacity true.

(** ** Changing the directory *)

(** The first index from [e] on where [s] has a slash or ends at [len]. *)
Fixpoint token_end (k : nat) (s : bytes) (e len : Z) : option Z :=
  match k with
  | O => Some e
  | S k' =>
      if e <? len then
        c ← rd s e;
        if c =? c_slash then Some e else token_end k' s (e + 1) len
      else Some e
  end.

(** A token as a C string of at most 63 characters. *)
Definition token_at (s : bytes) (start stop : Z) : option bytes :=
  let toklen := if 64 <=? stop - start then 63 else stop - start in
  t ← slice s start toklen;
  Some (t ++ [0]).

(** Look [token] up in the directory [cluster]; [g_current_cluster] is saved
    and restored. *)
Definition resolve_in (cluster : Z) (token : bytes) : Fs (option exfat_target_t) :=
  prev ← gets g_current_cluster;
  modify (with_cluster cluster);;
  t ← exfat_resolve_entry token;
  modify (with_cluster prev);;
  mret t.

(** Walk down from the root along [rewalk]; names that are not directories are
    skipped. *)
Fixpoint rewalk_loop (fuel : nat) (rewalk : bytes) (r_start r_len cluster : Z) : Fs Z :=
  match fuel with
  | O => lift None
  | S fuel' =>
      if r_len <=? r_start then mret cluster
      else
        r_end ← lift (token_end (Z.to_nat r_len) rewalk r_start r_len);
        r_token ← lift (token_at rewalk r_start r_end);
        cluster ←
          (if 0 <? zlen r_token - 1 then
             t ← resolve_in cluster r_token;
             mret (match t with
                   | Some t => if t_is_dir t then t_cluster t else cluster
                   | None => cluster
                   end)
           else mret cluster);
        rewalk_loop fuel' rewalk (r_end + 1) r_len cluster
  end.

(** [for (i = path_len - 1; i >= 0; i--)]: the index of the last slash. *)
Fixpoint last_slash (path : bytes) (i : nat) : option Z :=
  match i with
  | O => Some (-1)
  | S i' =>
      c ← rd path (Z.of_nat i');
      if c =? c_slash then Some (Z.of_nat i') else last_slash path i'
  end.

Definition is_root (path : bytes) : option bool :=
  r ← str_strcmp path (lit "/" ++ [0]);
  Some (r =? 0).

(** The component [..]: the path loses its last name and the cluster is found
    again from the root. *)
Definition go_up (cluster : Z) (new_path : bytes) : Fs (Z * bytes) :=
  root ← lift (is_root new_path);
  if (root : bool) then mret (cluster, new_path)
  else
    path_len ← lift (strlen_loop new_path);
    slash ← lift (last_slash new_path (Z.to_nat path_len));
    new_path ← lift (if slash <=? 0 then str_strcpy new_path (lit "/" ++ [0])
                     else wr new_path slash 0);
    cluster ← gets g_root_cluster;
    root ← lift (is_root new_path);
    if (root : bool) then mret (cluster, new_path)
    else
      rewalk ← lift (str_strcpy (zeros 256) (drop 1 new_path));
      r_len ← lift (strlen_loop rewalk);
      cluster ← rewalk_loop 257 rewalk 0 r_len cluster;
      mret (cluster, new_path).

(** One component of the path. *)
Definition step_token (cluster : Z) (new_path token : bytes) : Fs (Z * bytes) :=
  up ← lift (str_strcmp token (lit ".." ++ [0]));
  if up =? 0 then go_up cluster new_path
  else
    here ← lift (str_strcmp token (lit "." ++ [0]));
    if here =? 0 then mret (cluster, new_path)
    else
      t ← resolve_in cluster token;
      match t with
      | None => exit (-1)
      | Some t =>
          if negb (t_is_dir t) then exit (-2)
          else
            root ← lift (is_root new_path);
            new_path ← lift (if (root : bool) then Some new_path
                             else str_strcat new_path (lit "/" ++ [0]));
            new_path ← lift (str_strcat new_path token);
            mret (t_cluster t, new_path)
      end.

Fixpoint chdir_loop (fuel : nat) (clean_path : bytes) (start len cluster : Z) (new_path : bytes)
  : Fs (Z * bytes) :=
  match fuel with
  | O => lift None
  | S fuel' =>
      if len <=? start then mret (cluster, new_path)
      else
        stop ← lift (token_end (Z.to_nat len) clean_path start len);
        token ← lift (token_at clean_path start stop);
        '(cluster, new_path) ←
          (if 0 <? zlen token - 1 then step_token cluster new_path token
           else mret (cluster, new_path));
        chdir_loop fuel' clean_path (stop + 1) len cluster new_path
  end.

Definition is_line_blank (c : Z) : bool := (c =? c_nl) || (c =? c_cr) || (c =? c_space).

Fixpoint skip_spaces (s : bytes) : bytes :=
  match s with
  | c :: s' => if c =? c_space then skip_spaces s' else s
  | [] => []
  end.

Definition exfat_change_directory (path : option bytes) : Fs Z := fn (
  match path with
  | None => exit 0
  | Some path =>
      c0 ← lift (rd path 0);
      if c0 =? 0 then exit 0 else
      temp ← lift (str_strcpy (zeros 256) path);
      len ← lift (strlen_loop temp);
      temp ← lift (trim_loop is_line_blank (Z.to_nat len) temp);
      let clean_path := skip_spaces temp in
      c0 ← lift (rd clean_path 0);
      if c0 =? 0 then exit 0 else
      root ← gets g_root_cluster;
      current ← gets g_current_cluster;
      current_path ← gets g_current_path;
      let absolute := c0 =? c_slash in
      let cluster := if absolute then root else current in
      new_path ← lift (str_strcpy (zeros 256) (if absolute then lit "/" ++ [0] else current_path));
      len ← lift (strlen_loop clean_path);
      '(cluster, new_path) ← chdir_loop 257 clean_path 0 len cluster new_path;
      g_path ← lift (str_strcpy current_path new_path);
      modify (with_cwd cluster g_path);;
      mret 0
  end).

Definition exfat_get_working_dir : Fs bytes := gets g_current_path.

(** ** Space *)

(** The result, [*out_total_clusters] and [*out_free_clusters], when both
    pointers are valid. *)
Definition exfat_get_space_metrics : Fs (option (Z * Z)) :=
  r ← exfat_sector_read FS_BASE_LBA;
  match r with
  | None => mret None
  | Some boot_sector =>
      cluster_count ← lift (ld 4 boot_sector 88);
      mret (Some (cluster_count, cluster_count))
  end.

End Driver.
