(* ===== verification/ExfatDisk.v ===== *)
(** * exFAT on a disk without I/O errors

    Reading and writing sectors of a [LawfulDisk], and the relation [frame_of]
    that says what a step of the driver leaves alone. *)

From S2P Require Import Prelude CMonad Disk Exfat.

Section OnDisk.
Context {D : Type} `{LawfulDisk D}.
Implicit Types s : exfat D.

Definition img (s : exfat D) : Z -> option bytes := image (g_dev s).

(** The variables and the geometry are those of [s]. *)
Definition same_vars s s' : Prop :=
  g_current_cluster s' = g_current_cluster s /\ g_current_path s' = g_current_path s /\
  g_cluster_heap_offset s' = g_cluster_heap_offset s /\
  g_sectors_per_cluster s' = g_sectors_per_cluster s /\
  g_root_cluster s' = g_root_cluster s /\ g_cluster_count s' = g_cluster_count s /\
  ata_current_drive (g_dev s') = ata_current_drive (g_dev s) /\
  forall drive, ata_drive_sector_count (g_dev s') drive = ata_drive_sector_count (g_dev s) drive.

#[global] Instance same_vars_preorder : PreOrder same_vars.
Proof.
  split; [by intros s; repeat split|].
  intros s1 s2 s3 (?&?&?&?&?&?&?&Hd) (?&?&?&?&?&?&?&Hd'). repeat split; try congruence; intros; by rewrite Hd'.
Qed.

(** [s'] differs from [s] only in sectors that satisfy [P]; no sector
    disappears. *)
Definition frame_of (P : Z -> Prop) s s' : Prop :=
  same_vars s s' /\ (forall x, ~ P x -> img s' x = img s x) /\
  (forall x, is_Some (img s x) -> is_Some (img s' x)).

Lemma frame_refl P s : frame_of P s s.
Proof. by repeat split. Qed.

Lemma frame_trans P s1 s2 s3 : frame_of P s1 s2 -> frame_of P s2 s3 -> frame_of P s1 s3.
Proof.
  intros (V1 & F1 & E1) (V2 & F2 & E2). split; [by etrans|]. split; [|auto].
  intros x Hx. by rewrite F2, F1.
Qed.

Lemma frame_mono (P Q : Z -> Prop) s s' : frame_of P s s' -> (forall x, P x -> Q x) -> frame_of Q s s'.
Proof. intros (V & F & E) HPQ. split; [done|]. split; [|done]. intros x Hx. apply F. auto. Qed.

#[global] Instance frame_preorder P : PreOrder (frame_of P).
Proof. split; [intros s; apply frame_refl | intros ? ? ?; apply frame_trans]. Qed.

Lemma cluster_lba_same s s' c : same_vars s s' -> exfat_cluster_lba s' c = exfat_cluster_lba s c.
Proof. intros (_ & _ & Hh & Hc & _). unfold exfat_cluster_lba. by rewrite Hh, Hc. Qed.

Lemma img_sector s lba b : img s lba = Some b -> is_sector b.
Proof. apply law_sector. Qed.

Definition lba_ok (lba : Z) : Prop := lba < 2 ^ 48.

Lemma sector_read_ok s lba b :
  img s lba = Some b -> lba_ok lba -> exfat_sector_read lba s = Some (Val (Some b), s).
Proof.
  intros Hb Hl. unfold exfat_sector_read. destruct (Z.leb_spec (2 ^ 48) lba); [unfold lba_ok in *; lia|].
  unfold img in Hb. rewrite (law_disk_read _ _ _ Hb). by destruct s.
Qed.

Lemma read_or_ok s rc lba b :
  img s lba = Some b -> lba_ok lba -> read_or rc lba s = Some (Val b, s).
Proof. intros Hb Hl. unfold read_or. by erewrite bind_val by by apply sector_read_ok. Qed.

Lemma sector_write_ok s lba b b' :
  img s lba = Some b -> lba_ok lba -> is_sector b' ->
  exists s', exfat_sector_write lba b' s = Some (Val 0, s') /\ frame_of (eq lba) s s' /\
    forall x, img s' x = if x =? lba then Some b' else img s x.
Proof.
  intros Hb Hl Hs. unfold exfat_sector_write. destruct (Z.leb_spec (2 ^ 48) lba); [unfold lba_ok in *; lia|].
  destruct (law_disk_write _ _ _ _ Hb Hs) as (d' & -> & Hd & Hc & Hi).
  eexists. split; [done|]. split; [|done]. split; [by repeat split|]. unfold img. cbn. split.
  - intros x Hx. rewrite Hi. by rewrite eqb_neq by congruence.
  - intros x Hx. rewrite Hi. by destruct (x =? lba).
Qed.

Lemma write_or_ok s rc lba b b' :
  img s lba = Some b -> lba_ok lba -> is_sector b' ->
  exists s', write_or rc lba b' s = Some (Val tt, s') /\ frame_of (eq lba) s s' /\
    forall x, img s' x = if x =? lba then Some b' else img s x.
Proof.
  intros Hb Hl Hs. destruct (sector_write_ok s lba b b' Hb Hl Hs) as (s' & Hw & Hf & Hi).
  exists s'. unfold write_or. by erewrite bind_val by done.
Qed.

End OnDisk.
