(* ===== verification/ExfatBitmap.v ===== *)
(** * The allocation bitmap of exFAT

    [used] reads one bit of the bitmap on the disk.  Allocation marks a run of
    free clusters or finds there is none; freeing clears exactly its clusters. *)

From S2P Require Import Prelude CMonad Disk Exfat ExfatDisk.

(** ** Bits of a sector *)

Definition bit_at (b : bytes) (j : Z) : bool :=
  match rd b (j / 8) with Some x => Z.testbit x (j mod 8) | None => false end.

Lemma land_pow2_testbit x k : 0 <= k -> negb (Z.land x (Z.shiftl 1 k) =? 0) = Z.testbit x k.
Proof.
  intros Hk. rewrite Z.shiftl_1_l. destruct (Z.testbit x k) eqn:E.
  - apply negb_true_iff, Z.eqb_neq. intros H0.
    assert (Z.testbit (Z.land x (2 ^ k)) k = true) as Hb by by rewrite Z.land_spec, E, Z.pow2_bits_true.
    by rewrite H0, Z.bits_0 in Hb.
  - apply negb_false_iff, Z.eqb_eq. apply Z.bits_inj'. intros n Hn.
    rewrite Z.land_spec, Z.bits_0. destruct (Z.eq_dec n k) as [->|].
    + by rewrite E.
    + by rewrite Z.pow2_bits_false, andb_false_r.
Qed.

Lemma testbit_u8 x n : 0 <= n < 8 -> Z.testbit (u8 x) n = Z.testbit x n.
Proof. intros. unfold u8. change 256 with (2 ^ 8). by rewrite Z.mod_pow2_bits_low by lia. Qed.

Section Sector.
Variables (b : bytes) (j : Z).
Hypothesis Hb : is_sector b.
Hypothesis Hj : 0 <= j < 4096.

Lemma byte_in_sector k : 0 <= k < 4096 -> 0 <= k / 8 < zlen b /\ 0 <= k mod 8 < 8.
Proof.
  intros Hk. destruct Hb as [-> _]. unfold SECTOR.
  pose proof (Z.div_mod k 8 ltac:(lia)). pose proof (Z.mod_pos_bound k 8 ltac:(lia)). lia.
Qed.

Lemma bit_is_set_ok : bit_is_set b j = Some (bit_at b j).
Proof.
  destruct (byte_in_sector j Hj) as [H1 H2]. unfold bit_is_set, bit_at.
  destruct (rd_is_Some b (j / 8)) as [x ->]; [lia|]. cbn. by rewrite land_pow2_testbit by lia.
Qed.

(** Replacing the byte of [j] by one that differs in the bit of [j] only. *)
Lemma replace_bit (op : Z -> Z) (v : bool) :
  (forall x n, 0 <= n < 8 -> Z.testbit (op x) n = if n =? j mod 8 then v else Z.testbit x n) ->
  exists b', (x ← rd b (j / 8); wr b (j / 8) (u8 (op x))) = Some b' /\ is_sector b' /\
    forall k, 0 <= k < 4096 -> bit_at b' k = if k =? j then v else bit_at b k.
Proof.
  intros Hop. destruct (byte_in_sector j Hj) as [H1 H2].
  destruct (rd_is_Some b (j / 8)) as [x Hx]; [lia|]. rewrite Hx. cbn [mbind option_bind].
  destruct (wr_is_Some b (j / 8) (u8 (op x))) as [b' Hw]; [lia|]. exists b'. split; [done|].
  destruct Hb as [Hz Hby]. split; [split; [by rewrite (wr_zlen _ _ _ _ Hw)|]|].
  { exact (is_bytes_wr _ _ _ _ Hby (u8_range _) Hw). }
  intros k Hk. destruct (byte_in_sector k Hk) as [H3 H4].
  pose proof (Z.div_mod k 8 ltac:(lia)). pose proof (Z.div_mod j 8 ltac:(lia)).
  unfold bit_at. destruct (Z.eq_dec (k / 8) (j / 8)) as [E|E].
  - rewrite E, (rd_wr_eq _ _ _ _ Hw), Hx, testbit_u8, Hop by lia.
    destruct (Z.eqb_spec (k mod 8) (j mod 8)), (Z.eqb_spec k j); try done; exfalso; congruence || lia.
  - rewrite (rd_wr_ne _ _ _ _ _ Hw) by congruence. by rewrite eqb_neq by congruence.
Qed.

Lemma set_bit_ok :
  exists b', set_bit b j = Some b' /\ is_sector b' /\
    forall k, 0 <= k < 4096 -> bit_at b' k = if k =? j then true else bit_at b k.
Proof.
  apply (replace_bit (fun x => Z.lor x (Z.shiftl 1 (j mod 8)))). intros x n Hn.
  pose proof (Z.mod_pos_bound j 8 ltac:(lia)).
  rewrite Z.lor_spec, Z.shiftl_1_l. destruct (Z.eqb_spec n (j mod 8)) as [->|].
  - by rewrite Z.pow2_bits_true, orb_true_r by lia.
  - by rewrite Z.pow2_bits_false, orb_false_r by lia.
Qed.

Lemma clear_bit_ok :
  exists b', clear_bit b j = Some b' /\ is_sector b' /\
    forall k, 0 <= k < 4096 -> bit_at b' k = if k =? j then false else bit_at b k.
Proof.
  apply (replace_bit (fun x => Z.land x (Z.lnot (Z.shiftl 1 (j mod 8))))). intros x n Hn.
  pose proof (Z.mod_pos_bound j 8 ltac:(lia)).
  rewrite Z.land_spec, Z.lnot_spec, Z.shiftl_1_l by lia. destruct (Z.eqb_spec n (j mod 8)) as [->|].
  - by rewrite Z.pow2_bits_true, andb_false_r by lia.
  - by rewrite Z.pow2_bits_false, andb_true_r by lia.
Qed.

End Sector.

(** ** The bitmap of the volume *)

Section Bitmap.
Context {D : Type} `{LawfulDisk D}.
Implicit Types s : exfat D.

Definition bm_base s : Z := exfat_cluster_lba s 2.
Definition bm_sectors s : Z := (g_cluster_count s + 4095) / 4096.
Definition bm_region s (x : Z) : Prop := bm_base s <= x < bm_base s + bm_sectors s.

(** The bitmap of [s] is on the disk. *)
Definition bm_ok s : Prop :=
  0 <= g_cluster_count s <= 2147483648 /\ forall x, bm_region s x -> is_Some (img s x).

Definition used s (i : Z) : bool :=
  match img s (bm_base s + i / 4096) with Some b => bit_at b (i mod 4096) | None => false end.

(** [s'] is [s] with the bits of the clusters of [P] set to [v]. *)
Definition bits_set s s' (P : Z -> bool) (v : bool) : Prop :=
  frame_of (bm_region s) s s' /\
  forall i, 0 <= i < g_cluster_count s -> used s' i = if P i then v else used s i.

Lemma bm_base_range s : 0 <= bm_base s < 4294967296.
Proof.
  unfold bm_base, exfat_cluster_lba. replace (u32 (2 - 2)) with 0 by done.
  rewrite Z.mul_0_l. change (u64 0) with 0. rewrite Z.add_0_r.
  pose proof (u32_range (EXFAT_PARTITION_LBA + g_cluster_heap_offset s)) as Hr.
  rewrite u64_small; [exact Hr|]. unfold is_u32, is_u64 in *. lia.
Qed.

Lemma same_bm s s' :
  same_vars s s' -> bm_base s' = bm_base s /\ bm_sectors s' = bm_sectors s /\
    g_cluster_count s' = g_cluster_count s.
Proof.
  intros Hv. pose proof Hv as (_ & _ & _ & _ & _ & Hc & _). unfold bm_sectors. rewrite Hc.
  split; [|done]. by apply cluster_lba_same.
Qed.

Lemma bm_ok_frame P s s' : bm_ok s -> frame_of P s s' -> bm_ok s'.
Proof.
  intros [Hc Hr] (Hv & _ & He). destruct (same_bm s s' Hv) as (Hb & Hn & Hcc).
  unfold bm_ok, bm_region. rewrite Hcc, Hb, Hn. auto.
Qed.

Lemma used_frame P s s' i :
  frame_of P s s' -> ~ P (bm_base s + i / 4096) -> used s' i = used s i.
Proof.
  intros (Hv & Hf & _) Hn. destruct (same_bm s s' Hv) as (Hb & _). unfold used.
  rewrite Hb. by rewrite Hf.
Qed.

Lemma index_split i :
  0 <= i -> 0 <= i / 4096 /\ 0 <= i mod 4096 < 4096 /\ i = 4096 * (i / 4096) + i mod 4096.
Proof.
  intros. pose proof (Z.div_pos i 4096). pose proof (Z.mod_pos_bound i 4096 ltac:(lia)).
  pose proof (Z.div_mod i 4096 ltac:(lia)). lia.
Qed.

Lemma bm_index s i : 0 <= i < g_cluster_count s -> 0 <= i / 4096 < bm_sectors s.
Proof.
  intros Hi. unfold bm_sectors. destruct (index_split i ltac:(lia)) as (?&?&?).
  split; [lia|]. pose proof (Z.div_mod (g_cluster_count s + 4095) 4096 ltac:(lia)).
  pose proof (Z.mod_pos_bound (g_cluster_count s + 4095) 4096 ltac:(lia)). lia.
Qed.

Lemma bm_lba s x : bm_ok s -> bm_region s x -> lba_ok x.
Proof.
  intros [Hc _] [_ Hx]. pose proof (bm_base_range s). unfold lba_ok, bm_sectors in *.
  pose proof (Z.div_mod (g_cluster_count s + 4095) 4096 ltac:(lia)).
  pose proof (Z.mod_pos_bound (g_cluster_count s + 4095) 4096 ltac:(lia)). lia.
Qed.

Lemma bm_sector s i :
  bm_ok s -> 0 <= i < g_cluster_count s ->
  exists b, img s (bm_base s + i / 4096) = Some b /\ is_sector b /\
    bm_region s (bm_base s + i / 4096) /\ lba_ok (bm_base s + i / 4096) /\
    used s i = bit_at b (i mod 4096).
Proof.
  intros Hok Hi. pose proof (bm_index s i Hi) as Hx.
  assert (bm_region s (bm_base s + i / 4096)) as Hr by (unfold bm_region; lia).
  destruct Hok as [Hc He]. destruct (He _ Hr) as [b Hb]. exists b.
  split; [done|]. split; [by eapply img_sector|]. split; [done|].
  split; [by apply (bm_lba s)|]. unfold used. by rewrite Hb.
Qed.

(** Writing back the sector of cluster [i] with the bit of [i] changed. *)
Lemma write_bit s i b b' v :
  bm_ok s -> 0 <= i < g_cluster_count s -> img s (bm_base s + i / 4096) = Some b -> is_sector b' ->
  (forall k, 0 <= k < 4096 -> bit_at b' k = if k =? i mod 4096 then v else bit_at b k) ->
  exists s', exfat_sector_write (bm_base s + i / 4096) b' s = Some (Val 0, s') /\
    bits_set s s' (fun k => k =? i) v.
Proof.
  intros Hok Hi Hb Hs Hbits. destruct (bm_sector s i Hok Hi) as (b0 & Hb0 & _ & Hr & Hl & _).
  destruct (sector_write_ok s _ b b' Hb Hl Hs) as (s' & Hw & Hf & Hi').
  exists s'. split; [done|]. split; [by eapply frame_mono; [done|]; intros x <-|].
  intros k Hk. pose proof Hf as (Hv & _). destruct (same_bm s s' Hv) as (Hbb & _).
  unfold used. rewrite Hbb, Hi'. destruct (index_split k ltac:(lia)) as (?&?&?).
  destruct (index_split i ltac:(lia)) as (?&?&?).
  destruct (Z.eqb_spec (bm_base s + k / 4096) (bm_base s + i / 4096)) as [E|E].
  - assert (k / 4096 = i / 4096) as E' by lia. rewrite E, Hb, Hbits by lia.
    destruct (Z.eqb_spec (k mod 4096) (i mod 4096)), (Z.eqb_spec k i); try done; exfalso; congruence || lia.
  - rewrite (eqb_neq k i) by congruence. done.
Qed.

Lemma mark_cluster_ok s i :
  bm_ok s -> 0 <= i < g_cluster_count s ->
  exists s', mark_cluster (bm_base s) i s = Some (Val tt, s') /\ bits_set s s' (fun k => k =? i) true.
Proof.
  intros Hok Hi. destruct (bm_sector s i Hok Hi) as (b & Hb & Hs & Hr & Hl & _).
  destruct (index_split i ltac:(lia)) as (_&Hm&_). destruct (set_bit_ok b _ Hs Hm) as (b' & Hsb & Hs' & Hbits).
  destruct (write_bit s i b b' true Hok Hi Hb Hs' Hbits) as (s' & Hw & Hset).
  exists s'. split; [|done]. unfold mark_cluster. rewrite (bind_val _ _ _ _ _ (read_or_ok _ _ _ _ Hb Hl)).
  rewrite (bind_lift _ _ _ _ Hsb). unfold write_or. by rewrite (bind_val _ _ _ _ _ Hw).
Qed.

Lemma free_cluster_ok s i :
  bm_ok s -> 0 <= i < g_cluster_count s ->
  exists s', free_cluster (bm_base s) i s = Some (Val tt, s') /\ bits_set s s' (fun k => k =? i) false.
Proof.
  intros Hok Hi. destruct (bm_sector s i Hok Hi) as (b & Hb & Hs & Hr & Hl & _).
  destruct (index_split i ltac:(lia)) as (_&Hm&_). destruct (clear_bit_ok b _ Hs Hm) as (b' & Hsb & Hs' & Hbits).
  destruct (write_bit s i b b' false Hok Hi Hb Hs' Hbits) as (s' & Hw & Hset).
  exists s'. split; [|done]. unfold free_cluster. rewrite (bind_val _ _ _ _ _ (sector_read_ok _ _ _ Hb Hl)).
  rewrite (bind_lift _ _ _ _ Hsb). by rewrite (bind_val _ _ _ _ _ Hw).
Qed.

Definition in_run (start count i : Z) : bool := (start <=? i) && (i <? start + count).

(** A loop over a run of clusters, each round setting one bit to [v]. *)
Lemma run_loop_ok (step : Z -> M (exfat D) unit) v s start count :
  (forall s' i, bm_ok s' -> bm_base s' = bm_base s -> 0 <= i < g_cluster_count s' ->
     exists s'', step i s' = Some (Val tt, s'') /\ bits_set s' s'' (fun k => k =? i) v) ->
  bm_ok s -> 0 <= start -> 0 <= count -> start + count <= g_cluster_count s ->
  exists s', for_loop (Z.to_nat count) start 1 step s = Some (Val tt, s') /\
    bits_set s s' (in_run start count) v.
Proof.
  intros Hstep Hok Hst Hc Htot.
  destruct (for_loop_inv (fun j s' => bits_set s s' (in_run start (j - start)) v)
    (Z.to_nat count) 1 step start s) as (s' & Hl & Hset).
  - intros j s1 (n & -> & Hn) [Hf Hbits]. pose proof (bm_ok_frame _ _ _ Hok Hf) as Hok1.
    pose proof Hf as (Hv & _). destruct (same_bm s s1 Hv) as (Hb & Hns & Hcc).
    destruct (Hstep s1 (start + Z.of_nat n * 1) Hok1 Hb) as (s2 & H2 & Hf2 & Hbits2); [lia|].
    exists s2. split; [done|]. split.
    + etrans; [done|]. eapply frame_mono; [done|]. unfold bm_region. intros x. by rewrite Hb, Hns.
    + intros i Hi. rewrite Hbits2, Hbits by lia. unfold in_run. bgoal; done.
  - split; [apply frame_refl|]. intros i Hi. unfold in_run. bgoal; done.
  - exists s'. split; [done|]. replace (start + Z.of_nat (Z.to_nat count) * 1 - start) with count in Hset by lia.
    done.
Qed.

(** ** The scan *)

(** No run of [count] free clusters ends at or before [p]. *)
Definition no_run s (count p : Z) : Prop :=
  forall st, 0 <= st -> st + count <= p -> exists i, st <= i < st + count /\ used s i = true.

Definition scan_inv s (count p consecutive start : Z) : Prop :=
  0 <= consecutive < count /\ consecutive <= p /\ (0 < consecutive -> start = p - consecutive) /\
  (forall i, p - consecutive <= i < p -> used s i = false) /\
  (0 < p - consecutive -> used s (p - consecutive - 1) = true) /\ no_run s count p.

Lemma scan_inv_used s count p c st :
  scan_inv s count p c st -> used s p = true -> scan_inv s count (p + 1) 0 st.
Proof.
  intros (Hc & Hp & _ & _ & _ & Hn) Hu. unfold scan_inv. split_and!; try lia.
  - intros. by replace (p + 1 - 0 - 1) with p by lia.
  - intros a Ha Hle. destruct (Z.eq_dec (a + count) (p + 1)); [exists p; split; [lia|done]|].
    apply Hn; lia.
Qed.

Lemma scan_inv_free s count p c st :
  scan_inv s count p c st -> used s p = false -> c + 1 <> count ->
  scan_inv s count (p + 1) (c + 1) (if c =? 0 then p else st).
Proof.
  intros (Hc & Hp & Hst & Hrun & Hbar & Hn) Hu Hne. unfold scan_inv. split_and!; try lia.
  - intros _. destruct (Z.eqb_spec c 0); [lia|]. rewrite Hst; lia.
  - intros i Hi. destruct (Z.eq_dec i p) as [->|]; [done|]. apply Hrun. lia.
  - intros. replace (p + 1 - (c + 1) - 1) with (p - c - 1) by lia. apply Hbar. lia.
  - intros a Ha Hle. destruct (Z.eq_dec (a + count) (p + 1)); [|apply Hn; lia].
    exists (p - c - 1). split; [lia|]. apply Hbar. lia.
Qed.

(** What allocation achieves. *)
Definition allocated s s' (count c : Z) : Prop :=
  2 <= c /\ c - 2 + count <= g_cluster_count s /\
  (forall i, c - 2 <= i < c - 2 + count -> used s i = false) /\
  bits_set s s' (in_run (c - 2) count) true.

Definition scan_result {A} s (count p : Z) (r : option (outcome A * exfat D)) (Q : A -> Prop) : Prop :=
  (exists a, r = Some (Val a, s) /\ Q a) \/
  (exists c s', r = Some (Ret c, s') /\ allocated s s' count c).

Lemma scan_bits_ok k b s si bit count c st :
  bm_ok s -> 0 < count -> 0 <= si -> 0 <= bit -> bit + Z.of_nat k = 4096 ->
  img s (bm_base s + si) = Some b ->
  scan_inv s count (si * 4096 + bit) c st -> si * 4096 + bit <= g_cluster_count s ->
  scan_result s count 0
    (scan_bits k b (bm_base s) si bit (g_cluster_count s) count c st s)
    (fun '(c', st') =>
       scan_inv s count (Z.min (si * 4096 + 4096) (g_cluster_count s)) c' st').
Proof.
  intros Hok Hc0 Hsi. revert bit c st.
  induction k as [|k IH]; intros bit c st Hbit Hk Hb Hinv Hle; cbn [scan_bits].
  { left. eexists. split; [done|]. cbn. by replace (Z.min _ _) with (si * 4096 + bit) by lia. }
  destruct (Z.leb_spec (g_cluster_count s) (si * 4096 + bit)).
  { left. eexists. split; [done|]. cbn. by replace (Z.min _ _) with (si * 4096 + bit) by lia. }
  pose proof (img_sector _ _ _ Hb) as Hs.
  rewrite (bind_lift _ _ _ _ (bit_is_set_ok b bit Hs ltac:(lia))).
  assert (used s (si * 4096 + bit) = bit_at b bit) as Hu.
  { unfold used. rewrite Z.div_add_l, Z.div_small, Z.add_0_r by lia. rewrite Hb.
    by rewrite Z.add_comm, Z.mod_add, Z.mod_small by lia. }
  destruct (bit_at b bit).
  - apply IH; try done; try lia. rewrite Z.add_assoc. by apply (scan_inv_used _ _ _ c).
  - destruct (Z.eqb_spec (c + 1) count) as [E|E].
    + right. set (start := if c =? 0 then si * 4096 + bit else st).
      destruct Hinv as (Hc & Hp & Hst & Hrun & _).
      assert (start = si * 4096 + bit - c) as Hstart.
      { unfold start. destruct (Z.eqb_spec c 0); [lia|]. apply Hst. lia. }
      destruct (run_loop_ok (mark_cluster (bm_base s)) true s start count) as (s' & Hl & Hset); try lia.
      { intros s1 i Hok1 <-. by apply mark_cluster_ok. }
      { done. }
      destruct Hok as [Hok _].
      exists (start + 2), s'. rewrite (bind_val _ _ _ _ _ Hl). unfold exit.
      rewrite u32_small by (unfold_int; lia). split; [done|]. unfold allocated.
      replace (start + 2 - 2) with start by lia. split_and!; try lia; [|done..|apply Hset].
      intros i Hi. destruct (Z.eq_dec i (si * 4096 + bit)) as [->|]; [done|]. apply Hrun. lia.
    + apply IH; try done; try lia. rewrite Z.add_assoc. by apply scan_inv_free.
Qed.

Lemma scan_sectors_ok k s si count c st :
  bm_ok s -> 0 < count -> 0 <= si -> si + Z.of_nat k = bm_sectors s ->
  scan_inv s count (Z.min (si * 4096) (g_cluster_count s)) c st ->
  (0 < Z.of_nat k -> si * 4096 <= g_cluster_count s) ->
  scan_result s count 0
    (scan_sectors k (bm_base s) si (g_cluster_count s) count c st s)
    (fun _ => no_run s count (g_cluster_count s)).
Proof.
  intros Hok Hc0. revert si c st. induction k as [|k IH]; intros si c st Hsi Hk Hinv Hle; cbn [scan_sectors].
  { left. exists tt. split; [done|]. destruct Hinv as (_ & _ & _ & _ & _ & Hn).
    replace (Z.min _ _) with (g_cluster_count s) in Hn; [done|]. unfold bm_sectors in Hk.
    pose proof (Z.div_mod (g_cluster_count s + 4095) 4096 ltac:(lia)).
    pose proof (Z.mod_pos_bound (g_cluster_count s + 4095) 4096 ltac:(lia)). lia. }
  assert (bm_region s (bm_base s + si)) as Hr by (unfold bm_region; lia).
  destruct (proj2 Hok _ Hr) as [b Hb].
  rewrite (bind_val _ _ _ _ _ (read_or_ok _ 0 _ _ Hb (bm_lba _ _ Hok Hr))).
  specialize (Hle ltac:(lia)). rewrite Z.min_l in Hinv by lia.
  destruct (scan_bits_ok 4096 b s si 0 count c st) as [([c' st'] & Hr' & Hinv')|(cl & s' & Hr' & Ha)];
    try done; try lia; try (by rewrite Z.add_0_r).
  - rewrite (bind_val _ _ _ _ _ Hr'). apply IH; try lia.
    + by replace ((si + 1) * 4096) with (si * 4096 + 4096) by lia.
    + intros Hk0. unfold bm_sectors in Hk.
      pose proof (Z.div_mod (g_cluster_count s + 4095) 4096 ltac:(lia)).
      pose proof (Z.mod_pos_bound (g_cluster_count s + 4095) 4096 ltac:(lia)). lia.
  - rewrite (bind_exit _ _ _ _ _ Hr'). right. eauto.
Qed.

Lemma alloc_blocks_ok s count :
  bm_ok s -> 0 < count ->
  (exists c s', exfat_alloc_blocks count s = Some (Val c, s') /\ allocated s s' count c) \/
  (exfat_alloc_blocks count s = Some (Val 0, s) /\ no_run s count (g_cluster_count s)).
Proof.
  intros Hok Hc. unfold exfat_alloc_blocks. rewrite eqb_neq by lia.
  pose proof (proj1 Hok) as Hcc.
  assert (Z.to_nat (u32 (g_cluster_count s + 4095) / 4096) = Z.to_nat (bm_sectors s)) as Hk
    by (rewrite u32_small by (unfold_int; lia); done).
  destruct (scan_sectors_ok (Z.to_nat (bm_sectors s)) s 0 count 0 0) as [([] & Hr & Hn)|(c & s' & Hr & Ha)];
    try done; try lia.
  - rewrite Z2Nat.id; [done|]. unfold bm_sectors. apply Z.div_pos; lia.
  - rewrite Z.mul_0_l, Z.min_l by lia. unfold scan_inv. split_and!; try lia. intros st. lia.
  - right. split; [|done]. apply fn_val. rewrite !bind_gets, Hk. exact (bind_val _ _ _ _ _ Hr).
  - left. exists c, s'. split; [|done]. apply fn_exit. rewrite !bind_gets, Hk. exact (bind_exit _ _ _ _ _ Hr).
Qed.

Lemma free_blocks_ok s c count :
  bm_ok s -> 2 <= c -> 0 < count -> c - 2 + count <= g_cluster_count s ->
  exists s', exfat_free_blocks c count s = Some (Val tt, s') /\
    bits_set s s' (in_run (c - 2) count) false.
Proof.
  intros Hok H2 Hc Hle. unfold exfat_free_blocks. pose proof (proj1 Hok).
  destruct (Z.ltb_spec c 2); [lia|]. rewrite eqb_neq by lia. cbn [orb]. rewrite bind_gets.
  rewrite u32_small by (unfold_int; lia). replace (c - 2 + count - (c - 2)) with count by lia.
  change (exfat_cluster_lba s 2) with (bm_base s).
  apply run_loop_ok; try done; try lia. intros s1 i Hok1 <-. by apply free_cluster_ok.
Qed.

End Bitmap.

(** the cluster allocator of exFAT is sound and complete.  On a volume whose
    bitmap is readable, [exfat_alloc_blocks] either returns a cluster [c] such
    that the [count] clusters from [c] on were free, and then exactly those bits
    of the bitmap are set and nothing else on the disk changes, or it returns 0,
    changes nothing, and no run of [count] free clusters exists. *)
Theorem alloc_blocks_spec {D} `{LawfulDisk D} (s : exfat D) count :
  bm_ok s -> 0 < count ->
  (exists c s', exfat_alloc_blocks count s = Some (Val c, s') /\
     2 <= c /\ c - 2 + count <= g_cluster_count s /\
     (forall i, c - 2 <= i < c - 2 + count -> used s i = false) /\
     (forall i, 0 <= i < g_cluster_count s ->
        used s' i = if (c - 2 <=? i) && (i <? c - 2 + count) then true else used s i) /\
     (forall x, ~ bm_region s x -> img s' x = img s x) /\ same_vars s s') \/
  (exfat_alloc_blocks count s = Some (Val 0, s) /\
   forall st, 0 <= st -> st + count <= g_cluster_count s ->
     exists i, st <= i < st + count /\ used s i = true).
Proof.
  intros Hok Hc. destruct (alloc_blocks_ok s count Hok Hc) as [(c & s' & Hr & H2 & Hle & Hfree & (Hv & Hf & _) & Hb)|?].
  - left. exists c, s'. by split_and!.
  - by right.
Qed.

(** freeing what was just allocated restores the bitmap: after
    [exfat_alloc_blocks] returned a run and [exfat_free_blocks] released it,
    every cluster is used exactly when it was before, and no sector outside the
    bitmap changed. *)
Theorem alloc_free_restores {D} `{LawfulDisk D} (s s1 : exfat D) count c :
  bm_ok s -> 0 < count -> exfat_alloc_blocks count s = Some (Val c, s1) -> c <> 0 ->
  exists s2, exfat_free_blocks c count s1 = Some (Val tt, s2) /\
    (forall i, 0 <= i < g_cluster_count s -> used s2 i = used s i) /\
    (forall x, ~ bm_region s x -> img s2 x = img s x).
Proof.
  intros Hok Hc Hr Hne. destruct (alloc_blocks_ok s count Hok Hc)
    as [(c' & s' & Hr' & H2 & Hle & Hfree & Hf & Hb)|[Hr' _]]; rewrite Hr in Hr'; simplify_eq.
  pose proof Hf as (Hv & Hfx & _). destruct (same_bm s s' Hv) as (Hbb & Hns & Hcc).
  destruct (free_blocks_ok s' c' count) as (s2 & Hr2 & (_ & Hfx2 & _) & Hb2); try lia; [by eapply bm_ok_frame|].
  exists s2. split; [done|]. split.
  - intros i Hi. rewrite Hb2, Hb by lia. unfold in_run. bgoal; try done. rewrite Hfree; [done|lia].
  - intros x Hx. rewrite Hfx2, Hfx; [done..|]. unfold bm_region in *. by rewrite Hbb, Hns.
Qed.
