(* ===== verification/ExfatDir.v ===== *)
(** * exFAT directories as byte buffers

    The walk over the entry sets of a directory cluster ([walks]), what a
    lookup finds ([find_set]), well-formed directories ([wf_sets]), and the
    entry set that creating a node stores. *)

From S2P Require Import Prelude CMonad CString Exfat.

(** ** Buffers that agree on a range *)

Definition agree_on (b b' : bytes) (lo hi : Z) : Prop :=
  forall x, lo <= x < hi -> rd b' x = rd b x.

Lemma slice_ext (b b' : bytes) off n :
  zlen b' = zlen b -> agree_on b b' off (off + n) -> slice b' off n = slice b off n.
Proof.
  intros Hz Ha. destruct (slice b off n) as [s|] eqn:Hs.
  - pose proof Hs as (?&?&?&_)%slice_Some. destruct (slice_total b' off n) as [s' Hs']; [lia..|].
    rewrite Hs'. f_equal. pose proof (slice_zlen _ _ _ _ Hs). pose proof (slice_zlen _ _ _ _ Hs').
    apply list_eq_rd; [lia|]. intros i Hi.
    rewrite (rd_slice _ _ _ _ i Hs), (rd_slice _ _ _ _ i Hs') by lia. apply Ha. lia.
  - unfold slice in *. rewrite Hz. by destruct (_ && _).
Qed.

Lemma ld_ext n (b b' : bytes) off :
  zlen b' = zlen b -> agree_on b b' off (off + Z.of_nat n) -> ld n b' off = ld n b off.
Proof. intros. unfold ld. by rewrite (slice_ext b b'). Qed.

Lemma agree_mono (b b' : bytes) lo hi lo' hi' :
  agree_on b b' lo hi -> lo <= lo' -> hi' <= hi -> agree_on b b' lo' hi'.
Proof. intros Ha ? ? x Hx. apply Ha. lia. Qed.

Ltac agree := first [done | eapply agree_mono; [eassumption | lia..]].

Lemma name_entry_chars_ext k (b b' : bytes) off name :
  zlen b' = zlen b -> agree_on b b' off (off + 2 * Z.of_nat k) ->
  name_entry_chars k b' off name = name_entry_chars k b off name.
Proof.
  intros Hz. revert off name. induction k as [|k IH]; intros off name Ha; [done|]. cbn [name_entry_chars].
  rewrite (ld_ext 2 b b') by agree.
  destruct (ld 2 b off) as [ch|]; cbn [mbind option_bind]; [|done]. destruct (ch =? 0); [done|].
  apply IH. agree.
Qed.

Lemma entry_name_loop_ext k (b b' : bytes) i sec name :
  zlen b' = zlen b -> agree_on b b' (i + sec * 32) (i + (sec + Z.of_nat k) * 32) ->
  entry_name_loop k b' i sec name = entry_name_loop k b i sec name.
Proof.
  intros Hz. revert sec name. induction k as [|k IH]; intros sec name Ha; [done|]. cbn [entry_name_loop].
  destruct (4096 <=? i + sec * 32); [done|]. rewrite (Ha (i + sec * 32)) by lia.
  destruct (rd b (i + sec * 32)) as [ty|]; cbn [mbind option_bind]; [|done].
  rewrite (name_entry_chars_ext 15 b b') by (unfold Dentry.unicode_name; agree).
  destruct (ty =? EXFAT_TYPE_NAME).
  - destruct (name_entry_chars 15 b (i + sec * 32 + Dentry.unicode_name) name) as [nm|];
      cbn [mbind option_bind]; [|done]. apply IH. agree.
  - cbn [mbind option_bind]. apply IH. agree.
Qed.

Lemma entry_name_ext (b b' : bytes) i c :
  zlen b' = zlen b -> 1 <= c -> agree_on b b' (i + 64) (i + c * 32 + 32) ->
  entry_name b' i c = entry_name b i c.
Proof.
  intros. unfold entry_name. apply entry_name_loop_ext; [done|]. agree.
Qed.

(** ** The walk over entry sets *)

Inductive walks (buf : bytes) : Z -> list (Z * Z) -> Prop :=
| walks_end i : 4000 < i -> walks buf i []
| walks_skip i ty l :
    i <= 4000 -> rd buf i = Some ty -> ty <> EXFAT_TYPE_FILE ->
    walks buf (i + 32) l -> walks buf i l
| walks_set i c l :
    i <= 4000 -> rd buf i = Some EXFAT_TYPE_FILE -> rd buf (i + 1) = Some c -> 0 <= c ->
    walks buf (i + c * 32 + 32) l -> walks buf i ((i, c) :: l).

Lemma walks_det buf i l l' : walks buf i l -> walks buf i l' -> l = l'.
Proof.
  intros Hw. revert l'. induction Hw as [i Hi|i ty l Hi Hr Hty Hw IH|i c l Hi Hr Hc Hc0 Hw IH];
    intros l'; inversion 1; subst; try lia; simplify_eq; auto; try congruence.
  f_equal. auto.
Qed.

Lemma walks_total (buf : bytes) fuel i :
  zlen buf = 4096 -> is_bytes buf -> 0 <= i -> 4096 - i <= 32 * Z.of_nat fuel -> exists l, walks buf i l.
Proof.
  intros Hz Hb. revert i. induction fuel as [|fuel IH]; intros i Hi Hf.
  { exists []. constructor. lia. }
  destruct (Z.lt_ge_cases 4000 i); [exists []; by constructor|].
  destruct (rd_is_Some buf i) as [ty Hty]; [lia|].
  destruct (Z.eq_dec ty EXFAT_TYPE_FILE) as [->|Hne].
  - destruct (rd_is_Some buf (i + 1)) as [c Hc]; [lia|].
    pose proof (is_bytes_rd _ _ _ Hb Hc) as [Hc0 _].
    destruct (IH (i + c * 32 + 32)) as [l Hl]; [lia..|]. exists ((i, c) :: l). by apply walks_set.
  - destruct (IH (i + 32)) as [l Hl]; [lia..|]. exists l. by eapply walks_skip.
Qed.

Lemma walks_ge buf i l : walks buf i l -> Forall (fun p => i <= fst p) l.
Proof.
  induction 1 as [i Hi|i ty l Hi Hr Hty Hw IH|i c l Hi Hr Hc Hc0 Hw IH]; [constructor| |].
  - eapply Forall_impl; [exact IH|]. cbn. lia.
  - constructor; [cbn; lia|]. eapply Forall_impl; [exact IH|]. cbn. lia.
Qed.

(** The first set with the name, in walking order. *)
Fixpoint find_set (buf name : bytes) (l : list (Z * Z)) : option (option Z) :=
  match l with
  | [] => Some None
  | (i, c) :: l' =>
      n ← entry_name buf i c;
      found ← exfat_name_equal (n ++ [0]) name;
      if (found : bool) then Some (Some i) else find_set buf name l'
  end.

Lemma resolve_walks fuel buf name base i l :
  walks buf i l -> Z.max 0 (4032 - i) < 32 * Z.of_nat fuel ->
  resolve_loop fuel buf name base i =
    (r ← find_set buf name l;
     match r with
     | None => Some None
     | Some j => t ← target_at buf base j; Some (Some t)
     end).
Proof.
  intros Hw. revert fuel. induction Hw as [i Hi|i ty l Hi Hr Hty Hw IH|i c l Hi Hr Hc Hc0 Hw IH]; intros fuel Hf;
    (destruct fuel as [|fuel]; [lia|]); cbn [resolve_loop].
  - by destruct (Z.ltb_spec (4096 - 96) i); [|lia].
  - destruct (Z.ltb_spec (4096 - 96) i); [lia|]. rewrite Hr. cbn [mbind option_bind].
    rewrite eqb_neq by done. cbn [negb]. apply IH. lia.
  - destruct (Z.ltb_spec (4096 - 96) i); [lia|]. rewrite Hr. cbn [mbind option_bind].
    rewrite Z.eqb_refl. cbn [negb]. unfold Dentry.secondary_count. rewrite Hc. cbn [mbind option_bind find_set].
    destruct (entry_name buf i c) as [n|]; cbn [mbind option_bind]; [|done].
    destruct (exfat_name_equal _ _) as [[]|]; cbn [mbind option_bind]; [done| |done]. apply IH. lia.
Qed.

(** ** Well-formed directories *)

Definition in_use (buf : bytes) (x : Z) : Prop :=
  exists ty, rd buf x = Some ty /\ Z.land ty 0x80 <> 0.

(** Every entry of a set is in use, and the set ends inside the cluster. *)
Definition wf_set (buf : bytes) (p : Z * Z) : Prop :=
  let '(i, c) := p in
  2 <= c /\ 0 <= i /\ i mod 32 = 0 /\ i + c * 32 + 32 <= 4096 /\
  forall j, 0 <= j <= c -> in_use buf (i + j * 32).

Definition wf_dir (buf : bytes) : Prop :=
  zlen buf = 4096 /\ is_bytes buf /\ exists l, walks buf 0 l /\ Forall (wf_set buf) l.

(** A name no entry set of a directory defines is not found, and conversely. *)
Definition dir_lookup (buf name : bytes) (r : option Z) : Prop :=
  exists l, walks buf 0 l /\ find_set buf name l = Some r.

Section Insert.
Variables (b b' : bytes) (slot n : Z).
Hypothesis Hz : zlen b' = zlen b.
Hypothesis Hslot : 0 <= slot.
Hypothesis Hslot32 : slot mod 32 = 0.
Hypothesis Hn : 3 <= n.
Hypothesis Hend : slot + n * 32 <= 4096.
Hypothesis Hout : forall x, x < slot \/ slot + n * 32 <= x -> rd b' x = rd b x.
Hypothesis Hfree : forall j, 0 <= j < n -> ~ in_use b (slot + j * 32).
Hypothesis Hfree0 : forall j, 0 <= j < n -> exists ty, rd b (slot + j * 32) = Some ty /\ ty <> EXFAT_TYPE_FILE.
Hypothesis Hset : rd b' slot = Some EXFAT_TYPE_FILE.
Hypothesis Hcnt : rd b' (slot + 1) = Some (n - 1).
Hypothesis Huse : forall j, 0 <= j <= n - 1 -> in_use b' (slot + j * 32).

Lemma wf_set_out p :
  wf_set b p -> (fst p + snd p * 32 + 32 <= slot \/ slot + n * 32 <= fst p) -> wf_set b' p.
Proof.
  destruct p as [i c]. cbn. intros (?&?&?&?&Hu) Hd. split_and!; try done. intros j Hj.
  destruct (Hu j Hj) as (ty & Hty & ?). exists ty. split; [|done]. rewrite Hout by lia. done.
Qed.

(** Behind the slot both walks are the same. *)
Lemma walks_behind i l :
  walks b i l -> slot + n * 32 <= i -> Forall (wf_set b) l ->
  walks b' i l /\ Forall (wf_set b') l /\ forall nm, find_set b' nm l = find_set b nm l.
Proof.
  induction 1 as [i Hi|i ty l Hi Hr Hty Hw IH|i c l Hi Hr Hc Hc0 Hw IH]; intros Hs Hwf.
  - split; [by constructor|]. by split.
  - destruct IH as (?&?&?); [lia|done|]. split; [|done].
    eapply walks_skip; [done| |done|done]. by rewrite Hout by lia.
  - apply Forall_cons in Hwf as [Hw1 Hwf]. destruct IH as (?&?&Hfind); [lia|done|].
    split; [|split].
    + apply walks_set; try done; by rewrite Hout by lia.
    + constructor; [|done]. apply wf_set_out; [done|]. cbn. lia.
    + intros nm. cbn [find_set]. destruct Hw1 as (Hc2 & _). rewrite Hfind. rewrite (entry_name_ext b b'); [done|done|lia|].
      intros x Hx. apply Hout. lia.
Qed.

(** From inside the slot the old walk steps entry by entry to its end. *)
Lemma walks_through k i l :
  walks b i l -> Z.of_nat k <= n -> i = slot + (n - Z.of_nat k) * 32 -> walks b (slot + n * 32) l.
Proof.
  revert i. induction k as [|k IH]; intros i Hw Hk Hi.
  { by replace (slot + n * 32) with i by lia. }
  destruct (Hfree0 (n - Z.of_nat (S k)) ltac:(lia)) as (ty & Hty & Hne). rewrite <- Hi in Hty.
  inversion Hw; subst; simplify_eq.
  - apply walks_end. lia.
  - eapply (IH (slot + (n - Z.of_nat k) * 32)); [|lia|lia].
    match goal with H : walks b (_ + 32) l |- _ =>
      replace (slot + (n - Z.of_nat k) * 32) with (slot + (n - Z.of_nat (S k)) * 32 + 32) by lia; exact H end.
Qed.

(** The walk over the new buffer has the new set, in its place. *)
Lemma walks_insert i l :
  walks b i l -> 0 <= i <= slot -> i mod 32 = 0 -> Forall (wf_set b) l ->
  exists l1 l2, l = l1 ++ l2 /\ walks b' i (l1 ++ (slot, n - 1) :: l2) /\
    Forall (wf_set b') (l1 ++ (slot, n - 1) :: l2) /\
    Forall (fun p => fst p + snd p * 32 + 32 <= slot) l1 /\
    Forall (fun p => slot + n * 32 <= fst p) l2 /\
    (forall nm, find_set b' nm l2 = find_set b nm l2).
Proof.
  induction 1 as [i Hi|i ty l Hi Hr Hty Hw IH|i c l Hi Hr Hc Hc0 Hw IH]; intros Hs Hm Hwf.
  - lia.
  - destruct (Z.eq_dec i slot) as [->|Hne].
    + exists [], l. split; [done|].
      assert (walks b (slot + n * 32) l) as Hb.
      { apply (walks_through (Z.to_nat n) slot); [by eapply walks_skip|lia|lia]. }
      destruct (walks_behind _ _ Hb ltac:(lia) Hwf) as (Hb' & Hwf' & Hf). cbn.
      split; [|split; [|split; [done|split; [by apply (walks_ge b)|done]]]].
      * apply walks_set; try done; [lia|]. by replace (slot + (n - 1) * 32 + 32) with (slot + n * 32) by lia.
      * constructor; [|done]. cbn. split_and!; try done; try lia.
    + assert (i + 32 <= slot) as Hle.
      { pose proof (Z.div_mod i 32 ltac:(lia)). pose proof (Z.div_mod slot 32 ltac:(lia)). lia. }
      destruct IH as (l1 & l2 & -> & Hw' & ?); [lia| |done|].
      { rewrite <- (Z.mul_1_l 32) at 1. rewrite Z.mod_add by lia. done. }
      exists l1, l2. split; [done|]. split; [|done]. eapply walks_skip; [done| |done|done]. by rewrite Hout by lia.
  - apply Forall_cons in Hwf as [(Hc2 & Hi0 & _ & Hie & Hu) Hwf].
    assert (i + c * 32 + 32 <= slot) as Hle.
    { destruct (Z.le_gt_cases (i + c * 32 + 32) slot); [done|]. exfalso.
      pose proof (Z.div_mod i 32 ltac:(lia)). pose proof (Z.div_mod slot 32 ltac:(lia)).
      apply (Hfree 0 ltac:(lia)). rewrite Z.mul_0_l, Z.add_0_r.
      replace slot with (i + (slot / 32 - i / 32) * 32) by lia. apply Hu. lia. }
    destruct IH as (l1 & l2 & -> & Hw' & Hwf' & Hl1 & Hl2 & Hf); [lia| |done|].
    { replace (i + c * 32 + 32) with (i + (c + 1) * 32) by lia. by rewrite Z.mod_add by lia. }
    exists ((i, c) :: l1), l2. split; [done|]. split; [|split; [|split; [|done]]].
    + cbn. apply walks_set; try done; by rewrite Hout by lia.
    + cbn. constructor; [|done]. apply wf_set_out; [cbn; split_and!; done|]. cbn. lia.
    + constructor; [cbn; lia|done].
Qed.

Lemma find_set_before nm l1 rest :
  Forall (wf_set b) l1 -> Forall (fun p => fst p + snd p * 32 + 32 <= slot) l1 ->
  find_set b' nm (l1 ++ rest) =
    (r ← find_set b nm l1; match r with Some i => Some (Some i) | None => find_set b' nm rest end).
Proof.
  induction l1 as [|[i c] l1 IH]; intros Hwf Hb; [done|]. cbn [app find_set].
  apply Forall_cons in Hwf as [(Hc & Hi & _) Hwf]. apply Forall_cons in Hb as [Hb1 Hb]. cbn in Hb1.
  rewrite (entry_name_ext b b') by (try done; try lia; intros x Hx; apply Hout; lia).
  destruct (entry_name b i c) as [m|]; cbn [mbind option_bind]; [|done].
  destruct (exfat_name_equal _ _) as [[]|]; cbn [mbind option_bind]; [done| |done]. by apply IH.
Qed.

End Insert.

(** ** Finding a slot *)

Lemma file_in_use ty : Z.land ty 0x80 = 0 -> ty <> EXFAT_TYPE_FILE.
Proof. intros Hl ->. done. Qed.

Lemma slot_fits_ok k (buf : bytes) pos :
  0 <= pos -> pos + Z.of_nat k * 32 <= zlen buf ->
  exists r, slot_fits k buf pos = Some r /\
    (r = true -> forall j, 0 <= j < Z.of_nat k -> exists ty, rd buf (pos + j * 32) = Some ty /\ Z.land ty 0x80 = 0).
Proof.
  revert pos. induction k as [|k IH]; intros pos Hp Hl; cbn [slot_fits].
  { exists true. split; [done|]. intros _ j Hj. lia. }
  destruct (rd_is_Some buf pos) as [ty Hty]; [lia|]. rewrite Hty. cbn [mbind option_bind].
  destruct (Z.eqb_spec (Z.land ty 128) 0) as [E|E]; cbn [negb andb].
  - destruct (IH (pos + 32)) as (r & -> & Hr); [lia..|]. exists r. split; [done|]. intros -> j Hj.
    destruct (Z.eq_dec j 0) as [->|]; [exists ty; by rewrite Z.mul_0_l, Z.add_0_r|].
    destruct (Hr eq_refl (j - 1) ltac:(lia)) as (t & Ht & ?). exists t. split; [|done].
    by replace (pos + j * 32) with (pos + 32 + (j - 1) * 32) by lia.
  - destruct (Z.eqb_spec ty 0) as [->|]; [done|]. by exists false.
Qed.

Definition free_slot (buf : bytes) (slot n : Z) : Prop :=
  0 <= slot /\ slot mod 32 = 0 /\ slot + n * 32 <= 4096 /\
  forall j, 0 <= j < n -> exists ty, rd buf (slot + j * 32) = Some ty /\ Z.land ty 0x80 = 0.

Lemma find_slot_ok fuel k (buf : bytes) i :
  zlen buf = 4096 -> (1 <= k)%nat -> 0 <= i -> i mod 32 = 0 -> Z.max 0 (4096 - i) < 32 * Z.of_nat fuel ->
  exists r, find_slot fuel k buf i = Some r /\ (r = -1 \/ free_slot buf r (Z.of_nat k)).
Proof.
  intros Hz Hk. revert i. induction fuel as [|fuel IH]; intros i Hi Hm Hf; [lia|]. cbn [find_slot].
  destruct (Z.ltb_spec (4096 - Z.of_nat k * 32) i); [exists (-1); auto|].
  destruct (slot_fits_ok k buf i) as ([] & -> & Hr); [lia..| |]; cbn [mbind option_bind].
  - exists i. split; [done|]. right. split_and!; try done; try lia. by apply Hr.
  - apply IH; try lia. rewrite <- (Z.mul_1_l 32) at 1. by rewrite Z.mod_add by lia.
Qed.

(** ** The entry set of a new node *)

Lemma widen_range c : 0 < c < 256 -> 0 < widen c < 65536 /\ u8 (widen c) = c.
Proof.
  intros. unfold widen, u8. destruct (Z.ltb_spec c 128).
  - rewrite Z.mod_small by lia. lia.
  - replace (c + 65280) with (c + 255 * 256) by lia. rewrite Z.mod_add, Z.mod_small by lia. lia.
Qed.

Lemma map_u8_widen name : Forall (fun c => 0 < c < 256) name -> map u8 (map widen name) = name.
Proof.
  induction 1 as [|c name Hc Hn IH]; [done|]. cbn. by rewrite (proj2 (widen_range c Hc)), IH.
Qed.

Lemma zlen_chars l : zlen (concat (map (le_bytes 2) l)) = 2 * zlen l.
Proof.
  induction l as [|c l IH]; [done|]. cbn [map concat]. rewrite zlen_app, IH, zlen_le_bytes, zlen_cons. lia.
Qed.

Lemma is_bytes_chars l : is_bytes (concat (map (le_bytes 2) l)).
Proof.
  induction l as [|c l IH]; [constructor|]. cbn [map concat]. apply is_bytes_app. split; [apply is_bytes_le|done].
Qed.

(** Reading back the characters of a name entry. *)
Lemma name_entry_chars_ok l k (buf : bytes) o name :
  slice buf o (2 * zlen l) = Some (concat (map (le_bytes 2) l)) ->
  (length l <= k)%nat -> ((length l < k)%nat -> ld 2 buf (o + 2 * zlen l) = Some 0) ->
  Forall (fun c => 0 < c < 65536) l -> zlen name + zlen l <= 255 ->
  name_entry_chars k buf o name = Some (name ++ map u8 l).
Proof.
  revert k o name. induction l as [|c l IH]; intros k o name Hs Hk Hend Hl Hn.
  { cbn [map]. rewrite app_nil_r. destruct k as [|k]; [done|]. cbn [name_entry_chars].
    change (zlen []) with 0 in Hend. rewrite Z.mul_0_r, Z.add_0_r in Hend.
    rewrite Hend by (cbn; lia). done. }
  destruct k as [|k]; [cbn in Hk; lia|]. cbn [name_entry_chars].
  apply Forall_cons in Hl as [Hc Hl]. rewrite zlen_cons in *. pose proof (zlen_nonneg l). pose proof (zlen_nonneg name).
  cbn [map concat] in Hs. pose proof Hs as (Ho&_&Hle&_)%slice_Some.
  assert (slice buf o 2 = Some (le_bytes 2 c) /\
          slice buf (o + 2) (2 * zlen l) = Some (concat (map (le_bytes 2) l))) as [Hs1 Hs2].
  { apply slice_Some in Hs as (?&?&?&He). replace (Z.to_nat (2 * (1 + zlen l))) with (2 + Z.to_nat (2 * zlen l))%nat in He by lia.
    rewrite <- take_take_drop, drop_drop in He. apply app_inj_1 in He as [E1 E2]; [|rewrite length_le_bytes; zs].
    split; apply slice_Some; (split_and!; [lia..|]); [done|]. rewrite E2. do 2 f_equal. lia. }
  unfold ld at 1. change (Z.of_nat 2) with 2. rewrite Hs1. cbn [fmap option_fmap option_map mbind option_bind].
  rewrite le_val_le_bytes. change (256 ^ Z.of_nat 2) with 65536. rewrite Z.mod_small by lia.
  rewrite eqb_neq by lia. destruct (Z.ltb_spec (zlen name) 255); [|lia].
  rewrite IH; [by cbn [map]; rewrite <- app_assoc|done|cbn in Hk; lia| |done|rewrite zlen_app; change (zlen [u8 c]) with 1; lia].
  intros Hlt. replace (o + 2 + 2 * zlen l) with (o + 2 * (1 + zlen l)) by lia. apply Hend. cbn. lia.
Qed.

Lemma ld_zero n (buf : bytes) off :
  0 <= off -> (forall x, off <= x < off + Z.of_nat n -> rd buf x = Some 0) -> off + Z.of_nat n <= zlen buf ->
  ld n buf off = Some 0.
Proof.
  intros Ho Hz Hl. destruct (slice_total buf off (Z.of_nat n)) as [s Hs]; [lia..|]. unfold ld. rewrite Hs. cbn. f_equal.
  assert (s = replicate n 0) as ->.
  { apply list_eq_rd; rewrite (slice_zlen _ _ _ _ Hs); [by rewrite zlen_replicate|].
    intros i Hi. rewrite (rd_slice _ _ _ _ _ Hs), Hz by lia. rewrite rd_lookup by lia.
    symmetry. apply lookup_replicate. split; [done|lia]. }
  clear. induction n as [|n IH]; [done|]. cbn [replicate le_val]. lia.
Qed.

Definition same_outside (b b' : bytes) (lo hi : Z) : Prop :=
  zlen b' = zlen b /\ (is_bytes b -> is_bytes b') /\ forall x, x < lo \/ hi <= x -> rd b' x = rd b x.

Lemma same_outside_trans b1 b2 b3 lo hi :
  same_outside b1 b2 lo hi -> same_outside b2 b3 lo hi -> same_outside b1 b3 lo hi.
Proof.
  intros (Z1 & B1 & O1) (Z2 & B2 & O2). split; [congruence|]. split; [auto|].
  intros x Hx. by rewrite O2, O1.
Qed.

Lemma blit_outside (b b' src : bytes) off lo hi :
  blit b off src = Some b' -> is_bytes src -> lo <= off -> off + zlen src <= hi ->
  same_outside b b' lo hi.
Proof.
  intros Hb Hs Hl Hh. split; [by apply (blit_zlen _ _ _ _ Hb)|]. split.
  - intros Hbb. exact (is_bytes_blit _ _ _ _ Hbb Hs Hb).
  - intros x Hx. rewrite (rd_blit _ _ _ _ _ Hb). by bgoal.
Qed.

Lemma same_outside_widen b b' lo hi lo' hi' :
  same_outside b b' lo hi -> lo' <= lo -> hi <= hi' -> same_outside b b' lo' hi'.
Proof. intros (?&?&Ho) ? ?. split; [done|]. split; [done|]. intros x Hx. apply Ho. lia. Qed.

Lemma entry_name_loop_step k b i sec name nm :
  i + sec * 32 < 4096 -> rd b (i + sec * 32) = Some EXFAT_TYPE_NAME ->
  name_entry_chars 15 b (i + sec * 32 + 2) name = Some nm ->
  entry_name_loop (S k) b i sec name = entry_name_loop k b i (sec + 1) nm.
Proof.
  intros Hlt Hr Hn. cbn [entry_name_loop]. destruct (Z.leb_spec 4096 (i + sec * 32)); [lia|].
  rewrite Hr, Some_bind, Z.eqb_refl. unfold Dentry.unicode_name. by rewrite Hn, Some_bind.
Qed.

Lemma put_names_ok k (buf : bytes) off chars :
  zlen buf = 4096 -> is_bytes buf -> 0 <= off -> off + Z.of_nat k * 32 <= 4096 ->
  (length chars <= 15 * k)%nat -> Forall (fun c => 0 < c < 65536) chars ->
  (forall x, off <= x < off + Z.of_nat k * 32 -> rd buf x = Some 0) ->
  exists buf', put_names k buf off chars = Some buf' /\
    same_outside buf buf' off (off + Z.of_nat k * 32) /\
    (forall e, 0 <= e < Z.of_nat k -> rd buf' (off + e * 32) = Some EXFAT_TYPE_NAME) /\
    (forall i sec name, off = i + sec * 32 -> zlen name + zlen chars <= 255 ->
       entry_name_loop k buf' i sec name = Some (name ++ map u8 chars)).
Proof.
  revert buf off chars. induction k as [|k IH]; intros buf off chars Hz Hb Ho Hle Hch Hc H0; cbn [put_names].
  { exists buf. split; [done|]. split; [by repeat split|]. split; [intros e; lia|].
    intros. destruct chars; [|cbn in Hch; lia]. cbn [map]. by rewrite app_nil_r. }
  unfold Dentry.unicode_name. set (l := take 15 chars).
  assert (zlen l <= 15) as Hl15 by (unfold l; zs). pose proof (zlen_nonneg l).
  rewrite wr_blit. destruct (blit_total buf [EXFAT_TYPE_NAME] off) as [b1 Hb1]; [lia|change (zlen [_]) with 1; lia|].
  rewrite Hb1. cbn [mbind option_bind]. pose proof (blit_zlen _ _ _ _ Hb1) as Hz1.
  destruct (blit_total b1 (concat (map (le_bytes 2) l)) (off + 2)) as [b2 Hb2]; [lia|rewrite zlen_chars; lia|].
  rewrite Hb2. cbn [mbind option_bind]. pose proof (blit_zlen _ _ _ _ Hb2) as Hz2.
  assert (same_outside buf b2 off (off + 32)) as Hso.
  { eapply same_outside_trans; eapply blit_outside; try done; try lia.
    - repeat constructor; unfold EXFAT_TYPE_NAME; lia.
    - change (zlen [_]) with 1. lia.
    - apply is_bytes_chars.
    - rewrite zlen_chars. lia. }
  destruct (IH b2 (off + 32) (drop 15 chars)) as (b3 & Hp & Hso3 & Hty & Hnm); try lia.
  { apply Hso, Hb. } { rewrite length_drop. lia. } { by apply Forall_drop. }
  { intros x Hx. destruct Hso as (_&_&Hso). rewrite Hso by lia. apply H0. lia. }
  exists b3. split; [done|].
  assert (agree_on b2 b3 off (off + 32)) as Hag by (intros x Hx; apply Hso3; lia).
  assert (zlen b3 = zlen b2) as Hz3 by apply Hso3.
  assert (rd b3 off = Some EXFAT_TYPE_NAME) as Ht0.
  { rewrite Hag by lia. rewrite (rd_blit _ _ _ _ _ Hb2), (rd_blit _ _ _ _ _ Hb1), zlen_chars.
    change (zlen [_]) with 1. bgoal. by rewrite Z.sub_diag. }
  split; [|split].
  - eapply same_outside_trans; eapply same_outside_widen; try done; lia.
  - intros e He. destruct (Z.eq_dec e 0) as [->|]; [by rewrite Z.mul_0_l, Z.add_0_r|].
    replace (off + e * 32) with (off + 32 + (e - 1) * 32) by lia. apply Hty. lia.
  - intros i sec name Hi Hn. assert (zlen l <= zlen chars) by (unfold l; zs).
    rewrite (entry_name_loop_step k b3 i sec name (name ++ map u8 l)); rewrite <- ?Hi; [|lia|done|].
    { rewrite Hnm; [|lia|].
      - rewrite <- app_assoc, <- map_app. unfold l. by rewrite take_drop.
      - rewrite zlen_app. unfold zlen. rewrite length_map. unfold l. zs. }
    rewrite (name_entry_chars_ext 15 b2 b3) by (try done; intros x Hx; apply Hag; lia).
    apply name_entry_chars_ok; try lia.
    + rewrite <- (zlen_chars l). exact (slice_blit _ _ _ _ Hb2).
    + unfold l. rewrite length_take. lia.
    + intros Hlt. assert (zlen l < 15) by (unfold zlen; lia).
      apply ld_zero; [lia| |lia]. intros x Hx. change (Z.of_nat 2) with 2 in Hx.
      rewrite (rd_blit _ _ _ _ _ Hb2), zlen_chars, (rd_blit _ _ _ _ _ Hb1). change (zlen [_]) with 1.
      bgoal. apply H0. lia.
    + unfold l. by apply Forall_take.
Qed.

(** Storing fields one after the other keeps what is outside of a range. *)
Lemma put_fields_outside l (b b' : bytes) lo hi :
  put_fields b l = Some b' ->
  Forall (fun '(n, off, v) => lo <= off /\ off + Z.of_nat n <= hi) l ->
  same_outside b b' lo hi.
Proof.
  revert b. induction l as [|[[n off] v] l IH]; intros b Hp Hl; cbn [put_fields] in Hp.
  { simplify_eq. by repeat split. }
  apply Forall_cons in Hl as [[Hlo Hhi] Hl].
  destruct (st n b off v) as [b1|] eqn:E; [|done]. cbn [mbind option_bind] in Hp.
  eapply same_outside_trans; [|by apply (IH b1)].
  eapply blit_outside; [exact E | apply is_bytes_le | done | by rewrite zlen_le_bytes].
Qed.

Lemma put_fields_total l (b : bytes) :
  Forall (fun '(n, off, v) => 0 <= off /\ off + Z.of_nat n <= zlen b) l -> is_Some (put_fields b l).
Proof.
  revert b. induction l as [|[[n off] v] l IH]; intros b Hl; [by eexists|]. cbn [put_fields].
  apply Forall_cons in Hl as [[Hlo Hhi] Hl]. unfold st.
  destruct (blit_total b (le_bytes n v) off) as [b1 E]; [lia|by rewrite zlen_le_bytes|].
  rewrite E. cbn [mbind option_bind]. apply IH. by rewrite (blit_zlen _ _ _ _ E).
Qed.

(** A field is what was stored, when no later field overlaps it. *)
Lemma put_fields_get l1 l2 n off v (b b' : bytes) :
  put_fields b (l1 ++ (n, off, v) :: l2) = Some b' ->
  Forall (fun '(m, o, _) => o + Z.of_nat m <= off \/ off + Z.of_nat n <= o) l2 ->
  ld n b' off = Some (v mod 256 ^ Z.of_nat n).
Proof.
  revert b. induction l1 as [|[[m o] w] l1 IH]; intros b Hp Hl; cbn [app put_fields] in Hp.
  - destruct (st n b off v) as [b1|] eqn:E; [|done]. cbn [mbind option_bind] in Hp.
    rewrite <- (ld_st _ _ _ _ _ E). clear E b. revert b1 Hp. induction l2 as [|[[m o] w] l2 IH2]; intros b1 Hp;
      cbn [put_fields] in Hp; [by simplify_eq|].
    apply Forall_cons in Hl as [Hd Hl]. destruct (st m b1 o w) as [b2|] eqn:E; [|done]. cbn [mbind option_bind] in Hp.
    rewrite (IH2 Hl b2 Hp). eapply ld_blit_ne; [exact E|]. rewrite zlen_le_bytes. lia.
  - destruct (st m b o w) as [b1|] eqn:E; [|done]. cbn [mbind option_bind] in Hp. by apply (IH b1).
Qed.

Lemma put_fields_keep l n off (b b' : bytes) :
  put_fields b l = Some b' ->
  Forall (fun '(m, o, _) => o + Z.of_nat m <= off \/ off + Z.of_nat n <= o) l ->
  ld n b' off = ld n b off.
Proof.
  revert b. induction l as [|[[m o] w] l IH]; intros b Hp Hl; cbn [put_fields] in Hp; [by simplify_eq|].
  apply Forall_cons in Hl as [Hd Hl]. destruct (st m b o w) as [b1|] eqn:E; [|done]. cbn [mbind option_bind] in Hp.
  rewrite (IH b1 Hp Hl). eapply ld_blit_ne; [exact E|]. rewrite zlen_le_bytes. lia.
Qed.

Lemma rd_ld1 (b : bytes) i v : ld 1 b i = Some v -> rd b i = Some v.
Proof.
  unfold ld. change (Z.of_nat 1) with 1. destruct (slice b i 1) as [s|] eqn:Hs; [|done]. cbn.
  pose proof (slice_zlen _ _ _ _ Hs) as Hz. pose proof (rd_slice _ _ _ _ 0 Hs ltac:(lia)) as Hr.
  rewrite Z.add_0_r in Hr. destruct s as [|x [|]]; try (unfold zlen in Hz; cbn in Hz; lia).
  change (rd [x] 0) with (Some x) in Hr. cbn. intros [= <-]. rewrite <- Hr. f_equal. lia.
Qed.

Lemma in_use_ty b x ty : rd b x = Some ty -> Z.land ty 0x80 <> 0 -> in_use b x.
Proof. intros. by exists ty. Qed.

(** What the entry set at [slot] says. *)
Record set_at (b : bytes) (slot k : Z) (name : bytes) (is_dir : bool) (cluster size : Z) : Prop := {
  sa_type : rd b slot = Some EXFAT_TYPE_FILE;
  sa_count : rd b (slot + 1) = Some (1 + k);
  sa_in_use j : 0 <= j <= 1 + k -> in_use b (slot + j * 32);
  sa_name : entry_name b slot (1 + k) = Some name;
  sa_attr : ld 2 b (slot + 4) = Some (if is_dir then 0x10 else 0x20);
  sa_cluster : ld 4 b (slot + 52) = Some cluster;
  sa_size : ld 8 b (slot + 56) = Some size;
}.

Lemma blit_zeros (b b' : bytes) slot n x :
  blit b slot (zeros n) = Some b' -> slot <= x < slot + Z.of_nat n -> rd b' x = Some 0.
Proof.
  intros Hb Hx. rewrite (rd_blit _ _ _ _ _ Hb). unfold zeros. rewrite zlen_replicate.
  bgoal. rewrite rd_lookup by lia. apply lookup_replicate. split; [done|lia].
Qed.

Lemma put_entry_set_ok (b : bytes) slot k name is_dir cluster :
  zlen b = 4096 -> is_bytes b -> 0 <= slot -> 1 <= k <= 17 -> slot + (k + 2) * 32 <= 4096 ->
  Forall (fun c => 0 < c < 256) name -> zlen name <= 255 -> zlen name <= 15 * k -> is_u32 cluster ->
  exists b', put_entry_set b slot k (map widen name) is_dir cluster = Some b' /\
    same_outside b b' slot (slot + (k + 2) * 32) /\
    set_at b' slot k name is_dir cluster 0.
Proof.
  intros Hz Hb Hs Hk Hend Hn Hn255 Hn15 Hcl. unfold put_entry_set.
  assert (zlen (zeros (Z.to_nat ((1 + (1 + k)) * 32))) = (k + 2) * 32) as Hzz
    by (unfold zeros; rewrite zlen_replicate; lia).
  destruct (blit_total b (zeros (Z.to_nat ((1 + (1 + k)) * 32))) slot) as [b0 Hb0]; [lia..|].
  rewrite Hb0. cbn [mbind option_bind]. pose proof (blit_zlen _ _ _ _ Hb0) as Hz0.
  unfold Dentry.entry_type, Dentry.secondary_count, Dentry.file_attributes, Dentry.flags,
    Dentry.name_length, Dentry.first_cluster, Dentry.name_hash, Dentry.set_checksum.
  set (h := exfat_calc_name_hash (map widen name) 0).
  match goal with |- context [put_fields b0 ?l] => set (fields := l) end.
  destruct (put_fields_total fields b0) as [b1 Hb1].
  { unfold fields. repeat constructor; lia. }
  rewrite Hb1. cbn [mbind option_bind].
  assert (same_outside b b0 slot (slot + (k + 2) * 32)) as Hso0.
  { eapply blit_outside; [done|apply is_bytes_zeros|lia|lia]. }
  assert (same_outside b0 b1 slot (slot + 64)) as Hso1.
  { eapply put_fields_outside; [done|]. unfold fields. repeat constructor; lia. }
  destruct (put_names_ok (Z.to_nat k) b1 (slot + 64) (map widen name)) as (b2 & Hb2 & Hso2 & Hty & Hnm).
  { destruct Hso1; congruence. } { apply Hso1, Hso0, Hb. } { lia. } { lia. }
  { rewrite length_map. unfold zlen in *. lia. }
  { apply Forall_fmap. eapply Forall_impl; [done|]. intros c Hc. cbn. by apply widen_range. }
  { intros x Hx. destruct Hso1 as (_&_&->); [|lia]. eapply blit_zeros; [exact Hb0|lia]. }
  rewrite Hb2. cbn [mbind option_bind]. rewrite Z2Nat.id in * by lia.
  assert (zlen b2 = 4096) as Hz2 by (destruct Hso2 as [-> _]; destruct Hso1 as [-> _]; lia).
  unfold exfat_calc_entry_crc. rewrite (u8_small (1 + k + 1)) by (unfold_int; lia).
  destruct (slice_total b2 slot ((1 + k + 1) * 32)) as [es Hes]; [lia..|]. rewrite Hes. cbn [mbind option_bind].
  set (crc := entry_crc_loop es 0 0). unfold st.
  destruct (blit_total b2 (le_bytes 2 crc) (slot + 2)) as [b3 Hb3]; [lia|rewrite zlen_le_bytes; lia|].
  exists b3. split; [done|].
  assert (same_outside b2 b3 (slot + 2) (slot + 4)) as Hso3.
  { eapply blit_outside; [done|apply is_bytes_le|lia|rewrite zlen_le_bytes; lia]. }
  assert (zlen b3 = zlen b2) as Hz3 by apply Hso3.
  assert (forall m o v, ld m b1 o = Some v -> slot <= o -> o + Z.of_nat m <= slot + 64 ->
            (o + Z.of_nat m <= slot + 2 \/ slot + 4 <= o) -> ld m b3 o = Some v) as Hkeep.
  { intros m o v Hv Ho1 Ho2 Ho3. rewrite <- Hv.
    rewrite (ld_ext m b2 b3); [|done|intros x Hx; apply Hso3; lia].
    apply ld_ext; [apply Hso2|]. intros x Hx. apply Hso2. lia. }
  assert (forall x, slot + 64 <= x -> rd b3 x = rd b2 x) as Htail by (intros x Hx; apply Hso3; lia).
  assert (ld 1 b3 slot = Some EXFAT_TYPE_FILE) as F1.
  { apply Hkeep; try lia. replace slot with (slot + 0) by lia.
    apply (put_fields_get [] _ 1 (slot + 0) EXFAT_TYPE_FILE _ _ Hb1). repeat constructor; lia. }
  assert (ld 1 b3 (slot + 1) = Some (1 + k)) as F2.
  { apply Hkeep; try lia.
    rewrite (put_fields_get [_] _ 1 (slot + 1) (1 + k) _ _ Hb1) by (repeat constructor; lia).
    f_equal. apply Z.mod_small. change (256 ^ Z.of_nat 1) with 256. lia. }
  assert (ld 1 b3 (slot + 32) = Some EXFAT_TYPE_STREAM) as F3.
  { apply Hkeep; try lia. replace (slot + 32) with (slot + 32 + 0) by lia.
    apply (put_fields_get [_; _; _] _ 1 (slot + 32 + 0) EXFAT_TYPE_STREAM _ _ Hb1). repeat constructor; lia. }
  split; [|split].
  - eapply same_outside_trans; [exact Hso0|]. eapply same_outside_trans;
      [eapply same_outside_widen; [exact Hso1|lia..]|].
    eapply same_outside_trans; eapply same_outside_widen; try done; lia.
  - by apply rd_ld1.
  - by apply rd_ld1.
  - intros j Hj. destruct (Z.eq_dec j 0) as [->|]; [|destruct (Z.eq_dec j 1) as [->|]].
    + rewrite Z.mul_0_l, Z.add_0_r. eapply in_use_ty; [by apply rd_ld1|done].
    + eapply in_use_ty; [by apply rd_ld1; rewrite Z.mul_1_l|done].
    + eapply (in_use_ty _ _ EXFAT_TYPE_NAME); [|done]. rewrite Htail by lia.
      replace (slot + j * 32) with (slot + 64 + (j - 2) * 32) by lia. apply Hty. lia.
  - unfold entry_name. replace (Z.to_nat (1 + k - 1)) with (Z.to_nat k) by lia.
    rewrite (entry_name_loop_ext (Z.to_nat k) b2 b3 slot 2) by (try done; intros x Hx; apply Htail; lia).
    rewrite (Hnm slot 2 []); [|lia|change (zlen []) with 0; unfold zlen in *; rewrite length_map; lia].
    cbn [app]. by rewrite map_u8_widen.
  - apply Hkeep; try lia.
    rewrite (put_fields_get [_; _] _ 2 (slot + 4) _ _ _ Hb1) by (repeat constructor; lia).
    f_equal. by destruct is_dir.
  - apply Hkeep; try lia. replace (slot + 52) with (slot + 32 + 20) by lia.
    rewrite (put_fields_get [_; _; _; _; _; _] _ 4 (slot + 32 + 20) cluster _ _ Hb1) by (repeat constructor; lia).
    f_equal. apply Z.mod_small. change (256 ^ Z.of_nat 4) with 4294967296. unfold is_u32 in Hcl. lia.
  - apply Hkeep; try lia. rewrite (put_fields_keep _ 8 (slot + 56) _ _ Hb1) by (unfold fields; repeat constructor; lia).
    apply ld_zero; [lia| |lia]. intros x Hx. eapply blit_zeros; [exact Hb0|lia].
Qed.
