(* ===== verification/ExfatCreate.v ===== *)
(** * Creating and looking up nodes on the disk

    [fs_ok] is the invariant of a mounted volume: its bitmap and clusters are on
    the disk, the clusters of the bitmap and of the current directory are
    allocated, and the current directory is well formed. *)

From S2P Require Import Prelude CMonad Disk CString Exfat ExfatDisk ExfatBitmap ExfatDir.

(** ** Names *)

Definition fold_case (name : bytes) : bytes := map to_lower name.

Lemma to_lower_0 c : to_lower c = 0 -> c = 0.
Proof. unfold to_lower. destruct (Z.leb_spec 65 c), (Z.leb_spec c 90); cbn; lia. Qed.

(** [exfat_name_equal] compares C strings without regard to ASCII case. *)
Lemma name_equal_ok (l r t : bytes) :
  nozero l -> nozero r ->
  exfat_name_equal (l ++ [0]) (r ++ 0 :: t) = Some (bool_decide (fold_case l = fold_case r)).
Proof.
  intros Hl. revert r. induction Hl as [|a l Ha Hl IH]; intros r Hr.
  - destruct r as [|c r]; [done|]. apply Forall_cons in Hr as [Hc _]. cbn.
    by rewrite (eqb_neq c 0).
  - destruct r as [|c r]; cbn; rewrite (eqb_neq a 0) by done; [done|].
    apply Forall_cons in Hr as [Hc Hr]. rewrite (eqb_neq c 0) by done. cbn [orb].
    destruct (Z.eqb_spec (to_lower a) (to_lower c)) as [E|E].
    + rewrite IH by done. f_equal. apply bool_decide_ext. unfold fold_case. cbn [map].
      split; [by intros ->; f_equal | by intros [=]].
    + rewrite bool_decide_eq_false_2; [done|]. unfold fold_case. cbn [map]. by intros [= ? ?].
Qed.

Lemma name_equal_total (l r t : bytes) : nozero r -> is_Some (exfat_name_equal (l ++ [0]) (r ++ 0 :: t)).
Proof.
  intros Hr. revert l. induction Hr as [|c r Hc Hr IH]; intros l.
  - destruct l as [|a l]; cbn; [by eexists|]. rewrite orb_true_r. by eexists.
  - destruct l as [|a l]; cbn; [by eexists|]. rewrite (eqb_neq c 0) by done. rewrite orb_false_r.
    destruct (a =? 0); [by eexists|]. destruct (_ =? _); [apply IH|by eexists].
Qed.

(** ** Reading well-formed directories never fails *)

Lemma name_entry_chars_total k (b : bytes) off name :
  0 <= off -> off + 2 * Z.of_nat k <= zlen b -> is_Some (name_entry_chars k b off name).
Proof.
  revert off name. induction k as [|k IH]; intros off name Ho Hl; cbn [name_entry_chars]; [by eexists|].
  unfold ld. change (Z.of_nat 2) with 2. destruct (slice_total b off 2) as [s ->]; [lia..|].
  cbn [fmap option_fmap option_map mbind option_bind]. destruct (_ =? 0); [by eexists|]. apply IH; lia.
Qed.

Lemma entry_name_loop_total k (b : bytes) i sec name :
  zlen b = 4096 -> 0 <= i + sec * 32 -> i mod 32 = 0 -> is_Some (entry_name_loop k b i sec name).
Proof.
  intros Hz. revert sec name. induction k as [|k IH]; intros sec name Ho Hm; cbn [entry_name_loop]; [by eexists|].
  destruct (Z.leb_spec 4096 (i + sec * 32)); [by eexists|].
  destruct (rd_is_Some b (i + sec * 32)) as [ty ->]; [lia|]. rewrite Some_bind.
  assert (i + sec * 32 + 32 <= 4096) by (pose proof (Z.div_mod i 32 ltac:(lia)); lia).
  destruct (ty =? EXFAT_TYPE_NAME).
  - destruct (name_entry_chars_total 15 b (i + sec * 32 + Dentry.unicode_name) name) as [nm ->];
      [unfold Dentry.unicode_name; lia..|]. rewrite Some_bind. apply IH; [lia|done].
  - rewrite Some_bind. apply IH; [lia|done].
Qed.

Lemma find_set_total (b nm t : bytes) l :
  zlen b = 4096 -> Forall (wf_set b) l -> nozero nm -> is_Some (find_set b (nm ++ 0 :: t) l).
Proof.
  intros Hz Hwf Hn. induction Hwf as [|[i c] l (Hc & Hi & Hm & _) Hwf IH]; [by eexists|]. cbn [find_set].
  destruct (entry_name_loop_total (Z.to_nat (c - 1)) b i 2 [] Hz ltac:(lia) Hm) as [n Hn'].
  unfold entry_name. rewrite Hn', Some_bind. destruct (name_equal_total n nm t Hn) as [[] ->]; rewrite Some_bind; [by eexists|done].
Qed.

Lemma find_set_app b nm l1 l2 :
  find_set b nm (l1 ++ l2) =
    (r ← find_set b nm l1; match r with Some i => Some (Some i) | None => find_set b nm l2 end).
Proof.
  induction l1 as [|[i c] l1 IH]; [done|]. cbn [app find_set].
  destruct (entry_name b i c) as [n|]; cbn [mbind option_bind]; [|done].
  destruct (exfat_name_equal _ _) as [[]|]; cbn [mbind option_bind]; [done|done|done].
Qed.

Lemma find_set_in b nm l j : find_set b nm l = Some (Some j) -> exists c, (j, c) ∈ l.
Proof.
  induction l as [|[i c] l IH]; [done|]. cbn [find_set].
  destruct (entry_name b i c) as [n|]; cbn [mbind option_bind]; [|done].
  destruct (exfat_name_equal _ _) as [[]|]; cbn [mbind option_bind]; [|intros H|done].
  - intros [= <-]. exists c. left.
  - destruct (IH H) as [c' ?]. exists c'. by right.
Qed.

Lemma target_at_ext (b b' : bytes) base i :
  zlen b' = zlen b -> agree_on b b' i (i + 64) -> target_at b' base i = target_at b base i.
Proof.
  intros Hz Ha. unfold target_at, Dentry.first_cluster, Dentry.data_length, Dentry.file_attributes.
  rewrite (ld_ext 4 b b'), (ld_ext 8 b b'), (ld_ext 2 b b') by agree. done.
Qed.

Lemma target_at_set b base slot k name is_dir cluster size :
  set_at b slot k name is_dir cluster size ->
  target_at b base slot = Some (Target cluster size is_dir (base + slot / 512) (slot mod 512)).
Proof.
  intros Hs. unfold target_at, Dentry.first_cluster, Dentry.data_length, Dentry.file_attributes.
  replace (slot + 32 + 20) with (slot + 52) by lia. replace (slot + 32 + 24) with (slot + 56) by lia.
  rewrite (sa_cluster _ _ _ _ _ _ _ Hs), (sa_size _ _ _ _ _ _ _ Hs), (sa_attr _ _ _ _ _ _ _ Hs).
  cbn [mbind option_bind]. by destruct is_dir.
Qed.

(** ** Directories on the disk *)

Section OnDisk.
Context {D : Type} `{LawfulDisk D}.
Implicit Types s : exfat D.

(** [b] is the cluster at [lba]. *)
Definition cluster_is s (lba : Z) (b : bytes) : Prop :=
  zlen b = 4096 /\ lba + 8 <= 2 ^ 48 /\
  forall k, 0 <= k < 8 -> img s (lba + k) = slice b (k * 512) 512.

Lemma read_sectors_ok k s lba b j :
  (forall i, 0 <= i < Z.of_nat k -> img s (lba + i) = slice b ((j + i) * 512) 512 /\ lba_ok (lba + i)) ->
  0 <= j -> zlen b = (j + Z.of_nat k) * 512 ->
  read_sectors k lba s = Some (Val (drop (Z.to_nat (j * 512)) b), s).
Proof.
  revert lba j. induction k as [|k IH]; intros lba j Hi Hj Hz; cbn [read_sectors].
  { rewrite drop_ge by (unfold zlen in Hz; lia). done. }
  destruct (Hi 0) as [Hs0 Hl]; [lia|]. rewrite !Z.add_0_r in *.
  destruct (slice_total b (j * 512) 512) as [sec Hsec]; [lia..|]. rewrite Hsec in Hs0.
  rewrite (bind_val _ _ _ _ _ (read_or_ok _ (-1) _ _ Hs0 Hl)).
  rewrite (bind_val _ _ s s (drop (Z.to_nat ((j + 1) * 512)) b)).
  - unfold mret, M_ret. do 3 f_equal. apply slice_Some in Hsec as (_&_&_&->).
    replace (Z.to_nat ((j + 1) * 512)) with (Z.to_nat (j * 512) + Z.to_nat 512)%nat by lia.
    rewrite <- drop_drop. apply take_drop.
  - apply IH; [|lia|lia]. intros i Hi'. specialize (Hi (i + 1) ltac:(lia)).
    by replace (lba + 1 + i) with (lba + (i + 1)) by lia; replace (j + 1 + i) with (j + (i + 1)) by lia.
Qed.

Lemma read_cluster s lba b : cluster_is s lba b -> read_sectors 8 lba s = Some (Val b, s).
Proof.
  intros (Hz & Hl & Hi). rewrite (read_sectors_ok 8 s lba b 0); [done| |lia|done].
  intros i Hi'. rewrite Hi by lia. rewrite Z.add_0_l. split; [done|]. unfold lba_ok. lia.
Qed.

Lemma cluster_is_frame P s s' lba b :
  frame_of P s s' -> cluster_is s lba b -> (forall k, 0 <= k < 8 -> ~ P (lba + k)) -> cluster_is s' lba b.
Proof.
  intros (_ & Hf & _) (?&?&Hi) Hn. split; [done|]. split; [done|]. intros k Hk. rewrite Hf by auto. auto.
Qed.

(** ** The volume invariant *)

Definition clus_lba s (c : Z) : Z := 4096 + g_cluster_heap_offset s + (c - 2) * 8.

Definition vol_ok s : Prop :=
  bm_ok s /\ 0 <= g_cluster_heap_offset s < 2147483648 /\ g_sectors_per_cluster s = 8 /\
  g_cluster_count s <= EXFAT_MAX_BITMAP_CLUSTERS /\
  (forall c k, 2 <= c < g_cluster_count s + 2 -> 0 <= k < 8 -> is_Some (img s (clus_lba s c + k))) /\
  used s 0 = true.

(** Clusters 2 on of the volume: cluster numbers that can hold data. *)
Definition in_vol s (c : Z) : Prop := 3 <= c < g_cluster_count s + 2.

Definition fs_ok s : Prop :=
  vol_ok s /\ in_vol s (g_current_cluster s) /\ used s (g_current_cluster s - 2) = true /\
  exists b, cluster_is s (clus_lba s (g_current_cluster s)) b /\ wf_dir b.

Lemma cluster_lba_ok s c :
  vol_ok s -> 2 <= c < g_cluster_count s + 2 -> exfat_cluster_lba s c = clus_lba s c.
Proof.
  intros (_ & Hh & Hs & Hc & _) Hr. unfold exfat_cluster_lba, clus_lba, EXFAT_PARTITION_LBA, EXFAT_MAX_BITMAP_CLUSTERS in *.
  rewrite Hs, !u32_small by (unfold_int; lia). rewrite !u64_small by (unfold_int; try rewrite Z.mod_small; lia). lia.
Qed.

Lemma bm_region_cluster2 s x : vol_ok s -> bm_region s x -> clus_lba s 2 <= x < clus_lba s 2 + 8.
Proof.
  intros Hv. pose proof Hv as ((Hc & _) & Hh & Hs & Hm & _). unfold bm_region, bm_base, bm_sectors.
  destruct (Z.eq_dec (g_cluster_count s) 0) as [E|E].
  { rewrite E. change ((0 + 4095) / 4096) with 0. lia. }
  rewrite cluster_lba_ok by (try done; lia). unfold EXFAT_MAX_BITMAP_CLUSTERS in Hm.
  pose proof (Z.div_mod (g_cluster_count s + 4095) 4096 ltac:(lia)).
  pose proof (Z.mod_pos_bound (g_cluster_count s + 4095) 4096 ltac:(lia)). lia.
Qed.

Lemma cluster_not_bitmap s c k : vol_ok s -> in_vol s c -> 0 <= k < 8 -> ~ bm_region s (clus_lba s c + k).
Proof.
  intros Hv Hc Hk Hb. pose proof (bm_region_cluster2 s _ Hv Hb). unfold clus_lba, in_vol in *. lia.
Qed.

Lemma clus_lba_same s s' c : same_vars s s' -> clus_lba s' c = clus_lba s c.
Proof. intros (_ & _ & Hh & _). unfold clus_lba. by rewrite Hh. Qed.

(** Writes outside of the bitmap, and allocations, keep the volume. *)
Lemma vol_ok_frame P s s' :
  vol_ok s -> frame_of P s s' -> used s' 0 = true -> vol_ok s'.
Proof.
  intros (Hb & Hh & Hs & Hc & He & Hu) Hf Hu'. pose proof Hf as (Hv & _ & He').
  pose proof Hv as (_ & _ & Eh & Es & _ & Ec & _).
  split; [by eapply bm_ok_frame|]. rewrite Eh, Es, Ec. split_and!; try done; try lia.
  intros c k Hc' Hk. rewrite (clus_lba_same s s') by done. auto.
Qed.

(** What a lookup in the current directory returns. *)
Definition lookup_in (b nm : bytes) (base : Z) (l : list (Z * Z)) : option (option exfat_target_t) :=
  r ← find_set b nm l;
  match r with None => Some None | Some j => t ← target_at b base j; Some (Some t) end.

Lemma resolve_entry_ok s b l nm :
  vol_ok s -> in_vol s (g_current_cluster s) ->
  cluster_is s (clus_lba s (g_current_cluster s)) b -> walks b 0 l ->
  exfat_resolve_entry nm s =
    (t ← lookup_in b nm (clus_lba s (g_current_cluster s)) l; Some (Val t, s)).
Proof.
  intros Hv Hc Hb Hw. unfold exfat_resolve_entry. unfold in_vol in Hc.
  rewrite cluster_lba_ok by (try done; lia). rewrite (read_cluster _ _ _ Hb).
  by rewrite (resolve_walks _ _ _ _ _ l Hw) by (unfold resolve_fuel; lia).
Qed.

Lemma ld_total n (b : bytes) off : 0 <= off -> off + Z.of_nat n <= zlen b -> is_Some (ld n b off).
Proof. intros. unfold ld. destruct (slice_total b off (Z.of_nat n)) as [x ->]; [lia..|]. by eexists. Qed.

Lemma target_at_total (b : bytes) base i : 0 <= i -> i + 64 <= zlen b -> is_Some (target_at b base i).
Proof.
  intros. unfold target_at, Dentry.first_cluster, Dentry.data_length, Dentry.file_attributes.
  destruct (ld_total 4 b (i + 32 + 20)) as [? ->]; [lia..|].
  destruct (ld_total 8 b (i + 32 + 24)) as [? ->]; [lia..|].
  destruct (ld_total 2 b (i + 4)) as [? ->]; [lia..|]. by eexists.
Qed.

Lemma lookup_in_total (b nm t : bytes) base l :
  zlen b = 4096 -> Forall (wf_set b) l -> nozero nm -> is_Some (lookup_in b (nm ++ 0 :: t) base l).
Proof.
  intros Hz Hwf Hnm. unfold lookup_in. destruct (find_set_total b nm t l Hz Hwf Hnm) as [[j|] Hj]; rewrite Hj, Some_bind;
    [|by eexists].
  destruct (find_set_in _ _ _ _ Hj) as [c Hin]. rewrite Forall_forall in Hwf.
  pose proof (Hwf _ Hin) as (?&?&?&?&?). destruct (target_at_total b base j) as [? ->]; [lia..|]. by eexists.
Qed.

(** ** Writing a run of sectors *)

Definition sectors_at (lba n x : Z) : Prop := lba <= x < lba + n.

Lemma write_sectors_ok n (body : Z -> M (exfat D) unit) (f : Z -> bytes) lba start s :
  (forall k s', start <= k < start + Z.of_nat n -> body k s' = write_or (-1) (lba + k) (f k) s') ->
  (forall k, start <= k < start + Z.of_nat n ->
     is_sector (f k) /\ is_Some (img s (lba + k)) /\ lba_ok (lba + k)) ->
  exists s', for_loop n start 1 body s = Some (Val tt, s') /\
    frame_of (sectors_at (lba + start) (Z.of_nat n)) s s' /\
    forall k, start <= k < start + Z.of_nat n -> img s' (lba + k) = Some (f k).
Proof.
  intros Hbody Hf.
  destruct (for_loop_inv (fun j s' => frame_of (sectors_at (lba + start) (Z.of_nat n)) s s' /\
      forall k, start <= k < j -> img s' (lba + k) = Some (f k)) n 1 body start s) as (s' & Hl & Hfr & Hk).
  - intros j s1 (m & -> & Hm) [Hfr Hk]. set (j := start + Z.of_nat m * 1) in *.
    destruct (Hf j) as (Hsec & Hpres & Hlba); [lia|]. pose proof Hfr as (_ & _ & Hp).
    destruct (Hp _ Hpres) as [b Hb].
    destruct (write_or_ok s1 (-1) (lba + j) b (f j) Hb Hlba Hsec) as (s2 & Hw & Hfr2 & Hi).
    exists s2. rewrite Hbody by lia. split; [done|]. split.
    + etrans; [done|]. eapply frame_mono; [done|]. intros x <-. unfold sectors_at. lia.
    + intros k Hk'. rewrite Hi. destruct (Z.eqb_spec (lba + k) (lba + j)) as [E|E].
      * by replace k with j by lia.
      * apply Hk. lia.
  - split; [apply frame_refl|]. lia.
  - exists s'. split; [done|]. split; [done|]. intros k Hk'. apply Hk. lia.
Qed.

(** A part of a cluster buffer written back. *)
Lemma write_parts_ok s lba b b' start n lo hi :
  cluster_is s lba b -> is_bytes b -> same_outside b b' lo hi ->
  0 <= start -> start + Z.of_nat n <= 8 -> start * 512 <= lo -> hi <= (start + Z.of_nat n) * 512 ->
  exists s', for_loop n start 1 (write_part lba b') s = Some (Val tt, s') /\
    frame_of (sectors_at lba 8) s s' /\ cluster_is s' lba b'.
Proof.
  intros (Hz & Hl & Hi) Hb (Hz' & Hb' & Ho) Hs Hn Hlo Hhi.
  set (f := fun k => default [] (slice b' (k * 512) 512)).
  assert (forall k, 0 <= k < 8 -> slice b' (k * 512) 512 = Some (f k)) as Hf.
  { intros k Hk. unfold f. by destruct (slice_total b' (k * 512) 512) as [x ->]; [lia..|]. }
  destruct (write_sectors_ok n (write_part lba b') f lba start s) as (s' & Hw & Hfr & Hk).
  - intros k s' Hk. unfold write_part. by rewrite (bind_lift _ _ _ _ (Hf k ltac:(lia))).
  - intros k Hk. split; [|split].
    + split; [exact (slice_zlen _ _ _ _ (Hf k ltac:(lia)))|].
      exact (is_bytes_slice _ _ _ _ (Hb' Hb) (Hf k ltac:(lia))).
    + rewrite Hi by lia. apply slice_total; lia.
    + unfold lba_ok. lia.
  - exists s'. split; [done|]. split; [eapply frame_mono; [done|]; unfold sectors_at; lia|].
    split; [lia|]. split; [done|]. intros k Hk'.
    destruct (decide (start <= k < start + Z.of_nat n)) as [Hin|Hout].
    + rewrite Hk by done. symmetry. by apply Hf.
    + destruct Hfr as (_ & Hfr & _). rewrite Hfr by (unfold sectors_at; lia). rewrite Hi by done.
      symmetry. apply slice_ext; [done|]. intros x Hx. apply Ho. lia.
Qed.

Lemma is_sector_zeros : is_sector (zeros 512).
Proof. split; [done|apply is_bytes_zeros]. Qed.

Lemma clus_present s c k :
  vol_ok s -> 2 <= c < g_cluster_count s + 2 -> 0 <= k < 8 ->
  is_Some (img s (clus_lba s c + k)) /\ lba_ok (clus_lba s c + k).
Proof.
  intros (_ & Hh & _ & Hc & Hp & _) Hr Hk. split; [auto|].
  unfold lba_ok, clus_lba, EXFAT_MAX_BITMAP_CLUSTERS in *. lia.
Qed.

Lemma zero_dir_ok s is_dir c :
  vol_ok s -> in_vol s c ->
  exists s', zero_dir is_dir c s = Some (Val tt, s') /\
    frame_of (sectors_at (clus_lba s c) 8) s s'.
Proof.
  intros Hv Hc. unfold zero_dir, in_vol in *. destruct is_dir; [|exists s; split; [done|apply frame_refl]].
  rewrite bind_gets, cluster_lba_ok by (try done; lia).
  destruct (write_sectors_ok 8 (fun k => write_or (-1) (clus_lba s c + k) (zeros 512)) (fun _ => zeros 512)
    (clus_lba s c) 0 s) as (s' & Hw & Hfr & _).
  - done.
  - intros k Hk. split; [apply is_sector_zeros|]. apply clus_present; try done; lia.
  - exists s'. split; [done|]. by rewrite Z.add_0_r in Hfr.
Qed.

(** ** Creating a node *)

Lemma name_entries_range len : 1 <= len <= 255 -> 1 <= (len + 14) / 15 <= 17 /\ len <= 15 * ((len + 14) / 15).
Proof.
  intros. pose proof (Z.div_mod (len + 14) 15 ltac:(lia)). pose proof (Z.mod_pos_bound (len + 14) 15 ltac:(lia)). lia.
Qed.

Lemma sector_span slot n :
  0 <= slot -> 1 <= n -> slot + n * 32 <= 4096 ->
  let a := slot / 512 in let e := (slot + n * 32 - 1) / 512 in
  0 <= a /\ a <= e /\ e <= 7 /\ a * 512 <= slot /\ slot + n * 32 <= (e + 1) * 512.
Proof.
  intros. cbn. pose proof (Z.div_mod slot 512 ltac:(lia)). pose proof (Z.mod_pos_bound slot 512 ltac:(lia)).
  pose proof (Z.div_mod (slot + n * 32 - 1) 512 ltac:(lia)).
  pose proof (Z.mod_pos_bound (slot + n * 32 - 1) 512 ltac:(lia)). lia.
Qed.

(** The cluster an allocation returns is neither the bitmap nor the current
    directory. *)
Lemma allocated_fresh s s1 c :
  fs_ok s -> allocated s s1 1 c ->
  in_vol s c /\ c <> g_current_cluster s /\ used s (c - 2) = false.
Proof.
  intros (Hv & Hcur & Hu & _) (H2 & Hle & Hfree & _). specialize (Hfree (c - 2) ltac:(lia)).
  destruct Hv as (_ & _ & _ & _ & _ & Hu0). unfold in_vol.
  assert (c <> 2) by (intros ->; change (2 - 2) with 0 in Hfree; congruence). split; [lia|]. split; [congruence|done].
Qed.

Lemma frame_used s s' P i :
  frame_of P s s' -> (forall x, bm_region s x -> ~ P x) -> 0 <= i < g_cluster_count s -> used s' i = used s i.
Proof.
  intros Hf Hn Hi. eapply used_frame; [done|]. apply Hn. pose proof (bm_index s i Hi). unfold bm_region. lia.
Qed.

Lemma sectors_at_not_bitmap s c x :
  vol_ok s -> in_vol s c -> bm_region s x -> ~ sectors_at (clus_lba s c) 8 x.
Proof.
  intros Hv Hc Hb Hx. apply (cluster_not_bitmap s c (x - clus_lba s c)); try done; unfold sectors_at in *; [lia|].
  by replace (clus_lba s c + (x - clus_lba s c)) with x by lia.
Qed.

(** What creation changes: the bitmap gets one more cluster, the directory one
    more entry set, and a new directory an empty cluster. *)
Record created s s' (b b' : bytes) (name : bytes) (is_dir : bool) (c slot : Z) : Prop := {
  cr_slot : free_slot b slot ((zlen name + 14) / 15 + 2);
  cr_out : same_outside b b' slot (slot + ((zlen name + 14) / 15 + 2) * 32);
  cr_set : set_at b' slot ((zlen name + 14) / 15) name is_dir c 0;
  cr_dir : cluster_is s' (clus_lba s (g_current_cluster s)) b';
  cr_free : used s (c - 2) = false;
  cr_used i : 0 <= i < g_cluster_count s -> used s' i = if i =? c - 2 then true else used s i;
  cr_vol : vol_ok s';
  cr_same : same_vars s s';
  cr_in : in_vol s c;
}.

Lemma create_node_ok s b name t is_dir :
  fs_ok s -> cluster_is s (clus_lba s (g_current_cluster s)) b -> is_bytes b ->
  Forall (fun c => 0 < c < 256) name -> 1 <= zlen name <= 255 ->
  exfat_create_node (Some (name ++ 0 :: t)) is_dir s = Some (Val (-1), s) \/
  exists s' b' c slot, exfat_create_node (Some (name ++ 0 :: t)) is_dir s = Some (Val 0, s') /\
    created s s' b b' name is_dir c slot.
Proof.
  intros Hfs Hcl Hb Hn Hlen. pose proof Hfs as (Hv & Hcur & Hucur & _). pose proof Hv as (Hbm & _).
  set (k := (zlen name + 14) / 15). pose proof (name_entries_range (zlen name) Hlen) as Hk. fold k in Hk.
  assert (cstr (name ++ 0 :: t) name) as Hcs.
  { exists t. split; [done|]. eapply Forall_impl; [exact Hn|]. cbn. lia. }
  assert (slice (name ++ 0 :: t) 0 (zlen name) = Some name) as Hsl by exact (slice_mid [] name (0 :: t)).
  pose proof Hcl as (Hz & _ & _).
  assert (exists c0, rd (name ++ 0 :: t) 0 = Some c0 /\ c0 <> 0) as (c0 & Hr0 & Hc0).
  { destruct name as [|c0 name0]; [change (zlen []) with 0 in Hlen; lia|]. exists c0. split; [done|].
    apply Forall_cons in Hn as [? _]. lia. }
  unfold exfat_create_node, fn. mlift Hr0. rewrite eqb_neq by done. rewrite bind_gets.
  rewrite cluster_lba_ok by (try done; unfold in_vol in Hcur; lia).
  mrun (read_cluster _ _ _ Hcl). mlift (strlen_cstr _ _ Hcs). rewrite u32_small by (unfold_int; lia).
  destruct (Z.ltb_spec 255 (zlen name)); [lia|]. fold k.
  destruct (find_slot_ok slot_fuel (Z.to_nat (1 + (1 + k))) b 0 Hz) as (slot & Hslot & Hsl'); try lia; try done.
  mlift Hslot. destruct Hsl' as [->|Hfree]; [by left|].
  replace (Z.of_nat (Z.to_nat (1 + (1 + k)))) with (k + 2) in Hfree by lia.
  pose proof Hfree as (Hs0 & _ & Hsend & _). rewrite eqb_neq by lia.
  destruct (alloc_blocks_ok s 1 Hbm ltac:(lia)) as [(c & s1 & Ha & Hal)|[Ha _]]; unfold exfat_alloc_block;
    mrun Ha; [|by left].
  destruct (allocated_fresh s s1 c Hfs Hal) as (Hc & Hne & Hcf).
  destruct Hal as (Hc2 & Hcle & _ & (Hf1 & Hbits)). rewrite eqb_neq by lia.
  assert (Hst1 : vol_ok s1).
  { eapply vol_ok_frame; [done|done|]. rewrite Hbits by (unfold in_vol in *; lia). unfold in_run. bgoal; try done.
    by destruct Hv as (_ & _ & _ & _ & _ & ->). }
  pose proof Hf1 as (Hv1 & _). pose proof Hv1 as (Ecur & _ & _ & _ & _ & Ecc & _).
  assert (in_vol s1 c) as Hc1 by (unfold in_vol in *; by rewrite Ecc).
  destruct (zero_dir_ok s1 is_dir c Hst1 Hc1) as (s2 & Hzd & Hf2). mrun Hzd. mlift Hsl.
  rewrite (clus_lba_same s s1 c Hv1) in Hf2.
  destruct (put_entry_set_ok b slot k name is_dir c) as (b' & Hput & Hso & Hset); try done; try lia.
  { unfold in_vol, is_u32 in *. destruct Hv as (_&_&_&Hmax&_). unfold EXFAT_MAX_BITMAP_CLUSTERS in Hmax. lia. }
  mlift Hput.
  assert (cluster_is s2 (clus_lba s (g_current_cluster s)) b) as Hcl2.
  { eapply cluster_is_frame; [exact Hf2| |].
    - eapply cluster_is_frame; [exact Hf1|done|]. intros j Hj. by apply cluster_not_bitmap.
    - intros j Hj. unfold sectors_at, clus_lba. lia. }
  pose proof (sector_span slot (k + 2) Hs0 ltac:(lia) Hsend) as (Ha0 & Hae & He7 & Hlo & Hhi).
  replace ((1 + (1 + k)) * 32) with ((k + 2) * 32) by lia.
  destruct (write_parts_ok s2 (clus_lba s (g_current_cluster s)) b b' (slot / 512)
    (Z.to_nat ((slot + (k + 2) * 32 - 1) / 512 - slot / 512 + 1)) slot (slot + (k + 2) * 32))
    as (s3 & Hw & Hf3 & Hcl3); try done; try lia.
  mrun Hw. right. exists s3, b', c, slot. split; [done|].
  assert (Hu3 : forall i, 0 <= i < g_cluster_count s -> used s3 i = if i =? c - 2 then true else used s i).
  { intros i Hi. destruct (same_bm s s1 Hv1) as (Eb & En & _).
    pose proof Hf2 as (Hv2 & _). pose proof (transitivity Hv1 Hv2) as Hv12. destruct (same_bm s s2 Hv12) as (Eb2 & En2 & Ec2).
    rewrite (frame_used s2 s3 _ i Hf3) by (try lia; unfold bm_region; rewrite Eb2, En2; intros x; by apply sectors_at_not_bitmap).
    rewrite (frame_used s1 s2 _ i Hf2) by (try lia; unfold bm_region; rewrite Eb, En; intros x; by apply sectors_at_not_bitmap).
    rewrite Hbits by done. unfold in_run. bgoal; done. }
  pose proof Hf2 as (Hv2 & _). pose proof Hf3 as (Hv3 & _).
  constructor; try done.
  - eapply (vol_ok_frame _ s2); [|done|].
    + eapply (vol_ok_frame _ s1); [done|done|].
      destruct (same_bm s s1 Hv1) as (Eb & En & Ec).
      rewrite (frame_used s1 s2 _ 0 Hf2) by (try (unfold in_vol in *; lia); unfold bm_region; rewrite Eb, En; intros x; by apply sectors_at_not_bitmap).
      by destruct Hst1 as (_ & _ & _ & _ & _ & ->).
    + rewrite Hu3 by (unfold in_vol in *; lia). destruct Hv as (_ & _ & _ & _ & _ & ->). by destruct (_ =? _).
  - etrans; [exact Hv1|]. by etrans.
Qed.

(** The directory after a creation: well formed, the new name is found first
    when no set had it, and other names are found where they were. *)
Lemma created_walk s s' b b' name is_dir c slot l :
  created s s' b b' name is_dir c slot -> zlen b = 4096 -> 1 <= zlen name <= 255 ->
  walks b 0 l -> Forall (wf_set b) l ->
  exists l1 l2, l = l1 ++ l2 /\ walks b' 0 (l1 ++ (slot, (zlen name + 14) / 15 + 1) :: l2) /\
    Forall (wf_set b') (l1 ++ (slot, (zlen name + 14) / 15 + 1) :: l2) /\
    Forall (fun p => fst p + snd p * 32 + 32 <= slot) l1 /\
    Forall (fun p => slot + ((zlen name + 14) / 15 + 2) * 32 <= fst p) l2 /\ zlen b' = zlen b /\
    (forall nm, find_set b' nm l2 = find_set b nm l2).
Proof.
  intros [Hslot Hout Hset _ _ _ _ _ _] Hz Hlen Hw Hwf.
  pose proof (name_entries_range _ Hlen). set (k := (zlen name + 14) / 15) in *.
  destruct Hslot as (Hs0 & Hs32 & Hse & Hfree). pose proof Hout as (Hz' & _ & Ho).
  destruct (walks_insert b b' slot (k + 2) Hz' Hs0 Hs32 ltac:(lia) Hse Ho) with (i := 0) (l := l)
    as (l1 & l2 & El & Hw' & Hwf' & Hl1 & Hl2 & Hf); try done; try lia.
  - intros j Hj (ty & Hty & Hne). destruct (Hfree j Hj) as (ty' & Hty' & He). congruence.
  - intros j Hj. destruct (Hfree j Hj) as (ty & Hty & He). exists ty. split; [done|]. by apply file_in_use.
  - exact (sa_type _ _ _ _ _ _ _ Hset).
  - replace (k + 2 - 1) with (1 + k) by lia. exact (sa_count _ _ _ _ _ _ _ Hset).
  - intros j Hj. apply (sa_in_use _ _ _ _ _ _ _ Hset). lia.
  - replace (k + 2 - 1) with (k + 1) in * by lia. by exists l1, l2.
Qed.

Lemma created_fs_ok s s' b b' name is_dir c slot l :
  created s s' b b' name is_dir c slot -> fs_ok s -> zlen b = 4096 -> is_bytes b -> 1 <= zlen name <= 255 ->
  walks b 0 l -> Forall (wf_set b) l -> fs_ok s'.
Proof.
  intros Hcr (Hv & Hcur & Hu & _) Hz Hb Hlen Hw Hwf.
  destruct (created_walk _ _ _ _ _ _ _ _ _ Hcr Hz Hlen Hw Hwf) as (l1 & l2 & _ & Hw' & Hwf' & _ & _ & Hz' & _).
  destruct Hcr as [_ Hout _ Hdir _ Hused Hvol Hsame _]. pose proof Hsame as (Ecur & _ & _ & _ & _ & Ecc & _).
  split; [done|]. unfold in_vol in *. rewrite Ecur, Ecc. split; [done|]. split.
  - rewrite Hused by lia. rewrite Hu. by destruct (_ =? _).
  - exists b'. rewrite (clus_lba_same s s') by done. split; [done|]. split; [congruence|].
    split; [by apply Hout|]. eauto.
Qed.

(** Looking up any name before and after. *)
Lemma created_lookup s s' b b' name is_dir c slot l nm t :
  created s s' b b' name is_dir c slot -> zlen b = 4096 -> 1 <= zlen name <= 255 -> nozero name ->
  walks b 0 l -> Forall (wf_set b) l -> nozero nm ->
  exists l', walks b' 0 l' /\
  forall base,
    (fold_case nm <> fold_case name ->
       lookup_in b' (nm ++ 0 :: t) base l' = lookup_in b (nm ++ 0 :: t) base l) /\
    (fold_case nm = fold_case name -> lookup_in b (nm ++ 0 :: t) base l = Some None ->
       lookup_in b' (nm ++ 0 :: t) base l' =
         Some (Some (Target c 0 is_dir (base + slot / 512) (slot mod 512)))).
Proof.
  intros Hcr Hz Hlen Hnz Hw Hwf Hnm.
  destruct (created_walk _ _ _ _ _ _ _ _ _ Hcr Hz Hlen Hw Hwf) as (l1 & l2 & -> & Hw' & Hwf' & Hl1 & Hl2 & Hz' & Hf2).
  eexists. split; [exact Hw'|]. intros base. destruct Hcr as [Hslot Hout Hset _ _ _ _ _ _].
  apply Forall_app in Hwf as [Hwf1 Hwf2]. destruct Hout as (_ & _ & Ho).
  pose proof (name_entries_range _ Hlen). set (k := (zlen name + 14) / 15) in *.
  unfold lookup_in.
  rewrite (find_set_before b b' slot (k + 2) Hz' Ho (nm ++ 0 :: t) l1 _ Hwf1 Hl1).
  rewrite find_set_app. destruct (find_set_total b nm t l1 Hz Hwf1 Hnm) as [r1 Hr1]. rewrite Hr1, !Some_bind.
  assert (forall j, (exists cc, (j, cc) ∈ l1 ++ l2) -> target_at b' base j = target_at b base j) as Htgt.
  { intros j (cc & Hin). apply target_at_ext; [done|]. intros x Hx. apply Ho. rewrite Forall_forall in *.
    apply elem_of_app in Hin as [Hin|Hin].
    - pose proof (Hl1 _ Hin) as Hb. pose proof (Hwf1 _ Hin) as (?&_). cbn in Hb. lia.
    - pose proof (Hl2 _ Hin) as Hb. cbn in Hb. lia. }
  destruct r1 as [j|].
  { split; [|rewrite Some_bind; by destruct (target_at b base j)]. intros _. rewrite !Some_bind, Htgt; [done|].
    destruct (find_set_in _ _ _ _ Hr1) as [cc ?]. exists cc. apply elem_of_app. by left. }
  cbn [find_set]. replace (k + 1) with (1 + k) by lia. rewrite (sa_name _ _ _ _ _ _ _ Hset), Some_bind.
  rewrite name_equal_ok, Some_bind by done.
  destruct (find_set_total b nm t l2 Hz Hwf2 Hnm) as [r2 Hr2].
  split; intros Hc.
  - rewrite bool_decide_eq_false_2 by congruence. rewrite Hf2, Hr2, !Some_bind. destruct r2 as [j|]; [|done].
    rewrite Htgt; [done|]. destruct (find_set_in _ _ _ _ Hr2) as [cc ?]. exists cc. apply elem_of_app. by right.
  - intros _. rewrite bool_decide_eq_true_2 by congruence. rewrite Some_bind.
    by rewrite (target_at_set _ base _ _ _ _ _ _ Hset).
Qed.

End OnDisk.

(** C8: Creating a node and looking it up. Given: a mounted volume that satisfies the
    invariant [fs_ok], and a name of 1 to 255 characters that does not resolve in the
    current directory yet (names are compared without regard to case;
    [exfat_create_node] itself does not look for an existing entry of the name). Then
    [exfat_create_node] either returns -1 with no effect, or returns 0 and: the
    invariant holds; one cluster that was free is now allocated and no other cluster
    changes its state; the name resolves to an empty node of the requested kind in that
    cluster; and every other name resolves exactly as before. *)
Theorem create_then_lookup {D} `{LawfulDisk D} (s : exfat D) name t is_dir :
  fs_ok s -> Forall (fun c => 0 < c < 256) name -> 1 <= zlen name <= 255 ->
  exfat_resolve_entry (name ++ 0 :: t) s = Some (Val None, s) ->
  exfat_create_node (Some (name ++ 0 :: t)) is_dir s = Some (Val (-1), s) \/
  exists s' c, exfat_create_node (Some (name ++ 0 :: t)) is_dir s = Some (Val 0, s') /\
    fs_ok s' /\ used s (c - 2) = false /\
    (forall i, 0 <= i < g_cluster_count s -> used s' i = if i =? c - 2 then true else used s i) /\
    (exists target, exfat_resolve_entry (name ++ 0 :: t) s' = Some (Val (Some target), s') /\
       t_cluster target = c /\ t_size target = 0 /\ t_is_dir target = is_dir) /\
    (forall nm t', nozero nm -> fold_case nm <> fold_case name ->
       exists r, exfat_resolve_entry (nm ++ 0 :: t') s = Some (Val r, s) /\
                 exfat_resolve_entry (nm ++ 0 :: t') s' = Some (Val r, s')).
Proof.
  intros Hfs Hn Hlen Hnone. pose proof Hfs as (Hv & Hcur & _ & b & Hcl & Hz & Hb & l & Hw & Hwf).
  assert (nozero name) as Hnz by (eapply Forall_impl; [exact Hn|]; cbn; lia).
  destruct (create_node_ok s b name t is_dir Hfs Hcl Hb Hn Hlen) as [?|(s' & b' & c & slot & Hr & Hcr)]; [by left|].
  right. exists s', c. split; [done|].
  pose proof (created_fs_ok _ _ _ _ _ _ _ _ _ Hcr Hfs Hz Hb Hlen Hw Hwf) as Hfs'. split; [done|].
  pose proof Hcr as [_ _ _ Hdir Hfree Hused Hvol Hsame _].
  pose proof Hsame as (Ecur & _). pose proof Hfs' as (_ & Hcur' & _).
  assert (cluster_is s' (clus_lba s' (g_current_cluster s')) b') as Hcl'
    by (rewrite Ecur, (clus_lba_same s s') by done; done).
  split; [done|]. split; [done|]. split.
  - destruct (created_lookup _ _ _ _ _ _ _ _ _ name t Hcr Hz Hlen Hnz Hw Hwf Hnz) as (l' & Hw' & Hl).
    rewrite (resolve_entry_ok _ b l) in Hnone by done. rewrite (resolve_entry_ok _ b' l') by done.
    rewrite Ecur, (clus_lba_same s s') by done.
    destruct (Hl (clus_lba s (g_current_cluster s))) as [_ Hl2].
    rewrite Hl2; [rewrite Some_bind; by eexists| done|].
    destruct (lookup_in b (name ++ 0 :: t) _ l) as [r|]; [|done]. rewrite Some_bind in Hnone. by simplify_eq.
  - intros nm t' Hnm Hne.
    destruct (created_lookup _ _ _ _ _ _ _ _ _ nm t' Hcr Hz Hlen Hnz Hw Hwf Hnm) as (l' & Hw' & Hl).
    rewrite (resolve_entry_ok _ b l), (resolve_entry_ok _ b' l') by done.
    rewrite Ecur, (clus_lba_same s s') by done.
    destruct (Hl (clus_lba s (g_current_cluster s))) as [Hl1 _]. rewrite Hl1 by done.
    destruct (lookup_in_total b nm t' (clus_lba s (g_current_cluster s)) l Hz Hwf Hnm) as [r ->].
    exists r. by rewrite !Some_bind.
Qed.
