(* ===== verification/ExfatFormat.v ===== *)
(** * Formatting and mounting

    Formatting a drive and mounting it establishes the volume invariant
    [fs_ok], with an empty root directory. *)

From S2P Require Import Prelude CMonad Disk CString Exfat ExfatDisk ExfatBitmap ExfatDir ExfatCreate.

(** ** The sectors that formatting writes *)

(** Disjointness of fields at constant offsets. *)
Ltac fields_apart :=
  repeat constructor;
  unfold Vbr.partition_offset, Vbr.volume_length, Vbr.fat_offset, Vbr.fat_length,
    Vbr.cluster_heap_offset, Vbr.cluster_count, Vbr.root_dir_cluster, Vbr.volume_serial,
    Vbr.fs_revision, Vbr.bytes_per_sector_shift, Vbr.sectors_per_cluster_shift, Vbr.num_fats,
    Vbr.drive_select, Vbr.boot_signature; lia.

Definition vbr_ok (b : bytes) (cnt : Z) : Prop :=
  is_sector b /\ slice b 3 8 = Some fs_label /\ ld 1 b 108 = Some 9 /\ ld 1 b 109 = Some 3 /\
  ld 4 b 88 = Some 2048 /\ ld 4 b 96 = Some 4 /\ ld 4 b 92 = Some cnt.

Lemma vbr_sector_ok total fat cnt :
  is_u32 cnt -> exists b, vbr_sector total fat 2048 cnt = Some b /\ vbr_ok b cnt.
Proof.
  intros Hc. unfold vbr_sector.
  destruct (blit_total (zeros 512) [0xEB; 0x76; 0x90] 0) as [b0 Hb0]; [done..|]. rewrite Hb0, Some_bind.
  pose proof (blit_zlen _ _ _ _ Hb0) as Hz0. change (zlen (zeros 512)) with 512 in Hz0.
  destruct (blit_total b0 fs_label Vbr.fs_name) as [b1 Hb1]; [done|rewrite Hz0; done|]. rewrite Hb1, Some_bind.
  pose proof (blit_zlen _ _ _ _ Hb1) as Hz1. rewrite Hz0 in Hz1.
  match goal with |- context [put_fields b1 ?l] => set (fields := l) end.
  destruct (put_fields_total fields b1) as [b2 Hb2].
  { unfold fields. rewrite Hz1. repeat constructor; done. }
  exists b2. split; [done|].
  assert (same_outside b1 b2 64 512) as Hso.
  { eapply put_fields_outside; [done|]. unfold fields. repeat constructor; done. }
  destruct Hso as (Hz2 & Hbb & Ho).
  assert (is_bytes b1) as Hib1.
  { assert (is_bytes fs_label) as Hlab by (apply (bool_decide_unpack _); reflexivity).
    assert (is_bytes [0xEB; 0x76; 0x90]) as Hj by (apply (bool_decide_unpack _); reflexivity).
    exact (is_bytes_blit _ _ _ _ (is_bytes_blit _ _ _ _ (is_bytes_zeros 512) Hj Hb0) Hlab Hb1). }
  split; [split; [by rewrite Hz2, Hz1|auto]|].
  split. { rewrite (slice_ext b1 b2); [exact (slice_blit _ _ _ _ Hb1)|done|]. intros x Hx. apply Ho. lia. }
  split. { by rewrite (put_fields_get [_; _; _; _; _; _; _; _; _] _ 1 108 9 _ _ Hb2) by fields_apart. }
  split. { by rewrite (put_fields_get [_; _; _; _; _; _; _; _; _; _] _ 1 109 3 _ _ Hb2) by fields_apart. }
  split. { by rewrite (put_fields_get [_; _; _; _] _ 4 88 2048 _ _ Hb2) by fields_apart. }
  split. { by rewrite (put_fields_get [_; _; _; _; _; _] _ 4 96 4 _ _ Hb2) by fields_apart. }
  rewrite (put_fields_get [_; _; _; _; _] _ 4 92 cnt _ _ Hb2) by fields_apart.
  f_equal. apply Z.mod_small. change (256 ^ Z.of_nat 4) with 4294967296. unfold is_u32 in Hc. lia.
Qed.

(** No entry set at all. *)
Lemma walks_none (b : bytes) k i :
  (forall j, i <= j <= 4000 -> j mod 32 = 0 -> exists ty, rd b j = Some ty /\ ty <> EXFAT_TYPE_FILE) ->
  i mod 32 = 0 -> 4000 - i < 32 * Z.of_nat k -> walks b i [].
Proof.
  revert i. induction k as [|k IH]; intros i Hty Hm Hk.
  { constructor. lia. }
  destruct (Z.lt_ge_cases 4000 i); [by constructor|].
  destruct (Hty i ltac:(lia) Hm) as (ty & Hr & Hne). eapply walks_skip; try done.
  apply IH; [intros j Hj; apply Hty; lia| |lia].
  replace (i + 32) with (i + 1 * 32) by lia. by rewrite Z.mod_add by lia.
Qed.

Lemma root_sector_ok cnt :
  exists b, root_sector cnt = Some b /\ is_sector b /\ rd b 0 = Some EXFAT_TYPE_BITMAP /\
    rd b 32 = Some EXFAT_TYPE_UPCASE /\ forall x, 64 <= x < 512 -> rd b x = Some 0.
Proof.
  unfold root_sector. match goal with |- context [put_fields _ ?l] => set (fields := l) end.
  destruct (put_fields_total fields (zeros 512)) as [b Hb].
  { unfold fields. change (zlen (zeros 512)) with 512. repeat constructor; done. }
  exists b. split; [done|]. assert (same_outside (zeros 512) b 0 64) as (Hz & Hbb & Ho).
  { eapply put_fields_outside; [done|]. unfold fields. repeat constructor; done. }
  split; [split; [by rewrite Hz|apply Hbb, is_bytes_zeros]|]. split_and!.
  - apply rd_ld1. by rewrite (put_fields_get [] _ 1 0 _ _ _ Hb) by fields_apart.
  - apply rd_ld1. by rewrite (put_fields_get [_; _; _] _ 1 32 _ _ _ Hb) by fields_apart.
  - intros x Hx. rewrite Ho by lia. rewrite rd_lookup by lia. apply lookup_replicate. split; [done|lia].
Qed.

Lemma wf_root b : 
  is_sector b -> rd b 0 = Some EXFAT_TYPE_BITMAP -> rd b 32 = Some EXFAT_TYPE_UPCASE ->
  (forall x, 64 <= x < 512 -> rd b x = Some 0) ->
  wf_dir (b ++ zeros 3584) /\ walks (b ++ zeros 3584) 0 [].
Proof.
  intros [Hz Hb] Hr0 Hr32 Hr. unfold SECTOR in Hz.
  assert (walks (b ++ zeros 3584) 0 []) as Hw.
  { apply (walks_none _ 127); [|done|lia]. intros j Hj Hm. destruct (Z.lt_ge_cases j 512).
    - rewrite rd_app_l by lia. pose proof (Z.div_mod j 32 ltac:(lia)).
      destruct (Z.eq_dec j 0) as [->|]; [by eexists|]. destruct (Z.eq_dec j 32) as [->|]; [by eexists|].
      exists 0. split; [apply Hr; lia|done].
    - exists 0. split; [|done]. rewrite rd_app_r, rd_lookup by lia. apply lookup_replicate. split; [done|lia]. }
  split; [|done]. split; [rewrite zlen_app, Hz; done|]. split; [apply is_bytes_app; split; [done|apply is_bytes_zeros]|].
  exists []. split; [done|constructor].
Qed.

(** Sectors without parameters, by computation. *)
Lemma computed_sector (o : option bytes) :
  (match o with Some b => bool_decide (is_sector b) | None => false end) = true ->
  exists b, o = Some b /\ is_sector b.
Proof. destruct o as [b|]; [|done]. intros Hb%bool_decide_eq_true. by exists b. Qed.

Lemma fat_sector_ok : exists b, fat_sector = Some b /\ is_sector b.
Proof. apply computed_sector. vm_compute. reflexivity. Qed.

Lemma upcase_sector_ok : exists b, blit (zeros 512) 0 exfat_upcase_default = Some b /\ is_sector b.
Proof. apply computed_sector. vm_compute. reflexivity. Qed.

(** ** Running the formatter *)

Section Format.
Context {D : Type} `{LawfulDisk D}.
Implicit Types s : exfat D.

(** The sectors from the start of the partition up to [hi] exist. *)
Definition present (hi : Z) s : Prop := forall x, 4096 <= x < hi -> is_Some (img s x).

Lemma write_step s hi lba b' :
  present hi s -> 4096 <= lba < hi -> hi <= 2 ^ 48 -> is_sector b' ->
  exists s', write_or (-1) lba b' s = Some (Val tt, s') /\ present hi s' /\ same_vars s s' /\
    forall x, img s' x = if x =? lba then Some b' else img s x.
Proof.
  intros Hp Hl Hhi Hs. destruct (Hp lba Hl) as [b Hb].
  destruct (write_or_ok s (-1) lba b b' Hb ltac:(unfold lba_ok; lia) Hs) as (s' & Hw & (Hv & _ & He) & Hi).
  exists s'. split; [done|]. split; [|done]. intros x Hx. apply He, Hp. done.
Qed.

Definition boot_part (x : Z) : Prop := 4096 <= x < 4120.

Lemma boot_region_ok k s hi i crc :
  present hi s -> 4120 <= hi <= 2 ^ 48 -> 1 <= i -> i + Z.of_nat k <= 11 ->
  exists s' crc', write_boot_region k i crc s = Some (Val crc', s') /\ present hi s' /\ same_vars s s' /\
    forall x, x <= 4096 \/ 4120 <= x -> img s' x = img s x.
Proof.
  intros Hp Hhi. revert s i crc Hp. induction k as [|k IH]; intros s i crc Hp Hi Hk; cbn [write_boot_region].
  { by exists s, crc. }
  destruct (write_step s hi (EXFAT_PARTITION_LBA + i) (zeros 512) Hp) as (s1 & Hw1 & Hp1 & Hv1 & Hi1);
    [unfold EXFAT_PARTITION_LBA; lia|lia|apply is_sector_zeros|].
  destruct (write_step s1 hi (EXFAT_PARTITION_LBA + 12 + i) (zeros 512) Hp1) as (s2 & Hw2 & Hp2 & Hv2 & Hi2);
    [unfold EXFAT_PARTITION_LBA; lia|lia|apply is_sector_zeros|].
  mrun Hw1. mrun Hw2.
  destruct (IH s2 (i + 1) (exfat_calc_boot_crc (zeros 512) 0 crc false) Hp2) as (s3 & c3 & H3 & Hp3 & Hv3 & Hi3); [lia..|].
  exists s3, c3. split; [done|]. split; [done|]. split; [etrans; [done|]; by etrans|].
  intros x Hx. unfold EXFAT_PARTITION_LBA in *. rewrite Hi3, Hi2, Hi1 by lia. by rewrite !eqb_neq by lia.
Qed.

Lemma crc_table_sector crc : is_sector (concat (replicate 128 (le_bytes 4 crc))).
Proof.
  split; [done|]. assert (forall n, is_bytes (concat (replicate n (le_bytes 4 crc)))) as Hall; [|apply Hall].
  intros n. induction n as [|n IH]; [constructor|]. cbn [replicate concat]. apply is_bytes_app. split; [apply is_bytes_le|done].
Qed.

Definition bitmap_sector (i : Z) : bytes := if i =? 0 then 7 :: zeros 511 else zeros 512.

Lemma bitmap_sector_ok i : is_sector (bitmap_sector i).
Proof.
  unfold bitmap_sector. destruct (i =? 0); [|apply is_sector_zeros]. split; [done|].
  apply is_bytes_cons. split; [done|apply is_bytes_zeros].
Qed.

(** The geometry the formatter chooses for a drive of [n] sectors. *)
Definition volume_sectors (n : Z) : Z := Z.min EXFAT_MAX_TOTAL_SECTORS (n - EXFAT_PARTITION_LBA).
Definition volume_clusters (n : Z) : Z := (volume_sectors n - 2048) / 8.

Lemma volume_clusters_range n :
  8192 <= n -> 256 <= volume_clusters n <= EXFAT_MAX_BITMAP_CLUSTERS /\
    6144 + volume_clusters n * 8 <= n.
Proof.
  intros Hn. unfold volume_clusters, volume_sectors, EXFAT_MAX_TOTAL_SECTORS, EXFAT_MAX_BITMAP_CLUSTERS, EXFAT_PARTITION_LBA.
  pose proof (Z.div_mod (Z.min (2048 + 32768 * 8) (n - 4096) - 2048) 8 ltac:(lia)).
  pose proof (Z.mod_pos_bound (Z.min (2048 + 32768 * 8) (n - 4096) - 2048) 8 ltac:(lia)). lia.
Qed.

(** What is on the disk and in the variables after formatting. *)
Record formatted s s' (n : Z) : Prop := {
  fm_vbr : exists b, img s' 4096 = Some b /\ vbr_ok b (volume_clusters n);
  fm_bitmap k : 0 <= k < (volume_clusters n + 4095) / 4096 -> img s' (6144 + k) = Some (bitmap_sector k);
  fm_root : exists b, img s' 6160 = Some b /\ rd b 0 = Some EXFAT_TYPE_BITMAP /\
    rd b 32 = Some EXFAT_TYPE_UPCASE /\ forall x, 64 <= x < 512 -> rd b x = Some 0;
  fm_rest x : 6160 < x -> img s' x = img s x;
  fm_present : present n s';
  fm_path : zlen (g_current_path s') = zlen (g_current_path s);
}.

Lemma strcpy_root path : 2 <= zlen path -> exists path', str_strcpy path (lit "/" ++ [0]) = Some path' /\ zlen path' = zlen path /\
  exists t, path' = lit "/" ++ 0 :: t.
Proof.
  intros Hz. destruct (blit_total path [47; 0] 0) as [path' Hb]; [done|done|].
  exists path'. split; [|split; [by apply (blit_zlen _ _ _ _ Hb)|]].
  - unfold str_strcpy. rewrite (strcpy_blit _ _ _ (lit "/")); [done|]. exists []. split; [done|]. by constructor.
  - apply blit_0_Some in Hb as [_ ->]. by eexists.
Qed.

Lemma format_ok s n :
  ata_drive_sector_count (g_dev s) (ata_current_drive (g_dev s)) = n ->
  8192 <= n <= 2 ^ 48 -> present n s -> 2 <= zlen (g_current_path s) ->
  exists s', exfat_wipe_and_format s = Some (Val 0, s') /\ formatted s s' n.
Proof.
  intros Hcount Hn Hp Hpath. pose proof (volume_clusters_range n ltac:(lia)) as [Hvc Hvn].
  unfold exfat_wipe_and_format, fn. rewrite bind_gets, Hcount.
  unfold EXFAT_PARTITION_LBA, EXFAT_MIN_TOTAL_SECTORS, EXFAT_MAX_BITMAP_CLUSTERS in *.
  destruct (Z.leb_spec n 4096); [lia|]. destruct (Z.ltb_spec (n - 4096) 4096); [lia|]. cbn zeta.
  assert ((if EXFAT_MAX_TOTAL_SECTORS <? n - 4096 then EXFAT_MAX_TOTAL_SECTORS else n - 4096) = volume_sectors n) as ->.
  { unfold volume_sectors, EXFAT_PARTITION_LBA. bgoal; lia. }
  change ((volume_sectors n - 2048) / 8) with (volume_clusters n). set (cnt := volume_clusters n) in *.
  destruct (vbr_sector_ok (volume_sectors n) (((cnt + 2) * 4 + 511) / 512) cnt) as (vbr & Hvbr & Hvok);
    [unfold_int; lia|]. mlift Hvbr. pose proof Hvok as (Hvs & _).
  destruct (write_step s n (4096 + 0) vbr Hp ltac:(lia) ltac:(lia) Hvs) as (s1 & Hw1 & Hp1 & Hv1 & Hi1). mrun Hw1.
  destruct (write_step s1 n (4096 + 12) vbr Hp1 ltac:(lia) ltac:(lia) Hvs) as (s2 & Hw2 & Hp2 & Hv2 & Hi2). mrun Hw2.
  destruct (boot_region_ok 10 s2 n 1 (exfat_calc_boot_crc vbr 0 0 true) Hp2) as (s3 & crc & Hw3 & Hp3 & Hv3 & Hi3); [lia..|].
  mrun Hw3. pose proof (crc_table_sector crc) as Hcs. set (tab := concat _) in *.
  destruct (write_step s3 n (4096 + 11) tab Hp3 ltac:(lia) ltac:(lia) Hcs) as (s4 & Hw4 & Hp4 & Hv4 & Hi4). mrun Hw4.
  destruct (write_step s4 n (4096 + 23) tab Hp4 ltac:(lia) ltac:(lia) Hcs) as (s5 & Hw5 & Hp5 & Hv5 & Hi5). mrun Hw5.
  destruct fat_sector_ok as (fat & Hfat & Hfs). mlift Hfat.
  destruct (write_step s5 n (4096 + 128) fat Hp5 ltac:(lia) ltac:(lia) Hfs) as (s6 & Hw6 & Hp6 & Hv6 & Hi6). mrun Hw6.
  assert (0 <= (cnt + 4095) / 4096 <= 8) as Hns.
  { pose proof (Z.div_mod (cnt + 4095) 4096 ltac:(lia)). pose proof (Z.mod_pos_bound (cnt + 4095) 4096 ltac:(lia)). lia. }
  destruct (write_sectors_ok (Z.to_nat ((cnt + 4095) / 4096)) (write_bitmap_sector 2048) bitmap_sector 6144 0 s6)
    as (s7 & Hw7 & Hf7 & Hi7).
  { intros k s' Hk. unfold write_bitmap_sector, EXFAT_PARTITION_LBA.
    assert ((if k =? 0 then wr (zeros 512) 0 7 else Some (zeros 512)) = Some (bitmap_sector k)) as Hb.
    { unfold bitmap_sector. by destruct (k =? 0). }
    mlift Hb. by replace (4096 + 2048 + k) with (6144 + k) by lia. }
  { intros k Hk. split; [apply bitmap_sector_ok|]. split; [apply Hp6; lia|unfold lba_ok; lia]. }
  mrun Hw7. rewrite Z2Nat.id in * by lia. destruct Hf7 as (Hv7 & Hx7 & Hp7). unfold sectors_at in Hx7.
  assert (present n s7) as Hp7' by (intros x Hx; apply Hp7, Hp6; done).
  destruct upcase_sector_ok as (up & Hup & Hus). mlift Hup.
  destruct (write_step s7 n (4096 + 2048 + 8) up Hp7' ltac:(lia) ltac:(lia) Hus) as (s8 & Hw8 & Hp8 & Hv8 & Hi8). mrun Hw8.
  destruct (root_sector_ok cnt) as (root & Hroot & Hrs & Hr0 & Hr32 & Hrx). mlift Hroot.
  destruct (write_step s8 n (4096 + 2048 + 16) root Hp8 ltac:(lia) ltac:(lia) Hrs) as (s9 & Hw9 & Hp9 & Hv9 & Hi9). mrun Hw9.
  rewrite bind_gets.
  assert (same_vars s s9) as Hv by (do 4 (etrans; [eassumption|]); do 4 (etrans; [eassumption|]); done).
  pose proof Hv as (_ & Epath & _). rewrite Epath.
  destruct (strcpy_root _ Hpath) as (path' & Hcpy & Hzp & _). mlift Hcpy. rewrite bind_modify.
  eexists. split; [reflexivity|]. match goal with |- formatted _ ?st _ => set (s10 := st) end.
  assert (forall x, img s10 x = img s9 x) as Hi10 by done.
  constructor.
  - exists vbr. split; [|done]. rewrite Hi10, Hi9, Hi8, !eqb_neq by lia. rewrite Hx7 by lia.
    rewrite Hi6, Hi5, Hi4, !eqb_neq by lia. rewrite Hi3 by lia. rewrite Hi2, Hi1, (eqb_neq 4096 (4096 + 12)) by lia. reflexivity.
  - intros k Hk. fold cnt in Hk. rewrite Hi10, Hi9, Hi8, !eqb_neq by lia. apply Hi7. lia.
  - exists root. rewrite Hi10, Hi9. change (6160 =? 4096 + 2048 + 16) with true. auto.
  - intros x Hx. rewrite Hi10, Hi9, Hi8, !eqb_neq by lia. rewrite Hx7 by lia.
    rewrite Hi6, Hi5, Hi4, !eqb_neq by lia. rewrite Hi3 by lia. rewrite Hi2, Hi1. by rewrite !eqb_neq by lia.
  - exact Hp9.
  - exact Hzp.
Qed.

Lemma mount_ok s b cnt :
  img s 4096 = Some b -> vbr_ok b cnt -> 1 <= cnt <= EXFAT_MAX_BITMAP_CLUSTERS ->
  2 <= zlen (g_current_path s) ->
  exists path t, path = lit "/" ++ 0 :: t /\ zlen path = zlen (g_current_path s) /\
    exfat_mount s = Some (Val 1, EX 4 path 2048 8 4 cnt (g_dev s)).
Proof.
  intros Hi (Hs & Hl & H1 & H2 & H3 & H4 & H5) Hc Hp. unfold EXFAT_MAX_BITMAP_CLUSTERS in Hc.
  destruct (strcpy_root _ Hp) as (path & Hcpy & Hz & t & Hpt). exists path, t. split; [done|]. split; [done|].
  unfold exfat_mount, fn. mrun (read_or_ok s (-1) EXFAT_PARTITION_LBA b Hi ltac:(unfold lba_ok, EXFAT_PARTITION_LBA; lia)).
  unfold Vbr.fs_name, Vbr.bytes_per_sector_shift, Vbr.sectors_per_cluster_shift, Vbr.cluster_heap_offset,
    Vbr.root_dir_cluster, Vbr.cluster_count.
  mlift Hl. rewrite bool_decide_eq_true_2 by done. cbn [negb].
  mlift H1. mlift H2. mlift H3. mlift H4. mlift H5.
  rewrite (eqb_neq cnt 0) by lia. cbn [negb orb Z.eqb Z.leb Z.ltb Z.compare Pos.compare Pos.compare_cont Pos.eqb].
  rewrite bind_gets. mlift Hcpy. rewrite bind_modify. unfold EXFAT_MAX_BITMAP_CLUSTERS.
  destruct (Z.ltb_spec 32768 cnt); [lia|]. reflexivity.
Qed.

(** The volume the formatter leaves satisfies the invariant once mounted. *)
Lemma formatted_fs_ok s s' n path :
  formatted s s' n -> 8192 <= n <= 2 ^ 48 ->
  (forall k, 1 <= k < 8 -> img s (6160 + k) = Some (zeros 512)) ->
  fs_ok (EX 4 path 2048 8 4 (volume_clusters n) (g_dev s')) /\
  exists b, cluster_is (EX 4 path 2048 8 4 (volume_clusters n) (g_dev s')) 6160 b /\ walks b 0 [].
Proof.
  intros [Hvbr Hbm (root & Hroot & Hr0 & Hr32 & Hrx) Hrest Hpres Hzp] Hn Hzero.
  pose proof (volume_clusters_range n ltac:(lia)) as [Hvc Hvn]. set (cnt := volume_clusters n) in *.
  set (s2 := EX 4 path 2048 8 4 cnt (g_dev s')). unfold EXFAT_MAX_BITMAP_CLUSTERS in Hvc.
  assert (forall x, img s2 x = img s' x) as Himg by done.
  assert (bm_base s2 = 6144) as Hbase by done.
  assert (0 <= (cnt + 4095) / 4096 <= 8 /\ 1 <= (cnt + 4095) / 4096) as [Hns Hns1].
  { pose proof (Z.div_mod (cnt + 4095) 4096 ltac:(lia)). pose proof (Z.mod_pos_bound (cnt + 4095) 4096 ltac:(lia)). lia. }
  pose proof (img_sector _ _ _ Hroot) as Hrs. destruct (wf_root root Hrs Hr0 Hr32 Hrx) as [Hwf Hw].
  assert (cluster_is s2 6160 (root ++ zeros 3584)) as Hcl.
  { pose proof Hrs as [Hz _]. unfold SECTOR in Hz. split; [by rewrite zlen_app, Hz|]. split; [lia|].
    intros k Hk. rewrite Himg. destruct (Z.eq_dec k 0) as [->|].
    - rewrite Z.add_0_r, Hroot. symmetry. rewrite <- Hz. exact (slice_mid [] root (zeros 3584)).
    - rewrite Hrest, Hzero by lia. symmetry. apply slice_Some. rewrite zlen_app, Hz.
      change (zlen (zeros 3584)) with 3584. split_and!; [lia..|].
      rewrite drop_app_ge by (unfold zlen in Hz; lia). unfold zeros. rewrite drop_replicate, take_replicate.
      f_equal. unfold zlen in Hz. lia. }
  assert (forall i, 0 <= i < 4096 -> used s2 i = bit_at (bitmap_sector 0) i) as Hused.
  { intros i Hi. unfold used. rewrite Hbase, Z.div_small, Z.mod_small by lia.
    rewrite Himg, (Hbm 0) by lia. done. }
  split; [|by exists (root ++ zeros 3584)].
  split; [|split; [|split; [|by exists (root ++ zeros 3584)]]].
  - split; [|split; [|split; [|split; [|split]]]].
    + split; [cbn; lia|]. intros x [Hx1 Hx2]. rewrite Hbase in *. unfold bm_sectors in Hx2. cbn [g_cluster_count s2] in Hx2.
      rewrite Himg. apply Hpres. lia.
    + cbn. lia.
    + done.
    + cbn. unfold EXFAT_MAX_BITMAP_CLUSTERS. lia.
    + intros c k Hc Hk. rewrite Himg. apply Hpres. unfold clus_lba. cbn [g_cluster_heap_offset g_cluster_count s2] in *. lia.
    + rewrite Hused by lia. done.
  - unfold in_vol. cbn. lia.
  - change (g_current_cluster s2) with 4. rewrite Hused by lia. done.
Qed.

End Format.

(** C35: Formatting a drive and mounting it. Given: a current drive of 8192 to 2^48
    sectors, all present, whose sectors 6161 to 6167 (the second to the eighth sector of
    the later root directory) are already zero (the formatter does not clear them
    itself, [format_keeps_old_entries]), and a path buffer of at least two bytes. Then
    [exfat_wipe_and_format] returns 0 and [exfat_mount] returns 1, and together they
    establish the volume invariant [fs_ok] (bitmap and clusters on the disk, system
    clusters allocated, root directory well formed) with an empty root directory: no
    name resolves. *)
Theorem format_then_mount {D} `{LawfulDisk D} (s : exfat D) n :
  ata_drive_sector_count (g_dev s) (ata_current_drive (g_dev s)) = n ->
  8192 <= n <= 2 ^ 48 -> present n s -> 2 <= zlen (g_current_path s) ->
  (forall k, 1 <= k < 8 -> img s (6160 + k) = Some (zeros 512)) ->
  exists s1 s2, exfat_wipe_and_format s = Some (Val 0, s1) /\ exfat_mount s1 = Some (Val 1, s2) /\
    fs_ok s2 /\ (forall nm, exfat_resolve_entry nm s2 = Some (Val None, s2)).
Proof.
  intros Hc Hn Hp Hpath Hzero. destruct (format_ok s n Hc Hn Hp Hpath) as (s1 & Hf & Hfm).
  pose proof (fm_vbr _ _ _ Hfm) as (b & Hb & Hvbr). pose proof (volume_clusters_range n ltac:(lia)) as [Hvc _].
  destruct (mount_ok s1 b (volume_clusters n) Hb Hvbr) as (path & t & _ & _ & Hm); [lia|by rewrite (fm_path _ _ _ Hfm)|].
  exists s1. eexists. split; [done|]. split; [exact Hm|].
  destruct (formatted_fs_ok s s1 n path Hfm Hn Hzero) as (Hfs & b' & Hcl & Hw). split; [done|].
  intros nm. destruct Hfs as (Hv & Hin & _). by rewrite (resolve_entry_ok _ b' []).
Qed.

(** ** A blank drive in memory *)

Definition demo_blank : exfat MemDisk.t := exfat_init (MemDisk.blank 9000).

Lemma blank_img x : 0 <= x < 9000 -> img demo_blank x = Some (zeros 512).
Proof.
  intros Hx. unfold img. cbn [image MemDisk.lawful]. unfold MemDisk.image_of, MemDisk.read.
  cbn [MemDisk.capacity MemDisk.drive g_dev demo_blank exfat_init MemDisk.blank MemDisk.sectors Z.eqb].
  destruct (Z.leb_spec 0 x); [|lia]. destruct (Z.ltb_spec x 9000); [|lia]. cbn [andb].
  rewrite lookup_empty. cbn [default from_option id]. by rewrite bool_decide_eq_true_2 by apply is_sector_zeros.
Qed.

Lemma demo_blank_ok :
  ata_drive_sector_count (g_dev demo_blank) (ata_current_drive (g_dev demo_blank)) = 9000 /\
  present 9000 demo_blank /\ 2 <= zlen (g_current_path demo_blank) /\
  forall k, 1 <= k < 8 -> img demo_blank (6160 + k) = Some (zeros 512).
Proof.
  split; [done|]. split; [intros x Hx; rewrite blank_img by lia; by eexists|]. split; [done|].
  intros k Hk. apply blank_img. lia.
Qed.

Lemma format_then_mount_witness :
  exists s1 s2, exfat_wipe_and_format demo_blank = Some (Val 0, s1) /\ exfat_mount s1 = Some (Val 1, s2) /\
    fs_ok s2 /\ (forall nm, exfat_resolve_entry nm s2 = Some (Val None, s2)).
Proof.
  destruct demo_blank_ok as (H1 & H2 & H3 & H4).
  apply (format_then_mount demo_blank 9000 H1); [split; vm_compute; discriminate | done..].
Defined.

(** The formatted and mounted drive. *)
Definition demo_fs : exfat MemDisk.t :=
  match (exfat_wipe_and_format;; exfat_mount) demo_blank with
  | Some (_, s) => s
  | None => demo_blank
  end.

Lemma demo_fs_ok : fs_ok demo_fs.
Proof.
  destruct demo_blank_ok as (H1 & H2 & H3 & H4).
  assert (8192 <= 9000 <= 2 ^ 48) as Hn by lia.
  destruct (format_ok demo_blank 9000 H1 Hn H2 H3) as (s1 & Hf & Hfm).
  pose proof (fm_vbr _ _ _ Hfm) as (b & Hb & Hvbr).
  destruct (mount_ok s1 b (volume_clusters 9000) Hb Hvbr) as (path & t & _ & _ & Hm);
    [vm_compute; split; discriminate|by rewrite (fm_path _ _ _ Hfm)|].
  unfold demo_fs. mrun Hf. rewrite Hm. exact (proj1 (formatted_fs_ok demo_blank s1 9000 path Hfm Hn H4)).
Qed.

(** ** Witnesses of the allocation and creation theorems *)

Lemma demo_bm_ok : bm_ok demo_fs.
Proof. exact (proj1 (proj1 demo_fs_ok)). Qed.

Lemma alloc_blocks_spec_witness :
  exists count : Z, count = 2 /\
  ((exists c s', exfat_alloc_blocks count demo_fs = Some (Val c, s') /\
     2 <= c /\ c - 2 + count <= g_cluster_count demo_fs /\
     (forall i, c - 2 <= i < c - 2 + count -> used demo_fs i = false) /\
     (forall i, 0 <= i < g_cluster_count demo_fs ->
        used s' i = if (c - 2 <=? i) && (i <? c - 2 + count) then true else used demo_fs i) /\
     (forall x, ~ bm_region demo_fs x -> img s' x = img demo_fs x) /\ same_vars demo_fs s') \/
   (exfat_alloc_blocks count demo_fs = Some (Val 0, demo_fs) /\
    forall st, 0 <= st -> st + count <= g_cluster_count demo_fs ->
      exists i, st <= i < st + count /\ used demo_fs i = true)).
Proof. exists 2. split; [done|]. apply (alloc_blocks_spec demo_fs 2 demo_bm_ok). reflexivity. Defined.

Lemma alloc_free_restores_witness :
  exists s1 s2, exfat_alloc_blocks 2 demo_fs = Some (Val 5, s1) /\
    exfat_free_blocks 5 2 s1 = Some (Val tt, s2) /\
    (forall i, 0 <= i < g_cluster_count demo_fs -> used s2 i = used demo_fs i).
Proof.
  destruct (exfat_alloc_blocks 2 demo_fs) as [[[c|rc] s1]|] eqn:E;
    [|vm_compute in E; discriminate|vm_compute in E; discriminate].
  assert (c = 5) as -> by (apply (f_equal (fun o => match o with Some (Val c, _) => c | _ => 0 end)) in E;
    vm_compute in E; congruence).
  destruct (alloc_free_restores demo_fs s1 2 5 demo_bm_ok) as (s2 & H1 & H2 & H3); [reflexivity|exact E|discriminate|].
  exists s1, s2. split; [reflexivity|]. split; [exact H1|exact H2].
Defined.

Lemma create_then_lookup_witness :
  let name := lit "readme.txt" in
  exfat_create_node (Some (name ++ 0 :: [])) false demo_fs = Some (Val (-1), demo_fs) \/
  exists s' c, exfat_create_node (Some (name ++ 0 :: [])) false demo_fs = Some (Val 0, s') /\
    fs_ok s' /\ used demo_fs (c - 2) = false /\
    (forall i, 0 <= i < g_cluster_count demo_fs -> used s' i = if i =? c - 2 then true else used demo_fs i) /\
    (exists target, exfat_resolve_entry (name ++ 0 :: []) s' = Some (Val (Some target), s') /\
       t_cluster target = c /\ t_size target = 0 /\ t_is_dir target = false) /\
    (forall nm t', nozero nm -> fold_case nm <> fold_case name ->
       exists r, exfat_resolve_entry (nm ++ 0 :: t') demo_fs = Some (Val r, demo_fs) /\
                 exfat_resolve_entry (nm ++ 0 :: t') s' = Some (Val r, s')).
Proof.
  apply (create_then_lookup demo_fs (lit "readme.txt") [] false demo_fs_ok).
  - apply (bool_decide_unpack _). vm_compute. exact I.
  - split; vm_compute; discriminate.
  - vm_compute. reflexivity.
Defined.
