(* ===== verification/ExfatData.v ===== *)
(** * Reading and writing the data of files

    Writing a file and reading it back, at any offset; the entry of the file is
    updated in place and nothing else in the directory changes. *)

From S2P Require Import Prelude CMonad Disk CString Exfat ExfatDisk ExfatBitmap ExfatDir ExfatCreate.

(** ** Updating an entry set in place *)

(** [b'] differs from [b] only in the checksum, lengths and first cluster of
    the entry set at [j]. *)
Definition same_but_fields (b b' : bytes) (j : Z) : Prop :=
  zlen b' = zlen b /\ (is_bytes b -> is_bytes b') /\
  forall x, ~ (j + 2 <= x < j + 4) -> ~ (j + 40 <= x < j + 64) -> rd b' x = rd b x.

Section Update.
Variables (b b' : bytes) (j cj : Z).
Hypothesis Hsame : same_but_fields b b' j.
Hypothesis Hj : j mod 32 = 0.

(** The bytes the walk looks at are kept. *)
Lemma type_kept x : x mod 32 = 0 \/ x mod 32 = 1 -> rd b' x = rd b x.
Proof.
  intros Hx. apply Hsame; pose proof (Z.div_mod x 32 ltac:(lia)); pose proof (Z.div_mod j 32 ltac:(lia)); lia.
Qed.

Lemma mod32_add x c : x mod 32 = 0 -> (x + c * 32 + 32) mod 32 = 0.
Proof. intros. replace (x + c * 32 + 32) with (x + (c + 1) * 32) by lia. by rewrite Z.mod_add by lia. Qed.

Lemma mod32_succ x : x mod 32 = 0 -> (x + 1) mod 32 = 1.
Proof. intros Hx. by rewrite <- Z.add_mod_idemp_l, Hx by lia. Qed.

Lemma walks_kept i l : walks b i l -> i mod 32 = 0 -> walks b' i l.
Proof.
  induction 1 as [i Hi|i ty l Hi Hr Hty Hw IH|i c l Hi Hr Hc Hc0 Hw IH]; intros Hm; [by constructor| |].
  - eapply walks_skip; [done| |done|].
    + by rewrite type_kept by auto.
    + apply IH. replace (i + 32) with (i + 0 * 32 + 32) by lia. by apply mod32_add.
  - apply walks_set; try done.
    + by rewrite type_kept by auto.
    + by rewrite type_kept by (right; by apply mod32_succ).
    + by apply IH, mod32_add.
Qed.

Lemma wf_set_kept p : wf_set b p -> wf_set b' p.
Proof.
  destruct p as [i c]. intros (?&?&Hm&?&Hu). split_and!; try done. intros k Hk.
  destruct (Hu k Hk) as (ty & Hty & ?). exists ty. split; [|done].
  rewrite type_kept; [done|]. left. by rewrite Z.mod_add by lia.
Qed.

(** Sets of a walk do not overlap. *)
Lemma walks_disjoint i l p :
  walks b i l -> p ∈ l -> (i <= fst p /\ forall q, q ∈ l -> q = p \/
     fst q + snd q * 32 + 32 <= fst p \/ fst p + snd p * 32 + 32 <= fst q).
Proof.
  induction 1 as [i Hi|i ty l Hi Hr Hty Hw IH|i c l Hi Hr Hc Hc0 Hw IH]; intros Hin.
  - by apply elem_of_nil in Hin.
  - destruct (IH Hin) as [? ?]. split; [lia|done].
  - pose proof (walks_ge _ _ _ Hw) as Hge. rewrite Forall_forall in Hge.
    apply elem_of_cons in Hin as [->|Hin].
    + split; [cbn; lia|]. intros q [->|Hq]%elem_of_cons; [by left|]. right; right. cbn.
      pose proof (Hge _ Hq) as Hg. cbn in Hg. lia.
    + destruct (IH Hin) as [Hle Hd]. split; [cbn in *; lia|]. intros q [->|Hq]%elem_of_cons; [|auto].
      right; left. cbn. pose proof (Hge _ Hin) as Hg. cbn in Hg. lia.
Qed.

Lemma entry_name_kept i c :
  2 <= c -> (i = j \/ i + c * 32 + 32 <= j \/ j + 64 <= i) -> entry_name b' i c = entry_name b i c.
Proof.
  intros Hc Hd. apply entry_name_ext; [apply Hsame|lia|]. intros x Hx. apply Hsame; lia.
Qed.

Lemma find_set_kept nm l :
  Forall (fun p => 2 <= snd p /\
    (fst p = j \/ fst p + snd p * 32 + 32 <= j \/ j + 64 <= fst p)) l ->
  find_set b' nm l = find_set b nm l.
Proof.
  induction l as [|[i c] l IH]; intros Hl; [done|]. apply Forall_cons in Hl as [[Hc Hd] Hl]. cbn in Hc, Hd.
  cbn [find_set]. rewrite entry_name_kept by lia. destruct (entry_name b i c); cbn [mbind option_bind]; [|done].
  destruct (exfat_name_equal _ _) as [[]|]; cbn [mbind option_bind]; [done|by apply IH|done].
Qed.

(** Lookups after the update: the entry at [j] shows its new fields. *)
Lemma lookup_kept l base nm first size :
  zlen b = 4096 -> walks b 0 l -> Forall (wf_set b) l -> (j, cj) ∈ l ->
  ld 4 b' (j + 52) = Some first -> ld 8 b' (j + 56) = Some size ->
  lookup_in b' nm base l =
    (t ← lookup_in b nm base l;
     Some (match t with
           | None => None
           | Some t => if (t_entry_lba t =? base + j / 512) && (t_entry_offset t =? j mod 512)
                       then Some (Target first size (t_is_dir t) (t_entry_lba t) (t_entry_offset t))
                       else Some t
           end)).
Proof.
  intros Hz Hw Hwf Hin Hf Hs. destruct (walks_disjoint _ _ _ Hw Hin) as [_ Hd].
  rewrite Forall_forall in Hwf. pose proof (Hwf _ Hin) as (Hcj & Hj0 & _).
  unfold lookup_in. rewrite find_set_kept.
  2:{ apply Forall_forall. intros [i c] Hq. destruct (Hwf _ Hq) as (Hc & _). split; [done|]. cbn.
      destruct (Hd _ Hq) as [[= -> ->]|Hd']; [by left|]. cbn in Hd'. lia. }
  destruct (find_set b nm l) as [[k|]|] eqn:Ef; rewrite ?Some_bind; [|done|done].
  destruct (find_set_in _ _ _ _ Ef) as [c Hk]. pose proof (Hwf _ Hk) as (Hc & Hk0 & Hk32 & Hkl & _).
  destruct (target_at_total b base k) as [t Ht]; [lia..|]. rewrite Ht, !Some_bind.
  pose proof Ht as Ht'. unfold target_at, Dentry.first_cluster, Dentry.data_length, Dentry.file_attributes in Ht'.
  destruct (ld 4 b _) as [f0|]; [|done]. destruct (ld 8 b _) as [s0|]; [|done].
  destruct (ld 2 b (k + 4)) as [attr|] eqn:Ea; [|done]. cbn [mbind option_bind] in Ht'.
  injection Ht' as <-. cbn [t_entry_lba t_entry_offset t_is_dir].
  pose proof (Z.div_mod k 512 ltac:(lia)). pose proof (Z.div_mod j 512 ltac:(lia)).
  destruct (Z.eq_dec k j) as [->|Hne].
  - rewrite !Z.eqb_refl. cbn [andb].
    unfold target_at, Dentry.first_cluster, Dentry.data_length, Dentry.file_attributes.
    replace (j + 32 + 20) with (j + 52) by lia. replace (j + 32 + 24) with (j + 56) by lia. rewrite Hf, Hs.
    rewrite (ld_ext 2 b b' (j + 4)) by (try apply Hsame; intros x Hx; apply Hsame; lia). by rewrite Ea.
  - rewrite (target_at_ext b b'), Ht.
    + destruct (Z.eqb_spec (base + k / 512) (base + j / 512)), (Z.eqb_spec (k mod 512) (j mod 512)); try done; lia.
    + apply Hsame.
    + intros x Hx. destruct (Hd _ Hk) as [[= ? ?]|Hd']; [done|]. cbn in Hd'. apply Hsame; lia.
Qed.

End Update.

(** ** Runs of sectors *)

Section Data.
Context {D : Type} `{LawfulDisk D}.
Implicit Types s : exfat D.

(** [c] is what the sectors from [lba] on hold. *)
Definition run_is s (lba : Z) (c : bytes) : Prop :=
  exists m, 0 <= m /\ zlen c = m * 512 /\ lba + m <= 2 ^ 48 /\
  forall i, 0 <= i < m -> img s (lba + i) = slice c (i * 512) 512.

Lemma slice_slice (c x : bytes) i m o n :
  slice c i m = Some x -> 0 <= o -> 0 <= n -> o + n <= m -> slice x o n = slice c (i + o) n.
Proof.
  intros Hx Ho Hn Hle. pose proof Hx as (?&?&?&_)%slice_Some. pose proof (slice_zlen _ _ _ _ Hx) as Hz.
  destruct (slice_total c (i + o) n) as [y Hy]; [lia..|]. rewrite Hy.
  destruct (slice_total x o n) as [y' Hy']; [lia..|]. rewrite Hy'. f_equal.
  pose proof (slice_zlen _ _ _ _ Hy). pose proof (slice_zlen _ _ _ _ Hy').
  apply list_eq_rd; [lia|]. intros k Hk.
  rewrite (rd_slice _ _ _ _ k Hy), (rd_slice _ _ _ _ k Hy'), (rd_slice _ _ _ _ _ Hx) by lia. f_equal. lia.
Qed.

Lemma slice_join (c x y : bytes) o n m :
  slice c o n = Some x -> slice c (o + n) m = Some y -> slice c o (n + m) = Some (x ++ y).
Proof.
  intros (?&?&?&->)%slice_Some (?&?&?&->)%slice_Some. apply slice_Some.
  split_and!; [lia..|]. rewrite (Z2Nat.inj_add n m), (Z2Nat.inj_add o n) by lia.
  by rewrite <- drop_drop, take_take_drop.
Qed.

(** The read loop delivers the bytes from [pos] on. *)
Lemma read_data_loop_ok fuel s lba c pos left out :
  run_is s lba c -> 0 <= pos -> 0 <= left -> pos + left <= zlen c -> left < Z.of_nat fuel ->
  exists d, read_data_loop fuel (lba + pos / 512) left (pos mod 512) out s = Some (Val (out ++ d), s) /\
    slice c pos left = Some d.
Proof.
  intros (m & Hm & Hz & Hl & Hi). revert pos left out.
  induction fuel as [|fuel IH]; intros pos left out Hp Hle Hpl Hf; [lia|]. cbn [read_data_loop].
  destruct (Z.eqb_spec left 0) as [->|Hne].
  { exists []. rewrite app_nil_r. split; [done|]. apply slice_Some. split_and!; auto; lia. }
  pose proof (Z.div_mod pos 512 ltac:(lia)) as Hd. pose proof (Z.mod_pos_bound pos 512 ltac:(lia)) as Hmod.
  destruct (slice_total c (pos / 512 * 512) 512) as [sec Hsec]; [lia..|].
  assert (img s (lba + pos / 512) = Some sec) as Himg by (rewrite Hi by lia; done).
  mrun (read_or_ok s (-1) _ _ Himg ltac:(unfold lba_ok; lia)).
  set (chunk := if left <? 512 - pos mod 512 then left else 512 - pos mod 512).
  assert (0 < chunk <= left /\ chunk <= 512 - pos mod 512) as [Hc1 Hc2] by (unfold chunk; bgoal; lia).
  destruct (slice_total c pos chunk) as [d Hdc]; [lia..|].
  assert (slice sec (pos mod 512) chunk = Some d) as Hds.
  { rewrite (slice_slice _ _ _ _ _ _ Hsec) by lia. by replace (pos / 512 * 512 + pos mod 512) with pos by lia. }
  mlift Hds. destruct (Z.eq_dec chunk left) as [E|E].
  - rewrite E, Z.sub_diag. destruct fuel as [|fuel]; [lia|]. cbn [read_data_loop Z.eqb].
    exists d. split; [done|]. by rewrite <- E.
  - assert (pos mod 512 + chunk = 512) as Hfull by (unfold chunk in *; bool_true; lia).
    assert ((pos + chunk) / 512 = pos / 512 + 1 /\ (pos + chunk) mod 512 = 0) as [Hq Hr].
    { replace (pos + chunk) with ((pos / 512 + 1) * 512) by lia. rewrite Z.div_mul, Z.mod_mul by lia. done. }
    destruct (IH (pos + chunk) (left - chunk) (out ++ d)) as (d2 & Hr2 & Hs2); [lia..|].
    rewrite Hq, Hr in Hr2. replace (lba + pos / 512 + 1) with (lba + (pos / 512 + 1)) by lia. rewrite Hr2.
    exists (d ++ d2). rewrite <- app_assoc. split; [done|].
    replace left with (chunk + (left - chunk)) by lia. by apply slice_join.
Qed.

(** ** The clusters of a file *)

(** [n] allocated clusters of the volume from [c] on, apart from the current
    directory. *)
Definition run_ok s (c n : Z) : Prop :=
  3 <= c /\ 1 <= n /\ c + n <= g_cluster_count s + 2 /\
  (forall i, c - 2 <= i < c - 2 + n -> used s i = true) /\
  (g_current_cluster s < c \/ c + n <= g_current_cluster s).

Lemma run_ok_frame s s' c n :
  run_ok s c n -> frame_of (fun x => ~ bm_region s x) s s' -> vol_ok s -> run_ok s' c n.
Proof.
  intros (H3 & Hn & Hle & Hu & Hcur) Hf Hv. pose proof Hf as (Hsv & _). pose proof Hsv as (Ec & _ & _ & _ & _ & Ecc & _).
  unfold run_ok. rewrite Ecc, Ec. split_and!; try done. intros i Hi.
  rewrite (frame_used s s' _ i Hf) by (auto; lia). by apply Hu.
Qed.

Lemma run_present s c n i :
  vol_ok s -> run_ok s c n -> 0 <= i < n * 8 ->
  is_Some (img s (clus_lba s c + i)) /\ lba_ok (clus_lba s c + i) /\
  ~ bm_region s (clus_lba s c + i) /\
  ~ sectors_at (clus_lba s (g_current_cluster s)) 8 (clus_lba s c + i).
Proof.
  intros Hv (H3 & Hn & Hle & _ & Hcur) Hi.
  pose proof (Z.div_mod i 8 ltac:(lia)). pose proof (Z.mod_pos_bound i 8 ltac:(lia)).
  destruct (clus_present s (c + i / 8) (i mod 8) Hv) as [Hp Hl]; [lia|lia|].
  replace (clus_lba s (c + i / 8) + i mod 8) with (clus_lba s c + i) in * by (unfold clus_lba; lia).
  split; [done|]. split; [done|]. split.
  - intros Hb. pose proof (bm_region_cluster2 s _ Hv Hb). unfold clus_lba in *. lia.
  - unfold sectors_at, clus_lba in *. lia.
Qed.

Lemma pick_run_ok s target old new :
  fs_ok s -> run_ok s (t_cluster target) old -> 1 <= new ->
  pick_run target old new s = Some (Ret (-1), s) \/
  exists a s1, pick_run target old new s = Some (Val a, s1) /\ frame_of (bm_region s) s s1 /\
    run_ok s1 a new /\ vol_ok s1 /\ used s1 (g_current_cluster s - 2) = true.
Proof.
  intros Hfs Hrun Hnew. pose proof Hfs as (Hv & Hcur & Hu & _). pose proof Hv as (Hbm & _).
  unfold pick_run. destruct (Z.eqb_spec new old) as [->|Hne]; cbn [negb].
  { right. exists (t_cluster target), s. split; [done|]. split; [apply frame_refl|]. done. }
  destruct (alloc_blocks_ok s new Hbm ltac:(lia)) as [(a & s1 & Ha & H2 & Hle & Hfree & Hf1 & Hb1)|[Ha _]]; mrun Ha; [|by left].
  rewrite eqb_neq by lia. pose proof Hf1 as (Hv1 & _). pose proof Hv1 as (Ec & _ & _ & _ & _ & Ecc & _).
  pose proof Hrun as (Hr3 & Hrn & Hrle & Hru & Hrcur).
  destruct (free_blocks_ok s1 (t_cluster target) old) as (s2 & Hfr & Hf2 & Hb2); try lia; [by eapply bm_ok_frame|].
  mrun Hfr. right. exists a, s2. split; [done|].
  destruct (same_bm s s1 Hv1) as (Eb & En & _).
  assert (frame_of (bm_region s) s1 s2) as Hf2' by (eapply frame_mono; [exact Hf2|]; unfold bm_region; by rewrite Eb, En).
  assert (frame_of (bm_region s) s s2) as Hf by (by etrans).
  assert (forall i, 0 <= i < g_cluster_count s -> (a - 2 <= i < a - 2 + new -> i < t_cluster target - 2 \/ t_cluster target - 2 + old <= i)) as Hdisj.
  { intros i Hi Hia. destruct (decide (t_cluster target - 2 <= i < t_cluster target - 2 + old)) as [Hin|]; [|lia].
    specialize (Hru i Hin). specialize (Hfree i Hia). congruence. }
  unfold in_vol in Hcur.
  assert (forall i, 0 <= i < g_cluster_count s -> used s2 i =
    if in_run (t_cluster target - 2) old i then false else if in_run (a - 2) new i then true else used s i) as Hub.
  { intros i Hi. rewrite Hb2, Hb1 by lia. done. }
  assert (g_current_cluster s < a \/ a + new <= g_current_cluster s) as Hca.
  { destruct (decide (a <= g_current_cluster s < a + new)); [|lia].
    rewrite Hfree in Hu by lia. done. }
  assert (a <> 2) as Ha2.
  { intros ->. destruct Hv as (_ & _ & _ & _ & _ & Hu0). rewrite Hfree in Hu0 by lia. done. }
  pose proof Hf as (Hsv & _). pose proof Hsv as (Ec2 & _ & _ & _ & _ & Ecc2 & _).
  split; [done|]. split; [|split].
  - unfold run_ok. rewrite Ecc2, Ec2. split_and!; try lia. intros i Hi. rewrite Hub by lia. unfold in_run.
    specialize (Hdisj i ltac:(lia) Hi). bgoal; done.
  - eapply vol_ok_frame; [exact Hv|exact Hf|]. rewrite Hub by lia. unfold in_run.
    destruct Hv as (_ & _ & _ & _ & _ & ->). bgoal; done.
  - rewrite Hub by lia. rewrite Hu. unfold in_run. bgoal; done.
Qed.

(** ** The data of a file in its sectors *)

Definition padded (data : bytes) : bytes :=
  data ++ zeros (Z.to_nat ((zlen data + 511) / 512 * 512 - zlen data)).

Lemma padded_zlen data : zlen (padded data) = (zlen data + 511) / 512 * 512.
Proof.
  unfold padded, zeros. rewrite zlen_app, zlen_replicate.
  pose proof (Z.div_mod (zlen data + 511) 512 ltac:(lia)). pose proof (Z.mod_pos_bound (zlen data + 511) 512 ltac:(lia)). lia.
Qed.

Lemma data_sector_ok data i :
  is_bytes data -> zlen data < 2 ^ 43 -> 0 <= i < (zlen data + 511) / 512 ->
  exists b, data_sector data (zlen data) i = Some b /\ slice (padded data) (i * 512) 512 = Some b /\ is_sector b.
Proof.
  intros Hb Hl Hi. unfold data_sector. pose proof (Z.div_mod (zlen data + 511) 512 ltac:(lia)).
  pose proof (Z.mod_pos_bound (zlen data + 511) 512 ltac:(lia)).
  rewrite u64_small by (unfold_int; lia).
  set (chunk := if 512 <? zlen data - i * 512 then 512 else zlen data - i * 512).
  assert (0 < chunk <= 512 /\ i * 512 + chunk <= zlen data /\ (chunk = 512 \/ i * 512 + chunk = zlen data)) as (Hc & Hc2 & Hc3)
    by (unfold chunk; bgoal; lia).
  destruct (slice_total data (i * 512) chunk) as [d Hd]; [lia..|]. rewrite Hd, Some_bind.
  pose proof (slice_zlen _ _ _ _ Hd) as Hdz. pose proof (is_bytes_slice _ _ _ _ Hb Hd) as Hdb.
  destruct (blit_total (zeros 512) d 0) as [b Hbl]; [lia|change (zlen (zeros 512)) with 512; lia|].
  pose proof (blit_zlen _ _ _ _ Hbl) as Hbz. change (zlen (zeros 512)) with 512 in Hbz.
  exists b. split; [done|]. split.
  2:{ split; [done|]. exact (is_bytes_blit _ _ _ _ (is_bytes_zeros 512) Hdb Hbl). }
  pose proof (padded_zlen data) as Hpz.
  destruct (slice_total (padded data) (i * 512) 512) as [b' Hb']; [lia..|]. rewrite Hb'. f_equal.
  pose proof (slice_zlen _ _ _ _ Hb'). apply list_eq_rd; [lia|]. intros k Hk.
  rewrite (rd_slice _ _ _ _ k Hb'), (rd_blit _ _ _ _ _ Hbl), Z.sub_0_r by lia. unfold padded.
  destruct (Z.lt_ge_cases k chunk).
  - rewrite rd_app_l by lia. bgoal. rewrite (rd_slice _ _ _ _ k Hd) by lia. done.
  - rewrite rd_app_r by lia. bgoal. rewrite !rd_lookup by lia. unfold zeros.
    rewrite lookup_replicate_2 by lia. symmetry. apply lookup_replicate_2. lia.
Qed.

Lemma clusters_of_ok n :
  0 <= n < 2 ^ 43 -> 1 <= clusters_of n /\ (n + 511) / 512 <= clusters_of n * 8 /\
    clusters_of n = (if n =? 0 then 1 else (n + 4095) / 4096).
Proof.
  intros Hn. unfold clusters_of. destruct (Z.eqb_spec n 0) as [->|]; [done|].
  pose proof (Z.div_mod (n + 4095) 4096 ltac:(lia)). pose proof (Z.mod_pos_bound (n + 4095) 4096 ltac:(lia)).
  rewrite u64_small, u32_small by (unfold_int; try rewrite Z.mod_small; lia).
  pose proof (Z.div_mod (n + 511) 512 ltac:(lia)). pose proof (Z.mod_pos_bound (n + 511) 512 ltac:(lia)). lia.
Qed.

Lemma write_data_ok s a data :
  vol_ok s -> run_ok s a (clusters_of (zlen data)) -> is_bytes data -> zlen data < 2 ^ 43 ->
  exists s', for_loop (Z.to_nat (u64 (zlen data + 511) / 512)) 0 1
      (write_data_sector (clus_lba s a) data (zlen data)) s = Some (Val tt, s') /\
    frame_of (sectors_at (clus_lba s a) (clusters_of (zlen data) * 8)) s s' /\
    run_is s' (clus_lba s a) (padded data).
Proof.
  intros Hv Hr Hb Hl. pose proof (zlen_nonneg data). rewrite u64_small by (unfold_int; lia).
  destruct (clusters_of_ok (zlen data)) as (Hc1 & Hc8 & _); [lia|].
  set (m := (zlen data + 511) / 512) in *. assert (0 <= m) by (unfold m; apply Z.div_pos; lia).
  set (f := fun i => default [] (slice (padded data) (i * 512) 512)).
  assert (forall i, 0 <= i < m -> data_sector data (zlen data) i = Some (f i) /\
            slice (padded data) (i * 512) 512 = Some (f i) /\ is_sector (f i)) as Hf.
  { intros i Hi. destruct (data_sector_ok data i Hb Hl Hi) as (x & Hx1 & Hx2 & Hx3). unfold f. by rewrite Hx2. }
  destruct (write_sectors_ok (Z.to_nat m) (write_data_sector (clus_lba s a) data (zlen data)) f (clus_lba s a) 0 s)
    as (s' & Hw & Hfr & Hk).
  - intros k s' Hk. unfold write_data_sector. destruct (Hf k) as (Hd & _); [lia|]. by mlift Hd.
  - intros k Hk. destruct (run_present s a _ k Hv Hr) as (Hp & Hlb & _); [lia|]. split; [apply Hf; lia|done].
  - exists s'. split; [done|]. rewrite Z2Nat.id, Z.add_0_r in * by lia. split.
    + eapply frame_mono; [exact Hfr|]. unfold sectors_at. intros x Hx. lia.
    + exists m. split; [done|]. split; [apply padded_zlen|]. split.
      * destruct (run_present s a _ (clusters_of (zlen data) * 8 - 1) Hv Hr) as (_ & Hlb & _); [lia|]. unfold lba_ok in Hlb. lia.
      * intros i Hi. destruct (Hf i Hi) as (_ & Hs & _). rewrite Hs. apply Hk. lia.
Qed.

(** ** The entry of the file *)

(** The sector with the set at [off] after the fields are stored. *)
Lemma update_sector (sec : bytes) off c first size :
  is_sector sec -> 0 <= off -> 2 <= c -> off + c * 32 + 32 <= 512 -> rd sec (off + 1) = Some c ->
  is_u32 first -> is_u64 size ->
  exists sec1 sec2 sec3 crc sec4,
    st 4 sec (off + 32 + Dentry.first_cluster) first = Some sec1 /\
    st 8 sec1 (off + 32 + Dentry.data_length) size = Some sec2 /\
    st 8 sec2 (off + 32 + Dentry.valid_data_length) size = Some sec3 /\
    rd sec3 (off + Dentry.secondary_count) = Some c /\
    exfat_calc_entry_crc sec3 off (c + 1) = Some crc /\
    st 2 sec3 (off + Dentry.set_checksum) crc = Some sec4 /\
    is_sector sec4 /\ same_but_fields sec sec4 off /\
    ld 4 sec4 (off + 52) = Some first /\ ld 8 sec4 (off + 56) = Some size.
Proof.
  unfold Dentry.first_cluster, Dentry.data_length, Dentry.valid_data_length, Dentry.secondary_count, Dentry.set_checksum.
  intros [Hz Hb] Ho Hc Hend Hcnt Hf Hs. unfold SECTOR in Hz.
  replace (off + 32 + 20) with (off + 52) by lia. replace (off + 32 + 24) with (off + 56) by lia.
  replace (off + 32 + 8) with (off + 40) by lia.
  destruct (blit_total sec (le_bytes 4 first) (off + 52)) as [s1 Hs1]; [lia|rewrite zlen_le_bytes; lia|].
  pose proof (blit_zlen _ _ _ _ Hs1) as Hz1.
  destruct (blit_total s1 (le_bytes 8 size) (off + 56)) as [s2 Hs2]; [lia|rewrite zlen_le_bytes; lia|].
  pose proof (blit_zlen _ _ _ _ Hs2) as Hz2.
  destruct (blit_total s2 (le_bytes 8 size) (off + 40)) as [s3 Hs3]; [lia|rewrite zlen_le_bytes; lia|].
  pose proof (blit_zlen _ _ _ _ Hs3) as Hz3.
  destruct (slice_total s3 off ((c + 1) * 32)) as [es Hes]; [lia..|].
  destruct (blit_total s3 (le_bytes 2 (entry_crc_loop es 0 0)) (off + 2)) as [s4 Hs4]; [lia|rewrite zlen_le_bytes; lia|].
  pose proof (blit_zlen _ _ _ _ Hs4) as Hz4.
  assert (forall x, ~ (off + 2 <= x < off + 4) -> ~ (off + 40 <= x < off + 64) -> rd s4 x = rd sec x) as Hout.
  { intros x Hx1 Hx2. rewrite (rd_blit _ _ _ _ _ Hs4), (rd_blit _ _ _ _ _ Hs3), (rd_blit _ _ _ _ _ Hs2),
      (rd_blit _ _ _ _ _ Hs1), !zlen_le_bytes. cbn [Z.of_nat Pos.of_succ_nat Pos.succ]. bgoal; done. }
  assert (is_bytes s4) as Hb4.
  { repeat (eapply is_bytes_blit; [|apply is_bytes_le|eassumption]). done. }
  assert (rd s3 (off + 1) = Some c) as Hc3.
  { rewrite <- Hcnt, <- Hout by lia. rewrite (rd_blit _ _ _ _ _ Hs4), zlen_le_bytes. by bgoal. }
  exists s1, s2, s3, (entry_crc_loop es 0 0), s4. unfold st. split_and!; try done.
  - unfold exfat_calc_entry_crc. rewrite u8_small by (unfold_int; lia). by rewrite Hes.
  - split; [unfold SECTOR; lia|auto].
  - split; [lia|]. split; [by intros _|done].
  - rewrite (ld_blit_ne _ _ _ _ _ _ Hs4), (ld_blit_ne _ _ _ _ _ _ Hs3), (ld_blit_ne _ _ _ _ _ _ Hs2)
      by (rewrite zlen_le_bytes; lia).
    rewrite (ld_st 4 _ _ _ _ Hs1). f_equal. apply Z.mod_small. exact Hf.
  - rewrite (ld_blit_ne _ _ _ _ _ _ Hs4), (ld_blit_ne _ _ _ _ _ _ Hs3) by (rewrite zlen_le_bytes; lia).
    rewrite (ld_st 8 _ _ _ _ Hs2). f_equal. apply Z.mod_small. exact Hs.
Qed.

(** A sector of a cluster replaced. *)
Lemma update_cluster s lba b q sec :
  cluster_is s lba b -> is_bytes b -> 0 <= q < 8 -> is_sector sec ->
  exists s' b', exfat_sector_write (lba + q) sec s = Some (Val 0, s') /\
    frame_of (sectors_at lba 8) s s' /\ cluster_is s' lba b' /\ zlen b' = zlen b /\ is_bytes b' /\
    forall x, rd b' x = if (q * 512 <=? x) && (x <? q * 512 + 512) then rd sec (x - q * 512) else rd b x.
Proof.
  intros (Hz & Hl & Hi) Hb Hq Hs. destruct Hs as [Hsz Hsb]. unfold SECTOR in Hsz.
  destruct (slice_total b (q * 512) 512) as [old Hold]; [lia..|].
  assert (img s (lba + q) = Some old) as Him by (rewrite Hi by lia; done).
  destruct (sector_write_ok s (lba + q) old sec Him ltac:(unfold lba_ok; lia)) as (s' & Hw & Hf & Hi'); [by split|].
  destruct (blit_total b sec (q * 512)) as [b' Hb']; [lia..|].
  pose proof (blit_zlen _ _ _ _ Hb') as Hz'.
  assert (forall x, rd b' x = if (q * 512 <=? x) && (x <? q * 512 + 512) then rd sec (x - q * 512) else rd b x) as Hrd
    by (intros x; by rewrite (rd_blit _ _ _ _ _ Hb'), Hsz).
  exists s', b'. split; [done|]. split; [eapply frame_mono; [exact Hf|]; intros x <-; unfold sectors_at; lia|].
  split; [|split; [done|split; [exact (is_bytes_blit _ _ _ _ Hb Hsb Hb')|done]]].
  split; [lia|]. split; [done|]. intros k Hk. rewrite Hi'. destruct (Z.eqb_spec (lba + k) (lba + q)) as [E|E].
  - replace k with q by lia. symmetry. pose proof (slice_blit _ _ _ _ Hb') as Hsl. by rewrite Hsz in Hsl.
  - rewrite Hi by lia. symmetry. apply slice_ext; [done|]. intros x Hx. rewrite Hrd. by bgoal.
Qed.

Lemma update_entry_ok s b l j c tg first size :
  let lba := clus_lba s (g_current_cluster s) in
  cluster_is s lba b -> is_bytes b -> walks b 0 l -> Forall (wf_set b) l -> (j, c) ∈ l ->
  j mod 512 + c * 32 + 32 <= 512 ->
  t_entry_lba tg = lba + j / 512 -> t_entry_offset tg = j mod 512 -> is_u32 first -> is_u64 size ->
  exists s' b', update_entry tg (Some first) size s = Some (Val 0, s') /\
    frame_of (sectors_at lba 8) s s' /\ cluster_is s' lba b' /\
    same_but_fields b b' j /\ ld 4 b' (j + 52) = Some first /\ ld 8 b' (j + 56) = Some size.
Proof.
  intros lba Hcl Hb Hw Hwf Hin Hend Elba Eoff Hf Hs. pose proof Hcl as (Hz & Hl & Hi).
  rewrite Forall_forall in Hwf. pose proof (Hwf _ Hin) as (Hc & Hj & Hj32 & Hje & _).
  pose proof (Z.div_mod j 512 ltac:(lia)) as Hd. pose proof (Z.mod_pos_bound j 512 ltac:(lia)) as Hm.
  set (q := j / 512) in *. set (off := j mod 512) in *.
  destruct (slice_total b (q * 512) 512) as [sec Hsec]; [lia..|].
  assert (is_sector sec) as Hss.
  { split; [exact (slice_zlen _ _ _ _ Hsec)|exact (is_bytes_slice _ _ _ _ Hb Hsec)]. }
  assert (rd sec (off + 1) = Some c) as Hcnt.
  { rewrite (rd_slice _ _ _ _ _ Hsec) by lia. replace (q * 512 + (off + 1)) with (j + 1) by lia.
    clear - Hw Hin. induction Hw as [|? ? ? ? ? ? ? IH|i c' l Hi Hr Hc' ? ? IH]; [by apply elem_of_nil in Hin|auto|].
    apply elem_of_cons in Hin as [[= -> ->]|Hin]; auto. }
  destruct (update_sector sec off c first size Hss ltac:(lia) Hc Hend Hcnt Hf Hs)
    as (s1 & s2 & s3 & crc & s4 & E1 & E2 & E3 & E4 & E5 & E6 & Hs4 & (Hz4 & Hb4 & Ho4) & Hl4 & Hl8).
  destruct (update_cluster s lba b q s4 Hcl Hb ltac:(lia) Hs4) as (s' & b' & Hwr & Hfr & Hcl' & Hz' & Hb' & Hrd).
  exists s', b'. split.
  { unfold update_entry. rewrite Elba, Eoff. assert (img s (lba + q) = Some sec) as Him by (rewrite Hi by lia; done).
    mrun (read_or_ok s (-1) _ _ Him ltac:(unfold lba_ok; lia)).
    mlift E1. mlift E2. mlift E3. mlift E4. mlift E5. mlift E6. done. }
  split; [done|]. split; [done|].
  assert (forall n x, off <= x -> x + Z.of_nat n <= 512 -> ld n b' (q * 512 + x) = ld n s4 x) as Hld.
  { intros n x Hx1 Hx2. unfold ld. f_equal. assert (zlen s4 = 512) by apply Hs4.
    destruct (slice_total s4 x (Z.of_nat n)) as [y Hy]; [lia..|]. rewrite Hy.
    destruct (slice_total b' (q * 512 + x) (Z.of_nat n)) as [y' Hy']; [lia..|]. rewrite Hy'. f_equal.
    pose proof (slice_zlen _ _ _ _ Hy). pose proof (slice_zlen _ _ _ _ Hy').
    apply list_eq_rd; [lia|]. intros i Hi'. rewrite (rd_slice _ _ _ _ i Hy), (rd_slice _ _ _ _ i Hy'), Hrd by lia.
    bgoal. f_equal. lia. }
  split; [split; [done|]; split; [done|]|split].
  - intros x Hx1 Hx2. rewrite Hrd. bgoal; try done. rewrite Ho4 by lia. rewrite (rd_slice _ _ _ _ _ Hsec) by lia.
    f_equal. lia.
  - replace (j + 52) with (q * 512 + (off + 52)) by lia. by rewrite Hld by lia.
  - replace (j + 56) with (q * 512 + (off + 56)) by lia. by rewrite Hld by lia.
Qed.

(** ** Writing a file *)

Lemma run_is_frame P s s' lba c :
  run_is s lba c -> frame_of P s s' -> (forall x, lba <= x < lba + zlen c / 512 -> ~ P x) -> run_is s' lba c.
Proof.
  intros (m & Hm & Hz & Hl & Hi) (_ & Hf & _) Hn. exists m. split_and!; try done. intros i Hi'.
  rewrite Hf; [auto|]. apply Hn. rewrite Hz, Z.div_mul by lia. lia.
Qed.

Lemma slice_padded data off n :
  0 <= off -> 0 <= n -> off + n <= zlen data ->
  slice (padded data) off n = Some (take (Z.to_nat n) (drop (Z.to_nat off) data)).
Proof.
  intros. unfold padded. apply slice_Some. rewrite zlen_app. pose proof (zlen_nonneg (zeros (Z.to_nat ((zlen data + 511) / 512 * 512 - zlen data)))).
  split_and!; [lia..|]. rewrite drop_app_le by zs. rewrite take_app_le by zs. done.
Qed.

(** The set a lookup found, as a member of the walk. *)
Lemma lookup_found b nm base l tg :
  zlen b = 4096 -> Forall (wf_set b) l -> lookup_in b nm base l = Some (Some tg) ->
  exists j c, (j, c) ∈ l /\ t_entry_lba tg = base + j / 512 /\ t_entry_offset tg = j mod 512 /\
    j mod 32 = 0 /\ find_set b nm l = Some (Some j).
Proof.
  intros Hz Hwf Hl. unfold lookup_in in Hl. destruct (find_set b nm l) as [[j|]|] eqn:E; rewrite ?Some_bind in Hl; [|done..].
  destruct (find_set_in _ _ _ _ E) as [c Hin]. exists j, c. rewrite Forall_forall in Hwf.
  pose proof (Hwf _ Hin) as (_ & _ & Hm & _). unfold target_at in Hl.
  destruct (ld 4 b _); [|done]. destruct (ld 8 b _); [|done]. destruct (ld 2 b _); [|done]. cbn in Hl. by simplify_eq.
Qed.

(** The entry set of [tg] lies in the one sector that is rewritten. *)
Definition in_one_sector s (tg : exfat_target_t) : Prop :=
  exists b c, img s (t_entry_lba tg) = Some b /\ rd b (t_entry_offset tg + 1) = Some c /\
    t_entry_offset tg + c * 32 + 32 <= 512.

Lemma walks_count b i l j c : walks b i l -> (j, c) ∈ l -> rd b (j + 1) = Some c.
Proof.
  induction 1 as [|? ? ? ? ? ? ? IH|i c' l Hi Hr Hc' ? ? IH]; intros Hin; [by apply elem_of_nil in Hin|auto|].
  apply elem_of_cons in Hin as [[= -> ->]|Hin]; auto.
Qed.

Lemma in_one_sector_set s lba b l tg j c :
  cluster_is s lba b -> walks b 0 l -> (j, c) ∈ l -> 0 <= j <= 4000 ->
  t_entry_lba tg = lba + j / 512 -> t_entry_offset tg = j mod 512 -> in_one_sector s tg ->
  j mod 512 + c * 32 + 32 <= 512.
Proof.
  intros (Hz & _ & Hi) Hw Hin Hj E1 E2 (sec & c' & Hsec & Hc' & Hle). rewrite E1, E2 in *.
  pose proof (Z.div_mod j 512 ltac:(lia)). pose proof (Z.mod_pos_bound j 512 ltac:(lia)).
  rewrite Hi in Hsec by lia. pose proof (slice_zlen _ _ _ _ Hsec).
  pose proof (rd_Some _ _ _ Hc').
  rewrite (rd_slice _ _ _ _ _ Hsec) in Hc' by lia. replace (j / 512 * 512 + (j mod 512 + 1)) with (j + 1) in Hc' by lia.
  rewrite (walks_count _ _ _ _ _ Hw Hin) in Hc'. by simplify_eq.
Qed.

(** What writing achieves. *)
Record written s s' (b b' : bytes) (j first : Z) (data : bytes) : Prop := {
  wr_vol : vol_ok s';
  wr_same : same_vars s s';
  wr_cur : used s' (g_current_cluster s - 2) = true;
  wr_dir : cluster_is s' (clus_lba s (g_current_cluster s)) b';
  wr_fields : same_but_fields b b' j;
  wr_first : ld 4 b' (j + 52) = Some first;
  wr_size : ld 8 b' (j + 56) = Some (zlen data);
  wr_range : 2 <= first < g_cluster_count s + 2;
  wr_data : run_is s' (clus_lba s first) (padded data);
}.

Lemma write_file_ok s b l nm tg j c data :
  fs_ok s -> cluster_is s (clus_lba s (g_current_cluster s)) b -> is_bytes b -> walks b 0 l -> Forall (wf_set b) l ->
  exfat_resolve_entry nm s = Some (Val (Some tg), s) -> (j, c) ∈ l ->
  t_entry_lba tg = clus_lba s (g_current_cluster s) + j / 512 -> t_entry_offset tg = j mod 512 ->
  j mod 512 + c * 32 + 32 <= 512 -> run_ok s (t_cluster tg) (clusters_of (t_size tg)) ->
  is_bytes data -> zlen data < 2 ^ 43 ->
  exfat_write_file nm data (zlen data) s = Some (Val (-1), s) \/
  exists s' b' first, exfat_write_file nm data (zlen data) s = Some (Val 0, s') /\ written s s' b b' j first data.
Proof.
  intros Hfs Hcl Hb Hw Hwf Hres Hin Elba Eoff Hone Hrun Hdb Hdl. pose proof Hfs as (Hv & Hcur & Hu & _).
  pose proof (zlen_nonneg data). destruct (clusters_of_ok (zlen data)) as (Hc1 & Hc8 & _); [lia|].
  unfold exfat_write_file, fn.
  rewrite (bind_val (resolve_or nm) _ s s tg) by (unfold resolve_or; by mrun Hres).
  destruct (pick_run_ok s tg (clusters_of (t_size tg)) (clusters_of (zlen data)) Hfs Hrun Hc1)
    as [Hp|(a & s1 & Hp & Hf1 & Hrun1 & Hv1 & Hu1)].
  { left. by rewrite (bind_exit _ _ _ _ _ Hp). }
  right. mrun Hp. rewrite bind_gets. pose proof Hrun1 as (Ha3 & _ & Hale & _ & Hacur).
  rewrite cluster_lba_ok by (try done; lia). pose proof Hf1 as (Hsv1 & _). pose proof Hsv1 as (Ec1 & _ & _ & _ & _ & Ecc1 & _).
  destruct (write_data_ok s1 a data Hv1 Hrun1 Hdb Hdl) as (s2 & Hw2 & Hf2 & Hrun2). mrun Hw2.
  rewrite (clus_lba_same s s1) in * by done.
  assert (forall x, sectors_at (clus_lba s a) (clusters_of (zlen data) * 8) x ->
    ~ bm_region s x /\ ~ sectors_at (clus_lba s (g_current_cluster s)) 8 x) as Hsep.
  { intros x Hx. destruct (run_present s1 a _ (x - clus_lba s a) Hv1 Hrun1) as (_ & _ & Hn1 & Hn2); [unfold sectors_at in Hx; lia|].
    rewrite !(clus_lba_same s s1), Ec1 in * by done. replace (clus_lba s a + (x - clus_lba s a)) with x in * by lia.
    split; [|done]. destruct (same_bm s s1 Hsv1) as (Eb & En & _). unfold bm_region in *. by rewrite <- Eb, <- En. }
  assert (cluster_is s2 (clus_lba s (g_current_cluster s)) b) as Hcl2.
  { eapply cluster_is_frame; [exact Hf2| |].
    - eapply cluster_is_frame; [exact Hf1|done|]. intros k Hk. by apply cluster_not_bitmap.
    - intros k Hk Hx. destruct (Hsep _ Hx) as [_ Hn]. apply Hn. unfold sectors_at. lia. }
  pose proof Hf2 as (Hsv2 & _). assert (same_vars s s2) as Hsv12 by (by etrans).
  pose proof Hsv12 as (Ec2 & _).
  destruct (update_entry_ok s2 b l j c tg a (zlen data)) as (s3 & b' & Hup & Hf3 & Hcl3 & Hsame & Hl4 & Hl8); try done.
  all: rewrite ?Ec2, ?(clus_lba_same s s2) by done; try done.
  { unfold is_u32, in_vol in *. destruct Hv as (_&_&_&Hmax&_). unfold EXFAT_MAX_BITMAP_CLUSTERS in Hmax. lia. }
  { unfold is_u64. lia. }
  rewrite Ec2, (clus_lba_same s s2) in Hf3, Hcl3 by done.
  exists s3, b', a. rewrite Hup. split; [done|].
  assert (forall i, 0 <= i < g_cluster_count s -> used s3 i = used s1 i) as Hu3.
  { intros i Hi. destruct (same_bm s s1 Hsv1) as (Eb & En & _). destruct (same_bm s s2 Hsv12) as (Eb2 & En2 & Ecc2).
    rewrite (frame_used s2 s3 _ i Hf3); [|unfold bm_region; rewrite Eb2, En2; intros x Hx; by apply sectors_at_not_bitmap|lia].
    apply (frame_used s1 s2 _ i Hf2); [|lia]. unfold bm_region. rewrite Eb, En. intros x Hx Hs.
    by destruct (Hsep _ Hs). }
  pose proof Hf3 as (Hsv3 & _). unfold in_vol in Hcur.
  constructor; try done.
  - eapply (vol_ok_frame _ s2); [eapply (vol_ok_frame _ s1); [exact Hv1|exact Hf2|]|exact Hf3|].
    + destruct (same_bm s s1 Hsv1) as (Eb & En & _). rewrite (frame_used s1 s2 _ 0 Hf2);
        [by destruct Hv1 as (_ & _ & _ & _ & _ & ->)| |lia].
      unfold bm_region. rewrite Eb, En. intros x Hx Hs. by destruct (Hsep _ Hs).
    + rewrite Hu3 by lia. by destruct Hv1 as (_ & _ & _ & _ & _ & ->).
  - by etrans.
  - by rewrite Hu3 by lia.
  - rewrite <- Ecc1. lia.
  - eapply run_is_frame; [exact Hrun2|exact Hf3|]. intros x Hx. rewrite padded_zlen, Z.div_mul in Hx by lia.
    destruct (Hsep x) as [_ Hn]; [unfold sectors_at; lia|done].
Qed.

End Data.

Section Read.
Context {D : Type} `{LawfulDisk D}.
Implicit Types s : exfat D.

(** Reading a file whose entry and data are known. *)
Lemma read_file_at_ok s nm tg data off n :
  vol_ok s -> exfat_resolve_entry nm s = Some (Val (Some tg), s) ->
  2 <= t_cluster tg < g_cluster_count s + 2 -> t_size tg = zlen data -> zlen data < 2 ^ 43 ->
  run_is s (clus_lba s (t_cluster tg)) (padded data) -> 0 <= off -> 0 < n ->
  let d := take (Z.to_nat n) (drop (Z.to_nat off) data) in
  exfat_read_file_at nm true off n s = Some (Val (zlen d, d), s).
Proof.
  intros Hv Hres Hc Hsz Hl Hrun Ho Hn d. unfold exfat_read_file_at. cbn [negb andb].
  rewrite (bind_val (resolve_or nm) _ s s tg) by (unfold resolve_or; by mrun Hres).
  rewrite Hsz, (eqb_neq n 0), orb_false_r by lia. destruct (Z.leb_spec (zlen data) off).
  { unfold d. rewrite drop_ge, take_nil by (unfold zlen in *; lia). done. }
  rewrite bind_gets, cluster_lba_ok by done.
  assert ((if n <? zlen data - off then n else zlen data - off) = zlen d) as ->.
  { unfold d. assert (zlen (take (Z.to_nat n) (drop (Z.to_nat off) data)) = Z.min n (zlen data - off)) as -> by zs.
    bgoal. }
  assert (0 < zlen d /\ off + zlen d <= zlen data) as [Hd1 Hd2] by (unfold d; zs).
  destruct (read_data_loop_ok (S (Z.to_nat (zlen d))) s _ _ off (zlen d) [] Hrun Ho) as (d' & Hr & Hsl); [lia| |lia|].
  { rewrite padded_zlen. pose proof (Z.div_mod (zlen data + 511) 512 ltac:(lia)).
    pose proof (Z.mod_pos_bound (zlen data + 511) 512 ltac:(lia)). lia. }
  mrun Hr. rewrite slice_padded in Hsl by lia. simplify_eq. cbn [app].
  assert (take (Z.to_nat (zlen d)) (drop (Z.to_nat off) data) = d) as ->.
  { unfold d, zlen. rewrite Nat2Z.id, length_take, length_drop.
    destruct (Nat.min_spec (Z.to_nat n) (length data - Z.to_nat off)) as [[? ->]|[? ->]]; [done|].
    rewrite !take_ge by (rewrite length_drop; lia). done. }
  unfold s64. rewrite Z.mod_small by lia. by rewrite Z.add_simpl_r.
Qed.

End Read.

Lemma write_read_ok {D} `{LawfulDisk D} (s : exfat D) nm t tg data :
  fs_ok s -> nozero nm -> exfat_resolve_entry (nm ++ 0 :: t) s = Some (Val (Some tg), s) ->
  in_one_sector s tg -> run_ok s (t_cluster tg) (clusters_of (t_size tg)) ->
  is_bytes data -> zlen data < 2 ^ 43 ->
  exfat_write_file (nm ++ 0 :: t) data (zlen data) s = Some (Val (-1), s) \/
  exists s', exfat_write_file (nm ++ 0 :: t) data (zlen data) s = Some (Val 0, s') /\
    fs_ok s' /\
    (forall off n, 0 <= off -> 0 < n ->
       let d := take (Z.to_nat n) (drop (Z.to_nat off) data) in
       exfat_read_file_at (nm ++ 0 :: t) true off n s' = Some (Val (zlen d, d), s')) /\
    (forall other r, exfat_resolve_entry other s = Some (Val r, s) ->
       (forall u, r = Some u -> (t_entry_lba u, t_entry_offset u) <> (t_entry_lba tg, t_entry_offset tg)) ->
       exfat_resolve_entry other s' = Some (Val r, s')).
Proof.
  intros Hfs Hnm Hres Hone Hrun Hdb Hdl. pose proof Hfs as (Hv & Hcur & Hu & b & Hcl & Hz & Hb & l & Hw & Hwf).
  pose proof Hres as Hlk. rewrite (resolve_entry_ok _ b l) in Hlk by done.
  destruct (lookup_in b (nm ++ 0 :: t) _ l) as [r0|] eqn:Hlook; [|done]. rewrite Some_bind in Hlk. simplify_eq.
  destruct (lookup_found _ _ _ _ _ Hz Hwf Hlook) as (j & c & Hin & Elba & Eoff & Hj32 & _).
  assert (wf_set b (j, c)) as (Hc2 & Hj0 & _ & Hjend & _) by (rewrite Forall_forall in Hwf; by apply Hwf).
  pose proof (in_one_sector_set _ _ _ _ _ _ _ Hcl Hw Hin ltac:(lia) Elba Eoff Hone) as Hsec.
  destruct (write_file_ok s b l (nm ++ 0 :: t) tg j c data) as [?|(s' & b' & first & Hwr & Hwritten)]; try done; [by left|].
  right. exists s'. split; [done|]. destruct Hwritten as [Hv' Hsv Hcu Hdir Hsame Hf Hsize Hrange Hdata].
  pose proof Hsv as (Ecur & _ & _ & _ & _ & Ecc & _).
  assert (walks b' 0 l) as Hw' by (by eapply walks_kept).
  assert (in_vol s' (g_current_cluster s')) as Hcur' by (unfold in_vol in *; by rewrite Ecur, Ecc).
  assert (cluster_is s' (clus_lba s' (g_current_cluster s')) b') as Hdir' by (rewrite Ecur, (clus_lba_same s s') by done; done).
  assert (forall other, exfat_resolve_entry other s' =
    (x ← lookup_in b' other (clus_lba s (g_current_cluster s)) l; Some (Val x, s'))) as Hres'.
  { intros other. rewrite (resolve_entry_ok _ b' l) by done. by rewrite Ecur, (clus_lba_same s s') by done. }
  pose proof (fun nm' => lookup_kept b b' j c Hsame l (clus_lba s (g_current_cluster s)) nm' first (zlen data)
    Hz Hw Hwf Hin Hf Hsize) as Hkept.
  split; [|split].
  - split; [done|]. split; [done|]. split; [by rewrite Ecur|]. exists b'. split; [done|].
    destruct Hsame as (Hz' & Hb' & Hs'). split; [congruence|]. split; [auto|]. exists l. split; [done|].
    eapply Forall_impl; [exact Hwf|]. intros p. apply (wf_set_kept b b' j); [done|done].
  - intros off n Ho Hn. eapply (read_file_at_ok s' _ (Target first (zlen data) (t_is_dir tg) (t_entry_lba tg) (t_entry_offset tg)));
      try done; cbn.
    + rewrite Hres', Hkept, Hlook, !Some_bind. rewrite Elba, Eoff, !Z.eqb_refl. done.
    + by rewrite Ecc.
    + by rewrite (clus_lba_same s s').
  - intros other r Hr Hne. rewrite Hres', Hkept. rewrite (resolve_entry_ok _ b l) in Hr by done.
    destruct (lookup_in b other _ l) as [x|]; [|done]. rewrite Some_bind in Hr. injection Hr as ->. rewrite !Some_bind.
    destruct r as [u|]; [|done]. specialize (Hne u eq_refl).
    destruct (Z.eqb_spec (t_entry_lba u) (clus_lba s (g_current_cluster s) + j / 512)),
      (Z.eqb_spec (t_entry_offset u) (j mod 512)); cbn [andb]; try done. congruence.
Qed.

(** C2: Writing a file and reading it back. Given: a mounted volume that satisfies the
    invariant [fs_ok]; a name in the current directory that resolves to a file whose
    entry set (its 32-byte directory entries) lies within one 512-byte sector
    ([in_one_sector]), and whose clusters, as many as its size asks for, are allocated
    clusters of the volume apart from the current directory ([run_ok]); and fewer than
    2^43 bytes of data. Then [exfat_write_file] either returns -1 with no effect at all,
    or returns 0 and: the invariant holds; reading at any offset returns exactly the
    corresponding part of the data; and every name that resolved to another entry (or to
    none) resolves as before. The first condition is a real one: an entry set that
    crosses a sector, as the fifth file of a directory can have, is written out of
    bounds ([fifth_file_out_of_bounds]). *)
Theorem write_then_read {D} `{LawfulDisk D} (s : exfat D) nm t tg data :
  fs_ok s -> nozero nm -> exfat_resolve_entry (nm ++ 0 :: t) s = Some (Val (Some tg), s) ->
  in_one_sector s tg -> run_ok s (t_cluster tg) (clusters_of (t_size tg)) ->
  is_bytes data -> zlen data < 2 ^ 43 ->
  exfat_write_file (nm ++ 0 :: t) data (zlen data) s = Some (Val (-1), s) \/
  exists s', exfat_write_file (nm ++ 0 :: t) data (zlen data) s = Some (Val 0, s') /\
    fs_ok s' /\
    (forall off n, 0 <= off -> 0 < n ->
       let d := take (Z.to_nat n) (drop (Z.to_nat off) data) in
       exfat_read_file_at (nm ++ 0 :: t) true off n s' = Some (Val (zlen d, d), s')) /\
    (forall other r, exfat_resolve_entry other s = Some (Val r, s) ->
       (forall u, r = Some u -> (t_entry_lba u, t_entry_offset u) <> (t_entry_lba tg, t_entry_offset tg)) ->
       exfat_resolve_entry other s' = Some (Val r, s')).
Proof. apply write_read_ok. Qed.
