(* ===== verification/ExfatLimits.v ===== *)
(** * Concrete volumes, and what the exFAT driver does not handle

    A volume with a file on which writing is exercised, and three behaviours of
    the driver that its users should know: entry sets that straddle a sector
    boundary, stale root sectors after formatting, and the space metrics. *)

From S2P Require Import Prelude CMonad Disk CString Exfat ExfatDisk ExfatBitmap ExfatDir ExfatCreate ExfatFormat ExfatData.

(** The state a program leaves, and its result. *)
Definition after {A} (m : M (exfat MemDisk.t) A) (s : exfat MemDisk.t) : exfat MemDisk.t :=
  match m s with Some (_, s') => s' | None => s end.

Definition result {A} (m : M (exfat MemDisk.t) A) (s : exfat MemDisk.t) : option (outcome A) :=
  fst <$> m s.

Definition c_string (name : string) : bytes := lit name ++ [0].

Definition touch (name : string) : M (exfat MemDisk.t) Z :=
  exfat_create_node (Some (c_string name)) false.

(** ** Writing to a file of a fresh volume *)

Definition demo_file : exfat MemDisk.t := after (touch "a.txt") demo_fs.

Lemma demo_file_ok : fs_ok demo_file.
Proof.
  pose proof demo_fs_ok as Hfs. pose proof Hfs as (_ & _ & _ & b & Hcl & Hz & Hb & l & Hw & Hwf).
  assert (Forall (fun c => 0 < c < 256) (lit "a.txt")) as Hn by (apply (bool_decide_unpack _); vm_compute; exact I).
  assert (1 <= zlen (lit "a.txt") <= 255) as Hlen by (split; vm_compute; discriminate).
  unfold demo_file, after, touch, c_string.
  destruct (create_node_ok demo_fs b (lit "a.txt") [] false Hfs Hcl Hb Hn Hlen)
    as [Hr|(s' & b' & c & slot & Hr & Hcr)]; rewrite Hr; [done|].
  by eapply created_fs_ok.
Qed.

Definition demo_target : exfat_target_t := Target 5 0 false 6160 64.

Lemma demo_run_ok : run_ok demo_file 5 1.
Proof.
  split; [done|]. split; [done|]. split; [vm_compute; discriminate|]. split.
  - intros i Hi. assert (i = 3) as -> by lia. vm_compute. reflexivity.
  - left. vm_compute. reflexivity.
Qed.

Lemma demo_one_sector : in_one_sector demo_file demo_target.
Proof.
  destruct (img demo_file 6160) as [b|] eqn:E; [|vm_compute in E; discriminate].
  exists b, 2. split; [done|]. split; [|vm_compute; discriminate].
  assert ((fun o => match o with Some b => rd b (64 + 1) | None => None end) (img demo_file 6160) = Some 2) as Hr
    by (vm_compute; reflexivity).
  by rewrite E in Hr.
Qed.

Lemma write_then_read_witness :
  exists s', exfat_write_file (c_string "a.txt") (lit "hello") 5 demo_file = Some (Val 0, s') /\
    fs_ok s' /\ exfat_read_file_at (c_string "a.txt") true 1 3 s' = Some (Val (3, lit "ell"), s').
Proof.
  destruct (write_then_read demo_file (lit "a.txt") [] demo_target (lit "hello") demo_file_ok)
    as [Hf|(s' & Hw & Hfs & Hr & _)].
  - apply (bool_decide_unpack _). vm_compute. exact I.
  - vm_compute. reflexivity.
  - exact demo_one_sector.
  - exact demo_run_ok.
  - apply (bool_decide_unpack _). vm_compute. exact I.
  - reflexivity.
  - exfalso. apply (f_equal (option_map fst)) in Hf. vm_compute in Hf. discriminate.
  - exists s'. split; [exact Hw|]. split; [exact Hfs|]. apply (Hr 1 3); [discriminate|reflexivity].
Defined.

(** ** Entry sets that straddle a sector boundary *)

(** Five files with short names in a fresh root directory: the set of the fifth
    starts at byte 448 and ends in the next sector. *)
Definition five_files : exfat MemDisk.t :=
  after (touch "a";; touch "b";; touch "c";; touch "d";; touch "e") demo_fs.

(** deleting, writing or appending to the fifth file of a fresh root directory
    accesses its sector buffer out of bounds, although the file was created and
    resolves; the fourth file is deleted without trouble. *)
Theorem fifth_file_out_of_bounds :
  result (exfat_get_info (Some (c_string "e"))) five_files = Some (Val (Some (0, false))) /\
  result (exfat_delete_node (c_string "e")) five_files = None /\
  result (exfat_write_file (c_string "e") (lit "x") 1) five_files = None /\
  result (exfat_append_file (c_string "e") (lit "x") 1) five_files = None /\
  result (exfat_print_directory true) five_files = None /\
  result (exfat_delete_node (c_string "d")) five_files = Some (Val 0).
Proof. vm_compute. repeat split. Qed.

(** ** Stale root sectors *)

Definition six_files : exfat MemDisk.t := after (touch "f") five_files.

(** formatting does not empty the root directory: only its first sector is
    written, so a file whose entry set lies in a later sector is still found
    after [exfat_wipe_and_format] and [exfat_mount], although its cluster is no
    longer allocated and the next file created gets the same cluster. *)
Theorem format_keeps_old_entries :
  let fresh := after (exfat_wipe_and_format;; exfat_mount) six_files in
  result (exfat_get_info (Some (c_string "f"))) six_files = Some (Val (Some (0, false))) /\
  result (exfat_wipe_and_format;; exfat_mount) six_files = Some (Val 1) /\
  result (exfat_get_info (Some (c_string "a"))) fresh = Some (Val None) /\
  result (exfat_get_info (Some (c_string "f"))) fresh = Some (Val (Some (0, false))) /\
  (t ← exfat_resolve_entry (c_string "f") fresh; Some (used fresh (match fst t with Val (Some t) => t_cluster t - 2 | _ => 0 end))) = Some false.
Proof. vm_compute. repeat split. Qed.

(** ** Duplicate names *)

(** [exfat_create_node] does not look for an existing entry: creating a name
    twice succeeds and leaves two entries of that name in the directory. *)
Theorem create_allows_duplicates :
  result (touch "a.txt") demo_file = Some (Val 0) /\
  result (exfat_list_files true 8) (after (touch "a.txt") demo_file) =
    Some (Val (2, [lit "a.txt"; lit "a.txt"])).
Proof. vm_compute. repeat split. Qed.

(** ** Space metrics *)

(** on every volume made by the formatter, [exfat_get_space_metrics] reports
    2048 clusters in total and 2048 free, whatever the size of the volume and
    however much of it is allocated: it reads the field before the cluster count
    and never looks at the bitmap. *)
Theorem space_metrics_constant {D} `{LawfulDisk D} (s : exfat D) b cnt :
  img s 4096 = Some b -> vbr_ok b cnt ->
  exfat_get_space_metrics s = Some (Val (Some (2048, 2048)), s).
Proof.
  intros Hb (_ & _ & _ & _ & Hheap & _). unfold exfat_get_space_metrics.
  mrun (sector_read_ok s FS_BASE_LBA b Hb ltac:(unfold lba_ok, FS_BASE_LBA; lia)). mlift Hheap. done.
Qed.

Lemma space_metrics_constant_witness :
  exists s b, img s 4096 = Some b /\ vbr_ok b (volume_clusters 9000) /\
    exfat_get_space_metrics s = Some (Val (Some (2048, 2048)), s :> exfat MemDisk.t).
Proof.
  destruct demo_blank_ok as (H1 & H2 & H3 & H4).
  destruct (format_ok demo_blank 9000 H1) as (s1 & Hf & Hfm); [split; vm_compute; discriminate|done|done|].
  destruct (fm_vbr _ _ _ Hfm) as (b & Hb & Hvbr). exists s1, b. split; [done|]. split; [done|].
  exact (space_metrics_constant s1 b (volume_clusters 9000) Hb Hvbr).
Defined.
