(* ===== verification/Vfs.v ===== *)
(** * The virtual file system (helper/drivers/filesystem/vfs.c)

    State: the exFAT driver below ([g_fs]), the current drive, which drives are
    mounted, the working directory remembered for each drive and the buffer
    [fs_dirname] returns.  Path arguments are [option]s: [None] is a NULL
    pointer.  Local buffers of the source are written before they are read with
    one exception, [clean] in [fs_split_path]: there [fs_sanitize_path] gets an
    uninitialised buffer ([None]), and reading it is undefined behaviour. *)

From S2P Require Import Prelude CMonad Disk CString Exfat.

Definition ATA_PRIMARY_MASTER : Z := 0.
Definition ATA_PRIMARY_SLAVE : Z := 1.
Definition ATA_DRIVE_COUNT : Z := 2.

Definition root_str : bytes := lit "/" ++ [0].

Record vfs (D : Type) := VFS {
  g_fs : exfat D;
  g_current_drive : Z;
  g_drive_mounted : list Z;
  g_drive_working_dirs : list bytes;
  g_current_drive_path : bytes;
}.
Arguments VFS {D}.
Arguments g_fs {D}.
Arguments g_current_drive {D}.
Arguments g_drive_mounted {D}.
Arguments g_drive_working_dirs {D}.
Arguments g_current_drive_path {D}.

Definition with_fs {D} (e : exfat D) (s : vfs D) : vfs D :=
  VFS e (g_current_drive s) (g_drive_mounted s) (g_drive_working_dirs s) (g_current_drive_path s).
Definition with_drive {D} (d : Z) (s : vfs D) : vfs D :=
  VFS (g_fs s) d (g_drive_mounted s) (g_drive_working_dirs s) (g_current_drive_path s).
Definition with_mounted {D} (l : list Z) (s : vfs D) : vfs D :=
  VFS (g_fs s) (g_current_drive s) l (g_drive_working_dirs s) (g_current_drive_path s).
Definition with_dirs {D} (l : list bytes) (s : vfs D) : vfs D :=
  VFS (g_fs s) (g_current_drive s) (g_drive_mounted s) l (g_current_drive_path s).
Definition with_drive_path {D} (p : bytes) (s : vfs D) : vfs D :=
  VFS (g_fs s) (g_current_drive s) (g_drive_mounted s) (g_drive_working_dirs s) p.

(** The initial values of the file-scope variables. *)
Definition vfs_init {D} (d : D) : vfs D :=
  VFS (exfat_init d) ATA_PRIMARY_MASTER [0; 0]
      [root_str ++ zeros 254; root_str ++ zeros 254] (zeros 260).

(** ** Paths *)

(** [while (len > floor && f(out[len - 1])) out[--len] = 0;] *)
Fixpoint trim_to (floor : nat) (f : Z -> bool) (len : nat) (out : bytes) : option (nat * bytes) :=
  match len with
  | O => Some (O, out)
  | S len' =>
      if (len <=? floor)%nat then Some (len, out)
      else
        c ← rd out (Z.of_nat len');
        if f c then out ← wr out (Z.of_nat len') 0; trim_to floor f len' out
        else Some (len, out)
  end.

Definition fs_sanitize_path (src : bytes) (out : option bytes) (out_size : Z) : option bytes :=
  let src := skip_spaces src in
  '(rc, buf) ← strncpy_body (default (zeros (Z.to_nat out_size)) out) src (out_size - 1);
  if negb (rc =? 0) && bool_decide (out = None) then None
  else
    out ← wr buf (out_size - 1) 0;
    len ← strlen_loop out;
    '(len, out) ← trim_to 0 is_line_blank (Z.to_nat len) out;
    '(len, out) ← trim_to 1 (Z.eqb c_slash) len out;
    Some out.

(** [Some None] is the result -1; otherwise [out_parent] and [out_filename]. *)
Definition fs_split_path (path : bytes) (parent_size filename_size : Z)
  : option (option (bytes * bytes)) :=
  let out_parent := zeros (Z.to_nat parent_size) in
  let out_filename := zeros (Z.to_nat filename_size) in
  p0 ← rd path 0;
  if p0 =? 0 then Some None
  else
    clean ← fs_sanitize_path path None 256;
    c0 ← rd clean 0;
    if c0 =? 0 then Some None
    else
      root ← is_root clean;
      if (root : bool) then
        out_parent ← str_strcpy out_parent root_str;
        out_filename ← str_strcpy out_filename (lit "." ++ [0]);
        Some (Some (out_parent, out_filename))
      else
        len ← strlen_loop clean;
        slash ← last_slash clean (Z.to_nat len);
        if slash =? -1 then
          out_parent ← wr out_parent 0 0;
          '(_, out_filename) ← strncpy_body out_filename clean (filename_size - 1);
          out_filename ← wr out_filename (filename_size - 1) 0;
          Some (Some (out_parent, out_filename))
        else
          '(_, out_filename) ←
            strncpy_body out_filename (drop (Z.to_nat (slash + 1)) clean) (filename_size - 1);
          out_filename ← wr out_filename (filename_size - 1) 0;
          if slash =? 0 then
            out_parent ← str_strcpy out_parent root_str;
            Some (Some (out_parent, out_filename))
          else if parent_size <=? slash then Some None
          else
            out_parent ← ncopy_loop out_parent 0 clean (Z.to_nat slash);
            out_parent ← wr out_parent slash 0;
            Some (Some (out_parent, out_filename)).

Section Vfs.
Context {D : Type} `{BlockDevice D}.

Abbreviation V := (M (vfs D)).

Definition on_fs {A} (m : M (exfat D) A) : V A := zoom g_fs with_fs m.

Definition drive_present (drive : Z) : V bool :=
  gets (fun s => ata_drive_present (g_dev (g_fs s)) drive).

Definition select_drive (drive : Z) : V Z := fun s =>
  let '(rc, d) := ata_select_drive (g_dev (g_fs s)) drive in
  Some (Val rc, with_fs (with_dev d (g_fs s)) s).

Definition mounted (drive : Z) : V bool :=
  l ← gets g_drive_mounted;
  m ← lift (rd l drive);
  mret (negb (m =? 0)).

Definition set_mounted (drive v : Z) : V unit :=
  l ← gets g_drive_mounted;
  l ← lift (wr l drive v);
  modify (with_mounted l).

Definition get_dir (drive : Z) : V bytes :=
  l ← gets g_drive_working_dirs;
  lift (rd l drive).

(** [str_strcpy(g_drive_working_dirs[drive], src)] *)
Definition set_dir (drive : Z) (src : bytes) : V unit :=
  l ← gets g_drive_working_dirs;
  old ← lift (rd l drive);
  new ← lift (str_strcpy old src);
  l ← lift (wr l drive new);
  modify (with_dirs l).

(** ** Drives *)

Definition fs_mount_or_format_drive (drive : Z) : V Z := fn (
  was_mounted ← mounted drive;
  present ← drive_present drive;
  if negb (present : bool) then exit (-1) else
  rc ← select_drive drive;
  if negb (rc =? 0) then exit (-1) else
  mount_result ← on_fs exfat_mount;
  mount_result ←
    (if mount_result =? 0 then
       rc ← on_fs exfat_wipe_and_format;
       if negb (rc =? 0) then exit (-1) else on_fs exfat_mount
     else mret mount_result);
  if negb (mount_result =? 1) then exit (-1) else
  set_mounted drive 1;;
  (if negb (was_mounted : bool) then set_dir drive root_str else mret tt);;
  mret 0).

Definition fs_select_drive_internal (drive : Z) : V Z := fn (
  present ← drive_present drive;
  if (ATA_DRIVE_COUNT <=? drive) || negb (present : bool) then exit (-1) else
  current ← gets g_current_drive;
  m ← mounted drive;
  if (drive =? current) && (m : bool) then exit 0 else
  current_dir ← on_fs exfat_get_working_dir;
  m ← mounted current;
  (if (m : bool) then
     len ← lift (strlen_loop current_dir);
     if len <? 256 then set_dir current current_dir else mret tt
   else mret tt);;
  rc ← fs_mount_or_format_drive drive;
  if negb (rc =? 0) then
    present ← drive_present current;
    (if (current <? ATA_DRIVE_COUNT) && (present : bool) then
       select_drive current;;
       modify (with_drive current);;
       m ← mounted current;
       if (m : bool) then
         on_fs exfat_mount;;
         dir ← get_dir current;
         on_fs (exfat_change_directory (Some dir));;
         mret tt
       else mret tt
     else mret tt);;
    exit (-1)
  else
    modify (with_drive drive);;
    dir ← get_dir drive;
    rc ← on_fs (exfat_change_directory (Some dir));
    if negb (rc =? 0) then
      set_dir drive root_str;;
      rc ← on_fs (exfat_change_directory (Some root_str));
      if negb (rc =? 0) then set_mounted drive 0;; exit (-1)
      else mret 0
    else mret 0).

(** The result is the path without its drive letter, in a buffer of [out_size]
    bytes; [None] is the result -1. *)
Definition fs_prepare_path (path : option bytes) (out_size : Z) : V (option bytes) :=
  match path with
  | None => mret None
  | Some path =>
      if out_size =? 0 then mret None else
      p0 ← lift (rd path 0);
      letter ←
        (if (97 <=? p0) && (p0 <=? 122) then
           p1 ← lift (rd path 1); mret (p1 =? c_colon)
         else mret false);
      prefixed ←
        (if (letter : bool) then
           if negb (p0 =? 99) && negb (p0 =? 100) then mret None
           else
             rc ← fs_select_drive_internal (u8 (p0 - 99));
             if negb (rc =? 0) then mret None
             else
               let path := drop 2 path in
               c ← lift (rd path 0);
               mret (Some (if c =? 0 then root_str else path))
         else mret (Some path));
      match prefixed with
      | None => mret None
      | Some path =>
          current ← gets g_current_drive;
          m ← mounted current;
          if negb (m : bool) then mret None
          else
            '(rc, out) ← lift (strncpy_body (zeros (Z.to_nat out_size)) path out_size);
            mret (if rc =? 0 then Some out else None)
      end
  end.

(** The leaf name and, when the directory was changed, the directory to go back
    to; [None] is the result -1. *)
Definition fs_enter_path (path : option bytes) (leaf_size : Z) : V (option (bytes * option bytes)) :=
  match path with
  | None => mret None
  | Some path =>
      p0 ← lift (rd path 0);
      if p0 =? 0 then mret None else
      resolved ← fs_prepare_path (Some path) 256;
      match resolved with
      | None => mret None
      | Some resolved_path =>
          split ← lift (fs_split_path resolved_path 256 leaf_size);
          match split with
          | None => mret None
          | Some (parent_dir, leaf) =>
              c ← lift (rd parent_dir 0);
              if c =? 0 then mret (Some (leaf, None))
              else
                current ← on_fs exfat_get_working_dir;
                saved_cwd ← lift (str_strcpy (zeros 256) current);
                rc ← on_fs (exfat_change_directory (Some parent_dir));
                mret (if negb (rc =? 0) then None else Some (leaf, Some saved_cwd))
          end
      end
  end.

Definition fs_leave_path (saved_cwd : option bytes) : V unit :=
  match saved_cwd with
  | None => mret tt
  | Some cwd => on_fs (exfat_change_directory (Some cwd));; mret tt
  end.

(** The shape shared by the operations on one path: enter the directory, run
    the driver on the leaf, go back; [bad] is the result when entering fails. *)
Definition at_path {A} (path : option bytes) (bad : A) (op : bytes -> M (exfat D) A) : V A :=
  entered ← fs_enter_path path 256;
  match entered with
  | None => mret bad
  | Some (leaf, saved_cwd) =>
      rc ← on_fs (op leaf);
      fs_leave_path saved_cwd;;
      mret rc
  end.

Definition fs_set_auth_override (enabled : Z) : V Z := mret 0.

Definition fs_set_permissions (path : option bytes)
  (owner_uid group_gid owner_mask group_mask other_mask : Z) : V Z := mret 0.

Definition fs_check_access (path : option bytes) (requested_mask : Z) : V Z := mret 0.

Definition fs_format : V Z := fn (
  current ← gets g_current_drive;
  present ← drive_present current;
  rc ← (if (present : bool) then on_fs exfat_wipe_and_format else mret (-1));
  ok ← (if rc =? 0 then r ← on_fs exfat_mount; mret (r =? 1) else mret false);
  if negb (ok : bool) then set_mounted current 0;; exit (-1)
  else set_mounted current 1;; set_dir current root_str;; mret 0).

Definition fs_create (filename : option bytes) : V Z :=
  at_path filename (-1) (fun leaf => exfat_create_node (Some leaf) false).

Definition fs_mkdir (foldername : option bytes) : V Z :=
  at_path foldername (-1) (fun leaf => exfat_create_node (Some leaf) true).

Definition fs_exists (filename : option bytes) : V Z :=
  at_path filename 0 (fun leaf =>
    t ← exfat_resolve_entry leaf;
    mret (match t with Some _ => 1 | None => 0 end)).

(** [size] and [is_dir] are valid pointers; [None] is the result -1. *)
Definition fs_get_info (filename : option bytes) : V (option (Z * bool)) :=
  match filename with
  | None => mret None
  | Some filename =>
      resolved ← fs_prepare_path (Some filename) 256;
      match resolved with
      | None => mret None
      | Some resolved_path =>
          root ← lift (is_root resolved_path);
          here ← lift (if (root : bool) then Some 0 else str_strcmp resolved_path (lit "." ++ [0]));
          if here =? 0 then mret (Some (0, true))
          else at_path (Some resolved_path) None (fun leaf => exfat_get_info (Some leaf))
      end
  end.

Definition fs_isdir (filename : option bytes) : V Z :=
  info ← fs_get_info filename;
  mret (match info with Some (_, true) => 1 | _ => 0 end).

Definition fs_delete (filename : option bytes) : V Z :=
  at_path filename (-1) (fun leaf =>
    rc ← exfat_delete_node leaf;
    mret (if rc =? 0 then 1 else -1)).

Definition fs_delete_last_line (filename : option bytes) : V Z :=
  at_path filename (-1) exfat_truncate_last_line.

(** The result and the bytes stored at the start of [output_buffer], which is
    not NULL when [buf_ok]. *)
Definition fs_read_raw_at (filename : option bytes) (buf_ok : bool) (offset max_size : Z)
  : V (Z * bytes) :=
  if negb buf_ok then mret (-1, [])
  else at_path filename (-1, []) (fun leaf =>
    '(rc, out) ← exfat_read_file_at leaf true offset max_size;
    mret (s32 rc, out)).

Definition fs_read (filename : option bytes) (buf_ok : bool) (max_size : Z) : V (Z * bytes) :=
  if negb buf_ok then mret (-1, [])
  else at_path filename (-1, []) (fun leaf =>
    '(rc, out) ← exfat_read_file leaf true max_size;
    mret (s32 rc, out)).

Definition fs_read_raw (filename : option bytes) (buf_ok : bool) (max_size : Z) : V (Z * bytes) :=
  if negb buf_ok then mret (-1, [])
  else at_path filename (-1, []) (fun leaf =>
    '(rc, out) ← exfat_read_file leaf true max_size;
    mret (s32 rc, out)).

Definition fs_write_bytes (filename : option bytes) (input_buffer : bytes) (size : Z) : V Z :=
  at_path filename (-1) (fun leaf => exfat_write_file leaf input_buffer size).

Definition fs_write (filename input_buffer : option bytes) : V Z :=
  match input_buffer with
  | None => mret (-1)
  | Some input_buffer =>
      len ← lift (strlen_loop input_buffer);
      fs_write_bytes filename input_buffer (u32 len)
  end.

(** [None] for [data] is a NULL pointer. *)
Definition fs_append_data (filename data : option bytes) (size : Z) : V Z :=
  match data with
  | None =>
      if negb (size =? 0) then mret (-1)
      else at_path filename (-1) (fun leaf => exfat_append_file leaf [] size)
  | Some data => at_path filename (-1) (fun leaf => exfat_append_file leaf data size)
  end.

(** ** Copying and moving *)

(** One round of the copy loop: [inl] is the next offset, [inr] the result. *)
Definition copy_round (source dest : option bytes) (offset : Z) : V (Z + Z) :=
  '(bytes_read, raw_buffer) ← fs_read_raw_at source true offset 4096;
  if bytes_read <? 0 then fs_delete dest;; mret (inr (-1))
  else if bytes_read =? 0 then mret (inr 0)
  else
    rc ← fs_append_data dest (Some raw_buffer) (u32 bytes_read);
    if negb (rc =? 0) then fs_delete dest;; mret (inr (-1))
    else mret (inl (u64 (offset + u64 bytes_read))).

(** No file is longer than 2^64 bytes, so the bound on the rounds is never
    reached before the end of the source. *)
Definition copy_rounds : positive := 18446744073709551616.

Definition fs_copy (source dest : option bytes) : V Z := fn (
  e ← fs_exists dest;
  (if negb (e =? 0) then
     rc ← fs_delete dest;
     if negb (rc =? 1) then exit (-1) else mret tt
   else mret tt);;
  rc ← fs_create dest;
  if negb (rc =? 0) then exit (-1) else
  while_true copy_rounds (copy_round source dest) 0).

Definition fs_move (source dest : option bytes) : V Z := fn (
  match source, dest with
  | Some src, Some dst =>
      s0 ← lift (rd src 0);
      if s0 =? 0 then exit (-1) else
      d0 ← lift (rd dst 0);
      if d0 =? 0 then exit (-1) else
      same ← lift (str_strcmp src dst);
      if same =? 0 then exit (-1) else
      e ← fs_exists source;
      if e =? 0 then exit (-1) else
      e ← fs_exists dest;
      if negb (e =? 0) then exit (-1) else
      rc ← fs_copy source dest;
      if negb (rc =? 0) then exit (-1) else
      rc ← fs_delete source;
      if negb (rc =? 1) then fs_delete dest;; exit (-1)
      else mret 0
  | _, _ => exit (-1)
  end).

Definition fs_rename (filename newname : option bytes) : V Z := fn (
  match filename, newname with
  | Some f, Some n =>
      f0 ← lift (rd f 0);
      if f0 =? 0 then exit 0 else
      n0 ← lift (rd n 0);
      if n0 =? 0 then exit 0 else
      e ← fs_exists filename;
      if e =? 0 then exit 0 else
      e ← fs_exists newname;
      if negb (e =? 0) then exit 0 else
      rc ← fs_copy filename newname;
      if negb (rc =? 0) then exit 0 else
      fs_delete filename;;
      mret 1
  | _, _ => exit 0
  end).

(** ** Directories *)

(** The printed lines; [None] is the result -1. *)
Definition fs_list_dir (hidden : bool) : V (option (list bytes)) :=
  current ← gets g_current_drive;
  m ← mounted current;
  if negb (m : bool) then mret None else on_fs (exfat_print_directory hidden).

Definition fs_list_entries_common (directory : option bytes) (names_ok : bool) (capacity : Z)
  (include_directories : bool) : V (Z * list bytes) :=
  match directory with
  | None => mret (-1, [])
  | Some directory =>
      d0 ← lift (rd directory 0);
      if (d0 =? 0) || (negb names_ok && negb (capacity =? 0)) then mret (-1, []) else
      resolved ← fs_prepare_path (Some directory) 256;
      match resolved with
      | None => mret (-1, [])
      | Some resolved_directory =>
          current ← on_fs exfat_get_working_dir;
          len ← lift (strlen_loop current);
          if 256 <=? len then mret (-1, []) else
          saved_cwd ← lift (str_strcpy (zeros 256) current);
          rc ← on_fs (exfat_change_directory (Some resolved_directory));
          if negb (rc =? 0) then mret (-1, []) else
          '(count, names) ← on_fs (if include_directories then exfat_list_entries names_ok capacity
                                   else exfat_list_files names_ok capacity);
          rc ← on_fs (exfat_change_directory (Some saved_cwd));
          mret (if negb (rc =? 0) || (count <? 0) || (capacity <? count)
                then (-1, names) else (count, names))
      end
  end.

Definition fs_list_files (directory : option bytes) (names_ok : bool) (capacity : Z)
  : V (Z * list bytes) := fs_list_entries_common directory names_ok capacity false.

Definition fs_list_entries (directory : option bytes) (names_ok : bool) (capacity : Z)
  : V (Z * list bytes) := fs_list_entries_common directory names_ok capacity true.

Definition fs_chdir (folder : option bytes) : V Z := fn (
  match folder with
  | None => exit (-1)
  | Some folder =>
      f0 ← lift (rd folder 0);
      if f0 =? 0 then exit (-1) else
      previous_drive ← gets g_current_drive;
      prepared ← fs_prepare_path (Some folder) 256;
      match prepared with
      | None => exit (-1)
      | Some clean =>
          c0 ← lift (rd clean 0);
          clean ← lift (if c0 =? 0 then str_strcpy clean root_str else Some clean);
          clean ← lift (fs_sanitize_path clean (Some clean) 256);
          c0 ← lift (rd clean 0);
          if c0 =? 0 then exit (-1) else
          rc ← on_fs (exfat_change_directory (Some clean));
          current ← gets g_current_drive;
          if negb (rc =? 0) then
            (if negb (current =? previous_drive)
             then fs_select_drive_internal previous_drive;; mret tt else mret tt);;
            exit (-1)
          else
            dir ← on_fs exfat_get_working_dir;
            set_dir current dir;;
            mret 0
      end
  end).

Definition fs_select_drive (drive : Z) : V Z := fs_select_drive_internal drive.

Definition fs_drive_present (drive : Z) : V bool := drive_present drive.

Definition fs_current_drive : V Z := gets g_current_drive.

(** The returned string; [None] is a NULL pointer. *)
Definition fs_dirname : V (option bytes) :=
  current ← gets g_current_drive;
  m ← mounted current;
  if negb (m : bool) then mret None
  else
    working_dir ← on_fs exfat_get_working_dir;
    p ← gets g_current_drive_path;
    p ← lift (wr p 0 (u8 (99 + current)));
    p ← lift (wr p 1 c_colon);
    p ← lift (strcpy_loop p 2 working_dir);
    modify (with_drive_path p);;
    mret (Some p).

Definition fs_mount : V Z := fn (
  modify (fun s => with_fs (with_dev (ata_probe_devices (g_dev (g_fs s))) (g_fs s)) s);;
  modify (with_drive ATA_PRIMARY_MASTER);;
  set_mounted ATA_PRIMARY_MASTER 0;;
  set_mounted ATA_PRIMARY_SLAVE 0;;
  set_dir ATA_PRIMARY_MASTER root_str;;
  set_dir ATA_PRIMARY_SLAVE root_str;;
  for_loop 2 0 1 (fun drive =>
    present ← drive_present drive;
    if (present : bool) then fs_mount_or_format_drive drive;; mret tt else mret tt);;
  m ← mounted ATA_PRIMARY_MASTER;
  if negb (m : bool) then exit 0 else
  rc ← select_drive ATA_PRIMARY_MASTER;
  if negb (rc =? 0) then exit 0 else
  rc ← on_fs exfat_mount;
  if negb (rc =? 1) then exit 0 else
  dir ← get_dir ATA_PRIMARY_MASTER;
  rc ← on_fs (exfat_change_directory (Some dir));
  if negb (rc =? 0) then exit 0 else mret 1).

Definition fs_list (directory : option bytes) (show_hidden : bool) : V (option (list bytes)) :=
  d0 ← lift (match directory with None => Some 0 | Some d => rd d 0 end);
  if d0 =? 0 then fs_list_dir show_hidden
  else
    prepared ← fs_prepare_path directory 256;
    match prepared with
    | None => mret None
    | Some clean =>
        clean ← lift (fs_sanitize_path clean (Some clean) 256);
        flag ← lift (str_strcmp clean (lit "--hidden" ++ [0]));
        c0 ← lift (rd clean 0);
        if (flag =? 0) || (c0 =? 0) then on_fs (exfat_print_directory show_hidden)
        else
          current ← on_fs exfat_get_working_dir;
          saved_cwd ← lift (str_strcpy (zeros 256) current);
          rc ← on_fs (exfat_change_directory (Some clean));
          if negb (rc =? 0) then mret None
          else
            lines ← on_fs (exfat_print_directory show_hidden);
            on_fs (exfat_change_directory (Some saved_cwd));;
            mret lines
    end.

Definition fs_current_dir : V (option bytes) := fs_dirname.

End Vfs.
