(* ===== verification/VfsProofs.v ===== *)
(** * Paths of the virtual file system

    What [fs_split_path] makes of a path, and that the operations on a plain name
    are those of the exFAT driver in the working directory. *)

From S2P Require Import Prelude CString CMonad Disk Exfat ExfatDisk ExfatBitmap ExfatDir ExfatCreate ExfatFormat ExfatData ExfatLimits Vfs.

(** ** Cleaning *)

(** Trimming that keeps the first character. *)
Definition rtrim1 (f : Z -> bool) (s : bytes) : bytes :=
  match s with [] => [] | c :: s' => c :: rtrim f s' end.

(** A path without leading spaces, trailing blanks and trailing slashes. *)
Definition clean (p : bytes) : bytes :=
  rtrim1 (Z.eqb c_slash) (rtrim is_line_blank (drop_while (fun c => c =? c_space) p)).

Lemma skip_spaces_cstr b p : cstr b p -> cstr (skip_spaces b) (drop_while (fun c => c =? c_space) p).
Proof.
  intros H. cstr_ind H; [apply cstr_nil|]. destruct (_ =? c_space); [by apply IH | by apply cstr_cons].
Qed.

Lemma trim_to_spec f a x t :
  exists k, trim_to (length a) f (length a + length x) (a ++ x ++ t) =
      Some ((length a + length (rtrim f x))%nat, a ++ rtrim f x ++ replicate k 0 ++ t) /\
    (length (rtrim f x) + k = length x)%nat.
Proof.
  revert t. induction x as [|c x IH] using rev_ind; intros t.
  { exists 0%nat. split; [|done]. change (length (@nil Z)) with 0%nat. rewrite Nat.add_0_r. change (rtrim f []) with (@nil Z).
    destruct a as [|y a]; [done|]. change (length (y :: a)) with (S (length a)).
    cbn [trim_to]. destruct (Nat.leb_spec (S (length a)) (S (length a))); [|lia]. cbn [length]. by rewrite Nat.add_0_r. }
  rewrite length_app. cbn [length]. replace (length a + (length x + 1))%nat with (S (length a + length x)) by lia.
  cbn [trim_to]. destruct (Nat.leb_spec (S (length a + length x)) (length a)); [lia|].
  rewrite <- !app_assoc. cbn [app].
  assert (a ++ x ++ c :: t = (a ++ x) ++ c :: t) as -> by by rewrite app_assoc.
  assert (Z.of_nat (length a + length x) = zlen (a ++ x)) as -> by zs. rewrite rd_mid. cbn [mbind option_bind].
  unfold rtrim. rewrite reverse_app, reverse_singleton. cbn [app drop_while]. destruct (f c).
  - rewrite wr_mid. cbn [mbind option_bind]. destruct (IH (0 :: t)) as (k & E & Hk). exists (S k).
    rewrite <- app_assoc, E. unfold rtrim in *. split; [|lia]. do 4 f_equal. by rewrite replicate_S_end, <- app_assoc.
  - exists 0%nat. cbn [replicate app]. rewrite reverse_cons, reverse_involutive, length_app. cbn [length].
    split; [|lia]. do 2 f_equal; [lia|]. by rewrite <- !app_assoc.
Qed.

Lemma trim_to_cstr f a x b :
  cstr b (a ++ x) -> exists b', trim_to (length a) f (length a + length x) b = Some ((length a + length (rtrim f x))%nat, b') /\
    cstr b' (a ++ rtrim f x) /\ zlen b' = zlen b.
Proof.
  intros (t & -> & Hz). rewrite <- app_assoc. destruct (trim_to_spec f a x (0 :: t)) as (k & E & Hk).
  eexists. split; [exact E|]. apply nozero_app in Hz as [Ha Hx]. split; [|zs].
  destruct (rtrim_prefix f x) as (u & Hu & _). rewrite Hu in Hx. apply nozero_app in Hx as [Hx _].
  destruct k; (eexists; split; [rewrite <- app_assoc; reflexivity | by apply nozero_app]).
Qed.

(** [fs_sanitize_path] cleans every path that fits its buffer. *)
Lemma sanitize_ok b p out :
  cstr b p -> zlen p < 255 -> match out with Some o => zlen o = 256 | None => True end ->
  exists o, fs_sanitize_path b out 256 = Some o /\ cstr o (clean p) /\ zlen o = 256.
Proof.
  intros Hb Hl Hout. unfold fs_sanitize_path. set (p1 := drop_while (fun c => c =? c_space) p).
  pose proof (skip_spaces_cstr b p Hb) as H1. fold p1 in H1.
  assert (zlen p1 <= zlen p) as Hp1.
  { unfold p1. clear. induction p as [|c p IH]; [done|]. cbn. destruct (c =? c_space); [zs | done]. }
  set (o0 := default (zeros (Z.to_nat 256)) out). assert (zlen o0 = 256) as Hl0 by (unfold o0; destruct out; done).
  change (256 - 1) with 255. rewrite (strncpy_fits o0 _ p1 255 H1) by lia.
  destruct (blit_total o0 (p1 ++ [0]) 0) as [o1 E1]; [lia | zs |]. rewrite E1. cbn [fmap option_fmap option_map mbind option_bind].
  change (negb (0 =? 0) && _) with false. cbn iota.
  assert (exists t, o1 = p1 ++ 0 :: t /\ nozero p1) as (t & Ho1 & Hz1).
  { apply cstr_blit in E1 as (t & ? & ?); [by exists t | by destruct H1 as (_ & _ & ?)]. }
  pose proof (blit_zlen _ _ _ _ E1) as Hlo1.
  destruct (wr_is_Some o1 255 0) as [o2 E2]; [lia|]. rewrite E2. cbn [mbind option_bind].
  assert (cstr o2 p1 /\ zlen o2 = 256) as [Ho2 Hlo2].
  { split; [|apply wr_zlen in E2; lia]. apply wr_Some in E2 as [_ ->]. subst o1.
    destruct (decide (Z.to_nat 255 = length p1)) as [Heq|Hne].
    - rewrite Heq, insert_app_r_alt by lia. rewrite Nat.sub_diag. cbn. by exists t.
    - rewrite insert_app_r_alt by zs. destruct (Z.to_nat 255 - length p1)%nat eqn:Ed; [zs|]. cbn. by eexists. }
  rewrite (strlen_cstr o2 p1 Ho2). cbn [mbind option_bind]. unfold zlen at 1. rewrite Nat2Z.id.
  destruct (trim_to_cstr is_line_blank [] p1 o2 Ho2) as (o3 & E3 & Ho3 & Hl3). cbn [length app Nat.add] in E3. rewrite E3.
  cbn [mbind option_bind app] in *. unfold clean. fold p1. destruct (rtrim is_line_blank p1) as [|c s'] eqn:Es; cbn [length rtrim1].
  - cbn [trim_to mbind option_bind]. exists o3. split; [done|]. split; [done | lia].
  - destruct (trim_to_cstr (Z.eqb c_slash) [c] s' o3 Ho3) as (o4 & E4 & Ho4 & Hl4). cbn [length Nat.add] in E4. rewrite E4.
    cbn [mbind option_bind]. exists o4. split; [done|]. split; [exact Ho4 | lia].
Qed.

(** ** Splitting *)

Definition no_slash (s : bytes) : Prop := Forall (fun c => c <> c_slash) s.

(** The directory and the name a clean path stands for. *)
Inductive splits : bytes -> bytes -> bytes -> Prop :=
  | splits_root : splits [c_slash] [c_slash] [c_dot]
  | splits_name x : no_slash x -> x <> [] -> splits x [] x
  | splits_top x : no_slash x -> x <> [] -> splits (c_slash :: x) [c_slash] x
  | splits_dir d x : d <> [] -> no_slash x -> x <> [] -> splits (d ++ c_slash :: x) d x.

Lemma last_slash_none s t : no_slash s -> last_slash (s ++ t) (length s) = Some (-1).
Proof.
  revert t. induction s as [|c s IH] using rev_ind; intros t Hs; [done|].
  apply Forall_app in Hs as [Hs [Hc _]%Forall_cons]. rewrite length_app. cbn [length].
  replace (length s + 1)%nat with (S (length s)) by lia. cbn [last_slash]. rewrite <- app_assoc. cbn [app].
  change (Z.of_nat (length s)) with (zlen s). rewrite rd_mid. cbn [mbind option_bind]. rewrite (eqb_neq c c_slash Hc). by apply IH.
Qed.

Lemma last_slash_some d x t : no_slash x -> last_slash (d ++ c_slash :: x ++ t) (length d + S (length x)) = Some (zlen d).
Proof.
  revert t. induction x as [|c x IH] using rev_ind; intros t Hx.
  { cbn [length]. rewrite Nat.add_1_r. cbn [last_slash]. change (Z.of_nat (length d)) with (zlen d). by rewrite rd_mid. }
  apply Forall_app in Hx as [Hx [Hc _]%Forall_cons]. rewrite length_app. cbn [length].
  replace (length d + S (length x + 1))%nat with (S (length d + S (length x))) by lia. cbn [last_slash].
  rewrite <- app_assoc. cbn [app].
  assert (rd (d ++ c_slash :: x ++ c :: t) (Z.of_nat (length d + S (length x))) = Some c) as ->.
  { replace (Z.of_nat (length d + S (length x))) with (zlen (d ++ c_slash :: x)) by zs.
    replace (d ++ c_slash :: x ++ c :: t) with ((d ++ c_slash :: x) ++ c :: t) by (by rewrite <- app_assoc). apply rd_mid. }
  cbn [mbind option_bind]. rewrite (eqb_neq c c_slash Hc). by apply IH.
Qed.

(** Every string has no slash, or a last one. *)
Lemma last_slash_cases s : no_slash s \/ exists d x, s = d ++ c_slash :: x /\ no_slash x.
Proof.
  induction s as [|c s IH] using rev_ind; [left; constructor|]. destruct (decide (c = c_slash)) as [->|Hc].
  - right. exists s, []. split; [done | constructor].
  - destruct IH as [Hs|(d & x & -> & Hx)].
    + left. apply Forall_app. split; [done | by constructor].
    + right. exists d, (x ++ [c]). rewrite <- app_assoc. split; [done|]. apply Forall_app. split; [done | by constructor].
Qed.

(** A clean path other than the root does not end in a slash. *)
Lemma clean_end p d x : clean p = d ++ c_slash :: x -> x = [] -> clean p = [c_slash].
Proof.
  intros E ->. unfold clean, rtrim1 in *. destruct (rtrim is_line_blank _) as [|c s]; [by destruct d|].
  destruct d as [|y d]; [by injection E as -> ->|]. injection E as -> E. exfalso.
  assert (last (rtrim (Z.eqb c_slash) s) = Some c_slash) as Hl by (rewrite E; apply last_snoc).
  apply rtrim_last in Hl. by rewrite Z.eqb_refl in Hl.
Qed.

Lemma store_name o c x :
  cstr o c -> zlen c < 255 -> exists f f', strncpy_body (zeros (Z.to_nat 256)) o (256 - 1) = Some (0, f) /\
    wr f (256 - 1) 0 = Some f' /\ (c = x -> f' = x ++ zeros (256 - length x)).
Proof.
  intros Ho Hl. change (Z.to_nat 256) with 256%nat. rewrite (strncpy_fits _ o c 255 Ho) by lia. pose proof (zlen_nonneg c).
  destruct (blit_total (zeros 256) (c ++ [0]) 0) as [f E]; [lia | change (zlen (zeros 256)) with 256; zs |]. rewrite E.
  pose proof (blit_zlen _ _ _ _ E) as Hlf. change (zlen (zeros 256)) with 256 in Hlf. change (256 - 1) with 255.
  destruct (wr_is_Some f 255 0) as [f' E']; [lia|]. exists f, f'. split; [done|]. split; [done|]. intros <-.
  apply list_eq_rd; [apply wr_zlen in E'; unfold zeros; zs|]. intros i Hi. apply wr_zlen in E' as Hlf'.
  assert (forall j, 0 <= j -> zlen c <= j < 256 -> rd (c ++ zeros (256 - length c)) j = Some 0) as Hz.
  { intros j Hj Hjc. rewrite rd_app_r, rd_lookup by lia. unfold zeros. apply lookup_replicate. split; [done | zs]. }
  destruct (Z.eq_dec 255 i) as [<-|Hne]; [rewrite (rd_wr_eq _ _ _ _ E'), Hz; (done || lia)|].
  rewrite (rd_wr_ne _ _ _ _ _ E' Hne), (rd_blit _ _ _ _ _ E). rewrite zlen_app. change (zlen [0]) with 1. rewrite Z.sub_0_r, Z.add_0_l.
  destruct (Z.leb_spec 0 i), (Z.ltb_spec i (zlen c + 1)); cbn [andb]; try lia.
  - destruct (decide (i < zlen c)); [by rewrite !rd_app_l|]. replace i with (zlen c) by lia. rewrite rd_mid, Hz; (done || lia).
  - rewrite Hz by lia. rewrite rd_lookup by lia. unfold zeros. apply lookup_replicate. split; [done | lia].
Qed.

Lemma cstr_pad x n : nozero x -> (length x < n)%nat -> cstr (x ++ zeros (n - length x)) x.
Proof. intros Hx Hn. exists (zeros (n - length x - 1)). split; [|done]. f_equal. destruct (n - length x)%nat eqn:E; [lia|]. cbn. by rewrite Nat.sub_0_r. Qed.

Lemma cstr_head0 b c s : cstr b (c :: s) -> rd b 0 = Some c /\ c <> 0.
Proof. intros (t & -> & Hz). apply Forall_cons in Hz as [Hc _]. done. Qed.

Lemma is_root_ok o c : cstr o c -> is_root o = Some (bool_decide (c = [c_slash])).
Proof.
  intros Ho. unfold is_root. destruct (strcmp_cstr o c (lit "/" ++ [0]) [c_slash] Ho) as (r & -> & Hr).
  { exists []. split; [done | repeat constructor; done]. }
  cbn [mbind option_bind]. f_equal. apply eq_true_iff_eq. rewrite Z.eqb_eq, bool_decide_eq_true. exact Hr.
Qed.

Lemma clean_short p : zlen (clean p) <= zlen p.
Proof.
  assert (forall f s, zlen (rtrim f s) <= zlen s) as Hr.
  { intros f s. destruct (rtrim_prefix f s) as (u & Hu & _). apply (f_equal zlen) in Hu. rewrite zlen_app in Hu.
    pose proof (zlen_nonneg u). lia. }
  assert (forall s, zlen (drop_while (fun c => c =? c_space) s) <= zlen s) as Hd.
  { induction s as [|c s IH]; [done|]. cbn. destruct (c =? c_space); [zs | done]. }
  unfold clean, rtrim1. pose proof (Hr is_line_blank (drop_while (fun c => c =? c_space) p)) as H1. specialize (Hd p).
  destruct (rtrim is_line_blank _) as [|c s]; [unfold zlen; cbn; lia|]. specialize (Hr (Z.eqb c_slash) s). rewrite zlen_cons in *. lia.
Qed.

(** The name is stored behind zeros. *)
Lemma split_ok b p :
  cstr b p -> p <> [] -> zlen p < 255 ->
  (clean p = [] /\ fs_split_path b 256 256 = Some None) \/
  exists d x parent, fs_split_path b 256 256 = Some (Some (parent, x ++ zeros (256 - length x))) /\
    splits (clean p) d x /\ cstr parent d /\ cstr (x ++ zeros (256 - length x)) x.
Proof.
  intros Hb Hne Hl. unfold fs_split_path. destruct p as [|p0 p']; [done|]. destruct (cstr_head0 b p0 p' Hb) as [-> Hp0].
  cbn [mbind option_bind]. rewrite (eqb_neq p0 0 Hp0). set (p := p0 :: p') in *.
  destruct (sanitize_ok b p None Hb Hl I) as (o & -> & Ho & Hlo). cbn [mbind option_bind].
  pose proof (clean_short p) as Hshort. destruct (clean p) as [|c0 c'] eqn:Ec.
  { left. split; [done|]. destruct Ho as (t & -> & _). done. }
  right. destruct (cstr_head0 o c0 c' Ho) as [-> Hc0]. cbn [mbind option_bind]. rewrite (eqb_neq c0 0 Hc0).
  rewrite (is_root_ok o _ Ho). cbn [mbind option_bind]. destruct (decide (c0 :: c' = [c_slash])) as [Hroot|Hroot].
  { rewrite bool_decide_eq_true_2 by done. exists [c_slash], [c_dot], (root_str ++ zeros 254). rewrite Hroot.
    split; [vm_compute; reflexivity|]. split; [constructor|]. split; [|by apply cstr_pad; [repeat constructor; done | cbn; lia]].
    exists (zeros 254). split; [done | repeat constructor; done]. }
  rewrite bool_decide_eq_false_2 by done. rewrite (strlen_cstr o _ Ho). cbn [mbind option_bind]. set (c := c0 :: c') in *.
  assert (nozero c) as Hz by (destruct Ho as (_ & _ & ?); done). unfold zlen at 1. rewrite Nat2Z.id.
  pose proof Ho as (t & Eo & _). destruct (last_slash_cases c) as [Hs|(d & x & Hdx & Hx)].
  - rewrite Eo, (last_slash_none c (0 :: t) Hs), <- Eo. cbn [mbind option_bind Z.eqb Z.opp].
    destruct (store_name o c c (ex_intro _ t (conj Eo Hz))) as (f & f' & Ef & Ef' & Hf); [lia|].
    change (wr (zeros (Z.to_nat 256)) 0 0) with (Some (zeros 256)). cbn [mbind option_bind]. rewrite Ef. cbn [mbind option_bind].
    rewrite Ef'. cbn [mbind option_bind]. rewrite (Hf eq_refl). exists [], c, (zeros 256). split; [done|].
    split; [by constructor|]. split; [exists (zeros 255); split; [done | constructor] | apply cstr_pad; [done | zs]].
  - assert (x <> []) as Hxne by (intros ->; apply Hroot; rewrite <- Ec; apply (clean_end p d []); [by rewrite Ec | done]).
    assert (last_slash o (length c) = Some (zlen d)) as ->.
    { rewrite Eo, Hdx, <- app_assoc, length_app. cbn [app length]. by apply last_slash_some. }
    cbn [mbind option_bind]. rewrite (eqb_neq (zlen d) (-1)) by (pose proof (zlen_nonneg d); lia).
    assert (cstr (drop (Z.to_nat (zlen d + 1)) o) x) as Hdrop.
    { exists t. split; [|rewrite Hdx in Hz; apply nozero_app in Hz as [_ Hz]; by apply Forall_cons in Hz as [_ ?]].
      rewrite Eo, Hdx, <- app_assoc. replace (Z.to_nat (zlen d + 1)) with (length d + 1)%nat by zs. rewrite drop_app_add. done. }
    assert (zlen c = zlen d + 1 + zlen x) as Hlc by (rewrite Hdx; zs).
    destruct (store_name _ x x Hdrop) as (f & f' & Ef & Ef' & Hf); [pose proof (zlen_nonneg d); lia|].
    rewrite Ef. cbn [mbind option_bind]. rewrite Ef'. cbn [mbind option_bind]. rewrite (Hf eq_refl).
    assert (cstr (x ++ zeros (256 - length x)) x) as Hleaf by (apply cstr_pad; [by destruct Hdrop as (_ & _ & ?) | zs]).
    destruct d as [|d0 d'] eqn:Ed.
    + exists [c_slash], x, (root_str ++ zeros 254). split; [reflexivity|]. cbn [app] in Hdx. rewrite Hdx.
      split; [by constructor|]. split; [|done]. exists (zeros 254). split; [done | repeat constructor; done].
    + rewrite <- Ed in *. assert (0 < zlen d) by (rewrite Ed; zs). rewrite (eqb_neq (zlen d) 0) by lia.
      destruct (Z.leb_spec 256 (zlen d)); [pose proof (zlen_nonneg x); lia|].
      rewrite ncopy_blit; [|split; [lia | apply zlen_nonneg] | pose proof (f_equal length Eo) as Hlen; rewrite length_app in Hlen; zs].
      replace (Z.to_nat (zlen d)) with (length d) by zs. rewrite Eo, Hdx, <- app_assoc, take_app_length.
      destruct (blit_total (zeros (Z.to_nat 256)) d 0) as [g Eg]; [lia | change (zlen (zeros (Z.to_nat 256))) with 256; lia |].
      rewrite Eg. cbn [mbind option_bind]. pose proof (blit_zlen _ _ _ _ Eg) as Hlg. change (zlen (zeros (Z.to_nat 256))) with 256 in Hlg.
      destruct (wr_is_Some g (zlen d) 0) as [g' Eg']; [lia|]. rewrite Eg'. cbn [mbind option_bind].
      exists d, x, g'. split; [done|]. split; [constructor; [by rewrite Ed | done | done]|]. split; [|done].
      apply (cstr_blit (zeros (Z.to_nat 256)) g' d); [rewrite Hdx in Hz; by apply nozero_app in Hz as [? _]|].
      rewrite blit_app, Eg by (change (zlen (zeros (Z.to_nat 256))) with 256; lia). cbn [mbind option_bind]. by rewrite <- wr_blit.
Qed.

(** [fs_split_path] splits every path of fewer than 255 characters at its last
    slash.  Leading spaces, trailing blanks and trailing slashes are removed
    first; the root stands for [.] in itself, a name without slash for that name
    in the working directory; otherwise the directory is what precedes the last
    slash (the root when that is empty) and the name, which is not empty and has
    no slash, what follows it.  Only a path without any other character is
    refused. *)
Theorem split_path_exact b p :
  cstr b p -> p <> [] -> zlen p < 255 ->
  exists r, fs_split_path b 256 256 = Some r /\
    match r with
    | None => clean p = []
    | Some (parent, leaf) => exists d x, cstr parent d /\ cstr leaf x /\ splits (clean p) d x
    end.
Proof.
  intros Hb Hne Hl. destruct (split_ok b p Hb Hne Hl) as [[Hc E]|(d & x & parent & E & Hs & Hp & Hx)];
    (eexists; split; [exact E|]); [done|]. by exists d, x.
Qed.

(** ** Plain names *)

(** A name in the working directory. *)
Record plain_name (nm : bytes) : Prop := {
  pn_clean : clean nm = nm;
  pn_slash : no_slash nm;
  pn_short : 0 < zlen nm < 255;
  pn_drive : nm !! 1%nat <> Some c_colon;
}.

Section Plain.
Context {D : Type} `{BlockDevice D}.
Implicit Types s : vfs D.

Definition drive_mounted s : Prop := exists m, rd (g_drive_mounted s) (g_current_drive s) = Some m /\ m <> 0.

(** The leaf buffer for a name. *)
Definition leaf_of (nm : bytes) : bytes := nm ++ zeros (256 - length nm).

Lemma prepare_plain s b nm :
  cstr b nm -> plain_name nm -> drive_mounted s ->
  exists out, fs_prepare_path (Some b) 256 s = Some (Val (Some out), s) /\ cstr out nm.
Proof.
  intros Hb [_ _ Hl Hd] (m & Hm & Hm0). unfold fs_prepare_path. change (256 =? 0) with false. cbn iota.
  destruct nm as [|c0 nm']; [unfold zlen in Hl; cbn in Hl; lia|]. destruct (cstr_head0 b c0 nm' Hb) as [E0 Hc0]. mlift E0.
  assert (forall k : bool -> M (vfs D) (option bytes), ((if (97 <=? c0) && (c0 <=? 122) then p1 ← lift (rd b 1); mret (p1 =? c_colon) else mret false) ≫= k) s = k false s) as Hletter.
  { intros k. destruct (_ && _); [|done]. assert (exists c1, rd b 1 = Some c1 /\ c1 <> c_colon) as (c1 & E1 & Hc1).
    { destruct Hb as (t & -> & _). destruct nm' as [|c1 nm']; [by exists 0|]. exists c1. split; [done|]. intros ->. by apply Hd. }
    rewrite bind_assoc. mlift E1. rewrite bind_ret. by rewrite (eqb_neq c1 c_colon Hc1). }
  rewrite Hletter. rewrite bind_ret, bind_gets. unfold mounted. rewrite bind_assoc, bind_gets, bind_assoc. mlift Hm.
  rewrite bind_ret, (eqb_neq m 0 Hm0). cbn [negb]. rewrite (strncpy_fits _ b (c0 :: nm') 256 Hb) by lia.
  destruct (blit_total (zeros (Z.to_nat 256)) ((c0 :: nm') ++ [0]) 0) as [out Eo];
    [lia | change (zlen (zeros (Z.to_nat 256))) with 256; zs |].
  rewrite Eo. cbn [fmap option_fmap option_map]. exists out. split; [done|].
  apply (cstr_blit (zeros (Z.to_nat 256))); [by destruct Hb as (_ & _ & ?) | done].
Qed.

Lemma enter_plain s b nm :
  cstr b nm -> plain_name nm -> drive_mounted s ->
  fs_enter_path (Some b) 256 s = Some (Val (Some (leaf_of nm, None)), s).
Proof.
  intros Hb Hnm Hm. destruct (prepare_plain s b nm Hb Hnm Hm) as (out & Ep & Hout). destruct Hnm as [Hclean Hs Hl Hd].
  unfold fs_enter_path. destruct nm as [|c0 nm'] eqn:En; [unfold zlen in Hl; cbn in Hl; lia|]. rewrite <- En in *.
  assert (exists c, rd b 0 = Some c /\ c <> 0) as (c & E0 & Hc) by (rewrite En in Hb; destruct (cstr_head0 b c0 nm' Hb); by exists c0).
  mlift E0. rewrite (eqb_neq c 0 Hc). mrun Ep.
  destruct (split_ok out nm Hout) as [[? _]|(d & x & parent & E & Hsp & Hp & _)]; [congruence | lia | congruence |].
  assert (d = [] /\ x = nm) as [-> ->].
  { rewrite Hclean in Hsp. inversion Hsp as [Hr|? _ _|? _ _ Hr|? ? _ _ _ Hr]; subst; try done; exfalso; unfold no_slash in Hs.
    - rewrite <- Hr in Hs. by apply Forall_cons in Hs as [? _].
    - rewrite <- Hr in Hs. by apply Forall_cons in Hs as [? _].
    - rewrite <- Hr in Hs. apply Forall_app in Hs as [_ Hs]. by apply Forall_cons in Hs as [? _]. }
  mlift E. assert (rd parent 0 = Some 0) as Ep0 by (destruct Hp as (t & -> & _); done). mlift Ep0. done.
Qed.

(** An operation on a plain name is the operation of the driver. *)
Lemma at_path_plain {A} s b nm (bad : A) op a e :
  cstr b nm -> plain_name nm -> drive_mounted s -> op (leaf_of nm) (g_fs s) = Some (Val a, e) ->
  at_path (Some b) bad op s = Some (Val a, with_fs e s).
Proof.
  intros Hb Hnm Hm E. unfold at_path. mrun (enter_plain s b nm Hb Hnm Hm).
  assert (on_fs (op (leaf_of nm)) s = Some (Val a, with_fs e s)) as Eo by (unfold on_fs, zoom; by rewrite E).
  mrun Eo. done.
Qed.

End Plain.

(** C19: A file of the virtual file system keeps what was written to it. Given: the
    current drive is mounted and its volume satisfies the invariant [fs_ok]; a plain
    name (1 to 254 characters, no slash, no space in front and no blank at the end, and
    its second character not a colon) that resolves in the current directory to a file
    whose entry set lies within one sector ([in_one_sector], see [write_then_read]) and
    whose clusters are allocated clusters of the volume apart from the current directory
    ([run_ok]); and fewer than 2^43 bytes of data. Then [fs_write_bytes] either returns
    -1 with no effect, or returns 0 and: [fs_read_raw_at] returns, at any offset and for
    any count up to 2^31 - 1, exactly the corresponding part of the data; the volume
    keeps its invariant; the drives and working directories are unchanged. *)
Theorem vfs_write_then_read {D} `{LawfulDisk D} (s : vfs D) b nm tg data :
  cstr b nm -> plain_name nm -> drive_mounted s -> fs_ok (g_fs s) ->
  exfat_resolve_entry (leaf_of nm) (g_fs s) = Some (Val (Some tg), g_fs s) ->
  in_one_sector (g_fs s) tg -> run_ok (g_fs s) (t_cluster tg) (clusters_of (t_size tg)) ->
  is_bytes data -> zlen data < 2 ^ 43 ->
  fs_write_bytes (Some b) data (zlen data) s = Some (Val (-1), s) \/
  exists e, fs_write_bytes (Some b) data (zlen data) s = Some (Val 0, with_fs e s) /\ fs_ok e /\
    forall off n, 0 <= off -> 0 < n <= INT_MAX ->
      let d := take (Z.to_nat n) (drop (Z.to_nat off) data) in
      fs_read_raw_at (Some b) true off n (with_fs e s) = Some (Val (zlen d, d), with_fs e s).
Proof.
  intros Hb Hnm Hm Hfs Hres Hone Hrun Hd Hl. pose proof (pn_short nm Hnm) as Hshort.
  assert (nozero nm) as Hz by (destruct Hb as (_ & _ & ?); done).
  assert (exists t, leaf_of nm = nm ++ 0 :: t) as (t & Hleaf).
  { destruct (cstr_pad nm 256 Hz) as (t & ? & _); [zs|]. by exists t. }
  pose proof Hres as Hres'. rewrite Hleaf in Hres'.
  destruct (write_read_ok (g_fs s) nm t tg data Hfs Hz Hres' Hone Hrun Hd Hl) as [E|(e & E & He & Hread & _)]; rewrite <- Hleaf in E.
  - left. unfold fs_write_bytes. rewrite (at_path_plain s b nm _ _ (-1) (g_fs s) Hb Hnm Hm E). by destruct s.
  - right. exists e. split; [|split; [done|]].
    + exact (at_path_plain s b nm (-1) _ 0 e Hb Hnm Hm E).
    + intros off n Ho Hn d. unfold fs_read_raw_at. cbn [negb]. apply (at_path_plain (with_fs e s) b nm (-1, []) _ (zlen d, d) e Hb Hnm Hm).
      specialize (Hread off n Ho ltac:(lia)). cbv zeta in Hread. fold d in Hread. rewrite <- Hleaf in Hread. cbn [g_fs with_fs]. mrun Hread.
      rewrite s32_small; [done|]. pose proof (zlen_nonneg d). unfold d, INT_MIN, INT_MAX in *. zs.
Qed.

(** ** The virtual file system on a concrete drive

    Witnesses on the volume of [ExfatLimits], and behaviours of vfs.c a caller
    would not expect. *)

(** The volume with the file [a.txt], mounted as the first drive. *)
Definition demo_vfs : vfs MemDisk.t :=
  VFS demo_file 0 [1; 0] [root_str ++ zeros 254; root_str ++ zeros 254] (zeros 260).

Lemma split_path_exact_witness :
  exists parent leaf d x, fs_split_path (lit " /users/bob/a.txt/" ++ [0]) 256 256 = Some (Some (parent, leaf)) /\
    cstr parent d /\ cstr leaf x /\ splits (lit "/users/bob/a.txt") d x.
Proof.
  destruct (split_path_exact (lit " /users/bob/a.txt/" ++ [0]) (lit " /users/bob/a.txt/")) as (r & E & Hr).
  - exists []. split; [done | repeat constructor; done].
  - done.
  - vm_compute. reflexivity.
  - destruct r as [[parent leaf]|]; [|vm_compute in Hr; discriminate]. destruct Hr as (d & x & Hd & Hx & Hs).
    exists parent, leaf, d, x. split; [exact E|]. split; [exact Hd|]. split; [exact Hx|]. vm_compute in Hs |- *. exact Hs.
Defined.

Lemma vfs_write_then_read_witness :
  exists e, fs_write_bytes (Some (c_string "a.txt")) (lit "hello") 5 demo_vfs = Some (Val 0, with_fs e demo_vfs) /\
    fs_read_raw_at (Some (c_string "a.txt")) true 1 3 (with_fs e demo_vfs) = Some (Val (3, lit "ell"), with_fs e demo_vfs).
Proof.
  destruct (vfs_write_then_read demo_vfs (c_string "a.txt") (lit "a.txt") demo_target (lit "hello"))
    as [Hf|(e & Hw & _ & Hr)].
  - exists []. split; [done | repeat constructor; done].
  - split; [reflexivity | repeat constructor; done | unfold zlen; cbn; lia | discriminate].
  - exists 1. split; [reflexivity | discriminate].
  - exact demo_file_ok.
  - vm_compute. reflexivity.
  - exact demo_one_sector.
  - exact demo_run_ok.
  - apply (bool_decide_unpack _). vm_compute. exact I.
  - reflexivity.
  - exfalso. apply (f_equal (option_map fst)) in Hf. vm_compute in Hf. discriminate.
  - exists e. split; [exact Hw|]. apply (Hr 1 3); [discriminate | unfold INT_MAX; lia].
Defined.

(** A path of 255 characters makes [fs_split_path] read its uninitialised buffer. *)
Lemma long_path_uninitialised : fs_split_path (replicate 255 97 ++ [0]) 256 256 = None.
Proof. vm_compute. reflexivity. Qed.

Definition run {A} (m : M (vfs MemDisk.t) A) (s : vfs MemDisk.t) : option A :=
  match m s with Some (Val a, _) => Some a | _ => None end.

(** Copying a file onto itself reports success and leaves it empty. *)
Lemma copy_onto_itself :
  run (fs_write_bytes (Some (c_string "a.txt")) (lit "hello") 5;;
       rc ← fs_copy (Some (c_string "a.txt")) (Some (c_string "a.txt"));
       info ← fs_get_info (Some (c_string "a.txt"));
       mret (rc, info)) demo_vfs = Some (0, Some (0, false)).
Proof. vm_compute. reflexivity. Qed.

(** A copy from a file that does not exist deletes the destination. *)
Lemma copy_from_nothing :
  run (rc ← fs_copy (Some (c_string "none")) (Some (c_string "a.txt"));
       e ← fs_exists (Some (c_string "a.txt"));
       mret (rc, e)) demo_vfs = Some (-1, 0).
Proof. vm_compute. reflexivity. Qed.
