(* ===== verification/Ports.v ===== *)
(** * Port input and output

    [ports_inb] and its companions are single machine instructions whose effect
    is that of the device behind the port: the drivers take them as an
    interface, and state what they rely on next to it. *)

From S2P Require Import Prelude.

Class Ports (P : Type) := {
  ports_inb : P -> Z -> Z * P;
  ports_inw : P -> Z -> Z * P;
  ports_outb : P -> Z -> Z -> P;
  ports_outw : P -> Z -> Z -> P;
}.
