(* ===== verification/Ata.v ===== *)
(** * The ATA PIO driver (helper/drivers/filesystem/ata.c)

    The driver talks to the controller through port instructions only
    (Ports.v).  What the driver relies on is the documented behaviour of an
    ATA controller, the automaton [ctl]: LBA48 registers that remember their
    previous value, a data phase of 256 words per sector, and a status register
    that reports busy for a number of polls after a command.  [Controller] says
    that a set of ports behaves like the automaton.

    Under that hypothesis the driver implements the disk that the file system
    is verified against ([Disk.MemDisk]): see [ata_refines_disk]. *)

From S2P Require Import Prelude Disk Ports.

Definition ATA_DATA : Z := 0x1F0.
Definition ATA_SECTOR_COUNT : Z := 0x1F2.
Definition ATA_LBA_LOW : Z := 0x1F3.
Definition ATA_LBA_MID : Z := 0x1F4.
Definition ATA_LBA_HIGH : Z := 0x1F5.
Definition ATA_DRIVE_HEAD : Z := 0x1F6.
Definition ATA_STATUS : Z := 0x1F7.
Definition ATA_COMMAND : Z := 0x1F7.
Definition ATA_STATUS_ERR : Z := 0x01.
Definition ATA_STATUS_DF : Z := 0x20.
Definition ATA_STATUS_DRQ : Z := 0x08.
Definition ATA_STATUS_BSY : Z := 0x80.
Definition ATA_TIMEOUT : positive := 1000000.
Definition DRIVES : Z := 2.

Record ata (P : Type) := ATA {
  g_current_drive : Z;
  g_drive_present : list Z;
  g_drive_sector_counts : list Z;
  g_ports : P;
}.
Arguments ATA {P}.
Arguments g_current_drive {P}.
Arguments g_drive_present {P}.
Arguments g_drive_sector_counts {P}.
Arguments g_ports {P}.

Section Driver.
Context {P : Type} `{Ports P}.
Implicit Types (p : P) (a : ata P).

Definition with_ports p a : ata P :=
  ATA (g_current_drive a) (g_drive_present a) (g_drive_sector_counts a) p.

Definition ata_delay_400ns p : P :=
  let p := snd (ports_inb p ATA_STATUS) in
  let p := snd (ports_inb p ATA_STATUS) in
  let p := snd (ports_inb p ATA_STATUS) in
  snd (ports_inb p ATA_STATUS).

(** One poll of the status register: [Some] is the result of [ata_wait]. *)
Definition wait_round (require_data : bool) p : option Z * P :=
  let '(status, p) := ports_inb p ATA_STATUS in
  if (status =? 0) || (status =? 0xFF) then (Some (-1), p)
  else if negb (Z.land status (Z.lor ATA_STATUS_ERR ATA_STATUS_DF) =? 0) then (Some (-1), p)
  else if (Z.land status ATA_STATUS_BSY =? 0) &&
          (negb require_data || negb (Z.land status ATA_STATUS_DRQ =? 0))
  then (Some 0, p)
  else (None, p).

(** At most [n] polls; the recursion is on the binary digits of [n]. *)
Fixpoint poll (n : positive) (require_data : bool) p : option Z * P :=
  let twice m p :=
    match poll m require_data p with
    | (None, p) => poll m require_data p
    | r => r
    end in
  match n with
  | xH => wait_round require_data p
  | xO m => twice m p
  | xI m =>
      match wait_round require_data p with
      | (None, p) => twice m p
      | r => r
      end
  end.

Definition ata_wait (require_data : bool) p : Z * P :=
  match poll ATA_TIMEOUT require_data p with
  | (Some rc, p) => (rc, p)
  | (None, p) => (-1, p)
  end.

Definition ata_select_drive a (drive : Z) : Z * ata P :=
  if DRIVES <=? drive then (-1, a)
  else
    let p := ports_outb (g_ports a) ATA_DRIVE_HEAD (u8 (Z.lor 0x40 (Z.shiftl drive 4))) in
    (0, ATA drive (g_drive_present a) (g_drive_sector_counts a) (ata_delay_400ns p)).

Definition ata_current_drive a : Z := g_current_drive a.

Definition ata_drive_present a (drive : Z) : bool :=
  (drive <? DRIVES) && negb (default 0 (rd (g_drive_present a) drive) =? 0).

Definition ata_drive_sector_count a (drive : Z) : Z :=
  if drive <? DRIVES then default 0 (rd (g_drive_sector_counts a) drive) else 0.

(** What the IDENTIFY loop has collected so far. *)
Record identify := Identify {
  lba48_sector_count : Z;
  lba28_sector_count : Z;
  supports_lba48 : bool;
}.

Definition identify_word (word w : Z) (i : identify) : identify :=
  if (100 <=? word) && (word <=? 103) then
    Identify (Z.lor (lba48_sector_count i) (u64 (Z.shiftl w (16 * (word - 100)))))
             (lba28_sector_count i) (supports_lba48 i)
  else if word =? 60 then Identify (lba48_sector_count i) w (supports_lba48 i)
  else if word =? 61 then
    Identify (lba48_sector_count i)
             (Z.lor (lba28_sector_count i) (u32 (Z.shiftl w 16))) (supports_lba48 i)
  else if word =? 83 then
    Identify (lba48_sector_count i) (lba28_sector_count i)
             ((Z.land w 0xC000 =? 0x4000) && negb (Z.land w (Z.shiftl 1 10) =? 0))
  else i.

Fixpoint identify_loop (k : nat) (word : Z) p (i : identify) : identify * P :=
  match k with
  | O => (i, p)
  | S k' =>
      let '(w, p) := ports_inw p ATA_DATA in
      identify_loop k' (word + 1) p (identify_word word w i)
  end.

(** [Some]: the drive answered IDENTIFY with these data. *)
Definition probe_drive (drive : Z) p : option identify * P :=
  let p := ports_outb p ATA_DRIVE_HEAD (u8 (Z.lor 0xA0 (Z.shiftl drive 4))) in
  let p := ata_delay_400ns p in
  let p := ports_outb p ATA_SECTOR_COUNT 0 in
  let p := ports_outb p ATA_LBA_LOW 0 in
  let p := ports_outb p ATA_LBA_MID 0 in
  let p := ports_outb p ATA_LBA_HIGH 0 in
  let p := ports_outb p ATA_COMMAND 0xEC in
  let '(status, p) := ports_inb p ATA_STATUS in
  if (status =? 0) || (status =? 0xFF) then (None, p)
  else
    let '(rc, p) := ata_wait false p in
    if negb (rc =? 0) then (None, p)
    else
      let '(mid, p) := ports_inb p ATA_LBA_MID in
      if negb (mid =? 0) then (None, p)
      else
        let '(high, p) := ports_inb p ATA_LBA_HIGH in
        if negb (high =? 0) then (None, p)
        else
          let '(rc, p) := ata_wait true p in
          if negb (rc =? 0) then (None, p)
          else
            let '(i, p) := identify_loop 256 0 p (Identify 0 0 false) in
            (Some i, p).

Definition probe_step a (drive : Z) : ata P :=
  let '(r, p) := probe_drive drive (g_ports a) in
  match r with
  | None => with_ports p a
  | Some i =>
      let n := if supports_lba48 i && negb (lba48_sector_count i =? 0)
               then lba48_sector_count i else lba28_sector_count i in
      ATA (g_current_drive a) (<[Z.to_nat drive := 1]> (g_drive_present a))
          (<[Z.to_nat drive := n]> (g_drive_sector_counts a)) p
  end.

Definition ata_probe_devices a : ata P :=
  let a := ATA (g_current_drive a) [0; 0] [0; 0] (g_ports a) in
  let a := probe_step (probe_step a 0) 1 in
  let p := ports_outb (g_ports a) ATA_DRIVE_HEAD 0x40 in
  ATA 0 (g_drive_present a) (g_drive_sector_counts a) (ata_delay_400ns p).

(** The address registers of an LBA48 command, and the command. *)
Definition issue (lba command : Z) p : P :=
  let p := ports_outb p ATA_SECTOR_COUNT 0 in
  let p := ports_outb p ATA_LBA_LOW (u8 (Z.shiftr lba 24)) in
  let p := ports_outb p ATA_LBA_MID (u8 (Z.shiftr lba 32)) in
  let p := ports_outb p ATA_LBA_HIGH (u8 (Z.shiftr lba 40)) in
  let p := ports_outb p ATA_SECTOR_COUNT 1 in
  let p := ports_outb p ATA_LBA_LOW (u8 lba) in
  let p := ports_outb p ATA_LBA_MID (u8 (Z.shiftr lba 8)) in
  let p := ports_outb p ATA_LBA_HIGH (u8 (Z.shiftr lba 16)) in
  ports_outb p ATA_COMMAND command.

(** [k] words into a buffer, least significant byte first. *)
Fixpoint read_words (k : nat) p : bytes * P :=
  match k with
  | O => ([], p)
  | S k' =>
      let '(w, p) := ports_inw p ATA_DATA in
      let '(b, p) := read_words k' p in
      (le_bytes 2 w ++ b, p)
  end.

Fixpoint write_words (k : nat) (b : bytes) p : P :=
  match k with
  | O => p
  | S k' => write_words k' (drop 2 b) (ports_outw p ATA_DATA (le_val (take 2 b)))
  end.

(** The 512 bytes on success, [None] for the result -1; the caller's buffer is
    not NULL. *)
Definition ata_read_sector a (drive lba : Z) : option bytes * ata P :=
  if negb (ata_drive_present a drive) || (2 ^ 48 <=? lba) then (None, a)
  else
    let '(rc, a) := ata_select_drive a drive in
    if negb (rc =? 0) then (None, a)
    else
      let p := issue lba 0x24 (g_ports a) in
      let '(rc, p) := ata_wait true p in
      if negb (rc =? 0) then (None, with_ports p a)
      else
        let '(b, p) := read_words 256 p in
        (Some b, with_ports p a).

(** [buffer] holds at least 512 bytes. *)
Definition ata_write_sector a (drive lba : Z) (buffer : bytes) : Z * ata P :=
  if negb (ata_drive_present a drive) || (2 ^ 48 <=? lba) then (-1, a)
  else
    let '(rc, a) := ata_select_drive a drive in
    if negb (rc =? 0) then (-1, a)
    else
      let p := issue lba 0x34 (g_ports a) in
      let '(rc, p) := ata_wait true p in
      if negb (rc =? 0) then (-1, with_ports p a)
      else
        let p := write_words 256 buffer p in
        let '(rc, p) := ata_wait false p in
        if negb (rc =? 0) then (-1, with_ports p a)
        else
          let p := ports_outb p ATA_COMMAND 0xEA in
          let '(rc, p) := ata_wait false p in
          (rc, with_ports p a).

#[global] Instance ata_device : BlockDevice (ata P) := {
  Disk.ata_current_drive := ata_current_drive;
  Disk.ata_drive_sector_count := ata_drive_sector_count;
  Disk.ata_drive_present := ata_drive_present;
  Disk.ata_select_drive := ata_select_drive;
  Disk.ata_probe_devices := ata_probe_devices;
  Disk.ata_read_sector := ata_read_sector;
  Disk.ata_write_sector := ata_write_sector;
}.

End Driver.

(** ** What an ATA controller does *)

Inductive phase :=
  | Idle
  | Failed                                 (* the last command reported an error *)
  | DataIn (left : bytes)                  (* bytes the host has still to read *)
  | DataOut (lba : Z) (got : bytes).       (* bytes the host has written so far *)

(** Each address register has a current and a previous value; the disk is the
    medium, whose field [drive] is the selected drive. *)
Record ctl := Ctl {
  c_disk : MemDisk.t;
  c_count : Z * Z;
  c_low : Z * Z;
  c_mid : Z * Z;
  c_high : Z * Z;
  c_phase : phase;
  c_busy : nat;
}.

Definition set_phase (ph : phase) (c : ctl) : ctl :=
  Ctl (c_disk c) (c_count c) (c_low c) (c_mid c) (c_high c) ph (c_busy c).
Definition set_busy (n : nat) (c : ctl) : ctl :=
  Ctl (c_disk c) (c_count c) (c_low c) (c_mid c) (c_high c) (c_phase c) n.
Definition set_disk (d : MemDisk.t) (c : ctl) : ctl :=
  Ctl d (c_count c) (c_low c) (c_mid c) (c_high c) (c_phase c) (c_busy c).

Definition select (v : Z) (c : ctl) : ctl :=
  set_disk (MemDisk.mk (if Z.testbit v 4 then 1 else 0)
                       (MemDisk.capacity (c_disk c)) (MemDisk.sectors (c_disk c))) c.

Definition push (v : Z) (r : Z * Z) : Z * Z := (v, fst r).

Definition set_reg (port v : Z) (c : ctl) : ctl :=
  if port =? ATA_SECTOR_COUNT then
    Ctl (c_disk c) (push v (c_count c)) (c_low c) (c_mid c) (c_high c) (c_phase c) (c_busy c)
  else if port =? ATA_LBA_LOW then
    Ctl (c_disk c) (c_count c) (push v (c_low c)) (c_mid c) (c_high c) (c_phase c) (c_busy c)
  else if port =? ATA_LBA_MID then
    Ctl (c_disk c) (c_count c) (c_low c) (push v (c_mid c)) (c_high c) (c_phase c) (c_busy c)
  else
    Ctl (c_disk c) (c_count c) (c_low c) (c_mid c) (push v (c_high c)) (c_phase c) (c_busy c).

Definition is_reg (port : Z) : Prop :=
  port = ATA_SECTOR_COUNT \/ port = ATA_LBA_LOW \/ port = ATA_LBA_MID \/ port = ATA_LBA_HIGH.

(** The address in the registers of an LBA48 command. *)
Definition c_lba (c : ctl) : Z :=
  le_val [fst (c_low c); fst (c_mid c); fst (c_high c); snd (c_low c); snd (c_mid c); snd (c_high c)].

Definition size_of (c : ctl) : Z := MemDisk.capacity (c_disk c) (MemDisk.drive (c_disk c)).

(** The commands the driver uses: READ SECTORS EXT, WRITE SECTORS EXT and FLUSH
    CACHE, for one sector. *)
Definition execute (cmd : Z) (c : ctl) : ctl :=
  if cmd =? 0xEA then set_phase Idle c
  else if negb (bool_decide (c_count c = (1, 0))) || (size_of c <=? c_lba c) then set_phase Failed c
  else if cmd =? 0x24 then
    match fst (MemDisk.read (c_disk c) (MemDisk.drive (c_disk c)) (c_lba c)) with
    | Some b => set_phase (DataIn b) c
    | None => set_phase Failed c
    end
  else if cmd =? 0x34 then set_phase (DataOut (c_lba c) []) c
  else set_phase Failed c.

(** A word written in a data-out phase; the last one stores the sector. *)
Definition take_word (v : Z) (c : ctl) : ctl :=
  match c_phase c with
  | DataOut lba got =>
      let got := got ++ le_bytes 2 v in
      if zlen got =? 512
      then set_phase Idle (set_disk (snd (MemDisk.write (c_disk c) (MemDisk.drive (c_disk c)) lba got)) c)
      else set_phase (DataOut lba got) c
  | _ => c
  end.

Definition settled (c : ctl) : Prop := c_busy c = O /\ (c_phase c = Idle \/ c_phase c = Failed).

(** The value of the status register. *)
Definition status_ok (c : ctl) (v : Z) : Prop :=
  if size_of c <=? 0 then v = 0
  else match c_busy c with
       | S _ => Z.land v ATA_STATUS_BSY <> 0 /\ Z.land v (Z.lor ATA_STATUS_ERR ATA_STATUS_DF) = 0
       | O =>
           match c_phase c with
           | Failed => Z.land v ATA_STATUS_ERR <> 0
           | ph =>
               v <> 0 /\ Z.land v ATA_STATUS_BSY = 0 /\
               Z.land v (Z.lor ATA_STATUS_ERR ATA_STATUS_DF) = 0 /\
               (Z.land v ATA_STATUS_DRQ = 0 <-> ph = Idle)
           end
       end.

(** Ports that behave like the automaton: the host may write the registers and
    issue commands while the controller is settled; after a command, and after
    the last word of a sector, it may be busy for fewer polls than the driver
    waits. *)
Class Controller (P : Type) `{Ports P} := {
  view : P -> ctl;
  law_head p v : settled (view p) -> view (ports_outb p ATA_DRIVE_HEAD v) = select v (view p);
  law_reg p port v :
    settled (view p) -> is_reg port -> view (ports_outb p port v) = set_reg port v (view p);
  law_command p cmd :
    settled (view p) ->
    exists n, (n < Pos.to_nat ATA_TIMEOUT)%nat /\
      view (ports_outb p ATA_COMMAND cmd) = set_busy n (execute cmd (view p));
  law_status p :
    status_ok (view p) (fst (ports_inb p ATA_STATUS)) /\
    view (snd (ports_inb p ATA_STATUS)) = set_busy (pred (c_busy (view p))) (view p);
  law_inw p x y left :
    c_busy (view p) = O -> c_phase (view p) = DataIn (x :: y :: left) -> is_bytes [x; y] ->
    le_bytes 2 (fst (ports_inw p ATA_DATA)) = [x; y] /\
    view (snd (ports_inw p ATA_DATA)) =
      set_phase (match left with [] => Idle | _ => DataIn left end) (view p);
  law_outw p lba got v :
    c_busy (view p) = O -> c_phase (view p) = DataOut lba got ->
    exists n, (n < Pos.to_nat ATA_TIMEOUT)%nat /\
      view (ports_outw p ATA_DATA v) = set_busy n (take_word v (view p)) /\
      (zlen got + 2 <> 512 -> n = O);
}.

(** ** The driver on such a controller *)

Section Refine.
Context {P : Type} `{Controller P}.
Implicit Types (p : P) (a : ata P) (c : ctl).

Fixpoint poll_nat (n : nat) (require_data : bool) p : option Z * P :=
  match n with
  | O => (None, p)
  | S n' =>
      match wait_round require_data p with
      | (None, p) => poll_nat n' require_data p
      | r => r
      end
  end.

Lemma poll_nat_add n m rd p :
  poll_nat (n + m) rd p =
  match poll_nat n rd p with (None, p) => poll_nat m rd p | r => r end.
Proof.
  revert p. induction n as [|n IH]; intros p; cbn [Nat.add poll_nat]; [done|].
  destruct (wait_round rd p) as [[rc|] p']; [done | apply IH].
Qed.

Lemma poll_is_nat n rd p : poll n rd p = poll_nat (Pos.to_nat n) rd p.
Proof.
  revert p. induction n as [n IH|n IH|]; intros p; cbn [poll].
  - rewrite Pos2Nat.inj_xI. replace (S (2 * Pos.to_nat n)) with (1 + (Pos.to_nat n + Pos.to_nat n))%nat by lia.
    cbn [Nat.add poll_nat]. destruct (wait_round rd p) as [[rc|] p']; [done|].
    rewrite poll_nat_add, IH. destruct (poll_nat _ _ p') as [[rc|] p'']; [done | apply IH].
  - rewrite Pos2Nat.inj_xO. replace (2 * Pos.to_nat n)%nat with (Pos.to_nat n + Pos.to_nat n)%nat by lia.
    rewrite poll_nat_add, IH. destruct (poll_nat _ _ p) as [[rc|] p'']; [done | apply IH].
  - change (Pos.to_nat 1) with 1%nat. cbn [poll_nat]. by destruct (wait_round rd p) as [[rc|] p'].
Qed.

(** The controller answers a poll for data, or for the end of a command. *)
Definition answers (rd : bool) c : Prop :=
  match c_phase c with Failed => False | Idle => rd = false | _ => True end.

Lemma round_busy rd p n :
  0 < size_of (view p) -> c_busy (view p) = S n ->
  exists p', wait_round rd p = (None, p') /\ view p' = set_busy n (view p).
Proof.
  intros Hs Hb. unfold wait_round. destruct (law_status p) as [Hst Hv].
  destruct (ports_inb p ATA_STATUS) as [v p']. cbn in Hst, Hv. unfold status_ok in Hst.
  rewrite (proj2 (Z.leb_gt _ _)), Hb in Hst by lia. destruct Hst as [Hbsy Herr].
  rewrite Hb in Hv. exists p'. split; [|done].
  destruct (Z.eqb_spec v 0) as [->|]; [done|]. destruct (Z.eqb_spec v 255) as [->|]; [done|].
  cbn [orb]. rewrite Herr. cbn [Z.eqb negb]. by rewrite (eqb_neq _ _ Hbsy).
Qed.

Lemma round_ready rd p :
  0 < size_of (view p) -> c_busy (view p) = O -> answers rd (view p) ->
  exists p', wait_round rd p = (Some 0, p') /\ view p' = view p.
Proof.
  intros Hs Hb Ha. unfold wait_round. destruct (law_status p) as [Hst Hv].
  destruct (ports_inb p ATA_STATUS) as [v p']. cbn in Hst, Hv. unfold status_ok in Hst.
  rewrite (proj2 (Z.leb_gt _ _)), Hb in Hst by lia. rewrite Hb in Hv.
  exists p'. split; [|rewrite Hv; destruct (view p); cbn in *; by subst].
  unfold answers in Ha.
  assert (v <> 0 /\ Z.land v ATA_STATUS_BSY = 0 /\
    Z.land v (Z.lor ATA_STATUS_ERR ATA_STATUS_DF) = 0 /\
    (Z.land v ATA_STATUS_DRQ = 0 <-> c_phase (view p) = Idle)) as (Hz & Hbsy & Herr & Hdrq).
  { revert Hst Ha. destruct (c_phase (view p)); intros Hst Ha; [exact Hst | done | exact Hst..]. }
  rewrite (eqb_neq _ _ Hz). destruct (Z.eqb_spec v 255) as [->|]; [done|].
  cbn [orb]. rewrite Herr, Hbsy. cbn [Z.eqb negb andb]. destruct rd; [|done]. cbn [negb orb].
  destruct (Z.eqb_spec (Z.land v ATA_STATUS_DRQ) 0) as [E|]; [|done].
  apply Hdrq in E. by rewrite E in Ha.
Qed.

Lemma round_failed rd p :
  0 < size_of (view p) -> c_busy (view p) = O -> c_phase (view p) = Failed ->
  exists p', wait_round rd p = (Some (-1), p') /\ view p' = view p.
Proof.
  intros Hs Hb Hf. unfold wait_round. destruct (law_status p) as [Hst Hv].
  destruct (ports_inb p ATA_STATUS) as [v p']. cbn in Hst, Hv. unfold status_ok in Hst.
  rewrite (proj2 (Z.leb_gt _ _)), Hb, Hf in Hst by lia. rewrite Hb in Hv.
  exists p'. split; [|rewrite Hv; destruct (view p); cbn in *; by subst].
  destruct ((v =? 0) || (v =? 255)); [done|].
  destruct (Z.eqb_spec (Z.land v (Z.lor ATA_STATUS_ERR ATA_STATUS_DF)) 0) as [E|]; [|done].
  exfalso. apply Hst. apply (f_equal (fun x => Z.land x 1)) in E.
  rewrite <- Z.land_assoc in E. exact E.
Qed.

(** Waiting polls until the controller is no longer busy. *)
Lemma wait_until rd p c rc :
  (forall p, view p = c -> exists p', wait_round rd p = (Some rc, p') /\ view p' = c) ->
  c_busy c = O -> 0 < size_of c ->
  forall n, view p = set_busy n c -> (n < Pos.to_nat ATA_TIMEOUT)%nat ->
  exists p', ata_wait rd p = (rc, p') /\ view p' = c.
Proof.
  intros Hr Hc0 Hs n Hn Hlt. unfold ata_wait. rewrite poll_is_nat.
  cut (exists p', poll_nat (Pos.to_nat ATA_TIMEOUT) rd p = (Some rc, p') /\ view p' = c).
  { intros (p' & -> & Hv). by exists p'. }
  revert n p Hn Hlt. induction (Pos.to_nat ATA_TIMEOUT) as [|t IH]; intros n p Hn Hlt; [lia|].
  destruct n as [|n].
  - destruct (Hr p) as (p' & E & Hv); [rewrite Hn; destruct c; cbn in *; by subst|].
    exists p'. cbn. by rewrite E.
  - destruct (round_busy rd p n) as (p' & E & Hv); [by rewrite Hn | by rewrite Hn |].
    cbn [poll_nat]. rewrite E. apply (IH n); [by rewrite Hv, Hn | lia].
Qed.

Lemma delay_settled p : settled (view p) -> view (ata_delay_400ns p) = view p.
Proof.
  intros [Hb _].
  assert (forall q, view q = view p -> view (snd (ports_inb q ATA_STATUS)) = view p) as Hq.
  { intros q Hv. destruct (law_status q) as [_ ->]. rewrite Hv, Hb.
    destruct (view p). cbn in *. by subst. }
  unfold ata_delay_400ns. by repeat apply Hq.
Qed.

Lemma wait_answered rd p n c :
  c_busy c = O -> 0 < size_of c -> answers rd c -> view p = set_busy n c ->
  (n < Pos.to_nat ATA_TIMEOUT)%nat -> exists p', ata_wait rd p = (0, p') /\ view p' = c.
Proof.
  intros Hc Hs Ha Hv Hn. apply (wait_until rd p c 0) with n; try done.
  intros q <-. by apply round_ready.
Qed.

Lemma wait_failed rd p n c :
  c_busy c = O -> 0 < size_of c -> c_phase c = Failed -> view p = set_busy n c ->
  (n < Pos.to_nat ATA_TIMEOUT)%nat -> exists p', ata_wait rd p = (-1, p') /\ view p' = c.
Proof.
  intros Hc Hs Ha Hv Hn. apply (wait_until rd p c (-1)) with n; try done.
  intros q <-. by apply round_failed.
Qed.


Lemma set_reg_settled port v c : settled c -> settled (set_reg port v c).
Proof. unfold settled, set_reg. by repeat case_match. Qed.

Lemma lba_bytes lba :
  0 <= lba < 2 ^ 48 ->
  le_val [u8 lba; u8 (Z.shiftr lba 8); u8 (Z.shiftr lba 16); u8 (Z.shiftr lba 24);
          u8 (Z.shiftr lba 32); u8 (Z.shiftr lba 40)] = lba.
Proof.
  intros. transitivity (le_val (le_bytes 6 lba)); [|rewrite le_val_le_bytes; apply Z.mod_small; lia].
  unfold u8. rewrite !Z.shiftr_div_pow2 by lia. cbn [le_bytes].
  rewrite !Z.div_div by lia. reflexivity.
Qed.

Definition out_reg p (w : Z * Z) : P := ports_outb p (fst w) (snd w).

Lemma regs_ok l p :
  settled (view p) -> Forall (fun w => is_reg (fst w)) l ->
  view (foldl out_reg p l) = foldl (fun c w => set_reg (fst w) (snd w) c) (view p) l /\
  settled (view (foldl out_reg p l)).
Proof.
  revert p. induction l as [|[r v] l IH]; intros p Hs Hl; [done|].
  apply Forall_cons in Hl as [Hr Hl]. cbn [foldl fst snd]. rewrite <- (law_reg p r v) by done.
  apply IH; [|done]. unfold out_reg. cbn [fst snd]. rewrite law_reg by done. by apply set_reg_settled.
Qed.

(** The registers hold the address when the command is issued. *)
Lemma issue_ok lba cmd p :
  settled (view p) -> 0 <= lba < 2 ^ 48 ->
  exists n c, (n < Pos.to_nat ATA_TIMEOUT)%nat /\ view (issue lba cmd p) = set_busy n (execute cmd c) /\
    c_disk c = c_disk (view p) /\ c_count c = (1, 0) /\ c_lba c = lba /\ c_busy c = O.
Proof.
  intros Hs Hl.
  set (l := [(ATA_SECTOR_COUNT, 0); (ATA_LBA_LOW, u8 (Z.shiftr lba 24));
    (ATA_LBA_MID, u8 (Z.shiftr lba 32)); (ATA_LBA_HIGH, u8 (Z.shiftr lba 40));
    (ATA_SECTOR_COUNT, 1); (ATA_LBA_LOW, u8 lba);
    (ATA_LBA_MID, u8 (Z.shiftr lba 8)); (ATA_LBA_HIGH, u8 (Z.shiftr lba 16))]).
  change (issue lba cmd p) with (ports_outb (foldl out_reg p l) ATA_COMMAND cmd).
  destruct (regs_ok l p Hs) as [Hv Hs'].
  { unfold l. repeat (apply Forall_cons; split; [unfold is_reg; cbn [fst]; auto 6|]). constructor. }
  destruct (law_command (foldl out_reg p l) cmd Hs') as (n & Hn & Hc).
  exists n, (view (foldl out_reg p l)). destruct Hs' as [Hb _]. rewrite Hc, Hv in *.
  split_and!; [done.. | exact (lba_bytes lba Hl) | done].
Qed.

(** The data phase of a read yields the sector. *)
Lemma read_words_ok k b p :
  c_busy (view p) = O -> c_phase (view p) = DataIn b -> length b = (2 * S k)%nat -> is_bytes b ->
  exists p', read_words (S k) p = (b, p') /\ view p' = set_phase Idle (view p).
Proof.
  revert b p. induction k as [|k IH]; intros b p Hb Hp Hl Hby;
    (destruct b as [|x [|y b]]; [cbn in Hl; lia..|]);
    destruct (law_inw p x y b Hb Hp (Forall_take _ 2 _ Hby)) as [Hw Hv]; cbn [read_words];
    destruct (ports_inw p ATA_DATA) as [w q]; cbn [fst snd] in Hw, Hv.
  - destruct b; [|cbn in Hl; lia]. exists q. by rewrite Hw.
  - assert (c_phase (view q) = DataIn b) as Hq.
    { rewrite Hv. destruct b; [cbn in Hl; lia | done]. }
    destruct (IH b q) as (p' & E & Hv'); [by rewrite Hv | done | cbn in Hl; lia | exact (Forall_drop _ 2 _ Hby) |].
    cbn [read_words] in E. rewrite E, Hw. exists p'. split; [done|]. by rewrite Hv', Hv.
Qed.

(** The data phase of a write stores the sector. *)
Lemma write_words_ok k lba got b p :
  c_busy (view p) = O -> c_phase (view p) = DataOut lba got ->
  zlen got + 2 * Z.of_nat (S k) = 512 -> zlen b = 2 * Z.of_nat (S k) -> is_bytes b ->
  exists n, (n < Pos.to_nat ATA_TIMEOUT)%nat /\
    view (write_words (S k) b p) =
    set_busy n (set_phase Idle (set_disk
      (snd (MemDisk.write (c_disk (view p)) (MemDisk.drive (c_disk (view p))) lba (got ++ b))) (view p))).
Proof.
  revert got b p. induction k as [|k IH]; intros got b p Hb Hp Hg Hl Hbytes;
    (destruct b as [|x [|y b]]; [revert Hl; zs..|]);
    assert (le_bytes 2 (le_val (take 2 (x :: y :: b))) = [x; y]) as Hw
      by (apply (le_bytes_le_val [x; y]); exact (Forall_take _ 2 _ Hbytes));
    destruct (law_outw p lba got (le_val (take 2 (x :: y :: b))) Hb Hp) as (n & Hn & Hv & Hn0);
    unfold take_word in Hv; rewrite Hp, Hw in Hv.
  - destruct b; [|revert Hl; zs]. rewrite (proj2 (Z.eqb_eq _ _)) in Hv by (revert Hg; zs).
    exists n. split; [done|]. exact Hv.
  - rewrite (proj2 (Z.eqb_neq _ _)) in Hv by (revert Hg; zs).
    rewrite Hn0 in Hv by (revert Hg; zs).
    set (q := ports_outw p ATA_DATA (le_val (take 2 (x :: y :: b)))) in *.
    destruct (IH (got ++ [x; y]) b q) as (m & Hm & Hv').
    + by rewrite Hv.
    + by rewrite Hv.
    + revert Hg. zs.
    + revert Hl. zs.
    + by apply Forall_cons in Hbytes as [_ [_ ?]%Forall_cons].
    + exists m. split; [done|].
      change (write_words (S (S k)) (x :: y :: b) p) with (write_words (S k) b q).
      rewrite Hv', Hv, <- app_assoc. reflexivity.
Qed.

(** The driver's state and the controller represent the disk [m]. *)
Record represents a (m : MemDisk.t) : Prop := {
  rep_settled : settled (view (g_ports a));
  rep_capacity : MemDisk.capacity (c_disk (view (g_ports a))) = MemDisk.capacity m;
  rep_sectors : MemDisk.sectors (c_disk (view (g_ports a))) = MemDisk.sectors m;
  rep_drive : g_current_drive a = MemDisk.drive m;
  rep_two : g_current_drive a = 0 \/ g_current_drive a = 1;
  rep_present dr : ata_drive_present a dr = (0 <? MemDisk.capacity m dr);
  rep_count dr : ata_drive_sector_count a dr = MemDisk.capacity m dr;
  rep_size dr : 0 <= MemDisk.capacity m dr <= 2 ^ 48;
  rep_bytes dr lba b : MemDisk.sectors m !! (dr, lba) = Some b -> is_sector b;
}.

Lemma select_bit dr : dr = 0 \/ dr = 1 -> (if Z.testbit (u8 (Z.lor 64 (Z.shiftl dr 4))) 4 then 1 else 0) = dr.
Proof. by intros [->| ->]. Qed.

Lemma select_view a dr :
  settled (view (g_ports a)) -> dr = 0 \/ dr = 1 ->
  exists a', ata_select_drive a dr = (0, a') /\ g_current_drive a' = dr /\
    g_drive_present a' = g_drive_present a /\ g_drive_sector_counts a' = g_drive_sector_counts a /\
    settled (view (g_ports a')) /\
    c_disk (view (g_ports a')) = MemDisk.mk dr (MemDisk.capacity (c_disk (view (g_ports a))))
                                              (MemDisk.sectors (c_disk (view (g_ports a)))).
Proof.
  intros Hs Hd. unfold ata_select_drive. rewrite (proj2 (Z.leb_gt _ _)) by (unfold DRIVES; lia).
  eexists. split; [done|]. cbn [g_current_drive g_drive_present g_drive_sector_counts g_ports].
  rewrite delay_settled, law_head by (rewrite ?law_head by done; done).
  split_and!; try done. unfold select. cbn [c_disk set_disk]. by rewrite select_bit.
Qed.

(** [represents] only looks at the controller through its medium. *)
Lemma represents_ports a p m :
  represents a m -> settled (view p) ->
  MemDisk.capacity (c_disk (view p)) = MemDisk.capacity m ->
  MemDisk.sectors (c_disk (view p)) = MemDisk.sectors m -> represents (with_ports p a) m.
Proof. intros [] ???. by constructor. Qed.

Lemma represents_select a m dr :
  represents a m -> dr = 0 \/ dr = 1 ->
  exists a', ata_select_drive a dr = (0, a') /\
    represents a' (MemDisk.mk dr (MemDisk.capacity m) (MemDisk.sectors m)) /\
    c_disk (view (g_ports a')) = MemDisk.mk dr (MemDisk.capacity m) (MemDisk.sectors m).
Proof.
  intros [Hs Hcap Hsec Hdr Htwo Hpres Hcnt Hsize Hby] Hd.
  destruct (select_view a dr Hs Hd) as (a' & E & Hc & Hp & Hn & Hs' & Hdisk).
  exists a'. split; [done|]. rewrite Hcap, Hsec in Hdisk. split; [|done].
  constructor; cbn; rewrite ?Hdisk, ?Hc; try done.
  - intros d. rewrite <- Hpres. unfold ata_drive_present. by rewrite Hp.
  - intros d. rewrite <- Hcnt. unfold ata_drive_sector_count. by rewrite Hn.
Qed.

Lemma mem_read_sector m dr lba b :
  (forall dr lba b, MemDisk.sectors m !! (dr, lba) = Some b -> is_sector b) ->
  fst (MemDisk.read m dr lba) = Some b -> is_sector b.
Proof.
  intros Hby. unfold MemDisk.read. destruct (_ && _); [|done]. intros [= <-].
  destruct (MemDisk.sectors m !! (dr, lba)) as [b|] eqn:E; [by eapply Hby|].
  split; [done | apply is_bytes_zeros].
Qed.

(** The drive is selected and the command issued; then the controller is in the
    state of the executed command. *)
Lemma select_issue a m lba cmd :
  represents a m -> 0 <= lba < 2 ^ 48 -> 0 < MemDisk.capacity m (MemDisk.drive m) ->
  exists a' n c, ata_select_drive a (MemDisk.drive m) = (0, a') /\ represents a' m /\
    (n < Pos.to_nat ATA_TIMEOUT)%nat /\
    view (issue lba cmd (g_ports a')) = set_busy n (execute cmd c) /\
    c_disk c = m /\ c_count c = (1, 0) /\ c_lba c = lba /\ c_busy c = O.
Proof.
  intros Hr Hl Hc. destruct (represents_select a m (MemDisk.drive m) Hr) as (a' & E & Hr' & Hd).
  { rewrite <- (rep_drive _ _ Hr). apply (rep_two _ _ Hr). }
  destruct (issue_ok lba cmd (g_ports a') (rep_settled _ _ Hr') Hl) as (n & c & Hn & Hv & Hcd & Hcount & Hlba & Hbz).
  rewrite Hd in Hcd. exists a', n, c. destruct m. by split_and!.
Qed.

Lemma read_refines a m lba :
  represents a m -> 0 <= lba ->
  exists a', ata_read_sector a (MemDisk.drive m) lba = (fst (MemDisk.read m (MemDisk.drive m) lba), a') /\
    represents a' m.
Proof.
  intros Hr Hl. pose proof (rep_size _ _ Hr (MemDisk.drive m)) as Hsz.
  unfold ata_read_sector. rewrite (rep_present _ _ Hr).
  destruct (Z.ltb_spec 0 (MemDisk.capacity m (MemDisk.drive m))) as [Hc|Hc]; cbn [negb orb].
  2: { exists a. unfold MemDisk.read. rewrite (proj2 (Z.ltb_ge _ _)), andb_false_r by lia. done. }
  destruct (Z.leb_spec (2 ^ 48) lba) as [Hbig|Hbig].
  { exists a. unfold MemDisk.read. rewrite (proj2 (Z.ltb_ge _ _)), andb_false_r by lia. done. }
  destruct (select_issue a m lba 0x24 Hr) as (a' & n & c & -> & Hr' & Hn & Hv & Hcd & Hcnt & Hlba & Hbz); [lia..|].
  cbn [negb Z.eqb]. unfold execute in Hv. cbn [Z.eqb Pos.eqb] in Hv.
  rewrite Hcnt, bool_decide_eq_true_2 in Hv by done. cbn [negb orb] in Hv.
  unfold size_of in Hv. rewrite Hlba, Hcd in Hv.
  destruct (Z.leb_spec (MemDisk.capacity m (MemDisk.drive m)) lba) as [Hout|Hin].
  - destruct (wait_failed true (issue lba 36 (g_ports a')) n (set_phase Failed c)) as (p' & E & Hv');
      [done | unfold size_of; cbn; by rewrite Hcd | done.. |].
    rewrite E. cbn [Z.eqb negb]. exists (with_ports p' a').
    unfold MemDisk.read. rewrite (proj2 (Z.ltb_ge _ _)), andb_false_r by lia. split; [done|].
    apply represents_ports; rewrite ?Hv'; cbn; rewrite ?Hcd; try done. split; [done | by right].
  - destruct (fst (MemDisk.read m (MemDisk.drive m) lba)) as [b|] eqn:Eb.
    2: { unfold MemDisk.read in Eb. rewrite (proj2 (Z.leb_le _ _)), (proj2 (Z.ltb_lt _ _)) in Eb by lia. done. }
    destruct (mem_read_sector m _ _ b (rep_bytes _ _ Hr) Eb) as [Hlen Hby].
    destruct (wait_answered true (issue lba 36 (g_ports a')) n (set_phase (DataIn b) c)) as (p' & E & Hv');
      [done | unfold size_of; cbn; by rewrite Hcd | done.. |].
    rewrite E. cbn [Z.eqb negb].
    destruct (read_words_ok 255 b p') as (q & Eq & Hq);
      [by rewrite Hv' | by rewrite Hv' | unfold zlen, SECTOR in Hlen; lia | done |].
    rewrite Eq. exists (with_ports q a'). split; [done|].
    apply represents_ports; rewrite ?Hq, ?Hv'; cbn; rewrite ?Hcd; try done. split; [done | by left].
Qed.

Lemma represents_write a p m lba b :
  represents a m -> is_sector b -> settled (view p) ->
  c_disk (view p) = snd (MemDisk.write m (MemDisk.drive m) lba b) ->
  represents (with_ports p a) (snd (MemDisk.write m (MemDisk.drive m) lba b)).
Proof.
  unfold MemDisk.write. destruct (_ && _).
  - intros [] Hb Hs Hd. constructor; cbn; rewrite ?Hd; try done.
    intros dr x b'. destruct (decide ((MemDisk.drive m, lba) = (dr, x))) as [<-|Hne].
    + rewrite lookup_insert_eq. by intros [= <-].
    + rewrite lookup_insert_ne by done. eauto.
  - intros Hr Hb Hs Hd. by apply represents_ports; rewrite ?Hd.
Qed.

Lemma write_refines a m lba b :
  represents a m -> 0 <= lba -> is_sector b ->
  exists a', ata_write_sector a (MemDisk.drive m) lba b = (fst (MemDisk.write m (MemDisk.drive m) lba b), a') /\
    represents a' (snd (MemDisk.write m (MemDisk.drive m) lba b)).
Proof.
  intros Hr Hl Hb. pose proof (rep_size _ _ Hr (MemDisk.drive m)) as Hsz.
  assert (MemDisk.capacity m (MemDisk.drive m) <= lba ->
    MemDisk.write m (MemDisk.drive m) lba b = (-1, m)) as Hno.
  { intros. unfold MemDisk.write. by rewrite (proj2 (Z.ltb_ge _ _)), andb_false_r by lia. }
  unfold ata_write_sector. rewrite (rep_present _ _ Hr).
  destruct (Z.ltb_spec 0 (MemDisk.capacity m (MemDisk.drive m))) as [Hc|Hc]; cbn [negb orb].
  2: { exists a. by rewrite Hno by lia. }
  destruct (Z.leb_spec (2 ^ 48) lba) as [Hbig|Hbig]; [exists a; by rewrite Hno by lia|].
  destruct (select_issue a m lba 0x34 Hr) as (a' & n & c & -> & Hr' & Hn & Hv & Hcd & Hcnt & Hlba & Hbz); [lia..|].
  cbn [negb Z.eqb]. unfold execute in Hv. cbn [Z.eqb Pos.eqb] in Hv.
  rewrite Hcnt, bool_decide_eq_true_2 in Hv by done. cbn [negb orb] in Hv.
  unfold size_of in Hv. rewrite Hlba, Hcd in Hv.
  destruct (Z.leb_spec (MemDisk.capacity m (MemDisk.drive m)) lba) as [Hout|Hin].
  - destruct (wait_failed true (issue lba 52 (g_ports a')) n (set_phase Failed c)) as (p' & E & Hv');
      [done | unfold size_of; cbn; by rewrite Hcd | done.. |].
    rewrite E, Hno by lia. cbn [Z.eqb negb]. exists (with_ports p' a'). split; [done|].
    apply represents_ports; rewrite ?Hv'; cbn; rewrite ?Hcd; try done. split; [done | by right].
  - destruct (wait_answered true (issue lba 52 (g_ports a')) n (set_phase (DataOut lba []) c)) as (p' & E & Hv');
      [done | unfold size_of; cbn; by rewrite Hcd | done.. |].
    rewrite E. cbn [Z.eqb negb].
    destruct (write_words_ok 255 lba [] b p') as (k & Hk & Hw);
      [by rewrite Hv' | by rewrite Hv' | done | by destruct Hb | by destruct Hb |].
    rewrite Hv' in Hw. cbn [c_disk set_phase app] in Hw. rewrite Hcd in Hw.
    assert (snd (MemDisk.write m (MemDisk.drive m) lba b) =
      MemDisk.mk (MemDisk.drive m) (MemDisk.capacity m) (<[(MemDisk.drive m, lba) := b]> (MemDisk.sectors m))
      /\ fst (MemDisk.write m (MemDisk.drive m) lba b) = 0) as [Hm1 Hrc].
    { unfold MemDisk.write. by rewrite (proj2 (Z.leb_le _ _)), (proj2 (Z.ltb_lt _ _)) by lia. }
    match type of Hw with _ = set_busy k ?c' => set (c1 := c') in Hw end.
    assert (0 < size_of c1) as Hs1 by (unfold size_of, c1; cbn [c_disk set_disk set_phase]; by rewrite Hm1).
    destruct (wait_answered false (write_words 256 b p') k c1) as (q & Eq & Hq); [done..|].
    rewrite Eq. cbn [Z.eqb negb].
    destruct (law_command q 0xEA) as (j & Hj & Hf); [rewrite Hq; split; [done | by left]|].
    rewrite Hq in Hf. change (execute 234 c1) with (set_phase Idle c1) in Hf.
    destruct (wait_answered false (ports_outb q ATA_COMMAND 234) j (set_phase Idle c1)) as (r & Er & Hrv); [done..|].
    rewrite Er, Hrc. exists (with_ports r a'). split; [done|].
    apply represents_write; rewrite ?Hrv; try done. split; [done | by left].
Qed.

(** C9: on a controller that behaves as documented, the ATA driver implements the
    disk the file systems are verified against: reading, writing and selecting
    a drive return what the abstract disk returns, failures on addresses beyond
    the medium and on absent drives included, and the driver keeps representing
    the abstract disk afterwards.  Every call returns although the controller
    may stay busy for any number of polls below the time-out. *)
Theorem ata_refines_disk a m :
  represents a m ->
  (forall lba, 0 <= lba ->
     exists a', ata_read_sector a (MemDisk.drive m) lba = (fst (MemDisk.read m (MemDisk.drive m) lba), a') /\
       represents a' m) /\
  (forall lba b, 0 <= lba -> is_sector b ->
     exists a', ata_write_sector a (MemDisk.drive m) lba b =
                  (fst (MemDisk.write m (MemDisk.drive m) lba b), a') /\
       represents a' (snd (MemDisk.write m (MemDisk.drive m) lba b))) /\
  (forall dr, 0 <= dr ->
     exists a', ata_select_drive a dr = (fst (Disk.ata_select_drive m dr), a') /\
       represents a' (snd (Disk.ata_select_drive m dr))).
Proof.
  intros Hr. split_and!; intros.
  - by apply read_refines.
  - by apply write_refines.
  - cbn [Disk.ata_select_drive MemDisk.device]. rewrite (proj2 (Z.leb_le 0 dr)) by done. cbn [andb].
    destruct (Z.ltb_spec dr 2).
    + destruct (represents_select a m dr Hr) as (a' & E & Hr' & _); [lia|]. by exists a'.
    + exists a. unfold ata_select_drive. rewrite (proj2 (Z.leb_le _ _)) by (unfold DRIVES; lia). done.
Qed.

End Refine.

(** ** A simulated controller *)

Module Sim.

(** Every command keeps the controller busy for three polls. *)
Definition latency : nat := 3.

Definition status (c : ctl) : Z :=
  if size_of c <=? 0 then 0
  else match c_busy c with
       | S _ => 0x80
       | O => match c_phase c with Idle => 0x50 | Failed => 0x51 | _ => 0x58 end
       end.

Definition inb (c : ctl) (port : Z) : Z * ctl :=
  if port =? ATA_STATUS then (status c, set_busy (pred (c_busy c)) c) else (0, c).

Definition inw (c : ctl) (port : Z) : Z * ctl :=
  match c_phase c with
  | DataIn (x :: y :: more) =>
      (le_val [x; y], set_phase (match more with [] => Idle | _ => DataIn more end) c)
  | _ => (0, c)
  end.

Definition outb (c : ctl) (port v : Z) : ctl :=
  if port =? ATA_DRIVE_HEAD then select v c
  else if port =? ATA_COMMAND then set_busy latency (execute v c)
  else set_reg port v c.

Definition outw (c : ctl) (port v : Z) : ctl :=
  let c' := take_word v c in
  match c_phase c' with Idle => set_busy latency c' | _ => c' end.

#[global] Instance ports : Ports ctl := {
  ports_inb := inb; ports_inw := inw; ports_outb := outb; ports_outw := outw }.

Lemma latency_ok : (latency < Pos.to_nat ATA_TIMEOUT)%nat.
Proof. unfold latency, ATA_TIMEOUT. lia. Qed.

#[global] Instance controller : Controller ctl.
Proof.
  refine {| view := fun c => c |}; cbn.
  - done.
  - intros c port v _ Hr. unfold outb. by destruct Hr as [->|[->|[->| ->]]].
  - intros c cmd _. exists latency. split; [apply latency_ok | done].
  - intros c. unfold inb. cbn [fst snd Z.eqb Pos.eqb ATA_STATUS]. split; [|done].
    unfold status, status_ok. destruct (size_of c <=? 0); [done|].
    destruct (c_busy c); [|done]. by destruct (c_phase c).
  - intros c x y left Hb Hp Hby. unfold inw. rewrite Hp. cbn [fst snd]. split; [|done].
    by apply (le_bytes_le_val [x; y]).
  - intros c lba got v Hb Hp. unfold outw, take_word. rewrite Hp.
    destruct (Z.eqb_spec (zlen (got ++ le_bytes 2 v)) 512) as [E|E]; cbn [c_phase set_phase].
    + exists latency. split; [apply latency_ok|]. split; [done|]. intros Hne. contradict Hne.
      revert E. rewrite zlen_app, zlen_le_bytes. lia.
    + exists O. split; [lia|]. split; [|done]. destruct c. cbn in *. by subst.
Defined.

(** A controller with one drive of 100 zero sectors, and the driver after
    probing. *)
Definition disk : MemDisk.t := MemDisk.blank 100.
Definition idle : ctl := Ctl disk (0, 0) (0, 0) (0, 0) (0, 0) Idle 0.
Definition driver : ata ctl := ATA 0 [1; 0] [100; 0] idle.

Lemma driver_represents : represents driver disk.
Proof.
  constructor; cbn; try done.
  - split; [done | by left].
  - by left.
  - intros dr. unfold ata_drive_present, DRIVES. cbn. unfold rd.
    destruct (Z.ltb_spec dr 0); [by destruct (Z.ltb_spec dr 2), (Z.eqb_spec dr 0); try lia|].
    destruct (Z.eqb_spec dr 0) as [->|]; [done|]. destruct (Z.eqb_spec dr 1) as [->|]; [done|].
    by destruct (Z.ltb_spec dr 2); [lia|].
  - intros dr. unfold ata_drive_sector_count, DRIVES. cbn. unfold rd.
    destruct (Z.ltb_spec dr 0); [by destruct (Z.ltb_spec dr 2), (Z.eqb_spec dr 0); try lia|].
    destruct (Z.eqb_spec dr 0) as [->|]; [done|]. destruct (Z.eqb_spec dr 1) as [->|]; [done|].
    by destruct (Z.ltb_spec dr 2); [lia|].
  - intros dr. by case_match.
Qed.

Lemma ata_refines_disk_witness :
  represents driver disk /\
  exists a1 a2, ata_write_sector driver 0 7 (replicate 512 65) = (0, a1) /\
    ata_read_sector a1 0 7 = (Some (replicate 512 65), a2).
Proof.
  split; [exact driver_represents|].
  destruct (ata_refines_disk driver disk driver_represents) as (_ & Hw & _).
  destruct (Hw 7 (replicate 512 65)) as (a1 & E1 & Hr1); [done | |].
  { split; [done|]. apply Forall_replicate. done. }
  destruct (ata_refines_disk a1 _ Hr1) as (Hrd & _ & _).
  destruct (Hrd 7) as (a2 & E2 & _); [done|].
  exists a1, a2. split; [exact E1 | exact E2].
Defined.

End Sim.
