(* ===== verification/MathLib.v ===== *)
(** * Integer arithmetic (helper/math/basic.c, helper/math/dataconvert.c)

    All values are [uint64_t] and wrap around; the exponent and the root are
    [int]s.  [fpu_init] only executes control-register instructions and has no
    counterpart here. *)

From S2P Require Import Prelude.

(** [for (i = 0; i < exponent; i++) result *= base;] *)
Fixpoint power_loop (k : nat) (base result : Z) : Z :=
  match k with
  | O => result
  | S k' => power_loop k' base (u64 (result * base))
  end.

Definition math_power (base exponent : Z) : Z :=
  if exponent <? 0 then 0
  else if exponent =? 0 then 1
  else power_loop (Z.to_nat exponent) base 1.

Definition math_square_power (base : Z) : Z := u64 (base * base).

(** One Newton step for [base] and [root]. *)
Definition root_step (base root guess : Z) : Z :=
  let power := math_power guess (root - 1) in
  let denominator := if power =? 0 then 1 else power in
  u64 (u64 ((root - 1) * guess) + base / denominator) / root.

(** At most [k] steps, fewer when a step changes nothing. *)
Fixpoint root_loop (k : nat) (base root guess : Z) : Z :=
  match k with
  | O => guess
  | S k' =>
      let next := root_step base root guess in
      let diff := if guess <? next then next - guess else guess - next in
      if diff =? 0 then next else root_loop k' base root next
  end.

Definition math_root (base root : Z) : Z :=
  if base =? 0 then 0
  else if (base =? 1) || (root =? 1) then base
  else if root <=? 0 then 0
  else
    let guess := base / root in
    root_loop 25 base root (if guess <? 1 then 1 else guess).

Definition math_square_root (base : Z) : Z := math_root base 2.

Definition math_bytes_to_kilo (bytes : Z) : Z := bytes / 1024.
Definition math_bytes_to_mega (bytes : Z) : Z :=
  let kilobytes := bytes / 1024 in kilobytes / 1024.
Definition math_kilo_to_mega (kilo : Z) : Z := kilo / 1024.
Definition math_mega_to_bytes (mega : Z) : Z := u64 (u64 (mega * 1024) * 1024).
Definition math_mega_to_kilo (mega : Z) : Z := u64 (mega * 1024).
Definition math_kilo_to_bytes (kilo : Z) : Z := u64 (kilo * 1024).

(** ** Powers *)

Lemma power_loop_pow k b r : power_loop k b (u64 r) = u64 (r * b ^ Z.of_nat k).
Proof.
  revert r. induction k as [|k IH]; intros r; cbn [power_loop].
  - by rewrite Z.mul_1_r.
  - replace (u64 (u64 r * b)) with (u64 (r * b)) by (unfold u64; by rewrite Z.mul_mod_idemp_l).
    rewrite IH. f_equal. rewrite Nat2Z.inj_succ, Z.pow_succ_r by lia. ring.
Qed.

(** [math_power] computes the power modulo 2^64, hence exactly when the power
    fits a [uint64_t]; a negative exponent gives 0. *)
Theorem math_power_spec base exponent :
  math_power base exponent = if exponent <? 0 then 0 else u64 (base ^ exponent).
Proof.
  unfold math_power. destruct (Z.ltb_spec exponent 0); [done|].
  destruct (Z.eqb_spec exponent 0) as [->|]; [done|].
  change 1 with (u64 1). rewrite power_loop_pow. rewrite Z2Nat.id by lia. f_equal. lia.
Qed.

(** ** Square roots *)

Definition newton (n g : Z) : Z := (g + n / g) / 2.

Lemma root_step_newton n g :
  0 <= n < 2 ^ 32 -> 0 < g < 2 ^ 32 -> root_step n 2 g = newton n g.
Proof.
  intros Hn Hg. unfold root_step, newton. cbv zeta.
  change (math_power g (2 - 1)) with (u64 (1 * g)). change (2 - 1) with 1.
  rewrite !Z.mul_1_l, !(u64_small g) by (unfold_int; lia). rewrite eqb_neq by lia.
  assert (0 <= n / g <= n) by (split; [apply Z.div_pos | apply Z.div_le_upper_bound]; nia).
  by rewrite u64_small by (unfold_int; lia).
Qed.

(** A step never goes below the root, and halves an error of at least 2. *)
Lemma newton_error n s g :
  0 < s -> s * s <= n < (s + 1) * (s + 1) -> s <= g ->
  s <= newton n g <= s + Z.max 1 ((g - s) / 2).
Proof.
  intros Hs Hn Hg. unfold newton.
  assert (2 * s <= g + n / g).
  { enough (2 * s - g <= n / g) by lia. apply Z.div_le_lower_bound; nia. }
  split; [apply Z.div_le_lower_bound; lia|].
  destruct (Z.le_gt_cases 2 (g - s)) as [He|He].
  - assert (n / g <= s) by (apply Z.div_le_upper_bound; nia).
    transitivity ((g + s) / 2); [apply Z.div_le_mono; lia|].
    replace (g + s) with ((g - s) + s * 2) by ring. rewrite Z.div_add by lia. lia.
  - transitivity (s + 1); [|lia]. enough (g + n / g < (s + 2) * 2) by (enough ((g + n / g) / 2 < s + 2) by lia; apply Z.div_lt_upper_bound; lia).
    assert (n / g < s + 3) by (apply Z.div_lt_upper_bound; nia). lia.
Qed.

Lemma root_loop_error k n s g :
  0 < s -> s * s <= n < (s + 1) * (s + 1) -> n < 2 ^ 31 -> s <= g < 2 ^ 31 ->
  g - s < 2 ^ (Z.of_nat k + 1) ->
  s <= root_loop k n 2 g <= s + 1.
Proof.
  intros Hs Hn Hn31. revert g. induction k as [|k IH]; intros g Hg He; cbn [root_loop].
  { change (2 ^ (Z.of_nat 0 + 1)) with 2 in He. lia. }
  rewrite root_step_newton by nia.
  pose proof (newton_error n s g Hs Hn (proj1 Hg)) as Hstep.
  assert (2 ^ (Z.of_nat (S k) + 1) = 2 * 2 ^ (Z.of_nat k + 1)) as Hp
    by (rewrite <- Z.pow_succ_r by lia; f_equal; lia).
  assert (2 <= 2 ^ (Z.of_nat k + 1)) by (rewrite Z.pow_add_r by lia; nia).
  assert ((g - s) / 2 < 2 ^ (Z.of_nat k + 1)) by (apply Z.div_lt_upper_bound; lia).
  assert (0 <= (g - s) / 2 <= g - s) by (split; [apply Z.div_pos | apply Z.div_le_upper_bound]; lia).
  assert (s < 2 ^ 16) by nia. set (g' := newton n g) in *.
  destruct (Z.ltb_spec g g'); case_match; rewrite ?Z.eqb_eq, ?Z.eqb_neq in *; try (apply IH; lia).
  - lia.
  - destruct (Z.le_gt_cases (g - s) 1); [lia|].
    assert ((g - s) / 2 < g - s) by (apply Z.div_lt; lia). lia.
Qed.

Lemma sqrt_spec n : 0 <= n -> Z.sqrt n * Z.sqrt n <= n < (Z.sqrt n + 1) * (Z.sqrt n + 1).
Proof. intros Hn. pose proof (Z.sqrt_spec n Hn) as E. cbv zeta in E. unfold Z.succ in E. lia. Qed.

(** below 2^26 the 25 Newton steps of [math_square_root] are enough: the
    result is the integer square root or one more. *)
Theorem math_square_root_close n :
  0 <= n < 2 ^ 26 -> Z.sqrt n <= math_square_root n <= Z.sqrt n + 1.
Proof.
  intros Hn. unfold math_square_root, math_root.
  destruct (Z.eqb_spec n 0) as [->|]; [done|]. destruct (Z.eqb_spec n 1) as [->|]; [done|].
  cbn [Z.eqb Pos.eqb orb Z.leb Z.compare]. pose proof (sqrt_spec n ltac:(lia)) as Hs.
  pose proof (Z.sqrt_nonneg n). pose proof (Z.div_le_upper_bound n 2 n ltac:(lia) ltac:(lia)).
  assert (1 <= n / 2) by (apply Z.div_le_lower_bound; lia).
  rewrite (proj2 (Z.ltb_ge _ _)) by lia.
  assert (0 < Z.sqrt n) by (apply Z.sqrt_pos; lia).
  assert (Z.sqrt n <= n / 2).
  { destruct (Z.eqb_spec (Z.sqrt n) 1) as [E|]; [lia|]. apply Z.div_le_lower_bound; nia. }
  apply root_loop_error; try lia.
Qed.

Lemma math_square_root_close_witness :
  0 <= 1000000 < 2 ^ 26 /\ Z.sqrt 1000000 <= math_square_root 1000000 <= Z.sqrt 1000000 + 1.
Proof. split; [lia | apply (math_square_root_close 1000000); lia]. Defined.

(** [math_square_root] is not the integer square root: it rounds 3 up to 2,
    because the iteration alternates between 1 and 2 and stops after 25 steps,
    and for the largest [uint64_t] the 25 steps end far above the root. *)
Theorem math_square_root_inexact :
  math_square_root 3 = 2 /\ Z.sqrt UINT64_MAX = 4294967295 /\
  2 ^ 38 < math_square_root UINT64_MAX.
Proof. vm_compute. done. Qed.
