(* ===== verification/Time.v ===== *)
(** * The real-time clock (helper/time/time.c)

    The driver reads the CMOS registers through ports 0x70 and 0x71.  What it
    relies on is stated by [Rtc]: the registers hold the time in one of four
    formats (binary or BCD, 12 or 24 hours) and are stable once the
    update-in-progress bit is clear. *)

From S2P Require Import Prelude CMonad CString Ports.

Record rtc_time := RtcTime {
  second : Z; minute : Z; hour : Z; day : Z; month : Z; year : Z }.

(** The variable [time], the two static buffers and the device. *)
Record clock (P : Type) := Clock {
  time : rtc_time; raw_buffer : bytes; date_buffer : bytes; rtc_ports : P }.
Arguments Clock {P}.
Arguments time {P}.
Arguments raw_buffer {P}.
Arguments date_buffer {P}.
Arguments rtc_ports {P}.

(** The BCD value of a register. *)
Definition from_bcd (v : Z) : Z := Z.land v 0x0F + v / 16 * 10.

Definition hour_from_bcd (v : Z) : Z :=
  u8 (Z.lor (Z.land v 0x0F + Z.land v 0x70 / 16 * 10) (Z.land v 0x80)).

(** The conversion of the registers: status register B gives the format. *)
Definition decode_bcd (status_b : Z) (t : rtc_time) : rtc_time :=
  if Z.land status_b 0x04 =? 0 then
    RtcTime (u8 (from_bcd (second t))) (u8 (from_bcd (minute t))) (hour_from_bcd (hour t))
            (u8 (from_bcd (day t))) (u8 (from_bcd (month t))) (u32 (from_bcd (year t)))
  else t.

Definition decode_hour (status_b hour : Z) : Z :=
  if Z.land status_b 0x02 =? 0 then
    let is_pm := Z.land hour 0x80 in
    let hour := Z.land hour 0x7F in
    if negb (is_pm =? 0) && negb (hour =? 12) then u8 (hour + 12)
    else if (is_pm =? 0) && (hour =? 12) then 0
    else hour
  else hour.

Definition decode (status_b : Z) (t : rtc_time) : rtc_time :=
  let t := decode_bcd status_b t in
  RtcTime (second t) (minute t) (decode_hour status_b (hour t)) (day t) (month t) (u32 (year t + 2000)).

Section Driver.
Context {P : Type} `{Ports P}.

Abbreviation C := (M (clock P)).

Definition on_ports {A} (f : P -> A * P) : C A := fun s =>
  let '(a, p) := f (rtc_ports s) in
  Some (Val a, Clock (time s) (raw_buffer s) (date_buffer s) p).

Definition set_time (t : rtc_time) : C unit :=
  modify (fun s => Clock t (raw_buffer s) (date_buffer s) (rtc_ports s)).

Definition time_read_rtc (reg : Z) : C Z :=
  on_ports (fun p => ports_inb (ports_outb p 0x70 reg) 0x71).

Definition time_rtc_init : C unit :=
  prev ← on_ports (fun p => ports_inb (ports_outb p 0x70 0x8A) 0x71);
  on_ports (fun p => (tt, ports_outb (ports_outb p 0x70 0x8A) 0x71 (u8 (Z.lor (Z.land prev 0xF0) 0x0F)))).

(** [while (time_read_rtc(0x0A) & 0x80);]: a clock that is still updating after
    2^64 polls has no behaviour in the model. *)
Definition wait_update : C unit :=
  while_true 18446744073709551616 (fun _ : unit =>
    v ← time_read_rtc 0x0A;
    mret (if Z.land v 0x80 =? 0 then inr tt else inl tt)) tt.

Definition time_update_time : C unit :=
  wait_update;;
  s ← time_read_rtc 0x00;
  m ← time_read_rtc 0x02;
  h ← time_read_rtc 0x04;
  d ← time_read_rtc 0x07;
  mo ← time_read_rtc 0x08;
  y ← time_read_rtc 0x09;
  status_b ← time_read_rtc 0x0B;
  set_time (decode status_b (RtcTime s m h d mo y)).

(** Seconds with months of 30.4375 days and years of 365.25 days. *)
Definition epoch_seconds (t : rtc_time) : Z :=
  let seconds := second t in
  let seconds := u64 (seconds + u64 (minute t * 60)) in
  let seconds := u64 (seconds + u64 (hour t * 3600)) in
  let seconds := u64 (seconds + u64 (u64 (day t - 1) * 86400)) in
  let seconds := u64 (seconds + u64 (u64 (month t - 1) * 2629800)) in
  u64 (seconds + u64 (u64 (year t - 1970) * 31557600)).

Definition time_get_epoch_seconds : C Z :=
  time_update_time;;
  t ← gets time;
  mret (epoch_seconds t).

(** [buf[i++] = (char)(n / 10 + '0'); buf[i++] = (char)(n % 10 + '0');] *)
Definition put2 (b : bytes) (i n : Z) : option bytes :=
  b ← wr b i (u8 (n / 10 + c_0));
  wr b (i + 1) (u8 (n mod 10 + c_0)).

Definition time_get : C bytes :=
  time_update_time;;
  t ← gets time;
  b ← gets raw_buffer;
  b ← lift (put2 b 0 (hour t));
  b ← lift (wr b 2 c_colon);
  b ← lift (put2 b 3 (minute t));
  b ← lift (wr b 5 c_colon);
  b ← lift (put2 b 6 (second t));
  b ← lift (wr b 8 0);
  modify (fun s => Clock (time s) b (date_buffer s) (rtc_ports s));;
  mret b.

Definition date_get : C bytes :=
  time_update_time;;
  t ← gets time;
  b ← gets date_buffer;
  b ← lift (put2 b 0 (day t));
  b ← lift (wr b 2 c_slash);
  b ← lift (put2 b 3 (month t));
  b ← lift (wr b 5 c_slash);
  b ← lift (wr b 6 (u8 (year t / 1000 + c_0)));
  b ← lift (wr b 7 (u8 (year t mod 1000 / 100 + c_0)));
  b ← lift (wr b 8 (u8 (year t mod 100 / 10 + c_0)));
  b ← lift (wr b 9 (u8 (year t mod 10 + c_0)));
  b ← lift (wr b 10 0);
  modify (fun s => Clock (time s) (raw_buffer s) b (rtc_ports s));;
  mret b.

End Driver.

(** ** What the clock does *)

(** [reg] are the registers, [updating] the polls until the update in progress
    is over. *)
Class Rtc (P : Type) `{Ports P} := {
  reg : P -> Z -> Z;
  updating : P -> nat;
  law_poll p :
    let '(v, p') := ports_inb (ports_outb p 0x70 0x0A) 0x71 in
    (Z.land v 0x80 = 0 <-> updating p = O) /\ updating p' = pred (updating p) /\
    forall r, reg p' r = reg p r;
  law_register p i :
    updating p = O -> i <> 0x0A -> i <> 0x8A ->
    let '(v, p') := ports_inb (ports_outb p 0x70 i) 0x71 in
    v = reg p i /\ updating p' = O /\ forall r, reg p' r = reg p r;
}.

(** The four formats. *)
Definition to_bcd (v : Z) : Z := v / 10 * 16 + v mod 10.
Definition field (binary : bool) (v : Z) : Z := if binary then v else to_bcd v.

Definition hour_field (binary h24 : bool) (h : Z) : Z :=
  if h24 then field binary h
  else
    let h12 := if h mod 12 =? 0 then 12 else h mod 12 in
    field binary h12 + (if 12 <=? h then 0x80 else 0).

(** The registers [r] show the time [t], which is a time of day and a date of
    the years 2000 to 2099. *)
Record shows (binary h24 : bool) (r : Z -> Z) (t : rtc_time) : Prop := {
  shows_second : 0 <= second t < 60 /\ r 0x00 = field binary (second t);
  shows_minute : 0 <= minute t < 60 /\ r 0x02 = field binary (minute t);
  shows_hour : 0 <= hour t < 24 /\ r 0x04 = hour_field binary h24 (hour t);
  shows_day : 1 <= day t <= 31 /\ r 0x07 = field binary (day t);
  shows_month : 1 <= month t <= 12 /\ r 0x08 = field binary (month t);
  shows_year : 2000 <= year t < 2100 /\ r 0x09 = field binary (year t - 2000);
  shows_binary : binary = negb (Z.land (r 0x0B) 0x04 =? 0);
  shows_h24 : h24 = negb (Z.land (r 0x0B) 0x02 =? 0);
}.

(** A property of all numbers below a small bound, by evaluation. *)
Lemma below (f : Z -> bool) (n : nat) :
  forallb (fun i => f (Z.of_nat i)) (seq 0 n) = true -> forall v, 0 <= v < Z.of_nat n -> f v = true.
Proof.
  intros Hf v Hv. rewrite forallb_forall in Hf. specialize (Hf (Z.to_nat v)).
  rewrite Z2Nat.id in Hf by lia. apply Hf. apply in_seq. lia.
Qed.

Lemma bcd_u8 v : 0 <= v < 100 -> u8 (from_bcd (to_bcd v)) = v.
Proof.
  intros Hv. apply Z.eqb_eq. apply (below (fun v => u8 (from_bcd (to_bcd v)) =? v) 100); [by vm_compute | lia].
Qed.

Lemma bcd_u32 v : 0 <= v < 100 -> u32 (from_bcd (to_bcd v)) = v.
Proof.
  intros Hv. apply Z.eqb_eq. apply (below (fun v => u32 (from_bcd (to_bcd v)) =? v) 100); [by vm_compute | lia].
Qed.

(** [decode_hour] only looks at one bit of the status register. *)
Lemma decode_hour_status status_b v :
  decode_hour status_b v = decode_hour (if Z.land status_b 2 =? 0 then 0 else 2) v.
Proof. unfold decode_hour. by destruct (Z.land status_b 2 =? 0). Qed.

Lemma hour_decodes_all (binary h24 : bool) h :
  0 <= h < 24 ->
  decode_hour (if h24 then 2 else 0)
    (if binary then hour_field binary h24 h else hour_from_bcd (hour_field binary h24 h)) = h.
Proof.
  intros Hh. apply Z.eqb_eq.
  apply (below (fun h => decode_hour (if h24 then 2 else 0)
    (if binary then hour_field binary h24 h else hour_from_bcd (hour_field binary h24 h)) =? h) 24);
    [by destruct binary, h24; vm_compute | lia].
Qed.

Lemma hour_decodes (binary h24 : bool) status_b h :
  0 <= h < 24 -> h24 = negb (Z.land status_b 2 =? 0) ->
  decode_hour status_b
    (if binary then hour_field binary h24 h else hour_from_bcd (hour_field binary h24 h)) = h.
Proof.
  intros Hh ->. rewrite decode_hour_status.
  rewrite <- (hour_decodes_all binary (negb (Z.land status_b 2 =? 0)) h) at 3 by done.
  by destruct (Z.land status_b 2 =? 0).
Qed.

Lemma decode_shows binary h24 r t :
  shows binary h24 r t ->
  decode (r 0x0B) (RtcTime (r 0x00) (r 0x02) (r 0x04) (r 0x07) (r 0x08) (r 0x09)) = t.
Proof.
  intros [[? Hs] [? Hm] [? Hh] [? Hd] [? Hmo] [? Hy] Hb H24].
  pose proof (hour_decodes binary h24 (r 11) (hour t) ltac:(done) H24) as Hhour.
  unfold decode, decode_bcd. rewrite Hs, Hm, Hh, Hd, Hmo, Hy.
  destruct (Z.land (r 11) 4 =? 0); cbn [negb] in Hb; subst binary; cbn [second minute hour day month year field].
  - rewrite Hhour, !bcd_u8, bcd_u32 by lia. rewrite u32_small by (unfold_int; lia).
    destruct t; cbn in *. f_equal; lia.
  - rewrite Hhour. rewrite u32_small by (unfold_int; lia). destruct t; cbn in *. f_equal; lia.
Qed.

Section Update.
Context {P : Type} `{Rtc P}.
Implicit Types (s : clock P).

(** [s'] is [s] up to the position of the device, whose registers are the same
    and no longer change. *)
Definition polled s s' : Prop :=
  time s' = time s /\ raw_buffer s' = raw_buffer s /\ date_buffer s' = date_buffer s /\
  updating (rtc_ports s') = O /\ forall r, reg (rtc_ports s') r = reg (rtc_ports s) r.

Lemma read_register s s' i :
  polled s s' -> i <> 0x0A -> i <> 0x8A ->
  exists s'', time_read_rtc i s' = Some (Val (reg (rtc_ports s) i), s'') /\ polled s s''.
Proof.
  intros (Ht & Hr & Hd & Hu & Hg) H1 H2. unfold time_read_rtc, on_ports.
  pose proof (law_register (rtc_ports s') i Hu H1 H2) as Hl.
  destruct (ports_inb _ _) as [v p']. destruct Hl as (-> & Hu' & Hg'). eexists. rewrite Hg.
  split; [done|]. unfold polled. cbn. split_and!; try done. intros r. by rewrite Hg', Hg.
Qed.

Lemma wait_update_ok s :
  Z.of_nat (updating (rtc_ports s)) < 2 ^ 64 ->
  exists s', wait_update s = Some (Val tt, s') /\ polled s s'.
Proof.
  intros Hlt.
  destruct (while_true_inv
    (fun n (_ : unit) s' => updating (rtc_ports s') = n /\ time s' = time s /\
       raw_buffer s' = raw_buffer s /\ date_buffer s' = date_buffer s /\
       forall r, reg (rtc_ports s') r = reg (rtc_ports s) r)
    (fun (_ : unit) s' => polled s s') 18446744073709551616
    (fun _ : unit => v ← time_read_rtc 0x0A; mret (if Z.land v 0x80 =? 0 then inr tt else inl tt)))
    with (n := updating (rtc_ports s)) (a := tt) (s := s) as ([] & s' & E & Hp); [|done|lia|by exists s'].
  intros n [] s1 (Hu & Ht & Hr & Hd & Hg).
  pose proof (law_poll (rtc_ports s1)) as Hl.
  unfold time_read_rtc, on_ports, mbind, M_bind. destruct (ports_inb _ _) as [v p'].
  destruct Hl as (Hv & Hu' & Hg'). destruct (Z.eqb_spec (Z.land v 128) 0) as [E|E].
  - left. do 2 eexists. split; [done|]. unfold polled. cbn. rewrite Hu'.
    apply Hv in E. rewrite E. split_and!; try done. intros r. by rewrite Hg', Hg.
  - right. exists (pred n). do 2 eexists. split; [done|]. cbn. rewrite Hu', Hu.
    assert (n <> O) by (intros ->; by apply E, Hv). split; [lia|].
    split_and!; try done. intros r. by rewrite Hg', Hg.
Qed.

Lemma update_ok s binary h24 t :
  Z.of_nat (updating (rtc_ports s)) < 2 ^ 64 -> shows binary h24 (reg (rtc_ports s)) t ->
  exists s', time_update_time s = Some (Val tt, s') /\ time s' = t /\
    raw_buffer s' = raw_buffer s /\ date_buffer s' = date_buffer s.
Proof.
  intros Hu Hs. unfold time_update_time.
  destruct (wait_update_ok s Hu) as (s0 & E0 & P0). mrun E0.
  destruct (read_register s s0 0x00 P0) as (s1 & E1 & P1); [done..|]. mrun E1.
  destruct (read_register s s1 0x02 P1) as (s2 & E2 & P2); [done..|]. mrun E2.
  destruct (read_register s s2 0x04 P2) as (s3 & E3 & P3); [done..|]. mrun E3.
  destruct (read_register s s3 0x07 P3) as (s4 & E4 & P4); [done..|]. mrun E4.
  destruct (read_register s s4 0x08 P4) as (s5 & E5 & P5); [done..|]. mrun E5.
  destruct (read_register s s5 0x09 P5) as (s6 & E6 & P6); [done..|]. mrun E6.
  destruct (read_register s s6 0x0B P6) as (s7 & E7 & P7); [done..|]. mrun E7.
  rewrite (decode_shows _ _ _ _ Hs). eexists. split; [done|]. cbn.
  destruct P7 as (_ & ? & ? & _). done.
Qed.

(** Two decimal digits. *)
Definition two (n : Z) : bytes := [n / 10 + c_0; n mod 10 + c_0].

Lemma put2_ok b i n :
  0 <= n < 100 -> 0 <= i -> i + 1 < zlen b ->
  put2 b i n = Some (<[Z.to_nat (i + 1) := n mod 10 + c_0]> (<[Z.to_nat i := n / 10 + c_0]> b)).
Proof.
  intros Hn Hi Hb. unfold put2. rewrite wr_total by lia. cbn [mbind option_bind].
  rewrite wr_total by (unfold zlen in *; rewrite length_insert; lia).
  assert (0 <= n / 10 < 10 /\ 0 <= n mod 10 < 10) as [??] by (Z.to_euclidean_division_equations; lia).
  by rewrite !u8_small by (unfold_int; unfold c_0; lia).
Qed.

Ltac put :=
  erewrite bind_lift by (first [apply put2_ok | apply wr_total];
    unfold zlen in *; rewrite ?length_insert; lia).

(** whatever format the clock uses (binary or BCD, 12 or 24 hours) and
    however long an update in progress lasts, [time_get] terminates and returns
    the text HH:MM:SS of the time the registers show, and [date_get] the text
    DD/MM/YYYY. *)
Theorem clock_text s binary h24 t :
  Z.of_nat (updating (rtc_ports s)) < 2 ^ 64 -> shows binary h24 (reg (rtc_ports s)) t ->
  zlen (raw_buffer s) = 16 -> zlen (date_buffer s) = 16 ->
  (exists s' rest, time_get s =
     Some (Val (two (hour t) ++ [c_colon] ++ two (minute t) ++ [c_colon] ++ two (second t) ++ [0] ++ rest), s')) /\
  (exists s' rest, date_get s =
     Some (Val (two (day t) ++ [c_slash] ++ two (month t) ++ [c_slash] ++
                two (year t / 100) ++ two (year t mod 100) ++ [0] ++ rest), s')).
Proof.
  intros Hu Hs Hr Hd. destruct (update_ok s binary h24 t Hu Hs) as (s' & E & Ht & Hr' & Hd').
  destruct Hs as [[? _] [? _] [? _] [? _] [? _] [? _] _ _].
  split.
  - unfold time_get. mrun E. rewrite !bind_gets, Ht, Hr'. do 6 put. rewrite bind_modify.
    destruct (raw_buffer s) as [|? [|? [|? [|? [|? [|? [|? [|? [|? rest]]]]]]]]]; try discriminate Hr.
    eexists _, rest. reflexivity.
  - unfold date_get. mrun E. rewrite !bind_gets, Ht, Hd'. do 9 put. rewrite bind_modify.
    destruct (date_buffer s) as [|? [|? [|? [|? [|? [|? [|? [|? [|? [|? [|? rest]]]]]]]]]]]; try discriminate Hd.
    eexists _, rest. rewrite !u8_small by (unfold_int; unfold c_0; Z.to_euclidean_division_equations; lia).
    replace (year t / 1000) with (year t / 100 / 10) by (Z.to_euclidean_division_equations; lia).
    replace (year t mod 1000 / 100) with (year t / 100 mod 10) by (Z.to_euclidean_division_equations; lia).
    replace (year t mod 10) with (year t mod 100 mod 10) by (Z.to_euclidean_division_equations; lia).
    reflexivity.
Qed.
End Update.

(** ** A simulated clock *)

Module SimRtc.

(** The selected register, the polls left of an update, the registers. *)
Record t := mk { index : Z; busy : nat; regs : Z -> Z }.

Definition outb (p : t) (port v : Z) : t :=
  if port =? 0x70 then mk v (busy p) (regs p) else p.

Definition inb (p : t) (port : Z) : Z * t :=
  if index p =? 0x0A
  then (match busy p with O => 0x26 | S _ => 0xA6 end, mk (index p) (pred (busy p)) (regs p))
  else (regs p (index p), p).

#[global] Instance ports : Ports t := {
  ports_inb := inb; ports_inw p _ := (0, p); ports_outb := outb; ports_outw p _ _ := p }.

#[global] Instance rtc : Rtc t.
Proof.
  refine {| reg := regs; updating := busy |}; cbn.
  - intros p. split; [|done]. by destruct (busy p).
  - intros p i Hb H1 _. unfold inb. cbn. by rewrite eqb_neq.
Defined.

(** 23:59:07 on 31/12/2024, in BCD with 12 hours; an update is in progress. *)
Definition new_year : rtc_time := RtcTime 7 59 23 31 12 2024.
Definition registers (r : Z) : Z :=
  default 0 ([0x07; 0; 0x59; 0; 0x91; 0; 0; 0x31; 0x12; 0x24; 0; 0] !! Z.to_nat r).
Definition device : clock t := Clock (RtcTime 0 0 0 0 0 0) (zeros 16) (zeros 16) (mk 0 5 registers).

Lemma device_shows : shows false false registers new_year.
Proof. constructor; vm_compute; repeat split; discriminate. Qed.

End SimRtc.

Lemma clock_text_witness :
  exists s' rest, time_get SimRtc.device = Some (Val (lit "23:59:07" ++ [0] ++ rest), s').
Proof.
  destruct (clock_text SimRtc.device false false SimRtc.new_year) as [(s' & rest & E) _];
    [done | exact SimRtc.device_shows | done..|].
  exists s', rest. rewrite E. reflexivity.
Defined.

(** the value of [time_get_epoch_seconds] is not a clock: at the end of every
    31-day month but the last it steps back by 13.5 hours, although one second
    has passed.  (Months are counted as 30.4375 days.) *)
Theorem epoch_steps_back mo y :
  1 <= mo < 12 -> 1970 <= y < 2 ^ 31 ->
  epoch_seconds (RtcTime 0 0 0 1 (mo + 1) y) =
  epoch_seconds (RtcTime 59 59 23 31 mo y) - 48599.
Proof.
  intros Hm Hy. unfold epoch_seconds. cbn [second minute hour day month year].
  rewrite !(u64_small (y - 1970)), !(u64_small (mo + 1 - 1)), !(u64_small (mo - 1)),
    !(u64_small (1 - 1)), !(u64_small (31 - 1)) by (unfold_int; lia).
  rewrite !(u64_small (_ * _)) by (unfold_int; lia).
  rewrite !(u64_small (_ + _ * 60)) by (unfold_int; lia).
  rewrite !(u64_small (_ + _ * 3600)) by (unfold_int; lia).
  rewrite !(u64_small (_ + _ * 86400)) by (unfold_int; lia).
  rewrite !(u64_small (_ + _ * 2629800)) by (unfold_int; lia).
  rewrite !u64_small by (unfold_int; lia). lia.
Qed.

Lemma epoch_steps_back_witness :
  epoch_seconds (RtcTime 0 0 0 1 2 2024) = epoch_seconds (RtcTime 59 59 23 31 1 2024) - 48599.
Proof. apply (epoch_steps_back 1 2024); lia. Defined.
