(* ===== verification/Mmu.v ===== *)
(** * Physical pages and page tables (helper/core/memory/mmu.c, kernel.c)

    Physical memory is a map from page addresses to pages of 512 words of 64
    bits; the kernel reaches it through the direct map, so a pointer
    [phys + hhdm_offset] is the physical address [phys] here.  An access to an
    address that is not RAM is undefined behaviour ([None]), and so is the
    [halt()] of [pmm_alloc_zeroed_page] when the boot loader gave no answer:
    nothing runs after it.  Translation caches are not modelled: [invlpg] and
    the reload of CR3 have no other effect on the state. *)

From S2P Require Import Prelude CMonad.

Definition PAGE_PRESENT : Z := 1.
Definition PAGE_WRITABLE : Z := 2.
Definition PAGE_USER : Z := 4.
Definition PAGE_WRITE_THROUGH : Z := 8.
Definition PAGE_CACHE_DISABLE : Z := 16.
Definition PAGE_LARGE : Z := 128.
Definition PAGE_NO_EXECUTE : Z := 2 ^ 63.
Definition PAGE_ADDRESS_MASK : Z := 0x000FFFFFFFFFF000.
Definition EFER_NXE : Z := 2 ^ 11.
Definition PAGE_USER_FLAGS : Z := Z.lor (Z.lor PAGE_PRESENT PAGE_WRITABLE) PAGE_USER.
Definition PAGE_SIZE : Z := 4096.
Definition LIMINE_MEMMAP_USABLE : Z := 0.

(** [~0xFFFULL] *)
Definition PAGE_MASK : Z := 0xFFFFFFFFFFFFF000.

Record limine_memmap_entry := MemmapEntry { e_base : Z; e_length : Z; e_type : Z }.

Record program_region_t := Region { r_start : Z; r_end : Z }.
Record program_memory_t := Program {
  regions : list program_region_t;          (* the first [region_count] of them *)
  stack_base : Z;
  stack_pages : Z;
}.

Abbreviation word := Z (only parsing).
Abbreviation page := (list Z) (only parsing).
Definition zero_page : page := replicate 512 0.

Record mmu := MMU {
  mem : gmap Z page;
  cr3 : Z;
  efer : Z;
  memmap : option (list limine_memmap_entry);   (* [memmap_request.response] *)
  hhdm : option Z;                              (* [hhdm_request.response->offset] *)
  free_page_head : Z;
  alloc_index : Z;
  alloc_offset : Z;
}.

Definition with_mem (m : gmap Z page) (s : mmu) : mmu :=
  MMU m (cr3 s) (efer s) (memmap s) (hhdm s) (free_page_head s) (alloc_index s) (alloc_offset s).
Definition with_cr3 (v : Z) (s : mmu) : mmu :=
  MMU (mem s) v (efer s) (memmap s) (hhdm s) (free_page_head s) (alloc_index s) (alloc_offset s).
Definition with_head (h : Z) (s : mmu) : mmu :=
  MMU (mem s) (cr3 s) (efer s) (memmap s) (hhdm s) h (alloc_index s) (alloc_offset s).
Definition with_carve (i o : Z) (s : mmu) : mmu :=
  MMU (mem s) (cr3 s) (efer s) (memmap s) (hhdm s) (free_page_head s) i o.

Abbreviation Mm := (M mmu).

(** ** Memory *)

Definition page_of (a : Z) : Z := Z.land a PAGE_MASK.
Definition word_of (a : Z) : Z := Z.land a 0xFFF / 8.

Definition load (a : Z) : Mm word := fun s =>
  p ← mem s !! page_of a;
  w ← rd p (word_of a);
  Some (Val w, s).

Definition store (a : Z) (w : word) : Mm unit := fun s =>
  p ← mem s !! page_of a;
  p ← wr p (word_of a) w;
  Some (Val tt, with_mem (<[page_of a := p]> (mem s)) s).

(** [memset((void * )(phys + hhdm_offset), 0, 4096)] of an aligned page. *)
Definition clear_page (a : Z) : Mm unit := fun s =>
  _ ← mem s !! a;
  Some (Val tt, with_mem (<[a := zero_page]> (mem s)) s).

(** [table[i]] for a table at the physical address [t]. *)
Definition entry_at (t i : Z) : Z := t + 8 * i.

(** [read_cr3() & ~0xFFFULL] *)
Definition current_pml4 (s : mmu) : Z := page_of (cr3 s).

Definition not_null (o : option Z) : bool := match o with Some _ => true | None => false end.

(** ** Freeing *)

Definition pmm_free_page (phys_addr : Z) : Mm unit :=
  if (phys_addr =? 0) || negb (Z.land phys_addr 0xFFF =? 0) then mret tt
  else
    head ← gets free_page_head;
    store phys_addr head;;
    modify (with_head phys_addr).

(** [level] counts down from 3; the entries are read one by one, as they are
    when their turn comes. *)
Fixpoint free_user_table (level : nat) (phys_addr : Z) : Mm unit :=
  for_loop 512 0 1 (fun i =>
    entry ← load (entry_at phys_addr i);
    if Z.land entry PAGE_USER =? 0 then mret tt
    else
      match level with
      | S (S _ as l) =>
          if negb (Z.land entry PAGE_PRESENT =? 0)
          then free_user_table l (Z.land entry PAGE_MASK) else mret tt
      | _ =>
          let child_phys := Z.land entry PAGE_ADDRESS_MASK in
          if negb (child_phys =? 0) then pmm_free_page child_phys else mret tt
      end);;
  pmm_free_page phys_addr.

(** Detach the user half: the addresses of the tables that were in use. *)
Fixpoint detach_loop (k : nat) (i pml4 : Z) : Mm (list Z) :=
  match k with
  | O => mret []
  | S k' =>
      entry ← load (entry_at pml4 i);
      t ← (if Z.land entry (Z.lor PAGE_PRESENT PAGE_USER) =? Z.lor PAGE_PRESENT PAGE_USER
           then store (entry_at pml4 i) 0;; mret (Z.land entry PAGE_MASK)
           else mret 0);
      rest ← detach_loop k' (i + 1) pml4;
      mret (t :: rest)
  end.

Fixpoint free_tables (l : list Z) : Mm unit :=
  match l with
  | [] => mret tt
  | t :: l' => (if negb (t =? 0) then free_user_table 3 t else mret tt);; free_tables l'
  end.

Definition cleanup_user_pages : Mm unit :=
  h ← gets hhdm;
  if negb (not_null h) then mret tt
  else
    pml4 ← gets current_pml4;
    user_tables ← detach_loop 256 0 pml4;
    free_tables user_tables.

(** ** Allocation *)

(** The rest of the memory map from entry [index] on: the page found and the
    new position, or the position at the end of the map. *)
Fixpoint carve (entries : list limine_memmap_entry) (index offset : Z) : option Z * Z * Z :=
  match entries with
  | [] => (None, index, offset)
  | e :: entries' =>
      if negb (e_type e =? LIMINE_MEMMAP_USABLE) then carve entries' (index + 1) 0
      else if u64 (offset + 4096) <=? e_length e
           then (Some (u64 (e_base e + offset)), index, u64 (offset + 4096))
           else carve entries' (index + 1) 0
  end.

Definition pmm_alloc_zeroed_page : Mm Z :=
  map ← gets memmap;
  h ← gets hhdm;
  match map, h with
  | Some entries, Some _ =>
      head ← gets free_page_head;
      if negb (head =? 0) then
        next ← load head;
        modify (with_head next);;
        clear_page head;;
        mret head
      else
        index ← gets alloc_index;
        offset ← gets alloc_offset;
        match carve (drop (Z.to_nat index) entries) index offset with
        | (Some phys_addr, i, o) =>
            modify (with_carve i o);;
            clear_page phys_addr;;
            mret phys_addr
        | (None, i, o) =>
            modify (with_carve i o);;
            cleanup_user_pages;;
            mret 0
        end
  | _, _ => lift None
  end.

(** [while (current_free != 0)]: [k] bounds the length of the free list. *)
Fixpoint count_free (k : nat) (current_free free_pages : Z) : Mm Z :=
  match k with
  | O => lift None
  | S k' =>
      if current_free =? 0 then mret free_pages
      else
        h ← gets hhdm;
        if default 0 h =? 0 then mret (free_pages + 1)
        else
          next ← load current_free;
          count_free k' next (free_pages + 1)
  end.

Fixpoint count_usable (entries : list limine_memmap_entry) (free_pages : Z) : Z :=
  match entries with
  | [] => free_pages
  | e :: entries' =>
      count_usable entries'
        (if e_type e =? LIMINE_MEMMAP_USABLE then u64 (free_pages + e_length e / 4096) else free_pages)
  end.

(** A free list of [n] pages needs [n + 1] rounds. *)
Definition pmm_get_free_page_count (rounds : nat) : Mm Z :=
  map ← gets memmap;
  match map with
  | None => mret 0
  | Some entries =>
      head ← gets free_page_head;
      n ← count_free rounds head 0;
      mret (count_usable entries n)
  end.

(** ** Address spaces *)

Fixpoint copy_words (k : nat) (i from to : Z) : Mm unit :=
  match k with
  | O => mret tt
  | S k' =>
      w ← load (entry_at from i);
      store (entry_at to i) w;;
      copy_words k' (i + 1) from to
  end.

Definition create_user_pml4 : Mm Z := fn (
  h ← gets hhdm;
  if negb (not_null h) then exit 0 else
  new_pml4_phys ← pmm_alloc_zeroed_page;
  if new_pml4_phys =? 0 then exit 0 else
  pml4 ← gets current_pml4;
  copy_words 256 256 pml4 new_pml4_phys;;
  mret new_pml4_phys).

Definition switch_user_pml4 (pml4_phys : Z) : Mm unit :=
  if negb (pml4_phys =? 0) then modify (with_cr3 (page_of pml4_phys)) else mret tt.

Definition destroy_user_pml4 (pml4_phys : Z) : Mm unit :=
  h ← gets hhdm;
  if (pml4_phys =? 0) || negb (not_null h) then mret tt
  else
    current_cr3 ← gets current_pml4;
    let target_cr3 := page_of pml4_phys in
    (if negb (current_cr3 =? target_cr3) then modify (with_cr3 target_cr3) else mret tt);;
    cleanup_user_pages;;
    (if negb (current_cr3 =? target_cr3) then modify (with_cr3 current_cr3) else mret tt);;
    pmm_free_page target_cr3.

Fixpoint save_entries (k : nat) (i pml4 : Z) : Mm (list Z) :=
  match k with
  | O => mret []
  | S k' =>
      w ← load (entry_at pml4 i);
      store (entry_at pml4 i) 0;;
      rest ← save_entries k' (i + 1) pml4;
      mret (w :: rest)
  end.

(** [Some]: the 256 entries stored in [page_table_context], which is not NULL. *)
Definition suspend_user_pages : Mm (option (list Z)) :=
  h ← gets hhdm;
  if negb (not_null h) then mret None
  else
    pml4 ← gets current_pml4;
    l ← save_entries 256 0 pml4;
    mret (Some l).

Fixpoint put_entries (l : list Z) (i pml4 : Z) : Mm unit :=
  match l with
  | [] => mret tt
  | w :: l' => store (entry_at pml4 i) w;; put_entries l' (i + 1) pml4
  end.

Definition restore_user_pages (page_table_context : list Z) : Mm bool :=
  h ← gets hhdm;
  if negb (not_null h) then mret false
  else
    cleanup_user_pages;;
    pml4 ← gets current_pml4;
    put_entries page_table_context 0 pml4;;
    mret true.

(** ** Mapping *)

Definition pml4_index (v : Z) : Z := Z.land (Z.shiftr v 39) 0x1FF.
Definition pdpt_index (v : Z) : Z := Z.land (Z.shiftr v 30) 0x1FF.
Definition pd_index (v : Z) : Z := Z.land (Z.shiftr v 21) 0x1FF.
Definition pt_index (v : Z) : Z := Z.land (Z.shiftr v 12) 0x1FF.

Definition get_or_alloc_table (table index : Z) : Mm Z :=
  entry ← load (entry_at table index);
  (if Z.land entry PAGE_PRESENT =? 0 then
     p ← pmm_alloc_zeroed_page;
     store (entry_at table index) (Z.lor p PAGE_USER_FLAGS)
   else
     store (entry_at table index) (Z.lor entry PAGE_USER_FLAGS));;
  entry ← load (entry_at table index);
  mret (Z.land entry PAGE_MASK).

Definition map_user_page (virt_addr phys_addr : Z) : Mm unit :=
  h ← gets hhdm;
  _ ← lift h;
  pml4 ← gets current_pml4;
  pdpt ← get_or_alloc_table pml4 (pml4_index virt_addr);
  pd ← get_or_alloc_table pdpt (pdpt_index virt_addr);
  pt ← get_or_alloc_table pd (pd_index virt_addr);
  store (entry_at pt (pt_index virt_addr)) (Z.lor (Z.land phys_addr PAGE_MASK) PAGE_USER_FLAGS).

(** The descent of [map_kernel_mmio_page]: the last table, or [None] for the
    result 0. *)
Fixpoint mmio_walk (indices : list Z) (table : Z) : Mm (option Z) :=
  match indices with
  | [] => mret (Some table)
  | i :: rest =>
      entry ← load (entry_at table i);
      if negb (Z.land entry PAGE_PRESENT =? 0) then
        if negb (Z.land entry PAGE_LARGE =? 0) then mret None
        else mmio_walk rest (Z.land entry PAGE_ADDRESS_MASK)
      else
        next ← pmm_alloc_zeroed_page;
        if next =? 0 then mret None
        else
          store (entry_at table i) (Z.lor (Z.lor next PAGE_PRESENT) PAGE_WRITABLE);;
          mmio_walk rest next
  end.

Definition mmio_flags : Z :=
  Z.lor (Z.lor (Z.lor PAGE_PRESENT PAGE_WRITABLE) PAGE_WRITE_THROUGH) PAGE_CACHE_DISABLE.

Definition map_kernel_mmio_page (virt_addr phys_addr : Z) : Mm Z := fn (
  h ← gets hhdm;
  if negb (not_null h) || negb (Z.land virt_addr 0xFFF =? 0) || negb (Z.land phys_addr 0xFFF =? 0)
  then exit 0 else
  root ← gets (fun s => Z.land (cr3 s) PAGE_ADDRESS_MASK);
  t ← mmio_walk [pml4_index virt_addr; pdpt_index virt_addr; pd_index virt_addr] root;
  match t with
  | None => exit 0
  | Some table =>
      let slot := entry_at table (pt_index virt_addr) in
      entry ← load slot;
      if negb (Z.land entry PAGE_PRESENT =? 0) &&
         negb (Z.land entry PAGE_ADDRESS_MASK =? Z.land phys_addr PAGE_ADDRESS_MASK)
      then exit 0
      else
        e ← gets efer;
        let entry := Z.lor (Z.land phys_addr PAGE_ADDRESS_MASK) mmio_flags in
        store slot (if negb (Z.land e EFER_NXE =? 0) then Z.lor entry PAGE_NO_EXECUTE else entry);;
        mret virt_addr
  end).

(** The descent shared by the functions on one user page: the address of the
    last entry, or [None] when a level is not a present user table. *)
Fixpoint user_walk (indices : list Z) (table : Z) : Mm (option Z) :=
  match indices with
  | [] => mret (Some table)
  | i :: rest =>
      entry ← load (entry_at table i);
      if negb (Z.land entry (Z.lor PAGE_PRESENT PAGE_USER) =? Z.lor PAGE_PRESENT PAGE_USER)
      then mret None
      else user_walk rest (Z.land entry PAGE_MASK)
  end.

Definition user_slot (virt_addr : Z) : Mm (option Z) :=
  h ← gets hhdm;
  if negb (not_null h) then mret None
  else
    root ← gets current_pml4;
    t ← user_walk [pml4_index virt_addr; pdpt_index virt_addr; pd_index virt_addr] root;
    mret ((fun t => entry_at t (pt_index virt_addr)) <$> t).

Definition user_page_mapped (virt_addr : Z) : Mm bool :=
  slot ← user_slot virt_addr;
  match slot with
  | None => mret false
  | Some slot =>
      entry ← load slot;
      mret (negb (Z.land entry PAGE_USER =? 0) && negb (Z.land entry PAGE_ADDRESS_MASK =? 0))
  end.

Definition unmap_user_page (virt_addr : Z) : Mm bool :=
  slot ← user_slot virt_addr;
  match slot with
  | None => mret false
  | Some slot =>
      entry ← load slot;
      let phys_addr := Z.land entry PAGE_ADDRESS_MASK in
      if (Z.land entry PAGE_USER =? 0) || (phys_addr =? 0) then mret false
      else
        store slot 0;;
        pmm_free_page phys_addr;;
        mret true
  end.

(** [*entry &= ~(PAGE_PRESENT | PAGE_WRITABLE | PAGE_NO_EXECUTE)] and the bits
    set again. *)
Definition protect_bits (entry : Z) (present write_access no_execute : bool) : Z :=
  let entry := Z.ldiff entry (Z.lor (Z.lor PAGE_PRESENT PAGE_WRITABLE) PAGE_NO_EXECUTE) in
  let entry := if present then Z.lor entry PAGE_PRESENT else entry in
  let entry := if write_access then Z.lor entry PAGE_WRITABLE else entry in
  if no_execute then Z.lor entry PAGE_NO_EXECUTE else entry.

Definition protect_user_page (virt_addr : Z) (present write_access execute_access : bool) : Mm bool :=
  slot ← user_slot virt_addr;
  match slot with
  | None => mret false
  | Some slot =>
      entry ← load slot;
      if (Z.land entry PAGE_USER =? 0) || (Z.land entry PAGE_ADDRESS_MASK =? 0) then mret false
      else
        e ← gets efer;
        store slot (protect_bits entry present write_access
                      (negb execute_access && negb (Z.land e EFER_NXE =? 0)));;
        mret true
  end.

(** ** Programs *)

Definition unmap_if_mapped (addr : Z) : Mm unit :=
  m ← user_page_mapped addr;
  if (m : bool) then unmap_user_page addr;; mret tt else mret tt.

(** [for (addr = start; addr < end; addr += PAGE_SIZE)]: the rounds are those of
    the exact count, as long as [end] is not within a page of 2^64. *)
Definition unmap_region (r : program_region_t) : Mm unit :=
  for_loop (Z.to_nat ((r_end r - r_start r + PAGE_SIZE - 1) / PAGE_SIZE)) (r_start r) PAGE_SIZE
    unmap_if_mapped.

Fixpoint unmap_regions (l : list program_region_t) : Mm unit :=
  match l with
  | [] => mret tt
  | r :: l' => unmap_region r;; unmap_regions l'
  end.

Definition cleanup_program_pages (program : option program_memory_t) : Mm unit :=
  match program with
  | None => mret tt
  | Some program =>
      unmap_regions (regions program);;
      for_loop (Z.to_nat (stack_pages program)) 0 1
        (fun i => unmap_if_mapped (u64 (stack_base program + u64 (i * PAGE_SIZE))))
  end.

(** [memcpy] of bytes to physical memory: eight bytes make a word. *)
Definition put_byte (w : word) (k b : Z) : word :=
  Z.lor (Z.ldiff w (Z.shiftl 255 (8 * k))) (Z.shiftl b (8 * k)).

Definition store_byte (a b : Z) : Mm unit :=
  let slot := Z.ldiff a 7 in
  w ← load slot;
  store slot (put_byte w (Z.land a 7) b).

Fixpoint store_bytes (a : Z) (bs : bytes) : Mm unit :=
  match bs with
  | [] => mret tt
  | b :: bs' => store_byte a b;; store_bytes (a + 1) bs'
  end.

Definition setup_ring3_memory (user_code_virt user_stack_virt : Z) (user_code : bytes) (code_size : Z)
  : Mm unit :=
  for_loop (Z.to_nat ((code_size + 4095) / 4096)) 0 4096 (fun offset =>
    code_phys ← pmm_alloc_zeroed_page;
    let bytes_to_copy := if 4096 <? code_size - offset then 4096 else code_size - offset in
    chunk ← lift (slice user_code offset bytes_to_copy);
    store_bytes code_phys chunk;;
    map_user_page (u64 (user_code_virt + offset)) code_phys);;
  stack_phys ← pmm_alloc_zeroed_page;
  if stack_phys =? 0 then mret tt
  else
    map_user_page user_stack_virt stack_phys;;
    let user_data_virt := u64 (user_stack_virt - 8192) in
    for_loop 2 0 1 (fun i =>
      data_phys ← pmm_alloc_zeroed_page;
      map_user_page (u64 (user_data_virt + i * 4096)) data_phys).

(** ** The kernel heap (kernel.c) *)

(** The static variable [current_heap_ptr]; [endkernel] is the address of the
    linker symbol. *)
Definition first_usable (l : list limine_memmap_entry) : Z :=
  match filter (fun e => e_type e = LIMINE_MEMMAP_USABLE) l with
  | e :: _ => e_base e
  | [] => 0
  end.

Definition kmalloc (endkernel : Z) (map : option (list limine_memmap_entry))
  (current_heap_ptr size : Z) : Z * Z :=
  let start :=
    if current_heap_ptr =? 0 then
      let p := match map with Some l => first_usable l | None => 0 end in
      if p =? 0 then endkernel else p
    else current_heap_ptr in
  let alloc := Z.land (u64 (start + 15)) 0xFFFFFFFFFFFFFFF0 in
  (alloc, u64 (alloc + size)).

Definition kfree (ptr : Z) : unit := tt.
