(* ===== verification/Pmm.v ===== *)
(** * The physical page allocator as a stack of pages

    [pmm_ok s l] says that [l] are the pages the allocator still has to give:
    first the free list, linked through the first words of the pages, then what
    is left of the memory map.  Allocation pops a page and clears it, freeing
    pushes one: the allocator refines a stack.  All pages of [l] are different,
    so a page is never handed out twice. *)

From S2P Require Import Prelude CMonad Mmu.

(** ** Addresses *)

Definition aligned (p : Z) : Prop := 0 <= p < 2 ^ 64 /\ p mod 4096 = 0.

Lemma land_mask x n k :
  0 <= n -> 0 <= k -> 0 <= x < 2 ^ (n + k) -> Z.land x (Z.shiftl (Z.ones k) n) = x / 2 ^ n * 2 ^ n.
Proof.
  intros Hn Hk Hx. rewrite <- Z.shiftl_mul_pow2, <- Z.shiftr_div_pow2 by lia.
  apply Z.bits_inj'. intros i Hi. rewrite Z.land_spec, !Z.shiftl_spec by lia.
  destruct (Z.lt_ge_cases i n) as [Hlt|Hge].
  - rewrite !(Z.testbit_neg_r _ (i - n)) by lia. by rewrite andb_false_r.
  - rewrite Z.shiftr_spec by lia. replace (i - n + n) with i by lia.
    destruct (Z.lt_ge_cases i (n + k)) as [Hlt|Hge'].
    + rewrite Z.ones_spec_low by lia. apply andb_true_r.
    + assert (Z.testbit x i = false) as ->; [|done]. apply Z.testbit_false; [lia|].
      rewrite Z.div_small; [done|].
      split; [lia|]. eapply Z.lt_le_trans; [apply Hx|]. apply Z.pow_le_mono_r; lia.
Qed.

Lemma page_of_div x : 0 <= x < 2 ^ 64 -> page_of x = x / 4096 * 4096.
Proof. intros. exact (land_mask x 12 52 ltac:(lia) ltac:(lia) ltac:(done)). Qed.

Lemma page_of_aligned p : aligned p -> page_of p = p.
Proof. intros [? E]. rewrite page_of_div by done. Z.to_euclidean_division_equations; lia. Qed.

Lemma low_bits p : 0 <= p -> Z.land p 0xFFF = p mod 4096.
Proof. intros. exact (land_ones_mod p 12 ltac:(lia)). Qed.

Lemma entry_page p i : aligned p -> 0 <= i < 512 -> page_of (entry_at p i) = p.
Proof.
  intros [? E] Hi. unfold entry_at. rewrite page_of_div by (Z.to_euclidean_division_equations; lia).
  Z.to_euclidean_division_equations; lia.
Qed.

Lemma entry_word p i : aligned p -> 0 <= i < 512 -> word_of (entry_at p i) = i.
Proof.
  intros [? E] Hi. unfold word_of, entry_at. rewrite low_bits by lia.
  Z.to_euclidean_division_equations; lia.
Qed.

(** ** Loads and stores *)

(** Every page of RAM has 512 words. *)
Definition ram_ok (m : gmap Z page) : Prop := map_Forall (fun _ pg => length pg = 512%nat) m.

Lemma load_entry s t pg i w :
  aligned t -> 0 <= i < 512 -> mem s !! t = Some pg -> rd pg i = Some w ->
  load (entry_at t i) s = Some (Val w, s).
Proof. intros Ha Hi Hp Hw. unfold load. rewrite entry_page, entry_word, Hp by done. cbn. by rewrite Hw. Qed.

Lemma store_entry s t pg i w :
  aligned t -> 0 <= i < 512 -> mem s !! t = Some pg -> length pg = 512%nat ->
  store (entry_at t i) w s = Some (Val tt, with_mem (<[t := <[Z.to_nat i := w]> pg]> (mem s)) s).
Proof.
  intros Ha Hi Hp Hl. unfold store. rewrite entry_page, entry_word, Hp by done. cbn [mbind option_bind].
  rewrite wr_total by (unfold zlen; lia). done.
Qed.

Lemma entry_first p : entry_at p 0 = p.
Proof. unfold entry_at. lia. Qed.

Lemma load_first s p pg w :
  aligned p -> mem s !! p = Some pg -> rd pg 0 = Some w -> load p s = Some (Val w, s).
Proof. intros Hp Hm Hw. rewrite <- (entry_first p) at 1. by apply (load_entry s p pg 0 w). Qed.

Lemma store_first s p pg w :
  aligned p -> mem s !! p = Some pg -> length pg = 512%nat ->
  store p w s = Some (Val tt, with_mem (<[p := <[0%nat := w]> pg]> (mem s)) s).
Proof. intros Hp Hm Hw. rewrite <- (entry_first p) at 1. by apply (store_entry s p pg 0 w). Qed.

(** ** The pages left *)

Fixpoint chain (m : gmap Z page) (head : Z) (l : list Z) : Prop :=
  match l with
  | [] => head = 0
  | p :: l' => head = p /\ exists pg next, m !! p = Some pg /\ rd pg 0 = Some next /\ chain m next l'
  end.

(** The pages of an entry from [offset] on. *)
Definition entry_pages (e : limine_memmap_entry) (offset : Z) : list Z :=
  (fun k => e_base e + offset + 4096 * Z.of_nat k) <$> seq 0 (Z.to_nat ((e_length e - offset) / 4096)).

Fixpoint carvable (entries : list limine_memmap_entry) (offset : Z) : list Z :=
  match entries with
  | [] => []
  | e :: entries' =>
      (if e_type e =? LIMINE_MEMMAP_USABLE then entry_pages e offset else []) ++ carvable entries' 0
  end.

Definition entry_ok (e : limine_memmap_entry) : Prop :=
  0 <= e_base e /\ 0 <= e_length e /\ e_base e + e_length e + 4096 < 2 ^ 64.

Record pmm_ok (s : mmu) (l : list Z) : Prop := {
  pmm_hhdm : is_Some (hhdm s);
  pmm_ram : ram_ok (mem s);
  pmm_nodup : NoDup l;
  pmm_pages : Forall (fun p => aligned p /\ p <> 0 /\ is_Some (mem s !! p)) l;
  pmm_split : exists entries fl, memmap s = Some entries /\ Forall entry_ok entries /\
    l = fl ++ carvable (drop (Z.to_nat (alloc_index s)) entries) (alloc_offset s) /\
    chain (mem s) (free_page_head s) fl /\ 0 <= alloc_index s /\ 0 <= alloc_offset s < 2 ^ 64 - 4096;
}.

(** The chain only depends on its own pages. *)
Lemma chain_agree m m' head l :
  (forall p, p ∈ l -> m' !! p = m !! p) -> chain m head l -> chain m' head l.
Proof.
  revert head. induction l as [|p l IH]; intros head Hag; [done|].
  intros (-> & pg & next & Hp & Hn & Hc). split; [done|]. exists pg, next.
  rewrite Hag by apply list_elem_of_here. split_and!; try done. apply IH; [|done].
  intros q Hq. apply Hag. by apply list_elem_of_further.
Qed.

Lemma entry_pages_cons e offset :
  0 <= offset -> offset + 4096 <= e_length e ->
  entry_pages e offset = (e_base e + offset) :: entry_pages e (offset + 4096).
Proof.
  intros Ho Hl. unfold entry_pages.
  replace (Z.to_nat ((e_length e - offset) / 4096))
    with (S (Z.to_nat ((e_length e - (offset + 4096)) / 4096))) by (Z.to_euclidean_division_equations; lia).
  cbn [seq fmap list_fmap]. f_equal; [lia|]. rewrite <- fmap_S_seq, <- list_fmap_compose.
  apply list_fmap_ext. intros. cbn. lia.
Qed.

Lemma entry_pages_nil e offset :
  e_length e < offset + 4096 -> entry_pages e offset = [].
Proof.
  intros. unfold entry_pages. replace (Z.to_nat ((e_length e - offset) / 4096)) with O; [done|].
  Z.to_euclidean_division_equations; lia.
Qed.

(** Carving finds the first page left, or there is none. *)
Lemma carve_ok entries index offset :
  Forall entry_ok entries -> 0 <= index -> 0 <= offset < 2 ^ 64 - 4096 ->
  match carve entries index offset with
  | (Some p, i, o) =>
      exists k, i = index + Z.of_nat k /\ 0 <= o < 2 ^ 64 - 4096 /\
        carvable entries offset = p :: carvable (drop k entries) o
  | (None, i, o) =>
      carvable entries offset = [] /\ i = index + Z.of_nat (length entries) /\ 0 <= o < 2 ^ 64 - 4096
  end.
Proof.
  revert index offset. induction entries as [|e entries IH]; intros index offset He Hi Ho.
  { cbn. split; [done|]. split; [lia | done]. }
  apply Forall_cons in He as [(Hb & Hlen & Hsum) He]. cbn [carve carvable].
  destruct (Z.eqb_spec (e_type e) LIMINE_MEMMAP_USABLE) as [Hu|Hu]; cbn [negb].
  - rewrite (u64_small (offset + 4096)) by (unfold_int; lia).
    destruct (Z.leb_spec (offset + 4096) (e_length e)) as [Hfit|Hfit].
    + exists O. rewrite (u64_small (e_base e + offset)) by (unfold_int; lia). split; [lia|]. split; [lia|].
      rewrite entry_pages_cons by lia. cbn [drop carvable]. by rewrite Hu.
    + rewrite entry_pages_nil by lia. cbn [app].
      specialize (IH (index + 1) 0 He ltac:(lia) ltac:(lia)).
      destruct (carve entries (index + 1) 0) as [[[p|] i] o].
      * destruct IH as (k & -> & Ho' & E). exists (S k). split; [lia|]. by split.
      * destruct IH as (E & -> & Ho'). split; [done|]. split; [cbn [length]; lia | done].
  - cbn [app]. specialize (IH (index + 1) 0 He ltac:(lia) ltac:(lia)).
    destruct (carve entries (index + 1) 0) as [[[p|] i] o].
    + destruct IH as (k & -> & Ho' & E). exists (S k). split; [lia|]. by split.
    + destruct IH as (E & -> & Ho'). split; [done|]. split; [cbn [length]; lia | done].
Qed.

Lemma pages_insert s p pg l :
  Forall (fun q => aligned q /\ q <> 0 /\ is_Some (mem s !! q)) l ->
  Forall (fun q => aligned q /\ q <> 0 /\ is_Some (<[p := pg]> (mem s) !! q)) l.
Proof.
  intros Hl. eapply Forall_impl; [exact Hl|]. intros q (? & ? & ?). split_and!; try done.
  apply lookup_insert_is_Some'. by right.
Qed.

Lemma ram_insert m p pg : ram_ok m -> length pg = 512%nat -> ram_ok (<[p := pg]> m).
Proof. intros. by apply map_Forall_insert_2. Qed.

(** What allocation leaves alone. *)
Definition same_machine (s s' : mmu) : Prop :=
  cr3 s' = cr3 s /\ efer s' = efer s /\ memmap s' = memmap s /\ hhdm s' = hhdm s.

Lemma clear_page_ok s p : is_Some (mem s !! p) ->
  clear_page p s = Some (Val tt, with_mem (<[p := zero_page]> (mem s)) s).
Proof. intros [pg E]. unfold clear_page. by rewrite E. Qed.

Lemma alloc_page_ok s p l :
  pmm_ok s (p :: l) ->
  exists s', pmm_alloc_zeroed_page s = Some (Val p, s') /\ pmm_ok s' l /\
    mem s' = <[p := zero_page]> (mem s) /\ same_machine s s'.
Proof.
  intros [[h Hh] Hram Hnd Hpg (entries & fl & Hmap & He & Hl & Hc & Hi & Ho)].
  apply NoDup_cons in Hnd as [Hfresh Hnd]. apply Forall_cons in Hpg as [(Hal & Hnz & Hin) Hpg].
  unfold pmm_alloc_zeroed_page. rewrite !bind_gets, Hmap, Hh, bind_gets.
  assert (ram_ok (<[p := zero_page]> (mem s))) as Hram' by by apply ram_insert.
  destruct fl as [|q fl].
  - cbn in Hc, Hl. rewrite Hc. cbn [Z.eqb negb]. rewrite !bind_gets.
    pose proof (carve_ok (drop (Z.to_nat (alloc_index s)) entries) (alloc_index s) (alloc_offset s)) as Hcarve.
    rewrite <- Hl in Hcarve.
    destruct (carve _ _ _) as [[[p'|] i] o].
    2: { by destruct Hcarve as (E & _); [by apply Forall_drop | ..]. }
    destruct Hcarve as (k & -> & Ho' & [= <- E]); [by apply Forall_drop | done.. |].
    rewrite bind_modify, (bind_val _ _ _ _ _ (clear_page_ok (with_carve _ _ s) p Hin)).
    eexists. split; [done|]. split; [|by split_and!].
    constructor; cbn; try done; [by apply pages_insert|].
    exists entries, []. rewrite drop_drop in E.
    replace (Z.to_nat (alloc_index s + Z.of_nat k)) with (Z.to_nat (alloc_index s) + k)%nat by lia.
    split_and!; try done; lia.
  - destruct Hc as (Hq & pg & next & Hp & Hn & Hc). injection Hl as -> Hl. rewrite Hq.
    rewrite eqb_neq by done. cbn [negb].
    mrun (load_first s q pg next Hal Hp Hn). rewrite bind_modify, (bind_val _ _ _ _ _ (clear_page_ok (with_head _ s) q Hin)).
    eexists. split; [done|]. split; [|by split_and!].
    constructor; cbn; try done; [by apply pages_insert|].
    exists entries, fl. split_and!; try done; [|lia..]. eapply chain_agree; [|done].
    intros x Hx. apply lookup_insert_ne. intros ->. apply Hfresh. rewrite Hl. apply elem_of_app. by left.
Qed.

Lemma free_page_ok s p l :
  pmm_ok s l -> aligned p -> p <> 0 -> is_Some (mem s !! p) -> p ∉ l ->
  exists s' pg pg', pmm_free_page p s = Some (Val tt, s') /\ pmm_ok s' (p :: l) /\
    mem s !! p = Some pg /\ mem s' = <[p := pg']> (mem s) /\ same_machine s s' /\
    drop 1 pg' = drop 1 pg.
Proof.
  intros [[h Hh] Hram Hnd Hpg (entries & fl & Hmap & He & Hl & Hc & Hi & Ho)] Hal Hnz [pg Hin] Hfresh.
  unfold pmm_free_page. rewrite eqb_neq, low_bits by (done || destruct Hal; lia).
  rewrite (proj2 Hal). cbn [Z.eqb negb orb]. rewrite bind_gets.
  pose proof (Hram _ _ Hin) as Hlen. cbn in Hlen.
  mrun (store_first s p pg (free_page_head s) Hal Hin Hlen). eexists _, pg, _. split; [done|]. split; [|split_and!; try done; by destruct pg].
  constructor; cbn; try done.
  - apply ram_insert; [done|]. by rewrite length_insert.
  - by apply NoDup_cons.
  - apply Forall_cons. split; [|by apply pages_insert]. split_and!; try done. rewrite lookup_insert_eq. by eexists.
  - exists entries, (p :: fl). split_and!; try done; [by rewrite Hl| |lia..].
    cbn. split; [done|]. eexists _, _. rewrite lookup_insert_eq. split; [done|].
    destruct pg as [|w pg]; [done|]. split; [done|].
    eapply chain_agree; [|done]. intros x Hx. apply lookup_insert_ne. intros ->.
    apply Hfresh. rewrite Hl. apply elem_of_app. by left.
Qed.

(** C7: the physical page allocator is a stack of distinct pages.  While pages are
    left, allocation returns one of them, cleared, changes no other page and
    has that page no longer; freeing a page that is not in the allocator makes
    it the next one to be allocated and changes only its first word.  When no
    page is left, allocation tears down the user half of the current address
    space and returns 0. *)
Theorem pmm_refines_stack s l :
  pmm_ok s l ->
  (forall p rest, l = p :: rest ->
     exists s', pmm_alloc_zeroed_page s = Some (Val p, s') /\ pmm_ok s' rest /\
       mem s' = <[p := zero_page]> (mem s) /\ same_machine s s') /\
  (forall p, aligned p -> p <> 0 -> is_Some (mem s !! p) -> p ∉ l ->
     exists s' s'', pmm_free_page p s = Some (Val tt, s') /\ pmm_ok s' (p :: l) /\
       pmm_alloc_zeroed_page s' = Some (Val p, s'') /\ pmm_ok s'' l /\
       mem s'' = <[p := zero_page]> (mem s)) /\
  (l = [] -> exists i o, pmm_alloc_zeroed_page s =
     (cleanup_user_pages;; mret 0) (with_carve i o s)).
Proof.
  intros Hok. split_and!.
  - intros p rest ->. by apply alloc_page_ok.
  - intros p Hal Hnz Hin Hfresh.
    destruct (free_page_ok s p l Hok Hal Hnz Hin Hfresh) as (s' & pg & pg' & E & Hok' & Hp & Hm & _).
    destruct (alloc_page_ok s' p l Hok') as (s'' & E' & Hok'' & Hm' & _).
    exists s', s''. split_and!; try done. by rewrite Hm', Hm, insert_insert_eq.
  - intros ->. destruct Hok as [[h Hh] _ _ _ (entries & fl & Hmap & He & Hl & Hc & Hi & Ho)].
    destruct fl; [|done]. cbn in Hc, Hl.
    pose proof (carve_ok (drop (Z.to_nat (alloc_index s)) entries) (alloc_index s) (alloc_offset s)) as Hcarve.
    rewrite <- Hl in Hcarve. unfold pmm_alloc_zeroed_page. rewrite !bind_gets, Hmap, Hh, bind_gets, Hc.
    cbn [Z.eqb negb]. rewrite !bind_gets. destruct (carve _ _ _) as [[[p'|] i] o].
    { by destruct Hcarve as (k & _ & _ & E); [by apply Forall_drop | ..]. }
    exists i, o. by rewrite bind_modify.
Qed.
