(* ===== verification/PageTable.v ===== *)
(** * User page tables

    The tables of an address space form a tree.  [as_ok s l paths] gives every
    table the list of indices that leads to it from the root ([paths]), says
    that the entries of the tables agree with it, and that no table is among
    the pages [l] the allocator still has.  Because [paths] is a function of
    the page, two different virtual pages never share a table entry, which is
    what makes mapping one page leave the others alone. *)

From S2P Require Import Prelude CMonad Mmu Pmm.

Definition USER_BITS : Z := Z.lor PAGE_PRESENT PAGE_USER.

(** The slots that belong to the user half. *)
Definition user_slot_ok (path : list Z) (i : Z) : Prop :=
  0 <= i < 512 /\ (path = [] -> i < 256).

Record as_ok (s : mmu) (l : list Z) (paths : gmap Z (list Z)) : Prop := {
  as_pmm : pmm_ok s l;
  as_root : paths !! (current_pml4 s) = Some [];
  as_root_only t : paths !! t = Some [] -> t = current_pml4 s;
  as_table t path : paths !! t = Some path ->
    aligned t /\ t <> 0 /\ is_Some (mem s !! t) /\ (t ∉ l) /\ (length path <= 3)%nat;
  (* a present entry leads to the table with the longer path *)
  as_down t path pg i e :
    paths !! t = Some path -> (length path < 3)%nat -> user_slot_ok path i ->
    mem s !! t = Some pg -> rd pg i = Some e -> Z.land e PAGE_PRESENT <> 0 ->
    Z.land e USER_BITS = USER_BITS /\ paths !! (Z.land e PAGE_MASK) = Some (path ++ [i]);
  (* a table is reached from its parent *)
  as_up t path i : paths !! t = Some (path ++ [i]) ->
    exists u pg e, paths !! u = Some path /\ user_slot_ok path i /\ mem s !! u = Some pg /\
      rd pg i = Some e /\ Z.land e USER_BITS = USER_BITS /\ Z.land e PAGE_MASK = t;
}.

(** The table reached from [t] along a path. *)
Fixpoint walk_to (m : gmap Z page) (t : Z) (path : list Z) : option Z :=
  match path with
  | [] => Some t
  | i :: path' =>
      pg ← m !! t;
      e ← rd pg i;
      if Z.land e USER_BITS =? USER_BITS then walk_to m (Z.land e PAGE_MASK) path' else None
  end.

Definition user_indices (v : Z) : list Z := [pml4_index v; pdpt_index v; pd_index v].

(** The last-level entry of a mapped page. *)
Definition mapping (s : mmu) (v : Z) : option word :=
  t ← walk_to (mem s) (current_pml4 s) (user_indices v);
  pg ← mem s !! t;
  e ← rd pg (pt_index v);
  if negb (Z.land e PAGE_USER =? 0) && negb (Z.land e PAGE_ADDRESS_MASK =? 0) then Some e else None.

(** ** Entry words *)

Lemma present_of_user e : Z.land e USER_BITS = USER_BITS -> Z.land e PAGE_PRESENT <> 0.
Proof.
  intros E. apply (f_equal (fun x => Z.land x 1)) in E. rewrite <- Z.land_assoc in E.
  change (Z.land e 1 = 1) in E. change (Z.land e 1 <> 0). lia.
Qed.

Lemma flags_user e : Z.land (Z.lor e PAGE_USER_FLAGS) USER_BITS = USER_BITS.
Proof.
  rewrite Z.land_lor_distr_l. change (Z.land PAGE_USER_FLAGS USER_BITS) with USER_BITS.
  apply Z.bits_inj'. intros i Hi. rewrite Z.lor_spec, Z.land_spec. by destruct (Z.testbit USER_BITS i), (Z.testbit e i).
Qed.

Lemma flags_child e : Z.land (Z.lor e PAGE_USER_FLAGS) PAGE_MASK = Z.land e PAGE_MASK.
Proof.
  rewrite Z.land_lor_distr_l. change (Z.land PAGE_USER_FLAGS PAGE_MASK) with 0. apply Z.lor_0_r.
Qed.

Lemma flags_child_page p : aligned p -> Z.land (Z.lor p PAGE_USER_FLAGS) PAGE_MASK = p.
Proof. intros. rewrite flags_child. by apply page_of_aligned. Qed.

(** The physical address in an entry. *)
Lemma address_bits e : Z.land e PAGE_ADDRESS_MASK = e mod 2 ^ 52 / 4096 * 4096.
Proof.
  change PAGE_ADDRESS_MASK with (Z.land (Z.ones 52) (Z.shiftl (Z.ones 40) 12)).
  rewrite Z.land_assoc, Z.land_ones by lia. apply (land_mask _ 12 40); [lia..|].
  apply Z.mod_pos_bound. lia.
Qed.

Lemma address_of_page p : 0 <= p < 2 ^ 52 -> p mod 4096 = 0 ->
  Z.land (Z.lor p PAGE_USER_FLAGS) PAGE_ADDRESS_MASK = p.
Proof.
  intros Hp Hm. rewrite Z.land_lor_distr_l. change (Z.land PAGE_USER_FLAGS PAGE_ADDRESS_MASK) with 0.
  rewrite Z.lor_0_r, address_bits, Z.mod_small by lia. Z.to_euclidean_division_equations; lia.
Qed.

Lemma address_aligned e : aligned (Z.land e PAGE_ADDRESS_MASK).
Proof.
  rewrite address_bits. pose proof (Z.mod_pos_bound e (2 ^ 52) ltac:(lia)).
  split; Z.to_euclidean_division_equations; lia.
Qed.

(** ** Walking *)

Lemma walk_app m t p q : walk_to m t (p ++ q) = u ← walk_to m t p; walk_to m u q.
Proof.
  revert t. induction p as [|i p IH]; intros t; [done|]. cbn [app walk_to].
  destruct (m !! t) as [pg|]; [|done]. cbn [mbind option_bind].
  destruct (rd pg i) as [e|]; [|done]. cbn [mbind option_bind].
  destruct (_ =? _); [apply IH | done].
Qed.

(** A walk from the root ends at the table with that path. *)
Lemma walk_paths s l paths path t :
  as_ok s l paths -> paths !! t = Some path -> walk_to (mem s) (current_pml4 s) path = Some t.
Proof.
  intros Hok. revert t. induction path as [|i path IH] using rev_ind; intros t Ht.
  - by rewrite (as_root_only _ _ _ Hok t Ht).
  - destruct (as_up _ _ _ Hok t path i Ht) as (u & pg & e & Hu & _ & Hpg & He & Hb & Hc).
    rewrite walk_app, (IH u Hu). cbn. rewrite Hpg. cbn. rewrite He. cbn. rewrite Hb, Z.eqb_refl. by rewrite Hc.
Qed.

Lemma paths_walk s l paths path t :
  as_ok s l paths -> (length path <= 3)%nat ->
  (forall p i q, path = p ++ i :: q -> user_slot_ok p i) ->
  walk_to (mem s) (current_pml4 s) path = Some t -> paths !! t = Some path.
Proof.
  intros Hok. revert t. induction path as [|i path IH] using rev_ind; intros t Hl Hu Hw.
  - injection Hw as <-. apply (as_root _ _ _ Hok).
  - rewrite length_app in Hl. cbn in Hl. rewrite walk_app in Hw.
    destruct (walk_to _ _ path) as [u|] eqn:Eu; [|done]. cbn in Hw.
    destruct (mem s !! u) as [pg|] eqn:Hpg; [|done]. cbn in Hw.
    destruct (rd pg i) as [e|] eqn:He; [|done]. cbn in Hw.
    destruct (Z.eqb_spec (Z.land e USER_BITS) USER_BITS) as [Hb|]; [|done]. injection Hw as <-.
    assert (paths !! u = Some path) as Hpu.
    { apply IH; [lia | | done]. intros p j q ->. apply (Hu p j (q ++ [i])). by rewrite <- app_assoc. }
    refine (proj2 (as_down _ _ _ Hok u path pg i e Hpu _ _ Hpg He _));
      [lia | by apply (Hu path i []) | by apply present_of_user].
Qed.

Lemma index_range x : 0 <= Z.land x 0x1FF < 512.
Proof. change 0x1FF with (2 ^ 9 - 1). rewrite land_ones_mod by lia. apply Z.mod_pos_bound. lia. Qed.

Lemma user_path_ok v p i q :
  pml4_index v < 256 -> user_indices v = p ++ i :: q -> user_slot_ok p i.
Proof.
  intros Hv. unfold user_indices.
  assert (forall x, 0 <= Z.land x 511 < 512) as Hr by exact index_range.
  destruct p as [|a [|b [|c p]]]; intros [= ]; subst; try (by destruct p); (split; [apply Hr | done]).
Qed.

(** The tables of a virtual page, seen through [paths]. *)
Lemma mapping_paths s l paths v t pg e :
  as_ok s l paths -> paths !! t = Some (user_indices v) -> mem s !! t = Some pg ->
  rd pg (pt_index v) = Some e ->
  mapping s v = if negb (Z.land e PAGE_USER =? 0) && negb (Z.land e PAGE_ADDRESS_MASK =? 0)
                then Some e else None.
Proof.
  intros Hok Ht Hpg He. unfold mapping. rewrite (walk_paths _ _ _ _ _ Hok Ht). cbn.
  rewrite Hpg. cbn. by rewrite He.
Qed.

Lemma mapping_none s l paths v :
  as_ok s l paths -> pml4_index v < 256 -> (forall t, paths !! t <> Some (user_indices v)) ->
  mapping s v = None.
Proof.
  intros Hok Hv Hno. unfold mapping.
  destruct (walk_to _ _ _) as [t|] eqn:E; [|done]. exfalso. apply (Hno t).
  eapply paths_walk; [exact Hok | done | | exact E]. intros p i q. by apply user_path_ok.
Qed.

Lemma table_page s l paths t path :
  as_ok s l paths -> paths !! t = Some path ->
  exists pg, mem s !! t = Some pg /\ length pg = 512%nat.
Proof.
  intros Hok Ht. destruct (as_table _ _ _ Hok t path Ht) as (_ & _ & [pg Hpg] & _).
  exists pg. split; [done|]. exact (pmm_ram _ _ (as_pmm _ _ _ Hok) _ _ Hpg).
Qed.

Lemma paths_inj s l paths t u path :
  as_ok s l paths -> paths !! t = Some path -> paths !! u = Some path -> t = u.
Proof.
  intros Hok Ht Hu. pose proof (walk_paths _ _ _ _ _ Hok Ht). pose proof (walk_paths _ _ _ _ _ Hok Hu).
  congruence.
Qed.

(** Memory outside the allocator's pages may change. *)
Lemma pmm_ok_store s l t pg :
  pmm_ok s l -> t ∉ l -> length pg = 512%nat -> pmm_ok (with_mem (<[t := pg]> (mem s)) s) l.
Proof.
  intros [Hh Hram Hnd Hpg (entries & fl & Hmap & He & Hl & Hc & Hi & Ho)] Ht Hlen.
  constructor; cbn; try done; [by apply ram_insert | by apply pages_insert|].
  exists entries, fl. split_and!; try done; [|lia..].
  eapply chain_agree; [|done]. intros p Hp. apply lookup_insert_ne. intros ->.
  apply Ht. rewrite Hl. apply elem_of_app. by left.
Qed.

(** ** Linking a table into a slot *)

(** The table [c] is already below the slot, or it is a fresh empty table and
    nothing is below the slot. *)
Definition linkable (s : mmu) (paths : gmap Z (list Z)) (c : Z) (path : list Z) : Prop :=
  paths !! c = Some path \/
  (paths !! c = None /\ mem s !! c = Some zero_page /\ forall u, paths !! u <> Some path).

Section Link.
Context (s : mmu) (l : list Z) (paths : gmap Z (list Z)) (t : Z) (path : list Z) (pg : page)
  (i c e : Z).
Context (Hok : as_ok s l paths) (Ht : paths !! t = Some path) (Hlen : (length path < 3)%nat)
  (Hslot : user_slot_ok path i) (Hpg : mem s !! t = Some pg) (Hpg_len : length pg = 512%nat)
  (Hc_al : aligned c) (Hc_nz : c <> 0) (Hc_ram : is_Some (mem s !! c)) (Hc_fresh : c ∉ l)
  (Hlink : linkable s paths c (path ++ [i]))
  (He_user : Z.land e USER_BITS = USER_BITS) (He_child : Z.land e PAGE_MASK = c).

Let pg' : page := <[Z.to_nat i := e]> pg.
Let s' : mmu := with_mem (<[t := pg']> (mem s)) s.
Let paths' : gmap Z (list Z) := <[c := path ++ [i]]> paths.

Local Lemma c_not_t : c <> t.
Proof.
  intros ->. destruct Hlink as [E|(E & _)]; rewrite Ht in E; [|done]. injection E as E.
  apply (f_equal length) in E. rewrite length_app in E. cbn in E. lia.
Qed.

Local Lemma paths_keep u q : paths !! u = Some q -> paths' !! u = Some q.
Proof.
  intros Hu. unfold paths'. destruct (decide (u = c)) as [->|Hne]; [|by rewrite lookup_insert_ne].
  rewrite lookup_insert_eq. destruct Hlink as [E|(E & _)]; congruence.
Qed.

Local Lemma paths_inv u q :
  paths' !! u = Some q -> (u = c /\ q = path ++ [i]) \/ paths !! u = Some q.
Proof.
  unfold paths'. destruct (decide (u = c)) as [->|Hne].
  - rewrite lookup_insert_eq. intros [= <-]. by left.
  - rewrite lookup_insert_ne by done. by right.
Qed.

Local Lemma rd_pg' j : 0 <= j < 512 -> rd pg' j = if decide (j = i) then Some e else rd pg j.
Proof.
  intros Hj. unfold pg'. destruct Hslot as [Hi _]. rewrite !rd_lookup by lia. destruct (decide (j = i)) as [->|].
  - apply list_lookup_insert_eq. lia.
  - apply list_lookup_insert_ne. lia.
Qed.

Lemma link_ok : as_ok s' l paths'.
Proof using All.
  pose proof c_not_t as Hct. constructor.
  - apply pmm_ok_store; [apply (as_pmm _ _ _ Hok) | | exact (eq_trans (length_insert _ _ _) Hpg_len)].
    apply (as_table _ _ _ Hok t path Ht).
  - apply paths_keep. apply (as_root _ _ _ Hok).
  - intros u [[-> Hq]|Hu]%paths_inv; [by destruct path | by apply (as_root_only _ _ _ Hok)].
  - intros u q Hu. cbn [mem s' with_mem].
    assert (is_Some (mem s !! u) -> is_Some (<[t := pg']> (mem s) !! u)) as Hram
      by (intros; apply lookup_insert_is_Some'; by right).
    apply paths_inv in Hu as [[-> ->]|Hu].
    + split_and!; auto. rewrite length_app. cbn. lia.
    + destruct (as_table _ _ _ Hok u q Hu) as (? & ? & ? & ? & ?). split_and!; auto.
  - intros u q pg1 j e1 Hu Hq Hj Hm Hr Hp. cbn [mem s' with_mem] in Hm.
    assert (forall x, paths !! x = Some (q ++ [j]) -> paths' !! x = Some (q ++ [j])) as Hkeep
      by (intros; by apply paths_keep).
    apply paths_inv in Hu as [[-> ->]|Hu].
    + rewrite lookup_insert_ne in Hm by done. destruct Hlink as [Hold|(_ & Hz & _)].
      * destruct (as_down _ _ _ Hok c _ pg1 j e1 Hold) as [? ?]; try done. split; [done | by apply Hkeep].
      * rewrite Hz in Hm. injection Hm as <-. destruct Hj as [Hj _]. exfalso. apply Hp.
        rewrite rd_lookup in Hr by lia. unfold zero_page in Hr.
        apply lookup_replicate in Hr as [-> _]. done.
    + destruct (decide (u = t)) as [->|Hne].
      * rewrite lookup_insert_eq in Hm. injection Hm as <-. rewrite Ht in Hu. injection Hu as <-.
        rewrite rd_pg' in Hr by apply Hj. destruct (decide (j = i)) as [->|].
        -- injection Hr as <-. split; [done|]. rewrite He_child. apply lookup_insert_eq.
        -- destruct (as_down _ _ _ Hok t _ pg j e1 Ht) as [? ?]; try done. split; [done | by apply Hkeep].
      * rewrite lookup_insert_ne in Hm by done.
        destruct (as_down _ _ _ Hok u _ pg1 j e1 Hu) as [? ?]; try done. split; [done | by apply Hkeep].
  - intros u q j [[-> [-> [= ->]]%app_inj_2]|Hu]%paths_inv; [|done|].
    + exists t, pg', e. split_and!; try done; try apply Hslot; [by apply paths_keep | apply lookup_insert_eq|].
      rewrite rd_pg' by apply Hslot. by rewrite decide_True.
    + destruct (as_up _ _ _ Hok u q j Hu) as (w & pg1 & e1 & Hw & Hj & Hm & Hr & Hb & Hch).
      destruct (decide (w = t)) as [->|Hne].
      * rewrite Ht in Hw. injection Hw as <-. rewrite Hpg in Hm. injection Hm as <-.
        destruct (decide (j = i)) as [->|Hji].
        -- destruct Hlink as [Hold|(_ & _ & Hno)]; [|by destruct (Hno u)].
           rewrite (paths_inj _ _ _ u c _ Hok Hu Hold).
           exists t, pg', e. split_and!; try done; try apply Hslot; [by apply paths_keep | apply lookup_insert_eq|].
           rewrite rd_pg' by apply Hslot. by rewrite decide_True.
        -- exists t, pg', e1. split_and!; try done; try apply Hj; [by apply paths_keep | apply lookup_insert_eq|].
           rewrite rd_pg' by apply Hj. by rewrite decide_False.
      * exists w, pg1, e1. split_and!; try done; try apply Hj; [by apply paths_keep|].
        cbn. by rewrite lookup_insert_ne.
Qed.

Lemma link_mapping v : pml4_index v < 256 -> mapping s' v = mapping s v.
Proof using All.
  intros Hv. pose proof link_ok as Hok'.
  destruct (walk_to (mem s) (current_pml4 s) (user_indices v)) as [tv|] eqn:Ew.
  - assert (paths !! tv = Some (user_indices v)) as Hp.
    { eapply paths_walk; [exact Hok | done | | exact Ew]. intros p j q. by apply user_path_ok. }
    destruct (table_page _ _ _ _ _ Hok Hp) as (pgv & Hpgv & Hlv).
    destruct (rd_is_Some pgv (pt_index v)) as [ev Hev].
    { unfold zlen. rewrite Hlv. apply index_range. }
    rewrite (mapping_paths _ _ _ v tv pgv ev Hok' (paths_keep _ _ Hp)), (mapping_paths _ _ _ v tv pgv ev Hok Hp); try done.
    cbn. rewrite lookup_insert_ne; [done|]. intros <-. rewrite Ht in Hp. injection Hp as ->. cbn in Hlen. lia.
  - assert (forall u, paths !! u <> Some (user_indices v)) as Hno.
    { intros u Hu. pose proof (walk_paths _ _ _ _ _ Hok Hu). congruence. }
    rewrite (mapping_none _ _ _ v Hok Hv Hno).
    destruct (decide (path ++ [i] = user_indices v)) as [E|E].
    + destruct Hlink as [Hold|(_ & Hz & _)]; [by destruct (Hno c); rewrite <- E|].
      assert (mem s' !! c = Some zero_page) as Hm by (cbn; rewrite lookup_insert_ne; [done | by apply not_eq_sym, c_not_t]).
      rewrite (mapping_paths _ _ _ v c zero_page 0 Hok'); try done.
      * rewrite <- E. apply lookup_insert_eq.
      * rewrite rd_lookup by apply index_range. apply lookup_replicate. split; [done|].
        pose proof (index_range (Z.shiftr v 12)). unfold pt_index. lia.
    + apply (mapping_none _ _ _ v Hok' Hv). intros u [[-> Hq]|Hu]%paths_inv; [by subst | by apply (Hno u)].
Qed.

End Link.

(** ** One level of the walk *)

(** The tree has grown or stayed; no mapping has changed. *)
Record grows (s s' : mmu) (paths paths' : gmap Z (list Z)) : Prop := {
  grows_paths : paths ⊆ paths';
  grows_same : same_machine s s';
  grows_mapping v : pml4_index v < 256 -> mapping s' v = mapping s v;
}.

Lemma grows_trans s1 s2 s3 p1 p2 p3 : grows s1 s2 p1 p2 -> grows s2 s3 p2 p3 -> grows s1 s3 p1 p3.
Proof.
  intros [Hp Hs Hm] [Hp' Hs' Hm']. constructor.
  - by transitivity p2.
  - unfold same_machine in *. intuition congruence.
  - intros v Hv. by rewrite Hm', Hm.
Qed.

(** New tables come from the allocator, and nothing else in memory has changed. *)
Record fresh_only (s s' : mmu) (l l' : list Z) (paths paths' : gmap Z (list Z)) (n : nat) : Prop := {
  fo_list : exists u, l = u ++ l' /\ (length u <= n)%nat;
  fo_paths t : is_Some (paths' !! t) -> is_Some (paths !! t) \/ t ∈ l;
  fo_mem p : p ∉ l -> paths !! p = None -> mem s' !! p = mem s !! p;
}.

Lemma fo_none s s' l l' paths paths' n q :
  fresh_only s s' l l' paths paths' n -> q ∉ l -> paths !! q = None -> paths' !! q = None.
Proof.
  intros Hf Hq Hqp. destruct (paths' !! q) eqn:E; [|done].
  destruct (fo_paths _ _ _ _ _ _ _ Hf q) as [[? ?]|]; [by rewrite E | congruence | done].
Qed.

Lemma fresh_only_trans s1 s2 s3 l1 l2 l3 p1 p2 p3 n m :
  fresh_only s1 s2 l1 l2 p1 p2 n -> fresh_only s2 s3 l2 l3 p2 p3 m -> fresh_only s1 s3 l1 l3 p1 p3 (n + m).
Proof.
  intros [(u & -> & Hu) Hp Hm] [(u' & -> & Hu') Hp' Hm']. constructor.
  - exists (u ++ u'). rewrite length_app, <- app_assoc. split; [done | lia].
  - intros t [Ht|Ht]%Hp'; [by apply Hp | right; apply elem_of_app; by right].
  - intros p Hpl Hpp. rewrite Hm'; [by apply Hm|..].
    + intros Hin. apply Hpl, elem_of_app. by right.
    + by eapply fo_none; [constructor; [exists u; by split | exact Hp | exact Hm] | |].
Qed.

(** Changes outside the tables. *)
Lemma as_ok_untouched s s' l l' paths :
  as_ok s l paths -> pmm_ok s' l' -> same_machine s s' ->
  (forall t path, paths !! t = Some path -> mem s' !! t = mem s !! t /\ (t ∉ l')) ->
  as_ok s' l' paths /\ (forall v, pml4_index v < 256 -> mapping s' v = mapping s v).
Proof.
  intros Hok Hpmm (Hcr & _) Hag.
  assert (current_pml4 s' = current_pml4 s) as Hroot by (unfold current_pml4; by rewrite Hcr).
  assert (as_ok s' l' paths) as Hok'.
  { constructor; rewrite ?Hroot; [done | apply Hok | apply Hok |..].
    - intros t path Ht. destruct (as_table _ _ _ Hok t path Ht) as (? & ? & ? & _ & ?).
      destruct (Hag t path Ht) as [-> ?]. done.
    - intros t path pg i e Ht Hl Hi Hm. rewrite (proj1 (Hag t path Ht)) in Hm. by apply (as_down _ _ _ Hok t path pg).
    - intros t path i Ht. destruct (as_up _ _ _ Hok t path i Ht) as (u & pg & e & Hu & Hi & Hm & He).
      exists u, pg, e. rewrite (proj1 (Hag u path Hu)). done. }
  split; [done|]. intros v Hv.
  destruct (walk_to (mem s) (current_pml4 s) (user_indices v)) as [tv|] eqn:Ew.
  - assert (paths !! tv = Some (user_indices v)) as Hp.
    { eapply paths_walk; [exact Hok | done | | exact Ew]. intros p j q. by apply user_path_ok. }
    unfold mapping. by rewrite (walk_paths _ _ _ _ _ Hok' Hp), Ew, Some_bind, Some_bind, (proj1 (Hag _ _ Hp)).
  - assert (forall u, paths !! u <> Some (user_indices v)) as Hno.
    { intros u Hu. pose proof (walk_paths _ _ _ _ _ Hok Hu). congruence. }
    by rewrite (mapping_none _ _ _ v Hok Hv Hno), (mapping_none _ _ _ v Hok' Hv Hno).
Qed.

(** A page fresh from the allocator. *)
Lemma as_alloc s p l paths :
  as_ok s (p :: l) paths ->
  exists s', pmm_alloc_zeroed_page s = Some (Val p, s') /\ as_ok s' l paths /\ same_machine s s' /\
    mem s' = <[p := zero_page]> (mem s) /\ aligned p /\ p <> 0 /\ (p ∉ l) /\ paths !! p = None /\
    forall v, pml4_index v < 256 -> mapping s' v = mapping s v.
Proof.
  intros Hok. pose proof (as_pmm _ _ _ Hok) as Hpmm.
  destruct (alloc_page_ok s p l Hpmm) as (s' & E & Hpmm' & Hm & Hsame).
  pose proof (pmm_nodup _ _ Hpmm) as [Hfresh _]%NoDup_cons.
  pose proof (pmm_pages _ _ Hpmm) as [(? & ? & _) _]%Forall_cons.
  assert (paths !! p = None) as Hp.
  { destruct (paths !! p) as [q|] eqn:Eq; [|done].
    destruct (as_table _ _ _ Hok p q Eq) as (_ & _ & _ & Hin & _). destruct Hin. apply list_elem_of_here. }
  destruct (as_ok_untouched s s' (p :: l) l paths Hok Hpmm' Hsame) as [Hok' Hmap].
  { intros t path Ht. rewrite Hm, lookup_insert_ne by congruence. split; [done|].
    destruct (as_table _ _ _ Hok t path Ht) as (_ & _ & _ & Hin & _). intros Hl. apply Hin. by right. }
  exists s'. by split_and!.
Qed.

Lemma get_or_alloc_ok s l paths t path i :
  as_ok s l paths -> paths !! t = Some path -> (length path < 3)%nat -> user_slot_ok path i -> l <> [] ->
  exists c s' l' paths', get_or_alloc_table t i s = Some (Val c, s') /\ as_ok s' l' paths' /\
    paths' !! c = Some (path ++ [i]) /\ grows s s' paths paths' /\ fresh_only s s' l l' paths paths' 1.
Proof.
  intros Hok Ht Hlen Hslot Hl. destruct (as_table _ _ _ Hok t path Ht) as (Hal & Hnz & _ & Hnl & _).
  destruct (table_page _ _ _ _ _ Hok Ht) as (pg & Hpg & Hpl).
  destruct (rd_is_Some pg i) as [e He]; [unfold zlen; rewrite Hpl; apply Hslot|].
  assert (forall s1 l1 c e1, as_ok s1 l1 paths -> mem s1 !! t = Some pg ->
    aligned c -> c <> 0 -> is_Some (mem s1 !! c) -> (c ∉ l1) -> linkable s1 paths c (path ++ [i]) ->
    Z.land e1 USER_BITS = USER_BITS -> Z.land e1 PAGE_MASK = c ->
    exists s2, (store (entry_at t i) e1;; (e ← load (entry_at t i); mret (Z.land e PAGE_MASK))) s1 = Some (Val c, s2) /\
      as_ok s2 l1 (<[c := path ++ [i]]> paths) /\ grows s1 s2 paths (<[c := path ++ [i]]> paths) /\
      forall q, q <> t -> mem s2 !! q = mem s1 !! q) as Hstore.
  { intros s1 l1 c e1 Hok1 Hpg1 Hcal Hcnz Hcram Hcl Hlk Hu Hc.
    mrun (store_entry s1 t pg i e1 Hal (proj1 Hslot) Hpg1 Hpl).
    assert (rd (<[Z.to_nat i := e1]> pg) i = Some e1) as Hrd.
    { rewrite rd_lookup by apply Hslot. apply list_lookup_insert_eq. destruct Hslot. lia. }
    rewrite (bind_val _ _ _ _ _ (load_entry (with_mem _ s1) t _ i e1 Hal (proj1 Hslot) (lookup_insert_eq _ _ _) Hrd)).
    eexists. rewrite Hc. split; [done|].
    split; [by eapply link_ok|]. split; [|intros q Hq; by apply lookup_insert_ne]. constructor.
    - destruct Hlk as [Hold|(Hnew & _)]; [by rewrite insert_id | by apply insert_subseteq].
    - done.
    - intros v Hv. by eapply link_mapping. }
  unfold get_or_alloc_table. mrun (load_entry s t pg i e Hal (proj1 Hslot) Hpg He).
  destruct (Z.eqb_spec (Z.land e PAGE_PRESENT) 0) as [Habs|Hpres].
  - destruct l as [|p l]; [done|].
    destruct (as_alloc s p l paths Hok) as (s1 & Ea & Hok1 & Hs1 & Hm1 & Hpal & Hpnz & Hpl1 & Hpn & Hmap1).
    rewrite bind_assoc. mrun Ea.
    destruct (Hstore s1 l p (Z.lor p PAGE_USER_FLAGS)) as (s2 & E2 & Hok2 & Hg2 & Hoth); try done.
    + rewrite Hm1, lookup_insert_ne by congruence. done.
    + rewrite Hm1, lookup_insert_eq. by eexists.
    + right. rewrite Hm1, lookup_insert_eq. split_and!; try done. intros u Hu.
      destruct (as_up _ _ _ Hok u path i Hu) as (w & pgw & ew & Hw & _ & Hmw & Hrw & Hbw & _).
      rewrite (paths_inj _ _ _ w t _ Hok Hw Ht), Hpg in Hmw. injection Hmw as <-.
      rewrite He in Hrw. injection Hrw as <-. by apply (present_of_user e Hbw).
    + apply flags_user.
    + by apply flags_child_page.
    + exists p, s2, l, (<[p := path ++ [i]]> paths). split_and!; try done.
      * apply lookup_insert_eq.
      * eapply grows_trans; [|exact Hg2]. by constructor.
      * constructor.
        -- by exists [p].
        -- intros u. destruct (decide (u = p)) as [->|]; [right; apply list_elem_of_here|].
           rewrite lookup_insert_ne by done. by left.
        -- intros q Hq Hqp. assert (q <> p) by (intros ->; apply Hq, list_elem_of_here).
           rewrite Hoth by congruence. by rewrite Hm1, lookup_insert_ne.
  - destruct (as_down _ _ _ Hok t path pg i e Ht Hlen Hslot Hpg He Hpres) as [Hu Hc].
    destruct (as_table _ _ _ Hok _ _ Hc) as (? & ? & ? & ? & _).
    destruct (Hstore s l (Z.land e PAGE_MASK) (Z.lor e PAGE_USER_FLAGS)) as (s2 & E2 & Hok2 & Hg2 & Hoth); try done.
    + by left.
    + apply flags_user.
    + apply flags_child.
    + exists (Z.land e PAGE_MASK), s2, l, (<[Z.land e PAGE_MASK := path ++ [i]]> paths). split_and!; try done.
      * apply lookup_insert_eq.
      * constructor.
        -- exists []. split; [done | cbn; lia].
        -- rewrite insert_id by done. by left.
        -- intros q Hq Hqp. apply Hoth. congruence.
Qed.

(** ** Mapping a page *)

(** Writing an entry of a last-level table. *)
Lemma leaf_store s l paths t v pg w :
  as_ok s l paths -> paths !! t = Some (user_indices v) -> mem s !! t = Some pg ->
  let s' := with_mem (<[t := <[Z.to_nat (pt_index v) := w]> pg]> (mem s)) s in
  as_ok s' l paths /\
  mapping s' v = (if negb (Z.land w PAGE_USER =? 0) && negb (Z.land w PAGE_ADDRESS_MASK =? 0)
                  then Some w else None) /\
  forall v', pml4_index v' < 256 -> (user_indices v', pt_index v') <> (user_indices v, pt_index v) ->
    mapping s' v' = mapping s v'.
Proof.
  intros Hok Ht Hpg s'. destruct (as_table _ _ _ Hok t _ Ht) as (Hal & Hnz & _ & Hnl & _).
  pose proof (pmm_ram _ _ (as_pmm _ _ _ Hok) _ _ Hpg) as Hlen. cbn in Hlen.
  assert (forall u path, paths !! u = Some path -> (length path < 3)%nat -> mem s' !! u = mem s !! u) as Hup.
  { intros u path Hu Hl. cbn. rewrite lookup_insert_ne; [done|]. intros ->. rewrite Ht in Hu. injection Hu as <-. cbn in Hl. lia. }
  assert (as_ok s' l paths) as Hok'.
  { constructor; try apply Hok.
    - apply pmm_ok_store; [apply (as_pmm _ _ _ Hok) | done | by rewrite length_insert].
    - intros u path Hu. destruct (as_table _ _ _ Hok u path Hu) as (? & ? & ? & ? & ?).
      split_and!; try done. apply lookup_insert_is_Some'. by right.
    - intros u path pg1 i e Hu Hl Hi Hm. rewrite (Hup u path Hu Hl) in Hm. by apply (as_down _ _ _ Hok u path pg1).
    - intros u path i Hu. destruct (as_up _ _ _ Hok u path i Hu) as (x & pg1 & e & Hx & Hi & Hm & Hr).
      exists x, pg1, e. rewrite (Hup x path Hx); [done|].
      destruct (as_table _ _ _ Hok u _ Hu) as (_ & _ & _ & _ & Hl). rewrite length_app in Hl. cbn in Hl. lia. }
  pose proof (index_range (Z.shiftr v 12)) as Hi. fold (pt_index v) in Hi.
  split; [done|]. split.
  - apply (mapping_paths _ _ _ v t (<[Z.to_nat (pt_index v) := w]> pg) w Hok' Ht); [apply lookup_insert_eq|].
    rewrite rd_lookup by lia. apply list_lookup_insert_eq. lia.
  - intros v' Hv' Hne.
    destruct (walk_to (mem s) (current_pml4 s) (user_indices v')) as [tv|] eqn:Ew.
    + assert (paths !! tv = Some (user_indices v')) as Hp.
      { eapply paths_walk; [exact Hok | done | | exact Ew]. intros p j q. by apply user_path_ok. }
      unfold mapping. rewrite (walk_paths _ _ _ _ _ Hok' Hp), Ew, !Some_bind.
      destruct (decide (tv = t)) as [->|Hneq]; [|cbn; by rewrite lookup_insert_ne].
      cbn. rewrite lookup_insert_eq, Hpg, !Some_bind.
      pose proof (index_range (Z.shiftr v' 12)) as Hi'. fold (pt_index v') in Hi'.
      rewrite !(rd_lookup _ (pt_index v')) by lia. rewrite list_lookup_insert_ne; [done|].
      intros E. apply Hne. rewrite Ht in Hp. injection Hp as Hp. f_equal; [|lia]. by unfold user_indices; f_equal; congruence.
    + assert (forall u, paths !! u <> Some (user_indices v')) as Hno.
      { intros u Hu. pose proof (walk_paths _ _ _ _ _ Hok Hu). congruence. }
      by rewrite (mapping_none _ _ _ v' Hok Hv' Hno), (mapping_none _ _ _ v' Hok' Hv' Hno).
Qed.

(** The three upper levels. *)
Lemma tables_for s l paths v :
  as_ok s l paths -> pml4_index v < 256 -> (3 <= length l)%nat ->
  exists s' l' paths' pt,
    (pml4 ← gets current_pml4;
     pdpt ← get_or_alloc_table pml4 (pml4_index v);
     pd ← get_or_alloc_table pdpt (pdpt_index v);
     get_or_alloc_table pd (pd_index v)) s = Some (Val pt, s') /\
    as_ok s' l' paths' /\ paths' !! pt = Some (user_indices v) /\ grows s s' paths paths' /\
    fresh_only s s' l l' paths paths' 3.
Proof.
  intros Hok Hv Hl. rewrite bind_gets.
  assert (forall (l l' : list Z) k, (exists u, l = u ++ l' /\ (length u <= 1)%nat) -> (S k <= length l)%nat ->
    (k <= length l')%nat) as Hlen.
  { intros a b k (u & -> & Hu) Hk. rewrite length_app in Hk. lia. }
  assert (forall p i q, user_indices v = p ++ i :: q -> user_slot_ok p i) as Hu by (intros; by eapply user_path_ok).
  destruct (get_or_alloc_ok s l paths (current_pml4 s) [] (pml4_index v)) as (t1 & s1 & l1 & p1 & E1 & Hok1 & Ht1 & Hg1 & Hf1);
    [done | apply Hok | cbn; lia | exact (Hu [] (pml4_index v) [pdpt_index v; pd_index v] eq_refl) | by destruct l; [cbn in Hl; lia|] |].
  mrun E1.
  destruct (get_or_alloc_ok s1 l1 p1 t1 [pml4_index v] (pdpt_index v)) as (t2 & s2 & l2 & p2 & E2 & Hok2 & Ht2 & Hg2 & Hf2);
    [done | done | cbn; lia | exact (Hu [pml4_index v] (pdpt_index v) [pd_index v] eq_refl) | pose proof (Hlen _ _ 2%nat (fo_list _ _ _ _ _ _ _ Hf1) Hl) as Hl1; by destruct l1; [cbn in Hl1; lia|] |].
  mrun E2.
  destruct (get_or_alloc_ok s2 l2 p2 t2 [pml4_index v; pdpt_index v] (pd_index v)) as (t3 & s3 & l3 & p3 & E3 & Hok3 & Ht3 & Hg3 & Hf3);
    [done | done | cbn; lia | exact (Hu [pml4_index v; pdpt_index v] (pd_index v) [] eq_refl) | pose proof (Hlen _ _ 1%nat (fo_list _ _ _ _ _ _ _ Hf2) (Hlen _ _ 2%nat (fo_list _ _ _ _ _ _ _ Hf1) Hl)) as Hl2; by destruct l2; [cbn in Hl2; lia|] |].
  exists s3, l3, p3, t3. split_and!; try done; [by eapply grows_trans, grows_trans|].
  apply (fresh_only_trans s s1 s3 l l1 l3 paths p1 p3 1 2 Hf1). by apply (fresh_only_trans s1 s2 s3 l1 l2 l3 p1 p2 p3 1 1 Hf2).
Qed.

Lemma map_user_page_ok s l paths v p :
  as_ok s l paths -> pml4_index v < 256 -> (3 <= length l)%nat -> 0 <= p < 2 ^ 52 -> p mod 4096 = 0 -> p <> 0 ->
  exists s' l' paths', map_user_page v p s = Some (Val tt, s') /\ as_ok s' l' paths' /\
    mapping s' v = Some (Z.lor p PAGE_USER_FLAGS) /\
    (forall v', pml4_index v' < 256 -> (user_indices v', pt_index v') <> (user_indices v, pt_index v) ->
      mapping s' v' = mapping s v') /\
    same_machine s s' /\ fresh_only s s' l l' paths paths' 3.
Proof.
  intros Hok Hv Hl Hp Hmod Hnz. destruct (pmm_hhdm _ _ (as_pmm _ _ _ Hok)) as [h Hh].
  unfold map_user_page. rewrite bind_gets, (bind_lift _ h) by done.
  destruct (tables_for s l paths v Hok Hv Hl) as (s1 & l1 & p1 & pt & E & Hok1 & Ht & Hg & Hf).
  destruct (as_table _ _ _ Hok1 pt _ Ht) as (Hal & _ & _ & _ & _).
  destruct (table_page _ _ _ _ _ Hok1 Ht) as (pg & Hpg & Hpl).
  assert (aligned p) as Hpal by (split; [lia | done]).
  assert (Z.land p PAGE_MASK = p) as Hpm by by apply page_of_aligned.
  destruct (leaf_store s1 l1 p1 pt v pg (Z.lor (Z.land p PAGE_MASK) PAGE_USER_FLAGS) Hok1 Ht Hpg) as (Hok2 & Hm & Hother).
  match goal with |- context [(gets current_pml4 ≫= ?k) s] =>
    replace ((gets current_pml4 ≫= k) s) with
      ((pt ← (pml4 ← gets current_pml4;
        pdpt ← get_or_alloc_table pml4 (pml4_index v);
        pd ← get_or_alloc_table pdpt (pdpt_index v);
        get_or_alloc_table pd (pd_index v));
        store (entry_at pt (pt_index v)) (Z.lor (Z.land p PAGE_MASK) PAGE_USER_FLAGS)) s) end.
  2: { rewrite !bind_assoc, !bind_gets. rewrite bind_assoc. unfold mbind, M_bind.
       destruct (get_or_alloc_table _ _ s) as [[[a|rc] s0]|]; try done.
       by destruct (get_or_alloc_table _ _ s0) as [[[b|rc] s00]|]. }
  mrun E. eexists _, l1, p1. split; [apply (store_entry s1 pt pg); [done | apply index_range | done..]|].
  split; [done|]. split; [|split; [|split]].
  - rewrite Hm, Hpm, address_of_page by done. rewrite (eqb_neq p 0) by done.
    rewrite eqb_neq; [done|]. rewrite Z.land_lor_distr_l. intros E0.
    apply (f_equal (fun x => Z.testbit x 2)) in E0. by rewrite Z.lor_spec, orb_true_r in E0.
  - intros v' Hv' Hne. rewrite Hother by done. by apply (grows_mapping _ _ _ _ Hg).
  - apply (grows_same _ _ _ _ Hg).
  - destruct Hf as [Hfl Hfp Hfm]. constructor; [done | done|]. intros q Hq Hqp. cbn. rewrite lookup_insert_ne; [by apply Hfm|].
    intros <-. destruct (Hfp pt) as [[x Hx]|]; [by rewrite Ht | congruence | done].
Qed.

(** The page of a user address. *)
Definition user_page (v : Z) : Prop := 0 <= v < 2 ^ 47 /\ v mod 4096 = 0.

Lemma index_div v k : 0 <= v -> 0 <= k -> Z.land (Z.shiftr v k) 0x1FF = v / 2 ^ k mod 512.
Proof. intros. rewrite Z.shiftr_div_pow2 by lia. exact (land_ones_mod (v / 2 ^ k) 9 ltac:(lia)). Qed.

Lemma user_page_half v : user_page v -> pml4_index v < 256.
Proof.
  intros [Hv _]. unfold pml4_index. rewrite index_div by lia.
  change (2 ^ 39) with 549755813888. Z.to_euclidean_division_equations; lia.
Qed.

Lemma user_page_inj v v' :
  user_page v -> user_page v' -> (user_indices v', pt_index v') = (user_indices v, pt_index v) -> v' = v.
Proof.
  intros [Hv Hm] [Hv' Hm']. unfold user_indices, pml4_index, pdpt_index, pd_index, pt_index.
  rewrite !index_div by lia. intros [= E1 E2 E3 E4].
  change (2 ^ 39) with 549755813888 in *. change (2 ^ 30) with 1073741824 in *.
  change (2 ^ 21) with 2097152 in *. change (2 ^ 12) with 4096 in *.
  Z.to_euclidean_division_equations; lia.
Qed.

(** ** Looking up and unmapping *)

Lemma user_walk_ok s l paths path1 path2 t :
  as_ok s l paths -> (length path1 + length path2 <= 3)%nat -> paths !! t = Some path1 ->
  (forall p i q, path1 ++ path2 = p ++ i :: q -> user_slot_ok p i) ->
  user_walk path2 t s = Some (Val (walk_to (mem s) t path2), s).
Proof.
  intros Hok. revert path1 t. induction path2 as [|i path2 IH]; intros path1 t Hl Ht Hu; [done|].
  cbn [user_walk walk_to length] in *. assert (user_slot_ok path1 i) as Hi by by eapply Hu.
  destruct (as_table _ _ _ Hok t _ Ht) as (Hal & _). destruct (table_page _ _ _ _ _ Hok Ht) as (pg & Hpg & Hpl).
  destruct (rd_is_Some pg i) as [e He]; [unfold zlen; rewrite Hpl; apply Hi|].
  mrun (load_entry s t pg i e Hal (proj1 Hi) Hpg He). rewrite Hpg, Some_bind, He, Some_bind.
  change (Z.lor PAGE_PRESENT PAGE_USER) with USER_BITS.
  destruct (Z.eqb_spec (Z.land e USER_BITS) USER_BITS) as [Hb|]; [|done]. cbn [negb].
  destruct (as_down _ _ _ Hok t path1 pg i e Ht ltac:(lia) Hi Hpg He (present_of_user e Hb)) as [_ Hc].
  apply (IH (path1 ++ [i])); [rewrite length_app; cbn; lia | done |].
  intros p j q E. apply (Hu p j q). by rewrite <- app_assoc in E.
Qed.

Lemma user_slot_eq s l paths v :
  as_ok s l paths -> pml4_index v < 256 ->
  user_slot v s =
  Some (Val ((fun t => entry_at t (pt_index v)) <$> walk_to (mem s) (current_pml4 s) (user_indices v)), s).
Proof.
  intros Hok Hv. unfold user_slot. rewrite bind_gets. destruct (pmm_hhdm _ _ (as_pmm _ _ _ Hok)) as [h ->].
  cbn [not_null negb]. rewrite bind_gets.
  rewrite (bind_val _ _ _ _ _ (user_walk_ok s l paths [] (user_indices v) (current_pml4 s) Hok ltac:(cbn; lia) (as_root _ _ _ Hok)
    (fun p i q => user_path_ok v p i q Hv))). done.
Qed.

(** The last-level entry through which the functions on one page work. *)
Lemma slot_cases s l paths v :
  as_ok s l paths -> pml4_index v < 256 ->
  (user_slot v s = Some (Val None, s) /\ mapping s v = None) \/
  (exists t pg e, user_slot v s = Some (Val (Some (entry_at t (pt_index v))), s) /\
     paths !! t = Some (user_indices v) /\ aligned t /\ mem s !! t = Some pg /\
     load (entry_at t (pt_index v)) s = Some (Val e, s) /\ length pg = 512%nat /\
     mapping s v = if negb (Z.land e PAGE_USER =? 0) && negb (Z.land e PAGE_ADDRESS_MASK =? 0)
                   then Some e else None).
Proof.
  intros Hok Hv. rewrite (user_slot_eq _ _ _ _ Hok Hv).
  destruct (walk_to _ _ _) as [t|] eqn:Ew; [right | left; split; [done | unfold mapping; by rewrite Ew]].
  assert (paths !! t = Some (user_indices v)) as Ht.
  { eapply paths_walk; [exact Hok | done | | exact Ew]. intros p j q. by apply user_path_ok. }
  destruct (as_table _ _ _ Hok t _ Ht) as (Hal & _). destruct (table_page _ _ _ _ _ Hok Ht) as (pg & Hpg & Hpl).
  destruct (rd_is_Some pg (pt_index v)) as [e He]; [unfold zlen; rewrite Hpl; apply index_range|].
  exists t, pg, e. split_and!; try done.
  - by apply (load_entry s t pg); [| apply index_range | |].
  - by apply (mapping_paths s l paths v t pg e).
Qed.

Lemma page_mapped_ok s l paths v :
  as_ok s l paths -> pml4_index v < 256 ->
  user_page_mapped v s = Some (Val (bool_decide (is_Some (mapping s v))), s).
Proof.
  intros Hok Hv. unfold user_page_mapped.
  destruct (slot_cases s l paths v Hok Hv) as [[Es Hno]|(t & pg & e & Es & _ & _ & _ & Ee & _ & Hmap)]; mrun Es.
  - rewrite Hno. by rewrite bool_decide_eq_false_2 by apply is_Some_None.
  - mrun Ee. rewrite Hmap. destruct (negb _ && negb _); [by rewrite bool_decide_eq_true_2 |
      by rewrite bool_decide_eq_false_2 by apply is_Some_None].
Qed.

Lemma unmap_user_page_ok s l paths v e :
  as_ok s l paths -> pml4_index v < 256 -> mapping s v = Some e ->
  let p := Z.land e PAGE_ADDRESS_MASK in
  p ∉ l -> paths !! p = None -> is_Some (mem s !! p) ->
  exists s', unmap_user_page v s = Some (Val true, s') /\ as_ok s' (p :: l) paths /\
    mapping s' v = None /\
    (forall v', pml4_index v' < 256 -> (user_indices v', pt_index v') <> (user_indices v, pt_index v) ->
      mapping s' v' = mapping s v') /\
    forall q, q <> p -> paths !! q = None -> mem s' !! q = mem s !! q.
Proof.
  intros Hok Hv Hm p Hpl Hpp Hpr. unfold unmap_user_page.
  destruct (slot_cases s l paths v Hok Hv) as [[_ Hno]|(t & pg & e' & Es & Ht & Hal & Hpg & Ee & Hlen & Hmap)];
    [congruence|].
  mrun Es. mrun Ee. rewrite Hmap in Hm.
  destruct (Z.eqb_spec (Z.land e' PAGE_USER) 0); [done|].
  destruct (Z.eqb_spec (Z.land e' PAGE_ADDRESS_MASK) 0) as [|Hnz]; [done|]. injection Hm as ->. cbn [orb].
  fold p in Hnz. fold p. rewrite (bind_val _ _ _ _ _ (store_entry s t pg (pt_index v) 0 Hal (index_range _) Hpg Hlen)).
  destruct (leaf_store s l paths t v pg 0 Hok Ht Hpg) as (Hok1 & Hm1 & Hoth). cbv zeta in Hok1, Hm1, Hoth.
  set (s1 := with_mem _ s) in *.
  assert (aligned p) as Hal_p by apply address_aligned.
  assert (is_Some (mem s1 !! p)) as Hpr1 by (apply lookup_insert_is_Some'; by right).
  destruct (free_page_ok s1 p l (as_pmm _ _ _ Hok1) Hal_p Hnz Hpr1 Hpl) as (s2 & pgp & pgp' & Ef & Hpmm & Hp1 & Hm2 & Hsame & _).
  mrun Ef. destruct (as_ok_untouched s1 s2 l (p :: l) paths Hok1 Hpmm Hsame) as [Hok2 Hmap2].
  { intros u path Hu. rewrite Hm2, lookup_insert_ne by congruence. split; [done|].
    destruct (as_table _ _ _ Hok1 u path Hu) as (_ & _ & _ & Hin & _).
    intros [->|]%elem_of_cons; [congruence | done]. }
  exists s2. split_and!; try done.
  - rewrite Hmap2 by done. by rewrite Hm1.
  - intros v' Hv' Hne. rewrite Hmap2 by done. by apply Hoth.
  - intros q Hq Hqp. rewrite Hm2, lookup_insert_ne by done. apply lookup_insert_ne. congruence.
Qed.


(** ** Memory management: a concrete machine and what goes wrong

    Witnesses of the theorems on the allocator and the page tables, and the
    behaviours of mmu.c and kernel.c a caller would not expect. *)

(** ** A machine with four free pages *)

Definition usable (base length : Z) : limine_memmap_entry := MemmapEntry base length LIMINE_MEMMAP_USABLE.

Definition demo_mem : gmap Z page :=
  list_to_map ((fun p => (p, zero_page)) <$> [0x1000; 0x2000; 0x3000; 0x4000; 0x5000; 0x9000]).

(** The page table root is at 0x1000; 0x9000 belongs to somebody. *)
Definition demo : mmu :=
  MMU demo_mem 0x1000 0 (Some [MemmapEntry 0 0x1000 1; usable 0x2000 0x4000]) (Some 0) 0 0 0.
Definition demo_pages : list Z := [0x2000; 0x3000; 0x4000; 0x5000].
Definition demo_paths : gmap Z (list Z) := {[0x1000 := []]}.

Lemma demo_zero p pg : demo_mem !! p = Some pg -> pg = zero_page.
Proof.
  unfold demo_mem. intros H%elem_of_list_to_map_2. apply list_elem_of_fmap in H as (x & [= _ ->] & _). done.
Qed.

Lemma demo_pmm : pmm_ok demo demo_pages.
Proof.
  constructor.
  - by eexists.
  - intros p pg Hp. by rewrite (demo_zero p pg Hp).
  - apply (bool_decide_unpack _); vm_compute; exact I.
  - repeat (apply Forall_cons; split; [split_and!; [split; [lia | done] | done | vm_compute; by eexists]|]). constructor.
  - eexists _, []. split; [done|]. split_and!; try done.
    repeat (apply Forall_cons; split; [done|]). constructor.
Qed.

Lemma demo_as : as_ok demo demo_pages demo_paths.
Proof.
  assert (forall t path, demo_paths !! t = Some path -> t = 0x1000 /\ path = []) as Hp.
  { intros t path. unfold demo_paths. intros [<- <-]%lookup_singleton_Some. done. }
  constructor.
  - exact demo_pmm.
  - done.
  - by intros t [-> _]%Hp.
  - intros t path [-> ->]%Hp. split_and!; try done; [|cbn; lia].
    apply (bool_decide_unpack _); vm_compute; exact I.
  - intros t path pg i e [-> ->]%Hp _ [Hi _] Hm Hr He. cbn in Hm.
    rewrite (demo_zero _ _ Hm), rd_lookup in Hr by lia. apply lookup_replicate in Hr as [-> _]. done.
  - intros t path i [_ E]%Hp. by destruct path.
Qed.

Lemma pmm_refines_stack_witness :
  exists s', pmm_alloc_zeroed_page demo = Some (Val 0x2000, s') /\ pmm_ok s' [0x3000; 0x4000; 0x5000].
Proof.
  destruct (pmm_refines_stack demo demo_pages demo_pmm) as (Ha & _).
  destruct (Ha 0x2000 [0x3000; 0x4000; 0x5000] eq_refl) as (s' & E & Hok & _). by exists s'.
Defined.


(** ** What goes wrong *)

Lemma count_free_empty k n s : count_free (S k) 0 n s = Some (Val n, s).
Proof. done. Qed.

(** [pmm_get_free_page_count] does not count free pages: it adds all pages of
    the memory map, allocated or not, so taking a page from the map leaves the
    number as it was. *)
Theorem free_count_ignores_allocation s p l rounds :
  pmm_ok s (p :: l) -> free_page_head s = 0 -> (0 < rounds)%nat ->
  exists n s', pmm_get_free_page_count rounds s = Some (Val n, s) /\
    pmm_alloc_zeroed_page s = Some (Val p, s') /\
    pmm_get_free_page_count rounds s' = Some (Val n, s').
Proof.
  intros Hok Hh Hr. destruct rounds as [|k]; [lia|].
  destruct (alloc_page_ok s p l Hok) as (s' & E & Hok' & Hm & _ & _ & Hmap & _).
  destruct (pmm_split _ _ Hok) as (entries & fl & Hme & _ & Hl & Hc & _).
  assert (free_page_head s' = 0) as Hh'.
  { revert E. unfold pmm_alloc_zeroed_page. rewrite !bind_gets, Hme.
    destruct (pmm_hhdm _ _ Hok) as [h ->]. rewrite bind_gets, Hh. cbn [Z.eqb negb]. rewrite !bind_gets.
    destruct (carve _ _ _) as [[[q|] i] o].
    - rewrite bind_modify. unfold clear_page, mbind, M_bind. cbn [mem with_carve].
      destruct (mem s !! q); [|done]. cbn. by intros [= _ <-].
    - intros E. exfalso. pose proof (pmm_pages _ _ Hok) as [(_ & Hnz & _) _]%Forall_cons.
      revert E. rewrite bind_modify. unfold mbind, M_bind.
      destruct (cleanup_user_pages _) as [[[[]|rc] s0]|]; [|done..]. by intros [= <-]. }
  exists (count_usable entries 0), s'. unfold pmm_get_free_page_count.
  rewrite !bind_gets, Hmap, Hme, !bind_gets, Hh, Hh'.
  by rewrite !(bind_val _ _ _ _ _ (count_free_empty _ _ _)).
Qed.

Lemma free_count_ignores_allocation_witness :
  exists n s', pmm_get_free_page_count 1 demo = Some (Val n, demo) /\
    pmm_alloc_zeroed_page demo = Some (Val 0x2000, s') /\ pmm_get_free_page_count 1 s' = Some (Val n, s').
Proof. apply (free_count_ignores_allocation demo 0x2000 [0x3000; 0x4000; 0x5000] 1 demo_pmm); [done | lia]. Defined.

(** the kernel heap and the page allocator give out the same memory: the first
    [kmalloc] returns the address of the page that the first
    [pmm_alloc_zeroed_page] returns (and clears). *)
Theorem kmalloc_overlaps_pmm s p l e es size endkernel :
  pmm_ok s (p :: l) -> memmap s = Some (e :: es) -> e_type e = LIMINE_MEMMAP_USABLE ->
  4096 <= e_length e -> free_page_head s = 0 -> alloc_index s = 0 -> alloc_offset s = 0 ->
  fst (kmalloc endkernel (memmap s) 0 size) = p /\
  exists s', pmm_alloc_zeroed_page s = Some (Val p, s').
Proof.
  intros Hok Hm Ht Hlen Hh Hi Ho.
  destruct (alloc_page_ok s p l Hok) as (s' & E & _). split; [|by exists s'].
  destruct (pmm_split _ _ Hok) as (entries & fl & Hme & He & Hl & Hc & _).
  rewrite Hm in Hme. injection Hme as <-. rewrite Hh in Hc. apply Forall_cons in He as [(Hb & _ & Hs) _].
  destruct fl as [|q fl]; [|destruct Hc as [<- _]; injection Hl as -> _;
    by pose proof (pmm_pages _ _ Hok) as [(_ & ? & _) _]%Forall_cons].
  rewrite Hi, Ho in Hl. change (Z.to_nat 0) with O in Hl. rewrite drop_0 in Hl. cbn [app carvable] in Hl.
  rewrite Ht, Z.eqb_refl, entry_pages_cons in Hl by lia.
  injection Hl as -> _. pose proof (pmm_pages _ _ Hok) as [((_ & Hal) & Hnz & _) _]%Forall_cons.
  unfold kmalloc. rewrite Z.eqb_refl, Hm. unfold first_usable. rewrite filter_cons_True by done.
  rewrite Z.add_0_r in *. rewrite (eqb_neq (e_base e)) by done. cbn [fst]. rewrite u64_small by (unfold_int; lia).
  pose proof (land_mask (e_base e + 15) 4 60 ltac:(lia) ltac:(lia) ltac:(lia)) as E0.
  change (Z.shiftl (Z.ones 60) 4) with 0xFFFFFFFFFFFFFFF0 in E0. rewrite E0.
  change (2 ^ 4) with 16. Z.to_euclidean_division_equations; lia.
Qed.

Definition demo2 : mmu := MMU demo_mem 0x1000 0 (Some [usable 0x2000 0x4000]) (Some 0) 0 0 0.

Lemma demo2_pmm : pmm_ok demo2 demo_pages.
Proof.
  destruct demo_pmm as [? ? ? ? _]. constructor; try done.
  eexists _, []. split; [done|]. split_and!; try done. apply Forall_cons. split; [done | constructor].
Qed.

Lemma kmalloc_overlaps_pmm_witness :
  fst (kmalloc 0 (memmap demo2) 0 100) = 0x2000 /\
  exists s', pmm_alloc_zeroed_page demo2 = Some (Val 0x2000, s').
Proof.
  apply (kmalloc_overlaps_pmm demo2 0x2000 [0x3000; 0x4000; 0x5000] (usable 0x2000 0x4000) [] 100 0 demo2_pmm);
    done.
Defined.

(** A machine without free pages; physical page 0 is ordinary memory. *)
Definition exhausted : mmu :=
  MMU (list_to_map [(0, replicate 512 0); (0x1000, replicate 512 0)]) 0x1000 0 (Some []) (Some 0) 0 0 0.

(** when memory runs out, [map_user_page] does not fail: it takes the result 0
    of the allocator for the address of a table, writes its entries into
    physical page 0, returns normally, and the page is not mapped. *)
Theorem map_user_page_out_of_memory :
  match map_user_page 0x400000 0x9000 exhausted with
  | Some (Val tt, s) =>
      mem s !! 0 <> mem exhausted !! 0 /\
      user_page_mapped 0x400000 s = Some (Val false, s)
  | _ => False
  end.
Proof. vm_compute. split; [discriminate | reflexivity]. Qed.
