(* ===== verification/Pci.v ===== *)
(** * PCI and PCI Express configuration (helper/drivers/pci_pcie/pci.c, pcie.c)

    Configuration space is reached through the two ports of the host bridge
    ([ConfigPorts]) or through memory ([Machine]).  What the functions rely on is the
    documented behaviour of the bridge ([HostBridge]): the address port selects a
    register, the data port reads it, and a write changes the writable bits of the
    selected register and nothing else. *)

From S2P Require Import Prelude CString.

Definition PCI_CONFIG_ADDRESS : Z := 0xCF8.
Definition PCI_CONFIG_DATA : Z := 0xCFC.
Definition PCI_COMMAND_OFFSET : Z := 0x04.
Definition PCI_CMD_IO_ENABLE : Z := 1.
Definition PCI_CMD_MEM_ENABLE : Z := 2.
Definition PCI_CMD_BUS_MASTER : Z := 4.

Class ConfigPorts (P : Type) := {
  ports_outl : P -> Z -> Z -> P;
  ports_inl : P -> Z -> Z * P;
}.

Record pci_bar_t := Bar { bar_address : Z; bar_size : Z; is_mmio : bool; is_64bit : bool }.

(** ** Port access *)

(** The address of a register; [offset & 0xFC] *)
Definition config_address (bus slot func offset : Z) : Z :=
  Z.lor (Z.lor (Z.lor (Z.lor (2 ^ 31) (Z.shiftl bus 16)) (Z.shiftl slot 11)) (Z.shiftl func 8)) (Z.land offset 0xFC).

Section Ports.
Context {P : Type} `{ConfigPorts P}.

Definition pci_read_32 (bus slot func offset : Z) (p : P) : Z * P :=
  let address := config_address bus slot func offset in
  let p := ports_outl p PCI_CONFIG_ADDRESS address in
  ports_inl p PCI_CONFIG_DATA.

Definition pci_write_32 (bus slot func offset val : Z) (p : P) : P :=
  let address := config_address bus slot func offset in
  let p := ports_outl p PCI_CONFIG_ADDRESS address in
  ports_outl p PCI_CONFIG_DATA val.

Definition pci_read_16 (bus slot func offset : Z) (p : P) : Z * P :=
  let '(val, p) := pci_read_32 bus slot func offset p in
  (Z.land (Z.shiftr val (Z.land offset 2 * 8)) 0xFFFF, p).

Definition pci_read_8 (bus slot func offset : Z) (p : P) : Z * P :=
  let '(val, p) := pci_read_32 bus slot func offset p in
  (Z.land (Z.shiftr val (Z.land offset 3 * 8)) 0xFF, p).

Definition pci_enable_device (bus slot func : Z) (p : P) : P :=
  let '(cmd, p) := pci_read_32 bus slot func PCI_COMMAND_OFFSET p in
  let cmd := Z.lor cmd (Z.lor (Z.lor PCI_CMD_IO_ENABLE PCI_CMD_MEM_ENABLE) PCI_CMD_BUS_MASTER) in
  pci_write_32 bus slot func PCI_COMMAND_OFFSET cmd p.

(** [~x] on [uint32_t] *)
Definition not32 (x : Z) : Z := u32 (Z.lnot x).

Definition pci_get_bar (bus slot func bar_index : Z) (p : P) : pci_bar_t * P :=
  let none := Bar 0 0 false false in
  if 5 <? bar_index then (none, p) else
  let offset := u16 (0x10 + bar_index * 4) in
  let '(bar_low, p) := pci_read_32 bus slot func offset p in
  if bar_low =? 0 then (none, p) else
  let '(bar, p) :=
    if negb (Z.land bar_low 1 =? 0) then (Bar (Z.land bar_low (not32 3)) 0 false false, p)
    else
      let type := Z.land (Z.shiftr bar_low 1) 3 in
      if type =? 2 then
        let '(bar_high, p) := pci_read_32 bus slot func (u16 (offset + 4)) p in
        (Bar (Z.lor (Z.shiftl bar_high 32) (Z.land bar_low (not32 15))) 0 true true, p)
      else (Bar (Z.land bar_low (not32 15)) 0 true false, p) in
  let p := pci_write_32 bus slot func offset 0xFFFFFFFF p in
  let '(size_mask, p) := pci_read_32 bus slot func offset p in
  let p := pci_write_32 bus slot func offset bar_low p in
  let low := if is_mmio bar then 15 else 3 in
  (Bar (bar_address bar) (u32 (not32 (Z.land size_mask (not32 low)) + 1)) (is_mmio bar) (is_64bit bar), p).

End Ports.

Definition pci_class_to_name (class_code : Z) : bytes :=
  match class_code with
  | 0x00 => clit "Unclassified Device (unknown device type)"
  | 0x01 => clit "Mass Storage Controller (IDE/SATA)"
  | 0x02 => clit "Network Controller (Ethernet/Wi-Fi)"
  | 0x03 => clit "Display Controller (VGA)"
  | 0x04 => clit "Multimedia Controller (Audio)"
  | 0x05 => clit "Memory Controller"
  | 0x06 => clit "Bridge Device (Host/ISA)"
  | 0x07 => clit "Simple Communication Controller"
  | 0x08 => clit "Base System Peripheral"
  | 0x09 => clit "Input Device (much keyboard, or mouse)"
  | 0x0A => clit "Docking Station"
  | 0x0B => clit "Processor (another CPU?)"
  | 0x0C => clit "Serial Bus Controller (USB/SMBus)"
  | 0x0D => clit "Wireless Controller"
  | _ => clit "Unknown Device Type (wtf is this)"
  end.

(** [while ( *p >= '0' && *p <= '9') n = n * 10 + ( *p++ - '0');] on [uint32_t] *)
Fixpoint slot_number (p : bytes) (n : Z) : option (Z * bytes) :=
  match p with
  | [] => None
  | c :: p' => if is_digit c then slot_number p' (u32 (n * 10 + (c - c_0))) else Some (n, p)
  end.

(** The bus, slot and function, or [None] inside for [false]. *)
Definition parse_slot_string (str : bytes) : option (option (Z * Z * Z)) :=
  '(b, p) ← slot_number str 0;
  x ← head p;
  if negb (x =? c_colon) then Some None else
  '(s, p) ← slot_number (tail p) 0;
  x ← head p;
  if negb (x =? c_dot) then Some None else
  '(f, _) ← slot_number (tail p) 0;
  Some (if (b <? 256) && (s <? 32) && (f <? 8) then Some (b, s, f) else None).

(** ** Memory access *)

(** Memory and memory-mapped registers: [n] bytes at a virtual address.  Reading a
    register may change the device. *)
Class Machine (W : Type) := {
  vread : W -> Z -> nat -> Z * W;
  vwrite : W -> Z -> nat -> Z -> W;
}.

Record pcie := Pcie {
  g_pcie_base_virtual_addr : Z;
  g_pcie_start_bus : Z;
  g_pcie_end_bus : Z;
  g_pcie_initialized : bool;
}.

Definition pcie_init_system (v_addr start_bus end_bus : Z) : pcie := Pcie v_addr start_bus end_bus true.

(** Both functions check their arguments in the same way. *)
Definition pcie_refused (g : pcie) (bus device function reg_offset : Z) : bool :=
  negb (g_pcie_initialized g) || ((bus <? g_pcie_start_bus g) || (g_pcie_end_bus g <? bus)) ||
  ((32 <=? device) || (8 <=? function) || (4096 <=? reg_offset)).

Definition total_offset (g : pcie) (bus device function reg_offset : Z) : Z :=
  Z.lor (Z.lor (Z.lor (Z.shiftl (bus - g_pcie_start_bus g) 20) (Z.shiftl device 15)) (Z.shiftl function 12)) (Z.land reg_offset 0xFFF).

Section Memory.
Context {W : Type} `{Machine W}.

Definition pcie_read32 (g : pcie) (bus device function reg_offset : Z) (w : W) : Z * W :=
  if pcie_refused g bus device function reg_offset then (0xFFFFFFFF, w)
  else vread w (u64 (g_pcie_base_virtual_addr g + total_offset g bus device function reg_offset)) 4.

Definition pcie_write32 (g : pcie) (bus device function reg_offset value : Z) (w : W) : W :=
  if pcie_refused g bus device function reg_offset then w
  else vwrite w (u64 (g_pcie_base_virtual_addr g + total_offset g bus device function reg_offset)) 4 value.

(** [table[0] == 'M' && table[1] == 'C' && ...], from left to right *)
Fixpoint has_signature (table : Z) (sig : bytes) (w : W) : bool * W :=
  match sig with
  | [] => (true, w)
  | c :: sig' =>
      let '(x, w) := vread w table 1 in
      if x =? c then has_signature (table + 1) sig' w else (false, w)
  end.

(** The loop over the entries of a table of [size]-byte pointers *)
Fixpoint find_mcfg (entries : nat) (pointers : Z) (size : nat) (hhdm_offset : Z) (w : W) : option Z * W :=
  match entries with
  | O => (None, w)
  | S entries' =>
      let '(a, w) := vread w pointers size in
      let table := u64 (a + hhdm_offset) in
      let '(found, w) := has_signature table (lit "MCFG") w in
      if (found : bool) then (Some table, w)
      else find_mcfg entries' (pointers + Z.of_nat size) size hhdm_offset w
  end.

(** The tables of a root table whose pointers have [size] bytes *)
Definition scan_tables (addr : Z) (size : nat) (hhdm_offset : Z) (w : W) : option Z * W :=
  if addr =? 0 then (None, w) else
  let root := u64 (addr + hhdm_offset) in
  let '(length, w) := vread w (root + 4) 4 in
  let entries := s32 (u32 (length - 36) / Z.of_nat size) in
  find_mcfg (Z.to_nat entries) (root + 36) size hhdm_offset w.

(** [rsdp] and [hhdm] are the answers of the boot loader, if there are any. *)
Definition init_pcie (rsdp hhdm : option Z) (g : pcie) (w : W) : pcie * W :=
  match rsdp, hhdm with
  | Some rsdp, Some hhdm_offset =>
      if rsdp =? 0 then (g, w) else
      let '(revision, w) := vread w (rsdp + 15) 1 in
      let '(mcfg_table, w) :=
        if 2 <=? revision then
          let '(xsdt_addr, w) := vread w (rsdp + 24) 8 in
          scan_tables xsdt_addr 8 hhdm_offset w
        else
          let '(rsdt_addr, w) := vread w (rsdp + 16) 4 in
          scan_tables rsdt_addr 4 hhdm_offset w in
      match mcfg_table with
      | None => (g, w)
      | Some mcfg_table =>
          let allocations := mcfg_table + 44 in
          let '(phys_base, w) := vread w allocations 8 in
          let '(start_bus, w) := vread w (allocations + 10) 1 in
          let '(end_bus, w) := vread w (allocations + 11) 1 in
          (pcie_init_system (u64 (phys_base + hhdm_offset)) start_bus end_bus, w)
      end
  | _, _ => (g, w)
  end.

End Memory.

(** ** The host bridge *)

(** [reg p a] is the register at the configuration address [a]; [writable a] has the
    bits of it that a write changes. *)
Class HostBridge (P : Type) `{ConfigPorts P} := {
  selected : P -> Z;
  reg : P -> Z -> Z;
  writable : Z -> Z;
  reg_bound : forall p a, is_u32 (reg p a);
  bridge_select : forall p a,
    selected (ports_outl p PCI_CONFIG_ADDRESS a) = a /\ forall b, reg (ports_outl p PCI_CONFIG_ADDRESS a) b = reg p b;
  bridge_read : forall p, exists p', ports_inl p PCI_CONFIG_DATA = (reg p (selected p), p') /\
    selected p' = selected p /\ forall b, reg p' b = reg p b;
  bridge_write : forall p v b, is_u32 v -> reg (ports_outl p PCI_CONFIG_DATA v) b =
    if b =? selected p then Z.lor (Z.land v (writable b)) (Z.ldiff (reg p b) (writable b)) else reg p b;
}.

Section Bridge.
Context {P : Type} `{HostBridge P}.
Implicit Type p : P.

Lemma read_reg bus slot func offset p :
  exists p', pci_read_32 bus slot func offset p = (reg p (config_address bus slot func offset), p') /\ forall b, reg p' b = reg p b.
Proof.
  unfold pci_read_32. set (a := config_address _ _ _ _). destruct (bridge_select p a) as [Hs Hr].
  destruct (bridge_read (ports_outl p PCI_CONFIG_ADDRESS a)) as (p' & E & _ & Hr').
  exists p'. rewrite E, Hs, Hr. split; [done|]. intros b. by rewrite Hr', Hr.
Qed.

Lemma write_reg bus slot func offset v p b :
  is_u32 v -> reg (pci_write_32 bus slot func offset v p) b =
  if b =? config_address bus slot func offset then Z.lor (Z.land v (writable b)) (Z.ldiff (reg p b) (writable b)) else reg p b.
Proof.
  intros Hv. unfold pci_write_32. set (a := config_address _ _ _ _). destruct (bridge_select p a) as [Hs Hr].
  rewrite bridge_write, Hs, Hr by done. done.
Qed.

End Bridge.

(** ** Masks *)

Lemma testbit_high x n : is_u32 x -> 32 <= n -> Z.testbit x n = false.
Proof.
  intros Hx Hn. destruct (Z.eq_dec x 0) as [->|]; [apply Z.bits_0|]. unfold is_u32 in Hx. apply Z.bits_above_log2; [lia|].
  assert (Z.log2 x < 32) by (apply Z.log2_lt_pow2; lia). lia.
Qed.

Lemma testbit_not32 x n : is_u32 x -> 0 <= n -> Z.testbit (not32 x) n = negb (Z.testbit x n) && (n <? 32).
Proof.
  intros Hx Hn. unfold not32, u32. change 4294967296 with (2 ^ 32). rewrite Z.testbit_mod_pow2 by lia.
  rewrite Z.lnot_spec by lia. by rewrite andb_comm.
Qed.

(** The writable bits of a base address register of [2^k] bytes. *)
Definition size_bits (k : Z) : Z := 2 ^ 32 - 2 ^ k.

Lemma testbit_size k n : 0 <= k <= 32 -> 0 <= n -> Z.testbit (size_bits k) n = (k <=? n) && (n <? 32).
Proof.
  intros Hk Hn. unfold size_bits. replace (2 ^ 32 - 2 ^ k) with (Z.shiftl (Z.ones (32 - k)) k).
  - rewrite Z.shiftl_spec by lia. destruct (Z.leb_spec k n); cbn [andb].
    + rewrite Z.testbit_ones_nonneg by lia. lia.
    + by rewrite Z.testbit_neg_r by lia.
  - rewrite Z.shiftl_mul_pow2, Z.ones_equiv by lia. rewrite <- Z.sub_1_r, Z.mul_sub_distr_r, <- Z.pow_add_r by lia. replace (32 - k + k) with 32 by lia. lia.
Qed.

Lemma testbit_ones32 n : 0 <= n -> Z.testbit 0xFFFFFFFF n = (n <? 32).
Proof. intros Hn. change 0xFFFFFFFF with (Z.ones 32). rewrite Z.testbit_ones_nonneg by lia. done. Qed.

(** Compare two words bit by bit. *)
Ltac bits := apply Z.bits_inj'; intros n Hn; repeat rewrite ?Z.lor_spec, ?Z.land_spec, ?Z.ldiff_spec.

(** What a register reads after all ones are written to it, and after its value is
    written back. *)
Lemma sized_restored v k :
  is_u32 v -> 0 <= k <= 32 ->
  let m := Z.lor (Z.land 0xFFFFFFFF (size_bits k)) (Z.ldiff v (size_bits k)) in
  Z.lor (Z.land v (size_bits k)) (Z.ldiff m (size_bits k)) = v.
Proof.
  intros Hv Hk. cbn zeta. bits. destruct (Z.testbit v n), (Z.testbit (size_bits k) n), (Z.testbit 0xFFFFFFFF n); done.
Qed.

Lemma size_masked v k j :
  is_u32 v -> 0 <= j <= k -> k <= 32 -> v mod 2 ^ k < 2 ^ j ->
  Z.land (Z.lor (Z.land 0xFFFFFFFF (size_bits k)) (Z.ldiff v (size_bits k))) (not32 (2 ^ j - 1)) = size_bits k.
Proof.
  intros Hv Hj Hk Hlow. assert (is_u32 (2 ^ j - 1)) as Hj32.
  { pose proof (Z.pow_le_mono_r 2 j 32). pose proof (Z.pow_pos_nonneg 2 j). change (2 ^ 32) with 4294967296 in *. unfold is_u32. lia. }
  bits. rewrite testbit_not32, testbit_size, testbit_ones32 by (done || lia).
  replace (Z.testbit (2 ^ j - 1) n) with (n <? j) by (replace (2 ^ j - 1) with (Z.ones j) by (rewrite Z.ones_equiv; lia); by rewrite Z.testbit_ones_nonneg by lia).
  assert (n < k -> j <= n -> Z.testbit v n = false) as Hb.
  { intros Hnk Hjn. pose proof (Z.mod_pos_bound v (2 ^ k) ltac:(apply Z.pow_pos_nonneg; lia)).
    rewrite <- (Z.mod_pow2_bits_low v k n Hnk). destruct (Z.eq_dec (v mod 2 ^ k) 0) as [->|]; [apply Z.bits_0|].
    apply Z.bits_above_log2; [lia|]. assert (Z.log2 (v mod 2 ^ k) < j) by (apply Z.log2_lt_pow2; lia). lia. }
  destruct (Z.leb_spec k n), (Z.ltb_spec n 32), (Z.ltb_spec n j); cbn [andb negb orb]; rewrite ?andb_false_r, ?andb_true_r; try lia; try done.
  rewrite Hb by lia. done.
Qed.

Lemma not32_sub x : is_u32 x -> not32 x = 4294967295 - x.
Proof.
  intros Hx. unfold not32, u32, is_u32, Z.lnot in *. rewrite <- (Z.mod_small (4294967295 - x) 4294967296) by lia.
  replace (4294967295 - x) with (Z.pred (- x) + 1 * 4294967296) by lia. by rewrite Z.mod_add.
Qed.

Lemma masked_low v j : is_u32 v -> 0 <= j <= 32 -> Z.land v (not32 (2 ^ j - 1)) = v - v mod 2 ^ j.
Proof.
  intros Hv Hj. assert (is_u32 (2 ^ j - 1)) as Hj32.
  { pose proof (Z.pow_le_mono_r 2 j 32). pose proof (Z.pow_pos_nonneg 2 j). change (2 ^ 32) with 4294967296 in *. unfold is_u32. lia. }
  transitivity (Z.ldiff v (Z.ones j)).
  - bits. rewrite testbit_not32 by done. replace (2 ^ j - 1) with (Z.ones j) by (rewrite Z.ones_equiv; lia).
    destruct (Z.ltb_spec n 32); [by rewrite andb_true_r|]. by rewrite (testbit_high v n).
  - rewrite Z.ldiff_ones_r, Z.shiftr_div_pow2, Z.shiftl_mul_pow2 by lia. pose proof (Z.div_mod v (2 ^ j) ltac:(apply Z.pow_nonzero; lia)). lia.
Qed.

(** Writing all ones, reading, and writing the value back. *)
Lemma sizing {P} `{HostBridge P} bus slot func offset k (p : P) :
  let a := config_address bus slot func offset in
  writable a = size_bits k -> 0 <= k <= 32 ->
  exists p', pci_read_32 bus slot func offset (pci_write_32 bus slot func offset 0xFFFFFFFF p) =
      (Z.lor (Z.land 0xFFFFFFFF (size_bits k)) (Z.ldiff (reg p a) (size_bits k)), p') /\
    forall b, reg (pci_write_32 bus slot func offset (reg p a) p') b = reg p b.
Proof.
  intros a Hw Hk. destruct (read_reg bus slot func offset (pci_write_32 bus slot func offset 0xFFFFFFFF p)) as (p' & E & R).
  exists p'. rewrite E. fold a in E |- *. split.
  - rewrite write_reg by done. fold a. by rewrite Z.eqb_refl, Hw.
  - intros b. rewrite write_reg by apply reg_bound. fold a. rewrite R, write_reg by done. fold a.
    destruct (Z.eqb_spec b a) as [->|]; [|done]. rewrite Hw. apply sized_restored; [apply reg_bound | done].
Qed.

Lemma size_computed v k j :
  is_u32 v -> 0 <= j <= k -> k < 32 -> v mod 2 ^ k < 2 ^ j ->
  u32 (not32 (Z.land (Z.lor (Z.land 0xFFFFFFFF (size_bits k)) (Z.ldiff v (size_bits k))) (not32 (2 ^ j - 1))) + 1) = 2 ^ k.
Proof.
  intros Hv Hj Hk Hlow. rewrite size_masked by lia || done. unfold size_bits.
  pose proof (Z.pow_pos_nonneg 2 k ltac:(lia) ltac:(lia)). pose proof (Z.pow_lt_mono_r 2 k 32 ltac:(lia) ltac:(lia) Hk).
  change (2 ^ 32) with 4294967296 in *. rewrite not32_sub by (unfold is_u32; lia). unfold u32. rewrite Z.mod_small; lia.
Qed.

(** Base address registers.  For a register that decodes [2^k] bytes, as its
    writable bits say, and whose base is a multiple of its size, [pci_get_bar] yields
    the base (with the next register as the upper half when the register is 64 bits
    wide), the size, and the kind of the register, and leaves every register of
    configuration space as it was. *)
Theorem pci_get_bar_exact {P} `{HostBridge P} bus slot func bar_index k (p : P) :
  let low := config_address bus slot func (0x10 + bar_index * 4) in
  let high := config_address bus slot func (0x10 + bar_index * 4 + 4) in
  let v := reg p low in
  let j := if Z.testbit v 0 then 2 else 4 in
  let wide := negb (Z.testbit v 0) && (v / 2 mod 4 =? 2) in
  0 <= bar_index <= 5 -> v <> 0 -> writable low = size_bits k -> j <= k < 32 -> v mod 2 ^ k < 2 ^ j ->
  exists p', pci_get_bar bus slot func bar_index p =
    (Bar ((if wide then reg p high * 2 ^ 32 else 0) + (v - v mod 2 ^ j)) (2 ^ k) (negb (Z.testbit v 0)) wide, p') /\
    forall b, reg p' b = reg p b.
Proof.
  intros low high v j wide Hi Hv0 Hw Hk Hlow. unfold pci_get_bar. replace (5 <? bar_index) with false by lia.
  unfold u16. rewrite !(Z.mod_small (0x10 + bar_index * 4)), !(Z.mod_small (0x10 + bar_index * 4 + 4)) by lia.
  destruct (read_reg bus slot func (0x10 + bar_index * 4) p) as (p1 & E1 & R1). fold low v in E1. rewrite E1, (eqb_neq v 0 Hv0).
  assert (is_u32 v) as Hv by apply reg_bound.
  assert (0 <= k <= 32) as Hk32 by (subst j; destruct (Z.testbit v 0); lia).
  assert ((Z.land v 1 =? 0) = negb (Z.testbit v 0)) as ->.
  { change 1 with (2 ^ 1 - 1) at 1. rewrite land_ones_mod by lia. change (2 ^ 1) with 2. rewrite <- Z.bit0_mod. by destruct (Z.testbit v 0). }
  assert (forall p2, (forall b, reg p2 b = reg p b) -> exists p3, pci_read_32 bus slot func (0x10 + bar_index * 4)
      (pci_write_32 bus slot func (0x10 + bar_index * 4) 0xFFFFFFFF p2) =
      (Z.lor (Z.land 0xFFFFFFFF (size_bits k)) (Z.ldiff v (size_bits k)), p3) /\
    forall b, reg (pci_write_32 bus slot func (0x10 + bar_index * 4) v p3) b = reg p b) as Hs.
  { intros p2 R2. destruct (sizing bus slot func (0x10 + bar_index * 4) k p2 Hw Hk32) as (p3 & E3 & R3). fold low in E3, R3.
    rewrite R2 in E3, R3. fold v in E3, R3. exists p3. split; [done|]. intros b. by rewrite R3, R2. }
  subst j wide. destruct (Z.testbit v 0) eqn:E0; cbn [negb andb is_mmio is_64bit bar_address].
  - destruct (Hs p1 R1) as (p3 & -> & R3). eexists. split; [|exact R3]. change 3 with (2 ^ 2 - 1). rewrite (size_computed v k 2), (masked_low v 2) by (done || lia). done.
  - change 3 with (2 ^ 2 - 1). rewrite land_ones_mod, Z.shiftr_div_pow2 by lia. change (2 ^ 1) with 2. change (2 ^ 2) with 4. destruct (v / 2 mod 4 =? 2) eqn:Ew.
    + destruct (read_reg bus slot func (0x10 + bar_index * 4 + 4) p1) as (p2 & E2 & R2). fold high in E2. rewrite R1 in E2. rewrite E2.
      cbn [is_mmio is_64bit bar_address]. destruct (Hs p2) as (p3 & -> & R3); [intros b; by rewrite R2|]. eexists. split; [|exact R3].
      change 15 with (2 ^ 4 - 1). rewrite (size_computed v k 4), (masked_low v 4) by (done || lia). f_equal. f_equal.
      rewrite Z.lor_comm, Z.shiftl_mul_pow2, lor_add_low by (lia || (pose proof (Z.mod_pos_bound v 16); pose proof (Z.mod_le v 16); unfold is_u32 in Hv; change (2 ^ 4) with 16; lia)). lia.
    + cbn [is_mmio is_64bit bar_address]. destruct (Hs p1 R1) as (p3 & -> & R3). eexists. split; [|exact R3].
      change 15 with (2 ^ 4 - 1). rewrite (size_computed v k 4), (masked_low v 4) by (done || lia). done.
Qed.

(** ** Enhanced configuration access *)

(** The fields of an address do not overlap, so every register has its own address
    inside the window of its buses. *)
Lemma total_offset_sum g bus device function reg_offset :
  pcie_refused g bus device function reg_offset = false -> 0 <= device -> 0 <= function -> 0 <= reg_offset ->
  total_offset g bus device function reg_offset =
  (bus - g_pcie_start_bus g) * 2 ^ 20 + device * 2 ^ 15 + function * 2 ^ 12 + reg_offset /\
  0 <= total_offset g bus device function reg_offset < (g_pcie_end_bus g - g_pcie_start_bus g + 1) * 2 ^ 20.
Proof.
  intros Hr Hd Hf Ho. unfold pcie_refused in Hr.
  apply orb_false_iff in Hr as [[_ [Hs He]%orb_false_iff]%orb_false_iff [[Hd' Hf']%orb_false_iff Ho']%orb_false_iff].
  assert (total_offset g bus device function reg_offset =
    (bus - g_pcie_start_bus g) * 2 ^ 20 + device * 2 ^ 15 + function * 2 ^ 12 + reg_offset) as E; [|rewrite E; lia].
  unfold total_offset. change 0xFFF with (2 ^ 12 - 1). rewrite land_ones_mod, Z.mod_small by lia. rewrite !Z.shiftl_mul_pow2 by lia.
  set (a := bus - g_pcie_start_bus g). rewrite (Z.lor_comm _ reg_offset), (Z.lor_comm _ (function * 2 ^ 12)), (Z.lor_comm (a * 2 ^ 20)), !Z.lor_assoc.
  rewrite (lor_add_low reg_offset function 12), (lor_add_low _ device 15), (lor_add_low _ a 20) by lia. lia.
Qed.

Lemma pcie_registers_distinct g b d f r b' d' f' r' :
  pcie_refused g b d f r = false -> pcie_refused g b' d' f' r' = false ->
  0 <= d -> 0 <= f -> 0 <= r -> 0 <= d' -> 0 <= f' -> 0 <= r' ->
  total_offset g b d f r = total_offset g b' d' f' r' -> b = b' /\ d = d' /\ f = f' /\ r = r'.
Proof.
  intros H1 H2 ? ? ? ? ? ? E. destruct (total_offset_sum _ _ _ _ _ H1) as [E1 _]; [done..|].
  destruct (total_offset_sum _ _ _ _ _ H2) as [E2 _]; [done..|]. rewrite E1, E2 in E. unfold pcie_refused in *. lia.
Qed.

(** ** A bridge *)

Module Bridge.

(** A device with a register for four kilobytes of memory at [0xFEB00000]. *)
Record bridge := Bridge { latch : Z; registers : gmap Z Z }.

Definition bar0 : Z := config_address 0 3 0 0x10.
Definition bits_of (a : Z) : Z := if a =? bar0 then size_bits 12 else 0xFFFFFFFF.
Definition reg_of (p : bridge) (a : Z) : Z := u32 (default 0 (registers p !! a)).

#[export] Instance bridge_ports : ConfigPorts bridge := {
  ports_outl p port v :=
    if port =? PCI_CONFIG_ADDRESS then Bridge v (registers p)
    else if port =? PCI_CONFIG_DATA then
      Bridge (latch p) (<[latch p := Z.lor (Z.land v (bits_of (latch p))) (Z.ldiff (reg_of p (latch p)) (bits_of (latch p)))]> (registers p))
    else p;
  ports_inl p port := (reg_of p (latch p), p);
}.

Lemma u32_merged a b c : is_u32 a -> is_u32 b -> u32 (Z.lor (Z.land a c) (Z.ldiff b c)) = Z.lor (Z.land a c) (Z.ldiff b c).
Proof.
  intros Ha Hb. unfold u32. change 4294967296 with (2 ^ 32). apply Z.bits_inj'. intros n Hn. rewrite Z.testbit_mod_pow2 by lia.
  rewrite Z.lor_spec, Z.land_spec, Z.ldiff_spec. destruct (Z.ltb_spec n 32); [done|]. by rewrite (testbit_high a), (testbit_high b).
Qed.

#[export] Instance bridge_laws : HostBridge bridge.
Proof.
  refine {| selected := latch; reg := reg_of; writable := bits_of |}.
  - intros p a. apply u32_range.
  - done.
  - intros p. by exists p.
  - intros p v b Hv. cbn. unfold reg_of at 1. cbn [registers]. destruct (Z.eqb_spec b (latch p)) as [->|Hne].
    + rewrite lookup_insert_eq. cbn. apply u32_merged; [done | apply u32_range].
    + by rewrite lookup_insert_ne.
Defined.

Definition board : bridge := Bridge 0 {[bar0 := 0xFEB00000]}.

Lemma pci_get_bar_exact_witness :
  exists p', pci_get_bar 0 3 0 0 board = (Bar 0xFEB00000 0x1000 true false, p') /\ forall b, reg p' b = reg board b.
Proof.
  destruct (pci_get_bar_exact 0 3 0 0 12 board) as (p' & E & R);
    [lia | vm_compute; congruence | reflexivity | vm_compute; split; congruence | vm_compute; reflexivity|].
  exists p'. split; [|exact R]. rewrite E. f_equal.
Defined.

(** The numbers of a slot are taken modulo [2^32]. *)
Example slot_wraps : parse_slot_string (clit "4294967299:3.0") = Some (Some (3, 3, 0)).
Proof. vm_compute. reflexivity. Qed.

End Bridge.
