(* ===== verification/Nvme.v ===== *)
(** * The NVMe driver (helper/drivers/nvme/nvme.c, the scan of kernel/kernel.c)

    The statics of the driver are the record [nvme]; registers, rings and doorbells are
    reached through virtual memory ([Machine] of Pci.v).  The pages of the rings are
    taken from the memory map of the boot loader, which the page allocator (Mmu.v) reads
    too: [boot_page_leaves_pool].  The waits for the controller have no bound in the source;
    the model gives them [wait_rounds]. *)

From S2P Require Import Prelude CMonad CString Mmu Pmm PageTable Pci.

Definition NVME_REG_CC_EN : Z := 1.
Definition NVME_REG_CSTS_RDY : Z := 1.
Definition NVME_ADMIN_IDENTIFY : Z := 0x06.
Definition QUEUE_SIZE : Z := 64.
Definition wait_rounds : positive := 18446744073709551616.

Record nvme (W : Type) := Nvme {
  regs : Z;
  asq_ring : Z;
  acq_ring : Z;
  asq_tail : Z;
  acq_head : Z;
  command_id_counter : Z;
  db_stride : Z;
  asq_db : Z;
  acq_db : Z;
  boot_map : list limine_memmap_entry;   (* [memmap_request.response->entries] *)
  offset : Z;                            (* [hhdm_request.response->offset] *)
  machine : W;
}.
Arguments Nvme {W}.
Arguments regs {W}.
Arguments asq_ring {W}.
Arguments acq_ring {W}.
Arguments asq_tail {W}.
Arguments acq_head {W}.
Arguments command_id_counter {W}.
Arguments db_stride {W}.
Arguments asq_db {W}.
Arguments acq_db {W}.
Arguments boot_map {W}.
Arguments offset {W}.
Arguments machine {W}.

(** ** Pages of the boot loader's map *)

Fixpoint allocate_limine_physical_page (entries : list limine_memmap_entry) : Z * list limine_memmap_entry :=
  match entries with
  | [] => (0, [])
  | e :: entries' =>
      if (e_type e =? LIMINE_MEMMAP_USABLE) && (4096 <=? e_length e) then
        (e_base e, MemmapEntry (u64 (e_base e + 4096)) (u64 (e_length e - 4096)) (e_type e) :: entries')
      else let '(p, entries') := allocate_limine_physical_page entries' in (p, e :: entries')
  end.

Section Driver.
Context {W : Type} `{Machine W}.

Abbreviation Nv := (M (nvme W)).

Definition with_machine (w : W) (s : nvme W) : nvme W :=
  Nvme (regs s) (asq_ring s) (acq_ring s) (asq_tail s) (acq_head s) (command_id_counter s) (db_stride s)
    (asq_db s) (acq_db s) (boot_map s) (offset s) w.

Definition load (a : Z) (n : nat) : Nv Z := fun s =>
  let '(v, w) := vread (machine s) a n in Some (Val v, with_machine w s).
Definition store (a : Z) (n : nat) (v : Z) : Nv unit := modify (fun s => with_machine (vwrite (machine s) a n v) s).

(** [memset(ring, 0, 4096)] and [memcpy] of bytes *)
Definition clear_ring (ring : Z) : Nv unit := for_loop 4096 ring 1 (fun a => store a 1 0).
Fixpoint put_bytes (a : Z) (l : bytes) : Nv unit :=
  match l with
  | [] => mret tt
  | c :: l' => store a 1 c;; put_bytes (a + 1) l'
  end.
Fixpoint get_bytes (a : Z) (n : nat) : Nv bytes :=
  match n with
  | O => mret []
  | S n' => c ← load a 1; l ← get_bytes (a + 1) n'; mret (c :: l)
  end.

Definition allocate_page : Nv Z := fun s =>
  let '(p, entries) := allocate_limine_physical_page (boot_map s) in
  Some (Val p, Nvme (regs s) (asq_ring s) (acq_ring s) (asq_tail s) (acq_head s) (command_id_counter s) (db_stride s)
    (asq_db s) (acq_db s) entries (offset s) (machine s)).

Definition get_hhdm_virtual (physical_address : Z) : Nv Z := gets (fun s => u64 (physical_address + offset s)).
Definition get_physical_from_hhdm (virtual_address : Z) : Nv Z := gets (fun s => u64 (virtual_address - offset s)).

(** [while (cond( *(uint32_t * )(regs + 0x1C) & RDY));] *)
Definition wait_ready (want : bool) : Nv unit :=
  while_true wait_rounds (fun _ : unit =>
    r ← gets regs;
    csts ← load (r + 0x1C) 4;
    let ready := negb (Z.land csts NVME_REG_CSTS_RDY =? 0) in
    mret (if Bool.eqb ready want then inr tt else inl tt)) tt.

Definition set_regs (r : Z) : Nv unit := modify (fun s =>
  Nvme r (asq_ring s) (acq_ring s) (asq_tail s) (acq_head s) (command_id_counter s) (db_stride s)
    (asq_db s) (acq_db s) (boot_map s) (offset s) (machine s)).
Definition set_doorbells (stride asq acq : Z) : Nv unit := modify (fun s =>
  Nvme (regs s) (asq_ring s) (acq_ring s) (asq_tail s) (acq_head s) (command_id_counter s) stride
    asq acq (boot_map s) (offset s) (machine s)).
Definition set_rings (asq acq : Z) : Nv unit := modify (fun s =>
  Nvme (regs s) asq acq (asq_tail s) (acq_head s) (command_id_counter s) (db_stride s)
    (asq_db s) (acq_db s) (boot_map s) (offset s) (machine s)).

Definition nvme_init (bar0_mem_base : Z) : Nv unit :=
  set_regs bar0_mem_base;;
  let r := bar0_mem_base in
  cc ← load (r + 0x14) 4;
  store (r + 0x14) 4 (Z.land cc (not32 NVME_REG_CC_EN));;
  wait_ready false;;
  cap ← load r 8;
  let stride := Z.land (Z.shiftr cap 32) 0xF in
  set_doorbells stride (r + 0x1000) (r + 0x1000 + Z.shiftl 1 (stride + 2));;
  asq_page ← allocate_page;
  asq_virt ← get_hhdm_virtual asq_page;
  acq_page ← allocate_page;
  acq_virt ← get_hhdm_virtual acq_page;
  set_rings asq_virt acq_virt;;
  clear_ring asq_virt;;
  clear_ring acq_virt;;
  store (r + 0x24) 4 (Z.lor (Z.shiftl (QUEUE_SIZE - 1) 16) (QUEUE_SIZE - 1));;
  asq_phys ← get_physical_from_hhdm asq_virt;
  store (r + 0x28) 8 asq_phys;;
  acq_phys ← get_physical_from_hhdm acq_virt;
  store (r + 0x30) 8 acq_phys;;
  cc ← load (r + 0x14) 4;
  store (r + 0x14) 4 (Z.lor cc NVME_REG_CC_EN);;
  wait_ready true.

Definition set_queue (tail head counter : Z) : Nv unit := modify (fun s =>
  Nvme (regs s) (asq_ring s) (acq_ring s) tail head counter (db_stride s)
    (asq_db s) (acq_db s) (boot_map s) (offset s) (machine s)).

(** The completion, as [target_cpl] receives it. *)
Definition nvme_submit_admin_cmd (raw_cmd : bytes) : Nv bytes :=
  cid ← gets command_id_counter;
  tail ← gets asq_tail;
  head ← gets acq_head;
  set_queue tail head (u16 (cid + 1));;
  raw_cmd ← lift (st 2 raw_cmd 2 cid);
  ring ← gets asq_ring;
  cmd ← lift (slice raw_cmd 0 64);
  put_bytes (ring + tail * 64) cmd;;
  let tail := (tail + 1) mod QUEUE_SIZE in
  set_queue tail head (u16 (cid + 1));;
  db ← gets asq_db;
  store db 4 tail;;
  ring ← gets acq_ring;
  let cpl := ring + head * 16 in
  while_true wait_rounds (fun _ : unit =>
    status ← load (cpl + 14) 2;
    mret (if Z.land status 1 =? head / QUEUE_SIZE mod 2 then inl tt else inr tt)) tt;;
  completion ← get_bytes cpl 16;
  let head := (head + 1) mod QUEUE_SIZE in
  set_queue tail head (u16 (cid + 1));;
  db ← gets acq_db;
  store db 4 head;;
  mret completion.

Definition nvme_identify_drive (destination_physical_buffer : Z) : Nv unit :=
  cmd ← lift (wr (zeros 64) 0 NVME_ADMIN_IDENTIFY);
  cmd ← lift (st 4 cmd 4 0);
  cmd ← lift (st 8 cmd 24 destination_physical_buffer);
  cmd ← lift (st 4 cmd 40 1);
  nvme_submit_admin_cmd cmd;;
  mret tt.

(** [pcie_read32] and [pcie_write32] on the machine of the driver *)
Definition config_read (g : pcie) (b d f reg : Z) : Nv Z := fun s =>
  let '(v, w) := pcie_read32 g b d f reg (machine s) in Some (Val v, with_machine w s).
Definition config_write (g : pcie) (b d f reg v : Z) : Nv unit :=
  modify (fun s => with_machine (pcie_write32 g b d f reg v (machine s)) s).

Definition nvme_pci_callback (g : pcie) (b d f : Z) : Nv unit :=
  class_reg ← config_read g b d f 0x08;
  let class_code := Z.land (Z.shiftr class_reg 24) 0xFF in
  let subclass := Z.land (Z.shiftr class_reg 16) 0xFF in
  if (class_code =? 0x01) && (subclass =? 0x08) then
    bar0_low ← config_read g b d f 0x10;
    bar0_high ← config_read g b d f 0x14;
    let mmio_physical := Z.land bar0_low 0xFFFFFFF0 in
    let mmio_physical :=
      if Z.land bar0_low 6 =? 4 then Z.lor mmio_physical (Z.shiftl bar0_high 32) else mmio_physical in
    mmio_virtual ← get_hhdm_virtual mmio_physical;
    command_reg ← config_read g b d f 0x04;
    config_write g b d f 0x04 (Z.lor command_reg (Z.lor 2 4));;
    nvme_init mmio_virtual;;
    identify_phys_page ← allocate_page;
    nvme_identify_drive identify_phys_page
  else mret tt.

(** ** The scan at boot (kernel/kernel.c) *)

(** One function; [true] when the rest of the device is skipped *)
Definition probe (g : pcie) (bus device function : Z) : Nv bool :=
  id_reg ← config_read g bus device function 0x00;
  let vendor_id := Z.land id_reg 0xFFFF in
  if vendor_id =? 0xFFFF then mret (function =? 0)
  else
    class_reg ← config_read g bus device function 0x08;
    let class_code := Z.land (Z.shiftr class_reg 24) 0xFF in
    let subclass := Z.land (Z.shiftr class_reg 16) 0xFF in
    (if (class_code =? 0x01) && (subclass =? 0x08) then nvme_pci_callback g bus device function else mret tt);;
    mret false.

Fixpoint probe_functions (g : pcie) (bus device : Z) (k : nat) (function : Z) : Nv unit :=
  match k with
  | O => mret tt
  | S k' =>
      skip ← probe g bus device function;
      if (skip : bool) then mret tt else probe_functions g bus device k' (function + 1)
  end.

Definition scan_nvme (g : pcie) : Nv unit :=
  for_loop 256 0 1 (fun bus => for_loop 32 0 1 (fun device => probe_functions g bus device 8 0)).

End Driver.

(** ** The pages that the driver takes *)

Lemma allocate_carvable entries p l :
  Forall entry_ok entries -> carvable entries 0 = p :: l ->
  exists entries', allocate_limine_physical_page entries = (p, entries') /\ Forall entry_ok entries' /\ carvable entries' 0 = l.
Proof.
  revert p l. induction entries as [|e entries IH]; intros p l He Hc; [done|].
  apply Forall_cons in He as [(Hb & Hl & Hs) He]. cbn [carvable allocate_limine_physical_page] in *.
  destruct (Z.eqb_spec (e_type e) LIMINE_MEMMAP_USABLE) as [Hu|Hu]; cbn [andb].
  - destruct (Z.leb_spec 4096 (e_length e)) as [Hfit|Hfit].
    + rewrite entry_pages_cons in Hc by lia. injection Hc as <- <-. eexists. split; [by rewrite Z.add_0_r|].
      rewrite !u64_small by (unfold_int; lia). split.
      * apply Forall_cons. split; [unfold entry_ok; cbn; lia | done].
      * cbn [carvable e_type]. rewrite (proj2 (Z.eqb_eq _ _) Hu). f_equal. unfold entry_pages. cbn [e_base e_length].
        rewrite !Z.sub_0_r. apply list_fmap_ext. intros. cbn. lia.
    + rewrite entry_pages_nil in Hc by lia. destruct (IH p l He Hc) as (entries' & -> & He' & Hc'). eexists. split; [done|]. split; [by constructor|].
      cbn [carvable]. rewrite (proj2 (Z.eqb_eq _ _) Hu), entry_pages_nil by lia. done.
  - destruct (IH p l He Hc) as (entries' & -> & He' & Hc'). eexists. split; [done|]. split; [by constructor|].
    cbn [carvable]. rewrite eqb_neq by done. done.
Qed.

Definition with_map (entries : list limine_memmap_entry) (s : mmu) : mmu :=
  MMU (mem s) (cr3 s) (efer s) (Some entries) (hhdm s) (free_page_head s) (alloc_index s) (alloc_offset s).

(** C31: Pages that drivers take at boot.  As long as the page allocator has not given
    out or taken back a page, [allocate_limine_physical_page] yields the page that the
    allocator would have given next, and leaves the memory map such that the allocator
    gives exactly the other pages: a ring of the NVMe driver is never handed out as
    the page of a process. *)
Theorem boot_page_leaves_pool s entries p l :
  pmm_ok s (p :: l) -> memmap s = Some entries -> free_page_head s = 0 -> alloc_index s = 0 -> alloc_offset s = 0 ->
  exists entries', allocate_limine_physical_page entries = (p, entries') /\ pmm_ok (with_map entries' s) l /\ p ∉ l.
Proof.
  intros [Hh Hram Hnd Hpg (entries0 & fl & Hmap & He & Hl & Hc & Hi & Ho)] Hm Hfree Hix Hof.
  rewrite Hm in Hmap. injection Hmap as <-. apply NoDup_cons in Hnd as [Hfresh Hnd]. pose proof Hpg as [(_ & Hp0 & _) Hpg']%Forall_cons.
  destruct fl as [|q fl]; [|destruct Hc as [Hq _]; injection Hl as -> _; congruence].
  rewrite Hix, Hof in Hl. cbn [app] in Hl. change (Z.to_nat 0) with O in Hl. rewrite drop_0 in Hl.
  destruct (allocate_carvable entries p l He (eq_sym Hl)) as (entries' & E & He' & Hc').
  exists entries'. split; [done|]. split; [|done]. constructor; cbn; try done.
  exists entries', []. rewrite Hix, Hof. change (Z.to_nat 0) with O. rewrite drop_0. split_and!; try done.
Qed.

(** ** A controller *)

Module Rings.

(** Bytes of memory, the number of commands that were rung in, and a completion that is
    posted after a number of reads of the processor. *)
Record board := Board { ram : gmap Z Z; rung : Z; pending : option (nat * Z * bytes) }.

Definition asq : Z := 0x1000.
Definition acq : Z := 0x2000.
Definition bell : Z := 0x9000.

Fixpoint put (a : Z) (l : bytes) (m : gmap Z Z) : gmap Z Z :=
  match l with [] => m | c :: l' => put (a + 1) l' (<[a := c]> m) end.

Definition get (m : gmap Z Z) (a : Z) (n : nat) : bytes := (fun i => default 0 (m !! (a + Z.of_nat i))) <$> seq 0 n.

Definition post (b : board) : board :=
  match pending b with
  | Some (O, a, l) => Board (put a l (ram b)) (rung b) None
  | Some (S n, a, l) => Board (ram b) (rung b) (Some (n, a, l))
  | None => b
  end.

(** The completion of command [n]: its identifier, and a phase that changes with every
    pass through the queue. *)
Definition complete (b : board) : board :=
  let n := rung b in
  let slot := n mod 64 in
  let cid := get (ram b) (asq + slot * 64 + 2) 2 in
  Board (ram b) (n + 1) (Some (40%nat, acq + slot * 16, zeros 12 ++ cid ++ [(n / 64 + 1) mod 2; 0])).

#[export] Instance board_machine : Machine board := {
  vread b a n := (le_val (get (ram b) a n), post b);
  vwrite b a n v :=
    if a =? bell then complete b else Board (put a (le_bytes n v) (ram b)) (rung b) (pending b);
}.

Definition ready : nvme board := Nvme 0x8000 asq acq 0 0 0 0 bell (bell + 4) [] 0 (Board ∅ 0 None).

(** The identifiers in the completions of the first [n] commands. *)
Fixpoint answered (n : nat) (s : nvme board) : list Z :=
  match n with
  | O => []
  | S n' =>
      match nvme_submit_admin_cmd (zeros 64) s with
      | Some (Val cpl, s') => default (-1) (ld 2 cpl 12) :: answered n' s'
      | _ => []
      end
  end.

(** The first sixty-four commands get their own completions.  The phase that the
    driver waits for does not change when the queue wraps around, since [acq_head] is
    always less than [QUEUE_SIZE]: the next command is answered at once with the
    completion of the first. *)
Example stale_completion : answered 65 ready = (Z.of_nat <$> seq 0 64) ++ [0].
Proof. vm_compute. reflexivity. Qed.

(** A page allocator that has already given out a page: the driver takes the same
    page. *)
Example boot_page_taken_twice :
  let map := [MemmapEntry 0x2000 0x4000 LIMINE_MEMMAP_USABLE] in
  let s := MMU (list_to_map [(0x2000, zero_page); (0x3000, zero_page)]) 0x1000 0 (Some map) (Some 0) 0 0 0 in
  match pmm_alloc_zeroed_page s with
  | Some (Val p, _) => fst (allocate_limine_physical_page map) = p
  | _ => False
  end.
Proof. vm_compute. reflexivity. Qed.

Lemma boot_page_leaves_pool_witness :
  pmm_ok demo2 demo_pages /\
  exists entries', allocate_limine_physical_page [usable 0x2000 0x4000] = (0x2000, entries') /\
    pmm_ok (with_map entries' demo2) [0x3000; 0x4000; 0x5000] /\ 0x2000 ∉ [0x3000; 0x4000; 0x5000].
Proof.
  split; [exact demo2_pmm|].
  exact (boot_page_leaves_pool demo2 _ 0x2000 [0x3000; 0x4000; 0x5000] demo2_pmm eq_refl eq_refl eq_refl eq_refl).
Defined.

End Rings.
