(* ===== verification/Elf.v ===== *)
(** * The ELF loader (helper/core/execute/elf.c, arguments.h, run.c)

    The loader reads the executable through the file system and builds the user
    half of the current address space.  Its state is the file store and the
    memory; [ExecStore] names the two further entry points of the file system
    it uses.  A [goto failure] is an early return of the error code.  Messages
    on the console are not modelled. *)

From S2P Require Import Prelude CMonad FileStore Mmu.

Definition ELF_CLASS_64 : Z := 2.
Definition ELF_DATA_LSB : Z := 1.
Definition ELF_VERSION_CURRENT : Z := 1.
Definition ELF_OSABI_LINUX : Z := 3.
Definition ELF_TYPE_EXEC : Z := 2.
Definition ELF_MACHINE_X86_64 : Z := 62.
Definition PT_LOAD : Z := 1.
Definition PT_NOTE : Z := 4.
Definition PF_X : Z := 1.
Definition USER_ADDRESS_LIMIT : Z := 0x0000800000000000.
Definition USER_STACK_VADDR : Z := 0x00007FFFFFFFF000.
Definition USER_STACK_PAGE_COUNT : Z := 8.
Definition MAX_SYSCALL_CONTEXT_DEPTH : Z := 64.
Definition USER_STACK_SIZE : Z := PAGE_SIZE * USER_STACK_PAGE_COUNT.
Definition USER_STACK_BASE : Z := USER_STACK_VADDR + PAGE_SIZE - USER_STACK_SIZE.
Definition MAX_ELF_FILE_SIZE : Z := 16 * 1024 * 1024.
Definition MAX_ELF_MEMORY_SIZE : Z := 64 * 1024 * 1024.
Definition USER_ARGUMENT_AREA_SIZE : Z := USER_STACK_SIZE / 2.
Definition MAX_ELF_PROGRAM_HEADERS : Z := 256.
Definition MAX_FLAT_BINARY_SIZE : Z := 16 * 1024 * 1024.
Definition EHDR_SIZE : Z := 64.
Definition PHDR_SIZE : Z := 56.
Definition NOTE_SIZE : Z := 12.

Record elf64_ehdr := Ehdr {
  e_ident : bytes; e_type : Z; e_machine : Z; e_version : Z; e_entry : Z; e_phoff : Z;
  e_ehsize : Z; e_phentsize : Z; e_phnum : Z }.

Record elf64_phdr := Phdr {
  p_type : Z; p_flags : Z; p_offset : Z; p_vaddr : Z; p_filesz : Z; p_memsz : Z; p_align : Z }.

(** The packed structures, from their bytes. *)
Definition ehdr_of (b : bytes) : option elf64_ehdr :=
  ident ← slice b 0 16;
  ty ← ld 2 b 16; machine ← ld 2 b 18; version ← ld 4 b 20; entry ← ld 8 b 24; phoff ← ld 8 b 32;
  ehsize ← ld 2 b 52; phentsize ← ld 2 b 54; phnum ← ld 2 b 56;
  Some (Ehdr ident ty machine version entry phoff ehsize phentsize phnum).

Definition phdr_of (b : bytes) : option elf64_phdr :=
  ty ← ld 4 b 0; flags ← ld 4 b 4; offset ← ld 8 b 8; vaddr ← ld 8 b 16;
  filesz ← ld 8 b 32; memsz ← ld 8 b 40; al ← ld 8 b 48;
  Some (Phdr ty flags offset vaddr filesz memsz al).

Definition align_down_page (value : Z) : Z := Z.land value PAGE_MASK.
Definition align_up_page (value : Z) : Z := Z.land (u64 (value + PAGE_SIZE - 1)) PAGE_MASK.

(** ** Arguments (arguments.h) *)

(** [while (length < 256 && s[length] != 0) length++;] *)
Fixpoint arg_length (k : nat) (s : bytes) (length : Z) : option Z :=
  match k with
  | O => Some length
  | S k' =>
      match s with
      | [] => None
      | c :: s' => if c =? 0 then Some length else arg_length k' s' (length + 1)
      end
  end.

(** The strings: what is stored at which offset of [stack_memory], the addresses
    of the strings and the end of the area used, or [None] for a failure after
    these stores. *)
Fixpoint put_strings (argv : list (option bytes)) (user_stack_base argument_area_size cursor : Z)
  : option (list (Z * bytes) * option (list Z * Z)) :=
  match argv with
  | [] => Some ([], Some ([], cursor))
  | None :: _ => Some ([], None)
  | Some s :: argv' =>
      length ← arg_length 256 s 0;
      if (length =? 256) || (argument_area_size <? cursor) || (argument_area_size - cursor <? length + 1)
      then Some ([], None)
      else
        text ← slice s 0 length;
        '(writes, r) ← put_strings argv' user_stack_base argument_area_size (cursor + length + 1);
        Some ((cursor, text ++ [0]) :: writes,
              match r with
              | Some (addresses, last) => Some (u64 (user_stack_base + cursor) :: addresses, last)
              | None => None
              end)
  end.

(** [argv] are the [argc] pointers; the result is [Some user_argv] or [None] for
    -1, with the stores to [stack_memory] made so far. *)
Definition prepare_user_arguments (user_stack_base argument_area_size argc : Z)
  (argv : option (list (option bytes))) : option (list (Z * bytes) * option Z) :=
  if (argc <? 0) || (32 <? argc) || ((0 <? argc) && bool_decide (argv = None)) then Some ([], None)
  else
    argv ← slice (default [] argv) 0 argc;
    '(writes, r) ← put_strings argv user_stack_base argument_area_size 0;
    match r with
    | None => Some (writes, None)
    | Some (addresses, last) =>
        let cursor := Z.ldiff (last + 7) 7 in
        let vector_size := (argc + 1) * 8 in
        if (argument_area_size <? cursor) || (argument_area_size - cursor <? vector_size)
        then Some (writes, None)
        else
          let vector := concat (le_bytes 8 <$> addresses) ++ le_bytes 8 0 in
          Some (writes ++ [(cursor, vector)], Some (u64 (user_stack_base + cursor)))
    end.

(** ** The loader *)

Class ExecStore (F : Type) `{FileStore F} := {
  fs_exists : F -> bytes -> option (Z * F);
  fs_get_info : F -> bytes -> option (option (Z * bool) * F);
}.

(** [m_prog] is the object the parameter [program] points to. *)
Record machine (F : Type) := Machine { m_fs : F; m_mm : mmu; m_prog : program_memory_t }.
Arguments Machine {F}.
Arguments m_fs {F}.
Arguments m_mm {F}.
Arguments m_prog {F}.

(** What a successful load reports. *)
Record loaded := Loaded {
  ld_entry : Z; ld_stack : Z; ld_user_argv : Z; ld_linux_abi : bool; ld_heap_base : Z }.

Section Loader.
Context {F : Type} `{ExecStore F}.

Abbreviation E := (M (machine F)).

Definition on_mm {A} (m : Mm A) : E A := zoom m_mm (fun mm s => Machine (m_fs s) mm (m_prog s)) m.

Definition on_fs {A} (f : F -> option (A * F)) : E A := fun s =>
  '(a, fs) ← f (m_fs s);
  Some (Val a, Machine fs (m_mm s) (m_prog s)).

(** [fs_read_raw_at(filename, buf, offset, n)]: the result and the bytes. *)
Definition read_at (filename : bytes) (offset n : Z) : E (Z * bytes) :=
  on_fs (fun f => '(rc, d, f) ← fs_read_raw_at f filename offset n; Some ((rc, d), f)).

(** One note: [inr true] ends the search with success, [inr false] ends this
    segment, [inl] is the next cursor. *)
Definition note_round (filename : bytes) (phdr : elf64_phdr) (cursor : Z) : E (Z + bool) :=
  if (p_filesz phdr <? cursor) || (p_filesz phdr - cursor <? NOTE_SIZE) then mret (inr false)
  else
    '(read_bytes, note) ← read_at filename (u64 (p_offset phdr + cursor)) NOTE_SIZE;
    if negb (read_bytes =? NOTE_SIZE) then mret (inr false) else
    namesz ← lift (ld 4 note 0);
    descsz ← lift (ld 4 note 4);
    ty ← lift (ld 4 note 8);
    let cursor := cursor + NOTE_SIZE in
    let name_size := Z.ldiff (namesz + 3) 3 in
    let desc_size := Z.ldiff (descsz + 3) 3 in
    if (p_filesz phdr - cursor <? name_size) || (p_filesz phdr - cursor - name_size <? desc_size)
    then mret (inr false)
    else
      let next := inl (cursor + name_size + desc_size) in
      if negb ((ty =? 1) && (namesz =? 4) && (4 <=? descsz)) then mret next
      else
        '(read_bytes, name) ← read_at filename (u64 (p_offset phdr + cursor)) 4;
        if negb (read_bytes =? 4) then mret (inr false)
        else if negb (bool_decide (take 4 name = lit "GNU" ++ [0])) then mret next
        else
          '(read_bytes, os) ← read_at filename (u64 (p_offset phdr + cursor + name_size)) 4;
          if negb (read_bytes =? 4) then mret (inr false)
          else
            os ← lift (ld 4 os 0);
            mret (if os =? 0 then inr true else next).

Fixpoint notes_linux (filename : bytes) (phdrs : list elf64_phdr) (file_size : Z) : E bool :=
  match phdrs with
  | [] => mret false
  | phdr :: phdrs' =>
      if negb (p_type phdr =? PT_NOTE) || (file_size <? p_offset phdr) ||
         (file_size - p_offset phdr <? p_filesz phdr)
      then notes_linux filename phdrs' file_size
      else
        found ← while_true 18446744073709551616 (note_round filename phdr) 0;
        if (found : bool) then mret true else notes_linux filename phdrs' file_size
  end.

Definition elf_uses_linux_abi (filename : bytes) (ehdr : elf64_ehdr) (phdrs : list elf64_phdr)
  (file_size : Z) : E bool :=
  osabi ← lift (rd (e_ident ehdr) 7);
  if osabi =? ELF_OSABI_LINUX then mret true else notes_linux filename phdrs file_size.

Definition header_ok (ehdr : elf64_ehdr) : bool :=
  bool_decide (take 7 (e_ident ehdr) =
    [0x7F; 69; 76; 70; ELF_CLASS_64; ELF_DATA_LSB; ELF_VERSION_CURRENT]) &&
  (e_type ehdr =? ELF_TYPE_EXEC) && (e_machine ehdr =? ELF_MACHINE_X86_64) &&
  (e_version ehdr =? ELF_VERSION_CURRENT) && (e_ehsize ehdr =? EHDR_SIZE) &&
  (e_phentsize ehdr =? PHDR_SIZE) && negb (e_phnum ehdr =? 0) &&
  (e_phnum ehdr <=? MAX_ELF_PROGRAM_HEADERS).

(** The program headers [i .. i + k - 1]. *)
Fixpoint read_phdrs (k : nat) (filename : bytes) (ehdr : elf64_ehdr) (i : Z) : E (list elf64_phdr) :=
  match k with
  | O => mret []
  | S k' =>
      '(read_bytes, b) ← read_at filename (u64 (e_phoff ehdr + i * e_phentsize ehdr)) PHDR_SIZE;
      if negb (read_bytes =? PHDR_SIZE) then exit (-5) else
      phdr ← lift (phdr_of b);
      rest ← read_phdrs k' filename ehdr (i + 1);
      mret (phdr :: rest)
  end.

Definition is_load (phdr : elf64_phdr) : bool := (p_type phdr =? PT_LOAD) && negb (p_memsz phdr =? 0).

Definition segment_in_bounds (size : Z) (phdr : elf64_phdr) : bool :=
  negb ((p_memsz phdr <? p_filesz phdr) || (size <? p_offset phdr) ||
        (size - p_offset phdr <? p_filesz phdr) || (p_vaddr phdr <? PAGE_SIZE) ||
        (USER_STACK_BASE <=? p_vaddr phdr) || (USER_STACK_BASE - p_vaddr phdr <? p_memsz phdr)).

Definition segment_aligned (phdr : elf64_phdr) : bool :=
  negb ((1 <? p_align phdr) &&
        (negb (Z.land (p_align phdr) (p_align phdr - 1) =? 0) ||
         negb (Z.land (p_vaddr phdr) (p_align phdr - 1) =? Z.land (p_offset phdr) (p_align phdr - 1)))).

Definition seg_start (phdr : elf64_phdr) : Z := align_down_page (p_vaddr phdr).
Definition seg_end (phdr : elf64_phdr) : Z := u64 (p_vaddr phdr + p_memsz phdr).
Definition seg_page_end (phdr : elf64_phdr) : Z := align_up_page (seg_end phdr).

(** Does the segment share a page with one of the earlier ones? *)
Definition overlaps (earlier : list elf64_phdr) (phdr : elf64_phdr) : bool :=
  existsb (fun other => is_load other && (seg_start phdr <? seg_page_end other) &&
                        (seg_start other <? seg_page_end phdr)) earlier.

(** One page of a segment. *)
Definition load_page (filename : bytes) (phdr : elf64_phdr) (page_vaddr : Z) : E unit :=
  page_phys ← on_mm pmm_alloc_zeroed_page;
  if page_phys =? 0 then exit (-3) else
  on_mm (map_user_page page_vaddr page_phys);;
  let file_end := u64 (p_vaddr phdr + p_filesz phdr) in
  let copy_start := if p_vaddr phdr <? page_vaddr then page_vaddr else p_vaddr phdr in
  let page_limit := page_vaddr + PAGE_SIZE in
  let copy_end := if page_limit <? file_end then page_limit else file_end in
  if copy_start <? copy_end then
    let file_offset := u64 (p_offset phdr + (copy_start - p_vaddr phdr)) in
    let copy_size := copy_end - copy_start in
    '(read_bytes, data) ← read_at filename file_offset copy_size;
    on_mm (store_bytes (page_phys + (copy_start - page_vaddr)) data);;
    if (read_bytes <? 0) || negb (read_bytes =? copy_size) then exit (-4) else mret tt
  else mret tt.

(** The local variables of the loop over the segments. *)
Record progress := Progress {
  total_pages : Z;
  highest_load_address : Z;
  entry_is_executable : bool;
}.

Definition add_region (r : program_region_t) : E unit :=
  modify (fun s => Machine (m_fs s) (m_mm s)
    (Program (regions (m_prog s) ++ [r]) (stack_base (m_prog s)) (stack_pages (m_prog s)))).

(** One loadable segment, after [earlier]. *)
Definition load_segment (filename : bytes) (size entry : Z) (earlier : list elf64_phdr)
  (phdr : elf64_phdr) (acc : progress) : E progress :=
  if negb (segment_in_bounds size phdr) then exit (-5) else
  if negb (segment_aligned phdr) then exit (-5) else
  let page_start := seg_start phdr in
  let page_end := seg_page_end phdr in
  prog ← gets m_prog;
  if MAX_ELF_PROGRAM_HEADERS <=? zlen (regions prog) then exit (-5) else
  add_region (Region page_start page_end);;
  let segment_pages := (page_end - page_start) / PAGE_SIZE in
  if MAX_ELF_MEMORY_SIZE / PAGE_SIZE - total_pages acc <? segment_pages then exit (-5) else
  if overlaps earlier phdr then exit (-5) else
  for_loop (Z.to_nat segment_pages) page_start PAGE_SIZE (load_page filename phdr);;
  mret (Progress (total_pages acc + segment_pages)
                 (if highest_load_address acc <? seg_end phdr then seg_end phdr
                  else highest_load_address acc)
                 (entry_is_executable acc ||
                  (negb (Z.land (p_flags phdr) PF_X =? 0) &&
                   (p_vaddr phdr <=? entry) && (entry <? seg_end phdr)))).

Fixpoint load_segments (filename : bytes) (size entry : Z) (earlier phdrs : list elf64_phdr)
  (acc : progress) : E progress :=
  match phdrs with
  | [] => mret acc
  | phdr :: phdrs' =>
      acc ← (if is_load phdr then load_segment filename size entry earlier phdr acc else mret acc);
      load_segments filename size entry (earlier ++ [phdr]) phdrs' acc
  end.

(** The stack pages from [i] on; the result is the physical address of the
    first one. *)
Fixpoint map_stack (k : nat) (i stack_phys : Z) : E Z :=
  match k with
  | O => mret stack_phys
  | S k' =>
      page_phys ← on_mm pmm_alloc_zeroed_page;
      if page_phys =? 0 then exit (-3) else
      on_mm (map_user_page (USER_STACK_BASE + i * PAGE_SIZE) page_phys);;
      map_stack k' (i + 1) (if i =? 0 then page_phys else stack_phys)
  end.

Fixpoint apply_writes (base : Z) (l : list (Z * bytes)) : Mm unit :=
  match l with
  | [] => mret tt
  | (off, b) :: l' => store_bytes (base + off) b;; apply_writes base l'
  end.

(** [Some] is the result 0 with the output parameters; an error code is an
    early return. *)
Definition load_body (filename : bytes) (size argc : Z) (argv : option (list (option bytes))) : E loaded :=
  c0 ← lift (rd filename 0);
  if (c0 =? 0) || (size <? EHDR_SIZE) || (MAX_ELF_FILE_SIZE <? size) then exit (-1) else
  if (argc <? 0) || (32 <? argc) then exit (-1) else
  if (0 <? argc) && bool_decide (argv = None) then exit (-1) else
  e ← on_fs (fun f => fs_exists f filename);
  if e =? 0 then exit (-1) else
  h ← gets (fun s => hhdm (m_mm s));
  if negb (not_null h) then exit (-2) else
  '(read_bytes, b) ← read_at filename 0 EHDR_SIZE;
  if negb (read_bytes =? EHDR_SIZE) then exit (-4) else
  ehdr ← lift (ehdr_of b);
  if negb (header_ok ehdr) then exit (-5) else
  let phdr_bytes := e_phnum ehdr * e_phentsize ehdr in
  if (size <? e_phoff ehdr) || (size - e_phoff ehdr <? phdr_bytes) then exit (-5) else
  phdrs ← read_phdrs (Z.to_nat (e_phnum ehdr)) filename ehdr 0;
  acc ← load_segments filename size (e_entry ehdr) [] phdrs (Progress 0 0 false);
  if total_pages acc =? 0 then exit (-5) else
  if negb (entry_is_executable acc) then exit (-5) else
  if USER_ADDRESS_LIMIT <=? e_entry ehdr then exit (-5) else
  stack_phys ← map_stack (Z.to_nat USER_STACK_PAGE_COUNT) 0 0;
  '(writes, r) ← lift (prepare_user_arguments USER_STACK_BASE USER_ARGUMENT_AREA_SIZE argc argv);
  on_mm (apply_writes stack_phys writes);;
  match r with
  | None => exit (-5)
  | Some user_argv =>
      linux_abi ← elf_uses_linux_abi filename ehdr phdrs size;
      mret (Loaded (e_entry ehdr) (USER_STACK_VADDR + PAGE_SIZE - 8) user_argv linux_abi
                   (align_up_page (highest_load_address acc)))
  end.

Definition system_load_elf_args (filename : option bytes) (size argc : Z)
  (argv : option (list (option bytes))) : E loaded :=
  match filename with
  | None => exit (-1)
  | Some filename => load_body filename size argc argv
  end.

(** ** Running (elf.c, run.c) *)

(** How [system_run_elf_args_impl] ends: with an error code, or in user mode. *)
Inductive launch :=
  | Failed (rc : Z)
  | Entered (l : loaded) (argc : Z).

(** The slot [syscall_context_depth - 1] is an [uint32_t]; [m_prog] is the entry
    of [active_programs] for this slot. *)
Definition system_run_elf_args_impl (syscall_context_depth : Z) (filename : option bytes) (size argc : Z)
  (argv : option (list (option bytes))) : E launch :=
  let current_slot := u32 (syscall_context_depth - 1) in
  if MAX_SYSCALL_CONTEXT_DEPTH <=? current_slot then mret (Failed (-1))
  else
    let bad := (argc <? 0) || (32 <? argc) || bool_decide (argv = None) in
    let argc := if bad then 0 else argc in
    let argv := if bad then None else argv in
    modify (fun s => Machine (m_fs s) (m_mm s) (Program [] 0 0));;
    r ← attempt (system_load_elf_args filename size argc argv);
    match r with
    | inl l => mret (Entered l argc)
    | inr rc =>
        prog ← gets m_prog;
        on_mm (cleanup_program_pages (Some prog));;
        mret (Failed rc)
    end.

Definition system_run_elf_impl (syscall_context_depth : Z) (filename : option bytes) (size : Z) : E launch :=
  system_run_elf_args_impl syscall_context_depth filename size 0 None.

(** The slot that ended; its program record is [m_prog]. *)
Definition system_elf_post_cleanup (finished_slot : Z) : E unit :=
  if finished_slot <? MAX_SYSCALL_CONTEXT_DEPTH then
    prog ← gets m_prog;
    on_mm (cleanup_program_pages (Some prog));;
    modify (fun s => Machine (m_fs s) (m_mm s) (Program [] 0 0))
  else mret tt.

(** [Some] means that [system_run_elf_args] is called with this size. *)
Definition system_exec_args (path : option bytes) (argc : Z) (argv : option (list (option bytes)))
  : E (option Z) :=
  match path with
  | None => mret None
  | Some path =>
      c0 ← lift (rd path 0);
      if (c0 =? 0) || (argc <? 0) || (32 <? argc) || ((0 <? argc) && bool_decide (argv = None))
      then mret None else
      info ← on_fs (fun f => fs_get_info f path);
      match info with
      | None => mret None
      | Some (file_size, is_dir) =>
          if (is_dir : bool) || (file_size =? 0) || (MAX_FLAT_BINARY_SIZE <? file_size) then mret None else
          '(read_bytes, buffer) ← read_at path 0 4;
          if (read_bytes =? 4) && bool_decide (take 4 buffer = [0x7F; 69; 76; 70])
          then mret (Some file_size) else mret None
      end
  end.

Definition system_exec (path : option bytes) : E (option Z) := system_exec_args path 0 None.

End Loader.
