(* ===== verification/ElfProofs.v ===== *)
(** * What the loader guarantees

    A load that succeeds has checked the program: its segments lie in user
    space below the stack, do not share pages, and contain the entry point.
    The argument area is laid out as the C calling convention expects, inside
    its bounds. *)

From S2P Require Import Prelude FileStore CMonad Mmu Elf.

Section Layout.
Context {F : Type} `{ExecStore F}.
Implicit Types (s : machine F) (ph : elf64_phdr).

(** The pages of a segment. *)
Definition seg_pages ph : Z := (seg_page_end ph - seg_start ph) / PAGE_SIZE.
Definition sum_pages (l : list elf64_phdr) : Z := foldr Z.add 0 (seg_pages <$> l).
Definition loads (phdrs : list elf64_phdr) : list elf64_phdr := filter (fun ph => is_load ph = true) phdrs.
Definition seg_region ph : program_region_t := Region (seg_start ph) (seg_page_end ph).

Definition disjoint ph ph' : Prop := seg_page_end ph <= seg_start ph' \/ seg_page_end ph' <= seg_start ph.

Definition covers (entry : Z) ph : Prop :=
  Z.land (p_flags ph) PF_X <> 0 /\ p_vaddr ph <= entry < seg_end ph.

(** ** Programs that leave the program record alone *)

Definition keeps {A} (m : M (machine F) A) : Prop :=
  forall s o s', m s = Some (o, s') -> m_prog s' = m_prog s.

Lemma keeps_ret {A} (a : A) : keeps (mret a).
Proof. by intros s o s' [= _ <-]. Qed.
Lemma keeps_exit {A} rc : keeps (exit (A := A) rc).
Proof. by intros s o s' [= _ <-]. Qed.
Lemma keeps_gets {A} (f : machine F -> A) : keeps (gets f).
Proof. by intros s o s' [= _ <-]. Qed.
Lemma keeps_lift {A} (a : option A) : keeps (lift a).
Proof. intros s o s'. unfold lift. destruct a; [|done]. by intros [= _ <-]. Qed.
Lemma keeps_mm {A} (m : Mm A) : keeps (on_mm m).
Proof. intros s o s'. unfold on_mm, zoom. destruct (m (m_mm s)) as [[? ?]|]; [|done]. by intros [= _ <-]. Qed.
Lemma keeps_fs {A} (f : F -> option (A * F)) : keeps (on_fs f).
Proof. intros s o s'. unfold on_fs. destruct (f (m_fs s)) as [[? ?]|]; [|done]. by intros [= _ <-]. Qed.

Lemma keeps_bind {A B} (m : M (machine F) A) (k : A -> M (machine F) B) :
  keeps m -> (forall a, keeps (k a)) -> keeps (m ≫= k).
Proof.
  intros Hm Hk s o s'. unfold mbind, M_bind. destruct (m s) as [[[a|rc] s1]|] eqn:E; [..|done].
  - intros Hr. rewrite (Hk a _ _ _ Hr). by eapply Hm.
  - intros [= _ <-]. by eapply Hm.
Qed.

Lemma keeps_while {A B} p (body : A -> M (machine F) (A + B)) a :
  (forall a, keeps (body a)) -> keeps (while_pos p body a).
Proof.
  intros Hb. revert a. induction p as [p IH|p IH|]; intros a; cbn [while_pos]; [..|apply Hb];
    repeat (apply keeps_bind; [solve [auto]|]; intros [|]); auto using keeps_ret.
Qed.

Lemma keeps_for k i step (body : Z -> M (machine F) unit) :
  (forall i, keeps (body i)) -> keeps (for_loop k i step body).
Proof.
  intros Hb. revert i. induction k as [|k IH]; intros i; cbn [for_loop]; [apply keeps_ret|].
  by apply keeps_bind.
Qed.

Lemma keeps_read fn off n : keeps (read_at fn off n).
Proof. apply keeps_fs. Qed.

Ltac keeps :=
  repeat first
    [ apply keeps_ret | apply keeps_exit | apply keeps_gets | apply keeps_lift | apply keeps_mm
    | apply keeps_fs | apply keeps_for; intros ? | apply keeps_while; intros ?
    | apply keeps_bind; [|intros ?] | progress cbv zeta | case_match ].

Lemma keeps_page fn ph v : keeps (load_page fn ph v).
Proof. unfold load_page, read_at. keeps. Qed.

Lemma keeps_phdrs k fn ehdr i : keeps (read_phdrs k fn ehdr i).
Proof. revert i. induction k as [|k IH]; intros i; cbn [read_phdrs]; unfold read_at; keeps; apply IH. Qed.

Lemma keeps_stack k i sp : keeps (map_stack k i sp).
Proof. revert i sp. induction k as [|k IH]; intros i sp; cbn [map_stack]; keeps; apply IH. Qed.

Lemma keeps_abi fn ehdr phdrs size : keeps (elf_uses_linux_abi fn ehdr phdrs size).
Proof.
  unfold elf_uses_linux_abi. apply keeps_bind; [keeps|]. intros a. case_match; [keeps|].
  induction phdrs as [|ph phdrs IH]; cbn [notes_linux]; [keeps|].
  unfold while_true, note_round, read_at. case_match; [done|]. keeps; done.
Qed.

Lemma lift_inv {A} (o : option A) s a s' : lift o s = Some (Val a, s') -> o = Some a /\ s' = s.
Proof. unfold lift. destruct o; [|done]. cbn. by intros [= <- <-]. Qed.

(** One segment. *)
Lemma load_segment_inv fn size entry earlier ph acc s acc' s' :
  load_segment fn size entry earlier ph acc s = Some (Val acc', s') ->
  segment_in_bounds size ph = true /\ segment_aligned ph = true /\ overlaps earlier ph = false /\
  total_pages acc' = total_pages acc + seg_pages ph /\ total_pages acc' <= 16384 /\
  (entry_is_executable acc' = true -> entry_is_executable acc = true \/ covers entry ph) /\
  regions (m_prog s') = regions (m_prog s) ++ [seg_region ph].
Proof.
  unfold load_segment. intros Hrun. mcond Hrun as Hb. mcond Hrun as Ha. minv Hrun as (prog & s1 & E1 & Hrun).
  injection E1 as <- <-. mcond Hrun as Hc. minv Hrun as ([] & s2 & E2 & Hrun). injection E2 as <-.
  cbv zeta in Hrun. mcond Hrun as Ht. mcond Hrun as Ho. minv Hrun as ([] & s3 & E3 & Hrun). injection Hrun as <- <-.
  apply (keeps_for _ _ _ _ (keeps_page _ _)) in E3. apply negb_false_iff in Hb, Ha. apply Z.ltb_ge in Ht.
  split_and!; try done.
  - cbn [total_pages]. change (MAX_ELF_MEMORY_SIZE / PAGE_SIZE) with 16384 in Ht. unfold seg_pages. lia.
  - cbn [entry_is_executable]. intros [?|Hcov]%orb_true_iff; [by left | right].
    apply andb_true_iff in Hcov as [[Hx Hlo]%andb_true_iff Hhi]. unfold covers.
    rewrite negb_true_iff, Z.eqb_neq in Hx. lia.
  - by rewrite E3.
Qed.

Fixpoint layout_ok (size : Z) (earlier phdrs : list elf64_phdr) : Prop :=
  match phdrs with
  | [] => True
  | ph :: rest =>
      (is_load ph = true ->
       segment_in_bounds size ph = true /\ segment_aligned ph = true /\ overlaps earlier ph = false) /\
      layout_ok size (earlier ++ [ph]) rest
  end.

Lemma load_segments_inv fn size entry earlier phdrs acc s acc' s' :
  load_segments fn size entry earlier phdrs acc s = Some (Val acc', s') -> total_pages acc <= 16384 ->
  layout_ok size earlier phdrs /\ total_pages acc' <= 16384 /\
  total_pages acc' = total_pages acc + sum_pages (loads phdrs) /\
  (entry_is_executable acc' = true ->
     entry_is_executable acc = true \/ Exists (covers entry) (loads phdrs)) /\
  regions (m_prog s') = regions (m_prog s) ++ (seg_region <$> loads phdrs).
Proof.
  revert earlier acc s. induction phdrs as [|ph phdrs IH]; intros earlier acc s Hrun Ht; cbn [load_segments] in Hrun.
  { injection Hrun as <- <-. cbn. rewrite app_nil_r. split_and!; auto; lia. }
  minv Hrun as (acc1 & s1 & E1 & Hrun). unfold loads. rewrite filter_cons.
  destruct (is_load ph) eqn:El.
  - apply load_segment_inv in E1 as (Hb & Ha & Ho & Ht1 & Ht1' & He & Hr).
    destruct (IH _ _ _ Hrun) as (Hl & Hm & Htot & Hex & Hreg); [lia|].
    rewrite decide_True by done. split_and!; try done.
    + rewrite Htot, Ht1. unfold sum_pages. cbn [fmap list_fmap foldr]. unfold loads. lia.
    + intros [?|?]%Hex; [|by right; apply Exists_cons_tl]. destruct He as [?|?]; [done | by left | by right; apply Exists_cons_hd].
    + rewrite Hreg, Hr, <- app_assoc. done.
  - injection E1 as <- <-. destruct (IH _ _ _ Hrun) as (Hl & Hm & Htot & Hex & Hreg); [lia|].
    rewrite decide_False by congruence. split; [split; [congruence | done] | by split_and!].
Qed.

(** The checks, as inequalities. *)
Definition segment_ok (size : Z) ph : Prop :=
  p_filesz ph <= p_memsz ph /\ p_offset ph <= size /\ p_filesz ph <= size - p_offset ph /\
  PAGE_SIZE <= p_vaddr ph < USER_STACK_BASE /\ p_memsz ph <= USER_STACK_BASE - p_vaddr ph.

Lemma segment_in_bounds_ok size ph : segment_in_bounds size ph = true -> segment_ok size ph.
Proof.
  unfold segment_in_bounds, segment_ok. rewrite negb_true_iff, !orb_false_iff, !Z.ltb_ge, Z.leb_gt. lia.
Qed.

Lemma overlaps_disjoint earlier ph other :
  overlaps earlier ph = false -> other ∈ earlier -> is_load other = true -> disjoint other ph.
Proof.
  unfold overlaps. intros Ho Hin Hl. rewrite <- not_true_iff_false, existsb_exists in Ho.
  unfold disjoint. destruct (Z.le_gt_cases (seg_page_end other) (seg_start ph)); [by left|].
  destruct (Z.le_gt_cases (seg_page_end ph) (seg_start other)); [by right|].
  exfalso. apply Ho. exists other. split; [by apply list_elem_of_In|].
  rewrite Hl, !andb_true_iff, !Z.ltb_lt. lia.
Qed.

Lemma layout_ok_pairs size earlier phdrs i j ph ph' :
  layout_ok size earlier phdrs -> (i < j)%nat -> phdrs !! i = Some ph -> phdrs !! j = Some ph' ->
  is_load ph = true -> is_load ph' = true -> disjoint ph ph'.
Proof.
  revert earlier i j. induction phdrs as [|x phdrs IH]; intros earlier i j Hlay Hij Hi Hj Hli Hlj; [done|].
  destruct Hlay as [Hx Hl].
  assert (forall (l : list elf64_phdr) earlier j, layout_ok size earlier l -> ph ∈ earlier -> l !! j = Some ph' -> disjoint ph ph') as Hlater.
  { clear -Hli Hlj. induction l as [|y l IHl]; intros earlier j Hlay Hin Hj; [done|]. destruct Hlay as [Hy Hl].
    destruct j as [|j]; [|by apply (IHl (earlier ++ [y]) j); [| apply elem_of_app; left |]].
    injection Hj as ->. apply (overlaps_disjoint earlier); [by apply Hy | done | done]. }
  destruct j as [|j]; [lia|]. destruct i as [|i].
  - injection Hi as ->. apply (Hlater phdrs (earlier ++ [ph]) j Hl); [|done].
    apply elem_of_app. right. by apply list_elem_of_singleton.
  - apply (IH (earlier ++ [x]) i j); try done. lia.
Qed.

(** Positions in the filtered list come from positions in the list. *)
Lemma filter_index (phdrs : list elf64_phdr) i j ph ph' :
  (i < j)%nat -> loads phdrs !! i = Some ph -> loads phdrs !! j = Some ph' ->
  exists i' j', (i' < j')%nat /\ phdrs !! i' = Some ph /\ phdrs !! j' = Some ph' /\
    is_load ph = true /\ is_load ph' = true.
Proof.
  unfold loads. revert i j. induction phdrs as [|x phdrs IH]; intros i j Hij Hi Hj; [done|].
  rewrite filter_cons in Hi, Hj. destruct (decide _) as [Hx|Hx].
  - destruct j as [|j]; [lia|]. cbn in Hj. destruct i as [|i].
    + injection Hi as ->. pose proof (list_elem_of_lookup_2 _ _ _ Hj) as Hin.
      apply list_elem_of_filter in Hin as [Hl' Hin]. apply list_elem_of_lookup_1 in Hin as [j' Hj'].
      exists O, (S j'). split_and!; try done. lia.
    + destruct (IH i j) as (i' & j' & ? & ? & ? & ? & ?); [lia | done..|].
      exists (S i'), (S j'). split_and!; try done. lia.
  - destruct (IH i j) as (i' & j' & ? & ? & ? & ? & ?); [lia | done..|].
    exists (S i'), (S j'). split_and!; try done. lia.
Qed.

Lemma layout_ok_segments size earlier phdrs :
  layout_ok size earlier phdrs -> Forall (segment_ok size) (loads phdrs).
Proof.
  revert earlier. induction phdrs as [|x phdrs IH]; intros earlier; [constructor|]. intros [Hx Hl].
  unfold loads. rewrite filter_cons. destruct (decide _) as [E|E]; [|by eapply IH].
  apply Forall_cons. split; [|by eapply IH]. apply segment_in_bounds_ok. by apply Hx.
Qed.

End Layout.

(** What a successful load has done up to the segments. *)
Lemma load_body_inv {F} `{ExecStore F} fn size argc argv (s s' : machine F) l :
  load_body fn size argc argv s = Some (Val l, s') ->
  exists e b ehdr phdrs sa sb s1 s2 acc, ld_entry l = e_entry ehdr /\ m_prog s1 = m_prog s /\
    fs_exists (m_fs s) fn = Some (e, m_fs sa) /\ read_at fn 0 EHDR_SIZE sa = Some (Val (EHDR_SIZE, b), sb) /\
    ehdr_of b = Some ehdr /\ header_ok ehdr = true /\
    e_phoff ehdr + e_phnum ehdr * e_phentsize ehdr <= size <= MAX_ELF_FILE_SIZE /\
    read_phdrs (Z.to_nat (e_phnum ehdr)) fn ehdr 0 sb = Some (Val phdrs, s1) /\
    load_segments fn size (e_entry ehdr) [] phdrs (Progress 0 0 false) s1 = Some (Val acc, s2) /\
    total_pages acc <> 0 /\ entry_is_executable acc = true /\ e_entry ehdr < USER_ADDRESS_LIMIT /\
    m_prog s' = m_prog s2.
Proof.
  unfold load_body. intros Hrun. minv Hrun as (c0 & s1 & E1 & Hrun). apply lift_inv in E1 as [_ ->].
  mcond Hrun as X1. mcond Hrun as X2. mcond Hrun as X3.
  minv Hrun as (e & s2 & E2 & Hrun). pose proof E2 as K2%keeps_fs. mcond Hrun as X4.
  minv Hrun as (h & s3 & E3 & Hrun). injection E3 as <- <-. mcond Hrun as X5.
  minv Hrun as ([rb b] & s4 & E4 & Hrun). pose proof E4 as K4%keeps_read. mcond Hrun as X6.
  minv Hrun as (ehdr & s5 & E5 & Hrun). apply lift_inv in E5 as [Eh ->].
  mcond Hrun as X7. cbv zeta in Hrun. mcond Hrun as X8.
  minv Hrun as (phdrs & s6 & E6 & Hrun). pose proof E6 as K6%keeps_phdrs.
  minv Hrun as (acc & s7 & E7 & Hrun). mcond Hrun as X9. mcond Hrun as X10. mcond Hrun as X11.
  minv Hrun as (sp & s8 & E8 & Hrun). apply keeps_stack in E8.
  minv Hrun as ([writes r] & s9 & E9 & Hrun). apply lift_inv in E9 as [_ ->].
  minv Hrun as ([] & s10 & E10 & Hrun). apply keeps_mm in E10. destruct r as [uargv|]; [|discriminate].
  minv Hrun as (abi & s11 & E11 & Hrun). apply keeps_abi in E11. injection Hrun as <- <-.
  apply negb_false_iff in X6, X7, X10. apply Z.eqb_eq in X6 as ->.
  rewrite !orb_false_iff, !Z.ltb_ge in X1, X8. apply Z.eqb_neq in X9. apply Z.leb_gt in X11.
  exists e, b, ehdr, phdrs, s2, s4, s6, s7, acc. split_and!; try done; try lia; try congruence.
  unfold on_fs in E2. destruct (fs_exists (m_fs s) fn) as [[e' f']|]; [|discriminate]. by injection E2 as <- <-.
Qed.

(** ** The headers of the file *)

(** Program header [i] of the file [c] whose table is at [phoff]. *)
Definition phdr_at (c : bytes) (phoff i : Z) : option elf64_phdr :=
  phdr_of (take (Z.to_nat PHDR_SIZE) (drop (Z.to_nat (phoff + i * PHDR_SIZE)) c)).

(** The ELF header and the program headers that the bytes of a file hold. *)
Definition file_headers (c : bytes) : option (elf64_ehdr * list elf64_phdr) :=
  ehdr ← ehdr_of (take (Z.to_nat EHDR_SIZE) c);
  phdrs ← mapM (phdr_at c (e_phoff ehdr)) (seqZ 0 (e_phnum ehdr));
  Some (ehdr, phdrs).

Section Headers.
Context {F : Type} {HF : FileStore F} {HS : SafeStore F} {HL : LawfulStore F} {HE : ExecStore F}.
Implicit Types (s : machine F).

Lemma read_at_lawful fn c off n s rc b s' :
  store_ok (m_fs s) -> contents (m_fs s) !! fn = Some c -> 0 <= off -> 0 < n <= INT_MAX ->
  read_at fn off n s = Some (Val (rc, b), s') ->
  b = take (Z.to_nat n) (drop (Z.to_nat off) c) /\ store_ok (m_fs s') /\ contents (m_fs s') !! fn = Some c.
Proof.
  intros Hok Hc Ho Hn. destruct (law_read (m_fs s) fn c off n Hok Hc Ho Hn) as (f' & Er & Hok' & Hc').
  unfold read_at, on_fs. rewrite Er. intros [= <- <- <-]. cbn. by rewrite Hc'.
Qed.

Lemma read_phdrs_lawful fn c ehdr k i s phdrs s' :
  store_ok (m_fs s) -> contents (m_fs s) !! fn = Some c -> 0 <= i -> 0 <= e_phoff ehdr ->
  e_phentsize ehdr = PHDR_SIZE -> e_phoff ehdr + (i + Z.of_nat k) * PHDR_SIZE < 2 ^ 64 ->
  read_phdrs k fn ehdr i s = Some (Val phdrs, s') ->
  mapM (phdr_at c (e_phoff ehdr)) (seqZ i (Z.of_nat k)) = Some phdrs.
Proof.
  revert i s phdrs. induction k as [|k IH]; intros i s phdrs Hok Hc Hi Ho Hent Hmax Hrun; cbn [read_phdrs] in Hrun.
  { by injection Hrun as <- _. }
  minv Hrun as ([rb b] & s1 & E1 & Hrun). mcond Hrun as X1. minv Hrun as (ph & s2 & E2 & Hrun).
  apply lift_inv in E2 as [Eph ->]. minv Hrun as (rest & s3 & E3 & Hrun). injection Hrun as <- <-.
  unfold PHDR_SIZE in *. rewrite Hent, u64_small in E1 by (unfold_int; lia).
  apply (read_at_lawful fn c) in E1 as (-> & Hok1 & Hc1); [|done|done|lia|unfold_int; lia].
  rewrite seqZ_cons by lia. apply mapM_Some. constructor; [exact Eph|]. apply mapM_Some. replace (Z.pred (Z.of_nat (S k))) with (Z.of_nat k) by lia.
  change (Z.succ i) with (i + 1). apply (IH (i + 1) s1 rest); try done; lia.
Qed.

Lemma ehdr_range b ehdr :
  is_bytes b -> ehdr_of b = Some ehdr -> 0 <= e_phoff ehdr /\ 0 <= e_phnum ehdr.
Proof.
  intros Hb. unfold ehdr_of. assert (forall n off v, ld n b off = Some v -> 0 <= v) as Hld.
  { intros n off v (x & Hx & ->)%fmap_Some. by apply le_val_range, (is_bytes_slice b _ off (Z.of_nat n)). }
  repeat match goal with |- context [?m ≫= _] => destruct m as [?|] eqn:?; [cbn [mbind option_bind] | done] end.
  intros [= <-]. cbn. split; by eapply Hld.
Qed.

(** The checks are made on what the file holds. *)
Lemma load_body_headers fn size argc argv s s' l c :
  store_ok (m_fs s) -> contents (m_fs s) !! fn = Some c ->
  (forall f p rc f', store_ok f -> fs_exists f p = Some (rc, f') -> store_ok f' /\ contents f' = contents f) ->
  load_body fn size argc argv s = Some (Val l, s') ->
  exists ehdr phdrs s1 s2 acc, file_headers c = Some (ehdr, phdrs) /\ header_ok ehdr = true /\
    ld_entry l = e_entry ehdr /\ m_prog s1 = m_prog s /\
    load_segments fn size (e_entry ehdr) [] phdrs (Progress 0 0 false) s1 = Some (Val acc, s2) /\
    total_pages acc <> 0 /\ entry_is_executable acc = true /\ e_entry ehdr < USER_ADDRESS_LIMIT /\
    m_prog s' = m_prog s2.
Proof.
  intros Hok Hc Hex Hrun.
  destruct (load_body_inv fn size argc argv s s' l Hrun)
    as (e & b & ehdr & phdrs & sa & sb & s1 & s2 & acc & He & Hp & Ee & Er & Eh & Hh & [Hsz Hmax] & Eph & Hrest).
  destruct (Hex _ _ _ _ Hok Ee) as [Hok1 Hc1]. rewrite <- Hc1 in Hc.
  pose proof (law_bytes _ _ _ Hok1 Hc) as Hcb. clear Hok Hc1.
  apply (read_at_lawful fn c) in Er as (-> & Hok2 & Hc2); [|done|done|lia|done].
  change (drop (Z.to_nat 0) c) with c in Eh.
  destruct (ehdr_range _ _ (Forall_take _ _ _ Hcb) Eh) as [Ho Hn].
  assert (e_phentsize ehdr = PHDR_SIZE) as Hent.
  { unfold header_ok in Hh. rewrite !andb_true_iff, !Z.eqb_eq in Hh. tauto. }
  apply (read_phdrs_lawful fn c) in Eph;
    [|done|done|lia|done|done|unfold PHDR_SIZE, MAX_ELF_FILE_SIZE in *; rewrite Hent in Hsz; lia].
  rewrite Z2Nat.id in Eph by done. exists ehdr, phdrs, s1, s2, acc.
  split; [|tauto]. unfold file_headers. by rewrite Eh, Some_bind, Eph.
Qed.

End Headers.

(** C36: a load that succeeds checked the program that is in the file.  On a
    lawful file store (reads return the bytes of the file, and asking whether a
    file exists changes no file), for a file of contents [c]: the headers read
    are the ELF header at the start of [c] and the program headers at the
    offset it names ([file_headers]); the ELF header is that of a 64-bit
    little-endian x86-64 executable ([header_ok]); the entry point reported is the
    header's, below the end of user space.  The regions that the load adds to the
    record of the program are exactly the page ranges of the loadable program
    headers (PT_LOAD, not empty), in their order.  For each of these headers the
    part in the file is within the size the caller gave and not larger than
    the part in memory, and the latter lies above the first page and below the
    stack; no two of them share a page; their pages are at most 16384 and not
    none; and the entry point lies in one of them whose PF_X flag is set. *)
Theorem load_checks_program {F} `{LawfulStore F} {HE : ExecStore F} filename size argc argv (s s' : machine F) l c :
  store_ok (m_fs s) -> contents (m_fs s) !! filename = Some c ->
  (forall f p rc f', store_ok f -> fs_exists f p = Some (rc, f') -> store_ok f' /\ contents f' = contents f) ->
  system_load_elf_args (Some filename) size argc argv s = Some (Val l, s') ->
  exists ehdr phdrs, file_headers c = Some (ehdr, phdrs) /\ header_ok ehdr = true /\
    ld_entry l = e_entry ehdr /\ ld_entry l < USER_ADDRESS_LIMIT /\
    let segs := loads phdrs in
    regions (m_prog s') = regions (m_prog s) ++ (seg_region <$> segs) /\
    Forall (segment_ok size) segs /\
    (forall i j ph ph', (i < j)%nat -> segs !! i = Some ph -> segs !! j = Some ph' -> disjoint ph ph') /\
    Exists (covers (ld_entry l)) segs /\ 0 <> sum_pages segs /\ sum_pages segs <= 16384.
Proof.
  intros Hok Hc Hfs Hrun.
  destruct (load_body_headers filename size argc argv s s' l c Hok Hc Hfs Hrun)
    as (ehdr & phdrs & s1 & s2 & acc & Hf & Hh & He & Hp1 & Hload & Hn & Hx & Hlim & Hp2).
  destruct (load_segments_inv _ _ _ _ _ _ _ _ _ Hload) as (Hl & Hmax & Htot & Hex & Hreg); [done|].
  cbn [total_pages entry_is_executable] in *. exists ehdr, phdrs. rewrite He. split_and!; try done; try lia.
  - by rewrite Hp2, Hreg, Hp1.
  - by eapply layout_ok_segments.
  - intros i j ph ph' Hij Hi Hj.
    destruct (filter_index phdrs i j ph ph' Hij Hi Hj) as (i' & j' & Hij' & Hi' & Hj' & ? & ?).
    by eapply (layout_ok_pairs size [] phdrs i' j').
  - by destruct (Hex Hx).
Qed.


(** ** Arguments *)

(** The arguments as C strings: a pointer to [text], a NUL and anything. *)
Definition arg_of (a : bytes * bytes) : option bytes := Some (fst a ++ 0 :: snd a).
Definition arg_ok (a : bytes * bytes) : Prop := Forall (fun c => c <> 0) (fst a) /\ zlen (fst a) < 256.

Definition texts (l : list (bytes * bytes)) : bytes := concat ((fun a => fst a ++ [0]) <$> l).

(** The addresses of consecutive strings from [a] on. *)
Fixpoint addresses_from (a : Z) (l : list (bytes * bytes)) : list Z :=
  match l with
  | [] => []
  | x :: l' => a :: addresses_from (a + zlen (fst x) + 1) l'
  end.

Fixpoint apply_to (m : bytes) (writes : list (Z * bytes)) : option bytes :=
  match writes with
  | [] => Some m
  | (off, b) :: writes' => m ← blit m off b; apply_to m writes'
  end.

Lemma apply_app m w1 w2 : apply_to m (w1 ++ w2) = m' ← apply_to m w1; apply_to m' w2.
Proof.
  revert m. induction w1 as [|[off b] w1 IH]; intros m; [done|]. cbn [app apply_to].
  destruct (blit m off b) as [m'|]; [apply IH | done].
Qed.

Lemma arg_length_ok k s t n :
  Forall (fun c => c <> 0) s -> (length s < k)%nat ->
  arg_length k (s ++ 0 :: t) n = Some (n + zlen s).
Proof.
  revert k n. induction s as [|c s IH]; intros k n Hs Hk; (destruct k as [|k]; [cbn in Hk; lia|]); cbn [app arg_length].
  - rewrite Z.eqb_refl. f_equal. zs.
  - apply Forall_cons in Hs as [Hc Hs]. rewrite eqb_neq by done. rewrite IH by (done || cbn in Hk; lia).
    f_equal. zs.
Qed.

Lemma texts_cons a l : texts (a :: l) = (fst a ++ [0]) ++ texts l.
Proof. done. Qed.

(** The strings are stored one after the other. *)
Lemma put_strings_ok args base area cursor :
  Forall arg_ok args -> 0 <= base -> 0 <= cursor -> cursor + zlen (texts args) <= area -> base + area < 2 ^ 64 ->
  exists writes, put_strings (arg_of <$> args) base area cursor =
      Some (writes, Some (addresses_from (base + cursor) args, cursor + zlen (texts args))) /\
    forall m, area <= zlen m -> apply_to m writes = blit m cursor (texts args).
Proof.
  revert cursor. induction args as [|[s t] args IH]; intros cursor Hok Hb Hc Hfit Hmax.
  { change (texts []) with (@nil Z) in *. rewrite zlen_nil in *. exists []. cbn. rewrite !Z.add_0_r. split; [done|]. intros m Hm. symmetry. apply blit_nil. lia. }
  apply Forall_cons in Hok as [[Hs Hlen] Hok]. rewrite texts_cons in *. cbn [fst] in *.
  autorewrite with cbuf in Hfit. pose proof (zlen_nonneg (texts args)).
  destruct (IH (cursor + zlen s + 1)) as (writes & E & Hw); [done.. | zs | zs | done|].
  rewrite fmap_cons. cbn [put_strings arg_of fst snd].
  rewrite arg_length_ok by (done || unfold zlen in *; lia). rewrite Some_bind, Z.add_0_l.
  rewrite eqb_neq by lia. cbn [orb]. rewrite (proj2 (Z.ltb_ge _ _)) by zs. rewrite (proj2 (Z.ltb_ge _ _)) by zs. cbn [orb].
  assert (slice (s ++ 0 :: t) 0 (zlen s) = Some s) as ->.
  { exact (slice_mid [] s (0 :: t)). }
  rewrite Some_bind, E, Some_bind. eexists. split.
  - rewrite u64_small by (unfold_int; zs). cbn [addresses_from fst].
    replace (base + cursor + zlen s + 1) with (base + (cursor + zlen s + 1)) by lia.
    replace (cursor + zlen ((s ++ [0]) ++ texts args)) with (cursor + zlen s + 1 + zlen (texts args)) by zs.
    done.
  - intros m Hm. cbn [apply_to]. rewrite (blit_app m cursor (s ++ [0])) by zs.
    destruct (blit m cursor (s ++ [0])) as [m'|] eqn:Em; [|done]. rewrite !Some_bind.
    apply blit_zlen in Em. rewrite Hw by lia. f_equal. zs.
Qed.

(** Every store stays inside the argument area, whatever the arguments are. *)
Definition write_in (area : Z) (w : Z * bytes) : Prop := 0 <= fst w /\ fst w + zlen (snd w) <= area.

Lemma put_strings_bounds argv base area cursor writes r :
  0 <= cursor <= area -> put_strings argv base area cursor = Some (writes, r) ->
  Forall (write_in area) writes /\
  (forall addrs last, r = Some (addrs, last) -> length addrs = length argv /\ cursor <= last <= area).
Proof.
  revert cursor writes r. induction argv as [|[s|] argv IH]; intros cursor writes r Hc; cbn [put_strings].
  - intros [= <- <-]. split; [constructor|]. intros ? ? [= <- <-]. cbn. lia.
  - destruct (arg_length 256 s 0) as [n|] eqn:En; [|done]. rewrite Some_bind.
    destruct ((n =? 256) || (area <? cursor) || (area - cursor <? n + 1)) eqn:Eb.
    { intros [= <- <-]. split; [constructor | done]. }
    rewrite !orb_false_iff, !Z.ltb_ge in Eb. destruct Eb as [[_ _] Hfit].
    destruct (slice s 0 n) as [text|] eqn:Et; [|done]. rewrite Some_bind.
    pose proof Et as (_ & Hn & _)%slice_Some. apply slice_zlen in Et.
    destruct (put_strings argv base area (cursor + n + 1)) as [[w r']|] eqn:Ep; [|done]. rewrite Some_bind.
    intros [= <- <-]. destruct (IH (cursor + n + 1) w r' ltac:(lia) Ep) as [Hw Hr]. split.
    + apply Forall_cons. split; [|done]. split; cbn [fst snd]; [lia|]. autorewrite with cbuf. lia.
    + intros addrs last. destruct r' as [[a l]|]; [|done]. intros [= <- <-].
      destruct (Hr a l eq_refl). cbn [length]. lia.
  - intros [= <- <-]. split; [constructor | done].
Qed.

Lemma round8 x : 0 <= x -> x <= Z.ldiff (x + 7) 7 < x + 8 /\ Z.ldiff (x + 7) 7 = (x + 7) / 8 * 8.
Proof.
  intros Hx. assert (Z.ldiff (x + 7) 7 = (x + 7) / 8 * 8) as ->.
  { change 7 with (Z.ones 3) at 2. rewrite Z.ldiff_ones_r, Z.shiftr_div_pow2, Z.shiftl_mul_pow2 by lia. done. }
  Z.to_euclidean_division_equations; lia.
Qed.

Lemma length_vector (addrs : list Z) : zlen (concat (le_bytes 8 <$> addrs)) = 8 * zlen addrs.
Proof.
  induction addrs as [|a addrs IH]; [done|]. rewrite fmap_cons. cbn [concat].
  rewrite zlen_app, zlen_le_bytes, IH. zs.
Qed.

Lemma prepare_bounds base area argc argv writes r :
  0 <= area -> prepare_user_arguments base area argc argv = Some (writes, r) -> Forall (write_in area) writes.
Proof.
  intros Harea. unfold prepare_user_arguments.
  destruct ((argc <? 0) || _ || _) eqn:Ec; [intros [= <- <-]; constructor|].
  rewrite !orb_false_iff, !Z.ltb_ge in Ec. destruct Ec as [[Hlo _] _].
  destruct (slice (default [] argv) 0 argc) as [av|] eqn:Es; [|done]. rewrite Some_bind.
  destruct (put_strings av base area 0) as [[w r']|] eqn:Ep; [|done]. rewrite Some_bind.
  destruct (put_strings_bounds av base area 0 w r' ltac:(lia) Ep) as [Hw Hr].
  destruct r' as [[addrs last]|]; [|by intros [= <- <-]]. destruct (Hr addrs last eq_refl) as [Hal Hlast].
  cbv zeta. destruct (_ || _) eqn:Eb; [by intros [= <- <-]|]. intros [= <- <-].
  rewrite !orb_false_iff, !Z.ltb_ge in Eb. destruct (round8 last ltac:(lia)) as [? _].
  apply Forall_app. split; [done|]. apply Forall_cons. split; [|constructor].
  apply slice_zlen in Es. split; cbn [fst snd]; [lia|].
  rewrite zlen_app, length_vector, !zlen_cons, zlen_nil. unfold zlen in *. rewrite Hal. lia.
Qed.

Lemma zlen_addresses a l : zlen (addresses_from a l) = zlen l.
Proof. revert a. induction l as [|x l IH]; intros a; [done|]. cbn [addresses_from]. rewrite !zlen_cons, IH. done. Qed.

Lemma prepare_ok base area args m :
  Forall arg_ok args -> (length args <= 32)%nat -> 0 <= base -> base + area < 2 ^ 64 -> area <= zlen m ->
  let vec := (zlen (texts args) + 7) / 8 * 8 in
  vec + 8 * (zlen args + 1) <= area ->
  exists writes m1 m2,
    prepare_user_arguments base area (zlen args) (Some (arg_of <$> args)) = Some (writes, Some (base + vec)) /\
    apply_to m writes = Some m2 /\ blit m 0 (texts args) = Some m1 /\
    blit m1 vec (concat (le_bytes 8 <$> addresses_from base args) ++ le_bytes 8 0) = Some m2.
Proof.
  intros Hok Hlen Hb Hmax Hm vec Hfit. pose proof (zlen_nonneg (texts args)) as Ht. pose proof (zlen_nonneg args) as Ha.
  destruct (round8 (zlen (texts args)) Ht) as [Hround Heq]. fold vec in Heq.
  destruct (put_strings_ok args base area 0) as (writes & E & Hw); [done.. | lia | lia | lia |].
  unfold prepare_user_arguments. rewrite (proj2 (Z.ltb_ge (zlen args) 0)), (proj2 (Z.ltb_ge 32 (zlen args))) by (unfold zlen in *; lia).
  rewrite bool_decide_eq_false_2 by done. rewrite andb_false_r. cbn [orb from_option]. unfold id.
  assert (slice (arg_of <$> args) 0 (zlen args) = Some (arg_of <$> args)) as ->.
  { apply slice_Some. split_and!; [lia | lia | unfold zlen; rewrite length_fmap; lia |].
    change (Z.to_nat 0) with O. rewrite drop_0, take_ge; [done|]. rewrite length_fmap. unfold zlen. lia. }
  rewrite Some_bind, E, Some_bind, !Z.add_0_l, Z.add_0_r, Heq. cbv zeta.
  rewrite (proj2 (Z.ltb_ge area vec)), (proj2 (Z.ltb_ge _ _)) by lia. cbn [orb].
  rewrite u64_small by (unfold_int; lia).
  destruct (blit_total m (texts args) 0) as [m1 Hm1]; [lia | lia |].
  pose proof (blit_zlen _ _ _ _ Hm1) as Hl1.
  destruct (blit_total m1 (concat (le_bytes 8 <$> addresses_from base args) ++ le_bytes 8 0) vec) as [m2 Hm2];
    [lia | rewrite zlen_app, length_vector, zlen_addresses; change (zlen (le_bytes 8 0)) with 8; lia |].
  eexists _, m1, m2. split; [done|]. split_and!; try done.
  rewrite apply_app, Hw, Hm1, Some_bind by lia. cbn [apply_to]. by rewrite Hm2.
Qed.

(** the argument area.  Whatever the arguments, [prepare_user_arguments] only
    writes inside the area it was given.  When the arguments are at most 32 C
    strings of fewer than 256 characters and the strings and the vector fit, it
    succeeds: the area then starts with the strings one after the other, the
    vector, at the returned address and aligned to 8, holds their user
    addresses in order and a null pointer, and nothing else is changed. *)
Theorem arguments_layout base area :
  0 <= area ->
  (forall argc argv writes r, prepare_user_arguments base area argc argv = Some (writes, r) ->
     Forall (write_in area) writes) /\
  (forall args m, Forall arg_ok args -> (length args <= 32)%nat -> 0 <= base -> base + area < 2 ^ 64 ->
     area <= zlen m ->
     let vec := (zlen (texts args) + 7) / 8 * 8 in
     vec + 8 * (zlen args + 1) <= area ->
     exists writes m1 m2,
       prepare_user_arguments base area (zlen args) (Some (arg_of <$> args)) = Some (writes, Some (base + vec)) /\
       apply_to m writes = Some m2 /\ blit m 0 (texts args) = Some m1 /\
       blit m1 vec (concat (le_bytes 8 <$> addresses_from base args) ++ le_bytes 8 0) = Some m2).
Proof.
  intros Harea. split.
  - intros argc argv writes r. apply prepare_bounds. lia.
  - intros args m Hok Hlen Hb Hmax Hm vec Hfit. by apply prepare_ok.
Qed.

(** ** The loader on a concrete executable

    A 120-byte executable with one segment, loaded on a machine with 32 free
    pages: what a load sets up, and two behaviours of the loader a caller would
    not expect. *)

#[global] Instance mem_exec : ExecStore MemStore.t := {
  fs_exists f p := Some (match MemStore.files f !! p with Some _ => 1 | None => 0 end, f);
  fs_get_info f p := Some ((fun c => (zlen c, false)) <$> MemStore.files f !! p, f);
}.

Definition demo_ehdr : bytes :=
  [0x7F; 69; 76; 70; 2; 1; 1; 0] ++ zeros 8 ++
  le_bytes 2 2 ++ le_bytes 2 62 ++ le_bytes 4 1 ++ le_bytes 8 0x400040 ++ le_bytes 8 64 ++
  le_bytes 8 0 ++ le_bytes 4 0 ++ le_bytes 2 64 ++ le_bytes 2 56 ++ le_bytes 2 1 ++ zeros 6.

Definition demo_phdr : bytes :=
  le_bytes 4 1 ++ le_bytes 4 5 ++ le_bytes 8 0 ++ le_bytes 8 0x400000 ++ le_bytes 8 0 ++
  le_bytes 8 120 ++ le_bytes 8 120 ++ le_bytes 8 4096.

Definition demo_name : bytes := lit "prog" ++ [0].
Definition demo_store : MemStore.t := MemStore.mk {[demo_name := demo_ehdr ++ demo_phdr]}.

Definition demo_ram : gmap Z page :=
  list_to_map ((fun k => (4096 * Z.of_nat k, zero_page)) <$> seq 1 33).

Definition demo_machine : machine MemStore.t :=
  Machine demo_store
    (MMU demo_ram 0x1000 0 (Some [MemmapEntry 0x2000 0x20000 LIMINE_MEMMAP_USABLE]) (Some 0) 0 0 0)
    (Program [] 0 0).

Definition load_demo (argv : list bytes) : option (outcome loaded * machine MemStore.t) :=
  system_load_elf_args (Some demo_name) 120 (zlen argv) (Some (Some <$> argv)) demo_machine.

(** Is the user page mapped? *)
Definition mapped_at (v : Z) (s : machine MemStore.t) : option bool :=
  match user_page_mapped v (m_mm s) with
  | Some (Val b, _) => Some b
  | _ => None
  end.

Example demo_loads :
  match load_demo [lit "prog" ++ [0]; lit "-x" ++ [0]] with
  | Some (Val l, s) =>
      l = Loaded 0x400040 0x7FFFFFFFFFF8 (USER_STACK_BASE + 8) false 0x401000 /\
      regions (m_prog s) = [Region 0x400000 0x401000] /\
      mapped_at 0x400000 s = Some true /\ mapped_at USER_STACK_BASE s = Some true
  | _ => False
  end.
Proof. vm_compute. repeat split. Qed.

(** Thirty-two arguments of 255 characters. *)
Definition long_argv : list bytes := replicate 32 (replicate 255 65 ++ [0]).

(** long arguments overwrite the page tables of the program.  The loader
    writes up to 16384 bytes of arguments from the first stack page on, through
    physical addresses, but the stack pages are not physically contiguous: the
    tables of the stack follow its first page.  With 32 arguments of 255
    characters the load reports success, and the table entry for the stack holds
    argument bytes instead of the address of a table. *)
Theorem long_arguments_overwrite_tables :
  match load_demo long_argv with
  | Some (Val l, s) =>
      ld_entry l = 0x400040 /\
      (p4 ← mem (m_mm s) !! 0x1000;
       e ← rd p4 (pml4_index USER_STACK_BASE);
       p3 ← mem (m_mm s) !! Z.land e PAGE_MASK;
       rd p3 (pdpt_index USER_STACK_BASE)) = Some 0x0041414141414141 /\
      mapped_at USER_STACK_BASE s <> Some true
  | _ => False
  end.
Proof. vm_compute. repeat split. discriminate. Qed.

(** the stack of a program is never given back: [system_load_elf_args] maps
    eight stack pages but does not record them, so after
    [system_elf_post_cleanup] the segment is unmapped and the stack pages are
    still mapped (and still allocated). *)
Theorem stack_pages_leak :
  match load_demo [] with
  | Some (Val l, s) =>
      match system_elf_post_cleanup 0 s with
      | Some (Val tt, s') =>
          mapped_at 0x400000 s = Some true /\ mapped_at 0x400000 s' = Some false /\
          (fun i => mapped_at (USER_STACK_BASE + 4096 * i) s') <$> [0; 1; 2; 3; 4; 5; 6; 7] =
          replicate 8 (Some true)
      | _ => False
      end
  | _ => False
  end.
Proof. vm_compute. repeat split. Qed.

Lemma load_checks_program_witness :
  exists l s', load_demo [] = Some (Val l, s') /\ regions (m_prog s') = [Region 0x400000 0x401000] /\
    ld_entry l = 0x400040 /\
    exists ehdr ph, file_headers (demo_ehdr ++ demo_phdr) = Some (ehdr, [ph]) /\ p_flags ph = 5 /\
      Exists (covers 0x400040) [ph].
Proof.
  destruct (load_demo []) as [[[l|rc] s']|] eqn:E; [|vm_compute in E; discriminate..].
  destruct (load_checks_program demo_name 120 0 (Some []) demo_machine s' l (demo_ehdr ++ demo_phdr))
    as (ehdr & phdrs & Hf & _ & He & _ & Hr & _ & _ & Hex & _).
  - apply map_Forall_singleton. apply (bool_decide_unpack _). vm_compute. exact I.
  - reflexivity.
  - intros f p rc f' Hok [= <- <-]. split; [exact Hok | reflexivity].
  - exact E.
  - assert (file_headers (demo_ehdr ++ demo_phdr) = Some (ehdr, phdrs)) as Hf' by exact Hf.
    vm_compute in Hf'. injection Hf' as <- <-. exists l, s'. rewrite He in Hex |- *.
    split_and!; [reflexivity | exact Hr | reflexivity |]. do 2 eexists. split_and!; [exact Hf | reflexivity | exact Hex].
Defined.

Lemma arguments_layout_witness :
  exists writes m1 m2,
    prepare_user_arguments 0x7000 256 2 (Some [Some (lit "prog" ++ [0]); Some (lit "-x" ++ [0])]) =
      Some (writes, Some 0x7008) /\
    apply_to (zeros 256) writes = Some m2 /\ blit (zeros 256) 0 (lit "prog" ++ [0] ++ lit "-x" ++ [0]) = Some m1 /\
    blit m1 8 (le_bytes 8 0x7000 ++ le_bytes 8 0x7005 ++ le_bytes 8 0) = Some m2.
Proof.
  destruct (arguments_layout 0x7000 256 ltac:(lia)) as [_ Hok].
  destruct (Hok [(lit "prog", []); (lit "-x", [])] (zeros 256)) as (w & m1 & m2 & E1 & E2 & E3 & E4).
  - apply (bool_decide_unpack _); vm_compute; exact I.
  - cbn. lia.
  - lia.
  - lia.
  - vm_compute. discriminate.
  - vm_compute. discriminate.
  - exists w, m1, m2. split_and!; [exact E1 | exact E2 | exact E3 | exact E4].
Defined.
