(* ===== verification/UserMem.v ===== *)
(** * Access to the memory of user programs (helper/core/syscall/syscall.c)

    The checks every system call makes before it touches a user pointer, the
    copies from and to user memory, and the native memory-mapping calls.

    [hw_access] is the processor's page walk: the physical address of a byte, or
    [None] for a page fault.  [user_byte] and [set_user_byte] are what the
    kernel does when it dereferences a user pointer: a supervisor access through
    the active tables; a fault there is no behaviour of the model. *)

From S2P Require Import Prelude CMonad Mmu Elf.

Definition USER_IO_LIMIT : Z := 65536.
Definition USER_PATH_LIMIT : Z := 256.
Definition USER_MEMORY_WRITE : Z := 2.
Definition USER_MEMORY_EXEC : Z := 4.
Definition USER_MEMORY_MAX_SIZE : Z := 16 * 1024 * 1024.
Definition MINUS_ONE : Z := UINT64_MAX.

(** ** The processor *)

Definition allowed (e : word) (user write : bool) : bool :=
  negb (Z.land e PAGE_PRESENT =? 0) && (negb user || negb (Z.land e PAGE_USER =? 0)) &&
  (negb write || negb (Z.land e PAGE_WRITABLE =? 0)).

Definition is_large (level : nat) (e : word) : bool :=
  ((level =? 1)%nat || (level =? 2)%nat) && negb (Z.land e PAGE_LARGE =? 0).

(** The bits of the address below a large page at [level]. *)
Definition large_size (level : nat) : Z := if (level =? 1)%nat then 2 ^ 30 else 2 ^ 21.

Fixpoint hw_walk (m : gmap Z page) (level : nat) (indices : list Z) (table : Z) (user write : bool) (v : Z)
  : option Z :=
  match indices with
  | [] => None
  | i :: rest =>
      pg ← m !! table;
      e ← rd pg i;
      let address := Z.land e PAGE_ADDRESS_MASK in
      if negb (allowed e user write) then None
      else if is_large level e then
        Some (address / large_size level * large_size level + v mod large_size level)
      else
        match rest with
        | [] => Some (address + v mod 4096)
        | _ => hw_walk m (S level) rest address user write v
        end
  end.

Definition all_indices (v : Z) : list Z := [pml4_index v; pdpt_index v; pd_index v; pt_index v].

Definition hw_access (s : mmu) (user write : bool) (v : Z) : option Z :=
  hw_walk (mem s) 0 (all_indices v) (current_pml4 s) user write v.

Definition get_byte (w k : Z) : Z := Z.land (Z.shiftr w (8 * k)) 255.

(** A byte of physical memory. *)
Definition load_byte (a : Z) : Mm Z :=
  w ← load (Z.ldiff a 7);
  mret (get_byte w (Z.land a 7)).

(** [*(char * )v] and [*(char * )v = b] in the kernel. *)
Definition user_byte (v : Z) : Mm Z :=
  a ← gets (fun s => hw_access s false false v);
  a ← lift a;
  load_byte a.

Definition set_user_byte (v b : Z) : Mm unit :=
  a ← gets (fun s => hw_access s false true v);
  a ← lift a;
  store_byte a b.

Fixpoint user_bytes (n : nat) (v : Z) : Mm bytes :=
  match n with
  | O => mret []
  | S n' => b ← user_byte v; rest ← user_bytes n' (v + 1); mret (b :: rest)
  end.

(** [memcpy((void * )v, bs, n)] *)
Fixpoint set_user_bytes (v : Z) (bs : bytes) : Mm unit :=
  match bs with
  | [] => mret tt
  | b :: bs' => set_user_byte v b;; set_user_bytes (v + 1) bs'
  end.

(** ** The checks *)

Definition valid_user_memory_range (address length : Z) : option Z :=
  if (address =? 0) || (USER_ADDRESS_LIMIT <=? address) || (length =? 0) ||
     (USER_MEMORY_MAX_SIZE <? length) || negb (Z.land address (PAGE_SIZE - 1) =? 0) ||
     (USER_ADDRESS_LIMIT - address <? length)
  then None
  else
    let rounded := Z.ldiff (u64 (length + PAGE_SIZE - 1)) (PAGE_SIZE - 1) in
    if (rounded <? length) || (USER_ADDRESS_LIMIT - address <? rounded) then None
    else Some rounded.

(** [for (level = 0; level < 4; level++)] *)
Fixpoint accessible_walk (level : nat) (indices : list Z) (table : Z) (write_access : bool) : Mm bool :=
  match indices with
  | [] => mret true
  | i :: rest =>
      entry ← load (entry_at table i);
      if negb (Z.land entry 5 =? 5) || (write_access && (Z.land entry 2 =? 0)) then mret false
      else if ((level =? 1)%nat || (level =? 2)%nat) && negb (Z.land entry (Z.shiftl 1 7) =? 0) then mret true
      else accessible_walk (S level) rest (Z.land entry PAGE_MASK) write_access
  end.

Definition user_page_accessible (address : Z) (write_access : bool) : Mm bool :=
  h ← gets hhdm;
  if (USER_ADDRESS_LIMIT <=? address) || negb (not_null h) then mret false
  else
    root ← gets current_pml4;
    accessible_walk 0 (all_indices address) root write_access.

(** One round of [while (true)]: [page] is in user space, so a range has fewer
    than 2^36 pages. *)
Definition range_round (last_page : Z) (write_access : bool) (page : Z) : Mm (Z + bool) :=
  ok ← user_page_accessible page write_access;
  mret (if negb (ok : bool) then inr false
        else if page =? last_page then inr true
        else inl (u64 (page + PAGE_SIZE))).

Definition RANGE_ROUNDS : positive := 68719476736.

Definition user_range_accessible (address length : Z) (write_access : bool) : Mm bool :=
  if length =? 0 then mret (address <? USER_ADDRESS_LIMIT)
  else if (address =? 0) || (USER_ADDRESS_LIMIT <=? address) ||
          ((USER_ADDRESS_LIMIT - 1) - address <? length - 1)
  then mret false
  else
    let last_address := u64 (address + length - 1) in
    let page := Z.ldiff address (PAGE_SIZE - 1) in
    let last_page := Z.ldiff last_address (PAGE_SIZE - 1) in
    while_true RANGE_ROUNDS (range_round last_page write_access) page.

(** The loop over [k] bytes from the [i]th one: the bytes stored in [buffer],
    up to and including the terminator, or [None] for the result [false]. *)
Fixpoint string_loop (k : nat) (i address : Z) : Mm (option bytes) :=
  match k with
  | O => mret None
  | S k' =>
      ok ← (if (USER_ADDRESS_LIMIT <=? address) || (USER_ADDRESS_LIMIT - address <=? i) then mret false
            else user_range_accessible (u64 (address + i)) 1 false);
      if negb (ok : bool) then mret None
      else
        c ← user_byte (u64 (address + i));
        if c =? 0 then mret (Some [0])
        else
          rest ← string_loop k' (i + 1) address;
          mret (cons c <$> rest)
  end.

(** [buffer] is not NULL.  The string includes its terminator. *)
Definition copy_user_string (address capacity : Z) : Mm (option bytes) :=
  if (capacity =? 0) || (address =? 0) then mret None
  else string_loop (Z.to_nat capacity) 0 address.

(** [string_length] is not NULL. *)
Definition user_string_length (address capacity : Z) : Mm (option Z) :=
  if address =? 0 then mret None
  else
    s ← string_loop (Z.to_nat capacity) 0 address;
    mret ((fun s => zlen s - 1) <$> s).

(** ** Memory mapping *)

(** [for (page = address; page < address + rounded_length; page += PAGE_SIZE)],
    with [return -1] inside; [rounded_length] is at most 16 MiB. *)
Definition for_pages (address rounded_length : Z) (body : Z -> Mm unit) : Mm unit :=
  for_loop (Z.to_nat (rounded_length / PAGE_SIZE)) address PAGE_SIZE body.

Definition fail_if (b : bool) : Mm unit := if b then exit MINUS_ONE else mret tt.

Definition native_user_memory_map (address length permissions : Z) : Mm Z := fn (
  h ← gets hhdm;
  match valid_user_memory_range address length with
  | None => exit MINUS_ONE
  | Some rounded_length =>
      fail_if (negb (not_null h) || negb (Z.ldiff permissions 7 =? 0));;
      for_pages address rounded_length (fun page =>
        m ← user_page_mapped page; fail_if m);;
      for_pages address rounded_length (fun page =>
        phys ← pmm_alloc_zeroed_page;
        map_user_page page phys;;
        ok ← protect_user_page page (negb (permissions =? 0))
               (negb (Z.land permissions USER_MEMORY_WRITE =? 0))
               (negb (Z.land permissions USER_MEMORY_EXEC =? 0));
        if negb (ok : bool) then
          for_pages address (page - address + PAGE_SIZE) (fun rollback =>
            unmap_user_page rollback;; mret tt);;
          exit MINUS_ONE
        else mret tt);;
      mret address
  end).

Definition native_user_memory_protect (address length permissions : Z) : Mm Z := fn (
  match valid_user_memory_range address length with
  | None => exit MINUS_ONE
  | Some rounded_length =>
      fail_if (negb (Z.ldiff permissions 7 =? 0));;
      for_pages address rounded_length (fun page =>
        m ← user_page_mapped page; fail_if (negb m));;
      for_pages address rounded_length (fun page =>
        ok ← protect_user_page page (negb (permissions =? 0))
               (negb (Z.land permissions USER_MEMORY_WRITE =? 0))
               (negb (Z.land permissions USER_MEMORY_EXEC =? 0));
        fail_if (negb ok));;
      mret 0
  end).

Definition native_user_memory_unmap (address length : Z) : Mm Z := fn (
  match valid_user_memory_range address length with
  | None => exit MINUS_ONE
  | Some rounded_length =>
      for_pages address rounded_length (fun page =>
        m ← user_page_mapped page; fail_if (negb m));;
      for_pages address rounded_length (fun page =>
        ok ← unmap_user_page page; fail_if (negb ok));;
      mret 0
  end).
