(* ===== verification/UserMemProofs.v ===== *)
(** * The checks of user pointers are exact

    In a well-formed address space the software page walk of
    [user_range_accessible] accepts exactly the ranges that the processor would
    let the user program access, and [copy_user_string] reads exactly the C
    strings that lie in such memory. *)

From S2P Require Import Prelude CMonad Mmu Pmm PageTable Elf UserMem.

(** Physical addresses have at most 52 bits. *)
Definition phys_ok (s : mmu) : Prop := forall p, is_Some (mem s !! p) -> p < 2 ^ 52.

(** A user-mode access that does not fault. *)
Definition can_access (s : mmu) (write : bool) (v : Z) : Prop := is_Some (hw_access s true write v).

#[global] Instance can_access_dec s w v : Decision (can_access s w v).
Proof. unfold can_access. apply _. Defined.

(** ** One page *)

Lemma child_address e : Z.land e PAGE_MASK < 2 ^ 52 -> Z.land e PAGE_ADDRESS_MASK = Z.land e PAGE_MASK.
Proof.
  intros Hlt. assert (0 <= Z.land e PAGE_MASK) by (apply Z.land_nonneg; right; done).
  change PAGE_ADDRESS_MASK with (Z.land PAGE_MASK (Z.ones 52)).
  rewrite Z.land_assoc, Z.land_ones by lia. apply Z.mod_small. lia.
Qed.

Lemma testbit_and e k : 0 <= k -> (Z.land e (2 ^ k) =? 0) = negb (Z.testbit e k).
Proof.
  intros Hk. destruct (Z.testbit e k) eqn:E; cbn.
  - apply Z.eqb_neq. intros H0. apply (f_equal (fun x => Z.testbit x k)) in H0.
    rewrite Z.land_spec, E, Z.pow2_bits_true, Z.bits_0 in H0 by done. done.
  - apply Z.eqb_eq. apply Z.bits_inj'. intros n Hn. rewrite Z.land_spec, Z.bits_0.
    destruct (Z.eq_dec n k) as [->|]; [by rewrite E|]. rewrite Z.pow2_bits_false by lia. apply andb_false_r.
Qed.

Lemma bits_5 e : (Z.land e 5 =? 5) = Z.testbit e 0 && Z.testbit e 2.
Proof.
  apply eq_true_iff_eq. rewrite Z.eqb_eq, andb_true_iff. split.
  - intros E. split; [apply (f_equal (fun x => Z.testbit x 0)) in E | apply (f_equal (fun x => Z.testbit x 2)) in E];
      rewrite Z.land_spec in E; by apply andb_true_iff in E as [? _].
  - intros [E0 E2]. apply Z.bits_inj'. intros n Hn. rewrite Z.land_spec.
    destruct (decide (n = 0)) as [->|]; [by rewrite E0|]. destruct (decide (n = 2)) as [->|]; [by rewrite E2|].
    replace (Z.testbit 5 n) with false; [apply andb_false_r|].
    destruct (decide (n = 1)) as [->|]; [done|]. symmetry. apply Z.bits_above_log2; [done|]. cbn. lia.
Qed.

(** The test of the source is the processor's test of a user access. *)
Lemma entry_test e w :
  negb (Z.land e 5 =? 5) || (w && (Z.land e 2 =? 0)) = negb (allowed e true w).
Proof.
  unfold allowed. rewrite bits_5. change (Z.land e 2) with (Z.land e (2 ^ 1)).
  change PAGE_PRESENT with (2 ^ 0). change PAGE_USER with (2 ^ 2). change PAGE_WRITABLE with (2 ^ 1).
  rewrite !testbit_and by done. by destruct (Z.testbit e 0), (Z.testbit e 2), (Z.testbit e 1), w.
Qed.

Lemma hw_walk_same m level indices t u w v v' :
  is_Some (hw_walk m level indices t u w v) <-> is_Some (hw_walk m level indices t u w v').
Proof.
  revert level t. induction indices as [|i rest IH]; intros level t; cbn [hw_walk]; [done|].
  destruct (m !! t) as [pg|]; [|done]. cbn. destruct (rd pg i) as [e|]; [|done]. cbn.
  destruct (allowed e u w); [|done]. cbn [negb]. destruct (is_large level e); [done|].
  destruct rest; [done|]. apply IH.
Qed.

Lemma all_indices_page v : 0 <= v -> all_indices (v / 4096 * 4096) = all_indices v.
Proof.
  intros Hv. assert (0 <= v / 4096 * 4096) by (Z.to_euclidean_division_equations; lia).
  unfold all_indices, pml4_index, pdpt_index, pd_index, pt_index. rewrite !index_div by lia.
  replace (2 ^ 39) with (4096 * 2 ^ 27) by done. replace (2 ^ 30) with (4096 * 2 ^ 18) by done.
  replace (2 ^ 21) with (4096 * 2 ^ 9) by done. change (2 ^ 12) with 4096.
  rewrite <- !Z.div_div by done. rewrite !Z.div_mul by done. done.
Qed.

Lemma can_access_page s w v : 0 <= v -> can_access s w (v / 4096 * 4096) <-> can_access s w v.
Proof. intros Hv. unfold can_access, hw_access. rewrite all_indices_page by done. apply hw_walk_same. Qed.

Lemma accessible_walk_ok s l paths path1 path2 t w v :
  as_ok s l paths -> phys_ok s -> (length path1 + length path2 = 4)%nat -> (1 <= length path2)%nat ->
  paths !! t = Some path1 ->
  (forall p i q, path1 ++ path2 = p ++ i :: q -> user_slot_ok p i) ->
  accessible_walk (length path1) path2 t w s =
  Some (Val (bool_decide (is_Some (hw_walk (mem s) (length path1) path2 t true w v))), s).
Proof.
  intros Hok Hphys. revert path1 t. induction path2 as [|i path2 IH]; intros path1 t Hl H1 Ht Hu; [cbn in H1; lia|].
  cbn [accessible_walk hw_walk length] in *. assert (user_slot_ok path1 i) as Hi by by eapply Hu.
  destruct (as_table _ _ _ Hok t _ Ht) as (Hal & _). destruct (table_page _ _ _ _ _ Hok Ht) as (pg & Hpg & Hpl).
  destruct (rd_is_Some pg i) as [e He]; [unfold zlen; rewrite Hpl; apply Hi|].
  mrun (load_entry s t pg i e Hal (proj1 Hi) Hpg He). rewrite Hpg, Some_bind, He, Some_bind.
  rewrite entry_test. destruct (allowed e true w) eqn:Ea; cbn [negb]; [|by rewrite bool_decide_eq_false_2 by apply is_Some_None].
  fold (is_large (length path1) e). change (Z.shiftl 1 7) with PAGE_LARGE. fold (is_large (length path1) e).
  destruct (is_large (length path1) e); [by rewrite bool_decide_eq_true_2|].
  destruct path2 as [|j path2]; [by rewrite bool_decide_eq_true_2|].
  assert (Z.land e PAGE_PRESENT <> 0) as Hpres.
  { unfold allowed in Ea. intros E0. by rewrite E0 in Ea. }
  cbn [length] in *.
  destruct (as_down _ _ _ Hok t path1 pg i e Ht ltac:(lia) Hi Hpg He Hpres) as [_ Hc].
  destruct (as_table _ _ _ Hok _ _ Hc) as (_ & _ & Hin & _).
  rewrite child_address by (by apply Hphys).
  replace (S (length path1)) with (length (path1 ++ [i])) by (rewrite length_app; cbn; lia).
  apply (IH (path1 ++ [i])); [rewrite length_app; cbn; lia | lia | done |].
  intros p k q E. apply (Hu p k q). by rewrite <- app_assoc in E.
Qed.

Lemma all_path_ok v p i q : pml4_index v < 256 -> all_indices v = p ++ i :: q -> user_slot_ok p i.
Proof.
  intros Hv E. assert (0 <= i < 512) as Hi.
  { assert (i ∈ all_indices v) as Hin by (rewrite E; apply elem_of_app; right; apply list_elem_of_here).
    unfold all_indices, pml4_index, pdpt_index, pd_index, pt_index in Hin.
    rewrite !elem_of_cons, elem_of_nil in Hin. destruct Hin as [->|[->|[->|[->|[]]]]]; apply index_range. }
  split; [done|]. intros ->. injection E as <- _. done.
Qed.

Lemma user_half v : 0 <= v < USER_ADDRESS_LIMIT -> pml4_index v < 256.
Proof.
  unfold USER_ADDRESS_LIMIT, pml4_index. intros Hv. rewrite index_div by lia.
  change (2 ^ 39) with 549755813888. Z.to_euclidean_division_equations; lia.
Qed.

Lemma page_accessible_ok s l paths v w :
  as_ok s l paths -> phys_ok s -> 0 <= v < USER_ADDRESS_LIMIT ->
  user_page_accessible v w s = Some (Val (bool_decide (can_access s w v)), s).
Proof.
  intros Hok Hphys Hv. unfold user_page_accessible. rewrite bind_gets.
  destruct (pmm_hhdm _ _ (as_pmm _ _ _ Hok)) as [h ->]. destruct (Z.leb_spec USER_ADDRESS_LIMIT v); [lia|].
  cbn [orb not_null negb]. rewrite bind_gets.
  apply (accessible_walk_ok s l paths [] (all_indices v) (current_pml4 s) w v Hok Hphys); try done.
  - cbn. lia.
  - apply Hok.
  - intros p i q. apply all_path_ok. by apply user_half.
Qed.

(** ** Ranges *)

Lemma ldiff_page a : 0 <= a -> Z.ldiff a (PAGE_SIZE - 1) = a / 4096 * 4096.
Proof.
  intros Ha. change (PAGE_SIZE - 1) with (Z.ones 12). rewrite Z.ldiff_ones_r by lia.
  rewrite Z.shiftr_div_pow2, Z.shiftl_mul_pow2 by lia. done.
Qed.

(** Every page between two pages is accessible. *)
Definition pages_accessible (s : mmu) (w : bool) (first last : Z) : Prop :=
  forall k, 0 <= k -> first + 4096 * k <= last -> can_access s w (first + 4096 * k).

Lemma range_loop_ok s l paths w last page :
  as_ok s l paths -> phys_ok s -> 0 <= page <= last -> last < USER_ADDRESS_LIMIT ->
  (last - page) mod 4096 = 0 ->
  exists b, while_true RANGE_ROUNDS (range_round last w) page s = Some (Val b, s) /\
    (b = true <-> pages_accessible s w page last).
Proof.
  intros Hok Hphys Hp Hl Hm.
  destruct (while_true_inv
    (fun n p s' => s' = s /\ page <= p <= last /\ (p - page) mod 4096 = 0 /\ n = Z.to_nat ((last - p) / 4096) /\
       forall k, 0 <= k -> page + 4096 * k < p -> can_access s w (page + 4096 * k))
    (fun b s' => s' = s /\ (b = true <-> pages_accessible s w page last))
    RANGE_ROUNDS (range_round last w)) with (n := Z.to_nat ((last - page) / 4096)) (a := page) (s := s)
    as (b & s' & E & -> & Hb).
  - intros n p s' (-> & Hpr & Hpm & -> & Hacc). unfold range_round.
    rewrite (bind_val _ _ _ _ _ (page_accessible_ok s l paths p w Hok Hphys ltac:(lia))).
    destruct (decide (can_access s w p)) as [Hc|Hc];
      [rewrite bool_decide_eq_true_2 by done | rewrite bool_decide_eq_false_2 by done]; cbn [negb].
    + destruct (Z.eqb_spec p last) as [->|Hne].
      * left. exists true, s. split; [done|]. split; [done|]. split; [intros _|done].
        intros k Hk Hle. destruct (decide (page + 4096 * k = last)) as [->|]; [done | apply Hacc; lia].
      * right. exists (Z.to_nat ((last - (p + 4096)) / 4096)), (p + 4096), s.
        assert (p + 4096 <= last) by (Z.to_euclidean_division_equations; lia).
        assert (u64 (p + PAGE_SIZE) = p + 4096) as ->.
        { unfold u64, PAGE_SIZE. apply Z.mod_small. unfold USER_ADDRESS_LIMIT in *. lia. }
        split; [done|]. split; [Z.to_euclidean_division_equations; lia|].
        split; [done|]. split; [lia|]. split; [Z.to_euclidean_division_equations; lia|]. split; [done|].
        intros k Hk Hlt. destruct (decide (page + 4096 * k = p)) as [->|]; [done|]. apply Hacc; [done|].
        Z.to_euclidean_division_equations; lia.
    + left. exists false, s. split; [done|]. split; [done|]. split; [done|]. intros Hall. exfalso. apply Hc.
      replace p with (page + 4096 * ((p - page) / 4096)) by (Z.to_euclidean_division_equations; lia).
      apply Hall; Z.to_euclidean_division_equations; lia.
  - split; [done|]. split; [lia|]. rewrite Z.sub_diag. split; [done|]. split; [done|]. intros. lia.
  - unfold RANGE_ROUNDS, USER_ADDRESS_LIMIT in *. Z.to_euclidean_division_equations; lia.
  - by exists b.
Qed.

Lemma pages_bytes s w a n :
  0 <= a -> 0 < n ->
  pages_accessible s w (a / 4096 * 4096) ((a + n - 1) / 4096 * 4096) <->
  forall v, a <= v < a + n -> can_access s w v.
Proof.
  intros Ha Hn. split.
  - intros Hall v Hv. apply (proj1 (can_access_page s w v ltac:(lia))).
    replace (v / 4096 * 4096) with (a / 4096 * 4096 + 4096 * (v / 4096 - a / 4096)) by lia.
    apply Hall; Z.to_euclidean_division_equations; lia.
  - intros Hall k Hk Hle. set (p := a / 4096 * 4096 + 4096 * k) in *.
    assert (p mod 4096 = 0) as Hp by (unfold p; Z.to_euclidean_division_equations; lia).
    assert (can_access s w (Z.max a p)) as Hv by (apply Hall; Z.to_euclidean_division_equations; lia).
    apply (proj2 (can_access_page s w (Z.max a p) ltac:(lia))) in Hv.
    replace (Z.max a p / 4096 * 4096) with p in Hv; [done|].
    unfold p in *. Z.to_euclidean_division_equations; lia.
Qed.

Lemma range_accessible_ok s l paths a n w :
  as_ok s l paths -> phys_ok s -> is_u64 a -> is_u64 n -> 0 < n ->
  exists b, user_range_accessible a n w s = Some (Val b, s) /\
    (b = true <-> a <> 0 /\ a + n <= USER_ADDRESS_LIMIT /\ forall v, a <= v < a + n -> can_access s w v).
Proof.
  intros Hok Hphys Ha Hn Hpos. unfold user_range_accessible.
  destruct (Z.eqb_spec n 0); [lia|]. destruct (Z.eqb_spec a 0) as [->|Ha0]; cbn [orb].
  { exists false. split; [done|]. split; [done | lia]. }
  destruct (Z.leb_spec USER_ADDRESS_LIMIT a); cbn [orb].
  { exists false. split; [done|]. split; [done | lia]. }
  destruct (Z.ltb_spec (USER_ADDRESS_LIMIT - 1 - a) (n - 1)).
  { exists false. split; [done|]. split; [done | lia]. }
  assert (u64 (a + n - 1) = a + n - 1) as -> by (unfold_int; apply Z.mod_small; unfold USER_ADDRESS_LIMIT in *; lia).
  unfold is_u64 in *. rewrite !ldiff_page by lia.
  destruct (range_loop_ok s l paths w ((a + n - 1) / 4096 * 4096) (a / 4096 * 4096) Hok Hphys) as (b & E & Hb);
    [Z.to_euclidean_division_equations; lia | Z.to_euclidean_division_equations; lia |
     replace ((a + n - 1) / 4096 * 4096 - a / 4096 * 4096) with (((a + n - 1) / 4096 - a / 4096) * 4096) by lia;
       apply Z.mod_mul; lia |].
  exists b. split; [done|]. rewrite Hb, pages_bytes by lia. intuition lia.
Qed.

(** the kernel's check of user pointers is exact.  In a well-formed address
    space [user_range_accessible] terminates without changing anything, and it
    accepts a non-empty range exactly when it starts above address 0, ends below
    the user limit, and the processor would let the user program read
    (respectively write) every byte of it. *)
Theorem user_range_accessible_exact s l paths a n w :
  as_ok s l paths -> phys_ok s -> is_u64 a -> is_u64 n -> 0 < n ->
  exists b, user_range_accessible a n w s = Some (Val b, s) /\
    (b = true <-> a <> 0 /\ a + n <= USER_ADDRESS_LIMIT /\
       forall v, a <= v < a + n -> is_Some (hw_access s true w v)).
Proof. exact (range_accessible_ok s l paths a n w). Qed.

(** ** Strings *)

(** The byte a user program reads at [v]. *)
Definition ubyte (s : mmu) (v : Z) : option Z :=
  a ← hw_access s true false v;
  pg ← mem s !! page_of (Z.ldiff a 7);
  w ← rd pg (word_of (Z.ldiff a 7));
  Some (get_byte w (Z.land a 7)).

(** The pages a user program can read are memory. *)
Definition user_ram (s : mmu) : Prop :=
  forall v, 0 <= v < USER_ADDRESS_LIMIT -> can_access s false v -> is_Some (ubyte s v).

(** [bs], terminator included, is the C string at [v] in user memory. *)
Fixpoint user_cstr (s : mmu) (v : Z) (bs : bytes) : Prop :=
  match bs with
  | [] => False
  | c :: rest => v < USER_ADDRESS_LIMIT /\ ubyte s v = Some c /\ if c =? 0 then rest = [] else user_cstr s (v + 1) rest
  end.

Lemma user_cstr_unique s v bs bs' : user_cstr s v bs -> user_cstr s v bs' -> bs = bs'.
Proof.
  revert v bs'. induction bs as [|c rest IH]; intros v [|c' rest']; cbn; try done.
  intros (_ & E & Hr) (_ & E' & Hr'). rewrite E in E'. injection E' as <-.
  destruct (c =? 0); [by subst|]. f_equal. by apply (IH (v + 1)).
Qed.

Lemma hw_supervisor m level indices t w v a :
  hw_walk m level indices t true w v = Some a -> hw_walk m level indices t false w v = Some a.
Proof.
  revert level t. induction indices as [|i rest IH]; intros level t; cbn [hw_walk]; [done|].
  destruct (m !! t) as [pg|]; [|done]. cbn [mbind option_bind]. destruct (rd pg i) as [e|]; [|done].
  cbn [mbind option_bind]. destruct (allowed e true w) eqn:Ea; [|done].
  assert (allowed e false w = true) as ->.
  { unfold allowed in *. apply andb_true_iff in Ea as [[Hp _]%andb_true_iff Hw]. by rewrite Hp, Hw. }
  cbn [negb]. destruct (is_large level e); [done|]. destruct rest; [done|]. apply IH.
Qed.

Lemma user_byte_ok s v c : ubyte s v = Some c -> user_byte v s = Some (Val c, s).
Proof.
  unfold ubyte, user_byte. rewrite bind_gets. destruct (hw_access s true false v) as [a|] eqn:E; [|done].
  apply hw_supervisor in E. unfold hw_access. rewrite E. cbn [mbind option_bind].
  destruct (mem s !! page_of (Z.ldiff a 7)) as [pg|] eqn:Ep; [|done]. cbn [mbind option_bind].
  destruct (rd pg (word_of (Z.ldiff a 7))) as [w|] eqn:Ew; [|done]. intros [= <-].
  rewrite (bind_lift _ a) by done. unfold load_byte.
  assert (load (Z.ldiff a 7) s = Some (Val w, s)) as El by (unfold load; rewrite Ep; cbn; by rewrite Ew).
  by mrun El.
Qed.

Section Strings.
Context (s : mmu) (l : list Z) (paths : gmap Z (list Z)).
Context (Hok : as_ok s l paths) (Hphys : phys_ok s) (Hram : user_ram s).

Lemma string_loop_ok k : forall i a,
  0 < a -> 0 <= i ->
  exists r, string_loop k i a s = Some (Val r, s) /\
    match r with
    | Some bs => user_cstr s (a + i) bs /\ (length bs <= k)%nat
    | None => forall bs, user_cstr s (a + i) bs -> (k < length bs)%nat
    end.
Proof.
  induction k as [|k IH]; intros i a Ha Hi; cbn [string_loop].
  { exists None. split; [done|]. intros [|c bs]; cbn [user_cstr length]; [done | lia]. }
  destruct (decide (a + i < USER_ADDRESS_LIMIT)) as [Hlt|Hge].
  - replace ((USER_ADDRESS_LIMIT <=? a) || (USER_ADDRESS_LIMIT - a <=? i)) with false by (symmetry; bgoal; done).
    assert (u64 (a + i) = a + i) as -> by (unfold u64; apply Z.mod_small; unfold USER_ADDRESS_LIMIT in *; lia).
    destruct (range_accessible_ok s l paths (a + i) 1 false Hok Hphys) as (b & E & Hb); try done.
    { unfold is_u64, USER_ADDRESS_LIMIT in *. lia. }
    mrun E. destruct b; cbn [negb].
    + destruct (proj1 Hb eq_refl) as (_ & _ & Hacc).
      destruct (Hram (a + i)) as [c Hc]; [lia | apply Hacc; lia |]. mrun (user_byte_ok s (a + i) c Hc).
      destruct (Z.eqb_spec c 0) as [->|Hc0].
      { exists (Some [0]). split; [done|]. cbn [user_cstr length]. split; [done | lia]. }
      destruct (IH (i + 1) a Ha ltac:(lia)) as (r & Er & Hr). mrun Er. rewrite Z.add_assoc in Hr.
      exists (cons c <$> r). split; [done|]. destruct r as [bs|]; cbn [fmap option_fmap option_map user_cstr length].
      * rewrite (proj2 (Z.eqb_neq c 0) Hc0). intuition lia.
      * intros [|c' bs]; cbn [user_cstr length]; [done|]. rewrite Hc. intros (_ & [= <-] & Hbs).
        rewrite (proj2 (Z.eqb_neq c 0) Hc0) in Hbs. apply Hr in Hbs. lia.
    + exists None. split; [done|]. intros [|c bs]; cbn [user_cstr length]; [done|]. intros (_ & Hc & _). exfalso.
      assert (false = true) as [=]. apply Hb. split; [lia|]. split; [lia|]. intros v Hv.
      replace v with (a + i) by lia. unfold ubyte in Hc. unfold can_access.
      by destruct (hw_access s true false (a + i)).
  - replace ((USER_ADDRESS_LIMIT <=? a) || (USER_ADDRESS_LIMIT - a <=? i)) with true by (symmetry; bgoal; done).
    exists None. split; [done|]. intros [|c bs]; cbn [user_cstr length]; [done | lia].
Qed.

(** C32: [copy_user_string] reads exactly the strings of user memory.  In a
    well-formed address space whose user pages are memory, the call terminates
    without changing anything; it yields [bs] exactly when [bs] is the C string,
    terminator included, that the user program itself reads at this address, and
    it fits the capacity. *)
Theorem copy_user_string_exact a capacity :
  is_u64 a -> 0 <= capacity ->
  exists r, copy_user_string a capacity s = Some (Val r, s) /\
    forall bs, r = Some bs <-> a <> 0 /\ user_cstr s a bs /\ zlen bs <= capacity.
Proof.
  intros Ha Hcap. unfold copy_user_string, is_u64 in *.
  destruct (Z.eqb_spec capacity 0) as [->|Hc0]; cbn [orb].
  { exists None. split; [done|]. intros bs. split; [done|]. intros (_ & Hs & Hl). destruct bs; [done | zs]. }
  destruct (Z.eqb_spec a 0) as [->|Ha0].
  { exists None. split; [done|]. intros bs. split; [done | lia]. }
  destruct (string_loop_ok (Z.to_nat capacity) 0 a) as (r & Er & Hr); [lia | done |]. rewrite Z.add_0_r in Hr.
  exists r. split; [done|]. intros bs. destruct r as [bs'|].
  - destruct Hr as [Hs Hl]. split; [intros [= <-]; split_and!; try done; unfold zlen; lia|].
    intros (_ & Hs' & _). f_equal. by apply (user_cstr_unique s a).
  - split; [done|]. intros (_ & Hs & Hl). apply Hr in Hs. unfold zlen in Hl. lia.
Qed.

End Strings.
