(* ===== verification/UserMap.v ===== *)
(** * The native memory-mapping calls

    [native_user_memory_map] gives a program fresh zeroed pages or refuses
    without effect, and [native_user_memory_unmap] undoes it. *)

From S2P Require Import Prelude CMonad Mmu Pmm PageTable Elf UserMem UserMemProofs.

(** ** Protection *)

Lemma protect_keeps e pr wr nx m :
  Z.testbit m 0 = false -> Z.testbit m 1 = false -> Z.testbit m 63 = false ->
  Z.land (protect_bits e pr wr nx) m = Z.land e m.
Proof.
  intros H0 H1 H63. apply Z.bits_inj'. intros k Hk. rewrite !Z.land_spec.
  assert (forall b x, Z.testbit m x = false -> forall y, Z.testbit (if b : bool then Z.lor y (2 ^ x) else y) k && Z.testbit m k =
    Z.testbit y k && Z.testbit m k) as Hor.
  { intros b x Hx y. destruct b; [|done]. rewrite Z.lor_spec. destruct (decide (k = x)) as [->|].
    - by rewrite Hx, !andb_false_r.
    - destruct (decide (0 <= x)); [rewrite Z.pow2_bits_false by lia | rewrite Z.pow_neg_r, Z.bits_0 by lia];
        by rewrite orb_false_r. }
  unfold protect_bits. rewrite (Hor nx 63), (Hor wr 1), (Hor pr 0) by done.
  rewrite Z.ldiff_spec. destruct (Z.testbit (Z.lor (Z.lor PAGE_PRESENT PAGE_WRITABLE) PAGE_NO_EXECUTE) k) eqn:E;
    [|by rewrite andb_true_r].
  rewrite !Z.lor_spec in E. change PAGE_PRESENT with (2 ^ 0) in E. change PAGE_WRITABLE with (2 ^ 1) in E.
  change PAGE_NO_EXECUTE with (2 ^ 63) in E. rewrite !Z.pow2_bits_eqb in E by done.
  apply orb_true_iff in E as [[E|E]%orb_true_iff|E]; apply Z.eqb_eq in E; subst k; rewrite ?H0, ?H1, ?H63; by rewrite !andb_false_r.
Qed.

Lemma protect_user e pr wr nx : Z.land (protect_bits e pr wr nx) PAGE_USER = Z.land e PAGE_USER.
Proof. by apply protect_keeps. Qed.

Lemma protect_address e pr wr nx : Z.land (protect_bits e pr wr nx) PAGE_ADDRESS_MASK = Z.land e PAGE_ADDRESS_MASK.
Proof. by apply protect_keeps. Qed.

Lemma protect_user_page_ok s l paths v e pr wr ex :
  as_ok s l paths -> pml4_index v < 256 -> mapping s v = Some e ->
  exists s', protect_user_page v pr wr ex s = Some (Val true, s') /\ as_ok s' l paths /\
    mapping s' v = Some (protect_bits e pr wr (negb ex && negb (Z.land (efer s) EFER_NXE =? 0))) /\
    (forall v', pml4_index v' < 256 -> (user_indices v', pt_index v') <> (user_indices v, pt_index v) ->
       mapping s' v' = mapping s v') /\
    same_machine s s' /\ forall q, paths !! q = None -> mem s' !! q = mem s !! q.
Proof.
  intros Hok Hv Hm. unfold protect_user_page.
  destruct (slot_cases s l paths v Hok Hv) as [[_ Hno]|(t & pg & e' & Es & Ht & Hal & Hpg & Ee & Hlen & Hmap)];
    [congruence|].
  mrun Es. mrun Ee. rewrite Hmap in Hm.
  destruct (Z.eqb_spec (Z.land e' PAGE_USER) 0) as [|Hu]; [done|].
  destruct (Z.eqb_spec (Z.land e' PAGE_ADDRESS_MASK) 0) as [|Ha]; [done|]. injection Hm as ->. cbn [orb].
  rewrite bind_gets. set (w := protect_bits e pr wr _).
  mrun (store_entry s t pg (pt_index v) w Hal (index_range _) Hpg Hlen).
  destruct (leaf_store s l paths t v pg w Hok Ht Hpg) as (Hok1 & Hm1 & Hoth).
  eexists. split; [done|]. split; [done|]. split; [|split; [done|split; [done|]]].
  - rewrite Hm1. unfold w. rewrite protect_user, protect_address, !eqb_neq by done. done.
  - intros q Hq. apply lookup_insert_ne. congruence.
Qed.

(** ** Runs of pages *)

Definition page_at (a : Z) (k : nat) : Z := a + Z.of_nat k * PAGE_SIZE.

Definition perm_entry (s : mmu) (permissions p : Z) : word :=
  protect_bits (Z.lor p PAGE_USER_FLAGS) (negb (permissions =? 0))
    (negb (Z.land permissions USER_MEMORY_WRITE =? 0))
    (negb (negb (Z.land permissions USER_MEMORY_EXEC =? 0)) && negb (Z.land (efer s) EFER_NXE =? 0)).

(** The first [length ps] pages from [a] on are mapped to the pages [ps], which
    are zero, belong to nobody else, and come from the allocator's [l]. *)
Record mapped_run (s s' : mmu) (l l' : list Z) (paths' : gmap Z (list Z)) (a permissions : Z) (ps : list Z) : Prop := {
  mr_ok : as_ok s' l' paths';
  mr_same : same_machine s s';
  mr_nodup : NoDup ps;
  mr_suffix : exists u, l = u ++ l';
  mr_fresh p : p ∈ ps -> p ∈ l /\ (p ∉ l') /\ paths' !! p = None /\ mem s' !! p = Some zero_page;
  mr_mapped k p : ps !! k = Some p -> mapping s' (page_at a k) = Some (perm_entry s permissions p);
  mr_other v : user_page v -> (forall k, (k < length ps)%nat -> v <> page_at a k) -> mapping s' v = mapping s v;
}.

(** The pages of a valid range. *)
Definition run_ok (a : Z) (n : nat) : Prop :=
  0 < a /\ a mod 4096 = 0 /\ a + 4096 * Z.of_nat n <= USER_ADDRESS_LIMIT.

Lemma run_page a n k : run_ok a n -> (k < n)%nat -> user_page (page_at a k).
Proof.
  unfold run_ok, page_at, user_page, PAGE_SIZE, USER_ADDRESS_LIMIT. intros (Ha & Hm & Hl) Hk.
  split; [lia|]. rewrite Z.mod_add by lia. done.
Qed.

Lemma user_pages_differ v v' :
  user_page v -> user_page v' -> v' <> v -> (user_indices v', pt_index v') <> (user_indices v, pt_index v).
Proof. intros Hv Hv' Hne E. by apply Hne, (user_page_inj v v'). Qed.

Lemma page_at_inj a i j : page_at a i = page_at a j -> i = j.
Proof. unfold page_at, PAGE_SIZE. lia. Qed.

Lemma address_entry s permissions p :
  0 <= p < 2 ^ 52 -> p mod 4096 = 0 -> Z.land (perm_entry s permissions p) PAGE_ADDRESS_MASK = p.
Proof. intros. unfold perm_entry. rewrite protect_address. by apply address_of_page. Qed.

(** One round of a mapping loop. *)
Lemma map_steps s s1 l l1 paths1 a n permissions ps :
  run_ok a n -> (length ps < n)%nat -> Forall (fun p => p < 2 ^ 52) l ->
  mapped_run s s1 l l1 paths1 a permissions ps -> (4 <= length l1)%nat ->
  let page := page_at a (length ps) in
  exists p s2 s3 s4 l3 paths3,
    pmm_alloc_zeroed_page s1 = Some (Val p, s2) /\ map_user_page page p s2 = Some (Val tt, s3) /\
    protect_user_page page (negb (permissions =? 0)) (negb (Z.land permissions USER_MEMORY_WRITE =? 0))
      (negb (Z.land permissions USER_MEMORY_EXEC =? 0)) s3 = Some (Val true, s4) /\
    mapped_run s s4 l l3 paths3 a permissions (ps ++ [p]) /\ (length l1 <= length l3 + 4)%nat.
Proof.
  intros Hrun Hlen Hphys [Hok Hsame Hndp (u & Hu) Hfr Hmp Hot] Hl1 page.
  assert (user_page page) as Hpg by by apply (run_page a n). pose proof (user_page_half page Hpg) as Hhalf.
  destruct l1 as [|p l1]; [cbn in Hl1; lia|].
  destruct (as_alloc s1 p l1 paths1 Hok) as (s2 & Ea & Hok2 & Hs2 & Hm2 & Hpal & Hpnz & Hpl & Hpn & Hmap2).
  assert (p ∈ l) as Hpin by (rewrite Hu; apply elem_of_app; right; apply list_elem_of_here).
  assert (0 <= p < 2 ^ 52 /\ p mod 4096 = 0) as [Hpr Hpm].
  { destruct Hpal as [? ?]. rewrite Forall_forall in Hphys. specialize (Hphys p Hpin). lia. }
  destruct (map_user_page_ok s2 l1 paths1 page p Hok2 Hhalf) as (s3 & l3 & paths3 & Em & Hok3 & Hm3 & Hot3 & Hs3 & Hf3);
    [cbn in Hl1; lia | done | done | done |].
  destruct (protect_user_page_ok s3 l3 paths3 page _ (negb (permissions =? 0))
    (negb (Z.land permissions USER_MEMORY_WRITE =? 0)) (negb (Z.land permissions USER_MEMORY_EXEC =? 0)) Hok3 Hhalf Hm3)
    as (s4 & Ep & Hok4 & Hm4 & Hot4 & Hs4 & Hmem4).
  destruct (fo_list _ _ _ _ _ _ _ Hf3) as (u3 & Hu3 & Hul3).
  assert (same_machine s s4) as Hs04 by (unfold same_machine in *; intuition congruence).
  assert (efer s3 = efer s) as Hef by (unfold same_machine in *; intuition congruence).
  assert (forall q, q ∉ p :: l1 -> paths1 !! q = None -> paths3 !! q = None /\ mem s4 !! q = mem s1 !! q) as Hkeep.
  { intros q Hq Hqp. assert (q ∉ l1) as Hql by (intros ?; apply Hq; by right).
    assert (paths3 !! q = None) as Hq3 by by eapply fo_none.
    split; [done|]. rewrite Hmem4 by done. rewrite (fo_mem _ _ _ _ _ _ _ Hf3 q) by done.
    rewrite Hm2, lookup_insert_ne; [done|]. intros ->. apply Hq, list_elem_of_here. }
  assert (forall v, user_page v -> v <> page -> mapping s4 v = mapping s1 v) as Hothers.
  { intros v Hv Hne. rewrite Hot4, Hot3, Hmap2; try done; try (by apply user_page_half); by apply user_pages_differ. }
  exists p, s2, s3, s4, l3, paths3. split; [done|]. split; [done|]. split; [done|]. split; [|rewrite Hu3, length_cons, length_app; lia].
  assert (p ∉ ps) as Hpps. { intros Hin. destruct (Hfr p Hin) as (_ & Hn & _). apply Hn, list_elem_of_here. }
  constructor; try done.
  - apply NoDup_app. split_and!; [done | | apply NoDup_singleton]. intros q Hq ->%list_elem_of_singleton. done.
  - exists (u ++ p :: u3). rewrite Hu, Hu3, <- app_assoc. done.
  - intros q [Hq| ->%list_elem_of_singleton]%elem_of_app.
    + destruct (Hfr q Hq) as (? & Hnl & Hqp & Hqm). destruct (Hkeep q Hnl Hqp) as [? Hm]. split_and!; try done.
      * intros Hin. apply Hnl. rewrite Hu3. right. apply elem_of_app. by right.
      * by rewrite Hm.
    + split_and!; try done.
      * intros Hin. apply Hpl. rewrite Hu3. apply elem_of_app. by right.
      * by eapply fo_none.
      * rewrite Hmem4 by by eapply fo_none. rewrite (fo_mem _ _ _ _ _ _ _ Hf3 p), Hm2 by done. apply lookup_insert_eq.
  - intros k q. destruct (decide (k < length ps)%nat) as [Hk|Hk].
    + rewrite lookup_app_l by done. intros Hq. rewrite Hothers; [by apply Hmp | apply (run_page a n); [done | lia] |].
      intros E%page_at_inj. lia.
    + rewrite lookup_app_r by lia. intros Hq. apply list_lookup_singleton_Some in Hq as [Hk0 <-].
      replace k with (length ps) by lia. fold page. rewrite Hm4. unfold perm_entry. by rewrite Hef.
  - intros v Hv Hne. rewrite length_app in Hne. cbn in Hne. rewrite Hothers; [| done | apply Hne; lia].
    apply Hot; [done|]. intros k Hk. apply Hne. lia.
Qed.

Lemma least (f : nat -> bool) k : f k = true -> exists j, (j <= k)%nat /\ f j = true /\ forall i, (i < j)%nat -> f i = false.
Proof.
  revert f. induction k as [|k IH]; intros f Hk.
  - exists 0%nat. split_and!; [lia | done | lia].
  - destruct (f 0%nat) eqn:E0; [exists 0%nat; split_and!; [lia | done | lia]|].
    destruct (IH (fun i => f (S i)) Hk) as (j & Hj & Hfj & Hmin). exists (S j). split_and!; [lia | done |].
    intros [|i] Hi; [done | apply Hmin; lia].
Qed.

(** ** Mapping *)

Lemma valid_range a len r :
  is_u64 a -> is_u64 len -> valid_user_memory_range a len = Some r ->
  exists n, run_ok a n /\ r = Z.of_nat n * PAGE_SIZE /\ (1 <= n <= 4096)%nat /\ len <= r < len + 4096.
Proof.
  unfold valid_user_memory_range, is_u64, USER_MEMORY_MAX_SIZE. intros Ha Hlen.
  destruct (_ || _) eqn:E1; [done|]. rewrite !orb_false_iff in E1.
  destruct E1 as (((((E1 & E2) & E3) & E4) & E5) & E6).
  assert (u64 (len + PAGE_SIZE - 1) = len + 4095) as -> by (unfold u64, PAGE_SIZE; rewrite Z.mod_small; lia).
  rewrite ldiff_page by lia. destruct (_ || _) eqn:E7; [done|]. intros [= <-]. rewrite orb_false_iff in E7.
  destruct E7 as [E7 E8]. apply negb_false_iff in E5. apply Z.eqb_eq in E5.
  change (PAGE_SIZE - 1) with 0xFFF in E5. rewrite low_bits in E5 by lia.
  exists (Z.to_nat ((len + 4095) / 4096)). unfold run_ok, PAGE_SIZE. rewrite !Z2Nat.id by (Z.to_euclidean_division_equations; lia).
  split; [split_and!; [lia | done | lia]|]. split; [done|]. Z.to_euclidean_division_equations; lia.
Qed.

Lemma for_pages_eq a n body : for_pages a (Z.of_nat n * PAGE_SIZE) body = for_loop n a PAGE_SIZE body.
Proof. unfold for_pages. rewrite Z.div_mul by done. by rewrite Nat2Z.id. Qed.

Section Map.
Context (s : mmu) (l : list Z) (paths : gmap Z (list Z)) (a len permissions : Z) (n : nat).
Context (Hok : as_ok s l paths) (Hphys : Forall (fun p => p < 2 ^ 52) l).
Context (Hrun : run_ok a n) (Hvalid : valid_user_memory_range a len = Some (Z.of_nat n * PAGE_SIZE)).
Context (Hperm : Z.ldiff permissions 7 = 0).

(** The first loop. *)
Lemma check_mapped m :
  (m < n)%nat -> user_page_mapped (page_at a m) s =
    Some (Val (bool_decide (is_Some (mapping s (page_at a m)))), s).
Proof. intros Hm. apply (page_mapped_ok s l paths); [done|]. by apply user_page_half, (run_page a n). Qed.

Lemma map_loop :
  (4 * n <= length l)%nat ->
  exists s' l' paths' ps, length ps = n /\ mapped_run s s' l l' paths' a permissions ps /\
    for_loop n a PAGE_SIZE (fun page =>
      phys ← pmm_alloc_zeroed_page;
      map_user_page page phys;;
      ok ← protect_user_page page (negb (permissions =? 0))
             (negb (Z.land permissions USER_MEMORY_WRITE =? 0))
             (negb (Z.land permissions USER_MEMORY_EXEC =? 0));
      if negb (ok : bool) then
        for_pages a (page - a + PAGE_SIZE) (fun rollback => unmap_user_page rollback;; mret tt);;
        exit MINUS_ONE
      else mret tt) s = Some (Val tt, s').
Proof.
  intros Hl.
  edestruct (for_loop_count (fun k s' => exists l' paths' ps, length ps = k /\
    mapped_run s s' l l' paths' a permissions ps /\ (length l <= length l' + 4 * k)%nat) n PAGE_SIZE) as (s' & E & H').
  3: { destruct H' as (l' & paths' & ps & Hlen & Hmr & _). exists s', l', paths', ps. split; [done|]. split; [done|]. exact E. }
  - intros m s1 Hm (l1 & paths1 & ps & Hlen & Hmr & Hl1).
    destruct (map_steps s s1 l l1 paths1 a n permissions ps) as (p & s2 & s3 & s4 & l3 & paths3 & Ea & Em & Ep & Hmr3 & Hl3);
      try done; [lia..|].
    rewrite Hlen in Em, Ep. exists s4. split; [mrun Ea; mrun Em; by mrun Ep|]. exists l3, paths3, (ps ++ [p]).
    split; [rewrite length_app; cbn; lia|]. split; [done | lia].
  - exists l, paths, []. split; [done|]. split; [|lia]. constructor; try done.
    + apply NoDup_nil_2.
    + by exists [].
    + intros p Hp. by apply not_elem_of_nil in Hp.
Qed.

(** A range that is free is mapped ... *)
Lemma native_map_ok :
  (forall k, (k < n)%nat -> mapping s (page_at a k) = None) -> (4 * n <= length l)%nat ->
  exists s' l' paths' ps, length ps = n /\ mapped_run s s' l l' paths' a permissions ps /\
    native_user_memory_map a len permissions s = Some (Val a, s').
Proof.
  intros Hfree Hl. destruct (map_loop Hl) as (s' & l' & paths' & ps & Hlen & Hmr & E).
  exists s', l', paths', ps. split; [done|]. split; [done|].
  unfold native_user_memory_map. apply fn_val. rewrite bind_gets, Hvalid, Hperm, !for_pages_eq.
  destruct (pmm_hhdm _ _ (as_pmm _ _ _ Hok)) as [h ->]. cbn [not_null negb orb Z.eqb fail_if]. rewrite bind_ret.
  destruct (for_loop_count (fun _ s1 => s1 = s) n PAGE_SIZE (fun page => m ← user_page_mapped page; fail_if m) a s)
    as (s1 & E1 & ->); [|done|].
  { intros m s1 Hm ->. exists s. split; [|done]. fold (page_at a m). mrun (check_mapped m Hm). rewrite Hfree by done.
    by rewrite bool_decide_eq_false_2 by apply is_Some_None. }
  mrun E1. mrun E. done.
Qed.

(** ... and one that is not is refused without effect. *)
Lemma native_map_refused k e :
  (k < n)%nat -> mapping s (page_at a k) = Some e ->
  native_user_memory_map a len permissions s = Some (Val MINUS_ONE, s).
Proof.
  intros Hk He.
  destruct (least (fun i => bool_decide (is_Some (mapping s (page_at a i)))) k) as (j & Hj & Hje & Hmin).
  { rewrite He. by apply bool_decide_eq_true_2. }
  unfold native_user_memory_map. apply fn_exit. rewrite bind_gets, Hvalid, Hperm, !for_pages_eq.
  destruct (pmm_hhdm _ _ (as_pmm _ _ _ Hok)) as [h ->]. cbn [not_null negb orb Z.eqb fail_if]. rewrite bind_ret.
  apply bind_exit. apply (for_loop_exit (fun _ s1 => s1 = s) n j MINUS_ONE); [lia| | |done].
  - intros i s1 Hi ->. exists s. split; [|done]. fold (page_at a i). mrun (check_mapped i ltac:(lia)). by rewrite Hmin.
  - intros s1 ->. fold (page_at a j). mrun (check_mapped j ltac:(lia)). by rewrite Hje.
Qed.

(** *** Unmapping what was mapped *)

Section Unmap.
Context (s1 : mmu) (l1 : list Z) (paths1 : gmap Z (list Z)) (ps : list Z).
Context (Hlen : length ps = n) (Hmr : mapped_run s s1 l l1 paths1 a permissions ps).

(** The first [k] pages have been given back. *)
Record unmapped_upto (k : nat) (x : mmu) : Prop := {
  uu_ok : as_ok x (reverse (take k ps) ++ l1) paths1;
  uu_mem q : paths1 !! q = None -> (q ∉ take k ps) -> mem x !! q = mem s1 !! q;
  uu_gone i : (i < k)%nat -> mapping x (page_at a i) = None;
  uu_other v : user_page v -> (forall i, (i < k)%nat -> v <> page_at a i) -> mapping x v = mapping s1 v;
}.

Lemma unmap_round k x :
  (k < n)%nat -> unmapped_upto k x ->
  exists x', (ok ← unmap_user_page (page_at a k); fail_if (negb ok)) x = Some (Val tt, x') /\ unmapped_upto (S k) x'.
Proof.
  intros Hk [Hokx Hmem Hgone Hother]. destruct (lookup_lt_is_Some_2 ps k) as [p Hp]; [lia|].
  pose proof (run_page a n k Hrun Hk) as Hpage. pose proof (user_page_half _ Hpage) as Hhalf.
  destruct (mr_fresh _ _ _ _ _ _ _ _ Hmr p) as (Hin & Hpl1 & Hpp & Hpm); [by eapply list_elem_of_lookup_2|].
  assert (0 <= p < 2 ^ 52 /\ p mod 4096 = 0) as [Hpr Hpa].
  { destruct (proj1 (Forall_forall _ _) (pmm_pages _ _ (as_pmm _ _ _ Hok)) p Hin) as ([? ?] & _).
    pose proof (proj1 (Forall_forall _ _) Hphys p Hin). cbn in *. lia. }
  assert (p ∉ take k ps) as Hptake.
  { intros (i & Hi)%list_elem_of_lookup. rewrite lookup_take_Some in Hi. destruct Hi as [Hi Hik].
    pose proof (NoDup_lookup ps i k p (mr_nodup _ _ _ _ _ _ _ _ Hmr) Hi Hp). lia. }
  assert (mapping x (page_at a k) = Some (perm_entry s permissions p)) as Hmk.
  { rewrite Hother; [by apply (mr_mapped _ _ _ _ _ _ _ _ Hmr) | done |]. intros i Hi E%page_at_inj. lia. }
  destruct (unmap_user_page_ok x _ paths1 (page_at a k) _ Hokx Hhalf Hmk) as (x' & E & Hok' & Hno & Hoth & Hm');
    rewrite ?address_entry by done; rewrite ?address_entry in * by done; try done.
  { rewrite elem_of_app, elem_of_reverse. tauto. }
  { rewrite Hmem by done. by rewrite Hpm. }
  exists x'. mrun E. split; [done|].
  assert (forall v, user_page v -> v <> page_at a k -> mapping x' v = mapping x v) as Hne.
  { intros v Hv Hvk. apply Hoth; [by apply user_page_half | by apply user_pages_differ]. }
  constructor.
  - rewrite (take_S_r _ _ _ Hp), reverse_snoc. exact Hok'.
  - intros q Hq. rewrite (take_S_r _ _ _ Hp), elem_of_app, list_elem_of_singleton. intros Hn.
    rewrite Hm' by (done || tauto). apply Hmem; tauto.
  - intros i Hi. destruct (decide (i = k)) as [->|]; [done|]. rewrite Hne; [apply Hgone; lia | |].
    + apply (run_page a n); [done | lia].
    + intros Ei%page_at_inj. lia.
  - intros v Hv Hvi. rewrite Hne; [|done | apply Hvi; lia]. apply Hother; [done|]. intros i Hi. apply Hvi. lia.
Qed.

Lemma native_unmap_ok :
  (forall k, (k < n)%nat -> mapping s (page_at a k) = None) ->
  exists s2, native_user_memory_unmap a len s1 = Some (Val 0, s2) /\
    as_ok s2 (reverse ps ++ l1) paths1 /\ forall v, user_page v -> mapping s2 v = mapping s v.
Proof.
  intros Hfree. pose proof (mr_ok _ _ _ _ _ _ _ _ Hmr) as Hok1.
  destruct (for_loop_count (fun _ x => x = s1) n PAGE_SIZE (fun page => m ← user_page_mapped page; fail_if (negb m)) a s1)
    as (s1' & E1 & ->); [|done|].
  { intros m x Hm ->. exists s1. split; [|done]. fold (page_at a m).
    destruct (lookup_lt_is_Some_2 ps m) as [p Hp]; [lia|].
    rewrite (bind_val _ _ _ _ _ (page_mapped_ok s1 l1 paths1 (page_at a m) Hok1 (user_page_half _ (run_page a n m Hrun Hm)))).
    rewrite (mr_mapped _ _ _ _ _ _ _ _ Hmr m p Hp). by rewrite bool_decide_eq_true_2. }
  destruct (for_loop_count unmapped_upto n PAGE_SIZE (fun page => ok ← unmap_user_page page; fail_if (negb ok)) a s1)
    as (s2 & E2 & [Hok2 _ Hgone Hother]).
  { intros k x Hk. apply unmap_round. done. }
  { constructor; try done. intros i Hi. lia. }
  exists s2. split.
  - unfold native_user_memory_unmap. apply fn_val. rewrite Hvalid, !for_pages_eq. mrun E1. mrun E2. done.
  - rewrite take_ge in Hok2 by lia. split; [done|]. intros v Hv.
    destruct (decide (Exists (fun i => v = page_at a i) (seq 0 n))) as [(i & Hi & ->)%Exists_exists|Hno].
    + apply elem_of_seq in Hi. by rewrite Hgone, Hfree by lia.
    + assert (forall i, (i < n)%nat -> v <> page_at a i) as Hne.
      { intros i Hi ->. apply Hno, Exists_exists. exists i. split; [apply elem_of_seq; lia | done]. }
      rewrite Hother by done. apply (mr_other _ _ _ _ _ _ _ _ Hmr); [done|]. by rewrite Hlen.
Qed.

End Unmap.
End Map.

