(* ===== verification/Isolation.v ===== *)
(** * The kernel writes only what the program may write

    What the accesses of system calls to user memory leave alone.  Against a
    fixed initial state [s0], the invariant [confined] says that the address
    space is well formed, that the processor translates user addresses as before,
    and that every byte of physical memory that differs is one the user program
    itself could have written. *)

From S2P Require Import Prelude CMonad Mmu Pmm PageTable Elf UserMem UserMemProofs.

(** A byte of physical memory. *)
Definition phys_byte (s : mmu) (a : Z) : option Z :=
  pg ← mem s !! page_of (Z.ldiff a 7);
  w ← rd pg (word_of (Z.ldiff a 7));
  Some (get_byte w (Z.land a 7)).

Lemma ubyte_phys s v a : hw_access s true false v = Some a -> ubyte s v = phys_byte s a.
Proof. unfold ubyte. by intros ->. Qed.

(** The user program can write the byte [a] of physical memory. *)
Definition user_writable (s : mmu) (a : Z) : Prop :=
  exists v, 0 <= v < USER_ADDRESS_LIMIT /\ hw_access s true true v = Some a.

(** What user addresses translate to is memory, and neither a page of the
    allocator nor a page table. *)
Definition user_frames (s : mmu) (l : list Z) (paths : gmap Z (list Z)) : Prop :=
  forall v w a, 0 <= v < USER_ADDRESS_LIMIT -> hw_access s true w v = Some a ->
    0 <= a < 2 ^ 64 /\ is_Some (phys_byte s a) /\ (page_of a ∉ l) /\ paths !! page_of a = None.

Record confined (s0 : mmu) (l : list Z) (paths : gmap Z (list Z)) (s : mmu) : Prop := {
  co_as : as_ok s l paths;
  co_phys : phys_ok s;
  co_frames : user_frames s l paths;
  co_same : s = with_mem (mem s) s0;
  co_hw v u w : 0 <= v < USER_ADDRESS_LIMIT -> hw_access s u w v = hw_access s0 u w v;
  co_writes a : is_u64 a -> phys_byte s a <> phys_byte s0 a -> user_writable s0 a;
}.

Lemma confined_refl s l paths : as_ok s l paths -> phys_ok s -> user_frames s l paths -> confined s l paths s.
Proof. intros. constructor; try done. by destruct s. Qed.

(** ** Bytes of words *)

Lemma get_put_ne w j k b : 0 <= j < 8 -> 0 <= k < 8 -> j <> k -> is_u8 b -> get_byte (put_byte w k b) j = get_byte w j.
Proof.
  intros Hj Hk Hne Hb. unfold get_byte, put_byte. change 255 with (Z.ones 8).
  apply Z.bits_inj'. intros n Hn. rewrite !Z.land_spec. destruct (decide (n < 8)) as [Hn8|]; cycle 1.
  { rewrite (Z.ones_spec_high 8 n) by lia. by rewrite !andb_false_r. }
  f_equal. rewrite !Z.shiftr_spec by lia. rewrite Z.lor_spec, Z.ldiff_spec, !Z.shiftl_spec by lia.
  assert (Z.testbit b (n + 8 * j - 8 * k) = false) as ->.
  { destruct (decide (n + 8 * j - 8 * k < 0)) as [|]; [by apply Z.testbit_neg_r|].
    rewrite <- (Z.mod_small b (2 ^ 8)) by (unfold is_u8 in Hb; lia). apply Z.mod_pow2_bits_high. lia. }
  assert (Z.testbit (Z.ones 8) (n + 8 * j - 8 * k) = false) as ->.
  { destruct (decide (n + 8 * j - 8 * k < 0)) as [|]; [by apply Z.testbit_neg_r|]. apply Z.ones_spec_high. lia. }
  by rewrite andb_true_r, orb_false_r.
Qed.

Lemma byte_split a : 0 <= a -> Z.ldiff a 7 = a / 8 * 8 /\ Z.land a 7 = a mod 8.
Proof.
  intros Ha. change 7 with (Z.ones 3). rewrite Z.ldiff_ones_r, Z.land_ones by lia.
  by rewrite Z.shiftl_mul_pow2, Z.shiftr_div_pow2 by lia.
Qed.

Lemma page_of_slot a : is_u64 a -> page_of (Z.ldiff a 7) = page_of a.
Proof.
  intros Ha. unfold is_u64 in Ha. rewrite (proj1 (byte_split a ltac:(lia))).
  rewrite !page_of_div by (Z.to_euclidean_division_equations; lia). Z.to_euclidean_division_equations; lia.
Qed.

(** A byte is given by its page, its word and its place in the word. *)
Lemma byte_place a b : is_u64 a -> is_u64 b ->
  page_of (Z.ldiff a 7) = page_of (Z.ldiff b 7) -> word_of (Z.ldiff a 7) = word_of (Z.ldiff b 7) ->
  Z.land a 7 = Z.land b 7 -> a = b.
Proof.
  unfold is_u64. intros Ha Hb. rewrite !page_of_slot by done. rewrite !page_of_div by lia. unfold word_of.
  destruct (byte_split a) as [-> ->]; [lia|]. destruct (byte_split b) as [-> ->]; [lia|].
  rewrite !low_bits by (Z.to_euclidean_division_equations; lia). Z.to_euclidean_division_equations; lia.
Qed.

(** ** Changing one byte *)

Lemma store_byte_ok s a b :
  ram_ok (mem s) -> is_u64 a -> is_u8 b -> is_Some (phys_byte s a) ->
  exists pg, length pg = 512%nat /\ is_Some (mem s !! page_of a) /\
    store_byte a b s = Some (Val tt, with_mem (<[page_of a := pg]> (mem s)) s) /\
    forall a', is_u64 a' -> a' <> a ->
      phys_byte (with_mem (<[page_of a := pg]> (mem s)) s) a' = phys_byte s a'.
Proof.
  intros Hram Ha Hb [c Hc]. unfold phys_byte in Hc.
  destruct (mem s !! page_of (Z.ldiff a 7)) as [pg|] eqn:Ep; [|done]. cbn [mbind option_bind] in Hc.
  destruct (rd pg (word_of (Z.ldiff a 7))) as [w|] eqn:Ew; [|done].
  destruct (wr_is_Some pg (word_of (Z.ldiff a 7)) (put_byte w (Z.land a 7) b)) as [pg' Hw]; [by eapply rd_Some|].
  exists pg'. pose proof (wr_zlen _ _ _ _ Hw) as Hl. pose proof (Hram _ _ Ep) as Hpl. cbn beta in Hpl. unfold zlen in Hl.
  rewrite <- (page_of_slot a Ha). split_and!; [lia | done | |].
  - unfold store_byte. assert (load (Z.ldiff a 7) s = Some (Val w, s)) as El by (unfold load; rewrite Ep; cbn; by rewrite Ew).
    mrun El. unfold store. rewrite Ep. cbn [mbind option_bind]. rewrite Hw. done.
  - intros a' Ha' Hne. unfold phys_byte. cbn [mem with_mem].
    destruct (decide (page_of (Z.ldiff a' 7) = page_of (Z.ldiff a 7))) as [Epg|Hpg]; [|by rewrite lookup_insert_ne].
    rewrite Epg, lookup_insert_eq, Ep. cbn [mbind option_bind].
    destruct (decide (word_of (Z.ldiff a' 7) = word_of (Z.ldiff a 7))) as [Ewd|Hwd]; [|by rewrite (rd_wr_ne _ _ _ _ _ Hw)].
    rewrite Ewd, (rd_wr_eq _ _ _ _ Hw), Ew. cbn [mbind option_bind]. f_equal.
    destruct (byte_split a) as [_ Em]; [apply Ha|]. destruct (byte_split a') as [_ Em']; [apply Ha'|].
    apply get_put_ne; [rewrite Em'; by apply Z.mod_pos_bound | rewrite Em; by apply Z.mod_pos_bound | | done].
    intros E. by apply Hne, byte_place.
Qed.

(** The translation of user addresses only depends on the tables. *)
Lemma hw_walk_tables s l paths m' path1 path2 t u w v :
  as_ok s l paths -> phys_ok s -> (forall t path, paths !! t = Some path -> m' !! t = mem s !! t) ->
  (length path1 + length path2 = 4)%nat -> paths !! t = Some path1 ->
  (forall p i q, path1 ++ path2 = p ++ i :: q -> user_slot_ok p i) ->
  hw_walk m' (length path1) path2 t u w v = hw_walk (mem s) (length path1) path2 t u w v.
Proof.
  intros Hok Hphys Hag. revert path1 t. induction path2 as [|i path2 IH]; intros path1 t Hl Ht Hu; [done|].
  cbn [hw_walk length] in *. assert (user_slot_ok path1 i) as Hi by by eapply Hu. rewrite (Hag _ _ Ht).
  destruct (table_page _ _ _ _ _ Hok Ht) as (pg & Hpg & Hpl). rewrite Hpg. cbn [mbind option_bind].
  destruct (rd pg i) as [e|] eqn:He; [|done]. cbn [mbind option_bind].
  destruct (allowed e u w) eqn:Ea; [|done]. cbn [negb]. destruct (is_large (length path1) e); [done|].
  destruct path2 as [|j path2]; [done|].
  assert (Z.land e PAGE_PRESENT <> 0) as Hpres by (unfold allowed in Ea; intros E0; by rewrite E0 in Ea).
  cbn [length] in *.
  destruct (as_down _ _ _ Hok t path1 pg i e Ht ltac:(lia) Hi Hpg He Hpres) as [_ Hc].
  destruct (as_table _ _ _ Hok _ _ Hc) as (_ & _ & Hin & _).
  rewrite child_address by (by apply Hphys).
  replace (S (length path1)) with (length (path1 ++ [i])) by (rewrite length_app; cbn; lia).
  apply (IH (path1 ++ [i])); [rewrite length_app; cbn; lia | done |].
  intros p k q E. apply (Hu p k q). by rewrite <- app_assoc in E.
Qed.

Lemma hw_access_tables s s' l paths u w v :
  as_ok s l paths -> phys_ok s -> cr3 s' = cr3 s ->
  (forall t path, paths !! t = Some path -> mem s' !! t = mem s !! t) ->
  0 <= v < USER_ADDRESS_LIMIT -> hw_access s' u w v = hw_access s u w v.
Proof.
  intros Hok Hphys Hcr Hag Hv. unfold hw_access, current_pml4. rewrite Hcr.
  apply (hw_walk_tables s l paths (mem s') [] (all_indices v)); try done; [apply Hok|].
  intros p i q. apply all_path_ok. by apply user_half.
Qed.

Section Confined.
Context (s0 : mmu) (l : list Z) (paths : gmap Z (list Z)).
Abbreviation I := (confined s0 l paths).

Lemma co_cr3 s : I s -> cr3 s = cr3 s0.
Proof. intros H. by rewrite (co_same _ _ _ _ H). Qed.

Lemma set_user_byte_safe v b :
  0 <= v < USER_ADDRESS_LIMIT -> can_access s0 true v -> is_u8 b -> safe I (set_user_byte v b) (fun _ => True).
Proof.
  intros Hv [a Ha] Hb s Hs. destruct Hs as [Has Hph Hfr Hsame Hhw Hwr].
  assert (hw_access s true true v = Some a) as Ha' by by rewrite Hhw.
  destruct (Hfr v true a Hv Ha') as (Hau & Hsome & Hnl & Hnp).
  destruct (store_byte_ok s a b (pmm_ram _ _ (as_pmm _ _ _ Has)) Hau Hb Hsome) as (pg & Hpl & Hin & E & Hother).
  set (s' := with_mem (<[page_of a := pg]> (mem s)) s) in *.
  assert (forall t path, paths !! t = Some path -> mem s' !! t = mem s !! t) as Htab.
  { intros t path Ht. cbn. apply lookup_insert_ne. congruence. }
  assert (forall v u w, 0 <= v < USER_ADDRESS_LIMIT -> hw_access s' u w v = hw_access s u w v) as Hhw'.
  { intros. by apply (hw_access_tables s s' l paths). }
  exists (Val tt), s'. split_and!; [| |done].
  { unfold set_user_byte. rewrite bind_gets. unfold hw_access in *. rewrite (hw_supervisor _ _ _ _ _ _ _ Ha').
    by rewrite (bind_lift _ a). }
  constructor.
  - apply (as_ok_untouched s s' l l paths Has); [|done|].
    + by apply pmm_ok_store; [apply Has | |].
    + intros t path Ht. split; [by eapply Htab | apply (as_table _ _ _ Has t path Ht)].
  - intros p Hp. cbn in Hp. destruct (decide (p = page_of a)) as [->|]; [by apply Hph|].
    rewrite lookup_insert_ne in Hp by done. by apply Hph.
  - intros v' w' a' Hv' E'. rewrite Hhw' in E' by done. destruct (Hfr v' w' a' Hv' E') as (? & Hs1 & ? & ?).
    split; [done|]. split; [|done]. destruct (decide (a' = a)) as [->|]; [|by rewrite Hother].
    unfold phys_byte. cbn [mem s' with_mem]. rewrite page_of_slot, lookup_insert_eq by done. cbn [mbind option_bind].
    unfold phys_byte in Hsome. destruct (mem s !! page_of (Z.ldiff a 7)) as [pg0|] eqn:E0; [|by destruct Hsome].
    cbn [mbind option_bind] in Hsome. destruct (rd pg0 _) as [w0|] eqn:E1; [|by destruct Hsome].
    apply rd_Some in E1. unfold zlen in E1. rewrite (pmm_ram _ _ (as_pmm _ _ _ Has) _ _ E0) in E1.
    destruct (rd_is_Some pg (word_of (Z.ldiff a 7))) as [w1 ->]; [unfold zlen; lia|]. done.
  - unfold s'. cbn [mem with_mem]. generalize (<[page_of a := pg]> (mem s)). intros m. by rewrite Hsame.
  - intros. rewrite Hhw' by done. by apply Hhw.
  - intros a' Hu Hd. destruct (decide (a' = a)) as [->|Hne]; [by exists v|].
    rewrite Hother in Hd by done. by apply Hwr.
Qed.

Definition range_ok (w : bool) (a n : Z) : Prop :=
  a + n <= USER_ADDRESS_LIMIT /\ 0 <= a /\ forall v, a <= v < a + n -> can_access s0 w v.

Lemma set_user_bytes_safe bs : forall v,
  range_ok true v (zlen bs) -> is_bytes bs -> safe I (set_user_bytes v bs) (fun _ => True).
Proof.
  induction bs as [|b bs IH]; intros v (Hl & Hv & Hacc) Hb; cbn [set_user_bytes]; [by apply safe_ret|].
  rewrite zlen_cons in *. pose proof (zlen_nonneg bs). apply is_bytes_cons in Hb as [Hb Hbs].
  apply (safe_bind _ _ _ (fun _ => True)); [apply set_user_byte_safe; [lia | apply Hacc; lia | done]|].
  intros _ _. apply IH; [|done]. split_and!; [lia | lia |]. intros. apply Hacc. lia.
Qed.

Lemma confined_ram s : I s -> user_ram s.
Proof.
  intros Hs v Hv [a Ha]. rewrite (ubyte_phys _ _ _ Ha). by apply (co_frames _ _ _ _ Hs v false a).
Qed.

Lemma confined_access s w v : I s -> 0 <= v < USER_ADDRESS_LIMIT -> can_access s w v <-> can_access s0 w v.
Proof. intros Hs Hv. unfold can_access. by rewrite (co_hw _ _ _ _ Hs). Qed.

Lemma user_byte_safe v :
  0 <= v < USER_ADDRESS_LIMIT -> can_access s0 false v -> safe I (user_byte v) is_u8.
Proof.
  intros Hv Hc s Hs. apply (confined_access s false v Hs Hv) in Hc.
  destruct (confined_ram s Hs v Hv Hc) as [c Hb].
  exists (Val c), s. split_and!; [by apply user_byte_ok | done |].
  unfold ubyte in Hb. destruct (hw_access _ _ _ _); [|done]. cbn [mbind option_bind] in Hb.
  destruct (mem s !! _); [|done]. cbn [mbind option_bind] in Hb. destruct (rd _ _); [|done]. injection Hb as <-.
  unfold get_byte. change 255 with (Z.ones 8). rewrite Z.land_ones by lia. by apply Z.mod_pos_bound.
Qed.

Lemma user_bytes_safe n : forall v,
  range_ok false v (Z.of_nat n) -> safe I (user_bytes n v) (fun bs => is_bytes bs /\ length bs = n).
Proof.
  induction n as [|n IH]; intros v (Hl & Hv & Hacc); cbn [user_bytes]; [apply safe_ret; split; [constructor | done]|].
  apply (safe_bind _ _ _ is_u8); [apply user_byte_safe; [lia | apply Hacc; lia]|]. intros b Hb.
  apply (safe_bind _ _ _ (fun bs => is_bytes bs /\ length bs = n)); [apply IH; split_and!; [lia | lia | intros; apply Hacc; lia]|].
  intros bs [Hbs Hn]. apply safe_ret. cbn. split; [by apply is_bytes_cons | lia].
Qed.

Lemma user_range_safe a n w :
  is_u64 a -> is_u64 n -> safe I (user_range_accessible a n w) (fun b => b = true -> n <> 0 -> range_ok w a n).
Proof.
  intros Ha Hn s Hs. destruct (decide (n = 0)) as [->|Hn0].
  { unfold user_range_accessible. rewrite Z.eqb_refl. eexists (Val _), s. by split_and!. }
  destruct (range_accessible_ok s l paths a n w (co_as _ _ _ _ Hs) (co_phys _ _ _ _ Hs) Ha Hn) as (b & E & Hb);
    [unfold is_u64 in *; lia|].
  exists (Val b), s. split_and!; try done. intros -> _. destruct (proj1 Hb eq_refl) as (_ & Hle & Hacc).
  unfold is_u64 in *. split_and!; [done | lia |]. intros v Hv. apply (confined_access s w v Hs); [lia | by apply Hacc].
Qed.

(** A C string with its terminator. *)
Definition terminated (bs : bytes) : Prop := is_bytes bs /\ 0 ∈ bs.

Lemma string_bytes s v bs : I s -> user_cstr s v bs -> terminated bs.
Proof.
  intros Hs. revert v. induction bs as [|c bs IH]; intros v; cbn [user_cstr]; [done|].
  intros (Hv & Hc & Hr). assert (is_u8 c) as Hu.
  { unfold ubyte in Hc. destruct (hw_access _ _ _ _); [|done]. cbn [mbind option_bind] in Hc.
    destruct (mem s !! _); [|done]. cbn [mbind option_bind] in Hc. destruct (rd _ _); [|done]. injection Hc as <-.
    unfold get_byte. change 255 with (Z.ones 8). rewrite Z.land_ones by lia. by apply Z.mod_pos_bound. }
  destruct (Z.eqb_spec c 0) as [->|].
  - subst. split; [apply is_bytes_cons; split; [done | constructor] | by apply list_elem_of_here].
  - destruct (IH _ Hr) as [Hb Hin]. split; [by apply is_bytes_cons | by apply list_elem_of_further].
Qed.

Lemma string_loop_safe k a :
  is_u64 a -> a <> 0 ->
  safe I (string_loop k 0 a)
    (fun r => match r with Some bs => terminated bs /\ (length bs <= k)%nat | None => True end).
Proof.
  intros Ha H0 s Hs. unfold is_u64 in Ha.
  destruct (string_loop_ok s l paths (co_as _ _ _ _ Hs) (co_phys _ _ _ _ Hs) (confined_ram s Hs) k 0 a)
    as (r & E & Hr); [lia | done |].
  exists (Val r), s. split_and!; try done. destruct r as [bs|]; [|done].
  destruct Hr as [Hc Hl]. split; [by eapply string_bytes | done].
Qed.

Lemma copy_user_string_safe a capacity :
  is_u64 a -> 0 <= capacity ->
  safe I (copy_user_string a capacity)
    (fun r => match r with Some bs => terminated bs /\ zlen bs <= capacity | None => True end).
Proof.
  intros Ha Hc. unfold copy_user_string. destruct (Z.eqb_spec capacity 0); [by apply safe_ret|].
  destruct (Z.eqb_spec a 0); [by apply safe_ret|]. cbn [orb].
  eapply safe_conseq; [by apply string_loop_safe|]. intros [bs|]; [|done]. intros [? ?]. split; [done | zs].
Qed.

Lemma user_string_length_safe a capacity :
  is_u64 a -> 0 <= capacity ->
  safe I (user_string_length a capacity) (fun r => match r with Some n => 0 <= n < capacity | None => True end).
Proof.
  intros Ha Hc. unfold user_string_length. destruct (Z.eqb_spec a 0); [by apply safe_ret|].
  eapply safe_bind; [by apply string_loop_safe|]. intros [bs|] Hbs; apply safe_ret; cbn; [|done].
  destruct Hbs as [[_ Hin] Hl]. destruct bs; [by apply not_elem_of_nil in Hin | zs].
Qed.

End Confined.
