(* ===== verification/UserDemo.v ===== *)
(** * User memory on a concrete machine

    The machine of [PageTable] with one user page that holds a string. *)

From S2P Require Import Prelude CMonad Mmu Pmm PageTable Elf UserMem UserMemProofs UserMap Isolation.

(** ** Deciding the side conditions *)

Definition phys_bounded (s : mmu) : Prop := map_Forall (fun p _ => p < 2 ^ 52) (mem s).

Lemma phys_bounded_ok s : phys_bounded s -> phys_ok s.
Proof. intros H p [pg Hp]. exact (H p pg Hp). Qed.

(** An entry a user may read through is no large page and leads to memory. *)
Definition entry_closed (s : mmu) (e : word) : Prop :=
  allowed e true false = false \/ (Z.land e PAGE_LARGE = 0 /\ is_Some (mem s !! Z.land e PAGE_ADDRESS_MASK)).

#[global] Instance entry_closed_dec s e : Decision (entry_closed s e).
Proof. unfold entry_closed. apply _. Defined.

Definition ram_closed (s : mmu) : Prop :=
  map_Forall (fun _ pg => length pg = 512%nat /\ Forall (entry_closed s) pg) (mem s).

Lemma page_byte p o : aligned p -> p < 2 ^ 52 -> 0 <= o < 4096 ->
  page_of (Z.ldiff (p + o) 7) = p /\ 0 <= word_of (Z.ldiff (p + o) 7) < 512.
Proof.
  intros [Hp Hm] Hlt Ho. change 7 with (Z.ones 3). rewrite Z.ldiff_ones_r by lia.
  rewrite Z.shiftl_mul_pow2, Z.shiftr_div_pow2 by lia. change (2 ^ 3) with 8.
  set (q := (p + o) / 8 * 8). assert (0 <= q < 2 ^ 52 /\ q / 4096 * 4096 = p) as [Hq Hqp]
    by (unfold q; Z.to_euclidean_division_equations; lia).
  rewrite page_of_div by lia. split; [done|]. unfold word_of. rewrite low_bits by lia.
  Z.to_euclidean_division_equations; lia.
Qed.

Lemma walk_closed s indices : forall level t v a,
  ram_closed s -> hw_walk (mem s) level indices t true false v = Some a ->
  exists p, is_Some (mem s !! p) /\ aligned p /\ a = p + v mod 4096.
Proof.
  induction indices as [|i rest IH]; intros level t v a Hc; cbn [hw_walk]; [done|].
  destruct (mem s !! t) as [pg|] eqn:Ep; [|done]. cbn [mbind option_bind].
  destruct (rd pg i) as [e|] eqn:Er; [|done]. cbn [mbind option_bind].
  destruct (allowed e true false) eqn:Ea; [|done]. cbn [negb].
  destruct (Hc _ _ Ep) as [_ Hf]. rewrite Forall_forall in Hf.
  destruct (Hf e) as [?|[Hl Hin]]; [|congruence|].
  { unfold rd in Er. destruct (i <? 0); [done|]. by eapply list_elem_of_lookup_2. }
  replace (is_large level e) with false by (unfold is_large; rewrite Hl; by rewrite andb_false_r).
  destruct rest as [|j rest]; [|by apply IH]. intros [= <-]. eexists. split_and!; [exact Hin | apply address_aligned | done].
Qed.

Lemma ram_closed_ok s : phys_ok s -> ram_closed s -> user_ram s.
Proof.
  intros Hphys Hc v Hv [a Ha]. destruct (walk_closed s _ _ _ _ _ Hc Ha) as (p & [pg Hp] & Hal & ->).
  unfold ubyte. rewrite Ha. cbn [mbind option_bind].
  destruct (page_byte p (v mod 4096) Hal) as [-> Hw]; [by apply Hphys; rewrite Hp | Z.to_euclidean_division_equations; lia |].
  rewrite Hp. cbn [mbind option_bind]. destruct (rd_is_Some pg (word_of (Z.ldiff (p + v mod 4096) 7))) as [w ->]; [|done].
  unfold zlen. rewrite (proj1 (Hc _ _ Hp)). lia.
Qed.

(** ** A page with a string *)

(** [0x9000] is mapped at [0x400000]; its first word is the string [hello]. *)
Definition hello : mmu :=
  match map_user_page 0x400000 0x9000 demo with
  | Some (Val tt, s) => with_mem (<[0x9000 := 0x6F6C6C6568 :: replicate 511 0]> (mem s)) s
  | _ => demo
  end.

Lemma hello_tables : exists l paths, as_ok hello l paths /\ (0x9000 ∉ l) /\ paths !! 0x9000 = None.
Proof.
  destruct (map_user_page_ok demo demo_pages demo_paths 0x400000 0x9000 demo_as) as (s1 & l1 & p1 & E & Hok & _ & _ & Hs & Hf);
    [by apply user_page_half | cbn; lia | lia | done | done |].
  exists l1, p1. unfold hello. rewrite E.
  assert (p1 !! 0x9000 = None) as Hp by (eapply fo_none; [exact Hf | apply (bool_decide_unpack _); vm_compute; exact I | done]).
  assert (0x9000 ∉ l1) as Hl.
  { destruct (fo_list _ _ _ _ _ _ _ Hf) as (u & Hu & _). intros Hin.
    assert (0x9000 ∉ demo_pages) as Hn by (apply (bool_decide_unpack _); vm_compute; exact I).
    apply Hn. rewrite Hu. apply elem_of_app. by right. }
  destruct (as_ok_untouched s1 (with_mem (<[0x9000 := 0x6F6C6C6568 :: replicate 511 0]> (mem s1)) s1) l1 l1 p1 Hok)
    as [Hok' _]; [| done | | split; [exact Hok' | split; [exact Hl | exact Hp]]].
  - apply pmm_ok_store; [apply Hok | done | done].
  - intros t path Ht. split; [|apply (as_table _ _ _ Hok t path Ht)]. apply lookup_insert_ne. congruence.
Qed.

Lemma hello_as : exists l paths, as_ok hello l paths.
Proof. destruct hello_tables as (l & paths & Hok & _). by exists l, paths. Qed.

Lemma hello_phys : phys_ok hello.
Proof. apply phys_bounded_ok. apply (bool_decide_unpack _). vm_compute. exact I. Qed.

Lemma hello_ram : user_ram hello.
Proof. apply ram_closed_ok; [exact hello_phys|]. apply (bool_decide_unpack _). vm_compute. exact I. Qed.

(** ** The frames of user pages *)

(** The frames below a table with [k] levels left; [-1] for a large page. *)
Fixpoint user_leaves (m : gmap Z page) (k : nat) (t : Z) : list Z :=
  match k, m !! t with
  | S k', Some pg =>
      flat_map (fun e =>
        if negb (allowed e true false) then []
        else if negb (Z.land e PAGE_LARGE =? 0) then [-1]
        else match k' with
             | O => [Z.land e PAGE_ADDRESS_MASK]
             | _ => user_leaves m k' (Z.land e PAGE_ADDRESS_MASK)
             end) pg
  | _, _ => []
  end.

Lemma allowed_read e w : allowed e true w = true -> allowed e true false = true.
Proof. unfold allowed. intros [[-> ->]%andb_true_iff _]%andb_true_iff. done. Qed.

Lemma elem_flat_map {A B} (f : A -> list B) l x y : x ∈ l -> y ∈ f x -> y ∈ flat_map f l.
Proof. rewrite !list_elem_of_In, in_flat_map. by exists x. Qed.

Lemma walk_leaves m indices : forall level t w v a,
  -1 ∉ user_leaves m (length indices) t -> hw_walk m level indices t true w v = Some a ->
  exists p, p ∈ user_leaves m (length indices) t /\ aligned p /\ a = p + v mod 4096.
Proof.
  induction indices as [|i rest IH]; intros level t w v a Hc; cbn [hw_walk]; [done|].
  cbn [length user_leaves] in *. destruct (m !! t) as [pg|] eqn:Ep; [|done]. cbn [mbind option_bind].
  destruct (rd pg i) as [e|] eqn:Er; [|done]. cbn [mbind option_bind].
  destruct (allowed e true w) eqn:Ea; [|done]. cbn [negb]. apply allowed_read in Ea.
  assert (e ∈ pg) as Hin by (unfold rd in Er; destruct (i <? 0); [done | by eapply list_elem_of_lookup_2]).
  match goal with |- context [flat_map ?g pg] => pose proof (fun y => elem_flat_map g pg e y Hin) as Hsub end.
  cbv beta in Hsub. rewrite Ea in Hsub. cbn [negb] in Hsub.
  destruct (Z.eqb_spec (Z.land e PAGE_LARGE) 0) as [E0|]; cbn [negb] in Hsub; [|by destruct Hc; apply Hsub; left].
  replace (is_large level e) with false by (unfold is_large; rewrite E0; by rewrite andb_false_r).
  destruct rest as [|j rest].
  - intros [= <-]. eexists. split_and!; [apply Hsub, list_elem_of_here | apply address_aligned | done].
  - intros Hw. apply IH in Hw as (p & Hp & Hal & ->).
    + exists p. split_and!; [by apply Hsub | done | done].
    + intros H1. by apply Hc, Hsub.
Qed.

Lemma hello_leaves : user_leaves (mem hello) 4 (current_pml4 hello) = [0x9000].
Proof. vm_compute. reflexivity. Qed.

Lemma hello_frames : exists l paths, as_ok hello l paths /\ user_frames hello l paths.
Proof.
  destruct hello_tables as (l & paths & Hok & Hl & Hp). exists l, paths. split; [done|].
  intros v w a Hv Ha. unfold hw_access in Ha.
  destruct (walk_leaves (mem hello) (all_indices v) 0 (current_pml4 hello) w v a) as (p & Hin & Hal & ->); [|done|].
  - change (length (all_indices v)) with 4%nat. rewrite hello_leaves. apply (bool_decide_unpack _). vm_compute. exact I.
  - change (length (all_indices v)) with 4%nat in Hin. rewrite hello_leaves in Hin. apply list_elem_of_singleton in Hin as ->.
    assert (0 <= v mod 4096 < 4096) as Ho by (Z.to_euclidean_division_equations; lia).
    destruct (page_byte 0x9000 (v mod 4096) Hal) as [Epg Hw]; [lia | done |].
    assert (is_u64 (0x9000 + v mod 4096)) as Hu by (unfold is_u64; lia).
    assert (page_of (0x9000 + v mod 4096) = 0x9000) as E by by rewrite <- page_of_slot, Epg.
    rewrite E. split; [exact Hu|]. split; [|split; [exact Hl | exact Hp]]. unfold phys_byte. rewrite Epg.
    assert (mem hello !! 0x9000 = Some (0x6F6C6C6568 :: replicate 511 0)) as -> by (vm_compute; reflexivity).
    cbn [mbind option_bind]. destruct (rd_is_Some (0x6F6C6C6568 :: replicate 511 0) (word_of (Z.ldiff (0x9000 + v mod 4096) 7))) as [x ->];
      [|done]. unfold zlen. cbn [length]. rewrite length_replicate. lia.
Qed.

Lemma user_range_accessible_exact_witness :
  (exists b, user_range_accessible 0x400010 0xFF0 true hello = Some (Val b, hello)) /\
  user_range_accessible 0x400010 0xFF0 true hello = Some (Val true, hello) /\
  user_range_accessible 0x400010 0xFF1 true hello = Some (Val false, hello).
Proof.
  destruct hello_as as (l & paths & Hok). split; [|split; vm_compute; reflexivity].
  destruct (user_range_accessible_exact hello l paths 0x400010 0xFF0 true Hok hello_phys) as (b & E & _);
    [unfold is_u64; lia | unfold is_u64; lia | lia |]. by exists b.
Defined.

Lemma copy_user_string_exact_witness :
  exists r, copy_user_string 0x400000 256 hello = Some (Val r, hello) /\ r = Some (lit "hello" ++ [0]).
Proof.
  destruct hello_as as (l & paths & Hok).
  destruct (copy_user_string_exact hello l paths Hok hello_phys hello_ram 0x400000 256) as (r & E & Hr);
    [unfold is_u64; lia | lia |].
  exists r. split; [done|]. apply Hr. split; [done|]. split; [vm_compute; repeat split | vm_compute; discriminate].
Defined.

