(* ===== verification/LinuxFd.v ===== *)
(** * The Linux process state (helper/core/syscall/linux_syscall.c, headers/boot/syscall_internal.h)

    File descriptors, the program break and the mmap cursor: one set of static
    variables, saved to and restored from the context of each task. *)

From S2P Require Import Prelude.

Definition LINUX_FD_LIMIT : nat := 32.
Definition USER_PAGE_SIZE : Z := 4096.
Definition USER_HEAP_BASE : Z := 0x0000600000000000.
Definition USER_MMAP_BASE : Z := 0x0000700000000000.
Definition USER_MMAP_LIMIT : Z := 0x00007F0000000000.

(** The path is the string in the buffer, with its terminator; what follows the
    terminator is never read. *)
Record linux_task_fd_t := Fd {
  fd_open : bool; fd_readable : bool; fd_writable : bool; fd_append : bool; fd_is_dir : bool;
  fd_is_terminal : bool; fd_offset : Z; fd_path : bytes }.

Definition zero_fd : linux_task_fd_t := Fd false false false false false false 0 [0].

Record linux_task_context_t := LinuxContext {
  file_descriptors : list linux_task_fd_t; program_break : Z; mmap_cursor : Z; heap_start : Z }.

Definition zero_linux : linux_task_context_t := LinuxContext (replicate LINUX_FD_LIMIT zero_fd) 0 0 0.

(** The static variables have the fields of a context. *)
Definition linux_reset_process_state : linux_task_context_t :=
  let fds := replicate LINUX_FD_LIMIT zero_fd in
  let fds := <[0%nat := Fd true true false false false true 0 [0]]> fds in
  let fds := <[1%nat := Fd true false true false false true 0 [0]]> fds in
  let fds := <[2%nat := Fd true false true false false true 0 [0]]> fds in
  LinuxContext fds USER_HEAP_BASE USER_MMAP_BASE USER_HEAP_BASE.

(** The context that is stored, for the current statics. *)
Definition linux_syscall_context_save (statics : linux_task_context_t) : linux_task_context_t := statics.

(** The new statics; [None] is a NULL pointer. *)
Definition linux_syscall_context_restore (context : option linux_task_context_t) : linux_task_context_t :=
  match context with
  | None => linux_reset_process_state
  | Some context => context
  end.

(** The context of a fresh process, and the statics, which are restored. *)
Definition linux_syscall_context_init (statics : linux_task_context_t)
  : linux_task_context_t * linux_task_context_t :=
  let scratch := linux_syscall_context_save statics in
  let statics := linux_reset_process_state in
  let context := linux_syscall_context_save statics in
  (context, linux_syscall_context_restore (Some scratch)).

Definition align_up_page (value : Z) : Z := Z.ldiff (u64 (value + USER_PAGE_SIZE - 1)) (USER_PAGE_SIZE - 1).

Definition linux_syscall_set_heap_base (address : Z) (statics : linux_task_context_t) : linux_task_context_t :=
  if (heap_start statics <? address) && (address <? USER_MMAP_BASE - USER_PAGE_SIZE) then
    let h := align_up_page address in
    LinuxContext (file_descriptors statics) h (mmap_cursor statics) h
  else statics.
