(* ===== verification/LinuxCalls.v ===== *)
(** * Linux system calls (helper/core/syscall/linux_syscall.c)

    [linux_syscall_handler] and everything it calls.  State: the process statics
    ([LinuxFd]), the static buffer [linux_file_image], the memory manager, the
    file system and the rest of the kernel.  The file system is reached through
    [LinuxStore]; terminal, clock and scheduler through [Kernel].  User memory is
    read and written through the active page tables ([UserMem]). *)

From S2P Require Import Prelude CMonad FileStore Mmu Elf UserMem LinuxFd.

Definition LINUX_FILE_IO_LIMIT : Z := 65536.

Definition LINUX_O_WRONLY : Z := 0x0001.
Definition LINUX_O_RDWR : Z := 0x0002.
Definition LINUX_O_CREAT : Z := 0x0040.
Definition LINUX_O_TRUNC : Z := 0x0200.
Definition LINUX_O_APPEND : Z := 0x0400.
Definition LINUX_AT_FDCWD : Z := u64 (-100).
Definition LINUX_AT_SYMLINK_NOFOLLOW : Z := 0x0100.
Definition LINUX_AT_EMPTY_PATH : Z := 0x1000.
Definition LINUX_PROT_WRITE : Z := 0x2.
Definition LINUX_PROT_EXEC : Z := 0x4.
Definition LINUX_MAP_SHARED : Z := 0x01.
Definition LINUX_MAP_PRIVATE : Z := 0x02.
Definition LINUX_MAP_FIXED : Z := 0x10.
Definition LINUX_MAP_ANON : Z := 0x20.

Definition LINUX_ENOENT : Z := 2.
Definition LINUX_EIO : Z := 5.
Definition LINUX_EBADF : Z := 9.
Definition LINUX_ENOMEM : Z := 12.
Definition LINUX_EACCES : Z := 13.
Definition LINUX_EFAULT : Z := 14.
Definition LINUX_EISDIR : Z := 21.
Definition LINUX_EINVAL : Z := 22.
Definition LINUX_EMFILE : Z := 24.
Definition LINUX_EFBIG : Z := 27.
Definition LINUX_ESPIPE : Z := 29.
Definition LINUX_ENOSYS : Z := 38.
Definition LINUX_EOVERFLOW : Z := 75.

Definition INT64_MAX : Z := 9223372036854775807.
Definition INT64_MIN : Z := -9223372036854775808.

Definition linux_error (error : Z) : Z := u64 (- error).

Class LinuxStore (F : Type) `{ExecStore F} := {
  fs_write_bytes : F -> bytes -> bytes -> option (Z * F);
  fs_dirname : F -> option (option bytes * F);
}.

(** [dogeio_input] yields the contents of the buffer it was given. *)
Class Kernel (K : Type) := {
  dogeio_input : K -> Z -> bytes * K;
  dogeio_printchar : K -> Z -> K;
  time_get_epoch_seconds : K -> Z * K;
  scheduler_current_pid : K -> Z;
  kernel_program_launcher_rsp : K -> Z;
}.

Record linux (F K : Type) := Linux {
  x_proc : linux_task_context_t;
  x_image : bytes;
  x_mm : mmu;
  x_fs : F;
  x_kernel : K;
}.
Arguments Linux {F K}.
Arguments x_proc {F K}.
Arguments x_image {F K}.
Arguments x_mm {F K}.
Arguments x_fs {F K}.
Arguments x_kernel {F K}.

(** What the handler does: return a value in [rax], or not return. *)
Inductive linux_result := Rax (v : Z) | ExitTask (status : Z) | ExitLauncher (status : Z).

Section Calls.
Context {F K : Type} `{LinuxStore F} `{Kernel K}.

Abbreviation X := (M (linux F K)).

(** ** Access to the parts of the state *)

Definition on_mm {A} (m : Mm A) : X A :=
  zoom x_mm (fun mm s => Linux (x_proc s) (x_image s) mm (x_fs s) (x_kernel s)) m.

Definition on_fs {A} (f : F -> option (A * F)) : X A := fun s =>
  '(a, fs) ← f (x_fs s);
  Some (Val a, Linux (x_proc s) (x_image s) (x_mm s) fs (x_kernel s)).

Definition on_kernel {A} (f : K -> A * K) : X A := fun s =>
  let '(a, k) := f (x_kernel s) in Some (Val a, Linux (x_proc s) (x_image s) (x_mm s) (x_fs s) k).

Definition get_proc : X linux_task_context_t := gets x_proc.
Definition set_proc (p : linux_task_context_t) : X unit :=
  modify (fun s => Linux p (x_image s) (x_mm s) (x_fs s) (x_kernel s)).
Definition set_image (b : bytes) : X unit :=
  modify (fun s => Linux (x_proc s) b (x_mm s) (x_fs s) (x_kernel s)).

(** [file_descriptors[i] = fd], [i] below the limit. *)
Definition put_fd (i : nat) (fd : linux_task_fd_t) : X unit :=
  p ← get_proc;
  set_proc (LinuxContext (<[i := fd]> (file_descriptors p)) (program_break p) (mmap_cursor p) (heap_start p)).
Definition set_break (b : Z) : X unit :=
  p ← get_proc; set_proc (LinuxContext (file_descriptors p) b (mmap_cursor p) (heap_start p)).
Definition set_cursor (c : Z) : X unit :=
  p ← get_proc; set_proc (LinuxContext (file_descriptors p) (program_break p) c (heap_start p)).

Definition with_offset (o : Z) (fd : linux_task_fd_t) : linux_task_fd_t :=
  Fd (fd_open fd) (fd_readable fd) (fd_writable fd) (fd_append fd) (fd_is_dir fd) (fd_is_terminal fd) o (fd_path fd).

(** [return linux_error(e)] *)
Definition fail {A} (e : Z) : X A := exit (linux_error e).

Definition accessible (address length : Z) (write : bool) : X bool :=
  on_mm (user_range_accessible address length write).

(** ** File descriptors *)

(** The index of an open descriptor; [None] is NULL. *)
Definition get_file_descriptor (fd : Z) : X (option nat) :=
  p ← get_proc;
  mret (if Z.of_nat LINUX_FD_LIMIT <=? fd then None
        else match file_descriptors p !! Z.to_nat fd with
             | Some d => if fd_open d then Some (Z.to_nat fd) else None
             | None => None
             end).

Definition the_fd (i : nat) : X linux_task_fd_t :=
  p ← get_proc; lift (file_descriptors p !! i).

Definition get_file_info (path : bytes) : X (option (Z * bool)) := on_fs (fun f => fs_get_info f path).

(** The struct as it is laid out in memory. *)
Definition stat_bytes (ino nlink mode size blksize blocks : Z) : bytes :=
  le_bytes 8 0 ++ le_bytes 8 ino ++ le_bytes 8 nlink ++ le_bytes 4 mode ++ zeros 12 ++ zeros 8 ++
  le_bytes 8 size ++ le_bytes 8 blksize ++ le_bytes 8 blocks ++ zeros 48 ++ zeros 24.

Definition STAT_SIZE : Z := 144.

Definition fill_linux_stat (user_stat size : Z) (is_dir : bool) : X unit :=
  on_mm (set_user_bytes user_stat
    (stat_bytes size 1 (if is_dir then 0x41ED else 0x81A4) (u64 size) 4096 (u64 (size + 511) / 512))).

Definition linux_stat_fd (fd : option nat) (user_stat : Z) : X Z := fn (
  match fd with
  | None => fail LINUX_EBADF
  | Some i =>
      ok ← (if user_stat =? 0 then mret false else accessible user_stat STAT_SIZE true);
      if negb (ok : bool) then fail LINUX_EFAULT else
      d ← the_fd i;
      if fd_is_terminal d then
        on_mm (set_user_bytes user_stat (stat_bytes 0 1 0x21B6 0 0 0));;
        mret 0
      else
        info ← get_file_info (fd_path d);
        match info with
        | None => fail LINUX_ENOENT
        | Some (file_size, is_dir) => fill_linux_stat user_stat file_size is_dir;; mret 0
        end
  end).

Definition linux_stat_path (user_path user_stat : Z) : X Z := fn (
  path ← on_mm (copy_user_string user_path USER_PATH_LIMIT);
  match path with
  | None => fail LINUX_EFAULT
  | Some path =>
      ok ← (if user_stat =? 0 then mret false else accessible user_stat STAT_SIZE true);
      if negb (ok : bool) then fail LINUX_EFAULT else
      info ← get_file_info path;
      match info with
      | None => fail LINUX_ENOENT
      | Some (file_size, is_dir) => fill_linux_stat user_stat file_size is_dir;; mret 0
      end
  end).

(** The first descriptor from [i] on that is not open. *)
Fixpoint free_fd (fds : list linux_task_fd_t) (i : nat) : option nat :=
  match fds with
  | [] => None
  | d :: fds' => if fd_open d then free_fd fds' (S i) else Some i
  end.

(** The characters before the terminator, at most [k] of them. *)
Fixpoint chars (k : nat) (s : bytes) : bytes :=
  match k, s with
  | S k', c :: s' => if c =? 0 then [] else c :: chars k' s'
  | _, _ => []
  end.

Definition flag (flags f : Z) : bool := negb (Z.land flags f =? 0).

(** The part of [linux_open_file] that looks the file up, creates or truncates
    it: the size and kind of what is opened. *)
Definition open_lookup (path : bytes) (flags : Z) (writable : bool) : X (Z * bool) :=
  info ← get_file_info path;
  match info with
  | None =>
      if negb (flag flags LINUX_O_CREAT) then fail LINUX_ENOENT else
      rc ← on_fs (fun f => fs_create f path);
      if negb (rc =? 0) then fail LINUX_EACCES else mret (0, false)
  | Some (file_size, is_dir) =>
      if flag flags LINUX_O_TRUNC then
        let refuse : X (Z * bool) := fail (if (is_dir : bool) then LINUX_EISDIR else LINUX_EACCES) in
        if negb writable || is_dir then refuse
        else
          rc ← on_fs (fun f => fs_write_bytes f path []);
          if negb (rc =? 0) then refuse else mret (0, is_dir)
      else mret (file_size, is_dir)
  end.

Definition linux_open_file (path : bytes) (flags : Z) : X Z := fn (
  let writable := flag flags (Z.lor LINUX_O_WRONLY LINUX_O_RDWR) in
  let readable := negb (flag flags LINUX_O_WRONLY) in
  r ← open_lookup path flags writable;
  let '(file_size, is_dir) := r : Z * bool in
  if is_dir && writable then fail LINUX_EISDIR else
  if is_dir && flag flags LINUX_O_TRUNC then fail LINUX_EISDIR else
  p ← get_proc;
  match free_fd (file_descriptors p) 0 with
  | None => fail LINUX_EMFILE
  | Some fd =>
      old ← the_fd fd;
      let append := flag flags LINUX_O_APPEND in
      put_fd fd (Fd true readable writable append is_dir (fd_is_terminal old)
                    (if append then file_size else 0) (chars 255 path ++ [0]));;
      mret (Z.of_nat fd)
  end).

(** [for (i = 0; i < count; i++) dogeio_printchar(...)] *)
Fixpoint print_loop (k : nat) (address : Z) : X unit :=
  match k with
  | O => mret tt
  | S k' =>
      c ← on_mm (user_byte address);
      on_kernel (fun kn => (tt, dogeio_printchar kn c));;
      print_loop k' (address + 1)
  end.

Definition linux_read_fd (i : nat) (buffer count : Z) (positional : bool) (offset : Z) : X Z := fn (
  d ← the_fd i;
  if negb (fd_readable d) then fail LINUX_EBADF else
  let count := if USER_IO_LIMIT <? count then USER_IO_LIMIT else count in
  if count =? 0 then mret 0 else
  ok ← accessible buffer count true;
  if negb (ok : bool) then fail LINUX_EFAULT else
  if fd_is_dir d then fail LINUX_EISDIR else
  if fd_is_terminal d && (i =? 0)%nat then
    let count := if 256 <? count then 256 else count in
    input ← on_kernel (fun kn => dogeio_input kn (count + 1));
    let text := chars (Z.to_nat (count + 1)) input in
    let read_count := if count <? zlen text then count else zlen text in
    on_mm (set_user_bytes buffer (take (Z.to_nat read_count) text));;
    mret read_count
  else
    '(bytes_read, data) ← on_fs (fun f =>
        '(rc, data, f) ← fs_read_raw_at f (fd_path d) (if positional then offset else fd_offset d) count;
        Some ((rc, data), f));
    on_mm (set_user_bytes buffer data);;
    if bytes_read <? 0 then fail LINUX_EIO else
    (if positional then mret tt else put_fd i (with_offset (u64 (fd_offset d + bytes_read)) d));;
    mret bytes_read).

(** [linux_file_image] holds the file of [file_size] bytes: the new contents
    after [data] is written at [offset]. *)
Definition splice_image (file_size offset : Z) (data : bytes) : X bytes :=
  image ← gets x_image;
  image ← lift (if file_size <? offset then blit image file_size (zeros (Z.to_nat (offset - file_size))) else Some image);
  image ← lift (blit image offset data);
  set_image image;;
  let new_size := if file_size <? offset + zlen data then offset + zlen data else file_size in
  lift (slice image 0 new_size).

Definition linux_write_fd (i : nat) (buffer count : Z) : X Z := fn (
  d ← the_fd i;
  if negb (fd_writable d) then fail LINUX_EBADF else
  let count := if USER_IO_LIMIT <? count then USER_IO_LIMIT else count in
  if count =? 0 then mret 0 else
  ok ← accessible buffer count false;
  if negb (ok : bool) then fail LINUX_EFAULT else
  if fd_is_terminal d && ((i =? 1)%nat || (i =? 2)%nat) then
    print_loop (Z.to_nat count) buffer;; mret count
  else if fd_is_dir d then fail LINUX_EISDIR
  else
    info ← get_file_info (fd_path d);
    match info with
    | None => fail LINUX_ENOENT
    | Some (file_size, is_dir) =>
        if (is_dir : bool) then fail LINUX_EISDIR else
        let d := if fd_append d then with_offset file_size d else d in
        put_fd i d;;
        let offset := fd_offset d in
        if (LINUX_FILE_IO_LIMIT <? offset) || (LINUX_FILE_IO_LIMIT - offset <? count) ||
           (LINUX_FILE_IO_LIMIT <? file_size)
        then fail LINUX_EFBIG
        else
          data ← on_mm (user_bytes (Z.to_nat count) buffer);
          (if negb (file_size =? 0) then
             '(bytes_read, old) ← on_fs (fun f =>
                 '(rc, old, f) ← fs_read_raw_at f (fd_path d) 0 file_size; Some ((rc, old), f));
             image ← gets x_image;
             image ← lift (blit image 0 old);
             set_image image;;
             if (bytes_read <? 0) || negb (bytes_read =? file_size) then fail LINUX_EIO else mret tt
           else mret tt);;
          contents ← splice_image file_size offset data;
          result ← on_fs (fun f => fs_write_bytes f (fd_path d) contents);
          if negb (result =? 0) then fail LINUX_EACCES else
          put_fd i (with_offset (u64 (offset + count)) d);;
          mret count
    end).

(** ** Memory *)

(** [for (page = a; page < e; page += USER_PAGE_SIZE)] *)
Definition over_pages (a e : Z) (body : Z -> X unit) : X unit :=
  for_loop (Z.to_nat ((e - a + USER_PAGE_SIZE - 1) / USER_PAGE_SIZE)) a USER_PAGE_SIZE body.

(** Is every page free?  [inr false] ends the scan at the first that is not. *)
Fixpoint range_free (k : nat) (page : Z) : X bool :=
  match k with
  | O => mret true
  | S k' =>
      m ← on_mm (user_page_mapped page);
      if (m : bool) then mret false else range_free k' (page + USER_PAGE_SIZE)
  end.

Definition search_round (map_length address : Z) : X (Z + Z) :=
  if (address <? USER_MMAP_LIMIT) && (map_length <=? USER_MMAP_LIMIT - address) then
    available ← range_free (Z.to_nat (map_length / USER_PAGE_SIZE)) address;
    mret (if (available : bool) then inr address else inl (u64 (address + map_length)))
  else mret (inr address).

(** The mmap area has fewer than 2^36 pages. *)
Definition SEARCH_ROUNDS : positive := 68719476736.

(** Where a mapping without [MAP_FIXED] goes. *)
Definition choose_address (requested_address map_length : Z) : X Z :=
  p ← get_proc;
  let address := align_up_page requested_address in
  let address :=
    if (address <? USER_MMAP_BASE) || (USER_MMAP_LIMIT <=? address) ||
       (USER_MMAP_LIMIT - address <? map_length)
    then align_up_page (mmap_cursor p) else address in
  address ← while_true SEARCH_ROUNDS (search_round map_length) address;
  if (USER_MMAP_LIMIT <=? address) || (USER_MMAP_LIMIT - address <? map_length)
  then fail LINUX_ENOMEM else mret address.

Definition rollback (address page : Z) : X unit :=
  over_pages address (page + 1) (fun r => on_mm (unmap_user_page r);; mret tt).

(** One page of the mapping. *)
Definition map_page (address protection flags : Z) (path : option bytes) (offset page : Z) : X unit :=
  physical ← on_mm pmm_alloc_zeroed_page;
  on_mm (map_user_page page physical);;
  (if negb (flag flags LINUX_MAP_ANON) && (offset <=? UINT64_MAX - (page - address)) then
     path ← lift path;
     '(read_count, data) ← on_fs (fun f =>
        '(rc, data, f) ← fs_read_raw_at f path (u64 (offset + (page - address))) USER_PAGE_SIZE;
        Some ((rc, data), f));
     on_mm (store_bytes physical data);;
     if read_count <? 0 then rollback address page;; fail LINUX_EINVAL else mret tt
   else mret tt);;
  ok ← on_mm (protect_user_page page (negb (protection =? 0)) (flag protection LINUX_PROT_WRITE)
                (flag protection LINUX_PROT_EXEC));
  if negb (ok : bool) then rollback address page;; fail LINUX_EINVAL else mret tt.

(** [fd] is the descriptor, open, or [None] for NULL. *)
Definition linux_map_memory (requested_address length protection flags : Z) (fd : option nat) (offset : Z)
  : X Z := fn (
  let private := Z.lor LINUX_MAP_PRIVATE LINUX_MAP_SHARED in
  if (length =? 0) || (16 * 1024 * 1024 <? length) || (USER_ADDRESS_LIMIT - USER_PAGE_SIZE <? length) ||
     (Z.land flags private =? 0) || (Z.land flags private =? private)
  then fail LINUX_EINVAL else
  d ← (match fd with
       | None => mret None
       | Some i => d ← the_fd i; mret (Some d)
       end);
  if negb (flag flags LINUX_MAP_ANON) &&
     match d with
     | None => true
     | Some d => negb (fd_open d) || negb (fd_readable d) || fd_is_terminal d ||
                 negb (Z.land offset (USER_PAGE_SIZE - 1) =? 0)
     end
  then fail LINUX_EBADF else
  if flag flags LINUX_MAP_SHARED && negb (flag flags LINUX_MAP_ANON) then fail LINUX_ENOSYS else
  if negb (Z.ldiff protection 7 =? 0) then fail LINUX_EINVAL else
  let map_length := align_up_page length in
  if map_length <? length then fail LINUX_ENOMEM else
  if negb (flag flags LINUX_MAP_ANON) && (UINT64_MAX - map_length <? offset) then fail LINUX_EOVERFLOW else
  let fixed := flag flags LINUX_MAP_FIXED in
  address ←
    (if fixed then
       if negb (Z.land requested_address (USER_PAGE_SIZE - 1) =? 0) ||
          (requested_address <? USER_PAGE_SIZE) || (USER_MMAP_LIMIT <=? requested_address) ||
          (USER_MMAP_LIMIT - requested_address <? map_length)
       then fail LINUX_EINVAL else mret requested_address
     else choose_address requested_address map_length);
  over_pages address (address + map_length) (fun page =>
    (if fixed then mret tt
     else m ← on_mm (user_page_mapped page); if (m : bool) then fail LINUX_EINVAL else mret tt);;
    if fixed then on_mm (unmap_user_page page);; mret tt else mret tt);;
  over_pages address (address + map_length) (map_page address protection flags (fd_path <$> d) offset);;
  (if fixed then mret tt else set_cursor (u64 (address + map_length)));;
  mret address).

Definition linux_mprotect (address length protection : Z) : X Z := fn (
  if (length =? 0) || (USER_ADDRESS_LIMIT <=? address) || negb (Z.ldiff protection 7 =? 0) ||
     negb (Z.land address (USER_PAGE_SIZE - 1) =? 0) || (USER_ADDRESS_LIMIT - address <? length)
  then fail LINUX_EINVAL else
  let protect page present :=
    on_mm (protect_user_page page present (flag protection LINUX_PROT_WRITE) (flag protection LINUX_PROT_EXEC)) in
  over_pages address (align_up_page (u64 (address + length))) (fun page =>
    m ← on_mm (user_page_mapped page);
    if negb (m : bool) then fail LINUX_ENOMEM else
    acc ← on_mm (user_page_accessible page false);
    ok ← (if (acc : bool) then mret true else protect page true);
    if negb (ok : bool) then fail LINUX_ENOMEM else
    acc ← on_mm (user_page_accessible page false);
    ok ← (if (acc : bool) then protect page (negb (protection =? 0)) else mret true);
    if negb (ok : bool) then fail LINUX_ENOMEM else mret tt);;
  mret 0).

Definition linux_munmap (address length : Z) : X Z := fn (
  if (length =? 0) || negb (Z.land address (USER_PAGE_SIZE - 1) =? 0) ||
     (u64 (USER_ADDRESS_LIMIT - address) <? length)
  then fail LINUX_EINVAL else
  over_pages address (align_up_page (u64 (address + length))) (fun page =>
    on_mm (unmap_user_page page);; mret tt);;
  mret 0).

Definition linux_brk (address : Z) : X Z := fn (
  p ← get_proc;
  let current : X Z := p ← get_proc; mret (program_break p) in
  if address =? 0 then current else
  if (address <? heap_start p) || (USER_MMAP_BASE - USER_PAGE_SIZE <=? address) then current else
  let old_end := align_up_page (program_break p) in
  let new_end := align_up_page address in
  (if old_end <? new_end then
     over_pages old_end new_end (fun page =>
       m ← on_mm (user_page_mapped page);
       if (m : bool) then exit (program_break p) else mret tt);;
     over_pages old_end new_end (fun page =>
       physical ← on_mm pmm_alloc_zeroed_page;
       on_mm (map_user_page page physical))
   else if new_end <? old_end then
     over_pages new_end old_end (fun page => on_mm (unmap_user_page page);; mret tt)
   else mret tt);;
  set_break address;;
  current).

Definition linux_lseek (fd displacement whence : Z) : X Z := fn (
  i ← get_file_descriptor fd;
  match i with
  | None => fail LINUX_EBADF
  | Some i =>
      d ← the_fd i;
      if fd_is_terminal d then fail LINUX_ESPIPE else
      base ←
        (if whence =? 0 then mret 0
         else if whence =? 1 then
           if INT64_MAX <? fd_offset d then fail LINUX_EOVERFLOW else mret (fd_offset d)
         else if whence =? 2 then
           info ← get_file_info (fd_path d);
           match info with
           | Some (file_size, _) => if INT64_MAX <? file_size then fail LINUX_EINVAL else mret file_size
           | None => fail LINUX_EINVAL
           end
         else fail LINUX_EINVAL);
      let displacement := s64 displacement in
      if ((0 <? displacement) && (INT64_MAX - displacement <? base)) ||
         ((displacement <? 0) && (base <? INT64_MIN - displacement)) || (base + displacement <? 0)
      then fail LINUX_EINVAL
      else
        put_fd i (with_offset (base + displacement) d);;
        mret (base + displacement)
  end).

Definition linux_close (fd : Z) : X Z := fn (
  i ← get_file_descriptor fd;
  match i with
  | None => fail LINUX_EBADF
  | Some i => put_fd i zero_fd;; mret 0
  end).

Definition linux_access (user_path mode : Z) : X Z := fn (
  path ← on_mm (copy_user_string user_path USER_PATH_LIMIT);
  match path with
  | None => fail LINUX_EFAULT
  | Some path =>
      info ← get_file_info path;
      match info with
      | None => fail LINUX_ENOENT
      | Some _ => if mode <=? 7 then mret 0 else fail LINUX_EINVAL
      end
  end).

Definition linux_newfstatat (dirfd user_path user_stat flags : Z) : X Z := fn (
  if negb (Z.ldiff flags (Z.lor LINUX_AT_SYMLINK_NOFOLLOW LINUX_AT_EMPTY_PATH) =? 0)
  then fail LINUX_EINVAL else
  empty ←
    (if flag flags LINUX_AT_EMPTY_PATH && negb (user_path =? 0) then
       path ← on_mm (copy_user_string user_path USER_PATH_LIMIT);
       mret (match path with Some (0 :: _) => true | _ => false end)
     else mret false);
  if (empty : bool) then
    i ← get_file_descriptor dirfd; linux_stat_fd i user_stat
  else if negb (dirfd =? LINUX_AT_FDCWD) then fail LINUX_EBADF
  else linux_stat_path user_path user_stat).

(** The directory string has its terminator. *)
Definition linux_getcwd (buffer size : Z) : X Z := fn (
  cwd ← on_fs fs_dirname;
  match cwd with
  | None => fail LINUX_EINVAL
  | Some cwd =>
      if size =? 0 then fail LINUX_EINVAL else
      ok ← (if size <? zlen cwd then mret false else accessible buffer (zlen cwd) true);
      if negb (ok : bool) then fail LINUX_EFAULT else
      on_mm (set_user_bytes buffer cwd);;
      mret buffer
  end).

Definition uname_field (s : string) : bytes := lit s ++ zeros (65 - length (lit s)).
Definition uname_info : bytes :=
  uname_field "WindogeOS" ++ uname_field "windoge" ++ uname_field "0.1" ++ uname_field "WindogeOS" ++
  uname_field "x86_64" ++ uname_field "".

Definition linux_uname (buffer : Z) : X Z := fn (
  ok ← (if buffer =? 0 then mret false else accessible buffer (zlen uname_info) true);
  if negb (ok : bool) then fail LINUX_EFAULT else
  on_mm (set_user_bytes buffer uname_info);;
  mret 0).

Definition linux_gettimeofday (tv tz : Z) : X Z := fn (
  epoch ← on_kernel time_get_epoch_seconds;
  (if negb (tv =? 0) then
     ok ← accessible tv 16 true;
     if negb (ok : bool) then fail LINUX_EFAULT
     else on_mm (set_user_bytes tv (le_bytes 8 epoch ++ le_bytes 8 0))
   else mret tt);;
  (if negb (tz =? 0) then
     ok ← accessible tz 8 true;
     if negb (ok : bool) then fail LINUX_EFAULT else on_mm (set_user_bytes tz (zeros 8))
   else mret tt);;
  mret 0).

Definition linux_time (t : Z) : X Z := fn (
  epoch ← on_kernel time_get_epoch_seconds;
  (if negb (t =? 0) then
     ok ← accessible t 8 true;
     if negb (ok : bool) then fail LINUX_EFAULT else on_mm (set_user_bytes t (le_bytes 8 epoch))
   else mret tt);;
  mret epoch).

Definition linux_clock_gettime (clock ts : Z) : X Z := fn (
  if negb (clock =? 0) && negb (clock =? 1) then fail LINUX_EINVAL else
  ok ← (if ts =? 0 then mret false else accessible ts 16 true);
  if negb (ok : bool) then fail LINUX_EFAULT else
  epoch ← on_kernel time_get_epoch_seconds;
  on_mm (set_user_bytes ts (le_bytes 8 epoch ++ le_bytes 8 0));;
  mret 0).

Definition linux_open (user_path flags : Z) : X Z := fn (
  path ← on_mm (copy_user_string user_path USER_PATH_LIMIT);
  match path with
  | None => fail LINUX_EFAULT
  | Some path => linux_open_file path flags
  end).

(** ** The dispatcher *)

(** The registers the handlers read; the [syscall] instruction leaves the return
    address in [rcx]. *)
Record syscall_registers_t := Regs {
  rax : Z; rdi : Z; rsi : Z; rdx : Z; r10 : Z; r8 : Z; r9 : Z; rcx : Z }.

Definition on_open_fd (fd : Z) (op : nat -> X Z) : X Z := fn (
  i ← get_file_descriptor fd;
  match i with
  | None => fail LINUX_EBADF
  | Some i => op i
  end).

Definition linux_mmap (r : syscall_registers_t) : X Z := fn (
  h ← gets (fun s => hhdm (x_mm s));
  if negb (not_null h) then fail LINUX_ENOMEM else
  fd ← (if flag (r10 r) LINUX_MAP_ANON then mret None else get_file_descriptor (r8 r));
  linux_map_memory (rdi r) (rsi r) (rdx r) (r10 r) fd (r9 r)).

(** [None] when the call does not return a value. *)
Definition linux_call (r : syscall_registers_t) : option (X Z) :=
  match rax r with
  | 0 => Some (on_open_fd (rdi r) (fun i => linux_read_fd i (rsi r) (rdx r) false 0))
  | 1 => Some (on_open_fd (rdi r) (fun i => linux_write_fd i (rsi r) (rdx r)))
  | 2 => Some (linux_open (rdi r) (rsi r))
  | 3 => Some (linux_close (rdi r))
  | 4 => Some (linux_stat_path (rdi r) (rsi r))
  | 5 => Some (i ← get_file_descriptor (rdi r); linux_stat_fd i (rsi r))
  | 8 => Some (linux_lseek (rdi r) (rsi r) (rdx r))
  | 9 => Some (linux_mmap r)
  | 10 => Some (linux_mprotect (rdi r) (rsi r) (rdx r))
  | 11 => Some (linux_munmap (rdi r) (rsi r))
  | 12 => Some (linux_brk (rdi r))
  | 17 => Some (on_open_fd (rdi r) (fun i => linux_read_fd i (rsi r) (rdx r) true (r10 r)))
  | 21 => Some (linux_access (rdi r) (rsi r))
  | 39 => Some (pid ← gets (fun s => scheduler_current_pid (x_kernel s)); mret (if pid =? 0 then 1 else pid))
  | 63 => Some (linux_uname (rdi r))
  | 79 => Some (linux_getcwd (rdi r) (rsi r))
  | 96 => Some (linux_gettimeofday (rdi r) (rsi r))
  | 102 | 104 | 107 | 108 => Some (mret 0)
  | 201 => Some (linux_time (rdi r))
  | 228 => Some (linux_clock_gettime (rdi r) (rsi r))
  | 257 => Some (if negb (rdi r =? LINUX_AT_FDCWD) then mret (linux_error LINUX_EBADF)
                 else linux_open (rsi r) (rdx r))
  | 262 => Some (linux_newfstatat (rdi r) (rsi r) (rdx r) (r10 r))
  | 60 | 231 => None
  | _ => Some (mret (linux_error LINUX_ENOSYS))
  end.

(** [EXIT] and [EXIT_GROUP]: the scheduler ends a task of its own; a program run
    by the shell goes back to its launcher. *)
Definition linux_exit (status : Z) : X linux_result :=
  kn ← gets x_kernel;
  if negb (scheduler_current_pid kn =? 0) then mret (ExitTask status)
  else if kernel_program_launcher_rsp kn =? 0 then mret (Rax (linux_error LINUX_EINVAL))
  else
    set_proc linux_reset_process_state;;
    on_mm cleanup_user_pages;;
    mret (ExitLauncher status).

Definition linux_syscall_handler (r : syscall_registers_t) : X linux_result :=
  match linux_call r with
  | Some call => v ← call; mret (Rax v)
  | None => linux_exit (rdi r)
  end.

End Calls.
