(* ===== verification/LinuxProofs.v ===== *)
(** * Properties of the Linux system calls

    What opening, writing and seeking do to the descriptors and the files. *)

From S2P Require Import Prelude CMonad FileStore Mmu Pmm PageTable Elf UserMem UserMemProofs UserMap LinuxFd LinuxCalls.

(** What the calls need of the file system beyond [LawfulStore]. *)
Class LawfulLinux (F : Type) `{LawfulStore F} `{!ExecStore F} `{!LinuxStore F} := {
  law_info f p c :
    store_ok f -> contents f !! p = Some c ->
    exists f', fs_get_info f p = Some (Some (zlen c, false), f') /\ store_ok f' /\ contents f' = contents f;
  law_write f p c d :
    store_ok f -> contents f !! p = Some c -> is_bytes d ->
    exists f', fs_write_bytes f p d = Some (0, f') /\ store_ok f' /\ contents f' = <[p := d]> (contents f);
}.

Section Linux.
Context {F K : Type} `{LawfulLinux F} `{Kernel K}.
Implicit Types s : linux F K.

Abbreviation X := (M (linux F K)).

Definition with_mm (mm : mmu) s : linux F K := Linux (x_proc s) (x_image s) mm (x_fs s) (x_kernel s).
Definition with_fs (f : F) s : linux F K := Linux (x_proc s) (x_image s) (x_mm s) f (x_kernel s).
Definition with_image (b : bytes) s : linux F K := Linux (x_proc s) b (x_mm s) (x_fs s) (x_kernel s).
Definition with_fd (i : nat) (d : linux_task_fd_t) s : linux F K :=
  let p := x_proc s in
  Linux (LinuxContext (<[i := d]> (file_descriptors p)) (program_break p) (mmap_cursor p) (heap_start p))
    (x_image s) (x_mm s) (x_fs s) (x_kernel s).

Lemma on_mm_run {A} (m : Mm A) a mm' s :
  m (x_mm s) = Some (Val a, mm') -> on_mm m s = Some (Val a, with_mm mm' s).
Proof. unfold on_mm, zoom. by intros ->. Qed.

Lemma on_mm_same {A} (m : Mm A) a s : m (x_mm s) = Some (Val a, x_mm s) -> on_mm m s = Some (Val a, s).
Proof. intros E. rewrite (on_mm_run m a (x_mm s) s E). by destruct s. Qed.

Lemma on_fs_run {A} (f : F -> option (A * F)) a fs' s :
  f (x_fs s) = Some (a, fs') -> on_fs f s = Some (Val a, with_fs fs' s).
Proof. unfold on_fs. by intros ->. Qed.

Lemma put_fd_run i d s : put_fd i d s = Some (Val tt, with_fd i d s).
Proof. done. Qed.

Lemma the_fd_run i d s : file_descriptors (x_proc s) !! i = Some d -> the_fd i s = Some (Val d, s).
Proof. intros E. unfold the_fd, get_proc. rewrite bind_gets. unfold lift. by rewrite E. Qed.

Lemma fd_lookup s i d :
  file_descriptors (x_proc s) !! i = Some d -> (i < LINUX_FD_LIMIT)%nat -> fd_open d = true ->
  get_file_descriptor (Z.of_nat i) s = Some (Val (Some i), s).
Proof.
  intros Hd Hi Hopen. unfold get_file_descriptor, get_proc. rewrite bind_gets.
  destruct (Z.leb_spec (Z.of_nat LINUX_FD_LIMIT) (Z.of_nat i)); [lia|]. by rewrite Nat2Z.id, Hd, Hopen.
Qed.

(** ** Seeking *)

(** The position an [lseek] counts from. *)
Definition seek_base (d : linux_task_fd_t) (c : bytes) (whence : Z) : option Z :=
  if whence =? 0 then Some 0
  else if whence =? 1 then (if fd_offset d <=? INT64_MAX then Some (fd_offset d) else None)
  else if whence =? 2 then Some (zlen c)
  else None.

Lemma seek_range base disp :
  0 <= base <= INT64_MAX -> INT64_MIN <= disp <= INT64_MAX ->
  ((0 <? disp) && (INT64_MAX - disp <? base)) || ((disp <? 0) && (base <? INT64_MIN - disp)) || (base + disp <? 0) =
  negb ((0 <=? base + disp) && (base + disp <=? INT64_MAX)).
Proof. unfold INT64_MIN, INT64_MAX. intros. bgoal; done. Qed.

Lemma s64_range x : INT64_MIN <= s64 x <= INT64_MAX.
Proof. unfold s64, INT64_MIN, INT64_MAX. Z.to_euclidean_division_equations; lia. Qed.

(** [lseek] once its base is known. *)
Lemma seek_from s s' i d displacement whence base :
  file_descriptors (x_proc s) !! i = Some d -> (i < LINUX_FD_LIMIT)%nat ->
  fd_open d = true -> fd_is_terminal d = false -> 0 <= base <= INT64_MAX ->
  (if whence =? 0 then mret 0
   else if whence =? 1 then
     if INT64_MAX <? fd_offset d then fail LINUX_EOVERFLOW else mret (fd_offset d)
   else if whence =? 2 then
     info ← get_file_info (fd_path d);
     match info with
     | Some (file_size, _) => if INT64_MAX <? file_size then fail LINUX_EINVAL else mret file_size
     | None => fail LINUX_EINVAL
     end
   else fail LINUX_EINVAL) s = Some (Val base, s') ->
  let target := base + s64 displacement in
  linux_lseek (Z.of_nat i) displacement whence s =
  if (0 <=? target) && (target <=? INT64_MAX) then Some (Val target, with_fd i (with_offset target d) s')
  else Some (Val (linux_error LINUX_EINVAL), s').
Proof.
  intros Hd Hi Hopen Hterm Hbase Eb target.
  assert (get_file_descriptor (Z.of_nat i) s = Some (Val (Some i), s)) as Eget by by eapply fd_lookup.
  unfold linux_lseek, fn. mrun Eget. mrun (the_fd_run i d s Hd). rewrite Hterm. mrun Eb.
  rewrite seek_range by (done || apply s64_range). fold target.
  by destruct ((0 <=? target) && (target <=? INT64_MAX)).
Qed.

(** C34: [lseek] on an open file.  With a whence of 0, 1 or 2 the new offset is the
    start, the old offset or the file size plus the displacement, a signed 64-bit
    number; it is stored and returned exactly when it is between 0 and 2^63-1.
    In every other case the call fails with an error number and the descriptor
    keeps its offset; the files are never changed. *)
Theorem linux_lseek_spec s fd i d c displacement whence :
  file_descriptors (x_proc s) !! i = Some d -> fd = Z.of_nat i -> (i < LINUX_FD_LIMIT)%nat ->
  fd_open d = true -> fd_is_terminal d = false -> 0 <= fd_offset d ->
  store_ok (x_fs s) -> contents (x_fs s) !! fd_path d = Some c -> zlen c <= INT64_MAX ->
  exists f', store_ok f' /\ contents f' = contents (x_fs s) /\
  match seek_base d c whence with
  | Some base =>
      let target := base + s64 displacement in
      if (0 <=? target) && (target <=? INT64_MAX)
      then linux_lseek fd displacement whence s = Some (Val target, with_fd i (with_offset target d) (with_fs f' s))
      else linux_lseek fd displacement whence s = Some (Val (linux_error LINUX_EINVAL), with_fs f' s)
  | None => exists e, e ∈ [LINUX_EINVAL; LINUX_EOVERFLOW] /\
      linux_lseek fd displacement whence s = Some (Val (linux_error e), with_fs f' s)
  end.
Proof.
  intros Hd -> Hi Hopen Hterm Hoff Hst Hc Hsize.
  destruct (law_info _ _ c Hst Hc) as (f' & Ef & Hst' & Hc').
  assert (with_fs (x_fs s) s = s) as Hsame by by destruct s.
  assert (0 <= INT64_MAX) by done.
  unfold seek_base. destruct (Z.eqb_spec whence 0) as [->|Hw0]; [|destruct (Z.eqb_spec whence 1) as [->|Hw1];
    [destruct (Z.leb_spec (fd_offset d) INT64_MAX) | destruct (Z.eqb_spec whence 2) as [->|Hw2]]].
  - exists (x_fs s). rewrite Hsame. split; [done|]. split; [done|].
    rewrite (seek_from s s i d displacement 0 0); try done. by destruct (_ && _).
  - exists (x_fs s). rewrite Hsame. split; [done|]. split; [done|].
    rewrite (seek_from s s i d displacement 1 (fd_offset d)); try done; [by destruct (_ && _)|].
    cbn [Z.eqb Pos.eqb]. by destruct (Z.ltb_spec INT64_MAX (fd_offset d)); [lia|].
  - exists (x_fs s). rewrite Hsame. split; [done|]. split; [done|]. exists LINUX_EOVERFLOW. split; [set_solver|].
    unfold linux_lseek. apply fn_exit. mrun (fd_lookup s i d Hd Hi Hopen). mrun (the_fd_run i d s Hd). rewrite Hterm.
    cbn [Z.eqb Pos.eqb]. by destruct (Z.ltb_spec INT64_MAX (fd_offset d)); [|lia].
  - exists f'. split; [done|]. split; [done|].
    assert (0 <= zlen c <= INT64_MAX) by (split; [unfold zlen; lia | done]).
    rewrite (seek_from s (with_fs f' s) i d displacement 2 (zlen c)); try done; [by destruct (_ && _)|].
    cbn [Z.eqb Pos.eqb]. assert (get_file_info (fd_path d) s = Some (Val (Some (zlen c, false)), with_fs f' s)) as Ei by by apply on_fs_run.
    mrun Ei. by destruct (Z.ltb_spec INT64_MAX (zlen c)); [lia|].
  - exists (x_fs s). rewrite Hsame. split; [done|]. split; [done|]. exists LINUX_EINVAL. split; [set_solver|].
    unfold linux_lseek. apply fn_exit. mrun (fd_lookup s i d Hd Hi Hopen). mrun (the_fd_run i d s Hd). rewrite Hterm.
    by rewrite !(proj2 (Z.eqb_neq _ _)) by done.
Qed.

(** ** Writing *)

(** [c] after [data] is written at [o]; a gap before [o] is filled with zeros. *)
Definition write_at (c : bytes) (o : Z) (data : bytes) : bytes :=
  take (Z.to_nat o) (c ++ zeros (Z.to_nat (o - zlen c))) ++ data ++ drop (Z.to_nat o + length data) c.

Lemma zlen_write_at c o data : 0 <= o -> zlen (write_at c o data) = Z.max (zlen c) (o + zlen data).
Proof.
  intros Ho. unfold write_at, zeros. rewrite !zlen_app. unfold zlen.
  rewrite length_take, length_drop, length_app, length_replicate. lia.
Qed.

Lemma rd_write_at c o data i :
  0 <= o ->
  rd (write_at c o data) i =
  if (o <=? i) && (i <? o + zlen data) then rd data (i - o)
  else if (zlen c <=? i) && (i <? o) then Some 0 else rd c i.
Proof.
  intros Ho. assert (zlen (take (Z.to_nat o) (c ++ zeros (Z.to_nat (o - zlen c)))) = o) as Hp
    by (unfold zlen, zeros; rewrite length_take, length_app, length_replicate; lia).
  unfold write_at. destruct (Z.leb_spec o i); cbn [andb].
  - rewrite rd_app_r, Hp by lia. destruct (Z.ltb_spec i (o + zlen data)); [apply rd_app_l; lia|].
    rewrite rd_app_r, !rd_lookup, lookup_drop by lia. destruct (Z.ltb_spec i o); [lia|]. rewrite andb_false_r.
    f_equal. zs.
  - rewrite rd_app_l by lia. destruct (Z.ltb_spec i o); [|lia]. rewrite andb_true_r.
    unfold rd at 1. destruct (Z.ltb_spec i 0); [unfold rd; bool_true; try done; zs|].
    rewrite lookup_take_lt by lia. destruct (Z.leb_spec (zlen c) i).
    + rewrite lookup_app_r by zs. unfold zeros. apply lookup_replicate. split; [done | zs].
    + rewrite lookup_app_l by zs. by rewrite rd_lookup.
Qed.

Lemma is_bytes_write_at c o data : is_bytes c -> is_bytes data -> is_bytes (write_at c o data).
Proof.
  intros. unfold write_at. apply is_bytes_app. split; [apply Forall_take, is_bytes_app; split; auto with cbuf|].
  apply is_bytes_app. split; [done | by apply Forall_drop].
Qed.

Lemma splice_ok s c rest o data :
  x_image s = c ++ rest -> 0 <= o -> o + zlen data <= zlen (x_image s) ->
  exists b, zlen b = zlen (x_image s) /\
    splice_image (zlen c) o data s = Some (Val (write_at c o data), with_image b s).
Proof.
  intros Hi Ho Hl. unfold splice_image. rewrite bind_gets.
  pose proof (zlen_nonneg c). pose proof (zlen_nonneg data). pose proof (zlen_nonneg rest).
  assert (zlen (x_image s) = zlen c + zlen rest) as Hz by (rewrite Hi; zs).
  assert (exists b1, (if zlen c <? o then blit (x_image s) (zlen c) (zeros (Z.to_nat (o - zlen c))) else Some (x_image s))
    = Some b1 /\ zlen b1 = zlen (x_image s) /\
    forall i, i < zlen c \/ i < o -> rd b1 i = if (zlen c <=? i) && (i <? o) then Some 0 else rd c i) as (b1 & E1 & Hl1 & Hb1).
  { destruct (Z.ltb_spec (zlen c) o).
    - destruct (blit_total (x_image s) (zeros (Z.to_nat (o - zlen c))) (zlen c)) as [b1 E]; [lia | unfold zeros; zs |].
      exists b1. split; [done|]. split; [by apply blit_zlen in E|]. intros i Hlt. rewrite (rd_blit _ _ _ _ _ E).
      assert (zlen (zeros (Z.to_nat (o - zlen c))) = o - zlen c) as -> by (unfold zeros; zs).
      replace (zlen c + (o - zlen c)) with o by lia. destruct (Z.leb_spec (zlen c) i); cbn [andb].
      + destruct (Z.ltb_spec i o); [|lia]. rewrite rd_lookup by lia. unfold zeros. apply lookup_replicate. split; [done | lia].
      + rewrite Hi. by apply rd_app_l.
    - exists (x_image s). split; [done|]. split; [done|]. intros i Hlt. destruct (Z.leb_spec (zlen c) i); cbn [andb].
      + lia.
      + rewrite Hi. by apply rd_app_l. }
  rewrite E1. rewrite (bind_lift _ b1) by done.
  destruct (blit_total b1 data o) as [b2 E2]; [lia..|]. rewrite (bind_lift _ b2) by done.
  unfold set_image. rewrite bind_modify. pose proof (blit_zlen _ _ _ _ E2) as Hl2.
  exists b2. split; [congruence|]. fold (with_image b2 s).
  set (n := if zlen c <? o + zlen data then o + zlen data else zlen c).
  assert (n = Z.max (zlen c) (o + zlen data)) as Hn by (unfold n; destruct (Z.ltb_spec (zlen c) (o + zlen data)); lia).
  destruct (slice_total b2 0 n) as [b3 E3]; [lia..|]. unfold lift. rewrite E3. cbn [mbind option_bind]. do 3 f_equal.
  apply list_eq_rd; [rewrite (slice_zlen _ _ _ _ E3), zlen_write_at; lia|].
  intros i Hi3. rewrite (slice_zlen _ _ _ _ E3) in Hi3. rewrite (rd_slice _ _ _ _ _ E3), (rd_blit _ _ _ _ _ E2), rd_write_at by lia.
  rewrite Z.add_0_l. destruct (Z.leb_spec o i), (Z.ltb_spec i (o + zlen data)); cbn [andb]; try done; apply Hb1; lia.
Qed.

(** The bytes of user memory. *)
Definition user_memory (m : mmu) (v : Z) (data : bytes) : Prop :=
  forall k x, data !! k = Some x -> ubyte m (v + Z.of_nat k) = Some x.

Lemma get_byte_u8 w k : is_u8 (get_byte w k).
Proof. unfold get_byte, is_u8. change 255 with (2 ^ 8 - 1). rewrite land_ones_mod by lia. Z.to_euclidean_division_equations; lia. Qed.

Lemma user_bytes_ok m n v :
  (forall k, v <= k < v + Z.of_nat n -> is_Some (ubyte m k)) ->
  exists data, user_bytes n v m = Some (Val data, m) /\ length data = n /\ is_bytes data /\ user_memory m v data.
Proof.
  revert v. induction n as [|n IH]; intros v Hall; cbn [user_bytes].
  { exists []. split_and!; [done | done | constructor | by intros k x Hk]. }
  destruct (Hall v) as [b Hb]; [lia|]. mrun (user_byte_ok m v b Hb).
  destruct (IH (v + 1)) as (data & E & Hl & Hd & Hm); [intros; apply Hall; lia|]. mrun E.
  exists (b :: data). split_and!; [done | cbn; lia | | intros [|k] x Hk; cbn in Hk].
  - apply is_bytes_cons. split; [|done]. unfold ubyte in Hb. destruct (hw_access m true false v) as [a|]; [|done].
    cbn [mbind option_bind] in Hb. destruct (mem m !! _) as [pg|]; [|done]. cbn [mbind option_bind] in Hb.
    destruct (rd pg _) as [w|]; [|done]. injection Hb as <-. apply get_byte_u8.
  - injection Hk as <-. rewrite <- Hb. f_equal. lia.
  - rewrite <- (Hm k x Hk). f_equal. lia.
Qed.

(** Reading the old contents into [linux_file_image]. *)
Lemma load_image_ok s p c :
  store_ok (x_fs s) -> contents (x_fs s) !! p = Some c -> zlen c <= LINUX_FILE_IO_LIMIT ->
  zlen (x_image s) = LINUX_FILE_IO_LIMIT ->
  exists f' rest, store_ok f' /\ contents f' = contents (x_fs s) /\ zlen (c ++ rest) = LINUX_FILE_IO_LIMIT /\
  (if negb (zlen c =? 0) then
     '(bytes_read, old) ← on_fs (fun f =>
         '(rc, old, f) ← fs_read_raw_at f p 0 (zlen c); Some ((rc, old), f));
     image ← gets x_image;
     image ← lift (blit image 0 old);
     set_image image;;
     if (bytes_read <? 0) || negb (bytes_read =? zlen c) then fail LINUX_EIO else mret tt
   else mret tt) s = Some (Val tt, with_fs f' (with_image (c ++ rest) s)).
Proof.
  intros Hst Hc Hmax Himg. destruct (Z.eqb_spec (zlen c) 0) as [E|E]; cbn [negb].
  { exists (x_fs s), (x_image s). apply zlen_0_nil in E as ->. cbn [app]. split_and!; try done. by destruct s. }
  destruct (law_read (x_fs s) p c 0 (zlen c) Hst Hc) as (f' & Ef & Hst' & Hc');
    [lia | pose proof (zlen_nonneg c); unfold LINUX_FILE_IO_LIMIT, INT_MAX in *; lia |].
  rewrite drop_0, (take_ge c) in Ef by (unfold zlen; lia).
  destruct (blit_total (x_image s) c 0) as [b Eb]; [lia..|]. pose proof (blit_zlen _ _ _ _ Eb) as Hlb.
  apply blit_0_Some in Eb as Hb. destruct Hb as [_ Hb].
  exists f', (drop (length c) (x_image s)). split; [done|]. split; [done|]. rewrite <- Hb. split; [congruence|].
  assert (on_fs (fun f => '(rc, old, f) ← fs_read_raw_at f p 0 (zlen c); Some ((rc, old), f)) s =
    Some (Val (zlen c, c), with_fs f' s)) as Er.
  { apply on_fs_run. rewrite Ef. done. }
  mrun Er. rewrite bind_gets. cbn [x_image with_fs]. rewrite (bind_lift _ b) by done. unfold set_image. rewrite bind_modify.
  pose proof (zlen_nonneg c). destruct (Z.ltb_spec (zlen c) 0); [lia|]. by rewrite Z.eqb_refl.
Qed.

Lemma with_offset_same d : with_offset (fd_offset d) d = d.
Proof. by destruct d. Qed.

Lemma with_fd_twice i d d' s : with_fd i d (with_fd i d' s) = with_fd i d s.
Proof. unfold with_fd. cbn. by rewrite list_insert_insert_eq. Qed.

(** A file that a program can write to, and the bytes it writes. *)
Record write_ok s (l : list Z) (paths : gmap Z (list Z)) (i : nat) d (c : bytes) (buffer count : Z) : Prop := {
  wo_fd : file_descriptors (x_proc s) !! i = Some d;
  wo_writable : fd_writable d = true;
  wo_file : fd_is_terminal d = false /\ fd_is_dir d = false;
  wo_offset : 0 <= fd_offset d;
  wo_store : store_ok (x_fs s);
  wo_contents : contents (x_fs s) !! fd_path d = Some c;
  wo_image : zlen (x_image s) = LINUX_FILE_IO_LIMIT;
  wo_as : as_ok (x_mm s) l paths;
  wo_phys : phys_ok (x_mm s);
  wo_ram : user_ram (x_mm s);
  wo_count : 0 < count <= USER_IO_LIMIT;
  wo_range : 0 < buffer /\ buffer + count <= USER_ADDRESS_LIMIT;
  wo_access v : buffer <= v < buffer + count -> is_Some (hw_access (x_mm s) true false v);
}.

(** The offset of the write. *)
Definition write_offset d (c : bytes) : Z := if fd_append d then zlen c else fd_offset d.

(** Up to the check of the size. *)
Lemma write_start s l paths i d c buffer count :
  write_ok s l paths i d c buffer count ->
  let o := write_offset d c in
  exists f', store_ok f' /\ contents f' = contents (x_fs s) /\
    linux_write_fd i buffer count s =
    fn (if (LINUX_FILE_IO_LIMIT <? o) || (LINUX_FILE_IO_LIMIT - o <? count) || (LINUX_FILE_IO_LIMIT <? zlen c)
        then fail LINUX_EFBIG
        else
          data ← on_mm (user_bytes (Z.to_nat count) buffer);
          (if negb (zlen c =? 0) then
             '(bytes_read, old) ← on_fs (fun f =>
                 '(rc, old, f) ← fs_read_raw_at f (fd_path d) 0 (zlen c); Some ((rc, old), f));
             image ← gets x_image;
             image ← lift (blit image 0 old);
             set_image image;;
             if (bytes_read <? 0) || negb (bytes_read =? zlen c) then fail LINUX_EIO else mret tt
           else mret tt);;
          contents ← splice_image (zlen c) o data;
          result ← on_fs (fun f => fs_write_bytes f (fd_path d) contents);
          if negb (result =? 0) then fail LINUX_EACCES else
          put_fd i (with_offset (u64 (o + count)) d);;
          mret count) (with_fd i (with_offset o d) (with_fs f' s)).
Proof.
  intros [Hd Hw [Ht Hdir] Ho Hst Hc Himg Has Hphys Hram Hcount [Hb Hlim] Hacc] o.
  destruct (law_info _ _ c Hst Hc) as (f' & Ef & Hst' & Hc'). exists f'. split; [done|]. split; [done|].
  destruct (range_accessible_ok (x_mm s) l paths buffer count false Has Hphys) as (b & Eb & Hbt);
    [unfold_int; unfold USER_IO_LIMIT, USER_ADDRESS_LIMIT in *; lia.. |].
  assert (b = true) as -> by (apply Hbt; split_and!; [lia | lia | done]).
  assert (get_file_info (fd_path d) s = Some (Val (Some (zlen c, false)), with_fs f' s)) as Ei by by apply on_fs_run.
  unfold linux_write_fd, fn. mrun (the_fd_run i d s Hd). rewrite Hw. cbn [negb].
  destruct (Z.ltb_spec USER_IO_LIMIT count); [lia|]. destruct (Z.eqb_spec count 0); [lia|].
  mrun (on_mm_same _ _ s Eb). rewrite Ht, Hdir. cbn [negb andb]. mrun Ei.
  replace (if fd_append d then with_offset (zlen c) d else d) with (with_offset o d)
    by (unfold o, write_offset; destruct (fd_append d); [done | apply with_offset_same]).
  mrun (put_fd_run i (with_offset o d) (with_fs f' s)). done.
Qed.

(** C15: [write] on an open file.  The data, the bytes of user memory at the buffer,
    replaces the file's bytes at the descriptor's offset (at the end for
    [O_APPEND]), a gap behind the old end is filled with zeros, and every other
    file is unchanged; the offset moves behind the data and the byte count is
    returned.  A file that would grow beyond 65536 bytes is refused with [EFBIG]
    and no file is changed. *)
Theorem linux_write_spec s l paths i d c buffer count :
  write_ok s l paths i d c buffer count ->
  let o := write_offset d c in
  if (o + count <=? LINUX_FILE_IO_LIMIT) && (zlen c <=? LINUX_FILE_IO_LIMIT) then
    exists data f' image', zlen data = count /\ user_memory (x_mm s) buffer data /\ store_ok f' /\
      contents f' = <[fd_path d := write_at c o data]> (contents (x_fs s)) /\ zlen image' = LINUX_FILE_IO_LIMIT /\
      linux_write_fd i buffer count s =
      Some (Val count, with_fd i (with_offset (o + count) d) (with_fs f' (with_image image' s)))
  else
    exists f', store_ok f' /\ contents f' = contents (x_fs s) /\
      linux_write_fd i buffer count s =
      Some (Val (linux_error LINUX_EFBIG), with_fd i (with_offset o d) (with_fs f' s)).
Proof.
  intros Hok o. destruct (write_start _ _ _ _ _ _ _ _ Hok) as (f1 & Hst1 & Hc1 & ->). fold o.
  destruct Hok as [Hd Hw Hf Ho Hst Hc Himg Has Hphys Hram Hcount [Hb Hlim] Hacc].
  pose proof (zlen_nonneg c). assert (0 <= o) by (unfold o, write_offset; destruct (fd_append d); lia).
  destruct (_ && _) eqn:Efit.
  2: { exists f1. split; [done|]. split; [done|]. apply fn_exit.
       replace (_ || _ || _) with true by (symmetry; revert Efit; bgoal; intros; congruence). done. }
  apply andb_true_iff in Efit as [Hfit Hsize].
  replace ((LINUX_FILE_IO_LIMIT <? o) || _ || _) with false by (symmetry; revert Hfit Hsize; bgoal; intros; congruence).
  set (s1 := with_fd i (with_offset o d) (with_fs f1 s)).
  destruct (user_bytes_ok (x_mm s) (Z.to_nat count) buffer) as (data & Ed & Hdl & Hdb & Hdm).
  { intros v Hv. apply Hram; [lia|]. apply Hacc. lia. }
  assert (zlen data = count) as Hzd by (unfold zlen; lia).
  destruct (load_image_ok s1 (fd_path d) c) as (f2 & rest & Hst2 & Hc2 & Hl2 & E2);
    [done | cbn; by rewrite Hc1 | lia | done |].
  set (s2 := with_fs f2 (with_image (c ++ rest) s1)) in *.
  destruct (splice_ok s2 c rest o data) as (b & Hbl & E3); [done | done | cbn [x_image s2 with_fs with_image]; lia |].
  destruct (law_write f2 (fd_path d) c (write_at c o data)) as (f3 & E4 & Hst3 & Hc3);
    [done | cbn in Hc2; by rewrite Hc2, Hc1 | apply is_bytes_write_at; [by apply (law_bytes (x_fs s) (fd_path d)) | done] |].
  exists data, f3, b. split; [done|]. split; [done|]. split; [done|].
  split; [rewrite Hc3, Hc2; cbn; by rewrite Hc1|]. split; [rewrite Hbl; cbn; done|].
  apply fn_val. mrun (on_mm_same _ _ s1 Ed). mrun E2. mrun E3.
  assert (on_fs (fun f => fs_write_bytes f (fd_path d) (write_at c o data)) (with_image b s2) =
    Some (Val 0, with_fs f3 (with_image b s2))) as E5 by by apply on_fs_run.
  mrun E5. cbn [Z.eqb negb]. rewrite u64_small by (unfold_int; unfold LINUX_FILE_IO_LIMIT in *; lia).
  mrun (put_fd_run i (with_offset (o + count) d) (with_fs f3 (with_image b s2))).
  unfold mret, M_ret. do 2 f_equal. exact (with_fd_twice i _ _ (with_fs f3 (with_image b s))).
Qed.

(** ** Opening *)

Lemma free_fd_least fds k :
  match free_fd fds k with
  | Some i => (k <= i)%nat /\ (exists d, fds !! (i - k)%nat = Some d /\ fd_open d = false) /\
      Forall (fun d => fd_open d = true) (take (i - k) fds)
  | None => Forall (fun d => fd_open d = true) fds
  end.
Proof.
  revert k. induction fds as [|d fds IH]; intros k; cbn [free_fd]; [constructor|].
  destruct (fd_open d) eqn:Ed.
  - specialize (IH (S k)). destruct (free_fd fds (S k)) as [i|]; [|by constructor].
    destruct IH as (Hi & Hd & Hf). split; [lia|]. replace (i - k)%nat with (S (i - S k)) by lia.
    split; [exact Hd | by constructor].
  - rewrite Nat.sub_diag. split; [lia|]. split; [by exists d | constructor].
Qed.

Lemma open_lookup_ok s path flags writable c :
  store_ok (x_fs s) -> contents (x_fs s) !! path = Some c ->
  exists f', store_ok f' /\
    if flag flags LINUX_O_TRUNC then
      if writable : bool then
        contents f' = <[path := []]> (contents (x_fs s)) /\
        open_lookup path flags writable s = Some (Val (0, false), with_fs f' s)
      else contents f' = contents (x_fs s) /\
        open_lookup path flags writable s = Some (Ret (linux_error LINUX_EACCES), with_fs f' s)
    else contents f' = contents (x_fs s) /\
      open_lookup path flags writable s = Some (Val (zlen c, false), with_fs f' s).
Proof.
  intros Hst Hc. destruct (law_info _ _ c Hst Hc) as (f1 & E1 & Hst1 & Hc1).
  assert (get_file_info path s = Some (Val (Some (zlen c, false)), with_fs f1 s)) as Ei by by apply on_fs_run.
  unfold open_lookup. destruct (flag flags LINUX_O_TRUNC); [destruct writable|].
  - destruct (law_write f1 path c []) as (f2 & E2 & Hst2 & Hc2); [done | by rewrite Hc1 | constructor |].
    exists f2. split; [done|]. split; [by rewrite Hc2, Hc1|]. mrun Ei. cbn [negb orb].
    assert (on_fs (fun f => fs_write_bytes f path []) (with_fs f1 s) = Some (Val 0, with_fs f2 s)) as Ew
      by by apply (on_fs_run _ _ _ (with_fs f1 s)).
    by mrun Ew.
  - exists f1. split; [done|]. split; [done|]. by mrun Ei.
  - exists f1. split; [done|]. split; [done|]. by mrun Ei.
Qed.

(** The descriptor of a file opened with [flags]; [old] is what the slot held. *)
Definition opened (old : linux_task_fd_t) (flags size : Z) (path : bytes) : linux_task_fd_t :=
  Fd true (negb (flag flags LINUX_O_WRONLY)) (flag flags (Z.lor LINUX_O_WRONLY LINUX_O_RDWR))
    (flag flags LINUX_O_APPEND) false (fd_is_terminal old) (if flag flags LINUX_O_APPEND then size else 0)
    (chars 255 path ++ [0]).

(** C33: [open] on an existing file.  [O_TRUNC] without write access is refused
    with [EACCES] and changes no file; otherwise [O_TRUNC] empties the file and
    nothing else, and the lowest descriptor that is not open becomes one for the
    file, with the access mode of the flags, at offset 0 or, with [O_APPEND], at
    the end of the file.  When all 32 are open the call fails with [EMFILE]. *)
Theorem linux_open_spec s path flags c :
  store_ok (x_fs s) -> contents (x_fs s) !! path = Some c ->
  let trunc := flag flags LINUX_O_TRUNC in
  exists f', store_ok f' /\
    if trunc && negb (flag flags (Z.lor LINUX_O_WRONLY LINUX_O_RDWR)) then
      contents f' = contents (x_fs s) /\
      linux_open_file path flags s = Some (Val (linux_error LINUX_EACCES), with_fs f' s)
    else
      contents f' = (if trunc then <[path := []]> (contents (x_fs s)) else contents (x_fs s)) /\
      ((exists i old, file_descriptors (x_proc s) !! i = Some old /\ fd_open old = false /\
          Forall (fun d => fd_open d = true) (take i (file_descriptors (x_proc s))) /\
          linux_open_file path flags s =
          Some (Val (Z.of_nat i), with_fd i (opened old flags (if trunc then 0 else zlen c) path) (with_fs f' s))) \/
       (Forall (fun d => fd_open d = true) (file_descriptors (x_proc s)) /\
          linux_open_file path flags s = Some (Val (linux_error LINUX_EMFILE), with_fs f' s))).
Proof.
  intros Hst Hc trunc. set (writable := flag flags (Z.lor LINUX_O_WRONLY LINUX_O_RDWR)).
  destruct (open_lookup_ok s path flags writable c Hst Hc) as (f' & Hst' & Hl). exists f'. split; [done|].
  fold trunc in Hl. assert (forall size, trunc && negb writable = false ->
    open_lookup path flags writable s = Some (Val (size, false), with_fs f' s) ->
    (exists i old, file_descriptors (x_proc s) !! i = Some old /\ fd_open old = false /\
       Forall (fun d => fd_open d = true) (take i (file_descriptors (x_proc s))) /\
       linux_open_file path flags s = Some (Val (Z.of_nat i), with_fd i (opened old flags size path) (with_fs f' s))) \/
    (Forall (fun d => fd_open d = true) (file_descriptors (x_proc s)) /\
       linux_open_file path flags s = Some (Val (linux_error LINUX_EMFILE), with_fs f' s))) as Hgo.
  { intros size _ E. unfold linux_open_file, fn. fold writable. mrun E. cbn [andb]. unfold get_proc. rewrite bind_gets.
    cbn [x_proc with_fs]. pose proof (free_fd_least (file_descriptors (x_proc s)) 0) as Hfree.
    destruct (free_fd (file_descriptors (x_proc s)) 0) as [i|]; [left|by right].
    destruct Hfree as (_ & (d & Hd & Hopen) & Hall). rewrite Nat.sub_0_r in *. exists i, d.
    split; [done|]. split; [done|]. split; [done|]. by mrun (the_fd_run i d (with_fs f' s) Hd). }
  destruct trunc; [destruct writable eqn:Ew|]; cbn [andb negb] in *; destruct Hl as [Hc' E].
  - split; [done|]. by apply Hgo.
  - split; [done|]. unfold linux_open_file. apply fn_exit. fold writable. rewrite Ew. by rewrite (bind_exit _ _ _ _ _ E).
  - split; [done|]. by apply Hgo.
Qed.

End Linux.
