(* ===== verification/LinuxSafe.v ===== *)
(** * No Linux system call leaves the memory of its program

    Whatever a program passes in its registers, a call that does not change
    mappings returns a value: the kernel does not fault, stays inside its own
    buffers, and writes only bytes of physical memory that the program itself
    may write ([linux_calls_confined]). *)

From S2P Require Import Prelude CMonad FileStore Mmu Pmm PageTable Elf UserMem UserMemProofs Isolation LinuxFd LinuxCalls LinuxProofs.

(** What the calls need of the file system: calls may fail in any way, but
    return, and report sizes that are not negative and directories that are strings. *)
Class SafeLinux (F : Type) `{SafeStore F} `{!ExecStore F} `{!LinuxStore F} := {
  safe_info f p : store_ok f -> terminated p ->
    exists i f', fs_get_info f p = Some (i, f') /\ store_ok f' /\
      match i with Some (n, _) => 0 <= n | None => True end;
  safe_write f p d : store_ok f -> terminated p -> is_bytes d ->
    exists rc f', fs_write_bytes f p d = Some (rc, f') /\ store_ok f';
  safe_dirname f : store_ok f ->
    exists d f', fs_dirname f = Some (d, f') /\ store_ok f' /\
      match d with Some c => terminated c /\ is_u64 (zlen c) | None => True end;
}.

Class SafeKernel (K : Type) `{Kernel K} := {
  input_bytes (k : K) n : is_bytes (fst (dogeio_input k n));
}.

Section Linux.
Context {F K : Type} `{SafeLinux F} `{SafeKernel K}.
Implicit Types s : linux F K.

Abbreviation X := (M (linux F K)).

Definition fd_ok (d : linux_task_fd_t) : Prop := 0 <= fd_offset d /\ terminated (fd_path d).

Record proc_ok (s0 : mmu) (l : list Z) (paths : gmap Z (list Z)) s : Prop := {
  po_fds : length (file_descriptors (x_proc s)) = LINUX_FD_LIMIT /\ Forall fd_ok (file_descriptors (x_proc s));
  po_image : zlen (x_image s) = LINUX_FILE_IO_LIMIT /\ is_bytes (x_image s);
  po_store : store_ok (x_fs s);
  po_mm : confined s0 l paths (x_mm s);
}.

Context (s0 : mmu) (l : list Z) (paths : gmap Z (list Z)).
Abbreviation I := (proc_ok s0 l paths).

(** ** The parts of the state *)

Lemma fail_safe {A} e (Q : A -> Prop) : safe I (fail e) Q.
Proof. apply safe_exit. Qed.

Lemma on_mm_safe {A} (m : Mm A) Q : safe (confined s0 l paths) m Q -> safe I (on_mm m) Q.
Proof.
  intros Hm s [Hf Hi Hs Hc]. destruct (Hm _ Hc) as (o & mm & E & Hc' & Hq). exists o, (with_mm mm s).
  split_and!; [unfold on_mm, zoom; by rewrite E | by constructor | done].
Qed.

Lemma on_fs_safe {A} (f : F -> option (A * F)) (Q : A -> Prop) :
  (forall fs, store_ok fs -> exists a fs', f fs = Some (a, fs') /\ store_ok fs' /\ Q a) -> safe I (on_fs f) Q.
Proof.
  intros Hm s [Hf Hi Hs Hc]. destruct (Hm _ Hs) as (a & fs' & E & Hs' & Hq). exists (Val a), (with_fs fs' s).
  split_and!; [by apply on_fs_run | by constructor | done].
Qed.

Lemma on_kernel_safe {A} (f : K -> A * K) (Q : A -> Prop) : (forall k, Q (fst (f k))) -> safe I (on_kernel f) Q.
Proof.
  intros Hq s [Hf Hi Hs Hc]. unfold on_kernel. specialize (Hq (x_kernel s)). destruct (f (x_kernel s)) as [a k].
  eexists (Val a), _. split_and!; [done | by constructor | done].
Qed.

Lemma the_fd_safe i : (i < LINUX_FD_LIMIT)%nat -> safe I (the_fd i) fd_ok.
Proof.
  intros Hi s Hs. destruct (po_fds _ _ _ _ Hs) as [Hl Hf].
  destruct (lookup_lt_is_Some_2 (file_descriptors (x_proc s)) i) as [d Hd]; [lia|].
  exists (Val d), s. split_and!; [by apply the_fd_run | done | by eapply Forall_lookup_1].
Qed.

Lemma put_fd_safe i d : fd_ok d -> safe I (put_fd i d) (fun _ => True).
Proof.
  intros Hd s [[Hl Hf] Hi Hs Hc]. exists (Val tt), (with_fd i d s). split_and!; [done | | done].
  constructor; try done. cbn. split; [by rewrite length_insert | by apply Forall_insert].
Qed.

Definition some_fd (i : option nat) : Prop := match i with Some i => (i < LINUX_FD_LIMIT)%nat | None => True end.

Lemma get_fd_total fd : is_u64 fd -> total I (get_file_descriptor fd) some_fd.
Proof.
  intros Hfd s Hs. unfold get_file_descriptor, get_proc. rewrite bind_gets. eexists _, s. split_and!; [done | done |].
  destruct (Z.leb_spec (Z.of_nat LINUX_FD_LIMIT) fd); [done|].
  destruct (file_descriptors _ !! _) as [d|]; [|done]. destruct (fd_open d); [|done]. unfold is_u64 in *. cbn. lia.
Qed.

Lemma get_proc_safe :
  safe I get_proc (fun p => length (file_descriptors p) = LINUX_FD_LIMIT /\ Forall fd_ok (file_descriptors p)).
Proof. apply safe_gets. intros s Hs. apply Hs. Qed.

Lemma info_safe p : terminated p ->
  safe I (get_file_info p) (fun i => match i with Some (n, _) => 0 <= n | None => True end).
Proof. intros Hp. apply on_fs_safe. intros fs Hs. by apply safe_info. Qed.

Lemma path_safe a :
  is_u64 a -> safe I (on_mm (copy_user_string a USER_PATH_LIMIT))
    (fun r => match r with Some p => terminated p | None => True end).
Proof.
  intros Ha. eapply safe_conseq; [by apply on_mm_safe, copy_user_string_safe|]. intros [p|]; [by intros [? ?] | done].
Qed.

(** A guarded check of a range. *)
Definition checked (w : bool) (a n : Z) (b : bool) : Prop := b = true -> n <> 0 -> range_ok s0 w a n.

Lemma accessible_safe a n w : is_u64 a -> is_u64 n -> safe I (accessible a n w) (checked w a n).
Proof. intros. by apply on_mm_safe, user_range_safe. Qed.

Lemma guarded_safe (c : bool) a n w :
  is_u64 a -> is_u64 n -> safe I (if c then mret false else accessible a n w) (checked w a n).
Proof. intros. destruct c; [by apply safe_ret | by apply accessible_safe]. Qed.

Lemma store_user_safe v n b bs :
  checked true v n b -> negb b = false -> 0 < n -> zlen bs <= n -> is_bytes bs ->
  safe I (on_mm (set_user_bytes v bs)) (fun _ => True).
Proof.
  intros Hc Hb Hn Hl Hbs. apply on_mm_safe, set_user_bytes_safe; [|done].
  destruct b; [|done]. destruct (Hc eq_refl) as (? & ? & Hacc); [lia|]. split_and!; [lia | lia |].
  intros. apply Hacc. lia.
Qed.

#[local] Hint Resolve fail_safe the_fd_safe put_fd_safe get_fd_total get_proc_safe info_safe path_safe accessible_safe
  guarded_safe : safe.

Ltac steps := repeat safe_step; try done.
(** One step, without the goals of the branches that return. *)
Ltac step := safe_step; try solve [apply fail_safe | by apply safe_ret].

(** ** Files *)

Lemma is_bytes_lit t : is_bytes (lit t).
Proof.
  induction t as [|c t IH]; [constructor|]. apply is_bytes_cons. split; [|done]. unfold is_u8, ch.
  pose proof (Ascii.nat_ascii_bounded c). lia.
Qed.

Lemma stat_bytes_ok ino nlink mode size blksize blocks :
  let b := stat_bytes ino nlink mode size blksize blocks in is_bytes b /\ zlen b = STAT_SIZE.
Proof.
  cbv zeta. unfold stat_bytes. split.
  - rewrite !is_bytes_app. split_and!; first [apply is_bytes_le | apply is_bytes_zeros].
  - rewrite !zlen_app, !zlen_le_bytes. done.
Qed.

Lemma stat_safe v b ino nlink mode size blksize blocks :
  checked true v STAT_SIZE b -> negb b = false ->
  safe I (on_mm (set_user_bytes v (stat_bytes ino nlink mode size blksize blocks))) (fun _ => True).
Proof.
  intros Hc Hb. destruct (stat_bytes_ok ino nlink mode size blksize blocks) as [? ?].
  eapply store_user_safe; [exact Hc | done | done | lia | done].
Qed.

#[local] Hint Extern 1 (is_u64 STAT_SIZE) => done : safe.

Lemma fd_path_ok d : fd_ok d -> terminated (fd_path d).
Proof. apply proj2. Qed.

#[local] Hint Resolve stat_safe fd_path_ok : safe.

Lemma stat_fd_total i v : some_fd i -> is_u64 v -> total I (linux_stat_fd i v) (fun _ => True).
Proof. intros Hi Hv. unfold linux_stat_fd, fill_linux_stat. safe_step. destruct i as [i|]; steps. Qed.

Lemma stat_path_total p v : is_u64 p -> is_u64 v -> total I (linux_stat_path p v) (fun _ => True).
Proof. intros Hp Hv. unfold linux_stat_path, fill_linux_stat. steps. Qed.

Lemma chars_bytes k b : is_bytes b -> is_bytes (chars k b).
Proof.
  revert b. induction k as [|k IH]; intros [|c b] Hb; cbn; try constructor.
  apply is_bytes_cons in Hb as [? ?]. destruct (c =? 0); [constructor | apply is_bytes_cons; auto].
Qed.

Lemma create_safe p : safe I (on_fs (fun f => fs_create f p)) (fun _ => True).
Proof. apply on_fs_safe. intros f Hf. destruct (safe_create f p Hf) as (rc & f' & ? & ?). by exists rc, f'. Qed.

Lemma write_file_safe p d : terminated p -> is_bytes d -> safe I (on_fs (fun f => fs_write_bytes f p d)) (fun _ => True).
Proof.
  intros Hp Hd. apply on_fs_safe. intros f Hf. destruct (safe_write f p d Hf Hp Hd) as (rc & f' & ? & ?). by exists rc, f'.
Qed.

Lemma read_safe p o n :
  0 <= o -> 0 < n <= INT_MAX ->
  safe I (on_fs (fun f => '(rc, d, f) ← fs_read_raw_at f p o n; Some ((rc, d), f)))
    (fun r => is_bytes (snd r) /\ fst r <= zlen (snd r) <= n).
Proof.
  intros Ho Hn. apply on_fs_safe. intros f Hf.
  destruct (safe_read f p o n Hf Ho Hn) as (rc & d & f' & E & ? & ? & ?). rewrite E. by exists (rc, d), f'.
Qed.

#[local] Hint Resolve create_safe write_file_safe : safe.
#[local] Hint Extern 1 (is_bytes []) => constructor : safe.

Lemma open_lookup_safe p flags w :
  terminated p -> safe I (open_lookup p flags w) (fun r => 0 <= fst r).
Proof. intros Hp. unfold open_lookup. steps. Qed.

Lemma put_opened fd size p (old : linux_task_fd_t) r w a t :
  0 <= size -> terminated p ->
  safe I (put_fd fd (Fd true r w a t (fd_is_terminal old) (if a then size else 0) (chars 255 p ++ [0]))) (fun _ => True).
Proof.
  intros Hs [Hp _]. apply put_fd_safe. split; cbn [fd_offset fd_path].
  - by destruct a.
  - split; [|by apply elem_of_app; right; apply list_elem_of_here].
    apply is_bytes_app. split; [by apply chars_bytes | by repeat constructor].
Qed.

Lemma free_fd_bound fds i : free_fd fds 0 = Some i -> (i < length fds)%nat.
Proof.
  intros E. pose proof (free_fd_least fds 0) as Hl. rewrite E in Hl. destruct Hl as (_ & (d & Hd & _) & _).
  rewrite Nat.sub_0_r in Hd. by eapply lookup_lt_Some.
Qed.

Lemma open_file_total p flags : terminated p -> total I (linux_open_file p flags) (fun _ => True).
Proof.
  intros Hp. unfold linux_open_file. safe_step. eapply safe_bind; [by apply open_lookup_safe|]. intros [size is_dir] Hs.
  cbn [fst] in Hs. repeat (safe_step; try done). 
  match goal with E : free_fd _ _ = Some _ |- _ => apply free_fd_bound in E end.
  eapply safe_bind; [apply the_fd_safe; lia|]. intros old _.
  eapply safe_bind; [by apply put_opened|]. intros. by apply safe_ret.
Qed.

Lemma open_total a flags : is_u64 a -> total I (linux_open a flags) (fun _ => True).
Proof. intros Ha. unfold linux_open. steps. by apply total_safe, open_file_total. Qed.

(** ** Reading and writing *)

Lemma count_ok count : is_u64 count ->
  0 <= (if USER_IO_LIMIT <? count then USER_IO_LIMIT else count) <= USER_IO_LIMIT.
Proof. unfold is_u64. intros. destruct (Z.ltb_spec USER_IO_LIMIT count); unfold USER_IO_LIMIT in *; lia. Qed.

Lemma small_u64 n : 0 <= n <= USER_IO_LIMIT -> is_u64 n.
Proof. unfold is_u64, USER_IO_LIMIT. lia. Qed.

Lemma input_safe n : safe I (on_kernel (fun kn => dogeio_input kn n)) is_bytes.
Proof. apply on_kernel_safe. intros k. apply input_bytes. Qed.

Lemma is_bytes_take n b : is_bytes b -> is_bytes (take n b).
Proof. apply Forall_take. Qed.

#[local] Hint Resolve input_safe is_bytes_take chars_bytes small_u64 : safe.

Lemma with_offset_ok o d : 0 <= o -> fd_ok d -> fd_ok (with_offset o d).
Proof. intros Ho [_ Hp]. by split. Qed.

Lemma read_fd_total i buffer count positional offset :
  (i < LINUX_FD_LIMIT)%nat -> is_u64 buffer -> is_u64 count -> is_u64 offset ->
  total I (linux_read_fd i buffer count positional offset) (fun _ => True).
Proof.
  intros Hi Hb Hc Ho. unfold linux_read_fd. do 3 step. pose proof (count_ok count Hc) as Hn.
  revert Hn. generalize (if USER_IO_LIMIT <? count then USER_IO_LIMIT else count). clear Hc count. intros count Hn.
  step. match goal with E : (count =? 0) = false |- _ => apply Z.eqb_neq in E end.
  do 4 step.
  - safe_step. eapply safe_bind; [|by intros; apply safe_ret].
    eapply store_user_safe; [eassumption | done | lia | | by auto with safe].
    unfold zlen. rewrite length_take. destruct (256 <? count) eqn:E1; (destruct (_ <? _) eqn:E2); unfold zlen in *; bool_true; lia.
  - eapply safe_bind; [apply read_safe; [|unfold USER_IO_LIMIT, INT_MAX in *; lia]|].
    { destruct positional; [apply Ho|]. match goal with H : fd_ok _ |- _ => apply H end. }
    intros [rc d] [Hd Hrc]. cbn [fst snd] in *.
    eapply safe_bind; [eapply store_user_safe; [eassumption | done | lia | lia | done]|]. intros _ _.
    step. eapply (safe_bind _ _ _ (fun _ => True)); [|by intros; apply safe_ret].
    destruct positional; [by apply safe_ret|]. apply put_fd_safe, with_offset_ok; [apply u64_range | done].
Qed.

Lemma print_safe n : forall v, range_ok s0 false v (Z.of_nat n) -> safe I (print_loop n v) (fun _ => True).
Proof.
  induction n as [|n IH]; intros v (Hl & Hv & Hacc); cbn [print_loop]; [by apply safe_ret|].
  eapply safe_bind; [apply on_mm_safe, user_byte_safe; [lia | apply Hacc; lia]|]. intros c _.
  apply (safe_bind _ _ _ (fun _ => True)); [by apply on_kernel_safe|]. intros _ _.
  apply IH. split_and!; [lia | lia |]. intros. apply Hacc. lia.
Qed.

Definition image_ok (b : bytes) : Prop := zlen b = LINUX_FILE_IO_LIMIT /\ is_bytes b.

Lemma get_image_safe : safe I (gets x_image) image_ok.
Proof. apply safe_gets. intros s Hs. apply Hs. Qed.

Lemma set_image_safe b : image_ok b -> safe I (set_image b) (fun _ => True).
Proof. intros Hb. apply safe_modify. intros s [Hf Hi Hs Hc]. by constructor. Qed.

Lemma blit_image b o src :
  image_ok b -> is_bytes src -> 0 <= o -> o + zlen src <= LINUX_FILE_IO_LIMIT ->
  exists b', blit b o src = Some b' /\ image_ok b'.
Proof.
  intros [Hl Hb] Hs Ho Hle. destruct (blit_total b src o) as [b' E]; [done | by rewrite Hl |]. exists b'.
  split; [done|]. split; [by rewrite (blit_zlen _ _ _ _ E) | by apply (is_bytes_blit _ _ _ _ Hb Hs E)].
Qed.

Lemma splice_safe size o d :
  0 <= size <= LINUX_FILE_IO_LIMIT -> 0 <= o -> o + zlen d <= LINUX_FILE_IO_LIMIT -> is_bytes d ->
  safe I (splice_image size o d) is_bytes.
Proof.
  intros Hs Ho Hle Hd. pose proof (zlen_nonneg d). unfold splice_image.
  eapply safe_bind; [apply get_image_safe|]. intros image Hi.
  apply (safe_bind _ _ _ image_ok).
  { apply safe_lift. destruct (Z.ltb_spec size o); [|by exists image].
    apply blit_image; [done | apply is_bytes_zeros | lia |]. unfold zeros. rewrite zlen_replicate. lia. }
  clear Hi image. intros image Hi. apply (safe_bind _ _ _ image_ok); [by apply safe_lift, blit_image|].
  clear Hi image. intros image Hi. eapply safe_bind; [by apply set_image_safe|]. intros _ _.
  apply safe_lift. destruct Hi as [Hl Hb].
  destruct (slice_total image 0 (if size <? o + zlen d then o + zlen d else size)) as [c E];
    [done | destruct (_ <? _); lia | rewrite Hl; destruct (_ <? _); lia |].
  exists c. split; [done|]. by eapply is_bytes_slice.
Qed.

(** The old contents, read into the static buffer. *)
Lemma load_image_safe p size :
  0 <= size <= LINUX_FILE_IO_LIMIT ->
  safe I (if negb (size =? 0) then
            '(bytes_read, old) ← on_fs (fun f => '(rc, old, f) ← fs_read_raw_at f p 0 size; Some ((rc, old), f));
            image ← gets x_image;
            image ← lift (blit image 0 old);
            set_image image;;
            if (bytes_read <? 0) || negb (bytes_read =? size) then fail LINUX_EIO else mret tt
          else mret tt) (fun _ => True).
Proof.
  intros Hs. destruct (Z.eqb_spec size 0); [by apply safe_ret|]. cbn [negb].
  eapply safe_bind; [apply read_safe; [done | unfold LINUX_FILE_IO_LIMIT, INT_MAX in *; lia]|].
  intros [rc old] [Ho Hrc]. cbn [fst snd] in *. eapply safe_bind; [apply get_image_safe|]. intros image Hi.
  apply (safe_bind _ _ _ image_ok); [apply safe_lift, blit_image; [done | done | done | lia]|]. intros image' Hi'.
  eapply safe_bind; [by apply set_image_safe|]. intros _ _. step.
Qed.

Lemma write_fd_total i buffer count :
  (i < LINUX_FD_LIMIT)%nat -> is_u64 buffer -> is_u64 count -> total I (linux_write_fd i buffer count) (fun _ => True).
Proof.
  intros Hi Hb Hc. unfold linux_write_fd. do 3 step. pose proof (count_ok count Hc) as Hn.
  revert Hn. generalize (if USER_IO_LIMIT <? count then USER_IO_LIMIT else count). clear Hc count. intros count Hn.
  step. match goal with E : (count =? 0) = false |- _ => apply Z.eqb_neq in E end. step. step.
  assert (range_ok s0 false buffer (Z.of_nat (Z.to_nat count))) as Hr.
  { rewrite Z2Nat.id by lia. destruct a0; [|done]. by apply Ha0. }
  step; [eapply safe_bind; [by apply print_safe | by intros; apply safe_ret]|]. step. step.
  destruct a1 as [[size is_dir]|]; [|apply fail_safe]. destruct is_dir; [apply fail_safe|].
  set (d := if fd_append a then _ else a). assert (fd_ok d) as Hd.
  { unfold d. destruct (fd_append a); [by apply with_offset_ok | done]. }
  eapply safe_bind; [by apply put_fd_safe|]. intros _ _. step.
  match goal with E : _ || _ || _ = false |- _ => apply orb_false_iff in E as [[?%Z.ltb_ge ?%Z.ltb_ge]%orb_false_iff ?%Z.ltb_ge] end.
  assert (0 <= fd_offset d) by apply Hd.
  eapply safe_bind; [by apply on_mm_safe, user_bytes_safe|]. intros data [Hdb Hdl].
  assert (zlen data = count) as Hz by (unfold zlen; lia).
  eapply safe_bind; [apply load_image_safe; lia|]. intros _ _.
  eapply safe_bind; [apply splice_safe; [lia | done | lia | done]|]. intros contents Hcb.
  eapply safe_bind; [apply write_file_safe; [by apply fd_path_ok | done]|]. intros rc _. step.
  eapply safe_bind; [|by intros; apply safe_ret]. apply put_fd_safe, with_offset_ok; [apply u64_range | done].
Qed.

(** ** The other calls *)

#[local] Hint Extern 1 (is_u64 _) => (unfold is_u64; cbn; lia) : safe.

Lemma lseek_total fd displacement whence :
  is_u64 fd -> total I (linux_lseek fd displacement whence) (fun _ => True).
Proof.
  intros Hfd. unfold linux_lseek. do 2 step. destruct a as [i|]; [|apply fail_safe]. step. step.
  apply (safe_bind _ _ _ (fun b => 0 <= b <= INT64_MAX)).
  - step. step.
    + apply safe_if; intros E; [apply fail_safe|]. apply Z.ltb_ge in E. apply safe_ret. split; [apply Ha0 | done].
    + step. step. destruct a0 as [[size ?]|]; [|apply fail_safe].
      apply safe_if; intros E; [apply fail_safe|]. apply Z.ltb_ge in E. by apply safe_ret.
  - intros base Hbase. cbv zeta. rewrite seek_range by (done || apply s64_range).
    apply safe_if; intros E; [apply fail_safe|]. apply negb_false_iff, andb_true_iff in E as [E1%Z.leb_le E2%Z.leb_le].
    eapply safe_bind; [|by intros; apply safe_ret].
    apply put_fd_safe, with_offset_ok; [lia | done].
Qed.

Lemma zero_fd_ok : fd_ok zero_fd.
Proof. split; [done|]. split; [by repeat constructor | apply list_elem_of_here]. Qed.

Lemma close_total fd : is_u64 fd -> total I (linux_close fd) (fun _ => True).
Proof.
  intros Hfd. unfold linux_close. do 2 step. destruct a as [i|]; [|apply fail_safe].
  eapply safe_bind; [apply put_fd_safe, zero_fd_ok | by intros; apply safe_ret].
Qed.

Lemma access_total p mode : is_u64 p -> total I (linux_access p mode) (fun _ => True).
Proof. intros Hp. unfold linux_access. steps. Qed.

Lemma newfstatat_total dirfd p v flags :
  is_u64 dirfd -> is_u64 p -> is_u64 v -> total I (linux_newfstatat dirfd p v flags) (fun _ => True).
Proof.
  intros Hd Hp Hv. unfold linux_newfstatat. do 2 step. apply (safe_bind _ _ _ (fun _ => True)); [steps|].
  intros empty _. apply safe_if; intros _.
  - eapply safe_bind; [by apply total_safe, get_fd_total|]. intros i Hi. by apply total_safe, stat_fd_total.
  - step. by apply total_safe, stat_path_total.
Qed.

Lemma dirname_safe : safe I (on_fs fs_dirname)
  (fun d => match d with Some c => terminated c /\ is_u64 (zlen c) | None => True end).
Proof. apply on_fs_safe. intros f Hf. by apply safe_dirname. Qed.

Lemma getcwd_total buffer size : is_u64 buffer -> total I (linux_getcwd buffer size) (fun _ => True).
Proof.
  intros Hb. unfold linux_getcwd. step. eapply safe_bind; [apply dirname_safe|]. intros [c|]; [|intros _; apply fail_safe].
  intros [[Hc Hin] Hl]. do 3 step. eapply safe_bind; [|by intros; apply safe_ret].
  eapply store_user_safe; [eassumption | done | | done | done].
  destruct c; [by apply not_elem_of_nil in Hin | zs].
Qed.

Lemma uname_bytes : is_bytes uname_info /\ zlen uname_info = 390.
Proof.
  split; [|by vm_compute]. unfold uname_info, uname_field. rewrite !is_bytes_app.
  split_and!; first [apply is_bytes_lit | apply is_bytes_zeros].
Qed.

Lemma uname_total buffer : is_u64 buffer -> total I (linux_uname buffer) (fun _ => True).
Proof.
  intros Hb. destruct uname_bytes as [Hu Hl]. unfold linux_uname. rewrite Hl. do 3 step.
  eapply safe_bind; [|by intros; apply safe_ret]. eapply store_user_safe; [eassumption | done | done | by rewrite Hl | done].
Qed.

Lemma epoch_safe : safe I (on_kernel time_get_epoch_seconds) (fun _ => True).
Proof. by apply on_kernel_safe. Qed.
#[local] Hint Resolve epoch_safe : safe.

Lemma timeval_safe v b e :
  checked true v 16 b -> negb b = false -> safe I (on_mm (set_user_bytes v (le_bytes 8 e ++ le_bytes 8 0))) (fun _ => True).
Proof.
  intros Hc Hb. eapply store_user_safe; [exact Hc | done | done | rewrite zlen_app, !zlen_le_bytes; done |].
  apply is_bytes_app. split; apply is_bytes_le.
Qed.

Lemma word_safe v b e :
  checked true v 8 b -> negb b = false -> safe I (on_mm (set_user_bytes v (le_bytes 8 e))) (fun _ => True).
Proof.
  intros Hc Hb. eapply store_user_safe; [exact Hc | done | done | rewrite zlen_le_bytes; done | apply is_bytes_le].
Qed.

Lemma zeros_safe v b : checked true v 8 b -> negb b = false -> safe I (on_mm (set_user_bytes v (zeros 8))) (fun _ => True).
Proof. intros Hc Hb. eapply store_user_safe; [exact Hc | done | done | done | apply is_bytes_zeros]. Qed.

#[local] Hint Resolve timeval_safe word_safe zeros_safe : safe.

Lemma gettimeofday_total tv tz : is_u64 tv -> is_u64 tz -> total I (linux_gettimeofday tv tz) (fun _ => True).
Proof. intros Hv Hz. unfold linux_gettimeofday. steps. Qed.

Lemma time_total t : is_u64 t -> total I (linux_time t) (fun _ => True).
Proof. intros Ht. unfold linux_time. steps. Qed.

Lemma clock_gettime_total clock ts : is_u64 ts -> total I (linux_clock_gettime clock ts) (fun _ => True).
Proof. intros Ht. unfold linux_clock_gettime. steps. Qed.

(** ** The dispatcher *)

Definition regs_ok (r : syscall_registers_t) : Prop :=
  is_u64 (rdi r) /\ is_u64 (rsi r) /\ is_u64 (rdx r) /\ is_u64 (r10 r) /\ is_u64 (r8 r) /\ is_u64 (r9 r) /\ is_u64 (rcx r).

(** [mmap], [mprotect], [munmap] and [brk] change the tables; [exit] and
    [exit_group] do not return. *)
Definition OTHER_CALLS : list Z := [9; 10; 11; 12; 60; 231].

Lemma on_open_fd_total fd (op : nat -> X Z) :
  is_u64 fd -> (forall i, (i < LINUX_FD_LIMIT)%nat -> total I (op i) (fun _ => True)) ->
  total I (on_open_fd fd op) (fun _ => True).
Proof.
  intros Hfd Hop. unfold on_open_fd. do 2 step. destruct a as [i|]; [|apply fail_safe]. by apply total_safe, Hop.
Qed.

Lemma fstat_total fd v :
  is_u64 fd -> is_u64 v -> total I (i ← get_file_descriptor fd; linux_stat_fd i v) (fun _ => True).
Proof. intros Hfd Hv. eapply total_bind; [by apply get_fd_total|]. intros i Hi. by apply stat_fd_total. Qed.

Lemma getpid_total :
  total I (pid ← gets (fun s => scheduler_current_pid (x_kernel s)); mret (if pid =? 0 then 1 else pid)) (fun _ => True).
Proof. intros s Hs. rewrite bind_gets. eexists _, s. by split_and!. Qed.

Lemma openat_total d p flags :
  is_u64 p -> total I (if negb (d =? LINUX_AT_FDCWD) then mret (linux_error LINUX_EBADF) else linux_open p flags) (fun _ => True).
Proof. intros Hp. destruct (negb _); [by apply total_ret | by apply open_total]. Qed.

(** The lemma of the call. *)
Ltac call_case :=
  eexists; split; [reflexivity|];
  lazymatch goal with
  | |- total _ (mret _) _ => by apply total_ret
  | |- total _ (if _ then _ else _) _ => by apply openat_total
  | |- total _ (gets _ ≫= _) _ => by apply getpid_total
  | |- total _ (_ ≫= _) _ => by apply fstat_total
  | |- total _ (on_open_fd _ _) _ =>
      apply on_open_fd_total; [done|]; intros i Hi; first [by apply read_fd_total | by apply write_fd_total]
  | |- total _ (linux_open _ _) _ => by apply open_total
  | |- total _ (linux_close _) _ => by apply close_total
  | |- total _ (linux_stat_path _ _) _ => by apply stat_path_total
  | |- total _ (linux_lseek _ _ _) _ => by apply lseek_total
  | |- total _ (linux_access _ _) _ => by apply access_total
  | |- total _ (linux_uname _) _ => by apply uname_total
  | |- total _ (linux_getcwd _ _) _ => by apply getcwd_total
  | |- total _ (linux_gettimeofday _ _) _ => by apply gettimeofday_total
  | |- total _ (linux_time _) _ => by apply time_total
  | |- total _ (linux_clock_gettime _ _) _ => by apply clock_gettime_total
  | |- total _ (linux_newfstatat _ _ _ _) _ => by apply newfstatat_total
  end.

Lemma linux_call_total r :
  regs_ok r -> rax r ∉ OTHER_CALLS -> exists c, linux_call r = Some c /\ total I c (fun _ => True).
Proof.
  intros (Hdi & Hsi & Hdx & Hr10 & Hr8 & Hr9 & _) Hother.
  assert (is_u64 0) as Hz by by unfold is_u64.
  revert Hother. unfold linux_call, OTHER_CALLS. generalize (rax r). intros n Hother.
  assert (forall k, k ∈ [9; 10; 11; 12; 60; 231] -> n <> k) as Hne by (intros k Hk ->; done). clear Hother.
  repeat match goal with
  | |- context [match ?x with _ => _ end] => is_var x; destruct x
  end; first [call_case | exfalso; refine (Hne _ _ eq_refl); apply (bool_decide_unpack _); exact Logic.I].
Qed.
End Linux.

Section Handler.
Context {F K : Type} `{SafeLinux F} `{SafeKernel K}.
Implicit Types s : linux F K.

(** The state of a process between two system calls. *)
Definition process_ok s (l : list Z) (paths : gmap Z (list Z)) : Prop := proc_ok (x_mm s) l paths s.

Lemma proc_rebase (s0 : mmu) l paths s : proc_ok s0 l paths s -> process_ok s l paths.
Proof. intros [Hf Hi Hs Hc]. constructor; try done. apply confined_refl; apply Hc. Qed.

(** A call returns, keeps the process well formed, and changes only what the
    program may write. *)
Lemma linux_calls_confined_ok s l paths r :
  process_ok s l paths -> regs_ok r -> rax r ∉ OTHER_CALLS ->
  exists v s', linux_syscall_handler r s = Some (Val (Rax v), s') /\ process_ok s' l paths /\
    (forall u w v, 0 <= v < USER_ADDRESS_LIMIT -> hw_access (x_mm s') u w v = hw_access (x_mm s) u w v) /\
    (forall a, is_u64 a -> phys_byte (x_mm s') a <> phys_byte (x_mm s) a -> user_writable (x_mm s) a).
Proof.
  intros Hs Hr Hn. destruct (linux_call_total (F:=F) (K:=K) (x_mm s) l paths r Hr Hn) as (c & Ec & Hc).
  destruct (Hc s Hs) as (v & s' & E & Hs' & _). exists v, s'. split.
  { unfold linux_syscall_handler. rewrite Ec. by rewrite (bind_val _ _ _ _ _ E). }
  split; [by eapply proc_rebase|]. pose proof (po_mm _ _ _ _ Hs') as Hm.
  split; [intros; by apply (co_hw _ _ _ _ Hm) | apply (co_writes _ _ _ _ Hm)].
Qed.

End Handler.
