(* ===== verification/LinuxMap.v ===== *)
(** * Anonymous mappings of Linux programs

    [mmap] without a file and without a fixed address: where the pages go and
    what they hold. *)

From S2P Require Import Prelude FileStore CMonad Mmu Pmm PageTable Elf ElfProofs UserMem UserMemProofs UserMap Isolation UserDemo LinuxFd LinuxCalls LinuxProofs LinuxSafe.

Section Mmap.
Context {F K : Type} `{LinuxStore F} `{Kernel K}.
Implicit Types s : linux F K.

Lemma with_mm_twice m1 m2 s : with_mm m1 (with_mm m2 s) = with_mm m1 s.
Proof. done. Qed.

Lemma with_mm_same s : with_mm (x_mm s) s = s.
Proof. by destruct s. Qed.

Lemma align_up v : 0 <= v < 2 ^ 63 -> LinuxFd.align_up_page v = (v + 4095) / 4096 * 4096.
Proof.
  intros Hv. unfold LinuxFd.align_up_page, USER_PAGE_SIZE.
  assert (u64 (v + 4096 - 1) = v + 4095) as -> by (unfold u64; rewrite Z.mod_small; lia).
  change (4096 - 1) with (PAGE_SIZE - 1). apply ldiff_page. lia.
Qed.

Lemma over_pages_run a n body : over_pages (F:=F) (K:=K) a (a + Z.of_nat n * PAGE_SIZE) body = for_loop n a PAGE_SIZE body.
Proof.
  unfold over_pages, USER_PAGE_SIZE, PAGE_SIZE. f_equal.
  replace (a + Z.of_nat n * 4096 - a + 4096 - 1) with (4095 + Z.of_nat n * 4096) by lia.
  rewrite Z.div_add by lia. rewrite Z.div_small by lia. lia.
Qed.

(** ** The search *)

Section Search.
Context (s : linux F K) (l : list Z) (paths : gmap Z (list Z)) (n : nat).
Context (Hok : as_ok (x_mm s) l paths) (Hn : (1 <= n)%nat).

Definition run_free (a : Z) : Prop := forall k, (k < n)%nat -> mapping (x_mm s) (page_at a k) = None.

Lemma range_free_ok k a :
  (forall j, (j < k)%nat -> user_page (page_at a j)) ->
  exists b, range_free k a s = Some (Val b, s) /\
    (b = true <-> forall j, (j < k)%nat -> mapping (x_mm s) (page_at a j) = None).
Proof.
  revert a. induction k as [|k IH]; intros a Hp; cbn [range_free].
  { exists true. split; [done|]. split; [intros _ j Hj; lia | done]. }
  assert (user_page a) as Ha by (replace a with (page_at a 0) by (unfold page_at, PAGE_SIZE; lia); apply Hp; lia).
  pose proof (page_mapped_ok (x_mm s) l paths a Hok (user_page_half a Ha)) as Em. mrun (on_mm_same _ _ s Em).
  assert (forall j, page_at (a + USER_PAGE_SIZE) j = page_at a (S j)) as Hshift
    by (intros j; unfold page_at, USER_PAGE_SIZE, PAGE_SIZE; lia).
  assert (page_at a 0 = a) as H00 by (unfold page_at, PAGE_SIZE; lia).
  destruct (mapping (x_mm s) a) as [e|] eqn:Ea.
  - rewrite bool_decide_eq_true_2 by done. exists false. split; [done|]. split; [done|]. intros Hall.
    specialize (Hall 0%nat ltac:(lia)). rewrite H00 in Hall. congruence.
  - rewrite bool_decide_eq_false_2 by apply is_Some_None.
    destruct (IH (a + USER_PAGE_SIZE)) as (b & Eb & Hb); [intros j Hj; rewrite Hshift; apply Hp; lia|].
    exists b. split; [done|]. rewrite Hb. split; intros Hall.
    + intros [|j] Hj; [by rewrite H00|]. rewrite <- Hshift. apply Hall. lia.
    + intros j Hj. rewrite Hshift. apply Hall. lia.
Qed.

(** The area of mappings. *)
Definition in_area (a : Z) : Prop :=
  USER_MMAP_BASE <= a /\ a mod 4096 = 0 /\ a + 4096 * Z.of_nat n <= USER_MMAP_LIMIT.

Lemma in_area_run a : in_area a -> run_ok a n.
Proof. unfold in_area, run_ok, USER_MMAP_BASE, USER_MMAP_LIMIT, USER_ADDRESS_LIMIT. lia. Qed.

Lemma search_ok a :
  USER_MMAP_BASE <= a < 2 ^ 63 -> a mod 4096 = 0 ->
  exists a', while_true SEARCH_ROUNDS (search_round (Z.of_nat n * PAGE_SIZE)) a s = Some (Val a', s) /\
    ((USER_MMAP_LIMIT <=? a') || (USER_MMAP_LIMIT - a' <? Z.of_nat n * PAGE_SIZE) = false -> in_area a' /\ run_free a').
Proof.
  intros Ha Hal. unfold PAGE_SIZE.
  destruct (while_true_inv
    (fun r a' s' => s' = s /\ USER_MMAP_BASE <= a' < 2 ^ 63 /\ a' mod 4096 = 0 /\ r = Z.to_nat ((USER_MMAP_LIMIT - a') / 4096))
    (fun a' s' => s' = s /\
       ((USER_MMAP_LIMIT <=? a') || (USER_MMAP_LIMIT - a' <? Z.of_nat n * 4096) = false -> in_area a' /\ run_free a'))
    SEARCH_ROUNDS (search_round (F:=F) (K:=K) (Z.of_nat n * 4096)))
    with (n := Z.to_nat ((USER_MMAP_LIMIT - a) / 4096)) (a := a) (s := s) as (a' & s' & E & -> & Hq).
  - intros r a' s' (-> & Hr & Hm & ->). unfold search_round.
    destruct (Z.ltb_spec a' USER_MMAP_LIMIT); cbn [andb].
    2: { left. exists a', s. split; [done|]. split; [done|]. intros. destruct (Z.leb_spec USER_MMAP_LIMIT a'); [done | lia]. }
    destruct (Z.leb_spec (Z.of_nat n * 4096) (USER_MMAP_LIMIT - a')).
    2: { left. exists a', s. split; [done|]. split; [done|].
         destruct (Z.ltb_spec (USER_MMAP_LIMIT - a') (Z.of_nat n * 4096)); [by rewrite orb_true_r | lia]. }
    assert (in_area a') as Hin by (unfold in_area; split_and!; [lia | done | lia]).
    unfold USER_PAGE_SIZE. rewrite Z.div_mul, Nat2Z.id by done.
    destruct (range_free_ok n a') as (b & Eb & Hb); [intros j Hj; apply (run_page a' n); [by apply in_area_run | done]|].
    mrun Eb. destruct b; [left | right].
    + exists a', s. split; [done|]. split; [done|]. intros _. split; [done|]. exact (proj1 Hb eq_refl).
    + eexists _, _, s. split; [done|].
      assert (u64 (a' + Z.of_nat n * 4096) = a' + Z.of_nat n * 4096) as ->
        by (unfold u64; apply Z.mod_small; unfold USER_MMAP_LIMIT, USER_MMAP_BASE in *; lia).
      split; [|split; [done|split; [|split; [|reflexivity]]]].
      * unfold USER_MMAP_LIMIT, USER_MMAP_BASE in *. Z.to_euclidean_division_equations; lia.
      * unfold USER_MMAP_LIMIT, USER_MMAP_BASE in *. lia.
      * rewrite Z.mod_add by done. done.
  - done.
  - unfold SEARCH_ROUNDS, USER_MMAP_LIMIT, USER_MMAP_BASE in *. Z.to_euclidean_division_equations; lia.
  - by exists a'.
Qed.

Lemma choose_ok requested :
  is_u64 requested -> requested < 2 ^ 63 -> USER_MMAP_BASE <= mmap_cursor (x_proc s) < 2 ^ 62 ->
  let r := choose_address requested (Z.of_nat n * PAGE_SIZE) s in
  r = Some (Ret (linux_error LINUX_ENOMEM), s) \/ exists a, in_area a /\ run_free a /\ r = Some (Val a, s).
Proof.
  intros Hr Hr' Hcur r. unfold r, choose_address, get_proc, is_u64 in *. rewrite bind_gets.
  rewrite !align_up by (unfold USER_MMAP_BASE in *; lia).
  match goal with |- context [while_true SEARCH_ROUNDS _ ?x] => set (a := x) end.
  destruct (search_ok a) as (a' & E & Ha').
  - unfold a. match goal with |- context [if ?b then _ else _] => destruct b eqn:Eo end.
    + clear -Hcur. unfold USER_MMAP_BASE in *. Z.to_euclidean_division_equations; lia.
    + rewrite !orb_false_iff in Eo. destruct Eo as [[E1 E2] _]. unfold USER_MMAP_LIMIT in *. lia.
  - unfold a. match goal with |- context [if ?b then _ else _] => destruct b end; by rewrite Z.mod_mul.
  - mrun E. match goal with |- context [if ?b then _ else _] => destruct b eqn:Ee end; [by left|].
    right. exists a'. destruct (Ha' eq_refl). done.
Qed.

End Search.

(** ** Mapping *)

Section Pages.
Context (s : linux F K) (l : list Z) (paths : gmap Z (list Z)) (n : nat) (a protection flags offset : Z).
Context (Hok : as_ok (x_mm s) l paths) (Hphys : Forall (fun p => p < 2 ^ 52) l) (Hrun : run_ok a n).
Context (Hanon : flag flags LINUX_MAP_ANON = true) (Hl : (4 * n <= length l)%nat).

Lemma map_pages_ok :
  exists m' l' paths' ps, length ps = n /\ mapped_run (x_mm s) m' l l' paths' a protection ps /\
    for_loop n a PAGE_SIZE (map_page a protection flags None offset) s = Some (Val tt, with_mm m' s).
Proof.
  edestruct (for_loop_count (fun k s' => exists m' l' paths' ps, s' = with_mm m' s /\ length ps = k /\
    mapped_run (x_mm s) m' l l' paths' a protection ps /\ (length l <= length l' + 4 * k)%nat) n PAGE_SIZE) as (s' & E & H').
  3: { destruct H' as (m' & l' & paths' & ps & -> & Hlen & Hmr & _). exists m', l', paths', ps. split; [done|]. split; [done|]. exact E. }
  - intros m s1 Hm (m1 & l1 & paths1 & ps & -> & Hlen & Hmr & Hl1).
    destruct (map_steps (x_mm s) m1 l l1 paths1 a n protection ps) as (p & s2 & s3 & s4 & l3 & paths3 & Ea & Em & Ep & Hmr3 & Hl3);
      try done; [lia..|].
    rewrite Hlen in Em, Ep. fold (page_at a m). exists (with_mm s4 s). split.
    + unfold map_page. mrun (on_mm_run _ _ _ (with_mm m1 s) Ea). mrun (on_mm_run _ _ _ (with_mm s2 s) Em).
      rewrite Hanon. cbn [negb andb]. rewrite bind_ret. by mrun (on_mm_run _ _ _ (with_mm s3 s) Ep).
    + exists s4, l3, paths3, (ps ++ [p]). split; [done|]. split; [rewrite length_app; cbn; lia|]. split; [done | lia].
  - exists (x_mm s), l, paths, []. split; [by rewrite with_mm_same|]. split; [done|]. split; [|lia]. constructor; try done.
    + apply NoDup_nil_2.
    + by exists [].
    + intros p Hp. by apply not_elem_of_nil in Hp.
Qed.

Lemma check_pages_ok :
  run_free s n a ->
  for_loop n a PAGE_SIZE (fun page =>
    (m ← on_mm (user_page_mapped page); if (m : bool) then fail LINUX_EINVAL else mret tt);; mret tt) s = Some (Val tt, s).
Proof.
  intros Hfree.
  edestruct (for_loop_count (S:=linux F K) (fun _ s1 => s1 = s) n PAGE_SIZE) as (s1 & E1 & ->); [| done | exact E1].
  intros m s1 Hm ->. exists s. split; [|done]. fold (page_at a m).
  pose proof (page_mapped_ok (x_mm s) l paths (page_at a m) Hok (user_page_half _ (run_page a n m Hrun Hm))) as Em.
  rewrite (Hfree m Hm) in Em. rewrite bind_assoc. by mrun (on_mm_same _ _ s Em).
Qed.

End Pages.

Definition with_cursor (c : Z) s : linux F K :=
  let p := x_proc s in
  Linux (LinuxContext (file_descriptors p) (program_break p) c (heap_start p)) (x_image s) (x_mm s) (x_fs s) (x_kernel s).

(** an anonymous mapping without [MAP_FIXED] that [mmap] accepts.  The search
    for an address terminates; either the call fails with [ENOMEM] without any
    effect, or it returns a page-aligned address such that the whole range lay
    unmapped in the mmap area, and now maps distinct zeroed pages of the
    allocator that nothing else uses, with the requested protection; every other
    page of the program keeps its mapping, and the cursor moves behind the range. *)
Theorem linux_mmap_anonymous s l paths n requested length protection flags fd offset :
  as_ok (x_mm s) l paths -> Forall (fun p => p < 2 ^ 52) l -> (4 * n <= List.length l)%nat ->
  is_u64 requested -> requested < 2 ^ 63 -> USER_MMAP_BASE <= mmap_cursor (x_proc s) < 2 ^ 62 ->
  0 < length <= 16 * 1024 * 1024 -> Z.of_nat n = (length + 4095) / 4096 ->
  flag flags LINUX_MAP_ANON = true -> flag flags LINUX_MAP_FIXED = false ->
  Z.land flags 3 = LINUX_MAP_PRIVATE \/ Z.land flags 3 = LINUX_MAP_SHARED -> Z.ldiff protection 7 = 0 -> fd = None ->
  let r := linux_map_memory requested length protection flags fd offset s in
  r = Some (Val (linux_error LINUX_ENOMEM), s) \/
  exists a m' l' paths' ps, in_area n a /\ run_free s n a /\ List.length ps = n /\
    mapped_run (x_mm s) m' l l' paths' a protection ps /\
    r = Some (Val a, with_cursor (a + Z.of_nat n * PAGE_SIZE) (with_mm m' s)).
Proof.
  intros Hok Hphys Hl Hreq Hreq' Hcur Hlen Hn Hanon Hfixed Hpriv Hprot -> r.
  assert (LinuxFd.align_up_page length = Z.of_nat n * PAGE_SIZE) as Hal by (rewrite align_up by lia; unfold PAGE_SIZE; lia).
  assert (length <= Z.of_nat n * PAGE_SIZE) as Hge by (unfold PAGE_SIZE; Z.to_euclidean_division_equations; lia).
  assert (1 <= n)%nat as Hn1 by (Z.to_euclidean_division_equations; lia).
  unfold r, linux_map_memory, fn. rewrite Hanon, Hfixed, Hprot, Hal. cbn [negb andb].
  replace (_ || _ || _ || _ || _) with false.
  2: { symmetry. change (Z.lor LINUX_MAP_PRIVATE LINUX_MAP_SHARED) with 3.
       unfold USER_ADDRESS_LIMIT, USER_PAGE_SIZE, LINUX_MAP_PRIVATE, LINUX_MAP_SHARED in *. bgoal. }
  rewrite bind_ret, andb_false_r. cbn [Z.eqb negb]. destruct (Z.ltb_spec (Z.of_nat n * PAGE_SIZE) length); [lia|].
  destruct (choose_ok s l paths n Hok Hn1 requested Hreq Hreq' Hcur) as [E|(a & Ha & Hfree & E)].
  { left. by rewrite (bind_exit _ _ _ _ _ E). }
  right. pose proof (in_area_run n Hn1 a Ha) as Hrun.
  destruct (map_pages_ok s l paths n a protection flags offset Hok Hphys Hrun Hanon Hl) as (m' & l' & paths' & ps & Hps & Hmr & Em).
  exists a, m', l', paths', ps. split; [done|]. split; [done|]. split; [done|]. split; [done|].
  mrun E. rewrite !over_pages_run.
  rewrite (bind_val _ _ _ _ _ (check_pages_ok s l paths n a Hok Hrun Hfree)).
  mrun Em. rewrite u64_small; [done|].
  unfold in_area, USER_MMAP_BASE, USER_MMAP_LIMIT, PAGE_SIZE in *. unfold_int. lia.
Qed.

End Mmap.

(** ** Linux system calls on a concrete process

    A process with one file, open as descriptor 3, on the machine of
    [PageTable] and [UserDemo]. *)

#[global] Instance mem_linux : LinuxStore MemStore.t := {
  fs_write_bytes f p d :=
    Some (match MemStore.files f !! p with
          | Some _ => (0, MemStore.mk (<[p := d]> (MemStore.files f)))
          | None => (-1, f)
          end);
  fs_dirname f := Some (Some (lit "/" ++ [0]), f);
}.

#[global] Instance mem_lawful_linux : LawfulLinux MemStore.t.
Proof.
  constructor.
  - intros f p c Hv Hp. exists f. cbn in *. by rewrite Hp.
  - intros f p c d Hv Hp Hd. cbn in *. rewrite Hp. eexists. split; [done|]. split; [|done]. by apply MemStore.valid_insert.
Qed.

(** A kernel whose clock stands still and that runs no task. *)
#[global] Instance still_kernel : Kernel unit := {
  dogeio_input k n := (zeros (Z.to_nat n), k);
  dogeio_printchar k _ := k;
  time_get_epoch_seconds k := (0, k);
  scheduler_current_pid _ := 0;
  kernel_program_launcher_rsp _ := 0;
}.

Definition note : bytes := lit "note" ++ [0].
Definition note_fd : linux_task_fd_t := Fd true true true false false false 2 note.
Definition note_fs : MemStore.t := MemStore.mk {[note := lit "abc"]}.

Definition note_proc : linux_task_context_t :=
  let p := linux_reset_process_state in
  LinuxContext (<[3%nat := note_fd]> (file_descriptors p)) (program_break p) (mmap_cursor p) (heap_start p).

Definition process (m : mmu) : linux MemStore.t unit :=
  Linux note_proc (zeros (Z.to_nat LINUX_FILE_IO_LIMIT)) m note_fs tt.

Lemma note_fs_ok : store_ok note_fs.
Proof. apply map_Forall_singleton. repeat constructor; done. Qed.

Lemma linux_lseek_spec_witness :
  exists f', linux_lseek 3 4 1 (process demo) = Some (Val 6, with_fd 3 (with_offset 6 note_fd) (with_fs f' (process demo))).
Proof.
  destruct (linux_lseek_spec (process demo) 3 3 note_fd (lit "abc") 4 1) as (f' & _ & _ & E);
    [reflexivity | reflexivity | unfold LINUX_FD_LIMIT; lia | reflexivity | reflexivity | cbn; lia | exact note_fs_ok |
     reflexivity | vm_compute; discriminate |].
  by exists f'.
Defined.

Lemma linux_open_spec_witness :
  exists i old f', linux_open_file note 0x401 (process demo) =
    Some (Val (Z.of_nat i), with_fd i (opened old 0x401 3 note) (with_fs f' (process demo))).
Proof.
  destruct (linux_open_spec (process demo) note 0x401 (lit "abc") note_fs_ok) as (f' & _ & _ & [E|[E _]]); [reflexivity| |].
  - destruct E as (i & old & _ & _ & _ & E). by exists i, old, f'.
  - exfalso. revert E. apply (bool_decide_unpack (~ _)). vm_compute. exact I.
Defined.

Lemma linux_write_spec_witness :
  exists data f' image', user_memory hello 0x400000 data /\
    contents f' = <[note := write_at (lit "abc") 2 data]> (contents note_fs) /\
    linux_write_fd 3 0x400000 5 (process hello) =
    Some (Val 5, with_fd 3 (with_offset 7 note_fd) (with_fs f' (with_image image' (process hello)))).
Proof.
  destruct hello_as as (l & paths & Hok).
  destruct (linux_write_spec (process hello) l paths 3 note_fd (lit "abc") 0x400000 5)
    as (data & f' & image' & _ & Hm & _ & Hc & _ & E).
  - constructor.
    + reflexivity.
    + reflexivity.
    + split; reflexivity.
    + cbn. lia.
    + exact note_fs_ok.
    + reflexivity.
    + vm_compute. reflexivity.
    + exact Hok.
    + exact hello_phys.
    + exact hello_ram.
    + unfold USER_IO_LIMIT. lia.
    + unfold USER_ADDRESS_LIMIT. lia.
    + intros v Hv. assert (v = 0x400000 \/ v = 0x400001 \/ v = 0x400002 \/ v = 0x400003 \/ v = 0x400004) as Hc by lia.
      destruct Hc as [->|[->|[->|[->| ->]]]]; vm_compute; by eexists.
  - exists data, f', image'. split; [exact Hm|]. split; [exact Hc|]. exact E.
Defined.

#[global] Instance mem_safe_linux : SafeLinux MemStore.t.
Proof.
  constructor.
  - intros f p Hf _. eexists _, f. split; [done|]. split; [done|].
    destruct (MemStore.files f !! p) as [c|]; [apply zlen_nonneg | done].
  - intros f p d Hf _ Hd. cbn. destruct (MemStore.files f !! p); eexists _, _; (split; [done|]); [|done].
    by apply MemStore.valid_insert.
  - intros f Hf. eexists _, f. split; [done|]. split; [done|]. split; [|vm_compute; done].
    split; [repeat constructor; done | apply (bool_decide_unpack _); vm_compute; exact I].
Qed.

#[global] Instance still_safe : SafeKernel unit.
Proof. constructor. intros k n. apply is_bytes_zeros. Qed.

Lemma process_hello_ok : exists l paths, process_ok (process hello) l paths.
Proof.
  destruct hello_frames as (l & paths & Hok & Hf). exists l, paths. constructor.
  - split; [reflexivity|]. cbn. repeat (apply Forall_cons; split; [split; [done|]; split;
      [repeat constructor; done | apply (bool_decide_unpack _); vm_compute; exact I]|]). constructor.
  - split; [vm_compute; reflexivity | apply is_bytes_zeros].
  - exact note_fs_ok.
  - apply confined_refl; [exact Hok | exact hello_phys | exact Hf].
Qed.

Lemma linux_mmap_anonymous_witness :
  let r := linux_map_memory 0 100 3 0x22 None 0 (process demo) in
  r = Some (Val (linux_error LINUX_ENOMEM), process demo) \/
  exists a m', in_area 1 a /\ r = Some (Val a, with_cursor (a + 4096) (with_mm m' (process demo))).
Proof.
  intros r.
  destruct (linux_mmap_anonymous (process demo) demo_pages demo_paths 1 0 100 3 0x22 None 0 demo_as)
    as [E|(a & m' & l' & paths' & ps & Ha & _ & _ & _ & E)].
  - repeat (apply Forall_cons; split; [lia|]). constructor.
  - cbn. lia.
  - unfold is_u64. lia.
  - lia.
  - cbn. unfold USER_MMAP_BASE. lia.
  - lia.
  - reflexivity.
  - reflexivity.
  - reflexivity.
  - left. reflexivity.
  - reflexivity.
  - reflexivity.
  - left. exact E.
  - right. exists a, m'. split; [exact Ha | exact E].
Defined.

(** [munmap] accepts an address above the user area: the space left below the
    limit wraps around.  [mprotect] refuses it. *)
Lemma munmap_above_limit :
  let s := with_image [] (process demo) in
  linux_munmap 0xFFFF800000000000 4096 s = Some (Val 0, s) /\
  linux_mprotect 0xFFFF800000000000 4096 1 s = Some (Val (linux_error LINUX_EINVAL), s).
Proof. split; vm_compute; reflexivity. Qed.
