(* ===== verification/Accounts.v ===== *)
(** * Accounts and path access (helper/core/hfs.c)

    Accounts are files [/system/accounts/<name>.account] of three lines: name,
    password and permission id.  The file system is reached through
    [AccountStore]: paths are C strings with their terminator, relative ones are
    resolved in the working directory of the store. *)

From S2P Require Import Prelude CMonad CString FileStore Elf.

(** The string a pointer points to, with its terminator. *)
Definition c_string (b : bytes) : option bytes :=
  n ← strlen_loop b; slice b 0 (n + 1).

Class AccountStore (F : Type) `{ExecStore F} := {
  fs_chdir : F -> bytes -> option (Z * F);
  fs_mkdir : F -> bytes -> option (Z * F);
  fs_write : F -> bytes -> bytes -> option (Z * F);
  fs_read : F -> bytes -> Z -> option (Z * bytes * F);
}.

Definition clean_string (str : bytes) : option bytes :=
  len ← strlen_loop str;
  trim_loop is_blank (Z.to_nat len) str.

(** ** Path access *)

(** [while (p[0] == '/') p++;] *)
Fixpoint skip_slashes (p : bytes) : option bytes :=
  match p with
  | [] => None
  | c :: p' => if c =? c_slash then skip_slashes p' else Some p
  end.

(** [while (folder_start[i] != 0 && folder_start[i] != '/' && i < 63)], for at
    most [k] more characters: the characters stored in [target_folder]. *)
Fixpoint folder_loop (k : nat) (folder_start : bytes) : option bytes :=
  match k with
  | O => match folder_start with [] => None | _ => Some [] end
  | S k' =>
      c ← rd folder_start 0;
      if (c =? 0) || (c =? c_slash) then Some []
      else rest ← folder_loop k' (drop 1 folder_start); Some (c :: rest)
  end.

Definition is_letter (c : Z) : bool := ((65 <=? c) && (c <=? 90)) || ((97 <=? c) && (c <=? 122)).

(** [p] after the drive letter. *)
Definition skip_drive (target_path : bytes) : option bytes :=
  p0 ← rd target_path 0;
  if is_letter p0 then
    p1 ← rd target_path 1;
    Some (if p1 =? c_colon then drop 2 target_path else target_path)
  else Some target_path.

Definition system_can_access_path (username target_path : option bytes) : option Z :=
  match username, target_path with
  | Some username, Some target_path =>
      admin ← str_strcmp username (clit "admin");
      if admin =? 0 then Some 1 else
      p ← skip_drive target_path;
      p ← skip_slashes p;
      sys ← str_strncmp p (clit "system") 6;
      denied ← (if sys =? 0 then p6 ← rd p 6; Some ((p6 =? c_slash) || (p6 =? 0)) else Some false);
      if (denied : bool) then Some 0 else
      usr ← str_strncmp p (clit "users/") 6;
      if usr =? 0 then
        target_folder ← folder_loop 63 (drop 6 p);
        let target_folder := target_folder ++ zeros (64 - length target_folder) in
        t0 ← rd target_folder 0;
        if t0 =? 0 then Some 1
        else
          same ← str_strcmp target_folder username;
          Some (if same =? 0 then 1 else 0)
      else Some 1
  | _, _ => Some 0
  end.

(** ** Accounts *)

(** The loop over [buffer]: the stored password, after [buffer] is read to its
    terminator or to the end of its second line. *)
Fixpoint password_loop (buffer line_buf : bytes) (line idx : Z) (stored_password : bytes) : option bytes :=
  match buffer with
  | [] => None
  | c :: rest =>
      if c =? 0 then Some stored_password
      else if c =? c_cr then password_loop rest line_buf line idx stored_password
      else if c =? c_nl then
        line_buf ← wr line_buf idx 0;
        if line =? 1 then str_strcpy stored_password line_buf
        else password_loop rest line_buf (line + 1) 0 stored_password
      else if idx <? 127 then
        line_buf ← wr line_buf idx c;
        password_loop rest line_buf line (idx + 1) stored_password
      else password_loop rest line_buf line idx stored_password
  end.

(** The text of an account file, in its buffer. *)
Definition account_text (name password : bytes) (permission_id : Z) : option bytes :=
  perm_str ← str_itoa permission_id (zeros 16);
  buffer ← wr (zeros 256) 0 0;
  buffer ← str_strcpy buffer name;
  buffer ← str_strcat buffer [c_nl; 0];
  buffer ← str_strcat buffer password;
  buffer ← str_strcat buffer [c_nl; 0];
  buffer ← str_strcat buffer perm_str;
  str_strcat buffer [c_nl; 0].

Definition account_file (name : bytes) : option bytes :=
  filename ← str_strcpy (zeros 128) name;
  str_strcat filename (clit ".account").

Section Accounts.
Context {F : Type} `{AccountStore F}.

(** A call of the file system with C strings. *)
Definition call {A} (f : F -> option (A * F)) : M F A := fun s =>
  '(a, s) ← f s; Some (Val a, s).

Definition chdir (p : string) : M F unit := call (fun f => fs_chdir f (clit p));; mret tt.

(** The result, and [name] and [password] as the call leaves them. *)
Definition system_create_user (name password : option bytes) (permission_id : Z)
  : M F (Z * option bytes * option bytes) :=
  match name, password with
  | Some name, Some password =>
      n0 ← lift (rd name 0);
      if n0 =? 0 then mret (0, Some name, Some password) else
      name ← lift (clean_string name);
      password ← lift (clean_string password);
      filename ← lift (account_file name);
      buffer ← lift (account_text name password permission_id);
      filename ← lift (c_string filename);
      home ← lift (c_string name);
      chdir "/";;
      chdir "/system";;
      e ← call (fun f => fs_exists f (clit "accounts"));
      (if e =? 0 then call (fun f => fs_mkdir f (clit "accounts"));; mret tt else mret tt);;
      chdir "/system/accounts";;
      e ← call (fun f => fs_exists f filename);
      (if negb (e =? 0) then call (fun f => fs_delete f filename);; mret tt else mret tt);;
      rc ← call (fun f => fs_create f filename);
      if negb (rc =? 0) then chdir "/";; mret (0, Some name, Some password)
      else
        text ← lift (c_string buffer);
        call (fun f => fs_write f filename text);;
        chdir "/";;
        chdir "/users";;
        e ← call (fun f => fs_exists f home);
        (if e =? 0 then call (fun f => fs_mkdir f home);; mret tt else mret tt);;
        chdir "/";;
        mret (1, Some name, Some password)
  | _, _ => mret (0, name, password)
  end.

Definition system_verify_user (name password : option bytes) : M F Z := fn (
  match name, password with
  | Some name, Some password =>
      n0 ← lift (rd name 0);
      if n0 =? 0 then exit 0 else
      p0 ← lift (rd password 0);
      if p0 =? 0 then exit 0 else
      clean_name ← lift (str_strcpy (zeros 64) name);
      clean_pass ← lift (str_strcpy (zeros 64) password);
      clean_name ← lift (clean_string clean_name);
      clean_pass ← lift (clean_string clean_pass);
      filename ← lift (account_file clean_name);
      filename ← lift (c_string filename);
      chdir "/";;
      chdir "/system/accounts";;
      e ← call (fun f => fs_exists f filename);
      if e =? 0 then chdir "/";; exit 0 else
      '(bytes_read, data) ← call (fun f =>
         '(rc, data, f) ← fs_read f filename 511; Some ((rc, data), f));
      buffer ← lift (blit (zeros 512) 0 data);
      chdir "/";;
      if bytes_read <=? 0 then exit 0 else
      buffer ← lift (wr buffer bytes_read 0);
      stored_password ← lift (password_loop buffer (zeros 128) 0 0 (zeros 128));
      r ← lift (str_strcmp clean_pass stored_password);
      mret (if r =? 0 then 1 else 0)
  | _, _ => exit 0
  end).

End Accounts.
