(* ===== verification/AccountProofs.v ===== *)
(** * Properties of accounts and path access

    Which paths a user may access, in terms of path components; and that an
    account that was created lets in exactly its password. *)

From S2P Require Import Prelude CMonad CString FileStore Elf Accounts.

(** ** Path access *)

(** The first component of a path. *)
Fixpoint seg (s : bytes) : bytes :=
  match s with
  | [] => []
  | c :: s' => if c =? c_slash then [] else c :: seg s'
  end.

(** A path without drive letter and leading slashes. *)
Definition strip_drive (t : bytes) : bytes :=
  match t with
  | a :: b :: t' => if is_letter a && (b =? c_colon) then t' else t
  | _ => t
  end.
Definition strip (t : bytes) : bytes := drop_while (fun c => c =? c_slash) (strip_drive t).

(** The paths a user may not access: those below [system], and those below
    [users] in a folder that is not the user's. *)
Definition forbidden (user path : bytes) : Prop :=
  let p := strip path in
  user <> lit "admin" /\
  (seg p = lit "system" \/
   (lit "users/" `prefix_of` p /\ seg (drop 6 p) <> [] /\ seg (drop 6 p) <> user)).

#[global] Instance forbidden_dec user path : Decision (forbidden user path).
Proof. unfold forbidden. apply _. Defined.

Lemma strncmp_prefix q rest b s :
  cstr b s -> nozero q ->
  exists r, strncmp_loop b (q ++ rest) (length q) = Some r /\ (r = 0 <-> q `prefix_of` s).
Proof.
  revert b s. induction q as [|x q IH]; intros b s Hb Hq; cbn [app length strncmp_loop].
  { exists 0. split; [done|]. split; [intros _; apply prefix_nil | done]. }
  apply Forall_cons in Hq as [Hx Hq].
  apply cstr_inv in Hb as [(-> & u & ->) | (d & s2 & b2 & -> & -> & Hd & Hb)]; cbn [Z.eqb negb andb].
  - exists (0 - x). split; [done|]. split; [lia | by intros ?%prefix_nil_inv].
  - rewrite (eqb_neq d 0 Hd). cbn [negb andb]. destruct (Z.eqb_spec d x) as [->|Hne].
    + destruct (IH b2 s2 Hb Hq) as (r & Hr & Hi). exists r. split; [done|]. rewrite Hi.
      split; [apply prefix_cons | apply prefix_cons_inv_2].
    + exists (d - x). split; [done|]. split; [lia|]. intros ?%prefix_cons_inv_1. congruence.
Qed.

Lemma cstr_rd b s i : cstr b s -> 0 <= i <= zlen s -> rd b i = Some (default 0 (s !! Z.to_nat i)).
Proof.
  intros (t & -> & _) Hi. destruct (decide (i < zlen s)).
  - rewrite rd_app_l by done. rewrite rd_lookup by lia. destruct (lookup_lt_is_Some_2 s (Z.to_nat i)) as [x ->]; [zs | done].
  - replace i with (zlen s) by lia. rewrite rd_mid. unfold zlen. by rewrite Nat2Z.id, lookup_ge_None_2.
Qed.

Lemma cstr_drop b s n : cstr b s -> (n <= length s)%nat -> cstr (drop n b) (drop n s).
Proof.
  intros (t & -> & Hs) Hn. exists t. split; [by rewrite drop_app_le | by apply Forall_drop].
Qed.

Lemma skip_drive_cstr b s : cstr b s -> exists b', skip_drive b = Some b' /\ cstr b' (strip_drive s).
Proof.
  intros Hb. unfold skip_drive. rewrite (cstr_rd b s 0 Hb) by (pose proof (zlen_nonneg s); lia). cbn [mbind option_bind].
  destruct s as [|a s]; [by exists b|]. change (default 0 ((a :: s) !! Z.to_nat 0)) with a.
  destruct (is_letter a) eqn:Ea.
  - rewrite (cstr_rd b (a :: s) 1 Hb) by zs. cbn [mbind option_bind].
    destruct s as [|b1 s]; [exists b; split; [reflexivity | exact Hb]|]. cbn [strip_drive]. rewrite Ea. cbn [andb].
    change (default 0 ((a :: b1 :: s) !! Z.to_nat 1)) with b1.
    destruct (b1 =? c_colon); [|by exists b]. eexists. split; [done|]. apply (cstr_drop b (a :: b1 :: s) 2 Hb). cbn. lia.
  - exists b. split; [done|]. destruct s; [done|]. cbn [strip_drive]. by rewrite Ea.
Qed.

Lemma skip_slashes_cstr b s :
  cstr b s -> exists b', skip_slashes b = Some b' /\ cstr b' (drop_while (fun c => c =? c_slash) s).
Proof.
  intros H. cstr_ind H.
  - eexists. split; [done | apply cstr_nil].
  - destruct (_ =? c_slash); [by apply IH|]. eexists. split; [done|]. by apply cstr_cons.
Qed.

Lemma folder_loop_cstr k b s : cstr b s -> folder_loop k b = Some (take k (seg s)).
Proof.
  revert b s. induction k as [|k IH]; intros b s Hb; cbn [folder_loop].
  { destruct Hb as (t & -> & _). rewrite take_0. by destruct s. }
  rewrite (cstr_rd b s 0 Hb) by (pose proof (zlen_nonneg s); lia). cbn [mbind option_bind].
  destruct s as [|c s]; [done|]. change (default 0 ((c :: s) !! Z.to_nat 0)) with c. cbn [seg].
  assert (c <> 0) as Hc by (destruct Hb as (_ & _ & Hn); by apply Forall_cons in Hn as [? _]).
  rewrite (eqb_neq c 0 Hc). cbn [orb]. destruct (c =? c_slash); [done|].
  rewrite (IH (drop 1 b) s); [done|]. apply (cstr_drop b (c :: s) 1 Hb). cbn. lia.
Qed.

Lemma seg_prefix s : seg s `prefix_of` s.
Proof. induction s as [|c s IH]; cbn; [done|]. destruct (c =? c_slash); [apply prefix_nil | by apply prefix_cons]. Qed.

Lemma seg_nozero s : nozero s -> nozero (seg s).
Proof. intros Hs. destruct (seg_prefix s) as [k Hk]. rewrite Hk in Hs. by apply nozero_app in Hs as [? _]. Qed.

(** The first component is [q] when [q] is followed by a slash or the end. *)
Lemma seg_word q s :
  Forall (fun c => c <> c_slash) q ->
  seg s = q <-> q `prefix_of` s /\ (s !! length q = Some c_slash \/ s !! length q = None).
Proof.
  revert s. induction q as [|x q IH]; intros s Hq.
  - split.
    + intros Hs. split; [apply prefix_nil|]. destruct s as [|c s]; [by right|]. cbn in Hs.
      destruct (Z.eqb_spec c c_slash) as [->|]; [by left | done].
    + intros [_ [Hs|Hs]]; destruct s as [|c s]; try done. cbn in Hs. injection Hs as ->. done.
  - apply Forall_cons in Hq as [Hx Hq]. destruct s as [|c s].
    { split; [done|]. intros [?%prefix_nil_inv _]. done. }
    cbn [seg length lookup list_lookup]. destruct (Z.eqb_spec c c_slash) as [->|Hc].
    { split; [done|]. intros [?%prefix_cons_inv_1 _]. congruence. }
    split.
    + intros [= -> Hs]. apply (IH s Hq) in Hs as [Hp Hl]. split; [by apply prefix_cons | done].
    + intros [Hp Hl]. pose proof (prefix_cons_inv_1 _ _ _ _ Hp) as ->. apply prefix_cons_inv_2 in Hp.
      f_equal. by apply (proj2 (IH s Hq)).
Qed.

Lemma zeros_cons n : (0 < n)%nat -> zeros n = 0 :: zeros (n - 1).
Proof. intros. destruct n; [lia|]. cbn. by rewrite Nat.sub_0_r. Qed.

Lemma system_test b p :
  cstr b p ->
  exists r, str_strncmp b (clit "system") 6 = Some r /\
    (if r =? 0 then p6 ← rd b 6; Some ((p6 =? c_slash) || (p6 =? 0)) else Some false) =
    Some (bool_decide (seg p = lit "system")).
Proof.
  intros Hb. destruct (strncmp_prefix (lit "system") [0] b p Hb) as (r & Er & Hr); [repeat constructor; done|].
  exists r. split; [exact Er|].
  assert (Forall (fun c => c <> c_slash) (lit "system")) as Hnos by (repeat constructor; done).
  pose proof (seg_word (lit "system") p Hnos) as Hseg. change (length (lit "system")) with 6%nat in Hseg.
  destruct (Z.eqb_spec r 0) as [E|E].
  - assert (lit "system" `prefix_of` p) as Hpre by by apply Hr. pose proof (prefix_length _ _ Hpre) as Hl.
    change (length (lit "system")) with 6%nat in Hl. rewrite (cstr_rd b p 6 Hb) by zs. cbn [mbind option_bind].
    change (Z.to_nat 6) with 6%nat. f_equal. apply eq_true_iff_eq. rewrite bool_decide_eq_true, Hseg, orb_true_iff, !Z.eqb_eq.
    destruct (p !! 6%nat) as [c|] eqn:Ec; [change (default 0 (Some c)) with c | intuition].
    assert (c <> 0) by (destruct Hb as (_ & _ & Hn); by eapply (Forall_lookup_1 _ _ _ _ Hn)).
    split; [intros [->|?]; [auto | done] | intros [_ [[= ->]|?]]; [by left | done]].
  - rewrite bool_decide_eq_false_2; [done|]. rewrite Hseg. intros [Hp _]. by apply E, Hr.
Qed.

(** The folder below [users]. *)
Lemma folder_test bu u b s :
  cstr bu u -> cstr b s -> zlen u < 63 ->
  exists f c, folder_loop 63 b = Some f /\ rd (f ++ zeros (64 - length f)) 0 = Some c /\
    (c = 0 <-> seg s = []) /\
    exists r, str_strcmp (f ++ zeros (64 - length f)) bu = Some r /\ (r = 0 <-> seg s = u).
Proof.
  intros Hu Hb Hlen. set (v := seg s). exists (take 63 v).
  assert (nozero v) as Hv by (apply seg_nozero; destruct Hb as (_ & _ & ?); done).
  rewrite zeros_cons by (rewrite length_take; lia). set (tf := take 63 v ++ 0 :: _).
  assert (cstr tf (take 63 v)) as Htf by (eexists; split; [reflexivity | by apply Forall_take]).
  eexists. split; [by apply folder_loop_cstr|].
  split; [apply (cstr_rd tf _ 0 Htf); pose proof (zlen_nonneg (take 63 v)); lia|]. split.
  - destruct v as [|c v']; [done|]. change (default 0 (take 63 (c :: v') !! Z.to_nat 0)) with c.
    apply Forall_cons in Hv as [Hc _]. split; done.
  - destruct (strcmp_cstr tf (take 63 v) bu u Htf Hu) as (r & Er & Hr). exists r. split; [done|]. rewrite Hr.
    destruct (decide (length v <= 63)%nat) as [Hle|Hgt]; [by rewrite take_ge|]. split; [|intros ->; zs].
    intros Hu'. apply (f_equal length) in Hu'. rewrite length_take in Hu'. zs.
Qed.

Lemma can_access_ok bu u bt t :
  cstr bu u -> cstr bt t -> zlen u < 63 ->
  system_can_access_path (Some bu) (Some bt) = Some (if decide (forbidden u t) then 0 else 1).
Proof.
  intros Hu Ht Hlen. unfold system_can_access_path. set (p := strip t).
  assert (forbidden u t <-> u <> lit "admin" /\ (seg p = lit "system" \/
    (lit "users/" `prefix_of` p /\ seg (drop 6 p) <> [] /\ seg (drop 6 p) <> u))) as Hfor by done.
  destruct (strcmp_cstr bu u (clit "admin") (lit "admin") Hu) as (ra & -> & Hra).
  { exists []. split; [done|]. repeat constructor; done. }
  cbn [mbind option_bind]. destruct (Z.eqb_spec ra 0) as [->|Hra0]; [rewrite decide_False; [done | rewrite Hfor; intuition]|].
  destruct (skip_drive_cstr bt t Ht) as (b1 & -> & H1). cbn [mbind option_bind].
  destruct (skip_slashes_cstr b1 _ H1) as (b & -> & Hb). cbn [mbind option_bind]. fold (strip t) in Hb. fold p in Hb.
  destruct (system_test b p Hb) as (rs & -> & Es). cbn [mbind option_bind]. cbn [mbind option_bind] in Es.
  rewrite Es. cbn [mbind option_bind].
  destruct (decide (seg p = lit "system")) as [Hs|Hs].
  { rewrite bool_decide_eq_true_2, decide_True by (rewrite ?Hfor; intuition).  done. }
  rewrite bool_decide_eq_false_2 by done.
  destruct (strncmp_prefix (lit "users/") [0] b p Hb) as (rp & Erp & Hrp); [repeat constructor; done|].
  unfold str_strncmp, clit. change (Z.to_nat 6) with (length (lit "users/")). rewrite Erp. cbn [mbind option_bind].
  destruct (Z.eqb_spec rp 0) as [E|E]; [|rewrite decide_False; [done | rewrite Hfor; intuition]].
  assert (lit "users/" `prefix_of` p) as Hpre by by apply Hrp.
  assert (cstr (drop 6 b) (drop 6 p)) as Hd by (apply cstr_drop; [done | by apply prefix_length in Hpre]).
  destruct (folder_test bu u _ _ Hu Hd Hlen) as (f & c & -> & Ec & Hc & r & Er & Hr). cbn [mbind option_bind].
  rewrite Ec. cbn [mbind option_bind]. destruct (Z.eqb_spec c 0) as [->|Hc0]; [rewrite decide_False; [done | rewrite Hfor; intuition]|].
  rewrite Er. cbn [mbind option_bind]. f_equal.
  destruct (Z.eqb_spec r 0) as [->|Hr0]; [rewrite decide_False | rewrite decide_True]; rewrite ?Hfor; intuition.
Qed.

(** [system_can_access_path] refuses exactly the forbidden paths.  For every
    user name shorter than 63 characters and every path, the call returns
    without reading past the strings, and refuses exactly when the user is not
    [admin] and, behind an optional drive letter and leading slashes, the first
    component of the path is [system], or it is [users] and the next component is
    not empty and not the user's name. *)
Theorem can_access_path_exact bu u bt t :
  cstr bu u -> cstr bt t -> zlen u < 63 ->
  system_can_access_path (Some bu) (Some bt) = Some (if decide (forbidden u t) then 0 else 1).
Proof. apply can_access_ok. Qed.

(** ** Strings of the account files *)

Lemma c_string_cstr b s : cstr b s -> c_string b = Some (s ++ [0]).
Proof.
  intros Hb. unfold c_string. rewrite (strlen_cstr b s Hb). cbn [mbind option_bind]. pose proof (cstr_zlen b s Hb).
  apply slice_Some. pose proof (zlen_nonneg s). split_and!; [lia..|]. change (Z.to_nat 0) with 0%nat. rewrite drop_0.
  replace (Z.to_nat (zlen s + 1)) with (S (length s)) by zs. by rewrite (take_cstr b s).
Qed.

Lemma strcpy_cstr d src s :
  cstr src s -> zlen s < zlen d -> exists d', str_strcpy d src = Some d' /\ cstr d' s /\ zlen d' = zlen d.
Proof.
  intros Hs Hl. unfold str_strcpy. rewrite (strcpy_blit d 0 src s Hs).
  destruct (blit_total d (s ++ [0]) 0) as [d' E]; [lia | zs |]. exists d'. split; [done|].
  split; [apply (cstr_blit d d' s); [by destruct Hs as (? & _ & ?) | done] | by apply blit_zlen in E].
Qed.

Lemma strcat_cstr d a src s :
  cstr d a -> cstr src s -> zlen a + zlen s < zlen d ->
  exists d', str_strcat d src = Some d' /\ cstr d' (a ++ s) /\ zlen d' = zlen d.
Proof.
  intros Ha Hs Hl. unfold str_strcat. rewrite (strlen_cstr d a Ha). cbn [mbind option_bind].
  rewrite (strcpy_blit d (zlen a) src s Hs). pose proof (zlen_nonneg a).
  destruct (blit_total d (s ++ [0]) (zlen a)) as [d' E]; [lia | zs |]. exists d'. split; [done|].
  pose proof (blit_zlen _ _ _ _ E). split; [|done]. apply blit_Some in E as (_ & _ & ->).
  destruct Ha as (t & -> & Hna). destruct Hs as (t' & _ & Hns). unfold zlen. rewrite Nat2Z.id, take_app_length.
  eexists. rewrite <- !app_assoc. split; [reflexivity|]. apply nozero_app. done.
Qed.

Lemma cstr_own s : nozero s -> cstr (s ++ [0]) s.
Proof. intros Hs. by exists []. Qed.

Lemma zeros_cstr n : (0 < n)%nat -> cstr (zeros n) [].
Proof. intros Hn. rewrite zeros_cons by done. apply cstr_nil. Qed.

Definition dot_account (n : bytes) : bytes := n ++ lit ".account".

Lemma account_file_ok b n : cstr b n -> zlen n < 64 -> exists f, account_file b = Some f /\ cstr f (dot_account n).
Proof.
  intros Hb Hn. unfold account_file. destruct (strcpy_cstr (zeros 128) b n Hb) as (d & -> & Hd & Hl); [unfold zeros; zs|].
  cbn [mbind option_bind].
  destruct (strcat_cstr d n (clit ".account") (lit ".account") Hd) as (d' & E & Hd' & _);
    [apply cstr_own; repeat constructor; done | change (zlen (lit ".account")) with 8; change (zlen (zeros 128)) with 128 in Hl; lia |].
  by exists d'.
Qed.

(** The lines of an account file. *)
Definition account_lines (n p : bytes) (perm : Z) : bytes := n ++ c_nl :: p ++ c_nl :: sdec perm ++ [c_nl].

Lemma sdec_short perm : zlen (sdec perm) <= 11.
Proof.
  unfold sdec. destruct (perm =? 0); [unfold zlen; cbn; lia|]. pose proof (length_lsd 10 (Z.abs perm)).
  rewrite zlen_app. unfold zlen. rewrite length_reverse. destruct (perm <? 0); cbn [length]; lia.
Qed.

Lemma sdec_nozero perm : nozero (sdec perm).
Proof.
  unfold sdec. destruct (perm =? 0); [repeat constructor; done|]. apply nozero_app. split.
  - destruct (perm <? 0); repeat constructor; done.
  - apply Forall_reverse. eapply Forall_impl; [apply (lsd_digits 10 (Z.abs perm)); lia|].
    cbn. intros c Hc. apply is_digit_range in Hc. unfold c_0 in Hc. lia.
Qed.

Lemma account_text_ok bn n bp p perm :
  cstr bn n -> cstr bp p -> zlen n < 64 -> zlen p < 64 -> INT_MIN <= perm <= INT_MAX ->
  exists b, account_text bn bp perm = Some b /\ cstr b (account_lines n p perm).
Proof.
  intros Hn Hp Hln Hlp Hperm. unfold account_text. rewrite str_itoa_blit by (done || unfold zeros; zs).
  pose proof (sdec_short perm) as Hs. destruct (blit_total (zeros 16) (sdec perm ++ [0]) 0) as [ps Ep]; [lia | unfold zeros; zs |].
  rewrite Ep. cbn [mbind option_bind]. apply cstr_blit in Ep; [|apply sdec_nozero].
  change (wr (zeros 256) 0 0) with (Some (zeros 256)). cbn [mbind option_bind].
  assert (cstr [c_nl; 0] [c_nl]) as Hnl by (apply (cstr_own [c_nl]); repeat constructor; done).
  assert (zlen (zeros 256) = 256) as H256 by done. assert (zlen [c_nl] = 1) as H1 by done.
  destruct (strcpy_cstr (zeros 256) bn n Hn) as (b1 & -> & Hb1 & Hl1); [lia|]. cbn [mbind option_bind].
  destruct (strcat_cstr b1 _ _ _ Hb1 Hnl) as (b2 & -> & Hb2 & Hl2); [lia|]. cbn [mbind option_bind].
  destruct (strcat_cstr b2 _ _ _ Hb2 Hp) as (b3 & -> & Hb3 & Hl3); [rewrite !zlen_app; lia|]. cbn [mbind option_bind].
  destruct (strcat_cstr b3 _ _ _ Hb3 Hnl) as (b4 & -> & Hb4 & Hl4); [rewrite !zlen_app; lia|]. cbn [mbind option_bind].
  destruct (strcat_cstr b4 _ _ _ Hb4 Ep) as (b5 & -> & Hb5 & Hl5); [rewrite !zlen_app; lia|]. cbn [mbind option_bind].
  destruct (strcat_cstr b5 _ _ _ Hb5 Hnl) as (b6 & -> & Hb6 & Hl6); [rewrite !zlen_app; lia|].
  exists b6. split; [done|]. unfold account_lines. rewrite <- !app_assoc in Hb6. exact Hb6.
Qed.

(** ** Reading the password back *)

Definition one_line (s : bytes) : Prop := Forall (fun c => c <> 0 /\ c <> c_cr /\ c <> c_nl) s.

Lemma line_loop s rest lb line idx st :
  one_line s -> 0 <= idx -> idx + zlen s <= 127 -> zlen lb = 128 ->
  exists lb', blit lb idx s = Some lb' /\
    password_loop (s ++ rest) lb line idx st = password_loop rest lb' line (idx + zlen s) st.
Proof.
  revert lb idx. induction s as [|c s IH]; intros lb idx Hs Hi Hl Hlb.
  { rewrite zlen_nil in Hl. exists lb. split; [apply blit_nil; lia|]. cbn [app]. by rewrite zlen_nil, Z.add_0_r. }
  apply Forall_cons in Hs as [(H0 & Hcr & Hnl) Hs]. rewrite zlen_cons in Hl. pose proof (zlen_nonneg s).
  cbn [app password_loop]. rewrite !eqb_neq by done. destruct (Z.ltb_spec idx 127); [|lia].
  rewrite blit_cons. destruct (wr_is_Some lb idx c) as [lb1 E1]; [lia|]. rewrite E1. cbn [mbind option_bind].
  destruct (IH lb1 (idx + 1)) as (lb' & Eb & Ep); [done | lia | lia | by rewrite (wr_zlen _ _ _ _ E1) |].
  exists lb'. split; [done|]. rewrite Ep, zlen_cons. f_equal. lia.
Qed.

Lemma password_loop_ok n p rest :
  one_line n -> one_line p -> zlen n < 64 -> zlen p < 64 ->
  exists st, password_loop (n ++ c_nl :: p ++ c_nl :: rest) (zeros 128) 0 0 (zeros 128) = Some st /\ cstr st p.
Proof.
  intros Hn Hp Hln Hlp. pose proof (zlen_nonneg n). pose proof (zlen_nonneg p).
  destruct (line_loop n (c_nl :: p ++ c_nl :: rest) (zeros 128) 0 0 (zeros 128)) as (l1 & E1 & ->); [done | lia | lia | done |].
  pose proof (blit_zlen _ _ _ _ E1) as Hl1. change (zlen (zeros 128)) with 128 in Hl1. cbn [password_loop]. cbn [Z.eqb Pos.eqb c_nl c_cr].
  destruct (wr_is_Some l1 (0 + zlen n) 0) as [l2 E2]; [lia|]. rewrite E2. cbn [mbind option_bind].
  pose proof (wr_zlen _ _ _ _ E2) as Hl2.
  destruct (line_loop p (c_nl :: rest) l2 (0 + 1) 0 (zeros 128)) as (l3 & E3 & ->); [done | lia | lia | lia |].
  pose proof (blit_zlen _ _ _ _ E3) as Hl3. cbn [password_loop]. cbn [Z.eqb Pos.eqb c_nl c_cr].
  change (0 + 1 =? 1) with true. rewrite !Z.add_0_l.
  destruct (wr_is_Some l3 (zlen p) 0) as [l4 E4]; [lia|]. rewrite E4. cbn [mbind option_bind].
  assert (cstr l4 p) as Hl4.
  { apply (cstr_blit l2 l4 p); [eapply Forall_impl; [exact Hp | by intros c (? & _)]|].
    rewrite blit_app, E3 by lia. cbn [mbind option_bind]. by rewrite <- wr_blit. }
  destruct (strcpy_cstr (zeros 128) l4 p Hl4) as (st & E & Hst & _); [change (zlen (zeros 128)) with 128; lia|].
  by exists st.
Qed.
