(* ===== verification/AccountLogin.v ===== *)
(** * Creating an account and logging in

    What the accounts need of a file system that is not failing, and the round
    trip: an account that was created lets in exactly its password. *)

From S2P Require Import Prelude CString FileStore CMonad Elf Accounts AccountProofs.

(** The nodes of a tree: the contents of a file, [None] for a directory; a node is
    named by its directory and its name, both C strings with terminator. *)
Abbreviation tree := (gmap (bytes * bytes) (option bytes)).

Definition plain (p : bytes) : Prop := Forall (fun c => c <> c_slash) p.

(** [view f d ds ns]: the working directory of [f] is [d], the directories [ds]
    exist, and the nodes are [ns]. *)
Class LawfulAccounts (F : Type) `{AccountStore F} := {
  view : F -> bytes -> gset bytes -> tree -> Prop;
  acc_chdir f d ds ns p :
    view f d ds ns -> p ∈ ds -> exists f', fs_chdir f p = Some (0, f') /\ view f' p ds ns;
  acc_exists f d ds ns p :
    view f d ds ns -> plain p ->
    exists f', fs_exists f p = Some (match ns !! (d, p) with Some _ => 1 | None => 0 end, f') /\ view f' d ds ns;
  acc_mkdir f d ds ns p :
    view f d ds ns -> plain p -> ns !! (d, p) = None ->
    exists f', fs_mkdir f p = Some (0, f') /\ view f' d ds (<[(d, p) := None]> ns);
  acc_create f d ds ns p :
    view f d ds ns -> plain p -> ns !! (d, p) = None ->
    exists f', fs_create f p = Some (0, f') /\ view f' d ds (<[(d, p) := Some []]> ns);
  acc_delete f d ds ns p c :
    view f d ds ns -> plain p -> ns !! (d, p) = Some (Some c) ->
    exists f', fs_delete f p = Some (1, f') /\ view f' d ds (delete (d, p) ns);
  acc_write f d ds ns p c t :
    view f d ds ns -> plain p -> ns !! (d, p) = Some (Some c) -> nozero t ->
    exists f', fs_write f p (t ++ [0]) = Some (0, f') /\ view f' d ds (<[(d, p) := Some t]> ns);
  acc_read f d ds ns p c k :
    view f d ds ns -> plain p -> ns !! (d, p) = Some (Some c) -> 0 < k <= INT_MAX ->
    let r := take (Z.to_nat k) c in
    exists f', fs_read f p k = Some (zlen r, r, f') /\ view f' d ds ns;
}.

Definition ROOT : bytes := clit "/".
Definition SYSTEM : bytes := clit "/system".
Definition ACCOUNTS : bytes := clit "/system/accounts".
Definition USERS : bytes := clit "/users".

(** An installed system. *)
Record installed (ds : gset bytes) (ns : tree) : Prop := {
  in_dirs : Forall (fun p => p ∈ ds) [ROOT; SYSTEM; ACCOUNTS; USERS];
  in_accounts : ns !! (SYSTEM, clit "accounts") = Some None;
}.

(** A user name or password as the accounts store it. *)
Definition login_word (s : bytes) : Prop := one_line s /\ zlen s < 64.

Section Login.
Context {F : Type} `{LawfulAccounts F}.

Lemma call_run {A} (g : F -> option (A * F)) f a f' : g f = Some (a, f') -> call g f = Some (Val a, f').
Proof. unfold call. by intros ->. Qed.

Lemma chdir_run f d ds ns p :
  view f d ds ns -> clit p ∈ ds -> exists f', chdir p f = Some (Val tt, f') /\ view f' (clit p) ds ns.
Proof.
  intros Hv Hp. destruct (acc_chdir f d ds ns (clit p) Hv Hp) as (f' & E & Hv'). exists f'. split; [|done].
  unfold chdir. by mrun (call_run (fun f => fs_chdir f (clit p)) f 0 f' E).
Qed.

Lemma exists_run f d ds ns p :
  view f d ds ns -> plain p ->
  exists f', call (fun f => fs_exists f p) f = Some (Val (match ns !! (d, p) with Some _ => 1 | None => 0 end), f') /\
    view f' d ds ns.
Proof. intros Hv Hp. destruct (acc_exists f d ds ns p Hv Hp) as (f' & E & Hv'). exists f'. split; [by apply call_run | done]. Qed.

(** Create the directory when it is missing. *)
Lemma ensure_dir f d ds ns p :
  view f d ds ns -> plain p ->
  exists f' ns', (e ← call (fun f => fs_exists f p);
     if e =? 0 then call (fun f => fs_mkdir f p);; mret tt else mret tt) f = Some (Val tt, f') /\
    view f' d ds ns' /\ forall k, k <> (d, p) -> ns' !! k = ns !! k.
Proof.
  intros Hv Hp. destruct (exists_run f d ds ns p Hv Hp) as (f1 & E1 & Hv1). destruct (ns !! (d, p)) as [x|] eqn:En.
  - exists f1, ns. split; [|done]. by mrun E1.
  - destruct (acc_mkdir f1 d ds ns p Hv1 Hp En) as (f2 & E2 & Hv2). exists f2, (<[(d, p) := None]> ns). split; [|split; [done|]].
    + mrun E1. cbn [Z.eqb]. by mrun (call_run (fun f => fs_mkdir f p) f1 0 f2 E2).
    + intros k Hk. by apply lookup_insert_ne.
Qed.

(** Replace a file by an empty one. *)
Lemma fresh_file f d ds ns p :
  view f d ds ns -> plain p -> ns !! (d, p) <> Some None ->
  exists f1 f2, (e ← call (fun f => fs_exists f p);
     if negb (e =? 0) then call (fun f => fs_delete f p);; mret tt else mret tt) f = Some (Val tt, f1) /\
    call (fun f => fs_create f p) f1 = Some (Val 0, f2) /\ view f2 d ds (<[(d, p) := Some []]> ns).
Proof.
  intros Hv Hp Hn. destruct (exists_run f d ds ns p Hv Hp) as (f1 & E1 & Hv1). destruct (ns !! (d, p)) as [[c|]|] eqn:En; [|done|].
  - destruct (acc_delete f1 d ds ns p c Hv1 Hp En) as (f2 & E2 & Hv2).
    destruct (acc_create f2 d ds (delete (d, p) ns) p Hv2 Hp) as (f3 & E3 & Hv3); [apply lookup_delete_eq|].
    exists f2, f3. split; [mrun E1; cbn [Z.eqb negb]; by mrun (call_run (fun f => fs_delete f p) f1 1 f2 E2)|].
    split; [by apply call_run|]. by rewrite insert_delete_eq in Hv3.
  - destruct (acc_create f1 d ds ns p Hv1 Hp En) as (f2 & E2 & Hv2). exists f1, f2. split; [by mrun E1|].
    split; [by apply call_run | done].
Qed.

Lemma bind_seq {A B C} (m : M F A) (k : A -> M F B) (k' : B -> M F C) f b f' :
  (m ≫= k) f = Some (Val b, f') -> (m ≫= fun a => k a ≫= k') f = k' b f'.
Proof. intros E. rewrite <- bind_assoc. by mrun E. Qed.

Lemma clean_run b s : cstr b s -> exists b', clean_string b = Some b' /\ cstr b' (rtrim is_blank s).
Proof.
  intros Hb. unfold clean_string. rewrite (strlen_cstr b s Hb). cbn [mbind option_bind]. unfold zlen. rewrite Nat2Z.id.
  destruct (trim_cstr is_blank b s Hb) as (b' & E & Hb' & _). by exists b'.
Qed.

Lemma cstr_head b s : cstr b s -> s <> [] -> exists c, rd b 0 = Some c /\ c <> 0.
Proof.
  intros (t & -> & Hs) Hne. destruct s as [|c s]; [done|]. exists c. split; [done|]. by apply Forall_cons in Hs as [? _].
Qed.

(** The file of an account. *)
Definition account_key (n : bytes) : bytes * bytes := (ACCOUNTS, dot_account n ++ [0]).

Lemma plain_account n : plain n -> plain (dot_account n ++ [0]).
Proof. intros Hn. unfold plain, dot_account. rewrite !Forall_app. split_and!; [done | repeat constructor; done ..]. Qed.

Lemma plain_home n : plain n -> plain (n ++ [0]).
Proof. intros Hn. unfold plain. rewrite Forall_app. split; [done | repeat constructor; done]. Qed.

Lemma installed_dir ds ns p : installed ds ns -> p ∈ [ROOT; SYSTEM; ACCOUNTS; USERS] -> p ∈ ds.
Proof. intros [Hin _] Hp. exact (proj1 (Forall_forall _ _) Hin p Hp). Qed.

Lemma create_ok f d ds ns bn n bp p perm :
  view f d ds ns -> installed ds ns -> cstr bn n -> cstr bp p -> n <> [] -> INT_MIN <= perm <= INT_MAX ->
  let n' := rtrim is_blank n in let p' := rtrim is_blank p in
  login_word n' -> login_word p' -> plain n' -> ns !! account_key n' <> Some None ->
  exists f' bn' bp' ns', cstr bn' n' /\ cstr bp' p' /\ view f' ROOT ds ns' /\
    ns' !! account_key n' = Some (Some (account_lines n' p' perm)) /\
    (forall k, k <> account_key n' -> k <> (USERS, n' ++ [0]) -> ns' !! k = ns !! k) /\
    system_create_user (Some bn) (Some bp) perm f = Some (Val (1, Some bn', Some bp'), f').
Proof.
  intros Hv Hin Hn Hp Hne Hperm n' p' [Hn1 Hnl] [Hp1 Hpl] Hplain Hfile.
  pose proof (in_accounts _ _ Hin) as Hacc. destruct (clean_run bn n Hn) as (bn' & En & Hbn). destruct (clean_run bp p Hp) as (bp' & Ep & Hbp).
  destruct (account_file_ok bn' n' Hbn Hnl) as (fb & Ef & Hfb).
  destruct (account_text_ok bn' n' bp' p' perm Hbn Hbp Hnl Hpl Hperm) as (tb & Et & Htb).
  destruct (cstr_head bn n Hn Hne) as (c0 & E0 & Hc0). set (file := dot_account n' ++ [0]).
  assert (plain file) as Hpf by by apply plain_account. assert (plain (n' ++ [0])) as Hph by by apply plain_home.
  assert (plain (clit "accounts")) as Hpa by (repeat constructor; done).
  destruct (chdir_run f d ds ns "/" Hv) as (f1 & E1 & Hv1); [by apply (installed_dir ds ns); [|repeat (apply list_elem_of_here || apply list_elem_of_further)]|].
  destruct (chdir_run f1 _ ds ns "/system" Hv1) as (f2 & E2 & Hv2); [by apply (installed_dir ds ns); [|repeat (apply list_elem_of_here || apply list_elem_of_further)]|].
  destruct (exists_run f2 _ ds ns (clit "accounts") Hv2 Hpa) as (f3 & E3 & Hv3). fold SYSTEM in E3, Hv3. rewrite Hacc in E3.
  destruct (chdir_run f3 _ ds ns "/system/accounts" Hv3) as (f4 & E4 & Hv4); [by apply (installed_dir ds ns); [|repeat (apply list_elem_of_here || apply list_elem_of_further)]|].
  destruct (fresh_file f4 _ ds ns file Hv4 Hpf Hfile) as (f5 & f6 & E5 & E6 & Hv6).
  destruct (acc_write f6 _ ds _ file [] (account_lines n' p' perm) Hv6 Hpf) as (f7 & E7 & Hv7);
    [apply lookup_insert_eq | by destruct Htb as (_ & _ & ?) |]. rewrite insert_insert_eq in Hv7.
  destruct (chdir_run f7 _ ds _ "/" Hv7) as (f8 & E8 & Hv8); [by apply (installed_dir ds ns); [|repeat (apply list_elem_of_here || apply list_elem_of_further)]|].
  destruct (chdir_run f8 _ ds _ "/users" Hv8) as (f9 & E9 & Hv9); [by apply (installed_dir ds ns); [|repeat (apply list_elem_of_here || apply list_elem_of_further)]|].
  destruct (ensure_dir f9 _ ds _ (n' ++ [0]) Hv9 Hph) as (f10 & ns' & E10 & Hv10 & Hother).
  destruct (chdir_run f10 _ ds _ "/" Hv10) as (f11 & E11 & Hv11); [by apply (installed_dir ds ns); [|repeat (apply list_elem_of_here || apply list_elem_of_further)]|].
  exists f11, bn', bp', ns'. split; [done|]. split; [done|]. split; [done|]. split; [|split].
  - rewrite Hother by done. apply lookup_insert_eq.
  - intros k Hk Hk'. rewrite Hother by done. by rewrite lookup_insert_ne.
  - unfold system_create_user. mlift E0. rewrite (eqb_neq c0 0 Hc0). mlift En. mlift Ep. mlift Ef. mlift Et.
    mlift (c_string_cstr fb _ Hfb). mlift (c_string_cstr bn' _ Hbn). fold file.
    mrun E1. mrun E2. mrun E3. cbn [Z.eqb]. rewrite bind_ret. mrun E4.
    rewrite (bind_seq _ _ _ _ _ _ E5). mrun E6. cbn [Z.eqb negb]. mlift (c_string_cstr tb _ Htb).
    mrun (call_run (fun f => fs_write f file _) _ _ _ E7). mrun E8. mrun E9. rewrite (bind_seq _ _ _ _ _ _ E10). by mrun E11.
Qed.

Lemma verify_ok f d ds ns n p rest bm m bq q :
  view f d ds ns -> installed ds ns -> login_word n -> login_word p -> plain n ->
  ns !! account_key n = Some (Some (n ++ c_nl :: p ++ c_nl :: rest)) -> nozero rest -> zlen rest < 256 ->
  cstr bm m -> cstr bq q -> m <> [] -> q <> [] -> zlen m < 64 -> zlen q < 64 -> rtrim is_blank m = n ->
  exists f', view f' ROOT ds ns /\
    system_verify_user (Some bm) (Some bq) f = Some (Val (if decide (rtrim is_blank q = p) then 1 else 0), f').
Proof.
  intros Hv Hin [Hn1 Hnl] [Hp1 Hpl] Hplain Hfile Hrest Hlr Hm Hq Hmne Hqne Hml Hql Hmn.
  destruct (cstr_head bm m Hm Hmne) as (m0 & Em0 & Hm0). destruct (cstr_head bq q Hq Hqne) as (q0 & Eq0 & Hq0).
  destruct (strcpy_cstr (zeros 64) bm m Hm) as (cn & Ecn & Hcn & _); [done|].
  destruct (strcpy_cstr (zeros 64) bq q Hq) as (cp & Ecp & Hcp & _); [done|].
  destruct (clean_run cn m Hcn) as (cn' & En & Hcn'). destruct (clean_run cp q Hcp) as (cp' & Ep & Hcp'). rewrite Hmn in Hcn'.
  destruct (account_file_ok cn' n Hcn' Hnl) as (fb & Ef & Hfb). set (file := dot_account n ++ [0]).
  assert (plain file) as Hpf by by apply plain_account.
  destruct (chdir_run f d ds ns "/" Hv) as (f1 & E1 & Hv1); [by apply (installed_dir ds ns); [|repeat (apply list_elem_of_here || apply list_elem_of_further)]|].
  destruct (chdir_run f1 _ ds ns "/system/accounts" Hv1) as (f2 & E2 & Hv2); [by apply (installed_dir ds ns); [|repeat (apply list_elem_of_here || apply list_elem_of_further)]|].
  destruct (exists_run f2 _ ds ns file Hv2 Hpf) as (f3 & E3 & Hv3). unfold account_key in Hfile. fold file in Hfile.
  fold ACCOUNTS in E3, Hv3. rewrite Hfile in E3. set (text := n ++ c_nl :: p ++ c_nl :: rest) in *.
  assert (0 < zlen text < 511) as Htl 
    by (unfold text; rewrite zlen_app, zlen_cons, zlen_app, zlen_cons; pose proof (zlen_nonneg rest); pose proof (zlen_nonneg n); pose proof (zlen_nonneg p); lia).
  destruct (acc_read f3 _ ds ns file text 511 Hv3 Hpf Hfile) as (f4 & E4 & Hv4); [unfold INT_MAX; lia|].
  rewrite take_ge in E4 by zs.
  destruct (chdir_run f4 _ ds ns "/" Hv4) as (f5 & E5 & Hv5); [by apply (installed_dir ds ns); [|repeat (apply list_elem_of_here || apply list_elem_of_further)]|]. exists f5. split; [exact Hv5|].
  destruct (blit_total (zeros 512) text 0) as [b1 Eb1]; [lia | change (zlen (zeros 512)) with 512; lia |].
  pose proof (blit_zlen _ _ _ _ Eb1) as Hb1. change (zlen (zeros 512)) with 512 in Hb1.
  destruct (wr_is_Some b1 (zlen text) 0) as [b2 Eb2]; [lia|].
  assert (exists t, b2 = n ++ c_nl :: p ++ c_nl :: rest ++ 0 :: t) as (t & Ht).
  { assert (blit (zeros 512) 0 (text ++ [0]) = Some b2) as Eb.
    { rewrite blit_app, Eb1 by (change (zlen (zeros 512)) with 512; lia). cbn [mbind option_bind]. by rewrite <- wr_blit. }
    apply blit_0_Some in Eb as [_ ->]. eexists. unfold text. rewrite <- !app_assoc. cbn [app]. by rewrite <- !app_assoc. }
  destruct (password_loop_ok n p (rest ++ 0 :: t)) as (st & Est & Hst); [done..|]. rewrite <- Ht in Est.
  destruct (strcmp_cstr cp' _ st p Hcp' Hst) as (r & Er & Hr).
  unfold system_verify_user. apply fn_val. mlift Em0. rewrite (eqb_neq m0 0 Hm0). mlift Eq0. rewrite (eqb_neq q0 0 Hq0).
  mlift Ecn. mlift Ecp. mlift En. mlift Ep. mlift Ef. mlift (c_string_cstr fb _ Hfb). fold file.
  mrun E1. mrun E2. mrun E3. cbn [Z.eqb].
  assert (call (fun f => '(rc, data, f) ← fs_read f file 511; Some ((rc, data), f)) f3 = Some (Val (zlen text, text), f4)) as E4'
    by (apply call_run; by rewrite E4).
  mrun E4'. mlift Eb1. mrun E5. destruct (Z.leb_spec (zlen text) 0); [lia|]. mlift Eb2. mlift Est. mlift Er.
  unfold mret, M_ret. do 3 f_equal. destruct (Z.eqb_spec r 0); [rewrite decide_True | rewrite decide_False]; intuition.
Qed.

(** C30: an account lets in exactly its password.  On an installed system, creating
    an account with a name and a password that, without trailing blanks, are
    single lines of fewer than 64 characters (the name without a slash)
    succeeds, replaces an older account of that name and changes no other
    file; afterwards a login with the name succeeds exactly with the password,
    both up to trailing blanks. *)
Theorem account_login f d ds ns bn n bp p perm :
  view f d ds ns -> installed ds ns -> cstr bn n -> cstr bp p -> n <> [] -> INT_MIN <= perm <= INT_MAX ->
  let n' := rtrim is_blank n in let p' := rtrim is_blank p in
  login_word n' -> login_word p' -> plain n' -> ns !! account_key n' <> Some None ->
  exists f' bn' bp' ns', cstr bn' n' /\ cstr bp' p' /\ view f' ROOT ds ns' /\
    (forall k, k <> account_key n' -> k <> (USERS, n' ++ [0]) -> ns' !! k = ns !! k) /\
    system_create_user (Some bn) (Some bp) perm f = Some (Val (1, Some bn', Some bp'), f') /\
    forall bm m bq q, cstr bm m -> cstr bq q -> m <> [] -> q <> [] -> zlen m < 64 -> zlen q < 64 ->
      rtrim is_blank m = n' ->
      exists f'', view f'' ROOT ds ns' /\
        system_verify_user (Some bm) (Some bq) f' = Some (Val (if decide (rtrim is_blank q = p') then 1 else 0), f'').
Proof.
  intros Hv Hin Hn Hp Hne Hperm n' p' Hwn Hwp Hplain Hfile.
  destruct (create_ok f d ds ns bn n bp p perm) as (f' & bn' & bp' & ns' & Hbn & Hbp & Hv' & Hf' & Hother & E); try done.
  exists f', bn', bp', ns'. split_and!; try done. intros bm m bq q Hm Hq Hmne Hqne Hml Hql Hmn.
  apply (verify_ok f' ROOT ds ns' n' p' (sdec perm ++ [c_nl]) bm m bq q); try done.
  - destruct Hin as [Hds Hacc]. split; [done|]. by rewrite Hother.
  - apply nozero_app. split; [apply sdec_nozero | repeat constructor; done].
  - pose proof (sdec_short perm). zs.
Qed.

End Login.

(** ** Accounts on a concrete tree of files *)

(** A tree of files in memory. *)
Module TreeStore.

Record t := mk { dir : bytes; dirs : gset bytes; nodes : tree }.

Definition set (k : bytes) (x : option (option bytes)) (f : t) : t :=
  mk (dir f) (dirs f) (match x with Some n => <[(dir f, k) := n]> (nodes f) | None => delete (dir f, k) (nodes f) end).

Definition add (x : option bytes) (f : t) (p : bytes) : option (Z * t) :=
  Some (match nodes f !! (dir f, p) with Some _ => (-1, f) | None => (0, set p (Some x) f) end).

Definition file (f : t) (p : bytes) : option bytes :=
  match nodes f !! (dir f, p) with Some (Some c) => Some c | _ => None end.

#[global] Instance store : FileStore t := {
  fs_create := add (Some []);
  fs_delete f p := Some (match file f p with Some _ => (1, set p None f) | None => (-1, f) end);
  fs_append_data f p d := Some (match file f p with Some c => (0, set p (Some (Some (c ++ d))) f) | None => (-1, f) end);
  fs_read_raw_at f p off n :=
    Some (match file f p with
          | Some c => let d := take (Z.to_nat n) (drop (Z.to_nat off) c) in (zlen d, d, f)
          | None => (-1, [], f)
          end);
}.

#[global] Instance exec : ExecStore t := {
  fs_exists f p := Some (match nodes f !! (dir f, p) with Some _ => 1 | None => 0 end, f);
  fs_get_info f p :=
    Some ((fun n => match n with Some c => (zlen c, false) | None => (0, true) end) <$> nodes f !! (dir f, p), f);
}.

#[global] Instance accounts : AccountStore t := {
  fs_chdir f p := Some (if decide (p ∈ dirs f) then (0, mk p (dirs f) (nodes f)) else (-1, f));
  fs_mkdir := add None;
  fs_write f p d :=
    Some (match file f p with Some _ => (0, set p (Some (Some (take (length d - 1) d))) f) | None => (-1, f) end);
  fs_read f p n :=
    Some (match file f p with Some c => (zlen (take (Z.to_nat n) c), take (Z.to_nat n) c, f) | None => (-1, [], f) end);
}.

#[global] Instance lawful : LawfulAccounts t.
Proof.
  refine {| view f d ds ns := f = mk d ds ns |}; intros f d ds ns p.
  - intros -> Hp. eexists. cbn. by rewrite decide_True.
  - intros -> Hp. eexists. done.
  - intros -> Hp Hn. eexists. cbn. unfold add. cbn. by rewrite Hn.
  - intros -> Hp Hn. eexists. cbn. unfold add. cbn. by rewrite Hn.
  - intros c -> Hp Hn. eexists. cbn. unfold file. cbn. by rewrite Hn.
  - intros c tx -> Hp Hn Ht. eexists. cbn. unfold file. cbn. rewrite Hn. split; [done|]. unfold set. cbn.
    rewrite length_app. cbn. rewrite Nat.add_sub, take_app_length. done.
  - intros c k -> Hp Hn Hk. eexists. cbn. unfold file. cbn. by rewrite Hn.
Defined.

End TreeStore.

Definition fresh_system : TreeStore.t :=
  TreeStore.mk ROOT {[ROOT; SYSTEM; ACCOUNTS; USERS]} {[(SYSTEM, clit "accounts") := None]}.

Lemma account_login_witness :
  exists f' bn' bp', system_create_user (Some (clit "bob")) (Some (clit "wow ")) 1 fresh_system = Some (Val (1, Some bn', Some bp'), f') /\
    (exists f'', system_verify_user (Some (clit "bob")) (Some (clit "wow")) f' = Some (Val 1, f'')) /\
    (exists f'', system_verify_user (Some (clit "bob")) (Some (clit "wo")) f' = Some (Val 0, f'')).
Proof.
  assert (forall s, nozero (lit s) -> cstr (clit s) (lit s)) as Hs by (intros s; apply cstr_own).
  destruct (account_login fresh_system ROOT {[ROOT; SYSTEM; ACCOUNTS; USERS]} {[(SYSTEM, clit "accounts") := None]}
    (clit "bob") (lit "bob") (clit "wow ") (lit "wow ") 1)
    as (f' & bn' & bp' & ns' & _ & _ & _ & _ & E & Hlogin).
  - reflexivity.
  - split; [repeat constructor; apply (bool_decide_unpack _); vm_compute; exact I | apply lookup_singleton_eq].
  - apply Hs. repeat constructor; done.
  - apply Hs. repeat constructor; done.
  - done.
  - unfold INT_MIN, INT_MAX. lia.
  - split; [repeat constructor; done | vm_compute; reflexivity].
  - split; [repeat constructor; done | vm_compute; reflexivity].
  - repeat constructor; done.
  - vm_compute. discriminate.
  - exists f', bn', bp'. split; [exact E|]. split.
    + destruct (Hlogin (clit "bob") (lit "bob") (clit "wow") (lit "wow")) as (f'' & _ & E'');
        [apply Hs; repeat constructor; done .. | done | done | vm_compute; reflexivity | vm_compute; reflexivity | reflexivity |].
      exists f''. exact E''.
    + destruct (Hlogin (clit "bob") (lit "bob") (clit "wo") (lit "wo")) as (f'' & _ & E'');
        [apply Hs; repeat constructor; done .. | done | done | vm_compute; reflexivity | vm_compute; reflexivity | reflexivity |].
      exists f''. exact E''.
Defined.

Lemma can_access_path_exact_witness :
  system_can_access_path (Some (clit "bob")) (Some (clit "C:/users/alice/x")) = Some 0.
Proof.
  exact (can_access_path_exact (clit "bob") (lit "bob") (clit "C:/users/alice/x") (lit "C:/users/alice/x")
    ltac:(apply cstr_own; repeat constructor; done) ltac:(apply cstr_own; repeat constructor; done) ltac:(vm_compute; reflexivity)).
Defined.
