(* ===== verification/Native.v ===== *)
(** * Native system calls (helper/core/syscall/syscall.c)

    [syscall_handler] and what it calls.  A program that uses the Linux
    convention is handed to [linux_syscall_handler]; the state is that of the
    Linux calls with the statics of syscall.c.  The file system is reached through
    [NativeStore], the console, the clock, the processor and the names of the
    machine through [NativeKernel]; [Programs] names the entry points that run
    other programs, which may change anything.  Paths and other strings carry
    their terminator. *)

From S2P Require Import Prelude CMonad FileStore CString Mmu Elf UserMem LinuxFd LinuxCalls Lz4 Accounts.

Definition USER_STRING_LIMIT : Z := 4096.
Definition USER_INPUT_LIMIT : Z := 256.
Definition MAX_PROCESS_STACK_DEPTH : Z := 4.
Definition PROCESS_STACK_ARGUMENTS_SIZE : Z := 32 * 256.
Definition MAX_SYSCALL_CONTEXTS : Z := MAX_PROCESS_STACK_DEPTH + 2.
Definition MAX_FLAT_BINARY_SIZE : Z := 16 * 1024 * 1024.
Definition MAX_TERMINALS : Z := 4.
Definition TERMINAL_COLS : Z := 160.
Definition TERMINAL_ROWS : Z := 50.
Definition SCHEDULER_TASK_LIMIT : Z := 8.
Definition TASK_INFO_SIZE : Z := 12.
Definition LZ4_CODEC_COMPRESS : Z := 1.
Definition LZ4_CODEC_DECOMPRESS : Z := 2.
Definition SYSTEM_CONTROL_REBOOT : Z := 1.
Definition SYSTEM_CONTROL_SHUTDOWN : Z := 2.

(** ** What the calls use *)

(** Reads yield the bytes stored at the start of the buffer, listings the names
    stored in consecutive entries of 256 bytes. *)
Class NativeStore (F : Type) `{LinuxStore F} := {
  fs_read : F -> bytes -> Z -> option (Z * bytes * F);
  fs_write : F -> bytes -> bytes -> option (Z * F);
  fs_mkdir : F -> bytes -> option (Z * F);
  fs_rename : F -> bytes -> bytes -> option (Z * F);
  fs_chdir : F -> bytes -> option (Z * F);
  fs_delete_last_line : F -> bytes -> option (Z * F);
  fs_copy : F -> bytes -> bytes -> option (Z * F);
  fs_move : F -> bytes -> bytes -> option (Z * F);
  fs_select_drive : F -> Z -> option (Z * F);
  fs_current_drive : F -> option (Z * F);
  fs_list_entries : F -> bytes -> Z -> option (Z * list bytes * F);
  fs_check_access : F -> bytes -> option (Z * F);
}.

(** Calls that only pass on the values of registers. *)
Inductive console_op :=
  | Clear | GetKey | PrintAt (text : bytes) (x y color : Z) | TextColor (color : Z) | BackgroundColor (color : Z)
  | Brightness (level : Z) | VideoMode | TextMode | DrawPixel (x y color : Z) | DrawRect (x y width height color : Z)
  | GetKeyDelay (loops : Z) | EnableBar | DisableBar | ClearRaw | BarEnabled | Reboot | Shutdown | UnknownCall (n : Z).

Class NativeKernel (K : Type) `{Kernel K} := {
  dogeio_print : K -> bytes -> K;
  dogeio_ask : K -> bytes -> Z -> bytes * K;        (* [dogeio_input]: what it stores in the buffer *)
  console : K -> console_op -> Z * K;
  dogeio_mouse_read : K -> (Z * Z * Z * Z) * K;     (* result, two deltas, buttons *)
  try_rdrand : K -> option Z * K;
  current_user : K -> bytes;                        (* [char current_user[64]] *)
  computer_name : K -> bytes;
  windoge_version : K -> bytes;
  scheduler_list : K -> Z -> Z * list (Z * Z * Z);  (* the count, and what is stored *)
  launcher : K -> Z * Z;                            (* [kernel_program_launcher_rsp], [.._rflags] *)
  set_launcher : K -> Z * Z -> K;
  cpu_frame : K -> Z * Z;                           (* the stack pointer and flags of the handler *)
  lz4_buffers : K -> bytes * bytes * bytes * bytes; (* what the buffers of the codec hold *)
}.

Record native (F K : Type) := Native {
  n_linux : linux F K;
  linux_syscall_abi_active : bool;
  process_stack_depth : Z;
  syscall_context_depth : Z;
  cpu_supports_rdrand : bool;
}.
Arguments Native {F K}.
Arguments n_linux {F K}.
Arguments linux_syscall_abi_active {F K}.
Arguments process_stack_depth {F K}.
Arguments syscall_context_depth {F K}.
Arguments cpu_supports_rdrand {F K}.

(** A spawn also yields the id of the new task, if it stored one. *)
Class Programs (F K : Type) := {
  system_run_elf_args : native F K -> bytes -> Z -> list bytes -> option (Z * native F K);
  scheduler_spawn_elf : native F K -> bytes -> list bytes -> Z -> option (Z * option Z * native F K);
  scheduler_kill : native F K -> Z -> option (Z * native F K);
  kernel_package : native F K -> list bytes -> option (Z * native F K);
  system : native F K -> bytes -> option (Z * native F K);
}.

Inductive native_result := Returned (v : Z) | TaskExit (status : Z) | LauncherExit (status : Z).

Section Native.
Context {F K : Type} `{NativeStore F} `{NativeKernel K} `{Programs F K}.

Abbreviation N := (M (native F K)).

(** ** Access to the parts of the state *)

Definition with_linux (x : linux F K) (s : native F K) : native F K :=
  Native x (linux_syscall_abi_active s) (process_stack_depth s) (syscall_context_depth s) (cpu_supports_rdrand s).

Definition on_linux {A} (m : M (linux F K) A) : N A := zoom n_linux with_linux m.
Definition mm {A} (m : Mm A) : N A := on_linux (LinuxCalls.on_mm m).
Definition fs {A} (f : F -> option (A * F)) : N A := on_linux (LinuxCalls.on_fs f).
Definition kn {A} (f : K -> A * K) : N A := on_linux (LinuxCalls.on_kernel f).
Definition ask {A} (f : K -> A) : N A := gets (fun s => f (x_kernel (n_linux s))).
Definition run {A} (f : native F K -> option (A * native F K)) : N A := fun s =>
  '(a, s) ← f s; Some (Val a, s).

Definition set_abi (b : bool) : N unit := modify (fun s =>
  Native (n_linux s) b (process_stack_depth s) (syscall_context_depth s) (cpu_supports_rdrand s)).
Definition set_depth (d : Z) : N unit := modify (fun s =>
  Native (n_linux s) (linux_syscall_abi_active s) d (syscall_context_depth s) (cpu_supports_rdrand s)).

(** [return (uint64_t)-1] *)
Definition refuse {A} : N A := exit MINUS_ONE.

(** [(uint64_t)(int64_t)rc] of an [int] *)
Definition sign_extend (rc : Z) : Z := u64 (s32 rc).

Definition usable (address length : Z) (write : bool) : N bool := mm (user_range_accessible address length write).

(** [if (!copy_user_string(address, buffer, capacity, NULL)) return -1] *)
Definition need_string (address capacity : Z) : N bytes :=
  s ← mm (copy_user_string address capacity);
  match s with None => refuse | Some s => mret s end.

Definition need_path (address : Z) : N bytes := need_string address USER_PATH_LIMIT.

(** [if (!user_range_accessible(...)) return -1], skipped for an empty range. *)
Definition need_range (address length : Z) (write : bool) : N unit :=
  ok ← (if length =? 0 then mret true else usable address length write);
  if negb (ok : bool) then refuse else mret tt.

(** A call of the file system whose result is the result of the system call. *)
Definition fs_call (f : F -> option (Z * F)) : N Z := rc ← fs f; mret (sign_extend rc).

(** ** Files *)

Definition sys_read_file (path buffer offset size : Z) (at_offset : bool) : N Z := fn (
  filepath ← need_path path;
  if USER_IO_LIMIT <? size then refuse else
  need_range buffer size true;;
  if size =? 0 then mret 0 else
  '(rc, data) ← fs (fun f =>
     '(rc, data, f) ← (if at_offset then fs_read_raw_at f filepath offset size else fs_read f filepath size);
     Some ((rc, data), f));
  mm (set_user_bytes buffer data);;
  mret (sign_extend rc)).

Definition sys_write_file (path buffer : Z) : N Z := fn (
  filepath ← need_path path;
  length ← mm (user_string_length buffer (USER_IO_LIMIT + 1));
  match length with
  | None => refuse
  | Some buffer_length =>
      if USER_IO_LIMIT <? buffer_length then refuse else
      text ← mm (user_bytes (Z.to_nat (buffer_length + 1)) buffer);
      fs_call (fun f => fs_write f filepath text)
  end).

(** [WRITE_FILE_RAW] and [APPEND_FILE] *)
Definition sys_store_data (op : F -> bytes -> bytes -> option (Z * F)) (path buffer size : Z) : N Z := fn (
  filepath ← need_path path;
  if USER_IO_LIMIT <? size then refuse else
  need_range buffer size false;;
  data ← mm (user_bytes (Z.to_nat size) buffer);
  fs_call (fun f => op f filepath data)).

Definition sys_path_call (op : F -> bytes -> option (Z * F)) (path : Z) : N Z := fn (
  filename ← need_path path;
  fs_call (fun f => op f filename)).

Definition sys_two_paths (op : F -> bytes -> bytes -> option (Z * F)) (path1 path2 : Z) : N Z := fn (
  source ← need_path path1;
  destination ← need_path path2;
  fs_call (fun f => op f source destination)).

Definition sys_get_cwd (buffer capacity : Z) : N Z := fn (
  cwd ← fs fs_dirname;
  match cwd with
  | None => refuse
  | Some cwd =>
      if capacity =? 0 then refuse else
      cwd_length ← lift (strlen_loop cwd);
      ok ← (if capacity <=? cwd_length then mret false else usable buffer (cwd_length + 1) true);
      if negb (ok : bool) then refuse else
      text ← lift (slice cwd 0 (cwd_length + 1));
      mm (set_user_bytes buffer text);;
      mret cwd_length
  end).

Definition sys_check_path_access (path : Z) : N Z := fn (
  path ← need_path path;
  user ← ask current_user;
  r ← lift (system_can_access_path (Some user) (Some path));
  mret (if negb (r =? 0) then 1 else 0)).

Definition sys_lz4_codec (operation source destination : Z) : N Z := fn (
  if negb (operation =? LZ4_CODEC_COMPRESS) && negb (operation =? LZ4_CODEC_DECOMPRESS) then refuse else
  source ← need_path source;
  destination ← need_path destination;
  same ← lift (str_strcmp source destination);
  if same =? 0 then refuse else
  info ← fs (fun f => fs_get_info f source);
  match info with
  | None => refuse
  | Some (file_size, is_dir) =>
      if (is_dir : bool) then refuse else
      '(out, source_buffer, block, history) ← ask lz4_buffers;
      fs_call (fun f =>
        if operation =? LZ4_CODEC_COMPRESS
        then kernel_lz4_compress f out source_buffer block source file_size destination
        else kernel_lz4_decompress f history out source file_size destination)
  end).

Definition sys_stat (path buffer : Z) : N Z := fn (
  path ← need_path path;
  ok ← (if buffer =? 0 then mret false else usable buffer 24 true);
  if negb (ok : bool) then refuse else
  mm (set_user_bytes buffer (zeros 24));;
  info ← fs (fun f => fs_get_info f path);
  match info with
  | Some (size, is_dir) =>
      mm (set_user_bytes buffer (le_bytes 8 size ++ le_bytes 8 (if (is_dir : bool) then 1 else 0) ++ le_bytes 8 1));;
      mret 0
  | None => mret MINUS_ONE
  end).

(** Entries of 256 characters. *)
Fixpoint put_names (v : Z) (names : list bytes) : N unit :=
  match names with
  | [] => mret tt
  | name :: names' => mm (set_user_bytes v name);; put_names (v + 256) names'
  end.

Definition sys_list_dir (buffer capacity : Z) : N Z := fn (
  if (capacity =? 0) || (USER_IO_LIMIT / 256 <? capacity) then refuse else
  ok ← usable buffer (capacity * 256) true;
  if negb (ok : bool) then refuse else
  dir ← fs fs_dirname;
  match dir with
  | None => refuse
  | Some current_directory =>
      '(rc, names) ← fs (fun f =>
         '(rc, names, f) ← fs_list_entries f current_directory capacity; Some ((rc, names), f));
      put_names buffer names;;
      mret (sign_extend rc)
  end).

(** ** The machine *)

Definition task_bytes (t : Z * Z * Z) : bytes :=
  let '(pid, state, workspace) := t in le_bytes 4 pid ++ le_bytes 4 state ++ le_bytes 4 workspace.

Definition sys_list_tasks (buffer capacity : Z) : N Z := fn (
  ok ← (if SCHEDULER_TASK_LIMIT - 1 <? capacity then mret false
        else if capacity =? 0 then mret true
        else if buffer =? 0 then mret false
        else usable buffer (capacity * TASK_INFO_SIZE) true);
  if negb (ok : bool) then refuse else
  '(count, tasks) ← ask (fun k => scheduler_list k capacity);
  let copied_count := if count <? capacity then count else capacity in
  (if negb (copied_count =? 0) then
     mm (set_user_bytes buffer (concat (task_bytes <$> take (Z.to_nat copied_count) tasks)))
   else mret tt);;
  mret count).

(** A field of 65 characters; the rest of it is zero. *)
Fixpoint uname_loop (k : nat) (source : bytes) : option bytes :=
  match k with
  | O => Some []
  | S k' =>
      c ← rd source 0;
      if c =? 0 then Some [] else rest ← uname_loop k' (drop 1 source); Some (c :: rest)
  end.

Definition copy_uname_field (source : bytes) : option bytes :=
  text ← uname_loop 64 source;
  Some (text ++ zeros (65 - length text)).

Definition sys_get_uname (buffer : Z) : N Z := fn (
  ok ← (if buffer =? 0 then mret false else usable buffer 390 true);
  if negb (ok : bool) then refuse else
  name ← ask computer_name;
  version ← ask windoge_version;
  n0 ← lift (rd name 0);
  sysname ← lift (copy_uname_field (clit "WindogeOS"));
  nodename ← lift (copy_uname_field (if negb (n0 =? 0) then name else clit "windoge"));
  release ← lift (copy_uname_field version);
  machine ← lift (copy_uname_field (clit "x86_64"));
  mm (set_user_bytes buffer (sysname ++ nodename ++ release ++ release ++ machine ++ zeros 65));;
  mret 0).

(** [for (attempt = 0; attempt < 10; attempt++)] *)
Fixpoint draw_random (attempts : nat) : N (option Z) :=
  match attempts with
  | O => mret None
  | S k => r ← kn try_rdrand; match r with Some v => mret (Some v) | None => draw_random k end
  end.

(** Every round writes at least one byte, so [length] rounds are enough. *)
Fixpoint random_loop (fuel : nat) (output length written : Z) : N Z :=
  match fuel with
  | O => lift None
  | S fuel' =>
      if written <? length then
        r ← draw_random 10;
        match r with
        | None => mret (if written =? 0 then MINUS_ONE else written)
        | Some random_value =>
            let chunk_size := if 8 <? length - written then 8 else length - written in
            mm (set_user_bytes (output + written) (take (Z.to_nat chunk_size) (le_bytes 8 random_value)));;
            random_loop fuel' output length (written + chunk_size)
        end
      else mret written
  end.

Definition native_random_bytes (address length : Z) : N Z := fn (
  if length =? 0 then mret 0 else
  rdrand ← gets cpu_supports_rdrand;
  if negb (rdrand : bool) || (USER_IO_LIMIT <? length) then refuse else
  ok ← usable address length true;
  if negb (ok : bool) then refuse else
  random_loop (S (Z.to_nat length)) address length 0).

(** [while (username_length < 64 && current_user[username_length] != 0)] *)
Fixpoint name_length (k : nat) (user : bytes) : option Z :=
  match k with
  | O => Some 0
  | S k' => c ← rd user 0; if c =? 0 then Some 0 else n ← name_length k' (drop 1 user); Some (n + 1)
  end.

Definition sys_get_user_name (buffer capacity : Z) : N Z := fn (
  user ← ask current_user;
  username_length ← lift (name_length 64 user);
  if username_length =? 64 then refuse else
  ok ← (if capacity <=? username_length then mret false else usable buffer (username_length + 1) true);
  if negb (ok : bool) then refuse else
  text ← lift (slice user 0 (username_length + 1));
  mm (set_user_bytes buffer text);;
  mret username_length).

Definition sys_get_time (buffer : Z) : N Z := fn (
  ok ← (if buffer =? 0 then mret false else usable buffer 8 true);
  if negb (ok : bool) then refuse else
  epoch ← kn time_get_epoch_seconds;
  mm (set_user_bytes buffer (le_bytes 8 epoch));;
  mret 0).

Definition sys_read_mouse (x y b : Z) : N Z := fn (
  if (x =? 0) || (y =? 0) || (b =? 0) then refuse else
  ok ← usable x 4 true;
  if negb (ok : bool) then refuse else
  ok ← usable y 4 true;
  if negb (ok : bool) then refuse else
  ok ← usable b 1 true;
  if negb (ok : bool) then refuse else
  '(ret_val, delta_x, delta_y, buttons) ← kn dogeio_mouse_read;
  (if negb (ret_val =? 0) then
     mm (set_user_bytes x (le_bytes 4 delta_x));;
     mm (set_user_bytes y (le_bytes 4 delta_y));;
     mm (set_user_bytes b (le_bytes 1 buttons))
   else mret tt);;
  mret ret_val).

(** ** The console *)

Definition sys_print (text : Z) : N Z := fn (
  text ← need_string text USER_STRING_LIMIT;
  kn (fun k => (tt, dogeio_print k text));;
  mret 1).

Definition sys_input (prompt buffer capacity : Z) : N Z := fn (
  prompt ← need_string prompt USER_STRING_LIMIT;
  if (capacity =? 0) || (USER_INPUT_LIMIT <? capacity) then refuse else
  ok ← usable buffer capacity true;
  if negb (ok : bool) then refuse else
  text ← kn (fun k => dogeio_ask k prompt capacity);
  mm (set_user_bytes buffer text);;
  length ← mm (user_string_length buffer capacity);
  match length with None => refuse | Some n => mret n end).

Definition sys_print_at (text x y color : Z) : N Z := fn (
  let x := u32 x in let y := u32 y in
  if (TERMINAL_COLS <=? x) || (TERMINAL_ROWS <=? y) then refuse else
  text ← need_string text USER_STRING_LIMIT;
  kn (fun k => console k (PrintAt text x y (u32 color)));;
  mret 1).

Definition sys_console (op : console_op) : N Z := kn (fun k => console k op);; mret 1.
Definition sys_console_value (op : console_op) : N Z := kn (fun k => console k op).

Definition sys_system_control (command : Z) : N Z := fn (
  (if command =? SYSTEM_CONTROL_REBOOT then kn (fun k => console k Reboot);; mret tt
   else if command =? SYSTEM_CONTROL_SHUTDOWN then kn (fun k => console k Shutdown);; mret tt
   else refuse);;
  mret 0).

(** ** Running programs *)

(** The address in entry [i] of the vector at [table]. *)
Definition argument_address (table i : Z) : N Z :=
  b ← mm (user_bytes 8 (u64 (table + i * 8)));
  mret (le_val b).

(** [k] arguments from the [i]th one on, each in a buffer of 256 bytes. *)
Fixpoint fetch_arguments (k : nat) (table i : Z) : N (list bytes) :=
  match k with
  | O => mret []
  | S k' =>
      address ← argument_address table i;
      argument ← need_string address 256;
      rest ← fetch_arguments k' table (i + 1);
      mret (argument :: rest)
  end.

(** The same with one buffer for all of them, filled up to [argument_offset]. *)
Fixpoint pack_arguments (k : nat) (table i argument_offset : Z) : N (list bytes) :=
  match k with
  | O => mret []
  | S k' =>
      address ← argument_address table i;
      if PROCESS_STACK_ARGUMENTS_SIZE <=? argument_offset then refuse else
      let remaining := PROCESS_STACK_ARGUMENTS_SIZE - argument_offset in
      let capacity := if remaining <? 256 then remaining else 256 in
      argument ← need_string address capacity;
      rest ← pack_arguments k' table (i + 1) (argument_offset + zlen argument);
      mret (argument :: rest)
  end.

Definition save_launcher_context : N (Z * Z) := ask launcher.
Definition restore_launcher_context (context : Z * Z) : N unit := kn (fun k => (tt, set_launcher k context)).

(** What the caller's statics are while a program it runs is active. *)
Definition get_linux_statics : N linux_task_context_t := on_linux get_proc.
Definition set_linux_statics (p : linux_task_context_t) : N unit := on_linux (set_proc p).

Definition run_elf_binary_args (filename : bytes) (argv : list bytes) : N Z := fn (
  pid ← ask scheduler_current_pid;
  if negb (pid =? 0) then refuse else
  info ← fs (fun f => fs_get_info f filename);
  match info with
  | None => refuse
  | Some (file_size, is_dir) =>
      depth ← gets process_stack_depth;
      contexts ← gets syscall_context_depth;
      if (is_dir : bool) || (file_size =? 0) || (MAX_FLAT_BINARY_SIZE <? file_size) || (32 <? zlen argv) ||
         (MAX_PROCESS_STACK_DEPTH <=? depth) || (MAX_SYSCALL_CONTEXTS - 1 <=? contexts)
      then refuse else
      working_directory ← fs fs_dirname;
      match working_directory with
      | None => refuse
      | Some parent_cwd =>
          len ← lift (strlen_loop parent_cwd);
          if 260 <=? len then refuse else
          parent_pages ← mm suspend_user_pages;
          match parent_pages with
          | None => refuse
          | Some parent_pages =>
              parent ← save_launcher_context;
              parent_linux_abi ← gets linux_syscall_abi_active;
              parent_linux_context ← get_linux_statics;
              set_depth (u32 (depth + 1));;
              result ← run (fun s => system_run_elf_args s filename file_size argv);
              depth ← gets process_stack_depth;
              set_depth (u32 (depth - 1));;
              set_abi parent_linux_abi;;
              (if (parent_linux_abi : bool) then set_linux_statics parent_linux_context else mret tt);;
              pages_restored ← mm (restore_user_pages parent_pages);
              cwd_restored ← fs (fun f => fs_chdir f parent_cwd);
              restore_launcher_context parent;;
              if negb (pages_restored : bool) then refuse else
              if negb (cwd_restored =? 0) then refuse else
              if s32 result <? 0 then refuse else mret (sign_extend result)
          end
      end
  end).

Definition run_elf_binary (filename : bytes) : N Z := run_elf_binary_args filename [].

Definition sys_package_command (argc table : Z) : N Z := fn (
  if (argc =? 0) || (16 <? argc) then refuse else
  ok ← usable table (argc * 8) false;
  if negb (ok : bool) then refuse else
  arguments ← fetch_arguments (Z.to_nat argc) table 0;
  rc ← run (fun s => kernel_package s arguments);
  mret (sign_extend rc)).

(** The checks that [EXEC_ARGS] and [PROCESS_STACK] share. *)
Definition need_program (path argc table : Z) : N bytes :=
  filename ← need_path path;
  if 32 <? argc then refuse else
  need_range table (argc * 8) false;;
  e ← fs (fun f => fs_exists f filename);
  if e =? 0 then refuse else mret filename.

Definition sys_exec_args (path argc table : Z) : N Z := fn (
  filename ← need_program path argc table;
  arguments ← fetch_arguments (Z.to_nat argc) table 0;
  rc ← run (fun s => system_run_elf_args s filename 32768 arguments);
  mret (sign_extend rc)).

Definition sys_process_stack (path argc table : Z) : N Z := fn (
  filename ← need_program path argc table;
  arguments ← pack_arguments (Z.to_nat argc) table 0 0;
  run_elf_binary_args filename arguments).

Definition sys_exec (path : Z) : N Z := fn (
  filename ← need_string path USER_STRING_LIMIT;
  e ← fs (fun f => fs_exists f filename);
  if e =? 0 then mret MINUS_ONE else run_elf_binary filename).

Definition sys_shell (text : Z) : N Z := fn (
  text ← need_string text USER_STRING_LIMIT;
  parent_pages ← mm suspend_user_pages;
  match parent_pages with
  | None => refuse
  | Some parent_pages =>
      parent ← save_launcher_context;
      rc ← run (fun s => system s text);
      ok ← mm (restore_user_pages parent_pages);
      if negb (ok : bool) then refuse else
      restore_launcher_context parent;;
      mret (sign_extend rc)
  end).

(** ** Spawning *)

Definition c_backslash : Z := 92.

(** [while (i < path_length && path[i] != '/')]: the component and what follows,
    [None] at a backslash. *)
Fixpoint component (p : bytes) : option (bytes * bytes) :=
  match p with
  | [] => Some ([], [])
  | c :: p' =>
      if c =? c_slash then Some ([], p)
      else if c =? c_backslash then None
      else '(name, rest) ← component p'; Some (c :: name, rest)
  end.

(** The loop over the path without its terminator; every round consumes a
    character, so the length of the path bounds the rounds. *)
Fixpoint spawn_path_ok (fuel : nat) (p : bytes) : bool :=
  match fuel, p with
  | _, [] => true
  | O, _ => false
  | S fuel', c :: p' =>
      if c =? c_backslash then false
      else if negb (c =? c_slash) then spawn_path_ok fuel' p'
      else
        match component p' with
        | None => false
        | Some (name, rest) =>
            if bool_decide (name = lit ".") || bool_decide (name = lit "..") then false
            else spawn_path_ok fuel' rest
        end
  end.

Definition CHILD_BASE : Z := 0x800000.

Definition sys_spawn_task (path workspace_id : Z) : N Z := fn (
  if MAX_TERMINALS <=? workspace_id then refuse else
  path ← need_path path;
  let name := take (length path - 1) path in
  c0 ← lift (rd path 0);
  if (zlen name =? 0) || negb (c0 =? c_slash) then refuse else
  access ← fs (fun f => fs_check_access f path);
  if negb (access =? 0) then refuse else
  if negb (spawn_path_ok (length name) name) then refuse else
  info ← fs (fun f => fs_get_info f path);
  match info with
  | None => refuse
  | Some (file_size, is_directory) =>
      if (is_directory : bool) || (file_size =? 0) then refuse else
      parent_cr3_ctx ← mm (gets cr3);
      let total_alloc_pages := u64 (u64 (file_size + PAGE_SIZE - 1) / PAGE_SIZE + 4) in
      for_loop (Z.to_nat total_alloc_pages) CHILD_BASE PAGE_SIZE (fun target_vaddr =>
        physical_frame ← mm pmm_alloc_zeroed_page;
        if physical_frame =? 0 then refuse else mm (map_user_page (u64 target_vaddr) physical_frame));;
      frame ← ask cpu_frame;
      restore_launcher_context frame;;
      '(_, pid) ← run (fun s =>
         '(rc, pid, s) ← scheduler_spawn_elf s path [path] (u32 workspace_id); Some ((rc, pid), s));
      mm (modify (with_cr3 parent_cr3_ctx));;
      for_loop (Z.to_nat total_alloc_pages) CHILD_BASE PAGE_SIZE (fun target_vaddr =>
        mm (unmap_user_page (u64 target_vaddr));; mret tt);;
      pid ← lift pid;
      mret (u32 pid)
  end).

Definition sys_kill_task (pid : Z) : N Z := fn (
  current ← ask scheduler_current_pid;
  if (UINT32_MAX <? pid) || (u32 pid =? current) then refuse else
  rc ← run (fun s => scheduler_kill s (u32 pid));
  mret (sign_extend rc)).

Definition sys_expand_user_pages : N Z :=
  mm pmm_alloc_zeroed_page;; mret 1.

(** ** The dispatcher *)

Definition native_call (r : syscall_registers_t) : N Z :=
  match rax r with
  | 1 => sys_read_file (rdi r) (rsi r) 0 (rdx r) false
  | 2 => sys_write_file (rdi r) (rsi r)
  | 3 => sys_path_call fs_create (rdi r)
  | 4 => sys_path_call fs_delete (rdi r)
  | 5 => sys_path_call fs_mkdir (rdi r)
  | 6 => sys_two_paths fs_rename (rdi r) (rsi r)
  | 7 => sys_path_call fs_exists (rdi r)
  | 8 => sys_path_call fs_chdir (rdi r)
  | 9 => sys_path_call fs_delete_last_line (rdi r)
  | 10 => sys_two_paths fs_copy (rdi r) (rsi r)
  | 11 => sys_print (rdi r)
  | 12 => sys_console Clear
  | 13 => sys_input (rdi r) (rsi r) (rdx r)
  | 14 => sys_console_value GetKey
  | 15 => sys_print_at (rdi r) (rsi r) (rdx r) (r10 r)
  | 16 => sys_console (TextColor (u32 (rdi r)))
  | 17 => sys_console (BackgroundColor (u32 (rdi r)))
  | 19 => sys_get_time (rdi r)
  | 20 => sys_console (Brightness (s32 (rdi r)))
  | 21 => sys_shell (rdi r)
  | 22 => sys_exec (rdi r)
  | 23 => sys_stat (rdi r) (rsi r)
  | 24 => sys_store_data fs_append_data (rdi r) (rsi r) (rdx r)
  | 25 => sys_get_cwd (rdi r) (rsi r)
  | 26 => sys_read_file (rdi r) (rsi r) (rdx r) (r10 r) true
  | 27 => sys_two_paths fs_move (rdi r) (rsi r)
  | 28 => mm (native_user_memory_map (rdi r) (rsi r) (rdx r))
  | 29 => mm (native_user_memory_protect (rdi r) (rsi r) (rdx r))
  | 30 => mm (native_user_memory_unmap (rdi r) (rsi r))
  | 31 => pid ← ask scheduler_current_pid; mret (if pid =? 0 then 1 else pid)
  | 32 | 33 | 34 | 35 => mret 0
  | 36 => sys_get_uname (rdi r)
  | 37 => if negb (rdx r =? 0) then mret MINUS_ONE else native_random_bytes (rdi r) (rsi r)
  | 38 => sys_get_user_name (rdi r) (rsi r)
  | 39 => sys_exec_args (rdi r) (rsi r) (rdx r)
  | 40 => fn (filename ← need_path (rdi r); run_elf_binary filename)
  | 41 => sys_list_dir (rdi r) (rsi r)
  | 42 => sys_store_data fs_write_bytes (rdi r) (rsi r) (rdx r)
  | 44 => sys_console VideoMode
  | 45 => sys_console TextMode
  | 46 => sys_console (DrawPixel (u32 (rdi r)) (u32 (rsi r)) (u32 (rdx r)))
  | 47 => sys_console (DrawRect (u32 (rdi r)) (u32 (rsi r)) (u32 (rdx r)) (u32 (rcx r)) (u32 (r8 r)))
  | 48 => sys_console_value (GetKeyDelay (rdi r))
  | 49 => sys_console EnableBar
  | 50 => sys_console DisableBar
  | 51 => sys_console_value BarEnabled
  | 52 => sys_console ClearRaw
  | 53 => sys_expand_user_pages
  | 54 => sys_process_stack (rdi r) (rsi r) (rdx r)
  | 55 => sys_check_path_access (rdi r)
  | 56 => sys_system_control (rdi r)
  | 57 => sys_package_command (rdi r) (rsi r)
  | 58 => sys_lz4_codec (rdi r) (rsi r) (rdx r)
  | 59 => sys_list_tasks (rdi r) (rsi r)
  | 61 => sys_kill_task (rdi r)
  | 62 => sys_spawn_task (rdi r) (rsi r)
  | 63 => rc ← fs fs_current_drive; mret rc
  | 64 => fs_call (fun f => fs_select_drive f (u8 (rdi r)))
  | 65 => sys_read_mouse (rdi r) (rsi r) (rdx r)
  | 90 => mret 1
  | n => kn (fun k => console k (UnknownCall n));; mret 0xFFFF
  end.

(** [SYS_EXIT] does not return. *)
Definition syscall_handler (r : syscall_registers_t) : N native_result :=
  linux_abi ← gets linux_syscall_abi_active;
  if (linux_abi : bool) then
    result ← on_linux (linux_syscall_handler r);
    mret (match result with
          | Rax v => Returned v
          | ExitTask status => TaskExit status
          | ExitLauncher status => LauncherExit status
          end)
  else if rax r =? 60 then mret (TaskExit (rdi r))
  else v ← native_call r; mret (Returned v).

Definition syscall_set_linux_abi (enabled : bool) : N unit :=
  set_abi enabled;; set_linux_statics linux_reset_process_state.

Definition syscall_select_linux_abi (enabled : bool) : N unit := set_abi enabled.

End Native.
