(* ===== verification/NativeSafe.v ===== *)
(** * No native system call leaves the memory of its program

    The counterpart of [LinuxSafe] for [syscall_handler] as a whole: whatever a
    program passes in its registers, a call that neither changes mappings nor
    runs or ends a program returns a value and writes only what the program may
    write. *)

From S2P Require Import Prelude CString FileStore Lz4 Lz4Safety CMonad Mmu Pmm PageTable Elf ElfProofs UserMem UserMemProofs Isolation UserDemo LinuxFd LinuxCalls LinuxProofs LinuxSafe LinuxMap Accounts AccountProofs Native.

(** The result of an operation of the file system that may fail in any way. *)
Definition returns {F A} (ok : F -> Prop) (r : option (A * F)) : Prop :=
  exists a f, r = Some (a, f) /\ ok f.

Class SafeNative (F : Type) `{SafeLinux F} `{!NativeStore F} := {
  safe_exists f p : store_ok f -> terminated p -> returns store_ok (fs_exists f p);
  safe_read_text f p n : store_ok f -> terminated p -> 0 < n <= INT_MAX ->
    exists rc d f', fs_read f p n = Some (rc, d, f') /\ store_ok f' /\ is_bytes d /\ zlen d <= n;
  safe_write_text f p d : store_ok f -> terminated p -> terminated d -> returns store_ok (fs_write f p d);
  safe_mkdir f p : store_ok f -> terminated p -> returns store_ok (fs_mkdir f p);
  safe_rename f p q : store_ok f -> terminated p -> terminated q -> returns store_ok (fs_rename f p q);
  safe_chdir f p : store_ok f -> terminated p -> returns store_ok (fs_chdir f p);
  safe_last_line f p : store_ok f -> terminated p -> returns store_ok (fs_delete_last_line f p);
  safe_copy f p q : store_ok f -> terminated p -> terminated q -> returns store_ok (fs_copy f p q);
  safe_move f p q : store_ok f -> terminated p -> terminated q -> returns store_ok (fs_move f p q);
  safe_select f d : store_ok f -> returns store_ok (fs_select_drive f d);
  safe_drive f : store_ok f -> returns store_ok (fs_current_drive f);
  safe_list f p n : store_ok f -> terminated p -> 0 < n ->
    exists rc names f', fs_list_entries f p n = Some (rc, names, f') /\ store_ok f' /\
      zlen names <= n /\ Forall (fun b => is_bytes b /\ zlen b <= 256) names;
  info_u64 f p n d f' : store_ok f -> fs_get_info f p = Some (Some (n, d), f') -> n <= UINT64_MAX;
}.

(** Output, source, block and history buffer. *)
Definition codec_buffers (b : bytes * bytes * bytes * bytes) : Prop :=
  let '(out, source, block, history) := b in
  zlen out = LZ4_OUTPUT_SIZE /\ is_bytes out /\ zlen source = LZ4_READ_AHEAD_SIZE /\ is_bytes source /\
  zlen block = LZ4_BLOCK_BUFFER_SIZE /\ zlen history = LZ4_WINDOW_SIZE /\ is_bytes history.

(** Input fits its buffer, names are strings, and the static buffers of the codec
    have their sizes. *)
Class SafeMachine (K : Type) `{SafeKernel K} `{!NativeKernel K} := {
  ask_fits (k : K) p n : 0 < n -> is_bytes (fst (dogeio_ask k p n)) /\ zlen (fst (dogeio_ask k p n)) <= n;
  user_string (k : K) : is_bytes (current_user k) /\ zlen (current_user k) = 64 /\
    exists u, cstr (current_user k) u /\ zlen u < 63;
  name_string (k : K) : terminated (computer_name k) /\ terminated (windoge_version k);
  lz4_sizes (k : K) : codec_buffers (lz4_buffers k);
}.

Lemma terminated_cstr p : terminated p -> exists s, cstr p s /\ is_bytes s.
Proof.
  intros [Hb Hin]. induction p as [|c p IH]; [by apply not_elem_of_nil in Hin|].
  apply is_bytes_cons in Hb as [Hc Hb]. destruct (decide (c = 0)) as [->|Hc0].
  - exists []. split; [apply cstr_nil | constructor].
  - apply elem_of_cons in Hin as [?|Hin]; [done|]. destruct (IH Hb Hin) as (s & Hs & Hsb).
    exists (c :: s). split; [by apply cstr_cons | by apply is_bytes_cons].
Qed.

Section Native.
Context {F K : Type} `{SafeNative F} `{SafeMachine K} `{Programs F K}.
Context (s0 : mmu) (l : list Z) (paths : gmap Z (list Z)).

Abbreviation N := (M (native F K)).

Definition nat_ok (s : native F K) : Prop := proc_ok s0 l paths (n_linux s).
Abbreviation I := nat_ok.

(** ** The parts of the state *)

Lemma on_linux_safe {A} (m : M (linux F K) A) Q : safe (proc_ok s0 l paths) m Q -> safe I (on_linux m) Q.
Proof.
  intros Hm s Hs. destruct (Hm _ Hs) as (o & x & E & Hx & Hq). exists o, (with_linux x s).
  split_and!; [unfold on_linux, zoom; by rewrite E | done | done].
Qed.

Lemma mm_safe {A} (m : Mm A) Q : safe (confined s0 l paths) m Q -> safe I (mm m) Q.
Proof. intros. by apply on_linux_safe, on_mm_safe. Qed.

Lemma fs_safe {A} (f : F -> option (A * F)) (Q : A -> Prop) :
  (forall x, store_ok x -> exists a x', f x = Some (a, x') /\ store_ok x' /\ Q a) -> safe I (fs f) Q.
Proof. intros. by apply on_linux_safe, on_fs_safe. Qed.

Lemma kn_safe {A} (f : K -> A * K) (Q : A -> Prop) : (forall k, Q (fst (f k))) -> safe I (kn f) Q.
Proof. intros. by apply on_linux_safe, on_kernel_safe. Qed.

Lemma ask_safe {A} (f : K -> A) (Q : A -> Prop) : (forall k, Q (f k)) -> safe I (ask f) Q.
Proof. intros Hq. apply safe_gets. intros s _. apply Hq. Qed.

Lemma refuse_safe {A} (Q : A -> Prop) : safe I refuse Q.
Proof. apply safe_exit. Qed.

Lemma fs_call_safe f : (forall x, store_ok x -> returns store_ok (f x)) -> safe I (fs_call f) (fun _ => True).
Proof.
  intros Hf. unfold fs_call. apply (safe_bind _ _ _ (fun _ => True)); [|by intros; apply safe_ret].
  apply fs_safe. intros x Hx. destruct (Hf x Hx) as (a & x' & ? & ?). by exists a, x'.
Qed.

Lemma need_string_safe a n :
  is_u64 a -> 0 <= n -> safe I (need_string a n) (fun p => terminated p /\ zlen p <= n).
Proof.
  intros Ha Hn. unfold need_string. eapply safe_bind; [by apply mm_safe, copy_user_string_safe|].
  intros [p|] Hp; [by apply safe_ret | apply refuse_safe].
Qed.

Lemma need_path_safe a : is_u64 a -> safe I (need_path a) terminated.
Proof. intros Ha. eapply safe_conseq; [by apply need_string_safe|]. by intros p [? ?]. Qed.

Lemma usable_safe a n w : is_u64 a -> is_u64 n -> safe I (usable a n w) (checked s0 w a n).
Proof. intros. by apply mm_safe, user_range_safe. Qed.

Lemma guard_safe (c : bool) a n w :
  is_u64 a -> is_u64 n -> safe I (if c then mret false else usable a n w) (checked s0 w a n).
Proof. intros. destruct c; [by apply safe_ret | by apply usable_safe]. Qed.

Lemma need_range_safe a n w :
  is_u64 a -> is_u64 n -> safe I (need_range a n w) (fun _ => n <> 0 -> range_ok s0 w a n).
Proof.
  intros Ha Hn. unfold need_range. destruct (Z.eqb_spec n 0) as [->|]; [by apply safe_ret|].
  eapply safe_bind; [by apply usable_safe|]. intros b Hb. destruct b; [|apply refuse_safe].
  apply safe_ret. by apply Hb.
Qed.

Lemma put_user_safe v n bs :
  range_ok s0 true v n -> zlen bs <= n -> is_bytes bs -> safe I (mm (set_user_bytes v bs)) (fun _ => True).
Proof.
  intros (? & ? & Hacc) Hl Hbs. apply mm_safe, set_user_bytes_safe; [|done]. split_and!; [lia | lia |].
  intros. apply Hacc. lia.
Qed.

Lemma put_checked_safe v n b bs :
  checked s0 true v n b -> negb b = false -> 0 < n -> zlen bs <= n -> is_bytes bs ->
  safe I (mm (set_user_bytes v bs)) (fun _ => True).
Proof. intros Hc Hb Hn. destruct b; [|done]. apply put_user_safe. apply Hc; [done | lia]. Qed.

Lemma fetch_safe n v :
  0 <= n -> (n <> 0 -> range_ok s0 false v n) ->
  safe I (mm (user_bytes (Z.to_nat n) v)) (fun bs => is_bytes bs /\ zlen bs = n).
Proof.
  intros Hn Hr. destruct (decide (n = 0)) as [->|Hn0]; [apply mm_safe, safe_ret; split; [constructor | done]|].
  eapply safe_conseq; [apply mm_safe, user_bytes_safe; rewrite Z2Nat.id by done; by apply Hr|].
  intros bs [? ?]. split; [done | unfold zlen; lia].
Qed.

Lemma need_text_safe a : is_u64 a -> safe I (need_string a USER_STRING_LIMIT) (fun _ => True).
Proof. intros Ha. eapply safe_conseq; [by apply need_string_safe | done]. Qed.

#[local] Hint Resolve refuse_safe need_path_safe usable_safe guard_safe need_range_safe : safe.
#[local] Hint Extern 1 (is_u64 _) => (unfold is_u64; cbn; lia) : safe.
#[local] Hint Extern 1 (0 <= _) => done : safe.

Ltac step := safe_step; try solve [apply refuse_safe | by apply safe_ret].

Lemma limit_u64 n : is_u64 n -> (USER_IO_LIMIT <? n) = false -> 0 <= n <= USER_IO_LIMIT.
Proof. unfold is_u64. intros Hn Hl%Z.ltb_ge. lia. Qed.

(** ** Files *)

Lemma sys_read_file_total p v o n w :
  is_u64 p -> is_u64 v -> is_u64 o -> is_u64 n -> total I (sys_read_file p v o n w) (fun _ => True).
Proof.
  intros Hp Hv Ho Hn. unfold sys_read_file. do 3 step.
  match goal with E : (USER_IO_LIMIT <? n) = false |- _ => pose proof (limit_u64 n Hn E) as Hl end.
  step. step. match goal with E : (n =? 0) = false |- _ => apply Z.eqb_neq in E end.
  apply (safe_bind _ _ _ (fun r => is_bytes (snd r) /\ zlen (snd r) <= n)).
  { apply fs_safe. intros x Hx. unfold USER_IO_LIMIT, INT_MAX, is_u64 in *. destruct w.
    - destruct (safe_read x a o n Hx) as (rc & d & x' & -> & ? & ? & ?); [lia | unfold INT_MAX; lia |]. exists (rc, d), x'. cbn. split_and!; try done. lia.
    - destruct (safe_read_text x a n Hx) as (rc & d & x' & -> & ? & ? & ?); [done | unfold INT_MAX; lia |].
      exists (rc, d), x'. by split_and!. }
  intros [rc d] [Hd Hz]. cbn [fst snd] in *. eapply safe_bind; [|by intros; apply safe_ret].
  eapply put_user_safe; [by auto | done | done].
Qed.

Lemma sys_store_data_total op p v n :
  (forall x p d, store_ok x -> terminated p -> is_bytes d -> returns store_ok (op x p d)) ->
  is_u64 p -> is_u64 v -> is_u64 n -> total I (sys_store_data op p v n) (fun _ => True).
Proof.
  intros Hop Hp Hv Hn. unfold sys_store_data. do 3 step.
  match goal with E : (USER_IO_LIMIT <? n) = false |- _ => pose proof (limit_u64 n Hn E) as Hl end.
  step. eapply safe_bind; [by apply fetch_safe; [lia|]|]. intros d [Hd _].
  apply fs_call_safe. intros x Hx. by apply Hop.
Qed.

Lemma path_call_total op p :
  (forall x p, store_ok x -> terminated p -> returns store_ok (op x p)) -> is_u64 p ->
  total I (sys_path_call op p) (fun _ => True).
Proof. intros Hop Hp. unfold sys_path_call. do 2 step. apply fs_call_safe. intros x Hx. by apply Hop. Qed.

Lemma two_paths_total op p q :
  (forall x p q, store_ok x -> terminated p -> terminated q -> returns store_ok (op x p q)) -> is_u64 p -> is_u64 q ->
  total I (sys_two_paths op p q) (fun _ => True).
Proof. intros Hop Hp Hq. unfold sys_two_paths. do 3 step. apply fs_call_safe. intros x Hx. by apply Hop. Qed.

(** A string that was measured can be read. *)
Lemma user_cstr_bytes s v bs : user_cstr s v bs -> user_bytes (length bs) v s = Some (Val bs, s).
Proof.
  revert v. induction bs as [|c bs IH]; intros v; [done|]. cbn [user_cstr length user_bytes].
  intros (_ & Hc & Hr). mrun (user_byte_ok s v c Hc). destruct (Z.eqb_spec c 0) as [->|].
  - subst bs. done.
  - mrun (IH (v + 1) Hr). done.
Qed.

Lemma string_read s v capacity :
  confined s0 l paths s -> is_u64 v -> 0 <= capacity ->
  exists r, user_string_length v capacity s = Some (Val r, s) /\
    match r with
    | Some n => 0 <= n < capacity /\
        exists bs, user_bytes (Z.to_nat (n + 1)) v s = Some (Val bs, s) /\ terminated bs
    | None => True
    end.
Proof.
  intros Hs Hv Hc. unfold user_string_length. destruct (Z.eqb_spec v 0); [by exists None|].
  destruct (string_loop_ok s l paths (co_as _ _ _ _ Hs) (co_phys _ _ _ _ Hs) (confined_ram _ _ _ s Hs)
    (Z.to_nat capacity) 0 v) as (r & E & Hr); [unfold is_u64 in Hv; lia | done |].
  mrun E. eexists. split; [done|]. destruct r as [bs|]; [|done]. destruct Hr as [Hb Hl]. rewrite Z.add_0_r in Hb.
  destruct (string_bytes _ _ _ s v bs Hs Hb) as [Hbb Hin]. cbn.
  assert (0 < zlen bs) by (destruct bs; [by apply not_elem_of_nil in Hin | zs]). split; [zs|].
  exists bs. split; [|done]. replace (Z.to_nat (zlen bs - 1 + 1)) with (length bs) by zs. by apply user_cstr_bytes.
Qed.

Lemma mm_same {A} (m : Mm A) a (s : native F K) :
  m (x_mm (n_linux s)) = Some (Val a, x_mm (n_linux s)) -> mm m s = Some (Val a, s).
Proof.
  intros E. unfold mm, on_linux, zoom. rewrite (on_mm_same m a (n_linux s) E). by destruct s.
Qed.

Lemma sys_write_file_total p v : is_u64 p -> is_u64 v -> total I (sys_write_file p v) (fun _ => True).
Proof.
  intros Hp Hv. unfold sys_write_file. do 2 step. intros s Hs.
  destruct (string_read (x_mm (n_linux s)) v (USER_IO_LIMIT + 1) (po_mm _ _ _ _ Hs) Hv) as (r & E & Hr); [done|].
  mrun (mm_same _ _ s E). destruct r as [n|]; [|by apply refuse_safe].
  destruct Hr as (_ & bs & Ebs & Hbs). destruct (USER_IO_LIMIT <? n); [by apply refuse_safe|].
  mrun (mm_same _ _ s Ebs). apply fs_call_safe; [|done]. intros x Hx. by apply safe_write_text.
Qed.

Lemma cwd_safe : safe I (fs fs_dirname)
  (fun d => match d with Some c => terminated c /\ is_u64 (zlen c) | None => True end).
Proof. apply fs_safe. intros f Hf. by apply safe_dirname. Qed.

Lemma sys_get_cwd_total v n : is_u64 v -> total I (sys_get_cwd v n) (fun _ => True).
Proof.
  intros Hv. unfold sys_get_cwd. step. eapply safe_bind; [apply cwd_safe|]. intros [c|]; [|intros _; apply refuse_safe].
  intros [Ht Hl]. step. destruct (terminated_cstr c Ht) as (t & Hc & _). pose proof (cstr_zlen c t Hc). pose proof (zlen_nonneg t).
  unfold is_u64 in Hl.
  eapply (safe_bind _ _ _ (fun n => n = zlen t)); [apply safe_lift; exists (zlen t); by rewrite (strlen_cstr c t Hc)|].
  intros ? ->. step. step. destruct (slice_total c 0 (zlen t + 1)) as [text Et]; [lia.. |].
  eapply (safe_bind _ _ _ (fun x => x = text)); [apply safe_lift; by exists text|]. intros ? ->.
  eapply safe_bind; [|by intros; apply safe_ret].
  eapply put_checked_safe; [eassumption | done | lia | by rewrite (slice_zlen _ _ _ _ Et) | by eapply is_bytes_slice; [apply Ht|]].
Qed.

Lemma sys_check_path_access_total p : is_u64 p -> total I (sys_check_path_access p) (fun _ => True).
Proof.
  intros Hp. unfold sys_check_path_access. do 2 step. destruct (terminated_cstr _ Ha) as (t & Ht & _).
  eapply (safe_bind _ _ _ (fun u => exists n, cstr u n /\ zlen n < 63)); [apply ask_safe; apply user_string|].
  intros u (n & Hu & Hn). eapply (safe_bind _ _ _ (fun _ => True)); [|by intros; apply safe_ret].
  apply safe_lift. rewrite (can_access_ok u n _ t Hu Ht Hn). by eexists.
Qed.

Lemma sys_lz4_codec_total op p q : is_u64 p -> is_u64 q -> total I (sys_lz4_codec op p q) (fun _ => True).
Proof.
  intros Hp Hq. unfold sys_lz4_codec. do 4 step.
  destruct (terminated_cstr _ Ha) as (t & Ht & _). destruct (terminated_cstr _ Ha0) as (u & Hu & _).
  eapply (safe_bind _ _ _ (fun _ => True)).
  { apply safe_lift. destruct (strcmp_cstr a t a0 u Ht Hu) as (r & -> & _). by exists r. }
  intros same _. step. eapply (safe_bind _ _ _ (fun i => match i with Some (n, _) => is_u64 n | None => True end)).
  { apply fs_safe. intros x Hx. destruct (safe_info x a Hx Ha) as (i & x' & E & Hx' & Hi). exists i, x'. split_and!; try done.
    destruct i as [[n d]|]; [|done]. pose proof (info_u64 x a n d x' Hx E). unfold is_u64, UINT64_MAX in *. lia. }
  intros [[n d]|] Hn; [|apply refuse_safe]. destruct d; [apply refuse_safe|].
  eapply (safe_bind _ _ _ codec_buffers); [apply ask_safe; intros k; apply lz4_sizes|]. intros [[[out source] block] history] (Ho & Hob & Hsz & Hsb & Hbl & Hh & Hhb).
  apply fs_call_safe. intros x Hx. destruct (op =? _).
  - destruct (lz4_compress_safe_ok x out source block a n a0 Hx Hn Ho Hob Hsz Hsb Hbl) as (rc & x' & -> & _ & ?). by exists rc, x'.
  - destruct (lz4_decompress_safe_ok x history out a n a0 Hx Hn Hh Hhb Ho Hob) as (rc & x' & -> & _ & ?). by exists rc, x'.
Qed.

Lemma fs_info_safe p : terminated p -> safe I (fs (fun f => fs_get_info f p)) (fun _ => True).
Proof.
  intros Hp. apply fs_safe. intros x Hx. destruct (safe_info x p Hx Hp) as (i & x' & ? & ? & _). by exists i, x'.
Qed.

Lemma sys_stat_total p v : is_u64 p -> is_u64 v -> total I (sys_stat p v) (fun _ => True).
Proof.
  intros Hp Hv. unfold sys_stat. do 4 step.
  eapply safe_bind; [eapply put_checked_safe; [eassumption | done | done | done | apply is_bytes_zeros]|]. intros _ _.
  eapply safe_bind; [by apply fs_info_safe|]. intros [[n d]|] _; [|by apply safe_ret].
  eapply safe_bind; [|by intros; apply safe_ret]. eapply put_checked_safe; [eassumption | done | done | |].
  - rewrite !zlen_app, !zlen_le_bytes. done.
  - rewrite !is_bytes_app. split_and!; apply is_bytes_le.
Qed.

Lemma put_names_safe names : forall v n,
  range_ok s0 true v (n * 256) -> zlen names <= n -> Forall (fun b => is_bytes b /\ zlen b <= 256) names ->
  safe I (put_names v names) (fun _ => True).
Proof.
  induction names as [|name names IH]; intros v n Hr Hz Hf; cbn [put_names]; [by apply safe_ret|].
  rewrite zlen_cons in Hz. pose proof (zlen_nonneg names). apply Forall_cons in Hf as [[Hb Hl] Hf].
  destruct Hr as (Hr1 & Hr2 & Hacc).
  eapply safe_bind; [eapply (put_user_safe v 256); [|done|done]; split_and!; [lia | lia | intros; apply Hacc; lia]|].
  intros _ _. apply (IH _ (n - 1)); [|lia|done]. split_and!; [lia | lia |]. intros. apply Hacc. lia.
Qed.

Lemma sys_list_dir_total v n : is_u64 v -> is_u64 n -> total I (sys_list_dir v n) (fun _ => True).
Proof.
  intros Hv Hn. unfold sys_list_dir. do 2 step.
  match goal with E : _ || _ = false |- _ => apply orb_false_iff in E as [E1%Z.eqb_neq E2%Z.ltb_ge] end.
  change (USER_IO_LIMIT / 256) with 256 in *. unfold is_u64 in Hn. step. step.
  eapply safe_bind; [apply cwd_safe|]. intros [c|]; [|intros _; apply refuse_safe]. intros [Hc _].
  eapply (safe_bind _ _ _ (fun r => zlen (snd r) <= n /\ Forall (fun b => is_bytes b /\ zlen b <= 256) (snd r))).
  { apply fs_safe. intros x Hx. destruct (safe_list x c n Hx Hc) as (rc & names & x' & -> & ? & ? & ?); [lia|].
    exists (rc, names), x'. by split_and!. }
  intros [rc names] [Hz Hf]. cbn [snd] in *. eapply safe_bind; [|by intros; apply safe_ret].
  apply (put_names_safe _ _ n); [|done|done]. destruct a; [|done]. apply Ha; [done | lia].
Qed.

(** ** The machine and the console *)

Lemma sys_list_tasks_total v n : is_u64 v -> is_u64 n -> total I (sys_list_tasks v n) (fun _ => True).
Proof.
  intros Hv Hn. unfold sys_list_tasks. step. unfold is_u64 in Hn.
  apply (safe_bind _ _ _ (fun b => b = true -> n <> 0 -> range_ok s0 true v (n * TASK_INFO_SIZE))).
  { apply safe_if; [by intros; apply safe_ret|]. intros E%Z.ltb_ge. unfold SCHEDULER_TASK_LIMIT in E.
    apply safe_if; [intros ->%Z.eqb_eq; by apply safe_ret|]. intros _.
    apply safe_if; [by intros; apply safe_ret|]. intros _.
    eapply safe_conseq; [apply usable_safe; [done | unfold is_u64, TASK_INFO_SIZE; lia]|].
    intros b Hb -> Hn0. apply Hb; [done | unfold TASK_INFO_SIZE; lia]. }
  intros b Hb. step. destruct b; [|done]. eapply (safe_bind _ _ _ (fun _ => True)); [by apply ask_safe|].
  intros [count tasks] _. eapply (safe_bind _ _ _ (fun _ => True)); [|by intros; apply safe_ret].
  set (c := if count <? n then count else n). assert (c <= n) as Hcn.
  { unfold c. destruct (Z.ltb_spec count n); lia. }
  step. assert (c <> 0) as Hc0. { match goal with E : negb _ = true |- _ => by apply negb_true_iff, Z.eqb_neq in E end. }
  destruct (decide (n = 0)) as [->|Hn0].
  { replace (Z.to_nat c) with 0%nat by lia. rewrite take_0. apply mm_safe, safe_ret. done. }
  assert (forall ts, zlen (concat (task_bytes <$> ts)) = 12 * zlen ts /\ is_bytes (concat (task_bytes <$> ts))) as Hts.
  { induction ts as [|[[pid st] ws] ts [IHl IHb]]; [split; [done | constructor]|]. cbn [fmap list_fmap concat].
    unfold task_bytes at 1 3. rewrite !zlen_app, !zlen_le_bytes, zlen_cons, IHl. split; [lia|].
    rewrite !is_bytes_app. split_and!; [apply is_bytes_le.. | done]. }
  eapply put_user_safe; [by apply Hb | | apply Hts]. rewrite (proj1 (Hts _)). unfold TASK_INFO_SIZE.
  assert (zlen (take (Z.to_nat c) tasks) <= n) by (unfold zlen; rewrite length_take; lia). lia.
Qed.

Lemma uname_loop_ok k : forall source t,
  cstr source t -> is_bytes t -> exists text, uname_loop k source = Some text /\ is_bytes text /\ (length text <= k)%nat.
Proof.
  induction k as [|k IH]; intros source t Hc Hb; cbn [uname_loop]; [exists []; split_and!; [done | constructor | done]|].
  apply cstr_inv in Hc as [(-> & u & ->)|(c & t' & u & -> & -> & Hc0 & Hc)].
  - cbn. exists []. split_and!; [done | constructor | cbn; lia].
  - change (rd (c :: u) 0) with (Some c). cbn [mbind option_bind]. rewrite eqb_neq by done.
    apply is_bytes_cons in Hb as [Hcb Hb]. change (drop 1 (c :: u)) with u.
    destruct (IH u t' Hc Hb) as (text & -> & Ht & Hl). exists (c :: text). cbn.
    split_and!; [done | by apply is_bytes_cons | lia].
Qed.

Lemma uname_field_ok source : terminated source ->
  exists t, copy_uname_field source = Some t /\ is_bytes t /\ zlen t = 65.
Proof.
  intros Hs. destruct (terminated_cstr source Hs) as (t & Hc & Hb). unfold copy_uname_field.
  destruct (uname_loop_ok 64 source t Hc Hb) as (text & -> & Ht & Hl). cbn [mbind option_bind]. eexists. split_and!; [done | |].
  - apply is_bytes_app. split; [done | apply is_bytes_zeros].
  - rewrite zlen_app. unfold zeros. rewrite zlen_replicate. unfold zlen. lia.
Qed.

Definition field (t : bytes) : Prop := is_bytes t /\ zlen t = 65.

Lemma field_safe source : terminated source -> safe I (lift (copy_uname_field source)) field.
Proof. intros Hs. apply safe_lift. destruct (uname_field_ok source Hs) as (t & ? & ?). by exists t. Qed.

Lemma clit_terminated t : terminated (clit t).
Proof.
  split; [apply is_bytes_app; split; [apply is_bytes_lit | by repeat constructor]|].
  apply elem_of_app. right. apply list_elem_of_here.
Qed.

#[local] Hint Resolve field_safe clit_terminated : safe.

Lemma sys_get_uname_total v : is_u64 v -> total I (sys_get_uname v) (fun _ => True).
Proof.
  intros Hv. unfold sys_get_uname. do 3 step.
  eapply (safe_bind _ _ _ terminated); [apply ask_safe, name_string|]. intros name Hname.
  eapply (safe_bind _ _ _ terminated); [apply ask_safe, name_string|]. intros version Hversion.
  eapply (safe_bind _ _ _ (fun _ => True)).
  { apply safe_lift. destruct name as [|c name]; [destruct Hname as [_ Hin]; by apply not_elem_of_nil in Hin | by exists c]. }
  intros n0 _. step. eapply safe_bind; [apply field_safe; destruct (negb (n0 =? 0)); [done | apply clit_terminated]|].
  intros node Hnode. do 2 step. eapply safe_bind; [|by intros; apply safe_ret].
  destruct Ha0 as [? Hl1], Hnode as [? Hl2], Ha1 as [? Hl3], Ha2 as [? Hl4].
  eapply put_checked_safe; [eassumption | done | done | |].
  - rewrite !zlen_app, Hl1, Hl2, Hl3, Hl4. done.
  - rewrite !is_bytes_app. split_and!; try done. apply is_bytes_zeros.
Qed.

Lemma draw_random_safe k : safe I (draw_random k) (fun _ => True).
Proof.
  induction k as [|k IH]; cbn [draw_random]; [by apply safe_ret|].
  eapply (safe_bind _ _ _ (fun _ => True)); [by apply kn_safe|]. intros [v|] _; [by apply safe_ret | done].
Qed.

Lemma random_loop_safe fuel v n : forall written,
  range_ok s0 true v n -> 0 <= written <= n -> n - written < Z.of_nat fuel ->
  safe I (random_loop fuel v n written) (fun _ => True).
Proof.
  induction fuel as [|fuel IH]; intros written Hr Hw Hf; [lia|]. cbn [random_loop].
  destruct (Z.ltb_spec written n) as [Hlt|]; [|by apply safe_ret].
  eapply safe_bind; [apply draw_random_safe|]. intros [r|] _; [|by apply safe_ret].
  set (c := if 8 <? n - written then 8 else n - written).
  assert (0 < c <= n - written /\ c <= 8) as Hc by (unfold c; destruct (Z.ltb_spec 8 (n - written)); lia).
  eapply safe_bind.
  - apply (put_user_safe _ c).
    + destruct Hr as (? & ? & Hacc). split_and!; [lia | lia |]. intros. apply Hacc. lia.
    + unfold zlen. rewrite length_take. lia.
    + apply Forall_take, is_bytes_le.
  - intros _ _. apply IH; [done | lia | lia].
Qed.

Lemma native_random_bytes_total v n : is_u64 v -> is_u64 n -> total I (native_random_bytes v n) (fun _ => True).
Proof.
  intros Hv Hn. unfold native_random_bytes. step. step.
  match goal with E : (n =? 0) = false |- _ => apply Z.eqb_neq in E end.
  eapply (safe_bind _ _ _ (fun _ => True)); [by apply safe_gets|]. intros rd _. step. step. step.
  unfold is_u64 in Hn. apply random_loop_safe; [|lia|lia]. destruct a; [|done]. by apply Ha.
Qed.

Lemma name_length_ok k : forall user u,
  cstr user u -> (length u < k)%nat -> name_length k user = Some (zlen u).
Proof.
  induction k as [|k IH]; intros user u Hc Hk; [lia|]. cbn [name_length].
  apply cstr_inv in Hc as [(-> & t & ->)|(c & u' & t & -> & -> & Hc0 & Hc)]; [done|].
  change (rd (c :: t) 0) with (Some c). cbn [mbind option_bind]. rewrite eqb_neq by done.
  change (drop 1 (c :: t)) with t. rewrite (IH t u' Hc) by (cbn in Hk; lia). cbn [mbind option_bind]. f_equal. zs.
Qed.

Lemma sys_get_user_name_total v n : is_u64 v -> total I (sys_get_user_name v n) (fun _ => True).
Proof.
  intros Hv. unfold sys_get_user_name. step.
  eapply (safe_bind _ _ _ (fun b => is_bytes b /\ zlen b = 64 /\ exists u, cstr b u /\ zlen u < 63)); [apply ask_safe, user_string|].
  intros b (Hb & Hz & u & Hu & Hl). pose proof (zlen_nonneg u).
  eapply (safe_bind _ _ _ (fun n => n = zlen u)).
  { apply safe_lift. exists (zlen u). split; [|done]. apply name_length_ok; [done | unfold zlen in Hl; lia]. }
  intros ? ->. step. step. step. destruct (slice_total b 0 (zlen u + 1)) as [text Et]; [lia.. |].
  eapply (safe_bind _ _ _ (fun x => x = text)); [apply safe_lift; by exists text|]. intros ? ->.
  eapply safe_bind; [|by intros; apply safe_ret].
  eapply put_checked_safe; [eassumption | done | lia | by rewrite (slice_zlen _ _ _ _ Et) | by eapply is_bytes_slice].
Qed.

Lemma sys_get_time_total v : is_u64 v -> total I (sys_get_time v) (fun _ => True).
Proof.
  intros Hv. unfold sys_get_time. do 3 step. eapply (safe_bind _ _ _ (fun _ => True)); [by apply kn_safe|]. intros e _.
  eapply safe_bind; [|by intros; apply safe_ret].
  eapply put_checked_safe; [eassumption | done | done | by rewrite zlen_le_bytes | apply is_bytes_le].
Qed.

Lemma sys_read_mouse_total x y b : is_u64 x -> is_u64 y -> is_u64 b -> total I (sys_read_mouse x y b) (fun _ => True).
Proof.
  intros Hx Hy Hb. unfold sys_read_mouse. do 8 step.
  eapply (safe_bind _ _ _ (fun _ => True)); [by apply kn_safe|]. intros [[[r dx] dy] bs] _.
  eapply (safe_bind _ _ _ (fun _ => True)); [|by intros; apply safe_ret]. step.
  eapply safe_bind; [eapply put_checked_safe; [exact Ha | done | done | by rewrite zlen_le_bytes | apply is_bytes_le]|]. intros _ _.
  eapply safe_bind; [eapply put_checked_safe; [exact Ha0 | done | done | by rewrite zlen_le_bytes | apply is_bytes_le]|]. intros _ _.
  eapply put_checked_safe; [exact Ha1 | done | done | by rewrite zlen_le_bytes | apply is_bytes_le].
Qed.

Lemma sys_print_total t : is_u64 t -> total I (sys_print t) (fun _ => True).
Proof.
  intros Ht. unfold sys_print. step. eapply safe_bind; [by apply need_text_safe|]. intros text _. eapply (safe_bind _ _ _ (fun _ => True)); [by apply kn_safe | by intros; apply safe_ret].
Qed.

Lemma sys_input_total p v n : is_u64 p -> is_u64 v -> is_u64 n -> total I (sys_input p v n) (fun _ => True).
Proof.
  intros Hp Hv Hn. unfold sys_input. step. eapply safe_bind; [by apply need_text_safe|]. intros prompt _. step.
  match goal with E : _ || _ = false |- _ => apply orb_false_iff in E as [E1%Z.eqb_neq E2%Z.ltb_ge] end.
  step. step. assert (0 < n) by (unfold is_u64 in Hn; lia).
  eapply (safe_bind _ _ _ (fun t => is_bytes t /\ zlen t <= n)); [apply kn_safe; intros k; by apply ask_fits|].
  intros t [Ht Hl]. eapply safe_bind; [by eapply put_checked_safe|]. intros _ _.
  eapply (safe_bind _ _ _ (fun _ => True)).
  { eapply safe_conseq; [apply mm_safe, user_string_length_safe; [done | lia] | done]. }
  intros [m|] _; [by apply safe_ret | apply refuse_safe].
Qed.

Lemma sys_print_at_total t x y c : is_u64 t -> total I (sys_print_at t x y c) (fun _ => True).
Proof.
  intros Ht. unfold sys_print_at. do 2 step. eapply safe_bind; [by apply need_text_safe|]. intros text _. eapply (safe_bind _ _ _ (fun _ => True)); [by apply kn_safe | by intros; apply safe_ret].
Qed.

Lemma kn_total {A} (f : K -> A * K) : total I (kn f) (fun _ => True).
Proof.
  intros s [Hf Hi Hs Hc]. unfold kn, on_linux, zoom, LinuxCalls.on_kernel. destruct (f (x_kernel (n_linux s))) as [a k].
  eexists a, _. split_and!; [done | by constructor | done].
Qed.

Lemma sys_console_total op : total I (sys_console op) (fun _ => True).
Proof. eapply total_bind; [apply kn_total | by intros; apply total_ret]. Qed.

Lemma sys_system_control_total c : total I (sys_system_control c) (fun _ => True).
Proof.
  unfold sys_system_control. step. eapply (safe_bind _ _ _ (fun _ => True)); [|by intros; apply safe_ret].
  repeat (apply safe_if; intros _); [| |apply refuse_safe];
    (eapply safe_bind; [apply total_safe, kn_total | by intros; apply safe_ret]).
Qed.

(** ** The dispatcher *)

Lemma create_returns x p : store_ok x -> terminated p -> returns store_ok (fs_create x p).
Proof. intros Hx _. destruct (safe_create x p Hx) as (rc & x' & ? & ?). by exists rc, x'. Qed.

Lemma delete_returns x p : store_ok x -> terminated p -> returns store_ok (fs_delete x p).
Proof. intros Hx _. destruct (safe_delete x p Hx) as (rc & x' & ? & ?). by exists rc, x'. Qed.

Lemma append_returns x p d : store_ok x -> terminated p -> is_bytes d -> returns store_ok (fs_append_data x p d).
Proof. intros Hx _ Hd. destruct (safe_append x p d Hx Hd) as (rc & x' & ? & ?). by exists rc, x'. Qed.

Lemma write_returns x p d : store_ok x -> terminated p -> is_bytes d -> returns store_ok (fs_write_bytes x p d).
Proof. intros Hx Hp Hd. destruct (safe_write x p d Hx Hp Hd) as (rc & x' & ? & ?). by exists rc, x'. Qed.

Lemma fs_total {A} (f : F -> option (A * F)) :
  (forall x, store_ok x -> returns store_ok (f x)) -> total I (fs f) (fun _ => True).
Proof.
  intros Hf s [Hfd Hi Hs Hc]. destruct (Hf _ Hs) as (a & x & E & Hx).
  exists a, (with_linux (LinuxProofs.with_fs x (n_linux s)) s). split_and!; [|by constructor|done].
  unfold fs, on_linux, zoom. by rewrite (on_fs_run f a x (n_linux s) E).
Qed.

Lemma ask_total {A} (f : K -> A) : total I (ask f) (fun _ => True).
Proof. intros s Hs. by exists (f (x_kernel (n_linux s))), s. Qed.

(** The shell, the calls that run, start or kill programs, and those that change
    mappings or take pages. *)
Definition OTHER_NATIVE_CALLS : list Z := [21; 22; 28; 29; 30; 39; 40; 53; 54; 57; 61; 62].

(** The lemma of the call. *)
Ltac native_case :=
  lazymatch goal with
  | |- total _ (mret _) _ => by apply total_ret
  | |- total _ (sys_read_file _ _ _ _ _) _ => by apply sys_read_file_total
  | |- total _ (sys_write_file _ _) _ => by apply sys_write_file_total
  | |- total _ (sys_path_call _ _) _ =>
      apply path_call_total; [first [exact create_returns | exact delete_returns | exact safe_mkdir | exact safe_exists
                                    | exact safe_chdir | exact safe_last_line] | done]
  | |- total _ (sys_two_paths _ _ _) _ =>
      apply two_paths_total; [first [exact safe_rename | exact safe_copy | exact safe_move] | done | done]
  | |- total _ (sys_store_data _ _ _ _) _ =>
      apply sys_store_data_total; [first [exact append_returns | exact write_returns] | done | done | done]
  | |- total _ (sys_print _) _ => by apply sys_print_total
  | |- total _ (sys_console _) _ => apply sys_console_total
  | |- total _ (sys_console_value _) _ => apply kn_total
  | |- total _ (sys_input _ _ _) _ => by apply sys_input_total
  | |- total _ (sys_print_at _ _ _ _) _ => by apply sys_print_at_total
  | |- total _ (sys_get_time _) _ => by apply sys_get_time_total
  | |- total _ (sys_stat _ _) _ => by apply sys_stat_total
  | |- total _ (sys_get_cwd _ _) _ => by apply sys_get_cwd_total
  | |- total _ (sys_get_uname _) _ => by apply sys_get_uname_total
  | |- total _ (if _ then _ else _) _ =>
      destruct (negb _); [by apply total_ret | by apply native_random_bytes_total]
  | |- total _ (sys_get_user_name _ _) _ => by apply sys_get_user_name_total
  | |- total _ (sys_list_dir _ _) _ => by apply sys_list_dir_total
  | |- total _ (sys_check_path_access _) _ => by apply sys_check_path_access_total
  | |- total _ (sys_system_control _) _ => by apply sys_system_control_total
  | |- total _ (sys_lz4_codec _ _ _) _ => by apply sys_lz4_codec_total
  | |- total _ (sys_list_tasks _ _) _ => by apply sys_list_tasks_total
  | |- total _ (sys_read_mouse _ _ _) _ => by apply sys_read_mouse_total
  | |- total _ (fs_call _) _ => eapply total_bind; [apply fs_total; intros; by apply safe_select | by intros; apply total_ret]
  | |- total _ (ask _ ≫= _) _ => eapply total_bind; [apply ask_total | by intros; apply total_ret]
  | |- total _ (kn _ ≫= _) _ => eapply total_bind; [apply kn_total | by intros; apply total_ret]
  | |- total _ (fs _ ≫= _) _ => eapply total_bind; [apply fs_total; intros; by apply safe_drive | by intros; apply total_ret]
  end.

Lemma native_call_total r :
  regs_ok r -> rax r ∉ OTHER_NATIVE_CALLS -> total I (native_call r) (fun _ => True).
Proof.
  intros (Hdi & Hsi & Hdx & Hr10 & Hr8 & Hr9 & Hrc) Hother. assert (is_u64 0) as Hz by by unfold is_u64.
  revert Hother. unfold native_call, OTHER_NATIVE_CALLS. generalize (rax r). intros n Hother.
  assert (forall k, k ∈ [21; 22; 28; 29; 30; 39; 40; 53; 54; 57; 61; 62] -> n <> k) as Hne by (intros k Hk ->; done).
  clear Hother.
  repeat match goal with
  | |- context [match ?x with _ => _ end] => is_var x; destruct x
  end; first [native_case | exfalso; refine (Hne _ _ eq_refl); apply (bool_decide_unpack _); exact Logic.I].
Qed.
End Native.

Section Handler.
Context {F K : Type} `{SafeNative F} `{SafeMachine K} `{Programs F K}.
Implicit Types s : native F K.

Definition caller_ok s (l : list Z) (paths : gmap Z (list Z)) : Prop := process_ok (n_linux s) l paths.

(** The calls of the active convention that the theorem leaves out. *)
Definition left_out s : list Z :=
  if linux_syscall_abi_active s then OTHER_CALLS else 60 :: OTHER_NATIVE_CALLS.

(** The memory of the calling program. *)
Definition memory s : mmu := x_mm (n_linux s).


End Handler.

(** ** Native system calls on a concrete machine

    An in-memory file system with flat names, a console that prints nothing, and
    no other programs: the theorems on the native calls at work, and what some of
    the calls do that a caller would not expect. *)

(** ** The file system *)

Record flat := Flat { names : MemStore.t }.

Definition on_names {A} (r : option (A * MemStore.t)) : option (A * flat) := '(a, f) ← r; Some (a, Flat f).

#[global] Instance flat_files : FileStore flat := {
  fs_create f p := on_names (fs_create (names f) p);
  fs_delete f p := on_names (fs_delete (names f) p);
  fs_append_data f p d := on_names (fs_append_data (names f) p d);
  fs_read_raw_at f p o n := on_names (fs_read_raw_at (names f) p o n);
}.

#[global] Instance flat_safe : SafeStore flat.
Proof.
  refine {| store_ok := fun f => store_ok (names f) |}.
  - intros f p Hf. destruct (safe_create (names f) p Hf) as (rc & f' & E & ?). exists rc, (Flat f'). split; [|done]. change (on_names (fs_create (names f) p) = Some (rc, Flat f')). by rewrite E.
  - intros f p Hf. destruct (safe_delete (names f) p Hf) as (rc & f' & E & ?). exists rc, (Flat f'). split; [|done]. change (on_names (fs_delete (names f) p) = Some (rc, Flat f')). by rewrite E.
  - intros f p d Hf Hd. destruct (safe_append (names f) p d Hf Hd) as (rc & f' & E & ?). exists rc, (Flat f').
    split; [|done]. change (on_names (fs_append_data (names f) p d) = Some (rc, Flat f')). by rewrite E.
  - intros f p o n Hf Ho Hn. destruct (safe_read (names f) p o n Hf Ho Hn) as (rc & d & f' & E & ? & ? & ?).
    exists rc, d, (Flat f'). split; [|done]. change (on_names (fs_read_raw_at (names f) p o n) = Some ((rc, d), Flat f')). by rewrite E.
Defined.

#[global] Instance flat_exec : ExecStore flat := {
  fs_exists f p := on_names (fs_exists (names f) p);
  fs_get_info f p := Some ((fun c => (u64 (zlen c), false)) <$> MemStore.files (names f) !! p, f);
}.

#[global] Instance flat_linux : LinuxStore flat := {
  fs_write_bytes f p d := on_names (fs_write_bytes (names f) p d);
  fs_dirname f := Some (Some (lit "/" ++ [0]), f);
}.

(** Directories, copies and listings are refused; texts lose their terminator. *)
#[global] Instance flat_native : NativeStore flat := {
  fs_read f p n := on_names (fs_read_raw_at (names f) p 0 n);
  fs_write f p t := on_names (fs_write_bytes (names f) p (take (length t - 1) t));
  fs_mkdir f _ := Some (-1, f);
  fs_rename f _ _ := Some (0, f);
  fs_chdir f _ := Some (-1, f);
  fs_delete_last_line f _ := Some (-1, f);
  fs_copy f _ _ := Some (-1, f);
  fs_move f _ _ := Some (0, f);
  fs_select_drive f _ := Some (-1, f);
  fs_current_drive f := Some (0, f);
  fs_list_entries f _ _ := Some (0, [], f);
  fs_check_access f _ := Some (0, f);
}.

#[global] Instance flat_safe_linux : SafeLinux flat.
Proof.
  constructor.
  - intros f p Hf _. eexists _, f. split; [done|]. split; [done|].
    destruct (MemStore.files (names f) !! p) as [c|]; [apply u64_range | done].
  - intros f p d Hf Hp Hd. destruct (safe_write (names f) p d Hf Hp Hd) as (rc & f' & E & ?). exists rc, (Flat f').
    split; [|done]. change (on_names (fs_write_bytes (names f) p d) = Some (rc, Flat f')). by rewrite E.
  - intros f Hf. eexists _, f. split; [done|]. split; [done|]. split; [|vm_compute; done].
    split; [repeat constructor; done | apply (bool_decide_unpack _); vm_compute; exact I].
Qed.

#[global] Instance flat_safe_native : SafeNative flat.
Proof.
  constructor; try (intros; by eexists _, _).
  - intros f p n Hf Hp Hn. destruct (safe_read (names f) p 0 n Hf) as (rc & d & f' & E & ? & ? & ?); [done | done |].
    exists rc, d, (Flat f'). split; [change (on_names (fs_read_raw_at (names f) p 0 n) = Some ((rc, d), Flat f')); by rewrite E|].
    split_and!; try done. lia.
  - intros f p d Hf Hp [Hd _]. destruct (safe_write (names f) p (take (length d - 1) d) Hf Hp) as (rc & f' & E & ?);
      [by apply Forall_take|]. exists rc, (Flat f'). split; [|done].
    change (on_names (fs_write_bytes (names f) p (take (length d - 1) d)) = Some (rc, Flat f')). by rewrite E.
  - intros f p n Hf Hp Hn. exists 0, [], f. split; [done|]. split; [done|]. split; [change (0 <= n); lia | constructor].
  - intros f p n d f' Hf E. cbn in E. destruct (MemStore.files (names f) !! p) as [c|]; [|done]. injection E as <- _ _.
    pose proof (u64_range (zlen c)) as Hu. unfold is_u64, UINT64_MAX in *. lia.
Qed.

(** ** The machine *)

#[global] Instance quiet_machine : NativeKernel unit := {
  dogeio_print k _ := k;
  dogeio_ask k _ n := (zeros (Z.to_nat n), k);
  console k op := (0, k);
  dogeio_mouse_read k := ((0, 0, 0, 0), k);
  try_rdrand k := (Some 0, k);
  current_user _ := lit "doge" ++ zeros 60;
  computer_name _ := [0];
  windoge_version _ := lit "1" ++ [0];
  scheduler_list _ _ := (1, [(2, 1, 0)]);
  launcher _ := (0, 0);
  set_launcher k _ := k;
  cpu_frame _ := (0, 0);
  lz4_buffers _ := (zeros (Z.to_nat LZ4_OUTPUT_SIZE), zeros (Z.to_nat LZ4_READ_AHEAD_SIZE),
                    zeros (Z.to_nat LZ4_BLOCK_BUFFER_SIZE), zeros (Z.to_nat LZ4_WINDOW_SIZE));
}.

Lemma zlen_zeroes n : 0 <= n -> zlen (zeros (Z.to_nat n)) = n.
Proof. intros. unfold zeros. rewrite zlen_replicate. lia. Qed.

#[global] Instance quiet_safe : SafeMachine unit.
Proof.
  constructor.
  - intros k p n Hn. cbn [fst dogeio_ask quiet_machine]. rewrite zlen_zeroes by lia. split; [apply is_bytes_zeros | lia].
  - intros k. split; [apply is_bytes_app; split; [apply is_bytes_lit | apply is_bytes_zeros]|]. split; [done|].
    exists (lit "doge"). split; [|done]. exists (zeros 59). split; [done | repeat constructor; done].
  - intros k. split; split; first [repeat constructor; done | apply (bool_decide_unpack _); vm_compute; exact I].
  - intros k. unfold codec_buffers, lz4_buffers, quiet_machine.
    rewrite !zlen_zeroes by done. split_and!; try done; apply is_bytes_zeros.
Qed.

(** No program can be run; a spawn fails without an id. *)
#[global] Instance no_programs : Programs flat unit := {
  system_run_elf_args s _ _ _ := Some (-1, s);
  scheduler_spawn_elf s _ _ _ := Some (-1, None, s);
  scheduler_kill s _ := Some (-1, s);
  kernel_package s _ := Some (-1, s);
  system s _ := Some (-1, s);
}.

Definition machine_of (m : mmu) : native flat unit :=
  Native (Linux note_proc (zeros (Z.to_nat LINUX_FILE_IO_LIMIT)) m (Flat note_fs) tt) false 0 1 true.

Lemma machine_hello_ok : exists l paths, caller_ok (machine_of hello) l paths.
Proof.
  destruct process_hello_ok as (l & paths & [Hf Hi Hs Hc]). exists l, paths. by constructor.
Qed.


(** ** What a caller would not expect *)

(** [DRAW_REC] takes the height of the rectangle from [rcx], where the [syscall]
    instruction leaves the return address; the library passes it in [r10], which
    has no effect. *)
Lemma draw_rec_ignores_height x y w h1 h2 c ip :
  native_call (F:=flat) (K:=unit) (Regs 47 x y w h1 c 0 ip) = native_call (Regs 47 x y w h2 c 0 ip).
Proof. reflexivity. Qed.

(** [EXPAND_USER_PAGES] takes a page from the allocator and forgets it: no
    address of the program is mapped to it. *)
Lemma expand_user_pages_leaks m p l paths :
  as_ok m (p :: l) paths ->
  exists m', sys_expand_user_pages (machine_of m) = Some (Val 1, machine_of m') /\ as_ok m' l paths /\
    forall v, pml4_index v < 256 -> mapping m' v = mapping m v.
Proof.
  intros Hok. destruct (as_alloc m p l paths Hok) as (m' & E & Hok' & _ & _ & _ & _ & _ & _ & Hmap).
  exists m'. split; [|by split]. unfold sys_expand_user_pages, mm, on_linux, LinuxCalls.on_mm, zoom, mbind, M_bind.
  cbn [n_linux x_mm machine_of]. by rewrite E.
Qed.

(** A program with the path of an executable at [0x400000] and a page of its own
    at [0x800000]. *)
Definition spawner : native flat unit :=
  let m := MMU demo_ram 0x1000 0 (Some [MemmapEntry 0x2000 0x20000 LIMINE_MEMMAP_USABLE]) (Some 0) 0 0 0 in
  let prepare : Mm unit :=
    p ← pmm_alloc_zeroed_page;
    store p (le_val (lit "/a" ++ zeros 6));;
    map_user_page 0x400000 p;;
    q ← pmm_alloc_zeroed_page;
    map_user_page 0x800000 q in
  match prepare m with
  | Some (_, m) =>
      Native (Linux zero_linux [] m (Flat (MemStore.mk {[lit "/a" ++ [0] := lit "elf"]})) tt) false 0 1 true
  | None => machine_of m
  end.

(** A scheduler that starts every program. *)
Definition eager_programs : Programs flat unit := {|
  system_run_elf_args s _ _ _ := Some (-1, s);
  scheduler_spawn_elf s _ _ _ := Some (0, Some 2, s);
  scheduler_kill s _ := Some (-1, s);
  kernel_package s _ := Some (-1, s);
  system s _ := Some (-1, s);
|}.

Definition is_mapped (v : Z) (s : native flat unit) : option bool :=
  match user_page_mapped v (memory s) with Some (Val b, _) => Some b | _ => None end.

(** [SPAWN_TASK] ignores the result of [scheduler_spawn_elf]: when it fails, the
    call returns a variable that was never written. *)
Lemma spawn_failure_undefined : sys_spawn_task 0x400000 0 spawner = None.
Proof. vm_compute. reflexivity. Qed.

(** It also maps scratch pages at [0x800000] into the caller, over what the caller
    has there, and unmaps them afterwards: the caller loses its page. *)
Lemma spawn_unmaps_caller :
  is_mapped 0x800000 spawner = Some true /\
  match @sys_spawn_task flat unit _ _ _ _ _ _ eager_programs 0x400000 0 spawner with
  | Some (Val pid, s) => pid = 2 /\ is_mapped 0x800000 s = Some false
  | _ => False
  end.
Proof. vm_compute. repeat split. Qed.
