(* ===== verification/Console.v ===== *)
(** * The text console (helper/dogeio/raw.c, helper/dogeio/print.c, kernel/tui/menubar.c)

    The character cells, the cursor, the colours and the frame buffer.  The frame
    buffer is a map from pixel indices to colours with a size; a pixel outside it
    is undefined behaviour, like an access outside one of the arrays, and like an
    overflow of a signed integer.  The date and the time of the menu bar come
    from [Clock].  [depth] bounds the nesting of the menu bar: scrolling draws the
    bar, which prints a line that does not scroll. *)

From S2P Require Import Prelude CMonad CString.

Definition TERMINAL_COLS : Z := 160.
Definition TERMINAL_ROWS : Z := 50.
Definition CELLS : Z := TERMINAL_ROWS * TERMINAL_COLS.
Definition MAX_TERMINALS : Z := 4.
Definition COLOR_BRIGHT_RED : Z := 0xE74856.
Definition c_space : Z := 32.

Definition ansi_colors : list Z := [
  0x000000; 0xAA0000; 0x00AA00; 0xAA5500; 0x0000AA; 0xAA00AA; 0x00AAAA; 0xAAAAAA;
  0x555555; 0xFF5555; 0x55FF55; 0xFFFF55; 0x5555FF; 0xFF55FF; 0x55FFFF; 0xFFFFFFFF].

Definition brightness_factors : list Z := [0; 26; 51; 77; 102; 128; 154; 179; 205; 230; 256].

(** The first frame buffer of the response; [pitch] is in bytes. *)
Record framebuffer := Framebuffer { fb_width : Z; fb_height : Z; fb_pitch : Z; fb_pixels : gmap Z Z }.

Definition u64_pitch (f : framebuffer) : Z := fb_pitch f / 4.
Definition fb_size (f : framebuffer) : Z := fb_height f * u64_pitch f.

(** [date_get] and [time_get]; [None] is a NULL pointer. *)
Class Clock (W : Type) := {
  date_get : W -> option bytes * W;
  time_get : W -> option bytes * W;
}.

Record screen (W : Type) := Screen {
  text_grid : list Z;
  text_color_grid : list Z;
  bg_color_grid : list Z;
  cursor_x : Z;
  cursor_y : Z;
  dogeio_cursor_visible : bool;
  dogeio_color : Z;
  dogeio_background_color : Z;
  dogeio_video_mode : bool;
  video_cursor_x : Z;
  video_cursor_y : Z;
  framebuffer_response : option framebuffer;
  render_enabled : bool;                  (* [dogeio_framebuffer_render_enabled] *)
  current_brightness_level : Z;
  current_font : bytes;
  is_kernel_dead : bool;
  is_setup : bool;
  windoge_version : option bytes;
  current_terminal_id : Z;
  world : W;
}.
Arguments Screen {W}.
Arguments text_grid {W}.
Arguments text_color_grid {W}.
Arguments bg_color_grid {W}.
Arguments cursor_x {W}.
Arguments cursor_y {W}.
Arguments dogeio_cursor_visible {W}.
Arguments dogeio_color {W}.
Arguments dogeio_background_color {W}.
Arguments dogeio_video_mode {W}.
Arguments video_cursor_x {W}.
Arguments video_cursor_y {W}.
Arguments framebuffer_response {W}.
Arguments render_enabled {W}.
Arguments current_brightness_level {W}.
Arguments current_font {W}.
Arguments is_kernel_dead {W}.
Arguments is_setup {W}.
Arguments windoge_version {W}.
Arguments current_terminal_id {W}.
Arguments world {W}.

Section Console.
Context {W : Type} `{Clock W}.

Abbreviation C := (M (screen W)).

(** ** Assignments *)

Definition with_cells (t c b : list Z) (s : screen W) : screen W :=
  Screen t c b (cursor_x s) (cursor_y s) (dogeio_cursor_visible s) (dogeio_color s) (dogeio_background_color s)
    (dogeio_video_mode s) (video_cursor_x s) (video_cursor_y s) (framebuffer_response s) (render_enabled s)
    (current_brightness_level s) (current_font s) (is_kernel_dead s) (is_setup s) (windoge_version s)
    (current_terminal_id s) (world s).

Definition with_cursor (x y : Z) (visible : bool) (s : screen W) : screen W :=
  Screen (text_grid s) (text_color_grid s) (bg_color_grid s) x y visible (dogeio_color s) (dogeio_background_color s)
    (dogeio_video_mode s) (video_cursor_x s) (video_cursor_y s) (framebuffer_response s) (render_enabled s)
    (current_brightness_level s) (current_font s) (is_kernel_dead s) (is_setup s) (windoge_version s)
    (current_terminal_id s) (world s).

Definition with_colors (fg bg : Z) (s : screen W) : screen W :=
  Screen (text_grid s) (text_color_grid s) (bg_color_grid s) (cursor_x s) (cursor_y s) (dogeio_cursor_visible s) fg bg
    (dogeio_video_mode s) (video_cursor_x s) (video_cursor_y s) (framebuffer_response s) (render_enabled s)
    (current_brightness_level s) (current_font s) (is_kernel_dead s) (is_setup s) (windoge_version s)
    (current_terminal_id s) (world s).

Definition with_video (mode : bool) (x y : Z) (s : screen W) : screen W :=
  Screen (text_grid s) (text_color_grid s) (bg_color_grid s) (cursor_x s) (cursor_y s) (dogeio_cursor_visible s)
    (dogeio_color s) (dogeio_background_color s) mode x y (framebuffer_response s) (render_enabled s)
    (current_brightness_level s) (current_font s) (is_kernel_dead s) (is_setup s) (windoge_version s)
    (current_terminal_id s) (world s).

(** Frame buffer, whether it is drawn into, brightness and font. *)
Definition with_output (f : option framebuffer) (render : bool) (level : Z) (font : bytes) (s : screen W) : screen W :=
  Screen (text_grid s) (text_color_grid s) (bg_color_grid s) (cursor_x s) (cursor_y s) (dogeio_cursor_visible s)
    (dogeio_color s) (dogeio_background_color s) (dogeio_video_mode s) (video_cursor_x s) (video_cursor_y s)
    f render level font (is_kernel_dead s) (is_setup s) (windoge_version s) (current_terminal_id s) (world s).

Definition with_world (w : W) (s : screen W) : screen W :=
  Screen (text_grid s) (text_color_grid s) (bg_color_grid s) (cursor_x s) (cursor_y s) (dogeio_cursor_visible s)
    (dogeio_color s) (dogeio_background_color s) (dogeio_video_mode s) (video_cursor_x s) (video_cursor_y s)
    (framebuffer_response s) (render_enabled s) (current_brightness_level s) (current_font s) (is_kernel_dead s)
    (is_setup s) (windoge_version s) (current_terminal_id s) w.

Definition set_cursor (x y : Z) : C unit := modify (fun s => with_cursor x y (dogeio_cursor_visible s) s).
Definition set_visible (b : bool) : C unit := modify (fun s => with_cursor (cursor_x s) (cursor_y s) b s).
Definition set_colors (fg bg : Z) : C unit := modify (with_colors fg bg).
Definition set_video (x y : Z) : C unit := modify (fun s => with_video (dogeio_video_mode s) x y s).
Definition dogeio_set_video_mode (b : bool) : C unit := modify (fun s => with_video b (video_cursor_x s) (video_cursor_y s) s).
Definition dogeio_video : C unit := dogeio_set_video_mode true.
Definition dogeio_text : C unit := dogeio_set_video_mode false.
Definition set_pixels (f : framebuffer) : C unit := modify (fun s =>
  with_output (Some f) (render_enabled s) (current_brightness_level s) (current_font s) s).
Definition dogeio_set_render_enabled (b : bool) : C unit := modify (fun s =>
  with_output (framebuffer_response s) b (current_brightness_level s) (current_font s) s).

(** [font] is NULL for [None]. *)
Definition dogeio_set_font (font : option bytes) : C unit := modify (fun s =>
  with_output (framebuffer_response s) (render_enabled s) (current_brightness_level s)
    (default (current_font s) font) s).

Definition dogeio_color_change (color : Z) : C unit := modify (fun s => with_colors color (dogeio_background_color s) s).
Definition dogeio_background_change (color : Z) : C unit := modify (fun s => with_colors (dogeio_color s) color s).

(** A cell, and one of its characters. *)
Definition set_cell (idx c fg bg : Z) : C unit :=
  s ← gets id;
  t ← lift (wr (text_grid s) idx c);
  tc ← lift (wr (text_color_grid s) idx fg);
  bc ← lift (wr (bg_color_grid s) idx bg);
  modify (with_cells t tc bc).

Definition set_char (idx c : Z) : C unit :=
  s ← gets id;
  t ← lift (wr (text_grid s) idx c);
  modify (with_cells t (text_color_grid s) (bg_color_grid s)).

Definition char_at (idx : Z) : C Z := t ← gets text_grid; lift (rd t idx).

(** ** Pixels *)

(** [framebuffer_ptr[index] = color] *)
Definition set_pixel (index color : Z) : C unit :=
  r ← gets framebuffer_response;
  f ← lift r;
  if (0 <=? index) && (index <? fb_size f)
  then set_pixels (Framebuffer (fb_width f) (fb_height f) (fb_pitch f) (<[index := color]> (fb_pixels f)))
  else lift None.

(** The offset of the glyph in the font. *)
Definition get_glyph_pointer (font : bytes) (c : Z) : option Z :=
  let c := if 128 <=? c then c_space else c in
  magic ← ld 4 font 0;
  if Z.land magic 0xFFFF =? 0x0436 then
    bytes_per_glyph ← rd font 3;
    Some (4 + c * bytes_per_glyph)
  else if magic =? 0x864ab572 then
    header_size ← ld 4 font 8;
    bytes_per_glyph ← ld 4 font 20;
    Some (u32 (header_size + u32 (c * bytes_per_glyph)))
  else Some 0.

Definition apply_brightness (level color : Z) : option Z :=
  factor ← rd brightness_factors level;
  if factor =? 256 then Some color
  else
    let rb := Z.land color 0x00FF00FF in
    let ag := Z.land (Z.shiftr color 8) 0x00FF00FF in
    let rb := Z.shiftr (u32 (rb * factor)) 8 in
    let ag := Z.shiftr (u32 (ag * factor)) 8 in
    let rb := Z.land rb 0x00FF00FF in
    let ag := Z.land ag 0x00FF00FF in
    Some (Z.lor rb (u32 (Z.shiftl ag 8))).

(** Sixteen rows of eight pixels.  The comparisons are between an unsigned 32-bit
    sum and a 64-bit size. *)
Definition dogeio_render_pixel_glyph (c pixel_x pixel_y fg_color bg_color : Z) : C unit :=
  s ← gets id;
  match framebuffer_response s with
  | Some f =>
      if negb (render_enabled s) then mret tt
      else
        fg_color ← lift (apply_brightness (current_brightness_level s) fg_color);
        bg_color ← lift (apply_brightness (current_brightness_level s) bg_color);
        if (fb_width f <? u32 (pixel_x + 8)) || (fb_height f <? u32 (pixel_y + 16)) then mret tt
        else
          glyph ← lift (get_glyph_pointer (current_font s) c);
          for_loop 16 0 1 (fun g_row =>
            bits ← lift (rd (current_font s) (glyph + g_row));
            let row_offset := u64 (u32 (pixel_y + g_row) * u64_pitch f + pixel_x) in
            for_loop 8 0 1 (fun bit =>
              set_pixel (row_offset + bit) (if Z.testbit bits (7 - bit) then fg_color else bg_color)))
  | None => mret tt
  end.

(** The same for the cell [x], [y]. *)
Definition dogeio_render_glyph (c x y fg_color bg_color : Z) : C unit :=
  dogeio_render_pixel_glyph c (u32 (x * 8)) (u32 (y * 16)) fg_color bg_color.

Definition dogeio_putchar_raw_glyph (c x y : Z) : C unit :=
  s ← gets id; dogeio_render_glyph c x y (dogeio_color s) (dogeio_background_color s).
Definition dogeio_putchar_reverted_glyph (c x y : Z) : C unit :=
  s ← gets id; dogeio_render_glyph c x y (dogeio_background_color s) (dogeio_color s).

(** [framebuffer_request.response == NULL || framebuffer_count < 1] *)
Definition no_framebuffer : C bool :=
  f ← gets framebuffer_response; mret (match f with None => true | Some _ => false end).

(** The response is not tested. *)
Definition dogeio_screen_width : C Z :=
  r ← gets framebuffer_response; f ← lift r; mret (s32 (fb_width f)).
Definition dogeio_screen_height : C Z :=
  r ← gets framebuffer_response; f ← lift r; mret (s32 (fb_height f)).

Definition dogeio_draw_pixel (x y color : Z) : C unit :=
  s ← gets id;
  match framebuffer_response s with
  | Some f =>
      if negb (render_enabled s) || (fb_width f <=? x) || (fb_height f <=? y) then mret tt
      else set_pixel (u64 (y * u64_pitch f + x)) color
  | None => mret tt
  end.

Definition dogeio_draw_rect (x y width height color : Z) : C unit :=
  s ← gets id;
  match framebuffer_response s with
  | Some f =>
      if negb (render_enabled s) then mret tt
      else
        let max_x := u32 (x + width) in
        let max_y := u32 (y + height) in
        let max_x := if fb_width f <? max_x then u32 (fb_width f) else max_x in
        let max_y := if fb_height f <? max_y then u32 (fb_height f) else max_y in
        for_loop (Z.to_nat (max_y - y)) y 1 (fun py =>
          let row_offset := u64 (py * u64_pitch f) in
          for_loop (Z.to_nat (max_x - x)) x 1 (fun px => set_pixel (u64 (row_offset + px)) color))
  | None => mret tt
  end.

(** ** Cells *)

(** Every cell of the rows [first .. TERMINAL_ROWS). *)
Definition all_cells (first : Z) (body : Z -> Z -> C unit) : C unit :=
  for_loop (Z.to_nat (TERMINAL_ROWS - first)) first 1 (fun y =>
    for_loop (Z.to_nat TERMINAL_COLS) 0 1 (fun x => body x y)).

Definition dogeio_putchar (c x y : Z) : C unit :=
  s ← gets id;
  match framebuffer_response s with
  | None => mret tt
  | Some _ =>
      if dogeio_video_mode s
      then dogeio_render_pixel_glyph c x y (dogeio_color s) (dogeio_background_color s)
      else
        let c := if 128 <=? c then c_space else c in
        if (TERMINAL_COLS <=? x) || (TERMINAL_ROWS <=? y) then mret tt
        else
          set_cell (y * TERMINAL_COLS + x) c (dogeio_color s) (dogeio_background_color s);;
          dogeio_putchar_raw_glyph c x y
  end.

Definition blank_cells : C unit :=
  for_loop (Z.to_nat CELLS) 0 1 (fun i =>
    s ← gets id; set_cell i c_space (dogeio_color s) (dogeio_background_color s)).

Definition dogeio_clear_cells : C unit :=
  blank_cells;;
  none ← no_framebuffer;
  if (none : bool) then mret tt
  else all_cells 0 (fun x y => dogeio_putchar_raw_glyph c_space x y).

Definition dogeio_clear : C unit :=
  s ← gets id;
  if dogeio_video_mode s then
    (match framebuffer_response s with
     | Some f => dogeio_draw_rect 0 0 (u32 (fb_width f)) (u32 (fb_height f)) (dogeio_background_color s)
     | None => mret tt
     end);;
    set_video 0 0
  else
    blank_cells;;
    none ← no_framebuffer;
    if (none : bool) then mret tt
    else
      all_cells 1 (fun x y => dogeio_putchar_raw_glyph c_space x y);;
      set_cursor 0 1.

Definition dogeio_clear_raw : C unit :=
  s ← gets id;
  if dogeio_video_mode s then dogeio_clear
  else dogeio_clear_cells;; set_cursor 0 0.

Definition dogeio_refresh_screen : C unit :=
  none ← no_framebuffer;
  if (none : bool) then mret tt
  else all_cells 0 (fun x y =>
    s ← gets id;
    let idx := y * TERMINAL_COLS + x in
    c ← lift (rd (text_grid s) idx);
    fg ← lift (rd (text_color_grid s) idx);
    bg ← lift (rd (bg_color_grid s) idx);
    dogeio_render_glyph c x y fg bg).

Definition dogeio_set_brightness (level : Z) : C unit :=
  let level := if level <? 1 then 1 else level in
  let level := if 10 <? level then 10 else level in
  modify (fun s => with_output (framebuffer_response s) (render_enabled s) level (current_font s) s).

Definition dogeio_change_brightness_switch (new_level : Z) : C unit :=
  dogeio_set_brightness new_level;; dogeio_refresh_screen.

Definition dogeio_brightness_increase : C unit :=
  level ← gets current_brightness_level;
  if level <? 10 then dogeio_change_brightness_switch (level + 1) else mret tt.

Definition dogeio_brightness_decrease : C unit :=
  level ← gets current_brightness_level;
  if 1 <? level then dogeio_change_brightness_switch (level - 1) else mret tt.

(** ** The cursor *)

(** [if (... cursor_x < TERMINAL_COLS && cursor_y < TERMINAL_ROWS)]: draw the
    character under the cursor. *)
Definition draw_cursor (when : bool) (draw : Z -> Z -> Z -> C unit) : C unit :=
  s ← gets id;
  if when && (cursor_x s <? TERMINAL_COLS) && (cursor_y s <? TERMINAL_ROWS) then
    c ← char_at (cursor_y s * TERMINAL_COLS + cursor_x s);
    draw c (cursor_x s) (cursor_y s)
  else mret tt.

Definition dogeio_cursor_show : C unit :=
  set_visible true;;
  s ← gets id;
  draw_cursor (negb (dogeio_video_mode s)) dogeio_putchar_reverted_glyph.

Definition dogeio_cursor_hide : C unit :=
  s ← gets id;
  draw_cursor (dogeio_cursor_visible s && negb (dogeio_video_mode s)) dogeio_putchar_raw_glyph;;
  set_visible false.

(** ** Printing *)

(** The rows 2 and up move up by one; the last row is blank. *)
Definition scroll_cells : C unit :=
  for_loop (Z.to_nat (TERMINAL_ROWS - 2)) 2 1 (fun row =>
    for_loop (Z.to_nat TERMINAL_COLS) 0 1 (fun col =>
      s ← gets id;
      let src := row * TERMINAL_COLS + col in
      c ← lift (rd (text_grid s) src);
      fg ← lift (rd (text_color_grid s) src);
      bg ← lift (rd (bg_color_grid s) src);
      set_cell ((row - 1) * TERMINAL_COLS + col) c fg bg));;
  for_loop (Z.to_nat TERMINAL_COLS) 0 1 (fun col =>
    s ← gets id;
    set_cell ((TERMINAL_ROWS - 1) * TERMINAL_COLS + col) c_space (dogeio_color s) (dogeio_background_color s)).

Definition redraw_cells : C unit :=
  all_cells 1 (fun col row =>
    s ← gets id;
    let idx := row * TERMINAL_COLS + col in
    fg ← lift (rd (text_color_grid s) idx);
    bg ← lift (rd (bg_color_grid s) idx);
    set_colors fg bg;;
    c ← char_at idx;
    dogeio_putchar c col row).

Definition dogeio_scroll (menubar_draw : C unit) : C unit :=
  s ← gets id;
  if dogeio_video_mode s then set_video 0 (u32 (video_cursor_y s + 16))
  else
    scroll_cells;;
    none ← no_framebuffer;
    if (none : bool) then mret tt
    else
      redraw_cells;;
      set_colors (dogeio_color s) (dogeio_background_color s);;
      menubar_draw;;
      s ← gets id;
      draw_cursor (dogeio_cursor_visible s) dogeio_putchar_reverted_glyph.

Definition next_line (menubar_draw : C unit) : C unit :=
  s ← gets id;
  let y := u32 (cursor_y s + 1) in
  set_cursor 0 y;;
  if TERMINAL_ROWS <=? y then
    dogeio_scroll menubar_draw;;
    s ← gets id;
    set_cursor (cursor_x s) (TERMINAL_ROWS - 1)
  else mret tt.

(** [text_grid[cursor_y * TERMINAL_COLS + cursor_x] = c; dogeio_putchar(...)] *)
Definition put_here (c : Z) : C unit :=
  s ← gets id;
  set_char (cursor_y s * TERMINAL_COLS + cursor_x s) c;;
  dogeio_putchar c (cursor_x s) (cursor_y s).

(** The same, if the cursor is on the screen, and one step to the right. *)
Definition put_advance (c : Z) : C unit :=
  s ← gets id;
  if (cursor_x s <? TERMINAL_COLS) && (cursor_y s <? TERMINAL_ROWS) then
    put_here c;; set_cursor (cursor_x s + 1) (cursor_y s)
  else mret tt.

Definition wrap_line (menubar_draw : C unit) : C unit :=
  s ← gets id;
  if TERMINAL_COLS <=? cursor_x s then next_line menubar_draw else mret tt.

Definition print_video (c : Z) : C unit :=
  s ← gets id;
  match framebuffer_response s with
  | None => mret tt
  | Some f =>
      if c =? c_nl then set_video 0 (u32 (video_cursor_y s + 16))
      else if c =? 13 then set_video 0 (video_cursor_y s)
      else if c =? 9 then set_video (u32 (video_cursor_x s + 32)) (video_cursor_y s)
      else
        let '(x, y) := if fb_width f <? u32 (video_cursor_x s + 8)
                       then (0, u32 (video_cursor_y s + 16)) else (video_cursor_x s, video_cursor_y s) in
        let y := if fb_height f <? u32 (y + 16) then 0 else y in
        set_video x y;;
        dogeio_render_pixel_glyph c x y (dogeio_color s) (dogeio_background_color s);;
        set_video (u32 (x + 8)) y
  end.

Definition print_backspace : C unit :=
  s ← gets id;
  (if (cursor_x s <? TERMINAL_COLS) && (cursor_y s <? TERMINAL_ROWS) then
     c ← char_at (cursor_y s * TERMINAL_COLS + cursor_x s);
     dogeio_putchar c (cursor_x s) (cursor_y s)
   else mret tt);;
  (if 0 <? cursor_x s then set_cursor (cursor_x s - 1) (cursor_y s)
   else if 1 <? cursor_y s then set_cursor (TERMINAL_COLS - 1) (cursor_y s - 1)
   else mret tt);;
  put_here c_space.

Definition printchar (menubar_draw : C unit) (c : Z) : C unit :=
  s ← gets id;
  if dogeio_video_mode s then print_video c
  else
    draw_cursor (dogeio_cursor_visible s) dogeio_putchar_raw_glyph;;
    (if c =? c_nl then put_here c_space;; next_line menubar_draw
     else if c =? 8 then print_backspace
     else if c =? 9 then for_loop 4 0 1 (fun _ => put_advance c_space);; wrap_line menubar_draw
     else put_advance c;; wrap_line menubar_draw);;
    s ← gets id;
    draw_cursor (dogeio_cursor_visible s) dogeio_putchar_reverted_glyph.

(** ** Escape sequences *)

Definition is_digit (c : Z) : bool := (48 <=? c) && (c <=? 57).

(** [if (param_count < 4) params[param_count++] = ...]: the parameters so far. *)
Definition push_param (params : list Z) (has_param : bool) (current_param : Z) : list Z :=
  if (length params <? 4)%nat then params ++ [if has_param then current_param else 0] else params.

(** The parameters and the string from the command character on.  The digits are
    accumulated in an [int]. *)
Fixpoint ansi_params (str : bytes) (params : list Z) (current_param : Z) (has_param : bool) : option (list Z * bytes) :=
  match str with
  | [] => None
  | ch :: str' =>
      if ch =? 0 then Some (params, str)
      else if is_digit ch then
        let v := current_param * 10 + (ch - 48) in
        if INT_MAX <? v then None else ansi_params str' params v true
      else if ch =? 59 then ansi_params str' (push_param params has_param current_param) 0 false
      else Some (push_param params has_param current_param, str)
  end.

(** [params] has zeros at the end. *)
Definition param (params : list Z) (i : nat) : Z := default 0 (params !! i).
Definition param_or_1 (params : list Z) (i : nat) : Z := if param params i =? 0 then 1 else param params i.

Definition ansi_color (p : Z) : C unit :=
  s ← gets id;
  if p =? 0 then set_colors 0xFFCCCCCC 0
  else if (30 <=? p) && (p <=? 37) then
    c ← lift (rd ansi_colors (p - 30)); set_colors c (dogeio_background_color s)
  else if (90 <=? p) && (p <=? 97) then
    c ← lift (rd ansi_colors (p - 90 + 8)); set_colors c (dogeio_background_color s)
  else if (40 <=? p) && (p <=? 47) then
    c ← lift (rd ansi_colors (p - 40)); set_colors (dogeio_color s) c
  else if (100 <=? p) && (p <=? 107) then
    c ← lift (rd ansi_colors (p - 100 + 8)); set_colors (dogeio_color s) c
  else mret tt.

Definition ansi_video (cmd : Z) (params : list Z) : C unit :=
  if cmd =? 109 then ansi_color (param params 0)
  else if (cmd =? 72) || (cmd =? 102) then
    set_video (u32 (u32 (param_or_1 params 1 - 1) * 8)) (u32 (u32 (param_or_1 params 0 - 1) * 16))
  else mret tt.

Definition ansi_text (cmd : Z) (params : list Z) : C unit :=
  s ← gets id;
  let n := param_or_1 params 0 in
  if cmd =? 109 then ansi_color (param params 0)
  else if cmd =? 74 then if param params 0 =? 2 then dogeio_clear else mret tt
  else if cmd =? 65 then set_cursor (cursor_x s) (if n <=? cursor_y s then cursor_y s - n else 0)
  else if cmd =? 66 then
    let y := u32 (cursor_y s + n) in set_cursor (cursor_x s) (if TERMINAL_ROWS <=? y then TERMINAL_ROWS - 1 else y)
  else if cmd =? 67 then
    let x := u32 (cursor_x s + n) in set_cursor (if TERMINAL_COLS <=? x then TERMINAL_COLS - 1 else x) (cursor_y s)
  else if cmd =? 68 then set_cursor (if n <=? cursor_x s then cursor_x s - n else 0) (cursor_y s)
  else if (cmd =? 72) || (cmd =? 102) then
    let new_y := u32 (n - 1) in
    let new_x := u32 (param_or_1 params 1 - 1) in
    set_cursor (if new_x <? TERMINAL_COLS then new_x else TERMINAL_COLS - 1)
               (if new_y <? TERMINAL_ROWS then new_y else TERMINAL_ROWS - 1)
  else mret tt.

(** [str] follows the two characters of the introducer; the result is where
    printing goes on. *)
Definition parse_ansi_escape (str : bytes) : C bytes :=
  '(params, rest) ← lift (ansi_params str [] 0 false);
  cmd ← lift (rd rest 0);
  s ← gets id;
  (if dogeio_video_mode s then ansi_video cmd params
   else
     draw_cursor (dogeio_cursor_visible s) dogeio_putchar_raw_glyph;;
     ansi_text cmd params;;
     draw_cursor (dogeio_cursor_visible s) dogeio_putchar_reverted_glyph);;
  mret (if cmd =? 0 then rest else drop 1 rest).

(** Every round consumes a character, so the length of the string is enough. *)
Fixpoint print_loop (menubar_draw : C unit) (fuel : nat) (str : bytes) : C unit :=
  match fuel with
  | O => lift None
  | S fuel' =>
      c ← lift (rd str 0);
      if c =? 0 then mret tt
      else
        next ← lift (rd str 1);
        if (c =? 27) && (next =? 91) then
          rest ← parse_ansi_escape (drop 2 str);
          print_loop menubar_draw fuel' rest
        else
          printchar menubar_draw c;;
          print_loop menubar_draw fuel' (drop 1 str)
  end.

(** [str] is not NULL. *)
Definition print (menubar_draw : C unit) (str : bytes) : C unit :=
  none ← no_framebuffer;
  if (none : bool) then mret tt else print_loop menubar_draw (S (length str)) str.

(** ** The menu bar *)

(** [while (src[i] != 0 && i < n)]: the characters copied. *)
Fixpoint copy_upto (n : nat) (src : bytes) : option bytes :=
  match n with
  | O => match src with [] => None | _ => Some [] end
  | S n' => match src with
            | [] => None
            | c :: src' => if c =? 0 then Some [] else rest ← copy_upto n' src'; Some (c :: rest)
            end
  end.

Definition bar_version (s : screen W) : option bytes :=
  if is_kernel_dead s then Some (lit "[KERNEL PANIC]" ++ [0])
  else if is_setup s then
    v ← (match windoge_version s with Some v => copy_upto 45 v | None => Some [] end);
    Some (v ++ lit " SETUP" ++ [0])
  else Some (default (lit "WindogeOS" ++ [0]) (windoge_version s)).

Definition bar_left (s : screen W) : option bytes :=
  ver ← bar_version s;
  left ← copy_upto 54 ver;
  Some (left ++ lit " [WS " ++ [u8 (49 + current_terminal_id s)] ++ lit "/" ++ [48 + MAX_TERMINALS] ++ lit "]" ++ [0]).

Definition bar_right (date time : option bytes) : option bytes :=
  d ← copy_upto 30 (default (lit "N/A" ++ [0]) date);
  t ← copy_upto (62 - S (length d)) (default (lit "00:00" ++ [0]) time);
  Some (d ++ [c_space] ++ t ++ [0]).

Definition menubar_body (print : bytes -> C unit) : C unit :=
  old ← gets id;
  set_visible false;;
  (if is_kernel_dead old then set_colors COLOR_BRIGHT_RED 0x282828 else set_colors 0xFFFFFF 0x282828);;
  set_cursor 0 0;;
  w ← gets world;
  let '(date, w) := date_get w in
  let '(time, w) := time_get w in
  modify (with_world w);;
  right_section ← lift (bar_right date time);
  left_section ← lift (bar_left old);
  let right_len := zlen right_section - 1 in
  let target := TERMINAL_COLS - right_len - 2 in
  let target := if target <? 2 then 2 else target in
  print [c_space; 0];;
  menu_buffer ← lift (str_pad (zeros (Z.to_nat (TERMINAL_COLS + 1))) left_section target c_space);
  print menu_buffer;;
  print right_section;;
  print [c_space; 0];;
  set_colors (dogeio_color old) (dogeio_background_color old);;
  set_cursor (cursor_x old) (cursor_y old);;
  set_visible false;;
  if dogeio_cursor_visible old then dogeio_cursor_show else mret tt.

(** The bar drawn by a scroll inside a bar would be undefined; it does not
    happen. *)
Fixpoint menubar (depth : nat) : C unit :=
  match depth with
  | O => lift None
  | S depth' => menubar_body (print (menubar depth'))
  end.

Definition menubar_draw : C unit := menubar 1.
Definition dogeio_printchar (c : Z) : C unit := printchar menubar_draw c.
Definition dogeio_print (str : bytes) : C unit := print menubar_draw str.
Definition dogeio_println (str : bytes) : C unit := dogeio_print str;; dogeio_print [c_nl; 0].

(** One character of [dogeio_print_at] in text mode. *)
Fixpoint print_at_loop (str : bytes) (x_pos current_x current_y : Z) : C unit :=
  match str with
  | [] => lift None
  | c :: str' =>
      if c =? 0 then mret tt
      else if c =? c_nl then print_at_loop str' x_pos x_pos (u32 (current_y + 1))
      else if (TERMINAL_COLS <=? current_x) || (TERMINAL_ROWS <=? current_y) then mret tt
      else
        s ← gets id;
        set_cell (current_y * TERMINAL_COLS + current_x) c (dogeio_color s) (dogeio_background_color s);;
        dogeio_putchar c current_x current_y;;
        print_at_loop str' x_pos (current_x + 1) current_y
  end.

Definition dogeio_print_at (str : bytes) (x_pos y_pos text_color : Z) : C unit :=
  s ← gets id;
  match framebuffer_response s with
  | None => mret tt
  | Some _ =>
      dogeio_color_change text_color;;
      (if dogeio_video_mode s then
         set_video x_pos y_pos;;
         dogeio_print str;;
         set_video (video_cursor_x s) (video_cursor_y s)
       else print_at_loop str x_pos x_pos y_pos);;
      dogeio_color_change (dogeio_color s)
  end.

Definition hex_chars : bytes := lit "0123456789ABCDEF".

Definition dogeio_print_hex8 (val : Z) : C unit :=
  hi ← lift (rd hex_chars (Z.land (Z.shiftr val 4) 15));
  lo ← lift (rd hex_chars (Z.land val 15));
  dogeio_print [hi; lo; 0].

Definition dogeio_print_hex16 (val : Z) : C unit :=
  dogeio_print_hex8 (u8 (Z.shiftr val 8));; dogeio_print_hex8 (Z.land val 255).

End Console.
