(* ===== verification/ConsoleSpec.v ===== *)
(** * What the console promises: an abstract terminal

    A terminal is a grid of cells, a cursor and two colours.  A string is a
    sequence of characters and escape sequences ([tokens]); each of them changes
    the terminal ([apply]).  Row 0 belongs to the menu bar and is not part of
    the promise: [shows] compares the rows below it. *)

From S2P Require Import Prelude CMonad CString Console.

Record cell := Cell { cchar : Z; cfg : Z; cbg : Z }.

Record term := Term {
  cells : Z -> cell;
  tx : Z;
  ty : Z;
  fg : Z;
  bg : Z;
  vis : bool;
}.

(** The character that is shown for a byte. *)
Definition shown (c : Z) : Z := if 128 <=? c then c_space else c.

Definition here (t : term) : Z := ty t * TERMINAL_COLS + tx t.
Definition poke (i : Z) (x : cell) (t : term) : term :=
  Term (fun j => if j =? i then x else cells t j) (tx t) (ty t) (fg t) (bg t) (vis t).
Definition move (x y : Z) (t : term) : term := Term (cells t) x y (fg t) (bg t) (vis t).
Definition paint (f b : Z) (t : term) : term := Term (cells t) (tx t) (ty t) f b (vis t).
Definition reveal (b : bool) (t : term) : term := Term (cells t) (tx t) (ty t) (fg t) (bg t) b.
Definition put (c : Z) (t : term) : term := poke (here t) (Cell (shown c) (fg t) (bg t)) t.
Definition blank (t : term) : cell := Cell c_space (fg t) (bg t).
Definition advance (c : Z) (t : term) : term :=
  if (tx t <? TERMINAL_COLS) && (ty t <? TERMINAL_ROWS) then move (tx t + 1) (ty t) (put c t) else t.

(** Every row takes the place of the one above it; the last one is blank. *)
Definition roll (t : term) : term :=
  Term (fun i => if i <? (TERMINAL_ROWS - 1) * TERMINAL_COLS then cells t (i + TERMINAL_COLS) else blank t)
    (tx t) (ty t) (fg t) (bg t) (vis t).

Definition new_line (t : term) : term :=
  if TERMINAL_ROWS <=? ty t + 1 then move 0 (TERMINAL_ROWS - 1) (roll t) else move 0 (ty t + 1) t.
Definition wrap (t : term) : term := if TERMINAL_COLS <=? tx t then new_line t else t.

Definition step_back (t : term) : term :=
  if 0 <? tx t then move (tx t - 1) (ty t) t
  else if 1 <? ty t then move (TERMINAL_COLS - 1) (ty t - 1) t
  else t.

Definition type_char (c : Z) (t : term) : term :=
  if c =? c_nl then new_line (put c_space t)
  else if c =? 8 then put c_space (step_back (put (cchar (cells t (here t))) t))
  else if c =? 9 then wrap (Nat.iter 4 (advance c_space) t)
  else wrap (advance c t).

Definition wipe (t : term) : term := Term (fun _ => blank t) 0 1 (fg t) (bg t) (vis t).

Definition colour (p : Z) (t : term) : term :=
  let pick i := default 0 (rd ansi_colors i) in
  if p =? 0 then paint 0xFFCCCCCC 0 t
  else if (30 <=? p) && (p <=? 37) then paint (pick (p - 30)) (bg t) t
  else if (90 <=? p) && (p <=? 97) then paint (pick (p - 90 + 8)) (bg t) t
  else if (40 <=? p) && (p <=? 47) then paint (fg t) (pick (p - 40)) t
  else if (100 <=? p) && (p <=? 107) then paint (fg t) (pick (p - 100 + 8)) t
  else t.

(** The cursor stops at the edges of the screen. *)
Definition clamp (lo hi x : Z) : Z := Z.max lo (Z.min hi x).
Definition go (x y : Z) (t : term) : term :=
  move (clamp 0 (TERMINAL_COLS - 1) x) (clamp 0 (TERMINAL_ROWS - 1) y) t.

Definition escape (cmd : Z) (params : list Z) (t : term) : term :=
  let n := param_or_1 params 0 in
  if cmd =? 109 then colour (param params 0) t
  else if cmd =? 74 then if param params 0 =? 2 then wipe t else t
  else if cmd =? 65 then go (tx t) (ty t - n) t
  else if cmd =? 66 then go (tx t) (ty t + n) t
  else if cmd =? 67 then go (tx t + n) (ty t) t
  else if cmd =? 68 then go (tx t - n) (ty t) t
  else if (cmd =? 72) || (cmd =? 102) then go (param_or_1 params 1 - 1) (n - 1) t
  else t.

Inductive token := Char (c : Z) | Escape (cmd : Z) (params : list Z).

Definition apply (x : token) (t : term) : term :=
  match x with Char c => type_char c t | Escape cmd params => escape cmd params t end.

(** Inside an escape sequence: the parameters and the digits so far. *)
Inductive mode := Text | Param (params : list Z) (current : Z) (digits : bool).

(** [None]: the string has no end, or a parameter is larger than an [int]. *)
Fixpoint tokens (m : mode) (str : bytes) : option (list token) :=
  match str with
  | [] => None
  | c :: str' =>
      match m with
      | Text =>
          if c =? 0 then Some []
          else match str' with
               | [] => None
               | d :: str'' =>
                   if (c =? 27) && (d =? 91) then tokens (Param [] 0 false) str''
                   else ts ← tokens Text str'; Some (Char c :: ts)
               end
      | Param params current digits =>
          if c =? 0 then Some []
          else if is_digit c then
            if INT_MAX <? current * 10 + (c - 48) then None
            else tokens (Param params (current * 10 + (c - 48)) true) str'
          else if c =? 59 then tokens (Param (push_param params digits current) 0 false) str'
          else ts ← tokens Text str'; Some (Escape c (push_param params digits current) :: ts)
      end
  end.

Definition display (ts : list token) (t : term) : term := fold_left (fun t x => apply x t) ts t.

(** ** The terminal and the screen *)

Definition chars_ok (t : term) : Prop := forall i, TERMINAL_COLS <= i < CELLS -> 0 <= cchar (cells t i) < 128.
Definition in_grid (x y : Z) : Prop := 0 <= x < TERMINAL_COLS /\ 0 <= y < TERMINAL_ROWS.
Definition term_ok (t : term) : Prop := in_grid (tx t) (ty t) /\ chars_ok t.

(** Terminals that look the same below the menu bar. *)
#[global] Instance term_equiv : Equiv term := fun t u =>
  (forall i, TERMINAL_COLS <= i < CELLS -> cells t i = cells u i) /\
  (tx t, ty t, fg t, bg t, vis t) = (tx u, ty u, fg u, bg u, vis u).

#[global] Instance term_equivalence : Equivalence (≡@{term}).
Proof.
  split.
  - by intros t.
  - intros t u [Hc He]. split; [intros i Hi; symmetry; by apply Hc | done].
  - intros t u v [Hc1 He1] [Hc2 He2]. split; [|by rewrite He1].
    intros i Hi. by rewrite (Hc1 i Hi), (Hc2 i Hi).
Qed.

(** Every glyph lies in the font. *)
Definition font_ok (font : bytes) : Prop :=
  is_bytes font /\
  forall c, 0 <= c < 128 -> exists g, get_glyph_pointer font c = Some g /\ 0 <= g /\ g + 16 <= zlen font.

(** A string of characters that move the cursor by one cell. *)
Definition plain_char (c : Z) : bool := (32 <=? c) && (c <? 128).
Definition plain_string (s : bytes) : Prop := exists p q, s = p ++ 0 :: q /\ forallb plain_char p = true.

Class PlainClock (W : Type) `{Clock W} := {
  clock_ok : W -> Prop;
  date_plain w : clock_ok w -> clock_ok (date_get w).2 /\ forall d, (date_get w).1 = Some d -> plain_string d;
  time_plain w : clock_ok w -> clock_ok (time_get w).2 /\ forall d, (time_get w).1 = Some d -> plain_string d;
}.

Section Shows.
Context {W : Type} `{PlainClock W}.

(** The part of the state that printing does not change, the pixels and the
    clock apart; [tid] is the workspace in front. *)
Record equipped (width height pitch tid : Z) (s : screen W) : Prop := Equipped {
  eq_fb : exists px, framebuffer_response s = Some (Framebuffer width height pitch px);
  eq_level : 0 <= current_brightness_level s <= 10;
  eq_font : font_ok (current_font s);
  eq_mode : dogeio_video_mode s = false;
  eq_id : current_terminal_id s = tid /\ 0 <= tid < MAX_TERMINALS;
  eq_version : forall v, windoge_version s = Some v -> plain_string v;
  eq_clock : clock_ok (world s);
}.

(** The rows of a frame buffer lie in it, and its size is an address. *)
Definition geometry_ok (width height pitch : Z) : Prop :=
  0 <= width <= pitch / 4 /\ 0 <= height /\ height * (pitch / 4) <= UINT64_MAX.

Definition sized (s : screen W) : Prop :=
  zlen (text_grid s) = CELLS /\ zlen (text_color_grid s) = CELLS /\ zlen (bg_color_grid s) = CELLS /\
  is_bytes (text_grid s).

Definition cell_is (s : screen W) (i : Z) (x : cell) : Prop :=
  rd (text_grid s) i = Some (cchar x) /\ rd (text_color_grid s) i = Some (cfg x) /\
  rd (bg_color_grid s) i = Some (cbg x).

Record shows (t : term) (s : screen W) : Prop := Shows {
  sh_sized : sized s;
  sh_cells : forall i, TERMINAL_COLS <= i < CELLS -> cell_is s i (cells t i);
  sh_x : cursor_x s = tx t;
  sh_y : cursor_y s = ty t;
  sh_fg : dogeio_color s = fg t;
  sh_bg : dogeio_background_color s = bg t;
  sh_vis : dogeio_cursor_visible s = vis t;
}.

End Shows.
