(* ===== verification/ConsoleProofs.v ===== *)
(** * The console implements the abstract terminal

    [runs t m t']: from every screen that shows [t] the program [m] ends on a
    screen that shows [t'].  The rules follow the statements of the monad. *)

From S2P Require Import Prelude CMonad CString Console ConsoleSpec.

(** Decide every comparison of the goal. *)
Ltac compare_all :=
  repeat match goal with
  | |- context [?a =? ?b] => destruct (Z.eqb_spec a b)
  | |- context [?a <? ?b] => destruct (Z.ltb_spec a b)
  | |- context [?a <=? ?b] => destruct (Z.leb_spec a b)
  end; cbn [andb orb]; try (unfold CELLS, TERMINAL_COLS, TERMINAL_ROWS in *; lia).

(** ** Padding *)

Lemma pad_copy_spec l q p r n :
  nozero l -> (length l <= length r)%nat ->
  let m := Nat.min (length l) (Z.to_nat (n - zlen p)) in
  pad_copy (p ++ r) (l ++ 0 :: q) (zlen p) n = Some (zlen p + Z.of_nat m, p ++ take m l ++ drop m r).
Proof.
  revert p r. induction l as [|c l IH]; intros p r Hz Hl m.
  { subst m. cbn. by rewrite Z.add_0_r. }
  apply Forall_cons in Hz as [Hc Hz]. destruct r as [|x r]; [cbn in Hl; lia|]. cbn [app pad_copy].
  rewrite eqb_neq by done. cbn [negb andb]. destruct (Z.ltb_spec (zlen p) n).
  - rewrite wr_mid, Some_bind. replace (p ++ c :: r) with ((p ++ [c]) ++ r) by (by rewrite <- app_assoc).
    replace (zlen p + 1) with (zlen (p ++ [c])) by (rewrite zlen_app, zlen_cons, zlen_nil; lia).
    rewrite IH by (cbn in Hl; first [done | lia]). rewrite zlen_app, zlen_cons, zlen_nil.
    replace m with (S (Nat.min (length l) (Z.to_nat (n - (zlen p + (1 + 0)))))) by (subst m; cbn [length]; lia).
    cbn [take drop]. rewrite <- !app_assoc. do 2 f_equal. lia.
  - replace m with 0%nat by (subst m; lia). cbn. by rewrite Z.add_0_r.
Qed.

Lemma pad_fill_spec c k p r : (k <= length r)%nat ->
  pad_fill (p ++ r) (zlen p) c k = Some (zlen p + Z.of_nat k, p ++ replicate k c ++ drop k r).
Proof.
  revert p r. induction k as [|k IH]; intros p r Hk; cbn [pad_fill].
  { cbn. by rewrite Z.add_0_r. }
  destruct r as [|x r]; [cbn in Hk; lia|]. rewrite wr_mid, Some_bind.
  replace (p ++ c :: r) with ((p ++ [c]) ++ r) by (by rewrite <- app_assoc).
  replace (zlen p + 1) with (zlen (p ++ [c])) by (rewrite zlen_app, zlen_cons, zlen_nil; lia).
  rewrite IH by (cbn in Hk; lia). rewrite zlen_app, zlen_cons, zlen_nil. cbn [replicate drop].
  rewrite <- app_assoc. do 2 f_equal. lia.
Qed.

(** A padded string has the length asked for. *)
Lemma str_pad_spec dest l q n c :
  nozero l -> 0 <= n -> (length l <= length dest)%nat -> n < zlen dest ->
  exists rest, str_pad dest (l ++ 0 :: q) n c =
    Some (take (Z.to_nat n) l ++ replicate (Z.to_nat n - length l) c ++ 0 :: rest).
Proof.
  intros Hz Hn Hl Hd. unfold str_pad. change (pad_copy dest (l ++ 0 :: q) 0 n) with (pad_copy ([] ++ dest) (l ++ 0 :: q) (zlen (@nil Z)) n).
  rewrite pad_copy_spec by done. rewrite Some_bind. change (zlen (@nil Z)) with 0. rewrite Z.sub_0_r.
  set (m := Nat.min (length l) (Z.to_nat n)). cbn [app].
  assert (zlen (take m l) = Z.of_nat m) as Hm by (unfold zlen; rewrite length_take; lia).
  assert (length (drop m dest) = length dest - m)%nat as Hdl by apply length_drop. unfold zlen in Hd.
  rewrite Z.add_0_l, <- Hm, pad_fill_spec by lia. rewrite Some_bind, Hm. rewrite drop_drop.
  replace (Z.to_nat (n - Z.of_nat m)) with (Z.to_nat n - length l)%nat by lia.
  replace (take m l) with (take (Z.to_nat n) l) by (subst m; destruct (Nat.min_spec (length l) (Z.to_nat n)) as [[? ->]|[? ->]];
    [rewrite !take_ge by lia; done | done]).
  destruct (drop (m + (Z.to_nat n - length l)) dest) as [|x rest] eqn:E.
  { apply (f_equal length) in E. rewrite length_drop in E. cbn in E. lia. }
  exists rest. rewrite app_assoc. replace (Z.of_nat m + Z.of_nat (Z.to_nat n - length l))
    with (zlen (take (Z.to_nat n) l ++ replicate (Z.to_nat n - length l) c))
    by (unfold zlen; rewrite length_app, length_take, length_replicate; lia).
  rewrite wr_mid. by rewrite <- app_assoc.
Qed.

Section Runs.
Context {W : Type} `{PlainClock W}.
Context (width height pitch tid : Z) (Hgeom : geometry_ok width height pitch).

Implicit Types (s : screen W) (t : term).

(** A screen of this geometry that shows [t]. *)
Definition on (t : term) (s : screen W) : Prop := equipped width height pitch tid s /\ shows t s.

Definition runs (t : term) (m : M (screen W) unit) (t' : term) : Prop :=
  forall s, on t s -> exists s', m s = Some (Val tt, s') /\ on t' s'.

Lemma runs_ret t : runs t (mret tt) t.
Proof. intros s Hs. by exists s. Qed.

Lemma runs_seq t1 t2 t3 (m : M (screen W) unit) (k : unit -> M (screen W) unit) :
  runs t1 m t2 -> runs t2 (k tt) t3 -> runs t1 (m ≫= k) t3.
Proof.
  intros Hm Hk s Hs. destruct (Hm s Hs) as (s' & E & Hs'). rewrite (bind_val _ _ _ _ _ E). by apply Hk.
Qed.

Lemma runs_gets {A} (f : screen W -> A) t t' (k : A -> M (screen W) unit) :
  (forall s, on t s -> runs t (k (f s)) t') -> runs t (gets f ≫= k) t'.
Proof. intros Hk s Hs. rewrite bind_gets. by apply (Hk s Hs). Qed.

Lemma runs_lift {A} (o : option A) a t t' (k : A -> M (screen W) unit) :
  o = Some a -> runs t (k a) t' -> runs t (lift o ≫= k) t'.
Proof. intros Ho Hk s Hs. rewrite (bind_lift _ _ _ _ Ho). by apply Hk. Qed.

Lemma runs_modify (f : screen W -> screen W) t t' : (forall s, on t s -> on t' (f s)) -> runs t (modify f) t'.
Proof. intros Hf s Hs. exists (f s). split; [done | by apply Hf]. Qed.

Lemma runs_if (b : bool) (m1 m2 : M (screen W) unit) t t' :
  (b = true -> runs t m1 t') -> (b = false -> runs t m2 t') -> runs t (if b then m1 else m2) t'.
Proof. destruct b; auto. Qed.

Lemma runs_for k i (body : Z -> M (screen W) unit) (ts : nat -> term) :
  (forall m, (m < k)%nat -> runs (ts m) (body (i + Z.of_nat m)) (ts (S m))) ->
  runs (ts 0%nat) (for_loop k i 1 body) (ts k).
Proof.
  intros Hb s Hs. apply (for_loop_count (fun m s => on (ts m) s)); [|done].
  intros m s' Hm Hs'. rewrite Z.mul_1_r. by apply Hb.
Qed.

Lemma runs_for_same k i (body : Z -> M (screen W) unit) t :
  (forall j, i <= j < i + Z.of_nat k -> runs t (body j) t) -> runs t (for_loop k i 1 body) t.
Proof. intros Hb. apply (runs_for _ _ _ (fun _ => t)). intros m Hm. apply Hb. lia. Qed.

#[global] Instance on_proper : Proper ((≡) ==> eq ==> iff) on.
Proof.
  assert (forall t u s, t ≡ u -> on t s -> on u s) as Hone.
  { intros t u s [Hc He] [Hq Hs]. destruct Hs. simplify_eq. split; [done|].
    constructor; try congruence. intros i Hi. rewrite <- (Hc i Hi). auto. }
  intros t u Htu s ? <-. split; [by apply Hone | by apply Hone].
Qed.

#[global] Instance runs_proper : Proper ((≡) ==> eq ==> (≡) ==> iff) runs.
Proof.
  assert (forall t u m t' u', t ≡ u -> t' ≡ u' -> runs t m t' -> runs u m u') as Hone.
  { intros t u m t' u' Htu Htu' Hr s Hs. destruct (Hr s) as (s' & E & Hs'); [by rewrite Htu|].
    exists s'. by rewrite <- Htu'. }
  intros t u Htu m ? <- t' u' Htu'. split; by apply Hone.
Qed.

(** ** Pixels do not change what is shown *)

Lemma on_pixels t s px :
  on t s -> on t (with_output (Some (Framebuffer width height pitch px)) (render_enabled s)
                    (current_brightness_level s) (current_font s) s).
Proof. intros [[] []]. split; constructor; try done. by exists px. Qed.

Lemma set_pixel_runs t i c : 0 <= i < height * (pitch / 4) -> runs t (set_pixel i c) t.
Proof.
  intros Hi. apply runs_gets. intros s [Hs _]. destruct (eq_fb _ _ _ _ _ Hs) as [px ->].
  eapply runs_lift; [done|]. cbn [fb_width fb_height fb_pitch fb_pixels].
  replace ((0 <=? i) && (i <? fb_size (Framebuffer width height pitch px))) with true
    by (symmetry; unfold fb_size, u64_pitch; cbn; bgoal).
  apply runs_modify. intros s' Hs'. by apply on_pixels.
Qed.

Lemma apply_brightness_total level c : 0 <= level <= 10 -> exists c', apply_brightness level c = Some c'.
Proof.
  intros Hl. destruct (rd_is_Some brightness_factors level) as [f Hf]; [unfold zlen; cbn; lia|].
  unfold apply_brightness. rewrite Hf, Some_bind. case_match; eauto.
Qed.

Lemma shown_range c : is_u8 c -> 0 <= shown c < 128.
Proof. unfold is_u8, shown, c_space. case_match; lia. Qed.

Lemma glyph_shown font c : get_glyph_pointer font c = get_glyph_pointer font (shown c).
Proof. unfold get_glyph_pointer, shown. destruct (128 <=? c) eqn:E; [done|]. by rewrite E. Qed.

Lemma glyph_total font c : font_ok font -> is_u8 c ->
  exists g, get_glyph_pointer font c = Some g /\ 0 <= g /\ g + 16 <= zlen font.
Proof. intros [_ Hf] Hc. rewrite glyph_shown. by apply Hf, shown_range. Qed.

(** A glyph inside the frame buffer. *)
Lemma pixel_inside x y r b :
  0 <= x -> 0 <= y -> u32 (x + 8) <= width -> u32 (y + 16) <= height -> x + 8 <= UINT32_MAX -> y + 16 <= UINT32_MAX ->
  0 <= r < 16 -> 0 <= b < 8 ->
  0 <= u64 (u32 (y + r) * (pitch / 4) + x) + b < height * (pitch / 4).
Proof.
  intros Hx Hy Hw Hh Bx By Hr Hb. destruct Hgeom as (Gw & Gh & Gs). unfold UINT64_MAX, UINT32_MAX in *.
  rewrite !u32_small in * by (unfold is_u32; lia).
  assert ((y + r + 1) * (pitch / 4) <= height * (pitch / 4)) by (apply Z.mul_le_mono_nonneg_r; lia).
  assert (0 <= (y + r) * (pitch / 4)) by (apply Z.mul_nonneg_nonneg; lia).
  rewrite u64_small by (unfold is_u64; lia). lia.
Qed.

Lemma render_pixel_glyph_runs t c x y f b :
  is_u8 c -> 0 <= x <= UINT32_MAX - 8 -> 0 <= y <= UINT32_MAX - 16 -> runs t (dogeio_render_pixel_glyph c x y f b) t.
Proof.
  intros Hc Hx Hy. apply runs_gets. intros s [Hs _]. unfold id. destruct (eq_fb _ _ _ _ _ Hs) as [px ->].
  apply runs_if; [intros _; apply runs_ret | intros _].
  destruct (apply_brightness_total _ f (eq_level _ _ _ _ _ Hs)) as [f' Hf']. eapply runs_lift; [exact Hf'|].
  destruct (apply_brightness_total _ b (eq_level _ _ _ _ _ Hs)) as [b' Hb']. eapply runs_lift; [exact Hb'|].
  cbn [fb_width fb_height]. apply runs_if; [intros _; apply runs_ret | intros Hin].
  apply orb_false_iff in Hin as [Hw Hh]. apply Z.ltb_ge in Hw, Hh.
  destruct (glyph_total _ c (eq_font _ _ _ _ _ Hs) Hc) as (g & Hg & Bg). eapply runs_lift; [exact Hg|].
  apply runs_for_same. intros r Hr. destruct (rd_is_Some (current_font s) (g + r)) as [bits Hbits]; [lia|].
  eapply runs_lift; [exact Hbits|]. apply runs_for_same. intros bit Hbit.
  apply set_pixel_runs. unfold u64_pitch. cbn [fb_pitch]. apply pixel_inside; lia.
Qed.

Lemma render_glyph_runs t c x y f b : is_u8 c -> in_grid x y -> runs t (dogeio_render_glyph c x y f b) t.
Proof.
  unfold in_grid, TERMINAL_COLS, TERMINAL_ROWS. intros Hc [Hx Hy].
  apply render_pixel_glyph_runs; [done | |]; rewrite u32_small; unfold is_u32, UINT32_MAX; lia.
Qed.

Lemma raw_glyph_runs t c x y : is_u8 c -> in_grid x y -> runs t (dogeio_putchar_raw_glyph c x y) t.
Proof. intros Hc Hi. apply runs_gets. intros s _. by apply render_glyph_runs. Qed.

Lemma reverted_glyph_runs t c x y : is_u8 c -> in_grid x y -> runs t (dogeio_putchar_reverted_glyph c x y) t.
Proof. intros Hc Hi. apply runs_gets. intros s _. by apply render_glyph_runs. Qed.

(** ** Cells *)

Lemma grid_index x y : in_grid x y -> 0 <= y * TERMINAL_COLS + x < CELLS.
Proof. unfold in_grid, CELLS, TERMINAL_COLS, TERMINAL_ROWS. lia. Qed.

(** A write of one cell: the three arrays. *)
Lemma on_cells t s i x g fgs bgs :
  on t s -> 0 <= i < CELLS -> is_u8 (cchar x) ->
  forall s0, on t s0 -> wr (text_grid s0) i (cchar x) = Some g -> wr (text_color_grid s0) i (cfg x) = Some fgs ->
  wr (bg_color_grid s0) i (cbg x) = Some bgs -> on (poke i x t) (with_cells g fgs bgs s).
Proof.
  intros [He Hs] Hi Hx s0 [_ Hs0] Hg Hf Hb. split; [by destruct He|].
  destruct (sh_sized _ _ Hs0) as (L1 & L2 & L3 & L4). pose proof (sh_cells _ _ Hs0) as Hcells. destruct Hs.
  constructor; try done.
  - split_and!; cbn.
    + by rewrite (wr_zlen _ _ _ _ Hg).
    + by rewrite (wr_zlen _ _ _ _ Hf).
    + by rewrite (wr_zlen _ _ _ _ Hb).
    + by eapply is_bytes_wr.
  - intros j Hj. cbn. unfold cell_is. cbn. destruct (Z.eqb_spec j i) as [->|Hne].
    + by rewrite (rd_wr_eq _ _ _ _ Hg), (rd_wr_eq _ _ _ _ Hf), (rd_wr_eq _ _ _ _ Hb).
    + rewrite (rd_wr_ne _ _ _ _ _ Hg), (rd_wr_ne _ _ _ _ _ Hf), (rd_wr_ne _ _ _ _ _ Hb) by done. by apply Hcells.
Qed.

Lemma set_cell_runs t i c f b : 0 <= i < CELLS -> is_u8 c -> runs t (set_cell i c f b) (poke i (Cell c f b) t).
Proof.
  intros Hi Hc. apply runs_gets. intros s0 Hs0. pose proof (sh_sized _ _ (proj2 Hs0)) as (L1 & L2 & L3 & _).
  destruct (wr_is_Some (text_grid s0) i c) as [g Hg]; [lia|].
  destruct (wr_is_Some (text_color_grid s0) i f) as [fgs Hf]; [lia|].
  destruct (wr_is_Some (bg_color_grid s0) i b) as [bgs Hb]; [lia|].
  do 3 (eapply runs_lift; [eassumption|]). apply runs_modify. intros s Hs. by apply (on_cells _ _ _ (Cell c f b) _ _ _ Hs Hi Hc s0).
Qed.

Lemma set_char_runs t i c : 0 <= i < CELLS -> is_u8 c ->
  runs t (set_char i c) (poke i (Cell c (cfg (cells t i)) (cbg (cells t i))) t).
Proof.
  intros Hi Hc. apply runs_gets. intros s0 [_ Hs0]. destruct (sh_sized _ _ Hs0) as (L1 & L2 & L3 & L4).
  pose proof (sh_cells _ _ Hs0) as Hcells. destruct (wr_is_Some (text_grid s0) i c) as [g Hg]; [unfold id; lia|].
  eapply runs_lift; [exact Hg|]. apply runs_modify. intros s [He []]. split; [by destruct He|]. constructor; try done.
  - split_and!; cbn; [by rewrite (wr_zlen _ _ _ _ Hg) | done | done | by eapply is_bytes_wr].
  - intros j Hj. unfold cell_is, id. cbn. destruct (Hcells j Hj) as (C1 & C2 & C3).
    destruct (Z.eqb_spec j i) as [->|Hne]; [by rewrite (rd_wr_eq _ _ _ _ Hg)|].
    by rewrite (rd_wr_ne _ _ _ _ _ Hg) by done.
Qed.

(** A character of the screen is a byte; below the bar it is the terminal's. *)
Lemma char_at_rd t s i : on t s -> 0 <= i < CELLS ->
  exists c, rd (text_grid s) i = Some c /\ is_u8 c /\ (TERMINAL_COLS <= i -> c = cchar (cells t i)).
Proof.
  intros [_ Hs] Hi. destruct (sh_sized _ _ Hs) as (L1 & _ & _ & L4).
  destruct (rd_is_Some (text_grid s) i) as [c Hc]; [lia|]. exists c. split_and!; [done | by eapply is_bytes_rd |].
  intros Hr. destruct (sh_cells _ _ Hs i) as (C1 & _); [lia|]. congruence.
Qed.

Lemma char_at_runs t t' i (k : Z -> M (screen W) unit) :
  0 <= i < CELLS ->
  (forall c, is_u8 c -> (TERMINAL_COLS <= i -> c = cchar (cells t i)) -> runs t (k c) t') ->
  runs t (char_at i ≫= k) t'.
Proof.
  intros Hi Hk s Hs. destruct (char_at_rd t s i Hs Hi) as (c & Hc & Hb & He).
  assert (char_at i s = Some (Val c, s)) as E by (unfold char_at; by rewrite bind_gets, Hc).
  rewrite (bind_val _ _ _ _ _ E). by apply (Hk c Hb He).
Qed.

Lemma set_cursor_runs t x y : runs t (set_cursor x y) (move x y t).
Proof. apply runs_modify. intros s [[] []]. split; by constructor. Qed.

Lemma set_visible_runs t b : runs t (set_visible b) (reveal b t).
Proof. apply runs_modify. intros s [[] []]. split; by constructor. Qed.

Lemma set_colors_runs t f b : runs t (set_colors f b) (paint f b t).
Proof. apply runs_modify. intros s [[] []]. split; by constructor. Qed.

Lemma no_framebuffer_runs t t' (m1 m2 : M (screen W) unit) :
  runs t m2 t' -> runs t (none ← no_framebuffer; if (none : bool) then m1 else m2) t'.
Proof.
  intros Hm s Hs. destruct (eq_fb _ _ _ _ _ (proj1 Hs)) as [px Hpx]. unfold no_framebuffer. rewrite bind_assoc, bind_gets, Hpx.
  by apply Hm.
Qed.

Lemma putchar_runs t c x y : is_u8 c -> in_grid x y ->
  runs t (dogeio_putchar c x y) (poke (y * TERMINAL_COLS + x) (Cell (shown c) (fg t) (bg t)) t).
Proof.
  intros Hc Hin. apply runs_gets. intros s Hs. unfold id. destruct (eq_fb _ _ _ _ _ (proj1 Hs)) as [px ->].
  rewrite (eq_mode _ _ _ _ _ (proj1 Hs)). fold (shown c).
  replace ((TERMINAL_COLS <=? x) || (TERMINAL_ROWS <=? y)) with false by (symmetry; destruct Hin; bgoal).
  rewrite (sh_fg _ _ (proj2 Hs)), (sh_bg _ _ (proj2 Hs)). pose proof (shown_range c Hc).
  eapply runs_seq; [apply set_cell_runs; [by apply grid_index | unfold is_u8; lia]|].
  apply raw_glyph_runs; [unfold is_u8; lia | done].
Qed.

(** ** The cursor *)

Lemma draw_cursor_runs t b (draw : Z -> Z -> Z -> M (screen W) unit) :
  0 <= tx t -> 0 <= ty t -> (forall c x y, is_u8 c -> in_grid x y -> runs t (draw c x y) t) -> runs t (draw_cursor b draw) t.
Proof.
  intros Hx Hy Hd. apply runs_gets. intros s [_ Hs]. unfold id. rewrite (sh_x _ _ Hs), (sh_y _ _ Hs).
  apply runs_if; [|intros _; apply runs_ret]. intros [[_ Bx]%andb_true_iff By]%andb_true_iff. apply Z.ltb_lt in Bx, By.
  assert (in_grid (tx t) (ty t)) as Hin by done. apply char_at_runs; [by apply grid_index|]. intros c Hc _. by apply Hd.
Qed.

Lemma draw_raw_runs t b : 0 <= tx t -> 0 <= ty t -> runs t (draw_cursor b dogeio_putchar_raw_glyph) t.
Proof. intros Hx Hy. apply draw_cursor_runs; [done | done |]. intros. by apply raw_glyph_runs. Qed.

Lemma draw_reverted_runs t b : 0 <= tx t -> 0 <= ty t -> runs t (draw_cursor b dogeio_putchar_reverted_glyph) t.
Proof. intros Hx Hy. apply draw_cursor_runs; [done | done |]. intros. by apply reverted_glyph_runs. Qed.

Lemma put_here_runs t c : is_u8 c -> in_grid (tx t) (ty t) -> runs t (put_here c) (put c t).
Proof.
  intros Hc Hin. apply runs_gets. intros s [_ Hs]. unfold id. rewrite (sh_x _ _ Hs), (sh_y _ _ Hs).
  eapply runs_seq; [apply set_char_runs; [by apply grid_index | done]|].
  assert (put c t ≡ poke (here t) (Cell (shown c) (fg t) (bg t))
                      (poke (here t) (Cell c (cfg (cells t (here t))) (cbg (cells t (here t)))) t)) as ->.
  { split; [|done]. intros i _. cbn. by destruct (i =? here t). }
  exact (putchar_runs (poke _ _ t) c (tx t) (ty t) Hc Hin).
Qed.

Lemma put_advance_runs t c : is_u8 c -> 0 <= tx t -> 0 <= ty t -> runs t (put_advance c) (advance c t).
Proof.
  intros Hc Hx Hy. apply runs_gets. intros s [_ Hs]. unfold id, advance. rewrite (sh_x _ _ Hs), (sh_y _ _ Hs).
  destruct ((tx t <? TERMINAL_COLS) && (ty t <? TERMINAL_ROWS)) eqn:E; [|apply runs_ret].
  apply andb_true_iff in E as [Bx By]. apply Z.ltb_lt in Bx, By.
  eapply runs_seq; [by apply put_here_runs | apply set_cursor_runs].
Qed.

(** ** Whole screens *)

Lemma all_cells_runs t first (body : Z -> Z -> M (screen W) unit) :
  0 <= first <= TERMINAL_ROWS -> (forall x y, in_grid x y -> first <= y -> runs t (body x y) t) ->
  runs t (all_cells first body) t.
Proof.
  unfold in_grid, TERMINAL_ROWS, TERMINAL_COLS. intros Hf Hb. apply runs_for_same. intros y Hy.
  apply runs_for_same. intros x Hx. unfold TERMINAL_ROWS, TERMINAL_COLS in *. apply Hb; lia.
Qed.

(** The first [n] cells are blank. *)
Definition wiped (n : nat) t : term :=
  Term (fun i => if i <? Z.of_nat n then blank t else cells t i) (tx t) (ty t) (fg t) (bg t) (vis t).

Lemma blank_cells_runs t : runs t blank_cells (Term (fun _ => blank t) (tx t) (ty t) (fg t) (bg t) (vis t)).
Proof.
  assert (t ≡ wiped 0 t) as Heq.
  { split; [|done]. intros i Hi. unfold TERMINAL_COLS in Hi. cbn [cells wiped].
    by rewrite (proj2 (Z.ltb_ge i (Z.of_nat 0))) by lia. }
  rewrite Heq at 1.
  assert (Term (fun _ => blank t) (tx t) (ty t) (fg t) (bg t) (vis t) ≡ wiped (Z.to_nat CELLS) t) as ->.
  { split; [|done]. intros i Hi. cbn [cells wiped]. rewrite Z2Nat.id by done. by replace (i <? CELLS) with true by (symmetry; bgoal). }
  apply (runs_for _ _ _ (fun m => wiped m t)). intros m Hm. apply runs_gets. intros s [_ Hs]. unfold id. rewrite (sh_fg _ _ Hs), (sh_bg _ _ Hs).
  assert (wiped (S m) t ≡ poke (0 + Z.of_nat m) (blank t) (wiped m t)) as ->.
  { split; [|done]. intros i Hi. cbn [cells wiped poke]. by compare_all. }
  apply set_cell_runs; [unfold CELLS, TERMINAL_COLS, TERMINAL_ROWS in *; lia | done].
Qed.

Lemma clear_runs t : runs t dogeio_clear (wipe t).
Proof.
  apply runs_gets. intros s Hs. unfold id. rewrite (eq_mode _ _ _ _ _ (proj1 Hs)).
  eapply runs_seq; [apply blank_cells_runs|]. apply no_framebuffer_runs.
  eapply runs_seq; [|apply (set_cursor_runs (Term (fun _ => blank t) (tx t) (ty t) (fg t) (bg t) (vis t)))].
  apply all_cells_runs; [done|]. intros x y Hin _. by apply raw_glyph_runs.
Qed.

(** ** Scrolling *)

(** The first [n] cells below the bar have moved up. *)
Definition moved (n : nat) t : term :=
  Term (fun i => if (TERMINAL_COLS <=? i) && (i <? TERMINAL_COLS + Z.of_nat n) then cells t (i + TERMINAL_COLS) else cells t i)
    (tx t) (ty t) (fg t) (bg t) (vis t).

(** The first [n] cells of the last row are blank. *)
Definition last_wiped (n : nat) t : term :=
  let last := (TERMINAL_ROWS - 1) * TERMINAL_COLS in
  Term (fun i => if (last <=? i) && (i <? last + Z.of_nat n) then blank t else cells t i) (tx t) (ty t) (fg t) (bg t) (vis t).

Lemma move_cell_runs t row col n : 2 <= row < TERMINAL_ROWS -> 0 <= col < TERMINAL_COLS ->
  (row - 2) * TERMINAL_COLS + col = Z.of_nat n ->
  runs (moved n t) (s ← gets id;
      c ← lift (rd (text_grid s) (row * TERMINAL_COLS + col));
      fg ← lift (rd (text_color_grid s) (row * TERMINAL_COLS + col));
      bg ← lift (rd (bg_color_grid s) (row * TERMINAL_COLS + col));
      set_cell ((row - 1) * TERMINAL_COLS + col) c fg bg) (moved (S n) t).
Proof.
  intros Hr Hc Hn. apply runs_gets. intros s Hs. unfold id.
  assert (TERMINAL_COLS <= row * TERMINAL_COLS + col < CELLS) as Hi by (unfold CELLS, TERMINAL_COLS, TERMINAL_ROWS in *; lia).
  destruct (char_at_rd _ _ (row * TERMINAL_COLS + col) Hs) as (c & Hch & Hb & _); [lia|].
  destruct (sh_cells _ _ (proj2 Hs) _ Hi) as (C1 & C2 & C3). rewrite Hch in C1. injection C1 as C1.
  do 3 (eapply runs_lift; [eassumption|]). cbv beta.
  assert (moved (S n) t ≡ poke ((row - 1) * TERMINAL_COLS + col)
    (Cell c (cfg (cells (moved n t) (row * TERMINAL_COLS + col))) (cbg (cells (moved n t) (row * TERMINAL_COLS + col)))) (moved n t)) as ->;
    [|apply set_cell_runs; [lia | done]].
  split; [|done]. intros i Hi'. rewrite C1. clear C1 C2 C3. cbn [cells poke moved].
  compare_all; try done. subst i. destruct (cells t (row * TERMINAL_COLS + col)) eqn:E. cbn.
  replace ((row - 1) * TERMINAL_COLS + col + TERMINAL_COLS) with (row * TERMINAL_COLS + col) by (unfold TERMINAL_COLS; lia). done.
Qed.

Lemma scroll_cells_runs t : runs t scroll_cells (roll t).
Proof.
  assert (t ≡ moved 0 t) as Heq.
  { split; [|done]. intros i Hi. cbn [cells moved]. by compare_all. }
  rewrite Heq at 1. apply (runs_seq _ (moved (48 * 160) t)).
  - apply (runs_for _ _ _ (fun r => moved (r * 160) t)). intros r Hr.
    replace (S r * 160)%nat with (r * 160 + 160)%nat by lia. replace (moved (r * 160) t) with (moved (r * 160 + 0) t) by (f_equal; lia).
    apply (runs_for _ _ _ (fun m => moved (r * 160 + m) t)). intros m Hm.
    replace (r * 160 + S m)%nat with (S (r * 160 + m)) by lia.
    unfold TERMINAL_ROWS, TERMINAL_COLS in Hr, Hm. apply move_cell_runs; unfold TERMINAL_ROWS, TERMINAL_COLS; lia.
  - assert (moved (48 * 160) t ≡ last_wiped 0 (moved (48 * 160) t)) as Heq'.
    { split; [|done]. intros i Hi. cbn [cells last_wiped]. by compare_all. }
    assert (roll t ≡ last_wiped 160 (moved (48 * 160) t)) as ->.
    { split; [|done]. intros i Hi. cbn [cells last_wiped moved roll blank fg bg]. compare_all; done. }
    rewrite Heq' at 1. apply (runs_for _ _ _ (fun m => last_wiped m (moved (48 * 160) t))). intros m Hm.
    apply runs_gets. intros s [_ Hs]. unfold id. rewrite (sh_fg _ _ Hs), (sh_bg _ _ Hs).
    assert (forall u, last_wiped (S m) u ≡
      poke ((TERMINAL_ROWS - 1) * TERMINAL_COLS + (0 + Z.of_nat m)) (blank u) (last_wiped m u)) as ->.
    { intros u. split; [|done]. intros i Hi. cbn [cells last_wiped poke]. compare_all; done. }
    apply set_cell_runs; [unfold CELLS, TERMINAL_COLS, TERMINAL_ROWS in *; lia | done].
Qed.

(** Drawing a cell again changes the colours only. *)
Lemma redraw_cell_runs t f b row col :
  in_grid col row -> TERMINAL_COLS <= row * TERMINAL_COLS + col < CELLS ->
  0 <= cchar (cells t (row * TERMINAL_COLS + col)) < 128 ->
  let x := cells t (row * TERMINAL_COLS + col) in
  runs (paint f b t) (s ← gets id;
      let idx := row * TERMINAL_COLS + col in
      fg ← lift (rd (text_color_grid s) idx);
      bg ← lift (rd (bg_color_grid s) idx);
      set_colors fg bg;;
      c ← char_at idx;
      dogeio_putchar c col row) (paint (cfg x) (cbg x) t).
Proof.
  intros Hin Hi Hch x. apply runs_gets. intros s [_ Hs]. fold x in Hch.
  destruct (sh_cells _ _ Hs _ Hi) as (_ & C2 & C3). do 2 (eapply runs_lift; [eassumption|]).
  eapply runs_seq; [apply set_colors_runs|]. apply char_at_runs; [by apply grid_index|]. intros c Hc Hcc.
  rewrite Hcc by lia. cbn [cells paint]. fold x.
  assert (paint (cfg x) (cbg x) t ≡
    poke (row * TERMINAL_COLS + col) (Cell (shown (cchar x)) (cfg x) (cbg x)) (paint (cfg x) (cbg x) t)) as ->.
  { split; [|done]. intros i _. cbn [cells poke paint]. destruct (Z.eqb_spec i (row * TERMINAL_COLS + col)) as [->|]; [|done].
    fold x. unfold shown. rewrite (proj2 (Z.leb_gt 128 (cchar x))) by lia. by destruct x. }
  apply putchar_runs; [unfold is_u8; lia | done].
Qed.

Lemma redraw_cells_runs t t' (k : unit -> M (screen W) unit) :
  chars_ok t ->
  (forall f b, runs (paint f b t) (k tt) t') -> runs t (redraw_cells ≫= k) t'.
Proof.
  intros Hch Hk s Hs. set (J := fun (_ : nat) s => exists f b, on (paint f b t) s).
  assert (exists s', redraw_cells s = Some (Val tt, s') /\ J (Z.to_nat (TERMINAL_ROWS - 1)) s') as (s' & E & f & b & Hs').
  - apply (for_loop_count J); [|exists (fg t), (bg t); by destruct t]. intros r s1 Hr Hs1.
    change (J (S r)) with (J (Z.to_nat TERMINAL_COLS)).
    apply (for_loop_count J); [|done]. intros m s2 Hm (f & b & Hs2). rewrite !Z.mul_1_r.
    unfold TERMINAL_COLS, TERMINAL_ROWS in Hr, Hm.
    destruct (redraw_cell_runs t f b (1 + Z.of_nat r) (0 + Z.of_nat m)) with (s := s2) as (s3 & E & Hs3).
    1-2: unfold in_grid, CELLS, TERMINAL_COLS, TERMINAL_ROWS; lia. 2: exact Hs2.
    { apply Hch. unfold CELLS, TERMINAL_COLS, TERMINAL_ROWS. lia. }
    exists s3. split; [exact E | by eexists _, _].
  - rewrite (bind_val _ _ _ _ _ E). by apply (Hk f b).
Qed.

(** The menu bar changes nothing below it. *)
Definition quiet (mb : M (screen W) unit) : Prop := forall t,
  0 <= tx t -> 0 <= ty t -> chars_ok t -> runs t mb t.

Lemma roll_chars t : chars_ok t -> chars_ok (roll t).
Proof.
  intros Hc i Hi. cbn [cells roll]. destruct (Z.ltb_spec i ((TERMINAL_ROWS - 1) * TERMINAL_COLS)); [|done].
  apply Hc. unfold CELLS, TERMINAL_COLS, TERMINAL_ROWS in *. lia.
Qed.

Lemma scroll_runs t mb : 0 <= tx t -> 0 <= ty t -> chars_ok t -> quiet mb -> runs t (dogeio_scroll mb) (roll t).
Proof.
  intros Hx Hy Hc Hmb. apply runs_gets. intros s Hs. unfold id. rewrite (eq_mode _ _ _ _ _ (proj1 Hs)).
  rewrite (sh_fg _ _ (proj2 Hs)), (sh_bg _ _ (proj2 Hs)).
  eapply runs_seq; [apply scroll_cells_runs|]. apply no_framebuffer_runs. pose proof (roll_chars t Hc) as Hr.
  apply redraw_cells_runs; [done|]. intros f b. eapply runs_seq; [apply set_colors_runs|].
  eapply runs_seq; [by apply Hmb|]. apply runs_gets. intros s' _. by apply draw_reverted_runs.
Qed.

Lemma next_line_runs t mb : 0 <= tx t -> 0 <= ty t < TERMINAL_ROWS -> chars_ok t ->
  ty t + 1 < TERMINAL_ROWS \/ quiet mb -> runs t (next_line mb) (new_line t).
Proof.
  intros Hx Hy Hc Hmb. apply runs_gets. intros s [_ Hs]. unfold id, new_line. rewrite (sh_y _ _ Hs).
  rewrite u32_small by (unfold is_u32, TERMINAL_ROWS in *; lia).
  eapply runs_seq; [apply set_cursor_runs|]. destruct (Z.leb_spec TERMINAL_ROWS (ty t + 1)); [|apply runs_ret].
  destruct Hmb as [|Hmb]; [lia|]. eapply runs_seq; [apply scroll_runs; [done | cbn; lia | done | done]|].
  apply runs_gets. intros s' [_ Hs']. unfold id. rewrite (sh_x _ _ Hs').
  exact (set_cursor_runs (roll (move 0 (ty t + 1) t)) 0 (TERMINAL_ROWS - 1)).
Qed.

Lemma wrap_line_runs t mb : 0 <= tx t -> 0 <= ty t < TERMINAL_ROWS -> chars_ok t ->
  ty t + 1 < TERMINAL_ROWS \/ quiet mb -> runs t (wrap_line mb) (wrap t).
Proof.
  intros Hx Hy Hc Hmb. apply runs_gets. intros s [_ Hs]. unfold id, wrap. rewrite (sh_x _ _ Hs).
  destruct (Z.leb_spec TERMINAL_COLS (tx t)); [by apply next_line_runs | apply runs_ret].
Qed.

(** ** Characters *)

Lemma put_chars t c : chars_ok t -> (TERMINAL_COLS <= here t -> is_u8 c) -> chars_ok (put c t).
Proof.
  intros Ht Hc i Hi. cbn [cells put poke]. destruct (Z.eqb_spec i (here t)) as [->|]; [|by apply Ht].
  apply shown_range, Hc, Hi.
Qed.

Lemma advance_chars t c : chars_ok t -> is_u8 c -> chars_ok (advance c t).
Proof. intros Ht Hc. unfold advance. case_match; [|done]. by apply (put_chars t). Qed.

Lemma advance_bounds t c : 0 <= tx t <= TERMINAL_COLS ->
  0 <= tx (advance c t) <= TERMINAL_COLS /\ ty (advance c t) = ty t.
Proof.
  intros Hx. unfold advance. destruct (Z.ltb_spec (tx t) TERMINAL_COLS), (Z.ltb_spec (ty t) TERMINAL_ROWS); cbn; lia.
Qed.

Lemma new_line_ok t : 0 <= ty t < TERMINAL_ROWS -> chars_ok t -> term_ok (new_line t).
Proof.
  intros Hy Hc. unfold new_line. destruct (Z.leb_spec TERMINAL_ROWS (ty t + 1)).
  - split; [done | by apply roll_chars].
  - split; [unfold in_grid, TERMINAL_COLS; cbn; lia | done].
Qed.

Lemma wrap_ok t : 0 <= tx t <= TERMINAL_COLS -> 0 <= ty t < TERMINAL_ROWS -> chars_ok t -> term_ok (wrap t).
Proof.
  intros Hx Hy Hc. unfold wrap. destruct (Z.leb_spec TERMINAL_COLS (tx t)); [by apply new_line_ok|].
  split; [unfold in_grid; lia | done].
Qed.

Lemma step_back_ok t : term_ok t -> term_ok (step_back t).
Proof.
  intros [[Hx Hy] Hc]. unfold step_back, term_ok, in_grid, TERMINAL_COLS, TERMINAL_ROWS in *.
  destruct (Z.ltb_spec 0 (tx t)), (Z.ltb_spec 1 (ty t)); (split; [cbn; lia | done]).
Qed.

(** The four blanks of a tab. *)
Lemma tab_invariant t n : 0 <= tx t <= TERMINAL_COLS -> chars_ok t ->
  let u := Nat.iter n (advance c_space) t in 0 <= tx u <= TERMINAL_COLS /\ ty u = ty t /\ chars_ok u.
Proof.
  intros Hx Hc. induction n as [|n (IHx & IHy & IHc)]; [done|]. cbn [Nat.iter nat_rect].
  destruct (advance_bounds (Nat.iter n (advance c_space) t) c_space IHx) as [Bx By].
  split_and!; [apply Bx | apply Bx | etransitivity; [exact By | exact IHy] | by apply advance_chars].
Qed.

Lemma tab_runs t : term_ok t -> runs t (for_loop 4 0 1 (fun _ => put_advance c_space)) (Nat.iter 4 (advance c_space) t).
Proof.
  intros [[Hx Hy] Hc]. apply (runs_for _ _ _ (fun n => Nat.iter n (advance c_space) t)). intros m _.
  destruct (tab_invariant t m) as (Bx & By & _); [lia | done |]. apply put_advance_runs; [done | lia |].
  cbv beta. rewrite By. lia.
Qed.

Lemma backspace_runs t : term_ok t ->
  runs t print_backspace (put c_space (step_back (put (cchar (cells t (here t))) t))).
Proof.
  intros [Hin Hc]. pose proof Hin as [Hx Hy]. apply runs_gets. intros s [_ Hs]. unfold id. rewrite (sh_x _ _ Hs), (sh_y _ _ Hs).
  apply (runs_seq _ (put (cchar (cells t (here t))) t)).
  { apply runs_if; [intros _|intros E; apply andb_false_iff in E as [?%Z.ltb_ge|?%Z.ltb_ge]; lia].
    apply char_at_runs; [by apply grid_index|]. intros c Hb Hcc.
    assert (put (cchar (cells t (here t))) t ≡ poke (here t) (Cell (shown c) (fg t) (bg t)) t) as ->; [|by apply putchar_runs].
    split; [|done]. intros i Hi. cbn. destruct (Z.eqb_spec i (here t)) as [->|]; [|done]. by rewrite Hcc by (unfold here in Hi; lia). }
  set (u := put _ t). apply (runs_seq _ (step_back u)).
  { unfold step_back. change (tx u) with (tx t). change (ty u) with (ty t).
    destruct (0 <? tx t); [apply set_cursor_runs|]. destruct (1 <? ty t); [apply set_cursor_runs | apply runs_ret]. }
  apply put_here_runs; [done|]. unfold step_back, in_grid, TERMINAL_COLS, TERMINAL_ROWS in *.
  change (tx u) with (tx t). change (ty u) with (ty t).
  destruct (Z.ltb_spec 0 (tx t)), (Z.ltb_spec 1 (ty t)); cbn; change (tx u) with (tx t); change (ty u) with (ty t); lia.
Qed.

Lemma type_char_ok t c : term_ok t -> is_u8 c -> term_ok (type_char c t).
Proof.
  intros Ht Hb. pose proof Ht as [[Hx Hy] Hc]. unfold type_char. destruct (c =? c_nl); [|destruct (c =? 8); [|destruct (c =? 9)]].
  - apply new_line_ok; [done | by apply put_chars].
  - assert (term_ok (put (cchar (cells t (here t))) t)) as Hp.
    { split; [done|]. apply put_chars; [done|]. intros Hh. unfold is_u8. specialize (Hc (here t)).
      unfold here, CELLS, TERMINAL_COLS, TERMINAL_ROWS in *. lia. }
    destruct (step_back_ok _ Hp) as [Hin Hs]. split; [done | by apply put_chars].
  - destruct (tab_invariant t 4) as (Bx & By & Bc); [lia | done |]. apply wrap_ok; [done | by rewrite By | done].
  - destruct (advance_bounds t c) as [Bx By]; [lia|]. apply wrap_ok; [done | by rewrite By | by apply advance_chars].
Qed.

Lemma printchar_runs t mb c : term_ok t -> is_u8 c -> ty t + 1 < TERMINAL_ROWS \/ quiet mb ->
  runs t (printchar mb c) (type_char c t).
Proof.
  intros Ht Hb Hmb. pose proof Ht as [[Hx Hy] Hc]. destruct (type_char_ok t c Ht Hb) as [[Hx' Hy'] _].
  apply runs_gets. intros s Hs. unfold id. rewrite (eq_mode _ _ _ _ _ (proj1 Hs)).
  eapply runs_seq; [apply draw_raw_runs; lia|].
  apply (runs_seq _ (type_char c t)); [|apply runs_gets; intros s' _; apply draw_reverted_runs; lia].
  unfold type_char. destruct (c =? c_nl); [|destruct (c =? 8); [|destruct (c =? 9)]].
  - eapply runs_seq; [by apply put_here_runs|]. apply next_line_runs; [cbn; lia | done | by apply put_chars | done].
  - by apply backspace_runs.
  - eapply runs_seq; [by apply tab_runs|]. destruct (tab_invariant t 4) as (Bx & By & Bc); [lia | done |].
    apply wrap_line_runs; [lia | by rewrite By | done | by rewrite By].
  - eapply runs_seq; [apply put_advance_runs; [done | lia | lia]|]. destruct (advance_bounds t c) as [Bx By]; [lia|].
    apply wrap_line_runs; [lia | by rewrite By | by apply advance_chars | by rewrite By].
Qed.

(** ** Escape sequences *)

Definition params_ok (params : list Z) : Prop := Forall (fun p => 0 <= p <= INT_MAX) params.

Lemma param_range params i : params_ok params -> 0 <= param params i <= INT_MAX.
Proof.
  intros Hp. unfold param. destruct (params !! i) as [p|] eqn:E; cbn; [|done].
  exact (Forall_lookup_1 _ _ _ _ Hp E).
Qed.

Lemma param_or_1_range params i : params_ok params -> 1 <= param_or_1 params i <= INT_MAX.
Proof. intros Hp. pose proof (param_range params i Hp). unfold param_or_1, INT_MAX in *. compare_all. Qed.

Lemma push_param_ok params b p : params_ok params -> 0 <= p <= INT_MAX -> params_ok (push_param params b p).
Proof.
  intros Hs Hp. unfold push_param. case_match; [|done]. apply Forall_app. split; [done|]. constructor; [|constructor].
  by destruct b.
Qed.

(** A palette entry, as the terminal picks it. *)
Lemma palette_runs t t' i (k : Z -> M (screen W) unit) :
  0 <= i < 16 -> runs t (k (default 0 (rd ansi_colors i))) t' -> runs t (c ← lift (rd ansi_colors i); k c) t'.
Proof.
  intros Hi Hk. destruct (rd_is_Some ansi_colors i) as [c Hc]; [unfold zlen; cbn; lia|].
  rewrite Hc in *. by eapply runs_lift.
Qed.

Lemma ansi_color_runs t p : runs t (ansi_color p) (colour p t).
Proof.
  apply runs_gets. intros s [_ Hs]. unfold id, colour. rewrite (sh_fg _ _ Hs), (sh_bg _ _ Hs).
  repeat match goal with
  | |- runs _ (if ?b then _ else _) _ => destruct b eqn:?
  end; try (apply palette_runs; [bool_true; lia|]); first [apply set_colors_runs | apply runs_ret].
Qed.

Lemma ansi_text_runs t cmd params : term_ok t -> params_ok params -> runs t (ansi_text cmd params) (escape cmd params t).
Proof.
  intros [[Hx Hy] Hc] Hp. apply runs_gets. intros s [_ Hs]. unfold id, escape. rewrite (sh_x _ _ Hs), (sh_y _ _ Hs).
  pose proof (param_or_1_range params 0 Hp) as H0'. pose proof (param_or_1_range params 1 Hp) as H1'.
  set (n := param_or_1 params 0) in *. set (m := param_or_1 params 1) in *. unfold go, clamp.
  unfold INT_MAX, TERMINAL_COLS, TERMINAL_ROWS in *.
  destruct (cmd =? 109); [apply ansi_color_runs|].
  destruct (cmd =? 74); [case_match; [apply clear_runs | apply runs_ret]|].
  assert (forall x y x' y', x = x' -> y = y' -> runs t (set_cursor x y) (move x' y' t)) as Hmove
    by (intros; subst; apply set_cursor_runs).
  assert (forall a, 0 <= a < 4294967296 -> u32 a = a) as Hu by (intros; by apply u32_small).
  destruct (cmd =? 65); [apply Hmove; compare_all; lia|].
  destruct (cmd =? 66); [apply Hmove; rewrite ?Hu by lia; compare_all; lia|].
  destruct (cmd =? 67); [apply Hmove; rewrite ?Hu by lia; compare_all; lia|].
  destruct (cmd =? 68); [apply Hmove; compare_all; lia|].
  destruct ((cmd =? 72) || (cmd =? 102)); [|apply runs_ret].
  apply Hmove; rewrite ?Hu by lia; compare_all; lia.
Qed.

Lemma colour_ok p t : term_ok t -> term_ok (colour p t).
Proof. intros Ht. unfold colour. repeat case_match; done. Qed.

Lemma escape_ok cmd params t : term_ok t -> term_ok (escape cmd params t).
Proof.
  intros Ht. unfold escape. assert (forall x y, term_ok (go x y t)) as Hgo.
  { intros x y. split; [|apply Ht]. unfold in_grid, go, clamp, TERMINAL_COLS, TERMINAL_ROWS. cbn [tx ty move]. lia. }
  repeat case_match; first [by apply colour_ok | done | split; done].
Qed.

(** ** Strings *)

(** What follows the introducer: the end of the string, or a command. *)
Lemma ansi_params_tokens str params current digits ts :
  params_ok params -> 0 <= current <= INT_MAX -> is_bytes str -> tokens (Param params current digits) str = Some ts ->
  exists ps rest, ansi_params str params current digits = Some (ps, rest) /\ params_ok ps /\ is_bytes rest /\
    (length rest <= length str)%nat /\
    ((exists q, rest = 0 :: q /\ ts = []) \/
     (exists cmd q us, rest = cmd :: q /\ cmd <> 0 /\ tokens Text q = Some us /\ ts = Escape cmd ps :: us)).
Proof.
  revert params current digits. induction str as [|c str IH]; intros params current digits Hp Hcur Hb Ht; [done|].
  cbn [tokens ansi_params] in *. apply is_bytes_cons in Hb as [Hc Hb].
  assert (is_bytes (c :: str)) as Hcs by (by apply is_bytes_cons).
  destruct (Z.eqb_spec c 0) as [->|Hnz].
  { simplify_eq. exists params, (0 :: str). split_and!; try done. left. by exists str. }
  destruct (is_digit c) eqn:Hd.
  { destruct (Z.ltb_spec INT_MAX (current * 10 + (c - 48))); [done|].
    assert (0 <= current * 10 + (c - 48) <= INT_MAX) by (unfold is_digit in Hd; bool_true; lia).
    destruct (IH params (current * 10 + (c - 48)) true) as (ps & rest & ? & ? & ? & ? & ?); try done.
    exists ps, rest. split_and!; try done. cbn. lia. }
  destruct (c =? 59).
  { destruct (IH (push_param params digits current) 0 false) as (ps & rest & ? & ? & ? & ? & ?);
      [by apply push_param_ok | done | done | done |]. exists ps, rest. split_and!; try done. cbn. lia. }
  destruct (tokens Text str) as [us|] eqn:Hu; [|done]. cbn in Ht. simplify_eq.
  exists (push_param params digits current), (c :: str). split_and!; [done | by apply push_param_ok | done | done |].
  right. by exists c, str, us.
Qed.

Lemma parse_runs t s str ps cmd q :
  term_ok t -> params_ok ps -> ansi_params str [] 0 false = Some (ps, cmd :: q) -> on t s ->
  exists s', parse_ansi_escape str s = Some (Val (if cmd =? 0 then cmd :: q else q), s') /\ on (escape cmd ps t) s'.
Proof.
  intros Ht Hp E Hs. pose proof Ht as [[Hx Hy] Hc]. destruct (escape_ok cmd ps t Ht) as [[Hx' Hy'] _].
  unfold parse_ansi_escape. rewrite (bind_lift _ _ _ _ E). cbv beta iota. rewrite (bind_lift _ cmd) by done. rewrite bind_gets.
  unfold id. rewrite (eq_mode _ _ _ _ _ (proj1 Hs)).
  edestruct (runs_seq t t (escape cmd ps t) (draw_cursor (dogeio_cursor_visible s) dogeio_putchar_raw_glyph)
    (fun _ => ansi_text cmd ps;; draw_cursor (dogeio_cursor_visible s) dogeio_putchar_reverted_glyph)) as (s' & E1 & Hs'); [..|exact Hs|].
  - apply draw_raw_runs; lia.
  - eapply runs_seq; [by apply ansi_text_runs | apply draw_reverted_runs; lia].
  - exists s'. split; [|done]. erewrite bind_val by exact E1. by destruct (cmd =? 0).
Qed.

Lemma print_loop_runs mb fuel str ts t :
  quiet mb -> (length str < fuel)%nat -> is_bytes str -> tokens Text str = Some ts -> term_ok t ->
  runs t (print_loop mb fuel str) (display ts t).
Proof.
  intros Hmb. revert str ts t. induction fuel as [|fuel IH]; intros str ts t Hl Hb Hts Ht; [lia|].
  destruct str as [|c str]; [done|]. cbn [tokens print_loop length] in *. apply is_bytes_cons in Hb as [Hc Hb].
  eapply runs_lift; [done|]. destruct (c =? 0); [simplify_eq; apply runs_ret|].
  destruct str as [|d str']; [done|]. eapply runs_lift; [done|].
  destruct ((c =? 27) && (d =? 91)).
  - change (drop 2 (c :: d :: str')) with (drop 0 str'). rewrite drop_0. apply is_bytes_cons in Hb as [_ Hb].
    destruct (ansi_params_tokens str' [] 0 false ts) as (ps & rest & E & Hp & Hr & Hlen & Hcase); [constructor | done | done | done |].
    destruct Hcase as [(q & -> & ->)|(cmd & q & us & -> & Hcmd & Hu & ->)]; intros s Hs.
    + destruct (parse_runs t s str' ps 0 q Ht Hp E Hs) as (s' & E' & Hs'). rewrite (bind_val _ _ _ _ _ E').
      cbn in Hl, Hlen. apply (IH (0 :: q) []); [cbn; lia | done | done | done | exact Hs'].
    + destruct (parse_runs t s str' ps cmd q Ht Hp E Hs) as (s' & E' & Hs'). rewrite (bind_val _ _ _ _ _ E').
      rewrite eqb_neq by done. apply is_bytes_cons in Hr as [_ Hr]. cbn in Hl, Hlen.
      apply (IH q us (escape cmd ps t)); [lia | done | done | by apply escape_ok | exact Hs'].
  - destruct (tokens Text (d :: str')) as [us|] eqn:Hu; [|done]. cbn in Hts. simplify_eq.
    eapply runs_seq; [apply printchar_runs; [done | done | by right]|].
    apply (IH (d :: str') us (type_char c t)); [cbn in *; lia | done | done | by apply type_char_ok].
Qed.

Lemma print_runs mb str ts t :
  quiet mb -> is_bytes str -> tokens Text str = Some ts -> term_ok t -> runs t (print mb str) (display ts t).
Proof. intros. apply no_framebuffer_runs. apply print_loop_runs; [done | lia | done | done | done]. Qed.

(** ** The menu bar *)

(** Column [n] of the bar; after the last one comes the next row. *)
Definition bar_at (n : Z) t : term := if n <? TERMINAL_COLS then move n 0 t else move 0 1 t.

Lemma type_plain t c : plain_char c = true -> 0 <= tx t < TERMINAL_COLS -> ty t = 0 -> type_char c t ≡ bar_at (tx t + 1) t.
Proof.
  intros Hp Hx Hy. unfold plain_char in Hp. bool_true. unfold type_char. rewrite !eqb_neq by (unfold c_nl; lia).
  unfold advance. rewrite Hy. rewrite (proj2 (Z.ltb_lt _ _)) by lia. cbn [andb]. unfold wrap, bar_at. cbn [tx move].
  change (0 <? TERMINAL_ROWS) with true. cbv iota. cbn [tx move].
  assert (forall i, TERMINAL_COLS <= i -> (i =? here t) = false) as Hne.
  { intros i Hi. apply eqb_neq. unfold here. rewrite Hy. lia. }
  destruct (Z.leb_spec TERMINAL_COLS (tx t + 1)).
  - rewrite (proj2 (Z.ltb_ge _ _)) by lia. change (new_line (move (tx t + 1) 0 (put c t))) with (move 0 1 (put c t)).
    split; [|done]. intros i [Hi _]. cbn -[Z.eqb here]. by rewrite Hne.
  - rewrite (proj2 (Z.ltb_lt _ _)) by lia. split; [|done]. intros i [Hi _]. cbn -[Z.eqb here]. by rewrite Hne.
Qed.

Lemma bar_at_ok n t : 0 <= n -> chars_ok t -> term_ok (bar_at n t).
Proof.
  intros Hn Hc. unfold bar_at. destruct (Z.ltb_spec n TERMINAL_COLS); (split; [|exact Hc]); [split; [done | done] | done].
Qed.

(** A plain string printed in the bar moves the cursor by its length. *)
Lemma bar_loop_runs mb fuel p q t :
  (length p < fuel)%nat -> forallb plain_char p = true -> 0 <= tx t < TERMINAL_COLS -> ty t = 0 -> chars_ok t ->
  tx t + zlen p <= TERMINAL_COLS -> runs t (print_loop mb fuel (p ++ 0 :: q)) (bar_at (tx t + zlen p) t).
Proof.
  revert p t. induction fuel as [|fuel IH]; intros p t Hf Hp Hx Hy Hc Hl; [lia|].
  destruct p as [|c p].
  { change (zlen (@nil Z)) with 0. rewrite Z.add_0_r. unfold bar_at. rewrite (proj2 (Z.ltb_lt _ _)) by lia.
    replace (move (tx t) 0 t) with t by (destruct t; cbn in *; by subst). eapply runs_lift; [done | apply runs_ret]. }
  cbn [forallb] in Hp. apply andb_true_iff in Hp as [Hch Hp]. rewrite zlen_cons in *. cbn [length] in Hf.
  pose proof (zlen_nonneg p). pose proof Hch as Hch'. unfold plain_char in Hch'. bool_true.
  assert (term_ok t) as Ht by (split; [split; [done | by rewrite Hy] | done]).
  cbn [print_loop app]. eapply runs_lift; [done|]. rewrite eqb_neq by lia.
  destruct (rd_is_Some (c :: p ++ 0 :: q) 1) as [d Hd]; [rewrite zlen_cons, zlen_app, zlen_cons; pose proof (zlen_nonneg q); lia|].
  eapply runs_lift; [exact Hd|]. rewrite (eqb_neq c 27) by lia. cbn [andb].
  eapply runs_seq; [apply printchar_runs; [done | unfold is_u8; lia | left; unfold TERMINAL_ROWS; lia]|].
  rewrite (type_plain t c Hch Hx Hy). change (drop 1 (c :: p ++ 0 :: q)) with (drop 0 (p ++ 0 :: q)). rewrite drop_0.
  destruct (Z.ltb_spec (tx t + 1) TERMINAL_COLS) as [Hlt|Hge].
  - replace (bar_at (tx t + 1) t) with (move (tx t + 1) 0 t) by (unfold bar_at; by rewrite (proj2 (Z.ltb_lt _ _))).
    replace (bar_at (tx t + (1 + zlen p)) t) with (bar_at (tx (move (tx t + 1) 0 t) + zlen p) (move (tx t + 1) 0 t))
      by (unfold bar_at; cbn [tx move]; by rewrite Z.add_assoc).
    apply IH; [lia | done | cbn; lia | done | done | cbn; lia].
  - assert (p = []) as -> by (apply zlen_0_nil; lia). change (1 + zlen (@nil Z)) with 1.
    destruct fuel as [|fuel]; [cbn in Hf; lia|]. cbn [app print_loop]. eapply (runs_lift _ 0); [done | apply runs_ret].
Qed.

Lemma bar_print_runs mb p q t :
  forallb plain_char p = true -> 0 <= tx t < TERMINAL_COLS -> ty t = 0 -> chars_ok t -> tx t + zlen p <= TERMINAL_COLS ->
  runs t (print mb (p ++ 0 :: q)) (bar_at (tx t + zlen p) t).
Proof. intros. apply no_framebuffer_runs. apply bar_loop_runs; try done. rewrite length_app. lia. Qed.

(** The strings of the bar. *)
Lemma copy_upto_plain n (str : bytes) : plain_string str ->
  exists d, copy_upto n str = Some d /\ (length d <= n)%nat /\ forallb plain_char d = true.
Proof.
  intros (p & q & -> & Hp). revert p Hp. induction n as [|n IH]; intros p Hp; cbn [copy_upto].
  { exists []. destruct p; (split_and!; [done | done | done]). }
  destruct p as [|c p]; cbn [app]; [exists []; split_and!; [done | cbn; lia | done]|].
  cbn [forallb] in Hp. apply andb_true_iff in Hp as [Hc Hp]. destruct (IH p Hp) as (d & -> & Hl & Hd).
  rewrite eqb_neq by (unfold plain_char in Hc; bool_true; lia). cbn. exists (c :: d). split_and!; [done | cbn; lia |].
  cbn. by rewrite Hc.
Qed.

Lemma plain_lit (p : bytes) : forallb plain_char p = true -> plain_string (p ++ [0]).
Proof. intros Hp. by exists p, []. Qed.

Lemma bar_right_plain date time :
  (forall d, date = Some d -> plain_string d) -> (forall d, time = Some d -> plain_string d) ->
  exists r, bar_right date time = Some (r ++ [0]) /\ zlen r <= 62 /\ forallb plain_char r = true.
Proof.
  intros Hd Ht. unfold bar_right.
  destruct (copy_upto_plain 30 (default (lit "N/A" ++ [0]) date)) as (d & -> & Ld & Pd).
  { destruct date; [by apply Hd | by apply plain_lit]. }
  rewrite Some_bind. destruct (copy_upto_plain (62 - S (length d)) (default (lit "00:00" ++ [0]) time)) as (h & -> & Lt & Pt).
  { destruct time; [by apply Ht | by apply plain_lit]. }
  rewrite Some_bind. exists (d ++ [c_space] ++ h). split_and!; [by rewrite <- !app_assoc | | by rewrite !forallb_app, Pd, Pt].
  rewrite !zlen_app. unfold zlen. cbn [length]. lia.
Qed.

Lemma bar_left_plain s : 0 <= current_terminal_id s < MAX_TERMINALS ->
  (forall v, windoge_version s = Some v -> plain_string v) ->
  exists l, bar_left s = Some (l ++ [0]) /\ (length l <= 63)%nat /\ forallb plain_char l = true.
Proof.
  intros Hid Hv. unfold bar_left. assert (exists v, bar_version s = Some v /\ plain_string v) as (v & -> & Pv).
  { unfold bar_version. destruct (is_kernel_dead s); [eexists; split; [done | by apply plain_lit]|].
    destruct (is_setup s).
    - destruct (windoge_version s) as [v|] eqn:E; [|eexists; split; [done | by apply plain_lit]].
      destruct (copy_upto_plain 45 v) as (d & -> & _ & Pd); [by apply Hv|]. rewrite Some_bind. eexists. split; [done|].
      rewrite app_assoc. apply plain_lit. by rewrite forallb_app, Pd.
    - eexists. split; [done|]. destruct (windoge_version s) as [v|] eqn:E; [by apply Hv | by apply plain_lit]. }
  rewrite Some_bind. destruct (copy_upto_plain 54 v Pv) as (d & -> & Ld & Pd). rewrite Some_bind.
  eexists. split; [by rewrite !app_assoc|]. split; [rewrite !length_app; cbn; lia|]. rewrite !forallb_app, Pd. unfold MAX_TERMINALS in *.
  assert (current_terminal_id s ∈ [0; 1; 2; 3]) as Hin by (rewrite !elem_of_cons; lia).
  rewrite !elem_of_cons, elem_of_nil in Hin. by destruct Hin as [->|[->|[->|[->|[]]]]].
Qed.

Lemma plain_nozero (p : bytes) : forallb plain_char p = true -> nozero p.
Proof.
  intros Hp. apply List.Forall_forall. intros c Hc. pose proof (proj1 (List.forallb_forall _ _) Hp c Hc) as Hch.
  unfold plain_char in Hch. bool_true.
Qed.

(** The clock is read. *)
Lemma clock_runs t t' (k : option bytes -> option bytes -> M (screen W) unit) :
  (forall date time, (forall d, date = Some d -> plain_string d) -> (forall d, time = Some d -> plain_string d) ->
     runs t (k date time) t') ->
  runs t (w ← gets world;
          let '(date, w) := date_get w in let '(time, w) := time_get w in modify (with_world w);; k date time) t'.
Proof.
  intros Hk. apply runs_gets. intros s [Hs _].
  destruct (date_plain _ (eq_clock _ _ _ _ _ Hs)) as [Hw Hd]. destruct (date_get (world s)) as [date w1]. cbn in Hw, Hd.
  destruct (time_plain _ Hw) as [Hw' Ht]. destruct (time_get w1) as [time w2]. cbn in Hw', Ht.
  eapply runs_seq; [|by apply Hk]. apply runs_modify. intros s' [[] []]. split; by constructor.
Qed.

(** The four strings fill the bar. *)
Lemma bar_line_runs mb t t' left right rest (k : M (screen W) unit) :
  forallb plain_char left = true -> forallb plain_char right = true ->
  tx t = 0 -> ty t = 0 -> chars_ok t -> zlen left + zlen right = TERMINAL_COLS - 2 -> runs (move 0 1 t) k t' ->
  runs t (print mb [c_space; 0];; print mb (left ++ 0 :: rest);; print mb (right ++ [0]);; print mb [c_space; 0];; k) t'.
Proof.
  intros Hl Hr Hx Hy Hc Hsum Hk. pose proof (zlen_nonneg left). pose proof (zlen_nonneg right). unfold TERMINAL_COLS in *.
  assert (forall n, 0 <= n < 160 -> bar_at n t = move n 0 t) as Hbar.
  { intros n Hn. unfold bar_at, TERMINAL_COLS. by rewrite (proj2 (Z.ltb_lt _ _)) by lia. }
  assert (forall n p q, forallb plain_char p = true -> 0 <= n -> n + zlen p <= 160 -> n < 160 ->
    runs (move n 0 t) (print mb (p ++ 0 :: q)) (bar_at (n + zlen p) t)) as Hstep.
  { intros n p q Hp Hn Hle Hlt. exact (bar_print_runs mb p q (move n 0 t) Hp (conj Hn Hlt) eq_refl Hc Hle). }
  replace t with (move 0 0 t) at 1 by (destruct t; cbn in *; by subst). change (zlen [c_space]) with 1 in *.
  eapply runs_seq; [apply (Hstep 0 [c_space] []); done|]. rewrite Hbar by done. change (0 + zlen [c_space]) with 1.
  eapply runs_seq; [apply (Hstep 1 left rest); [done | done | lia | lia]|]. rewrite Hbar by lia.
  eapply runs_seq; [apply (Hstep _ right []); [done | lia | lia | lia]|]. rewrite Hbar by lia.
  eapply runs_seq; [apply (Hstep _ [c_space] []); [done | lia | change (zlen [c_space]) with 1; lia | lia]|].
  replace (bar_at _ t) with (move 0 1 t); [done|]. change (zlen [c_space]) with 1.
  unfold bar_at, TERMINAL_COLS. by rewrite (proj2 (Z.ltb_ge _ _)) by lia.
Qed.

(** The padded left part and the right part have the width of the bar. *)
Lemma bar_padding (l r : bytes) : forallb plain_char l = true -> (length l <= 63)%nat -> zlen r <= 62 ->
  exists left rest, str_pad (zeros (Z.to_nat (TERMINAL_COLS + 1))) (l ++ [0]) (TERMINAL_COLS - zlen r - 2) c_space = Some (left ++ 0 :: rest) /\
    forallb plain_char left = true /\ zlen left + zlen r = TERMINAL_COLS - 2.
Proof.
  intros Pl Ll Lr. pose proof (zlen_nonneg r). unfold TERMINAL_COLS.
  destruct (str_pad_spec (zeros (Z.to_nat (160 + 1))) l [] (160 - zlen r - 2) c_space) as [rest E];
    [by apply plain_nozero | lia | by etransitivity; [exact Ll | vm_compute; lia] | unfold zeros; rewrite zlen_replicate; lia |].
  rewrite E. rewrite app_assoc. eexists _, rest. split; [done|]. split.
  - rewrite forallb_app. apply andb_true_iff. split.
    + apply List.forallb_forall. intros c Hc. apply (proj1 (List.forallb_forall _ _) Pl).
      rewrite <- (take_drop (Z.to_nat (160 - zlen r - 2)) l). apply List.in_or_app. by left.
    + generalize (Z.to_nat (160 - zlen r - 2) - length l)%nat as n. induction n as [|n IH]; [done | exact IH].
  - unfold zlen at 1. rewrite length_app, length_take, length_replicate. unfold zlen in *. lia.
Qed.

Lemma cursor_show_runs t : 0 <= tx t -> 0 <= ty t -> runs t dogeio_cursor_show (reveal true t).
Proof.
  intros Hx Hy. eapply runs_seq; [apply set_visible_runs|]. apply runs_gets. intros s _. by apply draw_reverted_runs.
Qed.

Lemma menubar_body_quiet mb : quiet (menubar_body (print mb)).
Proof.
  intros t Hx Hy Hc. apply runs_gets. intros old Hold. unfold id.
  eapply runs_seq; [apply set_visible_runs|].
  apply (runs_seq _ (paint (if is_kernel_dead old then COLOR_BRIGHT_RED else 0xFFFFFF) 0x282828 (reveal false t))).
  { destruct (is_kernel_dead old); apply set_colors_runs. }
  set (f := if is_kernel_dead old then COLOR_BRIGHT_RED else 0xFFFFFF).
  eapply runs_seq; [apply set_cursor_runs|]. apply clock_runs. intros date time Hdate Htime.
  destruct (bar_right_plain date time Hdate Htime) as (r & Hr & Lr & Pr). eapply runs_lift; [exact Hr|].
  destruct (eq_id _ _ _ _ _ (proj1 Hold)) as [Hid Htid]. rewrite <- Hid in Htid.
  destruct (bar_left_plain old Htid (eq_version _ _ _ _ _ (proj1 Hold))) as (l & Hl & Ll & Pl).
  eapply runs_lift; [exact Hl|]. rewrite zlen_app. change (zlen [0]) with 1.
  replace (zlen r + 1 - 1) with (zlen r) by lia. cbv zeta.
  rewrite (proj2 (Z.ltb_ge (TERMINAL_COLS - zlen r - 2) 2)) by (unfold TERMINAL_COLS; lia).
  destruct (bar_padding l r Pl Ll Lr) as (left & rest & -> & Pleft & Hsum).
  eapply (bar_line_runs mb (move 0 0 (paint f 0x282828 (reveal false t))) t left r rest); try done.
  eapply runs_seq; [apply set_colors_runs|]. eapply runs_seq; [apply set_cursor_runs|].
  eapply runs_seq; [apply set_visible_runs|].
  rewrite (sh_x _ _ (proj2 Hold)), (sh_y _ _ (proj2 Hold)), (sh_fg _ _ (proj2 Hold)), (sh_bg _ _ (proj2 Hold)), (sh_vis _ _ (proj2 Hold)).
  set (u := reveal false _). assert (t ≡ reveal (vis t) u) as Heq by done.
  destruct (vis t); rewrite Heq; [by apply cursor_show_runs | apply runs_ret].
Qed.

Lemma menubar_quiet : quiet menubar_draw.
Proof. exact (menubar_body_quiet (menubar 0)). Qed.

(** ** The operations *)

Lemma dogeio_print_runs t str ts :
  is_bytes str -> tokens Text str = Some ts -> term_ok t -> runs t (dogeio_print str) (display ts t).
Proof. apply print_runs, menubar_quiet. Qed.

Lemma refresh_runs t : runs t dogeio_refresh_screen t.
Proof.
  apply no_framebuffer_runs. apply all_cells_runs; [done|]. intros x y Hin _. apply runs_gets. intros s [_ Hs].
  destruct (sh_sized _ _ Hs) as (L1 & L2 & L3 & L4). pose proof (grid_index x y Hin) as Hi. unfold id.
  destruct (rd_is_Some (text_grid s) (y * TERMINAL_COLS + x)) as [c Hc]; [lia|].
  destruct (rd_is_Some (text_color_grid s) (y * TERMINAL_COLS + x)) as [f Hf]; [lia|].
  destruct (rd_is_Some (bg_color_grid s) (y * TERMINAL_COLS + x)) as [b Hb]; [lia|].
  do 3 (eapply runs_lift; [eassumption|]). apply render_glyph_runs; [by eapply is_bytes_rd | done].
Qed.

Lemma dogeio_printchar_runs t c : term_ok t -> is_u8 c -> runs t (dogeio_printchar c) (type_char c t).
Proof. intros Ht Hc. apply printchar_runs; [done | done | right; apply menubar_quiet]. Qed.

End Runs.

(** ** Which strings have an end and small parameters *)

(** No run of more than nine digits; [n] digits came before. *)
Fixpoint short_numbers (n : nat) (str : bytes) : bool :=
  match str with
  | [] => true
  | c :: str' => if is_digit c then (n <? 9)%nat && short_numbers (S n) str' else short_numbers 0 str'
  end.

Definition terminated_string (str : bytes) : Prop := exists p q, str = p ++ 0 :: q.

Lemma short_numbers_le n k str : (k <= n)%nat -> short_numbers n str = true -> short_numbers k str = true.
Proof.
  revert n k. induction str as [|c str IH]; intros n k Hk Hs; [done|]. cbn [short_numbers] in *.
  destruct (is_digit c); [|done]. apply andb_true_iff in Hs as [Hn Hs]. apply Nat.ltb_lt in Hn.
  apply andb_true_iff. split; [apply Nat.ltb_lt; lia | by apply (IH (S n)); [lia|]].
Qed.

(** A number of [n] digits is less than [10 ^ n]. *)
Lemma tokens_total p q m n :
  short_numbers n (p ++ 0 :: q) = true -> (n <= 9)%nat ->
  match m with Text => True | Param _ current _ => 0 <= current < 10 ^ Z.of_nat n end ->
  is_Some (tokens m (p ++ 0 :: q)).
Proof.
  remember (length p) as k eqn:Hk. revert p m n Hk. induction k as [k IH] using lt_wf_ind. intros p m n -> Hs Hn Hm.
  destruct p as [|c p]; [by destruct m|]. cbn [app tokens]. cbn [app short_numbers] in Hs.
  assert (short_numbers 0 (p ++ 0 :: q) = true) as Hs0.
  { destruct (is_digit c); [|done]. apply andb_true_iff in Hs as [_ Hs]. by eapply short_numbers_le; [|exact Hs]; lia. }
  assert (is_Some (tokens Text (p ++ 0 :: q))) as [us Hus].
  { apply (IH (length p)) with (n := 0%nat); [cbn; lia | done | done | lia | done]. }
  destruct m as [|params current digits].
  - destruct (c =? 0); [done|]. destruct p as [|d p]; cbn [app] in *; [by rewrite andb_false_r|].
    destruct ((c =? 27) && (d =? 91)) eqn:E; [|by rewrite Hus].
    apply (IH (length p)) with (n := 0%nat); [cbn; lia | done | | lia | done].
    cbn [short_numbers] in Hs0. apply andb_true_iff in E as [_ ->%Z.eqb_eq]. exact Hs0.
  - destruct (c =? 0); [done|]. destruct (is_digit c) eqn:Hd.
    + apply andb_true_iff in Hs as [Hn9 Hs]. apply Nat.ltb_lt in Hn9.
      assert (48 <= c <= 57) by (unfold is_digit in Hd; bool_true; lia).
      assert (10 ^ Z.of_nat (S n) <= 10 ^ 9) by (apply Z.pow_le_mono_r; lia).
      assert (10 ^ Z.of_nat (S n) = 10 * 10 ^ Z.of_nat n) as Hpow by (rewrite Nat2Z.inj_succ, Z.pow_succ_r by lia; done).
      rewrite (proj2 (Z.ltb_ge _ _)) by (unfold INT_MAX; lia).
      apply (IH (length p)) with (n := S n); [cbn; lia | done | done | lia | lia].
    + destruct (c =? 59); [|by rewrite Hus]. apply (IH (length p)) with (n := 0%nat); [cbn; lia | done | done | lia | done].
Qed.

(** ** A line of text *)

Lemma tokens_plain p q : forallb plain_char p = true -> tokens Text (p ++ 0 :: q) = Some (Char <$> p).
Proof.
  induction p as [|c p IH]; intros Hp; [done|]. cbn [forallb] in Hp. apply andb_true_iff in Hp as [Hc Hp].
  unfold plain_char in Hc. bool_true. cbn [app tokens]. rewrite eqb_neq by lia. rewrite IH by done.
  destruct (p ++ 0 :: q) eqn:E; [by destruct p|]. by rewrite (eqb_neq c 27) by lia.
Qed.

Lemma type_plain_cell t c : plain_char c = true -> term_ok t -> tx t + 1 < TERMINAL_COLS ->
  type_char c t = move (tx t + 1) (ty t) (poke (here t) (Cell c (fg t) (bg t)) t).
Proof.
  intros Hp [[Hx Hy] _] Hlt. unfold plain_char in Hp. bool_true. unfold type_char. rewrite !eqb_neq by (unfold c_nl; lia).
  unfold advance. rewrite !(proj2 (Z.ltb_lt _ _)) by lia. cbn [andb]. unfold wrap. cbn [tx move].
  rewrite (proj2 (Z.leb_gt _ _)) by lia. unfold put, shown. by rewrite (proj2 (Z.leb_gt 128 c)) by lia.
Qed.

Lemma display_plain p t : forallb plain_char p = true -> term_ok t -> tx t + zlen p < TERMINAL_COLS ->
  let u := display (Char <$> p) t in
  (tx u, ty u, fg u, bg u, vis u) = (tx t + zlen p, ty t, fg t, bg t, vis t) /\
  (forall i c, rd p i = Some c -> cells u (here t + i) = Cell c (fg t) (bg t)) /\
  (forall j, j < here t \/ here t + zlen p <= j -> cells u j = cells t j).
Proof.
  revert t. induction p as [|c p IH]; intros t Hp Ht Hl u.
  { subst u. change (zlen (@nil Z)) with 0. split_and!; [by rewrite Z.add_0_r | | done].
    intros i c Hi. apply rd_Some in Hi. change (zlen (@nil Z)) with 0 in Hi. lia. }
  cbn [forallb] in Hp. apply andb_true_iff in Hp as [Hc Hp]. rewrite zlen_cons in *. pose proof (zlen_nonneg p).
  pose proof (type_char_ok t c Ht) as Hok. rewrite (type_plain_cell t c Hc Ht) in Hok by lia. set (v := move _ _ _) in Hok.
  assert (u = display (Char <$> p) v) as ->.
  { subst u v. cbn. by rewrite (type_plain_cell t c Hc Ht) by lia. }
  destruct (IH v) as (E1 & E2 & E3); [done | | subst v; cbn; lia |].
  { apply Hok. unfold plain_char in Hc. bool_true. unfold is_u8. lia. }
  assert (here v = here t + 1) as Hh by (subst v; unfold here; cbn; lia). rewrite Hh in *. split_and!.
  - rewrite E1. subst v. cbn. f_equal; f_equal; f_equal; f_equal; lia.
  - intros i d Hi. pose proof (rd_Some _ _ _ Hi). destruct (decide (i = 0)) as [->|Hne].
    + change (Some c = Some d) in Hi. simplify_eq. rewrite Z.add_0_r, E3 by lia. subst v. cbn [cells move poke]. by rewrite Z.eqb_refl.
    + replace (here t + i) with (here t + 1 + (i - 1)) by lia. rewrite (E2 (i - 1) d); [done|].
      rewrite <- (rd_cons_S c) by lia. by replace (i - 1 + 1) with i by lia.
  - intros j Hj. rewrite E3 by lia. subst v. cbn [cells move poke]. by rewrite eqb_neq by lia.
Qed.

(** ** The promise *)

Section Promise.
Context {W : Type} `{PlainClock W}.
Context (width height pitch tid : Z) (Hgeom : geometry_ok width height pitch).

Definition token_ok (x : token) : Prop := match x with Char c => is_u8 c | Escape _ _ => True end.

Lemma tokens_ok m str ts : is_bytes str -> tokens m str = Some ts -> Forall token_ok ts.
Proof.
  remember (length str) as k eqn:Hk. revert m str ts Hk. induction k as [k IH] using lt_wf_ind. intros m str ts -> Hb Ht.
  destruct str as [|c str]; [done|]. apply is_bytes_cons in Hb as [Hc Hb]. cbn [tokens] in Ht.
  assert (forall m us, tokens m str = Some us -> Forall token_ok us) as Hrec.
  { intros m' us Hus. by apply (IH (length str)) with m' str; [cbn; lia|..]. }
  destruct m as [|params current digits]; (destruct (c =? 0); [by simplify_eq|]).
  - destruct str as [|d str']; [done|]. destruct ((c =? 27) && (d =? 91)).
    + apply is_bytes_cons in Hb as [_ Hb]. by apply (IH (length str')) with (Param [] 0 false) str'; [cbn; lia|..].
    + destruct (tokens Text (d :: str')) as [us|] eqn:E; [|done]. cbn in Ht. simplify_eq. constructor; [done | by eapply Hrec].
  - destruct (is_digit c); [case_match; [done | by eapply Hrec]|]. destruct (c =? 59); [by eapply Hrec|].
    destruct (tokens Text str) as [us|] eqn:E; [|done]. cbn in Ht. simplify_eq. constructor; [done | by eapply Hrec].
Qed.

Lemma display_ok ts t : Forall token_ok ts -> term_ok t -> term_ok (display ts t).
Proof.
  revert t. induction ts as [|x ts IH]; intros t Hts Ht; [done|]. apply Forall_cons in Hts as [Hx Hts].
  apply IH; [done|]. destruct x; cbn in *; [by apply type_char_ok | by apply escape_ok].
Qed.

(** C24: [dogeio_print] in text mode, for a string whose escape sequences have numbers
    that fit an [int], refines the abstract terminal: on a screen that shows a terminal it
    ends, without an access outside the cells, the font or the
    frame buffer, on a screen that shows the terminal after the characters and the
    escape sequences of the string; scrolling and the menu bar included. *)
Theorem dogeio_print_refines (s : screen W) t str ts :
  equipped width height pitch tid s -> shows t s -> term_ok t -> is_bytes str -> tokens Text str = Some ts ->
  exists s', dogeio_print str s = Some (Val tt, s') /\ equipped width height pitch tid s' /\
    shows (display ts t) s' /\ term_ok (display ts t).
Proof.
  intros He Hs Ht Hb Hts. destruct (dogeio_print_runs width height pitch tid Hgeom t str ts Hb Hts Ht s (conj He Hs)) as (s' & E & He' & Hs').
  exists s'. split_and!; try done. apply display_ok; [by eapply tokens_ok | done].
Qed.

(** printing ends: every string with an end, in which no number has more than
    nine digits, is printed completely, whatever else it contains. *)
Theorem dogeio_print_terminates (s : screen W) t str :
  equipped width height pitch tid s -> shows t s -> term_ok t -> is_bytes str ->
  terminated_string str -> short_numbers 0 str = true ->
  exists s', dogeio_print str s = Some (Val tt, s') /\ equipped width height pitch tid s'.
Proof.
  intros He Hs Ht Hb (p & q & ->) Hn. destruct (tokens_total p q Text 0 Hn) as [ts Hts]; [lia | done |].
  destruct (dogeio_print_runs width height pitch tid Hgeom t _ ts Hb Hts Ht s (conj He Hs)) as (s' & E & He' & _). by exists s'.
Qed.

(** a line of text that fits to the right of the cursor appears there, in the
    current colours, the cursor stands behind it and every other cell below the
    menu bar is as before. *)
Theorem dogeio_print_line (s : screen W) t p q :
  equipped width height pitch tid s -> shows t s -> term_ok t -> 1 <= ty t ->
  forallb plain_char p = true -> is_bytes q -> tx t + zlen p < TERMINAL_COLS ->
  exists s', dogeio_print (p ++ 0 :: q) s = Some (Val tt, s') /\
    (cursor_x s', cursor_y s') = (tx t + zlen p, ty t) /\
    (forall i c, rd p i = Some c -> cell_is s' (here t + i) (Cell c (fg t) (bg t))) /\
    (forall j, TERMINAL_COLS <= j < CELLS -> j < here t \/ here t + zlen p <= j -> cell_is s' j (cells t j)).
Proof.
  intros He Hs Ht Hy Hp Hq Hl. pose proof (tokens_plain p q Hp) as Hts. pose proof (display_plain p t Hp Ht Hl) as (E1 & E2 & E3).
  destruct (dogeio_print_runs width height pitch tid Hgeom t (p ++ 0 :: q) (Char <$> p)) with (s := s) as (s' & E & _ & Hs'); [|done|done|done|].
  { apply is_bytes_app. split; [|by apply is_bytes_cons]. apply List.Forall_forall. intros c Hc.
    pose proof (proj1 (List.forallb_forall _ _) Hp c Hc) as Hch. unfold plain_char in Hch. bool_true. unfold is_u8. lia. }
  exists s'. simplify_eq E1. intros X1 X2 X3 X4 X5. split_and!; [done | rewrite (sh_x _ _ Hs'), (sh_y _ _ Hs'); congruence | |].
  - intros i c Hi. rewrite <- (E2 i c Hi). apply (sh_cells _ _ Hs'). apply rd_Some in Hi. destruct Ht as [[Hx Hy'] _].
    unfold here, CELLS, TERMINAL_COLS, TERMINAL_ROWS in *. lia.
  - intros j Hj Hout. rewrite <- (E3 j Hout). by apply (sh_cells _ _ Hs').
Qed.

End Promise.
