(* ===== verification/Workspaces.v ===== *)
(** * The four workspaces (kernel/tui/workspaces.c)

    The saved consoles, and how a console is saved, loaded and switched.  The
    scheduler and the keyboard buffer are met through [Tasks].  [interrupts] is
    the interrupt flag of the processor. *)

From S2P Require Import Prelude CMonad CString Console.

Definition BUFFER_SIZE : Z := TERMINAL_COLS * TERMINAL_ROWS.

Record console_t := ConsoleT {
  display_buffer : list Z;
  text_colors : list Z;
  background_colors : list Z;
  c_cursor_x : Z;
  c_cursor_y : Z;
  text_color : Z;
  background_color : Z;
  c_video_cursor_x : Z;
  c_video_cursor_y : Z;
  cursor_visible : bool;
  video_mode : bool;
}.

Record spaces (W : Type) := Spaces {
  scr : screen W;
  workspaces : list console_t;
  switch_requested : bool;
  workspace_generation : Z;
  rendered_workspace_id : Z;
  interrupts : bool;
}.
Arguments Spaces {W}.
Arguments scr {W}.
Arguments workspaces {W}.
Arguments switch_requested {W}.
Arguments workspace_generation {W}.
Arguments rendered_workspace_id {W}.
Arguments interrupts {W}.

(** The workspace of the running task, the workspace of the shell's task, and the
    keys that are not read yet. *)
Class Tasks (W : Type) := {
  scheduler_current_workspace : W -> Z;
  scheduler_set_shell_workspace : Z -> W -> W;
  dogeio_discard_pending_keys : W -> W;
}.

Section Workspaces.
Context {W : Type} `{Clock W} `{Tasks W}.

Abbreviation X := (M (spaces W)).

Definition with_scr (x : screen W) (s : spaces W) : spaces W :=
  Spaces x (workspaces s) (switch_requested s) (workspace_generation s) (rendered_workspace_id s) (interrupts s).
Definition with_workspaces (l : list console_t) (s : spaces W) : spaces W :=
  Spaces (scr s) l (switch_requested s) (workspace_generation s) (rendered_workspace_id s) (interrupts s).
Definition with_switching (requested : bool) (generation rendered : Z) (s : spaces W) : spaces W :=
  Spaces (scr s) (workspaces s) requested generation rendered (interrupts s).
Definition with_interrupts (b : bool) (s : spaces W) : spaces W :=
  Spaces (scr s) (workspaces s) (switch_requested s) (workspace_generation s) (rendered_workspace_id s) b.
Definition with_terminal_id (i : Z) (s : screen W) : screen W :=
  Screen (text_grid s) (text_color_grid s) (bg_color_grid s) (cursor_x s) (cursor_y s) (dogeio_cursor_visible s)
    (dogeio_color s) (dogeio_background_color s) (dogeio_video_mode s) (video_cursor_x s) (video_cursor_y s)
    (framebuffer_response s) (render_enabled s) (current_brightness_level s) (current_font s) (is_kernel_dead s)
    (is_setup s) (windoge_version s) i (world s).

(** An operation of the console. *)
Definition on_screen {A} (m : M (screen W) A) : X A := zoom scr with_scr m.

(** The saved flags: whether interrupts were enabled. *)
Definition workspace_disable_interrupts : X bool :=
  flags ← gets interrupts; modify (with_interrupts false);; mret flags.
Definition workspace_restore_interrupts (flags : bool) : X unit :=
  if flags then modify (with_interrupts true) else mret tt.

(** The globals of the console, as a saved console. *)
Definition snapshot (x : screen W) : console_t :=
  ConsoleT (text_grid x) (text_color_grid x) (bg_color_grid x) (cursor_x x) (cursor_y x) (dogeio_color x)
    (dogeio_background_color x) (video_cursor_x x) (video_cursor_y x) (dogeio_cursor_visible x) (dogeio_video_mode x).

Definition sys_workspace_save (workspace_id : Z) : X unit :=
  if MAX_TERMINALS <=? workspace_id then mret tt
  else
    s ← gets id;
    l ← lift (wr (workspaces s) workspace_id (snapshot (scr s)));
    modify (with_workspaces l).

Definition restore (c : console_t) (render : bool) (x : screen W) : screen W :=
  Screen (display_buffer c) (text_colors c) (background_colors c) (c_cursor_x c) (c_cursor_y c) (cursor_visible c)
    (text_color c) (background_color c) (video_mode c) (c_video_cursor_x c) (c_video_cursor_y c)
    (framebuffer_response x) render (current_brightness_level x) (current_font x) (is_kernel_dead x)
    (is_setup x) (windoge_version x) (current_terminal_id x) (world x).

Definition workspace_load_state (workspace_id : Z) (render : bool) : X unit :=
  if MAX_TERMINALS <=? workspace_id then mret tt
  else
    s ← gets id;
    c ← lift (rd (workspaces s) workspace_id);
    modify (fun s => with_scr (restore c render (scr s)) s).

(** [dogeio_refresh_screen(); menubar_draw(); rendered_workspace_id = workspace_id;] *)
Definition render_workspace (workspace_id : Z) : X unit :=
  on_screen dogeio_refresh_screen;;
  on_screen menubar_draw;;
  modify (fun s => with_switching (switch_requested s) (workspace_generation s) workspace_id s).

Definition sys_workspace_load (workspace_id : Z) (render : bool) : X unit :=
  workspace_load_state workspace_id render;;
  rendered ← gets rendered_workspace_id;
  if render && negb (rendered =? workspace_id) then render_workspace workspace_id else mret tt.

(** A console as the system starts: blank cells in the colours of the screen. *)
Definition blank_console (x : screen W) : console_t :=
  let cells v := replicate (Z.to_nat BUFFER_SIZE) v in
  ConsoleT (cells c_space) (cells (dogeio_color x)) (cells (dogeio_background_color x)) 0 1
    (dogeio_color x) (dogeio_background_color x) 0 0 false false.

Definition sys_init_terminals : X unit :=
  for_loop (Z.to_nat MAX_TERMINALS) 0 1 (fun terminal =>
    s ← gets id;
    l ← lift (wr (workspaces s) terminal (blank_console (scr s)));
    modify (with_workspaces l));;
  modify (fun s => with_scr (with_terminal_id 0 (scr s)) s);;
  modify (with_switching false 0 0);;
  sys_workspace_save 0.

Definition with_tasks (f : W -> W) : X unit :=
  modify (fun s => with_scr (with_world (f (world (scr s))) (scr s)) s).

Definition sys_switch_terminal : X unit :=
  flags ← workspace_disable_interrupts;
  active_workspace ← gets (fun s => scheduler_current_workspace (world (scr s)));
  sys_workspace_save active_workspace;;
  modify (fun s => with_scr (with_terminal_id (Z.rem (current_terminal_id (scr s) + 1) MAX_TERMINALS) (scr s)) s);;
  modify (fun s => with_switching (switch_requested s) (u32 (workspace_generation s + 1)) (rendered_workspace_id s) s);;
  with_tasks dogeio_discard_pending_keys;;
  current ← gets (fun s => u32 (current_terminal_id (scr s)));
  with_tasks (scheduler_set_shell_workspace current);;
  workspace_load_state current true;;
  render_workspace current;;
  workspace_restore_interrupts flags.

Definition sys_workspace_request_switch : X unit :=
  modify (fun s => with_switching true (workspace_generation s) (rendered_workspace_id s) s).

Definition sys_workspace_take_switch_request : X bool :=
  requested ← gets switch_requested;
  modify (fun s => with_switching false (workspace_generation s) (rendered_workspace_id s) s);;
  mret requested.

Definition sys_workspace_generation : X Z := gets workspace_generation.

End Workspaces.

(** ** The timer (helper/core/execute/scheduler.c)

    What [scheduler_on_timer] and [scheduler_activate] do to the consoles: the world is
    the table of tasks, as far as these calls depend on it, and the rest (the clock, the
    keyboard).  The registers, page tables and contexts they also switch are in
    Scheduler.v. *)

Definition TASK_LIMIT : nat := 8.

Record task_slot := TaskSlot { slot_active : bool; slot_workspace : Z }.

Record task_table (C : Type) := TaskTable {
  table_slots : list task_slot;          (* tasks[0 .. 7] *)
  table_current : nat;                   (* current_task *)
  table_rest : C;
}.
Arguments TaskTable {C}.
Arguments table_slots {C}.
Arguments table_current {C}.
Arguments table_rest {C}.

Definition slot_at (l : list task_slot) (i : nat) : task_slot := default (TaskSlot false 0) (l !! i).

(** [tasks[0].workspace_id = workspace_id] *)
Definition shell_workspace (workspace_id : Z) (l : list task_slot) : list task_slot :=
  if MAX_TERMINALS <=? workspace_id then l else alter (fun t => TaskSlot (slot_active t) workspace_id) 0%nat l.

(** The keys that were pressed and not read, in the rest of the world. *)
Class PendingKeys (C : Type) := { discard_keys : C -> C }.

#[export] Instance table_clock {C} `{Clock C} : Clock (task_table C) := {|
  date_get w := let '(d, c) := date_get (table_rest w) in (d, TaskTable (table_slots w) (table_current w) c);
  time_get w := let '(d, c) := time_get (table_rest w) in (d, TaskTable (table_slots w) (table_current w) c);
|}.

#[export] Instance table_tasks {C} `{PendingKeys C} : Tasks (task_table C) := {|
  scheduler_current_workspace w := slot_workspace (slot_at (table_slots w) (table_current w));
  scheduler_set_shell_workspace m w := TaskTable (shell_workspace m (table_slots w)) (table_current w) (table_rest w);
  dogeio_discard_pending_keys w := TaskTable (table_slots w) (table_current w) (discard_keys (table_rest w));
|}.

(** [for (step = 1; step <= SCHEDULER_TASK_LIMIT; step++)] *)
Fixpoint next_slot_loop (k step : nat) (l : list task_slot) (after : nat) : nat :=
  match k with
  | O => 0%nat
  | S k' =>
      let index := ((after + step) mod TASK_LIMIT)%nat in
      if slot_active (slot_at l index) then index else next_slot_loop k' (S step) l after
  end.

Definition next_slot (l : list task_slot) (after : nat) : nat := next_slot_loop TASK_LIMIT 1 l after.

Section Timer.
Context {C : Type} `{Clock C} `{PendingKeys C}.

Abbreviation X := (M (spaces (task_table C))).

Definition the_table (s : spaces (task_table C)) : task_table C := world (scr s).
Definition slot_of (i : nat) (s : spaces (task_table C)) : task_slot := slot_at (table_slots (the_table s)) i.

(** [sys_workspace_load(task->workspace_id, task->workspace_id == current_terminal_id)] *)
Definition load_task (i : nat) : X unit :=
  ws ← gets (fun s => slot_workspace (slot_of i s));
  front ← gets (fun s => u32 (current_terminal_id (scr s)));
  sys_workspace_load ws (ws =? front).

Definition console_activate (i : nat) : X unit :=
  with_tasks (fun w => TaskTable (table_slots w) i (table_rest w));;
  load_task i.

Definition console_on_timer : X unit :=
  i ← gets (fun s => table_current (the_table s));
  outgoing ← gets (slot_of i);
  if negb (slot_active outgoing) then mret tt else
  sys_workspace_save (slot_workspace outgoing);;
  workspace_switched ← sys_workspace_take_switch_request;
  (if (workspace_switched : bool) then sys_switch_terminal else mret tt);;
  next ← gets (fun s => next_slot (table_slots (the_table s)) i);
  if (next =? i)%nat
  then (if (workspace_switched : bool) then console_activate i else load_task i)
  else console_activate next.

End Timer.
