(* ===== verification/WorkspaceProofs.v ===== *)
(** * Each workspace is a terminal of its own

    Programs print, the keyboard asks for the next workspace, and the timer runs the
    next task.  The abstract machine has a list of terminals: printing changes the one
    that belongs to the running task, and nothing else changes any of them. *)

From S2P Require Import Prelude CMonad CString Console ConsoleSpec ConsoleProofs Workspaces.

(** The terminals, whose is on the console, and which one is in front. *)
Record desk := Desk { terms : list term; loaded : Z; front : Z }.

(** The terminals with the tasks: whose turn it is, and whether the next workspace was
    asked for. *)
Record office := Office {
  o_terms : list term;
  o_front : Z;
  o_slots : list task_slot;
  o_running : nat;
  o_asked : bool;
}.

Definition running_workspace (o : office) : Z := slot_workspace (slot_at (o_slots o) (o_running o)).
Definition desk_of (o : office) : desk := Desk (o_terms o) (running_workspace o) (o_front o).

Inductive event :=
| Print (str : bytes)                    (* the running task prints *)
| Ask                                    (* Ctrl-Tab: the keyboard handler asks for a switch *)
| Timer                                  (* the timer interrupt *)
| SetSlot (i : nat) (t : task_slot).     (* another task is started or killed *)

Definition office_step (o : office) (e : event) : office :=
  match e with
  | Print str =>
      match rd (o_terms o) (running_workspace o), tokens Text str with
      | Some t, Some ts =>
          Office (default (o_terms o) (wr (o_terms o) (running_workspace o) (display ts t))) (o_front o) (o_slots o)
            (o_running o) (o_asked o)
      | _, _ => o
      end
  | Ask => Office (o_terms o) (o_front o) (o_slots o) (o_running o) true
  | Timer =>
      if negb (slot_active (slot_at (o_slots o) (o_running o))) then o
      else
        let front := if o_asked o then (o_front o + 1) mod MAX_TERMINALS else o_front o in
        let slots := if o_asked o then shell_workspace front (o_slots o) else o_slots o in
        Office (o_terms o) front slots (next_slot slots (o_running o)) false
  | SetSlot i t => Office (o_terms o) (o_front o) (<[i := t]> (o_slots o)) (o_running o) (o_asked o)
  end.

Definition event_ok (o : office) (e : event) : Prop :=
  match e with
  | Print str => is_bytes str /\ is_Some (tokens Text str)
  | Ask | Timer => True
  | SetSlot i t => i <> o_running o /\ 0 <= slot_workspace t < MAX_TERMINALS
  end.

Fixpoint events_ok (o : office) (es : list event) : Prop :=
  match es with
  | [] => True
  | e :: es => event_ok o e /\ events_ok (office_step o e) es
  end.

(** Forgetting the pending keys does not disturb the clock. *)
Class OrderlyKeys (C : Type) `{PlainClock C} `{PendingKeys C} := {
  discard_ok c : clock_ok c -> clock_ok (discard_keys c);
}.

#[export] Instance table_plain {C} `{PlainClock C} : PlainClock (task_table C).
Proof.
  refine {| clock_ok w := clock_ok (table_rest w) |}; intros [l i c] Hc.
  - cbn. destruct (date_plain c Hc) as [Hd Hp]. destruct (date_get c) as [d c']. done.
  - cbn. destruct (time_plain c Hc) as [Hd Hp]. destruct (time_get c) as [d c']. done.
Defined.

Section Spaces.
Context {C : Type} `{OrderlyKeys C}.
Context (width height pitch : Z) (Hgeom : geometry_ok width height pitch).

Abbreviation W := (task_table C).
Abbreviation X := (M (spaces W)).

(** The events, by the functions of the kernel that they run. *)
Definition exec (e : event) : X unit :=
  match e with
  | Print str => on_screen (dogeio_print str)
  | Ask => sys_workspace_request_switch
  | Timer => console_on_timer
  | SetSlot i t => with_tasks (fun w => TaskTable (<[i := t]> (table_slots w)) (table_current w) (table_rest w))
  end.

Fixpoint exec_all (es : list event) : X unit :=
  match es with
  | [] => mret tt
  | e :: es => exec e;; exec_all es
  end.

(** The part of the world that the console leaves alone. *)
Definition tab (w : W) : list task_slot * nat := (table_slots w, table_current w).

(** A saved console holds a terminal in text mode. *)
Definition saved (t : term) (c : console_t) : Prop :=
  (forall x r, shows t (restore c r x : screen W)) /\ video_mode c = false.

(** Every workspace but the loaded one is saved. *)
Record filed (l : Z) (d : desk) (s : spaces W) : Prop := Filed {
  fl_len : zlen (workspaces s) = MAX_TERMINALS;
  fl_terms : zlen (terms d) = MAX_TERMINALS;
  fl_ok : Forall term_ok (terms d);
  fl_saved : forall j t, j <> l -> rd (terms d) j = Some t -> exists c, rd (workspaces s) j = Some c /\ saved t c;
  fl_eq : equipped width height pitch (front d) (scr s);
}.

Record desk_ok (d : desk) (s : spaces W) : Prop := DeskOk {
  dk_filed : filed (loaded d) d s;
  dk_range : 0 <= loaded d < MAX_TERMINALS;
  dk_shows : forall t, rd (terms d) (loaded d) = Some t -> shows t (scr s);
  dk_current : scheduler_current_workspace (world (scr s)) = loaded d;
}.

Lemma snapshot_saved t (x : screen W) : shows t x -> dogeio_video_mode x = false -> saved t (snapshot x).
Proof. intros [] Hm. split; [|done]. intros x' r. by constructor. Qed.

Lemma restore_equipped tid c r (x : screen W) t :
  saved t c -> equipped width height pitch tid x -> equipped width height pitch tid (restore c r x).
Proof. intros [_ Hm] []. by constructor. Qed.

(** ** Console operations *)

(** The clock, seen with the table of tasks. *)
#[local] Instance pinned (v : list task_slot * nat) : PlainClock W.
Proof.
  refine {| clock_ok w := clock_ok w /\ tab w = v |}; intros [l i c] [Hw Hl].
  - destruct (date_plain _ Hw) as [Hd Hp]. split; [|done]. split; [done|]. cbn in *. by destruct (date_get c).
  - destruct (time_plain _ Hw) as [Hd Hp]. split; [|done]. split; [done|]. cbn in *. by destruct (time_get c).
Defined.

Lemma pinned_iff v tid (x : screen W) :
  @equipped W _ (pinned v) width height pitch tid x <->
  equipped width height pitch tid x /\ tab (world x) = v.
Proof.
  split; [intros [? ? ? ? ? ? [? ?]]; split; [by constructor | done] | intros [[] ?]; by constructor].
Qed.

(** A program of the console runs on the loaded workspace. *)
Lemma on_screen_runs m t t' v tid (s : spaces W) :
  @runs W _ (pinned v) width height pitch tid t m t' ->
  equipped width height pitch tid (scr s) -> shows t (scr s) -> tab (the_table s) = v ->
  exists x, on_screen m s = Some (Val tt, with_scr x s) /\ equipped width height pitch tid x /\ shows t' x /\
    tab (world x) = v.
Proof.
  intros Hr He Hs Hl. destruct (Hr (scr s)) as (x & E & Hx & Hs'); [split; [by apply pinned_iff | done]|].
  apply pinned_iff in Hx as [Hx Hl']. exists x. unfold on_screen, zoom. by rewrite E.
Qed.

(** ** Saving and loading *)

Lemma save_filed d (s : spaces W) : desk_ok d s ->
  exists ws, sys_workspace_save (loaded d) s = Some (Val tt, with_workspaces ws s) /\ filed (-1) d (with_workspaces ws s).
Proof.
  intros [[L1 L2 Hok Hsaved He] Hr Hsh Hcur]. unfold sys_workspace_save.
  rewrite (proj2 (Z.leb_gt _ _)) by lia. rewrite bind_gets. unfold id.
  destruct (wr_is_Some (workspaces s) (loaded d) (snapshot (scr s))) as [ws Hws]; [lia|].
  rewrite (bind_lift _ _ _ _ Hws). exists ws. split; [done|]. constructor; try done.
  - cbn. by rewrite (wr_zlen _ _ _ _ Hws).
  - intros j t _ Hj. cbn. destruct (decide (j = loaded d)) as [->|Hne].
    + rewrite (rd_wr_eq _ _ _ _ Hws). eexists. split; [done|]. apply snapshot_saved; [by apply Hsh | apply (eq_mode _ _ _ _ _ He)].
    + rewrite (rd_wr_ne _ _ _ _ _ Hws) by done. by apply Hsaved.
Qed.

(** With every workspace saved, any of them can be loaded. *)
Lemma load_state d m r (s : spaces W) : filed (-1) d s -> 0 <= m < MAX_TERMINALS ->
  exists t x, rd (terms d) m = Some t /\ workspace_load_state m r s = Some (Val tt, with_scr x s) /\
    equipped width height pitch (front d) x /\ shows t x /\ world x = world (scr s).
Proof.
  intros [L1 L2 Hok Hsaved He] Hm. destruct (rd_is_Some (terms d) m) as [t Ht]; [lia|].
  destruct (Hsaved m t) as (c & Hc & Hs); [lia | done |]. exists t, (restore c r (scr s)). split; [done|].
  unfold workspace_load_state. rewrite (proj2 (Z.leb_gt _ _)) by lia. rewrite bind_gets. unfold id.
  rewrite (bind_lift _ _ _ _ Hc). split_and!; [done | by eapply restore_equipped | apply Hs | done].
Qed.

Lemma filed_scr l d x (s : spaces W) : filed l d s -> equipped width height pitch (front d) x -> filed l d (with_scr x s).
Proof. intros [] He. by constructor. Qed.

Lemma filed_any l d (s : spaces W) : filed (-1) d s -> filed l d s.
Proof. intros [L1 L2 Hok Hsaved He]. constructor; try done. intros j t _ Hj. apply Hsaved; [|done]. apply rd_Some in Hj. lia. Qed.

Lemma front_range l d (s : spaces W) : filed l d s -> 0 <= front d < MAX_TERMINALS.
Proof. intros Hf. exact (proj2 (eq_id _ _ _ _ _ (fl_eq _ _ _ Hf))). Qed.

Lemma front_id l d (s : spaces W) : filed l d s -> u32 (current_terminal_id (scr s)) = front d.
Proof.
  intros Hf. pose proof (front_range _ _ _ Hf). rewrite (proj1 (eq_id _ _ _ _ _ (fl_eq _ _ _ Hf))).
  apply u32_small. unfold is_u32, MAX_TERMINALS in *. lia.
Qed.

Lemma render_workspace_ok d m t v (s : spaces W) :
  filed (-1) d s -> term_ok t -> shows t (scr s) -> tab (the_table s) = v ->
  exists s', render_workspace m s = Some (Val tt, s') /\ filed (-1) d s' /\ shows t (scr s') /\
    tab (the_table s') = v /\ interrupts s' = interrupts s /\ switch_requested s' = switch_requested s.
Proof.
  intros Hf [[Hx Hy] Hc] Hs Hl. unfold render_workspace.
  destruct (on_screen_runs dogeio_refresh_screen t t v (front d) s) as (x & E & He & Hs' & Hl'); [| | done | done |].
  { apply refresh_runs, Hgeom. } { apply (fl_eq _ _ _ Hf). }
  rewrite (bind_val _ _ _ _ _ E).
  destruct (on_screen_runs menubar_draw t t v (front d) (with_scr x s)) as (y & E' & He' & Hs'' & Hl''); try done.
  { apply menubar_quiet; [done | lia | lia | done]. }
  rewrite (bind_val _ _ _ _ _ E'). eexists. split; [done|]. split_and!; try done. destruct Hf. by constructor.
Qed.

Lemma term_at d m t l (s : spaces W) : filed l d s -> rd (terms d) m = Some t -> term_ok t.
Proof.
  intros Hf Ht. pose proof (rd_Some _ _ _ Ht). rewrite rd_lookup in Ht by lia.
  exact (Forall_lookup_1 _ _ _ _ (fl_ok _ _ _ Hf) Ht).
Qed.

(** The console of slot [i] is loaded. *)
Lemma load_task_ok d i (s : spaces W) : filed (-1) d s -> 0 <= slot_workspace (slot_of i s) < MAX_TERMINALS ->
  exists s', load_task i s = Some (Val tt, s') /\ filed (slot_workspace (slot_of i s)) d s' /\
    (forall t, rd (terms d) (slot_workspace (slot_of i s)) = Some t -> shows t (scr s')) /\
    tab (the_table s') = tab (the_table s) /\ interrupts s' = interrupts s /\ switch_requested s' = switch_requested s.
Proof.
  intros Hf Hm. unfold load_task. rewrite !bind_gets, (front_id _ _ _ Hf). unfold sys_workspace_load.
  set (m := slot_workspace (slot_of i s)) in *.
  destruct (load_state d m (m =? front d) s Hf Hm) as (t & x & Ht & E & He & Hs & Hw).
  rewrite (bind_val _ _ _ _ _ E), bind_gets. pose proof (filed_scr _ _ _ _ Hf He) as Hf'.
  assert (tab (the_table (with_scr x s)) = tab (the_table s)) as Htab by (unfold the_table; cbn; by rewrite Hw).
  assert (forall t', rd (terms d) m = Some t' -> t' = t) as Hu by (intros t' Ht'; congruence).
  case_match.
  - edestruct (render_workspace_ok d m t) as (s1 & E1 & Hf1 & Hs1 & Ht1 & Hi1 & Hr1); [exact Hf' | by eapply term_at | done | exact Htab |].
    exists s1. split_and!; try done; [by apply filed_any | by intros t' ->%Hu].
  - exists (with_scr x s). split_and!; try done; [by apply filed_any | by intros t' ->%Hu].
Qed.

(** The next workspace is in front, and the shell moves to it. *)
Lemma switch_terminal_ok d (s : spaces W) : desk_ok d s ->
  let d' := Desk (terms d) (loaded d) ((front d + 1) mod MAX_TERMINALS) in
  exists s', sys_switch_terminal s = Some (Val tt, s') /\ filed (-1) d' s' /\ interrupts s' = interrupts s /\
    switch_requested s' = switch_requested s /\
    tab (the_table s') = (shell_workspace (front d') (table_slots (the_table s)), table_current (the_table s)).
Proof.
  intros Hd d'. unfold sys_switch_terminal, workspace_disable_interrupts. rewrite bind_assoc, bind_gets, bind_assoc, bind_modify, bind_ret, bind_gets.
  cbn [scr with_interrupts]. rewrite (dk_current _ _ Hd).
  assert (desk_ok d (with_interrupts false s)) as Hd1 by (destruct Hd as [[] ? ? ?]; constructor; try done; by constructor).
  destruct (save_filed d _ Hd1) as (ws & E & Hf). rewrite (bind_val _ _ _ _ _ E). rewrite !bind_modify. unfold with_tasks.
  rewrite bind_modify, bind_gets, bind_modify. cbn [scr with_scr with_switching current_terminal_id with_terminal_id with_world with_workspaces with_interrupts].
  pose proof (front_range _ _ _ Hf) as Hfr. destruct (eq_id _ _ _ _ _ (fl_eq _ _ _ Hf)) as [Hid _].
  cbn [scr with_workspaces with_interrupts] in Hid. rewrite Hid.
  assert (Z.rem (front d + 1) MAX_TERMINALS = front d') as Hrem by (subst d'; cbn; rewrite Z.rem_mod_nonneg by (unfold MAX_TERMINALS; lia); done).
  assert (0 <= front d' < MAX_TERMINALS) as Hfr' by (subst d'; cbn; apply Z.mod_pos_bound; done).
  rewrite Hrem, (u32_small (front d')) by (unfold is_u32, MAX_TERMINALS in *; lia).
  match goal with |- context [(workspace_load_state _ _ ≫= _) ?s2] => set (s2' := s2) end.
  assert (filed (-1) d' s2') as Hf2.
  { destruct Hf as [F1 F2 F3 F4 F5]. constructor; try done. destruct F5. constructor; try done. by apply discard_ok. }
  destruct (load_state d' (front d') true s2' Hf2 Hfr') as (t & x & Ht & E2 & He & Hs & Hw). rewrite (bind_val _ _ _ _ _ E2).
  edestruct (render_workspace_ok d' (front d') t) as (s3 & E3 & Hf3 & Hs3 & Htab & Hi & Hg);
    [by apply (filed_scr _ _ x), He | by eapply (term_at d') | done | reflexivity |].
  rewrite (bind_val _ _ _ _ _ E3). cbn in Hi, Hg. unfold workspace_restore_interrupts.
  assert (tab (the_table s3) = (shell_workspace (front d') (table_slots (the_table s)), table_current (the_table s))) as Htab'.
  { rewrite Htab. unfold the_table. cbn [scr with_scr]. rewrite Hw. done. }
  destruct (interrupts s).
  - exists (with_interrupts true s3). split_and!; try done. destruct Hf3. by constructor.
  - exists s3. by split_and!.
Qed.

(** ** Every sequence of events *)

Record office_ok (o : office) (s : spaces W) : Prop := OfficeOk {
  of_desk : desk_ok (desk_of o) s;
  of_tab : tab (the_table s) = (o_slots o, o_running o);
  of_spaces : Forall (fun t => 0 <= slot_workspace t < MAX_TERMINALS) (o_slots o);
  of_asked : switch_requested s = o_asked o;
}.

Lemma slot_range l i : Forall (fun t => 0 <= slot_workspace t < MAX_TERMINALS) l -> 0 <= slot_workspace (slot_at l i) < MAX_TERMINALS.
Proof. intros Hl. unfold slot_at. destruct (l !! i) as [t|] eqn:E; [exact (Forall_lookup_1 _ _ _ _ Hl E) | done]. Qed.

Lemma shell_range m l : Forall (fun t => 0 <= slot_workspace t < MAX_TERMINALS) l -> 0 <= m < MAX_TERMINALS ->
  Forall (fun t => 0 <= slot_workspace t < MAX_TERMINALS) (shell_workspace m l).
Proof.
  intros Hl Hm. unfold shell_workspace. case_match; [done|]. by apply Forall_alter.
Qed.

Lemma print_ok o str (s : spaces W) : office_ok o s -> event_ok o (Print str) ->
  exists s', exec (Print str) s = Some (Val tt, s') /\ office_ok (office_step o (Print str)) s' /\ interrupts s' = interrupts s.
Proof.
  intros [Hd Htab Hws Ha] [Hb [ts Hts]]. destruct Hd as [Hf Hr Hs Hc]. pose proof (fl_terms _ _ _ Hf) as Hl.
  cbn [desk_of terms loaded front] in *.
  destruct (rd_is_Some (o_terms o) (running_workspace o)) as [t Ht]; [lia|]. cbn [office_step exec]. rewrite Ht, Hts.
  pose proof (term_at (desk_of o) _ _ _ _ Hf Ht) as Hok.
  destruct (on_screen_runs (dogeio_print str) t (display ts t) (o_slots o, o_running o) (o_front o) s) as (x & E & He & Hs' & Hc'); try done.
  { by apply dogeio_print_runs. } { apply (fl_eq _ _ _ Hf). } { by apply Hs. }
  exists (with_scr x s). split; [done|]. split; [|done].
  destruct (wr_is_Some (o_terms o) (running_workspace o) (display ts t)) as [ts' Hw]; [lia|].
  rewrite Hw. cbn [default]. destruct Hf as [F1 F2 F3 F4 F5]. constructor; try done. constructor; try done.
  - constructor; try done.
    + cbn. by rewrite (wr_zlen _ _ _ _ Hw).
    + cbn. apply wr_Some in Hw as [Hr' ->]. apply Forall_insert; [done|]. apply display_ok; [by eapply tokens_ok | done].
    + cbn. intros j u Hj Hu. change (running_workspace _) with (running_workspace o) in Hj. rewrite (rd_wr_ne _ _ _ _ _ Hw) in Hu by done. by apply F4.
  - cbn. change (running_workspace _) with (running_workspace o). intros u Hu. rewrite (rd_wr_eq _ _ _ _ Hw) in Hu. by simplify_eq.
  - injection Hc' as Hc1 Hc2. cbn. by rewrite Hc1, Hc2.
Qed.

(** The next task gets its console. *)
Lemma activate_ok terms0 l front0 slots i j (s : spaces W) :
  filed (-1) (Desk terms0 l front0) s -> tab (the_table s) = (slots, j) ->
  Forall (fun t => 0 <= slot_workspace t < MAX_TERMINALS) slots -> switch_requested s = false ->
  exists s', console_activate i s = Some (Val tt, s') /\ office_ok (Office terms0 front0 slots i false) s' /\ interrupts s' = interrupts s.
Proof.
  intros Hf [= Hsl Hj] Hws Ha. unfold console_activate, with_tasks. rewrite bind_modify.
  match goal with |- context [load_task i ?s2] => set (s1 := s2) end.
  assert (tab (the_table s1) = (slots, i)) as Ht1 by (subst s1; unfold tab; cbn; by f_equal).
  assert (filed (-1) (Desk terms0 l front0) s1) as Hf1.
  { destruct Hf as [F1 F2 F3 F4 F5]. constructor; try done. destruct F5. by constructor. }
  assert (slot_of i s1 = slot_at slots i) as Hsi by (unfold slot_of; by rewrite (f_equal fst Ht1 : table_slots (the_table s1) = slots)).
  destruct (load_task_ok _ i s1 Hf1) as (s2 & E & Hf2 & Hs2 & Ht2 & Hi2 & Ha2); [rewrite Hsi; by apply slot_range|].
  rewrite Hsi in *. exists s2. split; [done|]. split; [|done]. rewrite Ht1 in Ht2. constructor; try done; [|cbn; by rewrite Ha2].
  constructor; try done.
  - destruct Hf2. by constructor.
  - by apply slot_range.
  - injection Ht2 as Hs Hi. cbn. unfold the_table in Hs, Hi. by rewrite Hs, Hi.
Qed.

Lemma same_table i (s : spaces W) : table_current (the_table s) = i ->
  with_scr (Console.with_world (TaskTable (table_slots (the_table s)) i (table_rest (the_table s))) (scr s)) s = s.
Proof. intros <-. destruct s as [[] ? ? ? ? ?]. unfold the_table. cbn. by destruct world. Qed.

Lemma console_timer_ok o (s : spaces W) : office_ok o s ->
  exists s', console_on_timer s = Some (Val tt, s') /\ office_ok (office_step o Timer) s' /\ interrupts s' = interrupts s.
Proof.
  intros Ho. pose proof Ho as [Hd Htab Hws Ha]. pose proof Htab as [= Hsl Hcur]. unfold console_on_timer.
  rewrite !bind_gets. unfold slot_of. rewrite Hsl, Hcur. cbn [office_step].
  destruct (slot_active _); cbn [negb]; [|by exists s].
  destruct (save_filed (desk_of o) s Hd) as (ws & E & Hf). cbn [loaded desk_of] in E. unfold running_workspace in E.
  rewrite (bind_val _ _ _ _ _ E). set (s1 := with_workspaces ws s) in *.
  unfold sys_workspace_take_switch_request. rewrite bind_assoc, bind_gets, bind_assoc, bind_modify, bind_ret.
  change (switch_requested s1) with (switch_requested s). rewrite Ha.
  match goal with |- context [(_ ≫= _) ?s2] => set (s2' := s2) end.
  assert (filed (-1) (desk_of o) s2') as Hf2 by (destruct Hf; by constructor).
  destruct (o_asked o).
  - assert (desk_ok (desk_of o) s2') as Hd2 by (destruct Hd as [_ ? ? ?]; constructor; try done; by apply filed_any).
    destruct (switch_terminal_ok (desk_of o) s2' Hd2) as (s3 & E3 & Hf3 & Hi3 & Ha3 & Ht3).
    rewrite (bind_val _ _ _ _ _ E3), bind_gets. change (the_table s2') with (the_table s) in Ht3. rewrite Hsl, Hcur in Ht3.
    pose proof Ht3 as [= Hsl3 _]. rewrite Hsl3. cbn [front desk_of terms loaded] in *.
    pose proof (front_range _ _ _ Hf3) as Hfr. cbn [front] in Hfr.
    set (slots := shell_workspace _ _) in *. assert (Forall (fun t => 0 <= slot_workspace t < MAX_TERMINALS) slots) as Hws' by by apply shell_range.
    destruct (activate_ok _ _ _ slots (next_slot slots (o_running o)) _ s3 Hf3 Ht3 Hws' Ha3) as (s4 & E4 & Ho4 & Hi4).
    exists s4. rewrite Hi4, Hi3. destruct (Nat.eqb_spec (next_slot slots (o_running o)) (o_running o)) as [Hn|_]; [rewrite Hn in E4|]; done.
  - rewrite bind_ret, bind_gets. change (the_table s2') with (the_table s). rewrite Hsl.
    destruct (activate_ok _ _ _ (o_slots o) (next_slot (o_slots o) (o_running o)) (o_running o) s2' Hf2) as (s4 & E4 & Ho4 & Hi4); [done..|].
    destruct (Nat.eqb_spec (next_slot (o_slots o) (o_running o)) (o_running o)) as [Hn|_]; [|by exists s4].
    exists s4. split; [|done]. rewrite Hn in E4. rewrite <- E4. unfold console_activate, with_tasks. rewrite bind_modify. f_equal.
    symmetry. apply same_table. exact Hcur.
Qed.

Lemma exec_ok o e (s : spaces W) : office_ok o s -> event_ok o e ->
  exists s', exec e s = Some (Val tt, s') /\ office_ok (office_step o e) s' /\ interrupts s' = interrupts s.
Proof.
  intros Ho He. destruct e as [str| | |i t]; [by apply print_ok| |by apply console_timer_ok|].
  - eexists. split; [reflexivity|]. split; [|done]. destruct Ho as [Hd ? ? ?]. constructor; try done.
    destruct Hd as [[] ? ? ?]. constructor; try done; by constructor.
  - destruct He as [Hi Ht]. eexists. split; [reflexivity|]. split; [|done]. destruct Ho as [Hd Htab Hws Ha].
    pose proof Htab as [= Hsl Hcur]. cbn [office_step].
    assert (slot_at (<[i := t]> (o_slots o)) (o_running o) = slot_at (o_slots o) (o_running o)) as Hrun
      by (unfold slot_at; by rewrite list_lookup_insert_ne).
    assert (desk_of (Office (o_terms o) (o_front o) (<[i := t]> (o_slots o)) (o_running o) (o_asked o)) = desk_of o) as Hdesk
      by (unfold desk_of, running_workspace; cbn; by rewrite Hrun).
    constructor; [rewrite Hdesk | | by apply Forall_insert | done].
    + destruct Hd as [[F1 F2 F3 F4 F5] ? Hsh Hc]. constructor; try done.
      * constructor; try done. destruct F5. by constructor.
      * intros u Hu. destruct (Hsh u Hu). by constructor.
      * cbn. unfold the_table in *. cbn in *. by rewrite Hsl, Hcur, Hrun.
    + unfold tab. cbn. unfold the_table in *. by rewrite Hsl, Hcur.
Qed.

(** ** The start *)

Lemma buffer_cells : BUFFER_SIZE = CELLS.
Proof. done. Qed.

#[local] Opaque BUFFER_SIZE.

Definition fresh (t : term) : term := Term (fun _ => blank t) 0 1 (fg t) (bg t) false.

Lemma blank_console_saved t (x : screen W) : shows t x -> saved (fresh t) (blank_console x).
Proof.
  intros []. split; [|done]. intros y r. constructor; [| |reflexivity|reflexivity|exact sh_fg|exact sh_bg|reflexivity].
  - unfold sized. cbn [text_grid text_color_grid bg_color_grid restore display_buffer text_colors background_colors blank_console].
    rewrite !zlen_replicate, buffer_cells, Z2Nat.id by done. split_and!; [reflexivity..|]. by apply Forall_replicate.
  - intros i Hi. unfold cell_is. cbn -[replicate rd Z.to_nat]. unfold blank. cbn [cchar cfg cbg fg bg fresh].
    assert (0 <= i) by (unfold TERMINAL_COLS in Hi; lia). rewrite !rd_lookup by done.
    rewrite sh_fg, sh_bg. rewrite buffer_cells, !lookup_replicate_2; [done|..];
      unfold CELLS, TERMINAL_COLS, TERMINAL_ROWS in *; lia.
Qed.

Lemma init_terminals_ok t tid (s : spaces W) :
  equipped width height pitch tid (scr s) -> shows t (scr s) -> term_ok t -> zlen (workspaces s) = MAX_TERMINALS ->
  scheduler_current_workspace (world (scr s)) = 0 ->
  exists s', sys_init_terminals s = Some (Val tt, s') /\ desk_ok (Desk [t; fresh t; fresh t; fresh t] 0 0) s'.
Proof.
  intros He Hs Ht Hl Hc. destruct s as [x ws req gen ren intr]. cbn [scr workspaces] in *.
  assert (exists a b c d, ws = [a; b; c; d]) as (a & b & c & d & ->).
  { unfold zlen, MAX_TERMINALS in Hl. destruct ws as [|a [|b [|c [|d [|]]]]]; cbn in Hl; try lia. eauto. }
  eexists. split; [reflexivity|]. pose proof (blank_console_saved t x Hs) as Hb.
  assert (term_ok (fresh t)) as Hfr by (split; [done | by intros i _]).
  constructor; try done.
  - constructor; try done; cbn [terms workspaces].
    + by rewrite !Forall_cons, Forall_nil.
    + intros j u Hj Hu. pose proof (rd_Some _ _ _ Hu) as Hr. unfold zlen in Hr. cbn in Hr.
      assert (j = 1 \/ j = 2 \/ j = 3) as [->|[->| ->]] by (cbn in Hj; lia); change (Some (fresh t) = Some u) in Hu; simplify_eq;
        (exists (blank_console x); split; [done | exact Hb]).
    + destruct He. constructor; try done.
  - intros u Hu. change (Some t = Some u) in Hu. simplify_eq. destruct Hs. by constructor.
Qed.

(** C20: the workspaces are terminals of their own.  Start from consoles that hold four
    terminals in text mode ([office_ok]), with a clock for the menu bar whose texts are
    plain ([PlainClock]), and let any of these happen in any order: the
    running task prints a string, the keyboard handler asks for the next workspace, the
    timer interrupt saves the console, switches the front if that was asked for and loads
    the console of the next task, and another slot than the running one gets or loses a
    task.  The strings are those whose escape sequences have numbers that fit an [int]
    (a larger number is undefined behaviour, [escape_parameter_overflow]).  Then none of
    these steps leaves the arrays, and the consoles hold at every point what four
    independent terminals hold: a print changes the terminal of the running task's
    workspace only, everything else changes none; the interrupt flag is as before.  The
    exit of the running task, which does not load the next console, is not one of the
    steps. *)
Theorem workspaces_independent o es (s : spaces W) : office_ok o s -> events_ok o es ->
  exists s', exec_all es s = Some (Val tt, s') /\ office_ok (fold_left office_step es o) s' /\ interrupts s' = interrupts s.
Proof.
  revert o s. induction es as [|e es IH]; intros o s Ho Hes; [by exists s|]. destruct Hes as [He Hes].
  destruct (exec_ok o e s Ho He) as (s1 & E1 & Ho1 & Hi1). cbn [exec_all fold_left]. rewrite (bind_val _ _ _ _ _ E1).
  destruct (IH _ s1 Ho1 Hes) as (s2 & E2 & Ho2 & Hi2). exists s2. by rewrite Hi2.
Qed.

End Spaces.

(** ** A concrete console

    A screen of 1280 by 800 pixels with a font of blank glyphs, and what it shows;
    inputs on which the console leaves its arrays. *)

Module Desktop.

(** Three tasks run: the shell, one in workspace 2 and one in workspace 0; the clock
    stands still. *)
#[local] Instance still_clock : Clock unit := {|
  date_get w := (Some (lit "2026-01-01" ++ [0]), w);
  time_get w := (None, w);
|}.

#[local] Instance still_plain : PlainClock unit.
Proof.
  refine {| clock_ok _ := True |}; intros w _; (split; [done|]).
  - intros d [= <-]. by apply (plain_lit (lit "2026-01-01")).
  - done.
Defined.

#[local] Instance no_keys : PendingKeys unit := {| discard_keys c := c |}.
#[local] Instance no_keys_orderly : OrderlyKeys unit.
Proof. by constructor. Defined.

Definition three_slots : list task_slot :=
  [TaskSlot true 0; TaskSlot true 2; TaskSlot false 3; TaskSlot true 0; TaskSlot false 0; TaskSlot false 0;
   TaskSlot false 0; TaskSlot false 0].
Definition three_tasks : task_table unit := TaskTable three_slots 0%nat tt.

(** A PSF1 font: 128 glyphs of 16 bytes. *)
Definition font : bytes := [0x36; 0x04; 0; 16] ++ zeros 2048.

Definition grid (v : Z) : list Z := replicate (Z.to_nat CELLS) v.

Definition desktop (video : bool) : screen (task_table unit) :=
  Screen (grid 32) (grid 7) (grid 0) 0 1 true 7 0 video 0 0 (Some (Framebuffer 1280 800 5120 ∅)) true 10 font
    false false None 0 three_tasks.

Definition page : term := Term (fun _ => Cell 32 7 0) 0 1 7 0 true.

Lemma font_fits : font_ok font.
Proof.
  split; [apply is_bytes_app; split; [repeat constructor; done | apply is_bytes_zeros]|].
  intros c Hc. exists (4 + c * 16). unfold get_glyph_pointer. rewrite (proj2 (Z.leb_gt 128 c)) by lia.
  replace (ld 4 font 0) with (Some 0x10000436) by (vm_compute; reflexivity).
  replace (rd font 3) with (Some 16) by (vm_compute; reflexivity). split; [done|].
  unfold font. rewrite zlen_app. unfold zeros. rewrite zlen_replicate. unfold zlen. cbn [length]. lia.
Qed.

Lemma geometry : geometry_ok 1280 800 5120.
Proof. split_and!; vm_compute; done. Qed.

Lemma desktop_equipped : equipped 1280 800 5120 0 (desktop false).
Proof. constructor; try done; [by eexists | apply font_fits]. Qed.

Lemma zlen_grid v : zlen (grid v) = CELLS.
Proof. unfold grid. rewrite zlen_replicate. by rewrite Z2Nat.id. Qed.

Lemma rd_grid v i : TERMINAL_COLS <= i < CELLS -> rd (grid v) i = Some v.
Proof.
  intros Hi. unfold TERMINAL_COLS in Hi. rewrite rd_lookup by lia. apply lookup_replicate_2. lia.
Qed.

Lemma desktop_shows : shows page (desktop false).
Proof.
  constructor; [| |reflexivity..].
  - split_and!; [apply zlen_grid | apply zlen_grid | apply zlen_grid |]. by apply Forall_replicate.
  - intros i Hi. split_and!; by apply rd_grid.
Qed.

Lemma page_ok : term_ok page.
Proof. split; [done | by intros i _]. Qed.

(** A red line, a line in the default colour, and the cursor sent home. *)
Definition script : bytes := [27; 91; 51; 49; 109] ++ lit "hi" ++ [10; 27; 91; 48; 109] ++ lit "there" ++ [27; 91; 59; 72; 0].

Lemma dogeio_print_refines_witness :
  let ts := [Escape 109 [31]; Char 104; Char 105; Char 10; Escape 109 [0]; Char 116; Char 104; Char 101; Char 114; Char 101;
             Escape 72 [0; 0]] in
  exists s', dogeio_print script (desktop false) = Some (Val tt, s') /\ equipped 1280 800 5120 0 s' /\
    shows (display ts page) s' /\ term_ok (display ts page).
Proof.
  apply (dogeio_print_refines 1280 800 5120 0 geometry);
    [apply desktop_equipped | apply desktop_shows | apply page_ok | repeat constructor; done | reflexivity].
Defined.

Lemma dogeio_print_terminates_witness :
  exists s', dogeio_print (lit "12345" ++ script) (desktop false) = Some (Val tt, s') /\ equipped 1280 800 5120 0 s'.
Proof.
  apply (dogeio_print_terminates 1280 800 5120 0 geometry) with (t := page);
    [apply desktop_equipped | apply desktop_shows | apply page_ok | repeat constructor; done | | reflexivity].
  exists (lit "12345" ++ removelast script), []. reflexivity.
Defined.

Lemma dogeio_print_line_witness :
  exists s', dogeio_print (lit "hello" ++ [0]) (desktop false) = Some (Val tt, s') /\
    (cursor_x s', cursor_y s') = (5, 1) /\
    (forall i c, rd (lit "hello") i = Some c -> cell_is s' (160 + i) (Cell c 7 0)) /\
    (forall j, TERMINAL_COLS <= j < CELLS -> j < 160 \/ 165 <= j -> cell_is s' j (Cell 32 7 0)).
Proof.
  apply (dogeio_print_line 1280 800 5120 0 geometry) with (t := page) (p := lit "hello") (q := []);
    [apply desktop_equipped | apply desktop_shows | apply page_ok | done | reflexivity | constructor | reflexivity].
Defined.

(** ** Two workspaces *)

Definition consoles : spaces (task_table unit) :=
  Spaces (desktop false) (replicate 4 (snapshot (desktop false))) false 0 0 true.

Definition desk4 : desk := Desk [page; page; page; page] 0 0.
Definition office4 : office := Office [page; page; page; page] 0 three_slots 0 false.

Lemma consoles_ok : desk_ok 1280 800 5120 desk4 consoles.
Proof.
  assert (forall j t, rd (terms desk4) j = Some t -> t = page) as Hall.
  { intros j t Hj. pose proof (rd_Some _ _ _ Hj) as Hr. rewrite rd_lookup in Hj by lia.
    change (terms desk4) with (replicate 4 page) in Hj. by apply lookup_replicate in Hj as [-> _]. }
  constructor; try done.
  - constructor; try done.
    + apply (Forall_replicate term_ok 4 page), page_ok.
    + intros j t _ Hj. rewrite (Hall j t Hj). exists (snapshot (desktop false)).
      split; [|apply snapshot_saved; [apply desktop_shows | done]]. pose proof (rd_Some _ _ _ Hj) as Hr.
      unfold zlen in Hr. cbn in Hr. rewrite rd_lookup by lia. apply lookup_replicate_2. lia.
    + apply desktop_equipped.
  - intros t Ht. rewrite (Hall _ t Ht). apply desktop_shows.
Qed.

(** The shell prints; the task of workspace 2 prints; the next workspace is asked for; a
    task starts in workspace 3; the front changes and the shell moves to workspace 1,
    while the other task of workspace 0 prints; then the shell prints again. *)
Lemma workspaces_independent_witness :
  let es := [Print (lit "ls" ++ [0]); Timer; Print (lit "tick" ++ [0]); Ask; SetSlot 5 (TaskSlot true 3); Timer;
             Print (lit "ok" ++ [0]); Timer; Timer; Print (lit "ls" ++ [0])] in
  let o := fold_left office_step es office4 in
  exists s', exec_all es consoles = Some (Val tt, s') /\ office_ok 1280 800 5120 o s' /\ interrupts s' = true /\
    (o_running o, o_front o, running_workspace o) = (0%nat, 1, 1).
Proof.
  intros es o.
  assert (office_ok 1280 800 5120 office4 consoles) as Ho.
  { constructor; [apply consoles_ok | reflexivity | | reflexivity]. cbn [o_slots office4]. unfold three_slots. rewrite !Forall_cons, Forall_nil. by split_and!. }
  destruct (workspaces_independent 1280 800 5120 geometry office4 es consoles Ho) as (s' & E & Hs & Hi).
  { cbn -[tokens]. unfold MAX_TERMINALS. split_and!; try done; try (repeat constructor; done); by eexists. }
  exists s'. split_and!; [exact E | exact Hs | exact Hi | reflexivity].
Defined.

(** ** Beyond the arrays *)

(** In video mode the column of an escape sequence is multiplied by eight without
    a check: a large one makes [video_cursor_x + 8] wrap around, the guard of
    [dogeio_render_pixel_glyph] passes and the glyph is drawn far outside the frame
    buffer. *)
Theorem video_escape_out_of_bounds :
  dogeio_print ([27; 91; 49; 59] ++ lit "536870912HA" ++ [0]) (desktop true) = None.
Proof. vm_compute. reflexivity. Qed.

(** A parameter of ten digits overflows an [int]. *)
Theorem escape_parameter_overflow :
  dogeio_print ([27; 91] ++ lit "2147483648m" ++ [0]) (desktop false) = None.
Proof. vm_compute. reflexivity. Qed.

End Desktop.
