(* ===== verification/Keyboard.v ===== *)
(** * Keyboard and mouse (helper/dogeio/input.c, the interrupt handlers)

    The ring buffer of scancodes, the decoder of scancodes and the two mice.
    Ports are those of Ports.v; an overflow of a signed counter is undefined. *)

From S2P Require Import Prelude Ports.

Definition KEY_UP : Z := 0x101.
Definition KEY_DOWN : Z := 0x102.
Definition KEY_LEFT : Z := 0x103.
Definition KEY_RIGHT : Z := 0x104.
Definition KEY_BACKSPACE : Z := 0x008.
Definition KEY_ENTER : Z := 0x00A.
Definition KEY_TAB : Z := 0x009.
Definition KEY_UNKNOWN : Z := 0x000.
Definition KEY_CTRL_O : Z := 0x110.
Definition KEY_CTRL_N : Z := 0x111.
Definition KEY_CTRL_TAB : Z := 0x112.

Definition map_lower : list Z :=
  [0; 27] ++ lit "1234567890-=" ++ [0; 0] ++ lit "qwertyuiop[]" ++ [0; 0] ++
  lit "asdfghjkl;'`" ++ [0] ++ lit "\zxcvbnm,./" ++ [0] ++ lit "*" ++ [0] ++ lit " ".

Definition map_upper : list Z :=
  [0; 27] ++ lit "!@#$%^&*()_+" ++ [0; 0] ++ lit "QWERTYUIOP{}" ++ [0; 0] ++
  lit "ASDFGHJKL:" ++ [34] ++ lit "~" ++ [0] ++ lit "|ZXCVBNM<>?" ++ [0] ++ lit "*" ++ [0] ++ lit " ".

Definition KEYBOARD_SCANCODE_BUFFER_SIZE : Z := 256.

Record keyboard := Keyboard {
  keyboard_scancodes : list Z;
  keyboard_scancode_head : Z;
  keyboard_scancode_tail : Z;
  global_shift_pressed : bool;
  global_ctrl_pressed : bool;
  irq_ctrl_pressed : bool;
  escaped : bool;                        (* the static of [dogeio_decode_key] *)
}.

Definition with_ring (codes : list Z) (head tail : Z) (k : keyboard) : keyboard :=
  Keyboard codes head tail (global_shift_pressed k) (global_ctrl_pressed k) (irq_ctrl_pressed k) (escaped k).
Definition with_shift (b : bool) (k : keyboard) : keyboard :=
  Keyboard (keyboard_scancodes k) (keyboard_scancode_head k) (keyboard_scancode_tail k) b (global_ctrl_pressed k)
    (irq_ctrl_pressed k) (escaped k).
Definition with_ctrl (b : bool) (k : keyboard) : keyboard :=
  Keyboard (keyboard_scancodes k) (keyboard_scancode_head k) (keyboard_scancode_tail k) (global_shift_pressed k) b
    (irq_ctrl_pressed k) (escaped k).
Definition with_irq_ctrl (b : bool) (k : keyboard) : keyboard :=
  Keyboard (keyboard_scancodes k) (keyboard_scancode_head k) (keyboard_scancode_tail k) (global_shift_pressed k)
    (global_ctrl_pressed k) b (escaped k).
Definition with_escaped (b : bool) (k : keyboard) : keyboard :=
  Keyboard (keyboard_scancodes k) (keyboard_scancode_head k) (keyboard_scancode_tail k) (global_shift_pressed k)
    (global_ctrl_pressed k) (irq_ctrl_pressed k) b.

(** The scancode is put into the ring unless it is full; the first component is
    true when a switch of the workspace is requested. *)
Definition keyboard_push (scancode : Z) (k : keyboard) : option keyboard :=
  let next_head := u8 (keyboard_scancode_head k + 1) in
  if next_head =? keyboard_scancode_tail k then Some k
  else
    codes ← wr (keyboard_scancodes k) (keyboard_scancode_head k) scancode;
    Some (with_ring codes next_head (keyboard_scancode_tail k) k).

Definition keyboard_irq (scancode : Z) (k : keyboard) : option (bool * keyboard) :=
  if scancode =? 0x1D then k ← keyboard_push scancode (with_irq_ctrl true k); Some (false, k)
  else if scancode =? 0x9D then k ← keyboard_push scancode (with_irq_ctrl false k); Some (false, k)
  else if (scancode =? 0x0F) && irq_ctrl_pressed k then Some (true, k)
  else k ← keyboard_push scancode k; Some (false, k).

Definition dogeio_keyboard_irq {P} `{Ports P} (k : keyboard) (p : P) : option (bool * keyboard * P) :=
  let '(scancode, p) := ports_inb p 0x60 in
  '(switch, k) ← keyboard_irq scancode k;
  Some (switch, k, p).

Definition arrow (code : Z) : Z :=
  if code =? 0x48 then KEY_UP
  else if code =? 0x50 then KEY_DOWN
  else if code =? 0x4B then KEY_LEFT
  else if code =? 0x4D then KEY_RIGHT
  else KEY_UNKNOWN.

(** The character of a key, with Ctrl. *)
Definition control_key (ctrl : bool) (c : Z) : Z :=
  if negb ctrl then c
  else if c =? 111 then KEY_CTRL_O
  else if c =? 110 then KEY_CTRL_N
  else if (97 <=? c) && (c <=? 122) then c - 97 + 1
  else if (65 <=? c) && (c <=? 90) then c - 65 + 1
  else c.

Definition char_key (code : Z) (k : keyboard) : option Z :=
  if code <? 58 then
    c ← rd (if global_shift_pressed k then map_upper else map_lower) code;
    Some (if c =? 0 then KEY_UNKNOWN else control_key (global_ctrl_pressed k) c)
  else Some KEY_UNKNOWN.

Definition dogeio_decode_key (code : Z) (k : keyboard) : option (Z * keyboard) :=
  if code =? 0xE0 then Some (KEY_UNKNOWN, with_escaped true k)
  else if (code =? 0x2A) || (code =? 0x36) then Some (KEY_UNKNOWN, with_shift true k)
  else if (code =? 0xAA) || (code =? 0xB6) then Some (KEY_UNKNOWN, with_shift false k)
  else if code =? 0x1D then Some (KEY_UNKNOWN, with_ctrl true k)
  else if code =? 0x9D then Some (KEY_UNKNOWN, with_ctrl false k)
  else if negb (Z.land code 0x80 =? 0) then Some (KEY_UNKNOWN, with_escaped false k)
  else if escaped k then Some (arrow code, with_escaped false k)
  else if code =? 0x1C then Some (KEY_ENTER, k)
  else if code =? 0x0E then Some (KEY_BACKSPACE, k)
  else if code =? 0x0F then Some (if global_ctrl_pressed k then KEY_CTRL_TAB else KEY_TAB, k)
  else if negb (arrow code =? KEY_UNKNOWN) then Some (arrow code, k)
  else key ← char_key code k; Some (key, k).

(** [keyboard_scancodes[keyboard_scancode_tail]; keyboard_scancode_tail++] *)
Definition keyboard_take (k : keyboard) : option (Z * keyboard) :=
  scancode ← rd (keyboard_scancodes k) (keyboard_scancode_tail k);
  Some (scancode, with_ring (keyboard_scancodes k) (keyboard_scancode_head k) (u8 (keyboard_scancode_tail k + 1)) k).

Definition keyboard_empty (k : keyboard) : bool := keyboard_scancode_tail k =? keyboard_scancode_head k.

(** The loop of [dogeio_get_key_delay]; the ring holds at most 255 codes, so 256
    rounds are enough for any [loops]. *)
Fixpoint key_delay_loop (fuel : nat) (loops : Z) (k : keyboard) : option (Z * keyboard) :=
  match fuel with
  | O => None
  | S fuel' =>
      if (0 <? loops) && negb (keyboard_empty k) then
        '(scancode, k) ← keyboard_take k;
        '(key, k) ← dogeio_decode_key scancode k;
        if negb (key =? KEY_UNKNOWN) then Some (key, k) else key_delay_loop fuel' (loops - 1) k
      else Some (KEY_UNKNOWN, k)
  end.

(** [here]: the running task belongs to the workspace in front. *)
Definition dogeio_get_key_delay (here : bool) (loops : Z) (k : keyboard) : option (Z * keyboard) :=
  if here then key_delay_loop 257 loops k else Some (KEY_UNKNOWN, k).

Definition discard_pending_keys (k : keyboard) : keyboard :=
  with_ctrl false (with_shift false
    (with_ring (keyboard_scancodes k) (keyboard_scancode_head k) (keyboard_scancode_head k) k)).

(** ** The mice *)

Definition SERIAL_PORT : Z := 0x2F8.
Definition MOUSE_PACKET_SIZE : Z := 3.

Record mouse := Mouse {
  serial_mouse_packet : list Z;
  serial_mouse_index : Z;
  mouse_packet : list Z;
  mouse_packet_index : Z;
  mouse_delta_x : Z;
  mouse_delta_y : Z;
  mouse_buttons : Z;
  ps2_buttons : Z;
  serial_buttons : Z;
}.

(** [int8_t] *)
Definition s8 (x : Z) : Z := (x + 128) mod 256 - 128.

(** The counters are [int32_t]. *)
Definition int_add (a b : Z) : option Z :=
  let c := a + b in if (INT_MIN <=? c) && (c <=? INT_MAX) then Some c else None.

Definition serial_packet (m : mouse) (packet : list Z) : option mouse :=
  b1 ← rd packet 0;
  b2 ← rd packet 1;
  b3 ← rd packet 2;
  let dx := Z.lor (Z.shiftl (Z.land b1 0x03) 6) (Z.land b2 0x3F) in
  let dy := Z.lor (Z.shiftl (Z.land b1 0x0C) 4) (Z.land b3 0x3F) in
  let dx := if Z.land dx 0x80 =? 0 then dx else dx - 256 in
  let dy := if Z.land dy 0x80 =? 0 then dy else dy - 256 in
  x ← int_add (mouse_delta_x m) dx;
  y ← int_add (mouse_delta_y m) (- dy);
  let buttons := Z.lor (if Z.land b1 0x20 =? 0 then 0 else 1) (if Z.land b1 0x10 =? 0 then 0 else 2) in
  Some (Mouse packet 0 (mouse_packet m) (mouse_packet_index m) x y (Z.lor (ps2_buttons m) buttons) (ps2_buttons m) buttons).

Definition serial_mouse_parse (byte : Z) (m : mouse) : option mouse :=
  let index := if Z.land byte 0x40 =? 0 then serial_mouse_index m else 0 in
  let index := if 3 <=? index then 0 else index in
  packet ← wr (serial_mouse_packet m) index byte;
  if negb (index + 1 =? 3) then
    Some (Mouse packet (index + 1) (mouse_packet m) (mouse_packet_index m) (mouse_delta_x m) (mouse_delta_y m)
            (mouse_buttons m) (ps2_buttons m) (serial_buttons m))
  else serial_packet m packet.

(** One byte of a PS/2 mouse. *)
Definition mouse_byte (byte : Z) (m : mouse) : option mouse :=
  let index := mouse_packet_index m in
  let set packet index x y buttons :=
    Mouse (serial_mouse_packet m) (serial_mouse_index m) packet index x y buttons (ps2_buttons m) (serial_buttons m) in
  if (index =? 0) && (Z.land byte 0x08 =? 0) then Some m
  else
    packet ← wr (mouse_packet m) index byte;
    if index + 1 <? MOUSE_PACKET_SIZE
    then Some (set packet (index + 1) (mouse_delta_x m) (mouse_delta_y m) (mouse_buttons m))
    else
      flags ← rd packet 0;
      if negb (Z.land flags 0xC0 =? 0) then Some (set packet 0 (mouse_delta_x m) (mouse_delta_y m) (mouse_buttons m))
      else
        dx ← rd packet 1;
        dy ← rd packet 2;
        x ← int_add (mouse_delta_x m) (s8 dx);
        y ← int_add (mouse_delta_y m) (- s8 dy);
        Some (set packet 0 x y (Z.land flags 0x07)).

(** The counters and the buttons; the counters start again.  The pointers are not
    NULL. *)
Definition dogeio_mouse_read (m : mouse) : Z * Z * Z * mouse :=
  (mouse_delta_x m, mouse_delta_y m, mouse_buttons m,
   Mouse (serial_mouse_packet m) (serial_mouse_index m) (mouse_packet m) (mouse_packet_index m) 0 0
     (mouse_buttons m) (ps2_buttons m) (serial_buttons m)).

Section Wires.
Context {P : Type} `{Ports P}.

Definition serial_received (p : P) : bool * P :=
  let '(status, p) := ports_inb p (SERIAL_PORT + 5) in (negb (Z.land status 0x01 =? 0), p).
Definition serial_read (p : P) : Z * P := ports_inb p SERIAL_PORT.

Fixpoint dogeio_serial_mouse_irq (fuel : nat) (m : mouse) (p : P) : option (mouse * P) :=
  match fuel with
  | O => None
  | S fuel' =>
      let '(more, p) := serial_received p in
      if (more : bool) then
        let '(byte, p) := serial_read p in
        m ← serial_mouse_parse byte m;
        dogeio_serial_mouse_irq fuel' m p
      else Some (m, p)
  end.

Definition dogeio_mouse_irq (m : mouse) (p : P) : option (mouse * P) :=
  let '(byte, p) := ports_inb p 0x60 in
  m ← mouse_byte byte m; Some (m, p).

(** A bit of the status register, at most [n] polls. *)
Fixpoint ps2_wait (n : nat) (bit : Z) (set : bool) (p : P) : bool * P :=
  match n with
  | O => (false, p)
  | S n' =>
      let '(status, p) := ports_inb p 0x64 in
      if eqb (negb (Z.land status bit =? 0)) set then (true, p) else ps2_wait n' bit set p
  end.

Definition PS2_POLLS : nat := Z.to_nat 100000.
Definition ps2_wait_input_empty : P -> bool * P := ps2_wait PS2_POLLS 0x02 false.
Definition ps2_wait_output_full : P -> bool * P := ps2_wait PS2_POLLS 0x01 true.

(** [if (!wait()) return false;] *)
Definition after (wait : P -> bool * P) (k : P -> bool * P) (p : P) : bool * P :=
  let '(ok, p) := wait p in if (ok : bool) then k p else (false, p).

Definition ps2_send_mouse_command (command : Z) (p : P) : bool * P :=
  after ps2_wait_input_empty (fun p =>
  let p := ports_outb p 0x64 0xD4 in
  after ps2_wait_input_empty (fun p =>
  let p := ports_outb p 0x60 command in
  after ps2_wait_output_full (fun p =>
  let '(reply, p) := ports_inb p 0x60 in (reply =? 0xFA, p)) p) p) p.

Definition ps2_mouse_setup (p : P) : bool * P :=
  after ps2_wait_input_empty (fun p =>
  let p := ports_outb p 0x64 0xA8 in
  after ps2_wait_input_empty (fun p =>
  let p := ports_outb p 0x64 0x20 in
  after ps2_wait_output_full (fun p =>
  let '(controller_config, p) := ports_inb p 0x60 in
  after ps2_wait_input_empty (fun p =>
  let p := ports_outb p 0x64 0x60 in
  after ps2_wait_input_empty (fun p =>
  let p := ports_outb p 0x60 (Z.land (Z.lor controller_config 0x02) 0xDF) in
  after (ps2_send_mouse_command 0xF6) (ps2_send_mouse_command 0xF4) p) p) p) p) p) p.

Definition dogeio_ps2_mouse_init (m : mouse) (p : P) : bool * mouse * P :=
  let '(ok, p) := ps2_mouse_setup p in
  (ok, if (ok : bool) then Mouse (serial_mouse_packet m) 0 (mouse_packet m) 0 0 0 0 0 0 else m, p).

Definition dogeio_serial_mouse_init (m : mouse) (p : P) : mouse * P :=
  (Mouse (serial_mouse_packet m) 0 (mouse_packet m) (mouse_packet_index m) (mouse_delta_x m) (mouse_delta_y m)
     (mouse_buttons m) (ps2_buttons m) (serial_buttons m),
   ports_outb (ports_outb p (SERIAL_PORT + 4) 0x0B) (SERIAL_PORT + 1) 0x01).

End Wires.
