(* ===== verification/KeyboardProofs.v ===== *)
(** * The keyboard delivers keys in the order they were pressed

    The ring buffer is a queue of at most 255 scancodes; reading decodes them one
    after the other. *)

From S2P Require Import Prelude Ports Keyboard.

Record keyboard_ok (k : keyboard) : Prop := KeyboardOk {
  kb_len : zlen (keyboard_scancodes k) = KEYBOARD_SCANCODE_BUFFER_SIZE;
  kb_bytes : is_bytes (keyboard_scancodes k);
  kb_head : is_u8 (keyboard_scancode_head k);
  kb_tail : is_u8 (keyboard_scancode_tail k);
}.

(** The codes that wait, the oldest first. *)
Definition pending (k : keyboard) : nat := Z.to_nat (u8 (keyboard_scancode_head k - keyboard_scancode_tail k)).
Definition code_at (k : keyboard) (i : nat) : Z :=
  default 0 (rd (keyboard_scancodes k) (u8 (keyboard_scancode_tail k + Z.of_nat i))).
Definition queued (k : keyboard) : list Z := code_at k <$> seq 0 (pending k).

Lemma queued_length k : length (queued k) = pending k.
Proof. unfold queued. by rewrite length_fmap, length_seq. Qed.

Lemma pending_le k : (pending k <= 255)%nat.
Proof. unfold pending. pose proof (u8_range (keyboard_scancode_head k - keyboard_scancode_tail k)). unfold is_u8 in *. lia. Qed.

(** Arithmetic on the indices of the ring. *)
Ltac ring_lia := unfold pending, is_u8, u8 in *; Z.div_mod_to_equations; lia.

Lemma ring_full k : keyboard_ok k ->
  (u8 (keyboard_scancode_head k + 1) =? keyboard_scancode_tail k) = negb (pending k <? 255)%nat.
Proof.
  intros [_ _ Hh Ht]. destruct (Nat.ltb_spec (pending k) 255) as [Hl|Hl]; cbn [negb].
  - apply Z.eqb_neq. intros He. ring_lia.
  - apply Z.eqb_eq. ring_lia.
Qed.

Lemma ring_empty k : keyboard_ok k -> keyboard_empty k = (pending k =? 0)%nat.
Proof.
  intros [_ _ Hh Ht]. unfold keyboard_empty. destruct (Nat.eqb_spec (pending k) 0) as [He|He].
  - apply Z.eqb_eq. ring_lia.
  - apply Z.eqb_neq. intros Hx. ring_lia.
Qed.

(** The state of the decoder. *)
Definition same_decoder (k k' : keyboard) : Prop :=
  (global_shift_pressed k, global_ctrl_pressed k, escaped k) = (global_shift_pressed k', global_ctrl_pressed k', escaped k').

(** A new code goes to the end of the queue, unless the ring is full. *)
Lemma push_queued k c : keyboard_ok k -> is_u8 c ->
  exists k', keyboard_push c k = Some k' /\ keyboard_ok k' /\
    queued k' = (if (length (queued k) <? 255)%nat then queued k ++ [c] else queued k) /\
    same_decoder k' k /\ irq_ctrl_pressed k' = irq_ctrl_pressed k.
Proof.
  intros Hk Hc. unfold keyboard_push. rewrite (ring_full k Hk), queued_length.
  destruct (Nat.ltb_spec (pending k) 255) as [Hl|Hl]; cbn [negb]; [|by exists k]. pose proof Hk as [Hlen Hb Hh Ht].
  destruct (wr_is_Some (keyboard_scancodes k) (keyboard_scancode_head k) c) as [codes Hw];
    [unfold KEYBOARD_SCANCODE_BUFFER_SIZE, is_u8 in *; lia|].
  rewrite Hw, Some_bind. eexists. split; [done|]. split; [|split; [|done]].
  - constructor; cbn -[u8]; [by rewrite (wr_zlen _ _ _ _ Hw) | exact (is_bytes_wr _ _ _ _ Hb Hc Hw) | apply u8_range | done].
  - set (k' := with_ring _ _ _ _). assert (pending k' = S (pending k)) as Hp by (subst k'; unfold pending in *; cbn [keyboard_scancode_head keyboard_scancode_tail with_ring]; ring_lia).
    unfold queued. rewrite Hp, seq_S, fmap_app. cbn [fmap list_fmap]. f_equal.
    + apply list_fmap_ext. intros i j Hj. apply lookup_seq in Hj as [-> Hj]. unfold code_at. subst k'.
      cbn [keyboard_scancodes keyboard_scancode_tail with_ring]. f_equal. apply (rd_wr_ne _ _ _ _ _ Hw). ring_lia.
    + f_equal. unfold code_at. subst k'. cbn [keyboard_scancodes keyboard_scancode_tail with_ring].
      replace (u8 (keyboard_scancode_tail k + Z.of_nat (0 + pending k))) with (keyboard_scancode_head k) by ring_lia.
      by rewrite (rd_wr_eq _ _ _ _ Hw).
Qed.

Lemma take_queued k c q : keyboard_ok k -> queued k = c :: q ->
  exists k', keyboard_take k = Some (c, k') /\ keyboard_ok k' /\ queued k' = q /\ is_u8 c /\
    same_decoder k' k.
Proof.
  intros Hk Hq. pose proof Hk as [Hlen Hb Hh Ht]. pose proof (pending_le k) as Hle.
  assert (pending k = S (length q)) as Hp by (rewrite <- queued_length, Hq; done).
  destruct (rd_is_Some (keyboard_scancodes k) (keyboard_scancode_tail k)) as [x Hx];
    [unfold KEYBOARD_SCANCODE_BUFFER_SIZE, is_u8 in *; lia|].
  unfold keyboard_take. rewrite Hx, Some_bind. set (k' := with_ring _ _ _ k).
  assert (queued k = x :: queued k') as Hqk.
  { assert (pending k' = length q) as Hp' by (subst k'; unfold pending in *; cbn [keyboard_scancode_head keyboard_scancode_tail with_ring]; ring_lia). unfold queued. rewrite Hp, Hp'. cbn [seq fmap list_fmap]. f_equal.
    - unfold code_at. rewrite Z.add_0_r, u8_small by done. by rewrite Hx.
    - change (fix go (l : list nat) := match l with [] => [] | x0 :: l0 => code_at k x0 :: go l0 end) with (fmap (M:=list) (code_at k)).
      rewrite <- seq_shift. rewrite <- list_fmap_compose. apply list_fmap_ext. intros i j Hj. cbn [compose]. unfold code_at. subst k'.
      cbn [keyboard_scancodes keyboard_scancode_tail with_ring]. do 2 f_equal. ring_lia. }
  rewrite Hqk in Hq. injection Hq as <- <-. exists k'. split_and!; try done; [|by eapply is_bytes_rd].
  constructor; [done | done | done | apply u8_range].
Qed.

(** ** Decoding *)

Lemma decode_key_same code k k' : same_decoder k k' ->
  match dogeio_decode_key code k, dogeio_decode_key code k' with
  | Some (key, k1), Some (key', k1') => key = key' /\ same_decoder k1 k1'
  | None, None => True
  | _, _ => False
  end.
Proof.
  destruct k as [c1 h1 t1 sh ct i1 es], k' as [c2 h2 t2 sh' ct' i2 es']. intros [= <- <- <-].
  unfold dogeio_decode_key, char_key. cbn [escaped global_ctrl_pressed global_shift_pressed].
  repeat match goal with
  | |- match (if ?b then _ else _) with _ => _ end => destruct b
  end; try done. destruct (code <? 58); [|done]. by destruct (rd (if sh then map_upper else map_lower) code).
Qed.

Lemma decode_total code k : is_u8 code -> exists key k', dogeio_decode_key code k = Some (key, k').
Proof.
  intros Hc. unfold dogeio_decode_key, char_key.
  repeat match goal with
  | |- exists key k', (if ?b then _ else _) = _ => destruct b; [by eexists _, _|]
  end.
  destruct (Z.ltb_spec code 58); [|by eexists _, _].
  destruct (rd_is_Some (if global_shift_pressed k then map_upper else map_lower) code) as [c ->]; [|by eexists _, _].
  destruct (global_shift_pressed k); unfold zlen, is_u8 in *; cbn; lia.
Qed.

(** The keys of a sequence of codes, in order. *)
Fixpoint decode (codes : list Z) (k : keyboard) : option (list Z) :=
  match codes with
  | [] => Some []
  | code :: codes' =>
      '(key, k) ← dogeio_decode_key code k;
      keys ← decode codes' k;
      Some (if key =? KEY_UNKNOWN then keys else key :: keys)
  end.

Lemma decode_same codes k k' : same_decoder k k' -> decode codes k = decode codes k'.
Proof.
  revert k k'. induction codes as [|c codes IH]; intros k k' Hk; [done|]. cbn [decode]. pose proof (decode_key_same c k k' Hk) as Hs.
  destruct (dogeio_decode_key c k) as [[key1 k1]|], (dogeio_decode_key c k') as [[key2 k2]|]; try done.
  destruct Hs as [<- Hs]. rewrite !Some_bind. by rewrite (IH k1 k2 Hs).
Qed.

Lemma decode_keeps_ring code k key k' : dogeio_decode_key code k = Some (key, k') ->
  keyboard_scancodes k' = keyboard_scancodes k /\ keyboard_scancode_head k' = keyboard_scancode_head k /\
  keyboard_scancode_tail k' = keyboard_scancode_tail k.
Proof.
  unfold dogeio_decode_key.
  repeat match goal with |- (if ?b then _ else _) = _ -> _ => destruct b; [by intros [= <- <-]|] end.
  destruct (char_key code k); [|done]. by intros [= <- <-].
Qed.

(** A ring of the same contents. *)
Lemma same_ring k k' : keyboard_scancodes k' = keyboard_scancodes k -> keyboard_scancode_head k' = keyboard_scancode_head k ->
  keyboard_scancode_tail k' = keyboard_scancode_tail k -> keyboard_ok k -> keyboard_ok k' /\ queued k' = queued k.
Proof.
  intros E1 E2 E3 []. split; [constructor; congruence|]. unfold queued, pending, code_at. by rewrite E1, E2, E3.
Qed.

Lemma decode_bytes codes k : is_bytes codes -> exists keys, decode codes k = Some keys.
Proof.
  revert k. induction codes as [|c codes IH]; intros k Hb; [by exists []|]. apply is_bytes_cons in Hb as [Hc Hb]. cbn [decode].
  destruct (decode_total c k Hc) as (key & k' & ->). rewrite Some_bind. destruct (IH k' Hb) as [keys ->]. by eexists.
Qed.

Lemma queued_bytes k : keyboard_ok k -> is_bytes (queued k).
Proof.
  intros Hk. apply Forall_fmap, Forall_true. intros i. unfold compose, code_at.
  destruct (rd _ _) as [x|] eqn:E; [exact (is_bytes_rd _ _ _ (kb_bytes _ Hk) E) | done].
Qed.

(** Reading yields the first key of the waiting codes, and leaves what comes after
    its code. *)
Lemma key_delay_decode fuel loops q k : keyboard_ok k -> queued k = q -> (length q < fuel)%nat -> Z.of_nat (length q) <= loops ->
  exists key k' keys, key_delay_loop fuel loops k = Some (key, k') /\ keyboard_ok k' /\ decode q k = Some keys /\
    if key =? KEY_UNKNOWN then keys = []
    else exists keys', keys = key :: keys' /\ decode (queued k') k' = Some keys' /\ (length (queued k') < length q)%nat.
Proof.
  revert loops q k. induction fuel as [|fuel IH]; intros loops q k Hk Hq Hf Hl; [lia|]. cbn [key_delay_loop].
  rewrite (ring_empty k Hk), <- queued_length, Hq. destruct q as [|c q].
  { rewrite andb_false_r. by exists KEY_UNKNOWN, k, []. }
  cbn [length] in *. rewrite (proj2 (Z.ltb_lt 0 loops)) by lia. cbn [Nat.eqb negb andb].
  destruct (take_queued k c q Hk Hq) as (k1 & -> & Hk1 & Hq1 & Hc & Hflags). rewrite Some_bind.
  destruct (decode_total c k1 Hc) as (key & k2 & Hd). rewrite Hd, Some_bind.
  destruct (decode_keeps_ring _ _ _ _ Hd) as (R1 & R2 & R3). destruct (same_ring k1 k2 R1 R2 R3 Hk1) as [Hk2 Hq2]. rewrite Hq1 in Hq2.
  assert (decode (c :: q) k = (keys ← decode q k2; Some (if key =? KEY_UNKNOWN then keys else key :: keys))) as Hdec.
  { rewrite <- (decode_same _ k1 k Hflags). cbn [decode]. by rewrite Hd. }
  destruct (Z.eqb_spec key KEY_UNKNOWN) as [->|Hkey]; cbn [negb].
  - destruct (IH (loops - 1) q k2 Hk2 Hq2) as (key & k3 & keys & E & Hk3 & Hkeys & Hrest); [lia | lia |].
    exists key, k3, keys. rewrite Hdec, Hkeys. split_and!; try done. case_match; [done|].
    destruct Hrest as (keys' & ? & ? & ?). exists keys'. split_and!; [done | done | lia].
  - destruct (decode_bytes q k2) as [keys Hkeys]; [rewrite <- Hq2; by apply queued_bytes|].
    exists key, k2, (key :: keys). rewrite Hdec, Hkeys. split_and!; try done. rewrite eqb_neq by done.
    exists keys. rewrite Hq2. split_and!; [done | done | lia].
Qed.

(** All keys, until there is none. *)
Fixpoint read_keys (n : nat) (k : keyboard) : option (list Z) :=
  match n with
  | O => None
  | S n' =>
      '(key, k) ← dogeio_get_key_delay true 256 k;
      if key =? KEY_UNKNOWN then Some [] else keys ← read_keys n' k; Some (key :: keys)
  end.

Lemma read_keys_decode n k : keyboard_ok k -> (length (queued k) < n)%nat -> read_keys n k = decode (queued k) k.
Proof.
  revert k. induction n as [|n IH]; intros k Hk Hn; [lia|]. cbn [read_keys dogeio_get_key_delay].
  pose proof (pending_le k) as Hp. rewrite <- queued_length in Hp.
  destruct (key_delay_decode 257 256 (queued k) k Hk eq_refl) as (key & k' & keys & -> & Hk' & Hd & Hrest); [lia | lia |].
  rewrite Some_bind, Hd. case_match; [by subst|]. destruct Hrest as (keys' & -> & Hd' & Hlt).
  rewrite IH by (first [done | lia]). by rewrite Hd'.
Qed.

(** The codes arrive one interrupt after the other; the number of times a switch of
    the workspace was requested. *)
Fixpoint press (codes : list Z) (k : keyboard) : option (nat * keyboard) :=
  match codes with
  | [] => Some (O, k)
  | code :: codes' =>
      '(switch, k) ← keyboard_irq code k;
      '(n, k) ← press codes' k;
      Some (if (switch : bool) then S n else n, k)
  end.

(** What the interrupt lets through when Ctrl is held or not: it keeps the code of Tab
    with Ctrl for itself. *)
Fixpoint kept (ctrl : bool) (codes : list Z) : list Z :=
  match codes with
  | [] => []
  | code :: codes' =>
      if code =? 0x1D then code :: kept true codes'
      else if code =? 0x9D then code :: kept false codes'
      else if (code =? 0x0F) && ctrl then kept ctrl codes'
      else code :: kept ctrl codes'
  end.

Fixpoint requests (ctrl : bool) (codes : list Z) : nat :=
  match codes with
  | [] => O
  | code :: codes' =>
      if code =? 0x1D then requests true codes'
      else if code =? 0x9D then requests false codes'
      else if (code =? 0x0F) && ctrl then S (requests ctrl codes')
      else requests ctrl codes'
  end.

Lemma push_room k k1 code : keyboard_ok k1 -> queued k1 = queued k -> same_decoder k1 k -> is_u8 code ->
  (length (queued k) < 255)%nat ->
  exists k2, keyboard_push code k1 = Some k2 /\ keyboard_ok k2 /\ queued k2 = queued k ++ [code] /\ same_decoder k2 k /\
    irq_ctrl_pressed k2 = irq_ctrl_pressed k1.
Proof.
  intros Hk1 Hq1 Hs1 Hc Hl. destruct (push_queued k1 code Hk1 Hc) as (k2 & E & Hk2 & Hq2 & Hs2 & Hi2).
  exists k2. rewrite Hq2, Hq1. rewrite (proj2 (Nat.ltb_lt _ _)) by done. split_and!; try done. by etransitivity.
Qed.

Lemma press_queued codes k : keyboard_ok k -> is_bytes codes -> (length (queued k) + length codes <= 255)%nat ->
  exists k', press codes k = Some (requests (irq_ctrl_pressed k) codes, k') /\ keyboard_ok k' /\
    queued k' = queued k ++ kept (irq_ctrl_pressed k) codes /\ same_decoder k' k.
Proof.
  revert k. induction codes as [|c codes IH]; intros k Hk Hb Hl; [exists k; by rewrite app_nil_r|].
  apply is_bytes_cons in Hb as [Hc Hb]. cbn [press length requests kept] in *.
  assert (forall k1 b, keyboard_ok k1 -> queued k1 = queued k -> same_decoder k1 k -> irq_ctrl_pressed k1 = b ->
    exists k', (k2 ← keyboard_push c k1; '(n, k') ← press codes k2; Some (n, k')) = Some (requests b codes, k') /\
      keyboard_ok k' /\ queued k' = queued k ++ c :: kept b codes /\ same_decoder k' k) as Hpush.
  { intros k1 b Hk1 Hq1 Hs1 <-. destruct (push_room k k1 c) as (k2 & -> & Hk2 & Hq2 & Hs2 & Hi2); [done..|lia|].
    destruct (IH k2 Hk2 Hb) as (k3 & E & Hk3 & Hq3 & Hs3); [rewrite Hq2, length_app; cbn; lia|].
    rewrite !Some_bind, E, Some_bind. exists k3. rewrite <- Hi2, Hq3, Hq2, <- app_assoc. split_and!; try done. by etransitivity. }
  assert (forall b, keyboard_ok (with_irq_ctrl b k)) as Hkb by (intros b; by destruct Hk).
  unfold keyboard_irq. destruct (c =? 0x1D).
  { destruct (Hpush (with_irq_ctrl true k) true) as (k' & E & Hrest); [done..|]. exists k'. rewrite <- E. by destruct (keyboard_push _ _). }
  destruct (c =? 0x9D).
  { destruct (Hpush (with_irq_ctrl false k) false) as (k' & E & Hrest); [done..|]. exists k'. rewrite <- E. by destruct (keyboard_push _ _). }
  destruct ((c =? 0x0F) && irq_ctrl_pressed k).
  { destruct (IH k Hk Hb) as (k' & E & Hrest); [lia|]. exists k'. by rewrite Some_bind, E. }
  destruct (Hpush k (irq_ctrl_pressed k)) as (k' & E & Hrest); [done..|]. exists k'. rewrite <- E. by destruct (keyboard_push _ _).
Qed.

(** ** The keyboard of the user

    What a US keyboard sends for its keys, and what the user means by them. *)

Module UsKeyboard.

Inductive key :=
  | Glyph (code : Z)                     (* a key with a symbol, by its code *)
  | Enter | Backspace | Tab
  | Up | Down | Left | Right
  | LeftShift | RightShift | LeftCtrl.

Inductive key_event := Press (k : key) | Release (k : key).

(** A row of keys with consecutive codes: the symbols without and with Shift. *)
Definition key_row (first : Z) (plain shifted : bytes) : list (Z * (Z * Z)) :=
  zip (seqZ first (zlen plain)) (zip plain shifted).

Definition layout : list (Z * (Z * Z)) :=
  key_row 0x01 [27] [27] ++
  key_row 0x02 (lit "1234567890-=") (lit "!@#$%^&*()_+") ++
  key_row 0x10 (lit "qwertyuiop[]") (lit "QWERTYUIOP{}") ++
  key_row 0x1E (lit "asdfghjkl;'`") (lit "ASDFGHJKL:" ++ [34] ++ lit "~") ++
  key_row 0x2B (lit "\zxcvbnm,./") (lit "|ZXCVBNM<>?") ++
  key_row 0x37 (lit "*") (lit "*") ++
  key_row 0x39 (lit " ") (lit " ").

Definition symbols (code : Z) : option (Z * Z) := snd <$> find (fun p => fst p =? code) layout.

(** A letter's number in the alphabet. *)
Definition letter_number (c : Z) : option nat :=
  match list_find (fun x => x = c) (lit "abcdefghijklmnopqrstuvwxyz") with
  | Some (i, _) => Some i
  | None => fst <$> list_find (fun x => x = c) (lit "ABCDEFGHIJKLMNOPQRSTUVWXYZ")
  end.

(** A symbol typed with Ctrl: a control character for a letter, and keys of their own
    for Ctrl-o and Ctrl-n. *)
Definition with_control (c : Z) : Z :=
  if decide ([c] = lit "o") then KEY_CTRL_O
  else if decide ([c] = lit "n") then KEY_CTRL_N
  else match letter_number c with Some i => Z.of_nat i + 1 | None => c end.

(** The code of a key without its prefix; the cursor keys have the prefix 0xE0, and a
    release has bit 7 set. *)
Definition code_of (k : key) : Z :=
  match k with
  | Glyph code => code
  | Enter => 0x1C | Backspace => 0x0E | Tab => 0x0F
  | Up => 0x48 | Down => 0x50 | Left => 0x4B | Right => 0x4D
  | LeftShift => 0x2A | RightShift => 0x36 | LeftCtrl => 0x1D
  end.

Definition prefix_of (k : key) : list Z := match k with Up | Down | Left | Right => [0xE0] | _ => [] end.

Definition sent (e : key_event) : list Z :=
  match e with
  | Press k => prefix_of k ++ [code_of k]
  | Release k => prefix_of k ++ [code_of k + 0x80]
  end.

(** Shift and Ctrl count as held from a press to the next release. *)
Definition shift_after (shift : bool) (e : key_event) : bool :=
  match e with
  | Press (LeftShift | RightShift) => true
  | Release (LeftShift | RightShift) => false
  | _ => shift
  end.

Definition ctrl_after (ctrl : bool) (e : key_event) : bool :=
  match e with Press LeftCtrl => true | Release LeftCtrl => false | _ => ctrl end.

(** What a program is to read for an event; Ctrl-Tab belongs to the workspaces. *)
Definition meant (shift ctrl : bool) (e : key_event) : list Z :=
  match e with
  | Press (Glyph code) =>
      match symbols code with
      | Some (plain, shifted) => let c := if shift then shifted else plain in [if ctrl then with_control c else c]
      | None => []
      end
  | Press Enter => [KEY_ENTER]
  | Press Backspace => [KEY_BACKSPACE]
  | Press Tab => if ctrl then [] else [KEY_TAB]
  | Press Up => [KEY_UP]
  | Press Down => [KEY_DOWN]
  | Press Left => [KEY_LEFT]
  | Press Right => [KEY_RIGHT]
  | _ => []
  end.

Fixpoint meant_all (shift ctrl : bool) (es : list key_event) : list Z :=
  match es with
  | [] => []
  | e :: es' => meant shift ctrl e ++ meant_all (shift_after shift e) (ctrl_after ctrl e) es'
  end.

(** The number of times Tab is pressed while Ctrl is held. *)
Fixpoint switches (ctrl : bool) (es : list key_event) : nat :=
  match es with
  | [] => O
  | e :: es' =>
      ((match e with Press Tab => if ctrl then 1 else 0 | _ => 0 end) + switches (ctrl_after ctrl e) es')%nat
  end.

Definition event_ok (e : key_event) : Prop :=
  match e with Press (Glyph code) | Release (Glyph code) => is_Some (symbols code) | _ => True end.

End UsKeyboard.

Import UsKeyboard.

(** The keyboard when no prefix is pending and the interrupt handler agrees with the
    decoder on Ctrl. *)
Definition at_rest (k : keyboard) : Prop := escaped k = false /\ irq_ctrl_pressed k = global_ctrl_pressed k.

(** Shift and Ctrl are as given and no prefix is pending. *)
Definition flags (shift ctrl : bool) (k : keyboard) : Prop :=
  (global_shift_pressed k, global_ctrl_pressed k, escaped k) = (shift, ctrl, false).

(** A key with a symbol: its press is decoded to the symbol, its release to nothing, and
    the interrupt handler lets both through. *)
Definition glyph_ok (p : Z * (Z * Z)) : Prop :=
  let '(code, (plain, shifted)) := p in
  (forall k shift ctrl, flags shift ctrl k ->
     let c := if shift then shifted else plain in
     exists k1 k2, dogeio_decode_key code k = Some (if ctrl then with_control c else c, k1) /\ flags shift ctrl k1 /\
       dogeio_decode_key (code + 0x80) k = Some (KEY_UNKNOWN, k2) /\ flags shift ctrl k2 /\
       (if ctrl then with_control c else c) <> KEY_UNKNOWN) /\
  0 <= code < 0x80 /\ code <> 0x1D /\ code <> 0x0F.

Lemma layout_ok : Forall glyph_ok layout.
Proof.
  unfold layout. cbn. unfold decide_rel. repeat (apply Forall_cons; split); [..|apply Forall_nil; exact I];
    (split; [|done]); intros [codes h t s c i e] [] [] [= -> -> ->]; do 2 eexists; split_and!; try reflexivity; discriminate.
Qed.

Lemma symbols_ok code p : symbols code = Some p -> glyph_ok (code, p).
Proof.
  unfold symbols. destruct (find _ layout) as [[c q]|] eqn:E; [|done]. intros [= <-].
  apply find_some in E as [Hin He]. apply Z.eqb_eq in He as <-.
  exact (proj1 (List.Forall_forall _ _) layout_ok _ Hin).
Qed.

(** An event that lets [codes] follow: what it adds to the requests and to the codes that
    come through, and that these are decoded to what was meant. *)
Definition delivered (e : key_event) (shift ctrl : bool) (k : keyboard) (codes : list Z) : Prop :=
  is_bytes (sent e) /\
  requests ctrl (sent e ++ codes) =
    ((match e with Press Tab => if ctrl then 1 else 0 | _ => 0 end) + requests (ctrl_after ctrl e) codes)%nat /\
  exists cs k', kept ctrl (sent e ++ codes) = cs ++ kept (ctrl_after ctrl e) codes /\
    flags (shift_after shift e) (ctrl_after ctrl e) k' /\
    forall rest, decode (cs ++ rest) k = (keys ← decode rest k'; Some (meant shift ctrl e ++ keys)).

Lemma glyph_delivered code shift ctrl k codes : is_Some (symbols code) -> flags shift ctrl k ->
  delivered (Press (Glyph code)) shift ctrl k codes /\ delivered (Release (Glyph code)) shift ctrl k codes.
Proof.
  intros [[plain shifted] Hs] Hf. destruct (symbols_ok _ _ Hs) as [Hd (Hc & N1 & N2)].
  destruct (Hd k shift ctrl Hf) as (k1 & k2 & D1 & F1 & D2 & F2 & Hne).
  unfold delivered. cbn [sent prefix_of code_of app meant shift_after ctrl_after requests kept]. rewrite Hs.
  rewrite !(eqb_neq _ 0x1D), !(eqb_neq _ 0x9D), !(eqb_neq _ 0x0F) by lia. cbn [andb].
  split; (split; [apply Forall_singleton; unfold is_u8; lia|]); (split; [done|]).
  - exists [code], k1. split_and!; [done | done |]. intros rest. cbn [app decode].
    rewrite D1, Some_bind, (eqb_neq _ KEY_UNKNOWN) by done. by destruct (decode rest k1).
  - exists [code + 0x80], k2. split_and!; [done | done |]. intros rest. cbn [app decode].
    rewrite D2, Some_bind. by destruct (decode rest k2).
Qed.

Lemma event_delivered e shift ctrl k codes : event_ok e -> flags shift ctrl k -> delivered e shift ctrl k codes.
Proof.
  intros He Hf. destruct e as [[code| | | | | | | | | |]|[code| | | | | | | | | |]]; cbn [event_ok] in He;
    try by apply (glyph_delivered code).
  all: destruct k as [cd h t s c i e]; injection Hf as -> -> ->; (split; [by apply (bool_decide_unpack _)|]); destruct shift, ctrl;
    (split; [reflexivity|]).
  all: match goal with |- context [flags (shift_after ?s ?e) (ctrl_after ?c _) _] =>
    let sh := eval cbn in (shift_after s e) in let ct := eval cbn in (ctrl_after c e) in
    first [eexists [_; _], (Keyboard cd h t sh ct i false); split; [reflexivity|]
          | eexists [_], (Keyboard cd h t sh ct i false); split; [reflexivity|]
          | eexists [], (Keyboard cd h t sh ct i false); split; [reflexivity|]] end;
    (split; [reflexivity|]); intros rest;
    repeat (cbn [app decode]; match goal with |- context [dogeio_decode_key ?c ?k] =>
      let r := eval vm_compute in (dogeio_decode_key c k) in change (dogeio_decode_key c k) with r; rewrite Some_bind end);
    cbn [app]; destruct (decode rest _); reflexivity.
Qed.

Lemma events_delivered es shift ctrl k : Forall event_ok es -> flags shift ctrl k ->
  is_bytes (concat (sent <$> es)) /\ requests ctrl (concat (sent <$> es)) = switches ctrl es /\
  decode (kept ctrl (concat (sent <$> es))) k = Some (meant_all shift ctrl es).
Proof.
  revert shift ctrl k. induction es as [|e es IH]; intros shift ctrl k Hes Hf; [by repeat constructor|].
  apply Forall_cons in Hes as [He Hes]. rewrite fmap_cons. cbn [concat switches meant_all].
  destruct (event_delivered e shift ctrl k (concat (sent <$> es)) He Hf) as (Hb & -> & cs & k' & -> & Hf' & Hd).
  destruct (IH _ _ k' Hes Hf') as (Hbs & -> & Hk). rewrite Hd, Hk. split_and!; [by apply is_bytes_app | done | done].
Qed.

(** C25: what is typed is what is read.  The user presses and releases keys of a US
    keyboard (symbols, Enter, Backspace, Tab, cursor keys, both Shifts and the left Ctrl),
    which sends at most 255 bytes for them, each through the keyboard interrupt, before
    anything is read.  Nothing was waiting before, no prefix was pending, and the handler
    and the decoder agreed on whether Ctrl is held.  Then the following calls of
    [dogeio_get_key_delay] in the workspace in front read exactly the keys that were meant
    ([meant_all], which is defined from the layout of the keyboard and not from the
    decoder), in order and none missing, and the handler has requested a switch of the
    workspace once for each Tab pressed with Ctrl held, which is not read as a key.  Shift
    and Ctrl count as held from a press to the next release; the right Ctrl key and other
    extended keys than the cursor keys are not covered. *)
Theorem keys_in_order es k : keyboard_ok k -> queued k = [] -> at_rest k -> Forall event_ok es ->
  (length (concat (sent <$> es)) <= 255)%nat ->
  exists k', press (concat (sent <$> es)) k = Some (switches (global_ctrl_pressed k) es, k') /\
    read_keys 256 k' = Some (meant_all (global_shift_pressed k) (global_ctrl_pressed k) es).
Proof.
  intros Hk Hq [He Hi] Hes Hl.
  destruct (events_delivered es (global_shift_pressed k) (global_ctrl_pressed k) k) as (Hb & Hr & Hd); [done | by unfold flags; rewrite He |].
  destruct (press_queued (concat (sent <$> es)) k Hk Hb) as (k' & E & Hk' & Hq' & Hs'); [by rewrite Hq|].
  rewrite Hi in E, Hq'. rewrite Hq in Hq'. cbn [app] in Hq'. exists k'. rewrite <- Hr, E. split; [done|].
  rewrite read_keys_decode by (first [done | rewrite queued_length; pose proof (pending_le k'); lia]).
  rewrite Hq'. by rewrite (decode_same _ _ _ Hs').
Qed.

(** A new keyboard, with nothing pressed. *)
Definition idle_keyboard : keyboard := Keyboard (zeros 256) 0 0 false false false false.

Lemma idle_ok : keyboard_ok idle_keyboard.
Proof. constructor; [done | apply is_bytes_zeros | done | done]. Qed.

(** Shift-h, i, cursor left, Ctrl-Tab, Ctrl-o, Enter. *)
Definition typed : list key_event :=
  [Press LeftShift; Press (Glyph 0x23); Release (Glyph 0x23); Release LeftShift; Press (Glyph 0x17); Release (Glyph 0x17);
   Press Left; Release Left; Press LeftCtrl; Press Tab; Release Tab; Press (Glyph 0x18); Release (Glyph 0x18);
   Release LeftCtrl; Press Enter; Release Enter].

Lemma keys_in_order_witness :
  meant_all false false typed = [72; 105; KEY_LEFT; KEY_CTRL_O; KEY_ENTER] /\
  exists k', press (concat (sent <$> typed)) idle_keyboard = Some (1%nat, k') /\
    read_keys 256 k' = Some [72; 105; KEY_LEFT; KEY_CTRL_O; KEY_ENTER].
Proof.
  split; [reflexivity|]. apply (keys_in_order typed idle_keyboard).
  - apply idle_ok.
  - reflexivity.
  - split; reflexivity.
  - unfold typed. repeat (apply Forall_cons; split; [first [exact I | eexists; reflexivity]|]). apply Forall_nil. exact I.
  - cbn. lia.
Defined.

(** The right Ctrl key sends 0xE0 0x1D.  The prefix is still pending when the next
    key comes, so Ctrl-O with the right Ctrl key is lost; with the left one it
    arrives. *)
Theorem right_ctrl_swallows_key :
  decode [0x1D; 0x18] idle_keyboard = Some [KEY_CTRL_O] /\ decode [0xE0; 0x1D; 0x18] idle_keyboard = Some [].
Proof. split; reflexivity. Qed.

(** The buttons of a PS/2 mouse are not kept in [ps2_buttons]: a packet of the serial
    mouse releases them. *)
Theorem serial_packet_releases_buttons :
  let m := Mouse [0; 0; 0] 0 [0; 0; 0] 0 0 0 0 0 0 in
  let run := foldl (fun m f => m ≫= f) (Some m) in
  (mouse_buttons <$> run [mouse_byte 0x09; mouse_byte 0; mouse_byte 0]) = Some 1 /\
  (mouse_buttons <$> run [mouse_byte 0x09; mouse_byte 0; mouse_byte 0;
                          serial_mouse_parse 0x40; serial_mouse_parse 0; serial_mouse_parse 0]) = Some 0.
Proof. split; vm_compute; reflexivity. Qed.
