(* ===== verification/LineInput.v ===== *)
(** * Reading a key and a line (helper/dogeio/input.c, [dogeio_get_key], [dogeio_input])

    The keyboard lies in the world of the console ([HasKeyboard]).  [hlt] is what
    happens while the processor waits with interrupts enabled; [None] when it waits
    for ever.  The rounds of the loops are bounded by a number the caller gives. *)

From S2P Require Import Prelude CMonad CString Console Keyboard Workspaces.

Class HasKeyboard (W : Type) := {
  kb : W -> keyboard;
  with_kb : keyboard -> W -> W;
  pit_take_status_bar_refresh : W -> bool * W;
}.

Record tty (W : Type) := Tty { sp : spaces W; status_bar_enabled : bool }.
Arguments Tty {W}.
Arguments sp {W}.
Arguments status_bar_enabled {W}.

Section Input.
Context {W : Type} `{Clock W} `{Tasks W} `{HasKeyboard W}.
Context (hlt : tty W -> option (tty W)).

Abbreviation T := (M (tty W)).

Definition with_sp (s : spaces W) (t : tty W) : tty W := Tty s (status_bar_enabled t).
Definition on_spaces {A} (m : M (spaces W) A) : T A := zoom sp with_sp m.
Definition on_console {A} (m : M (screen W) A) : T A := on_spaces (on_screen m).
Definition the_world (t : tty W) : W := world (scr (sp t)).
Definition set_world (w : W) : T unit := on_console (modify (with_world w)).

Definition dogeio_enable_status_bar : T unit := modify (fun t => Tty (sp t) true).
Definition dogeio_disable_status_bar : T unit := modify (fun t => Tty (sp t) false).
Definition dogeio_status_bar_enabled : T bool := gets status_bar_enabled.

(** [sti; hlt] *)
Definition halt : T unit := fun t => t' ← hlt t; Some (Val tt, t').
Definition wait_interrupt : T unit := on_spaces (modify (with_interrupts true));; halt.

(** The running task belongs to a workspace that is not in front. *)
Definition in_background (t : tty W) : bool :=
  negb (scheduler_current_workspace (the_world t) =? u32 (current_terminal_id (scr (sp t)))).

(** [if (status_bar_enabled && !is_kernel_dead && pit_take_status_bar_refresh()) menubar_draw();] *)
Definition refresh_bar : T unit :=
  t ← gets id;
  if status_bar_enabled t && negb (is_kernel_dead (scr (sp t))) then
    let '(due, w) := pit_take_status_bar_refresh (the_world t) in
    set_world w;;
    if (due : bool) then on_console menubar_draw else mret tt
  else mret tt.

(** The oldest scancode, decoded. *)
Definition take_scancode : T Z :=
  w ← gets the_world;
  '(scancode, k) ← lift (keyboard_take (kb w));
  set_world (with_kb k w);;
  mret scancode.

Definition decode_scancode (scancode : Z) : T Z :=
  w ← gets the_world;
  '(key, k) ← lift (dogeio_decode_key scancode (kb w));
  set_world (with_kb k w);;
  mret key.

(** One round of [dogeio_get_key]. *)
Definition get_key_round (generation : Z) : T (unit + Z) :=
  t ← gets id;
  if negb (generation =? workspace_generation (sp t)) then mret (inr KEY_CTRL_TAB)
  else if in_background t then wait_interrupt;; mret (inl tt)
  else
    refresh_bar;;
    flags ← on_spaces workspace_disable_interrupts;
    t ← gets id;
    if in_background t then on_spaces (workspace_restore_interrupts flags);; mret (inl tt)
    else if negb (keyboard_empty (kb (the_world t))) then
      scancode ← take_scancode;
      on_spaces (workspace_restore_interrupts flags);;
      key ← decode_scancode scancode;
      if negb (key =? KEY_UNKNOWN) then refresh_bar;; mret (inr key) else mret (inl tt)
    else wait_interrupt;; mret (inl tt).

Definition dogeio_get_key (rounds : positive) : T Z :=
  generation ← gets (fun t => workspace_generation (sp t));
  while_true rounds (fun _ => get_key_round generation) tt.

(** ** The line *)

(** [for (i = len + n; i > pos + n - 1; i--) buffer[i] = buffer[i - n];]: [k] rounds. *)
Fixpoint shift_up (k : nat) (i n : Z) (buffer : bytes) : option bytes :=
  match k with
  | O => Some buffer
  | S k' => c ← rd buffer (i - n); buffer ← wr buffer i c; shift_up k' (i - 1) n buffer
  end.

(** [for (i = pos - 1; i < len; i++) buffer[i] = buffer[i + 1];] *)
Fixpoint shift_down (k : nat) (i : Z) (buffer : bytes) : option bytes :=
  match k with
  | O => Some buffer
  | S k' => c ← rd buffer (i + 1); buffer ← wr buffer i c; shift_down k' (i + 1) buffer
  end.

(** [for (i = 0; i < n; i++) buffer[pos + i] = c;] *)
Fixpoint fill (k : nat) (i c : Z) (buffer : bytes) : option bytes :=
  match k with
  | O => Some buffer
  | S k' => buffer ← wr buffer i c; fill k' (i + 1) c buffer
  end.

(** [n] copies of [c] at [pos], and the end of the line after them. *)
Definition insert_copies (buffer : bytes) (len pos n c : Z) : option bytes :=
  buffer ← shift_up (Z.to_nat (len + 1 - pos)) (len + n) n buffer;
  buffer ← fill (Z.to_nat n) pos c buffer;
  wr buffer (len + n) 0.

Definition remove_before (buffer : bytes) (len pos : Z) : option bytes :=
  buffer ← shift_down (Z.to_nat (len - (pos - 1))) (pos - 1) buffer;
  wr buffer (len - 1) 0.

(** One cell to the right or to the left; the screen does not scroll. *)
Definition step_right : M (screen W) unit :=
  s ← gets id;
  let x := u32 (cursor_x s + 1) in
  if TERMINAL_COLS <=? x then set_cursor 0 (u32 (cursor_y s + 1)) else set_cursor x (cursor_y s).

Definition step_left : M (screen W) unit :=
  s ← gets id;
  if 0 <? cursor_x s then set_cursor (cursor_x s - 1) (cursor_y s)
  else if 1 <? cursor_y s then set_cursor (TERMINAL_COLS - 1) (cursor_y s - 1)
  else mret tt.

(** Draw [buffer[from .. to)] from the cursor on; the cursor stays. *)
Definition draw_tail (buffer : bytes) (from to : Z) : M (screen W) unit :=
  s ← gets id;
  for_loop (Z.to_nat (to - from)) from 1 (fun i => c ← lift (rd buffer i); put_here c;; step_right);;
  set_cursor (cursor_x s) (cursor_y s).

(** The same with a blank after the end. *)
Definition draw_tail_blank (buffer : bytes) (pos len : Z) : M (screen W) unit :=
  s ← gets id;
  for_loop (Z.to_nat (len + 1 - pos)) pos 1 (fun i =>
    c ← lift (if i <? len then rd buffer i else Some c_space); put_here c;; step_right);;
  set_cursor (cursor_x s) (cursor_y s).

Definition input_left (pos : Z) : T Z :=
  if 0 <? pos then
    on_console (dogeio_cursor_hide;; step_left;; dogeio_cursor_show);;
    mret (pos - 1)
  else mret pos.

Definition input_right (len pos : Z) : T Z :=
  if pos <? len then
    on_console (dogeio_cursor_hide;; step_right;; dogeio_cursor_show);;
    mret (pos + 1)
  else mret pos.

(** [n] copies of [c]: eight blanks for a tab, or one character. *)
Definition input_insert (n c : Z) (buffer : bytes) (len pos max_size : Z) : T (bytes * Z * Z) :=
  if u64 (len + n) <? max_size then
    on_console dogeio_cursor_hide;;
    buffer ← lift (insert_copies buffer len pos n c);
    on_console (draw_tail buffer pos (len + n);;
                for_loop (Z.to_nat n) 0 1 (fun _ => step_right);;
                dogeio_cursor_show);;
    mret (buffer, len + n, pos + n)
  else mret (buffer, len, pos).

Definition input_backspace (buffer : bytes) (len pos : Z) : T (bytes * Z * Z) :=
  if 0 <? pos then
    on_console dogeio_cursor_hide;;
    buffer ← lift (remove_before buffer len pos);
    on_console (step_left;; draw_tail_blank buffer (pos - 1) (len - 1);; dogeio_cursor_show);;
    mret (buffer, len - 1, pos - 1)
  else mret (buffer, len, pos).

Definition print_prompt (prompt : option bytes) : T unit :=
  match prompt with Some p => on_console (dogeio_print p) | None => mret tt end.

(** The buffer, [len], [pos] and the generation of the workspaces. *)
Record line := Line { l_buffer : bytes; l_len : Z; l_pos : Z; l_generation : Z }.

Definition input_cancelled : T unit :=
  on_console (dogeio_println [0]);; on_console (dogeio_println (lit "[Input cancelled]" ++ [0])).

(** The line starts again. *)
Definition input_restart (prompt : option bytes) (l : line) : T line :=
  buffer ← lift (wr (l_buffer l) 0 0);
  generation ← gets (fun t => workspace_generation (sp t));
  print_prompt prompt;;
  on_console dogeio_cursor_show;;
  mret (Line buffer 0 0 generation).

Definition edited (l : line) (r : bytes * Z * Z) : line := let '(b, len, pos) := r in Line b len pos (l_generation l).

(** What a key does to the line, in the order of the conditions of the loop. *)
Definition edit_key (key max_size : Z) (l : line) : T line :=
  let '(Line buffer len pos generation) := l in
  if key =? KEY_LEFT then pos ← input_left pos; mret (Line buffer len pos generation)
  else if (key =? KEY_TAB) || (key =? 9) || (key =? 0x000F) || (key =? 0x000D) then
    r ← input_insert 8 c_space buffer len pos max_size; mret (edited l r)
  else if key =? KEY_RIGHT then pos ← input_right len pos; mret (Line buffer len pos generation)
  else if key =? KEY_BACKSPACE then r ← input_backspace buffer len pos; mret (edited l r)
  else if (32 <=? key) && (key <? 127) then
    r ← input_insert 1 key buffer len pos max_size; mret (edited l r)
  else mret l.

Definition input_round (rounds : positive) (prompt : option bytes) (max_size : Z) (l : line) : T (line + line) :=
  key ← dogeio_get_key rounds;
  generation ← gets (fun t => workspace_generation (sp t));
  if negb (l_generation l =? generation) then
    input_cancelled;; l ← input_restart prompt l; mret (inl l)
  else if key =? KEY_CTRL_TAB then
    input_cancelled;; on_spaces sys_switch_terminal;; l ← input_restart prompt l; mret (inl l)
  else if key =? KEY_ENTER then on_console (dogeio_print [c_nl; 0]);; mret (inr l)
  else l ← edit_key key max_size l; mret (inl l).

(** The buffer after the call. *)
Definition dogeio_input (rounds : positive) (prompt : option bytes) (buffer : bytes) (max_size : Z) : T bytes :=
  print_prompt prompt;;
  generation ← gets (fun t => workspace_generation (sp t));
  buffer ← lift (wr buffer 0 0);
  on_console dogeio_cursor_show;;
  l ← while_true rounds (input_round rounds prompt max_size) (Line buffer 0 0 generation);
  on_console dogeio_cursor_hide;;
  lift (wr (l_buffer l) (l_len l) 0).

End Input.
