(* ===== verification/LineEdit.v ===== *)
(** * The line editor's buffer (helper/dogeio/input.c)

    A line is a text and a position in it.  The loops of [dogeio_input] that move
    characters about in the buffer insert and remove as the text says. *)

From S2P Require Import Prelude CString CMonad Console ConsoleSpec ConsoleProofs Workspaces Keyboard LineInput.

(** ** The abstract line *)

Record text := Txt { chars : list Z; pos : nat }.

Definition insert_text (n : nat) (c : Z) (t : text) : text :=
  Txt (take (pos t) (chars t) ++ replicate n c ++ drop (pos t) (chars t)) (pos t + n).

(** At most [cap - 1] characters. *)
Definition type_text (cap : Z) (n : nat) (c : Z) (t : text) : text :=
  if zlen (chars t) + Z.of_nat n <? cap then insert_text n c t else t.

Definition rub_out (t : text) : text :=
  match pos t with
  | O => t
  | S p => Txt (take p (chars t) ++ drop (S p) (chars t)) p
  end.

Definition is_tab (key : Z) : bool := (key =? KEY_TAB) || (key =? 9) || (key =? 0x000F) || (key =? 0x000D).

Definition text_key (cap key : Z) (t : text) : text :=
  if key =? KEY_LEFT then Txt (chars t) (pos t - 1)
  else if is_tab key then type_text cap 8 c_space t
  else if key =? KEY_RIGHT then Txt (chars t) (Nat.min (pos t + 1) (length (chars t)))
  else if key =? KEY_BACKSPACE then rub_out t
  else if (32 <=? key) && (key <? 127) then type_text cap 1 key t
  else t.

Definition text_ok (cap : Z) (t : text) : Prop :=
  (pos t <= length (chars t))%nat /\ zlen (chars t) < cap /\ Forall (fun c => 32 <= c < 127) (chars t).

Lemma text_key_ok cap key t : text_ok cap t -> text_ok cap (text_key cap key t).
Proof.
  intros (Hp & Hl & Hc). assert (forall n c, 32 <= c < 127 -> text_ok cap (type_text cap n c t)) as Hins.
  { intros n c Hr. unfold type_text. destruct (Z.ltb_spec (zlen (chars t) + Z.of_nat n) cap); [|done].
    split_and!; cbn.
    - rewrite !length_app, length_replicate, length_take, length_drop. lia.
    - unfold zlen in *. rewrite !length_app, length_replicate, length_take, length_drop. lia.
    - rewrite !Forall_app. split_and!; [by apply Forall_take | by apply Forall_replicate | by apply Forall_drop]. }
  unfold text_key. destruct (key =? KEY_LEFT); [split_and!; cbn; [lia | done | done]|].
  destruct (is_tab key); [by apply Hins|]. destruct (key =? KEY_RIGHT); [split_and!; cbn; [lia | done | done]|].
  destruct (key =? KEY_BACKSPACE).
  - unfold rub_out. destruct (pos t) as [|p] eqn:E; [split_and!; [lia | done | done]|]. split_and!; cbn.
    + rewrite length_app, length_take, length_drop. lia.
    + unfold zlen in *. rewrite length_app, length_take, length_drop. lia.
    + rewrite Forall_app. split; [by apply Forall_take | by apply Forall_drop].
  - destruct ((32 <=? key) && (key <? 127)) eqn:E; [|done]. apply Hins. bool_true; lia.
Qed.

(** ** The loops *)

Lemma shift_up_spec n m p r : (0 < n)%nat -> (n <= length r)%nat ->
  shift_up (length m) (zlen p + zlen m - 1 + Z.of_nat n) (Z.of_nat n) (p ++ m ++ r) =
  Some (p ++ take n (m ++ r) ++ m ++ drop n r).
Proof.
  intros Hn. revert r. induction m as [|x m IH] using rev_ind; intros r Hr.
  { cbn. by rewrite take_drop. }
  rewrite length_app. replace (length m + length [x])%nat with (S (length m)) by (cbn; lia). cbn [shift_up].
  rewrite zlen_app. change (zlen [x]) with 1.
  destruct r as [|r0 r'] eqn:Er; [cbn in Hr; lia|]. rewrite <- Er in *.
  destruct (lookup_lt_is_Some_2 r (n - 1)) as [y Hy]; [lia|].
  pose proof (take_drop_middle r (n - 1) y Hy) as Hmid. set (r1 := take (n - 1) r) in *. replace (S (n - 1)) with n in Hmid by lia.
  set (r2 := drop n r) in *. assert (length r1 = n - 1)%nat as L1 by (subst r1; rewrite length_take; lia).
  replace (rd _ _) with (Some x); [rewrite Some_bind|].
  2: { replace (p ++ (m ++ [x]) ++ r) with ((p ++ m) ++ x :: r) by (by rewrite <- !app_assoc).
       replace (zlen p + (zlen m + 1) - 1 + Z.of_nat n - Z.of_nat n) with (zlen (p ++ m)) by (rewrite zlen_app; lia).
       by rewrite rd_mid. }
  replace (wr _ _ x) with (Some (p ++ m ++ x :: r1 ++ x :: r2)); [rewrite Some_bind|].
  2: { rewrite <- Hmid. replace (p ++ (m ++ [x]) ++ r1 ++ y :: r2) with ((p ++ m ++ x :: r1) ++ y :: r2) by (by rewrite <- !app_assoc).
       replace (zlen p + (zlen m + 1) - 1 + Z.of_nat n) with (zlen (p ++ m ++ x :: r1))
         by (rewrite !zlen_app, zlen_cons; unfold zlen; lia).
       rewrite wr_mid. by rewrite <- !app_assoc. }
  replace (zlen p + (zlen m + 1) - 1 + Z.of_nat n - 1) with (zlen p + zlen m - 1 + Z.of_nat n) by lia.
  rewrite (IH (x :: r1 ++ x :: r2)) by (cbn; rewrite length_app; cbn; lia). do 2 f_equal.
  assert (drop n (x :: r1 ++ x :: r2) = x :: r2) as ->.
  { change (x :: r1 ++ x :: r2) with ((x :: r1) ++ x :: r2). rewrite drop_app_length'; [done | cbn; lia]. }
  rewrite <- !app_assoc. cbn [app]. f_equal. rewrite <- Hmid at 1.
  replace (m ++ x :: r1 ++ x :: r2) with ((m ++ x :: r1) ++ x :: r2) by (by rewrite <- app_assoc).
  replace (m ++ x :: r1 ++ y :: r2) with ((m ++ x :: r1) ++ y :: r2) by (by rewrite <- app_assoc).
  rewrite (take_app_le (m ++ x :: r1) (x :: r2)), (take_app_le (m ++ x :: r1) (y :: r2)); [done|..]; rewrite length_app; cbn; lia.
Qed.

Lemma fill_pad k i c b : fill k i c b = (snd <$> pad_fill b i c k).
Proof.
  revert i b. induction k as [|k IH]; intros i b; cbn [fill pad_fill]; [done|].
  destruct (wr b i c); [|done]. rewrite !Some_bind. apply IH.
Qed.

Lemma shift_down_spec m x p r :
  shift_down (length m) (zlen p) (p ++ x :: m ++ r) = Some (p ++ m ++ default x (last m) :: r).
Proof.
  revert p x. induction m as [|y m IH]; intros p x; [done|]. cbn [length shift_down].
  replace (rd _ _) with (Some y); [rewrite Some_bind|].
  2: { replace (p ++ x :: (y :: m) ++ r) with ((p ++ [x]) ++ y :: m ++ r) by (by rewrite <- app_assoc).
       replace (zlen p + 1) with (zlen (p ++ [x])) by (by rewrite zlen_app). by rewrite rd_mid. }
  rewrite wr_mid, Some_bind. replace (p ++ y :: (y :: m) ++ r) with ((p ++ [y]) ++ y :: m ++ r) by (by rewrite <- app_assoc).
  replace (zlen p + 1) with (zlen (p ++ [y])) by (by rewrite zlen_app). rewrite IH, <- app_assoc, last_cons.
  by destruct (last m).
Qed.

(** The buffer holds the line, with its end. *)
Definition holds (buffer : bytes) (t : text) : Prop := exists r, buffer = chars t ++ 0 :: r.

Lemma insert_copies_spec buffer t n c : holds buffer t -> (pos t <= length (chars t))%nat -> (0 < n)%nat ->
  zlen (chars t) + Z.of_nat n < zlen buffer ->
  exists buffer', insert_copies buffer (zlen (chars t)) (Z.of_nat (pos t)) (Z.of_nat n) c = Some buffer' /\
    holds buffer' (insert_text n c t) /\ zlen buffer' = zlen buffer.
Proof.
  intros [r ->] Hp Hn Hl. unfold insert_copies, insert_text. cbn [chars pos].
  set (p := take (pos t) (chars t)). set (q := drop (pos t) (chars t)).
  assert (chars t = p ++ q) as Et by (subst p q; by rewrite take_drop).
  assert (zlen p = Z.of_nat (pos t)) as Lp by (unfold zlen; subst p; rewrite length_take; lia).
  assert (zlen (chars t) = zlen p + zlen q) as Lt by (by rewrite Et, zlen_app).
  rewrite zlen_app, zlen_cons in *. assert (n <= length r)%nat as Hr by (unfold zlen in *; lia).
  replace (Z.to_nat (zlen (chars t) + 1 - Z.of_nat (pos t))) with (length (q ++ [0]))
    by (rewrite length_app, <- Lp, Lt; unfold zlen; cbn; lia).
  replace (zlen (chars t) + Z.of_nat n) with (zlen p + zlen (q ++ [0]) - 1 + Z.of_nat n) by (rewrite zlen_app, Lt; change (zlen [0]) with 1; lia).
  replace (chars t ++ 0 :: r) with (p ++ (q ++ [0]) ++ r) by (rewrite Et, <- !app_assoc; done).
  rewrite shift_up_spec by done. rewrite Some_bind, fill_pad, <- Lp, Nat2Z.id.
  set (u := take n ((q ++ [0]) ++ r)). assert (length u = n) as Lu by (subst u; rewrite length_take, !length_app; cbn; lia).
  rewrite pad_fill_spec by (rewrite length_app, Lu; lia). cbn [fmap option_fmap option_map snd]. rewrite Some_bind.
  rewrite drop_app_length' by done.
  replace (p ++ replicate n c ++ (q ++ [0]) ++ drop n r) with ((p ++ replicate n c ++ q) ++ 0 :: drop n r) by (by rewrite <- !app_assoc).
  replace (zlen p + zlen (q ++ [0]) - 1 + Z.of_nat n) with (zlen (p ++ replicate n c ++ q))
    by (rewrite !zlen_app, zlen_replicate; change (zlen [0]) with 1; lia).
  rewrite wr_mid. eexists. split; [done|]. split; [by exists (drop n r)|].
  rewrite !zlen_app, !zlen_cons, zlen_replicate. unfold zlen in *. rewrite length_drop. lia.
Qed.

Lemma remove_before_spec buffer t p : holds buffer t -> pos t = S p -> (pos t <= length (chars t))%nat ->
  exists buffer', remove_before buffer (zlen (chars t)) (Z.of_nat (pos t)) = Some buffer' /\
    holds buffer' (rub_out t) /\ zlen buffer' = zlen buffer.
Proof.
  intros [r ->] Hp Hl. unfold remove_before, rub_out. rewrite Hp. cbn [chars].
  destruct (lookup_lt_is_Some_2 (chars t) p) as [x Hx]; [lia|]. pose proof (take_drop_middle _ _ _ Hx) as Hmid.
  set (a := take p (chars t)) in *. set (b := drop (S p) (chars t)) in *.
  assert (zlen a = Z.of_nat p) as La by (unfold zlen; subst a; rewrite length_take; lia).
  assert (zlen (chars t) = zlen a + 1 + zlen b) as Lt by (rewrite <- Hmid, zlen_app, zlen_cons; lia).
  replace (Z.to_nat (zlen (chars t) - (Z.of_nat (S p) - 1))) with (length (b ++ [0]))
    by (rewrite length_app, Lt, La; unfold zlen; cbn; lia).
  replace (Z.of_nat (S p) - 1) with (zlen a) by lia.
  replace (chars t ++ 0 :: r) with (a ++ x :: (b ++ [0]) ++ r) by (rewrite <- Hmid, <- !app_assoc; done).
  rewrite shift_down_spec, Some_bind, last_snoc. change (default x (Some 0)) with 0.
  replace (a ++ (b ++ [0]) ++ 0 :: r) with ((a ++ b) ++ 0 :: 0 :: r) by (by rewrite <- !app_assoc).
  replace (zlen (chars t) - 1) with (zlen (a ++ b)) by (rewrite zlen_app; lia). rewrite wr_mid.
  eexists. split; [done|]. split; [by exists (0 :: r)|]. repeat rewrite ?zlen_app, ?zlen_cons. change (zlen (@nil Z)) with 0. lia.
Qed.

(** ** What the line editor shows (helper/dogeio/input.c)

    The cells of the line hold its characters, the cursor stands at the position
    and nothing else on the screen changes, as long as the line does not reach the
    end of the screen. *)

(** The cursor on cell [n]. *)
Definition seek (n : Z) (t : term) : term := move (n mod TERMINAL_COLS) (n / TERMINAL_COLS) t.

(** The cells from [n] on hold the characters [w]. *)
Definition stamp (n : Z) (w : list Z) (t : term) : term :=
  Term (fun j => match rd w (j - n) with Some c => Cell (shown c) (fg t) (bg t) | None => cells t j end)
    (tx t) (ty t) (fg t) (bg t) (vis t).

Definition right_of (t : term) : term :=
  if TERMINAL_COLS <=? tx t + 1 then move 0 (ty t + 1) t else move (tx t + 1) (ty t) t.

Lemma here_seek n t : here (seek n t) = n.
Proof. unfold here, seek. cbn [tx ty move]. pose proof (Z.div_mod n TERMINAL_COLS). unfold TERMINAL_COLS in *. lia. Qed.

Lemma seek_bounds n t : 0 <= n <= CELLS -> 0 <= tx (seek n t) < TERMINAL_COLS /\ 0 <= ty (seek n t) <= TERMINAL_ROWS.
Proof.
  unfold seek, CELLS, TERMINAL_COLS, TERMINAL_ROWS. cbn [tx ty move]. intros Hn. Z.div_mod_to_equations. lia.
Qed.

Lemma seek_grid n t : 0 <= n < CELLS -> in_grid (tx (seek n t)) (ty (seek n t)).
Proof.
  unfold seek, in_grid, CELLS, TERMINAL_COLS, TERMINAL_ROWS. cbn [tx ty move]. intros Hn. Z.div_mod_to_equations. lia.
Qed.

Lemma right_seek n t : 0 <= n -> right_of (seek n t) = seek (n + 1) t.
Proof.
  intros Hn. unfold right_of, seek. cbn [tx ty move]. destruct (Z.leb_spec TERMINAL_COLS (n mod TERMINAL_COLS + 1));
    unfold move, TERMINAL_COLS in *; cbn; f_equal; Z.div_mod_to_equations; lia.
Qed.

Lemma back_seek n t : TERMINAL_COLS < n -> step_back (seek n t) = seek (n - 1) t.
Proof.
  intros Hn. unfold step_back, seek. cbn [tx ty move].
  destruct (Z.ltb_spec 0 (n mod TERMINAL_COLS)), (Z.ltb_spec 1 (n / TERMINAL_COLS));
    unfold move, TERMINAL_COLS in *; cbn; f_equal; Z.div_mod_to_equations; lia.
Qed.

Section Screen.
Context {W : Type} `{PlainClock W}.
Context (width height pitch tid : Z) (Hgeom : geometry_ok width height pitch).

#[local] Abbreviation runs := (runs width height pitch tid).

Lemma step_right_runs t : 0 <= tx t < TERMINAL_COLS -> 0 <= ty t <= TERMINAL_ROWS -> runs t step_right (right_of t).
Proof.
  intros Hx Hy. apply runs_gets. intros s [_ Hs]. unfold id, right_of. rewrite (sh_x _ _ Hs), (sh_y _ _ Hs).
  unfold TERMINAL_COLS, TERMINAL_ROWS in *. rewrite !u32_small by (unfold is_u32; lia).
  destruct (160 <=? tx t + 1); apply set_cursor_runs.
Qed.

Lemma step_left_runs t : runs t step_left (step_back t).
Proof.
  apply runs_gets. intros s [_ Hs]. unfold id, step_back. rewrite (sh_x _ _ Hs), (sh_y _ _ Hs).
  destruct (0 <? tx t); [apply set_cursor_runs|]. destruct (1 <? ty t); [apply set_cursor_runs | apply runs_ret].
Qed.

Lemma cursor_hide_runs t : 0 <= tx t -> 0 <= ty t -> runs t dogeio_cursor_hide (reveal false t).
Proof.
  intros Hx Hy. apply runs_gets. intros s _. eapply runs_seq; [by apply (draw_raw_runs width height pitch tid Hgeom)|].
  apply set_visible_runs.
Qed.

(** Characters drawn from cell [n] on. *)
Lemma scribble_runs f from w n t :
  (forall i c, w !! i = Some c -> f (from + Z.of_nat i) = Some c) -> is_bytes w -> 0 <= n -> n + zlen w <= CELLS ->
  runs (seek n t) (for_loop (length w) from 1 (fun i => c ← lift (f i); put_here c;; step_right)) (seek (n + zlen w) (stamp n w t)).
Proof.
  intros Hf Hb Hn Hl.
  assert (seek n t ≡ seek (n + Z.of_nat 0) (stamp n (take 0 w) t)) as Heq.
  { replace (n + Z.of_nat 0) with n by lia. split; [|done]. intros j _. cbn [cells stamp seek move]. change (take 0 w) with (@nil Z).
    destruct (rd (@nil Z) (j - n)) eqn:E; [|done]. apply rd_Some in E. unfold zlen in E. cbn in E. lia. }
  rewrite Heq. replace (stamp n w t) with (stamp n (take (length w) w) t) by (by rewrite take_ge).
  apply (runs_for width height pitch tid _ _ _ (fun m => seek (n + Z.of_nat m) (stamp n (take m w) t))). intros m Hm.
  destruct (lookup_lt_is_Some_2 w m Hm) as [c Hc]. pose proof (Forall_lookup_1 _ _ _ _ Hb Hc) as Hcb.
  eapply runs_lift; [exact (Hf m c Hc)|]. unfold zlen in Hl.
  eapply runs_seq; [apply put_here_runs; [done | done | apply seek_grid; unfold CELLS, TERMINAL_COLS, TERMINAL_ROWS in *; lia]|].
  assert (seek (n + Z.of_nat (S m)) (stamp n (take (S m) w) t) ≡
    right_of (put c (seek (n + Z.of_nat m) (stamp n (take m w) t)))) as ->.
  { transitivity (seek (n + Z.of_nat m + 1) (poke (n + Z.of_nat m) (Cell (shown c) (fg t) (bg t)) (stamp n (take m w) t))).
    - split; [|cbn; do 4 f_equal; unfold TERMINAL_COLS; f_equal; lia]. intros j _. cbn [cells seek move poke stamp fg bg].
      rewrite (take_S_r w m c Hc). destruct (Z.eqb_spec j (n + Z.of_nat m)) as [->|Hne].
      + replace (n + Z.of_nat m - n) with (zlen (take m w)) by (unfold zlen; rewrite length_take; lia). by rewrite rd_mid.
      + destruct (decide (j - n < zlen (take m w))); [by rewrite rd_app_l|].
        rewrite !rd_None; [done | lia |]. rewrite zlen_app. change (zlen [c]) with 1. unfold zlen in *. rewrite length_take in *. lia.
    - rewrite <- right_seek by lia. unfold put. rewrite here_seek. done. }
  destruct (seek_bounds (n + Z.of_nat m) t) as [Bx By]; [lia|]. apply step_right_runs; [exact Bx | exact By].
Qed.

(** ** The line on the screen *)

(** The line [x] is shown from cell [start] on; at most [cap] cells belong to it.
    [t0] is the terminal before. *)
Record editing (t0 : term) (start cap : Z) (x : text) (u : term) : Prop := Editing {
  ed_cursor : u = seek (start + Z.of_nat (pos x)) u;
  ed_rest : (fg u, bg u) = (fg t0, bg t0);
  ed_chars : chars_ok u;
  ed_line : forall i c, chars x !! i = Some c -> cells u (start + Z.of_nat i) = Cell c (fg t0) (bg t0);
  ed_frame : forall j, j < start \/ start + cap <= j -> cells u j = cells t0 j;
}.

Definition room (start cap : Z) : Prop := TERMINAL_COLS <= start /\ start + cap <= CELLS.

(** Moving the cursor. *)
Lemma editing_seek t0 start cap x p u : editing t0 start cap x u ->
  editing t0 start cap (Txt (chars x) p) (seek (start + Z.of_nat p) u).
Proof. intros [E1 E2 E3 E4 E5]. by constructor. Qed.

Lemma shown_plain c : 32 <= c < 127 -> shown c = c.
Proof. intros Hc. unfold shown. by rewrite (proj2 (Z.leb_gt 128 c)) by lia. Qed.

(** Drawing the text from position [p] on, and perhaps more. *)
Lemma editing_stamp t0 start cap x y p q w u :
  editing t0 start cap x u -> text_ok cap y -> (p <= length (chars y))%nat ->
  take p (chars y) = take p (chars x) -> (exists e, w = drop p (chars y) ++ e /\ is_bytes e) -> Z.of_nat p + zlen w <= cap ->
  editing t0 start cap (Txt (chars y) q) (seek (start + Z.of_nat q) (stamp (start + Z.of_nat p) w u)).
Proof.
  intros [E1 E2 E3 E4 E5] (_ & _ & Hc) Hp Ht (e & -> & He) Hw. injection E2 as E2a E2b.
  assert (is_bytes (drop p (chars y) ++ e)) as Hb.
  { apply is_bytes_app. split; [|done]. apply Forall_drop. eapply Forall_impl; [exact Hc|]. unfold is_u8. cbn. lia. }
  constructor; cbn [chars pos].
  - cbn. unfold seek. by cbn.
  - cbn. congruence.
  - intros i Hi. cbn [cells seek move stamp]. destruct (rd _ _) as [c|] eqn:E; [|by apply E3].
    apply shown_range. exact (is_bytes_rd _ _ _ Hb E).
  - intros i c Hi. cbn [cells seek move stamp]. replace (start + Z.of_nat i - (start + Z.of_nat p)) with (Z.of_nat i - Z.of_nat p) by lia.
    destruct (decide (i < p)%nat) as [Hlt|Hge].
    + destruct (rd _ (Z.of_nat i - Z.of_nat p)) eqn:E; [apply rd_Some in E; lia|]. apply E4.
      rewrite <- (lookup_take_lt _ p) by done. by rewrite <- Ht, lookup_take_lt.
    + rewrite rd_lookup by lia. replace (Z.to_nat (Z.of_nat i - Z.of_nat p)) with (i - p)%nat by lia.
      rewrite (lookup_app_l_Some _ _ _ c); [|rewrite lookup_drop; by replace (p + (i - p))%nat with i by lia].
      rewrite E2a, E2b, shown_plain; [done|]. exact (Forall_lookup_1 _ _ _ _ Hc Hi).
  - intros j Hj. cbn [cells seek move stamp]. destruct (rd _ _) eqn:E; [apply rd_Some in E; lia|]. by apply E5.
Qed.

Lemma editing_reveal t0 start cap x b u : editing t0 start cap x u -> editing t0 start cap x (reveal b u).
Proof. intros [E1 E2 E3 E4 E5]. constructor; try done. by rewrite E1 at 1. Qed.

Lemma editing_bounds t0 start cap x u : editing t0 start cap x u -> room start cap -> text_ok cap x ->
  in_grid (tx u) (ty u) /\ TERMINAL_COLS <= start + Z.of_nat (pos x) < CELLS.
Proof.
  intros [E1 _ _ _ _] [R1 R2] (Hp & Hl & _). unfold zlen in Hl.
  assert (TERMINAL_COLS <= start + Z.of_nat (pos x) < CELLS) as Hb by lia. split; [|done].
  rewrite E1. apply seek_grid. unfold TERMINAL_COLS in Hb. lia.
Qed.

Lemma draw_tail_runs buffer y p n u :
  holds buffer y -> (p <= length (chars y))%nat -> Forall (fun c => 32 <= c < 127) (chars y) ->
  0 <= n -> n + zlen (drop p (chars y)) <= CELLS ->
  runs (seek n u) (draw_tail buffer (Z.of_nat p) (zlen (chars y))) (seek n (stamp n (drop p (chars y)) u)).
Proof.
  intros [r ->] Hp Hc Hn Hl. apply runs_gets. intros s [_ Hs]. unfold id. rewrite (sh_x _ _ Hs), (sh_y _ _ Hs).
  replace (Z.to_nat (zlen (chars y) - Z.of_nat p)) with (length (drop p (chars y))) by (rewrite length_drop; unfold zlen; lia).
  eapply runs_seq; [apply scribble_runs with (f := rd (chars y ++ 0 :: r)); [|..|done|done]|].
  - intros i c Hi. rewrite lookup_drop in Hi. rewrite rd_lookup by lia.
    replace (Z.to_nat (Z.of_nat p + Z.of_nat i)) with (p + i)%nat by lia. by apply lookup_app_l_Some.
  - apply Forall_drop. eapply Forall_impl; [exact Hc|]. unfold is_u8. cbn. lia.
  - exact (set_cursor_runs width height pitch tid (seek _ (stamp n (drop p (chars y)) u)) _ _).
Qed.

Lemma draw_tail_blank_runs buffer y p n u :
  holds buffer y -> (p <= length (chars y))%nat -> Forall (fun c => 32 <= c < 127) (chars y) ->
  0 <= n -> n + zlen (drop p (chars y) ++ [c_space]) <= CELLS ->
  runs (seek n u) (draw_tail_blank buffer (Z.of_nat p) (zlen (chars y))) (seek n (stamp n (drop p (chars y) ++ [c_space]) u)).
Proof.
  intros [r ->] Hp Hc Hn Hl. apply runs_gets. intros s [_ Hs]. unfold id. rewrite (sh_x _ _ Hs), (sh_y _ _ Hs).
  replace (Z.to_nat (zlen (chars y) + 1 - Z.of_nat p)) with (length (drop p (chars y) ++ [c_space]))
    by (rewrite length_app, length_drop; unfold zlen; cbn; lia).
  eapply runs_seq; [apply scribble_runs with (f := fun i => if i <? zlen (chars y) then rd (chars y ++ 0 :: r) i else Some c_space); [|..|done|done]|].
  - intros i c Hi. destruct (Z.ltb_spec (Z.of_nat p + Z.of_nat i) (zlen (chars y))) as [Hlt|Hge].
    + rewrite lookup_app_l in Hi by (rewrite length_drop; unfold zlen in *; lia). rewrite lookup_drop in Hi. rewrite rd_lookup by lia.
      replace (Z.to_nat (Z.of_nat p + Z.of_nat i)) with (p + i)%nat by lia. by apply lookup_app_l_Some.
    + rewrite lookup_app_r in Hi by (rewrite length_drop; unfold zlen in *; lia). by apply list_lookup_singleton_Some in Hi as [_ <-].
  - apply is_bytes_app. split; [|by repeat constructor]. apply Forall_drop. eapply Forall_impl; [exact Hc|]. unfold is_u8. cbn. lia.
  - exact (set_cursor_runs width height pitch tid (seek _ (stamp n (drop p (chars y) ++ [c_space]) u)) _ _).
Qed.

Lemma rights_runs k n u : 0 <= n -> n + Z.of_nat k <= CELLS ->
  runs (seek n u) (for_loop k 0 1 (fun _ => step_right)) (seek (n + Z.of_nat k) u).
Proof.
  intros Hn Hk. replace (seek n u) with (seek (n + Z.of_nat 0) u) by (f_equal; lia).
  apply (runs_for width height pitch tid _ _ _ (fun m => seek (n + Z.of_nat m) u)). intros m Hm.
  replace (seek (n + Z.of_nat (S m)) u) with (right_of (seek (n + Z.of_nat m) u)) by (rewrite right_seek by lia; f_equal; lia).
  destruct (seek_bounds (n + Z.of_nat m) u) as [Bx By]; [lia|]. by apply step_right_runs.
Qed.

End Screen.
