(* ===== verification/LineInputProofs.v ===== *)
(** * Reading a line: from the scancodes to the buffer and the screen

    The scancodes that wait in the ring are decoded to keys, the keys edit the
    line, and the line is in the buffer and on the screen when Enter comes. *)

From S2P Require Import Prelude CString CMonad Console ConsoleSpec ConsoleProofs Workspaces WorkspaceProofs Keyboard KeyboardProofs LineInput LineEdit.

(** The clock, the keyboard and the timer are independent parts of the world. *)
Class TypingWorld (W : Type) `{PlainClock W} `{Tasks W} `{HasKeyboard W} := {
  kb_with_kb k w : kb (with_kb k w) = k;
  with_kb_ok k w : clock_ok w -> clock_ok (with_kb k w);
  with_kb_current k w : scheduler_current_workspace (with_kb k w) = scheduler_current_workspace w;
  refresh_ok w : clock_ok w -> clock_ok (pit_take_status_bar_refresh w).2;
  refresh_same w : kb (pit_take_status_bar_refresh w).2 = kb w /\
    scheduler_current_workspace (pit_take_status_bar_refresh w).2 = scheduler_current_workspace w;
  date_same w : kb (date_get w).2 = kb w /\ scheduler_current_workspace (date_get w).2 = scheduler_current_workspace w;
  time_same w : kb (time_get w).2 = kb w /\ scheduler_current_workspace (time_get w).2 = scheduler_current_workspace w;
}.

Section Typing.
Context {W : Type} `{TypingWorld W}.
Context (hlt : tty W -> option (tty W)).
Context (width height pitch tid : Z) (Hgeom : geometry_ok width height pitch).

(** The world with keyboard [k], while a task of the workspace in front runs. *)
#[local] Instance pinned_keys (k : keyboard) : PlainClock W.
Proof.
  refine {| clock_ok w := clock_ok w /\ kb w = k /\ scheduler_current_workspace w = tid |}.
  - intros w (Hw & Hk & Hl). destruct (date_plain w Hw) as [Hd Hp]. destruct (date_same w) as [-> ->]. done.
  - intros w (Hw & Hk & Hl). destruct (time_plain w Hw) as [Hd Hp]. destruct (time_same w) as [-> ->]. done.
Defined.

(** A terminal [u] in front, the keys [k] and the generation [g] of the workspaces. *)
Record typing (g : Z) (k : keyboard) (u : term) (t : tty W) : Prop := Typing {
  tp_on : @on W _ (pinned_keys k) width height pitch tid u (scr (sp t));
  tp_gen : workspace_generation (sp t) = g;
}.

Lemma console_typing m g k u u' t : @runs W _ (pinned_keys k) width height pitch tid u m u' -> typing g k u t ->
  exists t', on_console m t = Some (Val tt, t') /\ typing g k u' t'.
Proof.
  intros Hr [Ho Hg]. destruct (Hr _ Ho) as (x & E & Hx). exists (with_sp (with_scr x (sp t)) t).
  unfold on_console, on_spaces, on_screen, zoom. rewrite E. done.
Qed.

Lemma set_world_typing g k k' u t w : typing g k u t -> @clock_ok W _ (pinned_keys k') w ->
  exists t', set_world w t = Some (Val tt, t') /\ typing g k' u t'.
Proof.
  intros [[He Hs] Hg] Hw. eexists. split; [reflexivity|]. constructor; [|done]. split; [|by destruct Hs].
  destruct He. by constructor.
Qed.

Lemma typing_world g k u t : typing g k u t -> @clock_ok W _ (pinned_keys k) (the_world t).
Proof. intros [[He _] _]. exact (eq_clock _ _ _ _ _ He). Qed.

Lemma typing_front g k u t : typing g k u t -> in_background t = false.
Proof.
  intros Ht. destruct (typing_world _ _ _ _ Ht) as (_ & _ & Hc). destruct Ht as [[He _] _].
  destruct (eq_id _ _ _ _ _ He) as [Hid Hr]. unfold in_background. rewrite Hc, Hid.
  rewrite u32_small by (unfold is_u32, MAX_TERMINALS in *; lia). by rewrite Z.eqb_refl.
Qed.

Lemma typing_interrupts g k u b t : typing g k u t -> typing g k u (with_sp (with_interrupts b (sp t)) t).
Proof. by intros [Ho Hg]. Qed.

Lemma restore_typing g k u flags t : typing g k u t ->
  exists t', on_spaces (workspace_restore_interrupts flags) t = Some (Val tt, t') /\ typing g k u t'.
Proof.
  intros Ht. destruct flags; [|exists t; split; [|done]; by destruct t as [[] ?]].
  eexists. split; [reflexivity|]. by apply typing_interrupts.
Qed.

Lemma refresh_typing g k u t : typing g k u t -> term_ok u ->
  exists t', refresh_bar t = Some (Val tt, t') /\ typing g k u t'.
Proof.
  intros Ht [[Hx Hy] Hc]. unfold refresh_bar. rewrite bind_gets. unfold id.
  destruct (_ && _); [|by exists t]. destruct (typing_world _ _ _ _ Ht) as (Hw & Hk & Hl).
  pose proof (refresh_ok _ Hw) as Hw'. destruct (refresh_same (the_world t)) as [Hk' Hl'].
  destruct (pit_take_status_bar_refresh (the_world t)) as [due w]. cbn in Hw', Hk', Hl'.
  destruct (set_world_typing g k k u t w Ht) as (t1 & E1 & Ht1); [split_and!; congruence|].
  rewrite (bind_val _ _ _ _ _ E1). destruct due; [|by exists t1].
  apply (console_typing _ g k u u t1); [|done]. apply menubar_quiet; [done | lia | lia | done].
Qed.

Lemma take_typing g k u t c q : typing g k u t -> keyboard_ok k -> queued k = c :: q ->
  exists k' t', take_scancode t = Some (Val c, t') /\ typing g k' u t' /\ keyboard_ok k' /\ queued k' = q /\ is_u8 c /\ same_decoder k' k.
Proof.
  intros Ht Hk Hq. destruct (take_queued k c q Hk Hq) as (k' & E & Hk' & Hq' & Hc & Hs).
  destruct (typing_world _ _ _ _ Ht) as (Hw & Hkb & Hl). unfold take_scancode. rewrite bind_gets, Hkb, (bind_lift _ _ _ _ E).
  destruct (set_world_typing g k k' u t (with_kb k' (the_world t)) Ht) as (t1 & E1 & Ht1).
  { split_and!; [by apply with_kb_ok | apply kb_with_kb | by rewrite with_kb_current]. }
  exists k', t1. rewrite (bind_val _ _ _ _ _ E1). by split_and!.
Qed.

Lemma decode_typing g k u t c : typing g k u t -> keyboard_ok k -> is_u8 c ->
  exists key k' t', decode_scancode c t = Some (Val key, t') /\ dogeio_decode_key c k = Some (key, k') /\
    typing g k' u t' /\ keyboard_ok k' /\ queued k' = queued k.
Proof.
  intros Ht Hk Hc. destruct (decode_total c k Hc) as (key & k' & E). destruct (decode_keeps_ring _ _ _ _ E) as (R1 & R2 & R3).
  destruct (same_ring k k' R1 R2 R3 Hk) as [Hk' Hq']. destruct (typing_world _ _ _ _ Ht) as (Hw & Hkb & Hl).
  unfold decode_scancode. rewrite bind_gets, Hkb, (bind_lift _ _ _ _ E).
  destruct (set_world_typing g k k' u t (with_kb k' (the_world t)) Ht) as (t1 & E1 & Ht1).
  { split_and!; [by apply with_kb_ok | apply kb_with_kb | by rewrite with_kb_current]. }
  exists key, k', t1. rewrite (bind_val _ _ _ _ _ E1). by split_and!.
Qed.

(** One scancode. *)
Lemma get_key_round_typing g k u t c q : typing g k u t -> term_ok u -> keyboard_ok k -> queued k = c :: q ->
  exists key k' t', get_key_round hlt g t = Some (Val (if key =? KEY_UNKNOWN then inl tt else inr key), t') /\
    typing g k' u t' /\ keyboard_ok k' /\ queued k' = q /\
    decode (c :: q) k = (keys ← decode q k'; Some (if key =? KEY_UNKNOWN then keys else key :: keys)).
Proof.
  intros Ht Hu Hk Hq. unfold get_key_round. rewrite bind_gets. unfold id at 1 2 3.
  rewrite (tp_gen _ _ _ _ Ht), Z.eqb_refl, (typing_front _ _ _ _ Ht). cbn [negb].
  destruct (refresh_typing g k u t Ht Hu) as (t1 & E1 & Ht1). rewrite (bind_val _ _ _ _ _ E1).
  pose proof (typing_interrupts g k u false t1 Ht1) as Ht2. set (t2 := with_sp _ t1) in Ht2.
  rewrite (bind_val (on_spaces workspace_disable_interrupts) _ t1 t2 (interrupts (sp t1)) eq_refl), bind_gets. unfold id.
  rewrite (typing_front _ _ _ _ Ht2). destruct (typing_world _ _ _ _ Ht2) as (_ & Hkb & _).
  rewrite Hkb, (ring_empty k Hk), <- queued_length, Hq. cbn [length Nat.eqb negb].
  destruct (take_typing g k u t2 c q Ht2 Hk Hq) as (k3 & t3 & E3 & Ht3 & Hk3 & Hq3 & Hc & Hs3). rewrite (bind_val _ _ _ _ _ E3).
  destruct (restore_typing g k3 u (interrupts (sp t1)) t3 Ht3) as (t4 & E4 & Ht4). rewrite (bind_val _ _ _ _ _ E4).
  destruct (decode_typing g k3 u t4 c Ht4 Hk3 Hc) as (key & k5 & t5 & E5 & Hd & Ht5 & Hk5 & Hq5). rewrite (bind_val _ _ _ _ _ E5).
  assert (decode (c :: q) k = (keys ← decode q k5; Some (if key =? KEY_UNKNOWN then keys else key :: keys))) as Hdec.
  { rewrite <- (decode_same _ k3 k Hs3). cbn [decode]. by rewrite Hd. }
  exists key, k5. destruct (key =? KEY_UNKNOWN); cbn [negb].
  - exists t5. split_and!; try done. by rewrite Hq5.
  - destruct (refresh_typing g k5 u t5 Ht5 Hu) as (t6 & E6 & Ht6). exists t6. rewrite (bind_val _ _ _ _ _ E6).
    split_and!; try done. by rewrite Hq5.
Qed.

(** The next key. *)
Lemma get_key_typing rounds g k u t key keys :
  typing g k u t -> term_ok u -> keyboard_ok k -> decode (queued k) k = Some (key :: keys) ->
  (length (queued k) < Pos.to_nat rounds)%nat ->
  exists k' t', dogeio_get_key hlt rounds t = Some (Val key, t') /\ typing g k' u t' /\ keyboard_ok k' /\
    decode (queued k') k' = Some keys.
Proof.
  intros Ht Hu Hk Hd Hr. unfold dogeio_get_key. rewrite bind_gets, (tp_gen _ _ _ _ Ht).
  destruct (while_true_inv (fun n (_ : unit) t => exists k, typing g k u t /\ keyboard_ok k /\ decode (queued k) k = Some (key :: keys) /\ length (queued k) = n)
    (fun r t' => r = key /\ exists k', typing g k' u t' /\ keyboard_ok k' /\ decode (queued k') k' = Some keys)
    rounds (fun _ => get_key_round hlt g)) with (n := length (queued k)) (a := tt) (s := t) as (r & t' & E & -> & k' & ?).
  - intros n [] t1 (k1 & Ht1 & Hk1 & Hd1 & Hn). destruct (queued k1) as [|c q] eqn:Hq; [done|].
    destruct (get_key_round_typing g k1 u t1 c q Ht1 Hu Hk1 Hq) as (key1 & k2 & t2 & E & Ht2 & Hk2 & Hq2 & Hdec).
    rewrite Hdec in Hd1. destruct (decode q k2) as [keys2|] eqn:Hd2; [|done]. cbn in Hd1.
    destruct (key1 =? KEY_UNKNOWN).
    + right. exists (length q), tt, t2. split_and!; [done | cbn in Hn; lia |]. exists k2. rewrite Hq2. split_and!; try done. congruence.
    + left. exists key1, t2. simplify_eq. split_and!; [done | done |]. by exists k2.
  - by exists k.
  - done.
  - exists k', t'. done.
Qed.

(** ** Editing *)

#[local] Abbreviation kruns := (fun k => @runs W _ (pinned_keys k) width height pitch tid).

Lemma seek_reveal n b u : seek n (reveal b u) = reveal b (seek n u).
Proof. done. Qed.

(** The cursor hidden, moved and shown. *)
Lemma move_runs k (m : M (screen W) unit) u v :
  0 <= tx u -> 0 <= ty u -> 0 <= tx v -> 0 <= ty v -> kruns k (reveal false u) m (reveal false v) ->
  kruns k u (dogeio_cursor_hide;; m;; dogeio_cursor_show) (reveal true v).
Proof.
  intros Hu1 Hu2 Hv1 Hv2 Hm. eapply runs_seq; [by apply (cursor_hide_runs width height pitch tid Hgeom)|].
  eapply runs_seq; [exact Hm|].
  exact (cursor_show_runs width height pitch tid Hgeom (reveal false v) Hv1 Hv2).
Qed.

Section Line.
Context (t0 : term) (start cap : Z) (Hroom : room start cap).

#[local] Abbreviation edits := (editing t0 start cap).

Lemma left_typing g k x u t : typing g k u t -> edits x u -> text_ok cap x ->
  exists u' t', input_left (Z.of_nat (pos x)) t = Some (Val (Z.of_nat (pos x - 1)), t') /\ typing g k u' t' /\
    edits (Txt (chars x) (pos x - 1)) u'.
Proof.
  intros Ht He Hx. unfold input_left. destruct (Z.ltb_spec 0 (Z.of_nat (pos x))).
  2: { exists u, t. replace (pos x - 1)%nat with (pos x) by lia. split_and!; [done | done | by destruct x]. }
  destruct (editing_bounds _ _ _ _ _ He Hroom Hx) as [[Hgx Hgy] Hb]. destruct (Hroom) as [Hst _].
  set (v := seek (start + Z.of_nat (pos x - 1)) u).
  destruct (seek_bounds (start + Z.of_nat (pos x - 1)) u) as [Vx Vy]; [unfold TERMINAL_COLS in *; lia|].
  destruct (console_typing (dogeio_cursor_hide;; step_left;; dogeio_cursor_show) g k u (reveal true v) t) as (t' & E & Ht'); [|done|].
  { apply move_runs; try (subst v; lia). replace (reveal false v) with (step_back (reveal false u)); [apply step_left_runs|].
    rewrite (ed_cursor _ _ _ _ _ He) at 1. rewrite <- seek_reveal, back_seek by lia. subst v. rewrite seek_reveal. do 2 f_equal. lia. }
  exists (reveal true v), t'. rewrite (bind_val _ _ _ _ _ E). split_and!; [unfold mret, M_ret; do 3 f_equal; lia | done |].
  by apply editing_reveal, editing_seek.
Qed.

Lemma right_typing g k x u t : typing g k u t -> edits x u -> text_ok cap x ->
  exists u' t', input_right (zlen (chars x)) (Z.of_nat (pos x)) t = Some (Val (Z.of_nat (Nat.min (pos x + 1) (length (chars x)))), t') /\
    typing g k u' t' /\ edits (Txt (chars x) (Nat.min (pos x + 1) (length (chars x)))) u'.
Proof.
  intros Ht He Hx. pose proof Hx as (Hp & Hl & _). unfold input_right, zlen in *. destruct (Z.ltb_spec (Z.of_nat (pos x)) (Z.of_nat (length (chars x)))).
  2: { exists u, t. replace (Nat.min (pos x + 1) (length (chars x))) with (pos x) by lia. split_and!; [done | done | by destruct x]. }
  replace (Nat.min (pos x + 1) (length (chars x))) with (pos x + 1)%nat by lia.
  destruct (editing_bounds _ _ _ _ _ He Hroom Hx) as [[Hgx Hgy] Hb]. destruct (Hroom) as [Hst Hen].
  set (v := seek (start + Z.of_nat (pos x + 1)) u).
  destruct (seek_bounds (start + Z.of_nat (pos x + 1)) u) as [Vx Vy]; [unfold TERMINAL_COLS in *; lia|].
  destruct (console_typing (dogeio_cursor_hide;; step_right;; dogeio_cursor_show) g k u (reveal true v) t) as (t' & E & Ht'); [|done|].
  { apply move_runs; try (subst v; lia). replace (reveal false v) with (right_of (reveal false u)); [apply step_right_runs; cbn; lia|].
    rewrite (ed_cursor _ _ _ _ _ He) at 1. rewrite <- seek_reveal, right_seek by (unfold TERMINAL_COLS in *; lia).
    subst v. rewrite seek_reveal. do 2 f_equal. lia. }
  exists (reveal true v), t'. rewrite (bind_val _ _ _ _ _ E). split_and!; [unfold mret, M_ret; do 3 f_equal; lia | done |].
  by apply editing_reveal, editing_seek.
Qed.

(** What is drawn and how the cursor moves. *)
Lemma insert_runs k x u buffer n c : edits x u -> text_ok cap x -> zlen (chars x) + Z.of_nat n < cap ->
  holds buffer (insert_text n c x) -> 32 <= c < 127 ->
  let y := insert_text n c x in
  exists u', edits y u' /\
    kruns k (reveal false u) (draw_tail buffer (Z.of_nat (pos x)) (zlen (chars x) + Z.of_nat n);;
      for_loop n 0 1 (fun _ => step_right);; dogeio_cursor_show) u'.
Proof.
  intros He Hx Hlt Hb Hc y. pose proof Hx as (Hp & Hl & Hch). destruct Hroom as [Hst Hen].
  assert (text_ok cap y) as Hy.
  { split_and!; subst y; cbn; unfold zlen in *; rewrite ?length_app, ?length_replicate, ?length_take, ?length_drop; try lia.
    rewrite !Forall_app. split_and!; [by apply Forall_take | by apply Forall_replicate | by apply Forall_drop]. }
  assert (zlen (chars y) = zlen (chars x) + Z.of_nat n) as Ly.
  { subst y. cbn. unfold zlen. rewrite !length_app, length_replicate, length_take, length_drop. lia. }
  destruct (editing_bounds _ _ _ _ _ He Hroom Hx) as [_ Hbd]. unfold TERMINAL_COLS in Hst, Hbd.
  assert (zlen (drop (pos x) (chars y)) = zlen (chars y) - Z.of_nat (pos x)) as Ld by (unfold zlen in *; rewrite length_drop; lia).
  set (st := start + Z.of_nat (pos x)) in *. set (v := stamp st (drop (pos x) (chars y)) u).
  exists (seek (start + Z.of_nat (pos y)) (reveal true v)). split.
  - rewrite seek_reveal. apply editing_reveal. replace y with (Txt (chars y) (pos y)) by (by destruct y).
    apply editing_stamp with x; [done | done | unfold zlen in *; lia | | exists []; split; [by rewrite app_nil_r | constructor] | lia].
    subst y. cbn. rewrite take_app_le by (rewrite length_take; lia). by rewrite take_take, Nat.min_id.
  - rewrite (ed_cursor _ _ _ _ _ He), <- seek_reveal, <- Ly.
    eapply runs_seq; [apply (draw_tail_runs width height pitch tid Hgeom buffer y); [done | unfold zlen in *; lia | apply Hy | lia | lia]|].
    eapply runs_seq; [apply (rights_runs width height pitch tid); unfold zlen in *; lia|].
    replace (start + Z.of_nat (pos x) + Z.of_nat n) with (start + Z.of_nat (pos y)) by (subst y; cbn; lia).
    destruct (seek_bounds (start + Z.of_nat (pos y)) u) as [Vx Vy]; [subst y; cbn; unfold zlen in *; lia|].
    exact (cursor_show_runs width height pitch tid Hgeom (seek (start + Z.of_nat (pos y)) (stamp st (drop (pos x) (chars y)) (reveal false u))) (proj1 Vx) (proj1 Vy)).
Qed.

(** The characters move on the screen and in the buffer alike. *)
Lemma insert_typing g k x u t buffer n c : typing g k u t -> edits x u -> text_ok cap x -> holds buffer x ->
  cap <= zlen buffer -> (0 < n)%nat -> Z.of_nat n <= 8 -> 32 <= c < 127 ->
  let y := type_text cap n c x in
  exists u' t' buffer', input_insert (Z.of_nat n) c buffer (zlen (chars x)) (Z.of_nat (pos x)) cap t =
      Some (Val (buffer', zlen (chars y), Z.of_nat (pos y)), t') /\
    typing g k u' t' /\ edits y u' /\ holds buffer' y /\ zlen buffer' = zlen buffer.
Proof.
  intros Ht He Hx Hb Hbl Hn Hn8 Hc y. pose proof Hx as (Hp & Hl & Hch). unfold input_insert.
  pose proof (zlen_nonneg (chars x)). destruct Hroom as [Hst Hen]. unfold CELLS, TERMINAL_COLS, TERMINAL_ROWS in Hst, Hen.
  rewrite u64_small by (unfold is_u64; lia). subst y. unfold type_text.
  destruct (Z.ltb_spec (zlen (chars x) + Z.of_nat n) cap) as [Hlt|]; [|by exists u, t, buffer].
  destruct (editing_bounds _ _ _ _ _ He Hroom Hx) as [[Hgx Hgy] _].
  destruct (console_typing dogeio_cursor_hide g k u (reveal false u) t) as (t1 & E1 & Ht1); [|done|].
  { apply (cursor_hide_runs width height pitch tid Hgeom); lia. }
  rewrite (bind_val _ _ _ _ _ E1).
  destruct (insert_copies_spec buffer x n c Hb Hp Hn) as (buffer' & E2 & Hb' & Hl'); [lia|]. rewrite (bind_lift _ _ _ _ E2).
  destruct (insert_runs k x u buffer' n c He Hx Hlt Hb' Hc) as (u' & He' & Hr).
  rewrite Nat2Z.id. destruct (console_typing _ g k _ u' t1 Hr Ht1) as (t2 & E3 & Ht2). rewrite (bind_val _ _ _ _ _ E3).
  exists u', t2, buffer'. split_and!; try done. unfold mret, M_ret. do 4 f_equal; [f_equal|].
  - unfold insert_text. cbn. unfold zlen. rewrite !length_app, length_replicate, length_take, length_drop. lia.
  - unfold insert_text. cbn. lia.
Qed.

Lemma backspace_typing g k x u t buffer : typing g k u t -> edits x u -> text_ok cap x -> holds buffer x ->
  let y := rub_out x in
  exists u' t' buffer', input_backspace buffer (zlen (chars x)) (Z.of_nat (pos x)) t =
      Some (Val (buffer', zlen (chars y), Z.of_nat (pos y)), t') /\
    typing g k u' t' /\ edits y u' /\ holds buffer' y /\ zlen buffer' = zlen buffer.
Proof.
  intros Ht He Hx Hb y. pose proof Hx as (Hp & Hl & Hch). unfold input_backspace.
  destruct (pos x) as [|p] eqn:Ep.
  { subst y. unfold rub_out. rewrite Ep. exists u, t, buffer. by rewrite Ep. }
  rewrite (proj2 (Z.ltb_lt 0 (Z.of_nat (S p)))) by lia.
  destruct (editing_bounds _ _ _ _ _ He Hroom Hx) as [[Hgx Hgy] Hbd]. destruct Hroom as [Hst Hen].
  destruct (console_typing dogeio_cursor_hide g k u (reveal false u) t) as (t1 & E1 & Ht1); [|done|].
  { apply (cursor_hide_runs width height pitch tid Hgeom); lia. }
  rewrite (bind_val _ _ _ _ _ E1).
  destruct (remove_before_spec buffer x p Hb Ep) as (buffer' & E2 & Hb' & Hl'); [lia|]. rewrite Ep in E2. rewrite (bind_lift _ _ _ _ E2).
  fold y in Hb'.
  assert (pos y = p) as Py by (subst y; unfold rub_out; by rewrite Ep).
  assert (zlen (chars y) = zlen (chars x) - 1) as Ly.
  { subst y. unfold rub_out. rewrite Ep. cbn. unfold zlen. rewrite length_app, length_take, length_drop. lia. }
  assert (text_ok cap y) as Hy.
  { split_and!; [rewrite Py; unfold zlen in *; lia | lia |]. subst y. unfold rub_out. rewrite Ep. cbn.
    apply Forall_app. split; [by apply Forall_take | by apply Forall_drop]. }
  assert (zlen (drop p (chars y) ++ [c_space]) = zlen (chars x) - Z.of_nat p) as Ld
    by (rewrite zlen_app; change (zlen [c_space]) with 1; unfold zlen in *; rewrite length_drop; lia).
  set (st := start + Z.of_nat p). set (v := stamp st (drop p (chars y) ++ [c_space]) u). rewrite Ep in Hbd.
  assert (kruns k (reveal false u) (step_left;; draw_tail_blank buffer' (Z.of_nat (S p) - 1) (zlen (chars x) - 1);; dogeio_cursor_show)
    (reveal true (seek st v))) as Hr.
  { eapply runs_seq; [apply step_left_runs|]. rewrite (ed_cursor _ _ _ _ _ He) at 1. rewrite Ep, <- seek_reveal, back_seek by lia.
    replace (start + Z.of_nat (S p) - 1) with st by (subst st; lia). replace (Z.of_nat (S p) - 1) with (Z.of_nat p) by lia. rewrite <- Ly.
    unfold TERMINAL_COLS in *. eapply runs_seq; [apply (draw_tail_blank_runs width height pitch tid Hgeom buffer' y); [done | unfold zlen in *; lia | apply Hy | lia | lia]|].
    destruct (seek_bounds st u) as [Vx Vy]; [lia|].
    exact (cursor_show_runs width height pitch tid Hgeom (seek st (stamp st (drop p (chars y) ++ [c_space]) (reveal false u))) (proj1 Vx) (proj1 Vy)). }
  destruct (console_typing _ g k _ _ t1 Hr Ht1) as (t2 & E3 & Ht2). rewrite (bind_val _ _ _ _ _ E3).
  exists (reveal true (seek st v)), t2, buffer'. split_and!; try done.
  - unfold mret, M_ret. rewrite Ly, Py. do 5 f_equal. lia.
  - apply editing_reveal. replace y with (Txt (chars y) p) by (destruct y; cbn in *; by subst). subst st v.
    apply editing_stamp with x; [done | done | unfold zlen in *; lia | | exists [c_space]; split; [done | by repeat constructor] | lia].
    subst y. unfold rub_out. rewrite Ep. cbn. rewrite take_app_le by (rewrite length_take; lia). by rewrite take_take, Nat.min_id.
Qed.

(** The line [l] of the loop is the text [x], in a buffer of [size] bytes. *)
Definition line_is (g size : Z) (x : text) (l : line) : Prop :=
  exists b, l = Line b (zlen (chars x)) (Z.of_nat (pos x)) g /\ holds b x /\ zlen b = size.

Lemma edit_key_typing g k key size x u l t : typing g k u t -> edits x u -> text_ok cap x -> line_is g size x l -> cap <= size ->
  exists u' l' t', edit_key key cap l t = Some (Val l', t') /\ typing g k u' t' /\ edits (text_key cap key x) u' /\
    line_is g size (text_key cap key x) l'.
Proof.
  intros Ht He Hx (b & -> & Hb & Hs) Hcap. unfold edit_key, text_key, is_tab.
  destruct (key =? KEY_LEFT).
  { destruct (left_typing g k x u t Ht He Hx) as (u' & t' & E & Ht' & He'). rewrite (bind_val _ _ _ _ _ E).
    eexists u', _, t'. split_and!; [done | done | done |]. by exists b. }
  destruct (_ || (key =? 0x000D)).
  { edestruct (insert_typing g k x u t b 8 c_space) as (u' & t' & b' & E & Ht' & He' & Hb' & Hl'); try done; [lia | lia |].
    change (Z.of_nat 8) with 8 in E. rewrite (bind_val _ _ _ _ _ E). eexists u', _, t'. split_and!; [done | done | done |].
    exists b'. split_and!; [done | done | by rewrite Hl']. }
  destruct (key =? KEY_RIGHT).
  { destruct (right_typing g k x u t Ht He Hx) as (u' & t' & E & Ht' & He'). rewrite (bind_val _ _ _ _ _ E).
    eexists u', _, t'. split_and!; [done | done | done |]. by exists b. }
  destruct (key =? KEY_BACKSPACE).
  { edestruct (backspace_typing g k x u t b) as (u' & t' & b' & E & Ht' & He' & Hb' & Hl'); try done.
    rewrite (bind_val _ _ _ _ _ E). eexists u', _, t'. split_and!; [done | done | done |].
    exists b'. split_and!; [done | done | by rewrite Hl']. }
  destruct ((32 <=? key) && (key <? 127)) eqn:Ek.
  { edestruct (insert_typing g k x u t b 1 key) as (u' & t' & b' & E & Ht' & He' & Hb' & Hl'); try done; [lia | lia | bool_true; lia |].
    change (Z.of_nat 1) with 1 in E. rewrite (bind_val _ _ _ _ _ E). eexists u', _, t'. split_and!; [done | done | done |].
    exists b'. split_and!; [done | done | by rewrite Hl']. }
  eexists u, _, t. split_and!; [done | done | done |]. by exists b.
Qed.

Definition editing_key (key : Z) : Prop := key <> KEY_ENTER /\ key <> KEY_CTRL_TAB.
Definition edit_text (keys : list Z) (x : text) : text := fold_left (fun x key => text_key cap key x) keys x.

Lemma editing_term_ok x u : edits x u -> text_ok cap x -> term_ok u.
Proof. intros He Hx. split; [exact (proj1 (editing_bounds _ _ _ _ _ He Hroom Hx)) | exact (ed_chars _ _ _ _ _ He)]. Qed.

(** The loop, until Enter. *)
Lemma input_loop_typing rounds prompt g size k x u l t keys more :
  typing g k u t -> edits x u -> text_ok cap x -> line_is g size x l -> cap <= size -> keyboard_ok k ->
  decode (queued k) k = Some (keys ++ KEY_ENTER :: more) -> Forall editing_key keys ->
  (255 < Pos.to_nat rounds)%nat -> (length keys < Pos.to_nat rounds)%nat ->
  exists u' k' l' t', while_true rounds (input_round hlt rounds prompt cap) l t = Some (Val l', t') /\
    edits (edit_text keys x) u' /\ line_is g size (edit_text keys x) l' /\ typing g k' (type_char c_nl u') t'.
Proof.
  intros Ht He Hx Hl Hcap Hk Hd Hkeys Hr Hn. remember (edit_text keys x) as final eqn:Hfinal. symmetry in Hfinal.
  destruct (while_true_inv (fun n l t => exists k x u keys, typing g k u t /\ edits x u /\ text_ok cap x /\ line_is g size x l /\
      keyboard_ok k /\ decode (queued k) k = Some (keys ++ KEY_ENTER :: more) /\ Forall editing_key keys /\
      edit_text keys x = final /\ length keys = n)
    (fun l' t' => exists u' k', edits final u' /\ line_is g size final l' /\ typing g k' (type_char c_nl u') t')
    rounds (input_round hlt rounds prompt cap)) with (n := length keys) (a := l) (s := t) as (l' & t' & E & u' & k' & Hend);
    [|by exists k, x, u, keys | done | by exists u', k', l', t'; split; [|destruct Hend as (? & ? & ?)]].
  clear dependent k x u l t keys. intros n l t (k & x & u & keys & Ht & He & Hx & Hl & Hk & Hd & Hkeys & Hfin & <-).
  pose proof (editing_term_ok x u He Hx) as Hu. unfold input_round.
  assert (length (queued k) < Pos.to_nat rounds)%nat as Hq by (rewrite queued_length; pose proof (pending_le k); lia).
  destruct keys as [|key keys]; cbn [app] in Hd.
  - destruct (get_key_typing rounds g k u t _ _ Ht Hu Hk Hd Hq) as (k1 & t1 & E1 & Ht1 & Hk1 & _). rewrite (bind_val _ _ _ _ _ E1).
    rewrite bind_gets, (tp_gen _ _ _ _ Ht1). destruct Hl as (b & -> & Hb & Hs). cbn [l_generation]. rewrite Z.eqb_refl. cbn [negb].
    change (KEY_ENTER =? KEY_CTRL_TAB) with false. cbv iota. rewrite Z.eqb_refl.
    destruct (console_typing (dogeio_print [c_nl; 0]) g k1 u (type_char c_nl u) t1) as (t2 & E2 & Ht2); [|done|].
    { apply (dogeio_print_runs width height pitch tid Hgeom u [c_nl; 0] [Char c_nl]); [by repeat constructor | done | done]. }
    rewrite (bind_val _ _ _ _ _ E2). left. eexists _, t2. split; [done|]. exists u, k1. cbn in Hfin. subst x. split_and!; [done | by exists b | done].
  - destruct (get_key_typing rounds g k u t _ _ Ht Hu Hk Hd Hq) as (k1 & t1 & E1 & Ht1 & Hk1 & Hd1). rewrite (bind_val _ _ _ _ _ E1).
    apply Forall_cons in Hkeys as [[Hne Hnc] Hkeys]. rewrite bind_gets, (tp_gen _ _ _ _ Ht1). pose proof Hl as (b & El & _).
    assert (l_generation l = g) as -> by (by rewrite El). rewrite Z.eqb_refl. cbn [negb]. rewrite (eqb_neq key KEY_CTRL_TAB), (eqb_neq key KEY_ENTER) by done.
    destruct (edit_key_typing g k1 key size x u l t1 Ht1 He Hx Hl Hcap) as (u2 & l2 & t2 & E2 & Ht2 & He2 & Hl2).
    rewrite (bind_val _ _ _ _ _ E2). right. exists (length keys), l2, t2. split; [done|]. split; [cbn; lia|].
    exists k1, (text_key cap key x), u2, keys. split_and!; try done. by apply text_key_ok.
Qed.

End Line.

(** An empty line at the cursor. *)
Lemma editing_start t0 cap : term_ok t0 -> editing t0 (here t0) cap (Txt [] 0) t0.
Proof.
  intros [[Hx Hy] Hc]. constructor; try done. change (pos (Txt [] 0)) with 0%nat. rewrite Z.add_0_r. unfold seek, here.
  rewrite (Z.add_comm (ty t0 * TERMINAL_COLS)), Z_mod_plus_full, Z.mod_small, Z.div_add, Z.div_small by done. by destruct t0.
Qed.

Lemma decode_length codes k keys : decode codes k = Some keys -> (length keys <= length codes)%nat.
Proof.
  revert k keys. induction codes as [|c codes IH]; intros k keys Hd; cbn [decode] in Hd; [by simplify_eq|].
  destruct (dogeio_decode_key c k) as [[key k']|]; [|done]. rewrite Some_bind in Hd.
  destruct (decode codes k') as [keys'|] eqn:E; [|done]. rewrite Some_bind in Hd. pose proof (IH _ _ E). destruct (key =? KEY_UNKNOWN); simplify_eq; cbn; lia.
Qed.

(** The tokens of the prompt. *)
Definition prompt_tokens (prompt : option bytes) (ts : list token) : Prop :=
  match prompt with Some p => is_bytes p /\ tokens Text p = Some ts | None => ts = [] end.

Lemma prompt_typing g k u t prompt ts : typing g k u t -> term_ok u -> prompt_tokens prompt ts ->
  exists t', print_prompt prompt t = Some (Val tt, t') /\ typing g k (display ts u) t' /\ term_ok (display ts u).
Proof.
  intros Ht Hu Hp. destruct prompt as [p|]; [|cbn in Hp; subst; by exists t]. destruct Hp as [Hb Hts].
  destruct (console_typing (dogeio_print p) g k u (display ts u) t) as (t' & E & Ht'); [|done|].
  { by apply dogeio_print_runs. }
  exists t'. split_and!; [done | done |]. apply display_ok; [by eapply tokens_ok | done].
Qed.

(** C21: Reading a line. Given: a console in text mode in front; codes in the keyboard
    buffer that the decoder reads as editing keys (any key but Enter and Ctrl-Tab), then
    Enter, then anything; a prompt whose escape sequences have numbers that fit an
    [int]; a buffer of at least [cap] bytes; and room on the screen for [cap] characters
    behind the prompt ([room]: the cell of the cursor plus [cap] is at most 8000; on the
    last rows, where this fails, [dogeio_input] writes behind the screen,
    [input_leaves_the_screen]). Then [dogeio_input] ends; the caller's buffer holds the
    line that the keys edit in a reference line editor (characters, tabs, backspace and
    the cursor keys, at most [cap - 1] characters) with its final NUL. When Enter is
    pressed, the screen shows this line behind the prompt and is otherwise as before
    below the menu bar; Enter then prints a line feed at the cursor, which blanks the
    cell under it, so with the cursor inside the line one character disappears from the
    screen but not from the buffer. *)
Theorem dogeio_input_line rounds prompt ts buffer cap t0 t keys more :
  equipped width height pitch tid (scr (sp t)) -> shows t0 (scr (sp t)) -> term_ok t0 ->
  scheduler_current_workspace (the_world t) = tid -> keyboard_ok (kb (the_world t)) ->
  decode (queued (kb (the_world t))) (kb (the_world t)) = Some (keys ++ KEY_ENTER :: more) -> Forall editing_key keys ->
  prompt_tokens prompt ts -> room (here (display ts t0)) cap -> 0 < cap <= zlen buffer -> (255 < Pos.to_nat rounds)%nat ->
  let line := edit_text cap keys (Txt [] 0) in
  exists buffer' t' u, dogeio_input hlt rounds prompt buffer cap t = Some (Val buffer', t') /\
    holds buffer' line /\ zlen buffer' = zlen buffer /\ text_ok cap line /\
    editing (display ts t0) (here (display ts t0)) cap line u /\ shows (reveal false (type_char c_nl u)) (scr (sp t')).
Proof.
  intros Heq Hs Hok Hcur Hkb Hd Hkeys Hp Hroom [Hc0 Hcap] Hr line. set (k := kb (the_world t)) in *. set (g := workspace_generation (sp t)).
  assert (typing g k t0 t) as Ht.
  { constructor; [|done]. split; [|done]. destruct Heq. by constructor. }
  unfold dogeio_input. destruct (prompt_typing g k t0 t prompt ts Ht Hok Hp) as (t1 & E1 & Ht1 & Hok1). rewrite (bind_val _ _ _ _ _ E1).
  rewrite bind_gets, (tp_gen _ _ _ _ Ht1). set (u1 := display ts t0) in *. destruct Hok1 as [[Hx Hy] Hc]. pose proof (conj (conj Hx Hy) Hc : term_ok u1) as Hok1.
  destruct buffer as [|b0 buffer]; [change (zlen (@nil Z)) with 0 in Hcap; lia|]. rewrite (bind_lift _ (0 :: buffer)) by done.
  destruct (console_typing dogeio_cursor_show g k u1 (reveal true u1) t1) as (t2 & E2 & Ht2); [|done|].
  { apply cursor_show_runs; [done | lia | lia]. }
  rewrite (bind_val _ _ _ _ _ E2).
  assert (text_ok cap (Txt [] 0)) as Hx0 by (split_and!; [done | done | constructor]).
  destruct (input_loop_typing u1 (here u1) cap Hroom rounds prompt g (zlen (b0 :: buffer)) k (Txt [] 0) (reveal true u1) (Line (0 :: buffer) 0 0 g) t2 keys more)
    as (u & k3 & l & t3 & E3 & He & (b & -> & Hb & Hbl) & Ht3); try done.
  { by apply editing_reveal, editing_start. } { exists (0 :: buffer). split_and!; [done | by exists buffer | done]. }
  { pose proof (decode_length _ _ _ Hd) as Hdl. rewrite queued_length, length_app in Hdl. pose proof (pending_le k). lia. }
  assert (text_ok cap line) as Hline.
  { subst line. unfold edit_text. generalize (Txt [] 0) Hx0. clear. induction keys as [|key keys IH]; intros x Hx; [done|]. by apply IH, text_key_ok. }
  rewrite (bind_val _ _ _ _ _ E3). pose proof (type_char_ok u c_nl (editing_term_ok _ _ _ Hroom _ _ He Hline)) as Hnl.
  destruct (Hnl ltac:(done)) as [[Hnx Hny] _].
  destruct (console_typing dogeio_cursor_hide g k3 (type_char c_nl u) (reveal false (type_char c_nl u)) t3) as (t4 & E4 & Ht4); [|done|].
  { apply cursor_hide_runs; [done | lia | lia]. }
  rewrite (bind_val _ _ _ _ _ E4). cbn [l_buffer l_len]. pose proof Hb as [r ->]. fold line. rewrite wr_mid.
  exists (chars line ++ 0 :: r), t4, u. split_and!; try done. apply Ht4.
Qed.

End Typing.

(** ** A line typed at a concrete console *)

Module Typist.

(** The keyboard and the workspace of the running task; the clock shows nothing, and
    the menu bar is never due. *)
Record hands := Hands { keys_of : keyboard; running : Z }.

#[local] Instance hands_clock : Clock hands := {| date_get w := (None, w); time_get w := (None, w) |}.
#[local] Instance hands_plain : PlainClock hands.
Proof. by refine {| clock_ok _ := True |}; intros w _. Defined.
#[local] Instance hands_tasks : Tasks hands := {|
  scheduler_current_workspace := running;
  scheduler_set_shell_workspace _ w := w;
  dogeio_discard_pending_keys w := Hands (discard_pending_keys (keys_of w)) (running w);
|}.
#[local] Instance hands_keyboard : HasKeyboard hands := {|
  kb := keys_of;
  with_kb k w := Hands k (running w);
  pit_take_status_bar_refresh w := (false, w);
|}.
#[local] Instance hands_typing : TypingWorld hands.
Proof. by constructor. Defined.

(** The codes [codes] wait. *)
Definition pressed (codes : list Z) : keyboard :=
  Keyboard (codes ++ zeros (256 - length codes)) (zlen codes) 0 false false false false.

Definition at_console (y : Z) (codes : list Z) : tty hands :=
  Tty (Spaces
    (Screen (Desktop.grid 32) (Desktop.grid 7) (Desktop.grid 0) 0 y true 7 0 false 0 0
       (Some (Framebuffer 1280 800 5120 ∅)) true 10 Desktop.font false false None 0 (Hands (pressed codes) 0))
    [] false 0 0 true) true.

Definition waits : tty hands -> option (tty hands) := fun _ => None.

Definition page_at (y : Z) : term := Term (fun _ => Cell 32 7 0) 0 y 7 0 true.

(** a, c, cursor left, b, Enter. *)
Definition abc : list Z := [0x1E; 0x9E; 0x2E; 0xAE; 0xE0; 0x4B; 0xE0; 0xCB; 0x30; 0xB0; 0x1C; 0x9C].

Lemma abc_ok : keyboard_ok (pressed abc).
Proof. constructor; [done | apply is_bytes_app; split; [repeat constructor; done | apply is_bytes_zeros] | done | done]. Qed.

Lemma dogeio_input_line_witness :
  edit_text 16 [97; 99; KEY_LEFT; 98] (Txt [] 0) = Txt [97; 98; 99] 2 /\
  exists buffer' t' u, dogeio_input waits 300 (Some (lit "> " ++ [0])) (zeros 16) 16 (at_console 1 abc) = Some (Val buffer', t') /\
    holds buffer' (Txt [97; 98; 99] 2) /\ zlen buffer' = 16 /\ text_ok 16 (Txt [97; 98; 99] 2) /\
    editing (display [Char 62; Char 32] (page_at 1)) 162 16 (Txt [97; 98; 99] 2) u /\
    shows (reveal false (type_char c_nl u)) (scr (sp t')).
Proof.
  split; [reflexivity|].
  apply (dogeio_input_line waits 1280 800 5120 0 Desktop.geometry 300 (Some (lit "> " ++ [0])) [Char 62; Char 32] (zeros 16) 16 (page_at 1)
           (at_console 1 abc) [97; 99; KEY_LEFT; 98] []).
  - constructor; try done; [by eexists | apply Desktop.font_fits].
  - constructor; [| |reflexivity..].
    + split_and!; [apply Desktop.zlen_grid | apply Desktop.zlen_grid | apply Desktop.zlen_grid |]. by apply Forall_replicate.
    + intros i Hi. split_and!; by apply Desktop.rd_grid.
  - split; [done | by intros i _].
  - reflexivity.
  - apply abc_ok.
  - reflexivity.
  - by repeat constructor.
  - split; [repeat constructor; done | reflexivity].
  - by split.
  - by split.
  - vm_compute. lia.
Defined.

(** The letter a [n] times, and Enter, on the last row of the screen. *)
Definition press_all (n : nat) : keyboard :=
  Keyboard (replicate n 0x1E ++ [0x1C] ++ zeros (255 - n)) (Z.of_nat n + 1) 0 false false false false.

Definition last_row (n : nat) : tty hands :=
  Tty (Spaces
    (Screen (Desktop.grid 32) (Desktop.grid 7) (Desktop.grid 0) 0 49 true 7 0 false 0 0 None true 10 [] false false None 0
       (Hands (press_all n) 0))
    [] false 0 0 true) false.

Fixpoint cut (b : bytes) : bytes := match b with [] => [] | c :: b' => if c =? 0 then [] else c :: cut b' end.

Definition typed_length (n : nat) : option nat :=
  match dogeio_input waits 300 None (zeros 256) 256 (last_row n) with
  | Some (Val b, _) => Some (length (cut b))
  | _ => None
  end.

(** A line of 160 characters fits in the last row; the next character is written
    behind the cells, because the editor moves to row 50 without scrolling. *)
Theorem input_leaves_the_screen : typed_length 160 = Some 160%nat /\ typed_length 161 = None.
Proof. split; vm_compute; reflexivity. Qed.

End Typist.
