(* ===== verification/ShellPath.v ===== *)
(** * Canonical paths of the shells (kernel/bash.c, kernel/dogeshell.c)

    Both shells check access on a canonical form of the path: drive letter,
    colon, and the components without [.] and [..].  [working_directory] is the
    result of [fs_dirname()], NULL when it is [None]; [user] is [current_user].  A
    result [Some None] is the return value -1; [None] is an access outside one of
    the buffers. *)

From S2P Require Import Prelude CString Accounts.

(** ** Appending *)

(** [append_text] of bash.c and [dogeshell_append] differ only in the test of a
    length equal to the capacity, which both refuse. *)
Definition append_text (destination : bytes) (capacity length : Z) (text : bytes) : option (option (bytes * Z)) :=
  append_length ← strlen_loop text;
  if (capacity <? length) || (capacity - length <=? append_length) then Some None
  else
    destination ← ncopy_loop destination length text (Z.to_nat append_length);
    destination ← wr destination (length + append_length) 0;
    Some (Some (destination, length + append_length)).

Definition dogeshell_append (destination : bytes) (capacity length : Z) (source : bytes) : option (option (bytes * Z)) :=
  source_length ← strlen_loop source;
  if (capacity <=? length) || (capacity - length <=? source_length) then Some None
  else
    destination ← ncopy_loop destination length source (Z.to_nat source_length);
    destination ← wr destination (length + source_length) 0;
    Some (Some (destination, length + source_length)).

(** Sequencing of steps that may return -1. *)
Definition try {A B} (m : option (option A)) (k : A -> option (option B)) : option (option B) :=
  r ← m; match r with None => Some None | Some a => k a end.

(** ** The loop over the components *)

(** [while (combined[index] != 0 && combined[index] != '/') index++;]: the
    segment and what follows it. *)
Fixpoint segment_at (rest : bytes) : option (bytes * bytes) :=
  match rest with
  | [] => None
  | c :: rest' =>
      if (c =? 0) || (c =? c_slash) then Some ([], rest)
      else '(s, r) ← segment_at rest'; Some (c :: s, r)
  end.

(** [while (output_length > 1 && output[output_length - 1] != '/') output_length--;] *)
Fixpoint back_loop (output_length : nat) (output : bytes) : option nat :=
  match output_length with
  | O => Some O
  | S n =>
      if (n =? 0)%nat then Some output_length
      else
        c ← rd output (Z.of_nat n);
        if c =? c_slash then Some output_length else back_loop n output
  end.

(** Drop the last component. *)
Definition go_back (output : bytes) (output_length : Z) : option (bytes * Z) :=
  n ← back_loop (Z.to_nat output_length) output;
  let n := if (1 <? n)%nat then (n - 1)%nat else n in
  output ← wr output (Z.of_nat n) 0;
  Some (output, Z.of_nat n).

(** Append a component. *)
Definition push_segment (output : bytes) (output_length capacity : Z) (segment : bytes) : option (option (bytes * Z)) :=
  let separator_length := if 1 <? output_length then 1 else 0 in
  if capacity <=? output_length + separator_length + zlen segment then Some None
  else
    '(output, output_length) ←
      (if negb (separator_length =? 0)
       then output ← wr output output_length c_slash; Some (output, output_length + 1)
       else Some (output, output_length));
    output ← ncopy_loop output output_length segment (length segment);
    output ← wr output (output_length + zlen segment) 0;
    Some (Some (output, output_length + zlen segment)).

(** One round handles a segment, so the characters bound the rounds. *)
Fixpoint canon_loop (fuel : nat) (rest output : bytes) (output_length capacity : Z) : option (option (bytes * Z)) :=
  match fuel with
  | O => None
  | S fuel' =>
      c ← rd rest 0;
      if c =? 0 then Some (Some (output, output_length))
      else
        rest ← skip_slashes rest;
        c ← rd rest 0;
        if c =? 0 then Some (Some (output, output_length))
        else
          '(segment, rest) ← segment_at rest;
          if bool_decide (segment = [c_dot]) then canon_loop fuel' rest output output_length capacity
          else if bool_decide (segment = [c_dot; c_dot]) then
            '(output, output_length) ← go_back output output_length;
            canon_loop fuel' rest output output_length capacity
          else
            try (push_segment output output_length capacity segment) (fun '(output, output_length) =>
              canon_loop fuel' rest output output_length capacity)
  end.

(** [for (i = output_length + 1; i > 0; i--) output[i + 1] = output[i - 1];] *)
Fixpoint shift_loop (i : nat) (output : bytes) : option bytes :=
  match i with
  | O => Some output
  | S i' =>
      c ← rd output (Z.of_nat i');
      output ← wr output (Z.of_nat i' + 2) c;
      shift_loop i' output
  end.

(** From the combined path to the canonical one. *)
Definition canonical_of (combined output : bytes) (capacity drive_letter : Z) : option (option bytes) :=
  output ← wr output 0 c_slash;
  output ← wr output 1 0;
  try (canon_loop (length combined) combined output 1 capacity) (fun '(output, output_length) =>
    if capacity <? output_length + 3 then Some None
    else
      output ← shift_loop (Z.to_nat (output_length + 1)) output;
      output ← wr output 0 drive_letter;
      output ← wr output 1 c_colon;
      Some (Some output)).

Definition is_lower (c : Z) : bool := (97 <=? c) && (c <=? 122).
Definition to_upper (c : Z) : Z := if is_lower c then c - 97 + 65 else c.

(** Does a path start with a letter of the given kind and a colon? *)
Definition has_drive (kind : Z -> bool) (path : bytes) : option bool :=
  c ← rd path 0;
  if kind c then c1 ← rd path 1; Some (c1 =? c_colon) else Some false.

(** The working directory without its drive, and the drive letter. *)
Definition split_cwd (kind : Z -> bool) (norm : Z -> Z) (drive_letter : Z) (working_directory : option bytes)
  : option (option bytes * Z) :=
  match working_directory with
  | None => Some (None, drive_letter)
  | Some w =>
      d ← has_drive kind w;
      if (d : bool) then
        c2 ← rd w 2;
        if c2 =? c_slash then c0 ← rd w 0; Some (Some (drop 2 w), norm c0)
        else Some (Some w, drive_letter)
      else Some (Some w, drive_letter)
  end.

Section Combine.
Variable append : bytes -> Z -> Z -> bytes -> option (option (bytes * Z)).

(** A path with a drive letter: [path] is what follows the colon. *)
Definition combine_drive (path : bytes) : option (option bytes) :=
  c ← rd path 0;
  try (if (c =? 0) || negb (c =? c_slash) then append (zeros 512) 512 0 (clit "/") else Some (Some (zeros 512, 0)))
    (fun '(combined, combined_length) =>
       try (append combined 512 combined_length path) (fun '(combined, _) => Some (Some combined))).

(** The working directory and a slash. *)
Definition combine_cwd (working_directory : option bytes) : option (option (bytes * Z)) :=
  match working_directory with
  | None => Some None
  | Some w =>
      try (append (zeros 512) 512 0 w) (fun '(combined, combined_length) =>
        sep ← (if 0 <? combined_length then
                 c ← rd combined (combined_length - 1); Some (negb (c =? c_slash))
               else Some false);
        if (sep : bool) then append combined 512 combined_length (clit "/")
        else Some (Some (combined, combined_length)))
  end.

End Combine.

(** ** bash *)

Definition canonicalize_path (working_directory path : option bytes) (output : bytes) (capacity : Z)
  : option (option bytes) :=
  match path with
  | None => Some None
  | Some path =>
      c0 ← rd path 0;
      if (c0 =? 0) || (capacity <? 2) then Some None
      else
        d ← has_drive is_letter path;
        if (d : bool) then
          let drive_letter := to_upper c0 in
          if negb (drive_letter =? 67) && negb (drive_letter =? 68) then Some None
          else try (combine_drive append_text (drop 2 path)) (fun combined =>
                 canonical_of combined output capacity drive_letter)
        else
          '(working_directory, drive_letter) ← split_cwd is_letter to_upper 67 working_directory;
          try (if negb (c0 =? c_slash) then combine_cwd append_text working_directory
               else Some (Some (zeros 512, 0))) (fun '(combined, combined_length) =>
            try (append_text combined 512 combined_length path) (fun '(combined, _) =>
              canonical_of combined output capacity drive_letter))
  end.

(** 1 when access is allowed; the messages are not modelled. *)
Definition authorize_path (user working_directory path : option bytes) : option Z :=
  r ← canonicalize_path working_directory path (zeros 256) 256;
  match r with
  | None => Some 0
  | Some canonical_path => system_can_access_path user (Some canonical_path)
  end.

(** The test of the directories that may not be deleted. *)
Definition protected_root (canonical_path : bytes) : option bool :=
  let root_path := drop 2 canonical_path in
  a ← str_strcmp root_path (clit "/.windoge");
  b ← str_strcmp root_path (clit "/system");
  c ← str_strcmp root_path (clit "/apps");
  d ← str_strcmp root_path (clit "/users");
  Some ((a =? 0) || (b =? 0) || (c =? 0) || (d =? 0)).

Definition is_protected_path (working_directory path : option bytes) : option bool :=
  r ← canonicalize_path working_directory path (zeros 256) 256;
  match r with
  | None => Some false
  | Some canonical_path => protected_root canonical_path
  end.

Definition is_drive_root_path (working_directory path : option bytes) : option bool :=
  r ← canonicalize_path working_directory path (zeros 256) 256;
  match r with
  | None => Some false
  | Some canonical_path =>
      a ← str_strcmp canonical_path (clit "C:/");
      b ← str_strcmp canonical_path (clit "D:/");
      Some ((a =? 0) || (b =? 0))
  end.

(** ** dogeshell *)

Definition dogeshell_build_home (user : bytes) (path : bytes) (capacity : Z) : option (option bytes) :=
  path ← wr path 0 0;
  try (dogeshell_append path capacity 0 (clit "/users/")) (fun '(path, length) =>
    try (dogeshell_append path capacity length user) (fun '(path, _) => Some (Some path))).

Definition dogeshell_resolve_path (user : bytes) (working_directory input : option bytes) (output : bytes)
  (output_capacity : Z) : option (option bytes) :=
  match input with
  | None => Some None
  | Some input =>
      c0 ← rd input 0;
      if (c0 =? 0) || (output_capacity <? 2) then Some None
      else
        d ← has_drive is_lower input;
        if (d : bool) then
          if negb (c0 =? 99) && negb (c0 =? 100) then Some None
          else try (combine_drive dogeshell_append (drop 2 input)) (fun combined =>
                 canonical_of combined output output_capacity c0)
        else
          '(working_directory, drive_letter) ← split_cwd is_lower id 67 working_directory;
          home ← (if c0 =? 126 then c1 ← rd input 1; Some ((c1 =? 0) || (c1 =? c_slash)) else Some false);
          try (if (home : bool) then
                 try (dogeshell_build_home user (zeros 512) 512) (fun combined =>
                   len ← strlen_loop combined; Some (Some (combined, len)))
               else if negb (c0 =? c_slash) then combine_cwd dogeshell_append working_directory
               else Some (Some (zeros 512, 0))) (fun '(combined, combined_length) =>
            try (dogeshell_append combined 512 combined_length (if (home : bool) then drop 1 input else input))
              (fun '(combined, _) => canonical_of combined output output_capacity drive_letter))
  end.

(** 1 when access is allowed, and the resolved path. *)
Definition dogeshell_authorize_path (user : bytes) (working_directory path : option bytes) (resolved : bytes)
  (resolved_size : Z) : option (Z * option bytes) :=
  r ← dogeshell_resolve_path user working_directory path resolved resolved_size;
  match r with
  | None => Some (0, None)
  | Some resolved => a ← system_can_access_path (Some user) (Some resolved); Some (if a =? 0 then 0 else 1, Some resolved)
  end.

Definition dogeshell_is_protected_path (user : bytes) (working_directory path : option bytes) : option bool :=
  r ← dogeshell_resolve_path user working_directory path (zeros 256) 256;
  match r with
  | None => Some false
  | Some resolved => protected_root resolved
  end.

Definition dogeshell_is_drive_root_path (user : bytes) (working_directory path : option bytes) : option bool :=
  r ← dogeshell_resolve_path user working_directory path (zeros 256) 256;
  match r with
  | None => Some false
  | Some resolved =>
      a ← str_strcmp resolved (clit "c:/");
      b ← str_strcmp resolved (clit "d:/");
      Some ((a =? 0) || (b =? 0))
  end.
