(* ===== verification/ShellPathProofs.v ===== *)
(** * The canonical path is the normal form of its components

    [segs] splits a path into components, [norm] resolves [.] and [..], and
    [render] writes components as an absolute path: the shells compute
    [render (norm (segs path))], and refuse exactly the forbidden components. *)

From S2P Require Import Prelude CString Accounts AccountProofs ShellPath.

(** ** Components *)

Definition flush (cur : bytes) : list bytes := match cur with [] => [] | _ => [cur] end.

Fixpoint segs_acc (cur s : bytes) : list bytes :=
  match s with
  | [] => flush cur
  | c :: s' => if c =? c_slash then flush cur ++ segs_acc [] s' else segs_acc (cur ++ [c]) s'
  end.

(** The components of a path; repeated slashes count once. *)
Definition segs (s : bytes) : list bytes := segs_acc [] s.

Definition norm_step (st : list bytes) (x : bytes) : list bytes :=
  if decide (x = [c_dot]) then st
  else if decide (x = [c_dot; c_dot]) then take (length st - 1) st
  else st ++ [x].

Definition norm_from : list bytes -> list bytes -> list bytes := foldl norm_step.
Definition norm (l : list bytes) : list bytes := norm_from [] l.

Definition render (st : list bytes) : bytes := match st with [] => [c_slash] | _ => mjoin (cons c_slash <$> st) end.

Definition component (x : bytes) : Prop := x <> [] /\ nozero x /\ Forall (fun c => c <> c_slash) x.

Lemma segs_acc_seg cur s :
  cur <> [] -> segs_acc cur s = (cur ++ seg s) :: segs (drop (length (seg s)) s).
Proof.
  revert cur. induction s as [|c s IH]; intros cur Hc; cbn [segs_acc seg].
  { rewrite app_nil_r. by destruct cur. }
  destruct (Z.eqb_spec c c_slash) as [->|Hne].
  - rewrite app_nil_r. cbn [length drop]. unfold segs. cbn [segs_acc]. by destruct cur.
  - rewrite IH by (by destruct cur). by rewrite <- app_assoc.
Qed.

Lemma segs_cons c s : c <> c_slash -> segs (c :: s) = seg (c :: s) :: segs (drop (length (seg (c :: s))) (c :: s)).
Proof.
  intros Hc. unfold segs at 1. cbn [segs_acc seg app]. rewrite eqb_neq by done. by rewrite segs_acc_seg.
Qed.

Lemma segs_slash s : segs (c_slash :: s) = segs s.
Proof. done. Qed.

Lemma segs_strip s : segs (drop_while (fun c => c =? c_slash) s) = segs s.
Proof. induction s as [|c s IH]; [done|]. cbn [drop_while]. destruct (Z.eqb_spec c c_slash) as [->|]; [exact IH | done]. Qed.

Lemma segs_acc_app cur s t : segs_acc cur (s ++ c_slash :: t) = segs_acc cur s ++ segs t.
Proof.
  revert cur. induction s as [|c s IH]; intros cur; cbn [app segs_acc]; [done|].
  destruct (c =? c_slash); [by rewrite IH, app_assoc | apply IH].
Qed.

Lemma segs_app s t : segs (s ++ c_slash :: t) = segs s ++ segs t.
Proof. apply segs_acc_app. Qed.

Lemma seg_no_slash s : Forall (fun c => c <> c_slash) (seg s).
Proof.
  induction s as [|c s IH]; cbn; [constructor|]. destruct (Z.eqb_spec c c_slash); [constructor|]. by constructor.
Qed.

Lemma seg_rest s : match drop (length (seg s)) s with [] => True | c :: _ => c = c_slash end.
Proof. induction s as [|c s IH]; cbn; [done|]. destruct (Z.eqb_spec c c_slash); [done | exact IH]. Qed.

(** ** Rendering *)

Lemma render_snoc st x : st <> [] -> render (st ++ [x]) = render st ++ c_slash :: x.
Proof.
  intros Hst. assert (forall l, l <> [] -> render l = mjoin (cons c_slash <$> l)) as Hr by by intros [].
  rewrite !Hr by (done || by destruct st). rewrite fmap_app, join_app. cbn. by rewrite app_nil_r.
Qed.

Lemma render_one x : render [x] = c_slash :: x.
Proof. cbn. by rewrite app_nil_r. Qed.

Lemma render_nozero st : Forall component st -> nozero (render st).
Proof.
  induction st as [|x st IH] using rev_ind; intros Hst; [repeat constructor; done|].
  apply Forall_app in Hst as [Hst [(_ & Hx & _) _]%Forall_cons]. destruct (decide (st = [])) as [->|Hne].
  - cbn [app]. rewrite render_one. by constructor.
  - rewrite render_snoc by done. apply nozero_app. split; [by apply IH | by constructor].
Qed.

Lemma render_long st : Forall component st -> st <> [] -> 1 < zlen (render st).
Proof.
  induction st as [|x st _] using rev_ind; intros Hst Hne; [done|].
  apply Forall_app in Hst as [Hst [(Hx & _) _]%Forall_cons]. assert (0 < zlen x) by (destruct x; [done | zs]).
  destruct (decide (st = [])) as [->|Hne'].
  - cbn [app]. rewrite render_one. zs.
  - rewrite render_snoc by done. rewrite zlen_app, zlen_cons. pose proof (zlen_nonneg (render st)). lia.
Qed.

(** ** The loop *)

Lemma segment_at_cstr b s :
  cstr b s -> exists r, segment_at b = Some (seg s, r) /\ cstr r (drop (length (seg s)) s) /\ (length r + length (seg s) = length b)%nat.
Proof.
  intros H. cstr_ind H.
  - eexists. split; [done|]. split; [apply cstr_nil | cbn; lia].
  - rewrite eqb_neq by done. cbn [orb]. destruct (_ =? c_slash) eqn:E.
    + eexists. split; [done|]. cbn [length drop]. split; [by apply cstr_cons | lia].
    + destruct (IH _ H) as (r & -> & Hr & Hl). eexists. split; [done|]. split; [done | cbn; lia].
Qed.

Lemma cstr_wr_end b s n t :
  cstr b s -> s = n ++ t -> exists b', wr b (zlen n) 0 = Some b' /\ cstr b' n /\ zlen b' = zlen b.
Proof.
  intros Hb ->. pose proof (cstr_zlen _ _ Hb) as Hl. rewrite zlen_app in Hl. pose proof (zlen_nonneg t).
  destruct (wr_is_Some b (zlen n) 0) as [b' E]; [pose proof (zlen_nonneg n); lia|]. exists b'. split; [done|].
  split; [|by apply wr_zlen in E]. destruct Hb as (u & -> & Hn). apply nozero_app in Hn as [Hn _].
  destruct (t ++ 0 :: u) as [|c v] eqn:Ev; [by destruct t|]. rewrite <- app_assoc, Ev, wr_mid in E. injection E as <-.
  by exists v.
Qed.

(** Scanning back over a component. *)
Lemma back_over a x u :
  Forall (fun c => c <> c_slash) x -> (1 <= length a)%nat ->
  back_loop (length a + length x) (a ++ x ++ u) = back_loop (length a) (a ++ x ++ u).
Proof.
  revert u. induction x as [|c x IH] using rev_ind; intros u Hx Ha; [by rewrite Nat.add_0_r|].
  apply Forall_app in Hx as [Hx [Hc _]%Forall_cons]. rewrite length_app. cbn [length].
  replace (length a + (length x + 1))%nat with (S (length a + length x)) by lia. cbn [back_loop].
  destruct (Nat.eqb_spec (length a + length x) 0); [lia|].
  rewrite <- app_assoc. cbn [app]. 
  assert (rd (a ++ x ++ c :: u) (Z.of_nat (length a + length x)) = Some c) as ->.
  { rewrite rd_lookup by lia. rewrite Nat2Z.id, app_assoc, lookup_app_r by (rewrite length_app; lia).
    rewrite length_app. by rewrite Nat.sub_diag. }
  cbn [mbind option_bind]. rewrite (eqb_neq c c_slash Hc). by apply IH.
Qed.

Lemma go_back_ok o st :
  Forall component st -> cstr o (render st) ->
  let st' := take (length st - 1) st in
  exists o', go_back o (zlen (render st)) = Some (o', zlen (render st')) /\ cstr o' (render st') /\ zlen o' = zlen o.
Proof.
  intros Hst Ho st'. unfold go_back. unfold zlen at 1. rewrite Nat2Z.id.
  destruct st as [|x st _] using rev_ind.
  { cbn [render length] in *. cbn [back_loop Nat.eqb mbind option_bind]. change (1 <? 1)%nat with false.
    destruct (cstr_wr_end o [c_slash] [c_slash] [] Ho eq_refl) as (o' & E & Ho' & Hl).
    change (Z.of_nat 1) with (zlen [c_slash]). rewrite E. cbn [mbind option_bind]. by exists o'. }
  assert (st' = st) as -> by (unfold st'; rewrite length_app; cbn [length]; rewrite Nat.add_sub; apply take_app_length).
  apply Forall_app in Hst as [Hst [(Hx & Hxz & Hxs) _]%Forall_cons].
  assert (exists a, (1 <= length a)%nat /\ render (st ++ [x]) = a ++ x /\
    back_loop (length a) (render (st ++ [x])) = Some (length a) /\
    (if (1 <? length a)%nat then (length a - 1)%nat else length a) = length (render st) /\
    exists t, render (st ++ [x]) = render st ++ t) as (a & Ha & Hr & Hback & Hlen & t & Ht).
  { destruct (decide (st = [])) as [->|Hne].
    - exists [c_slash]. cbn [app]. rewrite render_one. split_and!; [done | done | done | done | by exists x].
    - exists (render st ++ [c_slash]). rewrite render_snoc by done. pose proof (render_long st Hst Hne).
      rewrite length_app. cbn [length]. split_and!; [lia | by rewrite <- app_assoc | | |].
      + rewrite Nat.add_1_r. cbn [back_loop]. destruct (Nat.eqb_spec (length (render st)) 0); [zs|].
        change (Z.of_nat (length (render st))) with (zlen (render st)). rewrite rd_mid. cbn [mbind option_bind]. done.
      + destruct (Nat.ltb_spec 1 (length (render st) + 1)); zs.
      + by eexists. }
  assert (back_loop (length (render (st ++ [x]))) o = Some (length a)) as ->.
  { destruct Ho as (u & -> & _). rewrite Hr in *. rewrite length_app, <- app_assoc, back_over by done.
    revert Hback. clear - Ha. destruct a as [|c a]; [cbn in Ha; lia|].
    cbn [back_loop length]. destruct (Nat.eqb_spec (length a) 0); [done|].
    rewrite !rd_app_l by zs. destruct (rd (c :: a) (Z.of_nat (length a))) as [y|] eqn:Ey; [|done].
    cbn [mbind option_bind]. destruct (y =? c_slash) eqn:E; [done|]. intros H. exfalso. revert H. clear.
    assert (forall n o k, back_loop n o = Some k -> (k <= n)%nat) as Hle.
    { induction n as [|n IH]; intros o k; cbn [back_loop]; [intros [= <-]; lia|].
      destruct (n =? 0)%nat; [intros [= <-]; lia|]. destruct (rd o _); [|done]. cbn [mbind option_bind].
      destruct (_ =? c_slash); [intros [= <-]; lia|]. intros ?%IH. lia. }
    intros H%Hle. cbn in H. lia. }
  cbn [mbind option_bind]. rewrite Hlen. destruct (cstr_wr_end o _ (render st) t Ho Ht) as (o' & E & Ho' & Hl).
  change (Z.of_nat (length (render st))) with (zlen (render st)). rewrite E. by exists o'.
Qed.

(** Copying at the end of a string. *)
Lemma cstr_append o a y o' :
  cstr o a -> nozero y -> blit o (zlen a) (y ++ [0]) = Some o' -> cstr o' (a ++ y) /\ zlen o' = zlen o.
Proof.
  intros Ho Hy E. split; [|by apply blit_zlen in E]. apply blit_Some in E as (_ & _ & ->).
  destruct Ho as (u & -> & Ha). unfold zlen. rewrite Nat2Z.id, take_app_length.
  eexists. rewrite <- !app_assoc. split; [reflexivity|]. by apply nozero_app.
Qed.

Definition separator (st : list bytes) : bytes := match st with [] => [] | _ => [c_slash] end.

Lemma render_push st x : render (st ++ [x]) = render st ++ separator st ++ x.
Proof. destruct st as [|y st]; [apply render_one | by rewrite render_snoc]. Qed.

(** The separator is written when there is one. *)
Lemma put_separator o n st :
  0 <= n -> n + zlen (separator st) <= zlen o ->
  exists o1, blit o n (separator st) = Some o1 /\ zlen o1 = zlen o /\
  (if negb (zlen (separator st) =? 0) then output ← wr o n c_slash; Some (output, n + 1) else Some (o, n)) =
  Some (o1, n + zlen (separator st)).
Proof.
  intros Hn Hl. destruct (blit_total o (separator st) n) as [o1 E]; [lia..|]. exists o1. split; [done|].
  split; [by apply blit_zlen in E|]. destruct st; cbn [separator] in *.
  - rewrite blit_nil in E by (change (zlen (@nil Z)) with 0 in *; lia). injection E as <-.
    cbn. by rewrite zlen_nil, Z.add_0_r.
  - change (zlen [c_slash]) with 1. cbn [Z.eqb negb]. rewrite wr_blit, E. done.
Qed.

Lemma push_ok o st x capacity :
  Forall component st -> component x -> cstr o (render st) -> zlen o = capacity ->
  let l := zlen (render (st ++ [x])) in
  if capacity <=? l then push_segment o (zlen (render st)) capacity x = Some None
  else exists o', push_segment o (zlen (render st)) capacity x = Some (Some (o', l)) /\
    cstr o' (render (st ++ [x])) /\ zlen o' = zlen o.
Proof.
  intros Hst (Hx & Hxz & Hxs) Ho Hcap l. unfold push_segment.
  assert ((if 1 <? zlen (render st) then 1 else 0) = zlen (separator st)) as ->.
  { destruct st as [|y st]; [done|]. pose proof (render_long (y :: st) Hst ltac:(done)).
    destruct (Z.ltb_spec 1 (zlen (render (y :: st)))); [done | lia]. }
  assert (l = zlen (render st) + zlen (separator st) + zlen x) as Hl by (unfold l; rewrite render_push, !zlen_app; lia).
  rewrite <- Hl. destruct (Z.leb_spec capacity l) as [|Hfit]; [done|].
  pose proof (zlen_nonneg (render st)). pose proof (zlen_nonneg x). pose proof (zlen_nonneg (separator st)).
  destruct (put_separator o (zlen (render st)) st) as (o1 & E1 & Hl1 & ->); [lia..|]. cbn [mbind option_bind].
  rewrite ncopy_blit by lia. rewrite take_ge by lia.
  destruct (blit_total o1 x (zlen (render st) + zlen (separator st))) as [o2 E2]; [lia..|].
  rewrite E2. cbn [mbind option_bind]. pose proof (blit_zlen _ _ _ _ E2) as Hl2. rewrite <- Hl.
  destruct (wr_is_Some o2 l 0) as [o3 E3]; [lia|]. rewrite E3. cbn [mbind option_bind].
  assert (blit o (zlen (render st)) ((separator st ++ x) ++ [0]) = Some o3) as E.
  { rewrite !blit_app, E1 by lia. cbn [mbind option_bind]. rewrite E2. cbn [mbind option_bind].
    rewrite <- wr_blit, <- E3. f_equal. rewrite zlen_app. lia. }
  exists o3. split; [done|]. rewrite render_push. apply (cstr_append o _ (separator st ++ x) o3 Ho); [|done].
  apply nozero_app. split; [|done]. destruct st; repeat constructor; done.
Qed.

Lemma render_pop st : zlen (render (take (length st - 1) st)) <= zlen (render st).
Proof.
  destruct st as [|x st _] using rev_ind; [done|]. rewrite length_app. cbn [length]. rewrite Nat.add_sub, take_app_length.
  rewrite render_push, !zlen_app. pose proof (zlen_nonneg (separator st)). pose proof (zlen_nonneg x). lia.
Qed.

Lemma norm_step_component st x : Forall component st -> component x -> Forall component (norm_step st x).
Proof.
  intros Hst Hx. unfold norm_step. destruct (decide _); [done|]. destruct (decide _); [by apply Forall_take|].
  apply Forall_app. split; [done | by constructor].
Qed.

(** What the loop leaves in [output], or why it gave up. *)
Definition canon_result (capacity total : Z) (st : list bytes) (r : option (bytes * Z)) : Prop :=
  match r with
  | Some (o, n) => n = zlen (render st) /\ cstr o (render st) /\ zlen o = capacity /\ n <= total + 1
  | None => capacity <= total + 1
  end.

(** The next segment of a string that does not start with a slash. *)
Lemma next_segment s c s' :
  drop_while (fun c => c =? c_slash) s = c :: s' -> nozero (c :: s') ->
  let x := seg (c :: s') in let t := drop (length x) (c :: s') in
  c <> c_slash /\ component x /\ segs s = x :: segs t /\ zlen s' + 1 = zlen x + zlen t.
Proof.
  intros Hd Hz x t. assert (c <> c_slash) as Hc.
  { clear Hz x t. induction s as [|y s IH]; cbn in Hd; [done|]. destruct (Z.eqb_spec y c_slash); [by apply IH | congruence]. }
  split; [done|]. split; [|split].
  - split; [unfold x; cbn; rewrite eqb_neq by done; done|]. split; [by apply seg_nozero | apply seg_no_slash].
  - rewrite <- segs_strip, Hd. by apply segs_cons.
  - pose proof (f_equal zlen (take_drop (length x) (c :: s'))) as Hz'. rewrite zlen_app, zlen_cons in Hz'.
    assert (take (length x) (c :: s') = x) as Htk.
    { destruct (seg_prefix (c :: s')) as [k Hk]. fold x in Hk. rewrite Hk. apply take_app_length. }
    rewrite Htk in Hz'. fold t in Hz'. lia.
Qed.

Lemma drop_while_short (f : Z -> bool) s : zlen (drop_while f s) <= zlen s.
Proof. induction s as [|c s IH]; [done|]. cbn. destruct (f c); [zs | done]. Qed.

Lemma canon_loop_ok fuel : forall rest s o st capacity total,
  cstr rest s -> (length s < fuel)%nat -> Forall component st -> cstr o (render st) -> zlen o = capacity ->
  (st = [] \/ match s with [] => True | c :: _ => c = c_slash end) ->
  zlen (render st) + zlen s <= total + 1 ->
  exists r, canon_loop fuel rest o (zlen (render st)) capacity = Some r /\
    canon_result capacity total (norm_from st (segs s)) r.
Proof.
  induction fuel as [|fuel IH]; intros rest s o st capacity total Hrest Hfuel Hst Ho Hcap Hsep Hbound; [lia|].
  cbn [canon_loop]. pose proof (zlen_nonneg s). rewrite (cstr_rd rest s 0 Hrest) by lia. cbn [mbind option_bind].
  destruct s as [|y s0]; [eexists; split; [done|]; split_and!; (done || lia)|].
  change (default 0 ((y :: s0) !! Z.to_nat 0)) with y. set (s := y :: s0) in *.
  assert (y <> 0) as Hy by (destruct Hrest as (_ & _ & Hz); by apply Forall_cons in Hz as [? _]). rewrite (eqb_neq y 0 Hy).
  destruct (skip_slashes_cstr rest s Hrest) as (r1 & -> & H1). cbn [mbind option_bind].
  destruct (drop_while (fun c => c =? c_slash) s) as [|c s'] eqn:Ed; cbn beta in *.
  { rewrite (cstr_rd r1 [] 0 H1) by (unfold zlen; cbn; lia). cbn [mbind option_bind]. eexists. split; [done|].
    rewrite <- segs_strip, Ed. split_and!; (done || lia). }
  assert (nozero (c :: s')) as Hz by by destruct H1 as (_ & _ & ?).
  destruct (next_segment s c s' Ed Hz) as (Hc & Hx & Hsegs & Hlen). set (x := seg (c :: s')) in *.
  set (t := drop (length x) (c :: s')) in *. rewrite Hsegs. cbn [norm_from foldl].
  rewrite (cstr_rd r1 (c :: s') 0 H1) by (pose proof (zlen_nonneg s'); zs). cbn [mbind option_bind].
  change (default 0 ((c :: s') !! Z.to_nat 0)) with c. rewrite (eqb_neq c 0) by by apply Forall_cons in Hz as [? _].
  destruct (segment_at_cstr r1 (c :: s') H1) as (r2 & -> & H2 & _). fold x t in H2 |- *. cbn [mbind option_bind].
  pose proof (drop_while_short (fun c => c =? c_slash) s) as Hshort. rewrite Ed, zlen_cons in Hshort.
  assert (0 < zlen x) as Hxpos by (destruct Hx as (? & _); destruct x; [done | zs]).
  pose proof (zlen_nonneg (render st)). pose proof (zlen_nonneg t).
  assert ((length t < fuel)%nat) as Hft by (unfold zlen in *; lia).
  assert (match t with [] => True | c :: _ => c = c_slash end) as Hts by apply seg_rest.
  (* a separator is only needed behind a slash of the path *)
  assert (zlen (separator st) + zlen x + zlen t <= zlen s) as Hroom.
  { destruct st as [|z st]; [change (zlen (separator [])) with 0; lia|]. change (zlen (separator (z :: st))) with 1.
    destruct Hsep as [?|Hslash]; [done|]. unfold s in *. rewrite Hslash in *. cbn [drop_while] in Ed.
    change (c_slash =? c_slash) with true in Ed. cbn iota in Ed.
    pose proof (drop_while_short (fun c => c =? c_slash) s0) as Hs0. rewrite Ed, zlen_cons in Hs0. rewrite zlen_cons. lia. }
  pose proof (zlen_nonneg (separator st)). unfold norm_step at 1.
  destruct (decide (x = [c_dot])) as [E|E];
    [rewrite bool_decide_eq_true_2 by done; apply IH; (done || auto || lia) | rewrite bool_decide_eq_false_2 by done].
  destruct (decide (x = [c_dot; c_dot])) as [E'|E']; [rewrite bool_decide_eq_true_2 by done | rewrite bool_decide_eq_false_2 by done].
  - destruct (go_back_ok o st Hst Ho) as (o' & -> & Ho' & Hl'). cbn [mbind option_bind].
    apply IH; try done; [by apply Forall_take | congruence | by right |]. pose proof (render_pop st). lia.
  - pose proof (push_ok o st x capacity Hst Hx Ho Hcap) as Hpush. cbv zeta in Hpush.
    rewrite render_push, !zlen_app in Hpush.
    destruct (Z.leb_spec capacity (zlen (render st) + (zlen (separator st) + zlen x))) as [Hfull|Hfit].
    + rewrite Hpush. eexists. split; [done|]. cbn. lia.
    + destruct Hpush as (o' & -> & Ho' & Hl'). cbn [mbind option_bind try]. unfold try. cbn [mbind option_bind].
      rewrite <- !zlen_app, <- render_push.
      apply IH; try done; [apply Forall_app; split; [done | by constructor] | by rewrite render_push | congruence | by right |].
      rewrite render_push, !zlen_app. lia.
Qed.

(** ** The drive letter *)

Lemma shift_blit i b :
  (i + 2 <= length b)%nat -> shift_loop i b = blit b 2 (take i b).
Proof.
  revert b. induction i as [|i IH]; intros b Hi; cbn [shift_loop]; [rewrite take_0, blit_nil by zs; done|].
  destruct (lookup_lt_is_Some_2 b i) as [c Hc]; [lia|]. rewrite rd_lookup, Nat2Z.id, Hc by lia. cbn [mbind option_bind].
  destruct (wr_is_Some b (Z.of_nat i + 2) c) as [b1 E1]; [zs|]. rewrite E1. cbn [mbind option_bind].
  pose proof (wr_zlen _ _ _ _ E1) as Hl1. rewrite IH by zs.
  assert (take i b1 = take i b) as ->.
  { apply wr_Some in E1 as [_ ->]. rewrite take_insert_ge; [done | lia]. }
  destruct (blit_total b1 (take i b) 2) as [b2 E2]; [lia | zs |].
  destruct (blit_total b (take (S i) b) 2) as [b3 E3]; [lia | zs |]. rewrite E2, E3. f_equal.
  apply list_eq_rd; [apply blit_zlen in E2; apply blit_zlen in E3; lia|]. intros k Hk.
  rewrite (rd_blit _ _ _ _ _ E2), (rd_blit _ _ _ _ _ E3).
  assert (zlen (take i b) = Z.of_nat i /\ zlen (take (S i) b) = Z.of_nat i + 1) as [-> ->] by zs.
  destruct (Z.eq_dec (Z.of_nat i + 2) k) as [<-|Hne].
  - bool_true. rewrite (rd_wr_eq _ _ _ _ E1), rd_lookup by lia. rewrite lookup_take_lt by lia.
    replace (Z.to_nat (Z.of_nat i + 2 - 2)) with i by lia. done.
  - rewrite (rd_wr_ne _ _ _ _ _ E1 Hne). destruct (Z.leb_spec 2 k); cbn [andb]; [|done].
    destruct (Z.ltb_spec k (2 + Z.of_nat i)), (Z.ltb_spec k (2 + (Z.of_nat i + 1))); try lia; [|done].
    rewrite !rd_lookup by lia. by rewrite !lookup_take_lt by lia.
Qed.

Lemma norm_component st l : Forall component st -> Forall component l -> Forall component (norm_from st l).
Proof.
  revert st. induction l as [|x l IH]; intros st Hst Hl; [done|]. apply Forall_cons in Hl as [Hx Hl].
  apply IH; [by apply norm_step_component | done].
Qed.

Lemma segs_component s : nozero s -> Forall component (segs s).
Proof.
  intros Hs. assert (forall cur, nozero cur -> Forall (fun c => c <> c_slash) cur -> Forall component (segs_acc cur s)) as Hacc.
  2: { apply Hacc; constructor. }
  induction s as [|c s IH]; intros cur Hz Hc; cbn [segs_acc].
  { destruct cur; constructor; [done | constructor]. }
  apply Forall_cons in Hs as [Hc0 Hs]. destruct (Z.eqb_spec c c_slash) as [->|Hne].
  - apply Forall_app. split; [destruct cur; constructor; [done | constructor] | apply IH; [done | constructor..]].
  - apply IH; [done | apply nozero_app; split; [done | by constructor] | apply Forall_app; split; [done | by constructor]].
Qed.

(** [canonical_of] writes the normal form behind the drive letter, or finds the
    path too long for its buffer. *)
Lemma canonical_of_ok combined s output capacity letter :
  cstr combined s -> zlen output = capacity -> 2 <= capacity -> letter <> 0 ->
  exists r, canonical_of combined output capacity letter = Some r /\
    match r with
    | Some o => cstr o (letter :: c_colon :: render (norm (segs s)))
    | None => capacity < zlen s + 5
    end.
Proof.
  intros Hs Hcap H2 Hletter. unfold canonical_of.
  destruct output as [|x0 [|x1 output]]; [zs | zs |].
  change (wr (x0 :: x1 :: output) 0 c_slash) with (wr ([] ++ x0 :: x1 :: output) (zlen (@nil Z)) c_slash).
  rewrite wr_mid. cbn [mbind option_bind app].
  change (wr (c_slash :: x1 :: output) 1 0) with (wr ([c_slash] ++ x1 :: output) (zlen [c_slash]) 0).
  rewrite wr_mid. cbn [mbind option_bind app].
  set (o := c_slash :: 0 :: output). assert (cstr o (render [])) as Ho by (exists output; split; [done | repeat constructor; done]).
  assert (zlen o = capacity) as Hlo by (unfold o in *; zs).
  destruct (canon_loop_ok (length combined) combined s o [] capacity (zlen s) Hs) as (r & E & Hr);
    [pose proof (cstr_zlen _ _ Hs); zs | constructor | done | done | by left | change (zlen (render [])) with 1; lia |].
  unfold try. change (zlen (render [])) with 1 in E. rewrite E. cbn [mbind option_bind].
  destruct r as [[o1 n]|]; [|exists None; split; [done|]; cbn in Hr; lia].
  destruct Hr as (-> & Ho1 & Hl1 & Hn). fold (norm (segs s)) in *. set (t := render (norm (segs s))) in *.
  destruct (Z.ltb_spec capacity (zlen t + 3)); [exists None; split; [done | lia]|].
  pose proof (zlen_nonneg t). pose proof (cstr_zlen _ _ Ho1). rewrite shift_blit by zs.
  replace (Z.to_nat (zlen t + 1)) with (S (length t)) by zs. rewrite (take_cstr o1 t Ho1).
  destruct (blit_total o1 (t ++ [0]) 2) as [o2 E2]; [lia | zs |]. rewrite E2. cbn [mbind option_bind].
  apply blit_Some in E2 as (_ & _ & E2). destruct o1 as [|y0 [|y1 o1]]; [zs | zs |].
  change (Z.to_nat 2) with 2%nat in E2. cbn [take app] in E2.
  assert (exists u, o2 = y0 :: y1 :: t ++ 0 :: u) as [u Hu] by (eexists; rewrite E2, <- app_assoc; reflexivity).
  rewrite Hu. change (wr (y0 :: y1 :: t ++ 0 :: u) 0 letter) with (wr ([] ++ y0 :: y1 :: t ++ 0 :: u) (zlen (@nil Z)) letter).
  rewrite wr_mid. cbn [mbind option_bind app].
  change (wr (letter :: y1 :: t ++ 0 :: u) 1 c_colon) with (wr ([letter] ++ y1 :: t ++ 0 :: u) (zlen [letter]) c_colon).
  rewrite wr_mid. cbn [mbind option_bind app]. eexists. split; [done|].
  apply cstr_cons; [done|]. apply cstr_cons; [done|]. exists u. split; [done|].
  apply render_nozero, norm_component; [constructor|]. apply segs_component. by destruct Hs as (_ & _ & ?).
Qed.

(** ** Access by components *)

(** The components a user may not access. *)
Definition blocked (u : bytes) (st : list bytes) : Prop :=
  u <> lit "admin" /\
  match st with
  | x :: rest => x = lit "system" \/ (x = lit "users" /\ match rest with v :: _ => v <> u | [] => False end)
  | [] => False
  end.

#[global] Instance blocked_dec u st : Decision (blocked u st).
Proof. unfold blocked. destruct st as [|x [|v rest]]; apply _. Defined.

Lemma render_cons x st : render (x :: st) = c_slash :: x ++ match st with [] => [] | _ => render st end.
Proof. destruct st as [|y st]; [by rewrite render_one, app_nil_r | done]. Qed.

Lemma seg_component x t : Forall (fun c => c <> c_slash) x -> (t = [] \/ exists t', t = c_slash :: t') -> seg (x ++ t) = x.
Proof.
  intros Hx Ht. induction x as [|c x IH]; cbn [app seg].
  - destruct Ht as [->|(t' & ->)]; done.
  - apply Forall_cons in Hx as [Hc Hx]. rewrite eqb_neq by done. by rewrite IH.
Qed.

Lemma render_rest (st : list bytes) : match st with [] => [] | _ => render st end = [] \/ exists t', match st with [] => [] | _ => render st end = c_slash :: t'.
Proof. destruct st as [|x st]; [by left|]. right. rewrite render_cons. by eexists. Qed.

(** On a canonical path the check looks at the components. *)
Lemma forbidden_canonical u letter st :
  Forall component st -> is_letter letter = true ->
  forbidden u (letter :: c_colon :: render st) <-> blocked u st.
Proof.
  intros Hst Hl. unfold forbidden, blocked, strip, strip_drive. rewrite Hl. change (c_colon =? c_colon) with true. cbn [andb].
  destruct st as [|x rest].
  { change (drop_while (fun c => c =? c_slash) (render [])) with (@nil Z). cbn [seg drop].
    split; [|tauto]. intros [_ [?|[Hp _]]]; [done|]. by apply prefix_nil_inv in Hp. }
  apply Forall_cons in Hst as [(Hx & Hxz & Hxs) Hrest]. rewrite render_cons. set (t := match rest with [] => [] | _ => _ end).
  assert (t = [] \/ exists t', t = c_slash :: t') as Ht by apply render_rest.
  assert (drop_while (fun c => c =? c_slash) (c_slash :: x ++ t) = x ++ t) as ->.
  { cbn [drop_while]. change (c_slash =? c_slash) with true. destruct x as [|c x]; [done|]. cbn [app drop_while].
    apply Forall_cons in Hxs as [Hc _]. by rewrite eqb_neq. }
  rewrite (seg_component x t Hxs Ht).
  assert (lit "users/" `prefix_of` x ++ t <-> x = lit "users" /\ exists t', t = c_slash :: t') as ->.
  { change (lit "users/") with (lit "users" ++ [c_slash]). split.
    - intros [k Hk]. assert (seg (x ++ t) = lit "users") as Hs by (rewrite Hk, <- app_assoc; done).
      rewrite (seg_component x t Hxs Ht) in Hs. split; [done|]. rewrite Hs in Hk. rewrite <- app_assoc in Hk.
      apply app_inv_head in Hk. by exists k.
    - intros [-> (t' & ->)]. by exists t'. }
  destruct rest as [|v rest].
  - subst t. split; [intros [? [?|[[_ (t' & ?)] _]]]; [tauto | done] | tauto].
  - assert (t = c_slash :: v ++ match rest with [] => [] | _ => render rest end) as Ht' by apply render_cons.
    apply Forall_cons in Hrest as [(Hv & _ & Hvs) _].
    assert (forall r, drop 6 (lit "users" ++ c_slash :: r) = r) as Hdrop by done. split.
    + intros [? [?|[[-> _] [_ Hne]]]]; [tauto|]. split; [done|]. right. split; [done|].
      by rewrite Ht', Hdrop, (seg_component v _ Hvs (render_rest rest)) in Hne.
    + intros [? [?|[-> Hne]]]; [tauto|]. split; [done|]. right. rewrite Ht'.
      rewrite Hdrop, (seg_component v _ Hvs (render_rest rest)).
      split; [|done]. split; [done | by eexists].
Qed.
