(* ===== verification/ShellAccess.v ===== *)
(** * Access control of the shells

    [authorize_path] of bash and [dogeshell_authorize_path] refuse exactly the
    paths whose normal form is blocked for the user. *)

From S2P Require Import Prelude CString CMonad Disk Exfat Vfs Accounts AccountProofs ShellPath ShellPathProofs.

(** ** The combined path *)

(** What the two append functions do to a 512-byte buffer. *)
Definition append_ok (append : bytes -> Z -> Z -> bytes -> option (option (bytes * Z))) : Prop :=
  forall d a text t, cstr d a -> zlen d = 512 -> cstr text t ->
  exists r, append d 512 (zlen a) text = Some r /\
    match r with
    | Some (d', n) => cstr d' (a ++ t) /\ n = zlen (a ++ t) /\ zlen d' = 512
    | None => 512 <= zlen a + zlen t
    end.

Lemma copy_text d a text t :
  cstr d a -> cstr text t -> zlen a + zlen t < zlen d ->
  exists d1 d', ncopy_loop d (zlen a) text (Z.to_nat (zlen t)) = Some d1 /\ wr d1 (zlen a + zlen t) 0 = Some d' /\
    cstr d' (a ++ t) /\ zlen d' = zlen d.
Proof.
  intros Hd Ht Hl. pose proof (zlen_nonneg a). pose proof (zlen_nonneg t). pose proof (cstr_zlen _ _ Ht).
  rewrite ncopy_blit by zs. assert (take (Z.to_nat (zlen t)) text = t) as ->.
  { destruct Ht as (u & -> & _). unfold zlen. rewrite Nat2Z.id. apply take_app_length. }
  destruct (blit_total d t (zlen a)) as [d1 E1]; [lia..|]. pose proof (blit_zlen _ _ _ _ E1).
  destruct (wr_is_Some d1 (zlen a + zlen t) 0) as [d' E2]; [lia|]. exists d1, d'. split; [done|]. split; [done|].
  apply (cstr_append d a t d' Hd); [by destruct Ht as (_ & _ & ?)|].
  rewrite blit_app, E1 by lia. cbn [mbind option_bind]. by rewrite <- wr_blit.
Qed.

(** [append_text] on a buffer of any capacity *)
Lemma append_text_cap cap d a text t :
  cstr d a -> zlen d = cap -> cstr text t ->
  if zlen a + zlen t <? cap
  then exists d', append_text d cap (zlen a) text = Some (Some (d', zlen (a ++ t))) /\ cstr d' (a ++ t) /\ zlen d' = cap
  else append_text d cap (zlen a) text = Some None.
Proof.
  intros Hd Hl Ht. unfold append_text. rewrite (strlen_cstr _ _ Ht). cbn [mbind option_bind].
  pose proof (cstr_zlen _ _ Hd). replace (cap <? zlen a) with false by lia. cbn [orb].
  destruct (Z.ltb_spec (zlen a + zlen t) cap).
  - replace (cap - zlen a <=? zlen t) with false by lia.
    destruct (copy_text d a text t Hd Ht) as (d1 & d' & -> & E2 & Hd' & Hl'); [lia|]. cbn [mbind option_bind]. rewrite E2, zlen_app.
    exists d'. split_and!; [done | done | lia].
  - by replace (cap - zlen a <=? zlen t) with true by lia.
Qed.

Lemma append_text_ok : append_ok append_text.
Proof.
  intros d a text t Hd Hl Ht. pose proof (append_text_cap 512 d a text t Hd Hl Ht) as H. destruct (Z.ltb_spec (zlen a + zlen t) 512).
  - destruct H as (d' & -> & ? & ?). eexists. by split.
  - rewrite H. by exists None.
Qed.

Lemma dogeshell_append_ok : append_ok dogeshell_append.
Proof.
  intros d a text t Hd Hl Ht. unfold dogeshell_append. rewrite (strlen_cstr _ _ Ht). cbn [mbind option_bind].
  pose proof (cstr_zlen _ _ Hd). destruct (Z.leb_spec 512 (zlen a)); [lia|]. cbn [orb].
  destruct (Z.leb_spec (512 - zlen a) (zlen t)); [exists None; split; [done | lia]|].
  destruct (copy_text d a text t Hd Ht) as (d1 & d' & -> & E2 & Hd' & Hl'); [lia|]. cbn [mbind option_bind]. rewrite E2.
  eexists. split; [done|]. rewrite zlen_app. split_and!; [done | done | lia].
Qed.

Section Combine.
Context (append : bytes -> Z -> Z -> bytes -> option (option (bytes * Z))) (Happ : append_ok append).

Lemma zeros_512 : cstr (zeros 512) [] /\ zlen (zeros 512) = 512.
Proof. split; [apply zeros_cstr; lia | done]. Qed.

Lemma slash_cstr : cstr (clit "/") [c_slash].
Proof. apply cstr_own. repeat constructor; done. Qed.

Lemma combine_drive_ok b p :
  cstr b p ->
  exists r, combine_drive append b = Some r /\
    match r with
    | Some c => exists s, cstr c s /\ segs s = segs p /\ zlen s <= zlen p + 1
    | None => 512 <= zlen p + 1
    end.
Proof.
  intros Hb. destruct zeros_512 as [Hz Hl]. unfold combine_drive, try. pose proof (zlen_nonneg p).
  rewrite (cstr_rd b p 0 Hb) by lia. cbn [mbind option_bind]. destruct ((default 0 _ =? 0) || _) eqn:Ec.
  - destruct (Happ (zeros 512) [] (clit "/") [c_slash] Hz Hl slash_cstr) as (r1 & E1 & H1). rewrite zlen_nil in E1. rewrite E1.
    cbn [mbind option_bind]. destruct r1 as [[d1 n1]|]; [|unfold zlen in H1; cbn in H1; lia]. destruct H1 as (Hd1 & -> & Hl1).
    destruct (Happ d1 _ b p Hd1 Hl1 Hb) as (r2 & E2 & H2). rewrite E2. cbn [mbind option_bind].
    destruct r2 as [[d2 n2]|]; eexists; (split; [done|]); cbn iota.
    + destruct H2 as (Hd2 & _ & _). eexists. split; [exact Hd2|]. split; [done|]. rewrite zlen_app. change (zlen ([] ++ [c_slash])) with 1. lia.
    + change (zlen ([] ++ [c_slash])) with 1 in H2. lia.
  - cbn [mbind option_bind]. destruct (Happ (zeros 512) [] b p Hz Hl Hb) as (r2 & E2 & H2). rewrite zlen_nil in E2. rewrite E2.
    cbn [mbind option_bind]. destruct r2 as [[d2 n2]|]; eexists; (split; [done|]); cbn iota.
    + destruct H2 as (Hd2 & _ & _). exists p. split; [exact Hd2|]. split; [done | lia].
    + rewrite zlen_nil in H2. lia.
Qed.

(** The working directory with a slash behind it. *)
Lemma combine_cwd_ok b w :
  cstr b w -> w <> [] ->
  exists r, combine_cwd append (Some b) = Some r /\
    match r with
    | Some (c, n) => exists s, cstr c s /\ n = zlen s /\ zlen c = 512 /\ zlen s <= zlen w + 1 /\
        forall p, segs (s ++ p) = segs w ++ segs p
    | None => 512 <= zlen w + 1
    end.
Proof.
  intros Hb Hne. destruct zeros_512 as [Hz Hl]. unfold combine_cwd, try.
  destruct (Happ (zeros 512) [] b w Hz Hl Hb) as (r1 & E1 & H1). rewrite zlen_nil in E1. rewrite E1. cbn [mbind option_bind app] in *.
  destruct r1 as [[d1 n1]|]; [|eexists; split; [done|]; cbn iota; rewrite zlen_nil in H1; lia]. destruct H1 as (Hd1 & -> & Hl1).
  destruct w as [|y w0 _] using rev_ind; [done|].
  assert (zlen (w0 ++ [y]) = zlen w0 + 1) as Hlw by zs. pose proof (zlen_nonneg w0).
  destruct (Z.ltb_spec 0 (zlen (w0 ++ [y]))); [|lia]. rewrite (cstr_rd d1 (w0 ++ [y]) _ Hd1) by lia. cbn [mbind option_bind].
  assert (default 0 ((w0 ++ [y]) !! Z.to_nat (zlen (w0 ++ [y]) - 1)) = y) as ->.
  { rewrite Hlw. replace (Z.to_nat (zlen w0 + 1 - 1)) with (length w0) by zs. by rewrite lookup_app_r, Nat.sub_diag. }
  destruct (Z.eqb_spec y c_slash) as [->|Hy]; cbn [negb].
  - eexists. split; [done|]. cbn iota. exists (w0 ++ [c_slash]). split_and!; [done | done | done | lia |].
    intros p. rewrite <- app_assoc. cbn [app]. rewrite segs_app. change [c_slash] with (c_slash :: []). by rewrite segs_app, app_nil_r.
  - destruct (Happ d1 _ (clit "/") [c_slash] Hd1 Hl1 slash_cstr) as (r2 & E2 & H2). rewrite E2.
    destruct r2 as [[d2 n2]|]; eexists; (split; [done|]); cbn iota; [|change (zlen [c_slash]) with 1 in H2; lia].
    destruct H2 as (Hd2 & -> & Hl2). eexists. split_and!; [exact Hd2 | done | done | rewrite !zlen_app; unfold zlen; cbn; lia |].
    intros p. rewrite <- app_assoc. cbn [app]. by rewrite segs_app.
Qed.

End Combine.

(** ** Canonical paths *)

(** The drive letter of a path and what follows the colon. *)
Definition drive_of (kind : Z -> bool) (p : bytes) : option (Z * bytes) :=
  match p with
  | a :: b :: p' => if kind a && (b =? c_colon) then Some (a, p') else None
  | _ => None
  end.

(** The components a path stands for in the working directory [w]. *)
Definition comps (kind : Z -> bool) (w p : bytes) : list bytes :=
  match drive_of kind p with
  | Some (_, p') => segs p'
  | None => if decide (head p = Some c_slash) then segs p else segs w ++ segs p
  end.

(** A drive letter that names no drive. *)
Definition bad_drive (kind : Z -> bool) (p : bytes) : Prop :=
  match drive_of kind p with
  | Some (a, _) => a ∉ [67; 68; 99; 100]
  | None => False
  end.

Lemma has_drive_ok kind b p :
  cstr b p -> kind 0 = false -> has_drive kind b = Some (match drive_of kind p with Some _ => true | None => false end).
Proof.
  intros Hb Hk. unfold has_drive. rewrite (cstr_rd b p 0 Hb) by (pose proof (zlen_nonneg p); lia). cbn [mbind option_bind].
  destruct p as [|a p]; [change (default 0 ([] !! Z.to_nat 0)) with 0; by rewrite Hk|]. change (default 0 ((a :: p) !! Z.to_nat 0)) with a.
  destruct (kind a) eqn:Ea; [|destruct p; cbn; by rewrite ?Ea]. rewrite (cstr_rd b (a :: p) 1 Hb) by (pose proof (zlen_nonneg p); zs).
  destruct p as [|b1 p]; [done|]. change (default 0 ((a :: b1 :: p) !! Z.to_nat 1)) with b1. unfold drive_of. rewrite Ea.
  cbn [mbind option_bind andb]. by destruct (b1 =? c_colon).
Qed.

Lemma drive_of_drop kind p a p' : drive_of kind p = Some (a, p') -> kind a = true /\ p = a :: c_colon :: p'.
Proof.
  destruct p as [|x [|y p]]; cbn; try done. destruct (kind x) eqn:E; [|done]. cbn. destruct (Z.eqb_spec y c_colon) as [->|]; [|done].
  by intros [= -> ->].
Qed.

(** The working directory of the file system: a drive letter and an absolute path. *)
Definition cwd_string (l : Z) (w : bytes) : bytes := l :: c_colon :: c_slash :: w.

Lemma split_cwd_ok kind f d bw l w :
  cstr bw (cwd_string l w) -> kind l = true ->
  exists b', split_cwd kind f d (Some bw) = Some (Some b', f l) /\ cstr b' (c_slash :: w).
Proof.
  intros Hb Hl. unfold split_cwd, has_drive.
  assert (rd bw 0 = Some l /\ rd bw 1 = Some c_colon /\ rd bw 2 = Some c_slash) as (E0 & E1 & E2)
    by (destruct Hb as (t & -> & _); done).
  rewrite E0. cbn [mbind option_bind]. rewrite Hl, E1. cbn [mbind option_bind].
  change (c_colon =? c_colon) with true. cbn iota. rewrite E2. cbn [mbind option_bind].
  change (c_slash =? c_slash) with true. cbn iota. eexists. split; [done|]. apply (cstr_drop bw (cwd_string l w) 2 Hb). cbn. lia.
Qed.

Section Canonical.
Context (append : bytes -> Z -> Z -> bytes -> option (option (bytes * Z))) (Happ : append_ok append).
Context (kind : Z -> bool) (bw bp w p output : bytes) (capacity letter : Z).
Context (Hw : cstr bw (c_slash :: w)) (Hp : cstr bp p) (Hcap : zlen output = capacity) (Hc2 : 2 <= capacity <= 512).
Context (Hletter : letter <> 0).

(** A path without a drive letter. *)
Lemma plain_path_ok :
  p <> [] -> drive_of kind p = None ->
  exists r,
    try (if negb (default 0 (head p) =? c_slash) then combine_cwd append (Some bw) else Some (Some (zeros 512, 0)))
      (fun '(combined, combined_length) =>
         try (append combined 512 combined_length bp) (fun '(combined, _) => canonical_of combined output capacity letter))
    = Some r /\
    match r with
    | Some o => cstr o (letter :: c_colon :: render (norm (comps kind w p)))
    | None => capacity < zlen w + zlen p + 10
    end.
Proof.
  intros Hne Hd. unfold comps. rewrite Hd. destruct p as [|a p0] eqn:Ep; [done|].
  change (default 0 (head (a :: p0))) with a. change (head (a :: p0)) with (Some a). rewrite <- Ep in *. unfold try. pose proof (zlen_nonneg w). pose proof (zlen_nonneg p).
  destruct (Z.eqb_spec a c_slash) as [->|Ha]; cbn [negb].
  - rewrite decide_True by done. cbn [mbind option_bind].
    destruct (Happ (zeros 512) [] bp p ltac:(apply zeros_512) ltac:(done) Hp) as (r & E & Hr). rewrite zlen_nil in E. rewrite E.
    cbn [mbind option_bind]. destruct r as [[d n]|]; [|exists None; split; [done|]; rewrite zlen_nil in Hr; lia].
    destruct Hr as (Hd' & _ & _). destruct (canonical_of_ok d p output capacity letter Hd' Hcap) as (r & Er & Hr); [lia | done |].
    exists r. split; [done|]. destruct r; [done | lia].
  - rewrite decide_False by congruence.
    destruct (combine_cwd_ok append Happ bw (c_slash :: w) Hw) as (r & E & Hr); [done|]. rewrite E. cbn [mbind option_bind].
    rewrite zlen_cons in Hr. destruct r as [[d n]|]; [|exists None; split; [done | lia]].
    destruct Hr as (s & Hs & -> & Hl & Hls & Hsegs).
    destruct (Happ d s bp p Hs Hl Hp) as (r & E2 & Hr). rewrite E2. cbn [mbind option_bind].
    destruct r as [[d2 n2]|]; [|exists None; split; [done | lia]]. destruct Hr as (Hd2 & _ & _).
    destruct (canonical_of_ok d2 (s ++ p) output capacity letter Hd2 Hcap) as (r & Er & Hr); [lia | done |].
    rewrite Hsegs, segs_slash, zlen_app in Hr. exists r. split; [done|]. destruct r; [done | lia].
Qed.

End Canonical.

Lemma letter_pos c : is_letter c = true -> c <> 0.
Proof. unfold is_letter. intros H ->. done. Qed.

Lemma to_upper_letter c : is_letter c = true -> is_letter (to_upper c) = true.
Proof. unfold is_letter, to_upper, is_lower. intros H. destruct ((97 <=? c) && (c <=? 122)) eqn:E; [|by rewrite E, orb_false_r in *].
  apply andb_true_iff in E as [E1 E2]. apply orb_true_iff. left. apply andb_true_iff. lia. Qed.

Lemma to_upper_drive a :
  is_letter a = true -> (negb (to_upper a =? 67) && negb (to_upper a =? 68)) = bool_decide (a ∉ [67; 68; 99; 100]).
Proof.
  unfold is_letter, to_upper, is_lower. intros H. apply eq_true_iff_eq.
  rewrite bool_decide_eq_true, andb_true_iff, !negb_true_iff, !Z.eqb_neq, !not_elem_of_cons. pose proof (not_elem_of_nil a) as Hnil.
  destruct ((97 <=? a) && (a <=? 122)) eqn:E.
  - apply andb_true_iff in E as [E1 E2]. split; [intros []; split_and!; (lia || done) | intros (? & ? & ? & ? & _); lia].
  - rewrite orb_false_r in H. apply andb_true_iff in H as [H1 H2].
    split; [intros []; split_and!; (lia || done) | intros (? & ? & ? & ? & _); lia].
Qed.

(** bash *)
Lemma canonicalize_ok bw l w bp p output capacity :
  cstr bw (cwd_string l w) -> is_letter l = true -> cstr bp p -> p <> [] -> zlen output = capacity -> 2 <= capacity <= 512 ->
  exists r, canonicalize_path (Some bw) (Some bp) output capacity = Some r /\
    match r with
    | Some o => exists letter, is_letter letter = true /\ ~ bad_drive is_letter p /\
        letter = to_upper (default l (fst <$> drive_of is_letter p)) /\
        cstr o (letter :: c_colon :: render (norm (comps is_letter w p)))
    | None => bad_drive is_letter p \/ capacity < zlen w + zlen p + 10
    end.
Proof.
  intros Hbw Hl Hbp Hne Hcap Hc2. unfold canonicalize_path. pose proof (zlen_nonneg w). pose proof (zlen_nonneg p).
  rewrite (cstr_rd bp p 0 Hbp) by lia. cbn [mbind option_bind].
  destruct p as [|a p0] eqn:Ep; [done|]. change (default 0 ((a :: p0) !! Z.to_nat 0)) with a. rewrite <- Ep in *.
  assert (a <> 0) as Ha by (destruct Hbp as (_ & _ & Hz); rewrite Ep in Hz; by apply Forall_cons in Hz as [? _]).
  rewrite (eqb_neq a 0 Ha). destruct (Z.ltb_spec capacity 2); [lia|]. cbn [orb].
  rewrite (has_drive_ok is_letter bp p Hbp eq_refl). cbn [mbind option_bind]. destruct (drive_of is_letter p) as [[x p']|] eqn:Ed.
  - destruct (drive_of_drop _ _ _ _ Ed) as [Hx Hp']. rewrite Hp' in Ep. injection Ep as <- <-.
    rewrite (to_upper_drive x Hx). unfold bad_drive. rewrite Ed. destruct (decide (x ∉ [67; 68; 99; 100])) as [Hbad|Hgood];
      [rewrite bool_decide_eq_true_2 by done; exists None; split; [done | by left] | rewrite bool_decide_eq_false_2 by done].
    assert (cstr (drop 2 bp) p') as Hd.
    { rewrite Hp' in Hbp. apply (cstr_drop bp (x :: c_colon :: p') 2 Hbp). cbn. lia. }
    assert (zlen p = zlen p' + 2) as Hlp by (rewrite Hp'; zs).
    destruct (combine_drive_ok append_text append_text_ok (drop 2 bp) p' Hd) as (r & E & Hr). unfold try. rewrite E.
    cbn [mbind option_bind]. destruct r as [c|]; [|exists None; split; [done | right; lia]].
    destruct Hr as (s & Hs & Hsegs & Hls).
    destruct (canonical_of_ok c s output capacity (to_upper x) Hs Hcap) as (r & Er & Hr);
      [lia | by apply letter_pos, to_upper_letter |].
    exists r. split; [done|]. destruct r as [o|]; [|right; lia]. exists (to_upper x). split; [by apply to_upper_letter|].
    split; [done|]. split; [done|]. unfold comps. rewrite Ed, <- Hsegs. done.
  - destruct (split_cwd_ok is_letter to_upper 67 bw l w Hbw Hl) as (b' & E & Hb'). rewrite E. cbn [mbind option_bind].
    destruct (plain_path_ok append_text append_text_ok is_letter b' bp w p output capacity (to_upper l) Hb' Hbp Hcap Hc2)
      as (r & Er & Hr); [by apply letter_pos, to_upper_letter | done | done |].
    rewrite Ep in Er. cbn [head] in Er. change (default 0 (Some a)) with a in Er.
    exists r. split; [exact Er|]. destruct r as [o|]; [|by right]. exists (to_upper l). split; [by apply to_upper_letter|].
    split; [unfold bad_drive; rewrite Ed; by intros [] | done].
Qed.

Lemma cstr_nozero b s : cstr b s -> nozero s.
Proof. by intros (_ & _ & ?). Qed.

Lemma comps_component kind w p : nozero w -> nozero p -> Forall component (comps kind w p).
Proof.
  intros Hw Hp. unfold comps. destruct (drive_of kind p) as [[x p']|] eqn:E.
  - destruct (drive_of_drop _ _ _ _ E) as [_ ->]. apply segs_component. do 2 apply Forall_cons in Hp as [_ Hp]. done.
  - destruct (decide _); [by apply segs_component | apply Forall_app; split; by apply segs_component].
Qed.

Lemma cwd_nozero bw l w : cstr bw (cwd_string l w) -> nozero w.
Proof. intros Hw%cstr_nozero. by do 3 apply Forall_cons in Hw as [_ Hw]. Qed.

Lemma access_canonical bu u o letter st :
  cstr bu u -> zlen u < 63 -> Forall component st -> is_letter letter = true ->
  cstr o (letter :: c_colon :: render st) ->
  system_can_access_path (Some bu) (Some o) = Some (if decide (blocked u st) then 0 else 1).
Proof.
  intros Hu Hlu Hst Hl Ho. rewrite (can_access_ok bu u o _ Hu Ho Hlu). f_equal.
  pose proof (forbidden_canonical u letter st Hst Hl) as Hf. destruct (decide (forbidden _ _)), (decide (blocked _ _)); tauto.
Qed.

(** C29: bash refuses exactly the blocked paths. For every user name of fewer than 63
    characters, working directory and non-empty path, [authorize_path] returns and stays
    inside its buffers. The user [admin] may access every path. For any other user, a
    path that is allowed does not, with the working directory put in front and [.] and
    [..] resolved, start with the component [system], nor with [users] followed by
    another user's name; and every path of which this holds (for [admin]: every path),
    on an existing drive letter and short enough for the 256-byte buffer, is allowed.
    The components are compared as they are spelled; the file system itself is laxer
    ([case_escapes], [blank_path_escapes]). *)
Theorem authorize_path_exact bu u bw l w bp p :
  cstr bu u -> zlen u < 63 -> cstr bw (cwd_string l w) -> is_letter l = true -> cstr bp p -> p <> [] ->
  exists r, authorize_path (Some bu) (Some bw) (Some bp) = Some r /\
    (r = 1 -> ~ blocked u (norm (comps is_letter w p))) /\
    (~ blocked u (norm (comps is_letter w p)) -> ~ bad_drive is_letter p -> zlen w + zlen p + 10 <= 256 -> r = 1).
Proof.
  intros Hu Hlu Hw Hl Hp Hne. unfold authorize_path.
  destruct (canonicalize_ok bw l w bp p (zeros 256) 256 Hw Hl Hp Hne eq_refl) as (r & -> & Hr); [lia|]. cbn [mbind option_bind].
  destruct r as [o|]; [|exists 0; split; [done|]; split; [done|]; intros _ ?; destruct Hr; [done | lia]].
  destruct Hr as (letter & Hletter & _ & _ & Ho).
  assert (Forall component (norm (comps is_letter w p))) as Hcomp.
  { apply norm_component; [constructor|]. apply comps_component; [by apply (cwd_nozero bw l) | by apply cstr_nozero in Hp]. }
  rewrite (access_canonical bu u o letter _ Hu Hlu Hcomp Hletter Ho).
  eexists. split; [done|]. destruct (decide (blocked _ _)); split; (done || by intros _).
Qed.

(** ** dogeshell *)

(** Is the path [~] or below it? *)
Definition home_of (p : bytes) : option bytes :=
  match p with
  | c :: rest => if (c =? 126) && bool_decide (rest = [] \/ head rest = Some c_slash) then Some rest else None
  | [] => None
  end.

(** The components of a path in dogeshell. *)
Definition doge_comps (u w p : bytes) : list bytes :=
  match home_of p with
  | Some rest => segs (lit "/users/" ++ u) ++ segs rest
  | None => comps is_lower w p
  end.

Lemma home_ok b p :
  cstr b p -> p <> [] ->
  (if default 0 (head p) =? 126 then c1 ← rd b 1; Some ((c1 =? 0) || (c1 =? c_slash)) else Some false) =
  Some (match home_of p with Some _ => true | None => false end).
Proof.
  intros Hb Hne. destruct p as [|c p]; [done|]. change (default 0 (head (c :: p))) with c. unfold home_of.
  destruct (Z.eqb_spec c 126); [|done]. cbn [andb]. pose proof (zlen_nonneg p). rewrite (cstr_rd b (c :: p) 1 Hb) by zs.
  cbn [mbind option_bind]. destruct p as [|x p]; [by rewrite bool_decide_eq_true_2 by auto|].
  change (default 0 ((c :: x :: p) !! Z.to_nat 1)) with x.
  assert (x <> 0) as Hx by (apply cstr_nozero in Hb; apply Forall_cons in Hb as [_ Hb]; by apply Forall_cons in Hb as [? _]).
  rewrite (eqb_neq x 0 Hx). cbn [orb head]. destruct (Z.eqb_spec x c_slash) as [->|Hs].
  - by rewrite bool_decide_eq_true_2 by auto.
  - rewrite bool_decide_eq_false_2; [done|]. intros [?|[= ?]]; done.
Qed.

Lemma build_home_ok bu u :
  cstr bu u -> zlen u < 63 ->
  exists b, dogeshell_build_home bu (zeros 512) 512 = Some (Some b) /\ cstr b (lit "/users/" ++ u) /\ zlen b = 512.
Proof.
  intros Hu Hl. unfold dogeshell_build_home. change (wr (zeros 512) 0 0) with (Some (zeros 512)). cbn [mbind option_bind].
  destruct (dogeshell_append_ok (zeros 512) [] (clit "/users/") (lit "/users/")) as (r & E & Hr);
    [apply zeros_512 | done | apply cstr_own; repeat constructor; done |].
  rewrite zlen_nil in E. unfold try. rewrite E. cbn [mbind option_bind]. destruct r as [[d n]|]; [|unfold zlen in Hr; cbn in Hr; lia].
  destruct Hr as (Hd & -> & Hld). destruct (dogeshell_append_ok d _ bu u Hd Hld Hu) as (r & E2 & Hr). rewrite E2.
  cbn [mbind option_bind]. destruct r as [[d2 n2]|]; [|change (zlen ([] ++ lit "/users/")) with 7 in Hr; lia].
  destruct Hr as (Hd2 & _ & Hld2). by exists d2.
Qed.

Lemma segs_home u rest : rest = [] \/ head rest = Some c_slash ->
  segs ((lit "/users/" ++ u) ++ rest) = segs (lit "/users/" ++ u) ++ segs rest.
Proof.
  intros [->|Hr]; [by rewrite !app_nil_r|]. destruct rest as [|c rest]; [done|]. injection Hr as ->. by rewrite segs_app, segs_slash.
Qed.

(** A path below the home directory. *)
Lemma home_path_ok bu u bp p rest output capacity letter :
  cstr bu u -> zlen u < 63 -> cstr bp p -> home_of p = Some rest -> zlen output = capacity -> 2 <= capacity <= 512 -> letter <> 0 ->
  exists r,
    try (try (dogeshell_build_home bu (zeros 512) 512) (fun combined =>
           len ← strlen_loop combined; Some (Some (combined, len))))
      (fun '(combined, combined_length) =>
         try (dogeshell_append combined 512 combined_length (drop 1 bp))
           (fun '(combined, _) => canonical_of combined output capacity letter)) = Some r /\
    match r with
    | Some o => cstr o (letter :: c_colon :: render (norm (segs (lit "/users/" ++ u) ++ segs rest)))
    | None => capacity < zlen p + 100
    end.
Proof.
  intros Hu Hlu Hp Hh Hcap Hc2 Hletter. destruct (build_home_ok bu u Hu Hlu) as (b & E & Hb & Hlb). unfold try. rewrite E.
  cbn [mbind option_bind]. rewrite (strlen_cstr b _ Hb). cbn [mbind option_bind].
  destruct p as [|c p0]; [done|]. unfold home_of in Hh. destruct ((c =? 126) && bool_decide _) eqn:Ec; [|done]. injection Hh as ->.
  apply andb_true_iff in Ec as [_ Hrest%bool_decide_eq_true].
  assert (cstr (drop 1 bp) rest) as Hd by (apply (cstr_drop bp (c :: rest) 1 Hp); cbn; lia).
  destruct (dogeshell_append_ok b _ (drop 1 bp) rest Hb Hlb Hd) as (r & E2 & Hr). rewrite E2. cbn [mbind option_bind].
  assert (zlen (lit "/users/" ++ u) = 7 + zlen u) as Hlh by (rewrite zlen_app; done). rewrite zlen_cons. pose proof (zlen_nonneg rest).
  destruct r as [[d n]|]; [|exists None; split; [done|]; lia]. destruct Hr as (Hd2 & _ & _).
  destruct (canonical_of_ok d _ output capacity letter Hd2 Hcap) as (r & Er & Hr); [lia | done |].
  rewrite segs_home in Hr by done. exists r. split; [done|]. destruct r; [done|]. rewrite zlen_app in Hr. lia.
Qed.

Lemma lower_letter c : is_lower c = true -> is_letter c = true.
Proof. unfold is_lower, is_letter. intros ->. by rewrite orb_true_r. Qed.

Lemma home_no_drive p rest : home_of p = Some rest -> drive_of is_lower p = None.
Proof.
  unfold home_of. destruct p as [|c p]; [done|]. destruct (Z.eqb_spec c 126) as [->|]; [|done]. by destruct p.
Qed.

Lemma resolve_ok bu u bw l w bp p output capacity :
  cstr bu u -> zlen u < 63 -> cstr bw (cwd_string l w) -> is_lower l = true -> cstr bp p -> p <> [] ->
  zlen output = capacity -> 2 <= capacity <= 512 ->
  exists r, dogeshell_resolve_path bu (Some bw) (Some bp) output capacity = Some r /\
    match r with
    | Some o => exists letter, is_letter letter = true /\ cstr o (letter :: c_colon :: render (norm (doge_comps u w p)))
    | None => bad_drive is_lower p \/ capacity < zlen w + zlen p + 100
    end.
Proof.
  intros Hu Hlu Hbw Hl Hbp Hne Hcap Hc2. unfold dogeshell_resolve_path. pose proof (zlen_nonneg w). pose proof (zlen_nonneg p).
  pose proof (cstr_rd bp p 0 Hbp ltac:(lia)) as Er0. pose proof (home_ok bp p Hbp Hne) as Hhome.
  destruct p as [|a p0] eqn:Ep; [done|]. change (default 0 ((a :: p0) !! Z.to_nat 0)) with a in Er0.
  change (default 0 (head (a :: p0))) with a in Hhome. rewrite <- Ep in *. rewrite Er0. cbn [mbind option_bind].
  assert (a <> 0) as Ha by (apply cstr_nozero in Hbp; rewrite Ep in Hbp; by apply Forall_cons in Hbp as [? _]).
  rewrite (eqb_neq a 0 Ha). destruct (Z.ltb_spec capacity 2); [lia|]. cbn [orb].
  rewrite (has_drive_ok is_lower bp p Hbp eq_refl). cbn [mbind option_bind]. unfold doge_comps.
  destruct (drive_of is_lower p) as [[x p']|] eqn:Ed.
  - destruct (drive_of_drop _ _ _ _ Ed) as [Hx Hp']. rewrite Hp' in Ep. injection Ep as <- <-.
    destruct (home_of p) as [rest|] eqn:Eh; [by rewrite (home_no_drive p rest Eh) in Ed|].
    assert (negb (x =? 99) && negb (x =? 100) = bool_decide (x ∉ [67; 68; 99; 100])) as ->.
    { apply eq_true_iff_eq. rewrite bool_decide_eq_true, andb_true_iff, !negb_true_iff, !Z.eqb_neq, !not_elem_of_cons.
      pose proof (not_elem_of_nil x). unfold is_lower in Hx. apply andb_true_iff in Hx as [Hx1 Hx2].
      split; [intros []; split_and!; (lia || done) | intros (? & ? & ? & ? & _); lia]. }
    unfold bad_drive. rewrite Ed. destruct (decide (x ∉ [67; 68; 99; 100])) as [Hbad|Hgood];
      [rewrite bool_decide_eq_true_2 by done; exists None; split; [done | by left] | rewrite bool_decide_eq_false_2 by done].
    assert (cstr (drop 2 bp) p') as Hd by (rewrite Hp' in Hbp; apply (cstr_drop bp (x :: c_colon :: p') 2 Hbp); cbn; lia).
    assert (zlen p = zlen p' + 2) as Hlp by (rewrite Hp'; zs).
    destruct (combine_drive_ok dogeshell_append dogeshell_append_ok (drop 2 bp) p' Hd) as (r & E & Hr). unfold try. rewrite E.
    cbn [mbind option_bind]. destruct r as [c|]; [|exists None; split; [done | right; lia]].
    destruct Hr as (s & Hs & Hsegs & Hls).
    destruct (canonical_of_ok c s output capacity x Hs Hcap) as (r & Er & Hr); [lia | by apply letter_pos, lower_letter |].
    exists r. split; [done|]. destruct r as [o|]; [|right; lia]. exists x. split; [by apply lower_letter|].
    unfold comps. rewrite Ed, <- Hsegs. done.
  - destruct (split_cwd_ok is_lower id 67 bw l w Hbw Hl) as (b' & E & Hb'). rewrite E. cbn [mbind option_bind].
    rewrite Hhome. cbn [mbind option_bind]. destruct (home_of p) as [rest|] eqn:Eh; cbn iota.
    + destruct (home_path_ok bu u bp p rest output capacity (id l) Hu Hlu Hbp Eh Hcap Hc2) as (r & Er & Hr);
        [by apply letter_pos, lower_letter|].
      exists r. split; [exact Er|]. destruct r; [|right; lia]. exists l. split; [by apply lower_letter | done].
    + destruct (plain_path_ok dogeshell_append dogeshell_append_ok is_lower b' bp w p output capacity (id l) Hb' Hbp Hcap Hc2)
        as (r & Er & Hr); [by apply letter_pos, lower_letter | done | done |].
      rewrite Ep in Er. cbn [head] in Er. change (default 0 (Some a)) with a in Er.
      exists r. split; [exact Er|]. destruct r as [o|]; [|right; lia]. exists l. split; [by apply lower_letter | done].
Qed.

Lemma doge_comps_component u w p : nozero u -> nozero w -> nozero p -> Forall component (doge_comps u w p).
Proof.
  intros Hu Hw Hp. unfold doge_comps. destruct (home_of p) as [rest|] eqn:E; [|by apply comps_component].
  assert (nozero rest) as Hr.
  { unfold home_of in E. destruct p as [|c p]; [done|]. destruct (_ && _); [|done]. injection E as <-. by apply Forall_cons in Hp as [_ ?]. }
  apply Forall_app. split; [|by apply segs_component]. apply segs_component, nozero_app. split; [repeat constructor; done | done].
Qed.

(** dogeshell refuses exactly the blocked paths.  As for bash, where a path
    that is [~] or starts with [~/] is taken in the home directory of the user:
    an allowed path is not blocked for the user, the resolved path is its normal
    form, and every short path that is not blocked is allowed. *)
Theorem dogeshell_authorize_exact bu u bw l w bp p :
  cstr bu u -> zlen u < 63 -> cstr bw (cwd_string l w) -> is_lower l = true -> cstr bp p -> p <> [] ->
  exists r o, dogeshell_authorize_path bu (Some bw) (Some bp) (zeros 256) 256 = Some (r, o) /\
    (r = 1 -> ~ blocked u (norm (doge_comps u w p)) /\
       exists b letter, o = Some b /\ cstr b (letter :: c_colon :: render (norm (doge_comps u w p)))) /\
    (~ blocked u (norm (doge_comps u w p)) -> ~ bad_drive is_lower p -> zlen w + zlen p + 100 <= 256 -> r = 1).
Proof.
  intros Hu Hlu Hw Hl Hp Hne. unfold dogeshell_authorize_path.
  destruct (resolve_ok bu u bw l w bp p (zeros 256) 256 Hu Hlu Hw Hl Hp Hne eq_refl) as (r & -> & Hr); [lia|]. cbn [mbind option_bind].
  destruct r as [o|]; [|exists 0, None; split; [done|]; split; [done|]; intros _ ?; destruct Hr; [done | lia]].
  destruct Hr as (letter & Hletter & Ho).
  assert (Forall component (norm (doge_comps u w p))) as Hcomp.
  { apply norm_component; [constructor|].
    apply doge_comps_component; [by apply cstr_nozero in Hu | by apply (cwd_nozero bw l) | by apply cstr_nozero in Hp]. }
  rewrite (access_canonical bu u o letter _ Hu Hlu Hcomp Hletter Ho).
  cbn [mbind option_bind]. eexists _, _. split; [done|].
  destruct (decide (blocked _ _)); [by split|]. split; [|done]. intros _. split; [done|]. by exists o, letter.
Qed.

(** ** Canonical paths on concrete inputs

    Witnesses, and three ways in which the shells and the file system read a
    path differently. *)

Definition cwd : bytes := clit "c:/users/bob".

Lemma authorize_path_exact_witness :
  authorize_path (Some (clit "bob")) (Some cwd) (Some (clit "../.././system/x")) = Some 0 /\
  authorize_path (Some (clit "bob")) (Some cwd) (Some (clit "notes/../a.txt")) = Some 1.
Proof.
  split.
  - destruct (authorize_path_exact (clit "bob") (lit "bob") cwd 99 (lit "users/bob") (clit "../.././system/x") (lit "../.././system/x"))
      as (r & E & H1 & _); [lit_ok | vm_compute; reflexivity | lit_ok | reflexivity | lit_ok | done |].
    assert (r <> 1) as Hr.
    { intros ->. apply (H1 eq_refl). apply (bool_decide_unpack _). vm_compute. exact I. }
    revert E. vm_compute. intros [= <-]. reflexivity.
  - destruct (authorize_path_exact (clit "bob") (lit "bob") cwd 99 (lit "users/bob") (clit "notes/../a.txt") (lit "notes/../a.txt"))
      as (r & E & _ & H2); [lit_ok | vm_compute; reflexivity | lit_ok | reflexivity | lit_ok | done |].
    rewrite E, H2; [reflexivity | | | vm_compute; discriminate].
    + apply (bool_decide_unpack _). vm_compute. exact I.
    + intros [].
Defined.

Lemma dogeshell_authorize_exact_witness :
  exists r o, dogeshell_authorize_path (clit "bob") (Some cwd) (Some (clit "~/../alice")) (zeros 256) 256 = Some (r, o) /\ r <> 1.
Proof.
  destruct (dogeshell_authorize_exact (clit "bob") (lit "bob") cwd 99 (lit "users/bob") (clit "~/../alice") (lit "~/../alice"))
    as (r & o & E & H1 & _); [lit_ok | vm_compute; reflexivity | lit_ok | reflexivity | lit_ok | done |].
  exists r, o. split; [exact E|]. intros ->. destruct (H1 eq_refl) as [Hn _]. apply Hn. apply (bool_decide_unpack _). vm_compute. exact I.
Defined.

(** The README names drives [C:] and [D:]; dogeshell and the file system take only
    lower-case letters for drives, so [D:/files] is a path in the working
    directory. *)
Lemma upper_drive_is_relative :
  match dogeshell_resolve_path (clit "bob") (Some cwd) (Some (clit "D:/files")) (zeros 256) 256 with
  | Some (Some o) => take 23 o = clit "c:/users/bob/D:/files" ++ [0]
  | _ => False
  end.
Proof. vm_compute. reflexivity. Qed.

(** A path that starts with a blank is relative for bash, which allows it, and
    absolute for the file system, which drops the blank. *)
Lemma blank_path_escapes :
  authorize_path (Some (clit "bob")) (Some cwd) (Some (clit " /system/x")) = Some 1 /\
  match fs_split_path (clit " /system/x" ++ zeros 245) 256 256 with
  | Some (Some (parent, leaf)) => take 8 parent = clit "/system" /\ take 2 leaf = clit "x"
  | _ => False
  end.
Proof. split; [|split]; vm_compute; reflexivity. Qed.

(** Another spelling of a protected directory is allowed, and names the same
    directory on the disk. *)
Lemma case_escapes :
  authorize_path (Some (clit "bob")) (Some cwd) (Some (clit "/System/accounts")) = Some 1 /\
  exfat_name_equal (clit "system") (clit "System") = Some true.
Proof. split; vm_compute; reflexivity. Qed.
