(* ===== verification/ShellWords.v ===== *)
(** * Command words (kernel/dogeshell.c, apps/dogescript.c)

    [dogeshell_tokenize] and the first half of [tokenize_line] of the script
    interpreter are the same scanner: they differ in the characters that separate
    words and in the sizes of their arrays, which are parameters here.  The state
    of the scanner is the array [storage] that receives the words, each with its
    terminator; a word is named by its index in [storage].  [system_dogeshell_ex]
    splits a line at its semicolons and hands the words of each segment to the
    commands of the shell. *)

From S2P Require Import Prelude CMonad CString.

Definition c_dquote : Z := 34.
Definition c_dollar : Z := 36.
Definition c_squote : Z := 39.
Definition c_semicolon : Z := 59.
Definition c_backslash : Z := 92.

(** ** The scanner *)

Section Scan.
Variable is_space : Z -> bool.
Variable storage_size argument_capacity : Z.

(** [while (is_space(line[read_index])) read_index++;] *)
Fixpoint skip_spaces (line : bytes) : option bytes :=
  match line with
  | [] => None
  | c :: line' => if is_space c then skip_spaces line' else Some line
  end.

(** [if (write_index + 1 >= storage_size) return -1; storage[write_index] = character;] *)
Definition put_char (write_index character : Z) : M bytes unit := fun storage =>
  if storage_size <=? write_index + 1 then Some (Ret (-1), storage)
  else storage ← wr storage write_index character; Some (Val tt, storage).

(** The characters of one word: the rest of the line, the open quote and the
    next write index. *)
Fixpoint scan_word (line : bytes) (quote write_index : Z) : M bytes (bytes * Z * Z) :=
  match line with
  | [] => lift None
  | character :: line' =>
      if character =? 0 then mret (line, quote, write_index)
      else if (quote =? 0) && is_space character then mret (line, quote, write_index)
      else if (character =? c_backslash) && negb (quote =? c_squote) then
        match line' with
        | [] => lift None
        | character :: line'' =>
            if character =? 0 then exit (-1)
            else put_char write_index character;; scan_word line'' quote (write_index + 1)
        end
      else if negb (quote =? 0) then
        if character =? quote then scan_word line' 0 write_index
        else put_char write_index character;; scan_word line' quote (write_index + 1)
      else if (character =? c_squote) || (character =? c_dquote) then scan_word line' character write_index
      else put_char write_index character;; scan_word line' quote (write_index + 1)
  end.

(** The words of a line; each round reads a character, so the length of the line
    bounds the rounds. *)
Fixpoint scan_words (fuel : nat) (line : bytes) (write_index : Z) (arguments : list Z) : M bytes (list Z) :=
  match fuel with
  | O => lift None
  | S fuel' =>
      c ← lift (rd line 0);
      if c =? 0 then mret arguments else
      line ← lift (skip_spaces line);
      c ← lift (rd line 0);
      if c =? 0 then mret arguments else
      if (zlen arguments =? argument_capacity) || (storage_size <=? write_index) then exit (-1) else
      '(line, quote, stop) ← scan_word line 0 write_index;
      if negb (quote =? 0) || (storage_size <=? stop) then exit (-1) else
      (fun storage => storage ← wr storage stop 0; Some (Val tt, storage));;
      scan_words fuel' line (stop + 1) (arguments ++ [write_index])
  end.

Definition tokenize (line : bytes) : M bytes (list Z) := scan_words (length line) line 0 [].

End Scan.

(** ** Dogeshell *)

Definition DOGESHELL_LINE_SIZE : Z := 256.
Definition DOGESHELL_ARGUMENT_COUNT : Z := 24.

Definition shell_space (c : Z) : bool := (c =? c_space) || (c =? c_tab).

Definition dogeshell_tokenize (line : bytes) (storage_size argument_capacity : Z) : M bytes (list Z) :=
  tokenize shell_space storage_size argument_capacity line.

Definition dogeshell_copy (destination : bytes) (capacity : Z) (source : bytes) : option (Z * bytes) :=
  length ← strlen_loop source;
  if (capacity =? 0) || (capacity <=? length) then Some (-1, destination)
  else destination ← ncopy_loop destination 0 source (Z.to_nat (length + 1)); Some (0, destination).

(** What the shell calls: its history file and its commands, which are given the
    argument strings, and the messages it prints. *)
Class Commands (W : Type) := {
  dogeshell_append_history : W -> bytes -> option (Z * W);
  dogeshell_execute : W -> list bytes -> option (Z * W);
  dogeshell_exit_requested : W -> bool;
  dogeio_println : W -> bytes -> W;
}.

Record dogeshell (W : Type) := Dogeshell { d_world : W; dogeshell_last_status : Z }.
Arguments Dogeshell {W}.
Arguments d_world {W}.
Arguments dogeshell_last_status {W}.

(** The separators of the line, from index [i]; [inr] is the trailing escape. *)
Fixpoint find_separators (rest : bytes) (i input_length quote : Z) (separators : list Z)
  : option (list Z * Z + unit) :=
  if input_length <=? i then Some (inl (separators, quote))
  else match rest with
  | [] => None
  | character :: rest' =>
      if (character =? c_backslash) && negb (quote =? c_squote) then
        if i + 1 =? input_length then Some (inr tt)
        else match rest' with
             | [] => None
             | _ :: rest'' => find_separators rest'' (i + 2) input_length quote separators
             end
      else if negb (quote =? 0) then
        find_separators rest' (i + 1) input_length (if character =? quote then 0 else quote) separators
      else if (character =? c_squote) || (character =? c_dquote) then
        find_separators rest' (i + 1) input_length character separators
      else if character =? c_semicolon then
        if zlen separators <? DOGESHELL_LINE_SIZE
        then find_separators rest' (i + 1) input_length quote (separators ++ [i])
        else None
      else find_separators rest' (i + 1) input_length quote separators
  end.

Section Dogeshell.
Context {W : Type} `{Commands W}.

Definition say (text : string) : M (dogeshell W) unit := modify (fun s =>
  Dogeshell (dogeio_println (d_world s) (clit text)) (dogeshell_last_status s)).

Definition set_last (status : Z) : M (dogeshell W) unit := modify (fun s => Dogeshell (d_world s) status).

(** [dogeshell_last_status = status; return dogeshell_last_status;] *)
Definition finish {A} (status : Z) : M (dogeshell W) A := set_last status;; exit status.

Definition in_world {A} (f : W -> option (A * W)) : M (dogeshell W) A := fun s =>
  '(a, w) ← f (d_world s); Some (Val a, Dogeshell w (dogeshell_last_status s)).

(** One segment: [separators] are those from this segment on. *)
Fixpoint run_segments (separators : list Z) (input : bytes) (input_length segment_start status : Z)
  : M (dogeshell W) Z :=
  requested ← gets (fun s => dogeshell_exit_requested (d_world s));
  if (requested : bool) then mret status else
  let segment_end := match separators with separator :: _ => separator | [] => input_length end in
  input ← lift (wr input segment_end 0);
  '(r, storage) ← lift (dogeshell_tokenize (drop (Z.to_nat segment_start) input) DOGESHELL_LINE_SIZE
                          DOGESHELL_ARGUMENT_COUNT (zeros 256));
  match r with
  | Ret _ => say "Syntax error: too many arguments.";; finish 2
  | Val arguments =>
      status ← (if 0 <? zlen arguments then
                  status ← in_world (fun w =>
                    dogeshell_execute w ((fun start => drop (Z.to_nat start) storage) <$> arguments));
                  set_last status;; mret status
                else mret status);
      match separators with
      | [] => mret status
      | _ :: separators' => run_segments separators' input input_length (segment_end + 1) status
      end
  end.

Definition system_dogeshell_ex (command : option bytes) : M (dogeshell W) Z := fn (
  match command with
  | None => mret 0
  | Some command =>
      c ← lift (rd command 0);
      if c =? 0 then mret 0 else
      '(rc, input) ← lift (dogeshell_copy (zeros 256) DOGESHELL_LINE_SIZE command);
      if negb (rc =? 0) then say "Error: command is too long.";; finish 2 else
      rc ← in_world (fun w => dogeshell_append_history w input);
      (if negb (rc =? 0) then say "Warning: unable to save command history." else mret tt);;
      input_length ← lift (strlen_loop input);
      r ← lift (find_separators input 0 input_length 0 []);
      match r with
      | inr _ => say "Syntax error: trailing escape.";; finish 2
      | inl (separators, quote) =>
          if negb (quote =? 0) then say "Syntax error: unmatched quote.";; finish 2 else
          status ← run_segments separators input input_length 0 0;
          finish status
      end
  end).

End Dogeshell.
