(* ===== verification/ShellWordsProofs.v ===== *)
(** * The words of a command line

    [lex] is the reference: the words of a line as lists of characters, without
    arrays.  The scanner computes it exactly: it succeeds when the line is well
    quoted and the words fit, and the array then holds the words one after the
    other.  [quoted] is the inverse direction, a line whose words are given. *)

From S2P Require Import Prelude CMonad CString ShellWords.

(** ** The reference *)

Section Lex.
Variable is_space : Z -> bool.

(** The word at the start of a line inside the given quote, and what follows. *)
Fixpoint word (line : bytes) (quote : Z) : option (bytes * bytes) :=
  match line with
  | [] => if quote =? 0 then Some ([], []) else None
  | c :: line' =>
      if (quote =? 0) && is_space c then Some ([], line)
      else if (c =? c_backslash) && negb (quote =? c_squote) then
        match line' with
        | [] => None
        | c :: line'' => '(w, r) ← word line'' quote; Some (c :: w, r)
        end
      else if negb (quote =? 0) then
        if c =? quote then word line' 0 else '(w, r) ← word line' quote; Some (c :: w, r)
      else if (c =? c_squote) || (c =? c_dquote) then word line' c
      else '(w, r) ← word line' quote; Some (c :: w, r)
  end.

Fixpoint words (fuel : nat) (line : bytes) : option (list bytes) :=
  match drop_while is_space line with
  | [] => Some []
  | c :: line' =>
      match fuel with
      | O => None
      | S fuel' => '(w, r) ← word (c :: line') 0; ws ← words fuel' r; Some (w :: ws)
      end
  end.

Definition lex (line : bytes) : option (list bytes) := words (length line) line.
End Lex.

(** The words with their terminators, and where each of them starts. *)
Definition packed (ws : list bytes) : bytes := concat ((fun w => w ++ [0]) <$> ws).

Fixpoint starts (off : Z) (ws : list bytes) : list Z :=
  match ws with
  | [] => []
  | w :: ws => off :: starts (off + zlen w + 1) ws
  end.

(** A word and a line of words in double quotes. *)
Fixpoint escaped (w : bytes) : bytes :=
  match w with
  | [] => []
  | c :: w => if (c =? c_dquote) || (c =? c_backslash) then c_backslash :: c :: escaped w else c :: escaped w
  end.

Definition quoted_word (w : bytes) : bytes := c_dquote :: escaped w ++ [c_dquote].

Fixpoint quoted (ws : list bytes) : bytes :=
  match ws with
  | [] => []
  | [w] => quoted_word w
  | w :: ws => quoted_word w ++ c_space :: quoted ws
  end.

(** ** The scanner computes the reference *)

Lemma drop_while_le f s : (length (drop_while f s) <= length s)%nat.
Proof. induction s as [|c s IH]; cbn; [done|]. destruct (f c); cbn; lia. Qed.

Lemma drop_while_head f s c s' : drop_while f s = c :: s' -> f c = false.
Proof. induction s as [|d s IH]; cbn; [done|]. destruct (f d) eqn:Ed; [done | by intros [= -> _]]. Qed.

Lemma nozero_drop_while f s : nozero s -> nozero (drop_while f s).
Proof. induction s as [|c s IH]; intros Hs; cbn; [done|]. destruct (f c); [|done]. apply IH. by apply Forall_cons in Hs as [_ ?]. Qed.

Lemma packed_cons w ws : packed (w :: ws) = w ++ 0 :: packed ws.
Proof. unfold packed. cbn. by rewrite <- app_assoc. Qed.

Lemma zlen_starts off ws : zlen (starts off ws) = zlen ws.
Proof. revert off. induction ws as [|w ws IH]; intros off; [done|]. cbn [starts]. rewrite !zlen_cons, IH. done. Qed.

(** The word at a start. *)
Lemma starts_words ws p q :
  Forall nozero ws ->
  Forall2 (fun start w => cstr (drop (Z.to_nat start) (p ++ packed ws ++ q)) w) (starts (zlen p) ws) ws.
Proof.
  revert p. induction ws as [|w ws IH]; intros p Hws; cbn [starts]; [constructor|].
  apply Forall_cons in Hws as [Hw Hws]. constructor.
  - exists (packed ws ++ q). split; [|done]. rewrite drop_app_length' by zs. rewrite packed_cons. by rewrite <- app_assoc.
  - specialize (IH (p ++ w ++ [0]) Hws). rewrite packed_cons.
    replace (zlen p + zlen w + 1) with (zlen (p ++ w ++ [0])) by (rewrite !zlen_app; zs).
    by rewrite <- !app_assoc in *.
Qed.

Section Scanner.
Context (is_space : Z -> bool) (size cap : Z).
Hypothesis space_0 : is_space 0 = false.

Lemma put_char_spec p x q c :
  put_char size (zlen p) c (p ++ x :: q) =
  if zlen p + 1 <? size then Some (Val tt, p ++ c :: q) else Some (Ret (-1), p ++ x :: q).
Proof.
  unfold put_char. rewrite wr_mid. destruct (Z.ltb_spec (zlen p + 1) size), (Z.leb_spec size (zlen p + 1)); first [lia | done].
Qed.

(** A word and the tests after it. *)
Definition checked_word (line : bytes) (quote w : Z) : M bytes (bytes * Z) :=
  '(line, quote, stop) ← scan_word is_space size line quote w;
  if negb (quote =? 0) || (size <=? stop) then exit (-1) else mret (line, stop).

(** What [checked_word] does after [p] has been written. *)
Definition word_result (o : option (bytes * bytes)) (p t : bytes) (r : option (outcome (bytes * Z) * bytes)) : Prop :=
  match o with
  | Some (w, rest) =>
      if zlen p + zlen w <? size
      then exists q, r = Some (Val (rest ++ 0 :: t, zlen p + zlen w), p ++ w ++ q) /\ zlen (p ++ w ++ q) = size
      else exists b, r = Some (Ret (-1), b) /\ zlen b = size
  | None => exists b, r = Some (Ret (-1), b) /\ zlen b = size
  end.

(** One more character. *)
Lemma word_result_put line quote c o p q t :
  zlen (p ++ q) = size -> zlen p < size ->
  (forall p q, zlen (p ++ q) = size -> zlen p < size ->
     word_result o p t (checked_word line quote (zlen p) (p ++ q))) ->
  word_result ('(w, r) ← o; Some (c :: w, r)) p t
    ((put_char size (zlen p) c;; scan_word is_space size line quote (zlen p + 1)) ≫=
       (fun '(line, quote, stop) => if negb (quote =? 0) || (size <=? stop) then exit (-1) else mret (line, stop))
     $ (p ++ q)).
Proof.
  intros Hl Hp IH. destruct q as [|x q]; [rewrite app_nil_r in Hl; lia|].
  rewrite bind_assoc. pose proof (put_char_spec p x q c) as Eput. destruct (Z.ltb_spec (zlen p + 1) size) as [Hlt|Hge].
  - rewrite (bind_val _ _ _ _ _ Eput). specialize (IH (p ++ [c]) q). replace (zlen (p ++ [c])) with (zlen p + 1) in IH by (rewrite zlen_app; done).
    replace ((p ++ [c]) ++ q) with (p ++ c :: q) in IH by (by rewrite <- app_assoc).
    replace (zlen (p ++ c :: q)) with (zlen (p ++ x :: q)) in IH by (rewrite !zlen_app; done).
    specialize (IH Hl Hlt). fold (checked_word line quote (zlen p + 1)). unfold word_result in *.
    destruct o as [[w r]|]; cbn [mbind option_bind]; [|done].
    replace (zlen (p ++ [c]) + zlen w) with (zlen p + zlen (c :: w)) in IH by (rewrite zlen_app, zlen_cons; change (zlen [c]) with 1; lia).
    destruct (zlen p + zlen (c :: w) <? size); [|done]. destruct IH as (q' & E & Hq).
    exists q'. rewrite <- !app_assoc in *. done.
  - rewrite (bind_exit _ _ _ _ _ Eput). unfold word_result. destruct o as [[w r]|]; cbn [mbind option_bind]; [|by eexists].
    pose proof (zlen_nonneg w). rewrite zlen_cons, (proj2 (Z.ltb_ge _ _)) by lia. by eexists.
Qed.

Lemma checked_word_bind {A} line quote w (k : bytes * Z -> M bytes A) b :
  ('(line, quote, stop) ← scan_word is_space size line quote w;
   if negb (quote =? 0) || (size <=? stop) then exit (-1) else k (line, stop)) b =
  (checked_word line quote w ≫= k) b.
Proof.
  unfold checked_word. rewrite bind_assoc. unfold mbind, M_bind.
  destruct (scan_word _ _ _ _ _ b) as [[[[[l q] e]|rc] b']|]; [|done..]. by destruct (_ || _).
Qed.

Lemma checked_word_ok n s t quote p q :
  (length s <= n)%nat -> nozero s -> zlen (p ++ q) = size -> zlen p < size ->
  word_result (word is_space s quote) p t (checked_word (s ++ 0 :: t) quote (zlen p) (p ++ q)).
Proof.
  revert s quote p q. induction n as [|n IH]; intros s quote p q Hn Hs Hl Hp; destruct s as [|c s]; cbn in Hn; try lia.
  1,2: cbn [word app]; unfold checked_word; cbn [scan_word]; rewrite Z.eqb_refl, bind_ret;
    destruct (quote =? 0); cbn [negb orb];
    [rewrite (proj2 (Z.leb_gt _ _)) by lia; unfold word_result; change (zlen (@nil Z)) with 0;
     rewrite Z.add_0_r, (proj2 (Z.ltb_lt _ _)) by lia; by exists q | by eexists].
  apply Forall_cons in Hs as [Hc Hs]. cbn [word app]. unfold checked_word. cbn [scan_word]. rewrite (eqb_neq c 0 Hc).
  destruct ((quote =? 0) && is_space c) eqn:Esp.
  { apply andb_true_iff in Esp as [Eq _]. rewrite bind_ret, Eq. cbn [negb orb].
    rewrite (proj2 (Z.leb_gt _ _)) by lia. unfold word_result. change (zlen (@nil Z)) with 0.
    rewrite Z.add_0_r, (proj2 (Z.ltb_lt _ _)) by lia. by exists q. }
  destruct ((c =? c_backslash) && negb (quote =? c_squote)).
  { destruct s as [|c' s]; cbn [app]; [by eexists|]. apply Forall_cons in Hs as [Hc' Hs]. rewrite (eqb_neq c' 0 Hc').
    apply word_result_put; [done..|]. intros p' q' Hl' Hp'. apply IH; try done. cbn in Hn. lia. }
  destruct (negb (quote =? 0)).
  { destruct (c =? quote); [apply IH; try done; lia|].
    apply word_result_put; [done..|]. intros p' q' Hl' Hp'. apply IH; try done. lia. }
  destruct ((c =? c_squote) || (c =? c_dquote)); [apply IH; try done; lia|].
  apply word_result_put; [done..|]. intros p' q' Hl' Hp'. apply IH; try done. lia.
Qed.

(** Every character that is not a separator is part of a word. *)
Lemma word_rest_short s quote w r : word is_space s quote = Some (w, r) -> (length r <= length s)%nat.
Proof.
  assert (forall n s quote w r, (length s <= n)%nat -> word is_space s quote = Some (w, r) -> (length r <= length s)%nat) as Hn;
    [|eapply Hn; reflexivity].
  clear. induction n as [|n IH]; intros [|c s] quote w r Hl; cbn in Hl; try lia.
  1,2: cbn; destruct (quote =? 0); [intros [= <- <-]; cbn; lia | done].
  cbn [word]. destruct (_ && is_space c); [intros [= <- <-]; done|].
  assert (forall s' quote' w' r', (length s' <= length s)%nat -> ('(w, r) ← word is_space s' quote'; Some (w' :: w, r)) = Some (w, r') ->
    (length r' <= length (c :: s))%nat) as Hput.
  { intros s' quote' w' r' Hs'. destruct (word is_space s' quote') as [[w1 r1]|] eqn:E; cbn; [|done].
    intros [= _ <-]. apply IH in E; [cbn; lia | lia]. }
  destruct (_ && negb _).
  - destruct s as [|c' s]; [done|]. apply Hput. cbn. lia.
  - destruct (negb _); [destruct (c =? quote)|destruct (_ || _)]; first [by apply Hput | intros E; apply IH in E; cbn; lia].
Qed.

Lemma word_consumes c s w r :
  is_space c = false -> word is_space (c :: s) 0 = Some (w, r) -> (length r <= length s)%nat.
Proof.
  intros Hc. cbn [word]. rewrite Hc, andb_false_r.
  assert (forall s' w', (length s' <= length s)%nat -> ('(w, r) ← word is_space s' 0; Some (w' :: w, r)) = Some (w, r) ->
    (length r <= length s)%nat) as Hput.
  { intros s' w' Hs'. destruct (word is_space s' 0) as [[w1 r1]|] eqn:E; cbn; [|done].
    intros [= _ <-]. apply word_rest_short in E. lia. }
  destruct (_ && negb _).
  - destruct s as [|c' s]; [done|]. apply Hput. cbn. lia.
  - cbn [negb Z.eqb]. destruct (_ || _); [apply word_rest_short | by apply Hput].
Qed.

Lemma words_fuel n m s : (length s <= n)%nat -> (length s <= m)%nat -> words is_space n s = words is_space m s.
Proof.
  revert m s. induction n as [|n IH]; intros m s Hn Hm.
  { destruct s; [|cbn in Hn; lia]. by destruct m. }
  pose proof (drop_while_le is_space s) as Hd.
  destruct m as [|m]; [destruct s; [done | cbn in Hm; lia]|].
  cbn [words]. destruct (drop_while is_space s) as [|c s'] eqn:E; [done|]. cbn in Hd.
  destruct (word is_space (c :: s') 0) as [[w r]|] eqn:Ew; cbn; [|done].
  apply word_consumes in Ew.
  - rewrite (IH m r); [done | lia | lia].
  - by eapply drop_while_head.
Qed.

Lemma lex_eq s :
  lex is_space s =
  match drop_while is_space s with
  | [] => Some []
  | c :: s' => '(w, r) ← word is_space (c :: s') 0; ws ← lex is_space r; Some (w :: ws)
  end.
Proof.
  pose proof (drop_while_le is_space s) as Hd.
  unfold lex at 1. destruct s as [|d s]; [done|]. cbn [length words]. cbn [length] in Hd.
  destruct (drop_while is_space (d :: s)) as [|c s'] eqn:E; [done|]. cbn in Hd.
  destruct (word is_space (c :: s') 0) as [[w r]|] eqn:Ew; cbn [mbind option_bind]; [|done].
  apply word_consumes in Ew.
  - unfold lex. by rewrite (words_fuel (length s) (length r) r) by lia.
  - by eapply drop_while_head.
Qed.

Lemma skip_spaces_ok s t : nozero s -> skip_spaces is_space (s ++ 0 :: t) = Some (drop_while is_space s ++ 0 :: t).
Proof.
  induction s as [|c s IH]; intros Hs; cbn; [by rewrite space_0|]. apply Forall_cons in Hs as [Hc Hs].
  destruct (is_space c); [by apply IH | done].
Qed.

Lemma nozero_word s quote w r : word is_space s quote = Some (w, r) -> nozero s -> nozero w /\ nozero r.
Proof.
  assert (forall n s quote w r, (length s <= n)%nat -> word is_space s quote = Some (w, r) -> nozero s -> nozero w /\ nozero r) as Hn;
    [|eapply Hn; reflexivity].
  clear. induction n as [|n IH]; intros [|c s] quote w r Hl; cbn in Hl; try lia.
  1,2: cbn; destruct (quote =? 0); [intros [= <- <-]; split; constructor | done].
  cbn [word]. destruct (_ && is_space c); [intros [= <- <-] ?; by split; [constructor|]|].
  assert (forall s' quote' c', c' <> 0 -> nozero s' -> (length s' <= length s)%nat ->
    ('(w, r) ← word is_space s' quote'; Some (c' :: w, r)) = Some (w, r) -> nozero w /\ nozero r) as Hput.
  { intros s' quote' c' Hc' Hs' Hle. destruct (word is_space s' quote') as [[w1 r1]|] eqn:E; cbn; [|done].
    intros [= <- <-]. apply IH in E as [? ?]; [split; [by constructor | done] | lia | done]. }
  intros E [Hc Hs]%Forall_cons. revert E. destruct (_ && negb _).
  - destruct s as [|c' s]; [done|]. apply Forall_cons in Hs as [Hc' Hs]. apply Hput; [done..|cbn; lia].
  - destruct (negb _); [destruct (c =? quote)|destruct (_ || _)]; first [by apply Hput | intros E; eapply IH; [|done..]; lia].
Qed.

(** What the scanner does after the words [p] with the starts [args]. *)
Definition words_result (o : option (list bytes)) (args : list Z) (p : bytes) (r : option (outcome (list Z) * bytes)) : Prop :=
  match o with
  | Some ws =>
      if (zlen args + zlen ws <=? cap) && (zlen p + zlen (packed ws) <=? size)
      then exists q, r = Some (Val (args ++ starts (zlen p) ws), p ++ packed ws ++ q) /\ zlen (p ++ packed ws ++ q) = size
      else exists b, r = Some (Ret (-1), b) /\ zlen b = size
  | None => exists b, r = Some (Ret (-1), b) /\ zlen b = size
  end.

Lemma words_result_end args p q :
  zlen args <= cap -> zlen (p ++ q) = size -> words_result (Some []) args p (Some (Val args, p ++ q)).
Proof.
  intros Ha Hl. unfold words_result. change (zlen (@nil bytes)) with 0. change (zlen (packed [])) with 0.
  rewrite !Z.add_0_r, (proj2 (Z.leb_le _ _)) by done. rewrite zlen_app in Hl. pose proof (zlen_nonneg q).
  rewrite (proj2 (Z.leb_le _ _)) by lia. exists q. cbn. rewrite zlen_app, app_nil_r. split; [done | lia].
Qed.

(** A word that does not fit, or a missing quote. *)
Lemma words_result_fail (o : option (bytes * bytes)) args p b :
  zlen b = size -> zlen args <= cap ->
  match o with Some (w, r) => zlen args = cap \/ size <= zlen p + zlen w | None => True end ->
  words_result ('(w, r) ← o; ws ← lex is_space r; Some (w :: ws)) args p (Some (Ret (-1), b)).
Proof.
  intros Hb Ha Ho. destruct o as [[w r]|]; cbn [mbind option_bind]; [|by eexists].
  destruct (lex is_space r) as [ws|]; cbn [mbind option_bind]; [|by eexists]. unfold words_result.
  rewrite packed_cons, zlen_app, !zlen_cons.
  pose proof (zlen_nonneg ws). pose proof (zlen_nonneg (packed ws)). pose proof (zlen_nonneg w). pose proof (zlen_nonneg p).
  destruct (_ && _) eqn:E; [|by eexists]. apply andb_true_iff in E as [E1%Z.leb_le E2%Z.leb_le]. lia.
Qed.

Lemma words_result_cons o args p w r :
  words_result o (args ++ [zlen p]) (p ++ w ++ [0]) r ->
  words_result (ws ← o; Some (w :: ws)) args p r.
Proof.
  destruct o as [ws|]; cbn [mbind option_bind]; [|done]. unfold words_result. intros Hr.
  replace (zlen (args ++ [zlen p]) + zlen ws) with (zlen args + zlen (w :: ws)) in Hr
    by (rewrite zlen_app, zlen_cons; change (zlen [zlen p]) with 1; lia).
  assert (zlen (p ++ w ++ [0]) = zlen p + zlen w + 1) as Hpw by (rewrite !zlen_app; change (zlen [0]) with 1; lia).
  replace (zlen (p ++ w ++ [0]) + zlen (packed ws)) with (zlen p + zlen (packed (w :: ws))) in Hr
    by (rewrite Hpw, packed_cons, zlen_app, zlen_cons; lia).
  destruct (_ && _); [|done]. destruct Hr as (q & -> & Hq). exists q. cbn [starts]. rewrite packed_cons.
  rewrite Hpw in *. rewrite <- !app_assoc in *. done.
Qed.

Lemma scan_words_ok n s t args p q :
  (length s < n)%nat -> nozero s -> zlen args <= cap -> zlen (p ++ q) = size ->
  words_result (lex is_space s) args p (scan_words is_space size cap n (s ++ 0 :: t) (zlen p) args (p ++ q)).
Proof.
  revert s args p q. induction n as [|n IH]; intros s args p q Hn Hs Ha Hl; [lia|]. cbn [scan_words].
  rewrite lex_eq. destruct s as [|d s]; [by apply words_result_end|].
  rewrite (bind_lift _ d) by done. rewrite (eqb_neq d 0) by (by apply Forall_cons in Hs as [? _]).
  mlift (skip_spaces_ok (d :: s) t Hs). pose proof (nozero_drop_while is_space _ Hs) as Hs'.
  pose proof (drop_while_le is_space (d :: s)) as Hd.
  destruct (drop_while is_space (d :: s)) as [|c s'] eqn:E; [by apply words_result_end|]. cbn [app].
  assert (is_space c = false) as Hsp by (by eapply drop_while_head).
  rewrite (bind_lift _ c) by done. rewrite (eqb_neq c 0) by (by apply Forall_cons in Hs' as [? _]).
  pose proof (zlen_nonneg q) as Hq. assert (zlen p <= size) as Hp by (rewrite <- Hl, zlen_app; lia).
  destruct (_ || _) eqn:Efull.
  { apply words_result_fail; [done..|]. destruct (word is_space (c :: s') 0) as [[w r]|]; [|done].
    pose proof (zlen_nonneg w). apply orb_true_iff in Efull as [?%Z.eqb_eq|?%Z.leb_le]; lia. }
  apply orb_false_iff in Efull as [Hcap%Z.eqb_neq Hsz%Z.leb_gt].
  rewrite (checked_word_bind _ _ _ (fun '(line, stop) =>
    (fun storage => storage ← wr storage stop 0; Some (Val tt, storage));;
    scan_words is_space size cap n line (stop + 1) (args ++ [zlen p]))).
  pose proof (checked_word_ok (length (c :: s')) (c :: s') t 0 p q (le_n _) Hs' Hl Hsz) as Hw. unfold word_result in Hw.
  destruct (word is_space (c :: s') 0) as [[w r]|] eqn:Ew;
    [destruct (Z.ltb_spec (zlen p + zlen w) size) as [Hfit|Hbig]|].
  2,3: destruct Hw as (b & Eb & Hb); rewrite (bind_exit _ _ _ _ _ Eb);
    first [apply (words_result_fail (Some (w, r))); [done | done | by right] | by apply (words_result_fail None)].
  destruct Hw as (q' & Eb & Hb). mrun Eb. cbn [mbind option_bind].
  destruct (nozero_word _ _ _ _ Ew Hs') as [_ Hr]. pose proof (word_consumes _ _ _ _ Hsp Ew) as Hshort.
  destruct q' as [|x q']; [rewrite app_nil_r, zlen_app in Hb; lia|].
  assert (wr (p ++ w ++ x :: q') (zlen p + zlen w) 0 = Some ((p ++ w ++ [0]) ++ q')) as Ewr.
  { rewrite <- zlen_app, app_assoc, wr_mid. by rewrite <- !app_assoc. }
  rewrite (bind_val _ _ _ ((p ++ w ++ [0]) ++ q') tt) by (by rewrite Ewr).
  assert (zlen (p ++ w ++ [0]) = zlen p + zlen w + 1) as Hpw by (rewrite !zlen_app; change (zlen [0]) with 1; lia).
  rewrite <- Hpw. specialize (IH r (args ++ [zlen p]) (p ++ w ++ [0]) q'). cbn in Hn, Hd. cbn [length] in Hd.
  assert (words_result (lex is_space r) (args ++ [zlen p]) (p ++ w ++ [0])
    (scan_words is_space size cap n (r ++ 0 :: t) (zlen (p ++ w ++ [0])) (args ++ [zlen p]) ((p ++ w ++ [0]) ++ q'))) as Hrec.
  { apply IH; [lia | done | rewrite zlen_app; change (zlen [zlen p]) with 1; lia | rewrite <- Hb, !zlen_app, !zlen_cons; change (zlen (@nil Z)) with 0; lia]. }
  apply (words_result_cons _ _ _ _ _ Hrec).
Qed.
End Scanner.

(** The whole scanner, on an array of the declared size. *)
Lemma tokenize_ok is_space size cap line s storage :
  is_space 0 = false -> 0 <= cap -> cstr line s -> zlen storage = size ->
  words_result size cap (lex is_space s) [] [] (tokenize is_space size cap line storage).
Proof.
  intros H0 Hcap (t & -> & Hs) Hl. unfold tokenize.
  apply (scan_words_ok is_space size cap H0 _ s t [] [] storage); [rewrite length_app; cbn; lia | done | done | done].
Qed.

Lemma nozero_lex is_space s ws : lex is_space s = Some ws -> nozero s -> Forall nozero ws.
Proof.
  assert (forall n s ws, (length s <= n)%nat -> lex is_space s = Some ws -> nozero s -> Forall nozero ws) as Hn; [|by eapply Hn].
  clear. induction n as [|n IH]; intros s ws Hl; rewrite lex_eq.
  { destruct s; [|cbn in Hl; lia]. intros [= <-]. constructor. }
  intros E Hs. pose proof (drop_while_le is_space s) as Hd. pose proof (nozero_drop_while is_space s Hs) as Hs'.
  destruct (drop_while is_space s) as [|c s'] eqn:Ec; [by simplify_eq|].
  destruct (word is_space (c :: s') 0) as [[w r]|] eqn:Ew; [|done]. cbn [mbind option_bind] in E.
  destruct (lex is_space r) as [ws'|] eqn:El; [|done]. injection E as <-.
  destruct (nozero_word _ _ _ _ _ Ew Hs') as [Hw Hr]. constructor; [done|].
  apply (IH r); [|done..]. apply word_consumes in Ew; [cbn in Hd; lia | by eapply drop_while_head].
Qed.

(** C26: Dogeshell's tokenizer computes the words of the line.  On every line it
    stores exactly the words of the reference [lex] (quotes and backslashes
    removed), one after the other with their terminators, and returns where each
    starts; it returns -1 exactly when a quote or an escape is left open, or there
    are more words than arguments, or they do not fit the array.  It reads and
    writes nothing outside the line and the array. *)
Theorem dogeshell_tokenize_exact line s storage size cap :
  cstr line s -> zlen storage = size -> 0 <= cap ->
  match lex shell_space s with
  | Some ws =>
      if (zlen ws <=? cap) && (zlen (packed ws) <=? size)
      then exists q, dogeshell_tokenize line size cap storage = Some (Val (starts 0 ws), packed ws ++ q) /\
             zlen (packed ws ++ q) = size /\
             Forall2 (fun start w => cstr (drop (Z.to_nat start) (packed ws ++ q)) w) (starts 0 ws) ws
      else exists b, dogeshell_tokenize line size cap storage = Some (Ret (-1), b) /\ zlen b = size
  | None => exists b, dogeshell_tokenize line size cap storage = Some (Ret (-1), b) /\ zlen b = size
  end.
Proof.
  intros Hline Hz Hcap. pose proof (tokenize_ok shell_space size cap line s storage eq_refl Hcap Hline Hz) as Ht.
  unfold words_result in Ht. destruct (lex shell_space s) as [ws|] eqn:El; [|done].
  change (zlen (@nil Z)) with 0 in Ht. rewrite !Z.add_0_l in Ht. destruct (_ && _); [|done]. destruct Ht as (q & E & Hq).
  exists q. split_and!; [done..|]. apply (starts_words ws [] q). destruct Hline as (t & _ & Hs). by eapply nozero_lex.
Qed.

(** ** Quoted words *)

Section Quoted.
Variable is_space : Z -> bool.
Hypothesis space_space : is_space c_space = true.
Hypothesis space_dquote : is_space c_dquote = false.

Lemma word_escaped w rest :
  word is_space (escaped w ++ c_dquote :: rest) c_dquote =
  ('(w', r) ← word is_space rest 0; Some (w ++ w', r)).
Proof.
  induction w as [|c w IH]; [cbn; by destruct (word is_space rest 0) as [[? ?]|]|].
  cbn [escaped]. destruct ((c =? c_dquote) || (c =? c_backslash)) eqn:Ec; cbn [app].
  - cbn [word]. change ((c_dquote =? 0) && is_space c_backslash) with false. cbn -[word escaped]. rewrite IH.
    by destruct (word is_space rest 0) as [[? ?]|].
  - apply orb_false_iff in Ec as [Ed Eb]. cbn [word]. change (c_dquote =? 0) with false. rewrite Ed, Eb. cbn [andb negb].
    rewrite IH. by destruct (word is_space rest 0) as [[? ?]|].
Qed.

Lemma word_quoted w rest :
  (rest = [] \/ exists r, rest = c_space :: r) -> word is_space (quoted_word w ++ rest) 0 = Some (w, rest).
Proof.
  intros Hr. unfold quoted_word. cbn [app word]. rewrite space_dquote. cbn [andb]. cbn -[word escaped].
  rewrite <- app_assoc. cbn [app]. rewrite word_escaped.
  assert (word is_space rest 0 = Some ([], rest)) as ->; [|cbn; by rewrite app_nil_r].
  destruct Hr as [->|(r & ->)]; [done|]. cbn [word]. by rewrite space_space.
Qed.

(** Quoting is undone by the scanner. *)
Lemma lex_quoted ws : lex is_space (quoted ws) = Some ws.
Proof.
  induction ws as [|w ws IH]; [done|]. rewrite lex_eq.
  destruct ws as [|w' ws].
  - cbn [quoted quoted_word drop_while]. rewrite space_dquote. fold (quoted_word w).
    pose proof (word_quoted w [] (or_introl eq_refl)) as E. rewrite app_nil_r in E. rewrite E. done.
  - change (quoted (w :: w' :: ws)) with (quoted_word w ++ c_space :: quoted (w' :: ws)).
    cbn [quoted_word app drop_while]. rewrite space_dquote.
    change (c_dquote :: (escaped w ++ [c_dquote]) ++ c_space :: quoted (w' :: ws))
      with (quoted_word w ++ c_space :: quoted (w' :: ws)).
    rewrite word_quoted by (right; by eexists). cbn [mbind option_bind].
    rewrite lex_eq. cbn [drop_while]. rewrite space_space, <- lex_eq, IH. done.
Qed.

End Quoted.

Lemma nozero_quoted ws : Forall nozero ws -> nozero (quoted ws).
Proof.
  assert (forall w, nozero w -> nozero (quoted_word w)) as Hq.
  { intros w Hw. constructor; [done|]. apply Forall_app. split; [|by constructor].
    induction Hw as [|c w Hc Hw IH]; [constructor|]. cbn. destruct (_ || _); repeat (constructor; [done|]); done. }
  induction ws as [|w ws IH]; intros Hws; [constructor|]. apply Forall_cons in Hws as [Hw Hws].
  destruct ws as [|w' ws]; [by apply Hq|]. apply Forall_app. split; [by apply Hq|]. constructor; [done | by apply IH].
Qed.

Lemma zlen_escaped w : zlen w <= zlen (escaped w).
Proof. induction w as [|c w IH]; [done|]. cbn. destruct (_ || _); rewrite !zlen_cons; lia. Qed.

Lemma zlen_packed_quoted ws : zlen (packed ws) <= zlen (quoted ws).
Proof.
  induction ws as [|w ws IH]; [done|]. rewrite packed_cons, zlen_app, zlen_cons. pose proof (zlen_escaped w).
  destruct ws as [|w' ws]; [change (zlen (packed [])) with 0|change (quoted (w :: w' :: ws)) with (quoted_word w ++ c_space :: quoted (w' :: ws)); rewrite zlen_app, zlen_cons];
    cbn [quoted] in *; unfold quoted_word in *; rewrite zlen_cons, zlen_app in *; change (zlen [c_dquote]) with 1 in *; lia.
Qed.

(** No separator is seen inside quotes. *)
Lemma separators_escaped w rest i n :
  i + zlen (escaped w) + 1 <= n ->
  find_separators (escaped w ++ c_dquote :: rest) i n c_dquote [] =
  find_separators rest (i + zlen (escaped w) + 1) n 0 [].
Proof.
  revert i. induction w as [|c w IH]; intros i Hi; cbn [escaped app] in *.
  { change (zlen (@nil Z)) with 0 in *. cbn [find_separators]. rewrite (proj2 (Z.leb_gt _ _)) by lia. cbn. f_equal. lia. }
  pose proof (zlen_nonneg (escaped w)).
  destruct ((c =? c_dquote) || (c =? c_backslash)) eqn:Ec; cbn [app]; rewrite !zlen_cons in *; cbn [find_separators];
    rewrite (proj2 (Z.leb_gt _ _)) by lia.
  - cbn -[find_separators escaped]. rewrite eqb_neq by lia. rewrite IH by lia. f_equal. lia.
  - apply orb_false_iff in Ec as [Ed Eb]. rewrite Eb, Ed. cbn -[find_separators escaped].
    rewrite IH by lia. f_equal. lia.
Qed.

Lemma separators_quoted ws rest i n :
  i + zlen (quoted ws) <= n ->
  find_separators (quoted ws ++ rest) i n 0 [] = find_separators rest (i + zlen (quoted ws)) n 0 [].
Proof.
  assert (forall w rest i, i + zlen (quoted_word w) <= n ->
    find_separators (quoted_word w ++ rest) i n 0 [] = find_separators rest (i + zlen (quoted_word w)) n 0 []) as Hq.
  { clear. intros w rest i Hi. unfold quoted_word in *. cbn [app]. rewrite zlen_cons, zlen_app in *. change (zlen [c_dquote]) with 1 in *.
    pose proof (zlen_nonneg (escaped w)). cbn [find_separators]. rewrite (proj2 (Z.leb_gt _ _)) by lia. cbn -[find_separators escaped].
    rewrite <- app_assoc. cbn [app]. rewrite separators_escaped by lia. f_equal. lia. }
  revert i. induction ws as [|w ws IH]; intros i Hi; [change (zlen (quoted [])) with 0; by rewrite Z.add_0_r|].
  destruct ws as [|w' ws]; [by apply Hq|].
  change (quoted (w :: w' :: ws)) with (quoted_word w ++ c_space :: quoted (w' :: ws)) in *.
  rewrite zlen_app, zlen_cons in *. pose proof (zlen_nonneg (quoted (w' :: ws))). rewrite <- app_assoc. rewrite Hq by lia.
  cbn [app find_separators]. rewrite (proj2 (Z.leb_gt _ _)) by lia. cbn -[find_separators quoted].
  rewrite IH by lia. f_equal. lia.
Qed.

(** ** Dogeshell runs exactly the quoted words *)

Section Run.
Context {W : Type} `{Commands W}.

(** The world in which the command runs: the line is in the history, and a failure
    to store it was reported. *)
Definition recorded (rc : Z) (w : W) : W :=
  if negb (rc =? 0) then dogeio_println w (clit "Warning: unable to save command history.") else w.

Lemma dogeshell_quoted ws command (s : dogeshell W) :
  Forall nozero ws -> ws <> [] -> cstr command (quoted ws) ->
  zlen (quoted ws) < DOGESHELL_LINE_SIZE -> zlen ws <= DOGESHELL_ARGUMENT_COUNT ->
  exists line arguments, cstr line (quoted ws) /\ Forall2 cstr arguments ws /\
  forall rc w status w',
    dogeshell_append_history (d_world s) line = Some (rc, w) ->
    dogeshell_exit_requested (recorded rc w) = false ->
    dogeshell_execute (recorded rc w) arguments = Some (status, w') ->
    system_dogeshell_ex (Some command) s = Some (Val status, Dogeshell w' status).
Proof.
  intros Hws Hne Hcmd Hlen Hcount. pose proof (nozero_quoted ws Hws) as Hq. pose proof (zlen_packed_quoted ws) as Hpk.
  destruct (blit_total (zeros 256) (quoted ws ++ [0]) 0) as [line El].
  { lia. } { rewrite zlen_app. unfold zeros. rewrite zlen_replicate. unfold DOGESHELL_LINE_SIZE in Hlen. change (zlen [0]) with 1. lia. }
  pose proof (cstr_blit _ _ _ Hq El) as Hline.
  pose proof (blit_zlen _ _ _ _ El) as Hsize. unfold zeros in Hsize. rewrite zlen_replicate in Hsize.
  assert (wr line (zlen (quoted ws)) 0 = Some line) as Hend.
  { destruct Hline as (t & -> & _). by rewrite wr_mid. }
  pose proof (tokenize_ok shell_space DOGESHELL_LINE_SIZE DOGESHELL_ARGUMENT_COUNT line (quoted ws) (zeros 256)
    eq_refl ltac:(done) Hline eq_refl) as Htok.
  rewrite lex_quoted in Htok by done. unfold words_result in Htok. cbn [app] in Htok. change (zlen (@nil Z)) with 0 in Htok.
  rewrite !Z.add_0_l, !(proj2 (Z.leb_le _ _)) in Htok by lia. destruct Htok as (rest & Etok & Hrest).
  pose proof (starts_words ws [] rest Hws) as Hst. cbn [app] in Hst. change (zlen (@nil Z)) with 0 in Hst.
  exists line, ((fun start => drop (Z.to_nat start) (packed ws ++ rest)) <$> starts 0 ws).
  split; [done|]. split; [by apply Forall2_fmap_l|]. intros rc w status w' Eh Ex Ee.
  unfold system_dogeshell_ex. apply fn_exit.
  destruct (quoted ws) as [|c0 q0] eqn:Eq0; [destruct ws as [|? [|? ?]]; done|]. rewrite <- Eq0 in *.
  assert (exists c, rd command 0 = Some c /\ c <> 0) as (c & Ec & Hc).
  { destruct Hcmd as (t & -> & _). rewrite Eq0 in *. apply Forall_cons in Hq as [? _]. by exists c0. }
  mlift Ec. rewrite (eqb_neq c 0 Hc).
  assert (dogeshell_copy (zeros 256) DOGESHELL_LINE_SIZE command = Some (0, line)) as Ecopy.
  { change (strncpy_body (zeros 256) command DOGESHELL_LINE_SIZE = Some (0, line)). rewrite (strncpy_fits _ _ (quoted ws)) by done. by rewrite El. }
  mlift Ecopy. cbn [negb Z.eqb].
  rewrite (bind_val _ _ _ (Dogeshell w (dogeshell_last_status s)) rc) by (unfold in_world; by rewrite Eh).
  rewrite (bind_val _ _ _ (Dogeshell (recorded rc w) (dogeshell_last_status s)) tt) by (unfold recorded; by destruct (negb _)).
  mlift (strlen_cstr _ _ Hline).
  assert (find_separators line 0 (zlen (quoted ws)) 0 [] = Some (inl ([], 0))) as Esep.
  { destruct Hline as (t & -> & _). rewrite separators_quoted by lia. rewrite Z.add_0_l. cbn. by rewrite Z.leb_refl. }
  mlift Esep. cbn [negb Z.eqb].
  rewrite (bind_val _ _ _ (Dogeshell w' status) status); [done|].
  cbn [run_segments]. rewrite bind_gets. cbn [d_world]. rewrite Ex. mlift Hend. cbn [drop Z.to_nat].
  unfold dogeshell_tokenize. mlift Etok. rewrite zlen_starts, (proj2 (Z.ltb_lt _ _)) by (destruct ws; [done|rewrite zlen_cons; pose proof (zlen_nonneg ws); lia]).
  unfold in_world, mbind, M_bind. cbn [d_world dogeshell_last_status]. by rewrite Ee.
Qed.
End Run.
