(* ===== verification/Script.v ===== *)
(** * The script interpreter (apps/dogescript.c)

    The statics of the program and the locals of [run_script] whose address it
    passes on are the record [script]; the operating system behind the system
    calls is a parameter [W] of class [ScriptOs].  [tokens[i]] always points to
    [expanded_tokens[i]] once a line is tokenized, so the tokens of a line are that
    array.  A text under construction is its buffer and its length ([out]).  A
    buffer that the source leaves uninitialised holds zeros here: each cell is
    written before it is read. *)

From S2P Require Import Prelude CMonad CString ShellWords.

Definition DOGESCRIPT_MAX_SCRIPT_SIZE : Z := 1048576.
Definition DOGESCRIPT_MAX_LINE_SIZE : Z := 256.
Definition DOGESCRIPT_READ_BUFFER_SIZE : Z := 512.
Definition DOGESCRIPT_MAX_TOKENS : Z := 16.
Definition DOGESCRIPT_MAX_SHELL_COMMAND_SIZE : Z := 4096.
Definition DOGESCRIPT_MAX_VARIABLES : Z := 32.
Definition DOGESCRIPT_VARIABLE_NAME_SIZE : Z := 32.
Definition DOGESCRIPT_VARIABLE_VALUE_SIZE : Z := 256.
Definition DOGESCRIPT_MAX_LOOP_DEPTH : Z := 32.
Definition DOGESCRIPT_MAX_STEPS : Z := 500000.
Definition DOGESCRIPT_MAX_REPEAT : Z := 100000.
Definition INT64_MAX : Z := 9223372036854775807.
Definition INT64_MIN : Z := -9223372036854775808.

Definition c_hash : Z := 35.
Definition c_lbrace : Z := 123.
Definition c_rbrace : Z := 125.
Definition c_underscore : Z := 95.

Record dogescript_variable_t := Var { v_name : bytes; v_value : bytes }.

Inductive loop_kind_t := LOOP_WHILE | LOOP_REPEAT.
#[global] Instance loop_kind_eq_dec : EqDecision loop_kind_t.
Proof. solve_decision. Defined.

Record loop_frame_t := LoopFrame {
  kind : loop_kind_t; start_offset : Z; body_offset : Z; end_offset : Z; after_end_offset : Z; remaining : Z;
}.

Record script_reader_t := Reader {
  r_path : bytes; file_size : Z; cache_start : Z; cache_length : Z; cache : bytes;
}.

(** The system calls: results are [uint64_t]; a call that stores through a pointer
    also yields what it stored. *)
Class ScriptOs (W : Type) := {
  os_stat : W -> bytes -> Z * option (Z * Z * Z) * W;   (* size, is_dir, exists *)
  os_file_exists : W -> bytes -> Z * W;
  os_read_file : W -> bytes -> Z -> Z * bytes * W;
  os_read_file_at : W -> bytes -> Z -> Z -> Z * bytes * W;
  os_write_file : W -> bytes -> bytes -> Z * W;
  os_append_file : W -> bytes -> bytes -> Z * W;
  os_input : W -> bytes -> Z -> Z * bytes * W;
  os_get_cwd : W -> Z -> Z * bytes * W;
  os_print : W -> bytes -> W;
  os_shell : W -> bytes -> Z * W;
}.

Record script (W : Type) := Script {
  variables : list dogescript_variable_t;
  variable_count : Z;
  active_argc : Z;
  active_argv : list (option bytes);
  active_script_path : bytes;
  token_storage : bytes;
  expanded_tokens : list bytes;
  argument_text : bytes;
  reader : script_reader_t;
  exit_requested : bool;
  exit_status : Z;
  os : W;
}.
Arguments Script {W}.
Arguments variables {W}.
Arguments variable_count {W}.
Arguments active_argc {W}.
Arguments active_argv {W}.
Arguments active_script_path {W}.
Arguments token_storage {W}.
Arguments expanded_tokens {W}.
Arguments argument_text {W}.
Arguments reader {W}.
Arguments exit_requested {W}.
Arguments exit_status {W}.
Arguments os {W}.

(** ** Text *)

Definition text_length (text : option bytes) : option Z :=
  match text with None => Some 0 | Some text => strlen_loop text end.

Definition text_equal (left right : bytes) : option bool :=
  c ← str_strcmp left right; Some (c =? 0).

Definition is_space (character : Z) : bool :=
  (character =? c_space) || (character =? c_tab) || (character =? c_cr).

(** [while ( *text ) destination[position++] = *text++;] *)
Fixpoint append_text (destination : bytes) (position : Z) (text : bytes) : option (Z * bytes) :=
  match text with
  | [] => None
  | c :: text' =>
      if c =? 0 then Some (position, destination)
      else destination ← wr destination position c; append_text destination (position + 1) text'
  end.

Record out := Out { o_text : bytes; o_length : Z }.

Definition append_checked (capacity character : Z) : M out unit := fun o =>
  if capacity <=? o_length o + 1 then Some (Ret (-1), o)
  else
    text ← wr (o_text o) (o_length o) character;
    text ← wr text (o_length o + 1) 0;
    Some (Val tt, Out text (o_length o + 1)).

Definition copy_text (destination : option bytes) (capacity : Z) (source : option bytes) : option (Z * option bytes) :=
  match destination, source with
  | Some destination, Some source =>
      if capacity =? 0 then Some (-1, Some destination)
      else
        length ← text_length (Some source);
        if capacity <=? length then Some (-1, Some destination)
        else destination ← ncopy_loop destination 0 source (Z.to_nat (length + 1)); Some (0, Some destination)
  | _, _ => Some (-1, destination)
  end.

(** The calls of [copy_text] pass arrays. *)
Definition copy_array (destination : bytes) (capacity : Z) (source : bytes) : option (Z * bytes) :=
  '(rc, d) ← copy_text (Some destination) capacity (Some source);
  match d with Some d => Some (rc, d) | None => None end.

(** [for (i = 0; i < capacity; i++) buffer[i] = 0;] *)
Fixpoint clear_loop (k : nat) (i : Z) (buffer : bytes) : option bytes :=
  match k with
  | O => Some buffer
  | S k' => buffer ← wr buffer i 0; clear_loop k' (i + 1) buffer
  end.

Definition clear_text (buffer : bytes) (capacity : Z) : option bytes := clear_loop (Z.to_nat capacity) 0 buffer.

Definition is_lower (c : Z) : bool := (97 <=? c) && (c <=? 122).
Definition is_upper (c : Z) : bool := (65 <=? c) && (c <=? 90).
Definition is_name_start (c : Z) : bool := is_lower c || is_upper c || (c =? c_underscore).
Definition is_name_char (c : Z) : bool := is_lower c || is_upper c || is_digit c || (c =? c_underscore).

(** [for (i = 1; name[i] != 0; i++)] *)
Fixpoint name_chars_valid (name : bytes) : option bool :=
  match name with
  | [] => None
  | c :: name' => if c =? 0 then Some true else if negb (is_name_char c) then Some false else name_chars_valid name'
  end.

Definition variable_name_valid (name : bytes) : option bool :=
  c ← rd name 0;
  if (c =? 0) || negb (is_name_start c) then Some false else name_chars_valid (drop 1 name).

(** ** Numbers *)

Fixpoint parse_digits (text : bytes) (limit number : Z) : option (option Z) :=
  match text with
  | [] => None
  | c :: text' =>
      if c =? 0 then Some (Some number)
      else if (c <? c_0) || (c_9 <? c) then Some None
      else
        let digit := c - c_0 in
        if u64 (limit - digit) / 10 <? number then Some None
        else parse_digits text' limit (u64 (number * 10 + digit))
  end.

(** [Some None] is the return value -1; otherwise the value stored. *)
Definition parse_integer (text : bytes) : option (option Z) :=
  c ← rd text 0;
  let signed := (c =? c_minus) || (c =? c_plus) in
  let negative := c =? c_minus in
  let text := if signed then drop 1 text else text in
  c ← rd text 0;
  if c =? 0 then Some None
  else
    let limit := if negative then u64 (INT64_MAX + 1) else INT64_MAX in
    r ← parse_digits text limit 0;
    Some (number ← r;
          Some (if negative && (number =? u64 (INT64_MAX + 1)) then INT64_MIN
                else if negative then - s64 number
                else s64 number)).

(** [for (i = 0; digits[i] != 0 && position + 1 < capacity; i++)] *)
Fixpoint format_loop (digits buffer : bytes) (position capacity : Z) : option (Z * bytes) :=
  match digits with
  | [] => None
  | d :: digits' =>
      if negb (d =? 0) && (position + 1 <? capacity)
      then buffer ← wr buffer position d; format_loop digits' buffer (position + 1) capacity
      else Some (position, buffer)
  end.

Definition format_integer (buffer : bytes) (capacity value : Z) : option (Z * bytes) :=
  let magnitude := if value <? 0 then u64 (u64 (- (value + 1)) + 1) else u64 value in
  digits ← str_u64toa magnitude (zeros 21);
  '(position, buffer) ← (if (value <? 0) && (0 + 1 <? capacity)
                         then buffer ← wr buffer 0 c_minus; Some (1, buffer)
                         else Some (0, buffer));
  '(position, buffer) ← format_loop digits buffer position capacity;
  buffer ← wr buffer position 0;
  Some (position, buffer).

Definition compare_values (left right : bytes) : option Z :=
  l ← parse_integer left;
  match l with
  | None => str_strcmp left right
  | Some left_number =>
      r ← parse_integer right;
      match r with
      | None => str_strcmp left right
      | Some right_number =>
          Some (if left_number <? right_number then -1 else if right_number <? left_number then 1 else 0)
      end
  end.

(** ** The fields of the state *)

Section Fields.
Context {W : Type}.
Implicit Type s : script W.

Definition set_variables (v : list dogescript_variable_t) (n : Z) s : script W :=
  Script v n (active_argc s) (active_argv s) (active_script_path s) (token_storage s) (expanded_tokens s)
    (argument_text s) (reader s) (exit_requested s) (exit_status s) (os s).
Definition set_active (argc : Z) (argv : list (option bytes)) (path : bytes) s : script W :=
  Script (variables s) (variable_count s) argc argv path (token_storage s) (expanded_tokens s)
    (argument_text s) (reader s) (exit_requested s) (exit_status s) (os s).
Definition set_token_storage (b : bytes) s : script W :=
  Script (variables s) (variable_count s) (active_argc s) (active_argv s) (active_script_path s) b (expanded_tokens s)
    (argument_text s) (reader s) (exit_requested s) (exit_status s) (os s).
Definition set_expanded (t : list bytes) s : script W :=
  Script (variables s) (variable_count s) (active_argc s) (active_argv s) (active_script_path s) (token_storage s) t
    (argument_text s) (reader s) (exit_requested s) (exit_status s) (os s).
Definition set_argument_text (b : bytes) s : script W :=
  Script (variables s) (variable_count s) (active_argc s) (active_argv s) (active_script_path s) (token_storage s)
    (expanded_tokens s) b (reader s) (exit_requested s) (exit_status s) (os s).
Definition set_reader (r : script_reader_t) s : script W :=
  Script (variables s) (variable_count s) (active_argc s) (active_argv s) (active_script_path s) (token_storage s)
    (expanded_tokens s) (argument_text s) r (exit_requested s) (exit_status s) (os s).
Definition set_exit (b : bool) (status : Z) s : script W :=
  Script (variables s) (variable_count s) (active_argc s) (active_argv s) (active_script_path s) (token_storage s)
    (expanded_tokens s) (argument_text s) (reader s) b status (os s).
Definition set_os (w : W) s : script W :=
  Script (variables s) (variable_count s) (active_argc s) (active_argv s) (active_script_path s) (token_storage s)
    (expanded_tokens s) (argument_text s) (reader s) (exit_requested s) (exit_status s) w.

End Fields.

Section Interpreter.
Context {W : Type} `{ScriptOs W}.

Abbreviation I := (M (script W)).

Definition call {A} (f : W -> A * W) : I A := fun s => let '(a, w) := f (os s) in Some (Val a, set_os w s).

Definition print (text : bytes) : I unit := modify (fun s => set_os (os_print (os s) text) s).
Definition println (text : bytes) : I unit := print text;; print (clit "
").
Definition say (text : string) : I unit := println (clit text).

(** ** Variables *)

(** [for (i = 0; name[i] != 0; i++)] of [get_variable] *)
Fixpoint index_loop (name : bytes) (argc index : Z) : option Z :=
  match name with
  | [] => None
  | c :: name' =>
      if c =? 0 then Some index
      else if negb (is_digit c) then Some 0
      else
        let index := u64 (index * 10 + (c - c_0)) in
        if argc <? index then Some index else index_loop name' argc index
  end.

(** [for (i; i < variable_count; i++) if (text_equal(name, variables[i].name))]:
    the index found. *)
Fixpoint find_variable (k : nat) (i : Z) (vars : list dogescript_variable_t) (name : bytes) : option (option Z) :=
  match k with
  | O => Some None
  | S k' =>
      v ← rd vars i;
      equal ← text_equal name (v_name v);
      if (equal : bool) then Some (Some i) else find_variable k' (i + 1) vars name
  end.

Definition lookup_variable (name : bytes) : I (option Z) := fun s =>
  r ← find_variable (Z.to_nat (variable_count s)) 0 (variables s) name; Some (Val r, s).

Definition get_variable (name : bytes) (argc : Z) (argv : list (option bytes)) (script_path : bytes) : I bytes :=
  zero ← lift (text_equal name (clit "0"));
  if (zero : bool) then mret script_path else
  is_argc ← lift (text_equal name (clit "argc"));
  if (is_argc : bool) then
    text ← gets argument_text;
    text ← lift (str_u64toa (u64 (argc - 1)) text);
    modify (set_argument_text text);;
    mret text
  else
  c ← lift (rd name 0);
  if (49 <=? c) && (c <=? c_9) then
    index ← lift (index_loop name argc 0);
    if (0 <? index) && (index <? argc) then
      argument ← lift (rd argv index);
      mret (match argument with Some argument => argument | None => clit "" end)
    else mret (clit "")
  else
  found ← lookup_variable name;
  match found with
  | Some i => vars ← gets variables; v ← lift (rd vars i); mret (v_value v)
  | None => mret (clit "")
  end.

Definition set_variable (name value : bytes) : I Z :=
  valid ← lift (variable_name_valid name);
  if negb (valid : bool) then mret (-1) else
  value_length ← lift (text_length (Some value));
  if DOGESCRIPT_VARIABLE_VALUE_SIZE <=? value_length then mret (-1) else
  found ← lookup_variable name;
  vars ← gets variables;
  count ← gets variable_count;
  match found with
  | Some i =>
      v ← lift (rd vars i);
      '(rc, text) ← lift (copy_array (v_value v) DOGESCRIPT_VARIABLE_VALUE_SIZE value);
      vars ← lift (wr vars i (Var (v_name v) text));
      modify (set_variables vars count);;
      mret rc
  | None =>
      if count =? DOGESCRIPT_MAX_VARIABLES then mret (-1) else
      v ← lift (rd vars count);
      '(rc, text) ← lift (copy_array (v_name v) DOGESCRIPT_VARIABLE_NAME_SIZE name);
      vars ← lift (wr vars count (Var text (v_value v)));
      modify (set_variables vars count);;
      if negb (rc =? 0) then mret (-1) else
      v ← lift (rd vars count);
      '(rc, text) ← lift (copy_array (v_value v) DOGESCRIPT_VARIABLE_VALUE_SIZE value);
      vars ← lift (wr vars count (Var (v_name v) text));
      modify (set_variables vars count);;
      if negb (rc =? 0) then mret (-1) else
      modify (set_variables vars (count + 1));;
      mret 0
  end.

(** [for (j; j < variable_count; j++)]: move variable [j] one place down. *)
Fixpoint shift_down (k : nat) (j : Z) (vars : list dogescript_variable_t) : option (list dogescript_variable_t) :=
  match k with
  | O => Some vars
  | S k' =>
      v ← rd vars j;
      below ← rd vars (j - 1);
      '(_, name) ← copy_array (v_name below) DOGESCRIPT_VARIABLE_NAME_SIZE (v_name v);
      '(_, value) ← copy_array (v_value below) DOGESCRIPT_VARIABLE_VALUE_SIZE (v_value v);
      vars ← wr vars (j - 1) (Var name value);
      shift_down k' (j + 1) vars
  end.

Definition unset_variable (name : bytes) : I Z :=
  found ← lookup_variable name;
  match found with
  | Some i =>
      vars ← gets variables;
      count ← gets variable_count;
      vars ← lift (shift_down (Z.to_nat (count - (i + 1))) (i + 1) vars);
      modify (set_variables vars (count - 1));;
      mret 0
  | None => mret 0
  end.

(** ** Expansion *)

(** The characters of a name, up to one that [stop]s it; [Some None] is -1. *)
Fixpoint read_name (stop : Z -> bool) (source name : bytes) (name_length : Z) : option (option (bytes * bytes * Z)) :=
  match source with
  | [] => None
  | c :: source' =>
      if stop c then Some (Some (source, name, name_length))
      else if DOGESCRIPT_VARIABLE_NAME_SIZE <=? name_length + 1 then Some None
      else name ← wr name name_length c; read_name stop source' name (name_length + 1)
  end.

Abbreviation E := (M (script W * out)).

Definition in_script {A} (m : I A) : E A := zoom fst (fun s x => (s, x.2)) m.
Definition in_out {A} (m : M out A) : E A := zoom snd (fun o x => (x.1, o)) m.

Definition need_name (stop : Z -> bool) (source : bytes) : E (bytes * bytes * Z) :=
  r ← lift (read_name stop source (zeros 32) 0);
  match r with None => exit (-1) | Some r => mret r end.

(** Append the value of the variable whose name is in [name]. *)
Definition put_value (name : bytes) (name_length capacity argc : Z) (argv : list (option bytes)) (script_path : bytes)
  : E unit :=
  name ← lift (wr name name_length 0);
  value ← in_script (get_variable name argc argv script_path);
  value_length ← lift (text_length (Some value));
  o ← gets snd;
  if capacity - o_length o <=? value_length then exit (-1) else
  text ← lift (ncopy_loop (o_text o) (o_length o) value (Z.to_nat value_length));
  text ← lift (wr text (o_length o + value_length) 0);
  modify (fun x => (x.1, Out text (o_length o + value_length))).

(** Each round reads a character. *)
Fixpoint expand_loop (fuel : nat) (source : bytes) (capacity argc : Z) (argv : list (option bytes)) (script_path : bytes)
  : E unit :=
  match fuel with
  | O => lift None
  | S fuel' =>
      let again source := expand_loop fuel' source capacity argc argv script_path in
      c ← lift (rd source 0);
      if c =? 0 then mret tt else
      if negb (c =? c_dollar) then in_out (append_checked capacity c);; again (drop 1 source) else
      let source := drop 1 source in
      c ← lift (rd source 0);
      if c =? c_lbrace then
        '(source, name, name_length) ← need_name (fun c => (c =? 0) || (c =? c_rbrace)) (drop 1 source);
        c ← lift (rd source 0);
        if negb (c =? c_rbrace) then exit (-1) else
        put_value name name_length capacity argc argv script_path;; again (drop 1 source)
      else if is_name_char c then
        '(source, name, name_length) ← need_name (fun c => negb (is_name_char c)) source;
        put_value name name_length capacity argc argv script_path;; again source
      else in_out (append_checked capacity c_dollar);; again source
  end.

Definition expand_text (source : bytes) (capacity argc : Z) (argv : list (option bytes)) (script_path : bytes) : E unit :=
  o ← gets snd;
  text ← lift (wr (o_text o) 0 0);
  modify (fun x => (x.1, Out text 0));;
  expand_loop (length source) source capacity argc argv script_path.

(** [expand_text(source, expanded_tokens[i], sizeof(expanded_tokens[i]), ...)] *)
Definition expand_token (i : Z) (source : bytes) : I unit := fun s =>
  destination ← rd (expanded_tokens s) i;
  '(r, (s, o)) ← expand_text source DOGESCRIPT_VARIABLE_VALUE_SIZE (active_argc s) (active_argv s)
                   (active_script_path s) (s, Out destination 0);
  tokens ← wr (expanded_tokens s) i (o_text o);
  Some (r, set_expanded tokens s).

Fixpoint expand_tokens (i : Z) (starts : list Z) : I unit :=
  match starts with
  | [] => mret tt
  | start :: starts' =>
      storage ← gets token_storage;
      expand_token i (drop (Z.to_nat start) storage);;
      expand_tokens (i + 1) starts'
  end.

(** The number of tokens; -1 is an early return. *)
Definition tokenize_line (line : bytes) : I Z :=
  starts ← zoom token_storage set_token_storage
             (tokenize is_space DOGESCRIPT_MAX_LINE_SIZE DOGESCRIPT_MAX_TOKENS line);
  expand_tokens 0 starts;;
  mret (zlen starts).

(** ** Conditions *)

(** A chain of tests of one token. *)
Definition case {A} (token : bytes) (names : list string) (m1 m2 : I A) : I A :=
  foldr (fun name rest => equal ← lift (text_equal token (clit name)); if (equal : bool) then m1 else rest) m2 names.

Definition tok (tokens : list bytes) (i : Z) : I bytes := lift (rd tokens i).

(** [info] as it is after [stat], and whether the call succeeded. *)
Definition stat (path : bytes) : I (Z * (Z * Z * Z)) :=
  '(rc, info) ← call (fun w => os_stat w path);
  mret (rc, match info with Some info => info | None => (0, 0, 0) end).

Definition truth (b : bool) : Z := if b then 1 else 0.

(** The test of three tokens. *)
Definition compare_tokens (tokens : list bytes) (first : Z) : I Z :=
  left ← tok tokens first;
  right ← tok tokens (first + 2);
  comparison ← lift (compare_values left right);
  operator ← tok tokens (first + 1);
  case operator ["=="] (mret (truth (comparison =? 0)))
  (case operator ["!="] (mret (truth (negb (comparison =? 0))))
  (case operator ["<"] (mret (truth (comparison <? 0)))
  (case operator ["<="] (mret (truth (comparison <=? 0)))
  (case operator [">"] (mret (truth (0 <? comparison)))
  (case operator [">="] (mret (truth (0 <=? comparison)))
  (exit (-1))))))).

Definition condition_value (count : Z) (tokens : list bytes) (first : Z) : I Z :=
  let comparison := if negb (count - first =? 3) then exit (-1) else compare_tokens tokens first in
  if first <? count then
    token ← tok tokens first;
    case token ["exists"]
      (if negb (first + 2 =? count) then exit (-1) else
       path ← tok tokens (first + 1);
       r ← call (fun w => os_file_exists w path);
       mret (truth (s64 r =? 1)))
    (case token ["isdir"]
      (if negb (first + 2 =? count) then exit (-1) else
       path ← tok tokens (first + 1);
       '(rc, (_, is_dir, _)) ← stat path;
       mret (truth ((0 <=? s64 rc) && negb (is_dir =? 0))))
     comparison)
  else comparison.

(** ** The script *)

(** The byte at [offset], with the result code of the source. *)
Definition read_script_byte (offset : Z) : I (Z * Z) := fun s =>
  let r := reader s in
  if file_size r <=? offset then Some (Val (0, 0), s)
  else if (offset <? cache_start r) || (cache_length r <=? offset - cache_start r) then
    let chunk_start := offset - offset mod DOGESCRIPT_READ_BUFFER_SIZE in
    let amount := Z.min (file_size r - chunk_start) DOGESCRIPT_READ_BUFFER_SIZE in
    let '(bytes_read, data, w) := os_read_file_at (os s) (r_path r) chunk_start amount in
    buffer ← blit (cache r) 0 data;
    let s := set_os w s in
    if (s64 bytes_read <? 0) || negb (u64 (s64 bytes_read) =? amount)
    then Some (Val (-1, 0), set_reader (Reader (r_path r) (file_size r) (cache_start r) (cache_length r) buffer) s)
    else
      value ← rd buffer (offset - chunk_start);
      Some (Val (1, value), set_reader (Reader (r_path r) (file_size r) chunk_start amount buffer) s)
  else
    value ← rd (cache r) (offset - cache_start r);
    Some (Val (1, value), s).

(** The loop of [get_line]: a round reads a character and stores it or ends. *)
Fixpoint line_loop (fuel : nat) (position length : Z) (line : bytes) : I (Z * Z * bytes) :=
  size ← gets (fun s => file_size (reader s));
  if size <=? position then mret (position, length, line) else
  match fuel with
  | O => lift None
  | S fuel' =>
      '(result, character) ← read_script_byte position;
      if negb (result =? 1) then say "dogescript: unable to read script";; exit (-1) else
      if character =? 0 then say "dogescript: script contains a null byte";; exit (-1) else
      if character =? c_nl then mret (position + 1, length, line) else
      if DOGESCRIPT_MAX_LINE_SIZE <=? length + 1
      then say "dogescript: line exceeds the 255-character limit";; exit (-1) else
      line ← lift (wr line length character);
      line_loop fuel' (position + 1) (length + 1) line
  end.

(** The line and the next offset. *)
Definition get_line (offset : Z) (line : bytes) : I (bytes * Z) :=
  '(position, length, line) ← line_loop (Z.to_nat DOGESCRIPT_MAX_LINE_SIZE) offset 0 line;
  length ← (if 0 <? length then
              c ← lift (rd line (length - 1));
              mret (if c =? c_cr then length - 1 else length)
            else mret length);
  line ← lift (wr line length 0);
  mret (line, position).

(** The line, the number of tokens, and the next offset. *)
Definition get_tokens (offset : Z) (line : bytes) : I (bytes * Z * Z) :=
  '(line, next_offset) ← get_line offset line;
  text ← lift (skip_spaces is_space line);
  c ← lift (rd text 0);
  if (c =? 0) || (c =? c_hash) then mret (line, 0, next_offset) else
  count ← tokenize_line text;
  mret (line, count, next_offset).

Fixpoint line_number_loop (k : nat) (position line_number : Z) : I Z :=
  match k with
  | O => mret line_number
  | S k' =>
      '(result, character) ← read_script_byte position;
      if negb (result =? 1) then exit 0 else
      line_number_loop k' (position + 1) (if character =? c_nl then line_number + 1 else line_number)
  end.

Definition get_line_number (offset : Z) : I Z := fn (line_number_loop (Z.to_nat offset) 0 1).

(** At most one line starts at each byte of the script. *)
Definition script_rounds : positive := 1048577.

(** The offset of the closing line and of the line after it. *)
Definition find_control_end (start : Z) (opening closing : string) : I (Z * Z) :=
  '(line, position) ← get_line start (zeros 256);
  while_true script_rounds (fun '(line, position, depth) =>
    size ← gets (fun s => file_size (reader s));
    if size <=? position then exit (-1) else
    '(line, count, next_position) ← get_tokens position line;
    if count =? 0 then mret (inl (line, next_position, depth)) else
    tokens ← gets expanded_tokens;
    token ← tok tokens 0;
    case token [opening] (mret (inl (line, next_position, depth + 1)))
    (case token [closing]
       (if depth =? 0 then mret (inr (position, next_position)) else mret (inl (line, next_position, depth - 1)))
     (mret (inl (line, next_position, depth))))) (line, position, 0).

(** The same for [if]: also the offset of [else] and of the line after it. *)
Definition find_if_end (start after_else : Z) : I (Z * Z * Z * Z) :=
  '(line, position) ← get_line start (zeros 256);
  while_true script_rounds (fun '(line, position, depth, else_position, after_else) =>
    size ← gets (fun s => file_size (reader s));
    if size <=? position then exit (-1) else
    '(line, count, next_position) ← get_tokens position line;
    if count =? 0 then mret (inl (line, next_position, depth, else_position, after_else)) else
    tokens ← gets expanded_tokens;
    token ← tok tokens 0;
    case token ["if"] (mret (inl (line, next_position, depth + 1, else_position, after_else)))
    (case token ["endif"]
       (if depth =? 0 then mret (inr (position, next_position, else_position, after_else))
        else mret (inl (line, next_position, depth - 1, else_position, after_else)))
    (case token ["else"]
       (if depth =? 0 then
          if negb (else_position =? UINT64_MAX) then exit (-1)
          else mret (inl (line, next_position, depth, position, next_position))
        else mret (inl (line, next_position, depth, else_position, after_else)))
     (mret (inl (line, next_position, depth, else_position, after_else))))))
    (line, position, 0, UINT64_MAX, after_else).

(** ** Building texts from tokens *)

Fixpoint append_string (capacity : Z) (text : bytes) : M out unit :=
  match text with
  | [] => lift None
  | c :: text' => if c =? 0 then mret tt else append_checked capacity c;; append_string capacity text'
  end.

Fixpoint join_loop (k : nat) (i first capacity : Z) (tokens : list bytes) : M out unit :=
  match k with
  | O => mret tt
  | S k' =>
      (if negb (i =? first) then append_checked capacity c_space else mret tt);;
      token ← lift (rd tokens i);
      append_string capacity token;;
      join_loop k' (i + 1) first capacity tokens
  end.

Definition start_text : M out unit := fun o =>
  text ← wr (o_text o) 0 0; Some (Val tt, Out text 0).

Definition join_tokens (capacity count : Z) (tokens : list bytes) (first : Z) : M out unit :=
  start_text;; join_loop (Z.to_nat (count - first)) first first capacity tokens.

Fixpoint append_escaped (capacity : Z) (text : bytes) : M out unit :=
  match text with
  | [] => lift None
  | c :: text' =>
      if c =? 0 then mret tt else
      (if (c =? c_dquote) || (c =? c_backslash) then append_checked capacity c_backslash else mret tt);;
      append_checked capacity c;;
      append_escaped capacity text'
  end.

Fixpoint quote_loop (k : nat) (i capacity : Z) (tokens : list bytes) : M out unit :=
  match k with
  | O => mret tt
  | S k' =>
      (if negb (i =? 0) then append_checked capacity c_space else mret tt);;
      append_checked capacity c_dquote;;
      token ← lift (rd tokens i);
      append_escaped capacity token;;
      append_checked capacity c_dquote;;
      quote_loop k' (i + 1) capacity tokens
  end.

Definition build_shell_command (capacity count : Z) (tokens : list bytes) : M out unit :=
  start_text;; quote_loop (Z.to_nat count) 0 capacity tokens.

(** ** Commands *)

(** Run an operation on a local buffer; the result says whether it returned -1. *)
Definition on_buffer (m : M out unit) (buffer : bytes) : I (bool * bytes * Z) := fun s =>
  '(r, o) ← m (Out buffer 0);
  Some (Val (match r with Val _ => true | Ret _ => false end, o_text o, o_length o), s).

Definition value_size : Z := DOGESCRIPT_VARIABLE_VALUE_SIZE.

(** [println(text); return 1;] *)
Definition complain {A} (text : string) : I A := say text;; exit 1.

(** [join_tokens(value, sizeof(value), &value_length, count, tokens, first)] *)
Definition join (value : bytes) (count : Z) (tokens : list bytes) (first : Z) : I (bool * bytes * Z) :=
  on_buffer (join_tokens value_size count tokens first) value.

(** [return set_variable(name, value) == 0 ? 0 : 1;] *)
Definition store_result (name value : bytes) : I Z :=
  rc ← set_variable name value; mret (if rc =? 0 then 0 else 1).

Definition run_print (count : Z) (tokens : list bytes) (value : bytes) : I Z :=
  '(ok, value, _) ← join value count tokens 1;
  if negb (ok : bool) then complain "dogescript: output is too long" else
  command ← tok tokens 0;
  case command ["println"] (println value;; mret 0)
  (print value;; case command ["echo"] (println (clit "");; mret 0) (mret 0)).

Definition run_set (count : Z) (tokens : list bytes) (value : bytes) : I Z :=
  let usage := complain "dogescript: usage: set <name> <value>" in
  if count <? 3 then usage else
  '(ok, value, _) ← join value count tokens 2;
  if negb (ok : bool) then usage else
  name ← tok tokens 1;
  rc ← set_variable name value;
  if negb (rc =? 0) then usage else mret 0.

Definition run_unset (count : Z) (tokens : list bytes) : I Z :=
  if negb (count =? 2) then complain "dogescript: usage: unset <name>" else
  name ← tok tokens 1;
  unset_variable name;; mret 0.

Definition run_input (count : Z) (tokens : list bytes) (value : bytes) : I Z :=
  if (count <? 2) || (3 <? count) then complain "dogescript: usage: input <name> [prompt]" else
  let failed := complain "dogescript: input failed or variable is invalid" in
  prompt ← (if count =? 3 then tok tokens 2 else mret (clit ""));
  '(rc, typed) ← call (fun w => os_input w prompt value_size);
  value ← lift (blit value 0 typed);
  if s64 rc <? 0 then failed else
  name ← tok tokens 1;
  rc ← set_variable name value;
  if negb (rc =? 0) then failed else mret 0.

Definition run_step (count : Z) (tokens : list bytes) (argc : Z) (argv : list (option bytes)) (script_path value : bytes)
  : I Z :=
  if negb (count =? 2) then complain "dogescript: usage: inc|dec <variable>" else
  name ← tok tokens 1;
  old_value ← get_variable name argc argv script_path;
  parsed ← lift (parse_integer old_value);
  command ← tok tokens 0;
  inc ← lift (text_equal command (clit "inc"));
  match parsed with
  | None => complain "dogescript: variable is not a valid incrementable integer"
  | Some number =>
      if (if (inc : bool) then number =? INT64_MAX else number =? INT64_MIN)
      then complain "dogescript: variable is not a valid incrementable integer" else
      '(_, value) ← lift (format_integer value value_size (if inc then number + 1 else number - 1));
      store_result name value
  end.

(** The result of an operation of [math]; [None] prints the message and fails. *)
Definition math_add (left right : Z) : option Z :=
  if ((0 <? right) && (INT64_MAX - right <? left)) || ((right <? 0) && (left <? INT64_MIN - right))
  then None else Some (left + right).

Definition math_sub (left right : Z) : option Z :=
  if ((right <? 0) && (INT64_MAX + right <? left)) || ((0 <? right) && (left <? INT64_MIN + right))
  then None else Some (left - right).

Definition math_mul (left right : Z) : option Z :=
  if ((left =? INT64_MIN) && (right =? -1)) || ((right =? INT64_MIN) && (left =? -1)) then None
  else if ((0 <? left) && (0 <? right) && (Z.quot INT64_MAX right <? left)) ||
          ((0 <? left) && (right <? 0) && (right <? Z.quot INT64_MIN left)) ||
          ((left <? 0) && (0 <? right) && (left <? Z.quot INT64_MIN right)) ||
          ((left <? 0) && (right <? 0) && (left <? Z.quot INT64_MAX right)) then None
  else Some (left * right).

Definition math_div (left right : Z) : option Z :=
  if (right =? 0) || ((left =? INT64_MIN) && (right =? -1)) then None else Some (Z.quot left right).

(** [value]: the result, or the message of the failure. *)
Definition run_math (count : Z) (tokens : list bytes) (value : bytes) : I Z :=
  let usage := complain "dogescript: usage: math <name> <integer> <+|-|*|/> <integer>" in
  if negb (count =? 5) then usage else
  t2 ← tok tokens 2;
  parsed ← lift (parse_integer t2);
  match parsed with
  | None => usage
  | Some l =>
      t4 ← tok tokens 4;
      parsed ← lift (parse_integer t4);
      match parsed with
      | None => usage
      | Some r =>
          operator ← tok tokens 3;
          let put result message :=
            match result with
            | None => complain message
            | Some number =>
                '(_, value) ← lift (format_integer value value_size number);
                name ← tok tokens 1;
                store_result name value
            end in
          case operator ["+"] (put (math_add l r) "dogescript: integer overflow")
          (case operator ["-"] (put (math_sub l r) "dogescript: integer overflow")
          (case operator ["*"] (put (math_mul l r) "dogescript: integer overflow")
          (case operator ["/"] (put (math_div l r) "dogescript: invalid division")
          (complain "dogescript: unsupported math operator"))))
      end
  end.

Definition run_test (count : Z) (tokens : list bytes) (value : bytes) : I Z :=
  let usage := complain "dogescript: usage: exists|isdir <path> -> <variable>" in
  if negb (count =? 4) then usage else
  arrow ← tok tokens 2;
  case arrow ["->"]
    (path ← tok tokens 1;
     '(result, (_, is_dir, exists_)) ← stat path;
     command ← tok tokens 0;
     number ← case command ["exists"] (mret (truth ((0 <=? s64 result) && negb (exists_ =? 0))))
                (mret (truth ((0 <=? s64 result) && negb (is_dir =? 0))));
     '(_, value) ← lift (format_integer value value_size number);
     name ← tok tokens 3;
     store_result name value)
    usage.

(** [for (i; i < info.size; i++) if (value[i] == 0)] *)
Fixpoint has_zero (k : nat) (i : Z) (value : bytes) : option bool :=
  match k with
  | O => Some false
  | S k' => c ← rd value i; if c =? 0 then Some true else has_zero k' (i + 1) value
  end.

Definition run_read (count : Z) (tokens : list bytes) (value : bytes) : I Z :=
  if negb (count =? 3) then complain "dogescript: usage: read <variable> <file>" else
  path ← tok tokens 2;
  '(rc, (size, is_dir, _)) ← stat path;
  if (s64 rc <? 0) || negb (is_dir =? 0) || (value_size <=? size)
  then complain "dogescript: unable to read file or file exceeds 255 bytes" else
  '(bytes_read, data) ← call (fun w => os_read_file w path size);
  value ← lift (blit value 0 data);
  if (s64 bytes_read <? 0) || negb (u64 (s64 bytes_read) =? size)
  then complain "dogescript: unable to read complete file" else
  binary ← lift (has_zero (Z.to_nat size) 0 value);
  if (binary : bool) then complain "dogescript: cannot store binary data in a text variable" else
  value ← lift (wr value size 0);
  name ← tok tokens 1;
  store_result name value.

Definition run_write (count : Z) (tokens : list bytes) (value : bytes) : I Z :=
  let usage := complain "dogescript: usage: write|append <file> <text>" in
  if count <? 3 then usage else
  '(ok, value, value_length) ← join value count tokens 2;
  if negb (ok : bool) then usage else
  command ← tok tokens 0;
  path ← tok tokens 1;
  result ← case command ["write"] (call (fun w => os_write_file w path value))
             (data ← lift (slice value 0 value_length); call (fun w => os_append_file w path data));
  if s64 result <? 0 then complain "dogescript: file operation failed" else mret 0.

Definition run_assert (count : Z) (tokens : list bytes) : I Z :=
  condition ← attempt (condition_value count tokens 1);
  match condition with
  | inr _ => complain "dogescript: usage: assert <left> <operator> <right>"
  | inl condition => if condition =? 0 then complain "dogescript: assertion failed" else mret 0
  end.

Definition run_fail (count : Z) (tokens : list bytes) (value : bytes) : I Z :=
  if count =? 1 then complain "dogescript: fail" else
  '(ok, value, _) ← join value count tokens 1;
  if negb (ok : bool) then complain "dogescript: failure message is too long" else
  println value;; mret 1.

Definition run_exit (count : Z) (tokens : list bytes) : I Z :=
  let usage := complain "dogescript: usage: exit [0-255]" in
  if 2 <? count then usage else
  if count =? 2 then
    token ← tok tokens 1;
    parsed ← lift (parse_integer token);
    match parsed with
    | None => usage
    | Some number =>
        if (number <? 0) || (255 <? number) then usage
        else modify (set_exit true (s32 number));; mret 0
    end
  else modify (set_exit true 0);; mret 0.

(** [for (i = 0; source_line[i] != 0; i++) if (source_line[i] == '$')] *)
Fixpoint has_dollar (source_line : bytes) : option bool :=
  match source_line with
  | [] => None
  | c :: rest => if c =? 0 then Some false else if c =? c_dollar then Some true else has_dollar rest
  end.

Definition run_shell (count : Z) (tokens : list bytes) (source_line : bytes) : I Z :=
  has_variable ← lift (has_dollar source_line);
  if negb (has_variable : bool) then
    result ← call (fun w => os_shell w source_line);
    mret (if s64 result =? 0 then 0 else 1)
  else
  '(ok, shell_command, _) ←
     on_buffer (build_shell_command DOGESCRIPT_MAX_SHELL_COMMAND_SIZE count tokens) (zeros 4096);
  if negb (ok : bool) then complain "dogescript: expanded command is too long" else
  result ← call (fun w => os_shell w shell_command);
  mret (if s64 result =? 0 then 0 else 1).

Definition run_command (count : Z) (tokens : list bytes) (argc : Z) (argv : list (option bytes))
  (script_path source_line : bytes) : I Z := fn (
  value ← lift (clear_text (zeros 256) value_size);
  if count =? 0 then mret 0 else
  command ← tok tokens 0;
  case command ["echo"; "print"; "println"] (run_print count tokens value)
  (case command ["set"] (run_set count tokens value)
  (case command ["unset"] (run_unset count tokens)
  (case command ["input"] (run_input count tokens value)
  (case command ["inc"; "dec"] (run_step count tokens argc argv script_path value)
  (case command ["math"] (run_math count tokens value)
  (case command ["exists"; "isdir"] (run_test count tokens value)
  (case command ["read"] (run_read count tokens value)
  (case command ["write"; "append"] (run_write count tokens value)
  (case command ["assert"] (run_assert count tokens)
  (case command ["fail"] (run_fail count tokens value)
  (case command ["exit"] (run_exit count tokens)
  (run_shell count tokens source_line))))))))))))).

(** ** Running a script *)

(** [resolved_path]; an early return is the failure. *)
Definition resolve_script (path : bytes) : I bytes :=
  let too_long := complain "dogescript: script path is too long" in
  c ← lift (rd path 0);
  if c =? c_slash then
    '(rc, resolved_path) ← lift (copy_array (zeros 256) 256 path);
    if negb (rc =? 0) then too_long else mret resolved_path
  else
    let failed := complain "dogescript: unable to resolve script path" in
    working_directory ← lift (clear_text (zeros 256) 256);
    '(rc, data) ← call (fun w => os_get_cwd w 256);
    working_directory ← lift (blit working_directory 0 data);
    if s64 rc <? 0 then failed else
    c ← lift (rd working_directory 0);
    if negb (c =? c_slash) then failed else
    '(rc, resolved_path) ← lift (copy_array (zeros 256) 256 working_directory);
    if negb (rc =? 0) then failed else
    path_length ← lift (text_length (Some resolved_path));
    '(ok, resolved_path, path_length) ←
       (if 1 <? path_length then fun s =>
          '(r, o) ← append_checked 256 c_slash (Out resolved_path path_length);
          Some (Val (match r with Val _ => true | Ret _ => false end, o_text o, o_length o), s)
        else mret (true, resolved_path, path_length));
    if negb (ok : bool) then too_long else
    script_path_length ← lift (text_length (Some path));
    if 256 <=? path_length + script_path_length then too_long else
    lift (ncopy_loop resolved_path path_length path (Z.to_nat (script_path_length + 1))).

Record progress := Progress {
  program_counter : Z; executed_steps : Z; loop_stack : list loop_frame_t; loop_depth : Z;
}.

(** The end of a step: the next program counter and the loops. *)
Definition goto (steps : Z) (stack : list loop_frame_t) (depth pc : Z) : I (progress + Z) :=
  mret (inl (Progress pc steps stack depth)).

(** Push a frame on the loop stack. *)
Definition push_loop (stack : list loop_frame_t) (depth : Z) (f : loop_frame_t) : I (list loop_frame_t) :=
  lift (wr stack depth (LoopFrame (kind f) (u32 (start_offset f)) (u32 (body_offset f)) (u32 (end_offset f))
                          (u32 (after_end_offset f)) (remaining f))).

(** [loop_depth > 0 && loop_stack[loop_depth - 1].kind == k && ... == offset] *)
Definition top_is (stack : list loop_frame_t) (depth : Z) (k : loop_kind_t) (field : loop_frame_t -> Z) (offset : Z)
  : I bool :=
  if 0 <? depth then
    f ← lift (rd stack (depth - 1));
    mret (bool_decide (kind f = k) && (field f =? offset))
  else mret false.

Definition step_if (pc next_offset : Z) (condition : Z) (jump : Z -> I (progress + Z)) : I (progress + Z) :=
  r ← attempt (find_if_end pc UINT64_MAX);
  match r with
  | inr _ => complain "dogescript: missing or repeated endif/else"
  | inl (_, after_end, else_offset, after_else) =>
      if condition =? 0 then jump (if negb (else_offset =? UINT64_MAX) then after_else else after_end)
      else jump next_offset
  end.

Definition step_while (pc next_offset condition : Z) (steps : Z) (stack : list loop_frame_t) (depth : Z)
  : I (progress + Z) :=
  again ← top_is stack depth LOOP_WHILE start_offset pc;
  ends ← (if (again : bool) then f ← lift (rd stack (depth - 1)); mret (inl (end_offset f, after_end_offset f))
          else attempt (find_control_end pc "while" "endwhile"));
  match ends with
  | inr _ => complain "dogescript: missing endwhile"
  | inl (end_offset, after_end) =>
      if condition =? 0 then goto steps stack (if (again : bool) then depth - 1 else depth) after_end else
      on_top ← (if depth =? 0 then mret false
                else f ← lift (rd stack (depth - 1)); mret (start_offset f =? pc));
      if negb (on_top : bool) then
        if depth =? DOGESCRIPT_MAX_LOOP_DEPTH then complain "dogescript: loop nesting limit exceeded" else
        stack ← push_loop stack depth (LoopFrame LOOP_WHILE pc next_offset end_offset after_end 0);
        goto steps stack (depth + 1) next_offset
      else goto steps stack depth next_offset
  end.

Definition step_repeat (pc next_offset count : Z) (tokens : list bytes) (steps : Z) (stack : list loop_frame_t) (depth : Z)
  : I (progress + Z) :=
  let usage := complain "dogescript: usage: repeat <count up to 100000>" in
  if negb (count =? 2) then usage else
  token ← tok tokens 1;
  parsed ← lift (parse_integer token);
  match parsed with
  | None => usage
  | Some number =>
      if (number <? 0) || (DOGESCRIPT_MAX_REPEAT <? number) then usage else
      ends ← attempt (find_control_end pc "repeat" "endrepeat");
      match ends with
      | inr _ => complain "dogescript: missing endrepeat"
      | inl (end_offset, after_end) =>
          if number =? 0 then goto steps stack depth after_end else
          if depth =? DOGESCRIPT_MAX_LOOP_DEPTH then complain "dogescript: loop nesting limit exceeded" else
          stack ← push_loop stack depth (LoopFrame LOOP_REPEAT pc next_offset end_offset after_end number);
          goto steps stack (depth + 1) next_offset
      end
  end.

Definition step_else (pc : Z) (jump : Z -> I (progress + Z)) : I (progress + Z) :=
  ends ← attempt (find_control_end pc "if" "endif");
  match ends with
  | inr _ => complain "dogescript: unmatched else"
  | inl (_, after_end) => jump after_end
  end.

Definition step_endwhile (pc steps : Z) (stack : list loop_frame_t) (depth : Z) : I (progress + Z) :=
  matched ← top_is stack depth LOOP_WHILE end_offset pc;
  if negb (matched : bool) then complain "dogescript: unmatched endwhile" else
  f ← lift (rd stack (depth - 1));
  goto steps stack depth (start_offset f).

Definition step_endrepeat (pc next_offset steps : Z) (stack : list loop_frame_t) (depth : Z) : I (progress + Z) :=
  matched ← top_is stack depth LOOP_REPEAT end_offset pc;
  if negb (matched : bool) then complain "dogescript: unmatched endrepeat" else
  f ← lift (rd stack (depth - 1));
  if 1 <? remaining f then
    stack ← lift (wr stack (depth - 1) (LoopFrame (kind f) (start_offset f) (body_offset f) (end_offset f)
                                          (after_end_offset f) (remaining f - 1)));
    goto steps stack depth (body_offset f)
  else goto steps stack (depth - 1) next_offset.

Definition step_break (count : Z) (tokens : list bytes) (steps : Z) (stack : list loop_frame_t) (depth : Z)
  : I (progress + Z) :=
  if (depth =? 0) || negb (count =? 1) then complain "dogescript: break/continue used outside a loop" else
  frame ← lift (rd stack (depth - 1));
  command ← tok tokens 0;
  case command ["break"] (goto steps stack (depth - 1) (after_end_offset frame))
  (match kind frame with
   | LOOP_WHILE => goto steps stack depth (start_offset frame)
   | LOOP_REPEAT => goto steps stack depth (end_offset frame)
   end).

(** The message of a command that failed. *)
Definition report_line (pc : Z) : I (progress + Z) :=
  message ← lift (str_strcpy (zeros 96) (clit "dogescript: command failed on line "));
  line_number ← get_line_number pc;
  if line_number =? 0 then complain "dogescript: unable to determine failing line" else
  number_text ← lift (str_u64toa line_number (zeros 21));
  '(message_length, message) ← lift (append_text message 35 number_text);
  message ← lift (wr message message_length 0);
  println message;; exit 1.

(** One round of the loop of [run_script]: the next state, or the exit status. *)
Definition run_line (argc : Z) (argv : list (option bytes)) (path : bytes) (p : progress) : I (progress + Z) :=
  size ← gets (fun s => file_size (reader s));
  requested ← gets exit_requested;
  if negb ((program_counter p <? size) && negb requested) then status ← gets exit_status; mret (inr status) else
  let '(Progress pc steps stack depth) := p in
  let steps := steps + 1 in
  if DOGESCRIPT_MAX_STEPS <? steps then complain "dogescript: execution step limit exceeded" else
  parsed ← attempt (get_tokens pc (zeros 256));
  match parsed with
  | inr _ => complain "dogescript: invalid quoting, variable, or token count"
  | inl (line, count, next_offset) =>
      let jump := goto steps stack depth in
      if count =? 0 then jump next_offset else
      tokens ← gets expanded_tokens;
      command ← tok tokens 0;
      case command ["if"; "while"]
        (condition ← attempt (condition_value count tokens 1);
         match condition with
         | inr _ => complain "dogescript: invalid condition"
         | inl condition =>
             case command ["if"] (step_if pc next_offset condition jump)
             (step_while pc next_offset condition steps stack depth)
         end)
      (case command ["repeat"] (step_repeat pc next_offset count tokens steps stack depth)
      (case command ["else"] (step_else pc jump)
      (case command ["endif"] (jump next_offset)
      (case command ["endwhile"] (step_endwhile pc steps stack depth)
      (case command ["endrepeat"] (step_endrepeat pc next_offset steps stack depth)
      (case command ["break"; "continue"] (step_break count tokens steps stack depth)
        (status ← run_command count tokens argc argv path line;
         if negb (status =? 0) then report_line pc else jump next_offset)))))))
  end.

Definition no_frame : loop_frame_t := LoopFrame LOOP_WHILE 0 0 0 0 0.

(** More rounds than the limit on steps. *)
Definition step_rounds : positive := 500002.

Definition run_script (path : bytes) (argc : Z) (argv : list (option bytes)) : I Z := fn (
  vars ← gets variables;
  modify (set_variables vars 0);;
  modify (set_active argc argv path);;
  resolved_path ← resolve_script path;
  '(rc, (size, is_dir, _)) ← stat resolved_path;
  if s64 rc <? 0 then print (clit "dogescript: unable to access ");; println path;; exit 1 else
  if negb (is_dir =? 0) then complain "dogescript: path is a directory" else
  if DOGESCRIPT_MAX_SCRIPT_SIZE <? size then complain "dogescript: script exceeds the 1 MiB size limit" else
  modify (set_reader (Reader resolved_path size UINT64_MAX 0 (zeros 512)));;
  modify (set_exit false 0);;
  while_true step_rounds (run_line argc argv path) (Progress 0 0 (replicate 32 no_frame) 0)).

(** The argument of [exit] of [_start]. *)
Definition _start (argc : Z) (argv : option (list (option bytes))) : I Z :=
  let usage := println (clit "Usage: dogescript <script-file> [arguments...]") in
  let start :=
    match argv with
    | Some argv =>
        if argc <? 1 then usage;; mret 2 else
        a ← lift (rd argv 0);
        match a with
        | None => usage;; mret 2
        | Some path =>
            c ← lift (rd path 0);
            if c =? 0 then usage;; mret 2 else
            status ← run_script path argc argv;
            mret (u64 status)
        end
    | None => usage;; mret 2
    end in
  match argv with
  | Some (Some name :: _) =>
      if argc =? 1 then
        help ← lift (text_equal name (clit "--help"));
        if (help : bool) then
          usage;;
          say "Commands: echo print println set unset input math inc dec";;
          say "          read write append exists isdir assert fail exit";;
          say "Flow:     if else endif while endwhile repeat endrepeat";;
          say "          break continue. Other commands run in Dogeshell.";;
          say "Variables: $name, ${name}, $0 (script), $1..$N, $argc";;
          mret 0
        else start
      else start
  | _ => start
  end.

End Interpreter.
