(* ===== verification/ScriptNumbers.v ===== *)
(** * Numbers of the script interpreter

    [integer_of] is the reference reading of a numeral as an [int64_t], [numeral]
    the reference printing.  [parse_integer] and [format_integer] compute them, and
    the guards of [math] refuse exactly the results that are not representable. *)

From S2P Require Import Prelude CMonad CString ShellWords Script.

Definition is_int64 (v : Z) : Prop := INT64_MIN <= v <= INT64_MAX.

#[global] Instance is_int64_dec v : Decision (is_int64 v).
Proof. unfold is_int64. apply _. Defined.

(** The sign and the digits. *)
Definition split_sign (s : bytes) : bool * bytes :=
  match s with
  | c :: t => if c =? c_minus then (true, t) else if c =? c_plus then (false, t) else (false, s)
  | [] => (false, [])
  end.

Definition signed (negative : bool) (v : Z) : Z := if negative then - v else v.

Definition integer_of (s : bytes) : option Z :=
  let '(negative, ds) := split_sign s in
  if bool_decide (ds <> []) && forallb is_digit ds && bool_decide (is_int64 (signed negative (dval ds)))
  then Some (signed negative (dval ds)) else None.

Definition numeral (v : Z) : bytes := (if v <? 0 then [c_minus] else []) ++ dec (Z.abs v).

(** ** Decimal numerals *)

Lemma dec_not_nil v : 0 <= v -> dec v <> [].
Proof.
  intros Hv. unfold dec. destruct (Z.eqb_spec v 0); [done|]. intros E%(f_equal reverse).
  rewrite reverse_involutive in E. revert E. apply lsd_nonempty; [lia | unfold u64_digits; lia].
Qed.

Lemma u64toa_text v str : is_u64 v -> zlen (dec v) < zlen str -> str_u64toa v str = blit str 0 (dec v ++ [0]).
Proof.
  intros Hv Hl. unfold str_u64toa. destruct (Z.eqb_spec v 0) as [->|Hne].
  - change (zlen (dec 0)) with 1 in Hl. by apply put_zero_blit; lia.
  - apply emit_reverse; [done | unfold_int; lia | done].
Qed.

(** ** Reading *)

Lemma parse_digits_ok s t limit number :
  nozero s -> 9 <= limit <= INT64_MAX + 1 -> 0 <= number <= limit ->
  parse_digits (s ++ 0 :: t) limit number =
  Some (if forallb is_digit s && (number * 10 ^ zlen s + dval s <=? limit)
        then Some (number * 10 ^ zlen s + dval s) else None).
Proof.
  intros Hs Hl. revert number. induction Hs as [|c s Hc Hs IH]; intros number Hn; cbn [app parse_digits].
  { change (dval []) with 0. change (zlen (@nil Z)) with 0. rewrite Z.eqb_refl, Z.pow_0_r, Z.mul_1_r, Z.add_0_r.
    by rewrite (proj2 (Z.leb_le _ _)) by lia. }
  rewrite (eqb_neq c 0 Hc). cbn [forallb].
  replace ((c <? c_0) || (c_9 <? c)) with (negb (is_digit c))
    by (unfold is_digit; destruct (Z.leb_spec c_0 c), (Z.leb_spec c c_9), (Z.ltb_spec c c_0), (Z.ltb_spec c_9 c); first [lia | done]).
  destruct (is_digit c) eqn:Hd; [|done]. cbn [negb andb]. pose proof (is_digit_range c Hd) as Hr.
  assert (is_u64 (limit - (c - c_0))) as Hu by (unfold INT64_MAX in *; unfold_int; lia). rewrite (u64_small _ Hu).
  replace (dval (c :: s)) with ((c - c_0) * 10 ^ zlen s + dval s) by (unfold dval at 2; cbn; by rewrite dval_cons_acc).
  rewrite zlen_cons, Z.pow_add_r, Z.pow_1_r by zs. pose proof (Z.pow_pos_nonneg 10 (zlen s) ltac:(lia) (zlen_nonneg _)) as Hpow.
  replace (number * (10 * 10 ^ zlen s) + ((c - c_0) * 10 ^ zlen s + dval s))
    with ((number * 10 + (c - c_0)) * 10 ^ zlen s + dval s) by lia.
  pose proof (Z.mul_div_le (limit - (c - c_0)) 10 ltac:(lia)). pose proof (Z.mul_succ_div_gt (limit - (c - c_0)) 10 ltac:(lia)).
  destruct (Z.ltb_spec ((limit - (c - c_0)) / 10) number) as [Hover|Hfit].
  - destruct (forallb is_digit s) eqn:Hds; [|done]. cbn [andb].
    pose proof (dval_nonneg s (proj1 (forallb_digits s) Hds)).
    rewrite (proj2 (Z.leb_gt _ _)); [done|]. nia.
  - rewrite u64_small by (unfold INT64_MAX in *; unfold_int; lia). apply IH. lia.
Qed.

Lemma parse_integer_ok b s : cstr b s -> parse_integer b = Some (integer_of s).
Proof.
  intros (t & -> & Hs).
  assert (forall negative ds, nozero ds ->
    (c ← rd (ds ++ 0 :: t) 0;
     if c =? 0 then Some None
     else
       r ← parse_digits (ds ++ 0 :: t) (if negative then u64 (INT64_MAX + 1) else INT64_MAX) 0;
       Some (number ← r;
          Some (if negative && (number =? u64 (INT64_MAX + 1)) then INT64_MIN
                else if negative then - s64 number
                else s64 number))) =
    Some (if bool_decide (ds <> []) && forallb is_digit ds && bool_decide (is_int64 (signed negative (dval ds)))
          then Some (signed negative (dval ds)) else None)) as Hds.
  { intros negative ds Hnz. destruct ds as [|d ds]; [done|]. change (rd ((d :: ds) ++ 0 :: t) 0) with (Some d). rewrite Some_bind.
    rewrite (eqb_neq d 0) by (by apply Forall_cons in Hnz as [? _]).
    assert (u64 (INT64_MAX + 1) = INT64_MAX + 1) as Hu by done. rewrite Hu, parse_digits_ok, Some_bind; [|done|unfold INT64_MAX; by destruct negative..].
    rewrite bool_decide_eq_true_2 by done. cbn [andb]. rewrite Z.mul_0_l, Z.add_0_l.
    destruct (forallb is_digit (d :: ds)) eqn:Hf; [|done]. cbn [andb].
    pose proof (dval_nonneg _ (proj1 (forallb_digits _) Hf)).
    set (v := dval (d :: ds)) in *. f_equal. unfold is_int64, signed.
    destruct negative; match goal with |- context [v <=? ?l] => destruct (Z.leb_spec v l) end; (case_bool_decide as Hi; unfold INT64_MIN, INT64_MAX in Hi; unfold INT64_MAX in *; try lia); cbn [mbind option_bind andb]; try done; f_equal.
    - destruct (Z.eqb_spec v (9223372036854775807 + 1)) as [->|]; [done|]. unfold s64. rewrite Z.mod_small; lia.
    - unfold s64. rewrite Z.mod_small; lia. }
  unfold parse_integer, integer_of, split_sign. destruct s as [|c s]; [apply (Hds false [] Hs)|].
  change (rd ((c :: s) ++ 0 :: t) 0) with (Some c). rewrite Some_bind. apply Forall_cons in Hs as [Hc Hs].
  destruct (Z.eqb_spec c c_minus) as [->|]; [apply (Hds true s Hs)|]. cbn [orb].
  destruct (Z.eqb_spec c c_plus) as [->|]; [apply (Hds false s Hs)|]. apply (Hds false (c :: s)). by constructor.
Qed.

(** ** Printing *)

Lemma numeral_digits v : Forall (fun c => is_digit c = true) (dec (Z.abs v)).
Proof. apply dec_digits. lia. Qed.

Lemma nozero_numeral v : nozero (numeral v).
Proof.
  apply Forall_app. split; [destruct (v <? 0); by repeat constructor | apply digits_nozero, numeral_digits].
Qed.

Lemma int64_abs v : is_int64 v -> 0 <= Z.abs v < 10 ^ Z.of_nat 19 /\ is_u64 (Z.abs v).
Proof. unfold is_int64, INT64_MIN, INT64_MAX. unfold_int. change (10 ^ Z.of_nat 19) with 10000000000000000000. lia. Qed.

Lemma zlen_numeral v : is_int64 v -> zlen (numeral v) <= 20.
Proof.
  intros [Hv _]%int64_abs. pose proof (zlen_dec_bound _ 19 Hv ltac:(lia)). unfold numeral. rewrite zlen_app.
  destruct (v <? 0); [change (zlen [c_minus]) with 1 | change (zlen (@nil Z)) with 0]; lia.
Qed.

Lemma format_loop_ok ds t buffer position capacity :
  nozero ds -> 0 <= position -> position + zlen ds < capacity -> capacity <= zlen buffer ->
  format_loop (ds ++ 0 :: t) buffer position capacity =
  (fun b => (position + zlen ds, b)) <$> blit buffer position ds.
Proof.
  intros Hds. revert buffer position. induction Hds as [|d ds Hd Hds IH]; intros buffer position Hp Hc Hb; cbn [app format_loop].
  { change (zlen (@nil Z)) with 0 in *. cbn. rewrite blit_nil by lia. by rewrite Z.add_0_r. }
  rewrite zlen_cons in *. pose proof (zlen_nonneg ds). rewrite (eqb_neq d 0 Hd), (proj2 (Z.ltb_lt _ _)) by lia. cbn [negb andb].
  rewrite blit_cons. destruct (wr_is_Some buffer position d) as [b Eb]; [lia|]. rewrite Eb. cbn [mbind option_bind].
  pose proof (wr_zlen _ _ _ _ Eb). rewrite IH by lia. by replace (position + 1 + zlen ds) with (position + (1 + zlen ds)) by lia.
Qed.

Lemma format_integer_ok buffer capacity v :
  is_int64 v -> zlen (numeral v) < capacity -> capacity <= zlen buffer ->
  format_integer buffer capacity v = (fun b => (zlen (numeral v), b)) <$> blit buffer 0 (numeral v ++ [0]).
Proof.
  intros Hv Hc Hb. destruct (int64_abs v Hv) as [Ha Hu]. unfold format_integer.
  assert ((if v <? 0 then u64 (u64 (- (v + 1)) + 1) else u64 v) = Z.abs v) as ->.
  { unfold is_int64, INT64_MIN, INT64_MAX in Hv.
    destruct (Z.ltb_spec v 0); [rewrite (u64_small (- (v + 1)))|]; rewrite ?u64_small; unfold_int; lia. }
  pose proof (zlen_dec_bound _ 19 Ha ltac:(lia)) as Hlen.
  rewrite u64toa_text by (done || (unfold zeros; rewrite zlen_replicate; lia)).
  destruct (blit_total (zeros 21) (dec (Z.abs v) ++ [0]) 0) as [digits Ed]; [lia | unfold zeros; rewrite zlen_app, zlen_replicate; change (zlen [0]) with 1; lia|].
  rewrite Ed. cbn [mbind option_bind]. destruct (cstr_blit _ _ _ (digits_nozero _ (numeral_digits v)) Ed) as (t & -> & _).
  pose proof (zlen_nonneg (dec (Z.abs v))). unfold numeral in *. rewrite zlen_app in *.
  set (sign := if v <? 0 then [c_minus] else []) in *.
  assert ((if (v <? 0) && (0 + 1 <? capacity) then buffer ← wr buffer 0 c_minus; Some (1, buffer) else Some (0, buffer)) =
          (fun b => (zlen sign, b)) <$> blit buffer 0 sign) as ->.
  { unfold sign in *. destruct (v <? 0); cbn [andb].
    - change (zlen [c_minus]) with 1 in *. rewrite (proj2 (Z.ltb_lt _ _)) by lia. rewrite <- wr_blit. by destruct (wr buffer 0 c_minus).
    - pose proof (zlen_nonneg buffer). by rewrite blit_nil by lia. }
  assert (zlen sign <= zlen buffer) as Hsb by lia.
  destruct (blit_total buffer sign 0) as [b1 E1]; [lia | lia |]. rewrite E1. cbn [fmap option_fmap option_map mbind option_bind].
  pose proof (blit_zlen _ _ _ _ E1). pose proof (zlen_nonneg sign).
  rewrite format_loop_ok; [|apply digits_nozero, numeral_digits | lia | lia | lia].
  destruct (blit_total b1 (dec (Z.abs v)) (zlen sign)) as [b2 E2]; [lia | lia |]. rewrite E2. cbn [fmap option_fmap option_map mbind option_bind].
  rewrite wr_blit. rewrite !blit_app by lia. rewrite E1. cbn [mbind option_bind].
  rewrite !Z.add_0_l, E2. cbn [mbind option_bind]. rewrite zlen_app. by destruct (blit b2 _ [0]).
Qed.

(** Reading back what was printed. *)
Lemma integer_of_numeral v : is_int64 v -> integer_of (numeral v) = Some v.
Proof.
  intros Hv. destruct (int64_abs v Hv) as [Ha Hu]. pose proof (numeral_digits v) as Hd.
  pose proof (dec_not_nil (Z.abs v) ltac:(lia)) as Hne.
  assert (split_sign (numeral v) = (v <? 0, dec (Z.abs v))) as Hs.
  { unfold numeral. destruct (v <? 0); [done|]. cbn [app]. destruct (dec (Z.abs v)) as [|c ds]; [done|].
    apply Forall_cons in Hd as [Hc _]. unfold split_sign.
    destruct (Z.eqb_spec c c_minus) as [->|]; [done|]. by destruct (Z.eqb_spec c c_plus) as [->|]. }
  unfold integer_of. rewrite Hs, (proj2 (forallb_digits _) Hd), dval_dec by done.
  rewrite bool_decide_eq_true_2 by done. cbn [andb].
  assert (signed (v <? 0) (Z.abs v) = v) as -> by (unfold signed; destruct (Z.ltb_spec v 0); lia).
  by rewrite bool_decide_eq_true_2.
Qed.

(** ** Arithmetic *)

Definition representable (v : Z) : option Z := if bool_decide (is_int64 v) then Some v else None.

Ltac int64_cases :=
  unfold representable, is_int64, INT64_MIN, INT64_MAX in *;
  repeat match goal with
         | |- context [?a <? ?b] => destruct (Z.ltb_spec a b)
         | |- context [?a =? ?b] => destruct (Z.eqb_spec a b)
         end; cbn [andb orb]; case_bool_decide; try lia; try done.

Lemma math_add_ok l r : is_int64 l -> is_int64 r -> math_add l r = representable (l + r).
Proof. intros Hl Hr. unfold math_add. int64_cases. Qed.

Lemma math_sub_ok l r : is_int64 l -> is_int64 r -> math_sub l r = representable (l - r).
Proof. intros Hl Hr. unfold math_sub. int64_cases. Qed.

(** A product stays in range exactly when the truncated quotient of the bound by
    one factor does not separate it from the other. *)
Lemma quot_bound_pos m a b : 0 < b -> 0 <= m -> (Z.quot m b < a <-> m < a * b).
Proof.
  intros Hb Hm. rewrite Z.quot_div_nonneg by lia. pose proof (Z.mul_div_le m b Hb). pose proof (Z.mul_succ_div_gt m b Hb). nia.
Qed.

Lemma math_mul_ok l r : is_int64 l -> is_int64 r -> math_mul l r = representable (l * r).
Proof.
  intros Hl Hr. unfold math_mul. change INT64_MIN with (Z.opp 9223372036854775808) in *.
  assert (0 < l -> 0 < r -> (Z.quot INT64_MAX r < l <-> INT64_MAX < l * r)) as Hpp.
  { intros. by apply quot_bound_pos. }
  assert (0 < l -> r < 0 -> (r < Z.quot (Z.opp 9223372036854775808) l <-> l * r < Z.opp 9223372036854775808)) as Hpn.
  { intros. rewrite Z.quot_opp_l by lia. pose proof (quot_bound_pos 9223372036854775808 (- r) l). nia. }
  assert (l < 0 -> 0 < r -> (l < Z.quot (Z.opp 9223372036854775808) r <-> l * r < Z.opp 9223372036854775808)) as Hnp.
  { intros. rewrite Z.quot_opp_l by lia. pose proof (quot_bound_pos 9223372036854775808 (- l) r). nia. }
  assert (l < 0 -> r < 0 -> (l < Z.quot INT64_MAX r <-> INT64_MAX < l * r)) as Hnn.
  { intros. replace r with (- - r) at 1 by lia. rewrite Z.quot_opp_r by lia.
    pose proof (quot_bound_pos INT64_MAX (- l) (- r) ltac:(lia) ltac:(done)). nia. }
  unfold representable, is_int64 in *. change INT64_MIN with (Z.opp 9223372036854775808) in *.
  unfold INT64_MAX in *.
  match goal with |- (if ?b then _ else _) = _ => destruct b eqn:E1 end.
  { case_bool_decide; [|done]. exfalso. rewrite orb_true_iff, !andb_true_iff, !Z.eqb_eq in E1. lia. }
  match goal with |- (if ?b then _ else _) = _ => destruct b eqn:E2 end.
  - case_bool_decide; [|done]. exfalso.
    rewrite !orb_true_iff, !andb_true_iff, !Z.ltb_lt in E2. lia.
  - rewrite bool_decide_eq_true_2; [done|].
    rewrite !orb_false_iff, !andb_false_iff, !Z.ltb_ge in E2. clear E1 Hl Hr.
    destruct (Z.lt_trichotomy l 0) as [Hl|[->|Hl]], (Z.lt_trichotomy r 0) as [Hr|[->|Hr]];
      rewrite ?Z.mul_0_l, ?Z.mul_0_r; lia.
Qed.

(** The quotient is truncated; the only one that is not representable is that of
    the least integer by -1. *)
Lemma math_div_ok l r :
  is_int64 l -> is_int64 r ->
  math_div l r = if decide (r = 0) then None else representable (Z.quot l r).
Proof.
  intros Hl Hr. unfold math_div. destruct (decide (r = 0)) as [->|Hne]; [done|]. rewrite (eqb_neq r 0 Hne). cbn [orb].
  destruct (Z.eqb_spec r (-1)) as [->|Hm].
  { change (-1) with (Z.opp 1). rewrite Z.quot_opp_r, Z.quot_1_r by lia. rewrite andb_true_r. int64_cases. }
  rewrite andb_false_r. unfold representable. rewrite bool_decide_eq_true_2; [done|].
  destruct (Z.eq_dec r 1) as [->|]; [by rewrite Z.quot_1_r|].
  pose proof (Z.quot_abs l r Hne) as Ha. rewrite Z.quot_div_nonneg in Ha by lia.
  assert (Z.abs l / Z.abs r <= 4611686018427387904).
  { apply Z.div_le_upper_bound; [lia|]. unfold is_int64, INT64_MIN, INT64_MAX in *. nia. }
  unfold is_int64, INT64_MIN, INT64_MAX in *. lia.
Qed.
