(* ===== verification/ScriptVars.v ===== *)
(** * The variables of a script are a finite map

    The table of thirty-two entries with fixed buffers represents a map from names
    to values; setting, unsetting and reading a variable are the operations of the
    map, as long as the names and values fit. *)

From S2P Require Import Prelude CMonad CString ShellWords Script.

(** ** Texts in buffers *)

Lemma text_equal_ok b1 s1 b2 s2 : cstr b1 s1 -> cstr b2 s2 -> text_equal b1 b2 = Some (bool_decide (s1 = s2)).
Proof.
  intros H1 H2. destruct (strcmp_cstr _ _ _ _ H1 H2) as (r & E & Hr). unfold text_equal. rewrite E. cbn. f_equal.
  case_bool_decide as Hs; [apply Z.eqb_eq; tauto | apply Z.eqb_neq; tauto].
Qed.

Lemma copy_array_ok d cap src s :
  cstr src s -> 0 < cap <= zlen d ->
  exists d', copy_array d cap src = Some (if zlen s <? cap then 0 else -1, d') /\ zlen d' = zlen d /\
    (if zlen s <? cap then cstr d' s else d' = d).
Proof.
  intros Hs Hc. assert (copy_array d cap src = strncpy_body d src cap) as ->.
  { unfold copy_array, copy_text, strncpy_body, text_length. destruct (cap =? 0); [done|].
    destruct (strlen_loop src) as [n|]; [|done]. cbn. destruct (cap <=? n); [done|]. by destruct (ncopy_loop _ _ _ _). }
  destruct (Z.ltb_spec (zlen s) cap).
  - rewrite (strncpy_fits _ _ _ _ Hs) by lia. destruct Hs as (t & -> & Hnz).
    destruct (blit_total d (s ++ [0]) 0) as [d' E]; [lia | rewrite zlen_app; change (zlen [0]) with 1; lia|]. rewrite E.
    exists d'. split_and!; [done | by eapply blit_zlen | by eapply cstr_blit].
  - rewrite (strncpy_too_long _ _ _ _ Hs) by lia. by exists d.
Qed.

(** ** The representation *)

Definition valid_name (nm : bytes) : bool :=
  match nm with [] => false | c :: t => is_name_start c && forallb is_name_char t end.

Lemma variable_name_valid_ok b nm : cstr b nm -> variable_name_valid b = Some (valid_name nm).
Proof.
  intros (t & -> & Hnm). unfold variable_name_valid, valid_name. destruct nm as [|c nm]; [done|].
  change (rd ((c :: nm) ++ 0 :: t) 0) with (Some c). rewrite Some_bind. apply Forall_cons in Hnm as [Hc Hnm].
  rewrite (eqb_neq c 0 Hc). cbn [orb]. destruct (is_name_start c); [|done]. cbn [negb andb app drop].
  induction Hnm as [|d nm Hd Hnm IH]; [done|]. cbn. rewrite (eqb_neq d 0 Hd). destruct (is_name_char d); [exact IH | done].
Qed.

Definition shaped (v : dogescript_variable_t) : Prop :=
  zlen (v_name v) = DOGESCRIPT_VARIABLE_NAME_SIZE /\ zlen (v_value v) = DOGESCRIPT_VARIABLE_VALUE_SIZE.

Definition holds (v : dogescript_variable_t) (p : bytes * bytes) : Prop := cstr (v_name v) p.1 /\ cstr (v_value v) p.2.

(** The first entries of the table are the pairs of [l]. *)
Record listed {W} (s : script W) (l : list (bytes * bytes)) : Prop := Listed {
  ls_table : exists vs rest, variables s = vs ++ rest /\ Forall2 holds vs l;
  ls_shaped : Forall shaped (variables s);
  ls_size : zlen (variables s) = DOGESCRIPT_MAX_VARIABLES;
  ls_count : variable_count s = zlen l;
  ls_nodup : NoDup l.*1;
}.

Definition represents {W} (s : script W) (m : gmap bytes bytes) : Prop :=
  exists l, listed s l /\ m = list_to_map l.

(** Two lists of entries that differ in one place. *)
Lemma list_to_map_mid (l1 l2 : list (bytes * bytes)) nm x :
  NoDup (l1 ++ (nm, x) :: l2).*1 ->
  (list_to_map (l1 ++ (nm, x) :: l2) : gmap bytes bytes) = <[nm := x]> (list_to_map (l1 ++ l2)) /\
  (list_to_map (l1 ++ l2) : gmap bytes bytes) !! nm = None /\ NoDup (l1 ++ l2).*1.
Proof.
  intros Hnd. assert (l1 ++ (nm, x) :: l2 ≡ₚ (nm, x) :: l1 ++ l2) as Hp by (symmetry; apply Permutation_middle).
  assert (NoDup ((nm, x) :: l1 ++ l2).*1) as Hnd' by (by rewrite <- Hp).
  rewrite (list_to_map_proper _ _ Hnd Hp). cbn in Hnd'. apply NoDup_cons in Hnd' as [Hni Hnd'].
  split_and!; [done | by apply not_elem_of_list_to_map | done].
Qed.

(** ** Searching *)

Fixpoint index (nm : bytes) (l : list (bytes * bytes)) : option nat :=
  match l with
  | [] => None
  | p :: l => if bool_decide (nm = p.1) then Some 0%nat else S <$> index nm l
  end.

Lemma find_variable_ok name nm l vs1 vs2 rest :
  cstr name nm -> Forall2 holds vs2 l ->
  find_variable (length l) (zlen vs1) (vs1 ++ vs2 ++ rest) name =
  Some ((fun i => zlen vs1 + Z.of_nat i) <$> index nm l).
Proof.
  intros Hn Hl. revert vs1. induction Hl as [|v [nm' x] vs2 l [Hv _] Hl IH]; intros vs1; [done|]. cbn [length find_variable index app].
  rewrite rd_mid. cbn [mbind option_bind]. rewrite (text_equal_ok _ _ _ _ Hn Hv). cbn [mbind option_bind fst].
  case_bool_decide as E; [cbn; do 2 f_equal; lia|].
  specialize (IH (vs1 ++ [v])). rewrite <- app_assoc, zlen_app in IH. change (zlen [v]) with 1 in IH. cbn [app] in IH. rewrite IH.
  destruct (index nm l) as [i|]; cbn; [|done]. do 2 f_equal. lia.
Qed.

Lemma index_Some nm l i :
  index nm l = Some i -> exists x l1 l2, l = l1 ++ (nm, x) :: l2 /\ length l1 = i.
Proof.
  revert i. induction l as [|[nm' x] l IH]; intros i; cbn [index]; [done|]. case_bool_decide as E; cbn in E.
  - intros [= <-]. subst. by exists x, [], l.
  - destruct (index nm l) as [j|] eqn:Ej; [|done]. intros [= <-]. destruct (IH j eq_refl) as (y & l1 & l2 & -> & <-).
    by exists y, ((nm', x) :: l1), l2.
Qed.

Lemma index_None nm l : index nm l = None -> nm ∉ l.*1.
Proof.
  induction l as [|[nm' x] l IH]; cbn [index]; [intros _ H; by apply elem_of_nil in H|]. case_bool_decide as E; [done|]. cbn in E.
  destruct (index nm l); [done|]. intros _. cbn. rewrite not_elem_of_cons. split; [done | by apply IH].
Qed.

Section Ops.
Context {W : Type}.
Implicit Type s : script W.

Lemma lookup_variable_ok s l name nm :
  listed s l -> cstr name nm ->
  lookup_variable name s = Some (Val (Z.of_nat <$> index nm l), s).
Proof.
  intros Hl Hn. destruct (ls_table _ _ Hl) as (vs & rest & E & Hvs). unfold lookup_variable.
  rewrite (ls_count _ _ Hl), E. unfold zlen. rewrite Nat2Z.id.
  pose proof (find_variable_ok name nm l [] vs rest Hn Hvs) as Ef. change (zlen (@nil dogescript_variable_t)) with 0 in Ef.
  cbn [app] in Ef. rewrite Ef. by destruct (index nm l).
Qed.

(** The entry of a pair of the list. *)
Lemma listed_split s l1 p l2 :
  listed s (l1 ++ p :: l2) ->
  exists vs1 v vs2 rest, variables s = vs1 ++ v :: vs2 ++ rest /\ zlen vs1 = zlen l1 /\
    Forall2 holds vs1 l1 /\ holds v p /\ Forall2 holds vs2 l2 /\ shaped v.
Proof.
  intros Hl. destruct (ls_table _ _ Hl) as (vs & rest & E & Hvs).
  apply Forall2_app_inv_r in Hvs as (vs1 & vs2' & H1 & H2 & ->).
  apply Forall2_cons_inv_r in H2 as (v & vs2 & Hv & H2 & ->). exists vs1, v, vs2, rest.
  pose proof (ls_shaped _ _ Hl) as Hsh. rewrite E, <- app_assoc in *. split_and!; try done.
  - unfold zlen. by rewrite (Forall2_length _ _ _ H1).
  - apply Forall_app in Hsh as [_ Hsh]. by apply Forall_cons in Hsh as [? _].
Qed.

(** The value of a variable. *)
Lemma read_variable s m name nm argc argv path :
  represents s m -> cstr name nm -> is_name_start (default 0 (head nm)) = true -> nm <> lit "argc" ->
  exists b, get_variable name argc argv path s = Some (Val b, s) /\ cstr b (default [] (m !! nm)).
Proof.
  intros (l & Hl & ->) Hn Hstart Hargc. unfold get_variable.
  assert (exists c t, nm = c :: t /\ is_name_start c = true) as (c & t & Enm & Hc) by (destruct nm as [|c t]; [done | by exists c, t]).
  mlift (text_equal_ok name nm (clit "0") (lit "0") Hn (cstr_clit "0" ltac:(repeat constructor; done))). rewrite bool_decide_eq_false_2 by (rewrite Enm; intros [= -> _]; by vm_compute in Hc).
  mlift (text_equal_ok name nm (clit "argc") (lit "argc") Hn (cstr_clit "argc" ltac:(repeat constructor; done))). rewrite bool_decide_eq_false_2 by done.
  assert (rd name 0 = Some c) as Erd by (destruct Hn as (u & -> & _); by rewrite Enm). mlift Erd.
  assert ((49 <=? c) && (c <=? c_9) = false) as ->.
  { clear -Hc. unfold is_name_start, is_lower, is_upper, c_underscore, c_9 in *. destruct (Z.leb_spec 49 c), (Z.leb_spec c 57); try done.
    exfalso. revert Hc. bool_true; lia. }
  mrun (lookup_variable_ok _ _ _ _ Hl Hn). destruct (index nm l) as [i|] eqn:Ei; cbn [fmap option_fmap option_map].
  - apply index_Some in Ei as (x & l1 & l2 & -> & <-). destruct (listed_split _ _ _ _ Hl) as (vs1 & v & vs2 & rest & E & Hlen & _ & [_ Hv] & _ & _).
    rewrite bind_gets. assert (rd (variables s) (Z.of_nat (length l1)) = Some v) as Er.
    { rewrite E. change (Z.of_nat (length l1)) with (zlen l1). rewrite <- Hlen. apply rd_mid. }
    mlift Er. exists (v_value v). split; [done|].
    destruct (list_to_map_mid l1 l2 nm x (ls_nodup _ _ Hl)) as (-> & _ & _). by rewrite lookup_insert_eq.
  - exists (clit ""). split; [done|]. apply index_None in Ei. rewrite (not_elem_of_list_to_map_1 _ _ Ei). apply cstr_nil.
Qed.

(** Replace the value of an entry. *)
Lemma listed_update s l1 l2 nm x y vs1 v v' tl :
  listed s (l1 ++ (nm, y) :: l2) -> variables s = vs1 ++ v :: tl -> zlen vs1 = zlen l1 ->
  shaped v' -> holds v' (nm, x) ->
  listed (set_variables (vs1 ++ v' :: tl) (variable_count s) s) (l1 ++ (nm, x) :: l2).
Proof.
  intros Hl E Hlen Hsh Hv'. destruct (listed_split _ _ _ _ Hl) as (ws1 & w & ws2 & rest & E' & Hlen' & H1 & _ & H2 & _).
  rewrite E in E'. apply app_inj_1 in E' as [-> [= -> ->]]; [|unfold zlen in *; lia].
  pose proof (ls_shaped _ _ Hl) as Hs. rewrite E in Hs. apply Forall_app in Hs as [Hs1 [_ Hs2]%Forall_cons].
  split; cbn [set_variables variables variable_count].
  - exists (ws1 ++ v' :: ws2), rest. split; [by rewrite <- app_assoc|]. apply Forall2_app; [done | by constructor].
  - apply Forall_app. split; [done | by constructor].
  - pose proof (ls_size _ _ Hl) as Hz. rewrite E in Hz. rewrite <- Hz, !zlen_app, !zlen_cons. done.
  - rewrite (ls_count _ _ Hl), !zlen_app, !zlen_cons. done.
  - pose proof (ls_nodup _ _ Hl) as Hnd. by rewrite fmap_app, fmap_cons in *.
Qed.

(** Add an entry at the end. *)
Lemma listed_append s l nm x vs v v' rest :
  listed s l -> variables s = vs ++ v :: rest -> zlen vs = zlen l -> shaped v' -> holds v' (nm, x) -> nm ∉ l.*1 ->
  listed (set_variables (vs ++ v' :: rest) (variable_count s + 1) s) (l ++ [(nm, x)]).
Proof.
  intros Hl E Hlen Hsh Hv' Hni. destruct (ls_table _ _ Hl) as (ws & rest' & E' & Hws).
  pose proof (Forall2_length _ _ _ Hws). rewrite E in E'. apply app_inj_1 in E' as [-> <-]; [|unfold zlen in *; lia].
  pose proof (ls_shaped _ _ Hl) as Hs. rewrite E in Hs. apply Forall_app in Hs as [Hs1 [_ Hs2]%Forall_cons].
  split; cbn [set_variables variables variable_count].
  - exists (ws ++ [v']), rest. split; [by rewrite <- app_assoc|]. apply Forall2_app; [done | by constructor].
  - apply Forall_app. split; [done | by constructor].
  - pose proof (ls_size _ _ Hl) as Hz. rewrite E in Hz. rewrite <- Hz, !zlen_app, !zlen_cons. done.
  - rewrite (ls_count _ _ Hl), zlen_app. done.
  - rewrite fmap_app. apply NoDup_app. split_and!; [apply (ls_nodup _ _ Hl) | | repeat constructor; apply not_elem_of_nil].
    intros n Hn Hn'. apply list_elem_of_singleton in Hn'. by subst.
Qed.

(** [set] of the map: what does not fit is refused. *)
Definition set_spec (nm x : bytes) (m : gmap bytes bytes) : option (gmap bytes bytes) :=
  if valid_name nm && (zlen x <? DOGESCRIPT_VARIABLE_VALUE_SIZE) &&
     (bool_decide (is_Some (m !! nm)) ||
      (Z.of_nat (size m) <? DOGESCRIPT_MAX_VARIABLES) && (zlen nm <? DOGESCRIPT_VARIABLE_NAME_SIZE))
  then Some (<[nm := x]> m) else None.

Lemma listed_map_size s l : listed s l -> Z.of_nat (size (list_to_map l : gmap bytes bytes)) = zlen l.
Proof.
  intros Hl. unfold zlen. f_equal. rewrite <- length_map_to_list. apply Permutation_length, map_to_list_to_map, (ls_nodup _ _ Hl).
Qed.

(** A step that only writes the table. *)
Definition table_step (o : option (outcome Z * script W)) (rc : Z) s (m : gmap bytes bytes) : Prop :=
  exists vs n, o = Some (Val rc, set_variables vs n s) /\ represents (set_variables vs n s) m.

Lemma set_variables_same s : set_variables (variables s) (variable_count s) s = s.
Proof. by destruct s. Qed.

Lemma table_unchanged s m rc : represents s m -> table_step (Some (Val rc, s)) rc s m.
Proof. intros Hm. exists (variables s), (variable_count s). by rewrite set_variables_same. Qed.

(** An existing variable is overwritten. *)
Lemma set_existing s l1 l2 nm y x name value :
  listed s (l1 ++ (nm, y) :: l2) -> cstr name nm -> cstr value x -> zlen x < DOGESCRIPT_VARIABLE_VALUE_SIZE ->
  index nm (l1 ++ (nm, y) :: l2) = Some (length l1) -> valid_name nm = true ->
  exists vs, set_variable name value s = Some (Val 0, set_variables vs (variable_count s) s) /\
    listed (set_variables vs (variable_count s) s) (l1 ++ (nm, x) :: l2).
Proof.
  intros Hl Hn Hv Hx Hi Hvalid. destruct (listed_split _ _ _ _ Hl) as (vs1 & v & vs2 & rest & E & Hlen & H1 & [Hvn _] & H2 & Hsh).
  unfold set_variable. mlift (variable_name_valid_ok _ _ Hn). rewrite Hvalid. cbn [negb].
  mlift (strlen_cstr _ _ Hv). rewrite (proj2 (Z.leb_gt _ _)) by done.
  mrun (lookup_variable_ok _ _ _ _ Hl Hn). rewrite Hi, !bind_gets. cbn [fmap option_fmap option_map].
  change (Z.of_nat (length l1)) with (zlen l1). rewrite <- Hlen.
  assert (rd (variables s) (zlen vs1) = Some v) as Er by (rewrite E; apply rd_mid). mlift Er. destruct Hsh as [Hs1 Hs2].
  destruct (copy_array_ok (v_value v) DOGESCRIPT_VARIABLE_VALUE_SIZE value x Hv) as (text & Ec & Hz & Ht);
    [unfold DOGESCRIPT_VARIABLE_VALUE_SIZE in *; lia|]. rewrite (proj2 (Z.ltb_lt _ _)) in Ec, Ht by done.
  mlift Ec. assert (wr (variables s) (zlen vs1) (Var (v_name v) text) = Some (vs1 ++ Var (v_name v) text :: vs2 ++ rest)) as Ew
    by (rewrite E; apply wr_mid). mlift Ew. rewrite bind_modify.
  eexists. split; [done|]. eapply listed_update; [done..| |]; [split; cbn; congruence | done].
Qed.

(** A new variable is appended. *)
Lemma set_new s l nm x name value :
  listed s l -> cstr name nm -> cstr value x -> zlen x < DOGESCRIPT_VARIABLE_VALUE_SIZE ->
  index nm l = None -> valid_name nm = true -> zlen l < DOGESCRIPT_MAX_VARIABLES ->
  exists vs n, set_variable name value s =
      Some (Val (if zlen nm <? DOGESCRIPT_VARIABLE_NAME_SIZE then 0 else -1), set_variables vs n s) /\
    listed (set_variables vs n s) (if zlen nm <? DOGESCRIPT_VARIABLE_NAME_SIZE then l ++ [(nm, x)] else l).
Proof.
  intros Hl Hn Hv Hx Hi Hvalid Hroom. destruct (ls_table _ _ Hl) as (vs & rest & E & Hvs).
  pose proof (ls_size _ _ Hl) as Hz. pose proof (ls_shaped _ _ Hl) as Hsh. rewrite E in Hz, Hsh.
  assert (zlen vs = zlen l) as Hlen by (unfold zlen; by rewrite (Forall2_length _ _ _ Hvs)).
  destruct rest as [|v rest]; [rewrite app_nil_r in Hz; lia|].
  assert (shaped v) as [Hs1 Hs2] by (apply Forall_app in Hsh as [_ Hsh]; by apply Forall_cons in Hsh as [? _]).
  unfold set_variable. mlift (variable_name_valid_ok _ _ Hn). rewrite Hvalid. cbn [negb].
  mlift (strlen_cstr _ _ Hv). rewrite (proj2 (Z.leb_gt _ _)) by done.
  mrun (lookup_variable_ok _ _ _ _ Hl Hn). rewrite Hi, !bind_gets. cbn [fmap option_fmap option_map].
  rewrite (ls_count _ _ Hl), (eqb_neq (zlen l) DOGESCRIPT_MAX_VARIABLES), <- Hlen by lia.
  assert (rd (variables s) (zlen vs) = Some v) as Er by (rewrite E; apply rd_mid). mlift Er.
  destruct (copy_array_ok (v_name v) DOGESCRIPT_VARIABLE_NAME_SIZE name nm Hn) as (nbuf & Ec & Hnz & Hnt);
    [unfold DOGESCRIPT_VARIABLE_NAME_SIZE in *; lia|].
  mlift Ec. assert (wr (variables s) (zlen vs) (Var nbuf (v_value v)) = Some (vs ++ Var nbuf (v_value v) :: rest)) as Ew
    by (rewrite E; apply wr_mid). mlift Ew. rewrite bind_modify.
  destruct (Z.ltb_spec (zlen nm) DOGESCRIPT_VARIABLE_NAME_SIZE); cbn [negb Z.eqb].
  - rewrite (bind_lift _ _ _ _ (rd_mid vs (Var nbuf (v_value v)) rest)). cbn [v_value v_name].
    destruct (copy_array_ok (v_value v) DOGESCRIPT_VARIABLE_VALUE_SIZE value x Hv) as (text & Ect & Htz & Ht);
      [unfold DOGESCRIPT_VARIABLE_VALUE_SIZE in *; lia|]. rewrite (proj2 (Z.ltb_lt _ _)) in Ect, Ht by done.
    mlift Ect. rewrite (bind_lift _ _ _ _ (wr_mid vs _ rest (Var nbuf text))). rewrite !bind_modify. cbn [negb Z.eqb].
    rewrite bind_modify. eexists _, (variable_count s + 1). split; [rewrite (ls_count _ _ Hl), <- Hlen; done|].
    eapply listed_append; [done..| | |by apply index_None]; [split; cbn; congruence | done].
  - subst nbuf. eexists (vs ++ v :: rest), (variable_count s). rewrite (ls_count _ _ Hl), <- Hlen.
    split; [by destruct v|]. rewrite Hlen, <- (ls_count _ _ Hl), <- E, set_variables_same. done.
Qed.

Lemma set_variable_ok s m name nm value x :
  represents s m -> cstr name nm -> cstr value x ->
  table_step (set_variable name value s) (if set_spec nm x m is Some _ then 0 else -1) s (default m (set_spec nm x m)).
Proof.
  intros Hm Hn Hv. pose proof Hm as (l & Hl & Em). unfold set_spec.
  destruct (valid_name nm) eqn:Hvalid; cbn [andb].
  2: { unfold set_variable. mlift (variable_name_valid_ok _ _ Hn). rewrite Hvalid. by apply table_unchanged. }
  destruct (Z.ltb_spec (zlen x) DOGESCRIPT_VARIABLE_VALUE_SIZE) as [Hx|Hx]; cbn [andb].
  2: { unfold set_variable. mlift (variable_name_valid_ok _ _ Hn). rewrite Hvalid. cbn [negb].
       mlift (strlen_cstr _ _ Hv). rewrite (proj2 (Z.leb_le _ _)) by done. by apply table_unchanged. }
  destruct (index nm l) as [i|] eqn:Ei.
  - pose proof Ei as (y & l1 & l2 & El & <-)%index_Some. subst l m.
    destruct (set_existing _ _ _ _ _ _ _ _ Hl Hn Hv Hx Ei Hvalid) as (vs & E & Hl').
    destruct (list_to_map_mid l1 l2 nm y (ls_nodup _ _ Hl)) as (-> & _ & _).
    rewrite bool_decide_eq_true_2 by (rewrite lookup_insert_eq; by eexists). cbn [orb].
    exists vs, (variable_count s). split; [done|]. eexists. split; [done|].
    destruct (list_to_map_mid l1 l2 nm x (ls_nodup _ _ Hl')) as (-> & _ & _). cbn [default]. by rewrite insert_insert_eq.
  - pose proof (index_None _ _ Ei) as Hni. subst m. rewrite bool_decide_eq_false_2 by (rewrite (not_elem_of_list_to_map_1 _ _ Hni); by intros [??]).
    cbn [orb]. rewrite (listed_map_size _ _ Hl). destruct (Z.ltb_spec (zlen l) DOGESCRIPT_MAX_VARIABLES) as [Hroom|Hfull]; cbn [andb].
    + destruct (set_new _ _ _ _ _ _ Hl Hn Hv Hx Ei Hvalid Hroom) as (vs & n & E & Hl').
      destruct (zlen nm <? DOGESCRIPT_VARIABLE_NAME_SIZE); exists vs, n; (split; [done|]); eexists; (split; [done|]); [|done].
      cbn [default]. pose proof (ls_nodup _ _ Hl') as Hnd. destruct (list_to_map_mid l [] nm x Hnd) as (-> & _ & _). by rewrite app_nil_r.
    + unfold set_variable. mlift (variable_name_valid_ok _ _ Hn). rewrite Hvalid. cbn [negb].
      mlift (strlen_cstr _ _ Hv). rewrite (proj2 (Z.leb_gt _ _)) by done.
      mrun (lookup_variable_ok _ _ _ _ Hl Hn). rewrite Ei, !bind_gets. cbn [fmap option_fmap option_map].
      assert (variable_count s = DOGESCRIPT_MAX_VARIABLES) as ->.
      { rewrite (ls_count _ _ Hl). destruct (ls_table _ _ Hl) as (vs & rest & E & Hvs). pose proof (ls_size _ _ Hl) as Hz.
        rewrite E, zlen_app in Hz. pose proof (zlen_nonneg rest). unfold zlen in *. rewrite (Forall2_length _ _ _ Hvs) in Hz. lia. }
      cbn. by apply table_unchanged.
Qed.

(** The entries after a removed one move down. *)
Lemma shift_down_ok l2 vs1 v ws rest :
  Forall2 holds ws l2 -> Forall shaped (v :: ws) ->
  Forall (fun p => zlen p.1 < DOGESCRIPT_VARIABLE_NAME_SIZE /\ zlen p.2 < DOGESCRIPT_VARIABLE_VALUE_SIZE) l2 ->
  exists ws' last, shift_down (length l2) (zlen vs1 + 1) (vs1 ++ v :: ws ++ rest) = Some (vs1 ++ ws' ++ last :: rest) /\
    Forall2 holds ws' l2 /\ Forall shaped (last :: ws').
Proof.
  intros Hws. revert vs1 v. induction Hws as [|w [nm x] ws l2 [Hwn Hwx] Hws IH]; intros vs1 v Hsh Hfit; cbn [length shift_down].
  { exists [], v. done. }
  apply Forall_cons in Hsh as [[Hv1 Hv2] Hsh]. apply Forall_cons in Hfit as [[Hf1 Hf2] Hfit]. cbn in Hf1, Hf2.
  assert (rd (vs1 ++ v :: (w :: ws) ++ rest) (zlen vs1 + 1) = Some w) as E1.
  { replace (vs1 ++ v :: (w :: ws) ++ rest) with ((vs1 ++ [v]) ++ w :: ws ++ rest) by (by rewrite <- app_assoc).
    replace (zlen vs1 + 1) with (zlen (vs1 ++ [v])) by (rewrite zlen_app; done). apply rd_mid. }
  rewrite E1. cbn [mbind option_bind]. replace (zlen vs1 + 1 - 1) with (zlen vs1) by lia. rewrite rd_mid. cbn [mbind option_bind].
  destruct (copy_array_ok (v_name v) DOGESCRIPT_VARIABLE_NAME_SIZE _ _ Hwn) as (nb & En & Hnz & Hn); [unfold DOGESCRIPT_VARIABLE_NAME_SIZE in *; lia|].
  destruct (copy_array_ok (v_value v) DOGESCRIPT_VARIABLE_VALUE_SIZE _ _ Hwx) as (xb & Ex & Hxz & Hx); [unfold DOGESCRIPT_VARIABLE_VALUE_SIZE in *; lia|].
  cbn [fst snd] in *. rewrite (proj2 (Z.ltb_lt _ _) Hf1) in En, Hn. rewrite (proj2 (Z.ltb_lt _ _) Hf2) in Ex, Hx.
  rewrite En. cbn [mbind option_bind]. rewrite Ex. cbn [mbind option_bind]. rewrite wr_mid. cbn [mbind option_bind app].
  destruct (IH (vs1 ++ [Var nb xb]) w Hsh Hfit) as (ws' & last & E & Hh & Hs').
  rewrite <- app_assoc, zlen_app in E. change (zlen [Var nb xb]) with 1 in E. cbn [app] in E. rewrite E.
  exists (Var nb xb :: ws'), last. rewrite <- app_assoc. split_and!; [done | by constructor |].
  apply Forall_cons in Hs' as [? ?]. constructor; [done|]. constructor; [split; cbn; congruence | done].
Qed.

Lemma listed_fits s l : listed s l ->
  Forall (fun p => zlen p.1 < DOGESCRIPT_VARIABLE_NAME_SIZE /\ zlen p.2 < DOGESCRIPT_VARIABLE_VALUE_SIZE) l.
Proof.
  intros Hl. destruct (ls_table _ _ Hl) as (vs & rest & E & Hvs). pose proof (ls_shaped _ _ Hl) as Hsh.
  rewrite E in Hsh. apply Forall_app in Hsh as [Hsh _]. clear E Hl. induction Hvs as [|v [nm x] vs l [H1 H2] Hvs IH]; [constructor|].
  apply Forall_cons in Hsh as [[Hs1 Hs2] Hsh]. constructor; [|by apply IH].
  cbn [fst snd] in *. pose proof (cstr_zlen _ _ H1). pose proof (cstr_zlen _ _ H2). lia.
Qed.

Lemma unset_variable_ok s m name nm :
  represents s m -> cstr name nm -> table_step (unset_variable name s) 0 s (delete nm m).
Proof.
  intros Hm Hn. pose proof Hm as (l & Hl & Em). unfold unset_variable. mrun (lookup_variable_ok _ _ _ _ Hl Hn).
  destruct (index nm l) as [i|] eqn:Ei; cbn [fmap option_fmap option_map].
  2: { pose proof (index_None _ _ Ei) as Hni. rewrite delete_id; [by apply table_unchanged|]. subst m. by apply not_elem_of_list_to_map_1. }
  apply index_Some in Ei as (y & l1 & l2 & -> & <-).
  destruct (listed_split _ _ _ _ Hl) as (vs1 & v & vs2 & rest & E & Hlen & H1 & _ & H2 & Hv).
  pose proof (listed_fits _ _ Hl) as Hfit. apply Forall_app in Hfit as [_ [_ Hfit]%Forall_cons].
  pose proof (ls_shaped _ _ Hl) as Hsh. rewrite E in Hsh. apply Forall_app in Hsh as [Hsh1 [_ Hsh2]%Forall_cons]. apply Forall_app in Hsh2 as [Hsh2 Hsh3].
  destruct (shift_down_ok l2 vs1 v vs2 rest H2 ltac:(by constructor) Hfit) as (ws' & last & Es & Hh & [Hsl Hs']%Forall_cons).
  rewrite !bind_gets. rewrite (ls_count _ _ Hl), zlen_app, zlen_cons, E.
  replace (Z.to_nat (zlen l1 + (1 + zlen l2) - (Z.of_nat (length l1) + 1))) with (length l2) by (unfold zlen; lia).
  change (Z.of_nat (length l1)) with (zlen l1). rewrite <- Hlen. mlift Es. rewrite bind_modify.
  eexists _, _. split; [done|]. exists (l1 ++ l2). subst m.
  destruct (list_to_map_mid l1 l2 nm y (ls_nodup _ _ Hl)) as (-> & Hnone & Hnd). rewrite delete_insert_id by done. split; [|done].
  split; cbn [set_variables variables variable_count].
  - exists (vs1 ++ ws'), (last :: rest). split; [by rewrite <- app_assoc | by apply Forall2_app].
  - rewrite !Forall_app. split_and!; [done..|by constructor].
  - pose proof (ls_size _ _ Hl) as Hz. rewrite E in Hz. rewrite <- Hz, !zlen_app, !zlen_cons, !zlen_app.
    assert (zlen ws' = zlen vs2) as -> by (unfold zlen; by rewrite (Forall2_length _ _ _ Hh), (Forall2_length _ _ _ H2)). lia.
  - rewrite zlen_app. lia.
  - done.
Qed.

End Ops.
