(* ===== verification/ScriptSafe.v ===== *)
(** * Scripts run to their end

    Whatever the script, its arguments and the answers of the system calls, the
    interpreter stays inside its arrays and stops.  [script_ok] is the invariant of
    the interpreter; each operation keeps it ([safe]). *)

From S2P Require Import Prelude CMonad CString ShellWords Script ScriptNumbers ScriptVars.

(** What a system call may store: no more than it was given room for, and a
    terminated text when it succeeds. *)
Class SafeOs (W : Type) `{ScriptOs W} := {
  os_stat_size : forall w path rc size is_dir exists_ w',
    os_stat w path = (rc, Some (size, is_dir, exists_), w') -> 0 <= size;
  os_read_bound : forall w path size rc data w', 0 <= size ->
    os_read_file w path size = (rc, data, w') -> zlen data <= size;
  os_read_at_bound : forall w path offset size rc data w', 0 <= size ->
    os_read_file_at w path offset size = (rc, data, w') -> zlen data <= size;
  os_input_text : forall w prompt capacity rc data w', 0 < capacity ->
    os_input w prompt capacity = (rc, data, w') -> zlen data <= capacity /\ (0 <= s64 rc -> is_text data);
  os_cwd_text : forall w capacity rc data w', 0 < capacity ->
    os_get_cwd w capacity = (rc, data, w') -> zlen data <= capacity /\ (0 <= s64 rc -> is_text data);
}.

#[export] Hint Resolve is_text_cons is_text_clit is_text_prefix is_text_zero : safe.

(** ** Pure steps *)

Section Pure.
Context {S : Type} (I : S -> Prop).

Lemma safe_text_equal a b : is_text a -> is_text b -> safe I (lift (text_equal a b)) (fun _ => True).
Proof. intros (s & Hs) (t & Ht). apply safe_lift. rewrite (text_equal_ok _ _ _ _ Hs Ht). by eexists. Qed.

Lemma safe_text_length b : is_text b -> safe I (lift (text_length (Some b))) (fun n => 0 <= n < zlen b /\ rd b n = Some 0).
Proof.
  intros (s & Hs). apply safe_lift. cbn [text_length]. rewrite (strlen_cstr _ _ Hs). eexists. split; [done|].
  pose proof (cstr_zlen _ _ Hs). split; [split; [apply zlen_nonneg | done]|]. destruct Hs as (t & -> & _). apply rd_mid.
Qed.

Lemma safe_head b : is_text b -> safe I (lift (rd b 0)) (fun c => c <> 0 -> is_text (drop 1 b)).
Proof. intros (c & t & -> & Ht)%is_text_head. apply safe_lift. by exists c. Qed.

Lemma safe_rd {A} (b : list A) i (P : A -> Prop) : Forall P b -> 0 <= i < zlen b -> safe I (lift (rd b i)) P.
Proof.
  intros Hb Hi. apply safe_lift. destruct (rd_is_Some b i Hi) as [x E]. exists x. split; [done|].
  rewrite rd_lookup in E by lia. by eapply Forall_lookup_1.
Qed.

Lemma safe_wr {A} (b : list A) i v (P : list A -> Prop) :
  0 <= i < zlen b -> (forall b', wr b i v = Some b' -> P b') -> safe I (lift (wr b i v)) P.
Proof. intros Hi HP. apply safe_lift. destruct (wr_is_Some b i v Hi) as [b' E]. exists b'. split; [done | by apply HP]. Qed.

Lemma safe_parse b : is_text b -> safe I (lift (parse_integer b)) (fun r => forall v, r = Some v -> is_int64 v).
Proof.
  intros (s & Hs). apply safe_lift. rewrite (parse_integer_ok _ _ Hs). eexists. split; [done|]. intros v. unfold integer_of.
  destruct (split_sign s) as [neg ds]. destruct (_ && _) eqn:E; [|done]. intros [= <-].
  apply andb_true_iff in E as [_ E]. by apply bool_decide_eq_true_1 in E.
Qed.

Lemma safe_format b cap v : is_int64 v -> 20 < cap <= zlen b -> safe I (lift (format_integer b cap v)) (fun r => zlen r.2 = zlen b /\ is_text r.2).
Proof.
  intros Hv Hc. pose proof (zlen_numeral v Hv). apply safe_lift. rewrite format_integer_ok by (done || lia).
  destruct (blit_total b (numeral v ++ [0]) 0) as [b' E]; [lia | rewrite zlen_app; change (zlen [0]) with 1; lia|].
  rewrite E. eexists. split; [done|]. split; [by eapply blit_zlen|]. eexists. eapply cstr_blit; [apply nozero_numeral | done].
Qed.

Lemma safe_copy d cap src :
  is_text src -> is_text d -> 0 < cap <= zlen d ->
  safe I (lift (copy_array d cap src)) (fun r => zlen r.2 = zlen d /\ is_text r.2).
Proof.
  intros (s & Hs) Hd Hc. apply safe_lift. destruct (copy_array_ok d cap src s Hs Hc) as (d' & E & Hz & Ht).
  eexists. split; [exact E|]. split; [done|]. cbn. destruct (zlen s <? cap); [by exists s | by subst].
Qed.

Lemma safe_compare a b : is_text a -> is_text b -> safe I (lift (compare_values a b)) (fun _ => True).
Proof.
  intros (s & Hs) (t & Ht). apply safe_lift. unfold compare_values. rewrite (parse_integer_ok _ _ Hs). cbn [mbind option_bind].
  destruct (strcmp_cstr _ _ _ _ Hs Ht) as (r & Er & _). destruct (integer_of s); [|by exists r].
  rewrite (parse_integer_ok _ _ Ht). cbn [mbind option_bind]. destruct (integer_of t); [by eexists | by exists r].
Qed.

Lemma safe_name_valid b : is_text b -> safe I (lift (variable_name_valid b)) (fun _ => True).
Proof. intros (s & Hs). apply safe_lift. rewrite (variable_name_valid_ok _ _ Hs). by eexists. Qed.

(** A block stored at the start of a buffer of the same size or larger. *)
Lemma safe_blit0 (b d : bytes) : zlen d <= zlen b -> safe I (lift (blit b 0 d)) (fun b' => zlen b' = zlen b /\ b' = d ++ drop (length d) b).
Proof.
  intros Hd. apply safe_lift. destruct (blit_total b d 0) as [b' E]; [lia..|]. exists b'. split; [done|].
  split; [by eapply blit_zlen | by apply blit_0_Some in E as [_ ->]].
Qed.

End Pure.

#[export] Hint Resolve safe_text_equal safe_text_length safe_head safe_parse safe_copy safe_compare safe_name_valid : safe.

(** ** The scanner: the last cell of the array stays zero *)

Section ScannerSafe.
Context (space : Z -> bool) (size cap : Z).
Hypothesis space_0 : space 0 = false.
Hypothesis cap_0 : 0 <= cap.

Definition sealed (storage : bytes) : Prop := zlen storage = size /\ rd storage (size - 1) = Some 0.

Lemma put_char_safe w c : 0 <= w -> safe sealed (put_char size w c) (fun _ => True).
Proof.
  intros Hw st [Hz Hl]. unfold put_char. destruct (Z.leb_spec size (w + 1)); [by exists (Ret (-1)), st|].
  destruct (wr_is_Some st w c) as [st' E]; [lia|]. rewrite E. exists (Val tt), st'. split_and!; [done | | done].
  split; [by rewrite (wr_zlen _ _ _ _ E)|]. rewrite (rd_wr_ne _ _ _ _ _ E); [done | lia].
Qed.

(** What is left of the line [s] with at most [n] characters. *)
Definition left_over (t : bytes) (n : nat) (r : bytes * Z * Z) : Prop :=
  (exists s', r.1.1 = s' ++ 0 :: t /\ nozero s' /\ (length s' <= n)%nat) /\ 0 <= r.2.

Lemma left_over_le t n m r : left_over t n r -> (n <= m)%nat -> left_over t m r.
Proof. intros [(s' & ? & ? & ?) ?] Hm. split; [|done]. exists s'. split_and!; [done..|lia]. Qed.

Lemma scan_put t n line quote w c :
  0 <= w -> (forall w, 0 <= w -> safe sealed (scan_word space size line quote w) (left_over t n)) ->
  safe sealed (put_char size w c;; scan_word space size line quote (w + 1)) (left_over t n).
Proof. intros Hw Hs. eapply safe_bind; [by apply put_char_safe|]. intros _ _. apply Hs. lia. Qed.

Lemma scan_word_safe n s t quote w :
  (length s <= n)%nat -> nozero s -> 0 <= w ->
  safe sealed (scan_word space size (s ++ 0 :: t) quote w) (left_over t (length s)).
Proof.
  revert s quote w. induction n as [|n IH]; intros [|c s] quote w Hn Hs Hw; cbn in Hn; try lia; cbn [app scan_word].
  1,2: rewrite Z.eqb_refl; apply safe_ret; split; [by exists [] | done].
  apply Forall_cons in Hs as [Hc Hs]. rewrite (eqb_neq c 0 Hc).
  assert (forall m s' quote w, nozero s' -> (length s' <= n)%nat -> (length s' <= m)%nat -> 0 <= w ->
    safe sealed (scan_word space size (s' ++ 0 :: t) quote w) (left_over t m)) as Hrec.
  { intros m s' quote' w' Hs' Hl Hm Hw'. eapply safe_conseq; [by apply IH|]. intros r Hr. by eapply left_over_le. }
  destruct (_ && space c). { apply safe_ret. split; [exists (c :: s); split_and!; [done | by constructor | done] | done]. }
  destruct (_ && negb _).
  - destruct s as [|d s]; cbn [app]; [apply safe_exit|]. apply Forall_cons in Hs as [Hd Hs]. rewrite (eqb_neq d 0 Hd).
    apply scan_put; [done|]. intros w' Hw'. apply Hrec; try done; cbn in *; lia.
  - destruct (negb _); [destruct (c =? quote)|destruct (_ || _)];
      first [apply Hrec; try done; cbn; lia | apply scan_put; [done|]; intros w' Hw'; apply Hrec; try done; cbn; lia].
Qed.

(** The first character of a word is read. *)
Lemma scan_first_safe c s t w :
  c <> 0 -> nozero s -> space c = false -> 0 <= w ->
  safe sealed (scan_word space size (c :: s ++ 0 :: t) 0 w) (left_over t (length s)).
Proof.
  intros Hc Hs Hsp Hw. cbn [scan_word]. rewrite (eqb_neq c 0 Hc), Hsp, andb_false_r.
  assert (forall m s' quote w, nozero s' -> (length s' <= m)%nat -> 0 <= w ->
    safe sealed (scan_word space size (s' ++ 0 :: t) quote w) (left_over t m)) as Hrec.
  { intros m s' quote' w' Hs' Hm Hw'. eapply safe_conseq; [by apply (scan_word_safe (length s'))|]. intros r Hr. by eapply left_over_le. }
  destruct (_ && negb _).
  - destruct s as [|d s]; cbn [app]; [apply safe_exit|]. apply Forall_cons in Hs as [Hd Hs]. rewrite (eqb_neq d 0 Hd).
    apply scan_put; [done|]. intros w' Hw'. apply Hrec; try done; cbn; lia.
  - cbn [negb Z.eqb]. destruct (_ || _); [by apply Hrec|]. apply scan_put; [done|]. intros w' Hw'. by apply Hrec.
Qed.

Lemma skip_spaces_rest s t :
  nozero s -> exists s', skip_spaces space (s ++ 0 :: t) = Some (s' ++ 0 :: t) /\ nozero s' /\ (length s' <= length s)%nat /\
    (forall c s'', s' = c :: s'' -> space c = false).
Proof.
  induction s as [|c s IH]; intros Hs; cbn; [rewrite space_0; by exists []|].
  destruct (space c) eqn:E.
  - apply Forall_cons in Hs as [_ Hs]. destruct (IH Hs) as (s' & -> & ? & ? & ?). exists s'. split_and!; [done..|lia|done].
  - exists (c :: s). split_and!; [done..|]. by intros ?? [= <- _].
Qed.

(** The starts of at most [cap] words, all inside the array. *)
Definition starts_ok (l : list Z) : Prop := zlen l <= cap /\ Forall (fun start => 0 <= start < size) l.

Lemma scan_words_safe n s t w args :
  (length s < n)%nat -> nozero s -> 0 <= w -> starts_ok args ->
  safe sealed (scan_words space size cap n (s ++ 0 :: t) w args) starts_ok.
Proof.
  revert s w args. induction n as [|n IH]; intros s w args Hn Hs Hw Ha; [lia|]. cbn [scan_words].
  eapply safe_bind; [apply safe_head, is_text_zero|]. intros c _. destruct (c =? 0); [by apply safe_ret|].
  destruct (skip_spaces_rest s t Hs) as (s' & E & Hs' & Hl & Hfirst). rewrite E.
  eapply safe_bind; [apply (safe_lift _ _ (fun l => l = s' ++ 0 :: t)); by eexists|]. intros line ->.
  destruct s' as [|d s']; cbn [app].
  { eapply safe_bind; [apply (safe_lift _ _ (fun c => c = 0)); by eexists|]. intros ? ->. by apply safe_ret. }
  apply Forall_cons in Hs' as [Hd Hs'].
  eapply safe_bind; [apply (safe_lift _ _ (fun c => c = d)); by eexists|]. intros ? ->. rewrite (eqb_neq d 0 Hd).
  destruct (_ || _) eqn:Efull; [apply safe_exit|]. apply orb_false_iff in Efull as [Hcap%Z.eqb_neq Hsz%Z.leb_gt].
  eapply safe_bind; [by apply scan_first_safe; [| |eapply Hfirst|]|]. intros [[line quote] stop] [(s'' & El & Hs'' & Hl'') Hstop].
  cbn in El, Hstop. subst line. destruct (_ || _) eqn:Eend; [apply safe_exit|]. apply orb_false_iff in Eend as [_ He%Z.leb_gt].
  apply (safe_bind _ _ _ (fun _ => True)).
  { intros st [Hz Hlast]. destruct (wr_is_Some st stop 0) as [st' Ew]; [lia|]. rewrite Ew. exists (Val tt), st'. split_and!; [done| |done].
    split; [by rewrite (wr_zlen _ _ _ _ Ew)|]. destruct (Z.eq_dec stop (size - 1)) as [->|]; [by eapply rd_wr_eq|].
    by rewrite (rd_wr_ne _ _ _ _ _ Ew) by lia. }
  intros _ _. destruct Ha as [Ha1 Ha2]. cbn [length] in Hl. apply IH; [lia | done | lia|]. split.
  - rewrite zlen_app. change (zlen [w]) with 1. lia.
  - apply Forall_app. split; [done|]. by repeat constructor.
Qed.

Lemma tokenize_safe line : is_text line -> safe sealed (tokenize space size cap line) starts_ok.
Proof.
  intros (s & t & -> & Hs). unfold tokenize. apply scan_words_safe; [rewrite length_app; cbn; lia | done | done |].
  split; [done | constructor].
Qed.

End ScannerSafe.

(** ** System calls

    An invariant that does not look at the operating system is kept by them. *)

Class Quiet {W} (I : script W -> Prop) : Prop := quiet_os : forall w s, I s -> I (set_os w s).

Section Output.
Context {W : Type} `{SafeOs W} (I : script W -> Prop) `{!Quiet I}.

Lemma quiet_call {A} (f : W -> A * W) (Q : A -> Prop) : (forall w a w', f w = (a, w') -> Q a) -> safe I (call f) Q.
Proof.
  intros Hq s Hs. unfold call. destruct (f (os s)) as [a w] eqn:E. exists (Val a), (set_os w s).
  split_and!; [done | by apply quiet_os | by eapply Hq].
Qed.

Lemma quiet_print b : safe I (print b) (fun _ => True).
Proof. apply safe_modify. intros s Hs. by apply quiet_os. Qed.

Lemma quiet_println b : safe I (println b) (fun _ => True).
Proof. eapply safe_bind; [apply quiet_print|]. intros _ _. apply quiet_print. Qed.

Lemma quiet_say t : safe I (say t) (fun _ => True).
Proof. apply quiet_println. Qed.

Lemma quiet_complain {A} t (Q : A -> Prop) : safe I (complain t) Q.
Proof. eapply safe_bind; [apply quiet_say|]. intros _ _. apply safe_exit. Qed.

Lemma quiet_case {A} b names (m1 m2 : M (script W) A) (Q : A -> Prop) :
  is_text b -> safe I m1 Q -> safe I m2 Q -> safe I (case b names m1 m2) Q.
Proof.
  intros Hb H1 H2. induction names as [|nm names IH]; [done|]. cbn. eapply safe_bind; [eauto with safe|]. by intros [|] _.
Qed.

Lemma quiet_stat b : safe I (stat b) (fun r => 0 <= r.2.1.1).
Proof.
  unfold stat. apply (safe_bind _ _ _ (fun r => forall size d e, r.2 = Some (size, d, e) -> 0 <= size)).
  - apply quiet_call. intros w [rc info] w' E size d e Ei. cbn in Ei. subst info. by eapply os_stat_size.
  - intros [rc [[[size d] e]|]] Hr; apply safe_ret; [by eapply Hr | done].
Qed.

End Output.

(** ** The invariant *)

Definition var_ok (v : dogescript_variable_t) : Prop := shaped v /\ is_text (v_name v) /\ is_text (v_value v).
Definition token_ok (b : bytes) : Prop := zlen b = DOGESCRIPT_VARIABLE_VALUE_SIZE /\ is_text b.

Definition reader_ok (n : Z) (r : script_reader_t) : Prop :=
  file_size r = n /\ zlen (cache r) = DOGESCRIPT_READ_BUFFER_SIZE /\ 0 <= cache_start r /\
  cache_length r <= DOGESCRIPT_READ_BUFFER_SIZE.

(** The tables of the program. *)
Record tables_ok {W} (s : script W) : Prop := TablesOk {
  to_vars : zlen (variables s) = DOGESCRIPT_MAX_VARIABLES /\ Forall var_ok (variables s);
  to_count : 0 <= variable_count s <= DOGESCRIPT_MAX_VARIABLES;
  to_storage : sealed DOGESCRIPT_MAX_LINE_SIZE (token_storage s);
  to_tokens : zlen (expanded_tokens s) = DOGESCRIPT_MAX_TOKENS /\ Forall token_ok (expanded_tokens s);
  to_argument : zlen (argument_text s) = 16;
}.

Section Interpreter.
Context {W : Type} `{SafeOs W}.
Context (argc : Z) (argv : list (option bytes)) (path : bytes) (n : Z).
Hypothesis argc_range : 1 <= argc <= INT_MAX.
Hypothesis argv_length : argc <= zlen argv.
Hypothesis argv_text : Forall (fun a => forall b, a = Some b -> is_text b) argv.
Hypothesis path_text : is_text path.
Hypothesis n_range : 0 <= n <= DOGESCRIPT_MAX_SCRIPT_SIZE.

(** While a script of [n] bytes runs. *)
Record script_ok (s : script W) : Prop := ScriptOk {
  so_tables : tables_ok s;
  so_active : active_argc s = argc /\ active_argv s = argv /\ active_script_path s = path;
  so_reader : reader_ok n (reader s);
}.

Ltac keeps := intros; match goal with Hs : script_ok ?s |- _ => destruct Hs as [[? ? ? ? ?] ? ?]; constructor; [constructor|..]; cbn; done end.

#[local] Instance script_ok_quiet : Quiet script_ok.
Proof. intros w s Hs. keeps. Qed.

Abbreviation safe_call := (quiet_call script_ok).
Abbreviation print_safe := (quiet_print script_ok).
Abbreviation println_safe := (quiet_println script_ok).
Abbreviation say_safe := (quiet_say script_ok).
Abbreviation complain_safe := (quiet_complain script_ok).
Abbreviation case_safe := (quiet_case script_ok).
Abbreviation stat_safe := (quiet_stat script_ok).

Lemma set_exit_ok b status s : script_ok s -> script_ok (set_exit b status s).
Proof. keeps. Qed.

Lemma set_variables_ok vs count s :
  script_ok s -> zlen vs = DOGESCRIPT_MAX_VARIABLES -> Forall var_ok vs -> 0 <= count <= DOGESCRIPT_MAX_VARIABLES ->
  script_ok (set_variables vs count s).
Proof. keeps. Qed.

Lemma set_reader_ok r s : script_ok s -> reader_ok n r -> script_ok (set_reader r s).
Proof. keeps. Qed.

Lemma set_argument_ok b s : script_ok s -> zlen b = 16 -> script_ok (set_argument_text b s).
Proof. keeps. Qed.

Lemma set_expanded_ok l s :
  script_ok s -> zlen l = DOGESCRIPT_MAX_TOKENS -> Forall token_ok l -> script_ok (set_expanded l s).
Proof. keeps. Qed.

Lemma set_storage_ok b s : script_ok s -> sealed DOGESCRIPT_MAX_LINE_SIZE b -> script_ok (set_token_storage b s).
Proof. keeps. Qed.

Abbreviation Safe m Q := (safe script_ok m Q).

Lemma tokens_safe : Safe (gets expanded_tokens) (fun l => zlen l = DOGESCRIPT_MAX_TOKENS /\ Forall token_ok l).
Proof. apply safe_gets. intros s [[] ? ?]. done. Qed.

Lemma tok_safe tokens i :
  Forall token_ok tokens -> 0 <= i < zlen tokens -> Safe (tok tokens i) (fun b => is_text b).
Proof. intros Ht Hi. eapply safe_conseq; [by apply (safe_rd _ _ _ token_ok)|]. by intros b [_ ?]. Qed.

(** ** Variables *)

Lemma find_variable_safe k i vs name :
  is_text name -> Forall var_ok vs -> 0 <= i -> i + Z.of_nat k <= zlen vs ->
  exists r, find_variable k i vs name = Some r /\ (forall j, r = Some j -> i <= j < i + Z.of_nat k).
Proof.
  intros (nm & Hn) Hvs. revert i. induction k as [|k IH]; intros i Hi Hk; cbn [find_variable]; [by exists None|].
  destruct (rd_is_Some vs i) as [v Ev]; [lia|]. rewrite Ev. cbn [mbind option_bind].
  assert (var_ok v) as (_ & (nm' & Hn') & _) by (rewrite rd_lookup in Ev by lia; by eapply Forall_lookup_1).
  rewrite (text_equal_ok _ _ _ _ Hn Hn'). cbn [mbind option_bind]. case_bool_decide.
  - exists (Some i). split; [done|]. intros j [= <-]. lia.
  - destruct (IH (i + 1)) as (r & -> & Hr); [lia..|]. exists r. split; [done|]. intros j Hj. specialize (Hr j Hj). lia.
Qed.

Lemma lookup_variable_state name s :
  is_text name -> script_ok s ->
  exists r, lookup_variable name s = Some (Val r, s) /\ (forall i, r = Some i -> 0 <= i < variable_count s).
Proof.
  intros Hn Hs. pose proof (so_tables _ Hs) as [[Hz Hv] Hc _ _ _].
  destruct (find_variable_safe (Z.to_nat (variable_count s)) 0 (variables s) name Hn Hv) as (r & E & Hr); [lia..|].
  exists r. unfold lookup_variable. rewrite E. split; [done|]. intros i Hi. specialize (Hr i Hi). lia.
Qed.

Lemma lookup_variable_safe name :
  is_text name -> Safe (lookup_variable name) (fun r => forall i, r = Some i -> 0 <= i < DOGESCRIPT_MAX_VARIABLES).
Proof.
  intros Hn s Hs. destruct (lookup_variable_state name s Hn Hs) as (r & E & Hr). exists (Val r), s. split_and!; [done..|].
  pose proof (to_count _ (so_tables _ Hs)). intros i Hi. specialize (Hr i Hi). lia.
Qed.

Lemma variables_safe : Safe (gets variables) (fun vs => zlen vs = DOGESCRIPT_MAX_VARIABLES /\ Forall var_ok vs).
Proof. apply safe_gets. intros s [[] ? ?]. done. Qed.

Lemma count_safe : Safe (gets variable_count) (fun c => 0 <= c <= DOGESCRIPT_MAX_VARIABLES).
Proof. apply safe_gets. intros s [[] ? ?]. done. Qed.

Lemma var_safe vs i : Forall var_ok vs -> 0 <= i < zlen vs -> Safe (lift (rd vs i)) var_ok.
Proof. apply safe_rd. Qed.

Lemma index_loop_safe b k : is_text b -> Safe (lift (index_loop b argc k)) (fun _ => True).
Proof.
  intros (s & t & -> & Hs). apply safe_lift. revert k. induction Hs as [|c s Hc Hs IH]; intros k; cbn; [by eexists|].
  rewrite (eqb_neq c 0 Hc). destruct (negb _); [by eexists|]. destruct (argc <? _); [by eexists|]. apply IH.
Qed.

Lemma argument_safe : Safe (text ← gets argument_text; text ← lift (str_u64toa (u64 (argc - 1)) text);
  modify (set_argument_text text);; mret text) (fun b => is_text b).
Proof.
  apply (safe_bind _ _ _ (fun b => zlen b = 16)); [apply safe_gets; by intros s [[] ? ?]|]. intros b Hb.
  assert (0 <= u64 (argc - 1) < 10 ^ Z.of_nat 10) as Hv.
  { rewrite u64_small by (unfold INT_MAX in *; unfold_int; lia). unfold INT_MAX in *. change (10 ^ Z.of_nat 10) with 10000000000. lia. }
  pose proof (zlen_dec_bound _ 10 Hv ltac:(lia)).
  apply (safe_bind _ _ _ (fun b => zlen b = 16 /\ is_text b)).
  - apply safe_lift. rewrite u64toa_text by (auto with cint; lia).
    destruct (blit_total b (dec (u64 (argc - 1)) ++ [0]) 0) as [b' E]; [lia | rewrite zlen_app; change (zlen [0]) with 1; lia|].
    exists b'. split; [done|]. split; [by rewrite (blit_zlen _ _ _ _ E)|]. eexists. eapply cstr_blit; [|done]. apply digits_nozero, dec_digits. lia.
  - intros text [Hz Ht]. eapply safe_bind; [apply safe_modify; intros s Hs; by apply set_argument_ok|]. intros _ _. by apply safe_ret.
Qed.

Hint Resolve script_ok_quiet quiet_print quiet_println quiet_say quiet_complain quiet_case tokens_safe lookup_variable_safe variables_safe
  count_safe index_loop_safe argument_safe path_text : safe.

Lemma get_variable_safe name : is_text name -> Safe (get_variable name argc argv path) (fun b => is_text b).
Proof.
  intros Hn. unfold get_variable. repeat safe_step; auto with safe.
  - match goal with H : _ && (_ <? argc) = true |- _ => apply andb_true_iff in H as [?%Z.ltb_lt ?%Z.ltb_lt] end.
    eapply safe_bind; [apply (safe_rd _ _ _ _ argv_text); lia|]. intros [b|] Hb; apply safe_ret; auto with safe.
  - match goal with H : zlen _ = _ /\ _ |- _ => destruct H as [Hz Hv] end.
    eapply safe_bind; [apply (var_safe _ _ Hv); rewrite Hz; auto|]. intros v (_ & _ & ?). by apply safe_ret.
Qed.

(** An entry is replaced. *)
Lemma write_variable_safe vs i v count :
  zlen vs = DOGESCRIPT_MAX_VARIABLES -> Forall var_ok vs -> 0 <= i < DOGESCRIPT_MAX_VARIABLES -> var_ok v ->
  Safe (lift (wr vs i v)) (fun vs' => zlen vs' = DOGESCRIPT_MAX_VARIABLES /\ Forall var_ok vs' /\
    (0 <= count <= DOGESCRIPT_MAX_VARIABLES -> Safe (modify (set_variables vs' count)) (fun _ => True))).
Proof.
  intros Hz Hv Hi Ho. apply safe_wr; [lia|]. intros vs' E. pose proof (wr_zlen _ _ _ _ E).
  apply wr_Some in E as [_ ->]. assert (Forall var_ok (<[Z.to_nat i := v]> vs)) by (by apply Forall_insert).
  split_and!; [lia | done|]. intros Hc. apply safe_modify. intros s Hs. apply set_variables_ok; [done | lia | done..].
Qed.

Lemma copy_value_safe v value :
  var_ok v -> is_text value ->
  Safe (lift (copy_array (v_value v) DOGESCRIPT_VARIABLE_VALUE_SIZE value)) (fun r => var_ok (Var (v_name v) r.2)).
Proof.
  intros ([Hs1 Hs2] & Ht1 & Ht2) Hv. eapply safe_conseq.
  - apply safe_copy; [done..|unfold DOGESCRIPT_VARIABLE_VALUE_SIZE in *; lia].
  - intros [rc b] [Hz Hb]. cbn in *. split_and!; [split; cbn; congruence | done | done].
Qed.

Lemma copy_name_safe v name :
  var_ok v -> is_text name ->
  Safe (lift (copy_array (v_name v) DOGESCRIPT_VARIABLE_NAME_SIZE name)) (fun r => var_ok (Var r.2 (v_value v))).
Proof.
  intros ([Hs1 Hs2] & Ht1 & Ht2) Hv. eapply safe_conseq.
  - apply safe_copy; [done..|unfold DOGESCRIPT_VARIABLE_NAME_SIZE in *; lia].
  - intros [rc b] [Hz Hb]. cbn in *. split_and!; [split; cbn; congruence | done | done].
Qed.

Lemma set_variable_safe name value :
  is_text name -> is_text value -> Safe (set_variable name value) (fun _ => True).
Proof.
  intros Hn Hx. unfold set_variable. repeat safe_step; auto.
  all: match goal with H : zlen ?vs = _ /\ _, Hc : 0 <= ?c <= _ |- _ => destruct H as [Hz Hv]; rename vs into vs, c into count end.
  - specialize (Ha1 z eq_refl). eapply safe_bind; [apply (var_safe _ _ Hv); lia|]. intros v Hok.
    eapply safe_bind; [by apply copy_value_safe|]. intros [rc text] Hok'. cbn in Hok'.
    eapply safe_bind; [by apply (write_variable_safe _ _ _ count)|]. intros vs' (_ & _ & Hm).
    eapply safe_bind; [by apply Hm|]. intros _ _. by apply safe_ret.
  - match goal with H : (count =? _) = false |- _ => apply Z.eqb_neq in H end.
    eapply safe_bind; [apply (var_safe _ _ Hv); lia|]. intros v Hok.
    eapply safe_bind; [by apply copy_name_safe|]. intros [rc text] Hok'. cbn in Hok'.
    eapply safe_bind; [apply (write_variable_safe _ _ _ count); [done | done | lia | done]|]. intros vs1 (Hz1 & Hv1 & Hm1).
    eapply safe_bind; [by apply Hm1|]. intros _ _. apply safe_if; intros _; [by apply safe_ret|].
    eapply safe_bind; [apply (var_safe _ _ Hv1); lia|]. intros v1 Hok1.
    eapply safe_bind; [by apply copy_value_safe|]. intros [rc1 text1] Hok1'. cbn in Hok1'.
    eapply safe_bind; [apply (write_variable_safe _ _ _ count); [done | done | lia | done]|]. intros vs2 (Hz2 & Hv2 & Hm2).
    eapply safe_bind; [by apply Hm2|]. intros _ _. apply safe_if; intros _; [by apply safe_ret|].
    eapply safe_bind; [|intros _ _; by apply safe_ret].
    apply safe_modify. intros s Hs. apply set_variables_ok; [done | done | done | lia].
Qed.

Lemma shift_down_safe k j vs :
  zlen vs = DOGESCRIPT_MAX_VARIABLES -> Forall var_ok vs -> 1 <= j -> j + Z.of_nat k <= DOGESCRIPT_MAX_VARIABLES ->
  exists vs', shift_down k j vs = Some vs' /\ zlen vs' = DOGESCRIPT_MAX_VARIABLES /\ Forall var_ok vs'.
Proof.
  revert j vs. induction k as [|k IH]; intros j vs Hz Hv Hj Hk; cbn [shift_down]; [by exists vs|].
  destruct (rd_is_Some vs j) as [v Ev]; [lia|]. destruct (rd_is_Some vs (j - 1)) as [u Eu]; [lia|]. rewrite Ev, Eu. cbn [mbind option_bind].
  assert (var_ok v) as (_ & (nm & Hn) & (x & Hx)) by (rewrite rd_lookup in Ev by lia; by eapply Forall_lookup_1).
  assert (var_ok u) as ([Hu1 Hu2] & Hu3 & Hu4) by (rewrite rd_lookup in Eu by lia; by eapply Forall_lookup_1).
  destruct (copy_array_ok (v_name u) DOGESCRIPT_VARIABLE_NAME_SIZE _ _ Hn) as (nb & En & Hnz & Hnt); [unfold DOGESCRIPT_VARIABLE_NAME_SIZE in *; lia|].
  destruct (copy_array_ok (v_value u) DOGESCRIPT_VARIABLE_VALUE_SIZE _ _ Hx) as (xb & Ex & Hxz & Hxt); [unfold DOGESCRIPT_VARIABLE_VALUE_SIZE in *; lia|].
  rewrite En. cbn [mbind option_bind]. rewrite Ex. cbn [mbind option_bind].
  destruct (wr_is_Some vs (j - 1) (Var nb xb)) as [vs' Ew]; [lia|]. rewrite Ew. cbn [mbind option_bind]. pose proof (wr_zlen _ _ _ _ Ew).
  apply IH; [lia | | lia | lia]. apply wr_Some in Ew as [_ ->]. apply Forall_insert; [done|].
  split_and!; [split; cbn; congruence | |]; cbn.
  - destruct (zlen nm <? _); [by exists nm | by subst].
  - destruct (zlen x <? _); [by exists x | by subst].
Qed.

Lemma unset_variable_safe name : is_text name -> Safe (unset_variable name) (fun _ => True).
Proof.
  intros Hn s Hs. destruct (lookup_variable_state name s Hn Hs) as (r & E & Hr). unfold unset_variable. rewrite (bind_val _ _ _ _ _ E).
  destruct r as [i|]; [|by exists (Val 0), s]. specialize (Hr i eq_refl). rewrite !bind_gets.
  pose proof (so_tables _ Hs) as [[Hz Hv] Hc _ _ _].
  destruct (shift_down_safe (Z.to_nat (variable_count s - (i + 1))) (i + 1) (variables s) Hz Hv) as (vs & Es & Hz' & Hv'); [lia..|].
  mlift Es. rewrite bind_modify. exists (Val 0), (set_variables vs (variable_count s - 1) s). split_and!; [done| |done].
  apply set_variables_ok; [done..|lia].
Qed.

Hint Resolve get_variable_safe set_variable_safe unset_variable_safe : safe.

(** ** Expansion *)

Definition out_ok (cap : Z) (o : out) : Prop :=
  zlen (o_text o) = cap /\ 0 <= o_length o < cap /\ rd (o_text o) (o_length o) = Some 0.

Lemma append_checked_safe cap c : safe (out_ok cap) (append_checked cap c) (fun _ => True).
Proof.
  intros [b k] (Hz & Hk & Hr). unfold append_checked. cbn in *. destruct (Z.leb_spec cap (k + 1)); [by exists (Ret (-1)), (Out b k)|].
  destruct (wr_is_Some b k c) as [b1 E1]; [lia|]. rewrite E1. cbn [mbind option_bind]. pose proof (wr_zlen _ _ _ _ E1).
  destruct (wr_is_Some b1 (k + 1) 0) as [b2 E2]; [lia|]. rewrite E2. pose proof (wr_zlen _ _ _ _ E2).
  exists (Val tt), (Out b2 (k + 1)). split_and!; [done| |done]. split_and!; cbn; [lia..|by eapply rd_wr_eq].
Qed.

Definition expanding (cap : Z) (x : script W * out) : Prop := script_ok x.1 /\ out_ok cap x.2.

Lemma in_script_safe cap {A} (m : M (script W) A) (Q : A -> Prop) : Safe m Q -> safe (expanding cap) (in_script m) Q.
Proof. intros Hm. apply (safe_zoom _ script_ok); [by intros x [? _] | by intros [s o] t [_ ?] ?; split | done]. Qed.

Lemma in_out_safe cap {A} (m : M out A) (Q : A -> Prop) : safe (out_ok cap) m Q -> safe (expanding cap) (in_out m) Q.
Proof. intros Hm. apply (safe_zoom _ (out_ok cap)); [by intros x [_ ?] | by intros [s o] t [? _] ?; split | done]. Qed.

Lemma read_name_safe stop s t name k :
  stop 0 = true -> nozero s -> zlen name = DOGESCRIPT_VARIABLE_NAME_SIZE -> 0 <= k < DOGESCRIPT_VARIABLE_NAME_SIZE ->
  exists r, read_name stop (s ++ 0 :: t) name k = Some r /\
    forall source name' k', r = Some (source, name', k') ->
      (exists s', source = s' ++ 0 :: t /\ nozero s' /\ (length s' <= length s)%nat) /\
      zlen name' = DOGESCRIPT_VARIABLE_NAME_SIZE /\ 0 <= k' < DOGESCRIPT_VARIABLE_NAME_SIZE.
Proof.
  intros H00 Hs. revert name k. induction Hs as [|c s Hc Hs IH]; intros name k Hz Hk; cbn [app read_name].
  { rewrite H00. eexists. split; [done|]. intros ??? [= <- <- <-]. split; [exists []; split_and!; [done | constructor | done] | by split]. }
  destruct (stop c).
  { eexists. split; [done|]. intros ??? [= <- <- <-]. split; [exists (c :: s); split_and!; [done | by constructor | done] | by split]. }
  destruct (Z.leb_spec DOGESCRIPT_VARIABLE_NAME_SIZE (k + 1)); [by exists None|].
  destruct (wr_is_Some name k c) as [name1 E1]; [lia|]. rewrite E1. cbn [mbind option_bind]. pose proof (wr_zlen _ _ _ _ E1).
  destruct (IH name1 (k + 1)) as (r & -> & Hr); [lia..|]. exists r. split; [done|]. intros source name' k' E.
  destruct (Hr _ _ _ E) as ((s' & -> & ? & ?) & ? & ?). split; [exists s'; split_and!; [done..|cbn; lia] | by split].
Qed.

(** A name read from the line [s]. *)
Definition named (s t : bytes) (r : bytes * bytes * Z) : Prop :=
  (exists s', r.1.1 = s' ++ 0 :: t /\ nozero s' /\ (length s' <= length s)%nat) /\
  zlen r.1.2 = DOGESCRIPT_VARIABLE_NAME_SIZE /\ 0 <= r.2 < DOGESCRIPT_VARIABLE_NAME_SIZE.

Lemma need_name_safe cap stop s t :
  stop 0 = true -> nozero s -> safe (expanding cap) (need_name stop (s ++ 0 :: t)) (named s t).
Proof.
  intros H00 Hs. destruct (read_name_safe stop s t (zeros 32) 0 H00 Hs eq_refl ltac:(done)) as (r & E & Hr).
  unfold need_name. rewrite E. eapply safe_bind; [apply (safe_lift _ _ (fun x => x = r)); by eexists|].
  intros ? ->. destruct r as [[[source name] k]|]; [|apply safe_exit]. apply safe_ret. by apply Hr.
Qed.

Lemma put_value_safe cap name k :
  zlen name = DOGESCRIPT_VARIABLE_NAME_SIZE -> 0 <= k < DOGESCRIPT_VARIABLE_NAME_SIZE ->
  safe (expanding cap) (put_value name k cap argc argv path) (fun _ => True).
Proof.
  intros Hz Hk. unfold put_value. eapply safe_bind; [apply (safe_wr _ _ _ _ (fun b => is_text b)); [lia|]|].
  { intros b' E. eapply is_text_rd, rd_wr_eq, E. }
  intros nm Hn. eapply safe_bind; [by apply in_script_safe, get_variable_safe|]. intros value Hv.
  eapply safe_bind; [by apply safe_text_length|]. intros vlen [Hvl _].
  apply (safe_bind _ _ _ (out_ok cap)); [by apply safe_gets; intros x [_ ?]|]. intros [b len] (Hb & Hlen & Hr). cbn in *.
  destruct (Z.leb_spec (cap - len) vlen); [apply safe_exit|].
  assert (ncopy_loop b len value (Z.to_nat vlen) = blit b len (take (Z.to_nat vlen) value)) as -> by (apply ncopy_blit; [lia | unfold zlen in *; lia]).
  assert (zlen (take (Z.to_nat vlen) value) = vlen) as Ht by (unfold zlen in *; rewrite length_take; lia).
  destruct (blit_total b (take (Z.to_nat vlen) value) len) as [b1 E1]; [lia | lia |]. rewrite E1. pose proof (blit_zlen _ _ _ _ E1).
  eapply safe_bind; [apply (safe_lift _ _ (fun x => x = b1)); by eexists|]. intros ? ->.
  eapply safe_bind; [apply (safe_wr _ _ _ _ (fun b2 => zlen b2 = cap /\ rd b2 (len + vlen) = Some 0)); [lia|]|].
  { intros b2 E2. split; [rewrite (wr_zlen _ _ _ _ E2); lia | by eapply rd_wr_eq]. }
  intros b2 [Hz2 Hr2]. apply safe_modify. intros [s o] [Hs _]. split; [done|]. split_and!; cbn; [done | lia..| done].
Qed.

Lemma expand_loop_safe fuel cap s t :
  (length s < fuel)%nat -> nozero s ->
  safe (expanding cap) (expand_loop fuel (s ++ 0 :: t) cap argc argv path) (fun _ => True).
Proof.
  revert s. induction fuel as [|fuel IH]; intros s Hf Hs; [lia|]. cbn [expand_loop].
  destruct s as [|c s]; [by eapply safe_bind; [apply (safe_lift _ _ (fun c => c = 0)); by eexists|intros ? ->; by apply safe_ret]|].
  cbn in Hf. apply Forall_cons in Hs as [Hc Hs]. cbn [app drop].
  eapply safe_bind; [apply (safe_lift _ _ (fun x => x = c)); by eexists|]. intros ? ->. rewrite (eqb_neq c 0 Hc).
  apply safe_if; intros _.
  { eapply safe_bind; [apply in_out_safe, append_checked_safe|]. intros _ _. apply IH; [lia | done]. }
  assert (exists d, rd (s ++ 0 :: t) 0 = Some d /\ (d <> 0 -> exists s', s = d :: s')) as (d & Ed & Hd).
  { destruct s as [|e s]; [by exists 0 | exists e; split; [done | by exists s]]. }
  eapply safe_bind; [apply (safe_lift _ _ (fun x => x = d)); by eexists|]. intros ? ->.
  apply safe_if; intros Eb; [|apply safe_if; intros En].
  - apply Z.eqb_eq in Eb as ->. destruct Hd as [s' ->]; [done|]. apply Forall_cons in Hs as [_ Hs]. cbn [app drop]. cbn in Hf.
    eapply safe_bind; [by apply need_name_safe|]. intros [[source name] k] ((s2 & E & Hs2 & Hl) & Hz & Hk). cbn in E, Hz, Hk. subst source.
    assert (exists d, rd (s2 ++ 0 :: t) 0 = Some d /\ (d <> 0 -> exists s', s2 = d :: s')) as (d & Ed2 & Hd).
    { destruct s2 as [|e s2]; [by exists 0 | exists e; split; [done | by exists s2]]. }
    eapply safe_bind; [apply (safe_lift _ _ (fun x => x = d)); by eexists|]. intros ? ->. apply safe_if; intros Er; [apply safe_exit|].
    apply negb_false_iff, Z.eqb_eq in Er as ->. destruct Hd as [s3 ->]; [done|]. apply Forall_cons in Hs2 as [_ Hs2]. cbn in Hl.
    eapply safe_bind; [by apply put_value_safe|]. intros _ _. cbn [app drop]. apply IH; [lia | done].
  - eapply safe_bind; [by apply need_name_safe|]. intros [[source name] k] ((s2 & E & Hs2 & Hl) & Hz & Hk). cbn in E, Hz, Hk. subst source.
    eapply safe_bind; [by apply put_value_safe|]. intros _ _. apply IH; [lia | done].
  - eapply safe_bind; [apply in_out_safe, append_checked_safe|]. intros _ _. apply IH; [lia | done].
Qed.

Lemma expand_token_safe i source :
  is_text source -> 0 <= i < DOGESCRIPT_MAX_TOKENS -> Safe (expand_token i source) (fun _ => True).
Proof.
  intros (src & t & -> & Hsrc) Hi s Hs. pose proof (so_tables _ Hs) as [_ _ _ [Hz Htok] _].
  unfold expand_token. destruct (rd_is_Some (expanded_tokens s) i) as [b Eb]; [lia|]. rewrite Eb. cbn [mbind option_bind].
  assert (token_ok b) as [Hb _] by (rewrite rd_lookup in Eb by lia; by eapply Forall_lookup_1).
  destruct (so_active _ Hs) as (-> & -> & ->). unfold expand_text. rewrite bind_gets. cbn [snd o_text].
  destruct (wr_is_Some b 0 0) as [b1 E1]; [unfold DOGESCRIPT_VARIABLE_VALUE_SIZE in Hb; lia|]. rewrite (bind_lift _ _ _ _ E1), bind_modify. cbn [fst].
  pose proof (wr_zlen _ _ _ _ E1).
  destruct (expand_loop_safe (length (src ++ 0 :: t)) DOGESCRIPT_VARIABLE_VALUE_SIZE src t) with (s := (s, Out b1 0))
    as (o & [s' [b2 k]] & E & [Hs' (Hz2 & Hk & Hr)] & _).
  { rewrite length_app. cbn. lia. } { done. }
  { split; [done|]. split; [cbn; lia|]. split; [done | exact (rd_wr_eq _ _ _ _ E1)]. }
  rewrite E. cbn [o_text mbind option_bind]. cbn in Hs', Hz2, Hk, Hr. pose proof (so_tables _ Hs') as [_ _ _ [Hz' Htok'] _].
  destruct (wr_is_Some (expanded_tokens s') i b2) as [l El]; [lia|]. rewrite El. cbn [mbind option_bind].
  exists o, (set_expanded l s'). split_and!; [done | | by destruct o]. pose proof (wr_zlen _ _ _ _ El).
  apply set_expanded_ok; [done | lia|]. apply wr_Some in El as [_ ->]. apply Forall_insert; [done|]. split; [done | by eapply is_text_rd].
Qed.

Lemma expand_tokens_safe i l :
  Forall (fun start => 0 <= start < DOGESCRIPT_MAX_LINE_SIZE) l -> 0 <= i -> i + zlen l <= DOGESCRIPT_MAX_TOKENS ->
  Safe (expand_tokens i l) (fun _ => True).
Proof.
  intros Hl. revert i. induction Hl as [|start l Hst Hl IH]; intros i Hi Hn; cbn [expand_tokens]; [by apply safe_ret|].
  rewrite zlen_cons in Hn. pose proof (zlen_nonneg l).
  apply (safe_bind _ _ _ (sealed DOGESCRIPT_MAX_LINE_SIZE)); [apply safe_gets; by intros s [[] ? ?]|]. intros st [_ Hlast].
  eapply safe_bind; [apply expand_token_safe; [|lia]|].
  { eapply is_text_drop; [exact Hlast | unfold DOGESCRIPT_MAX_LINE_SIZE in *; lia]. }
  intros _ _. apply IH; lia.
Qed.

Lemma tokenize_line_safe line :
  is_text line -> Safe (tokenize_line line) (fun count => 0 <= count <= DOGESCRIPT_MAX_TOKENS).
Proof.
  intros Hline. unfold tokenize_line. eapply safe_bind.
  - apply (safe_zoom _ (sealed DOGESCRIPT_MAX_LINE_SIZE)); [by intros s [[] ? ?] | intros s t Hs Ht; by apply set_storage_ok|].
    by apply tokenize_safe.
  - intros l [Hl Hst]. eapply safe_bind; [by apply expand_tokens_safe|]. intros _ _. apply safe_ret. split; [apply zlen_nonneg | done].
Qed.

(** ** Conditions and the script *)

Definition tokens_ok (count : Z) (tokens : list bytes) : Prop :=
  Forall token_ok tokens /\ 0 <= count <= zlen tokens.

Lemma tok_count_safe count tokens i : tokens_ok count tokens -> 0 <= i < count -> Safe (tok tokens i) (fun b => is_text b).
Proof. intros [Ht Hc] Hi. apply tok_safe; [done | lia]. Qed.

Lemma file_exists_safe b : Safe (call (fun w => os_file_exists w b)) (fun _ => True).
Proof. by apply safe_call. Qed.

Lemma compare_tokens_safe count tokens first :
  tokens_ok count tokens -> 0 <= first -> first + 3 <= count -> Safe (compare_tokens tokens first) (fun _ => True).
Proof.
  intros Ht H1 H2. unfold compare_tokens.
  eapply safe_bind; [apply (tok_count_safe _ _ _ Ht); lia|]. intros l Hl.
  eapply safe_bind; [apply (tok_count_safe _ _ _ Ht); lia|]. intros r Hr.
  eapply safe_bind; [by apply safe_compare|]. intros c _.
  eapply safe_bind; [apply (tok_count_safe _ _ _ Ht); lia|]. intros op Hop.
  repeat (apply case_safe; [done | by apply safe_ret|]). apply safe_exit.
Qed.

Lemma condition_value_safe count tokens : tokens_ok count tokens -> Safe (condition_value count tokens 1) (fun _ => True).
Proof.
  intros Ht. unfold condition_value.
  assert (Safe (if negb (count - 1 =? 3) then exit (-1) else compare_tokens tokens 1) (fun _ => True)) as Hc.
  { apply safe_if; intros E; [apply safe_exit|]. apply negb_false_iff, Z.eqb_eq in E. apply (compare_tokens_safe count); [done | lia..]. }
  apply safe_if; intros E1; [|done]. apply Z.ltb_lt in E1.
  eapply safe_bind; [apply (tok_count_safe _ _ _ Ht); lia|]. intros tk Htk.
  apply case_safe; [done| |apply case_safe; [done| |done]]; (apply safe_if; intros E2; [apply safe_exit|]); apply negb_false_iff, Z.eqb_eq in E2;
    (eapply safe_bind; [apply (tok_count_safe _ _ _ Ht); lia|]); intros b Hb.
  - eapply safe_bind; [apply file_exists_safe|]. intros r _. by apply safe_ret.
  - eapply safe_bind; [apply stat_safe|]. intros [rc [[size d] e]] _. by apply safe_ret.
Qed.

Lemma read_script_byte_safe offset : 0 <= offset -> Safe (read_script_byte offset) (fun _ => True).
Proof.
  intros Ho s Hs. unfold read_script_byte. destruct (so_reader _ Hs) as (Hn & Hz & Hst & Hlen).
  destruct (Z.leb_spec (file_size (reader s)) offset); [by exists (Val (0, 0)), s|].
  pose proof (Z.mod_pos_bound offset DOGESCRIPT_READ_BUFFER_SIZE ltac:(done)) as Hm.
  destruct (_ || _) eqn:Emiss.
  - set (start := offset - offset mod DOGESCRIPT_READ_BUFFER_SIZE). set (amount := Z.min (file_size (reader s) - start) DOGESCRIPT_READ_BUFFER_SIZE).
    assert (0 <= start <= offset) by (unfold start; pose proof (Z.mod_le offset DOGESCRIPT_READ_BUFFER_SIZE ltac:(lia) ltac:(done)); lia).
    destruct (os_read_file_at (os s) (r_path (reader s)) start amount) as [[rc data] w] eqn:Er.
    assert (zlen data <= amount) as Hd by (eapply os_read_at_bound; [|exact Er]; unfold amount, DOGESCRIPT_READ_BUFFER_SIZE in *; lia).
    destruct (blit_total (cache (reader s)) data 0) as [b Eb]; [lia | unfold amount in Hd; lia|]. rewrite Eb. cbn [mbind option_bind].
    pose proof (blit_zlen _ _ _ _ Eb). pose proof (quiet_os w s Hs) as Hs'.
    destruct (_ || negb _).
    + eexists (Val _), _. split; [done|]. split; [|done]. by apply set_reader_ok; [|split_and!; cbn; [done | lia | done..]].
    + destruct (rd_is_Some b (offset - start)) as [v Ev]; [unfold start; lia|]. rewrite Ev.
      eexists (Val _), _. split; [done|]. split; [|done]. apply set_reader_ok; [done|]. split_and!; cbn; [done | lia | lia | unfold amount; lia].
  - apply orb_false_iff in Emiss as [?%Z.ltb_ge ?%Z.leb_gt].
    destruct (rd_is_Some (cache (reader s)) (offset - cache_start (reader s))) as [v Ev]; [lia|]. rewrite Ev. by eexists (Val _), s.
Qed.

Lemma size_safe : Safe (gets (fun s => file_size (reader s))) (fun x => x = n).
Proof. apply safe_gets. by intros s [_ _ [? _]]. Qed.

(** The line ends further on, unless the script has ended. *)
Lemma line_loop_safe fuel position len line :
  0 <= position -> 0 <= len < DOGESCRIPT_MAX_LINE_SIZE -> Z.of_nat fuel = DOGESCRIPT_MAX_LINE_SIZE - len -> zlen line = DOGESCRIPT_MAX_LINE_SIZE ->
  Safe (line_loop fuel position len line) (fun r =>
    position <= r.1.1 /\ (position < n -> position < r.1.1) /\ 0 <= r.1.2 < DOGESCRIPT_MAX_LINE_SIZE /\ zlen r.2 = DOGESCRIPT_MAX_LINE_SIZE).
Proof.
  revert position len line. induction fuel as [|fuel IH]; intros position len line Hp Hl Hf Hz; [lia|]. cbn [line_loop].
  eapply safe_bind; [apply size_safe|]. intros ? ->. apply safe_if; intros E.
  { apply Z.leb_le in E. apply safe_ret. cbn [fst snd]. split_and!; try done; intros; lia. }
  eapply safe_bind; [by apply read_script_byte_safe|]. intros [r c] _. repeat (apply safe_if; intros ?).
  - eapply safe_bind; [apply say_safe | intros _ _; apply safe_exit].
  - eapply safe_bind; [apply say_safe | intros _ _; apply safe_exit].
  - apply safe_ret. cbn [fst snd]. split_and!; try done; intros; lia.
  - eapply safe_bind; [apply say_safe | intros _ _; apply safe_exit].
  - match goal with H : (_ <=? len + 1) = false |- _ => apply Z.leb_gt in H end.
    eapply safe_bind; [apply (safe_wr _ _ _ _ (fun b => zlen b = DOGESCRIPT_MAX_LINE_SIZE)); [lia|]|].
    { intros b' Ew. by rewrite (wr_zlen _ _ _ _ Ew). }
    intros line' Hz'. eapply safe_conseq; [apply IH; [lia | lia | lia | exact Hz']|]. intros [[p' l'] b'] (Hp' & _ & Hl' & Hz''). cbn [fst snd] in *. split_and!; try done; intros; lia.
Qed.

(** A line of the script. *)
Definition read_line (offset : Z) (line : bytes) (next : Z) : Prop :=
  zlen line = DOGESCRIPT_MAX_LINE_SIZE /\ is_text line /\ 0 <= next /\ (offset < n -> offset < next).

Lemma get_line_safe offset line :
  0 <= offset -> zlen line = DOGESCRIPT_MAX_LINE_SIZE -> Safe (get_line offset line) (fun r => read_line offset r.1 r.2).
Proof.
  intros Ho Hz. unfold get_line. eapply safe_bind; [by apply line_loop_safe|].
  intros [[position len] b] (Hp & Hn & Hl & Hb). cbn in Hp, Hn, Hl, Hb.
  apply (safe_bind _ _ _ (fun k => 0 <= k < DOGESCRIPT_MAX_LINE_SIZE)).
  - apply safe_if; intros E; [|by apply safe_ret]. apply Z.ltb_lt in E.
    eapply safe_bind; [apply (safe_rd _ _ _ (fun _ => True)); [by apply Forall_true | lia]|]. intros c _. apply safe_ret. destruct (c =? c_cr); lia.
  - intros k Hk. eapply safe_bind; [apply (safe_wr _ _ _ _ (fun b' => zlen b' = DOGESCRIPT_MAX_LINE_SIZE /\ is_text b')); [lia|]|].
    { intros b' Ew. split; [by rewrite (wr_zlen _ _ _ _ Ew)|]. by eapply is_text_rd, rd_wr_eq. }
    intros b' [Hz' Ht]. apply safe_ret. unfold read_line. cbn [fst snd]. split_and!; [done | done | lia | done].
Qed.

Lemma get_tokens_safe offset line :
  0 <= offset -> zlen line = DOGESCRIPT_MAX_LINE_SIZE ->
  Safe (get_tokens offset line) (fun r => read_line offset r.1.1 r.2 /\ 0 <= r.1.2 <= DOGESCRIPT_MAX_TOKENS).
Proof.
  intros Ho Hz. unfold get_tokens. eapply safe_bind; [by apply get_line_safe|]. intros [b next] Hr. cbn in Hr.
  pose proof Hr as (_ & (str & t & -> & Hs) & _). destruct (skip_spaces_rest is_space eq_refl str t Hs) as (s' & E & Hs' & _).
  rewrite E. eapply safe_bind; [apply (safe_lift _ _ (fun x => x = s' ++ 0 :: t)); by eexists|]. intros ? ->.
  eapply safe_bind; [apply safe_head, is_text_zero|]. intros c _. apply safe_if; intros ?; [by apply safe_ret|].
  eapply safe_bind; [apply tokenize_line_safe, is_text_zero|]. intros count Hc. by apply safe_ret.
Qed.

Lemma line_number_state k position num s :
  0 <= position -> 0 <= num -> script_ok s ->
  exists o s', line_number_loop k position num s = Some (o, s') /\ script_ok s' /\
    match o with Val v => 0 <= v <= num + Z.of_nat k | Ret v => v = 0 end.
Proof.
  revert position num s. induction k as [|k IH]; intros position num s Hp Hn Hs; cbn [line_number_loop].
  { exists (Val num), s. split; [done|]. split; [done | lia]. }
  destruct (read_script_byte_safe position Hp s Hs) as ([[r c]|rc] & s1 & E & Hs1 & _).
  - rewrite (bind_val _ _ _ _ _ E). destruct (negb _); [by exists (Ret 0), s1|].
    destruct (IH (position + 1) (if c =? c_nl then num + 1 else num) s1) as (o & s2 & -> & Hs2 & Ho); [lia | destruct (c =? c_nl); lia | done |].
    exists o, s2. split; [done|]. split; [done|]. destruct o; [destruct (c =? c_nl); lia | done].
  - exfalso. revert E. unfold read_script_byte. destruct (_ <=? _); [done|]. destruct (_ || _).
    + destruct (os_read_file_at _ _ _ _) as [[? ?] ?]. destruct (blit _ _ _); [|done]. cbn. destruct (_ || _); [done|]. by destruct (rd _ _).
    + by destruct (rd _ _).
Qed.

Lemma get_line_number_safe offset : Safe (get_line_number offset) (fun v => 0 <= v <= 1 + Z.max 0 offset).
Proof.
  intros s Hs. destruct (line_number_state (Z.to_nat offset) 0 1 s) as (o & s' & E & Hs' & Ho); [lia | lia | done |].
  unfold get_line_number, fn. rewrite E. destruct o as [v|v]; eexists (Val _), s'; (split; [done|]; split; [done|]); cbn; lia.
Qed.

(** ** Searching for the end of a block *)

(** The state of a search: the buffer and the next offset. *)
Definition searching (line : bytes) (position : Z) : Prop := zlen line = DOGESCRIPT_MAX_LINE_SIZE /\ 0 <= position.

(** A round reads the next line; its first token decides. *)
Lemma search_round {A B} (P : A -> Prop) (measure : A -> nat) (Q : B -> Prop) line position
    (body : bytes -> Z -> Z -> list bytes -> M (script W) (A + B)) (skip : bytes -> Z -> A) :
  searching line position ->
  (forall line' next, searching line' next -> position < next -> position < n -> P (skip line' next) /\ (measure (skip line' next) < Z.to_nat (n - position))%nat) ->
  (forall line' next count tokens, searching line' next -> position < next -> position < n -> 0 < count -> tokens_ok count tokens ->
     Safe (body line' count next tokens) (fun r => match r with inl a => P a /\ (measure a < Z.to_nat (n - position))%nat | inr b => Q b end)) ->
  Safe (size ← gets (fun s => file_size (reader s));
        if size <=? position then exit (-1) else
        '(line, count, next_position) ← get_tokens position line;
        if count =? 0 then mret (inl (skip line next_position)) else
        tokens ← gets expanded_tokens;
        body line count next_position tokens)
    (fun r => match r with inl a => P a /\ (measure a < Z.to_nat (n - position))%nat | inr b => Q b end).
Proof.
  intros [Hz Hp] Hskip Hbody. eapply safe_bind; [apply size_safe|]. intros ? ->. apply safe_if; intros E; [apply safe_exit|].
  apply Z.leb_gt in E. eapply safe_bind; [by apply get_tokens_safe|]. intros [[b count] next] [(Hz' & Ht & Hn & Hlt) Hc]. cbn in *.
  apply safe_if; intros E0; [apply safe_ret; apply Hskip; [done | by apply Hlt | done]|].
  apply Z.eqb_neq in E0. eapply safe_bind; [apply tokens_safe|]. intros tokens [Hzt Htok].
  apply Hbody; [done | by apply Hlt | done | lia | split; [done | lia]].
Qed.

Lemma find_control_end_safe start opening closing :
  0 <= start -> Safe (find_control_end start opening closing) (fun r => 0 <= r.1 /\ 0 <= r.2).
Proof.
  intros Hst. unfold find_control_end. eapply safe_bind; [by apply get_line_safe|]. intros [line position] (Hz & _ & Hp & _). cbn [fst snd] in Hz, Hp.
  apply (safe_while _ (fun a => searching a.1.1 a.1.2) (fun a => Z.to_nat (n - a.1.2))); [|done|].
  2: { cbn [fst snd]. change (Pos.to_nat script_rounds) with (Z.to_nat 1048577). unfold DOGESCRIPT_MAX_SCRIPT_SIZE in *. lia. }
  intros [[b p] depth] Hs. cbn [fst snd] in Hs |- *.
  apply (search_round (fun a => searching a.1.1 a.1.2) (fun a => Z.to_nat (n - a.1.2)) (fun r : Z * Z => 0 <= r.1 /\ 0 <= r.2) b p
    (fun line count next tokens => token ← tok tokens 0; _) (fun line next => (line, next, depth))); [done| |].
  { intros line' next Hs' Hlt Hn. split; [done | cbn; lia]. }
  intros line' next count tokens Hs' Hlt Hn Hc Ht. pose proof Hs as [_ ?]. pose proof Hs' as [_ ?].
  eapply safe_bind; [by apply (tok_count_safe _ _ _ Ht); lia|]. intros tk Htk.
  assert (forall d, Safe (mret (inl (line', next, d))) (fun r : bytes * Z * Z + Z * Z =>
    match r with inl a => searching a.1.1 a.1.2 /\ (Z.to_nat (n - a.1.2) < Z.to_nat (n - p))%nat | inr r => 0 <= r.1 /\ 0 <= r.2 end)) as Hnext.
  { intros d. apply safe_ret. cbn [fst snd]. split; [done | lia]. }
  apply case_safe; [done | done|]. apply case_safe; [done| |done]. apply safe_if; intros _; [by apply safe_ret | done].
Qed.

Lemma find_if_end_safe start after :
  0 <= start -> 0 <= after ->
  Safe (find_if_end start after) (fun r => 0 <= r.1.1.2 /\ 0 <= r.2).
Proof.
  intros Hst Hafter. unfold find_if_end. eapply safe_bind; [by apply get_line_safe|]. intros [line position] (Hz & _ & Hp & _). cbn [fst snd] in Hz, Hp.
  apply (safe_while _ (fun a => searching a.1.1.1.1 a.1.1.1.2 /\ 0 <= a.2) (fun a => Z.to_nat (n - a.1.1.1.2))); [|done|].
  2: { cbn [fst snd]. change (Pos.to_nat script_rounds) with (Z.to_nat 1048577). unfold DOGESCRIPT_MAX_SCRIPT_SIZE in *. lia. }
  intros [[[[b p] depth] els] aft] [Hs Ha]. cbn [fst snd] in Hs, Ha |- *.
  apply (search_round (fun a => searching a.1.1.1.1 a.1.1.1.2 /\ 0 <= a.2) (fun a => Z.to_nat (n - a.1.1.1.2))
    (fun r : Z * Z * Z * Z => 0 <= r.1.1.2 /\ 0 <= r.2) b p
    (fun line count next tokens => token ← tok tokens 0; _) (fun line next => (line, next, depth, els, aft))); [done| |].
  { intros line' next Hs' Hlt Hn. split; [done | cbn; lia]. }
  intros line' next count tokens Hs' Hlt Hn Hc Ht. pose proof Hs as [_ ?]. pose proof Hs' as [_ ?].
  eapply safe_bind; [by apply (tok_count_safe _ _ _ Ht); lia|]. intros tk Htk.
  assert (forall d e a, 0 <= a -> Safe (mret (inl (line', next, d, e, a))) (fun r : bytes * Z * Z * Z * Z + Z * Z * Z * Z =>
    match r with
    | inl a => (searching a.1.1.1.1 a.1.1.1.2 /\ 0 <= a.2) /\ (Z.to_nat (n - a.1.1.1.2) < Z.to_nat (n - p))%nat
    | inr r => 0 <= r.1.1.2 /\ 0 <= r.2
    end)) as Hnext.
  { intros d e a Ha'. apply safe_ret. cbn [fst snd]. split; [done | lia]. }
  apply case_safe; [done | by apply Hnext|]. apply case_safe; [done| |apply case_safe; [done| |by apply Hnext]].
  - apply safe_if; intros _; [by apply safe_ret | by apply Hnext].
  - apply safe_if; intros _; [|by apply Hnext]. apply safe_if; intros _; [apply safe_exit | by apply Hnext].
Qed.

(** ** Texts built from tokens *)

Lemma append_string_safe cap b : is_text b -> safe (out_ok cap) (append_string cap b) (fun _ => True).
Proof.
  intros (s & t & -> & Hs). induction Hs as [|c s Hc Hs IH]; cbn; [by apply safe_ret|]. rewrite (eqb_neq c 0 Hc).
  eapply safe_bind; [apply append_checked_safe|]. by intros _ _.
Qed.

Lemma append_escaped_safe cap b : is_text b -> safe (out_ok cap) (append_escaped cap b) (fun _ => True).
Proof.
  intros (s & t & -> & Hs). induction Hs as [|c s Hc Hs IH]; cbn; [by apply safe_ret|]. rewrite (eqb_neq c 0 Hc).
  apply (safe_bind _ _ _ (fun _ => True)); [apply safe_if; intros _; [apply append_checked_safe | by apply safe_ret]|]. intros _ _.
  eapply safe_bind; [apply append_checked_safe|]. by intros _ _.
Qed.

Lemma token_safe cap tokens i : Forall token_ok tokens -> 0 <= i < zlen tokens -> safe (out_ok cap) (lift (rd tokens i)) (fun b => is_text b).
Proof. intros Ht Hi. eapply safe_conseq; [by apply (safe_rd _ _ _ token_ok)|]. by intros b [_ ?]. Qed.

Lemma join_loop_safe k i first cap tokens :
  Forall token_ok tokens -> 0 <= i -> i + Z.of_nat k <= zlen tokens -> safe (out_ok cap) (join_loop k i first cap tokens) (fun _ => True).
Proof.
  intros Ht. revert i. induction k as [|k IH]; intros i Hi Hk; cbn [join_loop]; [by apply safe_ret|].
  apply (safe_bind _ _ _ (fun _ => True)); [apply safe_if; intros _; [apply append_checked_safe | by apply safe_ret]|]. intros _ _.
  eapply safe_bind; [apply token_safe; [done | lia]|]. intros b Hb.
  eapply safe_bind; [by apply append_string_safe|]. intros _ _. apply IH; lia.
Qed.

Lemma quote_loop_safe k i cap tokens :
  Forall token_ok tokens -> 0 <= i -> i + Z.of_nat k <= zlen tokens -> safe (out_ok cap) (quote_loop k i cap tokens) (fun _ => True).
Proof.
  intros Ht. revert i. induction k as [|k IH]; intros i Hi Hk; cbn [quote_loop]; [by apply safe_ret|].
  apply (safe_bind _ _ _ (fun _ => True)); [apply safe_if; intros _; [apply append_checked_safe | by apply safe_ret]|]. intros _ _.
  eapply safe_bind; [apply append_checked_safe|]. intros _ _. eapply safe_bind; [apply token_safe; [done | lia]|]. intros b Hb.
  eapply safe_bind; [by apply append_escaped_safe|]. intros _ _. eapply safe_bind; [apply append_checked_safe|]. intros _ _. apply IH; lia.
Qed.

(** A text that is started and then extended. *)
Lemma on_buffer_safe cap (m : M out unit) b :
  0 < cap -> zlen b = cap -> safe (out_ok cap) m (fun _ => True) ->
  Safe (on_buffer (start_text;; m) b) (fun r => zlen r.1.2 = cap /\ is_text r.1.2 /\ 0 <= r.2 < cap).
Proof.
  intros Hcap Hz Hm s Hs. unfold on_buffer. destruct (wr_is_Some b 0 0) as [b1 E1]; [lia|]. pose proof (wr_zlen _ _ _ _ E1).
  rewrite (bind_val _ _ (Out b 0) (Out b1 0) tt) by (unfold start_text; cbn [o_text]; by rewrite E1).
  destruct (Hm (Out b1 0)) as (o & [b2 k] & E & (Hz2 & Hk & Hr) & _).
  { split; [cbn; lia|]. split; [cbn; lia | exact (rd_wr_eq _ _ _ _ E1)]. }
  rewrite E. eexists (Val _), s. split; [done|]. split; [done|]. cbn in *. split_and!; [done | by eapply is_text_rd | lia | lia].
Qed.

Lemma join_safe value count tokens first :
  zlen value = value_size -> tokens_ok count tokens -> 0 <= first <= count ->
  Safe (join value count tokens first) (fun r => zlen r.1.2 = value_size /\ is_text r.1.2 /\ 0 <= r.2 < value_size).
Proof. intros Hz [Ht Hc] Hf. apply on_buffer_safe; [done | done|]. apply join_loop_safe; [done | lia | lia]. Qed.

Hint Resolve tok_count_safe join_safe condition_value_safe : safe.

(** ** Commands *)

Lemma store_result_safe name value : is_text name -> is_text value -> Safe (store_result name value) (fun _ => True).
Proof. intros Hn Hv. unfold store_result. eapply safe_bind; [by apply set_variable_safe|]. intros rc _. by apply safe_ret. Qed.

Lemma clear_value_safe : Safe (lift (clear_text (zeros 256) value_size)) (fun b => zlen b = value_size).
Proof. apply safe_lift. eexists. split; [vm_compute; reflexivity | done]. Qed.

Section Command.
Context (count : Z) (tokens : list bytes) (value : bytes).
Hypothesis Hvalue : zlen value = value_size.
Hypothesis Htokens : tokens_ok count tokens.
Hypothesis Hcount : 0 < count.

(** Read token [i], which is there. *)
Ltac token := eapply safe_bind; [apply (tok_count_safe _ _ _ Htokens); lia|].
Ltac refuse := first [apply complain_safe | apply safe_exit].

Lemma run_print_safe : Safe (run_print count tokens value) (fun _ => True).
Proof.
  unfold run_print. eapply safe_bind; [apply join_safe; [done..|lia]|]. intros [[ok b] k] (Hz & Hb & _). cbn in Hz, Hb.
  apply safe_if; intros _; [refuse|]. token. intros cmd Hcmd. apply case_safe; [done| |].
  - eapply safe_bind; [apply println_safe|]. intros _ _. by apply safe_ret.
  - eapply safe_bind; [apply print_safe|]. intros _ _. apply case_safe; [done| |by apply safe_ret].
    eapply safe_bind; [apply println_safe|]. intros _ _. by apply safe_ret.
Qed.

Lemma run_set_safe : Safe (run_set count tokens value) (fun _ => True).
Proof.
  unfold run_set. apply safe_if; intros E; [refuse|]. apply Z.ltb_ge in E.
  eapply safe_bind; [apply join_safe; [done..|lia]|]. intros [[ok b] k] (Hz & Hb & _). cbn in Hz, Hb.
  apply safe_if; intros _; [refuse|]. token. intros nm Hnm. eapply safe_bind; [by apply set_variable_safe|]. intros rc _.
  apply safe_if; intros _; [refuse | by apply safe_ret].
Qed.

Lemma run_unset_safe : Safe (run_unset count tokens) (fun _ => True).
Proof.
  unfold run_unset. apply safe_if; intros E; [refuse|]. apply negb_false_iff, Z.eqb_eq in E. token. intros nm Hnm.
  eapply safe_bind; [by apply unset_variable_safe|]. intros _ _. by apply safe_ret.
Qed.

Lemma run_input_safe : Safe (run_input count tokens value) (fun _ => True).
Proof.
  unfold run_input. apply safe_if; intros E; [refuse|]. apply orb_false_iff in E as [?%Z.ltb_ge ?%Z.ltb_ge].
  apply (safe_bind _ _ _ (fun _ => True)).
  { apply safe_if; intros E; [|by apply safe_ret]. apply Z.eqb_eq in E. eapply safe_conseq; [apply (tok_count_safe _ _ _ Htokens); lia | done]. }
  intros prompt _. apply (safe_bind _ _ _ (fun r => zlen r.2 <= value_size /\ (0 <= s64 r.1 -> is_text r.2))).
  { apply safe_call. intros w [rc data] w' Er. by eapply os_input_text. }
  intros [rc data] [Hd Ht]. cbn in Hd, Ht. eapply safe_bind; [apply safe_blit0; lia|]. intros b [Hz ->].
  apply safe_if; intros E; [refuse|]. apply Z.ltb_ge in E. token. intros nm Hnm.
  eapply safe_bind; [apply set_variable_safe; [done | by apply is_text_prefix, Ht]|]. intros rc' _.
  apply safe_if; intros _; [refuse | by apply safe_ret].
Qed.

Lemma format_value_safe v : is_int64 v -> Safe (lift (format_integer value value_size v)) (fun r => is_text r.2).
Proof.
  intros Hv. eapply safe_conseq; [apply safe_format; [done | rewrite Hvalue; done]|]. by intros r [_ ?].
Qed.

Lemma run_step_safe : Safe (run_step count tokens argc argv path value) (fun _ => True).
Proof.
  unfold run_step. apply safe_if; intros E; [refuse|]. apply negb_false_iff, Z.eqb_eq in E. token. intros nm Hnm.
  eapply safe_bind; [by apply get_variable_safe|]. intros old Hold. eapply safe_bind; [by apply safe_parse|]. intros r Hr.
  token. intros cmd Hcmd. eapply safe_bind; [apply safe_text_equal; [done | apply is_text_clit]|]. intros inc _.
  destruct r as [v|]; [|refuse]. specialize (Hr v eq_refl). apply safe_if; intros Ev; [refuse|].
  eapply safe_bind; [apply format_value_safe|intros [k b] Hb; by apply store_result_safe].
  unfold is_int64 in *. destruct inc; apply Z.eqb_neq in Ev; lia.
Qed.

Lemma representable_int64 o v w : o = representable w -> o = Some v -> is_int64 v.
Proof. intros ->. unfold representable. case_bool_decide; [by intros [= <-] | done]. Qed.

Lemma run_math_safe : Safe (run_math count tokens value) (fun _ => True).
Proof.
  unfold run_math. apply safe_if; intros E; [refuse|]. apply negb_false_iff, Z.eqb_eq in E.
  token. intros t2 H2. eapply safe_bind; [by apply safe_parse|]. intros [l|] Hl; [|refuse]. specialize (Hl l eq_refl).
  token. intros t4 H4. eapply safe_bind; [by apply safe_parse|]. intros [r|] Hr; [|refuse]. specialize (Hr r eq_refl).
  token. intros op Hop.
  assert (forall o msg, (forall v, o = Some v -> is_int64 v) ->
    Safe (match o with
          | None => complain msg
          | Some number =>
              '(_, value) ← lift (format_integer value value_size number);
              name ← tok tokens 1; store_result name value
          end) (fun _ => True)) as Hput.
  { intros [v|] msg Hv; [|refuse]. eapply safe_bind; [by apply format_value_safe, Hv|]. intros [k b] Hb. token. intros nm Hnm. by apply store_result_safe. }
  repeat (apply case_safe; [done| |]); [..|refuse]; apply Hput; intros v.
  - by apply representable_int64 with (l + r), math_add_ok.
  - by apply representable_int64 with (l - r), math_sub_ok.
  - by apply representable_int64 with (l * r), math_mul_ok.
  - rewrite (math_div_ok l r Hl Hr). destruct (decide (r = 0)); [done|]. by eapply representable_int64.
Qed.

Lemma truth_int64 b : is_int64 (truth b).
Proof. by destruct b. Qed.

Lemma run_test_safe : Safe (run_test count tokens value) (fun _ => True).
Proof.
  unfold run_test. apply safe_if; intros E; [refuse|]. apply negb_false_iff, Z.eqb_eq in E. token. intros arrow Harrow.
  apply case_safe; [done| |refuse]. token. intros p Hp. eapply safe_bind; [apply stat_safe|]. intros [rc [[size d] e]] _.
  token. intros cmd Hcmd. apply (safe_bind _ _ _ is_int64); [apply case_safe; [done | apply safe_ret, truth_int64 | apply safe_ret, truth_int64]|].
  intros v Hv. eapply safe_bind; [by apply format_value_safe|]. intros [k b] Hb. token. intros nm Hnm. by apply store_result_safe.
Qed.

Lemma has_zero_safe k i b : 0 <= i -> i + Z.of_nat k <= zlen b -> Safe (lift (has_zero k i b)) (fun _ => True).
Proof.
  intros Hi Hk. apply safe_lift. revert i Hi Hk. induction k as [|k IH]; intros i Hi Hk; cbn; [by eexists|].
  destruct (rd_is_Some b i) as [c Ec]; [lia|]. rewrite Ec. cbn. destruct (c =? 0); [by eexists | apply IH; lia].
Qed.

Lemma run_read_safe : Safe (run_read count tokens value) (fun _ => True).
Proof.
  unfold run_read. apply safe_if; intros E; [refuse|]. apply negb_false_iff, Z.eqb_eq in E. token. intros p Hp.
  eapply safe_bind; [apply stat_safe|]. intros [rc [[size d] e]] Hsize. cbn in Hsize.
  apply safe_if; intros E2; [refuse|]. apply orb_false_iff in E2 as [_ E2%Z.leb_gt].
  apply (safe_bind _ _ _ (fun r => zlen r.2 <= size)). { apply safe_call. intros w [rc' data] w' Er. by eapply os_read_bound. }
  intros [rc' data] Hd. cbn in Hd. eapply safe_bind; [apply safe_blit0; lia|]. intros b [Hz _].
  apply safe_if; intros _; [refuse|]. eapply safe_bind; [apply has_zero_safe; lia|]. intros z _. apply safe_if; intros _; [refuse|].
  eapply safe_bind; [apply (safe_wr _ _ _ _ (fun b => is_text b)); [lia|]|]. { intros b' Ew. by eapply is_text_rd, rd_wr_eq. }
  intros b' Hb'. token. intros nm Hnm. by apply store_result_safe.
Qed.

Lemma run_write_safe : Safe (run_write count tokens value) (fun _ => True).
Proof.
  unfold run_write. apply safe_if; intros E; [refuse|]. apply Z.ltb_ge in E.
  eapply safe_bind; [apply join_safe; [done..|lia]|]. intros [[ok b] k] (Hz & Hb & Hk). cbn [fst snd] in Hz, Hb, Hk.
  apply safe_if; intros _; [refuse|]. token. intros cmd Hcmd. token. intros p Hp. apply (safe_bind _ _ _ (fun _ => True)).
  - apply case_safe; [done | by apply safe_call|].
    eapply safe_bind; [apply (safe_lift _ _ (fun _ => True)); destruct (slice_total b 0 k) as [x ->]; [lia..|by exists x]|]. intros data _. by apply safe_call.
  - intros r _. apply safe_if; intros _; [refuse | by apply safe_ret].
Qed.

Lemma run_assert_safe : Safe (run_assert count tokens) (fun _ => True).
Proof.
  unfold run_assert. eapply safe_bind; [by apply safe_attempt, condition_value_safe|]. intros [c|rc] _; [|refuse].
  apply safe_if; intros _; [refuse | by apply safe_ret].
Qed.

Lemma run_fail_safe : Safe (run_fail count tokens value) (fun _ => True).
Proof.
  unfold run_fail. apply safe_if; intros _; [refuse|]. eapply safe_bind; [apply join_safe; [done..|lia]|].
  intros [[ok b] k] _. apply safe_if; intros _; [refuse|]. eapply safe_bind; [apply println_safe|]. intros _ _. by apply safe_ret.
Qed.

Lemma exit_now_safe v : Safe (modify (set_exit true v);; mret 0) (fun _ => True).
Proof. eapply safe_bind; [apply safe_modify; intros s Hs; by apply set_exit_ok|]. intros _ _. by apply safe_ret. Qed.

Lemma run_exit_safe : Safe (run_exit count tokens) (fun _ => True).
Proof.
  unfold run_exit. apply safe_if; intros E; [refuse|]. apply safe_if; intros E2; [|apply exit_now_safe]. apply Z.eqb_eq in E2.
  token. intros b Hb. eapply safe_bind; [by apply safe_parse|]. intros [v|] _; [|refuse]. apply safe_if; intros _; [refuse | apply exit_now_safe].
Qed.

Lemma run_shell_safe line : is_text line -> Safe (run_shell count tokens line) (fun _ => True).
Proof.
  intros (s & t & -> & Hs). unfold run_shell. apply (safe_bind _ _ _ (fun _ => True)).
  { apply safe_lift. induction Hs as [|c s Hc Hs IH]; cbn; [by eexists|]. rewrite (eqb_neq c 0 Hc). destruct (c =? c_dollar); [by eexists | done]. }
  intros d _. apply safe_if; intros _.
  - apply (safe_bind _ _ _ (fun _ => True)); [by apply safe_call|]. intros r _. by apply safe_ret.
  - eapply safe_bind; [apply (on_buffer_safe DOGESCRIPT_MAX_SHELL_COMMAND_SIZE); [done | done |]|].
    { destruct Htokens. apply quote_loop_safe; [done | lia | lia]. }
    intros [[ok b] k] _. apply safe_if; intros _; [refuse|]. apply (safe_bind _ _ _ (fun _ => True)); [by apply safe_call|]. intros r _. by apply safe_ret.
Qed.

End Command.

Lemma run_command_safe count tokens line :
  tokens_ok count tokens -> is_text line -> Safe (run_command count tokens argc argv path line) (fun _ => True).
Proof.
  intros Ht Hl. unfold run_command. apply total_safe, total_fn. eapply safe_bind; [apply clear_value_safe|]. intros value Hv.
  apply safe_if; intros E; [by apply safe_ret|]. apply Z.eqb_neq in E. assert (0 < count) as Hc by (destruct Ht; lia).
  eapply safe_bind; [apply (tok_count_safe _ _ _ Ht); lia|]. intros cmd Hcmd.
  repeat (apply case_safe; [done| |]); auto using run_print_safe, run_set_safe, run_unset_safe, run_input_safe, run_step_safe, run_math_safe,
    run_test_safe, run_read_safe, run_write_safe, run_assert_safe, run_fail_safe, run_exit_safe, run_shell_safe.
Qed.

(** ** The main loop *)

Definition frame_ok (f : loop_frame_t) : Prop :=
  0 <= start_offset f /\ 0 <= body_offset f /\ 0 <= end_offset f /\ 0 <= after_end_offset f.

Definition stack_ok (stack : list loop_frame_t) (depth : Z) : Prop :=
  zlen stack = DOGESCRIPT_MAX_LOOP_DEPTH /\ Forall frame_ok stack /\ 0 <= depth <= DOGESCRIPT_MAX_LOOP_DEPTH.

Definition progress_ok (p : progress) : Prop :=
  0 <= program_counter p /\ 0 <= executed_steps p /\ stack_ok (loop_stack p) (loop_depth p).

Definition steps_left (p : progress) : nat := Z.to_nat (DOGESCRIPT_MAX_STEPS + 1 - executed_steps p).

(** The state after a step that had run [steps] steps. *)
Definition advanced (steps : Z) (r : progress + Z) : Prop :=
  match r with inl p => progress_ok p /\ executed_steps p = steps | inr _ => True end.

Section Step.
Context (steps : Z) (stack : list loop_frame_t) (depth : Z).
Hypothesis Hsteps : 0 <= steps.
Hypothesis Hstack : stack_ok stack depth.

Lemma goto_safe st d pc : stack_ok st d -> 0 <= pc -> Safe (goto steps st d pc) (advanced steps).
Proof. intros Hs Hp. apply safe_ret. by split. Qed.

Lemma frame_safe i : 0 <= i < DOGESCRIPT_MAX_LOOP_DEPTH -> Safe (lift (rd stack i)) frame_ok.
Proof. destruct Hstack as (Hz & Hf & _). intros Hi. apply safe_rd; [done | lia]. Qed.

Lemma push_loop_safe f :
  frame_ok f -> depth < DOGESCRIPT_MAX_LOOP_DEPTH -> Safe (push_loop stack depth f) (fun st => stack_ok st (depth + 1)).
Proof.
  destruct Hstack as (Hz & Hf & Hd). intros Hok Hlt. apply safe_wr; [lia|]. intros st E. pose proof (wr_zlen _ _ _ _ E).
  split; [lia|]. split; [|lia]. apply wr_Some in E as [_ ->]. apply Forall_insert; [done|].
  split_and!; cbn; apply Z.mod_pos_bound; done.
Qed.

Lemma top_is_safe k field offset : Safe (top_is stack depth k field offset) (fun b => b = true -> 0 < depth).
Proof.
  unfold top_is. apply safe_if; intros E; [|by apply safe_ret]. apply Z.ltb_lt in E. destruct Hstack as (_ & _ & Hd).
  eapply safe_bind; [apply frame_safe; lia|]. intros f Hf. by apply safe_ret.
Qed.

Lemma step_if_safe pc next condition :
  0 <= pc -> 0 <= next -> Safe (step_if pc next condition (goto steps stack depth)) (advanced steps).
Proof.
  intros Hpc Hn. unfold step_if. eapply safe_bind; [apply safe_attempt, find_if_end_safe; [done | done]|].
  intros [[[[e a] els] aft]|rc] Hr; [|apply complain_safe]. cbn in Hr. destruct Hr as [Ha Hf].
  apply safe_if; intros _; apply goto_safe; try done. by destruct (negb _).
Qed.

Lemma step_while_safe pc next condition :
  0 <= pc -> 0 <= next -> Safe (step_while pc next condition steps stack depth) (advanced steps).
Proof.
  intros Hpc Hn. unfold step_while. pose proof Hstack as (Hz & Hf & Hd).
  eapply safe_bind; [apply top_is_safe|]. intros again Hagain.
  apply (safe_bind _ _ _ (fun r => match r with inl e => 0 <= e.1 /\ 0 <= e.2 | inr _ => True end)).
  { apply safe_if; intros E; [|by apply safe_attempt, find_control_end_safe]. specialize (Hagain E).
    eapply safe_bind; [apply frame_safe; lia|]. intros f (_ & _ & ? & ?). by apply safe_ret. }
  intros [[e a]|rc] Hr; [|apply complain_safe]. cbn in Hr. destruct Hr as [He Ha].
  apply safe_if; intros _.
  { apply goto_safe; [|done]. split; [done|]. split; [done|]. destruct again; [specialize (Hagain eq_refl); lia | done]. }
  apply (safe_bind _ _ _ (fun _ => True)).
  { apply safe_if; intros E; [by apply safe_ret|]. apply Z.eqb_neq in E. eapply safe_bind; [apply frame_safe; lia|]. intros f _. by apply safe_ret. }
  intros top _. apply safe_if; intros _; [|by apply goto_safe]. apply safe_if; intros E; [apply complain_safe|]. apply Z.eqb_neq in E.
  eapply safe_bind; [apply push_loop_safe; [done | lia]|]. intros st Hst. by apply goto_safe.
Qed.

Lemma step_repeat_safe pc next count tokens :
  0 <= pc -> 0 <= next -> tokens_ok count tokens -> Safe (step_repeat pc next count tokens steps stack depth) (advanced steps).
Proof.
  intros Hpc Hn Ht. unfold step_repeat. pose proof Hstack as (Hz & Hf & Hd). apply safe_if; intros E; [apply complain_safe|].
  apply negb_false_iff, Z.eqb_eq in E. eapply safe_bind; [apply (tok_count_safe _ _ _ Ht); lia|]. intros b Hb.
  eapply safe_bind; [by apply safe_parse|]. intros [v|] _; [|apply complain_safe]. apply safe_if; intros _; [apply complain_safe|].
  eapply safe_bind; [by apply safe_attempt, find_control_end_safe|]. intros [[e a]|rc] Hr; [|apply complain_safe]. cbn in Hr. destruct Hr as [He Ha].
  apply safe_if; intros _; [by apply goto_safe|]. apply safe_if; intros E2; [apply complain_safe|]. apply Z.eqb_neq in E2.
  eapply safe_bind; [apply push_loop_safe; [done | lia]|]. intros st Hst. by apply goto_safe.
Qed.

Lemma step_else_safe pc : 0 <= pc -> Safe (step_else pc (goto steps stack depth)) (advanced steps).
Proof.
  intros Hpc. unfold step_else. eapply safe_bind; [by apply safe_attempt, find_control_end_safe|].
  intros [[e a]|rc] Hr; [|apply complain_safe]. cbn in Hr. destruct Hr as [_ Ha]. by apply goto_safe.
Qed.

Lemma step_endwhile_safe pc : Safe (step_endwhile pc steps stack depth) (advanced steps).
Proof.
  unfold step_endwhile. pose proof Hstack as (Hz & Hf & Hd). eapply safe_bind; [apply top_is_safe|]. intros m Hm.
  apply safe_if; intros E; [apply complain_safe|]. apply negb_false_iff in E. specialize (Hm E).
  eapply safe_bind; [apply frame_safe; lia|]. intros f (? & _). by apply goto_safe.
Qed.

Lemma step_endrepeat_safe pc next : 0 <= next -> Safe (step_endrepeat pc next steps stack depth) (advanced steps).
Proof.
  intros Hn. unfold step_endrepeat. pose proof Hstack as (Hz & Hf & Hd). eapply safe_bind; [apply top_is_safe|]. intros m Hm.
  apply safe_if; intros E; [apply complain_safe|]. apply negb_false_iff in E. specialize (Hm E).
  eapply safe_bind; [apply frame_safe; lia|]. intros f (Hs & Hb & He & Ha). apply safe_if; intros _.
  - eapply safe_bind; [apply (safe_wr _ _ _ _ (fun st => stack_ok st depth)); [lia|]|intros st Hst; by apply goto_safe].
    intros st Ew. pose proof (wr_zlen _ _ _ _ Ew). split; [lia|]. split; [|done]. apply wr_Some in Ew as [_ ->]. by apply Forall_insert.
  - apply goto_safe; [|done]. split_and!; [done | done | lia | lia].
Qed.

Lemma step_break_safe count tokens :
  tokens_ok count tokens -> 0 < count -> Safe (step_break count tokens steps stack depth) (advanced steps).
Proof.
  intros Ht Hc. unfold step_break. pose proof Hstack as (Hz & Hf & Hd). apply safe_if; intros E; [apply complain_safe|].
  apply orb_false_iff in E as [E%Z.eqb_neq _]. eapply safe_bind; [apply frame_safe; lia|]. intros f (Hs & Hb & He & Ha).
  eapply safe_bind; [apply (tok_count_safe _ _ _ Ht); lia|]. intros cmd Hcmd. apply case_safe; [done| |].
  - apply goto_safe; [|done]. split_and!; [done | done | lia | lia].
  - destruct (kind f); by apply goto_safe.
Qed.

End Step.

(** The message of a failing command fits its buffer. *)
Lemma append_text_blit d position s t :
  nozero s -> 0 <= position -> position + zlen s <= zlen d ->
  append_text d position (s ++ 0 :: t) = (fun d' => (position + zlen s, d')) <$> blit d position s.
Proof.
  intros Hs. revert d position. induction Hs as [|c s Hc Hs IH]; intros d position Hp Hz; cbn [app append_text].
  { rewrite blit_nil by (change (zlen (@nil Z)) with 0 in Hz; lia). change (zlen (@nil Z)) with 0. by rewrite Z.add_0_r. }
  rewrite (eqb_neq c 0 Hc), zlen_cons in *. pose proof (zlen_nonneg s). rewrite blit_cons.
  destruct (wr_is_Some d position c) as [d1 E1]; [lia|]. rewrite E1. cbn [mbind option_bind]. pose proof (wr_zlen _ _ _ _ E1).
  rewrite IH by lia. by replace (position + 1 + zlen s) with (position + (1 + zlen s)) by lia.
Qed.

Lemma report_line_safe pc (Q : progress + Z -> Prop) : 0 <= pc < n -> Safe (report_line pc) Q.
Proof.
  intros Hpc. unfold report_line. apply (safe_bind _ _ _ (fun b => zlen b = 96)).
  { apply safe_lift. eexists. split; [vm_compute; reflexivity | done]. }
  intros msg Hmsg. eapply safe_bind; [apply get_line_number_safe|]. intros v Hv. cbv beta in Hmsg, Hv. apply safe_if; intros _; [apply complain_safe|].
  assert (is_u64 v) as Hu by (unfold DOGESCRIPT_MAX_SCRIPT_SIZE in *; unfold_int; lia).
  pose proof (zlen_dec_bound v 20 (u64_lt_digits v Hu) ltac:(lia)) as Hd. pose proof (zlen_nonneg (dec v)).
  assert (nozero (dec v)) as Hnz by (apply digits_nozero, dec_digits; lia).
  eapply safe_bind; [apply (safe_lift _ _ (fun b => cstr b (dec v)))|].
  { rewrite u64toa_text by (done || (change (zlen (zeros 21)) with 21; lia)).
    destruct (blit_total (zeros 21) (dec v ++ [0]) 0) as [b E]; [lia | rewrite zlen_app; change (zlen [0]) with 1; change (zlen (zeros 21)) with 21; lia|].
    exists b. split; [done | by eapply cstr_blit]. }
  intros num (t & -> & _). rewrite append_text_blit by (done || lia).
  destruct (blit_total msg (dec v) 35) as [b E]; [lia | lia |]. rewrite E. pose proof (blit_zlen _ _ _ _ E).
  eapply safe_bind; [apply (safe_lift _ _ (fun r => r = (35 + zlen (dec v), b))); by eexists|]. intros ? ->.
  eapply safe_bind; [apply (safe_wr _ _ _ _ (fun _ => True)); [lia | done]|]. intros m _.
  eapply safe_bind; [apply println_safe|]. intros _ _. apply safe_exit.
Qed.

Lemma run_line_safe p :
  progress_ok p ->
  Safe (run_line argc argv path p) (fun r =>
    match r with inl p' => progress_ok p' /\ (steps_left p' < steps_left p)%nat | inr _ => True end).
Proof.
  destruct p as [pc steps stack depth]. intros (Hpc & Hsteps & Hstack). cbn in Hpc, Hsteps, Hstack. unfold run_line.
  eapply safe_bind; [apply size_safe|]. intros ? ->. eapply safe_bind; [apply (safe_gets _ _ (fun _ => True)); done|]. intros req _.
  apply safe_if; intros E. { eapply safe_bind; [apply (safe_gets _ _ (fun _ => True)); done|]. intros st _. by apply safe_ret. }
  apply negb_false_iff, andb_true_iff in E as [Hlt%Z.ltb_lt _]. cbn [program_counter] in Hlt.
  apply safe_if; intros E; [apply complain_safe|]. apply Z.ltb_ge in E.
  apply (safe_conseq _ _ (advanced (steps + 1))).
  2: { intros [p'|st] Hr; [|done]. destruct Hr as [Hp' Es]. split; [done|]. unfold steps_left. rewrite Es. cbn. unfold DOGESCRIPT_MAX_STEPS in *. lia. }
  eapply safe_bind; [apply safe_attempt, get_tokens_safe; done|]. intros [[[line count] next]|rc] Hr; [|apply complain_safe].
  destruct Hr as [(Hz & Hline & Hn & _) Hc]. cbn [fst snd] in *.
  assert (0 <= steps + 1) as Hs1 by lia.
  apply safe_if; intros E0; [by apply goto_safe|]. apply Z.eqb_neq in E0.
  eapply safe_bind; [apply tokens_safe|]. intros tokens [Hzt Htok]. assert (tokens_ok count tokens) as Ht by (split; [done | lia]).
  assert (0 < count) as Hc' by lia.
  eapply safe_bind; [apply (tok_count_safe _ _ _ Ht); lia|]. intros cmd Hcmd.
  apply case_safe; [done| |].
  { eapply safe_bind; [by apply safe_attempt, condition_value_safe|]. intros [v|rc] _; [|apply complain_safe].
    apply case_safe; [done | by apply step_if_safe | by apply step_while_safe]. }
  apply case_safe; [done | by apply step_repeat_safe|]. apply case_safe; [done | by apply step_else_safe|].
  apply case_safe; [done | by apply goto_safe|]. apply case_safe; [done | by apply step_endwhile_safe|].
  apply case_safe; [done | by apply step_endrepeat_safe|]. apply case_safe; [done | by apply step_break_safe|].
  eapply safe_bind; [by apply run_command_safe|]. intros st _. apply safe_if; intros _; [by apply report_line_safe | by apply goto_safe].
Qed.

Lemma script_loop_safe :
  Safe (while_true step_rounds (run_line argc argv path) (Progress 0 0 (replicate 32 no_frame) 0)) (fun _ => True).
Proof.
  apply (safe_while _ progress_ok steps_left).
  - intros p Hp. by apply run_line_safe.
  - split; [done|]. split; [done|]. split; [done|]. split; [by apply Forall_replicate | done].
  - unfold steps_left. cbn [executed_steps]. change (Pos.to_nat step_rounds) with (Z.to_nat 500002). unfold DOGESCRIPT_MAX_STEPS. lia.
Qed.

End Interpreter.

(** ** A whole run *)

Section Run.
Context {W : Type} `{SafeOs W}.
Context (argc : Z) (argv : list (option bytes)) (path : bytes).
Hypothesis path_text : is_text path.

(** Before the script is opened. *)
Definition ready (s : script W) : Prop :=
  tables_ok s /\ active_argc s = argc /\ active_argv s = argv /\ active_script_path s = path.

#[local] Instance ready_quiet : Quiet ready.
Proof. intros w s [[? ? ? ? ?] ?]. split; [by constructor | done]. Qed.

Lemma resolve_script_safe : safe ready (resolve_script path) (fun _ => True).
Proof.
  unfold resolve_script. eapply safe_bind; [by apply safe_head|]. intros c _.
  assert (forall d, is_text d -> safe ready (lift (copy_array (zeros 256) 256 d)) (fun r => zlen r.2 = 256 /\ is_text r.2)) as Hcopy.
  { intros d Hd. apply (safe_copy _ (zeros 256)); [done | exists []; apply cstr_nil | done]. }
  apply safe_if; intros _.
  { eapply safe_bind; [by apply Hcopy|]. intros [rc b] _. apply safe_if; intros _; [apply (quiet_complain ready) | by apply safe_ret]. }
  eapply safe_bind; [apply (safe_lift _ _ (fun b => zlen b = 256)); eexists; split; [vm_compute; reflexivity | done]|]. intros b0 Hb0.
  apply (safe_bind _ _ _ (fun r => zlen r.2 <= 256 /\ (0 <= s64 r.1 -> is_text r.2))).
  { apply (quiet_call ready). intros w [rc data] w' Er. by eapply os_cwd_text. }
  intros [rc data] [Hd Ht]. cbn in Hd, Ht. cbv beta in Hb0. eapply safe_bind; [apply safe_blit0; lia|]. intros b [Hz ->].
  apply safe_if; intros E; [apply (quiet_complain ready)|]. apply Z.ltb_ge in E. pose proof (is_text_prefix _ (drop (length data) b0) (Ht E)) as Hb.
  eapply safe_bind; [by apply safe_head|]. intros c' _. apply safe_if; intros _; [apply (quiet_complain ready)|].
  eapply safe_bind; [by apply Hcopy|]. intros [rc' r] [Hzr Hr]. cbn in Hzr, Hr. apply safe_if; intros _; [apply (quiet_complain ready)|].
  eapply safe_bind; [by apply safe_text_length|]. intros len [Hlen Hend].
  apply (safe_bind _ _ _ (fun x => zlen x.1.2 = 256 /\ 0 <= x.2)).
  { apply safe_if; intros _; [|apply safe_ret; cbn; lia]. intros s Hs.
    destruct (append_checked_safe 256 c_slash (Out r len)) as (o & [b2 k] & E2 & (? & ? & _) & _); [split_and!; cbn; [done | lia | lia | done]|].
    rewrite E2. eexists (Val _), s. split; [done|]. split; [done|]. cbn in *. lia. }
  intros [[ok r'] len'] [Hzr' Hl']. cbn in Hzr', Hl'. apply safe_if; intros _; [apply (quiet_complain ready)|].
  eapply safe_bind; [by apply safe_text_length|]. intros plen [Hpl _]. apply safe_if; intros E3; [apply (quiet_complain ready)|]. apply Z.leb_gt in E3.
  apply safe_lift. rewrite ncopy_blit by (lia || (unfold zlen in *; lia)).
  destruct (blit_total r' (take (Z.to_nat (plen + 1)) path) len') as [x Ex]; [lia | |by exists x].
  assert (zlen (take (Z.to_nat (plen + 1)) path) = plen + 1) by (unfold zlen in *; rewrite length_take; lia). lia.
Qed.

End Run.

Section Start.
Context {W : Type} `{SafeOs W}.

(** The arguments a program is started with: at least the script, each a text. *)
Definition arguments_ok (argc : Z) (argv : list (option bytes)) : Prop :=
  1 <= argc <= INT_MAX /\ argc <= zlen argv /\ Forall (fun a => forall b, a = Some b -> is_text b) argv.

(** A program that starts when [I] holds and ends with its tables in order. *)
Definition ends {A} (I : script W -> Prop) (m : M (script W) A) : Prop :=
  forall s, I s -> exists o s', m s = Some (o, s') /\ tables_ok s'.

Lemma ends_safe {A} (I : script W -> Prop) (m : M (script W) A) Q : (forall s, I s -> tables_ok s) -> safe I m Q -> ends I m.
Proof. intros HI Hm s Hs. destruct (Hm s Hs) as (o & s' & E & Hs' & _). exists o, s'. auto. Qed.

Lemma ends_bind {A B} (I : script W -> Prop) (m : M (script W) A) (k : A -> M (script W) B) P :
  (forall s, I s -> tables_ok s) -> safe I m P -> (forall a, P a -> ends I (k a)) -> ends I (m ≫= k).
Proof.
  intros HI Hm Hk s Hs. destruct (Hm s Hs) as ([a|rc] & s' & E & Hs' & Ha).
  - rewrite (bind_val _ _ _ _ _ E). by apply Hk.
  - rewrite (bind_exit _ _ _ _ _ E). eexists _, s'. auto.
Qed.

Lemma run_script_ends path argc argv (s : script W) :
  tables_ok s -> arguments_ok argc argv -> is_text path ->
  exists status s', run_script path argc argv s = Some (Val status, s') /\ tables_ok s'.
Proof.
  intros Hs (Hargc & Hlen & Hargv) Hp. pose proof (ready_quiet (W := W) argc argv path) as Hq.
  assert (forall x : script W, ready argc argv path x -> tables_ok x) as Ht by (by intros x [? _]).
  assert (forall m : M (script W) Z, ends (ready argc argv path) m ->
    exists status s', fn (vars ← gets variables; modify (set_variables vars 0);; modify (set_active argc argv path);; m) s = Some (Val status, s') /\ tables_ok s') as Hstart.
  { intros m Hm. unfold fn. rewrite bind_gets, !bind_modify.
    destruct (Hm (set_active argc argv path (set_variables (variables s) 0 s))) as ([v|v] & s' & -> & Hs');
      [destruct Hs; split; [by constructor | done] | by eexists _, s'..]. }
  apply Hstart. eapply ends_bind; [done | by apply resolve_script_safe|]. intros b _.
  eapply ends_bind; [done | apply (quiet_stat (ready argc argv path))|]. intros [rc [[size d] e]] Hsize. cbn in Hsize.
  destruct (s64 rc <? 0).
  { eapply ends_bind; [done | apply (quiet_print (ready argc argv path))|]. intros _ _.
    eapply ends_bind; [done | apply (quiet_println (ready argc argv path))|]. intros _ _. eapply ends_safe; [done | by apply (safe_exit _ _ (fun _ => True))]. }
  destruct (negb _); [by eapply ends_safe; [|apply (quiet_complain (ready argc argv path) _ (fun _ => True))]|].
  destruct (Z.ltb_spec DOGESCRIPT_MAX_SCRIPT_SIZE size); [by eapply ends_safe; [|apply (quiet_complain (ready argc argv path) _ (fun _ => True))]|].
  intros x [Hx Hact]. rewrite !bind_modify.
  destruct (script_loop_safe argc argv path size Hargc Hlen Hargv Hp ltac:(lia)) with
    (s := set_exit false 0 (set_reader (Reader b size UINT64_MAX 0 (zeros 512)) x)) as (o & s' & E & Hs' & _).
  - destruct Hx. constructor; [by constructor | done |]. split_and!; done.
  - exists o, s'. split; [exact E | apply Hs'].
Qed.

End Start.
