(* ===== verification/ScriptProofs.v ===== *)
(** * What commands of a script do

    Variables behave as a finite map, [math] computes exactly or fails, and a
    command of the shell reaches Dogeshell as the words the script expanded. *)

From S2P Require Import Prelude CString CMonad ShellWords ShellWordsProofs Script ScriptNumbers ScriptVars ScriptSafe.

(** ** Variables *)

(** C23: the table of variables refines a finite map.  Setting a variable stores the
    value when the name is valid, the value is shorter than 256 bytes and the
    variable exists or there is room for its name, and otherwise returns -1 and
    changes nothing; unsetting removes it; reading yields the value, or the empty
    text for an unknown name.  Nothing but the table changes. *)
Theorem variables_refine_map {W} (s : script W) m name nm value x :
  represents s m -> cstr name nm -> cstr value x ->
  table_step (set_variable name value s) (if set_spec nm x m is Some _ then 0 else -1) s (default m (set_spec nm x m)) /\
  table_step (unset_variable name s) 0 s (delete nm m) /\
  (is_name_start (default 0 (head nm)) = true -> nm <> lit "argc" ->
   forall argc argv path, exists b,
     get_variable name argc argv path s = Some (Val b, s) /\ cstr b (default [] (m !! nm))).
Proof.
  intros Hm Hn Hv. split_and!; [by apply set_variable_ok | by apply unset_variable_ok|].
  intros Hst Ha argc argv path. by apply read_variable.
Qed.

(** ** Arithmetic *)

Inductive operator := Plus | Minus | Times | Divide.

Definition operator_text (o : operator) : string :=
  match o with Plus => "+" | Minus => "-" | Times => "*" | Divide => "/" end.

(** The result as a mathematical integer, if it is one of 64 bits; the quotient is
    rounded towards zero. *)
Definition exact (o : operator) (l r : Z) : option Z :=
  match o with
  | Plus => representable (l + r)
  | Minus => representable (l - r)
  | Times => representable (l * r)
  | Divide => if decide (r = 0) then None else representable (Z.quot l r)
  end.

Section Math.
Context {W : Type} `{ScriptOs W}.
Implicit Type s : script W.

Lemma case_yes {A} b t name (m1 m2 : M (script W) A) s :
  cstr b t -> t = lit name -> nozero (lit name) -> case b [name] m1 m2 s = m1 s.
Proof.
  intros Hb -> Hn. unfold case. cbn [foldr]. mlift (text_equal_ok _ _ _ _ Hb (cstr_clit name Hn)). by rewrite bool_decide_eq_true_2.
Qed.

Lemma case_no {A} b t name (m1 m2 : M (script W) A) s :
  cstr b t -> t <> lit name -> nozero (lit name) -> case b [name] m1 m2 s = m2 s.
Proof.
  intros Hb Ht Hn. unfold case. cbn [foldr]. mlift (text_equal_ok _ _ _ _ Hb (cstr_clit name Hn)). by rewrite bool_decide_eq_false_2.
Qed.

Lemma complain_runs {A} text s :
  exists w, (complain text : M (script W) A) s = Some (Ret 1, set_os w s).
Proof. eexists. reflexivity. Qed.

Lemma represents_os s m w : represents s m -> represents (set_os w s) m.
Proof. intros (l & [? ? ? ? ?] & ->). exists l. split; [by constructor | done]. Qed.

Lemma bind_tok {A} tokens i b (k : bytes -> M (script W) A) s : rd tokens i = Some b -> (tok tokens i ≫= k) s = k b s.
Proof. intros E. unfold tok. by mlift E. Qed.

(** The end of [math]: print the message, or store the numeral. *)
Lemma math_put_runs o text s m tokens value name nm :
  represents s m -> zlen value = value_size -> rd tokens 1 = Some name -> cstr name nm ->
  (forall v, o = Some v -> is_int64 v) ->
  (forall v, o = Some v -> set_spec nm (numeral v) m = Some (<[nm := numeral v]> m)) ->
  exists s',
    (match o with
     | None => complain text
     | Some number =>
         '(_, value) ← lift (format_integer value value_size number);
         name ← tok tokens 1; store_result name value
     end : M (script W) Z) s = Some (match o with Some _ => Val 0 | None => Ret 1 end, s') /\
    represents s' (match o with Some v => <[nm := numeral v]> m | None => m end).
Proof.
  intros Hm Hz Hn Hname Hint Hset. destruct o as [v|].
  - specialize (Hint v eq_refl). specialize (Hset v eq_refl). pose proof (zlen_numeral v Hint).
    assert (zlen (numeral v) < value_size <= zlen value) as Hfit by (unfold value_size, DOGESCRIPT_VARIABLE_VALUE_SIZE in *; lia).
    destruct (blit_total value (numeral v ++ [0]) 0) as [b Eb]; [lia | rewrite zlen_app; change (zlen [0]) with 1; lia|].
    assert (format_integer value value_size v = Some (zlen (numeral v), b)) as Ef by (rewrite format_integer_ok by (done || lia); by rewrite Eb).
    mlift Ef. rewrite (bind_tok _ _ _ _ _ Hn). pose proof (cstr_blit _ _ _ (nozero_numeral v) Eb) as Hb.
    destruct (set_variable_ok s m name nm b (numeral v) Hm Hname Hb) as (vs & k & Es & Hr). rewrite Hset in Es, Hr.
    unfold store_result. mrun Es. by eexists.
  - destruct (complain_runs (A := Z) text s) as [w E]. rewrite E. eexists. split; [done | by apply represents_os].
Qed.

Lemma run_math_ok (o : operator) l r s m tokens value name nm b2 t2 b3 b4 t4 :
  represents s m -> zlen value = value_size ->
  rd tokens 1 = Some name -> rd tokens 2 = Some b2 -> rd tokens 3 = Some b3 -> rd tokens 4 = Some b4 ->
  cstr name nm -> cstr b2 t2 -> cstr b3 (lit (operator_text o)) -> cstr b4 t4 ->
  integer_of t2 = Some l -> integer_of t4 = Some r ->
  (forall v, exact o l r = Some v -> set_spec nm (numeral v) m = Some (<[nm := numeral v]> m)) ->
  exists s', run_math 5 tokens value s = Some (match exact o l r with Some _ => Val 0 | None => Ret 1 end, s') /\
    represents s' (match exact o l r with Some v => <[nm := numeral v]> m | None => m end).
Proof.
  intros Hm Hz H1 H2 H3 H4 Hname Hb2 Hb3 Hb4 Hl Hr Hset.
  assert (forall t v, integer_of t = Some v -> is_int64 v) as Hint.
  { intros t v. unfold integer_of. destruct (split_sign t) as [neg ds]. destruct (_ && _) eqn:E; [|done]. intros [= <-].
    apply andb_true_iff in E as [_ E]. by apply bool_decide_eq_true_1 in E. }
  pose proof (Hint _ _ Hl) as Hli. pose proof (Hint _ _ Hr) as Hri.
  unfold run_math. cbn [Z.eqb negb Pos.eqb]. rewrite (bind_tok _ _ _ _ _ H2). mlift (parse_integer_ok _ _ Hb2). rewrite Hl.
  rewrite (bind_tok _ _ _ _ _ H4). mlift (parse_integer_ok _ _ Hb4). rewrite Hr. rewrite (bind_tok _ _ _ _ _ H3).
  assert (forall v, exact o l r = Some v -> is_int64 v) as Hexact.
  { intros v. destruct o; unfold exact; [by eapply representable_int64..|].
    destruct (decide (r = 0)); [intros [=] | by eapply representable_int64]. }
  destruct o; cbn [exact] in *;
    repeat first [erewrite case_yes; [|exact Hb3|reflexivity|by repeat constructor]
                 | erewrite case_no; [|exact Hb3|by intros [=]|by repeat constructor]];
    rewrite ?math_add_ok, ?math_sub_ok, ?math_mul_ok, ?math_div_ok by done; by eapply math_put_runs.
Qed.

End Math.

(** C27: [math] is exact.  For two numerals of 64-bit integers and one of the four
    operators, the command stores the numeral of the mathematical result (the
    quotient rounded towards zero) when that result is a 64-bit integer, and the
    numeral reads back as it; otherwise - overflow, a zero divisor, the least
    integer divided by -1 - it prints a message, fails with status 1 and no variable
    changes. *)
Theorem math_exact {W} `{ScriptOs W} (o : operator) l r (s : script W) m tokens value name nm b2 t2 b3 b4 t4 :
  represents s m -> zlen value = value_size ->
  rd tokens 1 = Some name -> rd tokens 2 = Some b2 -> rd tokens 3 = Some b3 -> rd tokens 4 = Some b4 ->
  cstr name nm -> cstr b2 t2 -> cstr b3 (lit (operator_text o)) -> cstr b4 t4 ->
  integer_of t2 = Some l -> integer_of t4 = Some r ->
  (forall v, exact o l r = Some v -> set_spec nm (numeral v) m = Some (<[nm := numeral v]> m)) ->
  exists s', run_math 5 tokens value s = Some (match exact o l r with Some _ => Val 0 | None => Ret 1 end, s') /\
    represents s' (match exact o l r with Some v => <[nm := numeral v]> m | None => m end) /\
    (forall v, exact o l r = Some v -> integer_of (numeral v) = Some v).
Proof.
  intros. destruct (run_math_ok o l r s m tokens value name nm b2 t2 b3 b4 t4) as (s' & E & Hs'); try done.
  exists s'. split_and!; [done..|]. intros v Ev. apply integer_of_numeral.
  destruct o; unfold exact in Ev; [by eapply representable_int64..|].
  destruct (decide (r = 0)); [discriminate Ev | by eapply representable_int64].
Qed.

(** ** Commands of the shell *)

(** [m] appends the text [l] to a buffer of [cap] bytes, or fails if it does not fit. *)
Definition builds (cap : Z) (m : M out unit) (l : bytes) : Prop :=
  forall p q, zlen (p ++ 0 :: q) = cap ->
  if zlen p + zlen l <? cap
  then exists q', m (Out (p ++ 0 :: q) (zlen p)) = Some (Val tt, Out (p ++ l ++ 0 :: q') (zlen (p ++ l))) /\ zlen (p ++ l ++ 0 :: q') = cap
  else exists o, m (Out (p ++ 0 :: q) (zlen p)) = Some (Ret (-1), o).

Lemma builds_ret cap : builds cap (mret tt) [].
Proof.
  intros p q Hz. change (zlen (@nil Z)) with 0. rewrite zlen_app, zlen_cons in Hz. pose proof (zlen_nonneg q).
  rewrite (proj2 (Z.ltb_lt _ _)) by lia. exists q. rewrite app_nil_r. cbn [app]. rewrite zlen_app, zlen_cons. by split.
Qed.

Lemma builds_append cap c : builds cap (append_checked cap c) [c].
Proof.
  intros p q Hz. change (zlen [c]) with 1. unfold append_checked. cbn [o_length o_text].
  destruct (Z.leb_spec cap (zlen p + 1)), (Z.ltb_spec (zlen p + 1) cap); try lia; [by eexists|].
  rewrite wr_mid. cbn [mbind option_bind]. destruct q as [|x q]; [rewrite zlen_app in Hz; change (zlen [0]) with 1 in Hz; lia|].
  replace (p ++ c :: x :: q) with ((p ++ [c]) ++ x :: q) by (by rewrite <- app_assoc).
  replace (zlen p + 1) with (zlen (p ++ [c])) by (rewrite zlen_app; done). rewrite wr_mid. cbn [mbind option_bind].
  exists q. rewrite <- app_assoc. split; [done|]. rewrite !zlen_app, !zlen_cons in *. done.
Qed.

Lemma builds_bind cap m1 m2 l1 l2 : builds cap m1 l1 -> builds cap m2 l2 -> builds cap (m1;; m2) (l1 ++ l2).
Proof.
  intros H1 H2 p q Hz. specialize (H1 p q Hz). pose proof (zlen_nonneg l2). rewrite zlen_app.
  destruct (Z.ltb_spec (zlen p + zlen l1) cap).
  - destruct H1 as (q1 & E1 & Hz1). rewrite app_assoc in Hz1. rewrite (bind_val _ _ _ _ _ E1). specialize (H2 (p ++ l1) q1 Hz1).
    replace (zlen p + (zlen l1 + zlen l2)) with (zlen (p ++ l1) + zlen l2) by (rewrite zlen_app; lia).
    rewrite app_assoc in *. destruct (_ <? _); [|done]. destruct H2 as (q2 & E2 & Hz2). exists q2.
    rewrite <- !app_assoc in *. by split.
  - destruct H1 as [o E1]. rewrite (bind_exit _ _ _ _ _ E1), (proj2 (Z.ltb_ge _ _)) by lia. by eexists.
Qed.

Lemma builds_lift {A} cap (x : option A) a k l : x = Some a -> builds cap (k a) l -> builds cap (lift x ≫= k) l.
Proof. intros -> Hk p q Hz. apply (Hk p q Hz). Qed.

Lemma append_escaped_builds cap b w : cstr b w -> builds cap (append_escaped cap b) (escaped w).
Proof.
  intros (t & -> & Hw). induction Hw as [|c w Hc Hw IH]; cbn [app append_escaped escaped]; [apply builds_ret|].
  rewrite (eqb_neq c 0 Hc). destruct (_ || _).
  - apply (builds_bind _ _ _ [c_backslash] (c :: escaped w)); [apply builds_append|].
    apply (builds_bind _ _ _ [c] (escaped w)); [apply builds_append | done].
  - apply (builds_bind _ _ _ [] (c :: escaped w)); [apply builds_ret|].
    apply (builds_bind _ _ _ [c] (escaped w)); [apply builds_append | done].
Qed.

(** The words after the first. *)
Definition spaced (ws : list bytes) : bytes := concat ((fun w => c_space :: quoted_word w) <$> ws).

Lemma quoted_spaced w ws : quoted (w :: ws) = quoted_word w ++ spaced ws.
Proof.
  revert w. induction ws as [|w' ws IH]; intros w; [by rewrite app_nil_r|].
  change (quoted (w :: w' :: ws)) with (quoted_word w ++ c_space :: quoted (w' :: ws)). by rewrite IH.
Qed.

Lemma quote_loop_builds cap k i tokens ws :
  0 <= i -> Forall2 cstr (take k (drop (Z.to_nat i) tokens)) ws -> length ws = k ->
  builds cap (quote_loop k i cap tokens) (if i =? 0 then quoted ws else spaced ws).
Proof.
  revert i ws. induction k as [|k IH]; intros i ws Hi Hws Hk.
  { destruct ws; [|done]. destruct (i =? 0); apply builds_ret. }
  destruct ws as [|w ws]; [done|]. cbn in Hk.
  destruct (drop (Z.to_nat i) tokens) as [|b rest] eqn:Ed; [cbn in Hws; by inversion Hws|]. cbn [take] in Hws.
  apply Forall2_cons in Hws as [Hb Hws].
  assert (rd tokens i = Some b) as Erd.
  { rewrite rd_lookup by lia. rewrite <- (Nat.add_0_r (Z.to_nat i)), <- lookup_drop, Ed. done. }
  assert (drop (Z.to_nat (i + 1)) tokens = rest) as Ed'.
  { replace (Z.to_nat (i + 1)) with (Z.to_nat i + 1)%nat by lia. by rewrite <- drop_drop, Ed. }
  specialize (IH (i + 1) ws ltac:(lia)). rewrite Ed' in IH. specialize (IH Hws ltac:(lia)). rewrite (eqb_neq (i + 1) 0) in IH by lia.
  assert (builds cap (append_checked cap c_dquote;; token ← lift (rd tokens i); append_escaped cap token;; append_checked cap c_dquote;;
    quote_loop k (i + 1) cap tokens) (quoted_word w ++ spaced ws)) as Hword.
  { unfold quoted_word. cbn [app]. rewrite <- app_assoc. apply (builds_bind _ _ _ [c_dquote]); [apply builds_append|].
    eapply builds_lift; [exact Erd|]. apply builds_bind; [by apply append_escaped_builds|]. apply builds_bind; [apply builds_append | done]. }
  cbn [quote_loop]. destruct (i =? 0); cbn [negb].
  - rewrite quoted_spaced. by apply (builds_bind _ _ _ []); [apply builds_ret|].
  - by apply (builds_bind _ _ _ [c_space] (quoted_word w ++ spaced ws)); [apply builds_append|].
Qed.

(** The command built for the shell. *)
Lemma build_shell_command_ok cap tokens ws b :
  0 < cap -> zlen b = cap -> Forall2 cstr (take (length ws) tokens) ws ->
  exists o, build_shell_command cap (zlen ws) tokens (Out b 0) =
      Some (if zlen (quoted ws) <? cap then Val tt else Ret (-1), o) /\
    (zlen (quoted ws) < cap -> exists q, o_text o = quoted ws ++ 0 :: q).
Proof.
  intros Hcap Hz Hws. unfold build_shell_command. destruct b as [|x b]; [change (zlen (@nil Z)) with 0 in Hz; lia|].
  rewrite (bind_val _ _ _ (Out (0 :: b) 0) tt) by done.
  pose proof (quote_loop_builds cap (Z.to_nat (zlen ws)) 0 tokens ws ltac:(lia)) as Hq. cbn [Z.eqb Z.to_nat drop] in Hq.
  specialize (Hq ltac:(unfold zlen; by rewrite Nat2Z.id) ltac:(unfold zlen; by rewrite Nat2Z.id) [] b). cbn [app] in Hq.
  change (zlen (@nil Z)) with 0 in Hq. rewrite !zlen_cons, Z.add_0_l in *. specialize (Hq Hz). destruct (Z.ltb_spec (zlen (quoted ws)) cap).
  - destruct Hq as (q & E & _). exists (Out (quoted ws ++ 0 :: q) (zlen (quoted ws))). split; [exact E | by exists q].
  - destruct Hq as [o E]. exists o. split; [exact E | lia].
Qed.

Lemma has_dollar_ok b t : cstr b t -> has_dollar b = Some (bool_decide (c_dollar ∈ t)).
Proof.
  intros (u & -> & Ht). induction Ht as [|c t Hc Ht IH]; [done|]. cbn [app has_dollar]. rewrite (eqb_neq c 0 Hc).
  destruct (Z.eqb_spec c c_dollar) as [->|Hne].
  - rewrite bool_decide_eq_true_2 by (left). done.
  - rewrite IH. f_equal. apply bool_decide_ext. rewrite elem_of_cons. split; [by right | by intros [?|?]; [congruence|]].
Qed.

Lemma cstrs_nozero bs ws : Forall2 cstr bs ws -> Forall nozero ws.
Proof. induction 1 as [|b w bs ws (t & _ & Hw) _ IH]; by constructor. Qed.

Lemma run_shell_ok {W} `{ScriptOs W} tokens ws source_line t (s : script W) :
  Forall2 cstr (take (length ws) tokens) ws -> cstr source_line t -> c_dollar ∈ t ->
  zlen (quoted ws) < DOGESCRIPT_MAX_SHELL_COMMAND_SIZE ->
  exists command, cstr command (quoted ws) /\
    run_shell (zlen ws) tokens source_line s =
      (let '(r, w) := os_shell (os s) command in Some (Val (if s64 r =? 0 then 0 else 1), set_os w s)).
Proof.
  intros Hws Hsrc Hd Hlen. unfold run_shell. mlift (has_dollar_ok _ _ Hsrc). rewrite bool_decide_eq_true_2 by done. cbn [negb].
  destruct (build_shell_command_ok DOGESCRIPT_MAX_SHELL_COMMAND_SIZE tokens ws (zeros 4096) ltac:(done) ltac:(done) Hws) as (o & E & Ho).
  destruct (Ho Hlen) as [q Eq]. rewrite (proj2 (Z.ltb_lt _ _)) in E by done. exists (o_text o). split.
  { exists q. split; [done | by apply nozero_quoted, (cstrs_nozero _ _ Hws)]. }
  rewrite (bind_val _ _ s s (true, o_text o, o_length o)) by (unfold on_buffer; by rewrite E). cbn [negb].
  unfold call, mbind, M_bind. by destruct (os_shell (os s) (o_text o)) as [r w].
Qed.

(** C22: a command with variables cannot be torn apart by the values of the
    variables.  When a line of a script is not a command of the interpreter and
    mentions a variable, the command line handed to the shell is such that
    Dogeshell runs exactly one command, whose arguments are the expanded words of
    the line, character for character: blanks, quotes, backslashes and semicolons in
    a value separate nothing, as long as the quoted line fits Dogeshell's buffer. *)
Theorem expanded_command_words {W} `{ScriptOs W} {V} `{Commands V} tokens ws source_line t (s : script W) :
  Forall2 cstr (take (length ws) tokens) ws -> ws <> [] -> zlen ws <= DOGESCRIPT_MAX_TOKENS ->
  cstr source_line t -> c_dollar ∈ t -> zlen (quoted ws) < DOGESHELL_LINE_SIZE ->
  exists command, cstr command (quoted ws) /\
    run_shell (zlen ws) tokens source_line s =
      (let '(r, w) := os_shell (os s) command in Some (Val (if s64 r =? 0 then 0 else 1), set_os w s)) /\
    forall d : dogeshell V, exists line arguments, cstr line (quoted ws) /\ Forall2 cstr arguments ws /\
      forall rc w status w',
        dogeshell_append_history (d_world d) line = Some (rc, w) ->
        dogeshell_exit_requested (recorded rc w) = false ->
        dogeshell_execute (recorded rc w) arguments = Some (status, w') ->
        system_dogeshell_ex (Some command) d = Some (Val status, Dogeshell w' status).
Proof.
  intros Hws Hne Hcount Hsrc Hd Hlen.
  destruct (run_shell_ok tokens ws source_line t s Hws Hsrc Hd) as (command & Hc & E).
  { unfold DOGESHELL_LINE_SIZE, DOGESCRIPT_MAX_SHELL_COMMAND_SIZE in *. lia. }
  exists command. split_and!; [done..|]. intros d. apply dogeshell_quoted; [by eapply cstrs_nozero | done..|].
  unfold DOGESCRIPT_MAX_TOKENS, DOGESHELL_ARGUMENT_COUNT in *. lia.
Qed.

(** ** The whole program *)

(** C11: the interpreter is safe on every script.  Whatever bytes the script file
    holds, whatever the arguments, and whatever the system calls answer (within the
    room they were given), [run_script] never reads or writes outside its arrays
    and stops with an exit status; its tables are in order again.  The bound on steps and the growth of the offsets make every
    loop end. *)
Theorem dogescript_terminates {W} `{SafeOs W} path argc argv (s : script W) :
  tables_ok s -> arguments_ok argc argv -> is_text path ->
  exists status s', run_script path argc argv s = Some (Val status, s') /\ tables_ok s'.
Proof. apply run_script_ends. Qed.

(** ** A concrete system for scripts

    Files in memory, a screen and a record of the shell commands; scripts are run
    on it, and the theorems about the interpreter are applied to it. *)

Module Bench.

(** The string at the start of a buffer. *)
Fixpoint text_at (b : bytes) : bytes :=
  match b with
  | [] => []
  | c :: b' => if c =? 0 then [] else c :: text_at b'
  end.

Record desk := Desk { files : gmap bytes bytes; screen : bytes; shells : list bytes }.

#[global] Instance bench_os : ScriptOs desk := {
  os_stat w path :=
    match files w !! text_at path with
    | Some data => (0, Some (zlen data, 0, 1), w)
    | None => (UINT64_MAX, None, w)
    end;
  os_file_exists w path := (if files w !! text_at path is Some _ then 1 else 0, w);
  os_read_file w path size :=
    match files w !! text_at path with
    | Some data => let d := take (Z.to_nat size) data in (zlen d, d, w)
    | None => (UINT64_MAX, [], w)
    end;
  os_read_file_at w path offset size :=
    match files w !! text_at path with
    | Some data => let d := take (Z.to_nat size) (drop (Z.to_nat offset) data) in (zlen d, d, w)
    | None => (UINT64_MAX, [], w)
    end;
  os_write_file w path text := (0, Desk (<[text_at path := text_at text]> (files w)) (screen w) (shells w));
  os_append_file w path data :=
    (0, Desk (<[text_at path := default [] (files w !! text_at path) ++ data]> (files w)) (screen w) (shells w));
  os_input w prompt capacity :=
    (0, if 6 <=? capacity then clit "typed" else [0], Desk (files w) (screen w ++ text_at prompt) (shells w));
  os_get_cwd w capacity := if 7 <=? capacity then (6, clit "/users", w) else (UINT64_MAX, [], w);
  os_print w text := Desk (files w) (screen w ++ text_at text) (shells w);
  os_shell w command := (0, Desk (files w) (screen w) (shells w ++ [text_at command]));
}.

Definition lines (l : list string) : bytes := concat ((fun s => lit s ++ [10]) <$> l).

Definition fresh (program : bytes) : script desk :=
  Script (replicate 32 (Var (zeros 32) (zeros 256))) 1 1 [] [] (zeros 256) (replicate 16 (zeros 256)) (zeros 16)
    (Reader [] 0 0 0 []) false 0 (Desk {[ lit "/users/a.ds" := program ]} [] []).

Definition argv : list (option bytes) := [Some (clit "a.ds"); Some (clit "7")].

Definition shown (program : list string) : option (Z * bytes * list bytes) :=
  match run_script (clit "a.ds") 2 argv (fresh (lines program)) with
  | Some (Val rc, s) => Some (rc, screen (os s), shells (os s))
  | _ => None
  end.

#[global] Instance bench_safe : SafeOs desk.
Proof.
  split.
  - intros w path rc size d e w'. cbn. destruct (files w !! text_at path) as [data|]; intros [= _ <- _ _ _] || intros [=]. apply zlen_nonneg.
  - intros w path size rc data w' Hs. cbn. destruct (files w !! text_at path) as [f|]; intros [= _ <- _]; [|change (zlen (@nil Z)) with 0; lia].
    unfold zlen. rewrite length_take. lia.
  - intros w path offset size rc data w' Hs. cbn. destruct (files w !! text_at path) as [f|]; intros [= _ <- _]; [|change (zlen (@nil Z)) with 0; lia].
    unfold zlen. rewrite length_take. lia.
  - intros w prompt capacity rc data w' Hc. cbn -[clit]. intros [= <- <- _].
    destruct (Z.leb_spec 6 capacity); (split; [|intros _]);
      [change (zlen (clit "typed")) with 6; lia | apply is_text_clit | change (zlen [0]) with 1; lia | exists []; apply cstr_nil].
  - intros w capacity rc data w' Hc. cbn -[clit s64]. destruct (Z.leb_spec 7 capacity); intros [= <- <- _].
    + split; [change (zlen (clit "/users")) with 7; lia | intros _; apply is_text_clit].
    + split; [change (zlen (@nil Z)) with 0; lia | by intros ?%Z.leb_le].
Qed.

(** ** Scripts *)

(** Loops, variables, arithmetic and a command of the shell. *)
Example counting_script :
  shown ["set n 0"; "while $n < 3"; "inc n"; "echo n=$n of ${1}"; "endwhile"; "repeat 4"; "math n $n * 2"; "endrepeat";
         "if $n == 48"; "ls '$n;rm'"; "else"; "echo no"; "endif"; "exit 3"] =
  Some (3, lines ["n=1 of 7"; "n=2 of 7"; "n=3 of 7"], [lit "" ++ [c_dquote] ++ lit "ls" ++ [c_dquote; c_space; c_dquote] ++ lit "48;rm" ++ [c_dquote]]).
Proof. vm_compute. reflexivity. Qed.

(** The help text says [set count = 5]; the sign becomes part of the value. *)
Example set_keeps_equals_sign : shown ["set count = 5"; "echo $count"] = Some (0, lines ["= 5"], []).
Proof. vm_compute. reflexivity. Qed.

(** Single quotes do not keep a variable from being expanded. *)
Example single_quotes_expand : shown ["set n 1"; "echo '$n'"] = Some (0, lines ["1"], []).
Proof. vm_compute. reflexivity. Qed.

Lemma fresh_ok program : tables_ok (fresh program).
Proof.
  constructor; unfold fresh; cbn [variables variable_count token_storage expanded_tokens argument_text]; try done.
  - split; [done|]. apply Forall_replicate. split_and!; [done | exists []; apply cstr_nil..].
  - split; [done|]. apply Forall_replicate. split; [done | exists []; apply cstr_nil].
Qed.

Lemma argv_ok : arguments_ok 2 argv.
Proof.
  split_and!; try done. repeat constructor; intros b [= <-]; apply is_text_clit.
Qed.

(** A script that would loop for ever is stopped. *)
Lemma dogescript_terminates_witness :
  exists status s', run_script (clit "a.ds") 2 argv (fresh (lines ["while 1 == 1"; "endwhile"])) = Some (Val status, s') /\ tables_ok s'.
Proof. apply dogescript_terminates; [apply fresh_ok | apply argv_ok | apply is_text_clit]. Defined.

(** The table when a script starts. *)
Definition started : script desk := set_variables (variables (fresh [])) 0 (fresh []).

Lemma started_ok : represents started ∅.
Proof.
  exists []. split; [|done]. constructor; unfold started, fresh; cbn [set_variables variables variable_count]; try done; [|by apply Forall_replicate | constructor].
  exists [], (replicate 32 (Var (zeros 32) (zeros 256))). by split.
Qed.

Lemma variables_refine_map_witness :
  table_step (set_variable (clit "x") (clit "7") started) 0 started {[ lit "x" := lit "7" ]} /\
  table_step (unset_variable (clit "x") started) 0 started ∅.
Proof.
  destruct (variables_refine_map started ∅ (clit "x") (lit "x") (clit "7") (lit "7")) as (H1 & H2 & _);
    [apply started_ok | lit_ok | lit_ok |].
  split; [exact H1 | by rewrite delete_empty in H2].
Defined.

Definition math_tokens (l op r : string) : list bytes := [clit "math"; clit "x"; clit l; clit op; clit r].

(** A product that is too large, and a quotient. *)
Lemma math_exact_witness :
  (exists s', run_math 5 (math_tokens "3037000500" "*" "3037000500") (zeros 256) started = Some (Ret 1, s') /\ represents s' ∅) /\
  (exists s', run_math 5 (math_tokens "-7" "/" "2") (zeros 256) started = Some (Val 0, s') /\ represents s' {[ lit "x" := lit "-3" ]}).
Proof.
  split.
  - destruct (math_exact Times 3037000500 3037000500 started ∅ (math_tokens "3037000500" "*" "3037000500") (zeros 256)
      (clit "x") (lit "x") (clit "3037000500") (lit "3037000500") (clit "*") (clit "3037000500") (lit "3037000500")) as (s' & E & Hs' & _);
      try reflexivity; [apply started_ok | lit_ok | lit_ok | lit_ok | lit_ok | intros v Hv; vm_compute in Hv; discriminate Hv|].
    exists s'. by split.
  - destruct (math_exact Divide (-7) 2 started ∅ (math_tokens "-7" "/" "2") (zeros 256)
      (clit "x") (lit "x") (clit "-7") (lit "-7") (clit "/") (clit "2") (lit "2")) as (s' & E & Hs' & _);
      try reflexivity; [apply started_ok | lit_ok | lit_ok | lit_ok | lit_ok | intros v Hv; vm_compute in Hv; injection Hv as <-; reflexivity|].
    exists s'. by split.
Defined.

End Bench.

(** ** A shell that records what it runs *)

Module Recorder.

Record log := Log { ran : list (list bytes); history : list bytes }.

#[global] Instance recorder : Commands log := {
  dogeshell_append_history w line := Some (0, Log (ran w) (history w ++ [line]));
  dogeshell_execute w arguments := Some (0, Log (ran w ++ [Bench.text_at <$> arguments]) (history w));
  dogeshell_exit_requested _ := false;
  dogeio_println w _ := w;
}.

Definition idle : dogeshell log := Dogeshell (Log [] []) 0.

(** A value with a quote, a semicolon and a blank stays one argument. *)
Definition hostile : list bytes := [lit "rm"; [c_dquote; c_semicolon; c_space] ++ lit "ls" ++ [c_backslash]].

Lemma texts_at bs ws : Forall2 cstr bs ws -> Bench.text_at <$> bs = ws.
Proof.
  induction 1 as [|b w bs ws (u & -> & Hw) _ IH]; [done|]. cbn. f_equal; [|exact IH]. clear -Hw.
  induction Hw as [|c w Hc Hw IH]; [done|]. cbn. rewrite (eqb_neq c 0 Hc). by rewrite IH.
Qed.

Lemma expanded_command_words_witness :
  exists command, cstr command (quoted hostile) /\
    (exists d, system_dogeshell_ex (Some command) idle = Some (Val 0, d) /\ ran (d_world d) = [hostile]).
Proof.
  destruct (expanded_command_words (V := log) ((fun w => w ++ [0]) <$> hostile) hostile (clit "rm $x") (lit "rm $x") Bench.started)
    as (command & Hc & _ & Hrun).
  - repeat constructor; eexists; (split; [reflexivity|]); by repeat constructor.
  - done.
  - done.
  - lit_ok.
  - vm_compute. right. right. right. left.
  - done.
  - exists command. split; [done|]. destruct (Hrun idle) as (line & arguments & _ & Ha & Hd).
    eexists. split; [by eapply Hd|]. cbn.
    assert (Bench.text_at <$> arguments = hostile) as ->; [|done].
    by apply texts_at.
Defined.

Lemma dogeshell_tokenize_exact_witness :
  exists q, dogeshell_tokenize (clit "cp 'a b' c\ d") 256 24 (zeros 256) =
    Some (Val [0; 3; 7], packed [lit "cp"; lit "a b"; lit "c d"] ++ q).
Proof.
  pose proof (dogeshell_tokenize_exact (clit "cp 'a b' c\ d") (lit "cp 'a b' c\ d") (zeros 256) 256 24 ltac:(lit_ok) eq_refl ltac:(done)) as Ht.
  vm_compute (lex _ _) in Ht. destruct Ht as (q & E & _). exists q. exact E.
Defined.

End Recorder.
