(* ===== verification/Heap.v ===== *)
(** * The heap of user programs (library/dogelib.h)

    A header is five eight-byte cells before the memory it describes; [mem] holds
    the cells of the mapped memory by address, and an access to an address that is
    not mapped is a page fault, [None].  The statics are [heap_start] and
    [total_mapped_size].  The system call [MAP_USER_MEMORY] is the operation
    [map_memory] of the class [UserMaps]: it is given the three argument registers,
    of which [syscall_2] sets two. *)

From S2P Require Import Prelude CMonad.

Definition HEAP_MAGIC : Z := 0x444F474554485058.
Definition PAGE_SIZE : Z := 4096.
Definition USER_MEMORY_READ : Z := 1.
Definition USER_MEMORY_WRITE : Z := 2.

(** [sizeof(block_header_t)] and the offsets of its fields *)
Definition header_size : Z := 40.
Definition o_magic : Z := 0.
Definition o_size : Z := 8.
Definition o_free : Z := 16.
Definition o_next : Z := 24.
Definition o_prev : Z := 32.

(** The result, and the cells that are mapped from now on with their contents;
    [third_register] is what [rdx] holds when [syscall_2] is executed. *)
Class UserMaps (W : Type) := {
  map_memory : W -> Z -> Z -> Z -> Z * gmap Z Z * W;
  third_register : W -> Z;
}.

Record heap (W : Type) := Heap { mem : gmap Z Z; heap_start : Z; total_mapped_size : Z; kernel : W }.
Arguments Heap {W}.
Arguments mem {W}.
Arguments heap_start {W}.
Arguments total_mapped_size {W}.
Arguments kernel {W}.

Section Heap.
Context {W : Type} `{UserMaps W}.

Abbreviation Hp := (M (heap W)).

Definition load (address : Z) : Hp Z := fun h => v ← mem h !! address; Some (Val v, h).

Definition store (address v : Z) : Hp unit := fun h =>
  _ ← mem h !! address;
  Some (Val tt, Heap (<[address := v]> (mem h)) (heap_start h) (total_mapped_size h) (kernel h)).

Definition set_start (address : Z) : Hp unit := modify (fun h =>
  Heap (mem h) address (total_mapped_size h) (kernel h)).

(** [syscall_2(MAP_USER_MEMORY, a, b)] *)
Definition syscall_map (a b : Z) : Hp Z := fun h =>
  let '(p, cells, w) := map_memory (kernel h) a b (third_register (kernel h)) in
  Some (Val p, Heap (cells ∪ mem h) (heap_start h) (total_mapped_size h) w).

(** Blocks of the list are visited once; there are fewer than 2^64 of them. *)
Definition heap_rounds : positive := 18446744073709551616.

(** [while (curr->next) curr = curr->next;] *)
Definition last_block (curr : Z) : Hp Z :=
  while_true heap_rounds (fun curr =>
    next ← load (curr + o_next);
    mret (if next =? 0 then inr curr else inl next)) curr.

Definition extend_heap (size : Z) : Hp Z := fn (
  let pages := u64 (size + header_size + PAGE_SIZE - 1) / PAGE_SIZE in
  let map_size := u64 (pages * PAGE_SIZE) in
  ptr ← syscall_map map_size (Z.lor USER_MEMORY_READ USER_MEMORY_WRITE);
  if (ptr =? 0) || (ptr =? UINT64_MAX) then exit 0 else
  let new_block := ptr in
  store (new_block + o_magic) HEAP_MAGIC;;
  store (new_block + o_size) (u64 (map_size - header_size));;
  store (new_block + o_free) 1;;
  store (new_block + o_next) 0;;
  store (new_block + o_prev) 0;;
  start ← gets heap_start;
  (if start =? 0 then set_start new_block
   else
     curr ← last_block start;
     store (curr + o_next) new_block;;
     store (new_block + o_prev) curr);;
  modify (fun h => Heap (mem h) (heap_start h) (u64 (total_mapped_size h + map_size)) (kernel h));;
  mret new_block).

(** Cut the block [curr] of [size] bytes after its first [aligned_size]. *)
Definition split_block (curr size aligned_size : Z) : Hp unit :=
  let next_block := curr + header_size + aligned_size in
  store (next_block + o_magic) HEAP_MAGIC;;
  store (next_block + o_size) (u64 (size - aligned_size - header_size));;
  store (next_block + o_free) 1;;
  next ← load (curr + o_next);
  store (next_block + o_next) next;;
  store (next_block + o_prev) curr;;
  (if negb (next =? 0) then store (next + o_prev) next_block else mret tt);;
  store (curr + o_next) next_block;;
  store (curr + o_size) aligned_size.

(** Take the block [curr], which is large enough: split it if a header and eight
    bytes are left over. *)
Definition take_block (curr aligned_size : Z) : Hp Z :=
  size ← load (curr + o_size);
  (if u64 (aligned_size + header_size + 8) <=? size then split_block curr size aligned_size else mret tt);;
  store (curr + o_free) 0;;
  mret (curr + header_size).

(** [curr->magic == HEAP_MAGIC && curr->free && curr->size >= aligned_size] *)
Definition block_fits (curr aligned_size : Z) : Hp bool :=
  magic ← load (curr + o_magic);
  if magic =? HEAP_MAGIC then
    free ← load (curr + o_free);
    if negb (free =? 0) then size ← load (curr + o_size); mret (aligned_size <=? size)
    else mret false
  else mret false.

(** One round of [malloc]'s walk over the list. *)
Definition visit (aligned_size curr : Z) : Hp (Z + Z) :=
  if curr =? 0 then mret (inr 0) else
  fits ← block_fits curr aligned_size;
  if (fits : bool) then p ← take_block curr aligned_size; mret (inr p)
  else next ← load (curr + o_next); mret (inl next).

(** The walk: the memory of the block taken, or 0 at the end of the list. *)
Definition first_fit (curr aligned_size : Z) : Hp Z := while_true heap_rounds (visit aligned_size) curr.

(** One call of [malloc]: a result, or the call of itself at its end. *)
Definition malloc_call (size : Z) : Hp (unit + Z) :=
  if size =? 0 then mret (inr 0) else
  let aligned_size := Z.land (u64 (size + 7)) (UINT64_MAX - 7) in
  start ← gets heap_start;
  ok ← (if start =? 0 then p ← extend_heap aligned_size; mret (negb (p =? 0)) else mret true);
  if negb (ok : bool) then mret (inr 0) else
  start ← gets heap_start;
  p ← first_fit start aligned_size;
  if negb (p =? 0) then mret (inr p) else
  q ← extend_heap aligned_size;
  if q =? 0 then mret (inr 0) else mret (inl tt).

Definition malloc (size : Z) : Hp Z := while_true heap_rounds (fun _ => malloc_call size) tt.

(** Both merges of [free]: the block [first] takes in [second], which follows it
    in the list. *)
Definition absorb (first second : Z) : Hp unit :=
  size ← load (first + o_size);
  second_size ← load (second + o_size);
  store (first + o_size) (u64 (size + header_size + second_size));;
  next ← load (second + o_next);
  store (first + o_next) next;;
  if negb (next =? 0) then store (next + o_prev) first else mret tt.

(** [block && block->free] *)
Definition is_free (block : Z) : Hp bool :=
  if negb (block =? 0) then f ← load (block + o_free); mret (negb (f =? 0)) else mret false.

Definition free (ptr : Z) : Hp unit :=
  if ptr =? 0 then mret tt else
  let block := ptr - header_size in
  magic ← load (block + o_magic);
  if negb (magic =? HEAP_MAGIC) then mret tt else
  store (block + o_free) 1;;
  next ← load (block + o_next);
  merge ← is_free next;
  (if (merge : bool) then absorb block next else mret tt);;
  prev ← load (block + o_prev);
  merge ← is_free prev;
  if (merge : bool) then absorb prev block else mret tt.

(** [clear_ptr[i] = 0] for the bytes of [n] cells *)
Definition clear_cells (n : nat) (address : Z) : Hp unit :=
  for_loop n address 8 (fun a => store a 0).

Definition salloc (size : Z) : Hp Z :=
  if size =? 0 then mret 0 else
  let aligned_size := Z.land (u64 (size + 15)) (UINT64_MAX - 15) in
  raw_mem ← malloc aligned_size;
  if raw_mem =? 0 then mret 0 else
  clear_cells (Z.to_nat (aligned_size / 8)) raw_mem;;
  mret (raw_mem + aligned_size).

Definition sfree (stack_ptr size : Z) : Hp unit :=
  if stack_ptr =? 0 then mret tt else
  let aligned_size := Z.land (u64 (size + 15)) (UINT64_MAX - 15) in
  free (stack_ptr - aligned_size).

End Heap.
