(* ===== verification/HeapProofs.v ===== *)
(** * The heap is a map from pointers to sizes

    The blocks of the heap lie one after the other and the links follow their order
    ([heap_ok]).  Taking the first block that fits and freeing with the merging of
    neighbours keep this, and on the allocated blocks they are insertion into and
    deletion from a finite map. *)

From S2P Require Import Prelude CMonad UserMem Heap.

Record block := Block { b_addr : Z; b_size : Z; b_free : bool }.

Definition head_addr (l : list block) : Z := match l with b :: _ => b_addr b | [] => 0 end.
Definition flag (b : bool) : Z := if b then 1 else 0.

(** The cells of a header. *)
Definition header (m : gmap Z Z) (b : block) (next prev : Z) : Prop :=
  m !! (b_addr b + o_magic) = Some HEAP_MAGIC /\ m !! (b_addr b + o_size) = Some (b_size b) /\
  m !! (b_addr b + o_free) = Some (flag (b_free b)) /\
  m !! (b_addr b + o_next) = Some next /\ m !! (b_addr b + o_prev) = Some prev.

(** The doubly linked list. *)
Fixpoint linked (m : gmap Z Z) (prev : Z) (l : list block) (after : Z) : Prop :=
  match l with
  | [] => True
  | b :: l' => header m b (match l' with b' :: _ => b_addr b' | [] => after end) prev /\ linked m (b_addr b) l' after
  end.

(** The blocks fill the memory from [a] to [e]. *)
Fixpoint tiles (a : Z) (l : list block) (e : Z) : Prop :=
  match l with
  | [] => a = e
  | b :: l' => b_addr b = a /\ 0 <= b_size b /\ b_size b mod 8 = 0 /\ tiles (a + header_size + b_size b) l' e
  end.

(** Every cell between [a] and [e] is mapped. *)
Definition mapped (m : gmap Z Z) (a e : Z) : Prop := forall x, a <= x < e -> x mod 8 = 0 -> is_Some (m !! x).

Record heap_ok {W} (l : list block) (h : heap W) : Prop := HeapOk {
  hk_start : heap_start h = head_addr l;
  hk_links : linked (mem h) 0 l 0;
  hk_bounds : exists e, tiles (head_addr l) l e /\ e < 2 ^ 63 /\ mapped (mem h) (head_addr l) e;
  hk_base : 0 < head_addr l /\ head_addr l mod 8 = 0;
}.

(** The blocks in use, and their sizes by the pointer the program has. *)
Definition busy (l : list block) : list block := filter (fun b => b_free b = false) l.

Definition grant (b : block) : Z * Z := (b_addr b + header_size, b_size b).

Definition allocations (l : list block) : gmap Z Z := list_to_map (grant <$> busy l).

(** ** Lists of blocks *)

Definition next_addr (l : list block) (after : Z) : Z := match l with b :: _ => b_addr b | [] => after end.
Definition last_addr (prev : Z) (l : list block) : Z := match last l with Some b => b_addr b | None => prev end.

Lemma linked_app m prev l1 l2 after :
  linked m prev (l1 ++ l2) after <-> linked m prev l1 (next_addr l2 after) /\ linked m (last_addr prev l1) l2 after.
Proof.
  revert prev. induction l1 as [|b l1 IH]; intros prev; cbn [app linked].
  { unfold last_addr. cbn. tauto. }
  assert (last_addr prev (b :: l1) = last_addr (b_addr b) l1) as -> by (unfold last_addr; rewrite last_cons; by destruct (last l1)).
  rewrite IH. destruct l1 as [|b' l1]; cbn [app]; [destruct l2; cbn; tauto | tauto].
Qed.

Lemma linked_frame m m' prev l after :
  linked m prev l after ->
  (forall b x, b ∈ l -> b_addr b <= x < b_addr b + header_size -> m' !! x = m !! x) -> linked m' prev l after.
Proof.
  revert prev. induction l as [|b l IH]; intros prev Hl Hf; [done|]. destruct Hl as [Hh Hl]. cbn [linked]. split.
  - unfold header in *. rewrite !(Hf b) by (first [by left | unfold o_magic, o_size, o_free, o_next, o_prev, header_size; lia]). done.
  - apply IH; [done|]. intros b' x Hb. apply Hf. by right.
Qed.

Lemma tiles_app a l1 l2 e : tiles a (l1 ++ l2) e <-> exists c, tiles a l1 c /\ tiles c l2 e.
Proof.
  revert a. induction l1 as [|b l1 IH]; intros a; cbn [app tiles].
  - split; [intros ?; by exists a | by intros (c & -> & ?)].
  - rewrite IH. split; [intros (? & ? & ? & c & ? & ?); exists c; tauto | intros (c & (? & ? & ? & ?) & ?); split_and!; try done; by exists c].
Qed.

Lemma tiles_le a l e : tiles a l e -> a + header_size * zlen l <= e.
Proof.
  revert a. induction l as [|b l IH]; intros a; cbn [tiles]; [intros ->; change (zlen (@nil block)) with 0; lia|].
  intros (_ & Hs & _ & Ht). specialize (IH _ Ht). rewrite zlen_cons. unfold header_size in *. lia.
Qed.

Lemma tiles_in a l e b :
  tiles a l e -> b ∈ l -> a <= b_addr b /\ 0 <= b_size b /\ b_addr b + header_size + b_size b <= e /\ (a mod 8 = 0 -> b_addr b mod 8 = 0).
Proof.
  revert a. induction l as [|b' l IH]; intros a Ht Hb; [by apply elem_of_nil in Hb|]. destruct Ht as (Ha & Hs & Hm & Ht).
  pose proof (tiles_le _ _ _ Ht) as Hle. pose proof (zlen_nonneg l). unfold header_size in *.
  apply elem_of_cons in Hb as [->|Hb]; [split_and!; [lia..|congruence]|].
  destruct (IH _ Ht Hb) as (? & ? & ? & Hmod). split_and!; [lia..|]. intros Ha8. apply Hmod.
  rewrite <- Ha8. replace (a + 40 + b_size b') with (a + (b_size b' + 5 * 8)) by lia.
  rewrite Z.add_mod, (Z.add_mod (b_size b')), Hm by lia. cbn. by rewrite Z.add_0_r, Z.mod_mod.
Qed.

(** ** Access to the cells *)

Section Cells.
Context {W : Type}.
Implicit Type h : heap W.

Definition with_mem (m : gmap Z Z) h : heap W := Heap m (heap_start h) (total_mapped_size h) (kernel h).

Lemma with_mem_mem h : with_mem (mem h) h = h.
Proof. by destruct h. Qed.

Lemma load_bind {A} a v (k : Z -> M (heap W) A) h : mem h !! a = Some v -> (load a ≫= k) h = k v h.
Proof. intros E. apply bind_val. unfold load. by rewrite E. Qed.

Lemma store_bind {A} a v (k : unit -> M (heap W) A) m h :
  is_Some (m !! a) -> (store a v ≫= k) (with_mem m h) = k tt (with_mem (<[a := v]> m) h).
Proof. intros [x E]. apply bind_val. unfold store. cbn [mem with_mem]. by rewrite E. Qed.

Lemma store_bind' {A} a v (k : unit -> M (heap W) A) h :
  is_Some (mem h !! a) -> (store a v ≫= k) h = k tt (with_mem (<[a := v]> (mem h)) h).
Proof. intros E. rewrite <- (with_mem_mem h) at 1. by apply store_bind. Qed.

End Cells.

Ltac offsets := unfold o_magic, o_size, o_free, o_next, o_prev, header_size in *.

(** Look up a cell through a row of stores. *)
Ltac cell := repeat first [rewrite lookup_insert_eq | rewrite lookup_insert_ne by (offsets; lia)].
Ltac cells := unfold header; cbn [b_addr b_size b_free]; split_and!; cell; try done.

(** ** Blocks put in the place of others *)

Lemma linked_reprev m m' prev prev' l after :
  linked m prev l after ->
  (forall b x, b ∈ l -> b_addr b <= x < b_addr b + header_size -> (forall n, head l = Some n -> x <> b_addr n + o_prev) -> m' !! x = m !! x) ->
  (forall b, head l = Some b -> m' !! (b_addr b + o_prev) = Some prev') ->
  (forall b, b ∈ tail l -> next_addr l 0 + header_size <= b_addr b) ->
  linked m' prev' l after.
Proof.
  destruct l as [|b l]; [done|]. intros [Hh Hl] Hf Hp Hs. cbn [linked next_addr head tail] in *. split.
  - destruct Hh as (H1 & H2 & H3 & H4 & _). unfold header.
    rewrite !(Hf b) by (first [by left | intros ? [= <-]; offsets; lia | offsets; lia]). split_and!; try done. by apply Hp.
  - eapply linked_frame; [done|]. intros b' x Hb Hx. apply (Hf b'); [by right | done |]. intros ? [= <-]. specialize (Hs _ Hb). offsets. lia.
Qed.

(** The blocks [b :: old] between [l1] and [l2], at the addresses from [c] to [d]. *)
Record region {W} (l1 : list block) (b : block) (old l2 : list block) (base d e : Z) (h : heap W) : Prop := Region {
  rg_start : heap_start h = base;
  rg_base : base = head_addr (l1 ++ [b]);
  rg_bounds : 0 < base <= b_addr b /\ b_addr b + header_size <= d <= e /\ e < 2 ^ 63;
  rg_aligned : base mod 8 = 0 /\ b_addr b mod 8 = 0;
  rg_mapped : mapped (mem h) base e;
  rg_tiles1 : tiles base l1 (b_addr b);
  rg_tiles : tiles (b_addr b) (b :: old) d;
  rg_tiles2 : tiles d l2 e;
  rg_links1 : linked (mem h) 0 l1 (b_addr b);
  rg_links : linked (mem h) (last_addr 0 l1) (b :: old) (next_addr l2 0);
  rg_links2 : linked (mem h) (last_addr 0 (b :: old)) l2 0;
}.

Lemma last_addr_app prev l1 b l2 : last_addr prev (l1 ++ b :: l2) = last_addr 0 (b :: l2).
Proof. unfold last_addr. by rewrite last_app_cons, last_cons; destruct (last l2). Qed.

Lemma heap_region {W} l1 b old l2 (h : heap W) :
  heap_ok (l1 ++ (b :: old) ++ l2) h -> exists base d e, region l1 b old l2 base d e h.
Proof.
  intros [Hst Hl (e & Ht & He & Hm) [Hb Hb8]]. set (base := head_addr _) in *.
  apply linked_app in Hl as [Hl1 Hl]. apply linked_app in Hl as [Hl Hl2].
  pose proof (tiles_in _ _ _ b Ht ltac:(apply elem_of_app; right; by left)) as (Hba & _ & _ & Hbm).
  apply tiles_app in Ht as (c & Ht1 & Ht). apply tiles_app in Ht as (d & Ht & Ht2).
  assert (c = b_addr b) as -> by by destruct Ht.
  exists base, d, e. pose proof (tiles_le _ _ _ Ht) as Hd. pose proof (tiles_le _ _ _ Ht2) as He2. rewrite zlen_cons in Hd.
  pose proof (zlen_nonneg old). pose proof (zlen_nonneg l2).
  constructor; try done.
  - unfold base. by destruct l1.
  - offsets. lia.
  - split; [done | by apply Hbm].
  - by rewrite <- (last_addr_app (last_addr 0 l1) []).
Qed.

(** The contents of the blocks of [l] are the same. *)
Definition keeps {W} (l : list block) (h h' : heap W) : Prop := forall b x,
  b ∈ l -> b_addr b + header_size <= x < b_addr b + header_size + b_size b -> mem h' !! x = mem h !! x.

(** Other blocks in their place. *)
Lemma heap_replace {W} l1 b old l2 base d e (h : heap W) b' mid m :
  region l1 b old l2 base d e h -> b_addr b' = b_addr b -> tiles (b_addr b) (b' :: mid) d ->
  (forall x, x < b_addr b \/ d <= x -> (forall n, head l2 = Some n -> x <> b_addr n + o_prev) -> m !! x = mem h !! x) ->
  (forall x, is_Some (mem h !! x) -> is_Some (m !! x)) ->
  linked m (last_addr 0 l1) (b' :: mid) (next_addr l2 0) ->
  (forall n, head l2 = Some n -> m !! (b_addr n + o_prev) = Some (last_addr 0 (b' :: mid))) ->
  heap_ok (l1 ++ (b' :: mid) ++ l2) (with_mem m h) /\ keeps (l1 ++ l2) h (with_mem m h).
Proof.
  intros [Hst Hba Hbo Hal Hm Ht1 Ht Ht2 H1 H2 H3] Ha Htm Hf Hd Hl Hp. split; cycle 1.
  { intros x y Hx Hy. cbn [mem with_mem]. apply elem_of_app in Hx as [Hx|Hx].
    - destruct (tiles_in _ _ _ _ Ht1 Hx) as (Hx0 & Hxs & Hxe & _). apply Hf; [lia|].
      intros n Hn. destruct l2; [done|]. injection Hn as ->. destruct Ht2 as [Hn _]. offsets. lia.
    - destruct (tiles_in _ _ _ _ Ht2 Hx) as (Hx0 & _). apply Hf; [offsets; lia|]. intros n Hn.
      destruct l2 as [|n' l2]; [done|]. injection Hn as ->. destruct Ht2 as (Hna & Hns & _ & Ht2).
      apply elem_of_cons in Hx as [->|Hx]; [offsets; lia|]. destruct (tiles_in _ _ _ _ Ht2 Hx) as (? & _). offsets. lia. }
  assert (head_addr (l1 ++ (b' :: mid) ++ l2) = base) as Eb by (rewrite Hba; by destruct l1).
  constructor; cbn [with_mem heap_start mem]; rewrite ?Eb.
  - done.
  - apply linked_app. split; [|apply linked_app; split; [done|]].
    + cbn [app next_addr]. rewrite Ha. eapply linked_frame; [done|]. intros x y Hx Hy.
      destruct (tiles_in _ _ _ _ Ht1 Hx) as (Hx0 & Hxs & Hxe & _). apply Hf; [offsets; lia|].
      intros n Hn. destruct l2; [done|]. injection Hn as ->. destruct Ht2 as [Hn _]. offsets. lia.
    + replace (last_addr (last_addr 0 l1) (b' :: mid)) with (last_addr 0 (b' :: mid))
        by (symmetry; apply (last_addr_app _ [])).
      eapply linked_reprev; [done| |done|].
      * intros x y Hx Hy Hne. destruct (tiles_in _ _ _ _ Ht2 Hx) as (Hx0 & _). apply Hf; [lia | done].
      * intros x Hx. destruct l2 as [|n l2]; [by apply elem_of_nil in Hx|]. destruct Ht2 as (<- & Hns & _ & Ht2).
        destruct (tiles_in _ _ _ _ Ht2 Hx) as (? & _). cbn [next_addr]. lia.
  - exists e. split_and!; [|tauto|].
    + apply tiles_app. exists (b_addr b). split; [done|]. apply tiles_app. by exists d.
    + intros x Hx Hx8. by apply Hd, Hm.
  - lia.
Qed.

(** ** Marking, cutting and merging *)

Section Steps.
Context {W : Type} `{UserMaps W}.
Implicit Type h : heap W.

Lemma mapped_insert (m : gmap Z Z) a v x : is_Some (m !! x) -> is_Some (<[a := v]> m !! x).
Proof. rewrite lookup_insert_is_Some. destruct (decide (a = x)); auto. Qed.

Definition mark (f : bool) (b : block) : block := Block (b_addr b) (b_size b) f.

Lemma mark_ok l1 b l2 h f v :
  heap_ok (l1 ++ b :: l2) h -> v = flag f ->
  exists h', store (b_addr b + o_free) v h = Some (Val tt, h') /\ heap_ok (l1 ++ mark f b :: l2) h' /\ keeps (l1 ++ l2) h h'.
Proof.
  intros Hk ->. destruct (heap_region l1 b [] l2 h Hk) as (base & d & e & Hr).
  pose proof Hr as [_ _ Hbo _ _ _ Ht _ _ [Hh _] _].
  destruct Ht as (_ & Hs & Hs8 & Hd). cbn [tiles] in Hd. destruct Hh as (Hm & Hz & Hf & Hn & Hp).
  eexists. split; [unfold store; rewrite Hf; reflexivity|].
  change (l1 ++ mark f b :: l2) with (l1 ++ (mark f b :: []) ++ l2).
  apply (heap_replace _ _ _ _ _ _ _ _ _ _ (<[b_addr b + o_free := flag f]> (mem h)) Hr); try done.
  - intros x Hx Hne. by cell.
  - intros x. apply mapped_insert.
  - split; [|done]. unfold mark. cells.
  - intros n Hn'. destruct l2; [done|]. injection Hn' as ->. pose proof (rg_tiles2 _ _ _ _ _ _ _ _ Hr) as [Hna _].
    cell. pose proof (rg_links2 _ _ _ _ _ _ _ _ Hr) as [(_ & _ & _ & _ & Hq) _]. done.
Qed.

(** The link back of the block after a region. *)
Definition relink (l2 : list block) (v : Z) (m : gmap Z Z) : gmap Z Z :=
  match l2 with n :: _ => <[b_addr n + o_prev := v]> m | [] => m end.

Lemma relink_run l1 b old l2 base d e h v m :
  region l1 b old l2 base d e h -> (forall x, is_Some (mem h !! x) -> is_Some (m !! x)) ->
  (if negb (next_addr l2 0 =? 0) then store (next_addr l2 0 + o_prev) v else mret tt) (with_mem m h) =
  Some (Val tt, with_mem (relink l2 v m) h).
Proof.
  intros [_ _ Hbo _ _ _ _ Ht2 _ _ Hl2] Hd. destruct l2 as [|n l2]; cbn [next_addr relink]; [done|].
  destruct Ht2 as [Hn _], Hl2 as [(_ & _ & _ & _ & Hp) _].
  replace (b_addr n =? 0) with false by (offsets; lia). cbn [negb].
  destruct (Hd (b_addr n + o_prev)) as [x Hx]; [by eexists|]. unfold store. cbn [mem with_mem]. by rewrite Hx.
Qed.

Lemma relink_other l2 v m x :
  (forall n, head l2 = Some n -> x <> b_addr n + o_prev) -> relink l2 v m !! x = m !! x.
Proof. destruct l2 as [|n l2]; [done|]. intros Hx. cbn [relink]. rewrite lookup_insert_ne; [done|]. intros E. by apply (Hx n). Qed.

Lemma relink_head l2 v m n : head l2 = Some n -> relink l2 v m !! (b_addr n + o_prev) = Some v.
Proof. destruct l2; [done|]. intros [= ->]. cbn [relink]. apply lookup_insert_eq. Qed.

Lemma relink_mapped l2 v (m : gmap Z Z) x : is_Some (m !! x) -> is_Some (relink l2 v m !! x).
Proof. destruct l2; [done|]. apply mapped_insert. Qed.

(** A cell before the block after a region. *)
Lemma relink_before l1 b old l2 base d e h v m x :
  region l1 b old l2 base d e h -> x < d + o_prev -> relink l2 v m !! x = m !! x.
Proof.
  intros [_ _ _ _ _ _ _ Ht2 _ _ _] Hx. apply relink_other. intros n Hn. destruct l2; [done|]. injection Hn as ->.
  destruct Ht2 as [Hn _]. lia.
Qed.

Definition joined (a b : block) : block := Block (b_addr a) (b_size a + header_size + b_size b) (b_free a).

Lemma absorb_ok l1 a b l2 h :
  heap_ok (l1 ++ a :: b :: l2) h ->
  exists h', absorb (b_addr a) (b_addr b) h = Some (Val tt, h') /\ heap_ok (l1 ++ joined a b :: l2) h' /\ keeps (l1 ++ l2) h h'.
Proof.
  intros Hk. destruct (heap_region l1 a [b] l2 h Hk) as (base & d & e & Hr).
  pose proof Hr as [_ _ Hbo _ _ _ Ht _ _ [Ha [Hb _]] _]. cbn [tiles] in Ht.
  destruct Ht as (_ & Has & Has8 & Hba & Hbs & Hbs8 & Hd). rewrite <- Hba in Hd.
  destruct Ha as (Ham & Haz & Haf & Han & Hap), Hb as (Hbm & Hbz & Hbf & Hbn & _).
  set (size := u64 (b_size a + header_size + b_size b)).
  set (m := <[b_addr a + o_next := next_addr l2 0]> (<[b_addr a + o_size := size]> (mem h))).
  exists (with_mem (relink l2 (b_addr a) m) h). split.
  { unfold absorb. rewrite (load_bind _ _ _ _ Haz), (load_bind _ _ _ _ Hbz). fold size. rewrite store_bind' by by eexists.
    erewrite load_bind by (cbn [mem with_mem]; cell; exact Hbn). rewrite store_bind by (apply mapped_insert; by eexists).
    eapply relink_run; [exact Hr|]. intros x Hx. by do 2 apply mapped_insert. }
  assert (size = b_size a + header_size + b_size b) as Hsize by (unfold size, u64; rewrite Z.mod_small; offsets; lia).
  change (l1 ++ joined a b :: l2) with (l1 ++ (joined a b :: []) ++ l2). unfold joined.
  apply (heap_replace _ _ _ _ _ _ _ _ _ _ _ Hr); cbn [tiles b_addr b_size b_free].
  - done.
  - split_and!; offsets; [done | lia | Z.div_mod_to_equations; lia | lia].
  - intros x Hx Hne. rewrite relink_other by done. unfold m. by cell.
  - intros x Hx. apply relink_mapped. by do 2 apply mapped_insert.
  - split; [|done]. unfold header. cbn [b_addr b_size b_free].
    rewrite !(relink_before _ _ _ _ _ _ _ _ _ _ _ Hr) by (offsets; lia). unfold m. split_and!; cell; congruence.
  - intros n Hn. by apply relink_head.
Qed.

(** The two halves of a block that is cut after [n] bytes. *)
Definition front (n : Z) (b : block) : block := Block (b_addr b) n (b_free b).
Definition rest (n : Z) (b : block) : block := Block (b_addr b + header_size + n) (b_size b - n - header_size) true.

Lemma split_block_ok l1 b l2 h n :
  heap_ok (l1 ++ b :: l2) h -> 0 <= n -> n mod 8 = 0 -> n + header_size <= b_size b ->
  exists h', split_block (b_addr b) (b_size b) n h = Some (Val tt, h') /\ heap_ok (l1 ++ front n b :: rest n b :: l2) h' /\
    keeps (l1 ++ l2) h h'.
Proof.
  intros Hk Hn Hn8 Hfit. destruct (heap_region l1 b [] l2 h Hk) as (base & d & e & Hr).
  pose proof Hr as [_ _ Hbo Hal Hmap _ Ht _ _ [Hh _] _]. cbn [tiles] in Ht. destruct Ht as (_ & Hs & Hs8 & Hd).
  destruct Hh as (Hm & Hz & Hf & Hnx & Hp).
  set (nb := b_addr b + header_size + n).
  assert (forall o, 0 <= o < header_size -> o mod 8 = 0 -> is_Some (mem h !! (nb + o))) as Hnb.
  { intros o Ho Ho8. apply Hmap; unfold nb; offsets; [lia | Z.div_mod_to_equations; lia]. }
  set (size := u64 (b_size b - n - header_size)).
  assert (size = b_size b - n - header_size) as Hsize by (unfold size, u64; rewrite Z.mod_small; offsets; lia).
  set (m := <[nb + o_prev := b_addr b]> (<[nb + o_next := next_addr l2 0]> (<[nb + o_free := 1]>
    (<[nb + o_size := size]> (<[nb + o_magic := HEAP_MAGIC]> (mem h)))))).
  set (m' := <[b_addr b + o_size := n]> (<[b_addr b + o_next := nb]> (relink l2 nb m))).
  exists (with_mem m' h). split.
  { unfold split_block. fold nb size. rewrite store_bind' by (by apply Hnb). rewrite store_bind by (apply mapped_insert; by apply Hnb).
    rewrite store_bind by (do 2 apply mapped_insert; by apply Hnb).
    erewrite load_bind by (cbn [mem with_mem]; unfold nb; cell; exact Hnx).
    rewrite store_bind by (do 3 apply mapped_insert; by apply Hnb). rewrite store_bind by (do 4 apply mapped_insert; by apply Hnb).
    fold m. erewrite bind_val by (eapply relink_run; [exact Hr | intros x Hx; by do 5 apply mapped_insert]).
    rewrite store_bind by (apply relink_mapped; do 5 apply mapped_insert; by eexists).
    unfold store. cbn [mem with_mem]. destruct (mapped_insert (relink l2 nb m) (b_addr b + o_next) nb (b_addr b + o_size)) as [y Hy];
      [apply relink_mapped; do 5 apply mapped_insert; by eexists|]. by rewrite Hy. }
  change (l1 ++ front n b :: rest n b :: l2) with (l1 ++ (front n b :: [rest n b]) ++ l2). unfold front, rest.
  apply (heap_replace _ _ _ _ _ _ _ _ _ _ _ Hr); cbn [tiles b_addr b_size b_free].
  - done.
  - split_and!; offsets; try done; try lia. Z.div_mod_to_equations; lia.
  - intros x Hx Hne. unfold m'. rewrite !lookup_insert_ne by (offsets; lia). rewrite relink_other by done. unfold m, nb. by cell.
  - intros x Hx. do 2 apply mapped_insert. apply relink_mapped. by do 5 apply mapped_insert.
  - unfold header. cbn [linked b_addr b_size b_free]. unfold header. cbn [b_addr b_size b_free]. fold nb.
    unfold m'. split_and!; repeat first [rewrite lookup_insert_eq | rewrite lookup_insert_ne by (unfold nb; offsets; lia)].
    all: rewrite ?(relink_before _ _ _ _ _ _ _ _ _ _ _ Hr) by (unfold nb; offsets; lia). all: unfold m, nb; cell; try done; congruence.
  - intros x Hx. destruct l2; [done|]. injection Hx as ->. pose proof (rg_tiles2 _ _ _ _ _ _ _ _ Hr) as [Hx _].
    unfold m'. cell. cbn [relink]. cell. done.
Qed.

Lemma keeps_sub l l' h h' : keeps l h h' -> l' ⊆ l -> keeps l' h h'.
Proof. intros Hk Hs b x Hb. apply Hk. by apply Hs. Qed.

Lemma keeps_trans l h1 h2 h3 : keeps l h1 h2 -> keeps l h2 h3 -> keeps l h1 h3.
Proof. intros H12 H23 b x Hb Hx. by rewrite (H23 b), (H12 b). Qed.

(** ** Taking a block *)

Definition taken (n : Z) (b : block) : list block :=
  if n + header_size + 8 <=? b_size b then [mark false (front n b); rest n b] else [mark false b].

Lemma block_bounds l1 b l2 h :
  heap_ok (l1 ++ b :: l2) h ->
  header (mem h) b (next_addr l2 0) (last_addr 0 l1) /\ 0 < b_addr b /\ 0 <= b_size b /\ b_addr b + header_size + b_size b < 2 ^ 63.
Proof.
  intros Hk. destruct (heap_region l1 b [] l2 h Hk) as (base & d & e & [_ _ Hbo _ _ _ Ht _ _ [Hh _] _]).
  cbn [tiles] in Ht. split; [done | lia].
Qed.

Lemma take_ok l1 b l2 h n :
  heap_ok (l1 ++ b :: l2) h -> 0 <= n -> n mod 8 = 0 -> n <= b_size b ->
  exists h', take_block (b_addr b) n h = Some (Val (b_addr b + header_size), h') /\
    heap_ok (l1 ++ taken n b ++ l2) h' /\ keeps (l1 ++ l2) h h'.
Proof.
  intros Hk Hn Hn8 Hfit. destruct (block_bounds _ _ _ _ Hk) as ((_ & Hz & _) & Hb & Hs & He).
  unfold take_block, taken. rewrite (load_bind _ _ _ _ Hz).
  replace (u64 _) with (n + header_size + 8) by (unfold u64; rewrite Z.mod_small; offsets; lia).
  destruct (_ <=? _) eqn:E.
  - destruct (split_block_ok _ _ _ _ n Hk) as (h1 & E1 & Hk1 & K1); [lia.. |]. mrun E1.
    destruct (mark_ok l1 (front n b) (rest n b :: l2) h1 false 0 Hk1 eq_refl) as (h2 & E2 & Hk2 & K2).
    cbn [front b_addr] in E2. mrun E2. exists h2. split_and!; [done..|]. eapply keeps_trans; [done|].
    eapply keeps_sub; [done|]. intros x. rewrite !elem_of_app, elem_of_cons. tauto.
  - destruct (mark_ok l1 b l2 h false 0 Hk eq_refl) as (h2 & E2 & Hk2 & K2). rewrite bind_ret. mrun E2. by exists h2.
Qed.

Definition fits (n : Z) (b : block) : bool := b_free b && (n <=? b_size b).

Lemma blocks_few l h : heap_ok l h -> zlen l < 2 ^ 63.
Proof.
  intros [_ _ (e & Ht & He & _) [Hb _]]. pose proof (tiles_le _ _ _ Ht). pose proof (zlen_nonneg l). offsets. lia.
Qed.

Lemma block_fits_run l1 b l2 h n :
  heap_ok (l1 ++ b :: l2) h -> block_fits (b_addr b) n h = Some (Val (fits n b), h).
Proof.
  intros Hk. destruct (block_bounds _ _ _ _ Hk) as ((Hm & Hz & Hf & _) & Hb & _). unfold block_fits, fits.
  rewrite (load_bind _ _ _ _ Hm). change (HEAP_MAGIC =? HEAP_MAGIC) with true. cbv iota.
  rewrite (load_bind _ _ _ _ Hf). destruct (b_free b); [|done]. cbn [flag Z.eqb negb]. by rewrite (load_bind _ _ _ _ Hz).
Qed.

Lemma visit_ok l1 b l2 h n :
  heap_ok (l1 ++ b :: l2) h -> 0 <= n -> n mod 8 = 0 ->
  if fits n b then exists h', visit n (b_addr b) h = Some (Val (inr (b_addr b + header_size)), h') /\
                     heap_ok (l1 ++ taken n b ++ l2) h' /\ keeps (l1 ++ l2) h h'
  else visit n (b_addr b) h = Some (Val (inl (next_addr l2 0)), h).
Proof.
  intros Hk Hn Hn8. destruct (block_bounds _ _ _ _ Hk) as ((_ & _ & _ & Hnx & _) & Hb & _).
  unfold visit. replace (b_addr b =? 0) with false by lia. mrun (block_fits_run _ _ _ _ n Hk). destruct (fits n b) eqn:E.
  - destruct (take_ok _ _ _ _ n Hk) as (h' & E' & Hk'); [done..|unfold fits in E; lia|]. exists h'. by mrun E'.
  - by rewrite (load_bind _ _ _ _ Hnx).
Qed.

Lemma first_fit_ok l1 b l2 h n :
  heap_ok (l1 ++ b :: l2) h -> 0 <= n -> n mod 8 = 0 -> Forall (fun a => fits n a = false) l1 -> fits n b = true ->
  exists h', first_fit (heap_start h) n h = Some (Val (b_addr b + header_size), h') /\
    heap_ok (l1 ++ taken n b ++ l2) h' /\ keeps (l1 ++ l2) h h'.
Proof.
  intros Hk Hn Hn8 Hno Hfit. unfold first_fit.
  destruct (while_true_inv
    (fun k a s => s = h /\ exists seen todo, l1 = seen ++ todo /\ k = length todo /\ a = next_addr (todo ++ [b]) 0)
    (fun p h' => p = b_addr b + header_size /\ heap_ok (l1 ++ taken n b ++ l2) h' /\ keeps (l1 ++ l2) h h')
    heap_rounds (visit n)) with (n := length l1) (a := heap_start h) (s := h) as (p & h' & E & -> & Hk' & K).
  - intros k a s (-> & seen & todo & -> & -> & ->). destruct todo as [|c todo]; cbn [app next_addr length].
    + left. rewrite app_nil_r in *. pose proof (visit_ok _ _ _ _ n Hk Hn Hn8) as Hv. rewrite Hfit in Hv.
      destruct Hv as (h' & E & Hk'). by exists (b_addr b + header_size), h'.
    + right. exists (length todo), (next_addr (todo ++ [b]) 0), h. apply Forall_app in Hno as [_ Hno].
      apply Forall_cons in Hno as [Hc _]. rewrite <- app_assoc in Hk. cbn [app] in Hk.
      pose proof (visit_ok _ _ _ _ n Hk Hn Hn8) as Hv. rewrite Hc in Hv. split; [rewrite Hv; by destruct todo|].
      split; [lia|]. split; [done|]. exists (seen ++ [c]), todo. by rewrite <- app_assoc.
  - split; [done|]. exists [], l1. split_and!; [done..|]. rewrite (hk_start _ _ Hk). by destruct l1.
  - pose proof (blocks_few _ _ Hk) as Hf. rewrite zlen_app in Hf. pose proof (zlen_nonneg (b :: l2)). unfold zlen in *.
    assert (Z.of_nat (Pos.to_nat heap_rounds) = 2 ^ 64) by by rewrite positive_nat_Z. lia.
  - by exists h'.
Qed.

(** ** The operations *)

(** [(size + 7) & ~7] *)
Definition aligned (size : Z) : Z := (size + 7) / 8 * 8.

Lemma aligned_spec size : 0 <= size -> size <= aligned size < size + 8 /\ aligned size mod 8 = 0.
Proof. intros Hs. unfold aligned. split; [Z.div_mod_to_equations; lia | by apply Z.mod_mul]. Qed.

Lemma align_land size : 0 <= size < 2 ^ 63 -> Z.land (u64 (size + 7)) (UINT64_MAX - 7) = aligned size.
Proof.
  intros Hs. unfold u64. rewrite Z.mod_small by lia. unfold aligned.
  change (UINT64_MAX - 7) with (Z.ldiff (Z.ones 64) (Z.ones 3)).
  rewrite Z.ldiff_land, Z.land_assoc, Z.land_ones, <- Z.ldiff_land, Z.ldiff_ones_r, Z.shiftr_div_pow2, Z.shiftl_mul_pow2 by lia.
  rewrite (Z.mod_small (size + 7)) by lia. done.
Qed.

Lemma malloc_ok l1 b l2 h size :
  heap_ok (l1 ++ b :: l2) h -> 0 < size < 2 ^ 63 -> Forall (fun a => fits (aligned size) a = false) l1 ->
  fits (aligned size) b = true ->
  exists h', malloc size h = Some (Val (b_addr b + header_size), h') /\
    heap_ok (l1 ++ taken (aligned size) b ++ l2) h' /\ keeps (l1 ++ l2) h h'.
Proof.
  intros Hk Hs Hno Hfit. destruct (aligned_spec size) as [Hal Hal8]; [lia|].
  destruct (first_fit_ok _ _ _ _ _ Hk (Z.le_trans _ _ _ (Z.lt_le_incl _ _ (proj1 Hs)) (proj1 Hal)) Hal8 Hno Hfit) as (h' & E & Hk' & K). exists h'. split; [|done].
  destruct (block_bounds _ _ _ _ Hk) as (_ & Hb & Hbz & _).
  assert (malloc_call size h = Some (Val (inr (b_addr b + header_size)), h')) as Ec.
  { unfold malloc_call. replace (size =? 0) with false by lia. rewrite align_land, bind_gets by lia.
    replace (heap_start h =? 0) with false by (rewrite (hk_start _ _ Hk); destruct (hk_base _ _ Hk); lia).
    rewrite bind_ret. cbn [negb]. rewrite bind_gets. mrun E. replace (_ =? 0) with false by (offsets; lia). done. }
  destruct (while_true_inv (fun k (_ : unit) s => s = h) (fun p s => p = b_addr b + header_size /\ s = h') heap_rounds
    (fun _ => malloc_call size)) with (n := O) (a := tt) (s := h) as (p & s & E' & -> & ->); [|done|apply Pos2Nat.is_pos|done].
  intros k _ s ->. left. by exists (b_addr b + header_size), h'.
Qed.

Lemma busy_app l l' : busy (l ++ l') = busy l ++ busy l'.
Proof. apply filter_app. Qed.
Lemma busy_free b l : b_free b = true -> busy (b :: l) = busy l.
Proof. intros E. unfold busy. by rewrite filter_cons_False by congruence. Qed.
Lemma busy_sub l : busy l ⊆ l.
Proof. intros b Hb. by apply list_elem_of_filter in Hb as [_ ?]. Qed.

Lemma is_free_run l1 b l2 h : heap_ok (l1 ++ b :: l2) h -> is_free (b_addr b) h = Some (Val (b_free b), h).
Proof.
  intros Hk. destruct (block_bounds _ _ _ _ Hk) as ((_ & _ & Hf & _) & Hb & _). unfold is_free.
  replace (b_addr b =? 0) with false by lia. cbn [negb]. rewrite (load_bind _ _ _ _ Hf). by destruct (b_free b).
Qed.

(** The first half of [free]: the block after [b]. *)
Lemma merge_next l1 b l2 h :
  heap_ok (l1 ++ b :: l2) h ->
  exists b' l2' h',
    (merge ← is_free (next_addr l2 0);
     if (merge : bool) then absorb (b_addr b) (next_addr l2 0) else mret tt) h = Some (Val tt, h') /\
    heap_ok (l1 ++ b' :: l2') h' /\ b_addr b' = b_addr b /\ b_free b' = b_free b /\ busy l2' = busy l2 /\
    keeps (busy (l1 ++ l2)) h h'.
Proof.
  intros Hk. destruct l2 as [|n l2]; cbn [next_addr].
  { exists b, [], h. split_and!; try done. }
  assert (heap_ok ((l1 ++ [b]) ++ n :: l2) h) as Hk1 by by rewrite <- app_assoc.
  mrun (is_free_run _ _ _ _ Hk1). destruct (b_free n) eqn:Hn; [|by exists b, (n :: l2), h].
  destruct (absorb_ok _ _ _ _ _ Hk) as (h' & E & Hk' & K). exists (joined b n), l2, h'.
  split_and!; [done..|by rewrite busy_free|]. eapply keeps_sub; [done|].
  rewrite !busy_app, busy_free, <- busy_app by done. apply busy_sub.
Qed.

(** Its second half: the block before it. *)
Lemma merge_prev l1 b l2 h :
  heap_ok (l1 ++ b :: l2) h -> b_free b = true ->
  exists l' h',
    (merge ← is_free (last_addr 0 l1);
     if (merge : bool) then absorb (last_addr 0 l1) (b_addr b) else mret tt) h = Some (Val tt, h') /\
    heap_ok l' h' /\ busy l' = busy (l1 ++ l2) /\ keeps (busy (l1 ++ l2)) h h'.
Proof.
  intros Hk Hb. destruct l1 as [|p l1 _] using rev_ind; cbn [app].
  { exists (b :: l2), h. split_and!; try done. by apply busy_free. }
  rewrite (last_addr_app 0 l1 p []). cbn [last_addr last]. change (last_addr 0 [p]) with (b_addr p).
  rewrite <- app_assoc in *. cbn [app] in *. mrun (is_free_run _ _ _ _ Hk). destruct (b_free p) eqn:Hp.
  - destruct (absorb_ok _ _ _ _ _ Hk) as (h' & E & Hk' & K). exists (l1 ++ joined p b :: l2), h'.
    rewrite !busy_app, !busy_free, <- busy_app by done. split_and!; [done..|]. eapply keeps_sub; [done|]. apply busy_sub.
  - exists (l1 ++ p :: b :: l2), h. split_and!; try done. rewrite !busy_app. f_equal. unfold busy.
    by rewrite filter_cons_True, filter_cons_False, filter_cons_True by congruence.
Qed.

Lemma free_ok l1 b l2 h :
  heap_ok (l1 ++ b :: l2) h ->
  exists l' h', free (b_addr b + header_size) h = Some (Val tt, h') /\ heap_ok l' h' /\
    busy l' = busy (l1 ++ l2) /\ keeps (busy (l1 ++ l2)) h h'.
Proof.
  intros Hk. destruct (block_bounds _ _ _ _ Hk) as ((Hm & _) & Hb & _). unfold free.
  replace (b_addr b + header_size =? 0) with false by (offsets; lia).
  replace (b_addr b + header_size - header_size) with (b_addr b) by lia.
  rewrite (load_bind _ _ _ _ Hm). change (HEAP_MAGIC =? HEAP_MAGIC) with true. cbn [negb].
  destruct (mark_ok _ _ _ _ true 1 Hk eq_refl) as (h1 & E1 & Hk1 & K1). mrun E1.
  destruct (block_bounds _ _ _ _ Hk1) as ((_ & _ & _ & Hn & _) & _). rewrite (load_bind _ _ _ _ Hn).
  destruct (merge_next _ _ _ _ Hk1) as (b' & l2' & h2 & E2 & Hk2 & Ha & Hf & Hbz & K2). rewrite <- bind_assoc.
  erewrite bind_val by exact E2. cbn [mark b_addr] in Ha. rewrite <- Ha.
  destruct (block_bounds _ _ _ _ Hk2) as ((_ & _ & _ & _ & Hp) & _). rewrite (load_bind _ _ _ _ Hp).
  destruct (merge_prev _ _ _ _ Hk2 Hf) as (l' & h3 & E3 & Hk3 & Hbz3 & K3). exists l', h3. rewrite E3.
  assert (busy (l1 ++ l2') = busy (l1 ++ l2)) as Eb by by rewrite !busy_app, Hbz. rewrite Eb in *. split_and!; [done..|].
  eapply keeps_trans; [eapply keeps_sub; [exact K1 | apply busy_sub]|]. by eapply keeps_trans.
Qed.

(** ** The map of allocations *)

Lemma allocations_lookup l p n :
  allocations l !! p = Some n ->
  exists l1 b l2, l = l1 ++ b :: l2 /\ b_free b = false /\ p = b_addr b + header_size /\ n = b_size b.
Proof.
  intros E%elem_of_list_to_map_2. apply list_elem_of_fmap in E as (b & [= -> ->] & Hb).
  apply list_elem_of_filter in Hb as [Hf (l1 & l2 & ->)%list_elem_of_split]. by exists l1, b, l2.
Qed.

Lemma allocations_app l l' : allocations (l ++ l') = allocations l ∪ allocations l'.
Proof. unfold allocations. by rewrite busy_app, fmap_app, list_to_map_app. Qed.

Lemma allocations_free b l : b_free b = true -> allocations (b :: l) = allocations l.
Proof. intros Hb. unfold allocations. by rewrite busy_free. Qed.

Lemma allocations_busy b l : b_free b = false -> allocations (b :: l) = <[b_addr b + header_size := b_size b]> (allocations l).
Proof. intros Hb. unfold allocations, busy. by rewrite filter_cons_True. Qed.

Lemma tiles_apart a l1 b l2 e b' :
  tiles a (l1 ++ b :: l2) e -> b' ∈ l1 ++ l2 ->
  b_addr b' + header_size + b_size b' <= b_addr b \/ b_addr b + header_size + b_size b <= b_addr b'.
Proof.
  intros (c & Ht1 & Ht2)%tiles_app Hb. cbn [tiles] in Ht2. destruct Ht2 as (<- & Hs & _ & Ht2).
  apply elem_of_app in Hb as [Hb|Hb].
  - destruct (tiles_in _ _ _ _ Ht1 Hb) as (? & ? & ? & _). lia.
  - destruct (tiles_in _ _ _ _ Ht2 Hb) as (? & ? & ? & _). lia.
Qed.

Lemma ok_apart l1 b l2 h b' :
  heap_ok (l1 ++ b :: l2) h -> b' ∈ l1 ++ l2 ->
  0 <= b_size b /\ 0 <= b_size b' /\
  (b_addr b' + header_size + b_size b' <= b_addr b \/ b_addr b + header_size + b_size b <= b_addr b').
Proof.
  intros [_ _ (e & Ht & _) _] Hb.
  assert (b' ∈ l1 ++ b :: l2) as Hb2 by (revert Hb; rewrite !elem_of_app, elem_of_cons; tauto).
  assert (b ∈ l1 ++ b :: l2) as Hb3 by (apply elem_of_app; right; by left).
  destruct (tiles_in _ _ _ _ Ht Hb2) as (_ & ? & _), (tiles_in _ _ _ _ Ht Hb3) as (_ & ? & _).
  split_and!; [done..|]. by eapply tiles_apart.
Qed.

Lemma allocations_new l1 b l2 h : heap_ok (l1 ++ b :: l2) h -> allocations (l1 ++ l2) !! (b_addr b + header_size) = None.
Proof.
  intros Hk. destruct (allocations (l1 ++ l2) !! _) as [n|] eqn:E; [|done].
  apply allocations_lookup in E as (k1 & b' & k2 & El & _ & Ep & _).
  assert (b' ∈ l1 ++ l2) as Hb by (rewrite El; apply elem_of_app; right; by left).
  destruct (ok_apart _ _ _ _ _ Hk Hb) as (? & ? & ?). offsets. lia.
Qed.

Lemma allocations_insert l1 b l2 h :
  heap_ok (l1 ++ b :: l2) h -> b_free b = false ->
  allocations (l1 ++ b :: l2) = <[b_addr b + header_size := b_size b]> (allocations (l1 ++ l2)).
Proof.
  intros Hk Hb. pose proof (allocations_new _ _ _ _ Hk) as Hn. rewrite !allocations_app in *.
  rewrite allocations_busy by done. symmetry. apply insert_union_r. by apply lookup_union_None in Hn as [? _].
Qed.

Lemma allocations_drop l1 b l2 : b_free b = true -> allocations (l1 ++ b :: l2) = allocations (l1 ++ l2).
Proof. intros Hb. by rewrite !allocations_app, allocations_free. Qed.

Lemma allocations_taken l1 b l2 h n :
  heap_ok (l1 ++ taken n b ++ l2) h -> b_free b = true -> n <= b_size b ->
  exists k, n <= k < n + header_size + 8 /\
    allocations (l1 ++ taken n b ++ l2) = <[b_addr b + header_size := k]> (allocations (l1 ++ b :: l2)).
Proof.
  unfold taken. intros Hk Hb Hn. rewrite (allocations_drop l1 b l2 Hb).
  destruct (_ <=? _) eqn:E; cbn [app] in *; rewrite (allocations_insert _ _ _ _ Hk) by done.
  - exists n. split; [offsets; lia|]. by rewrite allocations_drop.
  - exists (b_size b). split; [lia | done].
Qed.

(** The program's data are the same. *)
Definition same_contents (A : gmap Z Z) h h' : Prop := forall p n x,
  A !! p = Some n -> p <= x < p + n -> mem h' !! x = mem h !! x.

Lemma keeps_contents l h h' : keeps (busy l) h h' -> same_contents (allocations l) h h'.
Proof.
  intros Hk p n x E Hx. apply elem_of_list_to_map_2, list_elem_of_fmap in E as (b & [= -> ->] & Hb). by apply (Hk b).
Qed.

Lemma Exists_first {A} (f : A -> bool) l :
  Exists (fun a => f a = true) l -> exists l1 a l2, l = l1 ++ a :: l2 /\ Forall (fun a => f a = false) l1 /\ f a = true.
Proof.
  induction l as [|a l IH]; [by intros ?%Exists_nil|]. destruct (f a) eqn:E; [by exists [], a, l|].
  intros [?|Hl]%Exists_cons; [congruence|]. destruct (IH Hl) as (l1 & b & l2 & -> & Hf & Hb).
  exists (a :: l1), b, l2. split_and!; [done| |done]. by constructor.
Qed.

(** C28: Allocation and release of user memory.  In a heap whose blocks fill its
    memory and are linked in order, the allocations do not overlap and are
    separated by headers; [malloc] of a size that some free block can hold returns a pointer
    that is not in use and adds it with a size that is at least the one asked for
    (and less than a header and eight bytes more than it, rounded up); [free] of a
    pointer in use removes it, merging free neighbours; the blocks of the result fill
    its memory again, and the contents of the other allocations are the same. *)
Theorem heap_refines l h :
  heap_ok l h ->
  (forall p n q k, allocations l !! p = Some n -> allocations l !! q = Some k -> p <> q ->
     p + n + header_size <= q \/ q + k + header_size <= p) /\
  (forall size, 0 < size < 2 ^ 63 -> Exists (fun b => fits (aligned size) b = true) l ->
     exists p n l' h', malloc size h = Some (Val p, h') /\ heap_ok l' h' /\
       allocations l !! p = None /\ allocations l' = <[p := n]> (allocations l) /\
       size <= n < aligned size + header_size + 8 /\ same_contents (allocations l) h h') /\
  (forall p n, allocations l !! p = Some n ->
     exists l' h', free p h = Some (Val tt, h') /\ heap_ok l' h' /\
       allocations l' = delete p (allocations l) /\ same_contents (allocations l') h h').
Proof.
  intros Hk. split_and!.
  - intros p n q k (l1 & b & l2 & -> & Hb & -> & ->)%allocations_lookup Hq Hne.
    rewrite (allocations_insert _ _ _ _ Hk Hb), lookup_insert_ne in Hq by done.
    apply allocations_lookup in Hq as (k1 & c & k2 & El & _ & -> & ->).
    destruct (ok_apart _ _ _ _ c Hk) as (_ & _ & ?); [rewrite El; apply elem_of_app; right; by left|]. lia.
  - intros size Hs (l1 & b & l2 & -> & Hno & Hb)%Exists_first.
    destruct (malloc_ok _ _ _ _ _ Hk Hs Hno Hb) as (h' & E & Hk' & K).
    assert (b_free b = true /\ aligned size <= b_size b) as [Hf Hle] by (apply andb_true_iff in Hb as [? ?]; split; [done | lia]).
    destruct (allocations_taken _ _ _ _ _ Hk' Hf Hle) as (n & Hn & Ea).
    destruct (aligned_spec size) as [Hal _]; [lia|].
    exists (b_addr b + header_size), n, (l1 ++ taken (aligned size) b ++ l2), h'. rewrite Ea, (allocations_drop l1 b l2 Hf).
    split; [done|]. split; [done|]. split; [by eapply allocations_new|]. split; [done|]. split; [lia|].
    apply keeps_contents. eapply keeps_sub; [done | apply busy_sub].
  - intros p n (l1 & b & l2 & -> & Hb & -> & ->)%allocations_lookup.
    destruct (free_ok _ _ _ _ Hk) as (l' & h' & E & Hk' & Hbz & K). exists l', h'.
    assert (allocations l' = allocations (l1 ++ l2)) as -> by (unfold allocations; by rewrite Hbz).
    rewrite (allocations_insert _ _ _ _ Hk Hb), delete_insert_id by (by eapply allocations_new).
    split_and!; [done..|]. by apply keeps_contents.
Qed.

(** What a program stores into its own memory leaves the heap as it is. *)
Lemma store_contents_ok l h p n a v :
  heap_ok l h -> allocations l !! p = Some n -> p <= a < p + n -> a mod 8 = 0 ->
  exists h', store a v h = Some (Val tt, h') /\ heap_ok l h'.
Proof.
  intros Hk (l1 & b & l2 & -> & Hb & -> & ->)%allocations_lookup Ha Ha8.
  destruct (heap_region l1 b [] l2 h Hk) as (base & d & e & Hr). pose proof Hr as [_ _ Hbo _ Hm _ Ht _ _ Hl _].
  pose proof Ht as Ht'. cbn [tiles] in Ht'. destruct Ht' as (_ & Hs & _ & Hd).
  destruct (Hm a) as [x Hx]; [offsets; lia | done|]. exists (with_mem (<[a := v]> (mem h)) h).
  split; [unfold store; by rewrite Hx|]. change (l1 ++ b :: l2) with (l1 ++ [b] ++ l2).
  eapply (heap_replace _ _ _ _ _ _ _ _ _ _ _ Hr); try done.
  - intros y Hy _. by cell.
  - intros y. apply mapped_insert.
  - eapply linked_frame; [done|]. intros c y Hc Hy. apply list_elem_of_singleton in Hc as ->. by cell.
  - intros c Hc. destruct l2; [done|]. injection Hc as ->. pose proof (rg_tiles2 _ _ _ _ _ _ _ _ Hr) as [Hc _].
    pose proof (rg_links2 _ _ _ _ _ _ _ _ Hr) as [(_ & _ & _ & _ & Hq) _]. by cell.
Qed.

End Steps.

(** ** A heap in use

    The kernel of the examples maps whole pages of zeros at the address it is given,
    as [native_user_memory_map] does, with the permissions the heap means to ask for
    in the register that [syscall_2] leaves alone. *)

Module PageKernel.

(** Cells of zeros. *)
Definition zero_cells (address : Z) (n : nat) : gmap Z Z := list_to_map ((fun i => (address + 8 * Z.of_nat i, 0)) <$> seq 0 n).

#[export] Instance page_maps : UserMaps (list Z) := {
  map_memory pages address length permissions :=
    match valid_user_memory_range address length with
    | None => (UINT64_MAX, ∅, pages)
    | Some rounded_length =>
        let new := (fun i => address + PAGE_SIZE * Z.of_nat i) <$> seq 0 (Z.to_nat (rounded_length / PAGE_SIZE)) in
        if negb (Z.ldiff permissions 7 =? 0) || existsb (fun page => bool_decide (page ∈ pages)) new
        then (UINT64_MAX, ∅, pages)
        else (address, zero_cells address (Z.to_nat (rounded_length / 8)), new ++ pages)
    end;
  third_register _ := 3;
}.

Definition empty : heap (list Z) := Heap ∅ 0 0 [].

Definition result {A} (r : option (outcome A * heap (list Z))) : option A :=
  match r with Some (Val a, _) => Some a | _ => None end.

Definition after {A} (r : option (outcome A * heap (list Z))) : heap (list Z) :=
  match r with Some (_, h) => h | None => empty end.

(** A program's first allocation: one page, at the address that is its size. *)
Definition started : heap (list Z) := after (malloc 100 empty).
Definition blocks : list block := [Block 4096 104 false; Block 4240 3912 true].

Example first_allocation : result (malloc 100 empty) = Some 4136.
Proof. vm_compute. reflexivity. Qed.

(** An allocation of more than a page: the header after it is not in mapped memory,
    since only one page has been mapped for it. *)
Example large_allocation_faults : malloc 5000 empty = None.
Proof. vm_compute. reflexivity. Qed.

(** Two allocations of 4000 bytes: the heap asks for the same page again. *)
Example second_page_refused : result (malloc 4000 (after (malloc 4000 empty))) = Some 0.
Proof. vm_compute. reflexivity. Qed.

(** A size whose rounding wraps around is given a block of no bytes. *)
Example huge_allocation_is_empty : result (malloc UINT64_MAX started) = Some (4240 + header_size).
Proof. vm_compute. reflexivity. Qed.

Lemma mapped_check (m : gmap Z Z) a n :
  forallb (fun i => bool_decide (is_Some (m !! (a + 8 * Z.of_nat i)))) (seq 0 n) = true -> a mod 8 = 0 ->
  mapped m a (a + 8 * Z.of_nat n).
Proof.
  intros Hf Ha x Hx Hx8. rewrite forallb_forall in Hf. specialize (Hf (Z.to_nat ((x - a) / 8))).
  replace (a + 8 * Z.of_nat (Z.to_nat ((x - a) / 8))) with x in Hf by (Z.div_mod_to_equations; lia).
  eapply bool_decide_unpack, Is_true_true_2, Hf. apply in_seq. Z.div_mod_to_equations; lia.
Qed.

Lemma page_heap_ok : heap_ok blocks started.
Proof.
  constructor.
  - vm_compute. reflexivity.
  - vm_compute. split_and!; reflexivity.
  - exists 8192. split; [vm_compute; split_and!; (reflexivity || discriminate)|]. split; [done|].
    apply (mapped_check _ 4096 512); vm_compute; reflexivity.
  - done.
Qed.

Lemma heap_refines_witness :
  heap_ok blocks started /\ allocations blocks !! 4136 = Some 104 /\
  (exists p n l' h', malloc 24 started = Some (Val p, h') /\ heap_ok l' h' /\
     allocations l' = <[p := n]> (allocations blocks)) /\
  exists l' h', free 4136 started = Some (Val tt, h') /\ heap_ok l' h' /\ allocations l' = delete 4136 (allocations blocks).
Proof.
  destruct (heap_refines blocks started page_heap_ok) as (_ & Hm & Hf). split; [exact page_heap_ok|]. split; [reflexivity|]. split.
  - destruct (Hm 24) as (p & n & l' & h' & E & Hk & _ & Ha & _); [lia | apply Exists_cons; right; apply Exists_cons; left; reflexivity |]. exists p, n, l', h'. exact (conj E (conj Hk Ha)).
  - destruct (Hf 4136 104) as (l' & h' & E & Hk & Ha & _); [reflexivity|]. exists l', h'. exact (conj E (conj Hk Ha)).
Defined.

End PageKernel.
