(* ===== verification/Sheet.v ===== *)
(** * The spreadsheet (apps/packages/dogesheet.c)

    The statics of the program are the record [program]: the cells [sheet[r][c]], row
    after row as the array lies in memory, the name of the file and the two file
    buffers.  The system calls are the class [SheetOs]; what the program shows is the
    sequence of its drawing calls.  A pointer into a text is the rest of the text. *)

From S2P Require Import Prelude CMonad CString Keyboard.

Definition MAX_ROWS : Z := 64.
Definition MAX_COLS : Z := 8.
Definition CELL_LEN : Z := 32.
Definition PATH_CAPACITY : Z := 256.
Definition FILE_BUF_SIZE : Z := 32768.
Definition VIEW_ROWS : Z := 17.

Definition COLOR_BACKGROUND : Z := 0x0C0C0C.
Definition COLOR_DARK_GRAY : Z := 0x404040.
Definition COLOR_CURSOR : Z := 0xFFFFFF.
Definition COLOR_WHITE : Z := 0xF0F0F0.
Definition COLOR_BRIGHT_GREEN : Z := 0x16C60C.
Definition COLOR_BRIGHT_CYAN : Z := 0x61D6D6.
Definition COLOR_BRIGHT_RED : Z := 0xE74856.
Definition COLOR_BRIGHT_ORANGE : Z := 0xFF8C3A.
Definition COLOR_BRIGHT_YELLOW : Z := 0xF9F1A5.

Inductive draw_op :=
  | Clear | Print (text : bytes) | PrintAt (text : bytes) (x y color : Z)
  | TextColor (color : Z) | BackgroundColor (color : Z).

(** The system calls: results are [uint64_t]; a call that stores through a pointer
    also yields what it stored. *)
Class SheetOs (W : Type) := {
  sh_exists : W -> bytes -> Z * W;
  sh_read : W -> bytes -> Z -> Z * bytes * W;
  sh_write : W -> bytes -> bytes -> Z * W;
  sh_create : W -> bytes -> Z * W;
  sh_input : W -> bytes -> Z -> Z * bytes * W;
  sh_key : W -> Z * W;
  sh_draw : W -> draw_op -> W;
}.

Record program (W : Type) := App {
  sheet : list bytes;
  sheet_file : bytes;
  file_buf : bytes;
  file_content : bytes;
  sys : W;
}.
Arguments App {W}.
Arguments sheet {W}.
Arguments sheet_file {W}.
Arguments file_buf {W}.
Arguments file_content {W}.
Arguments sys {W}.

(** ** Texts *)

Definition c_quote : Z := 34.

(** [str_strncpy] of library/string.h: at most [n - 1] characters, and zeros up to
    [n].  [copy] counts the characters that may still be copied. *)
Fixpoint ncopy_pad (dest : bytes) (i : Z) (src : bytes) (copy : nat) (n : nat) : option bytes :=
  match n with
  | O => Some dest
  | S n' =>
      match copy, src with
      | S copy', c :: src' =>
          if c =? 0 then dest ← wr dest i 0; ncopy_pad dest (i + 1) src O n'
          else dest ← wr dest i c; ncopy_pad dest (i + 1) src' copy' n'
      | S _, [] => None
      | O, _ => dest ← wr dest i 0; ncopy_pad dest (i + 1) src O n'
      end
  end.

Definition strncpy (dest src : bytes) (n : Z) : option bytes :=
  if n =? 0 then Some dest else ncopy_pad dest 0 src (Z.to_nat (n - 1)) (Z.to_nat n).

Definition is_trimmed (c : Z) : bool := (c =? c_nl) || (c =? c_cr) || (c =? c_space) || (c =? c_tab).

Definition trim_newline (str : bytes) : option bytes :=
  len ← strlen_loop str; trim_loop is_trimmed (Z.to_nat len) str.

(** [c == a || c == b] *)
Definition is_letter (c upper : Z) : bool := (c =? upper + 32) || (c =? upper).

Definition ends_with_slk (filename : bytes) : option bool :=
  len ← strlen_loop filename;
  if len <? 4 then Some false
  else
    e0 ← rd filename (len - 4);
    e1 ← rd filename (len - 3);
    e2 ← rd filename (len - 2);
    e3 ← rd filename (len - 1);
    Some ((e0 =? c_dot) && is_letter e1 83 && is_letter e2 76 && is_letter e3 75).

(** [for (i = 0; i < len; i++) padded[i] = text[i];] *)
Fixpoint copy_cells (k : nat) (i : Z) (padded text : bytes) : option bytes :=
  match k with
  | O => Some padded
  | S k' => c ← rd text i; padded ← wr padded i c; copy_cells k' (i + 1) padded text
  end.

Definition serialize_cell_display (text dest : bytes) (max_len : Z) : option bytes :=
  let padded := replicate 12 c_space ++ [0] in
  len ← strlen_loop text;
  padded ← copy_cells (Z.to_nat (Z.min len 12)) 0 padded text;
  dest ← strncpy dest padded max_len;
  wr dest (max_len - 1) 0.

(** ** Loading *)

(** [while ( *p is a digit ) { n = n * 10 + ( *p - '0'); p++; }] on an [int] *)
Fixpoint parse_number (p : bytes) (n : Z) : option (Z * bytes) :=
  match p with
  | [] => None
  | c :: p' =>
      if is_digit c then
        let n := n * 10 + (c - c_0) in
        if INT_MAX <? n then None else parse_number p' n
      else Some (n, p)
  end.

Definition ends_value (c : Z) : bool := (c =? c_quote) || (c =? c_nl) || (c =? c_cr) || (c =? 0).

Fixpoint parse_value (p : bytes) (v_idx : Z) (val_buf : bytes) : option (Z * bytes * bytes) :=
  match p with
  | [] => None
  | c :: p' =>
      if negb (ends_value c) && (v_idx <? CELL_LEN - 1) then
        val_buf ← wr val_buf v_idx c; parse_value p' (v_idx + 1) val_buf
      else Some (v_idx, val_buf, p)
  end.

(** [if ( *p == c ) p++;] *)
Definition skip_char (c : Z) (p : bytes) : option bytes :=
  match p with [] => None | x :: p' => Some (if x =? c then p' else p) end.

Record slk := Slk { s_row : Z; s_col : Z; s_val : bytes; s_has : bool }.

(** The fields of a line; every round moves [p] on. *)
Fixpoint parse_fields (fuel : nat) (p : bytes) (s : slk) : option slk :=
  match fuel with
  | O => None
  | S fuel' =>
      match p with
      | [] => None
      | c :: p' =>
          if (c =? 0) || (c =? c_nl) || (c =? c_cr) then Some s
          else if c =? 89 then (* Y *)
            '(r, p) ← parse_number p' 0;
            parse_fields fuel' p (Slk r (s_col s) (s_val s) (s_has s))
          else if c =? 88 then (* X *)
            '(n, p) ← parse_number p' 0;
            parse_fields fuel' p (Slk (s_row s) n (s_val s) (s_has s))
          else if c =? 75 then (* K *)
            p ← skip_char c_quote p';
            '(v_idx, val_buf, p) ← parse_value p 0 (s_val s);
            val_buf ← wr val_buf v_idx 0;
            p ← skip_char c_quote p;
            parse_fields fuel' p (Slk (s_row s) (s_col s) val_buf true)
          else parse_fields fuel' p' s
      end
  end.

(** [&sheet[r][c]] *)
Definition cell_index (r c : Z) : Z := r * MAX_COLS + c.

Definition parse_slk_line (line : bytes) (cells : list bytes) : option (list bytes) :=
  match line with
  | [] => None
  | c :: p =>
      if negb (c =? 67) then Some cells (* C *)
      else
        p ← skip_char 59 p;
        s ← parse_fields (S (length p)) p (Slk 0 0 (zeros 32) false);
        if s_has s && (0 <? s_row s) && (s_row s <=? MAX_ROWS) && (0 <? s_col s) && (s_col s <=? MAX_COLS) then
          let at_ := cell_index (s_row s - 1) (s_col s - 1) in
          text ← rd cells at_;
          text ← strncpy text (s_val s) (CELL_LEN - 1);
          text ← wr text (CELL_LEN - 1) 0;
          wr cells at_ text
        else Some cells
  end.

Section Program.
Context {W : Type} `{SheetOs W}.

Abbreviation Ap := (M (program W)).

Definition call {A} (f : W -> A * W) : Ap A := fun s =>
  let '(a, w) := f (sys s) in
  Some (Val a, App (sheet s) (sheet_file s) (file_buf s) (file_content s) w).

Definition draw (op : draw_op) : Ap unit := call (fun w => (tt, sh_draw w op)).

Definition set_sheet (cells : list bytes) : Ap unit := modify (fun s =>
  App cells (sheet_file s) (file_buf s) (file_content s) (sys s)).
Definition set_path (path : bytes) : Ap unit := modify (fun s =>
  App (sheet s) path (file_buf s) (file_content s) (sys s)).
Definition set_buf (b : bytes) : Ap unit := modify (fun s =>
  App (sheet s) (sheet_file s) b (file_content s) (sys s)).
Definition set_content (b : bytes) : Ap unit := modify (fun s =>
  App (sheet s) (sheet_file s) (file_buf s) b (sys s)).

(** Both loops of [memset] over the cells *)
Definition clear_sheet : Ap unit := set_sheet (replicate 512 (zeros 32)).

(** [file_buf[i]] ends a line: [i] is one round of the loop over the file. *)
Fixpoint load_lines (k : nat) (i line_start : Z) : Ap unit :=
  match k with
  | O => mret tt
  | S k' =>
      buf ← gets file_buf;
      c ← lift (rd buf i);
      if (c =? c_nl) || (c =? c_cr) || (c =? 0) then
        buf ← lift (wr buf i 0);
        first ← lift (rd buf line_start);
        cells ← gets sheet;
        cells ← (if negb (first =? 0) then lift (parse_slk_line (drop (Z.to_nat line_start) buf) cells)
                 else mret cells);
        set_sheet cells;;
        buf ← lift (wr buf i c);
        set_buf buf;;
        load_lines k' (i + 1) (i + 1)
      else load_lines k' (i + 1) line_start
  end.

Definition load_slk_file : Ap unit :=
  clear_sheet;;
  path ← gets sheet_file;
  there ← call (fun w => sh_exists w path);
  if there =? 0 then mret tt else
  '(rc, data) ← call (fun w => sh_read w path (FILE_BUF_SIZE - 1));
  buf ← lift (blit (zeros (Z.to_nat FILE_BUF_SIZE)) 0 data);
  set_buf buf;;
  let n := s32 rc in
  if n <=? 0 then mret tt else
  buf ← lift (wr buf n 0);
  set_buf buf;;
  load_lines (Z.to_nat (n + 1)) 0 0.

(** ** Saving *)

Definition append_text (capacity length : Z) (text : bytes) : Ap Z :=
  text_length ← lift (strlen_loop text);
  if (capacity <=? length) || (capacity - length <=? text_length) then exit 0 else
  content ← gets file_content;
  content ← lift (blit content length (take (Z.to_nat text_length) text));
  content ← lift (wr content (length + text_length) 0);
  set_content content;;
  mret (length + text_length).

(** One cell of [save_slk_file] *)
Definition save_cell (r c : Z) (length : Z) : Ap Z :=
  cells ← gets sheet;
  text ← lift (rd cells (cell_index r c));
  first ← lift (rd text 0);
  if first =? 0 then mret length else
  row_text ← lift (str_u64toa (r + 1) (zeros 21));
  column_text ← lift (str_u64toa (c + 1) (zeros 21));
  length ← append_text FILE_BUF_SIZE length (clit "C;Y");
  length ← append_text FILE_BUF_SIZE length row_text;
  length ← append_text FILE_BUF_SIZE length (clit ";X");
  length ← append_text FILE_BUF_SIZE length column_text;
  length ← append_text FILE_BUF_SIZE length (lit ";K" ++ [c_quote; 0]);
  length ← append_text FILE_BUF_SIZE length text;
  append_text FILE_BUF_SIZE length [c_quote; c_nl; 0].

(** The two loops over the cells, row after row: [k] cells from cell [i] on *)
Fixpoint save_cells (k : nat) (i length : Z) : Ap Z :=
  match k with
  | O => mret length
  | S k' =>
      length ← save_cell (i / MAX_COLS) (i mod MAX_COLS) length;
      save_cells k' (i + 1) length
  end.

Definition save_slk_file : Ap Z := fn (
  set_content (zeros (Z.to_nat FILE_BUF_SIZE));;
  length ← append_text FILE_BUF_SIZE 0 (lit "ID;P" ++ [c_nl; 0]);
  length ← save_cells 512 0 length;
  length ← append_text FILE_BUF_SIZE length (lit "E" ++ [c_nl; 0]);
  content ← gets file_content;
  data ← lift (slice content 0 length);
  path ← gets sheet_file;
  rc ← call (fun w => sh_write w path data);
  mret (if 0 <=? s64 rc then 1 else 0)).

(** ** The program *)

(** [print("...\n")] *)
Definition text (t : string) : bytes := clit t.
Definition line (t : string) : bytes := lit t ++ [c_nl; 0].

Definition println (t : bytes) : Ap unit := draw (Print t);; draw (Print [c_nl; 0]).

Definition rule : string := "  ==========================================================================================================".
Definition dashes : string := "  ---------------------------------------------------------".
Definition columns : string := "       |     A      |     B      |     C      |     D      |     E      |     F      |     G      |     H".

(** The label [ N ] of a row *)
Definition row_label (r : Z) : option bytes :=
  row_number ← str_u64toa (r + 1) (zeros 21);
  label ← blit (zeros 24) 0 [c_space; 0];
  label ← str_strcat label row_number;
  str_strcat label (clit " ").

Definition draw_cell (cur_r cur_c r y c : Z) : Ap unit :=
  cells ← gets sheet;
  cell ← lift (rd cells (cell_index r c));
  cell_disp ← lift (serialize_cell_display cell (zeros 16) 16);
  let x_pos := 7 + c * 13 in
  (if (r =? cur_r) && (c =? cur_c) then
     draw (PrintAt (text ">") (x_pos - 1) y COLOR_CURSOR);;
     draw (PrintAt cell_disp x_pos y COLOR_BRIGHT_CYAN)
   else
     draw (PrintAt (text " ") (x_pos - 1) y COLOR_BACKGROUND);;
     draw (PrintAt cell_disp x_pos y COLOR_WHITE));;
  draw (PrintAt (text "|") (x_pos + 12) y COLOR_DARK_GRAY).

Definition draw_row (cur_r cur_c first_visible_row visible_row : Z) : Ap unit :=
  let r := first_visible_row + visible_row in
  let y := 5 + visible_row in
  label ← lift (row_label r);
  draw (PrintAt label 0 y COLOR_BRIGHT_GREEN);;
  draw (PrintAt (text "|") 5 y COLOR_DARK_GRAY);;
  for_loop (Z.to_nat MAX_COLS) 0 1 (draw_cell cur_r cur_c r y).

Definition redraw (cur_r cur_c first_visible_row : Z) : Ap unit :=
  draw Clear;;
  draw (TextColor COLOR_BRIGHT_ORANGE);;
  draw (Print (text "  [Dogesheet v1.0 - File: "));;
  draw (TextColor COLOR_BRIGHT_CYAN);;
  path ← gets sheet_file;
  draw (Print path);;
  draw (TextColor COLOR_BRIGHT_ORANGE);;
  draw (Print (line "]"));;
  draw (TextColor COLOR_DARK_GRAY);;
  draw (Print (line rule));;
  draw (TextColor COLOR_BRIGHT_YELLOW);;
  draw (Print (line columns));;
  draw (TextColor COLOR_DARK_GRAY);;
  draw (Print (line rule));;
  for_loop (Z.to_nat (Z.min VIEW_ROWS (MAX_ROWS - first_visible_row))) 0 1 (draw_row cur_r cur_c first_visible_row);;
  draw (PrintAt (text rule) 0 22 COLOR_DARK_GRAY);;
  draw (PrintAt (text "  [W/S/A/D/Arrows] Move | [E] Edit | [Q] Save and exit") 0 23 COLOR_BRIGHT_GREEN);;
  draw (PrintAt (text "  Selected value: ") 0 24 COLOR_BRIGHT_YELLOW);;
  cells ← gets sheet;
  cell ← lift (rd cells (cell_index cur_r cur_c));
  draw (PrintAt cell 18 24 COLOR_BRIGHT_CYAN).

(** [do { r_str[r_idx++] = '0' + r_val % 10; r_val /= 10; } while (r_val > 0 && r_idx < 7);] *)
Fixpoint put_digits (fuel : nat) (r_val r_idx : Z) (r_str : bytes) : option (Z * bytes) :=
  match fuel with
  | O => None
  | S fuel' =>
      r_str ← wr r_str r_idx (c_0 + r_val mod 10);
      let r_val := r_val / 10 in
      if (0 <? r_val) && (r_idx + 1 <? 7) then put_digits fuel' r_val (r_idx + 1) r_str
      else Some (r_idx + 1, r_str)
  end.

(** [k] exchanges of [r_str[i]] and [r_str[r_idx - 1 - i]] *)
Fixpoint mirror (k : nat) (i r_idx : Z) (r_str : bytes) : option bytes :=
  match k with
  | O => Some r_str
  | S k' =>
      tmp ← rd r_str i;
      other ← rd r_str (r_idx - 1 - i);
      r_str ← wr r_str i other;
      r_str ← wr r_str (r_idx - 1 - i) tmp;
      mirror k' (i + 1) r_idx r_str
  end.

Definition row_text (cur_r : Z) : option bytes :=
  '(r_idx, r_str) ← put_digits 7 (cur_r + 1) 0 (zeros 8);
  r_str ← wr r_str r_idx 0;
  mirror (Z.to_nat (r_idx / 2)) 0 r_idx r_str.

Definition edit_cell (cur_r cur_c : Z) : Ap unit :=
  draw (Print (replicate 20 c_nl ++ [0]));;
  draw (TextColor COLOR_WHITE);;
  draw (Print (text "  Edit ["));;
  draw (TextColor COLOR_BRIGHT_YELLOW);;
  draw (Print [65 + cur_c; 0]);;
  r_str ← lift (row_text cur_r);
  draw (Print r_str);;
  draw (TextColor COLOR_WHITE);;
  draw (Print (text "]: "));;
  draw (TextColor COLOR_BRIGHT_CYAN);;
  '(rc, typed) ← call (fun w => sh_input w (text "") (CELL_LEN - 1));
  cells ← gets sheet;
  let at_ := cell_index cur_r cur_c in
  cell ← lift (rd cells at_);
  cell ← lift (blit cell 0 typed);
  cell ← lift (trim_newline cell);
  cell ← lift (wr cell (CELL_LEN - 1) 0);
  cells ← lift (wr cells at_ cell);
  set_sheet cells;;
  saved ← save_slk_file;
  if saved =? 0 then
    println (c_nl :: text "Unable to save spreadsheet.");;
    call sh_key;; mret tt
  else mret tt.

Record cursor := Cursor { cur_r : Z; cur_c : Z; first_visible_row : Z; needs_redraw : bool }.

Definition is_key (key lower upper arrow : Z) : bool := (key =? lower) || (key =? upper) || (key =? arrow).

(** The end of a round: the selected row is in view. *)
Definition scroll (u : cursor) : cursor :=
  if cur_r u <? first_visible_row u then Cursor (cur_r u) (cur_c u) (cur_r u) (needs_redraw u)
  else if first_visible_row u + VIEW_ROWS <=? cur_r u
  then Cursor (cur_r u) (cur_c u) (cur_r u - VIEW_ROWS + 1) (needs_redraw u)
  else u.

Definition move (u : cursor) (dr dc : Z) (allowed : bool) : cursor :=
  if allowed then Cursor (cur_r u + dr) (cur_c u + dc) (first_visible_row u) true else u.

(** One round of the main loop: the next state, or the code of [exit]. *)
Definition key_round (u : cursor) : Ap (cursor + Z) :=
  (if needs_redraw u then redraw (cur_r u) (cur_c u) (first_visible_row u) else mret tt);;
  let u := Cursor (cur_r u) (cur_c u) (first_visible_row u) false in
  key ← call sh_key;
  if key =? 0 then mret (inl u) else
  if is_key key 119 87 KEY_UP then mret (inl (scroll (move u (-1) 0 (0 <? cur_r u))))
  else if is_key key 115 83 KEY_DOWN then mret (inl (scroll (move u 1 0 (cur_r u <? MAX_ROWS - 1))))
  else if is_key key 97 65 KEY_LEFT then mret (inl (scroll (move u 0 (-1) (0 <? cur_c u))))
  else if is_key key 100 68 KEY_RIGHT then mret (inl (scroll (move u 0 1 (cur_c u <? MAX_COLS - 1))))
  else if (key =? 101) || (key =? 69) then
    edit_cell (cur_r u) (cur_c u);;
    mret (inl (scroll (Cursor (cur_r u) (cur_c u) (first_visible_row u) true)))
  else if (key =? 113) || (key =? 81) then
    saved ← save_slk_file;
    if saved =? 0 then println (text "Unable to save spreadsheet.");; mret (inr 1)
    else draw Clear;; mret (inr 0)
  else mret (inl (scroll u)).

(** [input("", buffer, sizeof(buffer) - 1); trim_newline(buffer);] *)
Definition input_path (buffer : bytes) : Ap bytes :=
  '(rc, typed) ← call (fun w => sh_input w (text "") (PATH_CAPACITY - 1));
  buffer ← lift (blit buffer 0 typed);
  lift (trim_newline buffer).

(** The new file of [[N]]: the code of [exit], if it ends the program. *)
Definition new_sheet : Ap (option Z) :=
  draw Clear;;
  draw (TextColor COLOR_BRIGHT_ORANGE);;
  draw (Print (line "  === Dogesheet v1.0 - New Sheet Setup ==="));;
  draw (TextColor COLOR_DARK_GRAY);;
  draw (Print (line dashes));;
  draw (TextColor COLOR_WHITE);;
  draw (Print (text "  Enter new .slk filename: "));;
  draw (TextColor COLOR_BRIGHT_CYAN);;
  new_path ← input_path (zeros 256);
  slk ← lift (ends_with_slk new_path);
  if negb slk then
    draw Clear;;
    draw (TextColor COLOR_BRIGHT_RED);;
    draw (Print (line "  [ERROR] File must end in .slk. Exiting..."));;
    mret (Some 0)
  else
    path ← gets sheet_file;
    path ← lift (str_strcpy path new_path);
    set_path path;;
    clear_sheet;;
    rc ← call (fun w => sh_create w path);
    ok ← (if s64 rc <? 0 then mret 0 else save_slk_file);
    if ok =? 0 then println (text "Unable to create or save spreadsheet.");; mret (Some 1)
    else mret None.

(** The keys [[N]] and [[Q]] *)
Definition choose_new (rounds : positive) : Ap (option Z) :=
  while_true rounds (fun _ : unit =>
    key ← call sh_key;
    if (key =? 113) || (key =? 81) then draw Clear;; mret (inr (Some 0))
    else if (key =? 110) || (key =? 78) then r ← new_sheet; mret (inr r)
    else mret (inl tt)) tt.

(** [sheet_file] at the start of the program is all zeros. *)
Definition open_sheet (rounds : positive) : Ap (option Z) :=
  set_path (zeros 256);;
  draw (BackgroundColor COLOR_BACKGROUND);;
  draw (TextColor COLOR_BRIGHT_ORANGE);;
  draw Clear;;
  draw (Print (line "  === Dogesheet v1.0 ==="));;
  draw (TextColor COLOR_DARK_GRAY);;
  draw (Print (line dashes));;
  draw (TextColor COLOR_WHITE);;
  draw (Print (text "  Enter spreadsheet file path (.slk required): "));;
  draw (TextColor COLOR_BRIGHT_CYAN);;
  path ← gets sheet_file;
  path ← input_path path;
  set_path path;;
  slk ← lift (ends_with_slk path);
  there ← (if (slk : bool) then call (fun w => sh_exists w path) else mret 0);
  if there =? 0 then
    draw Clear;;
    draw (TextColor COLOR_BRIGHT_ORANGE);;
    draw (Print (line "  === Dogesheet v1.0 ==="));;
    draw (TextColor COLOR_DARK_GRAY);;
    draw (Print (lit dashes ++ [c_nl; c_nl; 0]));;
    (if negb slk then
       draw (TextColor COLOR_BRIGHT_RED);;
       draw (Print (line "  [ERROR] Invalid file format or missing .slk extension!"))
     else
       draw (TextColor COLOR_WHITE);;
       draw (Print (text "  File not found: "));;
       draw (TextColor COLOR_BRIGHT_CYAN);;
       draw (Print path);;
       draw (Print [c_nl; 0]));;
    draw (TextColor COLOR_BRIGHT_GREEN);;
    draw (Print (c_nl :: line "  [N] Make a new .slk file  |  [Q] Exit"));;
    choose_new rounds
  else load_slk_file;; mret None.

Definition start (rounds : positive) : Ap Z :=
  r ← open_sheet rounds;
  match r with
  | Some code => mret code
  | None => while_true rounds key_round (Cursor 0 0 0 true)
  end.

End Program.
