(* ===== verification/SheetProofs.v ===== *)
(** * Saving and loading a spreadsheet

    The file of a sheet as one expression ([slk_file]); saving stores exactly it, and
    loading it gives back the texts of the cells. *)

From S2P Require Import Prelude CMonad CString Sheet.

(** ** The file of a sheet *)

Definition record_text (i : Z) (text : bytes) : bytes :=
  lit "C;Y" ++ dec (i / MAX_COLS + 1) ++ lit ";X" ++ dec (i mod MAX_COLS + 1) ++ lit ";K" ++ [c_quote] ++ text ++ [c_quote].

Definition cell_record (i : Z) (text : bytes) : bytes :=
  match text with [] => [] | _ => record_text i text ++ [c_nl] end.

Fixpoint cell_records (i : Z) (texts : list bytes) : bytes :=
  match texts with [] => [] | text :: texts' => cell_record i text ++ cell_records (i + 1) texts' end.

Definition slk_file (texts : list bytes) : bytes := lit "ID;P" ++ [c_nl] ++ cell_records 0 texts ++ lit "E" ++ [c_nl].

(** A cell holds a text. *)
Definition holds (cell text : bytes) : Prop := zlen cell = CELL_LEN /\ cstr cell text.

Definition holds_all (cells texts : list bytes) : Prop := Forall2 holds cells texts /\ length cells = 512%nat.

(** A text that the file format can carry. *)
Definition plain (text : bytes) : Prop := Forall (fun c => ends_value c = false) text /\ zlen text <= CELL_LEN - 2.

(** ** Lines *)

Lemma parse_number_digits s n c rest :
  Forall (fun c => is_digit c = true) s -> is_digit c = false -> 0 <= n ->
  foldl (fun a c => a * 10 + (c - c_0)) n s <= INT_MAX ->
  parse_number (s ++ c :: rest) n = Some (foldl (fun a c => a * 10 + (c - c_0)) n s, c :: rest).
Proof.
  revert n. induction s as [|d s IH]; intros n Hs Hc Hn Hb; cbn [app parse_number foldl] in *; [by rewrite Hc|].
  apply Forall_cons in Hs as [Hd Hs]. rewrite Hd. pose proof (is_digit_range _ Hd) as Hr.
  assert (n * 10 + (d - c_0) <= INT_MAX) as Hle.
  { revert Hb. rewrite dval_cons_acc. pose proof (dval_nonneg s Hs). pose proof (Z.pow_pos_nonneg 10 (zlen s) ltac:(lia) (zlen_nonneg s)). nia. }
  replace (INT_MAX <? _) with false by lia. apply IH; [done..|lia|done].
Qed.

Lemma parse_number_dec v c rest :
  0 <= v <= INT_MAX -> is_digit c = false -> parse_number (dec v ++ c :: rest) 0 = Some (v, c :: rest).
Proof.
  intros Hv Hc. assert (dval (dec v) = v) as Ev by (apply dval_dec; unfold is_u64, INT_MAX in *; lia).
  pose proof (parse_number_digits (dec v) 0 c rest (dec_digits v ltac:(lia)) Hc ltac:(lia)) as H.
  unfold dval in Ev. rewrite Ev in H. apply H. lia.
Qed.

Lemma parse_value_text p text q c rest :
  Forall (fun c => ends_value c = false) text -> ends_value c = true -> zlen p + zlen text <= CELL_LEN - 1 -> (length text <= length q)%nat ->
  parse_value (text ++ c :: rest) (zlen p) (p ++ q) = Some (zlen p + zlen text, p ++ text ++ drop (length text) q, c :: rest).
Proof.
  revert p q. induction text as [|x text IH]; intros p q Ht Hc Hl Hq; cbn [app parse_value].
  { rewrite Hc. change (zlen (@nil Z)) with 0. cbn [negb andb length drop app]. by rewrite Z.add_0_r. }
  apply Forall_cons in Ht as [Hx Ht]. rewrite Hx. rewrite zlen_cons in Hl. pose proof (zlen_nonneg text).
  replace (zlen p <? CELL_LEN - 1) with true by lia. cbn [negb andb]. destruct q as [|y q]; [cbn in Hq; lia|].
  rewrite wr_mid. cbn [mbind option_bind]. specialize (IH (p ++ [x]) q Ht Hc).
  rewrite zlen_app in IH. change (zlen [x]) with 1 in IH. rewrite <- !app_assoc in IH. cbn [app] in IH.
  rewrite IH by (cbn in Hq; lia). cbn [length drop]. do 3 f_equal. rewrite zlen_cons. lia.
Qed.

Lemma pad_zeros k p q src :
  (k <= length q)%nat -> ncopy_pad (p ++ q) (zlen p) src O k = Some (p ++ zeros k ++ drop k q).
Proof.
  revert p q. induction k as [|k IH]; intros p q Hk; cbn [ncopy_pad zeros replicate app drop]; [done|].
  destruct q as [|y q]; [cbn in Hk; lia|]. rewrite wr_mid. cbn [mbind option_bind drop].
  specialize (IH (p ++ [0]) q). rewrite zlen_app in IH. change (zlen [0]) with 1 in IH. rewrite <- !app_assoc in IH. cbn [app] in IH.
  apply IH. cbn in Hk. lia.
Qed.

Lemma ncopy_pad_text p q text r m n :
  nozero text -> (length text <= m)%nat -> (m < n)%nat -> (n <= length q)%nat ->
  ncopy_pad (p ++ q) (zlen p) (text ++ 0 :: r) m n = Some (p ++ text ++ zeros (n - length text) ++ drop n q).
Proof.
  revert p q m n. induction text as [|c text IH]; intros p q m n Ht Hm Hmn Hn.
  { destruct n as [|n]; [lia|]. cbn [app length Nat.sub]. destruct m as [|m].
    { by apply (pad_zeros (S n) p q (0 :: r)). }
    rewrite <- (pad_zeros (S n) p q (0 :: r)) by done. reflexivity. }
  apply Forall_cons in Ht as [Hc Ht]. destruct m as [|m]; [cbn in Hm; lia|]. destruct n as [|n]; [lia|].
  destruct q as [|y q]; [cbn in Hn; lia|]. cbn [app ncopy_pad length Nat.sub drop]. rewrite (eqb_neq c 0 Hc), wr_mid.
  cbn [mbind option_bind]. specialize (IH (p ++ [c]) q m n Ht). rewrite zlen_app in IH. change (zlen [c]) with 1 in IH.
  rewrite <- !app_assoc in IH. cbn [app] in IH. rewrite IH by (cbn in *; lia). done.
Qed.

Lemma ends_value_nozero text : Forall (fun c => ends_value c = false) text -> nozero text.
Proof. intros Ht. eapply Forall_impl; [exact Ht|]. by intros c Hc ->. Qed.

(** The cell that a text is stored into. *)
Definition stored_cell (text : bytes) : bytes := text ++ zeros (32 - length text).

Lemma store_text cell text r :
  zlen cell = CELL_LEN -> plain text ->
  (c ← strncpy cell (text ++ 0 :: r) (CELL_LEN - 1); wr c (CELL_LEN - 1) 0) = Some (stored_cell text).
Proof.
  intros Hl [Ht Hs]. unfold strncpy. change (CELL_LEN - 1 =? 0) with false. cbv iota.
  pose proof (ncopy_pad_text [] cell text r 30 31 (ends_value_nozero _ Ht)) as E. cbn [app] in E.
  change (Z.to_nat (CELL_LEN - 1 - 1)) with 30%nat. change (Z.to_nat (CELL_LEN - 1)) with 31%nat.
  change (zlen (@nil Z)) with 0 in E. unfold zlen, CELL_LEN in *. rewrite E by lia. cbn [mbind option_bind].
  destruct (drop 31 cell) as [|y [|z d]] eqn:Ed; apply (f_equal length) in Ed; rewrite length_drop in Ed; cbn in Ed; try lia.
  rewrite (app_assoc text). pose proof (wr_mid (text ++ zeros (31 - length text)) y [] 0) as Ew.
  replace (zlen (text ++ zeros (31 - length text))) with 31 in Ew by (unfold zeros; zs). change (32 - 1) with 31. rewrite Ew.
  unfold stored_cell, zeros. replace (32 - length text)%nat with (S (31 - length text)) by lia.
  by rewrite replicate_S_end, <- app_assoc.
Qed.

(** The rounds of the loop over the fields of a line. *)
Lemma field_row fuel v c rest s :
  0 <= v <= INT_MAX -> is_digit c = false ->
  parse_fields (S fuel) (89 :: dec v ++ c :: rest) s = parse_fields fuel (c :: rest) (Slk v (s_col s) (s_val s) (s_has s)).
Proof.
  intros Hv Hc. transitivity ('(r, p) ← parse_number (dec v ++ c :: rest) 0;
    parse_fields fuel p (Slk r (s_col s) (s_val s) (s_has s))); [reflexivity|]. by rewrite parse_number_dec.
Qed.

Lemma field_col fuel v c rest s :
  0 <= v <= INT_MAX -> is_digit c = false ->
  parse_fields (S fuel) (88 :: dec v ++ c :: rest) s = parse_fields fuel (c :: rest) (Slk (s_row s) v (s_val s) (s_has s)).
Proof.
  intros Hv Hc. transitivity ('(r, p) ← parse_number (dec v ++ c :: rest) 0;
    parse_fields fuel p (Slk (s_row s) r (s_val s) (s_has s))); [reflexivity|]. by rewrite parse_number_dec.
Qed.

Lemma field_value fuel text rest r c h :
  plain text ->
  parse_fields (S fuel) (75 :: c_quote :: text ++ c_quote :: rest) (Slk r c (zeros 32) h) =
  parse_fields fuel rest (Slk r c (stored_cell text) true).
Proof.
  intros [Ht Hl]. transitivity ('(v_idx, val_buf, p) ← parse_value (text ++ c_quote :: rest) 0 (zeros 32);
    val_buf ← wr val_buf v_idx 0; p ← skip_char c_quote p; parse_fields fuel p (Slk r c val_buf true)); [reflexivity|].
  pose proof (parse_value_text [] text (zeros 32) c_quote rest Ht eq_refl) as E. cbn [app] in E.
  change (zlen (@nil Z)) with 0 in E. unfold zlen, CELL_LEN in *.
  assert (length (zeros 32) = 32%nat) as E32 by done. rewrite E by lia. cbn [mbind option_bind].
  change (zeros 32) with (replicate 32 0). rewrite drop_replicate. fold (zeros (32 - length text)). fold (stored_cell text).
  replace (wr (stored_cell text) _ 0) with (Some (stored_cell text)); [reflexivity|].
  unfold stored_cell. destruct (32 - length text)%nat as [|k] eqn:Ek; [lia|]. cbn [zeros replicate].
  rewrite Z.add_0_l. symmetry. apply (wr_mid text 0 (replicate k 0) 0).
Qed.

Lemma parse_fields_record i text post fuel :
  0 <= i < 512 -> plain text -> (6 <= fuel)%nat ->
  parse_fields fuel (drop 2 (record_text i text) ++ 0 :: post) (Slk 0 0 (zeros 32) false) =
  Some (Slk (i / MAX_COLS + 1) (i mod MAX_COLS + 1) (stored_cell text) true).
Proof.
  intros Hi Ht Hf. do 6 (destruct fuel as [|fuel]; [lia|]).
  assert (0 <= i / MAX_COLS < 64) as Hr by (unfold MAX_COLS; split; [apply Z.div_pos; lia | apply Z.div_lt_upper_bound; lia]).
  assert (0 <= i mod MAX_COLS < 8) as Hc by (unfold MAX_COLS; apply Z.mod_pos_bound; lia).
  unfold record_text. change (lit "C;Y") with [67; 59; 89]. change (lit ";X") with [59; 88]. change (lit ";K") with [59; 75].
  cbn [app drop]. rewrite <- !app_assoc. cbn [app]. rewrite <- !app_assoc. cbn [app].
  rewrite field_row by (unfold INT_MAX; first [lia | done]).
  change (parse_fields (S (S (S (S (S fuel))))) (59 :: ?p) ?s) with (parse_fields (S (S (S (S fuel)))) p s).
  rewrite field_col by (unfold INT_MAX; first [lia | done]).
  change (parse_fields (S (S (S fuel))) (59 :: ?p) ?s) with (parse_fields (S (S fuel)) p s).
  cbn [s_row s_col s_val s_has]. rewrite <- app_assoc. cbn [app]. by rewrite field_value.
Qed.

Lemma parse_record i text post cells :
  0 <= i < 512 -> plain text -> zlen cells = 512 -> Forall (fun c => zlen c = CELL_LEN) cells ->
  parse_slk_line (record_text i text ++ 0 :: post) cells = Some (<[Z.to_nat i := stored_cell text]> cells).
Proof.
  intros Hi Ht Hl Hc. assert (exists p, record_text i text = 67 :: 59 :: p /\ drop 2 (record_text i text) = p /\ (6 <= length p)%nat) as (p & E & Ed & Hp).
  { exists (89 :: dec (i / MAX_COLS + 1) ++ lit ";X" ++ dec (i mod MAX_COLS + 1) ++ lit ";K" ++ [c_quote] ++ text ++ [c_quote]).
    split_and!; [reflexivity..|]. cbn [length]. rewrite !length_app. change (length (lit ";X")) with 2%nat.
    change (length (lit ";K")) with 2%nat. cbn [length]. lia. }
  rewrite E. cbn [app]. unfold parse_slk_line. change (negb (67 =? 67)) with false. cbv iota.
  change (skip_char 59 (59 :: p ++ 0 :: post)) with (Some (p ++ 0 :: post)). cbn [mbind option_bind].
  rewrite <- Ed, parse_fields_record by (first [done | rewrite Ed, length_app; cbn; lia]).
  cbn [mbind option_bind s_row s_col s_val s_has andb].
  assert (0 <= i / MAX_COLS < 64) as Hr by (unfold MAX_COLS; split; [apply Z.div_pos; lia | apply Z.div_lt_upper_bound; lia]).
  assert (0 <= i mod MAX_COLS < 8) as Hm by (unfold MAX_COLS; apply Z.mod_pos_bound; lia).
  unfold MAX_ROWS. replace (0 <? i / MAX_COLS + 1) with true by lia. replace (i / MAX_COLS + 1 <=? 64) with true by lia.
  replace (0 <? i mod MAX_COLS + 1) with true by lia. replace (i mod MAX_COLS + 1 <=? MAX_COLS) with true by (unfold MAX_COLS in *; lia).
  cbn [andb]. rewrite !Z.add_simpl_r.
  replace (cell_index (i / MAX_COLS) (i mod MAX_COLS)) with i by (unfold cell_index, MAX_COLS; pose proof (Z.div_mod i 8); lia).
  destruct (rd_is_Some cells i) as [cell Ecell]; [lia|]. rewrite Ecell. cbn [mbind option_bind].
  assert (zlen cell = CELL_LEN) as Hcell.
  { rewrite rd_lookup in Ecell by lia. exact (Forall_lookup_1 _ _ _ _ Hc Ecell). }
  unfold stored_cell at 1. destruct (32 - length text)%nat as [|k] eqn:Ek; [destruct Ht as [_ Ht]; unfold zlen, CELL_LEN in Ht; lia|].
  cbn [zeros replicate]. pose proof (store_text cell text (replicate k 0) Hcell Ht) as Es.
  destruct (strncpy cell _ _) as [c1|]; [|done]. cbn [mbind option_bind] in *. rewrite Es. cbn [mbind option_bind].
  by rewrite wr_total by lia.
Qed.

(** ** Loading *)

Definition ends_line (c : Z) : bool := (c =? c_nl) || (c =? c_cr) || (c =? 0).

Section Load.
Context {W : Type} `{SheetOs W}.
Implicit Type s : program W.

Lemma skip_rounds k s pre l x post start :
  file_buf s = pre ++ l ++ x :: post -> Forall (fun c => ends_line c = false) l ->
  load_lines (length l + k) (zlen pre) start s = load_lines k (zlen pre + zlen l) start s.
Proof.
  revert pre. induction l as [|c l IH]; intros pre Hb Hl; [change (zlen (@nil Z)) with 0; by rewrite Z.add_0_r|].
  apply Forall_cons in Hl as [Hc Hl]. cbn [length Nat.add load_lines]. rewrite bind_gets, Hb. cbn [app].
  erewrite bind_lift by apply rd_mid. unfold ends_line in Hc. rewrite Hc.
  specialize (IH (pre ++ [c])). rewrite zlen_app in IH. change (zlen [c]) with 1 in IH.
  rewrite IH by (first [done | by rewrite Hb, <- app_assoc]). f_equal. rewrite zlen_cons. lia.
Qed.

Definition with_cells (cells : list bytes) s : program W := App cells (sheet_file s) (file_buf s) (file_content s) (sys s).

(** One line of the file. *)
Lemma load_line k s pre l post x cells :
  file_buf s = pre ++ l ++ x :: post -> Forall (fun c => ends_line c = false) l -> ends_line x = true ->
  (if bool_decide (l = []) then Some (sheet s) else parse_slk_line (l ++ 0 :: post) (sheet s)) = Some cells ->
  load_lines (length l + S k) (zlen pre) (zlen pre) s =
  load_lines k (zlen pre + zlen l + 1) (zlen pre + zlen l + 1) (with_cells cells s).
Proof.
  intros Hb Hl Hx Hp. rewrite (skip_rounds _ _ _ _ _ _ _ Hb Hl). cbn [load_lines]. rewrite bind_gets, Hb, app_assoc.
  replace (zlen pre + zlen l) with (zlen (pre ++ l)) by (by rewrite zlen_app).
  erewrite bind_lift by apply rd_mid. unfold ends_line in Hx. rewrite Hx. erewrite bind_lift by apply wr_mid.
  rewrite <- app_assoc.
  assert (exists c, rd (pre ++ l ++ 0 :: post) (zlen pre) = Some c /\ (c =? 0) = bool_decide (l = [])) as (c & Ec & E0).
  { destruct l as [|c l]; [exists 0; split; [apply rd_mid | done]|]. exists c. cbn [app]. split; [apply rd_mid|].
    apply Forall_cons in Hl as [Hc _]. rewrite bool_decide_eq_false_2 by done. unfold ends_line in Hc. lia. }
  erewrite bind_lift by exact Ec. rewrite bind_gets, E0.
  replace (drop (Z.to_nat (zlen pre)) (pre ++ l ++ 0 :: post)) with (l ++ 0 :: post)
    by (unfold zlen; by rewrite Nat2Z.id, drop_app_length).
  rewrite app_assoc.
  destruct (bool_decide (l = [])); cbn [negb].
  - injection Hp as ->. rewrite bind_ret. unfold set_sheet at 1. rewrite bind_modify. erewrite bind_lift by apply wr_mid.
    unfold set_buf. rewrite bind_modify. f_equal. unfold with_cells. cbn. f_equal. by rewrite Hb, <- app_assoc.
  - mlift Hp. unfold set_sheet at 1. rewrite bind_modify. erewrite bind_lift by apply wr_mid.
    unfold set_buf. rewrite bind_modify. f_equal. unfold with_cells. cbn. f_equal. by rewrite Hb, <- app_assoc.
Qed.

Lemma digit_ends c : is_digit c = true -> ends_line c = false.
Proof. intros Hc%is_digit_range. unfold ends_line, c_nl, c_cr. unfold c_0, c_9 in *. lia. Qed.

Lemma record_line i text :
  0 <= i -> plain text -> Forall (fun c => ends_line c = false) (record_text i text).
Proof.
  intros Hi [Ht _]. unfold record_text.
  assert (forall v, 0 <= v -> Forall (fun c => ends_line c = false) (dec v)) as Hd.
  { intros v Hv. eapply Forall_impl; [by apply dec_digits|]. apply digit_ends. }
  repeat (apply Forall_app; split); try (apply Hd; unfold MAX_COLS; Z.div_mod_to_equations; lia); try (by repeat constructor).
  eapply Forall_impl; [exact Ht|]. intros c. unfold ends_value, ends_line. lia.
Qed.

(** The texts of the file are put into the cells that follow those done. *)
Lemma load_records k texts done s pre post :
  file_buf s = pre ++ cell_records (zlen done) texts ++ post ->
  sheet s = done ++ replicate (length texts) (zeros 32) -> zlen (sheet s) = 512 ->
  Forall (fun c => zlen c = CELL_LEN) done -> Forall plain texts ->
  load_lines (length (cell_records (zlen done) texts) + k) (zlen pre) (zlen pre) s =
  load_lines k (zlen pre + zlen (cell_records (zlen done) texts)) (zlen pre + zlen (cell_records (zlen done) texts))
    (with_cells (done ++ map stored_cell texts) s).
Proof.
  revert done s pre. induction texts as [|text texts IH]; intros done s pre Hb Hs H512 Hd Ht.
  { cbn [cell_records length Nat.add map replicate app]. change (zlen (@nil Z)) with 0. rewrite Z.add_0_r. cbn in Hs.
    unfold with_cells. rewrite <- Hs. by destruct s. }
  apply Forall_cons in Ht as [Ht Hts]. cbn [cell_records map replicate length] in *.
  assert (zlen (done ++ [stored_cell text]) = zlen done + 1) as Hn by (rewrite zlen_app; done).
  assert (zlen (stored_cell text) = CELL_LEN) as Hst by (destruct Ht as [_ Hl]; unfold stored_cell, zeros, CELL_LEN in *; zs).
  assert (Forall (fun c => zlen c = CELL_LEN) (done ++ [stored_cell text])) as Hd' by (apply Forall_app; split; [done | by constructor]).
  pose proof (zlen_nonneg done) as Hnd. rewrite Hs, zlen_app, zlen_cons in H512.
  destruct (decide (text = [])) as [->|Hne].
  - cbn [cell_record app] in *. change (zeros 32) with (stored_cell []) in Hs.
    specialize (IH (done ++ [stored_cell []]) s pre). rewrite Hn, <- !app_assoc in IH. apply IH; try done.
    rewrite Hs, zlen_app, zlen_cons. change (zeros 32) with (stored_cell []) in H512. lia.
  - assert (cell_record (zlen done) text = record_text (zlen done) text ++ [c_nl]) as Er by by destruct text.
    rewrite Er in *. rewrite <- !app_assoc in Hb. cbn [app] in Hb.
    set (cells := done ++ stored_cell text :: replicate (length texts) (zeros 32)).
    rewrite !length_app, <- !Nat.add_assoc. cbn [length Nat.add].
    rewrite (load_line _ s pre (record_text (zlen done) text) _ c_nl cells Hb); [|by apply record_line|done|].
    2: { rewrite bool_decide_eq_false_2 by done. rewrite parse_record; [|pose proof (zlen_nonneg texts); unfold zlen in *; rewrite length_replicate in H512; lia|done|..].
      - f_equal. rewrite Hs. unfold cells, zlen. rewrite Nat2Z.id. by rewrite insert_app_r_alt, Nat.sub_diag by lia.
      - rewrite Hs, zlen_app, zlen_cons. lia.
      - rewrite Hs. apply Forall_app. split; [done|]. constructor; [done|]. apply Forall_replicate. done. }
    specialize (IH (done ++ [stored_cell text]) (with_cells cells s) (pre ++ record_text (zlen done) text ++ [c_nl])).
    rewrite Hn, <- !app_assoc in IH. cbn [app] in IH. rewrite !zlen_app in IH. change (zlen [c_nl]) with 1 in IH.
    rewrite !zlen_app. change (zlen [c_nl]) with 1.
    replace (zlen pre + (zlen (record_text (zlen done) text) + 1)) with (zlen pre + zlen (record_text (zlen done) text) + 1) in IH by lia.
    rewrite IH; [|done|done|cbn; unfold cells; rewrite zlen_app, zlen_cons; lia|by rewrite <- (app_nil_r [_])|done].
    f_equal; lia.
Qed.

Lemma load_lines_file s texts post :
  file_buf s = slk_file texts ++ 0 :: post -> sheet s = replicate 512 (zeros 32) -> length texts = 512%nat -> Forall plain texts ->
  load_lines (length (slk_file texts) + 1) 0 0 s = Some (Val tt, with_cells (map stored_cell texts) s).
Proof.
  intros Hb Hs Hn Ht. unfold slk_file in *. rewrite <- !app_assoc in Hb. cbn [app] in Hb.
  rewrite !length_app, <- !Nat.add_assoc. cbn [length Nat.add].
  rewrite (load_line _ s [] (lit "ID;P") (cell_records 0 texts ++ lit "E" ++ c_nl :: 0 :: post) c_nl (sheet s)) by (first [done | by repeat constructor]).
  assert (with_cells (sheet s) s = s) as -> by by destruct s. set (pre := lit "ID;P" ++ [c_nl]).
  change (zlen [] + zlen (lit "ID;P") + 1) with (zlen pre).
  rewrite (load_records _ texts [] s pre (lit "E" ++ c_nl :: 0 :: post)); [|done|by rewrite Hn|by rewrite Hs|done|done]. cbn [app].
  set (s1 := with_cells _ s). replace (zlen pre + zlen (cell_records (zlen []) texts)) with (zlen (pre ++ cell_records 0 texts)) by (by rewrite zlen_app).
  rewrite (load_line _ s1 (pre ++ cell_records 0 texts) (lit "E") (0 :: post) c_nl (sheet s1));
    [|unfold s1, with_cells; cbn [file_buf]; unfold pre; by rewrite Hb, <- !app_assoc|by repeat constructor|done|done].
  assert (with_cells (sheet s1) s1 = s1) as -> by done.
  pose proof (load_line 0 s1 ((pre ++ cell_records 0 texts) ++ lit "E" ++ [c_nl]) [] post 0 (sheet s1)) as E.
  rewrite !zlen_app in E. change (zlen (lit "E")) with 1 in E. change (zlen [c_nl]) with 1 in E. rewrite zlen_app. change (zlen (lit "E")) with 1.
  rewrite Z.add_assoc in E. cbn [length Nat.add] in E. rewrite E; [done| |done..].
  unfold s1, with_cells. cbn [file_buf]. unfold pre. by rewrite Hb, <- !app_assoc.
Qed.

Lemma load_file s texts w w' :
  length texts = 512%nat -> Forall plain texts -> zlen (slk_file texts) < FILE_BUF_SIZE ->
  (exists there, sh_exists (sys s) (sheet_file s) = (there, w) /\ there <> 0) ->
  sh_read w (sheet_file s) (FILE_BUF_SIZE - 1) = (zlen (slk_file texts), slk_file texts, w') ->
  exists s', load_slk_file s = Some (Val tt, s') /\ sheet s' = map stored_cell texts.
Proof.
  intros Hn Ht Hl (there & Ew & Hthere) Er. set (data := slk_file texts) in *.
  assert (0 < zlen data) as Hpos by (unfold data, slk_file; rewrite zlen_app; change (zlen (lit "ID;P")) with 4;
    pose proof (zlen_nonneg ([c_nl] ++ cell_records 0 texts ++ lit "E" ++ [c_nl])); lia).
  set (buf := data ++ drop (length data) (zeros (Z.to_nat FILE_BUF_SIZE))).
  assert (blit (zeros (Z.to_nat FILE_BUF_SIZE)) 0 data = Some buf) as Eb.
  { apply blit_Some. split_and!; [done| |done]. unfold zeros. rewrite zlen_replicate. unfold FILE_BUF_SIZE in *. lia. }
  assert (exists post, buf = data ++ 0 :: post) as (post & Ebuf).
  { unfold buf, zeros. rewrite drop_replicate. destruct (Z.to_nat FILE_BUF_SIZE - length data)%nat as [|k] eqn:Ek; [unfold zlen in Hl; lia|].
    by exists (replicate k 0). }
  assert (wr buf (zlen data) 0 = Some buf) as Ewr by (rewrite Ebuf; apply wr_mid).
  set (s1 := App (replicate 512 (zeros 32)) (sheet_file s) buf (file_content s) w').
  exists (with_cells (map stored_cell texts) s1). split; [|done]. unfold load_slk_file, clear_sheet, set_sheet. rewrite bind_modify, bind_gets.
  cbn [sheet_file]. erewrite bind_val by (unfold call; cbn [sys]; rewrite Ew; reflexivity). rewrite (eqb_neq there 0 Hthere).
  erewrite bind_val by (unfold call; cbn [sys]; rewrite Er; reflexivity). cbv beta iota. mlift Eb. unfold set_buf. rewrite bind_modify.
  replace (s32 (zlen data)) with (zlen data) by (unfold s32, FILE_BUF_SIZE in *; rewrite Z.mod_small; lia).
  replace (zlen data <=? 0) with false by lia. mlift Ewr. rewrite bind_modify. cbn [sheet sheet_file file_buf file_content sys].
  replace (Z.to_nat (zlen data + 1)) with (length data + 1)%nat by (unfold zlen; lia).
  apply (load_lines_file s1 texts post); done.
Qed.

End Load.

(** ** Saving *)

Lemma dec_short v : 1 <= v <= 64 -> zlen (dec v) <= 2.
Proof.
  intros Hv. assert (forallb (fun n => zlen (dec (Z.of_nat n)) <=? 2) (seq 1 64) = true) as Hc by (vm_compute; reflexivity).
  rewrite forallb_forall in Hc. specialize (Hc (Z.to_nat v)). rewrite Z2Nat.id in Hc by lia. apply Z.leb_le, Hc, in_seq. lia.
Qed.

Lemma index_bounds i : 0 <= i < 512 -> 0 <= i / MAX_COLS < 64 /\ 0 <= i mod MAX_COLS < 8 /\ cell_index (i / MAX_COLS) (i mod MAX_COLS) = i.
Proof. intros Hi. unfold cell_index, MAX_COLS. Z.div_mod_to_equations. lia. Qed.

Lemma record_short i text : 0 <= i < 512 -> zlen text < CELL_LEN -> zlen (cell_record i text) <= 45.
Proof.
  intros Hi Ht. destruct (index_bounds i Hi) as (Hr & Hc & _). pose proof (dec_short (i / MAX_COLS + 1) ltac:(lia)).
  pose proof (dec_short (i mod MAX_COLS + 1) ltac:(lia)). unfold cell_record. destruct text; [done|]. unfold record_text.
  rewrite !zlen_app. change (zlen (lit "C;Y")) with 3. change (zlen (lit ";X")) with 2. change (zlen (lit ";K")) with 2.
  change (zlen [c_quote]) with 1. change (zlen [c_nl]) with 1. unfold CELL_LEN in *. lia.
Qed.

Lemma records_short i texts :
  0 <= i -> i + zlen texts <= 512 -> Forall (fun t => zlen t < CELL_LEN) texts -> zlen (cell_records i texts) <= 45 * zlen texts.
Proof.
  revert i. induction texts as [|text texts IH]; intros i Hi Hn Ht; cbn [cell_records]; [done|].
  apply Forall_cons in Ht as [Ht Hts]. rewrite zlen_cons in *. pose proof (zlen_nonneg texts). rewrite zlen_app.
  pose proof (record_short i text ltac:(lia) Ht). specialize (IH (i + 1) ltac:(lia) ltac:(lia) Hts). lia.
Qed.

Lemma number_text v : 1 <= v <= 64 -> exists b, str_u64toa v (zeros 21) = Some b /\ cstr b (dec v).
Proof.
  intros Hv. pose proof (dec_short v Hv). destruct (unsigned_printers_agree v (zeros 21)) as (_ & _ & E & _);
    [unfold is_u64; lia | change (zlen (zeros 21)) with 21; lia|].
  destruct (blit_total (zeros 21) (dec v ++ [0]) 0) as [b Eb]; [done | rewrite zlen_app; change (zlen (zeros 21)) with 21; change (zlen [0]) with 1; lia|].
  exists b. rewrite E. split; [done|]. eapply cstr_blit; [|exact Eb]. eapply Forall_impl; [apply dec_digits; lia|].
  intros c Hc%is_digit_range. unfold c_0 in Hc. lia.
Qed.

Section Save.
Context {W : Type} `{SheetOs W}.
Implicit Type s : program W.

(** [s] is [s0] with [data] at the start of the file's contents. *)
Definition saving s0 (data : bytes) s : Prop := exists rest,
  s = App (sheet s0) (sheet_file s0) (file_buf s0) (data ++ rest) (sys s0) /\ zlen (data ++ rest) = FILE_BUF_SIZE.

Lemma append_ok s0 data s b text :
  saving s0 data s -> cstr b text -> zlen data + zlen text < FILE_BUF_SIZE ->
  exists s', append_text FILE_BUF_SIZE (zlen data) b s = Some (Val (zlen (data ++ text)), s') /\ saving s0 (data ++ text) s'.
Proof.
  intros (rest & -> & Hl) Hb Hfit. pose proof (zlen_nonneg data). pose proof (zlen_nonneg text). rewrite zlen_app in Hl.
  destruct Hb as (t & -> & Hz). unfold append_text. erewrite bind_lift by (apply strlen_cstr; by exists t).
  replace (FILE_BUF_SIZE <=? zlen data) with false by lia. replace (FILE_BUF_SIZE - zlen data <=? zlen text) with false by lia. cbn [orb].
  rewrite bind_gets. cbn [file_content].
  replace (take (Z.to_nat (zlen text)) (text ++ 0 :: t)) with text by (unfold zlen; by rewrite Nat2Z.id, take_app_length).
  destruct (drop (length text) rest) as [|x rest'] eqn:Ed.
  { apply (f_equal length) in Ed. rewrite length_drop in Ed. cbn in Ed. unfold zlen in *. lia. }
  assert (rest = take (length text) rest ++ x :: rest') as Er by (rewrite <- Ed; symmetry; apply take_drop).
  assert (zlen (take (length text) rest) = zlen text) as Htk by (unfold zlen in *; rewrite length_take; lia).
  rewrite Er. erewrite bind_lift by (by apply blit_mid).
  replace (zlen data + zlen text) with (zlen (data ++ text)) by (by rewrite zlen_app). rewrite app_assoc.
  erewrite bind_lift by apply wr_mid. unfold set_content. rewrite bind_modify. eexists. split; [reflexivity|].
  exists (0 :: rest'). split; [done|]. rewrite Er in Hl. rewrite !zlen_app, !zlen_cons in *. lia.
Qed.

(** One more text, inside a larger program. *)
Lemma append_bind {A} s0 data s b text (k : Z -> M (program W) A) (Q : option (outcome A * program W) -> Prop) :
  saving s0 data s -> cstr b text -> zlen data + zlen text < FILE_BUF_SIZE ->
  (forall s', saving s0 (data ++ text) s' -> Q (k (zlen (data ++ text)) s')) ->
  Q ((append_text FILE_BUF_SIZE (zlen data) b ≫= k) s).
Proof. intros Hs Hb Hf Hk. destruct (append_ok _ _ _ _ _ Hs Hb Hf) as (s' & E & Hs'). rewrite (bind_val _ _ _ _ _ E). by apply Hk. Qed.

Lemma save_cell_ok s0 data s i cell text :
  saving s0 data s -> 0 <= i < 512 -> rd (sheet s0) i = Some cell -> holds cell text -> zlen data + 45 < FILE_BUF_SIZE ->
  exists s', save_cell (i / MAX_COLS) (i mod MAX_COLS) (zlen data) s = Some (Val (zlen (data ++ cell_record i text)), s') /\
    saving s0 (data ++ cell_record i text) s'.
Proof.
  intros Hs Hi Ec [Hcl Hct] Hroom. destruct (index_bounds i Hi) as (Hr & Hc & Ei).
  pose proof (record_short i text Hi ltac:(apply cstr_zlen in Hct; lia)) as Hrs. unfold save_cell.
  rewrite bind_gets, Ei. replace (sheet s) with (sheet s0) by (by destruct Hs as (? & -> & _)). mlift Ec.
  destruct (cstr_inv _ _ Hct) as [[-> [t ->]]|(c & text' & cell' & -> & -> & Hc0 & Hct')].
  { erewrite bind_lift by reflexivity. cbn [cell_record]. rewrite app_nil_r. by exists s. }
  set (text := c :: text') in *. erewrite bind_lift by reflexivity. rewrite (eqb_neq c 0 Hc0).
  destruct (number_text (i / MAX_COLS + 1) ltac:(lia)) as (br & Er & Hbr). mlift Er.
  destruct (number_text (i mod MAX_COLS + 1) ltac:(lia)) as (bc & Eb & Hbc). mlift Eb.
  assert (cell_record i text = lit "C;Y" ++ dec (i / MAX_COLS + 1) ++ lit ";X" ++ dec (i mod MAX_COLS + 1) ++ (lit ";K" ++ [c_quote]) ++ text ++ [c_quote; c_nl]) as Erec.
  { unfold cell_record, text, record_text. by rewrite <- !app_assoc. }
  rewrite Erec in *. rewrite !zlen_app in Hrs. 
  pose proof (zlen_nonneg (dec (i / MAX_COLS + 1))). pose proof (zlen_nonneg (dec (i mod MAX_COLS + 1))). pose proof (zlen_nonneg text).
  pose proof (zlen_nonneg (lit "C;Y")). pose proof (zlen_nonneg (lit ";X")). pose proof (zlen_nonneg (lit ";K")). pose proof (zlen_nonneg [c_quote]).
  pose proof (zlen_nonneg [c_quote; c_nl]).
  assert (cstr (lit ";K" ++ [c_quote; 0]) (lit ";K" ++ [c_quote])) as Hk by (exists []; split; [done | by repeat constructor]).
  do 6 (eapply append_bind; [eassumption | first [exact Hbr | exact Hbc | exact Hct | exact Hk | lit_ok] | rewrite ?zlen_app; lia |
    clear dependent s; intros s Hs]).
  destruct (append_ok _ _ _ [c_quote; c_nl; 0] [c_quote; c_nl] Hs) as (s' & E & Hs'); [by exists []; split; [|by repeat constructor] | rewrite !zlen_app; lia|].
  exists s'. rewrite E. by rewrite <- !app_assoc in *.
Qed.

Lemma save_cells_ok s0 k i data s texts :
  saving s0 data s -> 0 <= i -> i + Z.of_nat k = 512 -> zlen (sheet s0) = 512 ->
  Forall2 holds (drop (Z.to_nat i) (sheet s0)) texts -> zlen data + 45 * Z.of_nat k < FILE_BUF_SIZE ->
  exists s', save_cells k i (zlen data) s = Some (Val (zlen (data ++ cell_records i texts)), s') /\
    saving s0 (data ++ cell_records i texts) s'.
Proof.
  revert i data s texts. induction k as [|k IH]; intros i data s texts Hs Hi Hk Hl Ht Hroom; cbn [save_cells].
  { rewrite drop_ge in Ht by (unfold zlen in Hl; lia). apply Forall2_nil_inv_l in Ht as ->. cbn [cell_records]. rewrite app_nil_r. by exists s. }
  destruct (rd_is_Some (sheet s0) i) as [cell Ec]; [lia|]. pose proof Ec as Elk. rewrite rd_lookup in Elk by lia.
  rewrite (drop_S _ _ _ Elk) in Ht. apply Forall2_cons_inv_l in Ht as (text & texts' & Hc & Ht & ->).
  destruct (save_cell_ok s0 data s i cell text Hs) as (s1 & E1 & Hs1); [lia|done..|lia|]. mrun E1.
  pose proof (record_short i text ltac:(lia) ltac:(destruct Hc as [<- Hc]; by apply cstr_zlen)) as Hrs.
  destruct (IH (i + 1) (data ++ cell_record i text) s1 texts' Hs1) as (s2 & E2 & Hs2); [lia..|done| |rewrite zlen_app; lia|].
  { replace (Z.to_nat (i + 1)) with (S (Z.to_nat i)) by lia. done. }
  exists s2. rewrite E2. cbn [cell_records]. by rewrite <- app_assoc in *.
Qed.

Lemma slk_file_short texts : length texts = 512%nat -> Forall (fun t => zlen t < CELL_LEN) texts -> zlen (slk_file texts) < FILE_BUF_SIZE.
Proof.
  intros Hn Ht. pose proof (records_short 0 texts ltac:(done) ltac:(unfold zlen; lia) Ht) as Hr. unfold slk_file.
  rewrite !zlen_app. change (zlen (lit "ID;P")) with 4. change (zlen [c_nl]) with 1. change (zlen (lit "E")) with 1. unfold zlen, FILE_BUF_SIZE in *. lia.
Qed.

Lemma holds_short cells texts : Forall2 holds cells texts -> Forall (fun t => zlen t < CELL_LEN) texts.
Proof. induction 1 as [|cell text cells texts [<- Hc] _ IH]; constructor; [by apply cstr_zlen | done]. Qed.

(** The whole file is written in one call. *)
Lemma save_file s texts rc w :
  holds_all (sheet s) texts -> sh_write (sys s) (sheet_file s) (slk_file texts) = (rc, w) ->
  exists s', save_slk_file s = Some (Val (if 0 <=? s64 rc then 1 else 0), s') /\
    sheet s' = sheet s /\ sheet_file s' = sheet_file s /\ sys s' = w.
Proof.
  intros [Ht Hn] Ew. pose proof (holds_short _ _ Ht) as Hsh. assert (zlen (sheet s) = 512) as Hz by (unfold zlen; lia).
  assert (length texts = 512%nat) as Htn by (by rewrite <- (Forall2_length _ _ _ Ht)).
  pose proof (records_short 0 texts ltac:(done) ltac:(unfold zlen; lia) Hsh) as Hrs.
  unfold save_slk_file, set_content. 
  assert (saving s [] (App (sheet s) (sheet_file s) (file_buf s) (zeros (Z.to_nat FILE_BUF_SIZE)) (sys s))) as H0.
  { exists (zeros (Z.to_nat FILE_BUF_SIZE)). split; [done|]. unfold zeros. cbn [app]. by rewrite zlen_replicate. }
  destruct (append_ok _ _ _ (lit "ID;P" ++ [c_nl; 0]) (lit "ID;P" ++ [c_nl]) H0) as (s1 & E1 & Hs1);
    [exists []; split; [done | by repeat constructor] | done|]. cbn [app] in Hs1.
  destruct (save_cells_ok s 512 0 _ s1 texts Hs1 ltac:(done) ltac:(done) Hz Ht) as (s2 & E2 & Hs2); [done|].
  destruct (append_ok _ _ _ (lit "E" ++ [c_nl; 0]) (lit "E" ++ [c_nl]) Hs2) as (s3 & E3 & (rest & -> & Hl));
    [exists []; split; [done | by repeat constructor]| rewrite !zlen_app; change (zlen (lit "ID;P")) with 4; change (zlen (lit "E")) with 1;
     change (zlen [c_nl]) with 1; unfold zlen, FILE_BUF_SIZE in *; lia|].
  eexists. split.
  { apply fn_val. rewrite bind_modify. mrun E1. mrun E2. mrun E3. rewrite bind_gets. cbn [file_content].
    erewrite bind_lift by (apply (slice_mid [])). rewrite bind_gets. cbn [sheet_file].
    erewrite bind_val by (unfold call; cbn [sys]; replace (_ ++ lit "E" ++ [c_nl]) with (slk_file texts)
      by (unfold slk_file; by rewrite <- !app_assoc); rewrite Ew; reflexivity). reflexivity. }
  split_and!; reflexivity.
Qed.

End Save.

(** ** Round trip *)

(** What the program relies on: a file that has been written is there and is read
    back as it was written. *)
Class SheetFiles (W : Type) `{SheetOs W} := {
  stored : W -> bytes -> bytes -> Prop;
  write_stores : forall w path data rc w',
    sh_write w path data = (rc, w') -> 0 <= s64 rc -> stored w' path data;
  stored_exists : forall w path data, stored w path data ->
    exists there w', sh_exists w path = (there, w') /\ there <> 0 /\ stored w' path data;
  stored_read : forall w path data capacity, stored w path data -> zlen data <= capacity ->
    exists w', sh_read w path capacity = (zlen data, data, w');
}.

Lemma stored_holds texts : Forall plain texts -> Forall2 holds (map stored_cell texts) texts.
Proof.
  induction 1 as [|text texts [Ht Hl] _ IH]; [constructor|]. cbn [map]. constructor; [|done]. unfold stored_cell, CELL_LEN in *. split.
  - unfold zeros. rewrite zlen_app, zlen_replicate. unfold zlen in *. unfold CELL_LEN. lia.
  - destruct (32 - length text)%nat as [|k] eqn:Ek; [unfold zlen in Hl; lia|]. exists (replicate k 0). split; [done|].
    by apply ends_value_nozero.
Qed.

(** C40: Saving and loading a spreadsheet.  Whatever 512 texts of at most 31
    characters the cells hold, the file for them is shorter than the file buffer,
    so that saving never fails for lack of room: [save_slk_file] leaves the cells
    alone, hands exactly this file to one write call and returns 1 if that call
    succeeds and 0 if it fails.  When it succeeds and the file store then gives
    the file back ([SheetFiles]), [load_slk_file] restores the text of every
    cell, for texts without a quote, a line break or a NUL and of at most thirty
    characters (the most that can be typed). *)
Theorem sheet_roundtrip {W} `{SheetFiles W} (s : program W) texts :
  holds_all (sheet s) texts ->
  zlen (slk_file texts) < FILE_BUF_SIZE /\
  exists rc w s1, sh_write (sys s) (sheet_file s) (slk_file texts) = (rc, w) /\
    save_slk_file s = Some (Val (if 0 <=? s64 rc then 1 else 0), s1) /\
    sheet s1 = sheet s /\ sys s1 = w /\
    (0 <= s64 rc -> Forall plain texts ->
     exists s2, load_slk_file s1 = Some (Val tt, s2) /\ holds_all (sheet s2) texts).
Proof.
  intros Hh. assert (length texts = 512%nat) as Hn by (destruct Hh as [Hh <-]; symmetry; by eapply Forall2_length).
  pose proof (slk_file_short texts Hn (holds_short _ _ (proj1 Hh))) as Hl. split; [done|].
  destruct (sh_write (sys s) (sheet_file s) (slk_file texts)) as [rc w] eqn:Ew.
  destruct (save_file s texts rc w Hh Ew) as (s1 & E & Hs & Hf & Hw). exists rc, w, s1.
  refine (conj eq_refl (conj E (conj Hs (conj Hw _)))). intros Hrc Hp.
  pose proof (write_stores _ _ _ _ _ Ew Hrc) as Hst. rewrite <- Hf, <- Hw in Hst.
  destruct (stored_exists _ _ _ Hst) as (there & w1 & Ee & Hne & Hst1).
  destruct (stored_read _ _ _ (FILE_BUF_SIZE - 1) Hst1) as [w2 Er]; [lia|].
  destruct (load_file s1 texts w1 w2 Hn Hp Hl) as (s2 & El & Hs2); [exact (ex_intro _ there (conj Ee Hne)) | exact Er |].
  exists s2. split; [exact El|]. rewrite Hs2. split; [by apply stored_holds | by rewrite length_map].
Qed.

(** ** A session *)

(** What [input] may store: no more than it was given room for, and a terminated
    text or nothing. *)
Class SafeSheetOs (W : Type) `{SheetOs W} := {
  input_fits : forall w prompt capacity rc data w', 0 <= capacity ->
    sh_input w prompt capacity = (rc, data, w') -> zlen data <= capacity /\ (data = [] \/ is_text data);
}.

Definition cell_ok (cell : bytes) : Prop := zlen cell = CELL_LEN /\ is_text cell.

Definition session_ok {W} (s : program W) : Prop := length (sheet s) = 512%nat /\ Forall cell_ok (sheet s) /\ is_text (sheet_file s).

(** The selected cell exists and is in view. *)
Definition cursor_ok (u : cursor) : Prop :=
  0 <= cur_r u < MAX_ROWS /\ 0 <= cur_c u < MAX_COLS /\ 0 <= first_visible_row u /\
  first_visible_row u <= cur_r u < first_visible_row u + VIEW_ROWS.

Lemma cells_hold cells : length cells = 512%nat -> Forall cell_ok cells -> exists texts, holds_all cells texts.
Proof.
  intros Hn Hc. assert (exists texts, Forall2 holds cells texts) as [texts Ht]; [|by exists texts].
  clear Hn. induction Hc as [|cell cells [Hl [t Ht]] _ [texts IH]]; [by exists []|]. exists (t :: texts). by constructor.
Qed.

Lemma row_label_ok r : 0 <= r < 64 -> is_Some (row_label r).
Proof.
  intros Hr. assert (forallb (fun n => bool_decide (is_Some (row_label (Z.of_nat n)))) (seq 0 64) = true) as Hc by (vm_compute; reflexivity).
  rewrite forallb_forall in Hc. specialize (Hc (Z.to_nat r)). rewrite Z2Nat.id in Hc by lia.
  eapply bool_decide_unpack, Is_true_true_2, Hc, in_seq. lia.
Qed.

Lemma row_text_ok r : 0 <= r < 64 -> is_Some (row_text r).
Proof.
  intros Hr. assert (forallb (fun n => bool_decide (is_Some (row_text (Z.of_nat n)))) (seq 0 64) = true) as Hc by (vm_compute; reflexivity).
  rewrite forallb_forall in Hc. specialize (Hc (Z.to_nat r)). rewrite Z2Nat.id in Hc by lia.
  eapply bool_decide_unpack, Is_true_true_2, Hc, in_seq. lia.
Qed.

Lemma copy_cells_spec k p q r text :
  length p = length r -> (k <= length q)%nat -> (k <= length text)%nat ->
  copy_cells k (zlen p) (p ++ q) (r ++ text) = Some (p ++ take k text ++ drop k q).
Proof.
  revert p q r text. induction k as [|k IH]; intros p q r text Hp Hq Ht; cbn [copy_cells]; [done|].
  destruct text as [|c text]; [cbn in Ht; lia|]. destruct q as [|y q]; [cbn in Hq; lia|].
  replace (zlen p) with (zlen r) at 1 by (unfold zlen; lia). rewrite rd_mid. cbn [mbind option_bind]. rewrite wr_mid. cbn [mbind option_bind].
  specialize (IH (p ++ [c]) q (r ++ [c]) text). rewrite zlen_app in IH. change (zlen [c]) with 1 in IH. rewrite <- !app_assoc in IH.
  cbn [app] in IH. rewrite IH; [done | rewrite !length_app; cbn; lia | cbn in *; lia..].
Qed.

Lemma cell_display_ok cell : is_text cell -> is_Some (serialize_cell_display cell (zeros 16) 16).
Proof.
  intros (t & Ht). unfold serialize_cell_display. rewrite (strlen_cstr _ _ Ht). cbn [mbind option_bind].
  destruct Ht as (rest & -> & Hz). set (k := Z.to_nat (Z.min (zlen t) 12)).
  assert (k <= 12 /\ k <= length t)%nat as [Hk Hkt] by (unfold k, zlen; lia).
  pose proof (copy_cells_spec k [] (replicate 12 c_space ++ [0]) [] (t ++ 0 :: rest)) as E. cbn [app] in E. change (zlen (@nil Z)) with 0 in E.
  rewrite E; [|done|rewrite length_app; cbn; lia|rewrite length_app; lia]. cbn [mbind option_bind].
  rewrite take_app_le, drop_app_le by (rewrite ?length_replicate; lia). rewrite drop_replicate.
  unfold strncpy. change (16 =? 0) with false. cbv iota.
  pose proof (ncopy_pad_text [] (zeros 16) (take k t ++ replicate (12 - k) c_space) [] 15 16) as E2. cbn [app] in E2.
  rewrite <- app_assoc in E2. change (zlen (@nil Z)) with 0 in E2. change (Z.to_nat (16 - 1)) with 15%nat. change (Z.to_nat 16) with 16%nat.
  assert (length (take k t ++ replicate (12 - k) c_space) = 12%nat) as Hl by (rewrite length_app, length_take, length_replicate; lia).
  rewrite E2; [| |lia..|done].
  - cbn [mbind option_bind]. apply wr_is_Some. rewrite Hl. unfold zlen. rewrite length_app, Hl. split; [done|]. unfold zeros. 
    rewrite length_app, length_replicate. lia.
  - apply Forall_app. split; [by apply Forall_take | by apply Forall_replicate].
Qed.

Section Session.
Context {W : Type} `{SafeSheetOs W}.
Implicit Type s : program W.

Abbreviation Totally m Q := (total (session_ok (W := W)) m Q).

Lemma call_total {A} (f : W -> A * W) (Q : A -> Prop) : (forall w, Q (f w).1) -> Totally (call f) Q.
Proof. intros Hf s Hs. specialize (Hf (sys s)). unfold call. destruct (f (sys s)) as [a w]. by exists a, (App (sheet s) (sheet_file s) (file_buf s) (file_content s) w). Qed.

Lemma draw_total op : Totally (draw op) (fun _ => True).
Proof. by apply call_total. Qed.

Lemma sheet_total : Totally (gets sheet) (fun cells => length cells = 512%nat /\ Forall cell_ok cells).
Proof. apply total_gets. by intros s (? & ? & _). Qed.

Lemma file_total : Totally (gets sheet_file) (fun b => is_text b).
Proof. apply total_gets. by intros s (_ & _ & ?). Qed.

Lemma cell_total cells r c :
  length cells = 512%nat /\ Forall cell_ok cells -> 0 <= r < MAX_ROWS -> 0 <= c < MAX_COLS ->
  Totally (lift (rd cells (cell_index r c))) cell_ok.
Proof.
  intros [Hn Hc] Hr Hcc. apply total_lift. unfold cell_index, MAX_ROWS, MAX_COLS in *.
  destruct (rd_is_Some cells (r * 8 + c)) as [cell E]; [unfold zlen; lia|]. exists cell. split; [done|].
  rewrite rd_lookup in E by lia. exact (Forall_lookup_1 _ _ _ _ Hc E).
Qed.

Lemma save_total : Totally save_slk_file (fun _ => True).
Proof.
  intros s (Hn & Hc & Hf). destruct (cells_hold _ Hn Hc) as [texts Ht].
  destruct (sh_write (sys s) (sheet_file s) (slk_file texts)) as [rc w] eqn:Ew.
  destruct (save_file s texts rc w Ht Ew) as (s1 & E & Es & Ef & _). eexists _, s1. split; [exact E|]. split; [|done].
  unfold session_ok. rewrite Es, Ef. exact (conj Hn (conj Hc Hf)).
Qed.

Lemma key_total : Totally (call sh_key) (fun _ => True).
Proof. by apply call_total. Qed.

Lemma println_total t : Totally (println t) (fun _ => True).
Proof. apply (total_bind _ _ _ (fun _ => True)); [apply draw_total | intros _ _; apply draw_total]. Qed.

Hint Resolve draw_total sheet_total file_total save_total key_total println_total : total.

Lemma draw_cell_total cur_r cur_c r y c : 0 <= r < MAX_ROWS -> 0 <= c < MAX_COLS -> Totally (draw_cell cur_r cur_c r y c) (fun _ => True).
Proof.
  intros Hr Hc. unfold draw_cell. eapply total_bind; [apply sheet_total|]. intros cells Hcells.
  eapply total_bind; [by apply cell_total|]. intros cell [_ Hcell]. destruct (cell_display_ok cell Hcell) as [d Ed].
  eapply total_bind; [apply total_lift; exists d; split; [exact Ed | exact I]|]. intros disp _. repeat total_step.
Qed.

(** A counted loop, with the index in range. *)
Lemma for_range_total k a (body : Z -> M (program W) unit) :
  (forall j, a <= j < a + Z.of_nat k -> Totally (body j) (fun _ => True)) -> Totally (for_loop k a 1 body) (fun _ => True).
Proof.
  revert a. induction k as [|k IH]; intros a Hb; cbn [for_loop]; [by apply total_ret|].
  apply (total_bind _ _ _ (fun _ => True)); [apply Hb; lia|]. intros _ _. apply IH. intros j Hj. apply Hb. lia.
Qed.

Lemma redraw_total r c f : 0 <= r < MAX_ROWS -> 0 <= c < MAX_COLS -> 0 <= f -> Totally (redraw r c f) (fun _ => True).
Proof.
  intros Hr Hc Hf. unfold redraw. do 14 total_step.
  apply (total_bind _ _ _ (fun _ => True)).
  { apply for_range_total. intros j Hj. unfold draw_row, VIEW_ROWS, MAX_ROWS in *. destruct (row_label_ok (f + j)) as [l El]; [lia|].
    eapply total_bind; [apply total_lift; exists l; split; [exact El | exact I]|]. intros label _. do 2 total_step.
    apply for_range_total. intros i Hi. apply draw_cell_total; unfold MAX_ROWS, MAX_COLS in *; lia. }
  intros _ _. do 3 total_step. eapply total_bind; [apply sheet_total|]. intros cells Hcells.
  eapply total_bind; [by apply cell_total|]. intros cell _. apply draw_total.
Qed.

Lemma typed_ok (cell typed : bytes) :
  cell_ok cell -> zlen typed <= CELL_LEN - 1 -> typed = [] \/ is_text typed ->
  exists b, (c ← blit cell 0 typed; c ← trim_newline c; wr c (CELL_LEN - 1) 0) = Some b /\ cell_ok b.
Proof.
  intros [Hl Ht] Hz Hty. unfold CELL_LEN in *. destruct (blit_total cell typed 0) as [c Ec]; [done | lia|].
  assert (is_text c) as [t Htc].
  { destruct Hty as [->|Hty]; [rewrite blit_nil in Ec by lia; by simplify_eq|]. apply blit_0_Some in Ec as [_ ->]. by apply is_text_prefix. }
  rewrite Ec. cbn [mbind option_bind]. unfold trim_newline. rewrite (strlen_cstr _ _ Htc). cbn [mbind option_bind].
  destruct (trim_cstr is_trimmed c t Htc) as (c2 & E2 & _ & Hl2). unfold zlen at 1. rewrite Nat2Z.id, E2. cbn [mbind option_bind].
  pose proof (blit_zlen _ _ _ _ Ec). destruct (wr_is_Some c2 31 0) as [b Eb]; [lia|]. exists b. split; [exact Eb|].
  split; [rewrite (wr_zlen _ _ _ _ Eb); unfold CELL_LEN; lia|]. eapply is_text_rd. by eapply rd_wr_eq.
Qed.

Lemma set_sheet_total cells : length cells = 512%nat -> Forall cell_ok cells -> Totally (set_sheet cells) (fun _ => True).
Proof. intros Hn Hc. apply total_modify. intros s (_ & _ & Hf). exact (conj Hn (conj Hc Hf)). Qed.

Lemma input_total prompt capacity : 0 <= capacity -> Totally (call (fun w => sh_input w prompt capacity)) (fun r =>
  zlen r.2 <= capacity /\ (r.2 = [] \/ is_text r.2)).
Proof. intros Hc. apply call_total. intros w. destruct (sh_input w prompt capacity) as [[rc data] w'] eqn:E. by apply input_fits in E. Qed.

Lemma edit_total r c : 0 <= r < MAX_ROWS -> 0 <= c < MAX_COLS -> Totally (edit_cell r c) (fun _ => True).
Proof.
  intros Hr Hc. unfold edit_cell. do 5 total_step. destruct (row_text_ok r Hr) as [t Et].
  eapply total_bind; [apply total_lift; exists t; split; [exact Et | exact I]|]. intros row _. do 4 total_step.
  eapply total_bind; [by apply input_total|]. intros [rc typed] [Hl Hty]. cbn [snd] in *.
  eapply total_bind; [apply sheet_total|]. intros cells Hcells.
  eapply total_bind; [by apply cell_total|]. intros cell Hcell. destruct (typed_ok cell typed Hcell Hl Hty) as (b & Eb & Hb).
  destruct (blit cell 0 typed) as [c1|]; [|done]. eapply total_bind; [apply total_lift; exists c1; split; [reflexivity | exact (eq_refl c1)]|].
  intros ? <-. cbn [mbind option_bind] in Eb. destruct (trim_newline c1) as [c2|]; [|done].
  eapply total_bind; [apply total_lift; exists c2; split; [reflexivity | exact (eq_refl c2)]|]. intros ? <-. cbn [mbind option_bind] in Eb.
  eapply total_bind; [apply total_lift; exists b; split; [exact Eb | exact (eq_refl b)]|]. intros ? <-.
  destruct Hcells as [Hn Hf]. unfold cell_index, MAX_ROWS, MAX_COLS in *.
  eapply total_bind; [apply total_lift; exists (<[Z.to_nat (r * 8 + c) := b]> cells); split; [apply wr_total; unfold zlen; lia | exact (eq_refl _)]|].
  intros ? <-. eapply total_bind; [apply set_sheet_total; [by rewrite length_insert | by apply Forall_insert]|]. intros _ _.
  eapply total_bind; [apply save_total|]. intros saved _. repeat total_step.
Qed.

Lemma scroll_ok u : 0 <= cur_r u < MAX_ROWS -> 0 <= cur_c u < MAX_COLS -> 0 <= first_visible_row u -> cursor_ok (scroll u).
Proof.
  intros Hr Hc Hf. unfold scroll, cursor_ok, VIEW_ROWS in *. destruct (Z.ltb_spec (cur_r u) (first_visible_row u)); [cbn; lia|].
  destruct (Z.leb_spec (first_visible_row u + 17) (cur_r u)); cbn; lia.
Qed.

Lemma move_ok u dr dc (b : bool) :
  cursor_ok u -> (b = true -> 0 <= cur_r u + dr < MAX_ROWS /\ 0 <= cur_c u + dc < MAX_COLS) -> cursor_ok (scroll (move u dr dc b)).
Proof. intros (Hr & Hc & Hf & _) Hb. apply scroll_ok; destruct b; cbn; try done; by apply Hb. Qed.

Definition round_ok (r : cursor + Z) : Prop := match r with inl u => cursor_ok u | inr code => code = 0 \/ code = 1 end.

Lemma key_round_total u : cursor_ok u -> Totally (key_round u) round_ok.
Proof.
  intros Hu. pose proof Hu as (Hr & Hc & Hf & _). unfold key_round.
  apply (total_bind _ _ _ (fun _ => True)); [destruct (needs_redraw u); [by apply redraw_total | by apply total_ret]|]. intros _ _.
  set (u' := Cursor (cur_r u) (cur_c u) (first_visible_row u) false). assert (cursor_ok u') as Hu' by exact Hu.
  eapply total_bind; [apply key_total|]. intros key _.
  repeat (apply total_if; intros ?); try (by apply total_ret).
  - apply total_ret, move_ok; [done|]. unfold MAX_ROWS in *. cbn. lia.
  - apply total_ret, move_ok; [done|]. unfold MAX_ROWS in *. cbn. lia.
  - apply total_ret, move_ok; [done|]. unfold MAX_COLS in *. cbn. lia.
  - apply total_ret, move_ok; [done|]. unfold MAX_COLS in *. cbn. lia.
  - apply (total_bind _ _ _ (fun _ => True)); [by apply edit_total|]. intros _ _. by apply total_ret, scroll_ok.
  - eapply total_bind; [apply save_total|]. intros saved _. apply total_if; intros _.
    + total_step. apply total_ret. by right.
    + total_step. apply total_ret. by left.
  - by apply total_ret, scroll_ok.
Qed.

End Session.

(** C37: The spreadsheet's main loop.  From any sheet, whatever the keys and whatever is
    typed into a cell, after any number of rounds the program has either left with
    exit code 0 or 1, or goes on with the selected cell inside the sheet and in the part
    of it that is shown; no array is left and the cells stay terminated texts. *)
Theorem sheet_session {W} `{SafeSheetOs W} n u (s : program W) :
  session_ok s -> cursor_ok u ->
  exists r s', while_nat n key_round u s = Some (Val r, s') /\ session_ok s' /\ round_ok r.
Proof.
  intros Hs Hu. exact (total_rounds session_ok cursor_ok (fun code => code = 0 \/ code = 1) key_round n u key_round_total Hu s Hs).
Qed.

(** ** A spreadsheet in use *)

Module Desk.

(** Files, keys to come and lines to be typed. *)
Record desk := Desk { files : list (bytes * bytes); keys : list Z; typing : list bytes }.

Fixpoint find_file (path : bytes) (l : list (bytes * bytes)) : option bytes :=
  match l with
  | [] => None
  | (p, data) :: l' => if bool_decide (p = path) then Some data else find_file path l'
  end.

#[export] Instance desk_os : SheetOs desk := {
  sh_exists d path := (match find_file path (files d) with Some _ => 1 | None => 0 end, d);
  sh_read d path capacity :=
    match find_file path (files d) with
    | Some data => if zlen data <=? capacity then (zlen data, data, d) else (UINT64_MAX, [], d)
    | None => (UINT64_MAX, [], d)
    end;
  sh_write d path data := (0, Desk ((path, data) :: files d) (keys d) (typing d));
  sh_create d path := (0, d);
  sh_input d prompt capacity :=
    match typing d with
    | t :: l => if zlen t <? capacity then (0, filter (fun c => c <> 0) t ++ [0], Desk (files d) (keys d) l) else (UINT64_MAX, [], d)
    | [] => (UINT64_MAX, [], d)
    end;
  sh_key d := match keys d with k :: l => (k, Desk (files d) l (typing d)) | [] => (113, d) end;
  sh_draw d _ := d;
}.

#[export] Instance desk_files : SheetFiles desk.
Proof.
  refine {| stored := fun d path data => find_file path (files d) = Some data |}.
  - intros d path data rc d' [= <- <-] _. cbn. by rewrite bool_decide_eq_true_2.
  - intros d path data E. cbn. rewrite E. by exists 1, d.
  - intros d path data capacity E Hl. cbn. rewrite E. replace (zlen data <=? capacity) with true by lia. by exists d.
Defined.

#[export] Instance desk_safe : SafeSheetOs desk.
Proof.
  constructor. intros d prompt capacity rc data d' Hc. cbn. destruct (typing d) as [|t l]; [by intros [= <- <- <-]; split; [|left]|].
  destruct (Z.ltb_spec (zlen t) capacity); intros [= <- <- <-]; (split; [|first [by left | right; apply is_text_zero]]); [|done].
  pose proof (length_filter (fun c => c <> 0) t). unfold zlen in *. rewrite length_app. cbn. lia.
Defined.

(** A sheet with two cells filled in. *)
Definition texts : list bytes := lit "Name" :: lit "42" :: replicate 510 [].
Definition table (l : list bytes) (k : list Z) (t : list bytes) : program desk :=
  App (map stored_cell l) (lit "a.slk" ++ zeros 251) (zeros (Z.to_nat FILE_BUF_SIZE)) (zeros (Z.to_nat FILE_BUF_SIZE)) (Desk [] k t).

Lemma texts_plain : Forall plain texts.
Proof.
  unfold texts. do 2 (apply Forall_cons; split; [split; [by repeat constructor | vm_compute; congruence]|]).
  apply Forall_replicate. split; [constructor | vm_compute; congruence].
Qed.

Lemma sheet_roundtrip_witness :
  holds_all (sheet (table texts [] [])) texts /\
  exists s1, save_slk_file (table texts [] []) = Some (Val 1, s1) /\
    exists s2, load_slk_file s1 = Some (Val tt, s2) /\ holds_all (sheet s2) texts.
Proof.
  assert (holds_all (sheet (table texts [] [])) texts) as Hh by (split; [apply stored_holds, texts_plain | reflexivity]).
  split; [exact Hh|]. destruct (sheet_roundtrip (table texts [] []) texts Hh) as (_ & rc & w & s1 & Ew & E & _ & _ & Hrt).
  pose proof (f_equal fst Ew : 0 = rc) as <-. exists s1. split; [exact E|]. apply Hrt; [vm_compute; congruence | exact texts_plain].
Defined.

Lemma sheet_session_witness :
  session_ok (table texts [115; 101; 113] [lit "x"]) /\ cursor_ok (Cursor 0 0 0 true) /\
  exists r s', while_nat 3 key_round (Cursor 0 0 0 true) (table texts [115; 101; 113] [lit "x"]) = Some (Val r, s') /\
    session_ok s' /\ round_ok r.
Proof.
  assert (session_ok (table texts [115; 101; 113] [lit "x"])) as Hs.
  { split; [reflexivity|]. split; [|by exists (lit "a.slk"), (zeros 250); split; [|repeat constructor]].
    apply Forall_map, (Forall_impl _ _ _ texts_plain). intros t Ht.
    pose proof (stored_holds [t] (Forall_cons_2 _ _ _ Ht (Forall_nil_2 _))) as Hh. apply Forall2_cons_1 in Hh as [[Hl Hc] _].
    split; [exact Hl | by exists t]. }
  assert (cursor_ok (Cursor 0 0 0 true)) as Hu by (unfold cursor_ok, MAX_ROWS, MAX_COLS, VIEW_ROWS; cbn; lia).
  split; [exact Hs|]. split; [exact Hu|]. exact (sheet_session 3 _ _ Hs Hu).
Defined.

(** The cells after a sheet is saved and loaded. *)
Definition reloaded (l : list bytes) : option (list bytes) :=
  '(_, s) ← save_slk_file (table l [] []);
  '(_, s) ← load_slk_file s;
  Some (take 2 (sheet s)).

(** A quote ends the text of a cell in the file, and what follows it is read as
    fields: the text comes back shorter, or in another cell. *)
Example quote_cuts_text : reloaded ([97; c_quote; 98] :: replicate 511 []) = Some [stored_cell [97]; stored_cell []].
Proof. vm_compute. reflexivity. Qed.

Example quote_moves_text : reloaded ([97; c_quote; 88; 50] :: replicate 511 []) = Some [stored_cell []; stored_cell [97]].
Proof. vm_compute. reflexivity. Qed.

End Desk.
