(* ===== verification/Scheduler.v ===== *)
(** * The scheduler (helper/core/execute/scheduler.c)

    Eight task slots; slot 0 is the kernel's own thread (the shell).  The
    registers a switch saves and restores are explicit ([cpu]); what the
    scheduler asks of the file system, the workspaces, the system-call layer,
    the memory manager and the loader is the interface [Services].  The
    operations run with interrupts disabled or inside the timer interrupt, so
    each is one step.  Saved interrupt frames are pointers; the frame of a new
    task, which lies at the top of its own kernel stack, is kept with the task. *)

From S2P Require Import Prelude Mmu Elf LinuxFd.

Definition SCHEDULER_TASK_LIMIT : nat := 8.
Definition MAX_TERMINALS : Z := 4.
Definition CWD_SIZE : Z := 260.

(** The fields of an interrupt frame that a new task sets; the others are 0. *)
Record interrupt_frame_t := Frame {
  f_rdi : Z; f_rsi : Z; f_vector : Z; f_rip : Z; f_cs : Z; f_rflags : Z; f_rsp : Z; f_ss : Z }.

Definition zero_frame : interrupt_frame_t := Frame 0 0 0 0 0 0 0 0.

(** Where a task continues: a pointer given by the interrupt stub, or the frame
    at the top of its own kernel stack. *)
Inductive frame_ptr := NoFrame | At (p : Z) | OwnStack.

Record scheduler_task_t := Task {
  pid : Z; active : Z; workspace_id : Z; t_cr3 : Z; gs_base : Z; kernel_gs_base : Z;
  linux_abi : bool; fs_context_valid : bool; t_drive : Z; t_cwd : bytes;
  frame : frame_ptr; linux_context : linux_task_context_t; t_program : program_memory_t;
  fpu_state : bytes; own_frame : interrupt_frame_t }.

Definition zero_task : scheduler_task_t :=
  Task 0 0 0 0 0 0 false false 0 [] NoFrame zero_linux (Program [] 0 0) [] zero_frame.

(** The processor state that belongs to the running task.  [c_fpu] are the FPU
    registers; [c_fpu_temp] is [isr_fpu_temp], stored by the interrupt stub. *)
Record cpu := Cpu {
  c_cr3 : Z; c_gs : Z; c_kernel_gs : Z; c_fpu : bytes; c_fpu_temp : bytes; c_stack_top : Z; c_abi : bool }.

Class Services (W : Type) := {
  fs_dirname : W -> option bytes * W;
  fs_current_drive : W -> Z;
  fs_select_drive : W -> Z -> Z * W;
  fs_chdir : W -> bytes -> Z * W;
  fs_get_info : W -> bytes -> option (Z * bool) * W;
  sys_workspace_save : W -> Z -> W;
  sys_workspace_load : W -> Z -> bool -> W;
  sys_workspace_take_switch_request : W -> bool * W;
  (* [sys_switch_terminal] without its calls of the scheduler: the workspace of the running task *)
  switch_terminal : W -> Z -> W;
  current_terminal_id : W -> Z;
  linux_context_save : W -> linux_task_context_t;
  linux_context_restore : W -> linux_task_context_t -> W;
  linux_context_init : W -> linux_task_context_t;
  syscall_user_kernel_gs_base : W -> Z;
  kernel_stack_top : nat -> Z;               (* the end of [tasks[i].kernel_stack] *)
  create_pml4 : W -> Z * W;
  destroy_pml4 : W -> Z -> W;
  (* the address space that is active, then the arguments *)
  cleanup_program : W -> Z -> program_memory_t -> W;
  load_program : W -> Z -> bytes -> Z -> Z -> option (list (option bytes)) ->
    option loaded * program_memory_t * W;
}.

Record sched (W : Type) := Sched {
  tasks : list scheduler_task_t;
  current_task : nat;
  next_pid : Z;
  kernel_cr3 : Z;
  initial_kernel_stack_top : Z;
  s_cpu : cpu;
  world : W;
}.
Arguments Sched {W}.
Arguments tasks {W}.
Arguments current_task {W}.
Arguments next_pid {W}.
Arguments kernel_cr3 {W}.
Arguments initial_kernel_stack_top {W}.
Arguments s_cpu {W}.
Arguments world {W}.

Section Scheduler.
Context {W : Type} `{Services W}.
Implicit Types (s : sched W) (t : scheduler_task_t).

Definition with_tasks l s := Sched l (current_task s) (next_pid s) (kernel_cr3 s) (initial_kernel_stack_top s) (s_cpu s) (world s).
Definition with_current i s := Sched (tasks s) i (next_pid s) (kernel_cr3 s) (initial_kernel_stack_top s) (s_cpu s) (world s).
Definition with_next_pid p s := Sched (tasks s) (current_task s) p (kernel_cr3 s) (initial_kernel_stack_top s) (s_cpu s) (world s).
Definition with_cpu c s := Sched (tasks s) (current_task s) (next_pid s) (kernel_cr3 s) (initial_kernel_stack_top s) c (world s).
Definition with_world (w : W) s := Sched (tasks s) (current_task s) (next_pid s) (kernel_cr3 s) (initial_kernel_stack_top s) (s_cpu s) w.

(** [&tasks[i]]; all indices are below the limit. *)
Definition task_at s (i : nat) : scheduler_task_t := default zero_task (tasks s !! i).
Definition put_task (i : nat) t s : sched W := with_tasks (<[i := t]> (tasks s)) s.
Definition is_active t : bool := negb (active t =? 0).

Definition set_active (a : Z) t : scheduler_task_t :=
  Task (pid t) a (workspace_id t) (t_cr3 t) (gs_base t) (kernel_gs_base t) (linux_abi t)
       (fs_context_valid t) (t_drive t) (t_cwd t) (frame t) (linux_context t) (t_program t) (fpu_state t) (own_frame t).
Definition set_workspace (w : Z) t : scheduler_task_t :=
  Task (pid t) (active t) w (t_cr3 t) (gs_base t) (kernel_gs_base t) (linux_abi t)
       (fs_context_valid t) (t_drive t) (t_cwd t) (frame t) (linux_context t) (t_program t) (fpu_state t) (own_frame t).
Definition set_linux (c : linux_task_context_t) t : scheduler_task_t :=
  Task (pid t) (active t) (workspace_id t) (t_cr3 t) (gs_base t) (kernel_gs_base t) (linux_abi t)
       (fs_context_valid t) (t_drive t) (t_cwd t) (frame t) c (t_program t) (fpu_state t) (own_frame t).
Definition set_fs (valid : bool) (drive : Z) (cwd : bytes) t : scheduler_task_t :=
  Task (pid t) (active t) (workspace_id t) (t_cr3 t) (gs_base t) (kernel_gs_base t) (linux_abi t)
       valid drive cwd (frame t) (linux_context t) (t_program t) (fpu_state t) (own_frame t).
(** The registers of a task that is switched out. *)
Definition set_regs (fr : frame_ptr) (cr3 gs kgs : Z) (abi : bool) (fpu : bytes) t : scheduler_task_t :=
  Task (pid t) (active t) (workspace_id t) cr3 gs kgs abi
       (fs_context_valid t) (t_drive t) (t_cwd t) fr (linux_context t) (t_program t) fpu (own_frame t).

(** The directory strings exclude their terminator. *)
Definition scheduler_save_fs_context (i : nat) s : sched W :=
  let '(cwd, w) := fs_dirname (world s) in
  let s := with_world w s in
  let t := task_at s i in
  match cwd with
  | Some cwd =>
      if CWD_SIZE <=? zlen cwd then put_task i (set_fs false (t_drive t) (t_cwd t) t) s
      else put_task i (set_fs true (fs_current_drive w) cwd t) s
  | None => put_task i (set_fs false (t_drive t) (t_cwd t) t) s
  end.

Definition scheduler_restore_fs_context t s : sched W :=
  if negb (fs_context_valid t) then s
  else
    let '(rc, w) := fs_select_drive (world s) (t_drive t) in
    if negb (rc =? 0) then with_world w s
    else with_world (snd (fs_chdir w (t_cwd t))) s.

(** [switch_user_pml4] *)
Definition load_cr3 (pml4 : Z) (c : cpu) : cpu :=
  if pml4 =? 0 then c
  else Cpu (page_of pml4) (c_gs c) (c_kernel_gs c) (c_fpu c) (c_fpu_temp c) (c_stack_top c) (c_abi c).

Definition scheduler_activate (index : nat) s : sched W :=
  let t := task_at s index in
  let s := with_current index s in
  let c := load_cr3 (t_cr3 t) (s_cpu s) in
  let top := if (index =? 0)%nat then initial_kernel_stack_top s else kernel_stack_top index in
  let s := with_cpu (Cpu (c_cr3 c) (c_gs c) (c_kernel_gs c) (c_fpu c) (c_fpu_temp c) top (c_abi c)) s in
  let s := scheduler_restore_fs_context t s in
  let s := if linux_abi t then with_world (linux_context_restore (world s) (linux_context t)) s else s in
  let c := s_cpu s in
  let s := with_cpu (Cpu (c_cr3 c) (gs_base t) (kernel_gs_base t) (fpu_state t) (c_fpu_temp c)
                         (c_stack_top c) (linux_abi t)) s in
  with_world (sys_workspace_load (world s) (workspace_id t)
                (workspace_id t =? u32 (current_terminal_id (world s)))) s.

(** [for (step = 1; step <= 8; step++)] *)
Fixpoint find_next_loop (k step : nat) s (after : nat) : nat :=
  match k with
  | O => 0%nat
  | S k' =>
      let index := ((after + step) mod SCHEDULER_TASK_LIMIT)%nat in
      if is_active (task_at s index) then index else find_next_loop k' (S step) s after
  end.

Definition scheduler_find_next s (after : nat) : nat := find_next_loop SCHEDULER_TASK_LIMIT 1 s after.

(** The machine at boot; [kernel_stack_top] of the gdt is [c_stack_top]. *)
Definition scheduler_init s : sched W :=
  let c := s_cpu s in
  let s := Sched (replicate SCHEDULER_TASK_LIMIT zero_task) 0 (next_pid s) (page_of (c_cr3 c))
                 (c_stack_top c) c (world s) in
  let t0 := Task 0 1 0 (kernel_cr3 s) (c_gs c) (c_kernel_gs c) false false 0 [] NoFrame zero_linux
                 (Program [] 0 0) [] zero_frame in
  let s := scheduler_save_fs_context 0 (put_task 0 t0 s) in
  let t := task_at s 0 in
  let t := set_linux (linux_context_init (world s)) t in
  let t := set_regs (frame t) (t_cr3 t) (gs_base t) (kernel_gs_base t) (linux_abi t) (c_fpu c) t in
  with_cpu (Cpu (c_cr3 c) (c_gs c) (c_kernel_gs c) (c_fpu c) (c_fpu c) (c_stack_top c) (c_abi c))
           (put_task 0 t s).

(** Save the running task. *)
Definition save_outgoing (fr : Z) s : sched W :=
  let i := current_task s in
  let c := s_cpu s in
  let t := task_at s i in
  let t := set_regs (At fr) (page_of (c_cr3 c)) (c_gs c) (c_kernel_gs c) (c_abi c) (fpu_state t) t in
  let t := if c_abi c then set_linux (linux_context_save (world s)) t else t in
  let s := scheduler_save_fs_context i (put_task i t s) in
  let t := task_at s i in
  let t := set_regs (frame t) (t_cr3 t) (gs_base t) (kernel_gs_base t) (linux_abi t) (c_fpu_temp c) t in
  let s := put_task i t s in
  with_world (sys_workspace_save (world s) (workspace_id t)) s.

Definition restore_fpu (b : bytes) s : sched W :=
  let c := s_cpu s in
  with_cpu (Cpu (c_cr3 c) (c_gs c) (c_kernel_gs c) b (c_fpu_temp c) (c_stack_top c) (c_abi c)) s.

Definition scheduler_current_pid s : Z := pid (task_at s (current_task s)).
Definition scheduler_current_workspace s : Z := workspace_id (task_at s (current_task s)).

Definition scheduler_set_shell_workspace (ws : Z) s : sched W :=
  if MAX_TERMINALS <=? ws then s else put_task 0 (set_workspace ws (task_at s 0)) s.

(** kernel/tui/workspaces.c calls back into the scheduler. *)
Definition sys_switch_terminal s : sched W :=
  let s := with_world (switch_terminal (world s) (scheduler_current_workspace s)) s in
  scheduler_set_shell_workspace (u32 (current_terminal_id (world s))) s.

(** [None] is a NULL frame.  The result is the frame to return to. *)
Definition scheduler_on_timer (fr : option Z) s : frame_ptr * sched W :=
  match fr with
  | None => (NoFrame, s)
  | Some fr =>
      if negb (is_active (task_at s (current_task s))) then (At fr, s)
      else
        let s := save_outgoing fr s in
        let '(switched, w) := sys_workspace_take_switch_request (world s) in
        let s := with_world w s in
        let s := if (switched : bool) then sys_switch_terminal s else s in
        let next := scheduler_find_next s (current_task s) in
        if (next =? current_task s)%nat then
          let outgoing := task_at s (current_task s) in
          let s :=
            if (switched : bool) then scheduler_activate (current_task s) s
            else with_world (sys_workspace_load (world s) (workspace_id outgoing)
                   (workspace_id outgoing =? u32 (current_terminal_id (world s)))) s in
          (At fr, restore_fpu (fpu_state outgoing) s)
        else
          let s := scheduler_activate next s in
          (frame (task_at s next), s)
  end.

(** The first free slot from [i] on. *)
Fixpoint find_free (k i : nat) s : option nat :=
  match k with
  | O => None
  | S k' => if negb (is_active (task_at s i)) then Some i else find_free k' (S i) s
  end.

(** Paths exclude their terminator; [None] is a NULL pointer.  The result is the
    new pid, [None] for -1; [out_pid] is not NULL. *)
Definition scheduler_spawn_elf (path : option bytes) (argc : Z) (argv : option (list (option bytes)))
  (ws : Z) s : option Z * sched W :=
  match path with
  | None => (None, s)
  | Some path =>
      if bool_decide (path = []) || (argc <? 0) || (32 <? argc) ||
         ((0 <? argc) && bool_decide (argv = None)) || (MAX_TERMINALS <=? ws)
      then (None, s)
      else
        match find_free 7 1 s with
        | None => (None, s)
        | Some slot =>
            let me := current_task s in
            let s := scheduler_save_fs_context me s in
            let s := put_task slot zero_task s in
            let parent := task_at s me in
            let t := set_fs (fs_context_valid parent) (t_drive parent) (t_cwd parent)
                            (set_workspace ws zero_task) in
            let s := put_task slot t s in
            let '(info, w) := fs_get_info (world s) path in
            let s := with_world w s in
            let fail s := (None, scheduler_restore_fs_context (task_at s me) s) in
            match info with
            | None => fail s
            | Some (file_size, is_dir) =>
                if (is_dir : bool) || (file_size =? 0) || (MAX_FLAT_BINARY_SIZE <? file_size) then fail s
                else
                  let parent_cr3 := page_of (c_cr3 (s_cpu s)) in
                  let '(pml4, w) := create_pml4 (world s) in
                  let s := with_world w s in
                  if pml4 =? 0 then fail s
                  else
                    let s := with_cpu (load_cr3 pml4 (s_cpu s)) s in
                    let '(r, prog, w) := load_program (world s) (c_cr3 (s_cpu s)) path file_size argc argv in
                    let s := with_cpu (load_cr3 parent_cr3 (s_cpu s)) (with_world w s) in
                    match r with
                    | None =>
                        let s := put_task slot (Task 0 0 ws 0 0 0 false (fs_context_valid t) (t_drive t) (t_cwd t)
                                   NoFrame zero_linux prog [] zero_frame) s in
                        fail (with_world (destroy_pml4 (world s) pml4) s)
                    | Some l =>
                        let new_pid := next_pid s in
                        let bumped := u32 (next_pid s + 1) in
                        let s := with_next_pid (if bumped =? 0 then 2 else bumped) s in
                        let fr := Frame argc (ld_user_argv l) 32 (ld_entry l) 0x23 0x202 (ld_stack l) 0x1B in
                        let lc := linux_context_init (world s) in
                        let lc := if ld_linux_abi l && (heap_start lc <? ld_heap_base l) &&
                                     (ld_heap_base l <? USER_MMAP_BASE)
                                  then LinuxContext (file_descriptors lc) (ld_heap_base l) (mmap_cursor lc) (ld_heap_base l)
                                  else lc in
                        let t := Task new_pid 1 ws pml4 0 (syscall_user_kernel_gs_base (world s)) (ld_linux_abi l)
                                   (fs_context_valid t) (t_drive t) (t_cwd t) OwnStack lc prog
                                   (fpu_state (task_at s 0)) fr in
                        let s := put_task slot t s in
                        (Some new_pid, scheduler_restore_fs_context (task_at s me) s)
                    end
            end
        end
  end.

Record scheduler_task_info_t := TaskInfo { i_pid : Z; i_state : Z; i_workspace : Z }.

(** The entries stored in [output], and the count. *)
Definition task_infos s : list scheduler_task_info_t :=
  (fun i => let t := task_at s i in
            TaskInfo (pid t) (if (i =? current_task s)%nat then 2 else 1) (workspace_id t))
  <$> filter (fun i => is_active (task_at s i) = true) (seq 1 7).

Definition scheduler_list (output : bool) (capacity : Z) s : list scheduler_task_info_t * Z :=
  let l := task_infos s in
  ((if output then take (Z.to_nat capacity) l else []), zlen l).

Fixpoint find_pid (k i : nat) (p : Z) s : option nat :=
  match k with
  | O => None
  | S k' =>
      if is_active (task_at s i) && (pid (task_at s i) =? p) then Some i else find_pid k' (S i) p s
  end.

Definition scheduler_kill (p : Z) s : Z * sched W :=
  if p =? 0 then (-1, s)
  else
    match find_pid 7 1 p s with
    | None => (-1, s)
    | Some i =>
        let t := task_at s i in
        let s := put_task i (set_active 0 t) s in
        let s := with_world (cleanup_program (world s) (c_cr3 (s_cpu s)) (t_program t)) s in
        (0, with_world (destroy_pml4 (world s) (t_cr3 t)) s)
    end.

(** [None] is [syscall_exit_to_launcher]; otherwise the frame that is resumed. *)
Definition scheduler_exit_current s : option (frame_ptr * sched W) :=
  if (current_task s =? 0)%nat then None
  else
    let exiting := current_task s in
    let t := task_at s exiting in
    let s := if c_abi (s_cpu s) then put_task exiting (set_linux (linux_context_save (world s)) t) s else s in
    let s := scheduler_save_fs_context exiting s in
    let t := task_at s exiting in
    let s := with_world (sys_workspace_save (world s) (workspace_id t)) s in
    let s := with_world (cleanup_program (world s) (c_cr3 (s_cpu s)) (t_program t)) s in
    let s := put_task exiting (set_active 0 t) s in
    let next := scheduler_find_next s exiting in
    let target_frame := frame (task_at s next) in
    let target_cr3 := t_cr3 (task_at s next) in
    let s := with_world (destroy_pml4 (world s) (t_cr3 t)) s in
    let s := with_current next s in
    Some (target_frame, with_cpu (load_cr3 target_cr3 (s_cpu s)) s).

End Scheduler.
