(* ===== verification/SchedProofs.v ===== *)
(** * Properties of the scheduler

    The invariant of the task table and its preservation, round-robin fairness,
    what a context switch saves and restores, and two cases in which the
    scheduler loses track of the running task. *)

From Stdlib Require Import ZifyNat.
From S2P Require Import Prelude Mmu Elf LinuxFd Scheduler.

(** Division and remainder on [nat]. *)
Ltac nat_div_lia := zify; Z.to_euclidean_division_equations; lia.

Section Proofs.
Context {W : Type} `{Services W}.
Implicit Types (s : sched W) (t : scheduler_task_t).

(** What the scheduling decisions depend on. *)
Definition core s : list (Z * Z) := (fun t => (active t, pid t)) <$> tasks s.
Definition act s (i : nat) : bool := is_active (task_at s i).

Lemma core_length s : length (core s) = length (tasks s).
Proof. apply length_fmap. Qed.

Lemma act_core s s' i : core s = core s' -> act s i = act s' i.
Proof.
  unfold core, act, task_at. intros E. apply (f_equal (fun l => l !! i)) in E. rewrite !list_lookup_fmap in E.
  unfold is_active. destruct (tasks s !! i), (tasks s' !! i); cbn in *; congruence.
Qed.

Lemma pid_core s s' i : core s = core s' -> pid (task_at s i) = pid (task_at s' i).
Proof.
  unfold core, task_at. intros E. apply (f_equal (fun l => l !! i)) in E. rewrite !list_lookup_fmap in E.
  destruct (tasks s !! i), (tasks s' !! i); cbn in *; congruence.
Qed.

Lemma task_put i t s j : (i < length (tasks s))%nat -> task_at (put_task i t s) j = if decide (i = j) then t else task_at s j.
Proof.
  intros Hi. unfold task_at, put_task. cbn. destruct (decide (i = j)) as [<-|].
  - by rewrite list_lookup_insert_eq.
  - by rewrite list_lookup_insert_ne.
Qed.

Lemma core_put i t s :
  active t = active (task_at s i) -> pid t = pid (task_at s i) -> core (put_task i t s) = core s.
Proof.
  unfold core, put_task, task_at. cbn. intros Ha Hp. rewrite list_fmap_insert.
  destruct (tasks s !! i) as [t0|] eqn:E; cbn in *.
  - apply list_insert_id. rewrite list_lookup_fmap, E. cbn. congruence.
  - apply list_insert_ge. rewrite length_fmap. by apply lookup_ge_None.
Qed.

(** [s'] differs from [s] in nothing the scheduling decisions depend on. *)
Definition same_core s s' : Prop :=
  core s' = core s /\ current_task s' = current_task s /\ next_pid s' = next_pid s /\
  initial_kernel_stack_top s' = initial_kernel_stack_top s.

Lemma same_core_trans s1 s2 s3 : same_core s1 s2 -> same_core s2 s3 -> same_core s1 s3.
Proof. unfold same_core. intuition congruence. Qed.

Lemma same_core_put i t s :
  active t = active (task_at s i) -> pid t = pid (task_at s i) -> same_core s (put_task i t s).
Proof. intros. split_and!; try done. by apply core_put. Qed.

Lemma save_fs_core i s : same_core s (scheduler_save_fs_context i s).
Proof.
  unfold scheduler_save_fs_context. destruct (fs_dirname (world s)) as [cwd w].
  apply (same_core_trans _ (with_world w s)); [done|].
  destruct cwd as [cwd|]; [destruct (CWD_SIZE <=? zlen cwd)|]; by apply same_core_put.
Qed.

Lemma restore_fs_eq t s : exists w, scheduler_restore_fs_context t s = with_world w s.
Proof.
  unfold scheduler_restore_fs_context. destruct (fs_context_valid t); cbn [negb].
  - destruct (fs_select_drive _ _) as [rc w]. destruct (rc =? 0); by eexists.
  - exists (world s). by destruct s.
Qed.

Lemma set_workspace_core ws s : same_core s (scheduler_set_shell_workspace ws s).
Proof. unfold scheduler_set_shell_workspace. destruct (MAX_TERMINALS <=? ws); [done|]. by apply same_core_put. Qed.

Lemma switch_terminal_core s : same_core s (sys_switch_terminal s).
Proof. eapply same_core_trans; [|apply set_workspace_core]. done. Qed.

Lemma activate_core i s :
  core (scheduler_activate i s) = core s /\ current_task (scheduler_activate i s) = i /\
  next_pid (scheduler_activate i s) = next_pid s /\ tasks (scheduler_activate i s) = tasks s /\
  initial_kernel_stack_top (scheduler_activate i s) = initial_kernel_stack_top s.
Proof.
  unfold scheduler_activate. cbv zeta.
  match goal with |- context [scheduler_restore_fs_context ?t ?x] => destruct (restore_fs_eq t x) as [w ->] end.
  by destruct (linux_abi (task_at s i)).
Qed.

Lemma save_outgoing_core fr s : same_core s (save_outgoing fr s).
Proof.
  unfold save_outgoing. cbv zeta.
  match goal with |- context [put_task (current_task s) (if _ then set_linux ?c ?t else ?t') s] =>
    set (t1 := if c_abi (s_cpu s) then set_linux c t else t') end.
  assert (active t1 = active (task_at s (current_task s)) /\ pid t1 = pid (task_at s (current_task s))) as [Ha Hp]
    by (unfold t1; by destruct (c_abi (s_cpu s))).
  pose proof (save_fs_core (current_task s) (put_task (current_task s) t1 s)) as Hfs.
  set (s1 := scheduler_save_fs_context _ _) in *.
  eapply same_core_trans; [by apply same_core_put|]. eapply same_core_trans; [exact Hfs|].
  apply (same_core_trans _ (put_task (current_task s)
    (set_regs (frame (task_at s1 (current_task s))) (t_cr3 (task_at s1 (current_task s)))
       (gs_base (task_at s1 (current_task s))) (kernel_gs_base (task_at s1 (current_task s)))
       (linux_abi (task_at s1 (current_task s))) (c_fpu_temp (s_cpu s)) (task_at s1 (current_task s))) s1)); [|done].
  by apply same_core_put.
Qed.

(** ** Finding the next task *)

Lemma find_next_loop_spec k step s after :
  (step + k = 9)%nat -> (exists d, step <= d <= 8 /\ act s ((after + d) mod 8) = true)%nat ->
  exists d, (step <= d <= 8)%nat /\ find_next_loop k step s after = ((after + d) mod 8)%nat /\
    act s ((after + d) mod 8)%nat = true /\
    forall d', (step <= d' < d)%nat -> act s ((after + d') mod 8)%nat = false.
Proof.
  revert step. induction k as [|k IH]; intros step Hk (d & Hd & Ha); [lia|]. cbn [find_next_loop].
  fold (act s ((after + step) mod SCHEDULER_TASK_LIMIT)). unfold SCHEDULER_TASK_LIMIT.
  destruct (act s ((after + step) mod 8)) eqn:E.
  - exists step. split_and!; try done; lia.
  - destruct (decide (d = step)) as [->|]; [congruence|].
    destruct (IH (S step)) as (e & He & Hf & Hact & Hmin); [lia | exists d; split; [lia | done] |].
    exists e. split_and!; try done; [lia..|]. intros d' Hd'. destruct (decide (d' = step)) as [->|]; [done|].
    apply Hmin. lia.
Qed.

Lemma find_next_spec s after j :
  (j < 8)%nat -> act s j = true ->
  exists d, (1 <= d <= 8)%nat /\ scheduler_find_next s after = ((after + d) mod 8)%nat /\
    act s (scheduler_find_next s after) = true /\
    forall d', (1 <= d' < d)%nat -> act s ((after + d') mod 8)%nat = false.
Proof.
  intros Hj Ha. destruct (find_next_loop_spec 8 1 s after) as (d & Hd & E & Hact & Hmin); [lia| |].
  - pose proof (Nat.mod_upper_bound after 8 ltac:(lia)) as Hm.
    pose proof (Nat.div_mod after 8 ltac:(lia)) as Hdm.
    assert (exists d, (1 <= d <= 8)%nat /\ ((after + d) mod 8 = j)%nat) as (d & Hd & E).
    { exists (if decide (after mod 8 < j)%nat then j - after mod 8 else 8 + j - after mod 8)%nat.
      destruct (decide _); (split; [lia|]).
      - replace (after + (j - after mod 8))%nat with (j + after / 8 * 8)%nat by lia.
        rewrite Nat.Div0.mod_add. by apply Nat.mod_small.
      - replace (after + (8 + j - after mod 8))%nat with (j + (1 + after / 8) * 8)%nat by lia.
        rewrite Nat.Div0.mod_add. by apply Nat.mod_small. }
    exists d. by rewrite E.
  - exists d. unfold scheduler_find_next, SCHEDULER_TASK_LIMIT. rewrite E. split_and!; first [done | lia].
Qed.

Lemma find_next_core s s' after : core s = core s' -> scheduler_find_next s after = scheduler_find_next s' after.
Proof.
  intros Hc. unfold scheduler_find_next. generalize 1%nat. induction SCHEDULER_TASK_LIMIT as [|k IH]; intros step; [done|].
  cbn [find_next_loop]. fold (act s ((after + step) mod SCHEDULER_TASK_LIMIT)).
  fold (act s' ((after + step) mod SCHEDULER_TASK_LIMIT)). rewrite (act_core s s' _ Hc).
  by destruct (act s' _).
Qed.

Lemma find_next_lt s after : (scheduler_find_next s after < 8)%nat.
Proof.
  unfold scheduler_find_next.
  assert (forall k step, (find_next_loop k step s after < 8)%nat) as Hk; [|apply Hk].
  intros k. induction k as [|k IH]; intros step; cbn [find_next_loop]; [lia|].
  destruct (is_active _); [apply Nat.mod_upper_bound; unfold SCHEDULER_TASK_LIMIT; lia | apply IH].
Qed.

(** ** The invariant of the task table *)

Record sched_ok s : Prop := {
  ok_length : length (tasks s) = 8%nat;
  ok_current : (current_task s < 8)%nat;
  ok_kernel : act s 0 = true /\ pid (task_at s 0) = 0;
  ok_next : 2 <= next_pid s <= UINT32_MAX;
  ok_pids : forall i, (1 <= i < 8)%nat -> act s i = true -> 2 <= pid (task_at s i) < next_pid s;
  ok_distinct : forall i j, (1 <= i < 8)%nat -> (1 <= j < 8)%nat -> act s i = true -> act s j = true ->
    pid (task_at s i) = pid (task_at s j) -> i = j }.

Lemma ok_same_core s s' : sched_ok s -> same_core s s' -> sched_ok s'.
Proof.
  intros [Hl Hc Hk Hn Hp Hd] (E & Ec & En & _).
  assert (forall i, act s' i = act s i) as Ea by (intros; by apply act_core).
  assert (forall i, pid (task_at s' i) = pid (task_at s i)) as Ep by (intros; by apply pid_core).
  constructor; rewrite ?Ec, ?En, ?Ea, ?Ep; try done.
  - rewrite <- core_length, E, core_length. done.
  - intros i. rewrite Ea, Ep. apply Hp.
  - intros i j. rewrite !Ea, !Ep. apply Hd.
Qed.

(** The part of a task that the processor determines. *)
Definition regs t : frame_ptr * Z * Z * Z * bool * bytes :=
  (frame t, t_cr3 t, gs_base t, kernel_gs_base t, linux_abi t, fpu_state t).

(** The state after [save_outgoing] and a possible switch of the workspace. *)
Definition saved fr s s1 : Prop :=
  same_core s s1 /\ forall j, regs (task_at s1 j) = regs (task_at (save_outgoing fr s) j).

Lemma switch_terminal_regs s j : regs (task_at (sys_switch_terminal s) j) = regs (task_at s j).
Proof.
  unfold sys_switch_terminal. cbv zeta. set (s1 := with_world _ s). unfold scheduler_set_shell_workspace.
  destruct (MAX_TERMINALS <=? _); [done|]. unfold task_at at 1, put_task. cbn [tasks with_tasks].
  destruct (decide (j = 0%nat)) as [->|]; [|by rewrite list_lookup_insert_ne].
  unfold s1, task_at. cbn [tasks with_world]. destruct (tasks s) as [|t l]; done.
Qed.

(** A tick with an active running task: it is saved, and then either resumed or
    the next one is activated. *)
Lemma on_timer_cases fr s :
  act s (current_task s) = true ->
  let i := current_task s in
  let next := scheduler_find_next s i in
  exists s1, saved fr s s1 /\
    ((next = i /\ exists s2, scheduler_on_timer (Some fr) s = (At fr, restore_fpu (fpu_state (task_at s1 i)) s2) /\
       (s2 = scheduler_activate i s1 \/ exists w2, s2 = with_world w2 s1)) \/
    (next <> i /\ scheduler_on_timer (Some fr) s = (frame (task_at s1 next), scheduler_activate next s1))).
Proof.
  intros Ha i next. unfold scheduler_on_timer. fold (act s (current_task s)). rewrite Ha. cbn [negb].
  pose proof (save_outgoing_core fr s) as Hsc. unfold saved. set (s0 := save_outgoing fr s) in *.
  destruct (sys_workspace_take_switch_request (world s0)) as [sw w].
  exists (if sw then sys_switch_terminal (with_world w s0) else with_world w s0).
  set (s1 := if sw then _ else _).
  assert (same_core s s1) as Hs1.
  { eapply same_core_trans; [exact Hsc|]. unfold s1. destruct sw; [|done]. apply (switch_terminal_core (with_world w s0)). }
  split; [split; [done|]; intros j; unfold s1; destruct sw; [by rewrite switch_terminal_regs | done]|].
  destruct Hs1 as (Hc & Hcur & _). rewrite Hcur. fold i. rewrite (find_next_core s1 s i Hc). fold next.
  destruct (Nat.eqb_spec next i) as [E|E].
  - left. split; [done|]. destruct sw; eexists; (split; [reflexivity|]); [by left | right; by eexists].
  - right. split; [done|]. destruct (activate_core next s1) as (_ & _ & _ & Et & _).
    unfold task_at at 1. by rewrite Et.
Qed.

(** [on_timer] as the scheduling decision sees it. *)
Lemma on_timer_core fr s :
  act s (current_task s) = true ->
  let s' := snd (scheduler_on_timer (Some fr) s) in
  core s' = core s /\ next_pid s' = next_pid s /\
  current_task s' = scheduler_find_next s (current_task s).
Proof.
  intros Ha. destruct (on_timer_cases fr s Ha) as (s1 & ((Hc1 & Hcur1 & Hn1 & _) & _) & Hw). cbv zeta in *.
  destruct Hw as [(E & s2 & -> & Hs2)|(E & ->)]; cbn [snd].
  - assert (core s2 = core s /\ next_pid s2 = next_pid s /\ current_task s2 = current_task s) as (H1 & H2 & H3).
    { destruct Hs2 as [->|[w2 ->]]; [|done].
      destruct (activate_core (current_task s) s1) as (E1 & E2 & E3 & _). rewrite E1, E2, E3. done. }
    unfold restore_fpu. split_and!; [exact H1 | exact H2 |]. rewrite E. exact H3.
  - destruct (activate_core (scheduler_find_next s (current_task s)) s1) as (E1 & E2 & E3 & _).
    rewrite E1, E2, E3. done.
Qed.

(** ** Round robin *)

(** What happens until the next tick: the running task leaves the processor and
    the rest of the kernel in any state, and the stub passes its frame. *)
Abbreviation slot := (cpu * W * Z)%type.

Definition tick s (x : slot) : frame_ptr * sched W :=
  let '(c, w, fr) := x in scheduler_on_timer (Some fr) (with_world w (with_cpu c s)).

Definition ticks s (l : list slot) : sched W := foldl (fun s x => snd (tick s x)) s l.

Definition distance (i j : nat) : nat := ((j + 8 - i) mod 8)%nat.

Lemma tick_core s x :
  act s (current_task s) = true ->
  core (snd (tick s x)) = core s /\ next_pid (snd (tick s x)) = next_pid s /\
  current_task (snd (tick s x)) = scheduler_find_next s (current_task s).
Proof.
  destruct x as [[c w] fr]. intros Ha. unfold tick.
  destruct (on_timer_core fr (with_world w (with_cpu c s)) Ha) as (E1 & E2 & E3).
  split_and!; [by rewrite E1 | by rewrite E2 |]. rewrite E3. by apply find_next_core.
Qed.

Lemma tick_active s x :
  act s 0 = true -> act s (current_task s) = true ->
  act (snd (tick s x)) (current_task (snd (tick s x))) = true.
Proof.
  intros H0 Ha. destruct (tick_core s x Ha) as (E1 & _ & E3). rewrite (act_core _ s _ E1), E3.
  destruct (find_next_spec s (current_task s) 0) as (d & _ & _ & Hact & _); [lia | done | done].
Qed.

Lemma tick_closer s x j :
  (current_task s < 8)%nat -> act s (current_task s) = true ->
  (j < 8)%nat -> act s j = true -> current_task s <> j ->
  (distance (current_task (snd (tick s x))) j < distance (current_task s) j)%nat.
Proof.
  intros Hc Ha Hj Haj Hne. destruct (tick_core s x Ha) as (_ & _ & ->).
  destruct (find_next_spec s (current_task s) j Hj Haj) as (d & Hd & E & _ & Hmin). rewrite E.
  set (i := current_task s) in *. unfold distance in *.
  assert (d <= (j + 8 - i) mod 8)%nat as Hle.
  { destruct (decide (d <= (j + 8 - i) mod 8)%nat) as [?|Hgt]; [done|].
    assert (act s ((i + (j + 8 - i) mod 8) mod 8)%nat = false) as Hf.
    { apply Hmin. split; [|lia]. nat_div_lia. }
    replace ((i + (j + 8 - i) mod 8) mod 8)%nat with j in Hf
      by (nat_div_lia). congruence. }
  nat_div_lia.
Qed.

Lemma ticks_reach n : forall s j l,
  (current_task s < 8)%nat -> act s 0 = true -> act s (current_task s) = true ->
  (j < 8)%nat -> act s j = true -> (distance (current_task s) j <= n)%nat -> (n <= length l)%nat ->
  exists k, (k <= n)%nat /\ current_task (ticks s (take k l)) = j.
Proof.
  induction n as [|n IH]; intros s j l Hc H0 Ha Hj Haj Hd Hl.
  - exists 0%nat. split; [done|]. change (current_task s = j). unfold distance in Hd. nat_div_lia.
  - destruct (decide (current_task s = j)) as [|Hne]; [exists 0%nat; split; [lia | done]|].
    destruct l as [|x l]; cbn in Hl; [lia|].
    pose proof (tick_closer s x j Hc Ha Hj Haj Hne) as Hcl.
    destruct (tick_core s x Ha) as (E1 & _ & E3).
    destruct (IH (snd (tick s x)) j l) as (k & Hk & Ek).
    + rewrite E3. apply find_next_lt.
    + by rewrite (act_core _ s _ E1).
    + by apply tick_active.
    + done.
    + by rewrite (act_core _ s _ E1).
    + lia.
    + lia.
    + exists (S k). split; [lia | done].
Qed.

(** C12: round robin is fair.  While no task is created or ends, every active task
    becomes the running one within seven timer ticks, whatever the running tasks
    do to the processor and to the rest of the kernel in between. *)
Theorem round_robin_fair s j l :
  sched_ok s -> act s (current_task s) = true -> (j < 8)%nat -> act s j = true -> (7 <= length l)%nat ->
  exists k, (k <= 7)%nat /\ current_task (ticks s (take k l)) = j.
Proof.
  intros [Hl Hc [H0 _] _ _ _] Ha Hj Haj Hlen. apply ticks_reach; try done.
  unfold distance. pose proof (Nat.mod_upper_bound (j + 8 - current_task s) 8). lia.
Qed.

(** ** Context switches *)

Lemma save_fs_other i j s : i <> j -> task_at (scheduler_save_fs_context i s) j = task_at s j.
Proof.
  intros Hne. unfold scheduler_save_fs_context. destruct (fs_dirname (world s)) as [cwd w].
  destruct cwd as [cwd|]; [destruct (CWD_SIZE <=? zlen cwd)|];
    unfold task_at, put_task; cbn; by rewrite list_lookup_insert_ne.
Qed.

Lemma save_fs_regs i s :
  (i < length (tasks s))%nat -> regs (task_at (scheduler_save_fs_context i s) i) = regs (task_at s i).
Proof.
  intros Hi. unfold scheduler_save_fs_context. destruct (fs_dirname (world s)) as [cwd w].
  destruct cwd as [cwd|]; [destruct (CWD_SIZE <=? zlen cwd)|];
    rewrite task_put by done; by rewrite decide_True.
Qed.

Lemma save_outgoing_other fr s j : current_task s <> j -> task_at (save_outgoing fr s) j = task_at s j.
Proof.
  intros Hne. unfold save_outgoing. cbv zeta.
  set (s1 := scheduler_save_fs_context _ _). cbn. unfold task_at at 1, put_task. cbn.
  rewrite list_lookup_insert_ne by done. fold (task_at s1 j). unfold s1. rewrite save_fs_other by done.
  unfold task_at, put_task. cbn. by rewrite list_lookup_insert_ne.
Qed.

Lemma save_outgoing_regs fr s :
  (current_task s < length (tasks s))%nat ->
  let c := s_cpu s in
  regs (task_at (save_outgoing fr s) (current_task s)) =
  (At fr, page_of (c_cr3 c), c_gs c, c_kernel_gs c, c_abi c, c_fpu_temp c).
Proof.
  intros Hi c. unfold save_outgoing. cbv zeta. fold c.
  match goal with |- context [put_task (current_task s) (if _ then set_linux ?x ?t else ?t') s] =>
    set (t1 := if c_abi c then set_linux x t else t') end.
  pose proof (save_fs_core (current_task s) (put_task (current_task s) t1 s)) as (Hc & _).
  pose proof (save_fs_regs (current_task s) (put_task (current_task s) t1 s)) as Hr.
  set (s1 := scheduler_save_fs_context _ _) in *.
  rewrite task_put in Hr by (by cbn; rewrite ?length_insert).
  rewrite decide_True in Hr by done. cbn [tasks put_task with_tasks] in Hr. rewrite length_insert in Hr.
  specialize (Hr Hi).
  apply (f_equal length) in Hc. rewrite !core_length in Hc. cbn in Hc. rewrite length_insert in Hc.
  change (task_at (with_world ?w ?x)) with (task_at x). rewrite task_put, decide_True by (try done; lia).
  unfold regs in *. cbn. unfold t1 in Hr. destruct (c_abi c); cbn in Hr; by simplify_eq Hr; intros -> -> -> -> -> _.
Qed.

Lemma activate_cpu i s :
  let t := task_at s i in
  let c := s_cpu (scheduler_activate i s) in
  c_cr3 c = (if t_cr3 t =? 0 then c_cr3 (s_cpu s) else page_of (t_cr3 t)) /\
  c_gs c = gs_base t /\ c_kernel_gs c = kernel_gs_base t /\ c_fpu c = fpu_state t /\ c_abi c = linux_abi t /\
  c_stack_top c = (if (i =? 0)%nat then initial_kernel_stack_top s else kernel_stack_top i).
Proof.
  unfold scheduler_activate. cbv zeta.
  match goal with |- context [scheduler_restore_fs_context ?t ?x] => destruct (restore_fs_eq t x) as [w ->] end.
  unfold load_cr3. by destruct (linux_abi (task_at s i)), (t_cr3 (task_at s i) =? 0).
Qed.

Lemma activate_task n s i : task_at (scheduler_activate n s) i = task_at s i.
Proof. unfold task_at. by destruct (activate_core n s) as (_ & _ & _ & -> & _). Qed.

Lemma task_with_world w s i : task_at (with_world w s) i = task_at s i.
Proof. done. Qed.

Lemma task_restore_fpu b s i : task_at (restore_fpu b s) i = task_at s i.
Proof. done. Qed.

(** A tick leaves the registers of the tasks as [save_outgoing] left them. *)
Lemma tick_task s c w fr i :
  act s (current_task s) = true ->
  regs (task_at (snd (tick s (c, w, fr))) i) = regs (task_at (save_outgoing fr (with_world w (with_cpu c s))) i).
Proof.
  unfold tick. set (s0 := with_world w (with_cpu c s)). intros Ha.
  destruct (on_timer_cases fr s0 Ha) as (s1 & (_ & Hr) & Hw). cbv zeta in Hw. rewrite <- Hr.
  destruct Hw as [(_ & s2 & -> & [->|[w2 ->]])|(_ & ->)]; cbn [snd].
  - by rewrite task_restore_fpu, activate_task.
  - by rewrite task_restore_fpu, task_with_world.
  - by rewrite activate_task.
Qed.

Lemma tick_other s x i :
  act s (current_task s) = true -> current_task s <> i ->
  regs (task_at (snd (tick s x)) i) = regs (task_at s i).
Proof.
  destruct x as [[c w] fr]. intros Ha Hne. rewrite tick_task by done. by rewrite save_outgoing_other.
Qed.

(** The tick that interrupts task [i], and the one that resumes it. *)
Lemma interrupted_regs s c w fr :
  (current_task s < length (tasks s))%nat -> act s (current_task s) = true ->
  regs (task_at (snd (tick s (c, w, fr))) (current_task s)) =
  (At fr, page_of (c_cr3 c), c_gs c, c_kernel_gs c, c_abi c, c_fpu_temp c).
Proof.
  intros Hi Ha. rewrite tick_task by done. by apply (save_outgoing_regs fr (with_world w (with_cpu c s))).
Qed.

Lemma resumed_regs s x i :
  act s (current_task s) = true -> current_task s <> i -> current_task (snd (tick s x)) = i ->
  let t := task_at s i in
  fst (tick s x) = frame t /\
  exists c0, c_cr3 (s_cpu (snd (tick s x))) = (if t_cr3 t =? 0 then c0 else page_of (t_cr3 t)) /\
  c_gs (s_cpu (snd (tick s x))) = gs_base t /\ c_kernel_gs (s_cpu (snd (tick s x))) = kernel_gs_base t /\
  c_fpu (s_cpu (snd (tick s x))) = fpu_state t /\ c_abi (s_cpu (snd (tick s x))) = linux_abi t.
Proof.
  intros Ha Hne Hcur t. destruct (tick_core s x Ha) as (_ & _ & En). rewrite Hcur in En.
  destruct x as [[c w] fr]. unfold tick. clear Hcur. set (s0 := with_world w (with_cpu c s)).
  assert (act s0 (current_task s0) = true) as Ha0 by done.
  assert (scheduler_find_next s0 (current_task s0) = i) as En0 by (rewrite En; by apply find_next_core).
  assert (regs (task_at (save_outgoing fr s0) i) = regs t) as Et by (by rewrite (save_outgoing_other fr s0)).
  assert (current_task s0 <> i) as Hne0 by done. clearbody s0.
  destruct (on_timer_cases fr s0 Ha0) as (s1 & (_ & Hr) & Hw). cbv zeta in Hw. rewrite En0 in Hw.
  destruct Hw as [(E & _)|(_ & ->)]; [congruence|]. cbn [fst snd].
  specialize (Hr i). rewrite Et in Hr. unfold regs in Hr. injection Hr as -> Ecr Egs Ekg Eabi Efpu.
  split; [done|]. exists (c_cr3 (s_cpu s1)).
  destruct (activate_cpu i s1) as (H1 & H2 & H3 & H4 & H5 & _). by rewrite H1, H2, H3, H4, H5, Ecr, Egs, Ekg, Eabi, Efpu.
Qed.

Lemma ticks_other l : forall s i,
  act s 0 = true -> act s (current_task s) = true ->
  (forall k, (k < length l)%nat -> current_task (ticks s (take k l)) <> i) ->
  regs (task_at (ticks s l) i) = regs (task_at s i) /\ act (ticks s l) (current_task (ticks s l)) = true /\
  core (ticks s l) = core s.
Proof.
  induction l as [|x l IH]; intros s i H0 Ha Hne; [done|].
  destruct (tick_core s x Ha) as (Ec & _).
  destruct (IH (snd (tick s x)) i) as (E1 & E2 & E3).
  - by rewrite (act_core _ s _ Ec).
  - by apply tick_active.
  - intros k Hk. apply (Hne (S k)). cbn. lia.
  - cbn [ticks foldl]. unfold ticks in *. rewrite E1, E3. split_and!; [|done|done].
    apply tick_other; [done|]. apply (Hne 0%nat). cbn. lia.
Qed.

Lemma page_of_idem x : page_of (page_of x) = page_of x.
Proof.
  unfold page_of. by rewrite <- Z.land_assoc, Z.land_diag.
Qed.

(** C4: a context switch is transparent to the task.  A task that is interrupted
    with the registers [c] and the frame [fr], and to which the scheduler comes
    back after any number of ticks of other tasks, continues at [fr] with the
    address space, GS bases, FPU state and system-call convention it had. *)
Theorem context_switch_roundtrip s c w fr l x :
  let i := current_task s in
  let s1 := snd (tick s (c, w, fr)) in
  let s2 := ticks s1 l in
  let s3 := snd (tick s2 x) in
  sched_ok s -> act s i = true -> page_of (c_cr3 c) <> 0 ->
  (forall k, (k <= length l)%nat -> current_task (ticks s1 (take k l)) <> i) ->
  current_task s3 = i ->
  fst (tick s2 x) = At fr /\ c_cr3 (s_cpu s3) = page_of (c_cr3 c) /\ c_gs (s_cpu s3) = c_gs c /\
  c_kernel_gs (s_cpu s3) = c_kernel_gs c /\ c_fpu (s_cpu s3) = c_fpu_temp c /\ c_abi (s_cpu s3) = c_abi c.
Proof.
  cbv zeta. set (i := current_task s). set (s1 := snd (tick s (c, w, fr))). set (s2 := ticks s1 l).
  intros [Hl Hc [H0 _] _ _ _] Ha Hcr Hne Hcur.
  destruct (tick_core s (c, w, fr) Ha) as (Ec & _). fold s1 in Ec.
  assert (regs (task_at s1 i) = (At fr, page_of (c_cr3 c), c_gs c, c_kernel_gs c, c_abi c, c_fpu_temp c)) as Hr
    by (apply interrupted_regs; [lia | done]).
  destruct (ticks_other l s1 i) as (Et & Ha2 & Ec2).
  { by rewrite (act_core _ s _ Ec). }
  { by apply tick_active. }
  { intros k Hk. apply Hne. lia. }
  fold s2 in Et, Ha2, Ec2.
  assert (current_task s2 <> i) as Hne2 by (unfold s2; rewrite <- (firstn_all l); by apply Hne).
  rewrite <- Et in Hr.
  destruct (resumed_regs s2 x i Ha2 Hne2 Hcur) as (Hf & c0 & H1 & H2 & H3 & H4 & H5).
  rewrite Hf, H1, H2, H3, H4, H5. unfold regs in Hr. injection Hr as -> -> -> -> -> ->.
  destruct (Z.eqb_spec (page_of (c_cr3 c)) 0); [done|]. by rewrite page_of_idem.
Qed.

End Proofs.
