(* ===== verification/SchedReach.v ===== *)
(** * Reachable states of the scheduler

    Every way in which the task table changes is a step; the invariant
    [sched_ok] holds in every state that is reachable from the boot, and the
    process operations implement a set of process ids. *)

From stdpp Require Import relations.
From S2P Require Import Prelude Mmu Elf LinuxFd Scheduler SchedProofs.

Section Reach.
Context {W : Type} `{Services W}.
Implicit Types (s : sched W) (t : scheduler_task_t).

(** The process in a slot. *)
Definition view s (i : nat) : option Z := if act s i then Some (pid (task_at s i)) else None.

(** The ids that [scheduler_list] reports. *)
Definition pids s : gset Z := list_to_set (i_pid <$> task_infos s).

Lemma view_Some s i p : view s i = Some p <-> act s i = true /\ pid (task_at s i) = p.
Proof. unfold view. destruct (act s i); intuition congruence. Qed.

Lemma elem_of_pids s p : p ∈ pids s <-> exists i, (1 <= i < 8)%nat /\ view s i = Some p.
Proof.
  unfold pids, task_infos. rewrite elem_of_list_to_set, <- list_fmap_compose, list_elem_of_fmap.
  setoid_rewrite list_elem_of_filter. setoid_rewrite elem_of_seq. setoid_rewrite view_Some. unfold act.
  split; intros (i & Hi); exists i; intuition (subst; lia || done).
Qed.

(** [sched_ok] in terms of the processes. *)
Lemma ok_view s :
  sched_ok s <->
  length (tasks s) = 8%nat /\ (current_task s < 8)%nat /\ view s 0 = Some 0 /\ 2 <= next_pid s <= UINT32_MAX /\
  (forall i p, (1 <= i < 8)%nat -> view s i = Some p -> 2 <= p < next_pid s) /\
  (forall i j p, (1 <= i < 8)%nat -> (1 <= j < 8)%nat -> view s i = Some p -> view s j = Some p -> i = j).
Proof.
  setoid_rewrite view_Some. split.
  - intros [Hl Hc Hk Hn Hp Hd]. split_and!; try done; try lia; [apply Hk..| |].
    + intros i p Hi [Ha <-]. by apply Hp.
    + intros i j p Hi Hj [Ha <-] [Hb E]. by apply Hd.
  - intros (Hl & Hc & Hk & Hn & Hp & Hd). constructor; try done.
    + intros i Hi Ha. by apply (Hp i).
    + intros i j Hi Hj Ha Hb E. by apply (Hd i j (pid (task_at s j))).
Qed.

(** What holds of the table even when process ids have wrapped around. *)
Record table_ok s : Prop := TableOk {
  tb_length : length (tasks s) = 8%nat;
  tb_current : (current_task s < 8)%nat;
  tb_kernel : view s 0 = Some 0;
  tb_next : 2 <= next_pid s <= UINT32_MAX;
  tb_pids : forall i p, (1 <= i < 8)%nat -> view s i = Some p -> 2 <= p <= UINT32_MAX;
}.

Lemma ok_table s : sched_ok s -> table_ok s.
Proof.
  intros (Hl & Hc & Hk & Hn & Hp & _)%ok_view. constructor; try done. intros i p Hi E. specialize (Hp i p Hi E). lia.
Qed.

Lemma table_same_core s s' : table_ok s -> same_core s s' -> table_ok s'.
Proof.
  intros [Hl Hc Hk Hn Hp] (E & Ec & En & _).
  assert (forall i, view s' i = view s i) as Ev by (intros i; unfold view; by rewrite (act_core _ _ i E), (pid_core _ _ i E)).
  constructor; rewrite ?Ec, ?En, ?Ev; try done.
  - by rewrite <- core_length, E, core_length.
  - intros i p. rewrite Ev. apply Hp.
Qed.

(** ** Effects of the operations on the processes *)

(** [s'] has the processes of [s], except for slot [i]. *)
Definition view_upd s s' (i : nat) (v : option Z) : Prop :=
  length (tasks s') = length (tasks s) /\ forall j, (j < 8)%nat -> view s' j = if decide (j = i) then v else view s j.

Lemma same_core_view s s' i : same_core s s' -> view_upd s s' i (view s i).
Proof.
  intros (E & _). split; [by rewrite <- core_length, E, core_length|]. intros j _.
  unfold view. rewrite (act_core _ _ j E), (pid_core _ _ j E). by destruct (decide (j = i)) as [->|].
Qed.

Lemma view_upd_trans s1 s2 s3 i v w : view_upd s1 s2 i v -> view_upd s2 s3 i w -> view_upd s1 s3 i w.
Proof.
  intros [Hl1 H1] [Hl2 H2]. split; [congruence|]. intros j Hj. rewrite H2, H1 by done. by destruct (decide _).
Qed.

Lemma view_put s i t :
  (i < length (tasks s))%nat -> view_upd s (put_task i t s) i (if is_active t then Some (pid t) else None).
Proof.
  intros Hi. split; [by cbn; rewrite length_insert|]. intros j _. unfold view, act. rewrite task_put by done.
  destruct (decide (i = j)), (decide (j = i)); congruence.
Qed.

Lemma pids_upd s s' i v :
  (1 <= i < 8)%nat -> view_upd s s' i v ->
  forall p, p ∈ pids s' <-> v = Some p \/ exists j, (1 <= j < 8)%nat /\ j <> i /\ view s j = Some p.
Proof.
  intros Hi [_ Hv] p. rewrite elem_of_pids. split.
  - intros (j & Hj & E). rewrite Hv in E by lia. destruct (decide (j = i)); [by left | right; eauto].
  - intros [->|(j & Hj & Hne & E)]; [exists i | exists j]; (split; [done|]);
      rewrite Hv by lia; destruct (decide _); done.
Qed.

Lemma pids_same s s' i : (1 <= i < 8)%nat -> view_upd s s' i (view s i) -> pids s' = pids s.
Proof.
  intros Hi Hv. apply set_eq. intros p. rewrite (pids_upd _ _ _ _ Hi Hv), elem_of_pids. split.
  - intros [?|(j & ? & _ & ?)]; eauto.
  - intros (j & Hj & E). destruct (decide (j = i)) as [->|]; eauto 10.
Qed.

Lemma pids_remove s s' i p :
  sched_ok s -> (1 <= i < 8)%nat -> view s i = Some p -> view_upd s s' i None -> pids s' = pids s ∖ {[p]}.
Proof.
  intros (_ & _ & _ & _ & _ & Hd)%ok_view Hi Hp Hv. apply set_eq. intros q.
  rewrite elem_of_difference, elem_of_singleton, (pids_upd _ _ _ _ Hi Hv), elem_of_pids. split.
  - intros [?|(j & Hj & Hne & E)]; [done|]. split; [eauto|]. intros ->. by apply Hne, (Hd j i p).
  - intros ((j & Hj & E) & Hq). right. exists j. split_and!; try done; [lia..|]. intros ->. congruence.
Qed.

Lemma pids_add s s' i p :
  (1 <= i < 8)%nat -> view s i = None -> view_upd s s' i (Some p) -> pids s' = {[p]} ∪ pids s.
Proof.
  intros Hi Hn Hv. apply set_eq. intros q.
  rewrite elem_of_union, elem_of_singleton, (pids_upd _ _ _ _ Hi Hv), elem_of_pids. split.
  - intros [[= ->]|(j & ? & _ & ?)]; eauto.
  - intros [->|(j & Hj & E)]; [by left|]. right. exists j. split_and!; try done; [lia..|]. intros ->. congruence.
Qed.

(** The invariant after a process has gone, or a new one has come. *)
Lemma ok_upd s s' i v :
  sched_ok s -> (1 <= i < 8)%nat -> view_upd s s' i v -> (current_task s' < 8)%nat ->
  next_pid s <= next_pid s' <= UINT32_MAX ->
  match v with Some p => view s i = Some p \/ (p = next_pid s /\ next_pid s < next_pid s') | None => True end ->
  sched_ok s'.
Proof.
  rewrite !ok_view. intros (Hl & Hc & Hk & Hn & Hp & Hd) Hi [Hl' Hv] Hc' Hn' Hvp.
  assert (forall j p, (1 <= j < 8)%nat -> view s' j = Some p ->
    view s j = Some p \/ (j = i /\ p = next_pid s /\ next_pid s < next_pid s')) as Hcase.
  { intros j p Hj. rewrite Hv by lia. destruct (decide (j = i)) as [->|]; [|by left].
    intros ->. destruct Hvp; [by left | by right]. }
  split_and!; [congruence | done | | lia | lia | |].
  - rewrite Hv by lia. destruct (decide _); [lia | done].
  - intros j p Hj Hjp. destruct (Hcase j p Hj Hjp) as [E|[_ E]]; [specialize (Hp j p Hj E) |]; lia.
  - intros j k p Hj Hk' E1 E2.
    destruct (Hcase j p Hj E1) as [F1|[-> F1]], (Hcase k p Hk' E2) as [F2|[-> F2]]; try done.
    + by apply (Hd j k p).
    + specialize (Hp j p Hj F1). lia.
    + specialize (Hp k p Hk' F2). lia.
Qed.

(** ** The operations *)

Lemma ok_lt s i : table_ok s -> (i < 8)%nat -> (i < length (tasks s))%nat.
Proof. intros [-> ]. done. Qed.

Lemma restore_fs_view t s i : view_upd s (scheduler_restore_fs_context t s) i (view s i) /\
  current_task (scheduler_restore_fs_context t s) = current_task s /\
  next_pid (scheduler_restore_fs_context t s) = next_pid s.
Proof.
  destruct (restore_fs_eq t s) as [w ->]. split; [|done]. by apply same_core_view.
Qed.

Lemma find_free_spec k : forall i s slot,
  find_free k i s = Some slot -> (i <= slot < i + k)%nat /\ view s slot = None.
Proof.
  induction k as [|k IH]; intros i s slot; cbn [find_free]; [done|]. fold (act s i).
  destruct (act s i) eqn:E; cbn [negb].
  - intros Hf. destruct (IH _ _ _ Hf). split; [lia | done].
  - intros [= <-]. split; [lia|]. unfold view. by rewrite E.
Qed.

Lemma find_pid_spec k p s : forall i,
  match find_pid k i p s with
  | Some j => (i <= j < i + k)%nat /\ view s j = Some p
  | None => forall j, (i <= j < i + k)%nat -> view s j <> Some p
  end.
Proof.
  induction k as [|k IH]; intros i; cbn [find_pid]; [intros; lia|]. fold (act s i).
  destruct (act s i && (pid (task_at s i) =? p)) eqn:E.
  - apply andb_true_iff in E as [Ha E%Z.eqb_eq]. split; [lia | by apply view_Some].
  - specialize (IH (S i)). destruct (find_pid k (S i) p s); [intuition lia|].
    intros j Hj. destruct (decide (j = i)) as [->|]; [|apply IH; lia].
    rewrite view_Some. intros [Ha Hp]. rewrite Ha, Hp, Z.eqb_refl in E. done.
Qed.

(** What an operation does to the table: the process of one slot. *)
Definition changes s s' (cur : nat) (np : Z) (i : nat) (v : option Z) : Prop :=
  view_upd s s' i v /\ current_task s' = cur /\ next_pid s' = np.

Lemma deactivate_changes s i :
  table_ok s -> (i < 8)%nat ->
  changes s (put_task i (set_active 0 (task_at s i)) s) (current_task s) (next_pid s) i None.
Proof. intros Hok Hi. split; [|done]. apply view_put. by apply ok_lt. Qed.

Lemma kill_effect p s :
  table_ok s ->
  (exists i s', scheduler_kill p s = (0, s') /\ (1 <= i < 8)%nat /\ view s i = Some p /\
     changes s s' (current_task s) (next_pid s) i None) \/
  (scheduler_kill p s = (-1, s) /\ p ∉ pids s).
Proof.
  intros Hok. unfold scheduler_kill. destruct (Z.eqb_spec p 0) as [->|Hp].
  { right. split; [done|]. rewrite elem_of_pids. intros (i & Hi & E).
    pose proof (tb_pids _ Hok i 0 Hi E). lia. }
  pose proof (find_pid_spec 7 p s 1) as Hf. destruct (find_pid 7 1 p s) as [i|].
  - left. destruct Hf as [Hi Hv]. eexists i, _. split; [done|]. split; [lia|]. split; [done|].
    apply deactivate_changes; [done | lia].
  - right. split; [done|]. rewrite elem_of_pids. intros (i & Hi & E). by apply (Hf i).
Qed.

Lemma exit_effect s f s' :
  table_ok s -> scheduler_exit_current s = Some (f, s') ->
  current_task s <> 0%nat /\
  changes s s' (scheduler_find_next s' (current_task s)) (next_pid s) (current_task s) None.
Proof.
  intros Hok. unfold scheduler_exit_current. destruct (Nat.eqb_spec (current_task s) 0) as [|Hne]; [done|].
  cbv zeta. set (i := current_task s) in *.
  match goal with |- context [scheduler_save_fs_context i ?x] => set (s1 := x) end.
  assert (same_core s s1) as Hs1 by (unfold s1; destruct (c_abi (s_cpu s)); [by apply same_core_put | done]).
  pose proof (same_core_trans _ _ _ Hs1 (save_fs_core i s1)) as Hs2.
  set (s2 := scheduler_save_fs_context i s1) in *.
  match goal with |- context [put_task i _ ?x] => set (s3 := x) end.
  assert (same_core s s3) as Hs3 by done.
  pose proof (deactivate_changes s3 i) as Hd. change (task_at s3 i) with (task_at s2 i) in Hd.
  set (s4 := put_task i (set_active 0 (task_at s2 i)) s3) in *.
  intros [= <- <-]. split; [done|].
  assert (table_ok s3) as Hok3 by (by apply (table_same_core s)).
  destruct (Hd Hok3) as (Hv & Hcur & Hn); [apply Hok|].
  split; [|split; [by apply find_next_core | apply Hs3]].
  eapply view_upd_trans; [by apply (same_core_view s s3 i) | exact Hv].
Qed.

(** The slot that [scheduler_spawn_elf] fills: free before, and afterwards free
    again or with the next process id. *)
Lemma spawn_effect path argc argv ws s :
  table_ok s ->
  match scheduler_spawn_elf path argc argv ws s with
  | (None, s') => exists i, (1 <= i < 8)%nat /\ changes s s' (current_task s) (next_pid s) i (view s i)
  | (Some p, s') => p = next_pid s /\ exists i, (1 <= i < 8)%nat /\ view s i = None /\
      changes s s' (current_task s) (let n := u32 (next_pid s + 1) in if n =? 0 then 2 else n) i (Some p)
  end.
Proof.
  intros Hok. unfold scheduler_spawn_elf.
  assert (exists i, (1 <= i < 8)%nat /\ changes s s (current_task s) (next_pid s) i (view s i)) as Hsame.
  { exists 1%nat. split; [lia|]. split; [|done]. by apply same_core_view. }
  destruct path as [path|]; [|done].
  match goal with |- context [if ?b then (None, s) else _] => destruct b; [done|] end.
  destruct (find_free 7 1 s) as [i|] eqn:Ef; [|done]. apply find_free_spec in Ef as [Hi Hv].
  assert (1 <= i < 8)%nat as Hi' by lia. clear Hi Hsame. cbv zeta.
  set (me := current_task s).
  pose proof (save_fs_core me s) as Hs1. set (s1 := scheduler_save_fs_context me s) in *.
  set (t := set_fs _ _ _ _). set (s2 := put_task i t (put_task i zero_task s1)).
  assert (length (tasks s1) = 8%nat) as Hl1 by (apply (table_same_core _ _ Hok Hs1)).
  assert (changes s s2 me (next_pid s) i None) as H2.
  { split; [|by destruct Hs1 as (_ & ? & ? & _)]. eapply view_upd_trans; [by apply same_core_view|].
    eapply view_upd_trans; [apply view_put; lia|].
    apply (view_put (put_task i zero_task s1) i t). cbn. rewrite length_insert. lia. }
  assert (length (tasks s2) = 8%nat) as Hl2 by (cbn; rewrite !length_insert; done).
  assert (forall w, changes s (with_world w s2) me (next_pid s) i None) as Hw by done.
  assert (forall t' s', changes s s' me (next_pid s) i None ->
    exists i, (1 <= i < 8)%nat /\ changes s (scheduler_restore_fs_context t' s') me (next_pid s) i (view s i)) as Hfail.
  { intros t' s' Hc. exists i. rewrite Hv. split; [done|]. destruct (restore_fs_eq t' s') as [w ->]. exact Hc. }
  clearbody s2. destruct (fs_get_info (world s2) path) as [[[sz dir]|] w]; [|by apply Hfail].
  match goal with |- context [if ?b then (None, scheduler_restore_fs_context _ _) else _] => destruct b; [by apply Hfail|] end.
  destruct (create_pml4 _) as [pml4 w1]. destruct (pml4 =? 0); [by apply Hfail|].
  destruct (load_program _ _ _ _ _ _) as [[r prog] w2].
  destruct r as [l|].
  - split; [by destruct H2 as (_ & _ & <-)|]. exists i. split; [done|]. split; [done|].
    match goal with |- context [scheduler_restore_fs_context ?t' ?x] => destruct (restore_fs_eq t' x) as [w3 ->] end.
    match goal with |- context [put_task i ?t' ?x] => set (tn := t'); set (s3 := x) end.
    destruct H2 as (Hv2 & Hc2 & Hn2). split; [|split; [exact Hc2 | by rewrite <- Hn2]].
    eapply view_upd_trans; [exact Hv2|].
    apply (view_put s3 i tn). change (tasks s3) with (tasks s2). lia.
  - apply Hfail. match goal with |- context [put_task i ?t' ?x] => set (tn := t'); set (s3 := x) end.
    split; [|by destruct H2 as (_ & ? & ?)]. eapply view_upd_trans; [apply H2|].
    apply (view_put s3 i tn). change (tasks s3) with (tasks s2). lia.
Qed.

(** ** Steps and reachability *)

(** The running task or the kernel runs, an interrupt arrives, or an operation
    of the scheduler is called. *)
Inductive sched_step : sched W -> sched W -> Prop :=
  | step_run c w s : sched_step s (with_world w (with_cpu c s))
  | step_timer fr s : sched_step s (snd (scheduler_on_timer fr s))
  | step_spawn path argc argv ws s : sched_step s (snd (scheduler_spawn_elf path argc argv ws s))
  | step_kill p s : sched_step s (snd (scheduler_kill p s))
  | step_exit s f s' : scheduler_exit_current s = Some (f, s') -> sched_step s s'
  | step_workspace ws s : sched_step s (scheduler_set_shell_workspace ws s).

(** A step that does not wrap the process ids around. *)
Definition plain_step s s' : Prop := sched_step s s' /\ next_pid s <= next_pid s'.

Lemma table_changes s s' cur np i v :
  table_ok s -> (1 <= i < 8)%nat -> changes s s' cur np i v -> (cur < 8)%nat -> 2 <= np <= UINT32_MAX ->
  match v with Some p => 2 <= p <= UINT32_MAX | None => True end -> table_ok s'.
Proof.
  intros [Hl Hc Hk Hn Hp] Hi ([Hl' Hv] & <- & <-) Hcur Hnp Hvp. constructor; try done; [congruence | |].
  - rewrite Hv by lia. destruct (decide _); [lia | done].
  - intros j p Hj. rewrite Hv by lia. destruct (decide _); [intros ->; done | by apply Hp].
Qed.

Lemma timer_changes fr s : act s (current_task s) = true ->
  let s' := snd (scheduler_on_timer (Some fr) s) in
  changes s s' (scheduler_find_next s (current_task s)) (next_pid s) 1 (view s 1).
Proof.
  intros Ha s'. destruct (on_timer_core fr s Ha) as (Ec & En & Ecur). fold s' in Ec, En, Ecur. clearbody s'.
  split; [|done]. split; [by rewrite <- core_length, Ec, core_length|]. intros j _. unfold view.
  rewrite (act_core _ _ j Ec), (pid_core _ _ j Ec). by destruct (decide (j = 1%nat)) as [->|].
Qed.

Lemma spawn_next s : 2 <= next_pid s <= UINT32_MAX ->
  let np := let n := u32 (next_pid s + 1) in if n =? 0 then 2 else n in
  2 <= np <= UINT32_MAX /\ (next_pid s <= np -> np = next_pid s + 1).
Proof.
  intros Hn. cbv zeta. destruct (Z.eq_dec (next_pid s) UINT32_MAX) as [E|E].
  - rewrite E. change (u32 (UINT32_MAX + 1)) with 0. cbn. unfold UINT32_MAX. lia.
  - assert (u32 (next_pid s + 1) = next_pid s + 1) as -> by (unfold_int; apply Z.mod_small; lia).
    rewrite eqb_neq by lia. lia.
Qed.

Lemma step_table s s' : sched_step s s' -> table_ok s -> table_ok s'.
Proof.
  intros Hstep Hok. pose proof Hok as [_ Hcur _ Hn Hp].
  assert (forall i, (1 <= i < 8)%nat -> match view s i with Some p => 2 <= p <= UINT32_MAX | None => True end) as Hview
    by (intros i Hi; destruct (view s i) eqn:E; [by apply (Hp i) | done]).
  destruct Hstep as [c w s|fr s|path argc argv ws s|p s|s f s' E|ws s].
  - by apply (table_same_core s).
  - destruct fr as [fr|]; [|done]. destruct (act s (current_task s)) eqn:Ha.
    + apply (table_changes _ _ _ _ _ _ Hok) with (2 := timer_changes fr s Ha); [lia | apply find_next_lt | done | apply Hview; lia].
    + unfold scheduler_on_timer. fold (act s (current_task s)). by rewrite Ha.
  - pose proof (spawn_effect path argc argv ws s Hok) as He.
    destruct (scheduler_spawn_elf path argc argv ws s) as [[p|] s']; cbn [snd].
    + destruct He as (-> & i & Hi & _ & Hch). by apply (table_changes _ _ _ _ _ _ Hok Hi Hch); [| apply spawn_next |].
    + destruct He as (i & Hi & Hch). apply (table_changes _ _ _ _ _ _ Hok Hi Hch); [done | done | by apply Hview].
  - destruct (kill_effect p s Hok) as [(i & s' & -> & Hi & _ & Hch)|[-> _]]; [|done].
    by apply (table_changes _ _ _ _ _ _ Hok Hi Hch).
  - destruct (exit_effect s f s' Hok E) as (Hne & Hch).
    eapply table_changes; [exact Hok | | exact Hch | apply find_next_lt | done | done]. lia.
  - apply (table_same_core s); [done | apply set_workspace_core].
Qed.

Lemma ok_changes s s' cur np i v :
  sched_ok s -> (1 <= i < 8)%nat -> changes s s' cur np i v -> (cur < 8)%nat ->
  next_pid s <= np <= UINT32_MAX ->
  match v with Some p => view s i = Some p \/ (p = next_pid s /\ next_pid s < np) | None => True end ->
  sched_ok s'.
Proof. intros Hok Hi (Hv & <- & <-). by apply ok_upd. Qed.

Lemma timer_ok fr s : sched_ok s -> sched_ok (snd (scheduler_on_timer fr s)).
Proof.
  intros Hok. destruct fr as [fr|]; [|done]. destruct (act s (current_task s)) eqn:Ha.
  - apply (ok_changes _ _ _ _ _ _ Hok) with (2 := timer_changes fr s Ha);
      [lia | apply find_next_lt | pose proof (ok_next _ Hok); lia | destruct (view s 1); [by left | done]].
  - unfold scheduler_on_timer. fold (act s (current_task s)). by rewrite Ha.
Qed.

Lemma step_ok s s' : plain_step s s' -> sched_ok s -> sched_ok s'.
Proof.
  intros [Hstep Hle] Hok. pose proof Hok as Hok2. destruct Hok2 as [_ Hcur _ Hn _ _]. pose proof (ok_table _ Hok) as Htb.
  destruct Hstep as [c w s|fr s|path argc argv ws s|p s|s f s' E|ws s].
  - by apply (ok_same_core s).
  - by apply timer_ok.
  - pose proof (spawn_effect path argc argv ws s Htb) as He.
    destruct (scheduler_spawn_elf path argc argv ws s) as [[p|] s']; cbn [snd] in *.
    + destruct He as (-> & i & Hi & Hv & Hch). pose proof (spawn_next s Hn) as Hnx. cbv zeta in Hnx, Hch. destruct Hnx as [Hr Hnp].
      pose proof Hch as (_ & _ & En). rewrite En in Hle. specialize (Hnp Hle).
      apply (ok_changes _ _ _ _ _ _ Hok Hi Hch); [done | lia | right; lia].
    + destruct He as (i & Hi & Hch). apply (ok_changes _ _ _ _ _ _ Hok Hi Hch); [done | lia |].
      destruct (view s i); [by left | done].
  - destruct (kill_effect p s Htb) as [(i & s' & -> & Hi & _ & Hch)|[-> _]]; [|done].
    apply (ok_changes _ _ _ _ _ _ Hok Hi Hch); [done | lia | done].
  - destruct (exit_effect s f s' Htb E) as (Hne & Hch).
    eapply ok_changes; [exact Hok | | exact Hch | apply find_next_lt | lia | done]. lia.
  - apply (ok_same_core s); [done | apply set_workspace_core].
Qed.

Lemma init_ok s : next_pid s = 2 -> sched_ok (scheduler_init s).
Proof.
  intros Hn. unfold scheduler_init. cbv zeta.
  match goal with |- context [scheduler_save_fs_context 0 ?x] => set (s0 := x); pose proof (save_fs_core 0 s0) as Hs1 end.
  set (s1 := scheduler_save_fs_context 0 s0) in *.
  assert (sched_ok s0) as Hok0.
  { assert (forall i p, (1 <= i < 8)%nat -> view s0 i <> Some p) as Hno.
    { intros i p Hi. do 8 (destruct i as [|i]; [first [lia | done]|]). lia. }
    apply ok_view. split_and!; try done; [cbn; lia | cbn; rewrite Hn; lia | cbn; by rewrite Hn | |].
    - intros i p Hi E. by destruct (Hno i p).
    - intros i j p Hi Hj E. by destruct (Hno i p). }
  apply (ok_same_core s0); [done|]. eapply same_core_trans; [exact Hs1|].
  match goal with |- same_core s1 (with_cpu _ (put_task 0 ?t s1)) => apply (same_core_put 0 t s1) end; done.
Qed.

(** C5: the task table in every reachable state.  The steps are: the running task or the
    kernel changes the processor and the world, a timer interrupt, spawning, killing,
    exiting, and moving the shell to a workspace.  In every state that is reachable from
    the boot by any number of them, the table has its eight slots, [current_task] is one
    of them, the kernel's thread is active in slot 0 with id 0, and the next id and the
    ids of the other active tasks lie between 2 and 2^32 - 1.  As long as no spawn wraps
    the ids around (next id 2^32 - 1 to 2), the active tasks of the other slots moreover
    have pairwise different ids, all below the next one; after a wrap this is not
    claimed. *)
Theorem reachable_sched_ok s s' :
  next_pid s = 2 ->
  (rtc sched_step (scheduler_init s) s' -> table_ok s') /\
  (rtc plain_step (scheduler_init s) s' -> sched_ok s').
Proof.
  intros Hn%init_ok. split.
  - apply ok_table in Hn. induction 1 as [|s1 s2 s3 Hst _ IH]; [done|]. apply IH. by eapply step_table.
  - induction 1 as [|s1 s2 s3 Hst _ IH]; [done|]. apply IH. by eapply step_ok.
Qed.


End Reach.

(** ** The scheduler on a concrete task table

    A machine whose services do nothing, with the kernel's thread and two
    programs: the scheduler's theorems at work, and what [scheduler_exit_current]
    leaves behind in the processor. *)

(** ** A task that exits *)

Section Exit.
Context {W : Type} `{Services W}.
Implicit Types (s : sched W).

(** unlike a timer tick, [scheduler_exit_current] does not restore the
    processor state of the task it resumes: only the address space is switched.
    The next task continues with the GS bases, the FPU registers, the kernel
    stack and the system-call convention of the task that ended. *)
Theorem exit_keeps_registers s f s' :
  scheduler_exit_current s = Some (f, s') ->
  f = frame (task_at s' (current_task s')) /\
  s_cpu s' = load_cr3 (t_cr3 (task_at s' (current_task s'))) (s_cpu s) /\
  c_gs (s_cpu s') = c_gs (s_cpu s) /\ c_kernel_gs (s_cpu s') = c_kernel_gs (s_cpu s) /\
  c_fpu (s_cpu s') = c_fpu (s_cpu s) /\ c_stack_top (s_cpu s') = c_stack_top (s_cpu s) /\
  c_abi (s_cpu s') = c_abi (s_cpu s).
Proof.
  unfold scheduler_exit_current. destruct (current_task s =? 0)%nat; [done|]. cbv zeta.
  match goal with |- context [scheduler_save_fs_context ?i ?x] => set (s1 := x) end.
  assert (s_cpu s1 = s_cpu s) as E1 by (unfold s1; by destruct (c_abi (s_cpu s))).
  assert (s_cpu (scheduler_save_fs_context (current_task s) s1) = s_cpu s) as E2.
  { unfold scheduler_save_fs_context. destruct (fs_dirname (world s1)) as [[cwd|] w];
      [destruct (CWD_SIZE <=? zlen cwd)|]; exact E1. }
  set (s2 := scheduler_save_fs_context _ s1) in *. clearbody s2.
  intros [= <- <-]. cbn -[load_cr3 task_at]. rewrite E2. split; [done|]. split; [done|].
  unfold load_cr3. by destruct (_ =? 0).
Qed.

End Exit.

(** ** A concrete machine *)

Module Quiet.

#[local] Instance services : Services unit := {
  fs_dirname w := (Some (lit "c:/"), w);
  fs_current_drive w := 0;
  fs_select_drive w d := (0, w);
  fs_chdir w p := (0, w);
  fs_get_info w p := (Some (4096, false), w);
  sys_workspace_save w i := w;
  sys_workspace_load w i r := w;
  sys_workspace_take_switch_request w := (false, w);
  switch_terminal w i := w;
  current_terminal_id w := 0;
  linux_context_save w := zero_linux;
  linux_context_restore w c := w;
  linux_context_init w := zero_linux;
  syscall_user_kernel_gs_base w := 0;
  kernel_stack_top i := 16384 * (Z.of_nat i + 1);
  create_pml4 w := (0x5000, w);
  destroy_pml4 w p := w;
  cleanup_program w cr3 p := w;
  load_program w cr3 p n argc argv := (Some (Loaded 0x400000 0x7000 0x6000 false 0x401000), Program [] 0 0, w);
}.

Definition boot_cpu : cpu := Cpu 0x1000 0 0 [] [] 0x9000 false.
Definition boot : sched unit := scheduler_init (Sched [] 0 2 0 0 boot_cpu tt).

Definition program (p cr3 : Z) (abi : bool) : scheduler_task_t :=
  Task p 1 0 cr3 0 0 abi false 0 [] OwnStack zero_linux (Program [] 0 0) [1; 2] zero_frame.

(** Slots 1 and 4 hold two programs; the second uses the Linux convention. *)
Definition busy : sched unit :=
  with_next_pid 9 (put_task 4 (program 8 0x3000 true) (put_task 1 (program 3 0x2000 false) boot)).

Lemma busy_ok : sched_ok busy.
Proof.
  apply ok_view. split_and!; try (vm_compute; done); try (vm_compute; lia).
  - intros i p Hi. do 8 (destruct i as [|i]; [try lia; vm_compute; by intros [= <-] | ]). lia.
  - intros i j p Hi Hj.
    do 8 (destruct i as [|i]; [try lia; do 8 (destruct j as [|j]; [try lia; vm_compute; congruence|]); lia|]). lia.
Qed.

Definition tick_at (fr : Z) : cpu * unit * Z := (boot_cpu, tt, fr).

Lemma round_robin_fair_witness :
  exists k, (k <= 7)%nat /\ current_task (ticks busy (take k (replicate 7 (tick_at 0x5000)))) = 4%nat.
Proof. apply (round_robin_fair busy 4); [apply busy_ok | reflexivity | lia | reflexivity | done]. Defined.

Lemma context_switch_roundtrip_witness :
  fst (tick (ticks (snd (tick busy (tick_at 0x5000))) [tick_at 0x6000]) (tick_at 0x7000)) = At 0x5000.
Proof.
  apply (context_switch_roundtrip busy boot_cpu tt 0x5000 [tick_at 0x6000] (tick_at 0x7000)).
  - apply busy_ok.
  - reflexivity.
  - discriminate.
  - intros [|[|k]] Hk; [vm_compute; discriminate.. | cbn in Hk; lia].
  - reflexivity.
Defined.

(** Two programs are started, a timer tick runs the first one, and the second is killed. *)
Definition spawned : sched unit := snd (scheduler_spawn_elf (Some (lit "a")) 0 None 0 boot).
Definition spawned2 : sched unit := snd (scheduler_spawn_elf (Some (lit "b")) 0 None 1 spawned).
Definition ticked : sched unit := snd (scheduler_on_timer (Some 0x5000) spawned2).

Lemma reachable_sched_ok_witness :
  pids ticked = {[2; 3]} /\ current_task ticked = 1%nat /\
  table_ok (snd (scheduler_kill 3 ticked)) /\ sched_ok (snd (scheduler_kill 3 ticked)).
Proof.
  split; [by vm_compute|]. split; [by vm_compute|].
  destruct (reachable_sched_ok (Sched [] 0 2 0 0 boot_cpu tt) (snd (scheduler_kill 3 ticked)) eq_refl) as [Ht Hs].
  assert (sched_step boot spawned) as S1 by exact (step_spawn (Some (lit "a")) 0 None 0 boot).
  assert (sched_step spawned spawned2) as S2 by exact (step_spawn (Some (lit "b")) 0 None 1 spawned).
  assert (sched_step spawned2 ticked) as S3 by exact (step_timer (Some 0x5000) spawned2).
  assert (sched_step ticked (snd (scheduler_kill 3 ticked))) as S4 by exact (step_kill 3 ticked).
  split.
  - apply Ht. exact (rtc_l _ _ _ _ S1 (rtc_l _ _ _ _ S2 (rtc_l _ _ _ _ S3 (rtc_once _ _ S4)))).
  - apply Hs. assert (forall s s' : sched unit, sched_step s s' -> (next_pid s <=? next_pid s') = true -> plain_step s s') as Hp
      by (intros s s' Hst Hle; split; [exact Hst | by apply Z.leb_le]).
    exact (rtc_l _ _ _ _ (Hp _ _ S1 eq_refl) (rtc_l _ _ _ _ (Hp _ _ S2 eq_refl) (rtc_l _ _ _ _ (Hp _ _ S3 eq_refl) (rtc_once _ _ (Hp _ _ S4 eq_refl))))).
Defined.


(** The program in slot 4 ends, the kernel's thread continues: on the program's
    kernel stack, and with the Linux system-call convention still selected. *)
Definition exiting : sched unit :=
  with_current 4 (with_cpu (Cpu 0x3000 0 0 [1; 2] [] (kernel_stack_top 4) true) busy).

Lemma exit_keeps_registers_witness :
  exists f s', scheduler_exit_current exiting = Some (f, s') /\ current_task s' = 0%nat /\
    c_stack_top (s_cpu s') = kernel_stack_top 4 /\ c_abi (s_cpu s') = true /\ linux_abi (task_at s' 0) = false.
Proof.
  destruct (scheduler_exit_current exiting) as [[f s']|] eqn:E; [|vm_compute in E; discriminate].
  destruct (exit_keeps_registers exiting f s' E) as (_ & _ & _ & _ & _ & Htop & Habi).
  exists f, s'. rewrite Htop, Habi. split; [done|]. vm_compute in E. injection E as _ <-. by vm_compute.
Defined.

End Quiet.
