(* ===== verification/Calc.v ===== *)
(** * The calculator (apps/packages/avcalc.c)

    Fixed-point arithmetic, the recursive-descent evaluator and the program around
    it.  An [int64_t] operation whose result does not fit is undefined behaviour: [i64].
    The parser's state is the rest of the text and the error code; the last answer
    and the variables are constant while an expression is evaluated. *)

From S2P Require Import Prelude CMonad CString Keyboard Sheet.

Definition MAX_VARS : Z := 16.
Definition MAX_HISTORY : Z := 10.
Definition INPUT_BUF_LEN : Z := 128.
Definition SCALE : Z := 1000000.
Definition KEY_CTRL_Q : Z := 0x11.

Definition COLOR_GRAY : Z := 0xCCCCCC.
Definition COLOR_DARK_WHITE : Z := 0x999999.
Definition COLOR_CYAN : Z := 0x3A96DD.
Definition COLOR_YELLOW : Z := 0xC19C00.
Definition COLOR_BRIGHT_WHITE : Z := 0xFFFFFF.

Definition c_bang : Z := 33.
Definition c_open : Z := 40.
Definition c_close : Z := 41.
Definition c_star : Z := 42.
Definition c_equals : Z := 61.
Definition c_caret : Z := 94.

Definition is_i64 (x : Z) : bool := (-9223372036854775808 <=? x) && (x <=? 9223372036854775807).
Definition i64 (x : Z) : option Z := if is_i64 x then Some x else None.

Record fixed_t := Fixed { int_part : Z; frac_part : Z }.
Definition fixed_zero : fixed_t := Fixed 0 0.

Record Variable_ := Var { var_name : bytes; var_val : fixed_t }.

(** ** Printing *)

(** [while (tmp > 0) { temp[idx++] = '0' + tmp % 10; tmp /= 10; }] *)
Fixpoint temp_digits (fuel : nat) (tmp idx : Z) (temp : bytes) : option (Z * bytes) :=
  if 0 <? tmp then
    match fuel with
    | O => None
    | S fuel' => temp ← wr temp idx (c_0 + tmp mod 10); temp_digits fuel' (tmp / 10) (idx + 1) temp
    end
  else Some (idx, temp).

(** [while (idx > 0 && b_idx < max_len - 1) buf[b_idx++] = temp[--idx];] *)
Fixpoint emit_digits (idx : nat) (b_idx max_len : Z) (temp buf : bytes) : option (Z * bytes) :=
  match idx with
  | O => Some (b_idx, buf)
  | S idx' =>
      if b_idx <? max_len - 1 then
        c ← rd temp (Z.of_nat idx');
        buf ← wr buf b_idx c;
        emit_digits idx' (b_idx + 1) max_len temp buf
      else Some (b_idx, buf)
  end.

Definition int_to_str (val : Z) (buf : bytes) (max_len : Z) : option bytes :=
  if val =? 0 then
    if 1 <? max_len then buf ← wr buf 0 c_0; wr buf 1 0 else Some buf
  else
    let is_neg := val <? 0 in
    val ← (if is_neg then i64 (- val) else Some val);
    '(idx, temp) ← temp_digits 20 val 0 (zeros 32);
    '(b_idx, buf) ← (if is_neg && (0 <? max_len - 1) then buf ← wr buf 0 c_minus; Some (1, buf) else Some (0, buf));
    '(b_idx, buf) ← emit_digits (Z.to_nat idx) b_idx max_len temp buf;
    wr buf b_idx 0.

(** [for (i = 0; i < k; i++) str_strcat(buf, "0");] *)
Fixpoint pad_frac (k : nat) (buf : bytes) : option bytes :=
  match k with
  | O => Some buf
  | S k' => buf ← str_strcat buf (clit "0"); pad_frac k' buf
  end.

Definition fixed_to_str (v : fixed_t) (buf : bytes) : option bytes :=
  int_buf ← int_to_str (int_part v) (zeros 32) 32;
  buf ← str_strcpy buf int_buf;
  buf ← str_strcat buf (clit ".");
  frac_buf ← int_to_str (frac_part v) (zeros 32) 32;
  f_len ← strlen_loop frac_buf;
  buf ← pad_frac (Z.to_nat (6 - f_len)) buf;
  str_strcat buf frac_buf.

(** ** Arithmetic *)

(** The carry of [fixed_add] *)
Definition carry_up (f i : Z) : option fixed_t :=
  if SCALE <=? f then i ← i64 (i + 1); Some (Fixed i (f - SCALE))
  else if f <=? - SCALE then i ← i64 (i - 1); Some (Fixed i (f + SCALE))
  else Some (Fixed i f).

Definition fixed_add (a b : fixed_t) : option fixed_t :=
  f ← i64 (frac_part a + frac_part b);
  i ← i64 (int_part a + int_part b);
  carry_up f i.

Definition fixed_sub (a b : fixed_t) : option fixed_t :=
  f ← i64 (frac_part a - frac_part b);
  i ← i64 (int_part a - int_part b);
  carry_up f i.

(** [a.int_part * 1000000 + (a.int_part < 0 ? -a.frac_part : a.frac_part)] *)
Definition signed_total (a : fixed_t) : option Z :=
  scaled ← i64 (int_part a * SCALE);
  f ← (if int_part a <? 0 then i64 (- frac_part a) else Some (frac_part a));
  i64 (scaled + f).

(** The two parts of a total, the fraction without its sign *)
Definition of_total (t : Z) : fixed_t := Fixed (Z.quot t SCALE) (Z.abs (Z.rem t SCALE)).

Definition fixed_mul (a b : fixed_t) : option fixed_t :=
  a_total ← signed_total a;
  b_total ← signed_total b;
  prod ← i64 (a_total * b_total);
  Some (of_total (Z.quot prod SCALE)).

Definition fixed_div (a b : fixed_t) : option fixed_t :=
  a_total ← signed_total a;
  b_total ← signed_total b;
  if b_total =? 0 then Some fixed_zero
  else
    num ← i64 (a_total * SCALE);
    quot ← i64 (Z.quot num b_total);
    Some (of_total quot).

(** [x.int_part * 1000000 + x.frac_part] *)
Definition plain_total (x : fixed_t) : option Z :=
  scaled ← i64 (int_part x * SCALE); i64 (scaled + frac_part x).

(** [while (x > 3141592) x -= 6283185; while (x < -3141592) x += 6283185;] *)
Definition reduce_rounds : positive := 18446744073709551616.
Definition reduce_angle {S} (x : Z) : M S Z :=
  x ← while_true reduce_rounds (fun x => mret (if 3141592 <? x then inl (x - 6283185) else inr x)) x;
  while_true reduce_rounds (fun x => mret (if x <? -3141592 then inl (x + 6283185) else inr x)) x.

(** [(x * y) / 1000000] *)
Definition scaled_mul (x y : Z) : option Z := p ← i64 (x * y); Some (Z.quot p SCALE).

Definition fixed_sin {S} (x : fixed_t) : M S fixed_t :=
  x_total ← lift (plain_total x);
  x_total ← reduce_angle x_total;
  lift (x2 ← scaled_mul x_total x_total;
        x3 ← scaled_mul x2 x_total;
        x5 ← scaled_mul x3 x2;
        x7 ← scaled_mul x5 x2;
        t ← i64 (x_total - Z.quot x3 6);
        t ← i64 (t + Z.quot x5 120);
        t ← i64 (t - Z.quot x7 5040);
        Some (of_total t)).

Definition fixed_cos {S} (x : fixed_t) : M S fixed_t :=
  x_total ← lift (plain_total x);
  x_total ← reduce_angle x_total;
  lift (x2 ← scaled_mul x_total x_total;
        x4 ← scaled_mul x2 x2;
        x6 ← scaled_mul x4 x2;
        t ← i64 (SCALE - Z.quot x2 2);
        t ← i64 (t + Z.quot x4 24);
        t ← i64 (t - Z.quot x6 720);
        Some (of_total t)).

Definition fixed_tan {S} (x : fixed_t) : M S fixed_t :=
  s ← fixed_sin x;
  c ← fixed_cos x;
  lift (fixed_div s c).

Fixpoint sqrt_loop (k : nat) (val guess : Z) : option Z :=
  match k with
  | O => Some guess
  | S k' =>
      if guess =? 0 then Some guess
      else
        q ← i64 (Z.quot val guess);
        sum ← i64 (guess + q);
        sqrt_loop k' val (Z.quot sum 2)
  end.

Definition fixed_sqrt (x : fixed_t) : option fixed_t :=
  if int_part x <? 0 then Some fixed_zero
  else
    val ← plain_total x;
    let guess := Z.quot val 2 in
    let guess := if guess =? 0 then val else guess in
    guess ← sqrt_loop 15 val guess;
    Some (Fixed (Z.quot guess SCALE) (Z.rem guess SCALE)).

(** [for (n = 3; n < 15; n += 2)] *)
Fixpoint log_loop (k : nat) (n cur term_sq sum : Z) : option Z :=
  match k with
  | O => Some sum
  | S k' =>
      cur ← scaled_mul cur term_sq;
      sum ← i64 (sum + Z.quot cur n);
      log_loop k' (n + 2) cur term_sq sum
  end.

Definition fixed_log (x : fixed_t) : option fixed_t :=
  val ← plain_total x;
  if val <=? 0 then Some fixed_zero
  else
    num ← i64 (val - SCALE);
    den ← i64 (val + SCALE);
    num ← i64 (num * SCALE);
    let term := Z.quot num den in
    term_sq ← scaled_mul term term;
    sum ← log_loop 6 3 term term_sq term;
    t ← i64 (2 * sum);
    Some (of_total t).

Definition fixed_to_long (a : fixed_t) : Z := int_part a.
Definition long_to_fixed (v : Z) : fixed_t := Fixed v 0.

Fixpoint pow_loop (k : nat) (base res : fixed_t) : option fixed_t :=
  match k with
  | O => Some res
  | S k' => res ← fixed_mul res base; pow_loop k' base res
  end.

(** The counter is an [int]. *)
Definition fixed_pow (base exp : fixed_t) : option fixed_t :=
  let e := fixed_to_long exp in
  r ← pow_loop (Z.to_nat (Z.min e INT_MAX)) base (long_to_fixed 1);
  if INT_MAX <? e then None else Some r.

(** [for (i = 2; i <= n && i <= 15; i++) acc *= i;] *)
Fixpoint fact_loop (k : nat) (i n acc : Z) : Z :=
  match k with
  | O => acc
  | S k' => if i <=? n then fact_loop k' (i + 1) n (acc * i) else acc
  end.

Definition fixed_factorial (x : fixed_t) : fixed_t :=
  let n := fixed_to_long x in
  if n <? 0 then fixed_zero else long_to_fixed (fact_loop 14 2 n 1).

(** ** The evaluator *)

Record parser := Parser { text_left : bytes; error : Z }.

Abbreviation Ps := (M parser).

(** [*ps->p] *)
Definition peek : Ps Z := fun s => c ← head (text_left s); Some (Val c, s).
(** [ps->p += n] *)
Definition advance (n : nat) : Ps unit := modify (fun s => Parser (drop n (text_left s)) (error s)).
Definition set_error (e : Z) : Ps unit := modify (fun s => Parser (text_left s) e).

Fixpoint drop_spaces (l : bytes) : bytes :=
  match l with c :: l' => if c =? c_space then drop_spaces l' else l | [] => [] end.

Definition skip_spaces : Ps unit := fun s =>
  let l := drop_spaces (text_left s) in
  match l with [] => None | _ => Some (Val tt, Parser l (error s)) end.

Definition starts_with (prefix : bytes) : Ps bool :=
  l ← gets text_left; r ← lift (str_startswith l prefix); mret (negb (r =? 0)).

Definition is_alpha (c : Z) : bool := ((97 <=? c) && (c <=? 122)) || ((65 <=? c) && (c <=? 90)) || (c =? 95).
Definition is_word (c : Z) : bool := is_alpha c || is_digit c.

(** The characters of a name: the first 31 of them are kept. *)
Fixpoint read_ident (l : bytes) (id_len : Z) (id_buf : bytes) : option (Z * bytes * bytes) :=
  match l with
  | [] => None
  | c :: l' =>
      if is_word c then
        '(id_len, id_buf) ← (if id_len <? 31 then b ← wr id_buf id_len c; Some (id_len + 1, b) else Some (id_len, id_buf));
        read_ident l' id_len id_buf
      else Some (id_len, id_buf, l)
  end.

(** [for (i = 0; i < var_count; i++)] *)
Fixpoint find_var (k : nat) (i : Z) (vars : list Variable_) (name : bytes) : option (option fixed_t) :=
  match k with
  | O => Some None
  | S k' =>
      v ← rd vars i;
      c ← str_strcmp (var_name v) name;
      if c =? 0 then Some (Some (var_val v)) else find_var k' (i + 1) vars name
  end.

Record number := Number { int_val : Z; frac_val : Z; has_num : bool; decimal : bool; div_factor : Z }.

Fixpoint read_number (l : bytes) (n : number) : option (number * bytes) :=
  match l with
  | [] => None
  | c :: l' =>
      if is_digit c || (c =? c_dot) then
        if c =? c_dot then read_number l' (Number (int_val n) (frac_val n) true true (div_factor n))
        else if negb (decimal n) then
          v ← i64 (int_val n * 10);
          v ← i64 (v + (c - c_0));
          read_number l' (Number v (frac_val n) true false (div_factor n))
        else
          d ← i64 (div_factor n * 10);
          f ← i64 (frac_val n * 10);
          f ← i64 (f + (c - c_0));
          read_number l' (Number (int_val n) f true true d)
      else Some (n, l)
  end.

(** [while (div_factor < 1000000) ...; while (div_factor > 1000000) ...] *)
Fixpoint scale_up (k : nat) (frac_val div_factor : Z) : option (Z * Z) :=
  if div_factor <? SCALE then
    match k with
    | O => None
    | S k' => f ← i64 (frac_val * 10); d ← i64 (div_factor * 10); scale_up k' f d
    end
  else Some (frac_val, div_factor).

Fixpoint scale_down (k : nat) (frac_val div_factor : Z) : option Z :=
  if SCALE <? div_factor then
    match k with
    | O => None
    | S k' => scale_down k' (Z.quot frac_val 10) (Z.quot div_factor 10)
    end
  else Some frac_val.

Definition scale_frac (n : number) : option Z :=
  if decimal n && (1 <? div_factor n) then
    '(f, d) ← scale_up 20 (frac_val n) (div_factor n); scale_down 20 f d
  else Some (frac_val n).

(** [skip_spaces(ps); if ( *ps->p == '!') ...] *)
Definition maybe_factorial (val : fixed_t) : Ps fixed_t :=
  skip_spaces;;
  c ← peek;
  if c =? c_bang then advance 1;; mret (fixed_factorial val) else mret val.

Section Evaluator.
Context (memory : fixed_t) (vars : list Variable_) (var_count : Z).

Definition parse_name : Ps fixed_t :=
  l ← gets text_left;
  '(id_len, id_buf, rest) ← lift (read_ident l 0 (zeros 32));
  modify (fun s => Parser rest (error s));;
  id_buf ← lift (wr id_buf id_len 0);
  found ← lift (find_var (Z.to_nat var_count) 0 vars id_buf);
  match found with
  | None => set_error 1;; mret fixed_zero
  | Some var_val => maybe_factorial var_val
  end.

Definition parse_literal : Ps fixed_t :=
  l ← gets text_left;
  '(n, rest) ← lift (read_number l (Number 0 0 false false 1));
  modify (fun s => Parser rest (error s));;
  if negb (has_num n) then set_error 1;; mret fixed_zero
  else
    f ← lift (scale_frac n);
    maybe_factorial (Fixed (int_val n) f).

(** The loop of the three operator levels: while the text goes on, [body] looks at the
    next character; [inl] is the value the loop goes on with, [inr] what it returns.
    Every round moves the text on. *)
Fixpoint operators (k : nat) (body : Z -> fixed_t -> Ps (fixed_t + fixed_t)) (val : fixed_t) : Ps fixed_t :=
  match k with
  | O => lift None
  | S k' =>
      c ← peek;
      if c =? 0 then mret val
      else
        skip_spaces;;
        c ← peek;
        r ← body c val;
        match r with inl val => operators k' body val | inr val => mret val end
  end.

Definition level_loop (operand : Ps fixed_t) (body : Z -> fixed_t -> Ps (fixed_t + fixed_t)) : Ps fixed_t :=
  val ← operand;
  k ← gets (fun s => S (length (text_left s)));
  operators k body val.

Definition power_body (factor : Ps fixed_t) (c : Z) (val : fixed_t) : Ps (fixed_t + fixed_t) :=
  if c =? c_caret then
    advance 1;;
    exp ← factor;
    val ← lift (fixed_pow val exp);
    mret (inl val)
  else mret (inr val).

Definition parse_power (factor : Ps fixed_t) : Ps fixed_t := level_loop factor (power_body factor).

Definition term_body (power : Ps fixed_t) (c : Z) (val : fixed_t) : Ps (fixed_t + fixed_t) :=
  if c =? c_star then
    advance 1;;
    b ← power;
    val ← lift (fixed_mul val b);
    mret (inl val)
  else if c =? c_slash then
    advance 1;;
    divisor ← power;
    if (int_part divisor =? 0) && (frac_part divisor =? 0) then set_error 2;; mret (inr fixed_zero)
    else val ← lift (fixed_div val divisor); mret (inl val)
  else mret (inr val).

Definition parse_term (factor : Ps fixed_t) : Ps fixed_t :=
  level_loop (parse_power factor) (term_body (parse_power factor)).

Definition expr_body (term : Ps fixed_t) (c : Z) (val : fixed_t) : Ps (fixed_t + fixed_t) :=
  if c =? c_plus then
    advance 1;;
    b ← term;
    val ← lift (fixed_add val b);
    mret (inl val)
  else if c =? c_minus then
    advance 1;;
    b ← term;
    val ← lift (fixed_sub val b);
    mret (inl val)
  else mret (inr val).

Definition parse_expr (factor : Ps fixed_t) : Ps fixed_t :=
  level_loop (parse_term factor) (expr_body (parse_term factor)).

Definition negate (f : fixed_t) : option fixed_t := i ← i64 (- int_part f); r ← i64 (- frac_part f); Some (Fixed i r).

Definition absolute (f : fixed_t) : option fixed_t :=
  i ← (if int_part f <? 0 then i64 (- int_part f) else Some (int_part f));
  r ← (if frac_part f <? 0 then i64 (- frac_part f) else Some (frac_part f));
  Some (Fixed i r).

(** [if (str_startswith(ps->p, name)) { ps->p += n; return f(parse_factor(ps)); }], and
    so on down the list *)
Definition or_prefix (name : string) (then_ : Ps fixed_t) (else_ : Ps fixed_t) : Ps fixed_t :=
  yes ← starts_with (clit name);
  if (yes : bool) then advance (String.length name);; then_ else else_.

Fixpoint parse_factor (fuel : nat) : Ps fixed_t :=
  match fuel with
  | O => lift None
  | S fuel' =>
      let factor := parse_factor fuel' in
      skip_spaces;;
      c ← peek;
      if c =? 0 then mret fixed_zero
      else if c =? c_open then
        advance 1;;
        val ← parse_expr factor;
        skip_spaces;;
        c ← peek;
        (if c =? c_close then advance 1 else set_error 1);;
        mret val
      else if c =? c_minus then advance 1;; f ← factor; lift (negate f)
      else if c =? c_plus then advance 1;; factor
      else
        or_prefix "sin" (f ← factor; fixed_sin f) $
        or_prefix "cos" (f ← factor; fixed_cos f) $
        or_prefix "tan" (f ← factor; fixed_tan f) $
        or_prefix "sqrt" (f ← factor; lift (fixed_sqrt f)) $
        or_prefix "log" (f ← factor; lift (l ← fixed_log f; fixed_div l (long_to_fixed 2))) $
        or_prefix "ln" (f ← factor; lift (fixed_log f)) $
        or_prefix "abs" (f ← factor; lift (absolute f)) $
        or_prefix "pi" (mret (Fixed 3 141592)) $
        or_prefix "e" (mret (Fixed 2 718281)) $
        or_prefix "ans" (mret memory) $
        if is_alpha c then parse_name else parse_literal
  end.

Definition evaluate (expr : bytes) : option (fixed_t * Z) :=
  match parse_expr (parse_factor (S (length expr))) (Parser expr 0) with
  | Some (Val res, ps) => Some (res, error ps)
  | _ => None
  end.

End Evaluator.

(** ** The program *)

(** The system calls of the program *)
Class CalcOs (W : Type) := {
  calc_key : W -> Z * W;
  calc_draw : W -> draw_op -> W;
}.

Record HistoryEntry := Entry { query : bytes; result : bytes }.

(** The locals of [_start] *)
Record calculator (W : Type) := Calculator {
  history : list HistoryEntry;
  history_count : Z;
  input_buf : bytes;
  input_len : Z;
  last_answer : fixed_t;
  memory_reg : fixed_t;
  vars : list Variable_;
  var_count : Z;
  show_help : bool;
  latest_query : bytes;
  latest_result : bytes;
  stale : bool; (** [needs_redraw] *)
  os : W;
}.
Arguments Calculator {W}.
Arguments history {W}.
Arguments history_count {W}.
Arguments input_buf {W}.
Arguments input_len {W}.
Arguments last_answer {W}.
Arguments memory_reg {W}.
Arguments vars {W}.
Arguments var_count {W}.
Arguments show_help {W}.
Arguments latest_query {W}.
Arguments latest_result {W}.
Arguments stale {W}.
Arguments os {W}.

Section Program.
Context {W : Type} {calc_os : CalcOs W}.

Abbreviation Cp := (M (calculator W)).
Implicit Types s : calculator W.

Definition set_os (w : W) s : calculator W :=
  Calculator (history s) (history_count s) (input_buf s) (input_len s) (last_answer s) (memory_reg s) (vars s)
    (var_count s) (show_help s) (latest_query s) (latest_result s) (stale s) w.
Definition set_stale (b : bool) s : calculator W :=
  Calculator (history s) (history_count s) (input_buf s) (input_len s) (last_answer s) (memory_reg s) (vars s)
    (var_count s) (show_help s) (latest_query s) (latest_result s) b (os s).
Definition set_help (b : bool) s : calculator W :=
  Calculator (history s) (history_count s) (input_buf s) (input_len s) (last_answer s) (memory_reg s) (vars s)
    (var_count s) b (latest_query s) (latest_result s) (stale s) (os s).
Definition set_input (buf : bytes) (len : Z) s : calculator W :=
  Calculator (history s) (history_count s) buf len (last_answer s) (memory_reg s) (vars s)
    (var_count s) (show_help s) (latest_query s) (latest_result s) (stale s) (os s).
Definition set_history (h : list HistoryEntry) (n : Z) s : calculator W :=
  Calculator h n (input_buf s) (input_len s) (last_answer s) (memory_reg s) (vars s)
    (var_count s) (show_help s) (latest_query s) (latest_result s) (stale s) (os s).
Definition set_latest (q r : bytes) s : calculator W :=
  Calculator (history s) (history_count s) (input_buf s) (input_len s) (last_answer s) (memory_reg s) (vars s)
    (var_count s) (show_help s) q r (stale s) (os s).
Definition set_answer (v : fixed_t) s : calculator W :=
  Calculator (history s) (history_count s) (input_buf s) (input_len s) v (memory_reg s) (vars s)
    (var_count s) (show_help s) (latest_query s) (latest_result s) (stale s) (os s).
Definition set_memory (v : fixed_t) s : calculator W :=
  Calculator (history s) (history_count s) (input_buf s) (input_len s) (last_answer s) v (vars s)
    (var_count s) (show_help s) (latest_query s) (latest_result s) (stale s) (os s).
Definition set_vars (vs : list Variable_) (n : Z) s : calculator W :=
  Calculator (history s) (history_count s) (input_buf s) (input_len s) (last_answer s) (memory_reg s) vs
    n (show_help s) (latest_query s) (latest_result s) (stale s) (os s).

Definition paint (d : draw_op) : Cp unit := modify (fun s => set_os (calc_draw (os s) d) s).
Definition print_at (t : bytes) (x y color : Z) : Cp unit := paint (PrintAt t x y color).
Definition get_key : Cp Z := fun s => let '(k, w) := calc_key (os s) in Some (Val k, set_os w s).

(** [str_strcat] of one text after another *)
Fixpoint cat_all (buf : bytes) (texts : list bytes) : option bytes :=
  match texts with
  | [] => Some buf
  | t :: texts' => buf ← str_strcat buf t; cat_all buf texts'
  end.

Definition ruler : bytes := clit "---------------------------------------------------------".
Definition controls : bytes := clit "CONTROLS: [CTRL+O] Help | [CTRL+N] Clear | [CTRL+Q] Quit | [ENTER] Calc".

Definition draw_help : Cp unit :=
  print_at (clit "HELP & COMMAND REFERENCE:") 4 4 COLOR_YELLOW;;
  print_at (clit " - Operators: + , - , * , / , ^ (power) , ! (factorial)") 4 6 COLOR_WHITE;;
  print_at (clit " - Functions: sin(x), cos(x), tan(x), sqrt(x), log(x), ln(x), abs(x)") 4 8 COLOR_WHITE;;
  print_at (clit " - Constants & Vars: pi, e, ans, custom vars (e.g. x = 5)") 4 10 COLOR_WHITE;;
  print_at (clit " - Commands: clear / cls, mc, mr") 4 12 COLOR_WHITE;;
  print_at controls 2 21 COLOR_BRIGHT_GREEN.

Definition draw_entry (i : Z) : Cp unit :=
  h ← gets history;
  e ← lift (rd h i);
  line_buf ← lift (b ← str_strcpy (zeros 200) (clit "  > "); cat_all b [query e; clit " = "; result e]);
  print_at line_buf 4 (7 + i) COLOR_GRAY.

Definition draw_results : Cp unit :=
  print_at (clit "LATEST CALCULATION:") 4 3 COLOR_BRIGHT_GREEN;;
  q ← gets latest_query;
  c ← lift (rd q 0);
  r ← gets latest_result;
  latest_box ← lift (b ← str_strcpy (zeros 200) (clit "> ");
                     cat_all b [if c =? 0 then clit "(none)" else q; clit " = "; r]);
  print_at latest_box 4 4 COLOR_BRIGHT_WHITE;;
  print_at ruler 2 5 COLOR_DARK_GRAY;;
  print_at (clit "HISTORY:") 4 6 COLOR_BRIGHT_YELLOW;;
  n ← gets history_count;
  for_loop (Z.to_nat (Z.min n MAX_HISTORY)) 0 1 draw_entry;;
  (if n =? 0 then print_at (clit "  (No previous history)") 4 7 COLOR_DARK_WHITE else mret tt);;
  m ← gets memory_reg;
  mem_str ← lift (b ← str_strcpy (zeros 64) (clit "Memory [M]: ");
                  mem_val_str ← fixed_to_str m (zeros 32);
                  str_strcat b mem_val_str);
  print_at mem_str 4 18 COLOR_CYAN;;
  print_at controls 2 21 COLOR_BRIGHT_GREEN.

Definition draw_screen : Cp unit :=
  paint Clear;;
  print_at (clit "=== avcalc - Bad Advanced Calculator ===") 2 1 COLOR_BRIGHT_CYAN;;
  print_at ruler 2 2 COLOR_DARK_GRAY;;
  help ← gets show_help;
  (if (help : bool) then draw_help else draw_results);;
  print_at ruler 2 19 COLOR_DARK_GRAY;;
  print_at (clit "Expr > ") 2 20 COLOR_BRIGHT_WHITE;;
  buf ← gets input_buf;
  render_buf ← lift (b ← str_strcpy (zeros 144) buf; str_strcat b (clit "_   "));
  print_at render_buf 9 20 COLOR_WHITE.

Definition repaint : Cp unit := draw_screen;; modify (set_stale false).

(** [input_len = 0; input_buf[0] = 0; needs_redraw = 1;] *)
Definition end_input : Cp unit :=
  buf ← gets input_buf;
  buf ← lift (wr buf 0 0);
  modify (set_input buf 0);;
  modify (set_stale true).

(** [history_count = 0; latest_query[0] = 0; str_strcpy(latest_result, "0.000000"); ...] *)
Definition clear_results : Cp unit :=
  h ← gets history;
  modify (set_history h 0);;
  q ← gets latest_query;
  r ← gets latest_result;
  q ← lift (wr q 0 0);
  r ← lift (str_strcpy r (clit "0.000000"));
  modify (set_latest q r);;
  end_input.

(** The position of the first [=] outside parentheses *)
Fixpoint find_equals (l : bytes) (i p_depth : Z) : option (option Z) :=
  match l with
  | [] => None
  | c :: l' =>
      if c =? 0 then Some None
      else if c =? c_open then find_equals l' (i + 1) (p_depth + 1)
      else if c =? c_close then find_equals l' (i + 1) (p_depth - 1)
      else if (c =? c_equals) && (p_depth =? 0) then Some (Some i)
      else find_equals l' (i + 1) p_depth
  end.

(** [while (p_name < eq_pos && *p_name != ' ' && name_len < 31)]: [k] characters are
    left before [eq_pos]. *)
Fixpoint copy_name (k : nat) (l : bytes) (name_len : Z) (var_name : bytes) : option (Z * bytes) :=
  match k, l with
  | O, _ => Some (name_len, var_name)
  | S _, [] => None
  | S k', c :: l' =>
      if negb (c =? c_space) && (name_len <? 31) then
        b ← wr var_name name_len c; copy_name k' l' (name_len + 1) b
      else Some (name_len, var_name)
  end.

Fixpoint skip_blanks (k : nat) (l : bytes) : option (nat * bytes) :=
  match k, l with
  | O, _ => Some (O, l)
  | S _, [] => None
  | S k', c :: l' => if c =? c_space then skip_blanks k' l' else Some (k, l)
  end.

Definition var_name_of (input_buf : bytes) (eq_pos : Z) : option (Z * bytes) :=
  '(k, l) ← skip_blanks (Z.to_nat eq_pos) input_buf;
  '(name_len, var_name) ← copy_name k l 0 (zeros 32);
  var_name ← wr var_name name_len 0;
  Some (name_len, var_name).

(** [for (i = 1; i < name_len; i++)] *)
Fixpoint all_words (k : nat) (i : Z) (var_name : bytes) : option bool :=
  match k with
  | O => Some true
  | S k' => c ← rd var_name i; if is_word c then all_words k' (i + 1) var_name else Some false
  end.

Definition equals_text (a b : bytes) : option bool := r ← str_strcmp a b; Some (r =? 0).

(** [str_strcmp(a, x) == 0 || str_strcmp(a, y) == 0 ...] *)
Fixpoint equals_any (a : bytes) (l : list bytes) : option bool :=
  match l with
  | [] => Some false
  | b :: l' => e ← equals_text a b; if (e : bool) then Some true else equals_any a l'
  end.

Definition valid_name (name_len : Z) (var_name : bytes) : option bool :=
  first ← rd var_name 0;
  words ← all_words (Z.to_nat (name_len - 1)) 1 var_name;
  reserved ← equals_any var_name [clit "pi"; clit "e"; clit "ans"];
  Some ((0 <? name_len) && is_alpha first && words && negb reserved).

Fixpoint var_index (k : nat) (v : Z) (vs : list Variable_) (name : bytes) : option Z :=
  match k with
  | O => Some (-1)
  | S k' =>
      x ← rd vs v;
      e ← equals_text (var_name x) name;
      if (e : bool) then Some v else var_index k' (v + 1) vs name
  end.

Definition store_var (name : bytes) (res : fixed_t) : Cp unit :=
  vs ← gets vars;
  n ← gets var_count;
  found_var ← lift (var_index (Z.to_nat n) 0 vs name);
  if negb (found_var =? -1) then
    x ← lift (rd vs found_var);
    vs ← lift (wr vs found_var (Var (var_name x) res));
    modify (set_vars vs n)
  else if n <? MAX_VARS then
    x ← lift (rd vs n);
    stored ← lift (str_strcpy (var_name x) name);
    vs ← lift (wr vs n (Var stored res));
    modify (set_vars vs (n + 1))
  else mret tt.

(** Evaluate [expr]: the text of the answer, or of the error; [store] runs on an answer. *)
Definition answer (expr : bytes) (store : fixed_t -> Cp unit) : Cp bytes :=
  a ← gets last_answer;
  vs ← gets vars;
  n ← gets var_count;
  '(res, err) ← lift (evaluate a vs n expr);
  if err =? 1 then lift (str_strcpy (zeros 32) (clit "Syntax Error"))
  else if err =? 2 then lift (str_strcpy (zeros 32) (clit "Division by Zero"))
  else
    modify (set_answer res);;
    res_str ← lift (fixed_to_str res (zeros 32));
    store res;;
    mret res_str.

(** [history[i] = history[i + 1]], texts copied *)
Definition move_entry (i : Z) : Cp unit :=
  h ← gets history;
  n ← gets history_count;
  d ← lift (rd h i);
  e ← lift (rd h (i + 1));
  q ← lift (strncpy (query d) (query e) INPUT_BUF_LEN);
  r ← lift (strncpy (result d) (result e) 32);
  h ← lift (wr h i (Entry q r));
  modify (set_history h n).

Definition put_entry (i : Z) (input_buf res_str : bytes) : Cp unit :=
  h ← gets history;
  n ← gets history_count;
  d ← lift (rd h i);
  q ← lift (strncpy (query d) input_buf INPUT_BUF_LEN);
  r ← lift (strncpy (result d) res_str 32);
  h ← lift (wr h i (Entry q r));
  modify (set_history h n).

Definition remember (input_buf res_str : bytes) : Cp unit :=
  q ← gets latest_query;
  r ← gets latest_result;
  q ← lift (str_strcpy q input_buf);
  r ← lift (str_strcpy r res_str);
  modify (set_latest q r);;
  n ← gets history_count;
  if n <? MAX_HISTORY then
    put_entry n input_buf res_str;;
    h ← gets history;
    modify (set_history h (n + 1))
  else
    for_loop (Z.to_nat (MAX_HISTORY - 1)) 0 1 move_entry;;
    put_entry (MAX_HISTORY - 1) input_buf res_str.

(** What follows the first [=]; [while ( *p_expr == ' ') p_expr++;] *)
Definition expr_after (input_buf : bytes) (eq_pos : Z) : bytes :=
  drop_spaces (drop (Z.to_nat (eq_pos + 1)) input_buf).

Definition calculate (input_buf : bytes) : Cp bytes :=
  eq_pos ← lift (find_equals input_buf 0 0);
  match eq_pos with
  | Some eq_pos =>
      '(name_len, name) ← lift (var_name_of input_buf eq_pos);
      ok ← lift (valid_name name_len name);
      if negb ok then lift (str_strcpy (zeros 32) (clit "Syntax Error"))
      else answer (expr_after input_buf eq_pos) (store_var name)
  | None => answer input_buf (fun _ => mret tt)
  end.

(** The ENTER key *)
Definition enter : Cp unit :=
  len ← gets input_len;
  if len =? 0 then mret tt
  else
    buf ← gets input_buf;
    leave ← lift (equals_any buf [clit "exit"; clit "quit"]);
    if (leave : bool) then exit 0
    else
      clears ← lift (equals_any buf [clit "clear"; clit "cls"]);
      if (clears : bool) then clear_results
      else
        mc ← lift (equals_any buf [clit "mc"]);
        if (mc : bool) then modify (set_memory fixed_zero);; end_input
        else
          mr ← lift (equals_any buf [clit "mr"]);
          if (mr : bool) then
            m ← gets memory_reg; modify (set_answer m);; end_input
          else
            res_str ← calculate buf;
            remember buf res_str;;
            end_input.

Definition handle_key (key : Z) : Cp unit :=
  if key =? KEY_CTRL_O then
    h ← gets show_help; modify (set_help (negb h));; modify (set_stale true)
  else if key =? KEY_CTRL_N then clear_results
  else if key =? KEY_CTRL_Q then paint Clear;; exit 0
  else if (key =? KEY_BACKSPACE) || (key =? 127) then
    len ← gets input_len;
    if 0 <? len then
      buf ← gets input_buf;
      buf ← lift (wr buf (len - 1) 0);
      modify (set_input buf (len - 1));;
      modify (set_stale true)
    else mret tt
  else if (key =? KEY_ENTER) || (key =? 13) then enter
  else if (32 <=? key) && (key <? 127) then
    len ← gets input_len;
    if len <? INPUT_BUF_LEN - 1 then
      buf ← gets input_buf;
      buf ← lift (wr buf len key);
      buf ← lift (wr buf (len + 1) 0);
      modify (set_input buf (len + 1));;
      modify (set_stale true)
    else mret tt
  else mret tt.

(** One round of the loop *)
Definition round : Cp unit :=
  redraw_now ← gets stale;
  (if (redraw_now : bool) then repaint else mret tt);;
  key ← get_key;
  handle_key key.

(** [k] rounds of the loop, which only [exit] ends *)
Fixpoint rounds (k : nat) : Cp unit :=
  match k with
  | O => mret tt
  | S k' => round;; rounds k'
  end.

(** The locals are declared, the screen is cleared: the arrays [history0] and [vars0]
    and the rest of [input0] are not initialised. *)
Definition boot_state (w : W) (history0 : list HistoryEntry) (vars0 : list Variable_) (input0 : bytes) : option (calculator W) :=
  input_buf ← wr input0 0 0;
  latest_result ← blit (zeros 32) 0 (clit "0.000000");
  Some (Calculator history0 0 input_buf 0 fixed_zero fixed_zero vars0 0 false (zeros 128) latest_result true
    (calc_draw (calc_draw (calc_draw (calc_draw w Clear) (BackgroundColor COLOR_BACKGROUND)) (TextColor COLOR_WHITE)) Clear)).

End Program.
