(* ===== verification/CalcProofs.v ===== *)
(** * The calculator computes

    An expression of the calculator's language is read with the usual precedences, all
    operators associating to the left, and its value in millionths is the one of the
    reference evaluation [value]: sums are exact, products, quotients and powers are
    rounded down.  The reference is a partial function: it leaves out what does not fit
    into 64 bits, the division by zero and the differences that borrow from the integer
    part.  [Calculations] proves it for the evaluator, [Typing] for the program: the
    characters typed, the result shown and remembered. *)

From S2P Require Import Prelude CMonad CString Keyboard Sheet Calc.

(** ** Values in millionths *)

(** The non-negative value of [x] millionths *)
Definition fix_of (x : Z) : fixed_t := Fixed (x / SCALE) (x mod SCALE).

(** A value the program can compute with *)
Definition fits64 (x : Z) : bool := (0 <=? x) && (x <? 9223372036854775808).

Definition guard64 (x : Z) : option Z := if fits64 x then Some x else None.

Lemma i64_ok x : -9223372036854775808 <= x < 9223372036854775808 -> i64 x = Some x.
Proof. intros. unfold i64, is_i64. by replace (_ && _) with true by lia. Qed.

Lemma fix_parts x : x = SCALE * (x / SCALE) + x mod SCALE /\ 0 <= x mod SCALE < SCALE.
Proof. unfold SCALE. split; [apply Z.div_mod | apply Z.mod_pos_bound]; lia. Qed.

(** The only value in millionths with these two parts *)
Lemma fix_unique i f : 0 <= f < SCALE -> Fixed i f = fix_of (i * SCALE + f).
Proof.
  intros Hf. unfold fix_of, SCALE in *. f_equal.
  - rewrite Z.div_add_l by lia. rewrite Z.div_small by lia. lia.
  - rewrite Z.add_comm, Z.mod_add by lia. symmetry. by apply Z.mod_small.
Qed.

Lemma fits64_spec x : fits64 x = true <-> 0 <= x < 9223372036854775808.
Proof. unfold fits64. rewrite andb_true_iff, Z.leb_le, Z.ltb_lt. done. Qed.

Lemma guard64_some x y : guard64 x = Some y -> y = x /\ 0 <= x < 9223372036854775808.
Proof. unfold guard64. destruct (fits64 x) eqn:E; [|done]. intros [= <-]. by apply fits64_spec in E. Qed.

(** Every [int64_t] of a computation on values that fit, decided with the parts of the
    operands *)
Ltac parts x := let H := fresh "Hp" in pose proof (fix_parts x) as H; destruct H.
Ltac zlia := unfold SCALE in *; lia.
Ltac fit := rewrite i64_ok by zlia.

Lemma plain_total_fix x : 0 <= x < 9223372036854775808 -> plain_total (fix_of x) = Some x.
Proof.
  intros Hx. unfold plain_total, fix_of. simpl. parts x. fit. simpl. fit. f_equal. zlia.
Qed.

Lemma signed_total_fix x : 0 <= x < 9223372036854775808 -> signed_total (fix_of x) = Some x.
Proof.
  intros Hx. unfold signed_total, fix_of. simpl. parts x. assert (0 <= x / SCALE) by zlia.
  replace (x / SCALE <? 0) with false by lia. fit. simpl. fit. f_equal. zlia.
Qed.

Lemma of_total_fix t : 0 <= t -> of_total t = fix_of t.
Proof.
  intros Ht. unfold of_total, fix_of, SCALE.
  rewrite Z.quot_div_nonneg, Z.rem_mod_nonneg by zlia. f_equal.
  apply Z.abs_eq. apply Z.mod_pos_bound. lia.
Qed.

Lemma fixed_add_fix x y :
  0 <= x -> 0 <= y -> x + y < 9223372036854775808 -> fixed_add (fix_of x) (fix_of y) = Some (fix_of (x + y)).
Proof.
  intros Hx Hy Hs. unfold fixed_add, carry_up. simpl. parts x. parts y.
  repeat (fit; simpl). case_match.
  - rewrite fix_unique by zlia. do 2 f_equal. zlia.
  - case_match; [zlia|]. rewrite fix_unique by zlia. do 2 f_equal. zlia.
Qed.

(** No borrow: the fraction of the subtrahend is not the larger one. *)
Lemma fixed_sub_fix x y :
  0 <= y <= x -> x < 9223372036854775808 -> y mod SCALE <= x mod SCALE ->
  fixed_sub (fix_of x) (fix_of y) = Some (fix_of (x - y)).
Proof.
  intros Hy Hx Hf. unfold fixed_sub, carry_up. simpl. parts x. parts y.
  repeat (fit; simpl). case_match; [zlia|]. case_match; [zlia|].
  rewrite fix_unique by zlia. do 2 f_equal. zlia.
Qed.

Lemma fixed_mul_fix x y :
  0 <= x < 9223372036854775808 -> 0 <= y < 9223372036854775808 -> x * y < 9223372036854775808 ->
  fixed_mul (fix_of x) (fix_of y) = Some (fix_of (x * y / SCALE)).
Proof.
  intros Hx Hy Hp. unfold fixed_mul. rewrite !signed_total_fix by done. simpl.
  rewrite i64_ok by nia. simpl. rewrite Z.quot_div_nonneg by (unfold SCALE; nia).
  rewrite of_total_fix; [done|]. apply Z.div_pos; unfold SCALE; nia.
Qed.

Lemma fixed_div_fix x y :
  0 <= x -> 0 < y < 9223372036854775808 -> x * SCALE < 9223372036854775808 ->
  fixed_div (fix_of x) (fix_of y) = Some (fix_of (x * SCALE / y)).
Proof.
  intros Hx Hy Hp. unfold fixed_div. rewrite !signed_total_fix by zlia. simpl.
  replace (y =? 0) with false by zlia. rewrite (i64_ok (x * SCALE)) by zlia. simpl.
  rewrite Z.quot_div_nonneg by zlia.
  assert (0 <= x * SCALE / y <= x * SCALE).
  { split; [apply Z.div_pos; unfold SCALE; nia|]. apply Z.div_le_upper_bound; unfold SCALE in *; nia. }
  rewrite i64_ok by zlia. simpl. by rewrite of_total_fix by zlia.
Qed.

(** ** The language *)

Inductive op := OAdd | OSub | OMul | ODiv | OPow.
Inductive const := CPi | CE | CAns.
Inductive atom := ANum (ds : bytes) (fs : option bytes) | AName (s : bytes).

(** [sp] spaces stand before a token; [bang] is the [!] after an atom. *)
Inductive exp :=
  | Leaf (sp : nat) (a : atom) (bang : option nat)
  | Const (sp : nat) (c : const)
  | Paren (sp : nat) (e : exp) (sp' : nat)
  | Plus (sp : nat) (e : exp)
  | Abs (sp : nat) (e : exp)
  | Bin (o : op) (a : exp) (sp : nat) (b : exp).

Definition op_char (o : op) : Z :=
  match o with OAdd => c_plus | OSub => c_minus | OMul => c_star | ODiv => c_slash | OPow => c_caret end.
Definition op_level (o : op) : nat := match o with OAdd | OSub => 0 | OMul | ODiv => 1 | OPow => 2 end.
Definition op_of (c : Z) : option op :=
  if c =? c_plus then Some OAdd else if c =? c_minus then Some OSub else if c =? c_star then Some OMul
  else if c =? c_slash then Some ODiv else if c =? c_caret then Some OPow else None.

Definition blanks (n : nat) : bytes := replicate n c_space.
Definition const_text (c : const) : bytes := match c with CPi => lit "pi" | CE => lit "e" | CAns => lit "ans" end.
Definition atom_text (a : atom) : bytes :=
  match a with ANum ds None => ds | ANum ds (Some fs) => ds ++ c_dot :: fs | AName s => s end.
Definition bang_text (bang : option nat) : bytes := match bang with None => [] | Some k => blanks k ++ [c_bang] end.

Fixpoint print_exp (e : exp) : bytes :=
  match e with
  | Leaf sp a bang => blanks sp ++ atom_text a ++ bang_text bang
  | Const sp c => blanks sp ++ const_text c
  | Paren sp e sp' => blanks sp ++ c_open :: print_exp e ++ blanks sp' ++ [c_close]
  | Plus sp e => blanks sp ++ c_plus :: print_exp e
  | Abs sp e => blanks sp ++ lit "abs" ++ print_exp e
  | Bin o a sp b => print_exp a ++ blanks sp ++ op_char o :: print_exp b
  end.

(** The names of functions and constants: no variable begins with one. *)
Definition reserved : list string := ["sin"; "cos"; "tan"; "sqrt"; "log"; "ln"; "abs"; "pi"; "e"; "ans"].

Fixpoint starts (p s : bytes) : bool :=
  match p, s with
  | [], _ => true
  | a :: p', b :: s' => (a =? b) && starts p' s'
  | _ :: _, [] => false
  end.

Definition good_atom (a : atom) : bool :=
  match a with
  | ANum ds None => forallb is_digit ds && (0 <? zlen ds)
  | ANum ds (Some fs) => forallb is_digit ds && forallb is_digit fs && (zlen fs <=? 18)
  | AName s =>
      match s with
      | [] => false
      | c :: _ => is_alpha c && forallb is_word s && (zlen s <=? 31) && forallb (fun p => negb (starts (lit p) s)) reserved
      end
  end.

Definition exp_level (e : exp) : nat := match e with Bin o _ _ _ => op_level o | _ => 3 end.

(** [e] may stand where the grammar has level [p]: 0 sums, 1 products, 2 powers, 3 the
    operands of a power *)
Fixpoint grammatical (p : nat) (e : exp) : bool :=
  bool_decide (p <= exp_level e)%nat &&
  match e with
  | Leaf _ a _ => good_atom a
  | Const _ _ => true
  | Paren _ e _ => grammatical 0 e
  | Plus _ e | Abs _ e => grammatical 3 e
  | Bin o a _ b => grammatical (op_level o) a && grammatical (S (op_level o)) b
  end.

(** ** The reference evaluation *)

(** Six decimal places *)
Definition frac6 (fs : bytes) : Z :=
  if zlen fs <=? 6 then dval fs * 10 ^ (6 - zlen fs) else dval fs / 10 ^ (zlen fs - 6).

Definition zfact (n : Z) : Z := foldr Z.mul 1 (seqZ 1 n).

Definition fact_value (x : Z) : option Z := if x / SCALE <=? 15 then Some (zfact (x / SCALE) * SCALE) else None.

Fixpoint pow_value (k : nat) (x r : Z) : option Z :=
  match k with
  | O => Some r
  | S k' => p ← guard64 (r * x); pow_value k' x (p / SCALE)
  end.

Definition op_value (o : op) (x y : Z) : option Z :=
  match o with
  | OAdd => guard64 (x + y)
  | OSub => if y mod SCALE <=? x mod SCALE then guard64 (x - y) else None
  | OMul => p ← guard64 (x * y); Some (p / SCALE)
  | ODiv => if y =? 0 then None else p ← guard64 (x * SCALE); Some (p / y)
  | OPow => if y / SCALE <=? INT_MAX then pow_value (Z.to_nat (y / SCALE)) x SCALE else None
  end.

Fixpoint lookup_var (rho : list (bytes * Z)) (s : bytes) : option Z :=
  match rho with
  | [] => None
  | (n, x) :: rho' => if bool_decide (n = s) then Some x else lookup_var rho' s
  end.

Section Value.
Context (m : Z) (rho : list (bytes * Z)).

Definition atom_value (a : atom) : option Z :=
  match a with
  | ANum ds None => guard64 (dval ds * SCALE)
  | ANum ds (Some fs) => guard64 (dval ds * SCALE + frac6 fs)
  | AName s => lookup_var rho s
  end.

Definition const_value (c : const) : Z := match c with CPi => 3141592 | CE => 2718281 | CAns => m end.

Fixpoint value (e : exp) : option Z :=
  match e with
  | Leaf _ a None => atom_value a
  | Leaf _ a (Some _) => x ← atom_value a; fact_value x
  | Const _ c => Some (const_value c)
  | Paren _ e _ | Plus _ e | Abs _ e => value e
  | Bin o a _ b => x ← value a; y ← value b; op_value o x y
  end.

End Value.

Definition sample : exp :=
  Bin OAdd (Bin OAdd (Leaf 0 (ANum (lit "1") None) None) 1
    (Bin OMul (Leaf 1 (ANum (lit "2") (Some (lit "5"))) None) 0
       (Paren 0 (Bin OPow (Bin OPow (Leaf 0 (ANum (lit "2") None) None) 0 (Leaf 1 (ANum (lit "3") None) (Some 0%nat))) 0
          (Leaf 0 (ANum (lit "2") None) None)) 2)))
    0 (Abs 0 (Paren 0 (Bin ODiv (Leaf 0 (AName (lit "x")) None) 0 (Const 0 CPi)) 0)).

(** ** The arithmetic agrees *)

Definition good (x : Z) : Prop := 0 <= x < 9223372036854775808.

Lemma zfact_loop n : 0 <= n <= 15 -> fact_loop 14 2 n 1 = zfact n.
Proof.
  intros Hn. assert (forallb (fun n => fact_loop 14 2 n 1 =? zfact n) (seqZ 0 16) = true) as H by by vm_compute.
  rewrite forallb_forall in H. apply Z.eqb_eq, H. apply list_elem_of_In, elem_of_seqZ. lia.
Qed.

Lemma zfact_bound n : 0 <= n <= 15 -> 0 <= zfact n <= 1307674368000.
Proof.
  intros Hn. assert (forallb (fun n => (0 <=? zfact n) && (zfact n <=? 1307674368000)) (seqZ 0 16) = true) as H by by vm_compute.
  rewrite forallb_forall in H. specialize (H n). rewrite andb_true_iff, !Z.leb_le in H.
  apply H, list_elem_of_In, elem_of_seqZ. lia.
Qed.

Lemma fact_value_ok x y : good x -> fact_value x = Some y -> good y /\ fixed_factorial (fix_of x) = fix_of y.
Proof.
  unfold fact_value, fixed_factorial, good. intros Hx. case_match; [|done]. intros [= <-].
  assert (0 <= x / SCALE <= 15) as Hn by (zlia || (split; [apply Z.div_pos; zlia|lia])).
  pose proof (zfact_bound _ Hn). split; [zlia|]. change (fixed_to_long (fix_of x)) with (x / SCALE).
  replace (x / SCALE <? 0) with false by lia. rewrite zfact_loop by done.
  unfold long_to_fixed. rewrite fix_unique by zlia. f_equal. zlia.
Qed.

Lemma pow_value_ok k x r y :
  good x -> good r -> pow_value k x r = Some y -> good y /\ pow_loop k (fix_of x) (fix_of r) = Some (fix_of y).
Proof.
  intros Hx. revert r. induction k as [|k IH]; intros r Hr; simpl; [by intros [= <-]|].
  destruct (guard64 (r * x)) as [p|] eqn:Hp; [|done]. simpl. apply guard64_some in Hp as [-> Hp]. intros Hy.
  rewrite fixed_mul_fix by (unfold good in *; lia). simpl. apply IH; [|done].
  assert (0 <= r * x / SCALE <= r * x) by (split; [apply Z.div_pos|apply Z.div_le_upper_bound]; zlia).
  unfold good. lia.
Qed.

(** What an operator of the evaluator computes *)
Definition op_apply (o : op) (a b : fixed_t) : option fixed_t :=
  match o with
  | OAdd => fixed_add a b
  | OSub => fixed_sub a b
  | OMul => fixed_mul a b
  | ODiv => fixed_div a b
  | OPow => fixed_pow a b
  end.

Lemma div_good x d : good x -> 0 < d -> good (x / d).
Proof.
  unfold good. intros Hx Hd. assert (0 <= x / d <= x) by (split; [apply Z.div_pos|apply Z.div_le_upper_bound]; nia). lia.
Qed.

Lemma op_value_ok o x y z :
  good x -> good y -> op_value o x y = Some z -> good z /\ op_apply o (fix_of x) (fix_of y) = Some (fix_of z).
Proof.
  intros Hx Hy. pose proof Hx. pose proof Hy. unfold good in Hx, Hy. destruct o; simpl.
  - intros [-> Hz]%guard64_some. split; [done|]. apply fixed_add_fix; lia.
  - case_match; [|done]. intros [-> Hz]%guard64_some. split; [done|]. apply fixed_sub_fix; lia.
  - destruct (guard64 _) as [p|] eqn:Hp; [|done]. apply guard64_some in Hp as [-> Hp]. intros [= <-].
    split; [apply div_good; [done|zlia] | apply fixed_mul_fix; lia].
  - case_match; [done|]. destruct (guard64 _) as [p|] eqn:Hp; [|done]. apply guard64_some in Hp as [-> Hp]. intros [= <-].
    split; [apply div_good; [done|lia] | apply fixed_div_fix; lia].
  - case_match; [|done]. intros Hz.
    destruct (pow_value_ok _ _ SCALE _ H ltac:(unfold good, SCALE; lia) Hz) as [Hg Hp]. split; [done|].
    unfold fixed_pow. change (fixed_to_long (fix_of y)) with (y / SCALE). simpl. replace (Z.min _ INT_MAX) with (y / SCALE) by lia.
    change (long_to_fixed 1) with (fix_of SCALE). rewrite Hp. simpl. by replace (INT_MAX <? y / SCALE) with false by lia.
Qed.

Lemma absolute_fix x : good x -> absolute (fix_of x) = Some (fix_of x).
Proof.
  intros Hx. unfold absolute. simpl. parts x. unfold good in Hx.
  replace (x / SCALE <? 0) with false by zlia. by replace (x mod SCALE <? 0) with false by zlia.
Qed.

(** ** Reading *)

(** [t] is what is left of [rest], perhaps after its spaces. *)
Definition ahead (t rest : bytes) : Prop := drop_spaces t = drop_spaces rest /\ (length t <= length rest)%nat.

Lemma drop_spaces_spaces n l : drop_spaces (blanks n ++ l) = drop_spaces l.
Proof. induction n; [done | simpl; done]. Qed.

Lemma drop_spaces_idem l : drop_spaces (drop_spaces l) = drop_spaces l.
Proof. induction l as [|c l IH]; simpl; [done|]. destruct (c =? c_space) eqn:E; [done|]. simpl. by rewrite E. Qed.

Lemma drop_spaces_length l : (length (drop_spaces l) <= length l)%nat.
Proof. induction l as [|c l IH]; simpl; [done|]. destruct (c =? c_space); simpl; lia. Qed.

Lemma drop_spaces_cons c l : c <> c_space -> drop_spaces (c :: l) = c :: l.
Proof. intros Hc. simpl. by apply Z.eqb_neq in Hc as ->. Qed.

Lemma drop_spaces_head l c r : drop_spaces l = c :: r -> exists a l', l = a :: l' /\ (a = c \/ a = c_space).
Proof.
  destruct l as [|a l]; simpl; [done|]. destruct (Z.eqb_spec a c_space); [eauto|]. intros [= -> ->]. eauto.
Qed.

Lemma ahead_refl t : ahead t t.
Proof. done. Qed.

Lemma ahead_drop t rest : ahead t rest -> ahead (drop_spaces t) rest.
Proof. intros [H1 H2]. split; [by rewrite drop_spaces_idem | pose proof (drop_spaces_length t); lia]. Qed.

(** The characters that may follow an expression of level [p] *)
Definition ends_level (p : nat) (c : Z) : bool :=
  (c =? 0) || (c =? c_close) || match op_of c with Some o => bool_decide (op_level o <= p)%nat | None => false end.

Definition next_ok (p : nat) (rest : bytes) : Prop := exists c r, drop_spaces rest = c :: r /\ ends_level p c = true.

Lemma op_of_char c o : op_of c = Some o -> c = op_char o.
Proof.
  unfold op_of. destruct (Z.eqb_spec c c_plus); [by intros [= <-]|]. destruct (Z.eqb_spec c c_minus); [by intros [= <-]|].
  destruct (Z.eqb_spec c c_star); [by intros [= <-]|]. destruct (Z.eqb_spec c c_slash); [by intros [= <-]|].
  destruct (Z.eqb_spec c c_caret); [by intros [= <-]|done].
Qed.

Lemma ends_level_char p c :
  ends_level p c = true -> c = 0 \/ c = c_close \/ exists o, c = op_char o /\ (op_level o <= p)%nat.
Proof.
  unfold ends_level. rewrite !orb_true_iff, !Z.eqb_eq. intros [[?|?]|H]; [by left | by right; left | right; right].
  destruct (op_of c) as [o|] eqn:Ho; [|done]. apply op_of_char in Ho. apply bool_decide_eq_true in H. eauto.
Qed.

Lemma ends_level_other p c :
  ends_level p c = true -> is_word c = false /\ c <> c_dot /\ c <> c_bang /\ c <> c_space.
Proof.
  intros [->|[->|(o & -> & _)]]%ends_level_char; [by vm_compute..|]. by destruct o.
Qed.

Lemma op_char_level o p : (op_level o <= p)%nat -> ends_level p (op_char o) = true.
Proof. intros Hp. unfold ends_level. replace (op_of (op_char o)) with (Some o) by by destruct o.
  rewrite bool_decide_true by done. apply orb_true_r. Qed.

Lemma next_char p rest :
  next_ok p rest -> exists a l, rest = a :: l /\ is_word a = false /\ is_digit a = false /\ a <> c_dot.
Proof.
  intros (c & r & Hd & He). destruct (drop_spaces_head _ _ _ Hd) as (a & l & -> & Ha). exists a, l.
  apply ends_level_other in He as (Hw & Hdot & _). split; [done|].
  assert (is_word a = false) as Hwa by (destruct Ha; by subst). split; [done|].
  split; [by apply orb_false_iff in Hwa as [_ ?] | destruct Ha; by subst].
Qed.

Lemma run_skip t e c r :
  drop_spaces t = c :: r -> skip_spaces (Parser t e) = Some (Val tt, Parser (c :: r) e).
Proof. intros H. unfold skip_spaces. simpl. by rewrite H. Qed.

Lemma run_peek c r e : peek (Parser (c :: r) e) = Some (Val c, Parser (c :: r) e).
Proof. done. Qed.

Lemma run_advance n l e : advance n (Parser l e) = Some (Val tt, Parser (drop n l) e).
Proof. done. Qed.

(** *** Numbers *)

Lemma dval_cons d ds : dval (d :: ds) = (d - c_0) * 10 ^ zlen ds + dval ds.
Proof. unfold dval at 1. cbn. apply dval_cons_acc. Qed.

Lemma dval_range ds : forallb is_digit ds = true -> 0 <= dval ds < 10 ^ zlen ds.
Proof.
  induction ds as [|d ds IH]; [by vm_compute|]. simpl. intros [Hd Hds]%andb_true_iff.
  rewrite dval_cons, zlen_cons, Z.pow_add_r by (pose proof (zlen_nonneg ds); lia).
  specialize (IH Hds). unfold is_digit, c_0, c_9 in *. nia.
Qed.

Definition stops_number (rest : bytes) : Prop := exists a l, rest = a :: l /\ is_digit a = false /\ a <> c_dot.

Lemma read_stop rest n : stops_number rest -> read_number rest n = Some (n, rest).
Proof.
  intros (a & l & -> & Hd & Ha). simpl. rewrite Hd. apply Z.eqb_neq in Ha as ->. done.
Qed.

(** A digit is not the decimal point. *)
Lemma digit_char d : is_digit d = true -> (d =? c_dot) = false /\ 0 <= d - c_0 <= 9.
Proof. unfold is_digit, c_dot, c_0, c_9. lia. Qed.

Lemma read_int ds v f h p rest :
  forallb is_digit ds = true -> 0 <= v -> v * 10 ^ zlen ds + dval ds < 9223372036854775808 ->
  read_number (ds ++ rest) (Number v f h false p) =
  read_number rest (Number (v * 10 ^ zlen ds + dval ds) f (h || (0 <? zlen ds)) false p).
Proof.
  revert v h. induction ds as [|d ds IH]; intros v h; simpl.
  { intros _ _ _. replace (v * 10 ^ zlen [] + dval []) with v by (change (v = v * 1 + 0); lia).
    by rewrite orb_false_r. }
  intros [Hd Hds]%andb_true_iff Hv Hb. rewrite dval_cons, zlen_cons, Z.pow_add_r in * by (pose proof (zlen_nonneg ds); lia).
  pose proof (dval_range _ Hds). pose proof (Z.pow_pos_nonneg 10 (zlen ds) ltac:(lia) (zlen_nonneg _)).
  rewrite Hd. destruct (digit_char _ Hd) as [-> Hr]. simpl.
  rewrite i64_ok by nia. simpl. rewrite i64_ok by nia. simpl. rewrite IH by (try done; nia).
  f_equal. f_equal; [lia|]. symmetry. apply orb_true_intro. right. pose proof (zlen_nonneg ds). lia.
Qed.

Lemma read_frac fs v f p rest :
  forallb is_digit fs = true -> 0 <= f < p -> 1 <= p -> p * 10 ^ zlen fs < 9223372036854775808 ->
  read_number (fs ++ rest) (Number v f true true p) =
  read_number rest (Number v (f * 10 ^ zlen fs + dval fs) true true (p * 10 ^ zlen fs)).
Proof.
  revert f p. induction fs as [|d fs IH]; intros f p; simpl.
  { intros. f_equal. f_equal; [change (f = f * 1 + 0) | change (p = p * 1)]; lia. }
  intros [Hd Hds]%andb_true_iff Hf Hp Hb. rewrite dval_cons, zlen_cons, Z.pow_add_r in * by (pose proof (zlen_nonneg fs); lia).
  pose proof (dval_range _ Hds). pose proof (Z.pow_pos_nonneg 10 (zlen fs) ltac:(lia) (zlen_nonneg _)).
  rewrite Hd. destruct (digit_char _ Hd) as [-> Hr]. simpl.
  rewrite i64_ok by nia. simpl. rewrite i64_ok by nia. simpl. rewrite i64_ok by nia. simpl.
  rewrite IH by (try done; nia). f_equal. f_equal; lia.
Qed.

Lemma scale_up_ok k n f :
  0 <= n <= 6 -> 6 - n <= Z.of_nat k -> 0 <= f < 10 ^ n -> scale_up k f (10 ^ n) = Some (f * 10 ^ (6 - n), SCALE).
Proof.
  revert n f. induction k as [|k IH]; intros n f Hn Hk Hf.
  - replace n with 6 by lia. cbn. do 2 f_equal. lia.
  - destruct (decide (n = 6)) as [->|]; [cbn; do 2 f_equal; lia|].
    assert (10 ^ n <= 10 ^ 5) as Hlt by (apply Z.pow_le_mono_r; lia). simpl in Hlt.
    cbn [scale_up]. replace (10 ^ n <? SCALE) with true by zlia.
    rewrite !i64_ok by lia. simpl.
    replace (10 ^ n * 10) with (10 ^ (n + 1)) by (rewrite Z.pow_add_r; lia).
    rewrite IH by (rewrite ?Z.pow_add_r by lia; lia). do 2 f_equal.
    replace (6 - n) with (1 + (6 - (n + 1))) by lia. rewrite Z.pow_add_r; lia.
Qed.

Lemma scale_down_ok k n f :
  6 <= n -> n - 6 <= Z.of_nat k -> 0 <= f -> scale_down k f (10 ^ n) = Some (f / 10 ^ (n - 6)).
Proof.
  revert n f. induction k as [|k IH]; intros n f Hn Hk Hf.
  - replace n with 6 by lia. cbn. by rewrite Z.div_1_r.
  - destruct (decide (n = 6)) as [->|]; [cbn; by rewrite Z.div_1_r|].
    assert (10 ^ 7 <= 10 ^ n) as Hlt by (apply Z.pow_le_mono_r; lia). simpl in Hlt.
    cbn [scale_down]. replace (SCALE <? 10 ^ n) with true by zlia.
    replace n with (1 + (n - 1)) at 1 by lia. rewrite Z.pow_add_r by lia.
    rewrite (Z.mul_comm (10 ^ 1)), Z.quot_mul by lia. rewrite Z.quot_div_nonneg by lia.
    rewrite IH by (try apply Z.div_pos; lia). f_equal. rewrite Z.div_div by (try apply Z.pow_pos_nonneg; lia).
    f_equal. replace (n - 6) with (1 + (n - 1 - 6)) by lia. by rewrite Z.pow_add_r by lia.
Qed.

Lemma frac6_range fs : forallb is_digit fs = true -> 0 <= frac6 fs < SCALE.
Proof.
  intros Hd%dval_range. unfold frac6. pose proof (zlen_nonneg fs). case_match eqn:Hn.
  - assert (10 ^ zlen fs * 10 ^ (6 - zlen fs) = SCALE) by (rewrite <- Z.pow_add_r by lia; by replace (_ + _) with 6 by lia).
    pose proof (Z.pow_pos_nonneg 10 (6 - zlen fs)). nia.
  - assert (10 ^ (zlen fs - 6) * SCALE = 10 ^ zlen fs) by (change SCALE with (10 ^ 6); rewrite <- Z.pow_add_r by lia; f_equal; lia).
    split; [apply Z.div_pos; lia|]. apply Z.div_lt_upper_bound; lia.
Qed.

Lemma scale_frac_ok v fs :
  forallb is_digit fs = true -> zlen fs <= 18 ->
  scale_frac (Number v (dval fs) true true (10 ^ zlen fs)) = Some (frac6 fs).
Proof.
  intros Hd Hn. pose proof (dval_range _ Hd). pose proof (zlen_nonneg fs). unfold scale_frac, frac6. cbn [decimal div_factor frac_val andb].
  destruct (decide (zlen fs = 0)) as [E|].
  { apply zlen_0_nil in E as ->. done. }
  assert (10 ^ 1 <= 10 ^ zlen fs) by (apply Z.pow_le_mono_r; lia).
  replace (1 <? 10 ^ zlen fs) with true by lia. case_match.
  - rewrite scale_up_ok by lia. done.
  - assert (10 ^ 6 <= 10 ^ zlen fs) by (apply Z.pow_le_mono_r; lia).
    assert (forall k f, scale_up (S k) f (10 ^ zlen fs) = Some (f, 10 ^ zlen fs)) as ->.
    { intros. cbn [scale_up]. by replace (10 ^ zlen fs <? SCALE) with false by zlia. }
    cbn [mbind option_bind]. rewrite scale_down_ok by lia. done.
Qed.

(** *** Atoms *)

(** The value of an atom with its [!] *)
Definition banged (bang : option nat) (x : Z) : option Z := match bang with None => Some x | Some _ => fact_value x end.

Lemma run_bang x y bang rest p e :
  good x -> next_ok p rest -> banged bang x = Some y ->
  good y /\ exists t, maybe_factorial (fix_of x) (Parser (bang_text bang ++ rest) e) = Some (Val (fix_of y), Parser t e) /\ ahead t rest.
Proof.
  intros Hx (c & r & Hd & Hc) Hy. unfold maybe_factorial. destruct bang as [k|]; simpl in *.
  - destruct (fact_value_ok _ _ Hx Hy) as [Hg Hf]. split; [done|]. exists rest. split; [|apply ahead_refl].
    assert (drop_spaces ((blanks k ++ [c_bang]) ++ rest) = c_bang :: rest) as Hs
      by by rewrite <- app_assoc, drop_spaces_spaces.
    mrun (run_skip _ e _ _ Hs). mrun (run_peek c_bang rest e). simpl. by rewrite Hf.
  - injection Hy as <-. split; [done|]. exists (c :: r). split.
    + mrun (run_skip _ e _ _ Hd). mrun (run_peek c r e).
      apply ends_level_other in Hc as (_ & _ & Hb & _). by apply Z.eqb_neq in Hb as ->.
    + rewrite <- Hd. apply ahead_drop, ahead_refl.
Qed.

Lemma bang_head bang p rest :
  next_ok p rest -> exists a l, bang_text bang ++ rest = a :: l /\ is_word a = false /\ is_digit a = false /\ a <> c_dot.
Proof.
  intros H. destruct bang as [[|k]|]; simpl; [by do 2 eexists..|]. by eapply next_char.
Qed.

Lemma run_literal ds fs x t e :
  good_atom (ANum ds fs) = true -> atom_value [] (ANum ds fs) = Some x -> stops_number t ->
  good x /\ parse_literal (Parser (atom_text (ANum ds fs) ++ t) e) = maybe_factorial (fix_of x) (Parser t e).
Proof.
  intros Hg Hv Ht.
  assert (exists n, read_number (atom_text (ANum ds fs) ++ t) (Number 0 0 false false 1) = Some (n, t) /\
    has_num n = true /\ good x /\ exists f, scale_frac n = Some f /\ Fixed (int_val n) f = fix_of x)
    as (n & Hr & Hn & Hx & f & Hf & E).
  { destruct fs as [fs|]; simpl in *; apply guard64_some in Hv as [-> Hv].
    - rewrite !andb_true_iff, Z.leb_le in Hg. destruct Hg as [[Hds Hfs] Hl].
      pose proof (dval_range _ Hds). pose proof (dval_range _ Hfs). pose proof (frac6_range _ Hfs).
      rewrite <- app_assoc. rewrite read_int by (try done; zlia). simpl.
      assert (10 ^ zlen fs <= 10 ^ 18) as Hp by (apply Z.pow_le_mono_r; lia). simpl in Hp.
      rewrite read_frac by (try done; lia). rewrite read_stop by done.
      eexists. split; [done|]. split; [done|]. split; [done|]. exists (frac6 fs).
      rewrite !Z.mul_1_l. split; [by apply scale_frac_ok|]. simpl. by apply fix_unique.
    - rewrite andb_true_iff in Hg. destruct Hg as [Hds Hl]. pose proof (dval_range _ Hds).
      rewrite read_int by (try done; zlia). rewrite read_stop by done.
      eexists. split; [done|]. split; [done|]. split; [done|]. exists 0. split; [done|].
      simpl. rewrite fix_unique by zlia. f_equal. zlia. }
  split; [done|]. unfold parse_literal. rewrite bind_gets. mlift Hr. rewrite bind_modify. cbn [text_left error].
  rewrite Hn. cbn [negb]. mlift Hf. by rewrite E.
Qed.

Lemma read_name_text s pre m t :
  forallb is_word s = true -> zlen pre + zlen s <= 31 -> (length s <= m)%nat ->
  (exists a l, t = a :: l /\ is_word a = false) ->
  read_ident (s ++ t) (zlen pre) (pre ++ zeros m) = Some (zlen pre + zlen s, pre ++ s ++ zeros (m - length s), t).
Proof.
  intros Hs Hl Hm (a & l & -> & Ha). revert pre m Hl Hm Hs. induction s as [|c s IH]; intros pre m Hl Hm Hs.
  - simpl. rewrite Ha. do 3 f_equal; [rewrite zlen_nil; lia|]. by replace (m - 0)%nat with m by lia.
  - simpl in *. apply andb_true_iff in Hs as [Hc Hs]. rewrite Hc. rewrite zlen_cons in *. pose proof (zlen_nonneg s).
    replace (zlen pre <? 31) with true by lia. destruct m as [|m]; [lia|]. change (zeros (S m)) with (0 :: zeros m).
    rewrite wr_mid. simpl. replace (zlen pre + 1) with (zlen (pre ++ [c])) by zs.
    replace (pre ++ c :: zeros m) with ((pre ++ [c]) ++ zeros m) by by rewrite <- app_assoc.
    rewrite IH by (try done; zs). rewrite <- app_assoc. do 3 f_equal. zs.
Qed.

(** The variables of the program are those of [rho]. *)
Definition holds (rho : list (bytes * Z)) (vars : list Variable_) (n : Z) : Prop :=
  n = zlen rho /\
  exists vs tail, vars = vs ++ tail /\
    Forall2 (fun b v => cstr (var_name v) b.1 /\ var_val v = fix_of b.2 /\ good b.2) rho vs.

Lemma find_var_ok rho vs pre tail name s :
  Forall2 (fun b v => cstr (var_name v) b.1 /\ var_val v = fix_of b.2 /\ good b.2) rho vs ->
  cstr name s ->
  find_var (length rho) (zlen pre) (pre ++ vs ++ tail) name = Some (fix_of <$> lookup_var rho s).
Proof.
  intros H Hn. revert pre. induction H as [|[b x] v rho vs (Hb & Hv & Hg) H IH]; intros pre; [done|].
  simpl in *. rewrite rd_mid. simpl. destruct (strcmp_cstr _ _ _ _ Hb Hn) as (r & -> & Hr). simpl.
  destruct (Z.eqb_spec r 0) as [E|E].
  - rewrite bool_decide_true by tauto. by rewrite Hv.
  - rewrite bool_decide_false by tauto. replace (zlen pre + 1) with (zlen (pre ++ [v])) by zs.
    rewrite <- (IH (pre ++ [v])). by rewrite <- app_assoc.
Qed.

Lemma lookup_var_good rho vs s x :
  Forall2 (fun b v => cstr (var_name v) b.1 /\ var_val v = fix_of b.2 /\ good b.2) rho vs ->
  lookup_var rho s = Some x -> good x.
Proof.
  induction 1 as [|[b y] v rho vs (_ & _ & Hg) _ IH]; simpl; [done|]. case_match; [|done]. by intros [= <-].
Qed.

(** *** Words *)

Lemma no_prefix p s rest :
  forallb is_word p = true -> starts p s = false -> (exists a l, rest = a :: l /\ is_word a = false) ->
  str_startswith (s ++ rest) (p ++ [0]) = Some 0.
Proof.
  intros Hp Hs (a & l & -> & Ha). revert s Hs. induction p as [|c p IH]; intros s Hs; [done|].
  simpl in Hp. apply andb_true_iff in Hp as [Hc Hp]. assert (c <> 0) by (intros ->; by vm_compute in Hc).
  simpl. replace (c =? 0) with false by lia. destruct s as [|b s]; simpl.
  - destruct (Z.eqb_spec a c); [congruence|done].
  - destruct (Z.eqb_spec b c) as [->|]; [|done]. simpl in Hs. rewrite Z.eqb_refl in Hs. by apply IH.
Qed.

(** No text that begins with a character other than a letter begins with a name. *)
Lemma no_prefix_head c l p : is_alpha c = false -> In p reserved -> str_startswith (c :: l) (clit p) = Some 0.
Proof.
  intros Hc Hp. assert (exists a q, clit p = a :: q /\ is_alpha a = true) as (a & q & -> & Ha).
  { unfold reserved in Hp. simpl in Hp. destruct_or! Hp; subst; by do 2 eexists. }
  simpl. assert (a <> 0) by (intros ->; by vm_compute in Ha). replace (a =? 0) with false by lia.
  destruct (Z.eqb_spec c a); [congruence|done].
Qed.

Lemma or_prefix_no name th el t e :
  str_startswith t (clit name) = Some 0 -> or_prefix name th el (Parser t e) = el (Parser t e).
Proof. intros H. unfold or_prefix, starts_with. rewrite bind_assoc, bind_gets, bind_assoc. mlift H. done. Qed.

Section Evaluation.
Context (m : Z) (rho : list (bytes * Z)) (vars : list Variable_) (n : Z).
Hypothesis m_good : good m.
Hypothesis vars_hold : holds rho vars n.

Abbreviation factor := (parse_factor (fix_of m) vars n).

Lemma run_name s x t e :
  good_atom (AName s) = true -> lookup_var rho s = Some x -> (exists a l, t = a :: l /\ is_word a = false) ->
  good x /\ parse_name vars n (Parser (s ++ t) e) = maybe_factorial (fix_of x) (Parser t e).
Proof.
  destruct vars_hold as (-> & vs & tail & -> & Hvs). intros Hg Hx Ht. split; [by eapply lookup_var_good|].
  destruct s as [|c s]; [done|]. cbn [good_atom] in Hg. rewrite !andb_true_iff, Z.leb_le in Hg. destruct Hg as [[[_ Hw] Hl] _].
  assert (length (c :: s) < 32)%nat as Hlen by zs.
  assert (read_ident ((c :: s) ++ t) 0 (zeros 32) = Some (zlen (c :: s), (c :: s) ++ 0 :: zeros (31 - length (c :: s)), t)) as Hr.
  { pose proof (read_name_text (c :: s) [] 32 t Hw Hl ltac:(lia) Ht) as Hr. rewrite <- (Z.add_0_l (zlen (c :: s))).
    by replace (32 - length (c :: s))%nat with (S (31 - length (c :: s))) in Hr by lia. }
  unfold parse_name. rewrite bind_gets. mlift Hr. rewrite bind_modify. cbn [text_left error].
  mlift (wr_mid (c :: s) 0 (zeros (31 - length (c :: s))) 0).
  assert (cstr ((c :: s) ++ 0 :: zeros (31 - length (c :: s))) (c :: s)) as Hc.
  { eexists. split; [done|]. apply Forall_forall. intros z Hz%list_elem_of_In.
    rewrite forallb_forall in Hw. intros ->. apply Hw in Hz. by vm_compute in Hz. }
  replace (Z.to_nat (zlen rho)) with (length rho) by zs.
  pose proof (find_var_ok _ _ [] tail _ _ Hvs Hc) as Hf. rewrite Hx in Hf. by mlift Hf.
Qed.

(** What [parse_factor] does before an atom *)
Lemma factor_plain fuel t c l e :
  drop_spaces t = c :: l -> c <> 0 -> c <> c_open -> c <> c_minus -> c <> c_plus ->
  (forall p, In p reserved -> str_startswith (c :: l) (clit p) = Some 0) ->
  factor (S fuel) (Parser t e) = (if is_alpha c then parse_name vars n else parse_literal) (Parser (c :: l) e).
Proof.
  intros Hd H0 H1 H2 H3 Hp. cbn [parse_factor]. mrun (run_skip _ e _ _ Hd). mrun (run_peek c l e).
  apply Z.eqb_neq in H0 as ->, H1 as ->, H2 as ->, H3 as ->.
  rewrite !or_prefix_no by (apply Hp; unfold reserved; simpl; tauto). done.
Qed.

Lemma run_atom a x t e fuel sp :
  good_atom a = true -> atom_value rho a = Some x ->
  (exists a l, t = a :: l /\ is_word a = false /\ is_digit a = false /\ a <> c_dot) ->
  good x /\ factor (S fuel) (Parser (blanks sp ++ atom_text a ++ t) e) = maybe_factorial (fix_of x) (Parser t e).
Proof.
  intros Hg Hx Ht. assert (exists c l, atom_text a = c :: l /\ match a with AName _ => is_alpha c | _ => is_digit c || (c =? c_dot) end = true)
    as (c & l & E & Hc).
  { destruct a as [ds [fs|]|s]; simpl in *.
    - destruct ds as [|d ds]; simpl in *; [by do 2 eexists|]. eexists _, _. split; [done|].
      destruct (is_digit d); [done|]. discriminate Hg.
    - destruct ds as [|d ds]; simpl in *; [done|]. eexists _, _. split; [done|].
      destruct (is_digit d); [done|]. discriminate Hg.
    - destruct s as [|d s]; [done|]. exists d, s. split; [done|].
      destruct (is_alpha d); [done|]. discriminate Hg. }
  assert (c <> 0 /\ c <> c_open /\ c <> c_minus /\ c <> c_plus /\ c <> c_space) as (?&?&?&?&?).
  { repeat split; intros ->; destruct a; by vm_compute in Hc. }
  assert (drop_spaces (blanks sp ++ atom_text a ++ t) = c :: l ++ t) as Hd.
  { rewrite drop_spaces_spaces, E. by apply drop_spaces_cons. }
  destruct a as [ds fs|s].
  - assert (is_alpha c = false) as Ha by (unfold is_alpha, is_digit, c_0, c_9, c_dot in *; lia).
    rewrite (factor_plain _ _ _ _ _ Hd) by (try done; intros; by apply no_prefix_head). rewrite Ha.
    rewrite (app_comm_cons l t c), <- E. eapply run_literal; [done..|]. destruct Ht as (b & k & ? & _ & ? & ?). by exists b, k.
  - assert (exists a l, t = a :: l /\ is_word a = false) as Hw by (destruct Ht as (b & k & ? & ? & _); eauto).
    rewrite (factor_plain _ _ _ _ _ Hd); try done.
    + rewrite Hc, (app_comm_cons l t c), <- E. by apply run_name.
    + intros p Hp. rewrite (app_comm_cons l t c), <- E. simpl in E. subst s. cbn [good_atom] in Hg. rewrite !andb_true_iff in Hg.
      destruct Hg as [_ Hn]. rewrite forallb_forall in Hn.
      apply no_prefix; [|by apply negb_true_iff, Hn|done].
      unfold reserved in Hp. simpl in Hp. by destruct_or! Hp; subst.
Qed.

(** *** Operators *)

(** The parser and the loop of a level *)
Definition at_level (fuel p : nat) : Ps fixed_t :=
  match p with
  | O => parse_expr (factor fuel)
  | 1%nat => parse_term (factor fuel)
  | 2%nat => parse_power (factor fuel)
  | _ => factor fuel
  end.

Definition body_at (fuel p : nat) : Z -> fixed_t -> Ps (fixed_t + fixed_t) :=
  match p with
  | O => expr_body (at_level fuel 1)
  | 1%nat => term_body (at_level fuel 2)
  | _ => power_body (at_level fuel 3)
  end.

(** [P fuel p text x rest]: the parser of level [p] reads [text] up to [rest]. *)
Definition reads (fuel p : nat) (text : bytes) (x : Z) (rest : bytes) : Prop :=
  exists t, at_level fuel p (Parser text 0) = Some (Val (fix_of x), Parser t 0) /\ ahead t rest.

(** The parser of level [p] has read [text] up to [rest] and goes on with its loop. *)
Definition reaches (fuel p : nat) (text : bytes) (x : Z) (rest : bytes) : Prop :=
  exists k t, at_level fuel p (Parser text 0) = operators k (body_at fuel p) (fix_of x) (Parser t 0) /\
    ahead t rest /\ (length t < k)%nat.

Lemma reads_reaches fuel p text x rest :
  (p < 3)%nat -> reads fuel (S p) text x rest -> reaches fuel p text x rest.
Proof.
  intros Hp (t & Hr & Ha). exists (S (length t)), t. split; [|split; [done|lia]].
  assert (at_level fuel p = level_loop (at_level fuel (S p)) (body_at fuel p)) as -> by (by destruct p as [|[|[|]]]; [..|lia]).
  unfold level_loop. by mrun Hr.
Qed.

(** The loop of level [p] leaves what ends a lower level. *)
Lemma body_stops fuel p c v s :
  (p < 3)%nat -> (c = 0 \/ c = c_close \/ exists o, c = op_char o /\ (op_level o < p)%nat) ->
  body_at fuel p c v s = Some (Val (inr v), s).
Proof.
  intros Hp [->|[->|(o & -> & Ho)]]; destruct p as [|[|[|]]]; try lia; try done; destruct o; simpl in Ho; try lia; done.
Qed.

Lemma operators_stop fuel p k v t c r :
  (p < 3)%nat -> drop_spaces t = c :: r -> (c = 0 \/ c = c_close \/ exists o, c = op_char o /\ (op_level o < p)%nat) ->
  (length t < k)%nat ->
  exists t', operators k (body_at fuel p) v (Parser t 0) = Some (Val v, Parser t' 0) /\ ahead t' t.
Proof.
  intros Hp Hd Hc Hk. destruct k as [|k]; [lia|]. cbn [operators].
  destruct (drop_spaces_head _ _ _ Hd) as (a & l & -> & _). mrun (run_peek a l 0).
  case_match; [exists (a :: l); split; [done|apply ahead_refl]|]. exists (c :: r).
  mrun (run_skip _ 0 _ _ Hd). mrun (run_peek c r 0). mrun (body_stops fuel p c v (Parser (c :: r) 0) Hp Hc).
  split; [done|]. rewrite <- Hd. apply ahead_drop, ahead_refl.
Qed.

Lemma ahead_trans t1 t2 t3 : ahead t1 t2 -> ahead t2 t3 -> ahead t1 t3.
Proof. intros [H1 ?] [H2 ?]. split; [by rewrite H1, H2|lia]. Qed.

(** The loop of level [p] ends at [rest]. *)
Definition stops (p : nat) (rest : bytes) : Prop :=
  exists c r, drop_spaces rest = c :: r /\ (c = 0 \/ c = c_close \/ exists o, c = op_char o /\ (op_level o < p)%nat).

Lemma next_ok_stops q p rest : (q < p)%nat -> next_ok q rest -> stops p rest.
Proof.
  intros Hq (c & r & Hd & Hc). exists c, r. split; [done|].
  apply ends_level_char in Hc as [?|[?|(o & ? & ?)]]; [by left | by right; left | right; right; exists o; split; [done|lia]].
Qed.

Lemma reaches_reads fuel p text x rest :
  (p < 3)%nat -> stops p rest -> reaches fuel p text x rest -> reads fuel p text x rest.
Proof.
  intros Hp (c & r & Hd & Hc) (k & t & Hr & Ha & Hk). pose proof Ha as [Ht _]. rewrite Hd in Ht.
  destruct (operators_stop fuel p k (fix_of x) t c r) as (t' & Ho & Ha'); [done..|].
  exists t'. rewrite Hr. split; [done|]. by eapply ahead_trans.
Qed.

(** What is read at a level is read at every lower one. *)
Lemma reaches_down fuel p q text x rest :
  (q <= p < 3)%nat -> next_ok q rest -> reaches fuel p text x rest -> reaches fuel q text x rest.
Proof.
  intros [Hq Hp] Hn. induction Hq as [|p Hq IH]; [done|]. intros H. apply IH; [lia|].
  apply reads_reaches; [lia|]. apply reaches_reads; [lia | eapply next_ok_stops; [|exact Hn]; lia | done].
Qed.

(** The body of a loop on its own operator *)
Lemma body_own fuel o v :
  body_at fuel (op_level o) (op_char o) v =
    (advance 1;;
     b ← at_level fuel (S (op_level o));
     if match o with ODiv => (int_part b =? 0) && (frac_part b =? 0) | _ => false end then set_error 2;; mret (inr fixed_zero)
     else val ← lift (op_apply o v b); mret (inl val)).
Proof. by destruct o. Qed.

(** A read operand, a read operator and a read operand *)
Lemma op_step fuel o x y z t rest text :
  op_apply o (fix_of x) (fix_of y) = Some (fix_of z) -> good y -> op_value o x y = Some z ->
  drop_spaces t = op_char o :: text -> reads fuel (S (op_level o)) text y rest ->
  forall k, exists t', operators (S k) (body_at fuel (op_level o)) (fix_of x) (Parser t 0) =
    operators k (body_at fuel (op_level o)) (fix_of z) (Parser t' 0) /\ ahead t' rest.
Proof.
  intros Ha Hy Hv Hd (t' & Hr & Ht') k. exists t'. split; [|done].
  destruct (drop_spaces_head _ _ _ Hd) as (a & l & -> & Hc). cbn [operators]. mrun (run_peek a l 0).
  assert ((a =? 0) = false) as -> by (destruct Hc as [->| ->]; [by destruct o|done]).
  mrun (run_skip _ 0 _ _ Hd). mrun (run_peek (op_char o) text 0). rewrite body_own, bind_assoc.
  mrun (run_advance 1 (op_char o :: text) 0). rewrite bind_assoc. mrun Hr.
  assert (match o with ODiv => (int_part (fix_of y) =? 0) && (frac_part (fix_of y) =? 0) | _ => false end = false) as ->.
  { destruct o; try done. cbn in Hv. destruct (Z.eqb_spec y 0) as [|Hy0]; [discriminate Hv|]. pose proof (fix_parts y). cbn [int_part frac_part fix_of]. zlia. }
  rewrite bind_assoc. by mlift Ha.
Qed.

(** *** Expressions *)

Fixpoint nesting (e : exp) : nat :=
  match e with
  | Leaf _ _ _ | Const _ _ => 0
  | Paren _ e _ | Plus _ e | Abs _ e => S (nesting e)
  | Bin _ a _ b => nesting a `max` nesting b
  end.

(** [e] is read at level [p] before [rest]. *)
Definition parsed (fuel p : nat) (text : bytes) (x : Z) (rest : bytes) : Prop :=
  if decide (p < 3)%nat then reaches fuel p text x rest else reads fuel 3 text x rest.

Lemma parsed_low fuel p text x rest : (p < 3)%nat -> parsed fuel p text x rest <-> reaches fuel p text x rest.
Proof. intros. unfold parsed. by rewrite decide_True. Qed.

Lemma next_ok_mono p q rest : (p <= q)%nat -> next_ok p rest -> next_ok q rest.
Proof.
  intros Hq (c & r & Hd & Hc). exists c, r. split; [done|].
  apply ends_level_char in Hc as [->|[->|(o & -> & ?)]]; [done..|]. apply op_char_level. lia.
Qed.

Lemma reads_parsed fuel p text x rest : next_ok p rest -> reads fuel 3 text x rest -> parsed fuel p text x rest.
Proof.
  intros Hn H. unfold parsed. case_decide; [|done]. apply (reaches_down fuel 2); [lia|done|]. by apply reads_reaches; [lia|].
Qed.

Lemma parsed_reads fuel p text x rest : (p <= 3)%nat -> stops p rest -> parsed fuel p text x rest -> reads fuel p text x rest.
Proof.
  unfold parsed. intros Hp Hn. case_decide; [by apply reaches_reads|]. by replace p with 3%nat by lia.
Qed.

Lemma or_prefix_yes name th el t e :
  str_startswith t (clit name) = Some 1 ->
  or_prefix name th el (Parser t e) = th (Parser (drop (String.length name) t) e).
Proof. intros H. unfold or_prefix, starts_with. rewrite bind_assoc, bind_gets, bind_assoc. mlift H. done. Qed.

Lemma run_const sp c rest fuel : reads (S fuel) 3 (blanks sp ++ const_text c ++ rest) (const_value m c) rest.
Proof.
  exists rest. split; [|apply ahead_refl]. cbn [at_level parse_factor].
  assert (exists a l, const_text c ++ rest = a :: l /\ a <> c_space /\ (a =? 0) = false /\ (a =? c_open) = false /\
    (a =? c_minus) = false /\ (a =? c_plus) = false) as (a & l & E & Ha & H0 & H1 & H2 & H3) by (destruct c; by do 2 eexists).
  assert (drop_spaces (blanks sp ++ const_text c ++ rest) = a :: l) as Hd
    by (rewrite drop_spaces_spaces, E; by apply drop_spaces_cons).
  mrun (run_skip _ 0 _ _ Hd). mrun (run_peek a l 0). rewrite <- E.
  rewrite H0, H1, H2, H3. destruct c; rewrite ?or_prefix_no by done; by rewrite or_prefix_yes.
Qed.

(** The text after the spaces of a token *)
Lemma drop_token sp c l : c <> c_space -> drop_spaces (blanks sp ++ c :: l) = c :: l.
Proof. intros. rewrite drop_spaces_spaces. by apply drop_spaces_cons. Qed.

Lemma run_paren sp sp' text rest x fuel :
  parsed fuel 0 (text ++ blanks sp' ++ c_close :: rest) x (blanks sp' ++ c_close :: rest) ->
  reads (S fuel) 3 (blanks sp ++ c_open :: text ++ blanks sp' ++ c_close :: rest) x rest.
Proof.
  assert (drop_spaces (blanks sp' ++ c_close :: rest) = c_close :: rest) as Hc by by apply drop_token.
  intros (t & Hr & Ht & _)%parsed_reads; [|lia|exists c_close, rest; split; [done|by right; left]].
  exists rest. split; [|apply ahead_refl]. cbn [at_level parse_factor].
  mrun (run_skip _ 0 _ _ (drop_token sp c_open (text ++ blanks sp' ++ c_close :: rest) ltac:(done))).
  mrun (run_peek c_open (text ++ blanks sp' ++ c_close :: rest) 0). cbn [Z.eqb Pos.eqb c_open].
  mrun (run_advance 1 (c_open :: text ++ blanks sp' ++ c_close :: rest) 0). cbn [drop]. mrun Hr.
  rewrite Hc in Ht. mrun (run_skip _ 0 _ _ Ht). by mrun (run_peek c_close rest 0).
Qed.

Lemma run_plus sp text rest x fuel :
  reads fuel 3 text x rest -> reads (S fuel) 3 (blanks sp ++ c_plus :: text) x rest.
Proof.
  intros (t & Hr & Ht). exists t. split; [|done]. cbn [at_level parse_factor].
  mrun (run_skip _ 0 _ _ (drop_token sp c_plus text ltac:(done))). by mrun (run_peek c_plus text 0).
Qed.

Lemma run_abs sp text rest x fuel :
  good x -> reads fuel 3 text x rest -> reads (S fuel) 3 (blanks sp ++ lit "abs" ++ text) x rest.
Proof.
  intros Hx (t & Hr & Ht). exists t. split; [|done]. cbn [at_level parse_factor].
  pose proof (drop_token sp 97 ([98; 115] ++ text) ltac:(done)) as Hd. mrun (run_skip _ 0 _ _ Hd). mrun (run_peek 97 ([98; 115] ++ text) 0).
  assert ((97 =? 0) = false /\ (97 =? c_open) = false /\ (97 =? c_minus) = false /\ (97 =? c_plus) = false) as (-> & -> & -> & ->) by done.
  rewrite !or_prefix_no by done. rewrite or_prefix_yes by done. cbn [app drop String.length].
  mrun Hr. unfold lift. by rewrite absolute_fix.
Qed.

Lemma run_bin o a sp b p rest x y z fuel :
  (p <= op_level o)%nat -> next_ok p rest -> good x -> good y -> op_value o x y = Some z ->
  parsed fuel (op_level o) (a ++ blanks sp ++ op_char o :: b ++ rest) x (blanks sp ++ op_char o :: b ++ rest) ->
  parsed fuel (S (op_level o)) (b ++ rest) y rest ->
  good z /\ parsed fuel p ((a ++ blanks sp ++ op_char o :: b) ++ rest) z rest.
Proof.
  intros Hp Hn Hx Hy Hz Ha Hb. destruct (op_value_ok _ _ _ _ Hx Hy Hz) as [Hg Hop]. split; [done|].
  assert (op_level o < 3)%nat as Ho by (destruct o; simpl; lia).
  apply parsed_reads in Hb; [|lia|by eapply next_ok_stops; [|exact Hn]; lia].
  rewrite parsed_low in * by lia. rewrite <- app_assoc. cbn [app]. rewrite <- app_assoc. cbn [app].
  apply (reaches_down fuel (op_level o)); [lia|done|]. destruct Ha as (k & t & Hr & [Ht _] & Hk).
  rewrite drop_token in Ht by by destruct o. destruct k as [|k]; [lia|].
  destruct (op_step fuel o x y z t rest (b ++ rest) Hop Hy Hz Ht Hb k) as (t' & Hs & Ha').
  exists k, t'. rewrite Hr, Hs. split; [done|]. split; [done|].
  pose proof (drop_spaces_length t) as Hl. rewrite Ht in Hl. cbn [length] in Hl. rewrite length_app in Hl. destruct Ha' as [_ ?]. lia.
Qed.

(** A token at the end of an operand may be followed by everything [rest] may begin
    with. *)
Lemma next_token p sp c l : c <> c_space -> ends_level p c = true -> next_ok p (blanks sp ++ c :: l).
Proof. intros Hc He. exists c, l. split; [by apply drop_token|done]. Qed.

Lemma run_exp e p rest x fuel :
  (p <= 3)%nat -> grammatical p e = true -> value m rho e = Some x -> next_ok p rest -> (nesting e < fuel)%nat ->
  good x /\ parsed fuel p (print_exp e ++ rest) x rest.
Proof.
  revert p rest x fuel. induction e as [sp a bang|sp c|sp e IH sp'|sp e IH|sp e IH|o a IHa sp b IHb];
    intros p rest x fuel Hp [Hl Hg]%andb_true_iff Hv Hn Hf; cbn [print_exp value nesting] in *;
    (destruct fuel as [|fuel]; [lia|]); rewrite <- ?app_assoc.
  - assert (exists y, atom_value rho a = Some y /\ banged bang y = Some x) as (y & Hy & Hb).
    { destruct bang; [|by exists x]. by apply bind_Some in Hv. }
    destruct (run_atom a y (bang_text bang ++ rest) 0 fuel sp Hg Hy) as [Hgy Hr]; [by eapply bang_head|].
    destruct (run_bang y x bang rest p 0 Hgy Hn Hb) as (Hgx & t & Ht & Ha). split; [done|].
    apply reads_parsed; [done|]. exists t. split; [by rewrite <- Ht, <- Hr | done].
  - injection Hv as <-. split; [destruct c; [by vm_compute..|done]|]. apply reads_parsed; [done|]. apply run_const.
  - destruct (IH 0%nat (blanks sp' ++ c_close :: rest) x fuel) as [Hx Hr]; try done; [lia|by apply next_token|lia|].
    split; [done|]. apply reads_parsed; [done|]. cbn [app]. rewrite <- !app_assoc. by apply run_paren.
  - destruct (IH 3%nat rest x fuel) as [Hx Hr]; try done; [by apply (next_ok_mono p)|lia|].
    split; [done|]. apply reads_parsed; [done|]. by apply run_plus.
  - destruct (IH 3%nat rest x fuel) as [Hx Hr]; try done; [by apply (next_ok_mono p)|lia|].
    split; [done|]. apply reads_parsed; [done|]. by apply run_abs.
  - apply bind_Some in Hv as (xa & Hxa & (xb & Hxb & Hv)%bind_Some). apply andb_true_iff in Hg as [Hga Hgb].
    apply bool_decide_eq_true in Hl. simpl in Hl. assert (op_level o <= 2)%nat by (destruct o; simpl; lia).
    destruct (IHa (op_level o) (blanks sp ++ op_char o :: print_exp b ++ rest) xa (S fuel)) as [Hg1 Hr1];
      [lia|done|done|apply next_token; [by destruct o|by apply op_char_level]|lia|].
    destruct (IHb (S (op_level o)) rest xb (S fuel)) as [Hg2 Hr2];
      [lia|done|done|apply (next_ok_mono p); [lia|done]|lia|].
    destruct (run_bin o (print_exp a) sp (print_exp b) p rest xa xb x (S fuel)) as [Hg Hr]; try done.
    split; [done|]. by rewrite <- !app_assoc in *.
Qed.

Lemma nesting_print e : (nesting e <= length (print_exp e))%nat.
Proof. induction e; simpl; rewrite ?length_app; simpl; rewrite ?length_app; simpl; lia. Qed.

End Evaluation.

Lemma evaluate_exp m rho vars n e x junk :
  good m -> holds rho vars n -> grammatical 0 e = true -> value m rho e = Some x ->
  good x /\ evaluate (fix_of m) vars n (print_exp e ++ 0 :: junk) = Some (fix_of x, 0).
Proof.
  intros Hm Hh Hg Hv. unfold evaluate.
  destruct (run_exp m rho vars n Hm Hh e 0 (0 :: junk) x (S (length (print_exp e ++ 0 :: junk)))) as [Hx Hr]; try done.
  - lia.
  - by exists 0, junk.
  - pose proof (nesting_print e). rewrite length_app. lia.
  - apply parsed_reads in Hr as (t & Hr & _); [|lia|exists 0, junk; split; [done|by left]].
    cbn [at_level] in Hr. by rewrite Hr.
Qed.

(** C39: The calculator evaluates the expressions of a sublanguage exactly. The
    sublanguage ([exp]) has decimal numbers with at most 18 places, variables whose
    names begin with none of the reserved words, [pi], [e], [ans], [!] after a number or
    a variable, the unary plus, [abs], parentheses, the binary operators, and any
    spaces. It has no unary minus and no [sin], [cos], [tan], [sqrt], [log] and [ln].
    For such an expression to which the reference evaluation [value] gives a value (in
    millionths), the program returns that value and reports no error: precedence is that
    of the grammar, all operators associate to the left, sums are exact, products,
    quotients and powers (by the integer part of the exponent) are rounded down. [value]
    is partial: it gives none if an intermediate result is negative or does not fit into
    64 bits, for a division by zero, for a difference whose subtrahend has the larger
    fraction (where the program errs), for the factorial of more than 15 and for unknown
    variables. [m] is the last answer and [rho] the variables, both without negative
    values. *)
Theorem calc_exact m rho vars n e x junk :
  good m -> holds rho vars n -> grammatical 0 e = true -> value m rho e = Some x ->
  evaluate (fix_of m) vars n (print_exp e ++ 0 :: junk) = Some (fix_of x, 0).
Proof. apply evaluate_exp. Qed.

(** ** Calculations *)

Module Calculations.

Definition x7 : list Variable_ := [Var (clit "x") (Fixed 7 0)].

Lemma x7_holds : holds [(lit "x", 7000000)] x7 1.
Proof.
  split; [done|]. exists x7, []. split; [done|]. repeat constructor; simpl; try done; [|lia..].
  exists []. split; [done|]. by repeat constructor.
Qed.

(** [1 + 2.5*(2^ 3!^2  )+abs(x/pi)] with [x = 7] *)
Lemma calc_exact_witness :
  print_exp sample = lit "1 + 2.5*(2^ 3!^2  )+abs(x/pi)" /\
  evaluate (fix_of 0) x7 1 (print_exp sample ++ [0]) = Some (fix_of 10243228169, 0).
Proof.
  split; [reflexivity|]. apply (calc_exact 0 [(lit "x", 7000000)] x7 1 sample 10243228169 []).
  - split; [discriminate | reflexivity].
  - exact x7_holds.
  - reflexivity.
  - vm_compute. reflexivity.
Defined.

Definition answer_of (t : string) : option (fixed_t * Z) := evaluate fixed_zero [] 0 (clit t).

(** The square root of [x] is taken of its millionths: a thousandth of the root. *)
Lemma sqrt_of_four : answer_of "sqrt(4)" = Some (Fixed 0 2000, 0).
Proof. vm_compute. reflexivity. Qed.

(** A result between -1 and 0 loses its sign. *)
Lemma sine_sign : answer_of "sin(0-1)" = answer_of "sin(1)" /\ answer_of "(0-1)/2" = answer_of "1/2".
Proof. vm_compute. done. Qed.

(** A difference that borrows keeps a negative fraction: [5.5-2.7] is shown as [3.-200000]. *)
Lemma borrow_not_taken :
  answer_of "5.5-2.7" = Some (Fixed 3 (-200000), 0) /\
  fixed_to_str (Fixed 3 (-200000)) (zeros 32) = Some (lit "3.-200000" ++ zeros 23).
Proof. vm_compute. done. Qed.

(** The product of a negated number with a fraction: [-2.5*2] is -3. *)
Lemma negated_product : answer_of "-2.5*2" = Some (Fixed (-3) 0, 0).
Proof. vm_compute. reflexivity. Qed.

(** The product in millionths of millionths overflows at 25 million. *)
Lemma product_overflows : answer_of "5000*5000" = None.
Proof. vm_compute. reflexivity. Qed.

(** A division by zero inside parentheses that is followed by an operator is reported as a
    syntax error. *)
Lemma division_reported : answer_of "1/0*2" = Some (fixed_zero, 2) /\ answer_of "(1/0*2)" = Some (fixed_zero, 1).
Proof. vm_compute. done. Qed.

(** Factorials above 15 are those of 15; what follows an expression is ignored. *)
Lemma silent_results :
  answer_of "20!" = answer_of "15!" /\ answer_of "2 3" = answer_of "2" /\ answer_of "pi!" = answer_of "pi".
Proof. vm_compute. done. Qed.

End Calculations.
