(* ===== verification/CalcSession.v ===== *)
(** * A session with the calculator

    What a user sees: the characters of an expression are typed, ENTER is pressed, and the
    program shows the value of the expression with six decimal places, keeps it as the
    last answer and adds it to the history; the screen is redrawn in between.  The
    keyboard and the screen are the class [TypedOs]: the keys still to come are a list,
    and drawing does not touch them. *)

From S2P Require Import Prelude CMonad CString Keyboard Sheet SheetProofs Calc CalcProofs.

(** ** Buffers that hold a text *)

(** [b] is an array of [n] characters that holds the text [s]. *)
Definition holds_text (b : bytes) (n : Z) (s : bytes) : Prop := zlen b = n /\ cstr b s.

Lemma strcpy_text b n src s :
  zlen b = n -> cstr src s -> zlen s < n -> exists b', str_strcpy b src = Some b' /\ holds_text b' n s.
Proof.
  intros Hb Hs Hn. unfold str_strcpy. rewrite (strcpy_blit _ _ _ s) by done.
  destruct (blit_total b (s ++ [0]) 0) as [b' E]; [lia|zs|]. exists b'. split; [done|]. split.
  - by rewrite (blit_zlen _ _ _ _ E).
  - eapply cstr_blit; [|done]. by destruct Hs as (? & _ & ?).
Qed.

Lemma strcat_text b n d src s :
  holds_text b n d -> cstr src s -> zlen d + zlen s < n -> exists b', str_strcat b src = Some b' /\ holds_text b' n (d ++ s).
Proof.
  intros [Hb Hd] Hs Hn. unfold str_strcat. rewrite (strlen_cstr _ _ Hd). cbn [mbind option_bind].
  rewrite (strcpy_blit _ _ _ s) by done. destruct Hd as (t & -> & Hz). destruct Hs as (t' & -> & Hz').
  destruct (blit_total (d ++ 0 :: t) (s ++ [0]) (zlen d)) as [b' E]; [apply zlen_nonneg|zs|]. exists b'. split; [done|].
  split; [by rewrite (blit_zlen _ _ _ _ E)|]. apply blit_Some in E as (_ & _ & ->).
  replace (Z.to_nat (zlen d)) with (length d) by zs. rewrite take_app_length.
  eexists. rewrite <- !app_assoc. split; [done|]. by apply nozero_app.
Qed.

Lemma cat_all_text b n d l ss :
  holds_text b n d -> Forall2 cstr l ss -> zlen d + zlen (concat ss) < n ->
  exists b', cat_all b l = Some b' /\ holds_text b' n (d ++ concat ss).
Proof.
  intros Hb Hl. revert b d Hb. induction Hl as [|src s l ss Hs Hl IH]; intros b d Hb Hn; simpl in *.
  - exists b. rewrite app_nil_r. done.
  - rewrite zlen_app in Hn. pose proof (zlen_nonneg (concat ss)).
    destruct (strcat_text _ _ _ _ _ Hb Hs ltac:(lia)) as (b1 & -> & H1). simpl.
    destruct (IH _ _ H1) as (b2 & E & H2); [zs|]. exists b2. split; [done|]. by rewrite app_assoc.
Qed.

Lemma strncpy_text b n src s :
  zlen b = n -> cstr src s -> zlen s < n -> exists b', strncpy b src n = Some b' /\ holds_text b' n s.
Proof.
  intros Hb (t & -> & Hz) Hn. unfold strncpy. pose proof (zlen_nonneg s). replace (n =? 0) with false by lia.
  pose proof (ncopy_pad_text [] b s t (Z.to_nat (n - 1)) (Z.to_nat n) Hz) as E. cbn [app] in E. change (zlen (@nil Z)) with 0 in E.
  rewrite (E ltac:(zs) ltac:(lia) ltac:(zs)). eexists. split; [done|].
  assert (drop (Z.to_nat n) b = []) as -> by (apply nil_length_inv; rewrite length_drop; zs).
  split; [unfold zeros; zs|]. rewrite app_nil_r.
  exists (zeros (Z.to_nat n - S (length s))). split; [|done]. f_equal.
  by replace (Z.to_nat n - length s)%nat with (S (Z.to_nat n - S (length s))) by zs.
Qed.

(** ** The text of a result *)

Lemma temp_digits_blit fuel v i temp :
  0 <= v < 10 ^ Z.of_nat fuel -> 0 <= i <= zlen temp ->
  temp_digits fuel v i temp = (fun t => (i + zlen (lsd fuel v), t)) <$> blit temp i (lsd fuel v).
Proof.
  revert v i temp. induction fuel as [|fuel IH]; intros v i temp Hv Hi.
  - simpl in Hv. replace v with 0 by lia. simpl. rewrite blit_nil by done. simpl. do 2 f_equal. rewrite zlen_nil. lia.
  - cbn [temp_digits lsd]. destruct (Z.eqb_spec v 0) as [->|].
    + simpl. rewrite blit_nil by done. simpl. do 2 f_equal. rewrite zlen_nil. lia.
    + replace (0 <? v) with true by lia. rewrite blit_cons, (Z.add_comm c_0). destruct (wr temp i _) as [t|] eqn:Hw; [|done].
      cbn [mbind option_bind]. rewrite IH.
      * rewrite zlen_cons. by replace (i + 1 + zlen (lsd fuel (v / 10))) with (i + (1 + zlen (lsd fuel (v / 10)))) by lia.
      * rewrite Nat2Z.inj_succ, Z.pow_succ_r in Hv by lia. split; [apply Z.div_pos; lia|]. apply Z.div_lt_upper_bound; lia.
      * rewrite (wr_zlen _ _ _ _ Hw). apply wr_Some in Hw as [? _]. lia.
Qed.

Lemma emit_digits_blit ds r b max_len buf :
  0 <= b -> b + zlen ds <= max_len - 1 -> max_len <= zlen buf ->
  emit_digits (length ds) b max_len (ds ++ r) buf = (fun t => (b + zlen ds, t)) <$> blit buf b (reverse ds).
Proof.
  revert r b buf. induction ds as [|d ds IH] using rev_ind; intros r b buf Hb Hm Hz.
  - rewrite reverse_nil. simpl. rewrite blit_nil by (rewrite zlen_nil in Hm; lia). simpl. do 2 f_equal. rewrite zlen_nil. lia.
  - rewrite length_app, Nat.add_comm. cbn [length Nat.add emit_digits]. rewrite zlen_app in *. change (zlen [d]) with 1 in *.
    pose proof (zlen_nonneg ds). replace (b <? max_len - 1) with true by lia. rewrite <- app_assoc. cbn [app].
    pose proof (rd_mid ds d r) as E. unfold zlen in E at 1. rewrite E. cbn [mbind option_bind].
    rewrite reverse_snoc, blit_cons. destruct (wr buf b d) as [buf'|] eqn:Hw; [|done]. cbn [mbind option_bind].
    rewrite IH by (rewrite ?(wr_zlen _ _ _ _ Hw); lia). by replace (b + 1 + zlen ds) with (b + (zlen ds + 1)) by lia.
Qed.

Lemma zlen_reverse {A} (l : list A) : zlen (reverse l) = zlen l.
Proof. unfold zlen. by rewrite length_reverse. Qed.

Lemma int_to_str_text v : good v -> exists b, int_to_str v (zeros 32) 32 = Some b /\ holds_text b 32 (dec v).
Proof.
  unfold good. intros Hv. unfold int_to_str. destruct (Z.eqb_spec v 0) as [->|].
  { eexists. split; [done|]. split; [done|]. eexists. split; [done|]. by constructor. }
  replace (v <? 0) with false by lia. cbn [mbind option_bind andb].
  assert (0 <= v < 10 ^ Z.of_nat 20) as Hb by (simpl; lia).
  rewrite temp_digits_blit by (try done; by vm_compute).
  pose proof (length_lsd 20 v) as Hl. destruct (blit_total (zeros 32) (lsd 20 v) 0) as [temp E]; [done|unfold zeros; zs|].
  rewrite E. cbn [fmap option_fmap option_map mbind option_bind].
  apply blit_0_Some in E as [_ ->]. replace (Z.to_nat (0 + zlen (lsd 20 v))) with (length (lsd 20 v)) by zs.
  rewrite emit_digits_blit by (unfold zeros; zs).
  destruct (blit_total (zeros 32) (reverse (lsd 20 v)) 0) as [buf E]; [done|rewrite zlen_reverse; unfold zeros; zs|].
  rewrite E. cbn [fmap option_fmap option_map mbind option_bind]. apply blit_0_Some in E as [_ ->].
  replace (0 + zlen (lsd 20 v)) with (zlen (reverse (lsd 20 v))) by (rewrite zlen_reverse; lia).
  assert (exists r, drop (length (reverse (lsd 20 v))) (zeros 32) = 0 :: r) as [r Hr].
  { unfold zeros. rewrite length_reverse, drop_replicate. replace (32 - length (lsd 20 v))%nat with (S (31 - length (lsd 20 v))) by lia. by eexists. }
  rewrite Hr, wr_mid. eexists. split; [done|]. rewrite dec_pos by lia. split.
  - apply (f_equal length) in Hr. unfold zeros in Hr. rewrite length_drop, length_replicate, length_reverse in Hr.
    unfold zlen. rewrite length_app, length_reverse. cbn [length] in *. lia.
  - eexists. split; [done|]. apply digits_nozero, Forall_reverse, lsd_digits. lia.
Qed.

Lemma dec_length k v : (0 < k)%nat -> 0 <= v < 10 ^ Z.of_nat k -> (length (dec v) <= k)%nat.
Proof. intros Hk Hv. unfold dec. case_match; [simpl; lia|]. rewrite length_reverse. by apply length_lsd_bound. Qed.

(** The six decimal places, and the text of [x] millionths *)
Definition places (f : Z) : bytes := replicate (6 - length (dec f)) c_0 ++ dec f.
Definition fixed_text (x : Z) : bytes := dec (x / SCALE) ++ [c_dot] ++ places (x mod SCALE).

Lemma pad_frac_text k b n d :
  holds_text b n d -> zlen d + Z.of_nat k < n ->
  exists b', pad_frac k b = Some b' /\ holds_text b' n (d ++ replicate k c_0).
Proof.
  revert b d. induction k as [|k IH]; intros b d Hb Hn; simpl.
  - exists b. by rewrite app_nil_r.
  - destruct (strcat_text b n d (clit "0") [c_0] Hb) as (b1 & -> & H1); [by apply cstr_clit; repeat constructor|zs|]. simpl.
    destruct (IH b1 _ H1) as (b2 & E & H2); [zs|]. exists b2. split; [done|]. by rewrite <- app_assoc in H2.
Qed.

Lemma places_length f : 0 <= f < SCALE -> length (places f) = 6%nat.
Proof.
  intros Hf. unfold places. rewrite length_app, length_replicate.
  pose proof (dec_length 6 f ltac:(lia) Hf). lia.
Qed.

Lemma fixed_text_length x : good x -> zlen (fixed_text x) <= 20.
Proof.
  intros Hx. unfold fixed_text. pose proof (fix_parts x) as [_ Hf]. pose proof (places_length _ Hf).
  assert (0 <= x / SCALE < 10 ^ Z.of_nat 13) as Hi by
    (clear - Hx; unfold good, SCALE in *; split; [apply Z.div_pos | apply Z.div_lt_upper_bound]; lia).
  pose proof (dec_length 13 _ ltac:(lia) Hi). unfold zlen. rewrite !length_app. simpl. lia.
Qed.

Lemma fixed_to_str_text x b :
  good x -> zlen b = 32 -> exists b', fixed_to_str (fix_of x) b = Some b' /\ holds_text b' 32 (fixed_text x).
Proof.
  intros Hx Hb. pose proof (fix_parts x) as [_ Hf]. pose proof (fixed_text_length x Hx) as Hl.
  assert (good (x / SCALE) /\ good (x mod SCALE)) as [Hi Hf']
    by (split; [by apply div_good | unfold good, SCALE in *; lia]).
  unfold fixed_to_str. cbn [fix_of int_part frac_part]. destruct (int_to_str_text _ Hi) as (ib & -> & _ & Hib). cbn [mbind option_bind].
  unfold fixed_text, places in *. rewrite !zlen_app, zlen_replicate in Hl. change (zlen [c_dot]) with 1 in Hl.
  pose proof (zlen_nonneg (dec (x mod SCALE))).
  destruct (strcpy_text b 32 ib _ Hb Hib ltac:(lia)) as (b1 & -> & H1). cbn [mbind option_bind].
  destruct (strcat_text b1 32 _ (clit ".") [c_dot] H1) as (b2 & -> & H2); [by apply cstr_clit; repeat constructor|zs|]. cbn [mbind option_bind].
  destruct (int_to_str_text _ Hf') as (fb & -> & _ & Hfb). cbn [mbind option_bind]. rewrite (strlen_cstr _ _ Hfb). cbn [mbind option_bind].
  replace (Z.to_nat (6 - zlen (dec (x mod SCALE)))) with (6 - length (dec (x mod SCALE)))%nat by zs.
  destruct (pad_frac_text (6 - length (dec (x mod SCALE))) b2 32 _ H2) as (b3 & -> & H3); [zs|]. cbn [mbind option_bind].
  destruct (strcat_text b3 32 _ fb _ H3 Hfb) as (b4 & E & H4); [rewrite !zlen_app, zlen_replicate; zs|].
  exists b4. split; [done|]. by rewrite <- !app_assoc in *.
Qed.

(** A result that is shown can be typed again: it is an expression with that value. *)
Lemma fixed_text_again x rho :
  good x -> good_atom (ANum (dec (x / SCALE)) (Some (places (x mod SCALE)))) = true /\
  atom_value rho (ANum (dec (x / SCALE)) (Some (places (x mod SCALE)))) = Some x.
Proof.
  intros Hx. pose proof (fix_parts x) as [Hp Hf]. pose proof (places_length _ Hf) as Hl. pose proof (div_good x SCALE Hx ltac:(done)) as Hi.
  assert (Forall (fun c => is_digit c = true) (places (x mod SCALE))) as Hd.
  { unfold places. apply Forall_app. split; [by apply Forall_replicate | apply dec_digits; lia]. }
  assert (is_u64 (x / SCALE) /\ is_u64 (x mod SCALE)) as [H1 H2] by (unfold is_u64, good, SCALE in *; lia).
  assert (dval (places (x mod SCALE)) = x mod SCALE) as Hv.
  { unfold places. unfold dval. rewrite foldl_app, dval_cons_acc.
    assert (forall k a, foldl (fun a c => a * 10 + (c - c_0)) a (replicate k c_0) = a * 10 ^ Z.of_nat k) as ->.
    { intros k. induction k as [|k IH]; intros a; cbn [foldl replicate]; [lia|]. rewrite IH, Nat2Z.inj_succ, Z.pow_succ_r by lia. lia. }
    rewrite !Z.mul_0_l. by apply dval_dec. }
  assert (zlen (places (x mod SCALE)) = 6) as Hz by (unfold zlen; by rewrite Hl). split.
  - cbn [good_atom]. rewrite Hz, !(proj2 (forallb_digits _)); [done | done | apply dec_digits; unfold good in Hi; lia].
  - cbn [atom_value]. unfold frac6. rewrite Hz, Hv, dval_dec by done. change (6 <=? 6) with true. change (10 ^ (6 - 6)) with 1. cbv iota.
    replace (x / SCALE * SCALE + x mod SCALE * 1) with x by lia. unfold guard64.
    apply fits64_spec in Hx as ->. done.
Qed.

(** ** Keys and screen *)

Class TypedOs (W : Type) {calc_os : CalcOs W} := {
  pending : W -> list Z;
  key_next w k ks : pending w = k :: ks -> exists w', calc_key w = (k, w') /\ pending w' = ks;
  draw_pending w d : pending (calc_draw w d) = pending w;
}.

Definition entry_sized (e : HistoryEntry) : Prop := zlen (query e) = 128 /\ zlen (result e) = 32.
Definition entry_texts (e : HistoryEntry) : Prop := is_text (query e) /\ is_text (result e).

Section Session.
Context {W : Type} {calc_os : CalcOs W} {typed_os : TypedOs W}.
Implicit Types s : calculator W.

Abbreviation Cp := (M (calculator W)).

(** Between two keys: the arrays have their sizes, and what will be shown is a text. *)
Record ready s : Prop := {
  ready_size : zlen (history s) = MAX_HISTORY;
  ready_count : 0 <= history_count s <= MAX_HISTORY;
  ready_entries : Forall entry_sized (history s);
  ready_texts : Forall entry_texts (take (Z.to_nat (history_count s)) (history s));
  ready_query : zlen (latest_query s) = 128 /\ is_text (latest_query s);
  ready_result : zlen (latest_result s) = 32 /\ is_text (latest_result s);
  ready_memory : exists m, good m /\ memory_reg s = fix_of m;
}.

(** The line typed so far *)
Definition typed s (t : bytes) : Prop := holds_text (input_buf s) INPUT_BUF_LEN t /\ input_len s = zlen t.

(** *** Drawing *)

(** [m] yields [a] and only draws. *)
Definition draws {A} (m : Cp A) s (a : A) : Prop :=
  exists w, m s = Some (Val a, set_os w s) /\ pending w = pending (os s).

Lemma draws_bind {A B} (m : Cp A) (k : A -> Cp B) s a b :
  draws m s a -> (forall w, draws (k a) (set_os w s) b) -> draws (m ≫= k) s b.
Proof.
  intros (w & Hm & Hw) Hk. destruct (Hk w) as (w' & Hk' & Hw'). exists w'.
  rewrite (bind_val _ _ _ _ _ Hm), Hk'. split; [done|]. by rewrite <- Hw, Hw'.
Qed.

Lemma draws_gets {A B} (f : calculator W -> A) (k : A -> Cp B) s b :
  draws (k (f s)) s b -> draws (gets f ≫= k) s b.
Proof. intros (w & H & Hw). exists w. by rewrite bind_gets. Qed.

Lemma draws_lift {A B} (o : option A) (k : A -> Cp B) s a b :
  o = Some a -> draws (k a) s b -> draws (lift o ≫= k) s b.
Proof. intros Ho (w & H & Hw). exists w. by rewrite (bind_lift _ _ _ _ Ho). Qed.

Lemma draws_paint d s : draws (paint d) s tt.
Proof. exists (calc_draw (os s) d). split; [done|]. apply draw_pending. Qed.

Lemma draws_ret {A} (a : A) s : draws (mret a) s a.
Proof. exists (os s). split; [by destruct s | done]. Qed.

Lemma draws_for k i body s :
  (forall j w, i <= j < i + Z.of_nat k -> draws (body j) (set_os w s) tt) -> draws (for_loop k i 1 body) s tt.
Proof.
  revert i s. induction k as [|k IH]; intros i s Hb; [apply draws_ret|]. cbn [for_loop].
  apply (draws_bind _ _ _ tt).
  - destruct s. apply (Hb i). lia.
  - intros w. apply IH. intros j w' Hj. apply (Hb j w'). lia.
Qed.

Lemma draws_if (c : bool) (m1 m2 : Cp unit) s : draws m1 s tt -> draws m2 s tt -> draws (if c then m1 else m2) s tt.
Proof. by destruct c. Qed.

Ltac step_draw := first
  [ apply draws_paint
  | apply draws_ret
  | eapply draws_bind; [apply draws_paint | intros ?w]
  | apply draws_gets ].
Ltac just_draw := unfold print_at; repeat step_draw.

Lemma draws_help s : draws draw_help s tt.
Proof. unfold draw_help. just_draw. Qed.

Lemma text_bound b n t : zlen b = n -> cstr b t -> zlen t < n.
Proof. intros <- H. by apply cstr_zlen. Qed.

Lemma lit_text t : nozero (lit t) -> cstr (clit t) (lit t).
Proof. apply cstr_clit. Qed.

Lemma draws_entry s i : ready s -> 0 <= i < history_count s -> draws (draw_entry i) s tt.
Proof.
  intros [Hz Hc He Ht _ _ _] Hi. unfold draw_entry. apply draws_gets.
  destruct (rd_is_Some (history s) i) as [e Hr]; [lia|]. apply (draws_lift _ _ _ e); [done|]. rewrite rd_lookup in Hr by lia.
  destruct (Forall_lookup_1 _ _ _ _ He Hr) as [Hq Hres].
  assert (take (Z.to_nat (history_count s)) (history s) !! Z.to_nat i = Some e) as Hr2 by (apply lookup_take_Some; split; [done|lia]).
  destruct (Forall_lookup_1 _ _ _ _ Ht Hr2) as [[q Hq'] [r Hr']].
  pose proof (text_bound _ _ _ Hq Hq'). pose proof (text_bound _ _ _ Hres Hr').
  destruct (strcpy_text (zeros 200) 200 (clit "  > ") (lit "  > ")) as (b & E & Hb); [done|by apply lit_text; repeat constructor|done|].
  destruct (cat_all_text b 200 _ [query e; clit " = "; result e] [q; lit " = "; r] Hb) as (b' & E' & _).
  - repeat constructor; [done|by apply lit_text; repeat constructor|done].
  - cbn [concat]. rewrite app_nil_r, !zlen_app. change (zlen (lit "  > ")) with 4. change (zlen (lit " = ")) with 3. lia.
  - apply (draws_lift _ _ _ b'); [by rewrite E|]. just_draw.
Qed.

Lemma draws_results s : ready s -> draws draw_results s tt.
Proof.
  intros Hs. pose proof Hs as [Hz Hc He Ht [Hq [q Hq']] [Hr [r Hr']] (m & Hm & Em)]. unfold draw_results.
  pose proof (text_bound _ _ _ Hq Hq') as Bq. pose proof (text_bound _ _ _ Hr Hr') as Br. just_draw.
  destruct (rd_is_Some (latest_query s) 0) as [c Hc0]; [lia|]. apply (draws_lift _ _ _ c); [done|]. just_draw.
  destruct (strcpy_text (zeros 200) 200 (clit "> ") (lit "> ")) as (b & E & Hb); [done|by apply lit_text; repeat constructor|done|].
  assert (exists t, cstr (if c =? 0 then clit "(none)" else latest_query s) t /\ zlen t < 128) as (t & Ht' & Bt).
  { case_match; [exists (lit "(none)"); split; [by apply lit_text; repeat constructor|done] | by exists q]. }
  destruct (cat_all_text b 200 _ [if c =? 0 then clit "(none)" else latest_query s; clit " = "; latest_result s] [t; lit " = "; r] Hb)
    as (b' & E' & _).
  { repeat constructor; [done|by apply lit_text; repeat constructor|done]. }
  { cbn [concat]. rewrite app_nil_r, !zlen_app. change (zlen (lit "> ")) with 2. change (zlen (lit " = ")) with 3. lia. }
  apply (draws_lift _ _ _ b'); [by rewrite E|]. just_draw.
  eapply (draws_bind _ _ _ tt); [apply draws_for|intros ?w].
  { intros j w' Hj. apply draws_entry; [by destruct Hs; constructor|]. simpl in *. lia. }
  eapply (draws_bind _ _ _ tt); [apply draws_if; just_draw|intros ?w]. just_draw. cbn [set_os memory_reg]. rewrite Em.
  destruct (strcpy_text (zeros 64) 64 (clit "Memory [M]: ") (lit "Memory [M]: ")) as (b2 & E2 & Hb2); [done|by apply lit_text; repeat constructor|done|].
  destruct (fixed_to_str_text m (zeros 32) Hm) as (b3 & E3 & _ & Hb3); [done|]. pose proof (fixed_text_length m Hm).
  destruct (strcat_text b2 64 _ b3 _ Hb2 Hb3) as (b4 & E4 & _); [change (zlen (lit "Memory [M]: ")) with 12; lia|].
  apply (draws_lift _ _ _ b4); [by rewrite E2; cbn [mbind option_bind]; rewrite E3|]. just_draw.
Qed.

Lemma draws_bind_modify {A} (m : Cp A) (f : calculator W -> calculator W) s a :
  draws m s a -> exists w, (m ≫= fun _ => modify f) s = Some (Val tt, f (set_os w s)) /\ pending w = pending (os s).
Proof. intros (w & H & Hw). exists w. by rewrite (bind_val _ _ _ _ _ H). Qed.

Lemma repaint_ok s t :
  ready s -> typed s t ->
  exists w, repaint s = Some (Val tt, set_stale false (set_os w s)) /\ pending w = pending (os s).
Proof.
  intros Hs [[Hz Ht] _]. pose proof (text_bound _ _ _ Hz Ht) as Hl. unfold INPUT_BUF_LEN in Hl.
  assert (exists b, (b ← str_strcpy (zeros 144) (input_buf s); str_strcat b (clit "_   ")) = Some b) as (rb & Erb).
  { destruct (strcpy_text (zeros 144) 144 _ _ ltac:(done) Ht) as (b & -> & Hb); [lia|]. cbn [mbind option_bind].
    destruct (strcat_text b 144 _ (clit "_   ") (lit "_   ") Hb) as (b' & E & _); [by apply lit_text; repeat constructor| |by eexists].
    change (zlen (lit "_   ")) with 4. lia. }
  apply (draws_bind_modify _ _ _ tt). unfold draw_screen. just_draw. eapply (draws_bind _ _ _ tt); [apply draws_if|intros ?w].
  - apply draws_help.
  - apply draws_results. by destruct Hs; constructor.
  - just_draw. apply (draws_lift _ _ _ rb); [done|]. just_draw.
Qed.

(** *** Typing *)

(** What typing and drawing leave alone *)
Definition core s :=
  (history s, history_count s, last_answer s, memory_reg s, vars s, var_count s, latest_query s, latest_result s).

Lemma core_ready s s' : core s' = core s -> ready s -> ready s'.
Proof. unfold core. intros [= E1 E2 _ E3 _ _ E4 E5] []. constructor; by rewrite ?E1, ?E2, ?E3, ?E4, ?E5. Qed.

(** A round up to the key *)
Lemma round_key s t k ks :
  ready s -> typed s t -> pending (os s) = k :: ks ->
  exists s1, round s = handle_key k s1 /\ pending (os s1) = ks /\ typed s1 t /\ core s1 = core s.
Proof.
  intros Hs Ht Hk. unfold round. rewrite bind_gets.
  assert (exists s0, (if stale s then repaint else mret tt) s = Some (Val tt, s0) /\ pending (os s0) = k :: ks /\
    typed s0 t /\ core s0 = core s) as (s0 & E & Hp & Ht0 & Hc).
  { destruct (stale s); [|by exists s]. destruct (repaint_ok s t Hs Ht) as (w & E & Hw).
    exists (set_stale false (set_os w s)). split; [done|]. by rewrite <- Hk. }
  mrun E. destruct (key_next _ _ _ Hp) as (w & Ew & Hw). exists (set_os w s0).
  rewrite (bind_val get_key _ s0 (set_os w s0) k); [done|]. unfold get_key. by rewrite Ew.
Qed.

Definition printable (c : Z) : Prop := 32 <= c < 127.

Lemma handle_char s t c :
  typed s t -> printable c -> zlen t < 127 ->
  exists s', handle_key c s = Some (Val tt, s') /\ os s' = os s /\ typed s' (t ++ [c]) /\ core s' = core s.
Proof.
  intros [[Hz (r & E & Hn)] Hl] Hc Ht. unfold printable in Hc. unfold handle_key, KEY_CTRL_O, KEY_CTRL_N, KEY_CTRL_Q, KEY_BACKSPACE, KEY_ENTER.
  replace (c =? 272) with false by lia. replace (c =? 273) with false by lia. replace (c =? 17) with false by lia.
  replace ((c =? 8) || (c =? 127)) with false by lia. replace ((c =? 10) || (c =? 13)) with false by lia.
  replace ((32 <=? c) && (c <? 127)) with true by lia. rewrite bind_gets, Hl. unfold INPUT_BUF_LEN in *.
  replace (zlen t <? 128 - 1) with true by lia. rewrite bind_gets, E.
  rewrite E, zlen_app, zlen_cons in Hz. destruct r as [|y r]; [rewrite zlen_nil in Hz; lia|].
  mlift (wr_mid t 0 (y :: r) c). replace (t ++ c :: y :: r) with ((t ++ [c]) ++ y :: r) by by rewrite <- app_assoc.
  replace (zlen t + 1) with (zlen (t ++ [c])) by zs. mlift (wr_mid (t ++ [c]) y r 0).
  rewrite bind_modify. eexists. split; [done|]. split; [done|]. split; [|done]. split; [|done].
  split; [cbn [input_buf set_stale set_input]; rewrite !zlen_app, !zlen_cons, ?zlen_nil in *; unfold INPUT_BUF_LEN; lia|]. exists r. split; [done|].
  apply nozero_app. split; [done|]. constructor; [lia|constructor].
Qed.

Lemma rounds_type cs s t ks :
  ready s -> typed s t -> pending (os s) = cs ++ ks -> Forall printable cs -> zlen t + zlen cs <= 127 ->
  exists s', rounds (length cs) s = Some (Val tt, s') /\ pending (os s') = ks /\ typed s' (t ++ cs) /\ core s' = core s.
Proof.
  revert s t. induction cs as [|c cs IH]; intros s t Hs Ht Hp Hc Hl.
  - exists s. by rewrite app_nil_r.
  - apply Forall_cons in Hc as [Hc Hcs]. rewrite zlen_cons in Hl. pose proof (zlen_nonneg cs).
    destruct (round_key s t c (cs ++ ks) Hs Ht Hp) as (s1 & E1 & Hp1 & Ht1 & Hc1).
    destruct (handle_char s1 t c Ht1 Hc) as (s2 & E2 & Ho2 & Ht2 & Hc2); [lia|].
    destruct (IH s2 (t ++ [c])) as (s3 & E3 & Hp3 & Ht3 & Hc3); [|done|by rewrite Ho2|done|zs|].
    { apply (core_ready s); [by rewrite Hc2|done]. }
    exists s3. cbn [length rounds]. rewrite (bind_val round _ _ s2 tt) by by rewrite E1.
    split; [done|]. split; [done|]. split; [by rewrite <- app_assoc in Ht3 | by rewrite Hc3, Hc2].
Qed.

(** *** The ENTER key *)

Lemma equals_any_text b t l ss :
  cstr b t -> Forall2 cstr l ss -> equals_any b l = Some (bool_decide (t ∈ ss)).
Proof.
  intros Hb Hl. induction Hl as [|a s l ss Ha Hl IH]; simpl; [done|].
  unfold equals_text. destruct (strcmp_cstr _ _ _ _ Hb Ha) as (r & -> & Hr). simpl. destruct (Z.eqb_spec r 0) as [E|E].
  - rewrite bool_decide_true; [done|]. apply elem_of_cons. left. tauto.
  - rewrite IH. f_equal. apply bool_decide_ext. rewrite elem_of_cons. tauto.
Qed.

Lemma find_equals_none t r i d :
  nozero t -> Forall (fun c => c <> c_equals) t -> find_equals (t ++ 0 :: r) i d = Some None.
Proof.
  intros Hn. revert i d. induction Hn as [|c t Hc Hn IH]; intros i d He; [done|].
  apply Forall_cons in He as [He Ht]. cbn [app find_equals]. rewrite (eqb_neq c 0 Hc), (eqb_neq c _ He).
  cbn [andb]. repeat case_match; by apply IH.
Qed.

(** The history after a new line *)
Definition put_at (h : list HistoryEntry) (i : Z) (t r : bytes) : Prop :=
  exists e, rd h i = Some e /\ cstr (query e) t /\ cstr (result e) r.

Lemma put_entry_ok s i buf t res r :
  Forall entry_sized (history s) -> 0 <= i < zlen (history s) -> cstr buf t -> zlen t < 128 -> cstr res r -> zlen r < 32 ->
  exists e, put_entry i buf res s = Some (Val tt, set_history (<[Z.to_nat i := e]> (history s)) (history_count s) s) /\
    entry_sized e /\ cstr (query e) t /\ cstr (result e) r.
Proof.
  intros Hs Hi Hb Ht Hr Hl. unfold put_entry. rewrite !bind_gets. destruct (rd_is_Some _ _ Hi) as [d Hd]. mlift Hd.
  rewrite rd_lookup in Hd by lia. destruct (Forall_lookup_1 _ _ _ _ Hs Hd) as [Hq Hre].
  destruct (strncpy_text (query d) 128 buf t Hq Hb Ht) as (q & Eq & Hq1 & Hq2). mlift Eq.
  destruct (strncpy_text (result d) 32 res r Hre Hr Hl) as (u & Eu & Hu1 & Hu2). mlift Eu.
  exists (Entry q u). mlift (wr_total (history s) i (Entry q u) Hi). done.
Qed.

Lemma texts_insert (P : HistoryEntry -> Prop) h i e n : Forall P (take n h) -> P e -> Forall P (take n (<[i := e]> h)).
Proof. intros H He. destruct (decide (i < n)%nat); [rewrite take_insert_lt by done; by apply Forall_insert | by rewrite take_insert_ge by lia]. Qed.

(** Entries with their sizes and texts throughout *)
Definition full (h : list HistoryEntry) : Prop := Forall entry_sized h /\ Forall entry_texts h.

Lemma full_insert h i e : full h -> entry_sized e -> entry_texts e -> full (<[i := e]> h).
Proof. intros [H1 H2] He1 He2. split; by apply Forall_insert. Qed.

Lemma move_entry_ok s i :
  full (history s) -> 0 <= i < zlen (history s) - 1 ->
  exists h, move_entry i s = Some (Val tt, set_history h (history_count s) s) /\ full h /\ zlen h = zlen (history s).
Proof.
  intros [Hs Ht] Hi. unfold move_entry. rewrite !bind_gets.
  destruct (rd_is_Some (history s) i) as [d Hd]; [lia|]. mlift Hd. destruct (rd_is_Some (history s) (i + 1)) as [e He]; [lia|]. mlift He.
  rewrite rd_lookup in Hd, He by lia. destruct (Forall_lookup_1 _ _ _ _ Hs Hd) as [Hq Hre].
  destruct (Forall_lookup_1 _ _ _ _ Hs He) as [Hq' Hre']. destruct (Forall_lookup_1 _ _ _ _ Ht He) as [[t Ht1] [r Hr1]].
  destruct (strncpy_text (query d) 128 _ t Hq Ht1 (text_bound _ _ _ Hq' Ht1)) as (q & Eq & Hq1 & Hq2). mlift Eq.
  destruct (strncpy_text (result d) 32 _ r Hre Hr1 (text_bound _ _ _ Hre' Hr1)) as (u & Eu & Hu1 & Hu2). mlift Eu.
  mlift (wr_total (history s) i (Entry q u) ltac:(lia)). eexists. split; [done|]. split; [|zs].
  apply full_insert; [done|done|]. split; by eexists.
Qed.

Lemma move_entries_ok k i s :
  full (history s) -> 0 <= i -> i + Z.of_nat k < zlen (history s) ->
  exists h, for_loop k i 1 move_entry s = Some (Val tt, set_history h (history_count s) s) /\ full h /\ zlen h = zlen (history s).
Proof.
  revert i s. induction k as [|k IH]; intros i s Hs Hi Hk.
  - exists (history s). split; [by destruct s | done].
  - destruct (move_entry_ok s i Hs) as (h & E & Hh & Hz); [lia|]. cbn [for_loop]. mrun E.
    destruct (IH (i + 1) (set_history h (history_count s) s)) as (h' & E' & Hh' & Hz'); [done|lia|cbn; lia|].
    exists h'. rewrite E'. split; [done|]. split; [done|]. cbn in Hz'. lia.
Qed.

Lemma texts_extend (P : HistoryEntry -> Prop) h n e :
  Forall P (take n h) -> P e -> (n < length h)%nat -> Forall P (take (S n) (<[n := e]> h)).
Proof.
  intros H He Hn. rewrite (take_S_r _ _ e) by by apply list_lookup_insert_eq. rewrite take_insert_ge by lia.
  apply Forall_app. split; [done|]. by constructor.
Qed.

(** What the history leaves alone *)
Definition rest_of s := (input_buf s, input_len s, last_answer s, memory_reg s, vars s, var_count s, os s).

Lemma remember_ok s buf t res r :
  ready s -> cstr buf t -> zlen t < 128 -> cstr res r -> zlen r < 32 ->
  exists s', remember buf res s = Some (Val tt, s') /\ ready s' /\ rest_of s' = rest_of s /\
    cstr (latest_query s') t /\ cstr (latest_result s') r /\ put_at (history s') (history_count s' - 1) t r.
Proof.
  intros [Hz Hc He Ht [Hq _] [Hr _] Hm] Hb Hlt Hres Hlr. unfold remember, MAX_HISTORY in *. rewrite !bind_gets.
  destruct (strcpy_text _ 128 buf t Hq Hb Hlt) as (q & Eq & Hq1 & Hq2). mlift Eq.
  destruct (strcpy_text _ 32 res r Hr Hres Hlr) as (u & Eu & Hu1 & Hu2). mlift Eu. rewrite bind_modify.
  set (s1 := set_latest q u s). rewrite bind_gets. change (history_count s1) with (history_count s).
  assert (is_text q /\ is_text u) as [Hqt Hut] by (split; by eexists).
  destruct (Z.ltb_spec (history_count s) 10) as [Hlt10|Hge].
  - destruct (put_entry_ok s1 (history_count s) buf t res r) as (e & E & Hes & He1 & He2); try done; [cbn; lia|].
    mrun E. rewrite bind_gets. eexists. split; [done|].
    assert (Z.to_nat (history_count s) < length (history s))%nat by zs.
    split; [|split; [done|split; [done|split; [done|]]]].
    + constructor; unfold MAX_HISTORY; cbn; try done; [zs|lia|by apply Forall_insert|].
      replace (Z.to_nat (history_count s + 1)) with (S (Z.to_nat (history_count s))) by lia.
      apply texts_extend; [done| |done]. split; by eexists.
    + exists e. cbn. replace (history_count s + 1 - 1) with (history_count s) by lia.
      split; [|done]. rewrite rd_lookup by lia. by apply list_lookup_insert_eq.
  - assert (history_count s = 10) as Hc10 by lia. rewrite Hc10 in Ht. rewrite take_ge in Ht by zs.
    destruct (move_entries_ok 9 0 s1) as (h & E & [Hh1 Hh2] & Hhz); [done|lia|cbn; lia|].
    change (Z.to_nat (10 - 1)) with 9%nat. mrun E. cbn in Hhz.
    destruct (put_entry_ok (set_history h (history_count s1) s1) (10 - 1) buf t res r) as (e & E' & Hes & He1 & He2); try done; [cbn; lia|].
    eexists. split; [exact E'|]. split; [|split; [done|split; [done|split; [done|]]]].
    + constructor; unfold MAX_HISTORY; cbn; try done; [zs|by apply Forall_insert|]. rewrite Hc10, take_ge by zs.
      apply Forall_insert; [done|]. split; by eexists.
    + exists e. cbn. rewrite Hc10. split; [|done]. rewrite rd_lookup by lia. apply list_lookup_insert_eq. zs.
Qed.

Definition commands : list bytes := [lit "exit"; lit "quit"; lit "clear"; lit "cls"; lit "mc"; lit "mr"].

Lemma not_command buf t l ss :
  cstr buf t -> t ∉ commands -> Forall2 cstr l ss -> (forall x, x ∈ ss -> x ∈ commands) -> equals_any buf l = Some false.
Proof. intros Hb Ht Hl Hs. rewrite (equals_any_text _ _ _ _ Hb Hl). f_equal. apply bool_decide_eq_false. auto. Qed.

Lemma no_command buf t :
  cstr buf t -> t ∉ commands ->
  equals_any buf [clit "exit"; clit "quit"] = Some false /\ equals_any buf [clit "clear"; clit "cls"] = Some false /\
  equals_any buf [clit "mc"] = Some false /\ equals_any buf [clit "mr"] = Some false.
Proof.
  intros Hb Ht. repeat split;
    [ apply (not_command _ _ _ [lit "exit"; lit "quit"] Hb Ht) | apply (not_command _ _ _ [lit "clear"; lit "cls"] Hb Ht)
    | apply (not_command _ _ _ [lit "mc"] Hb Ht) | apply (not_command _ _ _ [lit "mr"] Hb Ht) ];
    try (intros z Hz; unfold commands; rewrite !elem_of_cons in *; tauto);
    repeat constructor; apply lit_text; by repeat constructor.
Qed.

Lemma end_input_ok s t :
  typed s t -> exists s', end_input s = Some (Val tt, s') /\ os s' = os s /\ typed s' [] /\ core s' = core s.
Proof.
  intros [[Hz _] _]. unfold end_input. rewrite bind_gets. unfold INPUT_BUF_LEN in *. destruct (input_buf s) as [|c b]; [done|].
  mlift (wr_mid [] c b 0). rewrite bind_modify. eexists. split; [done|]. split; [done|]. split; [|done].
  split; [|done]. split; [done|]. apply cstr_nil.
Qed.

Lemma answer_ok s buf x store :
  evaluate (last_answer s) (vars s) (var_count s) buf = Some (fix_of x, 0) -> good x ->
  exists res, holds_text res 32 (fixed_text x) /\
    answer buf store s = (store (fix_of x);; mret res) (set_answer (fix_of x) s).
Proof.
  intros He Hx. destruct (fixed_to_str_text x (zeros 32) Hx) as (res & Er & Hr); [done|]. exists res. split; [done|].
  unfold answer. rewrite !bind_gets. mlift He. cbn [Z.eqb]. rewrite bind_modify. by mlift Er.
Qed.

Lemma enter_shows s t x :
  ready s -> typed s t -> t <> [] -> t ∉ commands -> Forall (fun c => c <> c_equals) t -> good x ->
  evaluate (last_answer s) (vars s) (var_count s) (input_buf s) = Some (fix_of x, 0) ->
  exists s', enter s = Some (Val tt, s') /\ os s' = os s /\ ready s' /\ typed s' [] /\
    last_answer s' = fix_of x /\ vars s' = vars s /\ var_count s' = var_count s /\
    cstr (latest_query s') t /\ cstr (latest_result s') (fixed_text x) /\
    put_at (history s') (history_count s' - 1) t (fixed_text x).
Proof.
  intros Hs Ht Hne Hcmd Heq Hx Hev. pose proof Ht as [[Hz Hb] Hl]. unfold enter. rewrite bind_gets.
  replace (input_len s =? 0) with false by (symmetry; apply Z.eqb_neq; rewrite Hl; destruct t; [done|]; rewrite zlen_cons; pose proof (zlen_nonneg t); lia).
  rewrite bind_gets.
  destruct (no_command _ _ Hb Hcmd) as (H1 & H2 & H3 & H4). mlift H1. mlift H2. mlift H3. mlift H4.
  destruct (answer_ok s (input_buf s) x (fun _ => mret tt) Hev Hx) as (res & [Hr1 Hr2] & Ea).
  assert (calculate (input_buf s) s = Some (Val res, set_answer (fix_of x) s)) as Ec.
  { unfold calculate. assert (find_equals (input_buf s) 0 0 = Some None) as Hf by (destruct Hb as (r & -> & ?); by apply find_equals_none).
    mlift Hf. by rewrite Ea. }
  mrun Ec. pose proof (text_bound _ _ _ Hz Hb). pose proof (fixed_text_length x Hx).
  destruct (remember_ok (set_answer (fix_of x) s) (input_buf s) t res (fixed_text x)) as (s1 & E1 & Hs1 & Hrest & Hq & Hu & Hp);
    [by destruct Hs; constructor|done|done|done|lia|].
  mrun E1. injection Hrest as R1 R2 R3 R4 R5 R6 R7. cbn in R1, R2, R3, R4, R5, R6, R7.
  destruct (end_input_ok s1 t) as (s2 & E2 & Ho2 & Ht2 & Hc2); [by unfold typed; rewrite R1, R2|].
  exists s2. split; [done|]. split; [by rewrite Ho2|]. split; [by apply (core_ready s1)|]. split; [done|].
  injection Hc2 as C1 C2 C3 C4 C5 C6 C7 C8. rewrite C1, C2, C3, C5, C6, C7, C8, R3, R5, R6. done.
Qed.

(** *** A line *)

Lemma rounds_snoc k s s1 : rounds k s = Some (Val tt, s1) -> rounds (S k) s = round s1.
Proof.
  revert s. induction k as [|k IH]; intros s H; cbn [rounds] in *.
  - injection H as <-. unfold mbind, M_bind. by destruct (round s) as [[[[]|] ?]|].
  - apply bind_val_inv in H as ([] & s2 & E & H). mrun E. by rewrite <- (IH s2 H).
Qed.

Definition typable (c : Z) : Prop := printable c /\ c <> c_equals.

Lemma word_typable c : is_word c = true -> typable c.
Proof. unfold is_word, is_alpha, is_digit, typable, printable, c_equals, c_0, c_9. lia. Qed.

Lemma digits_typable ds : forallb is_digit ds = true -> Forall typable ds.
Proof.
  intros H. apply Forall_forall. intros c Hc%list_elem_of_In. rewrite forallb_forall in H.
  apply word_typable. unfold is_word. by rewrite (H c Hc), orb_true_r.
Qed.

Lemma atom_typable a : good_atom a = true -> Forall typable (atom_text a).
Proof.
  destruct a as [ds [fs|]|t]; cbn [good_atom atom_text].
  - rewrite !andb_true_iff. intros [[Hd Hf] _]. apply Forall_app. split; [by apply digits_typable|].
    constructor; [by vm_compute | by apply digits_typable].
  - rewrite andb_true_iff. intros [Hd _]. by apply digits_typable.
  - destruct t as [|c t]; [done|]. rewrite !andb_true_iff. intros [[[_ Hw] _] _]. apply Forall_forall.
    intros z Hz%list_elem_of_In. rewrite forallb_forall in Hw. by apply word_typable, Hw.
Qed.

Lemma blanks_typable n : Forall typable (blanks n).
Proof. apply Forall_replicate. by vm_compute. Qed.

Lemma exp_typable p e : grammatical p e = true -> Forall typable (print_exp e).
Proof.
  revert p. induction e as [sp a bang|sp c|sp e IH sp'|sp e IH|sp e IH|o a IHa sp b IHb];
    intros p [_ Hg]%andb_true_iff; cbn [print_exp];
    repeat first [apply Forall_app; split | apply Forall_cons; split | apply Forall_nil]; try apply blanks_typable; try by vm_compute.
  - by apply atom_typable.
  - destruct bang; [|constructor]. apply Forall_app. split; [apply blanks_typable|]. by repeat constructor.
  - by destruct c; repeat constructor.
  - by apply (IH 0%nat).
  - by apply (IH 3%nat).
  - by apply (IH 3%nat).
  - apply andb_true_iff in Hg as [Hg _]. by eapply IHa.
  - by destruct o.
  - apply andb_true_iff in Hg as [_ Hg]. by eapply IHb.
Qed.

Lemma print_nonempty p e : grammatical p e = true -> print_exp e <> [].
Proof.
  destruct e as [sp a bang|sp c| | | |]; intros [_ Hg]%andb_true_iff; cbn [print_exp]; intros E;
    apply (f_equal length) in E; rewrite ?length_app in E; cbn [length] in E; try lia.
  - destruct a as [ds [fs|]|t]; cbn [good_atom atom_text] in *; rewrite ?length_app in E; cbn [length] in E; [lia|..].
    + destruct ds; [by rewrite andb_false_r in Hg|]. cbn in E. lia.
    + destruct t; [done|]. cbn in E. lia.
  - destruct c; cbn in E; lia.
  - cbn in E. lia.
Qed.

(** C38: A session of the calculator. Given: the program between two lines, and typed
    characters that are the text of an expression of the sublanguage of [calc_exact] (no
    unary minus, no trigonometric function, root or logarithm) with a value in the
    reference evaluation (no negative or borrowing difference, no overflow, no division
    by zero, factorials up to 15), shorter than the input buffer and none of the
    commands of the program; then ENTER. Key after key, with the screen redrawn in
    between, the program takes the line and then: it shows the value with six decimal
    places, keeps it as the last answer and makes line and value the last line of the
    history; the variables are unchanged, and the program is ready for the next line.
    What is shown is itself a number of the language with that value. *)
Theorem calc_shows s e x m rho ks :
  ready s -> typed s [] -> last_answer s = fix_of m -> good m -> holds rho (vars s) (var_count s) ->
  grammatical 0 e = true -> value m rho e = Some x -> zlen (print_exp e) < INPUT_BUF_LEN -> print_exp e ∉ commands ->
  pending (os s) = print_exp e ++ KEY_ENTER :: ks ->
  exists s', rounds (S (length (print_exp e))) s = Some (Val tt, s') /\ pending (os s') = ks /\ ready s' /\ typed s' [] /\
    last_answer s' = fix_of x /\ vars s' = vars s /\ var_count s' = var_count s /\
    cstr (latest_query s') (print_exp e) /\ cstr (latest_result s') (fixed_text x) /\
    put_at (history s') (history_count s' - 1) (print_exp e) (fixed_text x) /\
    atom_value rho (ANum (dec (x / SCALE)) (Some (places (x mod SCALE)))) = Some x.
Proof.
  intros Hs Ht Hm Hgm Hh Hg Hv Hl Hcmd Hp. unfold INPUT_BUF_LEN in Hl.
  pose proof (exp_typable _ _ Hg) as Htyp. apply Forall_and in Htyp as [Hprint Heq].
  destruct (rounds_type (print_exp e) s [] (KEY_ENTER :: ks) Hs Ht Hp Hprint) as (s1 & E1 & Hp1 & Ht1 & Hc1); [rewrite zlen_nil; lia|].
  cbn [app] in Ht1. pose proof (core_ready _ _ Hc1 Hs) as Hs1.
  destruct (round_key s1 (print_exp e) KEY_ENTER ks Hs1 Ht1 Hp1) as (s2 & E2 & Hp2 & Ht2 & Hc2). pose proof (core_ready _ _ Hc2 Hs1) as Hs2.
  assert (core s2 = core s) as Hc by by rewrite Hc2. injection Hc as _ _ C3 _ C5 C6 _ _.
  pose proof Ht2 as [[_ (junk & Eb & _)] _].
  destruct (evaluate_exp m rho (vars s) (var_count s) e x junk Hgm Hh Hg Hv) as [Hx Hev].
  destruct (enter_shows s2 (print_exp e) x Hs2 Ht2 (print_nonempty _ _ Hg) Hcmd Heq Hx) as (s' & E' & Ho & Hr & Ht' & Ha & Hvs & Hvc & Hq & Hu & Hput).
  { by rewrite C3, C5, C6, Eb, Hm. }
  exists s'. rewrite (rounds_snoc _ _ _ E1), E2. split; [done|]. rewrite Ho, Hvs, Hvc, C5, C6.
  do 9 (split; [done|]). by apply fixed_text_again.
Qed.
End Session.

(** ** Typing *)

Module Typing.

(** A keyboard with the keys to come and a screen with what was drawn *)
#[global] Instance list_os : CalcOs (list Z * list draw_op) := {
  calc_key w := match w.1 with [] => (0, w) | k :: ks => (k, (ks, w.2)) end;
  calc_draw w d := (w.1, d :: w.2);
}.

#[global] Instance list_typed : TypedOs (list Z * list draw_op).
Proof.
  refine {| pending := fst |}.
  - intros [l d] k ks E. simpl in E. subst l. by eexists.
  - by intros [l d] x.
Defined.

Definition blank_history : list HistoryEntry := replicate 10 (Entry (zeros 128) (zeros 32)).
Definition blank_vars : list Variable_ := replicate 16 (Var (zeros 32) fixed_zero).

Definition start (keys : list Z) : calculator (list Z * list draw_op) :=
  Calculator blank_history 0 (zeros 128) 0 fixed_zero fixed_zero blank_vars 0 false (zeros 128)
    (lit "0.000000" ++ zeros 24) true
    (keys, [Clear; TextColor COLOR_WHITE; BackgroundColor COLOR_BACKGROUND; Clear]).

Lemma start_boots keys : boot_state (keys, []) blank_history blank_vars (zeros 128) = Some (start keys).
Proof. reflexivity. Qed.

Lemma start_ready keys : ready (start keys).
Proof.
  assert (is_text (zeros 128)) by apply (is_text_zero [] (zeros 127)).
  constructor; cbn [start history history_count latest_query latest_result memory_reg]; try done.
  - apply Forall_replicate. done.
  - split; [done|]. apply (is_text_zero (lit "0.000000") (zeros 23)).
  - by exists 0.
Qed.

Lemma start_typed keys : typed (start keys) [].
Proof. split; [|done]. split; [done|]. apply (cstr_nil (zeros 127)). Qed.

(** [(1 + 2)*3.5] *)
Definition product : exp :=
  Bin OMul (Paren 0 (Bin OAdd (Leaf 0 (ANum (lit "1") None) None) 1 (Leaf 1 (ANum (lit "2") None) None)) 0) 0
    (Leaf 0 (ANum (lit "3") (Some (lit "5"))) None).

Lemma calc_shows_witness :
  exists s', rounds 12 (start (lit "(1 + 2)*3.5" ++ [KEY_ENTER])) = Some (Val tt, s') /\
    cstr (latest_result s') (lit "10.500000").
Proof.
  destruct (calc_shows (start (lit "(1 + 2)*3.5" ++ [KEY_ENTER])) product 10500000 0 [] [])
    as (s' & E & _ & _ & _ & _ & _ & _ & _ & Hr & _).
  - apply start_ready.
  - apply start_typed.
  - reflexivity.
  - split; [discriminate|reflexivity].
  - split; [reflexivity|]. exists [], blank_vars. split; [reflexivity|constructor].
  - reflexivity.
  - reflexivity.
  - reflexivity.
  - apply (bool_decide_unpack _). vm_compute. exact I.
  - reflexivity.
  - exists s'. split; [exact E|exact Hr].
Defined.

(** The text of the last result after some keys *)
Definition shown (keys : list Z) : option bytes :=
  match rounds (length keys) (start keys) with
  | Some (_, s) => n ← strlen_loop (latest_result s); slice (latest_result s) 0 n
  | None => None
  end.

Definition enter_line (t : string) : list Z := lit t ++ [KEY_ENTER].

(** A variable is stored and used; what is not assigned is an error. *)
Lemma variables_kept :
  shown (enter_line "rate = 2.25" ++ enter_line "rate*4") = Some (lit "9.000000") /\
  shown (enter_line "rate*4") = Some (lit "Syntax Error").
Proof. vm_compute. done. Qed.

(** A variable whose name begins with the name of a constant can be stored but not used:
    [end] is read as the constant [e]. *)
Lemma variable_shadowed : shown (enter_line "end = 5" ++ enter_line "end") = Some (lit "2.718281").
Proof. vm_compute. reflexivity. Qed.

End Typing.
