(* ===== verification/Bash.v ===== *)
(** * The shell bash (kernel/bash.c)

    Variables, expansion, the tokenizer, command lists and the built-in commands.
    Everything the shell asks of other components is one [call] of the class
    [BashOs], so that what a command does is the sequence of its calls.  A [char *]
    is the rest of its array from the pointer on; an argument vector is the list of
    its texts.  The store of [initialize_variables] into a static array that is zero
    until then is left out. *)

From S2P Require Import Prelude CMonad CString Accounts ShellPath ShellWords Pci.

Definition BASH_LINE_SIZE : Z := 256.
Definition BASH_TOKEN_COUNT : Z := 32.
Definition BASH_VARIABLE_COUNT : Z := 12.
Definition BASH_VARIABLE_NAME_SIZE : Z := 32.
Definition BASH_VARIABLE_VALUE_SIZE : Z := 128.

Inductive token_type_t := TOKEN_WORD | TOKEN_SEMICOLON | TOKEN_AND | TOKEN_OR | TOKEN_UNSUPPORTED.
#[global] Instance token_type_eq_dec : EqDecision token_type_t.
Proof. solve_decision. Defined.

(** The value is an index of [storage], or NULL. *)
Record bash_token_t := Token { type : token_type_t; value : option Z }.

Record bash_variable_t := BashVariable { name : bytes; var_value : bytes }.

(** ** What the shell calls *)

Inductive call :=
  | Print (text : bytes) | Println (text : bytes) | ClearScreen | PrintHex8 (v : Z) | PrintHex16 (v : Z)
  | Color (c : Z) | Input (prompt : bytes) (size : Z)
  | DrivePresent (drive : Z) | CurrentDrive | SelectDrive (drive : Z)
  | Exists_ (path : bytes) | Create (path : bytes) | Mkdir (path : bytes) | Delete (path : bytes)
  | Copy (a b : bytes) | Move (a b : bytes) | Rename (a b : bytes)
  | WriteText (path text : bytes) | ReadFile (path : bytes) (size : Z) | AppendData (path data : bytes)
  | ListPath (path : bytes) (hidden : bool) | ListDir (hidden : bool) | Chdir (path : bytes) | GetInfo (path : bytes)
  | AuthOverride (enabled : Z) | Exec (path : bytes) | ExecArgs (path : bytes) (arguments : list bytes)
  | Package (argc : Z) (argv : list bytes)
  | Compress (path : bytes) (size : Z) (out : bytes) | Decompress (path : bytes) (size : Z) (out : bytes)
  | Date | Time | Cpuid | Ram | Fetch | Settings | Shutdown | Reboot | SwitchTerminal
  | PciRead16 (bus slot function offset : Z) | PciRead8 (bus slot function offset : Z).

(** The result of a call, and what it stored through its pointers *)
Record reply := Reply { code : Z; text : bytes; size : Z; is_dir : bool }.

Class BashOs (W : Type) := {
  os_call : W -> call -> reply * W;
  fs_dirname : W -> option bytes;
  current_user : W -> bytes;
  computer_name : W -> bytes;
  saved_color : W -> Z;
  uninitialized : W -> bytes; (** the 32 bytes of [ram_text] before they are written *)
}.

Record bash (W : Type) := Bash {
  variables : list bash_variable_t;
  variable_count : Z;
  shell_status : Z;
  shell_exit_requested : bool;
  machine : W;
}.
Arguments Bash {W}.
Arguments variables {W}.
Arguments variable_count {W}.
Arguments shell_status {W}.
Arguments shell_exit_requested {W}.
Arguments machine {W}.

(** ** Variables *)

Definition is_name_start (c : Z) : bool := ((65 <=? c) && (c <=? 90)) || ((97 <=? c) && (c <=? 122)) || (c =? 95).
Definition is_name_char (c : Z) : bool := is_name_start c || is_digit c.

(** [for (i = 1; i < length; i++)] *)
Fixpoint name_chars (k : nat) (i : Z) (name : bytes) : option bool :=
  match k with
  | O => Some true
  | S k' => c ← rd name i; if is_name_char c then name_chars k' (i + 1) name else Some false
  end.

Definition valid_variable_name (name : bytes) (length : Z) : option bool :=
  if (length =? 0) || (BASH_VARIABLE_NAME_SIZE <=? length) then Some false
  else
    c ← rd name 0;
    if negb (is_name_start c) then Some false
    else name_chars (Z.to_nat (length - 1)) 1 name.

(** [str_strlen(variables[i].name) == name_length && str_strncmp(...) == 0] *)
Definition same_name (v : bash_variable_t) (nm : bytes) (name_length : Z) : option bool :=
  n ← strlen_loop (name v);
  if n =? name_length then r ← str_strncmp (name v) nm name_length; Some (r =? 0) else Some false.

(** [for (i = 0; i < variable_count; i++)]: the index of the variable, or -1 *)
Fixpoint find_variable (k : nat) (i : Z) (vars : list bash_variable_t) (nm : bytes) (name_length : Z) : option Z :=
  match k with
  | O => Some (-1)
  | S k' =>
      v ← rd vars i;
      same ← same_name v nm name_length;
      if (same : bool) then Some i else find_variable k' (i + 1) vars nm name_length
  end.

(** [name_length == n && str_strncmp(name, literal, n) == 0] *)
Definition is_literal (nm : bytes) (name_length : Z) (literal : string) : option bool :=
  if name_length =? Z.of_nat (String.length literal) then
    r ← str_strncmp nm (clit literal) name_length; Some (r =? 0)
  else Some false.

Section Environment.
Context (vars : list bash_variable_t) (count status : Z) (user : bytes) (dirname : option bytes).

Definition home_value : option bytes :=
  home ← wr (zeros 128) 0 0;
  r ← try (append_text home 128 0 (clit "/users/")) (fun '(home, n) => append_text home 128 n user);
  Some (match r with None => clit "" | Some (home, _) => home end).

Definition get_variable (nm : bytes) (name_length : Z) : option bytes :=
  is_status ← (if name_length =? 1 then c ← rd nm 0; Some (c =? 63) else Some false);
  if (is_status : bool) then str_itoa status (zeros 16)
  else
    i ← find_variable (Z.to_nat count) 0 vars nm name_length;
    if negb (i =? -1) then v ← rd vars i; Some (var_value v)
    else
      u ← is_literal nm name_length "USER";
      if (u : bool) then Some user
      else
        h ← is_literal nm name_length "HOME";
        if (h : bool) then home_value
        else
          p ← is_literal nm name_length "PWD";
          if (p : bool) then Some (match dirname with Some d => d | None => clit "" end)
          else Some (clit "").

End Environment.

(** [variables] and [variable_count] after [set_variable], and whether it returned 0 *)
Definition set_variable (vars : list bash_variable_t) (count : Z) (nm : bytes) (name_length : Z) (val : bytes)
  : option (bool * list bash_variable_t * Z) :=
  ok ← valid_variable_name nm name_length;
  if negb ok then Some (false, vars, count)
  else
    n ← strlen_loop val;
    if BASH_VARIABLE_VALUE_SIZE <=? n then Some (false, vars, count)
    else
      i ← find_variable (Z.to_nat count) 0 vars nm name_length;
      if negb (i =? -1) then
        v ← rd vars i;
        '(rc, d) ← strncpy_body (var_value v) val BASH_VARIABLE_VALUE_SIZE;
        vars ← wr vars i (BashVariable (name v) d);
        Some (rc =? 0, vars, count)
      else if count =? BASH_VARIABLE_COUNT then Some (false, vars, count)
      else
        v ← rd vars count;
        nm' ← ncopy_loop (name v) 0 nm (Z.to_nat name_length);
        nm' ← wr nm' name_length 0;
        '(rc, d) ← strncpy_body (var_value v) val BASH_VARIABLE_VALUE_SIZE;
        vars ← wr vars count (BashVariable nm' d);
        Some (rc =? 0, vars, if rc =? 0 then count + 1 else count).

(** ** The tokenizer *)

Record scanner := Scanner {
  storage : bytes; write_index : Z; word_start : Z; in_word : bool; tokens : list bash_token_t;
}.

Definition add_token (t : scanner) (ty : token_type_t) (v : option Z) : option (option scanner) :=
  if zlen (tokens t) =? BASH_TOKEN_COUNT then Some None
  else Some (Some (Scanner (storage t) (write_index t) (word_start t) (in_word t) (tokens t ++ [Token ty v]))).

(** The end of a word *)
Definition end_word (t : scanner) (storage_capacity : Z) : option (option scanner) :=
  if in_word t then
    if storage_capacity <=? write_index t then Some None
    else
      s ← wr (storage t) (write_index t) 0;
      add_token (Scanner s (write_index t + 1) (word_start t) false (tokens t)) TOKEN_WORD (Some (word_start t))
  else Some (Some t).

Definition begin_word (t : scanner) (storage_capacity : Z) : option scanner :=
  if in_word t then Some t
  else if (zlen (tokens t) =? BASH_TOKEN_COUNT) || (storage_capacity <=? write_index t) then None
  else Some (Scanner (storage t) (write_index t) (write_index t) true (tokens t)).

Definition put_character (t : scanner) (storage_capacity character : Z) : option (option scanner) :=
  if storage_capacity <=? write_index t + 1 then Some None
  else
    s ← wr (storage t) (write_index t) character;
    s ← wr s (write_index t + 1) 0;
    Some (Some (Scanner s (write_index t + 1) (word_start t) (in_word t) (tokens t))).

Definition c_and : Z := 38.
Definition c_less : Z := 60.
Definition c_greater : Z := 62.
Definition c_lbrace : Z := 123.
Definition c_bar : Z := 124.
Definition c_rbrace : Z := 125.

Definition is_operator (c : Z) : bool := (c =? c_semicolon) || (c =? c_and) || (c =? c_bar) || (c =? c_less) || (c =? c_greater).

(** The operator at [character], followed by [next]: its type and length *)
Definition operator_at (character next : Z) : token_type_t * Z :=
  if character =? c_semicolon then (TOKEN_SEMICOLON, 1)
  else if ((character =? c_and) || (character =? c_bar)) && (next =? character) then
    (if character =? c_and then TOKEN_AND else TOKEN_OR, 2)
  else if ((character =? c_less) || (character =? c_greater)) && (next =? character) then (TOKEN_UNSUPPORTED, 2)
  else (TOKEN_UNSUPPORTED, 1).

(** [while (source[i] != 0 && source[i] != '}') i++;] and how many characters that are *)
Fixpoint to_brace (source : bytes) (n : Z) : option (bytes * Z) :=
  match source with
  | [] => None
  | c :: source' => if (c =? 0) || (c =? c_rbrace) then Some (source, n) else to_brace source' (n + 1)
  end.

Fixpoint to_name_end (source : bytes) (n : Z) : option (bytes * Z) :=
  match source with
  | [] => None
  | c :: source' => if is_name_char c then to_name_end source' (n + 1) else Some (source, n)
  end.

Section Tokenize.
Context (lookup : bytes -> Z -> option bytes) (storage_capacity : Z).

(** Append the value of a variable to [output]. *)
Definition append_value (t : scanner) (val : bytes) : option (option scanner) :=
  try (append_text (storage t) storage_capacity (write_index t) val) (fun '(s, n) =>
    Some (Some (Scanner s n (word_start t) (in_word t) (tokens t)))).

(** [source] begins with the [$]; the result is the rest of the text. *)
Definition append_expansion (source : bytes) (t : scanner) : option (option (bytes * scanner)) :=
  let source := drop 1 source in
  c ← rd source 0;
  if c =? 63 then
    v ← lookup (clit "?") 1;
    try (append_value t v) (fun t => Some (Some (drop 1 source, t)))
  else if c =? c_lbrace then
    let start := drop 1 source in
    '(rest, name_length) ← to_brace start 0;
    c ← rd rest 0;
    if negb (c =? c_rbrace) then Some None
    else
      ok ← valid_variable_name start name_length;
      if negb ok then Some None
      else
        v ← lookup start name_length;
        try (append_value t v) (fun t => Some (Some (drop 1 rest, t)))
  else if negb (is_name_start c) then
    try (append_value t (clit "$")) (fun t => Some (Some (source, t)))
  else
    '(rest, name_length) ← to_name_end (drop 1 source) 1;
    v ← lookup source name_length;
    try (append_value t v) (fun t => Some (Some (rest, t))).

(** Every round reads a character. *)
Fixpoint tokenize_loop (fuel : nat) (source : bytes) (quote : Z) (t : scanner) : option (option (Z * scanner)) :=
  match fuel with
  | O => None
  | S fuel' =>
      character ← rd source 0;
      if character =? 0 then Some (Some (quote, t))
      else if (quote =? 0) && ((character =? c_space) || (character =? c_tab)) then
        try (end_word t storage_capacity) (fun t => tokenize_loop fuel' (drop 1 source) quote t)
      else if (quote =? 0) && is_operator character then
        try (end_word t storage_capacity) (fun t =>
          next ← (if character =? c_semicolon then Some 0 else rd source 1);
          let '(ty, n) := operator_at character next in
          try (add_token t ty None) (fun t => tokenize_loop fuel' (drop (Z.to_nat n) source) quote t))
      else
        match begin_word t storage_capacity with
        | None => Some None
        | Some t =>
            if (quote =? 0) && ((character =? c_squote) || (character =? c_dquote)) then
              tokenize_loop fuel' (drop 1 source) character t
            else if negb (quote =? 0) && (character =? quote) then
              tokenize_loop fuel' (drop 1 source) 0 t
            else if (character =? c_backslash) && negb (quote =? c_squote) then
              character ← rd source 1;
              if character =? 0 then Some None
              else try (put_character t storage_capacity character) (fun t => tokenize_loop fuel' (drop 2 source) quote t)
            else if (character =? c_dollar) && negb (quote =? c_squote) then
              try (append_expansion source t) (fun '(rest, t) => tokenize_loop fuel' rest quote t)
            else
              try (put_character t storage_capacity character) (fun t => tokenize_loop fuel' (drop 1 source) quote t)
        end
  end.

Definition tokenize (source storage : bytes) : option (option (list bash_token_t * bytes)) :=
  storage ← wr storage 0 0;
  try (tokenize_loop (length source) source 0 (Scanner storage 0 0 false [])) (fun '(quote, t) =>
    if negb (quote =? 0) then Some None
    else try (end_word t storage_capacity) (fun t => Some (Some (tokens t, Bash.storage t)))).

End Tokenize.

(** [find_next_operator] on the rest of the text, which begins at [index]: the end of
    the segment, the length and the type of the operator *)
Fixpoint find_next_operator (source : bytes) (index quote : Z) : option (option (Z * Z * token_type_t)) :=
  match source with
  | [] => None
  | character :: source' =>
      if character =? 0 then
        Some (if negb (quote =? 0) then None else Some (index, 0, TOKEN_WORD))
      else if (character =? c_backslash) && negb (quote =? c_squote) then
        match source' with
        | [] => None
        | c :: source'' => if c =? 0 then Some None else find_next_operator source'' (index + 2) quote
        end
      else if negb (quote =? 0) then
        find_next_operator source' (index + 1) (if character =? quote then 0 else quote)
      else if (character =? c_squote) || (character =? c_dquote) then
        find_next_operator source' (index + 1) character
      else if is_operator character then
        next ← (if character =? c_semicolon then Some 0 else rd source' 0);
        let '(ty, n) := operator_at character next in
        Some (Some (index, n, ty))
      else find_next_operator source' (index + 1) quote
  end.

(** ** The shell *)

Section Shell.
Context {W : Type} {bash_os : BashOs W}.

Abbreviation Bp := (M (bash W)).
Implicit Types s : bash W.

Definition set_machine (w : W) s : bash W := Bash (variables s) (variable_count s) (shell_status s) (shell_exit_requested s) w.
Definition set_vars (vs : list bash_variable_t) (n : Z) s : bash W := Bash vs n (shell_status s) (shell_exit_requested s) (machine s).
Definition set_status (st : Z) s : bash W := Bash (variables s) (variable_count s) st (shell_exit_requested s) (machine s).
Definition set_exit (b : bool) s : bash W := Bash (variables s) (variable_count s) (shell_status s) b (machine s).

Definition ask (c : call) : Bp reply := fun s => let '(r, w) := os_call (machine s) c in Some (Val r, set_machine w s).
Definition do_ (c : call) : Bp unit := ask c;; mret tt.
Definition ask_code (c : call) : Bp Z := r ← ask c; mret (code r).
Definition dogeio_print (t : bytes) : Bp unit := do_ (Print t).
Definition dogeio_println (t : bytes) : Bp unit := do_ (Println t).
Definition say (t : string) : Bp unit := dogeio_println (clit t).
Definition user : Bp bytes := gets (fun s => current_user (machine s)).
Definition dirname : Bp (option bytes) := gets (fun s => fs_dirname (machine s)).

(** [get_variable] in the present state *)
Definition variable_value s (nm : bytes) (name_length : Z) : option bytes :=
  get_variable (variables s) (variable_count s) (shell_status s) (current_user (machine s)) (fs_dirname (machine s)) nm name_length.

Definition assign (nm : bytes) (name_length : Z) (val : bytes) : Bp bool :=
  vs ← gets variables;
  n ← gets variable_count;
  '(ok, vs, n) ← lift (set_variable vs n nm name_length val);
  modify (set_vars vs n);;
  mret ok.

(** *** Paths *)

Definition authorize (path : bytes) : Bp bool :=
  u ← user;
  d ← dirname;
  r ← lift (canonicalize_path d (Some path) (zeros 256) 256);
  match r with
  | None => say "bash: invalid or overlong path";; mret false
  | Some canonical_path =>
      a ← lift (system_can_access_path (Some u) (Some canonical_path));
      if a =? 0 then say "bash: permission denied";; mret false else mret true
  end.

(** [if (!authorize_path(path)) return rc;] *)
Definition require_access (path : bytes) (rc : Z) : Bp unit :=
  ok ← authorize path;
  if (ok : bool) then mret tt else exit rc.

Definition build_home_path (path : bytes) (capacity : Z) : Bp (Z * bytes) := fun s =>
  home ← variable_value s (clit "HOME") 4;
  r ← strncpy_body path home capacity;
  Some (Val r, s).

Definition build_history_path (user path : bytes) (capacity : Z) : option (option bytes) :=
  path ← wr path 0 0;
  try (append_text path capacity 0 (clit "/users/")) (fun '(path, n) =>
    try (append_text path capacity n user) (fun '(path, n) =>
      try (append_text path capacity n (clit "/.history")) (fun '(path, _) => Some (Some path)))).

Definition append_history (command : bytes) : Bp Z := fn (
  length ← lift (strlen_loop command);
  if length =? 0 then exit 0
  else
    u ← user;
    r ← lift (build_history_path u (zeros 160) 160);
    match r with
    | None => exit (-1)
    | Some history_path =>
        if BASH_LINE_SIZE + 1 <=? length + 1 then exit (-1)
        else
          there ← ask_code (Exists_ history_path);
          (if there =? 0 then
             rc ← ask_code (Create history_path);
             if negb (rc =? 0) then exit (-1) else mret tt
           else mret tt);;
          line ← lift (l ← ncopy_loop (zeros 257) 0 command (Z.to_nat length); wr l length c_nl);
          data ← lift (slice line 0 (length + 1));
          ask_code (AppendData history_path data)
    end).

(** The bytes that were read, shown with a newline at the end *)
Definition show_contents (bytes_read : Z) (data : bytes) : Bp unit :=
  contents ← lift (c ← blit (zeros (Z.to_nat 8192)) 0 data; wr c bytes_read 0);
  dogeio_print contents;;
  ends ← lift (if bytes_read =? 0 then Some false else c ← rd contents (bytes_read - 1); Some (c =? c_nl));
  if (ends : bool) then mret tt else say "".

Definition print_file (path : bytes) : Bp Z := fn (
  r ← ask (ReadFile path 8191);
  let bytes_read := code r in
  if (bytes_read <? 0) || (8192 <=? bytes_read) then say "bash: unable to read file";; exit 1
  else show_contents bytes_read (text r);; mret 0).

Definition show_history : Bp Z := fn (
  u ← user;
  r ← lift (build_history_path u (zeros 160) 160);
  match r with
  | None => say "bash: unable to build history path";; exit 1
  | Some history_path =>
      r ← ask (ReadFile history_path 8191);
      let bytes_read := code r in
      if bytes_read <=? 0 then say "bash: no history available";; exit (if bytes_read <? 0 then 1 else 0)
      else show_contents bytes_read (text r);; mret 0
  end).

(** *** Arguments *)

Definition arg (argv : list bytes) (i : Z) : Bp bytes := lift (rd argv i).

(** [str_strcmp(t, a) == 0 || str_strcmp(t, b) == 0 ...] *)
Fixpoint is_one_of (t : bytes) (names : list string) : option bool :=
  match names with
  | [] => Some false
  | n :: names' => r ← str_strcmp t (clit n); if r =? 0 then Some true else is_one_of t names'
  end.

(** [for (i = first; i < argc; i++)]: [k] arguments from [i] on *)
Fixpoint join_loop (k : nat) (i first : Z) (argv : list bytes) (output : bytes) (capacity length : Z) : option (option bytes) :=
  match k with
  | O => Some (Some output)
  | S k' =>
      a ← rd argv i;
      try (if negb (i =? first) then append_text output capacity length (clit " ") else Some (Some (output, length)))
        (fun '(output, length) =>
           try (append_text output capacity length a) (fun '(output, length) =>
             join_loop k' (i + 1) first argv output capacity length))
  end.

Definition join_arguments (argv : list bytes) (first : Z) (output : bytes) (capacity : Z) : option (option bytes) :=
  output ← wr output 0 0;
  join_loop (Z.to_nat (zlen argv - first)) first first argv output capacity 0.

(** *** Built-in commands.  Each ends with [return]. *)

Definition cmd_drives : Bp unit :=
  for_loop 2 0 1 (fun drive =>
    dogeio_print (if drive =? 0 then clit "C: primary IDE master" else clit "D: primary IDE slave");;
    p ← ask_code (DrivePresent drive);
    if p =? 0 then say " [not present]"
    else
      c ← ask_code CurrentDrive;
      (if c =? drive then dogeio_print (clit " [current]") else mret tt);;
      say "");;
  exit 0.

Definition cmd_select (argv0 : bytes) : Bp unit :=
  c ← lift (rd argv0 0);
  let drive := if (c =? 67) || (c =? 99) then 0 else 1 in
  rc ← ask_code (SelectDrive drive);
  if negb (rc =? 0) then say "bash: drive is absent or has no supported exFAT volume";; exit 1
  else
    d ← dirname;
    dogeio_println (match d with Some d => d | None => clit "" end);;
    exit 0.

(** The position of the first [=], if there is one *)
Fixpoint find_equals (t : bytes) (i : Z) : option (option Z) :=
  match t with
  | [] => None
  | c :: t' => if c =? 0 then Some None else if c =? 61 then Some (Some i) else find_equals t' (i + 1)
  end.

Definition cmd_assignment (argv0 : bytes) : Bp unit :=
  e ← lift (find_equals argv0 0);
  match e with
  | None => mret tt
  | Some i =>
      ok ← assign argv0 i (drop (Z.to_nat (i + 1)) argv0);
      if (ok : bool) then exit 0 else say "bash: invalid or too many variables";; exit 1
  end.

Definition cmd_dogestore (argv : list bytes) : Bp unit :=
  if zlen argv <? 2 then say "Usage: dogestore <command> [args...]";; exit 1
  else rc ← ask_code (Package (zlen argv + 1) (drop 1 argv)); exit rc.

(** [for (i = 0; argv[1][i] != 0; i++)]; [None] inside is the refused argument *)
Fixpoint exit_digits (t : bytes) (parsed_status : Z) : option (option Z) :=
  match t with
  | [] => None
  | c :: t' =>
      if c =? 0 then Some (Some parsed_status)
      else if negb (is_digit c) || (25 <? parsed_status) then Some None
      else exit_digits t' (parsed_status * 10 + (c - c_0))
  end.

Definition cmd_exit (argv : list bytes) : Bp unit :=
  exit_status ← gets shell_status;
  if 2 <? zlen argv then say "bash: exit: too many arguments";; exit 1
  else
    exit_status ←
      (if zlen argv =? 2 then
         a ← arg argv 1;
         c ← lift (rd a 0);
         if c =? 0 then say "bash: exit: numeric argument required";; exit 2
         else
           r ← lift (exit_digits a 0);
           match r with
           | None => say "bash: exit: numeric argument required";; exit 2
           | Some parsed_status =>
               if 255 <? parsed_status then say "bash: exit: numeric argument required";; exit 2
               else mret parsed_status
           end
       else mret exit_status);
    modify (set_exit true);;
    exit exit_status.

Definition help_lines : list string :=
  ["Mini Bash for WindogeOS";
   "Built-ins: cd pwd ls echo cat touch mkdir rm mv cp clear history ver";
   "           drives C: D: export unset env date time whoami uname calc edit run";
   "           cpuinfo raminfo hexdump pci settings fetch true false exit";
   "           dogestore";
   "Syntax: quotes and escapes, $NAME and ${NAME}, ;, &&, ||";
   "This shell does not implement processes, job control, pipes, or scripts."].

Definition print_help : Bp unit := fold_right (fun l m => say l;; m) (exit 0) help_lines.

Definition cmd_pwd : Bp unit :=
  d ← dirname;
  match d with
  | None => say "bash: unable to get current directory";; exit 1
  | Some d => dogeio_println d;; exit 0
  end.

(** The directory [cd] goes to, and whether it is printed *)
Definition cd_target (argv : list bytes) : Bp (bytes * bool) :=
  home ← (if zlen argv =? 1 then mret true else a ← arg argv 1; lift (is_one_of a ["~"%string]));
  if (home : bool) then
    '(rc, path) ← build_home_path (zeros 256) 256;
    if negb (rc =? 0) then say "bash: invalid home directory";; exit 1 else mret (path, false)
  else
    a ← arg argv 1;
    back ← lift (is_one_of a ["-"%string]);
    if (back : bool) then
      old ← (fun s => v ← variable_value s (clit "OLDPWD") 6; Some (Val v, s));
      '(rc, path) ← lift (strncpy_body (zeros 256) old 256);
      if negb (rc =? 0) then say "bash: cd: OLDPWD not set";; exit 1 else mret (path, true)
    else mret (a, false).

Definition cmd_cd (argv : list bytes) : Bp unit :=
  if 2 <? zlen argv then say "bash: cd: too many arguments";; exit 1
  else
    '(target, print_directory) ← cd_target argv;
    require_access target 1;;
    current_directory ← dirname;
    previous ← lift (match current_directory with
                     | None => Some None
                     | Some d => '(rc, p) ← strncpy_body (zeros 256) d 256; Some (if rc =? 0 then Some p else None)
                     end);
    match previous with
    | None => say "bash: cd: unable to determine current directory";; exit 1
    | Some previous_directory =>
        rc ← ask_code (Chdir target);
        if negb (rc =? 0) then
          dogeio_print (clit "bash: cd: ");;
          dogeio_print target;;
          say ": no such directory";;
          exit 1
        else
          current_directory ← dirname;
          match current_directory with
          | None => say "bash: cd: directory changed, but PWD could not be updated";; exit 1
          | Some d =>
              ok ← assign (clit "OLDPWD") 6 previous_directory;
              ok ← (if (ok : bool) then assign (clit "PWD") 3 d else mret false);
              if negb ok then say "bash: cd: directory changed, but PWD could not be updated";; exit 1
              else
                (if (print_directory : bool) then dogeio_println d else mret tt);;
                exit 0
          end
    end.

Definition ls_options : list string := ["-a"; "-A"; "--all"; "--hidden"; "-la"; "-al"].

Fixpoint ls_arguments (k : nat) (i : Z) (argv : list bytes) (show_hidden : bool) (directory : option bytes)
  : Bp (bool * option bytes) :=
  match k with
  | O => mret (show_hidden, directory)
  | S k' =>
      a ← arg argv i;
      option ← lift (is_one_of a ls_options);
      if (option : bool) then ls_arguments k' (i + 1) argv true directory
      else match directory with
           | None => ls_arguments k' (i + 1) argv show_hidden (Some a)
           | Some _ => say "bash: ls: too many paths";; exit 1
           end
  end.

Definition cmd_ls (argv : list bytes) : Bp unit :=
  '(show_hidden, directory) ← ls_arguments (Z.to_nat (zlen argv - 1)) 1 argv false None;
  match directory with
  | None => rc ← ask_code (ListDir show_hidden); exit (if rc =? 0 then 0 else 1)
  | Some directory =>
      require_access directory 1;;
      rc ← ask_code (ListPath directory show_hidden);
      exit (if rc =? 0 then 0 else 1)
  end.

Definition cmd_echo (argv : list bytes) : Bp unit :=
  quiet ← (if 1 <? zlen argv then a ← arg argv 1; lift (is_one_of a ["-n"%string]) else mret false);
  r ← lift (join_arguments argv (if (quiet : bool) then 2 else 1) (zeros 256) BASH_LINE_SIZE);
  match r with
  | None => say "bash: echo: argument list too long";; exit 1
  | Some output =>
      (if (quiet : bool) then dogeio_print output else dogeio_println output);;
      exit 0
  end.

(** [for (i = 1; i < argc; i++) body(argv[i])] *)
Definition each_argument (argv : list bytes) (body : bytes -> Bp unit) : Bp unit :=
  for_loop (Z.to_nat (zlen argv - 1)) 1 1 (fun i => a ← arg argv i; body a).

Definition cmd_cat (argv : list bytes) : Bp unit :=
  if zlen argv <? 2 then say "bash: cat: missing file operand";; exit 1
  else
    each_argument argv (fun a =>
      require_access a 1;;
      there ← ask_code (Exists_ a);
      rc ← (if there =? 0 then mret 1 else print_file a);
      if negb (rc =? 0) then
        dogeio_print (clit "bash: cat: ");;
        dogeio_print a;;
        say ": unable to read";;
        exit 1
      else mret tt);;
    exit 0.

Definition cmd_touch (argv : list bytes) : Bp unit :=
  if zlen argv <? 2 then say "bash: touch: missing file operand";; exit 1
  else
    each_argument argv (fun a =>
      require_access a 1;;
      there ← ask_code (Exists_ a);
      rc ← (if there =? 0 then ask_code (Create a) else mret 0);
      if negb (rc =? 0) then dogeio_print (clit "bash: touch: cannot create ");; dogeio_println a;; exit 1
      else mret tt);;
    exit 0.

Definition cmd_mkdir (argv : list bytes) : Bp unit :=
  if negb (zlen argv =? 2) then say "bash: mkdir: usage: mkdir <directory>";; exit 1
  else
    a ← arg argv 1;
    require_access a 1;;
    rc ← ask_code (Mkdir a);
    if negb (rc =? 0) then dogeio_print (clit "bash: mkdir: cannot create ");; dogeio_println a;; exit 1
    else exit 0.

(** Without a [return] after its loop *)
Definition cmd_rm (argv : list bytes) : Bp unit :=
  if zlen argv <? 2 then say "bash: rm: missing file operand";; exit 1
  else
    each_argument argv (fun a =>
      require_access a 1;;
      d ← dirname;
      root ← lift (is_drive_root_path d (Some a));
      if (root : bool) then say "[Error] no deleting the entire drive.";; exit 1
      else
        protected ← lift (is_protected_path d (Some a));
        if (protected : bool) then say "[Error] no deleting system or boot files";; exit 1
        else
          rc ← ask_code (Delete a);
          if negb (rc =? 1) then dogeio_print (clit "bash: rm: cannot remove ");; dogeio_println a;; exit 1
          else mret tt).

Definition cmd_mv (argv : list bytes) (argv0 : bytes) : Bp unit :=
  if negb (zlen argv =? 3) then
    dogeio_print (clit "bash: ");;
    dogeio_print argv0;;
    say ": usage: command <source> <destination>";;
    exit 1
  else
    a ← arg argv 1;
    b ← arg argv 2;
    require_access a 1;;
    require_access b 1;;
    d ← dirname;
    protected ← lift (is_protected_path d (Some a));
    if (protected : bool) then say "[Error] no deleting system or boot files";; exit 1
    else
      is_copy ← lift (is_one_of argv0 ["cp"%string]);
      is_move ← lift (is_one_of argv0 ["mv"%string]);
      result ← ask_code (if (is_copy : bool) then Copy a b else if (is_move : bool) then Move a b else Rename a b);
      if negb (result =? (if is_copy || is_move then 0 else 1)) then
        dogeio_print (clit "bash: ");;
        dogeio_print argv0;;
        say ": operation failed";;
        exit 1
      else exit 0.

Definition cmd_sleep : Bp unit :=
  do_ (AuthOverride 1);;
  do_ (Exec (clit "/system/sleep.elf"));;
  do_ (AuthOverride 0);;
  exit 0.

Definition cmd_write (argv : list bytes) : Bp unit :=
  if negb (zlen argv =? 2) then say "bash: write: usage: write <file>";; exit 1
  else
    a ← arg argv 1;
    require_access a 1;;
    r ← ask (Input (clit "text> ") BASH_LINE_SIZE);
    t ← lift (blit (zeros 256) 0 (text r));
    rc ← ask_code (WriteText a t);
    if negb (rc =? 0) then say "bash: unable to write file";; exit 1 else exit 0.

(** A text that another component supplies *)
Definition cmd_show (c : call) : Bp unit := r ← ask c; dogeio_println (text r);; exit 0.

Definition host_name (w : W) : option bytes := c ← rd (computer_name w) 0; Some (if c =? 0 then clit "windoge" else computer_name w).

Definition cmd_raminfo : Bp unit :=
  w ← gets machine;
  ram ← ask_code Ram;
  '(_, ram_text) ← lift (uint64_to_str ram (uninitialized w));
  dogeio_print (clit "RAM: ");;
  dogeio_print ram_text;;
  say " bytes";;
  exit 0.

(** [for (function = 0; function < 8; function++)] *)
Fixpoint pci_functions (k : nat) (bus slot function : Z) : Bp unit :=
  match k with
  | O => mret tt
  | S k' =>
      vendor ← ask_code (PciRead16 bus slot function 0);
      if vendor =? 0xFFFF then
        if function =? 0 then mret tt else pci_functions k' bus slot (function + 1)
      else
        device ← ask_code (PciRead16 bus slot function 2);
        class_code ← ask_code (PciRead8 bus slot function 11);
        do_ (PrintHex8 bus);;
        dogeio_print (clit ":");;
        do_ (PrintHex8 slot);;
        dogeio_print (clit ".");;
        dogeio_print [c_0 + function; 0];;
        dogeio_print (clit "    ");;
        dogeio_print (pci_class_to_name class_code);;
        dogeio_print (clit " [");;
        do_ (PrintHex16 vendor);;
        dogeio_print (clit ":");;
        do_ (PrintHex16 device);;
        say "]";;
        pci_functions k' bus slot (function + 1)
  end.

Definition cmd_pci : Bp unit :=
  say "ADDR      DEVICE [VENDOR:DEVICE ID]";;
  say "------------------------------------";;
  for_loop 256 0 1 (fun bus => for_loop 32 0 1 (fun slot => pci_functions 8 bus slot 0));;
  exit 0.

Definition cmd_clear_history : Bp unit :=
  u ← user;
  r ← lift (build_history_path u (zeros 160) 160);
  match r with
  | None => say "bash: unable to build history path";; exit 1
  | Some history_path =>
      there ← ask_code (Exists_ history_path);
      rc ← (if there =? 0 then mret 1 else ask_code (Delete history_path));
      if negb (rc =? 1) then say "bash: unable to clear history";; exit 1
      else
        rc ← ask_code (Create history_path);
        if negb (rc =? 0) then say "bash: unable to recreate history";; exit 1 else exit 0
  end.

(** [for (i = 0; i < variable_count; i++)] *)
Definition each_variable (body : bash_variable_t -> Bp unit) : Bp unit :=
  n ← gets variable_count;
  for_loop (Z.to_nat n) 0 1 (fun i => vs ← gets variables; v ← lift (rd vs i); body v).

Definition cmd_export (argv : list bytes) : Bp unit :=
  if zlen argv =? 1 then
    each_variable (fun v =>
      dogeio_print (clit "declare -x ");;
      dogeio_print (name v);;
      dogeio_print [61; c_dquote; 0];;
      dogeio_print (var_value v);;
      dogeio_println [c_dquote; 0]);;
    exit 0
  else
    each_argument argv (fun a =>
      e ← lift (find_equals a 0);
      ok ← (match e with None => mret false | Some i => assign a i (drop (Z.to_nat (i + 1)) a) end);
      if (ok : bool) then mret tt else say "bash: export: expected NAME=value";; exit 1);;
    exit 0.

(** [for (j = i + 1; j < variable_count; j++) variables[j - 1] = variables[j];] *)
Fixpoint close_gap (k : nat) (j : Z) (vars : list bash_variable_t) : option (list bash_variable_t) :=
  match k with
  | O => Some vars
  | S k' => v ← rd vars j; vars ← wr vars (j - 1) v; close_gap k' (j + 1) vars
  end.

Fixpoint unset_name (k : nat) (i : Z) (vars : list bash_variable_t) (count : Z) (nm : bytes) : option (list bash_variable_t * Z) :=
  match k with
  | O => Some (vars, count)
  | S k' =>
      v ← rd vars i;
      r ← str_strcmp (name v) nm;
      if r =? 0 then vars ← close_gap (Z.to_nat (count - (i + 1))) (i + 1) vars; Some (vars, count - 1)
      else unset_name k' (i + 1) vars count nm
  end.

Definition cmd_unset (argv : list bytes) : Bp unit :=
  if zlen argv <? 2 then say "bash: unset: missing variable name";; exit 1
  else
    each_argument argv (fun a =>
      vs ← gets variables;
      n ← gets variable_count;
      '(vs, n) ← lift (unset_name (Z.to_nat n) 0 vs n a);
      modify (set_vars vs n));;
    exit 0.

Definition cmd_env : Bp unit :=
  dogeio_print (clit "USER=");;
  u ← user;
  dogeio_println u;;
  '(rc, home) ← build_home_path (zeros 128) 128;
  (if rc =? 0 then dogeio_print (clit "HOME=");; dogeio_println home else mret tt);;
  d ← dirname;
  dogeio_print (clit "PWD=");;
  dogeio_println (match d with Some d => d | None => clit "" end);;
  each_variable (fun v =>
    dogeio_print (name v);;
    dogeio_print (clit "=");;
    dogeio_println (var_value v));;
  exit 0.

Definition cmd_edit (argv : list bytes) : Bp unit :=
  if negb (zlen argv =? 2) then say "bash: edit: usage: edit <file>";; exit 1
  else
    a ← arg argv 1;
    help ← lift (is_one_of a ["--help"%string]);
    if (help : bool) then say "Dogeedit v2.2";; say "edit <file>";; exit 0
    else
      version ← lift (is_one_of a ["--version"%string]);
      if (version : bool) then say "Dogeedit v2.2";; exit 0
      else
        require_access a 1;;
        there ← ask_code (Exists_ a);
        rc ← (if there =? 0 then ask_code (Create a) else mret 0);
        if negb (rc =? 0) then say "bash: edit: unable to create file";; exit 1
        else
          there ← ask_code (Exists_ (clit "/apps/editor.elf"));
          let editor_path := if there =? 0 then clit "/editor.elf" else clit "/apps/editor.elf" in
          there ← ask_code (Exists_ editor_path);
          if there =? 0 then say "bash: edit: editor app is not installed";; exit 127
          else do_ (ExecArgs editor_path [a]);; exit 0.

Definition cmd_run (argv : list bytes) : Bp unit :=
  if negb (zlen argv =? 2) then say "bash: run: usage: run <program>";; exit 1
  else
    a ← arg argv 1;
    require_access a 1;;
    there ← ask_code (Exists_ a);
    if there =? 0 then say "bash: run: file does not exist";; exit 1
    else do_ (Exec a);; exit 0.

(** The name of the archive, or of the file in it *)
Definition unpacked_name (target : bytes) (len : Z) : option bytes :=
  out_name ← str_strcpy (zeros 256) target;
  wr out_name (len - 4) 0.

Definition packed_name (target : bytes) : option bytes :=
  out_name ← str_strcpy (zeros 256) target;
  str_strcat out_name (clit ".lz4").

Definition is_archive (target : bytes) (len : Z) : option bool :=
  if 4 <? len then r ← str_strcmp (drop (Z.to_nat (len - 4)) target) (clit ".lz4"); Some (r =? 0) else Some false.

Definition cmd_pack (argv : list bytes) : Bp unit :=
  help ← (if zlen argv =? 2 then a ← arg argv 1; lift (is_one_of a ["--help"%string]) else mret false);
  if (help : bool) then say "LZ4PACK (Kernel Package Utility)";; say "Usage: pack [file]";; exit 1
  else
    usable ← (if zlen argv =? 2 then a ← arg argv 1; c ← lift (rd a 0); mret (negb (c =? 0)) else mret false);
    if negb usable then say "Usage: pack [file]";; exit 2
    else
      target_filename ← arg argv 1;
      info ← ask (GetInfo target_filename);
      if negb (code info =? 0) then say "Error: Target file does not exist.";; exit (-1)
      else if is_dir info then say "Error: Cannot pack a directory.";; exit (-1)
      else
        len ← lift (strlen_loop target_filename);
        let file_size := size info in
        if 250 <=? len then say "Error: Filename too long.";; exit (-1)
        else
          archive ← lift (is_archive target_filename len);
          if (archive : bool) then
            say "Action: Decompressing archive stream...";;
            out_name ← lift (unpacked_name target_filename len);
            rc ← ask_code (Decompress target_filename file_size out_name);
            exit rc
          else
            say "Action: Compressing raw binary target...";;
            out_name ← lift (packed_name target_filename);
            rc ← ask_code (Compress target_filename file_size out_name);
            exit rc.

(** *** Programs *)

Fixpoint has_separator (t : bytes) : option bool :=
  match t with
  | [] => None
  | c :: t' => if c =? 0 then Some false else if (c =? c_slash) || (c =? c_backslash) then Some true else has_separator t'
  end.

Definition is_letter_of (c lower : Z) : bool := (c =? lower) || (c =? lower - 32).

Definition has_extension (t : bytes) (len : Z) : option bool :=
  if 4 <=? len then
    e0 ← rd t (len - 4);
    e1 ← rd t (len - 3);
    e2 ← rd t (len - 2);
    e3 ← rd t (len - 1);
    Some ((e0 =? c_dot) && is_letter_of e1 101 && is_letter_of e2 108 && is_letter_of e3 102)
  else Some false.

(** The name of the program file; -1 when it does not fit *)
Definition app_name_of (argv0 : bytes) (command_length : Z) : option (option bytes) :=
  ext ← has_extension argv0 command_length;
  '(rc, app_name) ← strncpy_body (zeros 128) argv0 128;
  if negb (rc =? 0) then Some None
  else if (ext : bool) then Some (Some app_name)
  else try (append_text app_name 128 command_length (clit ".elf")) (fun '(app_name, _) => Some (Some app_name)).

Definition not_found (argv0 : bytes) : Bp unit :=
  dogeio_print (clit "bash: ");;
  dogeio_print argv0;;
  say ": command not found";;
  exit 127.

Definition run_path (argv : list bytes) (argv0 : bytes) (command_length : Z) : Bp unit :=
  if 256 <=? command_length then say "bash: path is too long";; exit 126
  else
    require_access argv0 126;;
    there ← ask_code (Exists_ argv0);
    if negb (there =? 0) then do_ (ExecArgs argv0 (drop 1 argv));; exit 0
    else
      dogeio_print (clit "bash: ");;
      dogeio_print argv0;;
      say ": no such file or program";;
      exit 127.

(** [str_strncpy(path, prefix); append_text(path, app_name)] *)
Definition app_path (prefix app_name : bytes) (length : Z) : option (option bytes) :=
  path ← blit (zeros 256) 0 prefix;
  try (append_text path 256 length app_name) (fun '(path, _) => Some (Some path)).

Definition run_app (argv : list bytes) (argv0 : bytes) (command_length : Z) : Bp unit :=
  app_name ← lift (app_name_of argv0 command_length);
  match app_name with
  | None => exit 127
  | Some app_name =>
      sep ← lift (has_separator app_name);
      if (sep : bool) then say "bash: applications are run by name from /apps";; exit 126
      else
        path ← lift (app_path (clit "/apps/") app_name 6);
        match path with
        | None => exit 1
        | Some path =>
            there ← ask_code (Exists_ path);
            path ← (if there =? 0 then
                      p ← lift (app_path (clit "/") app_name 1);
                      match p with None => exit 1 | Some p => mret p end
                    else mret path);
            there ← ask_code (Exists_ path);
            if negb (there =? 0) then do_ (ExecArgs path (drop 1 argv));; exit 0 else mret tt
        end
  end.

Definition run_program (argv : list bytes) (argv0 : bytes) : Bp unit :=
  dots ← lift (is_one_of argv0 ["."%string; ".."%string]);
  (if (dots : bool) then mret tt
   else
     command_length ← lift (strlen_loop argv0);
     explicit_path ← lift (has_separator argv0);
     if (explicit_path : bool) then run_path argv argv0 command_length
     else if 124 <=? command_length then not_found argv0
     else run_app argv argv0 command_length);;
  not_found argv0.

(** ** A command *)

Section Command.
(** The nested shell of the command [bash] *)
Variable nested : Bp unit.

(** [if (str_strcmp(argv[0], ...) == 0 || ...) { ... }] *)
Definition on (argv0 : bytes) (names : list string) (m : Bp unit) : Bp unit :=
  b ← lift (is_one_of argv0 names);
  if (b : bool) then m else mret tt.

Definition file_commands (argv : list bytes) (argv0 : bytes) : Bp unit :=
  on argv0 ["cd"%string] (cmd_cd argv);;
  on argv0 ["ls"; "dir"]%string (cmd_ls argv);;
  on argv0 ["echo"; "print"]%string (cmd_echo argv);;
  on argv0 ["cat"; "read"]%string (cmd_cat argv);;
  on argv0 ["touch"; "create"]%string (cmd_touch argv);;
  on argv0 ["mkdir"%string] (cmd_mkdir argv);;
  on argv0 ["rm"; "del"; "delete"]%string (cmd_rm argv);;
  on argv0 ["mv"; "rename"; "cp"]%string (cmd_mv argv argv0);;
  on argv0 ["sleep"%string] cmd_sleep;;
  on argv0 ["write"; "sed"]%string (cmd_write argv).

Definition info_commands (argv0 : bytes) : Bp unit :=
  on argv0 ["date"%string] (cmd_show Date);;
  on argv0 ["time"%string] (cmd_show Time);;
  on argv0 ["whoami"%string] (u ← user; dogeio_println u;; exit 0);;
  on argv0 ["ver"%string] (say "WindogeOS Mini Bash";; exit 0);;
  on argv0 ["hostname"%string] (w ← gets machine; h ← lift (host_name w); dogeio_println h;; exit 0);;
  on argv0 ["uname"%string] (say "WindogeOS";; exit 0);;
  on argv0 ["cpuinfo"%string] (cmd_show Cpuid);;
  on argv0 ["raminfo"%string] cmd_raminfo;;
  on argv0 ["pci"%string] cmd_pci;;
  on argv0 ["fetch"%string] (do_ Fetch;; exit 0);;
  on argv0 ["settings"%string] (do_ Settings;; exit 0).

Definition shell_commands (argv : list bytes) (argv0 : bytes) : Bp unit :=
  on argv0 ["bash"%string] (nested;; modify (set_exit false);; exit 0);;
  on argv0 ["shutdown"; "poweroff"]%string (do_ Shutdown;; exit 0);;
  on argv0 ["reboot"; "restart"]%string (do_ Reboot;; exit 0);;
  on argv0 ["tab"%string] (do_ SwitchTerminal;; exit 0);;
  on argv0 ["history"%string] (rc ← show_history; exit rc);;
  on argv0 ["clear-history"%string] cmd_clear_history;;
  on argv0 ["export"%string] (cmd_export argv);;
  on argv0 ["unset"%string] (cmd_unset argv);;
  on argv0 ["env"%string] cmd_env;;
  on argv0 ["edit"%string] (cmd_edit argv);;
  on argv0 ["run"%string] (cmd_run argv);;
  on argv0 ["pack"%string] (cmd_pack argv).

Definition execute_command (argv : list bytes) : Bp Z := fn (
  (if zlen argv =? 0 then exit 0 else mret tt);;
  argv0 ← arg argv 0;
  on argv0 ["drives"%string] cmd_drives;;
  on argv0 ["C:"; "c:"; "D:"; "d:"]%string (cmd_select argv0);;
  cmd_assignment argv0;;
  on argv0 [":"; "true"]%string (exit 0);;
  on argv0 ["false"%string] (exit 1);;
  on argv0 ["dogestore"%string] (cmd_dogestore argv);;
  on argv0 ["exit"%string] (cmd_exit argv);;
  on argv0 ["help"%string] print_help;;
  on argv0 ["clear"%string] (do_ ClearScreen;; exit 0);;
  on argv0 ["pwd"; "whereami"]%string cmd_pwd;;
  file_commands argv argv0;;
  info_commands argv0;;
  shell_commands argv argv0;;
  run_program argv argv0;;
  mret 127).

(** ** A command line *)

(** [segment[i] = source[segment_start + i]], and whether it holds a command *)
Definition has_command (segment : bytes) : bool := negb (forallb (fun c => (c =? c_space) || (c =? c_tab)) segment).

(** The texts of the tokens; a NULL value has none. *)
Fixpoint token_texts (ts : list bash_token_t) (storage : bytes) : option (list bytes) :=
  match ts with
  | [] => Some []
  | t :: ts' => i ← value t; rest ← token_texts ts' storage; Some (drop (Z.to_nat i) storage :: rest)
  end.

(** Tokenize and execute a segment; [inr] leaves the loop with that status. *)
Definition run_segment (segment : bytes) (status : Z) : Bp (Z + Z) :=
  r ← (fun s => r ← tokenize (variable_value s) BASH_LINE_SIZE segment (zeros 256); Some (Val r, s));
  match r with
  | None => say "bash: syntax error or command line too long";; mret (inr 2)
  | Some (tokens, storage) =>
      arguments ← lift (token_texts tokens storage);
      if negb (zlen arguments =? 0) then
        status ← execute_command arguments;
        modify (set_status status);;
        mret (inl status)
      else mret (inl status)
  end.

(** [while (source[next] == ' ' || source[next] == '\t') next++;] *)
Fixpoint skip_blank (source : bytes) (next : Z) : option Z :=
  match source with
  | [] => None
  | c :: source' => if (c =? c_space) || (c =? c_tab) then skip_blank source' (next + 1) else Some next
  end.

Definition unsupported : string := "bash: pipelines and redirections are not supported".
Definition unexpected : string := "bash: syntax error near unexpected token".

(** The status with which the loop is left, after a message *)
Definition fail_line (t : string) : Bp Z := say t;; mret 2.

(** The end of a round: whether the next segment is executed, or the message that ends
    the loop *)
Definition after_operator (ty : token_type_t) (status : Z) : option (bool * bool) :=
  match ty with
  | TOKEN_SEMICOLON => Some (true, false)
  | TOKEN_AND => Some (status =? 0, true)
  | TOKEN_OR => Some (negb (status =? 0), true)
  | _ => None
  end.

(** One round of the loop per segment: the result is the last [status]. *)
Fixpoint line_loop (fuel : nat) (source : bytes) (source_length source_index status : Z) (should_execute requires_command : bool)
  : Bp Z :=
  stop ← gets shell_exit_requested;
  if (source_length <=? source_index) || stop then mret status
  else
  match fuel with
  | O => lift None
  | S fuel' =>
      op ← lift (find_next_operator (drop (Z.to_nat source_index) source) source_index 0);
      match op with
      | None => fail_line "bash: syntax error: unmatched quote or escape"
      | Some (segment_end, operator_length, operator_type) =>
          segment ← lift (slice source source_index (segment_end - source_index));
          let segment_has_command := has_command segment in
          r ← (if should_execute && segment_has_command then run_segment (segment ++ [0]) status
               else if negb (bool_decide (operator_type = TOKEN_SEMICOLON)) && negb (bool_decide (operator_type = TOKEN_WORD)) && should_execute
               then rc ← fail_line unsupported; mret (inr rc)
               else mret (inl status));
          match r with
          | inr status => mret status
          | inl status =>
              if requires_command && negb segment_has_command then fail_line unexpected
              else
                let requires_command := if segment_has_command then false else requires_command in
                if operator_length =? 0 then mret status
                else
                  let source_index := segment_end + operator_length in
                  match after_operator operator_type status with
                  | None => fail_line unsupported
                  | Some (should_execute, needs) =>
                      next ← lift (skip_blank (drop (Z.to_nat source_index) source) source_index);
                      if next =? source_length then
                        if bool_decide (operator_type = TOKEN_SEMICOLON) then mret status else fail_line unexpected
                      else line_loop fuel' source source_length next status should_execute (needs || requires_command)
                  end
          end
      end
  end.

Definition system_bash_ex (command : option bytes) : Bp Z := fn (
  c ← (match command with None => mret 0 | Some c => lift (rd c 0) end);
  match command with
  | Some command =>
      if c =? 0 then modify (set_exit false);; gets shell_status
      else
        modify (set_exit false);;
        '(rc, source) ← lift (strncpy_body (zeros 256) command BASH_LINE_SIZE);
        if negb (rc =? 0) then
          say "bash: syntax error or command line too long";;
          modify (set_status 2);;
          gets shell_status
        else
          rc ← append_history source;
          (if negb (rc =? 0) then say "bash: unable to save command history" else mret tt);;
          source_length ← lift (strlen_loop source);
          status ← line_loop (Z.to_nat source_length) source source_length 0 0 true false;
          modify (set_status status);;
          mret status
  | None => modify (set_exit false);; gets shell_status
  end).

End Command.

(** ** The dialogue *)

Definition print_prompt : Bp unit :=
  w ← gets machine;
  let display_directory := match fs_dirname w with Some d => d | None => clit "/" end in
  do_ (Color 0xFF55FF55);;
  dogeio_print (current_user w);;
  dogeio_print (clit "@");;
  h ← lift (host_name w);
  dogeio_print h;;
  do_ (Color (saved_color w));;
  dogeio_print (clit ":");;
  '(rc, home) ← build_home_path (zeros 128) 128;
  rest ← (if rc =? 0 then
            lift (home_length ← strlen_loop home;
                  r ← str_strncmp display_directory home home_length;
                  if r =? 0 then
                    c ← rd display_directory home_length;
                    Some (if (c =? 0) || (c =? c_slash) then Some (drop (Z.to_nat home_length) display_directory) else None)
                  else Some None)
          else mret None);
  (match rest with Some _ => dogeio_print (clit "~") | None => mret tt end);;
  do_ (Color 0xFF55AAFF);;
  dogeio_print (match rest with Some r => r | None => display_directory end);;
  do_ (Color (saved_color w));;
  dogeio_print (clit "$ ").

(** A shell that may nest [depth] shells; each runs at most [rounds] rounds. *)
Fixpoint system_bash (depth : nat) (rounds : positive) : Bp unit :=
  match depth with
  | O => lift None
  | S depth' =>
      modify (set_exit false);;
      while_true rounds (fun _ =>
        stop ← gets shell_exit_requested;
        if (stop : bool) then mret (inr tt)
        else
          print_prompt;;
          r ← ask (Input (clit "") BASH_LINE_SIZE);
          input ← lift (blit (zeros 256) 0 (text r));
          c ← lift (rd input 0);
          (if c =? 0 then mret tt else system_bash_ex (system_bash depth' rounds) (Some input);; mret tt);;
          mret (inl tt)) tt
  end.

End Shell.
