(* ===== verification/BashWords.v ===== *)
(** * The words and the lists of bash

    [lex] is the reference for the tokenizer of bash.c: it reads a text with quotes,
    escapes and expansions and knows nothing of arrays.  [bash_arguments_exact]: a
    command without operators outside quotes runs with exactly the words of [lex],
    laid out one after the other in [storage], and is refused exactly when [lex] fails
    or the words do not fit into the arrays.  [run_list] is the meaning of commands
    joined by [;], [&&] and [||]; [bash_list_exact]: it is what a line does. *)

From S2P Require Import Prelude CMonad CString Disk Exfat Vfs VfsProofs Accounts AccountProofs ShellPath ShellPathProofs ShellAccess ShellWords Bash.

(** ** The reference *)

Fixpoint span (f : Z -> bool) (l : bytes) : bytes * bytes :=
  match l with
  | [] => ([], [])
  | c :: l' => if f c then let r := span f l' in (c :: r.1, r.2) else ([], l)
  end.

Definition is_blank_char (c : Z) : bool := (c =? c_space) || (c =? c_tab).
Definition is_quote_char (c : Z) : bool := (c =? c_squote) || (c =? c_dquote).

Definition not_rbrace (c : Z) : bool := negb (c =? c_rbrace).

(** The names [${...}] accepts *)
Definition good_name (n : bytes) : bool :=
  match n with
  | [] => false
  | c :: n' => is_name_start c && forallb is_name_char n' && (zlen n <? BASH_VARIABLE_NAME_SIZE)
  end.

Section Lex.
Variable sigma : bytes -> bytes.

(** After a [$]: the text that replaces it, and what follows *)
Definition expand (t : bytes) : option (bytes * bytes) :=
  match t with
  | [] => Some ([c_dollar], [])
  | c :: r =>
      if c =? 63 then Some (sigma [63], r)
      else if c =? c_lbrace then
        match (span not_rbrace r).2 with
        | [] => None
        | _ :: r' =>
            let n := (span not_rbrace r).1 in
            if good_name n then Some (sigma n, r') else None
        end
      else if is_name_start c then Some (sigma (c :: (span is_name_char r).1), (span is_name_char r).2)
      else Some ([c_dollar], t)
  end.

(** [q] is the open quote and [cur] the word that is being read. *)
Fixpoint lex (fuel : nat) (t : bytes) (q : Z) (cur : option bytes) : option (list bytes) :=
  match fuel with
  | O => None
  | S fuel' =>
      match t with
      | [] => if q =? 0 then Some (match cur with None => [] | Some w => [w] end) else None
      | c :: t' =>
          let w := default [] cur in
          if (q =? 0) && is_blank_char c then
            ws ← lex fuel' t' q None; Some (match cur with None => ws | Some w => w :: ws end)
          else if (q =? 0) && is_quote_char c then lex fuel' t' c (Some w)
          else if negb (q =? 0) && (c =? q) then lex fuel' t' 0 (Some w)
          else if (c =? c_backslash) && negb (q =? c_squote) then
            match t' with [] => None | d :: t'' => lex fuel' t'' q (Some (w ++ [d])) end
          else if (c =? c_dollar) && negb (q =? c_squote) then
            '(v, rest) ← expand t'; lex fuel' rest q (Some (w ++ v))
          else lex fuel' t' q (Some (w ++ [c]))
      end
  end.

Definition words (t : bytes) : option (list bytes) := lex (S (length t)) t 0 None.

End Lex.

(** No operator outside quotes, no open quote and no escape at the end *)
Fixpoint quiet (t : bytes) (q : Z) : bool :=
  match t with
  | [] => q =? 0
  | c :: t' =>
      if (c =? c_backslash) && negb (q =? c_squote) then
        match t' with [] => false | _ :: t'' => quiet t'' q end
      else if negb (q =? 0) then quiet t' (if c =? q then 0 else q)
      else if is_quote_char c then quiet t' c
      else negb (is_operator c) && quiet t' 0
  end.

(** ** The layout of the words *)

Definition packed (ws : list bytes) : bytes := concat ((fun w => w ++ [0]) <$> ws).

Fixpoint word_tokens (ws : list bytes) (k : Z) : list bash_token_t :=
  match ws with
  | [] => []
  | w :: ws' => Token TOKEN_WORD (Some k) :: word_tokens ws' (k + zlen w + 1)
  end.

(** The array that holds the words *)
Definition laid_out (capacity : nat) (t : bytes) : bytes := t ++ zeros (capacity - length t).

Definition fits_arrays (capacity : nat) (ws : list bytes) : bool :=
  (zlen (packed ws) <=? Z.of_nat capacity) && (zlen ws <=? BASH_TOKEN_COUNT).

Lemma packed_snoc ws w : packed (ws ++ [w]) = packed ws ++ w ++ [0].
Proof. unfold packed. rewrite fmap_app, concat_app. cbn. by rewrite app_nil_r. Qed.

Lemma packed_app a b : packed (a ++ b) = packed a ++ packed b.
Proof. unfold packed. by rewrite fmap_app, concat_app. Qed.

Lemma word_tokens_app a b k : word_tokens (a ++ b) k = word_tokens a k ++ word_tokens b (k + zlen (packed a)).
Proof.
  revert k. induction a as [|w a IH]; intros k; cbn; [by rewrite zlen_nil, Z.add_0_r|].
  rewrite IH. do 3 f_equal. change (concat _) with (packed a). rewrite !zlen_app. change (zlen [0]) with 1. lia.
Qed.

Lemma word_tokens_length ws k : zlen (word_tokens ws k) = zlen ws.
Proof. revert k. induction ws as [|w ws IH]; intros k; [done|]. cbn. rewrite !zlen_cons, IH. done. Qed.

(** Writing at the end of the text of an array *)
Lemma laid_out_blit capacity t u :
  (length t + length u <= capacity)%nat -> blit (laid_out capacity t) (zlen t) u = Some (laid_out capacity (t ++ u)).
Proof.
  intros H. unfold laid_out, zeros.
  replace (capacity - length t)%nat with (length u + (capacity - length (t ++ u)))%nat by (rewrite length_app; lia).
  rewrite replicate_add, blit_mid; [by rewrite <- app_assoc | zs].
Qed.

Lemma laid_out_wr capacity t c :
  (length t < capacity)%nat -> wr (laid_out capacity t) (zlen t) c = Some (laid_out capacity (t ++ [c])).
Proof. intros. rewrite wr_blit. apply laid_out_blit. simpl. lia. Qed.

(** The zero after the text is already there. *)
Lemma laid_out_zero capacity t :
  (length t < capacity)%nat -> wr (laid_out capacity t) (zlen t) 0 = Some (laid_out capacity t).
Proof.
  intros H. unfold laid_out. replace (capacity - length t)%nat with (S (capacity - length t - 1)) by lia.
  change (zeros (S ?n)) with (0 :: zeros n). apply wr_mid.
Qed.

Lemma laid_out_end capacity t : (length t < capacity)%nat -> laid_out capacity (t ++ [0]) = laid_out capacity t.
Proof. intros H. pose proof (laid_out_wr capacity t 0 H) as E. rewrite laid_out_zero in E by done. by injection E. Qed.

(** ** Scanning *)

Lemma span_app f l : (span f l).1 ++ (span f l).2 = l.
Proof. induction l as [|c l IH]; cbn; [done|]. destruct (f c); cbn; [by rewrite IH | done]. Qed.

Lemma span_all f l : forallb f (span f l).1 = true.
Proof. induction l as [|c l IH]; cbn; [done|]. destruct (f c) eqn:E; cbn; [by rewrite E | done]. Qed.

Lemma span_next f l : match (span f l).2 with [] => True | c :: _ => f c = false end.
Proof. induction l as [|c l IH]; cbn; [done|]. destruct (f c) eqn:E; cbn; [done | done]. Qed.

Lemma span_length f l : (length (span f l).2 <= length l)%nat.
Proof. rewrite <- (span_app f l) at 2. rewrite length_app. lia. Qed.

Lemma to_name_end_ok t j k :
  nozero t -> to_name_end (t ++ 0 :: j) k = Some ((span is_name_char t).2 ++ 0 :: j, k + zlen (span is_name_char t).1).
Proof.
  revert k. induction t as [|c t IH]; intros k Hz; cbn.
  { do 2 f_equal. rewrite zlen_nil. lia. }
  apply Forall_cons in Hz as [_ Hz]. destruct (is_name_char c); cbn [fst snd].
  - rewrite IH by done. do 2 f_equal. rewrite zlen_cons. lia.
  - do 2 f_equal. rewrite zlen_nil. lia.
Qed.

Lemma to_brace_ok t j k :
  nozero t -> to_brace (t ++ 0 :: j) k = Some ((span not_rbrace t).2 ++ 0 :: j, k + zlen (span not_rbrace t).1).
Proof.
  intros Hz. revert k. induction Hz as [|c t Hc Hz IH]; intros k; cbn.
  { do 2 f_equal. rewrite zlen_nil. lia. }
  rewrite (eqb_neq c 0 Hc). replace (c =? c_rbrace) with (negb (not_rbrace c)) by (unfold not_rbrace; apply negb_involutive).
  destruct (not_rbrace c); cbn [negb fst snd orb]; [|do 2 f_equal; rewrite zlen_nil; lia].
  rewrite IH. do 2 f_equal. rewrite zlen_cons. lia.
Qed.

Lemma name_chars_ok n pre rest :
  name_chars (length n) (zlen pre) (pre ++ n ++ rest) = Some (forallb is_name_char n).
Proof.
  revert pre. induction n as [|c n IH]; intros pre; [done|]. cbn [length name_chars app forallb]. rewrite rd_mid. cbn [mbind option_bind].
  destruct (is_name_char c); [|done]. cbn [andb]. replace (zlen pre + 1) with (zlen (pre ++ [c])) by zs.
  rewrite <- (IH (pre ++ [c])). by rewrite <- app_assoc.
Qed.

Lemma valid_name_ok n rest : valid_variable_name (n ++ rest) (zlen n) = Some (good_name n).
Proof.
  unfold valid_variable_name, good_name. destruct n as [|c n]; [done|]. pose proof (zlen_nonneg n).
  rewrite zlen_cons in *. replace (1 + zlen n =? 0) with false by lia. cbn [orb].
  destruct (Z.leb_spec BASH_VARIABLE_NAME_SIZE (1 + zlen n)).
  { replace (1 + zlen n <? BASH_VARIABLE_NAME_SIZE) with false by lia. by rewrite andb_false_r. }
  replace (1 + zlen n <? BASH_VARIABLE_NAME_SIZE) with true by lia. rewrite andb_true_r.
  cbn [app]. change (rd (c :: n ++ rest) 0) with (Some c). cbn [mbind option_bind].
  destruct (is_name_start c); [|done]. cbn [negb andb].
  replace (Z.to_nat (1 + zlen n - 1)) with (length n) by zs. apply (name_chars_ok n [c] rest).
Qed.

(** *** Names do not disturb the scanner *)

Lemma name_char_plain c : is_name_char c = true -> (c =? c_backslash) = false /\ is_quote_char c = false /\ is_operator c = false.
Proof.
  unfold is_name_char, is_name_start, is_quote_char, is_operator, is_digit, c_backslash, c_squote, c_dquote, c_semicolon, c_and, c_bar, c_less, c_greater, c_0, c_9. lia.
Qed.

Definition plain (c : Z) : Prop := (c =? c_backslash) = false /\ is_quote_char c = false /\ is_operator c = false.

Lemma quiet_skip n r q : q = 0 \/ is_quote_char q = true -> Forall plain n -> quiet (n ++ r) q = quiet r q.
Proof.
  intros Hq Hn. induction Hn as [|c n (Hb & Hc & Ho) Hn IH]; [done|]. cbn [app quiet]. rewrite Hb, Hc, Ho. cbn [andb negb].
  destruct (Z.eqb_spec q 0) as [->|]; [done|]. cbn [negb].
  destruct (Z.eqb_spec c q) as [->|]; [|done]. destruct Hq; congruence.
Qed.

Lemma good_name_plain n : good_name n = true -> Forall plain n.
Proof.
  unfold good_name. destruct n as [|c n]; [done|]. rewrite !andb_true_iff. intros [[Hc Hn] _].
  assert (is_name_char c = true) as Hc' by (unfold is_name_char; by rewrite Hc). constructor; [by apply name_char_plain|].
  apply Forall_forall. intros d Hd%list_elem_of_In. rewrite forallb_forall in Hn. by apply name_char_plain, Hn.
Qed.

(** ** The tokenizer *)

Section Tokenizer.
Context (lookup : bytes -> Z -> option bytes) (sigma : bytes -> bytes) (K : nat).
Hypothesis lookup_ok : forall n rest,
  n = [63] \/ (n <> [] /\ forallb is_name_char n = true) ->
  exists v, lookup (n ++ rest) (zlen n) = Some v /\ cstr v (sigma n).

Abbreviation capacity := (Z.of_nat K).

Definition so_far (ws : list bytes) (cur : option bytes) : bytes := packed ws ++ default [] cur.

(** The scanner has read the words [ws] and the beginning [cur] of another. *)
Definition scanned (sc : scanner) (ws : list bytes) (cur : option bytes) : Prop :=
  storage sc = laid_out K (so_far ws cur) /\ write_index sc = zlen (so_far ws cur) /\ tokens sc = word_tokens ws 0 /\
  fits_arrays K ws = true /\
  match cur with
  | None => in_word sc = false
  | Some w => in_word sc = true /\ word_start sc = zlen (packed ws) /\ zlen (packed ws) + zlen w + 1 <= capacity /\ zlen ws < BASH_TOKEN_COUNT
  end.

Lemma fits_spec ws : fits_arrays K ws = true <-> zlen (packed ws) <= capacity /\ zlen ws <= BASH_TOKEN_COUNT.
Proof. unfold fits_arrays. by rewrite andb_true_iff, !Z.leb_le. Qed.

Lemma so_far_length ws w : zlen (so_far ws (Some w)) = zlen (packed ws) + zlen w.
Proof. unfold so_far. by rewrite zlen_app. Qed.

Lemma so_far_nat ws w : length (so_far ws (Some w)) = (length (packed ws) + length w)%nat.
Proof. unfold so_far. apply length_app. Qed.

Lemma end_word_ok sc ws w :
  scanned sc ws (Some w) -> exists sc', end_word sc capacity = Some (Some sc') /\ scanned sc' (ws ++ [w]) None.
Proof.
  intros (Hs & Hw & Ht & Hf & Hi & Hst & Hr & Hn). unfold end_word. rewrite Hi, Hw, Hs, so_far_length.
  replace (capacity <=? zlen (packed ws) + zlen w) with false by lia. rewrite <- so_far_length, laid_out_wr by (rewrite ?length_app, so_far_nat; zs).
  cbn [mbind option_bind]. unfold add_token. cbn [tokens storage write_index word_start in_word]. rewrite Ht, word_tokens_length.
  replace (zlen ws =? BASH_TOKEN_COUNT) with false by lia. eexists. split; [done|].
  assert (so_far ws (Some w) ++ [0] = so_far (ws ++ [w]) None) as E
    by (unfold so_far; cbn [default]; rewrite packed_snoc, app_nil_r, <- !app_assoc; done).
  split_and!; cbn [tokens storage write_index word_start in_word]; [by rewrite E | rewrite <- E; zs | | | done].
  - rewrite word_tokens_app. cbn [word_tokens]. by rewrite Hst, Z.add_0_l.
  - apply fits_spec. rewrite packed_snoc. split; [zs|]. zs.
Qed.

Lemma begin_word_ok sc ws :
  scanned sc ws None ->
  match begin_word sc capacity with
  | Some sc' => scanned sc' ws (Some [])
  | None => capacity <= zlen (packed ws) \/ BASH_TOKEN_COUNT <= zlen ws
  end.
Proof.
  intros (Hs & Hw & Ht & Hf & Hi). unfold begin_word. rewrite Hi, Hw, Ht, word_tokens_length.
  assert (so_far ws None = packed ws) as E by (unfold so_far; apply app_nil_r). rewrite E in *. apply fits_spec in Hf as Hf'.
  destruct ((zlen ws =? BASH_TOKEN_COUNT) || (capacity <=? zlen (packed ws))) eqn:Hb.
  - apply orb_true_iff in Hb as [Hb|Hb]; [right; lia | left; lia].
  - apply orb_false_iff in Hb as [H1 H2]. assert (so_far ws (Some []) = packed ws) as E' by (unfold so_far; apply app_nil_r).
    split_and!; cbn [tokens storage write_index word_start in_word]; rewrite ?E'; try done; [rewrite zlen_nil; lia | lia].
Qed.

Lemma append_value_ok sc ws w v u :
  scanned sc ws (Some w) -> cstr v u ->
  if zlen (packed ws) + zlen w + zlen u + 1 <=? capacity
  then exists sc', append_value capacity sc v = Some (Some sc') /\ scanned sc' ws (Some (w ++ u))
  else append_value capacity sc v = Some None.
Proof.
  intros (Hs & Hw & Ht & Hf & Hi & Hst & Hr & Hn) Hv. unfold append_value, append_text. rewrite (strlen_cstr _ _ Hv).
  cbn [mbind option_bind try]. rewrite Hs, Hw, so_far_length. pose proof (zlen_nonneg u).
  replace (capacity <? zlen (packed ws) + zlen w) with false by lia. cbn [orb].
  destruct (Z.leb_spec (zlen (packed ws) + zlen w + zlen u + 1) capacity) as [Hfit|Hfit].
  - replace (capacity - (zlen (packed ws) + zlen w) <=? zlen u) with false by lia.
    assert (take (Z.to_nat (zlen u)) v = u) as Hu by (destruct Hv as (r & -> & _); replace (Z.to_nat (zlen u)) with (length u) by zs; apply take_app_length).
    rewrite <- so_far_length, ncopy_blit by (destruct Hv as (r & -> & _); unfold laid_out, zeros, so_far; zs).
    rewrite Hu, laid_out_blit by (rewrite ?length_app, so_far_nat; zs). cbn [mbind option_bind].
    replace (zlen (so_far ws (Some w)) + zlen u) with (zlen (so_far ws (Some w) ++ u)) by apply zlen_app.
    rewrite laid_out_zero by (rewrite ?length_app, so_far_nat; zs). cbn [mbind option_bind]. eexists. split; [done|].
    assert (so_far ws (Some w) ++ u = so_far ws (Some (w ++ u))) as E by (unfold so_far; cbn; by rewrite app_assoc).
    rewrite E. split_and!; cbn [tokens storage write_index word_start in_word]; try done. zs.
  - by replace (capacity - (zlen (packed ws) + zlen w) <=? zlen u) with true by lia.
Qed.

Lemma put_ok sc ws w c :
  scanned sc ws (Some w) ->
  if zlen (packed ws) + zlen w + 2 <=? capacity
  then exists sc', put_character sc capacity c = Some (Some sc') /\ scanned sc' ws (Some (w ++ [c]))
  else put_character sc capacity c = Some None.
Proof.
  intros (Hs & Hw & Ht & Hf & Hi & Hst & Hr & Hn). unfold put_character. rewrite Hs, Hw, so_far_length.
  destruct (Z.leb_spec (zlen (packed ws) + zlen w + 2) capacity) as [Hfit|Hfit].
  - replace (capacity <=? zlen (packed ws) + zlen w + 1) with false by lia. rewrite <- so_far_length, laid_out_wr by (rewrite ?length_app, so_far_nat; zs).
    cbn [mbind option_bind]. replace (zlen (so_far ws (Some w)) + 1) with (zlen (so_far ws (Some w) ++ [c])) by zs.
    rewrite laid_out_zero by (rewrite ?length_app, so_far_nat; zs). cbn [mbind option_bind]. eexists. split; [done|].
    assert (so_far ws (Some w) ++ [c] = so_far ws (Some (w ++ [c]))) as E by (unfold so_far; cbn; by rewrite app_assoc).
    rewrite E. split_and!; cbn [tokens storage write_index word_start in_word]; try done. zs.
  - by replace (capacity <=? zlen (packed ws) + zlen w + 1) with true by lia.
Qed.

(** *** Expansion *)

(** [${name}]: [r] follows the brace. *)
Lemma brace_value r j sc :
  nozero r ->
  match expand sigma (c_lbrace :: r) with
  | None => append_expansion lookup capacity (c_dollar :: c_lbrace :: r ++ 0 :: j) sc = Some None
  | Some (u, rest) => exists v, cstr v u /\
      append_expansion lookup capacity (c_dollar :: c_lbrace :: r ++ 0 :: j) sc =
      try (append_value capacity sc v) (fun sc => Some (Some (rest ++ 0 :: j, sc)))
  end.
Proof.
  intros Hz. unfold append_expansion. cbn [drop]. change (rd (c_lbrace :: r ++ 0 :: j) 0) with (Some c_lbrace).
  cbn [mbind option_bind expand]. change (c_lbrace =? 63) with false. change (c_lbrace =? c_lbrace) with true. cbv iota.
  change (drop 0 (r ++ 0 :: j)) with (r ++ 0 :: j).
  rewrite to_brace_ok by done. cbn [mbind option_bind]. rewrite Z.add_0_l.
  pose proof (span_app not_rbrace r) as Hsp. pose proof (span_next not_rbrace r) as Hnx.
  destruct (span not_rbrace r) as [n [|b rest]]; cbn [fst snd] in *; [done|].
  change (rd ((b :: rest) ++ 0 :: j) 0) with (Some b). cbn [mbind option_bind].
  unfold not_rbrace in Hnx. apply negb_false_iff in Hnx. rewrite Hnx. cbn [negb].
  rewrite <- Hsp, <- app_assoc, valid_name_ok. cbn [mbind option_bind].
  destruct (good_name n) eqn:Hgn; cbn [negb]; [|done].
  destruct (lookup_ok n ((b :: rest) ++ 0 :: j)) as (v & Ev & Hv); [|exists v; split; [done|]; by rewrite Ev].
  right. unfold good_name in Hgn. destruct n as [|x n]; [done|]. split; [done|]. cbn [forallb].
  rewrite !andb_true_iff in Hgn. destruct Hgn as [[Hx Hn] _]. unfold is_name_char at 1. by rewrite Hx.
Qed.

Lemma expansion_value t j sc :
  nozero t ->
  match expand sigma t with
  | None => append_expansion lookup capacity (c_dollar :: t ++ 0 :: j) sc = Some None
  | Some (u, rest) => exists v, cstr v u /\
      append_expansion lookup capacity (c_dollar :: t ++ 0 :: j) sc =
      try (append_value capacity sc v) (fun sc => Some (Some (rest ++ 0 :: j, sc)))
  end.
Proof.
  intros Hz. assert (cstr (clit "$") [c_dollar]) as Hd by (apply cstr_clit; by repeat constructor).
  destruct t as [|c r]; [by exists (clit "$")|]. apply Forall_cons in Hz as [Hc Hz].
  destruct (Z.eqb_spec c c_lbrace) as [->|Hl]; [by apply brace_value|].
  unfold append_expansion. cbn [app drop expand]. change (rd (c :: r ++ 0 :: j) 0) with (Some c). cbn [mbind option_bind].
  destruct (Z.eqb_spec c 63) as [->|H63].
  { destruct (lookup_ok [63] [0] ltac:(by left)) as (v & Ev & Hv). exists v. split; [done|].
    change (lookup (clit "?") 1) with (lookup ([63] ++ [0]) (zlen [63])). by rewrite Ev. }
  rewrite (eqb_neq c c_lbrace Hl). destruct (is_name_start c) eqn:Hns; cbn [negb]; [|by exists (clit "$")].
  change (drop 0 (r ++ 0 :: j)) with (r ++ 0 :: j). rewrite to_name_end_ok by done. cbn [mbind option_bind].
  pose proof (span_app is_name_char r) as Hsp. pose proof (span_all is_name_char r) as Hall.
  destruct (span is_name_char r) as [n rest]. cbn [fst snd] in *.
  destruct (lookup_ok (c :: n) (rest ++ 0 :: j)) as (v & Ev & Hv).
  { right. split; [done|]. cbn [forallb]. unfold is_name_char at 1. by rewrite Hns, Hall. }
  exists v. split; [done|]. cbn [app] in Ev. rewrite app_assoc, Hsp, zlen_cons in Ev. by rewrite Ev.
Qed.

(** *** The loop *)

Lemma lex_grows fuel t q w ws : lex sigma fuel t q (Some w) = Some ws -> exists u rest, ws = (w ++ u) :: rest.
Proof.
  revert t q w ws. induction fuel as [|fuel IH]; intros t q w ws; [done|]. cbn [lex]. destruct t as [|c t].
  { destruct (q =? 0); [|done]. intros [= <-]. exists [], []. by rewrite app_nil_r. }
  cbn [default]. assert (forall t q v, lex sigma fuel t q (Some (w ++ v)) = Some ws -> exists u rest, ws = (w ++ u) :: rest) as Hv.
  { intros t' q' v (u & rest & ->)%IH. exists (v ++ u), rest. by rewrite app_assoc. }
  repeat case_match; try done; try (by apply IH); try (by apply Hv).
  - intros (ws' & _ & [= <-])%bind_Some. exists [], ws'. by rewrite app_nil_r.
  - intros ((u & rest) & _ & H')%bind_Some. by eapply Hv.
Qed.

(** A word that does not fit where it began *)
Lemma overflow fuel t q w ws ws' :
  lex sigma fuel t q (Some w) = Some ws' -> capacity < zlen (packed ws) + zlen w + 1 \/ BASH_TOKEN_COUNT <= zlen ws ->
  fits_arrays K (ws ++ ws') = false.
Proof.
  intros (u & rest & ->)%lex_grows H. apply not_true_iff_false. rewrite fits_spec, packed_app.
  change (packed ((w ++ u) :: rest)) with (((w ++ u) ++ [0]) ++ packed rest). intros [H1 H2].
  rewrite !zlen_app, zlen_cons in *. change (zlen [0]) with 1 in H1.
  pose proof (zlen_nonneg u). pose proof (zlen_nonneg (packed rest)). pose proof (zlen_nonneg rest). lia.
Qed.

Lemma lex_begin fuel c t q :
  (q =? 0) && is_blank_char c = false -> lex sigma fuel (c :: t) q None = lex sigma fuel (c :: t) q (Some []).
Proof. intros H. destruct fuel as [|fuel]; [done|]. cbn [lex]. by rewrite H. Qed.

(** The end of [tokenize] *)
Definition finish (r : option (option (Z * scanner))) : option (option (list bash_token_t * bytes)) :=
  try r (fun '(quote, t) =>
    if negb (quote =? 0) then Some None
    else try (end_word t capacity) (fun t => Some (Some (tokens t, storage t)))).

(** What the tokenizer returns when [ws] is followed by the words of the reference *)
Definition result (ws : list bytes) (r : option (list bytes)) : option (option (list bash_token_t * bytes)) :=
  match r with
  | None => Some None
  | Some ws' =>
      if fits_arrays K (ws ++ ws') then Some (Some (word_tokens (ws ++ ws') 0, laid_out K (packed (ws ++ ws')))) else Some None
  end.

Lemma finish_try {A} (x : option (option A)) k : finish (try x k) = try x (fun a => finish (k a)).
Proof. by destruct x as [[a|]|]. Qed.

Lemma result_overflow fuel t q w ws :
  capacity < zlen (packed ws) + zlen w + 1 \/ BASH_TOKEN_COUNT <= zlen ws ->
  result ws (lex sigma fuel t q (Some w)) = Some None.
Proof.
  intros H. destruct (lex sigma fuel t q (Some w)) as [ws'|] eqn:E; [|done]. cbn [result]. by rewrite (overflow _ _ _ _ _ _ E H).
Qed.

Lemma result_nil ws : fits_arrays K ws = true -> result ws (Some []) = Some (Some (word_tokens ws 0, laid_out K (packed ws))).
Proof. intros H. unfold result. by rewrite app_nil_r, H. Qed.

Definition is_quote_state (q : Z) : Prop := q = 0 \/ is_quote_char q = true.

(** The loop agrees with the reference on texts shorter than [n]. *)
Definition agrees (fuel fuel' n : nat) : Prop := forall t j q sc ws cur,
  (length t < n)%nat -> nozero t -> is_quote_state q -> quiet t q = true -> scanned sc ws cur ->
  finish (tokenize_loop lookup capacity fuel (t ++ 0 :: j) q sc) = result ws (lex sigma fuel' t q cur).

Lemma loop_end fuel fuel' j q sc ws cur :
  scanned sc ws cur -> finish (tokenize_loop lookup capacity (S fuel) (0 :: j) q sc) = result ws (lex sigma (S fuel') [] q cur).
Proof.
  intros Hsc. cbn [tokenize_loop lex]. change (rd (0 :: j) 0) with (Some 0). cbn [mbind option_bind]. change (0 =? 0) with true. cbv iota.
  unfold finish. cbn [try mbind option_bind]. destruct (q =? 0); [|done]. cbn [negb]. destruct cur as [w|].
  - destruct (end_word_ok _ _ _ Hsc) as (sc' & E & Hs & Hw & Ht & Hf & _). rewrite E. cbn [try mbind option_bind].
    unfold result. rewrite Hf, Hs, Ht. unfold so_far. cbn [default]. by rewrite app_nil_r.
  - destruct Hsc as (Hs & Hw & Ht & Hf & Hi). rewrite result_nil by done. unfold end_word. rewrite Hi. cbn [try mbind option_bind].
    rewrite Hs, Ht. unfold so_far. cbn [default]. by rewrite app_nil_r.
Qed.

Lemma loop_blank fuel fuel' t j sc ws cur :
  agrees fuel fuel' (S (length t)) -> nozero t -> quiet t 0 = true -> scanned sc ws cur ->
  finish (try (end_word sc capacity) (fun sc => tokenize_loop lookup capacity fuel (t ++ 0 :: j) 0 sc)) =
  result ws (ws' ← lex sigma fuel' t 0 None; Some (match cur with None => ws' | Some w => w :: ws' end)).
Proof.
  intros IH Hz Hq Hsc. rewrite finish_try. destruct cur as [w|].
  - destruct (end_word_ok _ _ _ Hsc) as (sc' & E & Hs'). rewrite E. cbn [try mbind option_bind].
    rewrite (IH t j 0 sc' _ _ ltac:(lia) Hz ltac:(by left) Hq Hs'). destruct (lex _ _ _ _ _); [|done]. cbn [mbind option_bind result].
    by rewrite <- app_assoc.
  - assert (end_word sc capacity = Some (Some sc)) as -> by (unfold end_word; by destruct Hsc as (_ & _ & _ & _ & ->)).
    cbn [try mbind option_bind]. rewrite (IH t j 0 sc _ _ ltac:(lia) Hz ltac:(by left) Hq Hsc). by destruct (lex _ _ _ _ _).
Qed.

Lemma loop_put fuel fuel' c t j q sc ws w :
  agrees fuel fuel' (S (length t)) -> nozero t -> is_quote_state q -> quiet t q = true -> scanned sc ws (Some w) ->
  finish (try (put_character sc capacity c) (fun sc => tokenize_loop lookup capacity fuel (t ++ 0 :: j) q sc)) =
  result ws (lex sigma fuel' t q (Some (w ++ [c]))).
Proof.
  intros IH Hz Hs Hq Hsc. rewrite finish_try. pose proof (put_ok sc ws w c Hsc) as Hp.
  destruct (Z.leb_spec (zlen (packed ws) + zlen w + 2) capacity).
  - destruct Hp as (sc' & E & Hs'). rewrite E. cbn [try mbind option_bind]. apply IH; try done. lia.
  - rewrite Hp. symmetry. apply result_overflow. left. rewrite zlen_app. change (zlen [c]) with 1. lia.
Qed.

(** What an expansion leaves is as quiet as what it was given. *)
Lemma expand_rest t q u rest :
  is_quote_state q -> nozero t -> quiet t q = true -> expand sigma t = Some (u, rest) ->
  quiet rest q = true /\ nozero rest /\ (length rest <= length t)%nat.
Proof.
  intros Hs Hz Hq. unfold expand. destruct t as [|c r]; [by intros [= <- <-]|]. apply Forall_cons in Hz as [Hc Hz].
  assert (forall nm l, Forall plain nm -> nm ++ l = c :: r -> quiet l q = true /\ nozero l /\ (length l <= S (length r))%nat) as Hskip.
  { intros nm l Hn E. rewrite <- E in Hq. rewrite quiet_skip in Hq by done. split; [done|].
    assert (nozero (nm ++ l)) as Hz' by (rewrite E; by constructor). apply nozero_app in Hz' as [_ ?]. split; [done|].
    apply (f_equal length) in E. rewrite length_app in E. cbn in E. lia. }
  destruct (Z.eqb_spec c 63) as [->|H63]; [intros [= <- <-]; apply (Hskip [63]); [by repeat constructor | done]|].
  destruct (Z.eqb_spec c c_lbrace) as [->|Hlb].
  - pose proof (span_app not_rbrace r) as Hsp. pose proof (span_next not_rbrace r) as Hnx.
    destruct (span not_rbrace r) as [n [|b l]]; cbn [fst snd] in *; [done|]. destruct (good_name n) eqn:Hg; [|done]. intros [= <- <-].
    unfold not_rbrace in Hnx. apply negb_false_iff, Z.eqb_eq in Hnx as ->.
    apply (Hskip (c_lbrace :: n ++ [c_rbrace])); [|cbn [app]; rewrite <- Hsp, <- app_assoc; done].
    constructor; [done|]. apply Forall_app. split; [by apply good_name_plain | by repeat constructor].
  - destruct (is_name_start c) eqn:Hns; [|intros [= <- <-]; by split_and!; [|constructor|]].
    pose proof (span_app is_name_char r) as Hsp. pose proof (span_all is_name_char r) as Hall.
    destruct (span is_name_char r) as [n l]; cbn [fst snd] in *. intros [= <- <-].
    apply (Hskip (c :: n)); [|cbn [app]; by rewrite Hsp]. constructor; [apply name_char_plain; unfold is_name_char; by rewrite Hns|].
    apply Forall_forall. intros d Hd%list_elem_of_In. rewrite forallb_forall in Hall. by apply name_char_plain, Hall.
Qed.

Lemma loop_expand fuel fuel' t j q sc ws w :
  agrees fuel fuel' (S (length t)) -> nozero t -> is_quote_state q -> quiet t q = true -> scanned sc ws (Some w) ->
  finish (try (append_expansion lookup capacity (c_dollar :: t ++ 0 :: j) sc)
    (fun '(rest, sc) => tokenize_loop lookup capacity fuel rest q sc)) =
  result ws ('(v, rest) ← expand sigma t; lex sigma fuel' rest q (Some (w ++ v))).
Proof.
  intros IH Hz Hs Hq Hsc. rewrite finish_try. pose proof (expansion_value t j sc Hz) as He.
  destruct (expand sigma t) as [[u rest]|] eqn:Ex; [|by rewrite He]. cbn [mbind option_bind].
  destruct (expand_rest _ _ _ _ Hs Hz Hq Ex) as (Hqr & Hzr & Hlr).
  destruct He as (v & Hv & ->). pose proof (append_value_ok sc ws w v u Hsc Hv) as Ha.
  destruct (Z.leb_spec (zlen (packed ws) + zlen w + zlen u + 1) capacity).
  - destruct Ha as (sc' & -> & Hs'). cbn [try mbind option_bind]. apply IH; try done. lia.
  - rewrite Ha. symmetry. apply result_overflow. left. rewrite zlen_app. lia.
Qed.

Lemma quiet_step c t q :
  (c =? c_backslash) && negb (q =? c_squote) = false -> (q =? 0) && is_quote_char c = false ->
  negb (q =? 0) && (c =? q) = false -> quiet (c :: t) q = true -> quiet t q = true.
Proof.
  intros H1 H2 H3. cbn [quiet]. rewrite H1. destruct (Z.eqb_spec q 0) as [->|]; cbn [negb andb] in *.
  - rewrite H2. intros [_ ?]%andb_true_iff. done.
  - by rewrite H3.
Qed.

Lemma quiet_no_operator c t q : quiet (c :: t) q = true -> (q =? 0) && is_operator c = false.
Proof.
  intros Hq. apply not_true_iff_false. intros [->%Z.eqb_eq Ho]%andb_true_iff. cbn [quiet] in Hq. rewrite Ho in Hq.
  assert ((c =? c_backslash) = false /\ is_quote_char c = false) as [E1 E2].
  { unfold is_operator, is_quote_char, c_semicolon, c_and, c_bar, c_less, c_greater, c_backslash, c_squote, c_dquote in *. lia. }
  by rewrite E1, E2 in Hq.
Qed.

(** A character of a word that is not yet begun *)
Lemma loop_begin fuel c src q sc :
  c <> 0 -> (q =? 0) && is_blank_char c = false -> (q =? 0) && is_operator c = false -> in_word sc = false ->
  tokenize_loop lookup capacity (S fuel) (c :: src) q sc =
  match begin_word sc capacity with
  | None => Some None
  | Some sc' => tokenize_loop lookup capacity (S fuel) (c :: src) q sc'
  end.
Proof.
  intros Hc Hb Ho Hi. unfold is_blank_char in Hb. cbn [tokenize_loop]. change (rd (c :: src) 0) with (Some c). cbn [mbind option_bind].
  rewrite (eqb_neq c 0 Hc), Hb, Ho. destruct (begin_word sc capacity) as [sc'|] eqn:E; [|done].
  assert (begin_word sc' capacity = Some sc') as ->; [|done].
  unfold begin_word in E. rewrite Hi in E. destruct (_ || _) in E; [done|]. by injection E as <-.
Qed.

(** A character that belongs to a word *)
Lemma loop_word fuel fuel' c t j q sc ws w :
  agrees fuel fuel' (S (length t)) -> c <> 0 -> nozero t -> is_quote_state q -> quiet (c :: t) q = true ->
  (q =? 0) && is_blank_char c = false -> scanned sc ws (Some w) ->
  finish (tokenize_loop lookup capacity (S fuel) (c :: t ++ 0 :: j) q sc) = result ws (lex sigma (S fuel') (c :: t) q (Some w)).
Proof.
  intros IH Hc Hz Hs Hq Hb Hsc. cbn [tokenize_loop lex default]. change (rd (c :: t ++ 0 :: j) 0) with (Some c). cbn [mbind option_bind].
  rewrite (eqb_neq c 0 Hc). unfold is_blank_char in Hb at 1. rewrite Hb. fold (is_blank_char c) in Hb. rewrite Hb.
  rewrite (quiet_no_operator _ _ _ Hq).
  assert (begin_word sc capacity = Some sc) as -> by (unfold begin_word; by destruct Hsc as (_ & _ & _ & _ & -> & _)).
  fold (is_quote_char c). change (drop 1 (c :: ?l)) with l.
  destruct ((q =? 0) && is_quote_char c) eqn:E1.
  { apply andb_true_iff in E1 as [->%Z.eqb_eq E1]. apply IH; try done; [lia|by right|]. cbn [quiet] in Hq.
    assert ((c =? c_backslash) = false) as Hcb by (unfold is_quote_char, c_squote, c_dquote, c_backslash in *; lia).
    by rewrite Hcb, E1 in Hq. }
  destruct (negb (q =? 0) && (c =? q)) eqn:E2.
  { apply andb_true_iff in E2 as [Hq0 ->%Z.eqb_eq]. apply IH; try done; [lia|by left|]. destruct Hs as [->|Hs]; [done|]. cbn [quiet] in Hq.
    assert ((q =? c_backslash) = false) as Hqb by (unfold is_quote_char, c_squote, c_dquote, c_backslash in *; lia).
    by rewrite Hqb, Hq0, Z.eqb_refl in Hq. }
  destruct ((c =? c_backslash) && negb (q =? c_squote)) eqn:E3.
  { destruct t as [|d t]; cbn [quiet] in Hq; rewrite E3 in Hq; [done|]. apply Forall_cons in Hz as [Hd Hz].
    change (rd (c :: (d :: t) ++ 0 :: j) 1) with (Some d). cbn [mbind option_bind]. rewrite (eqb_neq d 0 Hd). change (drop 2 (c :: (d :: t) ++ 0 :: j)) with (t ++ 0 :: j).
    apply loop_put; try done. intros ? ? ? ? ? ? Hl. apply IH. cbn. lia. }
  pose proof (quiet_step _ _ _ E3 E1 E2 Hq) as Hqt.
  destruct ((c =? c_dollar) && negb (q =? c_squote)) eqn:E4; [|by apply loop_put].
  apply andb_true_iff in E4 as [->%Z.eqb_eq _]. by apply loop_expand.
Qed.

Lemma loop_agrees fuel fuel' n : (n <= fuel)%nat -> (n <= fuel')%nat -> agrees fuel fuel' n.
Proof.
  revert fuel' n. induction fuel as [|fuel IH]; intros fuel' n Hf Hf' t j q sc ws cur Hl Hz Hs Hq Hsc; [lia|].
  destruct fuel' as [|fuel']; [lia|]. destruct t as [|c t]; [by apply loop_end|]. apply Forall_cons in Hz as [Hc Hz]. cbn [length] in Hl.
  assert (agrees fuel fuel' (S (length t))) as IHt by (apply IH; lia).
  destruct ((q =? 0) && is_blank_char c) eqn:Hb.
  - apply andb_true_iff in Hb as Hb'. destruct Hb' as [->%Z.eqb_eq Hbc]. cbn [tokenize_loop lex app]. change (rd (c :: t ++ 0 :: j) 0) with (Some c).
    cbn [mbind option_bind]. rewrite (eqb_neq c 0 Hc). unfold is_blank_char in Hb at 1. rewrite Hb. fold (is_blank_char c) in Hb. rewrite Hb.
    apply loop_blank; try done. cbn [quiet] in Hq.
    assert ((c =? c_backslash) = false /\ is_quote_char c = false) as [E1 E2].
    { unfold is_blank_char, is_quote_char, c_space, c_tab, c_backslash, c_squote, c_dquote in *. lia. }
    rewrite E1, E2 in Hq. by apply andb_true_iff in Hq as [_ ?].
  - destruct cur as [w|]; [by apply loop_word|]. rewrite lex_begin by done. pose proof (begin_word_ok sc ws Hsc) as Hbw.
    cbn [app]. rewrite loop_begin; [|done|done|by eapply quiet_no_operator|by destruct Hsc as (_ & _ & _ & _ & ?)].
    destruct (begin_word sc capacity) as [sc'|]; [by apply loop_word|].
    symmetry. apply result_overflow. rewrite zlen_nil. lia.
Qed.

Lemma tokenize_words t j :
  nozero t -> quiet t 0 = true -> (0 < K)%nat ->
  tokenize lookup capacity (t ++ 0 :: j) (zeros K) = result [] (words sigma t).
Proof.
  intros Hz Hq HK. unfold tokenize. assert (wr (zeros K) 0 0 = Some (zeros K)) as -> by by destruct K; [lia|]. cbn [mbind option_bind].
  assert (agrees (length (t ++ 0 :: j)) (S (length t)) (S (length t))) as Ha by (apply loop_agrees; [rewrite length_app; cbn|]; lia).
  apply (Ha t j 0 (Scanner (zeros K) 0 0 false []) [] None); try done; [lia | by left|]. split_and!; cbn [storage write_index tokens in_word]; try done; [unfold laid_out, so_far; cbn; by rewrite Nat.sub_0_r|].
  apply fits_spec. split; [change (0 <= capacity); lia|done].
Qed.

Lemma sigma_nozero n : n = [63] \/ (n <> [] /\ forallb is_name_char n = true) -> nozero (sigma n).
Proof. intros (v & _ & (r & _ & ?))%(fun H => lookup_ok n [] H). done. Qed.

Lemma expand_nozero t u rest : nozero t -> expand sigma t = Some (u, rest) -> nozero u /\ nozero rest.
Proof.
  intros Hz. unfold expand. assert (nozero [c_dollar]) as Hd by by repeat constructor.
  assert (forall f l, nozero l -> nozero (span f l).2) as Hsp.
  { intros f l Hl. rewrite <- (span_app f l) in Hl. by apply nozero_app in Hl as [_ ?]. }
  destruct t as [|c r]; [by intros [= <- <-]|]. apply Forall_cons in Hz as [Hc Hz].
  destruct (c =? 63); [intros [= <- <-]; split; [apply sigma_nozero; by left | done]|].
  destruct (c =? c_lbrace).
  - pose proof (Hsp not_rbrace r Hz) as Hr. destruct (span not_rbrace r) as [n [|b l]]; cbn [fst snd] in *; [done|].
    destruct (good_name n) eqn:Hg; [|done]. intros [= <- <-]. split; [|by apply Forall_cons in Hr as [_ ?]]. apply sigma_nozero. right.
    unfold good_name in Hg. destruct n as [|x n]; [done|]. rewrite !andb_true_iff in Hg. destruct Hg as [[Hx Hn] _].
    split; [done|]. cbn [forallb]. unfold is_name_char at 1. by rewrite Hx.
  - destruct (is_name_start c) eqn:Hns; [|intros [= <- <-]; split; [done|by constructor]]. intros [= <- <-]. split; [|by apply Hsp].
    apply sigma_nozero. right. split; [done|]. cbn [forallb]. unfold is_name_char at 1. rewrite Hns. cbn. apply span_all.
Qed.

Lemma lex_nozero fuel t q cur ws :
  nozero t -> nozero (default [] cur) -> lex sigma fuel t q cur = Some ws -> Forall nozero ws.
Proof.
  revert t q cur ws. induction fuel as [|fuel IH]; intros t q cur ws Hz Hc; [done|]. cbn [lex]. destruct t as [|c t].
  { case_match; [|done]. intros [= <-]. destruct cur as [w|]; constructor; [done|constructor]. }
  apply Forall_cons in Hz as [Hc0 Hz].
  assert (forall t q v, nozero t -> nozero v -> lex sigma fuel t q (Some (default [] cur ++ v)) = Some ws -> Forall nozero ws) as Hv.
  { intros t' q' v Ht Hv. apply IH; [done|]. cbn. by apply nozero_app. }
  repeat case_match; try done; try (apply IH; by cbn).
  - intros (ws' & Hl & [= <-])%bind_Some. constructor; [done|]. by eapply IH in Hl; [|done|constructor].
  - intros (ws' & Hl & [= <-])%bind_Some. by eapply IH in Hl; [|done|constructor].
  - apply Forall_cons in Hz as [Hd Hz]. apply Hv; [done|by repeat constructor].
  - intros ([u rest] & He & Hl)%bind_Some. destruct (expand_nozero _ _ _ Hz He) as [Hu Hr]. eapply Hv; [exact Hr | exact Hu | exact Hl].
  - apply Hv; [done|by repeat constructor].
Qed.
End Tokenizer.

(** ** Arguments *)

(** The texts of the words of an array that ends with [tail] *)
Fixpoint suffixes (ws : list bytes) (tail : bytes) : list bytes :=
  match ws with
  | [] => []
  | w :: ws' => ((w ++ [0]) ++ packed ws' ++ tail) :: suffixes ws' tail
  end.

Lemma token_texts_ok ws pre tail :
  token_texts (word_tokens ws (zlen pre)) (pre ++ packed ws ++ tail) = Some (suffixes ws tail).
Proof.
  revert pre. induction ws as [|w ws IH]; intros pre; [done|]. cbn [word_tokens token_texts value mbind option_bind suffixes].
  change (packed (w :: ws)) with ((w ++ [0]) ++ packed ws).
  replace (zlen pre + zlen w + 1) with (zlen (pre ++ w ++ [0])) by zs.
  replace (pre ++ ((w ++ [0]) ++ packed ws) ++ tail) with ((pre ++ w ++ [0]) ++ packed ws ++ tail) by by rewrite <- !app_assoc.
  rewrite IH. cbn [mbind option_bind]. do 2 f_equal. rewrite <- !app_assoc.
  replace (Z.to_nat (zlen pre)) with (length pre) by zs. by rewrite drop_app_length.
Qed.

Lemma suffixes_texts ws tail : Forall nozero ws -> Forall2 cstr (suffixes ws tail) ws.
Proof.
  induction 1 as [|w ws Hw Hws IH]; cbn [suffixes]; constructor; [|done].
  eexists. rewrite <- !app_assoc. by split.
Qed.

Lemma suffixes_length ws tail : zlen (suffixes ws tail) = zlen ws.
Proof. induction ws as [|w ws IH]; [done|]. cbn [suffixes]. by rewrite !zlen_cons, IH. Qed.

(** The argument vector of the words [ws] *)
Definition arguments_of (ws : list bytes) : list bytes := suffixes ws (zeros (256 - length (packed ws))).

(** ** Variables *)

Definition variable_is (b : bytes * bytes) (v : bash_variable_t) : Prop := cstr (name v) b.1 /\ cstr (var_value v) b.2.

(** An entry of the table, in use or not *)
Definition stored (v : bash_variable_t) : Prop :=
  (zlen (name v) = BASH_VARIABLE_NAME_SIZE /\ is_text (name v)) /\ (zlen (var_value v) = BASH_VARIABLE_VALUE_SIZE /\ is_text (var_value v)).

(** The variables of the shell hold [rho]. *)
Definition variables_hold (vars : list bash_variable_t) (count : Z) (rho : list (bytes * bytes)) : Prop :=
  zlen vars = BASH_VARIABLE_COUNT /\ count = zlen rho /\
  Forall stored vars /\
  exists vs tail, vars = vs ++ tail /\ Forall2 variable_is rho vs.

Fixpoint assoc (rho : list (bytes * bytes)) (n : bytes) : option bytes :=
  match rho with
  | [] => None
  | (m, x) :: rho' => if bool_decide (m = n) then Some x else assoc rho' n
  end.

Definition home_text (u : bytes) : bytes := if zlen u <? 121 then lit "/users/" ++ u else [].

(** The value of a name: status, variables, and the three fixed names *)
Definition meaning (rho : list (bytes * bytes)) (status : Z) (u d n : bytes) : bytes :=
  if bool_decide (n = [63]) then sdec status
  else match assoc rho n with
       | Some x => x
       | None =>
           if bool_decide (n = lit "USER") then u
           else if bool_decide (n = lit "HOME") then home_text u
           else if bool_decide (n = lit "PWD") then d
           else []
       end.

Lemma strncmp_same a r1 b r2 :
  nozero a -> nozero b -> zlen a = zlen b -> exists r, str_strncmp (a ++ r1) (b ++ r2) (zlen b) = Some r /\ (r = 0 <-> a = b).
Proof.
  intros Ha Hb Hl. unfold str_strncmp. replace (Z.to_nat (zlen b)) with (length b) by zs.
  assert (length a = length b) as Hl' by zs. clear Hl. revert b Hb Hl'.
  induction Ha as [|x a Hx Ha IH]; intros [|y b] Hb Hl; try done; [by exists 0|]. apply Forall_cons in Hb as [Hy Hb].
  cbn [app length strncmp_loop]. rewrite (eqb_neq x 0 Hx). cbn [negb andb]. destruct (Z.eqb_spec x y) as [->|].
  - destruct (IH b Hb) as (r & Hr & Hi); [cbn in Hl; lia|]. exists r. split; [done|]. rewrite Hi. split; [by intros -> | by intros [=]].
  - exists (x - y). split; [done|]. split; [lia|]. intros [=]. done.
Qed.

Lemma is_literal_ok n rest (l : string) :
  nozero n -> nozero (lit l) -> zlen (lit l) = Z.of_nat (String.length l) -> is_literal (n ++ rest) (zlen n) l = Some (bool_decide (n = lit l)).
Proof.
  intros Hn Hl Hlen. unfold is_literal. rewrite <- Hlen. destruct (Z.eqb_spec (zlen n) (zlen (lit l))) as [E|E].
  - unfold clit. rewrite E. destruct (strncmp_same n rest (lit l) [0] Hn Hl E) as (r & -> & Hr). cbn [mbind option_bind].
    f_equal. destruct (Z.eqb_spec r 0); symmetry; [apply bool_decide_eq_true | apply bool_decide_eq_false]; tauto.
  - symmetry. f_equal. apply bool_decide_eq_false. congruence.
Qed.

(** The first variable with the name *)
Lemma bash_find_variable rho vs pre tail n rest :
  nozero n -> Forall2 variable_is rho vs ->
  exists i, find_variable (length rho) (zlen pre) (pre ++ vs ++ tail) (n ++ rest) (zlen n) = Some i /\
    match assoc rho n with
    | None => i = -1
    | Some x => exists rho1 rho2 vs1 v vs2, rho = rho1 ++ (n, x) :: rho2 /\ vs = vs1 ++ v :: vs2 /\ Forall2 variable_is rho1 vs1 /\
        variable_is (n, x) v /\ Forall2 variable_is rho2 vs2 /\ i = zlen (pre ++ vs1)
    end.
Proof.
  intros Hn H. revert pre. induction H as [|[m x] v rho vs [Hm Hx] H IH]; intros pre; [by exists (-1)|].
  cbn [length find_variable app assoc fst snd] in *. rewrite rd_mid. cbn [mbind option_bind].
  assert (same_name v (n ++ rest) (zlen n) = Some (bool_decide (m = n))) as ->.
  { unfold same_name. rewrite (strlen_cstr _ _ Hm). cbn [mbind option_bind]. destruct (Z.eqb_spec (zlen m) (zlen n)) as [E|E].
    - destruct Hm as (r & -> & Hmz). destruct (strncmp_same m (0 :: r) n rest Hmz Hn E) as (c & -> & Hc). cbn [mbind option_bind]. f_equal.
      destruct (Z.eqb_spec c 0); symmetry; [apply bool_decide_eq_true | apply bool_decide_eq_false]; tauto.
    - symmetry. f_equal. apply bool_decide_eq_false. congruence. }
  cbn [mbind option_bind]. destruct (bool_decide_reflect (m = n)) as [->|Hne].
  - exists (zlen pre). split; [done|]. exists [], rho, [], v, vs. rewrite app_nil_r. by split_and!.
  - destruct (IH (pre ++ [v])) as (i & Hi & Hr). exists i. rewrite <- app_assoc in Hi. cbn [app] in Hi.
    split; [by replace (zlen pre + 1) with (zlen (pre ++ [v])) by zs|]. destruct (assoc rho n) as [y|]; [|done].
    destruct Hr as (rho1 & rho2 & vs1 & v' & vs2 & -> & -> & H1 & Hv & H2 & ->). exists ((m, x) :: rho1), rho2, (v :: vs1), v', vs2.
    rewrite <- app_assoc. split_and!; try done. by constructor.
Qed.

Lemma name_nozero n : forallb is_name_char n = true -> nozero n.
Proof.
  rewrite forallb_forall. intros H. apply Forall_forall. intros c Hc%list_elem_of_In%H ->. done.
Qed.

Lemma home_value_ok user u : cstr user u -> exists h, home_value user = Some h /\ cstr h (home_text u).
Proof.
  intros Hu. unfold home_value, home_text. change (wr (zeros 128) 0 0) with (Some (zeros 128)). cbn [mbind option_bind].
  assert (cstr (clit "/users/") (lit "/users/")) as Hl by (apply cstr_clit; by repeat constructor).
  destruct (append_text_cap 128 (zeros 128) [] _ _ ltac:(apply zeros_cstr; lia) ltac:(done) Hl) as (h & E & Hh & Hlh).
  change (zlen []) with 0 in E. rewrite E. cbn [try mbind option_bind]. clear E.
  pose proof (append_text_cap 128 h (lit "/users/") user u Hh Hlh Hu) as H. change (zlen (lit "/users/")) with 7 in H.
  change (zlen ([] ++ lit "/users/")) with 7. replace (7 + zlen u <? 128) with (zlen u <? 121) in H by lia. destruct (zlen u <? 121).
  - destruct H as (h' & E & Hh' & _). rewrite E. cbn [mbind option_bind]. by exists h'.
  - rewrite H. cbn [mbind option_bind]. exists (clit ""). split; [done | apply cstr_nil].
Qed.

(** ** The value of a name *)

Section Meaning.
Context (vars : list bash_variable_t) (count status : Z) (rho : list (bytes * bytes)) (user u : bytes) (dirname : option bytes) (d : bytes).
Hypothesis vars_ok : variables_hold vars count rho.
Hypothesis status_int : INT_MIN <= status <= INT_MAX.
Hypothesis user_ok : cstr user u.
Hypothesis dirname_ok : cstr (default (clit "") dirname) d.

Lemma get_variable_ok n rest :
  n = [63] \/ (n <> [] /\ forallb is_name_char n = true) ->
  exists v, get_variable vars count status user dirname (n ++ rest) (zlen n) = Some v /\ cstr v (meaning rho status u d n).
Proof.
  intros Hn. assert (nozero n) as Hz by (destruct Hn as [->|[_ Hn]]; [by repeat constructor | by apply name_nozero]).
  unfold get_variable, meaning.
  assert ((if zlen n =? 1 then c ← rd (n ++ rest) 0; Some (c =? 63) else Some false) = Some (bool_decide (n = [63]))) as ->.
  { destruct (Z.eqb_spec (zlen n) 1) as [E|E].
    - destruct n as [|c [|c' n]]; [done| |exfalso; revert E; zs]. change (rd ([c] ++ rest) 0) with (Some c). cbn [mbind option_bind]. f_equal.
      destruct (Z.eqb_spec c 63); symmetry; [apply bool_decide_eq_true | apply bool_decide_eq_false]; congruence.
    - symmetry. f_equal. apply bool_decide_eq_false. by intros ->. }
  cbn [mbind option_bind]. destruct (bool_decide (n = [63])).
  { rewrite str_itoa_blit by done. pose proof (sdec_short status).
    destruct (blit_total (zeros 16) (sdec status ++ [0]) 0) as [v E]; [lia | unfold zeros; zs |].
    exists v. split; [done|]. eapply cstr_blit; [apply sdec_nozero | done]. }
  destruct vars_ok as (_ & -> & _ & vs & tail & -> & Hr). destruct (bash_find_variable rho vs [] tail n rest Hz Hr) as (i & Hi & Ha).
  change (zlen []) with 0 in Hi. cbn [app] in Hi, Ha. replace (Z.to_nat (zlen rho)) with (length rho) by zs. rewrite Hi. cbn [mbind option_bind].
  destruct (assoc rho n) as [x|].
  { destruct Ha as (rho1 & rho2 & vs1 & v & vs2 & -> & -> & _ & [_ Hx] & _ & ->). pose proof (zlen_nonneg vs1). replace (zlen vs1 =? -1) with false by lia.
    cbn [negb]. rewrite <- app_assoc. cbn [app]. rewrite rd_mid. cbn [mbind option_bind]. by exists (var_value v). }
  subst i. change (-1 =? -1) with true. cbn [negb].
  rewrite !is_literal_ok by (done || by repeat constructor). cbn [mbind option_bind].
  destruct (bool_decide (n = lit "USER")); [by exists user|].
  destruct (bool_decide (n = lit "HOME")); [by apply home_value_ok|].
  destruct (bool_decide (n = lit "PWD")); [exists (default (clit "") dirname); by destruct dirname|].
  exists (clit ""). split; [done | apply cstr_nil].
Qed.

End Meaning.

(** ** The arguments of a command *)

Section Commands.
Context {W : Type} {bash_os : BashOs W} (nested : M (bash W) unit).
Implicit Types s : bash W.

(** What expansions see of a state: the variables [rho], the user [u] and the directory [d] *)
Definition sees s (rho : list (bytes * bytes)) (u d : bytes) : Prop :=
  variables_hold (variables s) (variable_count s) rho /\ INT_MIN <= shell_status s <= INT_MAX /\
  cstr (current_user (machine s)) u /\ cstr (default (clit "") (fs_dirname (machine s))) d.

Lemma value_ok s rho u d n rest :
  sees s rho u d -> n = [63] \/ (n <> [] /\ forallb is_name_char n = true) ->
  exists v, variable_value s (n ++ rest) (zlen n) = Some v /\ cstr v (meaning rho (shell_status s) u d n).
Proof. intros (Hv & Hs & Hu & Hd). by apply get_variable_ok. Qed.

(** A command: its words become the argument vector, or the line is refused. *)
Definition run_words (r : option (list bytes)) (status : Z) : M (bash W) (Z + Z) :=
  match r with
  | Some ws =>
      if fits_arrays 256 ws then
        match ws with
        | [] => mret (inl status)
        | _ => status ← execute_command nested (arguments_of ws); modify (set_status status);; mret (inl status)
        end
      else say "bash: syntax error or command line too long";; mret (inr 2)
  | None => say "bash: syntax error or command line too long";; mret (inr 2)
  end.

Lemma run_segment_words s rho u d t j status :
  sees s rho u d -> nozero t -> quiet t 0 = true ->
  run_segment nested (t ++ 0 :: j) status s = run_words (words (meaning rho (shell_status s) u d) t) status s /\
  forall ws, words (meaning rho (shell_status s) u d) t = Some ws -> Forall2 cstr (arguments_of ws) ws.
Proof.
  intros Hs Hz Hq. pose proof (value_ok s rho u d) as Hv. split.
  - unfold run_segment. change BASH_LINE_SIZE with (Z.of_nat 256).
    pose proof (tokenize_words (variable_value s) (meaning rho (shell_status s) u d) 256 (fun n rest => Hv n rest Hs) t j Hz Hq ltac:(lia)) as E.
    unfold mbind at 1, M_bind at 1. rewrite E. unfold run_words, result. destruct (words _ t) as [ws|]; [|done]. cbn [app].
    destruct (fits_arrays 256 ws); [|done]. cbn [mbind option_bind].
    rewrite (bind_lift _ _ _ _ (token_texts_ok ws [] (zeros (256 - length (packed ws))))).
    rewrite suffixes_length. by destruct ws.
  - intros ws E. apply suffixes_texts. eapply lex_nozero; [|exact Hz| |exact E]; [intros n rest Hn; by apply (Hv n rest Hs) | constructor].
Qed.

(** C18: a command without operators outside quotes runs with exactly the words the
    reference lexer reads, quotes, escapes and expansions resolved, as its
    arguments, each of them a C string; it is refused with status 2 exactly when the
    lexer refuses it or the words do not fit into 256 bytes and 32 tokens. *)
Theorem bash_arguments_exact s rho u d t j status :
  sees s rho u d -> nozero t -> quiet t 0 = true ->
  run_segment nested (t ++ 0 :: j) status s = run_words (words (meaning rho (shell_status s) u d) t) status s /\
  forall ws, words (meaning rho (shell_status s) u d) t = Some ws -> Forall2 cstr (arguments_of ws) ws.
Proof. apply run_segment_words. Qed.

(** ** Command lists *)

Inductive connector := Then | AndThen | OrElse.

Definition connector_text (c : connector) : bytes :=
  match c with Then => [c_semicolon] | AndThen => [c_and; c_and] | OrElse => [c_bar; c_bar] end.

Definition connector_type (c : connector) : token_type_t :=
  match c with Then => TOKEN_SEMICOLON | AndThen => TOKEN_AND | OrElse => TOKEN_OR end.

(** Whether the command after the connector runs *)
Definition goes_on (c : connector) (status : Z) : bool :=
  match c with Then => true | AndThen => status =? 0 | OrElse => negb (status =? 0) end.

(** A command of a list: a connector, blanks and a text *)
Record link := Link { joint : connector; gap : bytes; command : bytes }.

(** The text of a list, which may end with a semicolon *)
Fixpoint links_text (ls : list link) (last : option bytes) : bytes :=
  match ls with
  | [] => match last with None => [] | Some b => c_semicolon :: b end
  | l :: ls' => connector_text (joint l) ++ gap l ++ command l ++ links_text ls' last
  end.

(** From left to right, each connector decides by the last status; [exit] ends the list. *)
Fixpoint run_list (cmd : bytes) (ls : list link) (execute : bool) (status : Z) : M (bash W) Z :=
  stop ← gets shell_exit_requested;
  if (stop : bool) then mret status
  else
    r ← (if execute then run_segment nested (cmd ++ [0]) status else mret (inl status));
    match r with
    | inr status => mret status
    | inl status =>
        match ls with
        | [] => mret status
        | l :: ls' => run_list (command l) ls' (goes_on (joint l) status) status
        end
    end.

Definition after_link (ls : list link) (status : Z) : M (bash W) Z :=
  match ls with [] => mret status | l :: ls' => run_list (command l) ls' (goes_on (joint l) status) status end.

Definition is_command (t : bytes) : bool := quiet t 0 && has_command t.
Definition starts (t : bytes) : bool := match t with [] => false | c :: _ => negb (is_blank_char c) end.
Definition link_ok (l : link) : bool := forallb is_blank_char (gap l) && is_command (command l) && starts (command l).

Lemma find_next_quiet t r i q :
  nozero t -> quiet t q = true -> find_next_operator (t ++ r) i q = find_next_operator r (i + zlen t) 0.
Proof.
  remember (length t) as n eqn:Hn. revert t Hn i q. induction n as [n IH] using lt_wf_ind. intros t Hn i q Hz.
  destruct t as [|c t]; cbn [quiet app]; [intros ->%Z.eqb_eq; by rewrite Z.add_0_r|]. cbn [length] in Hn. apply Forall_cons in Hz as [Hc Hz].
  assert (forall q', quiet t q' = true -> find_next_operator (t ++ r) (i + 1) q' = find_next_operator r (i + zlen (c :: t)) 0) as IHt.
  { intros q' H. rewrite (IH (length t)) by (lia || done). f_equal. zs. }
  cbn [find_next_operator]. rewrite (eqb_neq c 0 Hc). fold (is_quote_char c). destruct ((c =? c_backslash) && negb (q =? c_squote)).
  { destruct t as [|e t]; [done|]. intros H. apply Forall_cons in Hz as [He Hz]. cbn [app]. rewrite (eqb_neq e 0 He).
    cbn [length] in Hn. rewrite (IH (length t)) by (lia || done). f_equal. zs. }
  destruct (Z.eqb_spec q 0) as [->|]; cbn [negb]; [|apply IHt]. destruct (is_quote_char c); [apply IHt|].
  intros [->%negb_true_iff H]%andb_true_iff. by apply IHt.
Qed.

Definition head_operator (ls : list link) (last : option bytes) : Z * token_type_t :=
  match ls, last with
  | l :: _, _ => (zlen (connector_text (joint l)), connector_type (joint l))
  | [], Some _ => (1, TOKEN_SEMICOLON)
  | [], None => (0, TOKEN_WORD)
  end.

Lemma find_head ls last j i :
  find_next_operator (links_text ls last ++ 0 :: j) i 0 = Some (Some (i, (head_operator ls last).1, (head_operator ls last).2)).
Proof. by destruct ls as [|[[] g c] ls], last. Qed.

Lemma skip_blank_ok g r i :
  forallb is_blank_char g = true -> skip_blank (g ++ r) i = skip_blank r (i + zlen g).
Proof.
  revert i. induction g as [|c g IH]; intros i; cbn [forallb app]; [by rewrite Z.add_0_r|]. intros [Hc Hg]%andb_true_iff.
  cbn [skip_blank]. fold (is_blank_char c). rewrite Hc, IH by done. f_equal. zs.
Qed.

Lemma skip_blank_stop c r i : is_blank_char c = false -> skip_blank (c :: r) i = Some i.
Proof. intros H. cbn [skip_blank]. fold (is_blank_char c). by rewrite H. Qed.

Lemma drop_pre (pre t : bytes) : drop (Z.to_nat (zlen pre)) (pre ++ t) = t.
Proof. replace (Z.to_nat (zlen pre)) with (length pre) by zs. apply drop_app_length. Qed.

Lemma slice_pre (pre t r : bytes) : slice (pre ++ t ++ r) (zlen pre) (zlen pre + zlen t - zlen pre) = Some t.
Proof.
  replace (zlen pre + zlen t - zlen pre) with (zlen t) by lia. unfold slice. rewrite drop_pre.
  pose proof (zlen_nonneg pre). pose proof (zlen_nonneg t). pose proof (zlen_nonneg r).
  replace (_ && _) with true by (rewrite !zlen_app; lia). replace (Z.to_nat (zlen t)) with (length t) by zs. by rewrite take_app_length.
Qed.

(** The commands of a list *)
Definition list_ok (cmd : bytes) (ls : list link) (last : option bytes) : Prop :=
  nozero cmd /\ is_command cmd = true /\ Forall (fun l => nozero (command l) /\ link_ok l = true) ls /\
  match last with None => True | Some b => forallb is_blank_char b = true end.

Lemma is_command_nonempty t : is_command t = true -> 0 < zlen t.
Proof. destruct t; [done|]. intros _. zs. Qed.

(** Where the loop goes on after a command *)
Lemma next_link pre l ls last j :
  link_ok l = true ->
  skip_blank (drop (Z.to_nat (zlen pre + zlen (connector_text (joint l)))) (pre ++ links_text (l :: ls) last ++ 0 :: j))
    (zlen pre + zlen (connector_text (joint l))) = Some (zlen (pre ++ connector_text (joint l) ++ gap l)).
Proof.
  unfold link_ok. rewrite !andb_true_iff. intros [[Hg _] Hs]. cbn [links_text]. rewrite <- zlen_app, <- !app_assoc, (app_assoc pre), drop_pre.
  rewrite skip_blank_ok by done. destruct (command l) as [|c t]; [done|]. cbn [starts app] in *. rewrite skip_blank_stop by (by apply negb_true_iff).
  f_equal. zs.
Qed.

Lemma last_semicolon pre b j :
  forallb is_blank_char b = true ->
  skip_blank (drop (Z.to_nat (zlen pre + 1)) (pre ++ (c_semicolon :: b) ++ 0 :: j)) (zlen pre + 1) = Some (zlen (pre ++ c_semicolon :: b)).
Proof.
  intros Hb. replace (zlen pre + 1) with (zlen (pre ++ [c_semicolon])) by zs. change ((c_semicolon :: b) ++ 0 :: j) with ([c_semicolon] ++ b ++ 0 :: j).
  rewrite (app_assoc pre), drop_pre, skip_blank_ok by done. rewrite skip_blank_stop by done. f_equal. zs.
Qed.

Lemma links_count ls last : (length ls <= length (links_text ls last))%nat.
Proof. induction ls as [|l ls IH]; cbn [links_text length]; [lia|]. rewrite !length_app. destruct (joint l); cbn [connector_text length]; lia. Qed.

Lemma list_runs fuel pre cmd ls last j req execute status s :
  (length ls < fuel)%nat -> list_ok cmd ls last ->
  line_loop nested fuel (pre ++ cmd ++ links_text ls last ++ 0 :: j) (zlen (pre ++ cmd ++ links_text ls last)) (zlen pre) status execute req s =
  run_list cmd ls execute status s.
Proof.
  revert pre cmd ls req execute status s. induction fuel as [|fuel IH]; intros pre cmd ls req execute status s Hf (Hz & Hc & Hls & Hlast); [lia|].
  pose proof (is_command_nonempty _ Hc). apply andb_true_iff in Hc as [Hq Hh]. cbn [line_loop].
  assert (run_list cmd ls execute status s = (stop ← gets shell_exit_requested;
    if (stop : bool) then mret status
    else
      r ← (if execute then run_segment nested (cmd ++ [0]) status else mret (inl status));
      match r with inr status => mret status | inl status => after_link ls status end) s) as -> by by destruct ls.
  rewrite !bind_gets. replace (zlen (pre ++ cmd ++ links_text ls last) <=? zlen pre) with false
    by (pose proof (zlen_nonneg (links_text ls last)); rewrite !zlen_app; lia). cbn [orb].
  destruct (shell_exit_requested s); [done|]. erewrite bind_lift by (rewrite drop_pre, find_next_quiet, find_head by done; reflexivity). cbv beta iota.
  erewrite bind_lift by apply slice_pre. rewrite Hh, andb_true_r, andb_false_r.
  set (m := if execute then _ else _). set (k := fun r : Z + Z => _).
  assert (m = if execute then run_segment nested (cmd ++ [0]) status else mret (inl status)) as ->.
  { unfold m. destruct execute; [done|]. by rewrite andb_false_r. }
  assert (forall status s1, k (inl status) s1 = after_link ls status s1) as Hk.
  { intros st s1. unfold k. clear k s. rewrite <- zlen_app, !(app_assoc pre cmd). generalize (pre ++ cmd). intros p. clear pre cmd Hz Hq Hh H. destruct ls as [|l ls]; cbn [head_operator fst snd].
    - destruct last as [b|]; [|done]. cbn [fst snd]. change (1 =? 0) with false. cbv beta iota. cbn [after_operator links_text].
      erewrite bind_lift by (apply (last_semicolon p b j Hlast)). by rewrite Z.eqb_refl.
    - apply Forall_cons in Hls as [[Hz Hl] Hls]. assert (exists needs, after_operator (connector_type (joint l)) st = Some (goes_on (joint l) st, needs)) as [needs ->].
      { destruct (joint l); by eexists. }
      replace (zlen (connector_text (joint l)) =? 0) with false by by destruct (joint l).
      rewrite (bind_lift _ _ _ _ (next_link p l ls last j Hl)). unfold link_ok in Hl. rewrite !andb_true_iff in Hl. destruct Hl as [[_ Hc] _].
      pose proof (is_command_nonempty _ Hc). cbn [links_text length] in *. pose proof (zlen_nonneg (links_text ls last)).
      replace (_ =? _) with false by (rewrite !zlen_app; lia). cbn [after_link].
      rewrite <- (IH (p ++ connector_text (joint l) ++ gap l) _ _ (needs || false)) by (done || lia). by rewrite <- !app_assoc. }
  apply bind_ext. intros [st|st] s1; [apply Hk | done].
Qed.

(** A line that is read from the user: the history is kept, then the list runs. *)
Definition run_line (line : bytes) (run : M (bash W) Z) : M (bash W) Z := fn (
  modify (set_exit false);;
  rc ← append_history line;
  (if negb (rc =? 0) then say "bash: unable to save command history" else mret tt);;
  status ← run;
  modify (set_status status);;
  mret status).

(** C17: a command line that is a list of commands joined by [;], [&&] and [||], with
    blanks after the connectors and perhaps a semicolon at the end, does exactly what
    the list means: the line is added to the history; from left to right a command
    runs after [;] always, after [&&] when the last status is 0 and after [||] when it
    is not; [exit] and a refused command end the list; the last status is the status
    of the line and of [$?]. *)
Theorem bash_list_exact line text cmd ls last s :
  cstr line text -> text = cmd ++ links_text ls last -> zlen text < BASH_LINE_SIZE -> list_ok cmd ls last ->
  system_bash_ex nested (Some line) s = run_line (laid_out 256 text) (run_list cmd ls true 0) s.
Proof.
  intros Ht E Hl Hls. assert (0 < zlen cmd) as H0 by (destruct Hls as (_ & ? & _); by apply is_command_nonempty).
  assert (0 < zlen text) as H1 by (subst text; rewrite zlen_app; pose proof (zlen_nonneg (links_text ls last)); lia).
  unfold system_bash_ex, run_line, fn.
  assert (exists c, rd line 0 = Some c /\ c <> 0) as (c & Hc & Hc0).
  { destruct text as [|c t]; [done|]. exists c. by apply (cstr_head0 line c t). }
  rewrite (bind_lift _ _ _ _ Hc), (eqb_neq c 0 Hc0), !bind_modify.
  assert (strncpy_body (zeros 256) line BASH_LINE_SIZE = Some (0, laid_out 256 text)) as Es.
  { rewrite (strncpy_fits _ _ text) by done. change (zeros 256) with (laid_out 256 []). change 0 with (zlen (@nil Z)) at 1.
    unfold BASH_LINE_SIZE in Hl. rewrite laid_out_blit by (rewrite length_app; zs). cbn [app fmap option_fmap option_map]. by rewrite laid_out_end by zs. }
  rewrite (bind_lift _ _ _ _ Es). change (0 =? 0) with true. cbn [negb].
  match goal with |- match ?x _ with _ => _ end = match ?y _ with _ => _ end => assert (forall s, x s = y s) as Heq; [|by rewrite Heq] end.
  intros s'. apply bind_ext. intros rc s1. apply bind_ext. intros [] s2.
  assert (cstr (laid_out 256 text) text) as Hc'.
  { unfold laid_out. apply cstr_pad; [by eapply cstr_nozero | unfold BASH_LINE_SIZE in Hl; zs]. }
  rewrite (bind_lift _ _ _ _ (strlen_cstr _ _ Hc')). apply bind_eq. destruct Hc' as (j & -> & _). subst text.
  rewrite <- (list_runs (Z.to_nat (zlen (cmd ++ links_text ls last))) [] cmd ls last j false) by (done || (pose proof (links_count ls last); zs)).
  by rewrite <- app_assoc.
Qed.
End Commands.
