(* ===== verification/BashSafe.v ===== *)
(** * What a bash command line does to the rest of the system

    [bash_line_safe]: whatever the user types, the command line is executed without
    undefined behaviour, the variables and the status stay well formed, and every
    file that the shell reads, changes or starts is one the user may access, his own
    history or an application.  The commands [dogestore] and [pack], which check
    nothing, are the exception. *)

From S2P Require Import Prelude CMonad CString Disk Exfat Vfs VfsProofs Accounts AccountProofs ShellPath ShellPathProofs ShellAccess ShellWords Pci Bash BashWords.

Definition int (n : Z) : Prop := INT_MIN <= n <= INT_MAX.

(** ** The triple

    [P] holds while the program runs; an early return may leave it for [I]. *)

Section Triple.
Context {S : Type} (I : S -> Prop).

Definition ok {A} (P : S -> Prop) (m : M S A) (Q : A -> Prop) : Prop :=
  forall s, P s -> exists o s', m s = Some (o, s') /\ match o with Val a => P s' /\ Q a | Ret rc => I s' /\ int rc end.

(** A program that ends with [return] *)
Definition leaves {A} (P : S -> Prop) (m : M S A) : Prop := ok P m (fun _ => False).

Context (P : S -> Prop) (HPI : forall s, P s -> I s).

Lemma ok_ret {A} (a : A) (Q : A -> Prop) : Q a -> ok P (mret a) Q.
Proof. intros H s Hs. by exists (Val a), s. Qed.

Lemma ok_exit {A} rc (Q : A -> Prop) : int rc -> ok P (exit rc) Q.
Proof using HPI. intros H s Hs. exists (Ret rc), s. auto. Qed.

Lemma ok_conseq {A} (m : M S A) (Q R : A -> Prop) : ok P m Q -> (forall a, Q a -> R a) -> ok P m R.
Proof. intros H HQ s Hs. destruct (H s Hs) as ([a|rc] & s' & E & Ho); eexists _, s'; (split; [done|]); [|done]. destruct Ho. auto. Qed.

Lemma ok_bind {A B} (m : M S A) (k : A -> M S B) (Q : A -> Prop) (R : B -> Prop) :
  ok P m Q -> (forall a, Q a -> ok P (k a) R) -> ok P (m ≫= k) R.
Proof.
  intros Hm Hk s Hs. destruct (Hm s Hs) as ([a|rc] & s' & E & Ho).
  - rewrite (bind_val _ _ _ _ _ E). destruct Ho. by apply (Hk a).
  - rewrite (bind_exit _ _ _ _ _ E). by exists (Ret rc), s'.
Qed.

(** A step that keeps only [I], after which the program returns *)
Lemma ok_last {A B} (m : M S A) (k : A -> M S B) (Q : A -> Prop) (R : B -> Prop) :
  (forall s, P s -> exists a s', m s = Some (Val a, s') /\ I s' /\ Q a) -> (forall a, Q a -> leaves I (k a)) -> ok P (m ≫= k) R.
Proof.
  intros Hm Hk s Hs. destruct (Hm s Hs) as (a & s' & E & Hi & Hq). rewrite (bind_val _ _ _ _ _ E).
  destruct (Hk a Hq s' Hi) as ([b|rc] & s2 & E2 & Ho); [by destruct Ho|]. by exists (Ret rc), s2.
Qed.

Lemma ok_gets {A} (f : S -> A) (Q : A -> Prop) : (forall s, P s -> Q (f s)) -> ok P (gets f) Q.
Proof. intros H s Hs. exists (Val (f s)), s. auto. Qed.

Lemma ok_lift {A} (o : option A) (Q : A -> Prop) : (exists a, o = Some a /\ Q a) -> ok P (lift o) Q.
Proof. intros (a & -> & H) s Hs. by exists (Val a), s. Qed.

Lemma ok_lift_eq {A} (o : option A) a : o = Some a -> ok P (lift o) (fun x => x = a).
Proof. intros ->. apply ok_lift. by exists a. Qed.

Lemma ok_modify (f : S -> S) : (forall s, P s -> P (f s)) -> ok P (modify f) (fun _ => True).
Proof. intros H s Hs. exists (Val tt), (f s). auto. Qed.

Lemma ok_for_loop k i (body : Z -> M S unit) :
  (forall j, i <= j < i + Z.of_nat k -> ok P (body j) (fun _ => True)) -> ok P (for_loop k i 1 body) (fun _ => True).
Proof.
  revert i. induction k as [|k IH]; intros i Hb; cbn [for_loop]; [by apply ok_ret|].
  apply (ok_bind _ _ (fun _ => True)); [apply Hb; lia | intros _ _; apply IH; intros; apply Hb; lia].
Qed.

Lemma ok_fn (m : M S Z) : ok P m int -> forall s, P s -> exists rc s', fn m s = Some (Val rc, s') /\ I s' /\ int rc.
Proof using HPI.
  intros Hm s Hs. destruct (Hm s Hs) as ([a|rc] & s' & E & Ho); eexists _, s';
    (split; [first [exact (fn_val _ _ _ _ E) | exact (fn_exit _ _ _ _ E)] | destruct Ho; auto]).
Qed.

End Triple.

(** A function that returns in [P] *)
Lemma ok_call {S} (I P : S -> Prop) (m : M S Z) : ok P P m int -> ok I P (fn m) int.
Proof.
  intros Hm s Hs. destruct (ok_fn P P (fun _ H => H) m Hm s Hs) as (rc & s' & E & ? & ?). by exists (Val rc), s'.
Qed.

(** ** What the shell may ask for *)

(** The user [bu] may access the path in the directory [bd]: its components, resolved,
    are not blocked for him. *)
Definition granted (bu : bytes) (bd : option bytes) (path : bytes) : Prop :=
  exists u d l w p, cstr bu u /\ bd = Some d /\ cstr d (cwd_string l w) /\ cstr path p /\ ~ blocked u (norm (comps is_letter w p)).

Definition own_history (bu path : bytes) : Prop :=
  exists u, cstr bu u /\ cstr path (lit "/users/" ++ u ++ lit "/.history").

(** A file of [/apps] or of the root directory *)
Definition application (path : bytes) : Prop :=
  exists n, Forall (fun c => c <> c_slash) n /\ (cstr path (lit "/apps/" ++ n) \/ cstr path (lit "/" ++ n)).

(** Neither the root of a drive nor a directory of the system *)
Definition removable (bd : option bytes) (path : bytes) : Prop :=
  exists d l w p, bd = Some d /\ cstr d (cwd_string l w) /\ cstr path p /\
    norm (comps is_letter w p) ∉ [[]; [lit ".windoge"]; [lit "system"]; [lit "apps"]; [lit "users"]].

Definition permitted (bu : bytes) (bd : option bytes) (c : call) : Prop :=
  match c with
  | Print t | Println t => is_text t
  | Input t n => is_text t /\ 0 < n
  | Exists_ p => granted bu bd p \/ own_history bu p \/ application p
  | Create p | AppendData p _ => granted bu bd p \/ own_history bu p
  | ReadFile p n => (granted bu bd p \/ own_history bu p) /\ 0 < n
  | Delete p => granted bu bd p /\ removable bd p \/ own_history bu p
  | Mkdir p | WriteText p _ | ListPath p _ | Chdir p => granted bu bd p
  | Copy a b | Move a b | Rename a b => granted bu bd a /\ granted bu bd b
  | Exec p => granted bu bd p \/ p = clit "/system/sleep.elf"
  | ExecArgs p args => (granted bu bd p \/ application p) /\ Forall is_text args
  | _ => True
  end.

(** The calls that leave the user and the directory as they are *)
Definition steady (c : call) : bool :=
  match c with
  | Chdir _ | SelectDrive _ | Exec _ | ExecArgs _ _ | Package _ _ | Settings | SwitchTerminal => false
  | _ => true
  end.

(** What the other components answer *)
Definition answers (c : call) (r : reply) : Prop :=
  match c with
  | Ram => 0 <= code r < 2 ^ 64
  | Input _ n => int (code r) /\ is_text (text r) /\ zlen (text r) <= n
  | ReadFile _ n => int (code r) /\ code r <= n /\ zlen (text r) <= n
  | Date | Time | Cpuid => is_text (text r)
  | _ => int (code r)
  end.

(** The components the shell relies on: [J] is what they keep of the machine. *)
Class BashLaws {W : Type} (bash_os : BashOs W) (J : W -> Prop) := {
  law_user : forall w, J w -> exists u, cstr (current_user w) u /\ zlen u < 63;
  law_directory : forall w, J w -> exists d l p, fs_dirname w = Some d /\ cstr d (cwd_string l p) /\ (l = 67 \/ l = 68);
  law_computer : forall w, J w -> is_text (computer_name w);
  law_uninitialized : forall w, J w -> zlen (uninitialized w) = 32;
  law_call : forall w c, J w -> permitted (current_user w) (fs_dirname w) c -> J (os_call w c).2 /\ answers c (os_call w c).1;
  law_steady : forall w c, J w -> steady c = true ->
    current_user (os_call w c).2 = current_user w /\ fs_dirname (os_call w c).2 = fs_dirname w;
}.

(** ** Texts *)

Lemma strcmp_total a b : is_text a -> is_text b -> exists r, str_strcmp a b = Some r.
Proof. intros [x Hx] [y Hy]. destruct (strcmp_cstr a x b y Hx Hy) as (r & E & _). by exists r. Qed.

Lemma is_one_of_total t names : is_text t -> exists b, is_one_of t names = Some b.
Proof.
  intros Ht. induction names as [|n names IH]; cbn [is_one_of]; [by exists false|].
  destruct (strcmp_total t (clit n) Ht (is_text_clit n)) as [r ->]. cbn [mbind option_bind]. destruct (r =? 0); [by exists true | done].
Qed.

Lemma strlen_total t : is_text t -> exists n, strlen_loop t = Some n /\ 0 <= n.
Proof. intros [x Hx]. exists (zlen x). split; [by apply strlen_cstr | apply zlen_nonneg]. Qed.

Lemma rd_head t : is_text t -> exists c, rd t 0 = Some c.
Proof. intros (c & t' & -> & _)%is_text_head. by exists c. Qed.

Lemma strncpy_total d src cap :
  is_text src -> zlen d = cap -> 0 < cap ->
  exists rc d', strncpy_body d src cap = Some (rc, d') /\ (rc = 0 \/ rc = -1) /\ zlen d' = cap /\ (rc = 0 -> exists t, cstr src t /\ cstr d' t /\ zlen t < cap).
Proof.
  intros [t Ht] Hl Hc. destruct (Z.ltb_spec (zlen t) cap).
  - rewrite (strncpy_fits _ _ _ _ Ht) by done. destruct (blit_total d (t ++ [0]) 0) as [d' E]; [lia | zs |]. rewrite E.
    exists 0, d'. split; [done|]. split; [by left|]. split; [by rewrite (blit_zlen _ _ _ _ E)|]. intros _. exists t.
    split; [done|]. split; [|done]. eapply cstr_blit; [by eapply cstr_nozero | done].
  - rewrite (strncpy_too_long _ _ _ _ Ht) by done. exists (-1), d. split; [done|]. split; [by right|]. by split.
Qed.

(** What [append_text] leaves is a text. *)
Lemma append_total cap dst a t :
  cstr dst a -> zlen dst = cap -> is_text t ->
  exists r, append_text dst cap (zlen a) t = Some r /\
    match r with Some (dst', n) => exists x, cstr t x /\ cstr dst' (a ++ x) /\ n = zlen (a ++ x) /\ zlen dst' = cap | None => True end.
Proof.
  intros Hd Hl [x Hx]. pose proof (append_text_cap cap dst a t x Hd Hl Hx) as H. destruct (zlen a + zlen x <? cap).
  - destruct H as (d' & E & Hc & Hz). eexists. split; [done|]. by exists x.
  - by exists None.
Qed.

Lemma history_total bu u :
  cstr bu u -> exists r, build_history_path bu (zeros 160) 160 = Some r /\ match r with Some p => own_history bu p | None => True end.
Proof.
  intros Hu. unfold build_history_path. change (wr (zeros 160) 0 0) with (Some (zeros 160)). cbn [mbind option_bind].
  assert (forall t, nozero (lit t) -> is_text (clit t)) as Hc by (intros; apply is_text_clit).
  assert (cstr (clit "/users/") (lit "/users/")) as H1 by (apply cstr_clit; by repeat constructor).
  assert (cstr (clit "/.history") (lit "/.history")) as H3 by (apply cstr_clit; by repeat constructor).
  pose proof (append_text_cap 160 (zeros 160) [] _ _ ltac:(apply zeros_cstr; lia) ltac:(done) H1) as (h & E & Hh & Hlh).
  change (zlen []) with 0 in E. rewrite E. cbn [try mbind option_bind]. clear E.
  pose proof (append_text_cap 160 h _ bu u Hh Hlh Hu) as E. destruct (_ <? _) in E; [|rewrite E; by exists None].
  destruct E as (h2 & -> & Hh2 & Hlh2). cbn [try mbind option_bind].
  pose proof (append_text_cap 160 h2 _ _ _ Hh2 Hlh2 H3) as E. destruct (_ <? _) in E; [|rewrite E; by exists None].
  destruct E as (h3 & -> & Hh3 & _). eexists. split; [done|]. exists u. split; [done|]. by rewrite <- app_assoc in Hh3.
Qed.

Lemma find_equals_ok t x i :
  cstr t x -> exists r, find_equals t i = Some r /\ match r with Some k => i <= k < i + zlen x /\ is_text (drop (Z.to_nat (k - i + 1)) t) | None => True end.
Proof.
  intros H. revert i. cstr_ind H; intros i; cbn [find_equals]; [by exists None|]. rewrite (eqb_neq _ 0) by done.
  destruct (x0 =? 61).
  - exists (Some i). split; [done|]. split; [zs|]. replace (Z.to_nat (i - i + 1)) with 1%nat by lia. by exists x1.
  - destruct (IH _ H (i + 1)) as (r & -> & Hr). exists r. split; [done|]. destruct r as [k|]; [|done]. destruct Hr as [Hk Ht]. split; [zs|].
    by replace (Z.to_nat (k - i + 1)) with (S (Z.to_nat (k - (i + 1) + 1))) by lia.
Qed.

(** The number as text, whatever its buffer held *)
Lemma uint64_text n b :
  0 <= n < 2 ^ 64 -> zlen b = 32 -> exists q b', uint64_to_str n b = Some (q, b') /\ is_text b'.
Proof.
  intros Hn Hb. assert (forall (x : bytes) k y t, drop k x = y ++ 0 :: t -> is_text x) as Hx.
  { intros x k y t E. rewrite <- (take_drop k x), E. apply is_text_app, is_text_zero. }
  destruct (decide (n = 0)) as [->|Hne].
  - destruct (uint64_to_str_zero b) as (b' & t & E & Ht); [lia|]. eexists _, b'. split; [done|]. by apply (Hx b' 16%nat [c_x; c_0] t).
  - destruct (uint64_to_str_hex n b) as (q & b' & ds & t & E & _ & Ht & _); [lia | done | lia |]. eexists _, b'. split; [done|].
    by apply (Hx b' (Z.to_nat q) ([c_0; c_x] ++ ds) t).
Qed.

(** The arguments with blanks between them *)
Lemma join_total argv first cap k i out a :
  Forall is_text argv -> cstr out a -> zlen out = cap -> 0 <= i -> (k <> 0%nat -> i + Z.of_nat k <= zlen argv) ->
  exists r, join_loop k i first argv out cap (zlen a) = Some r /\ match r with Some o => is_text o | None => True end.
Proof.
  intros Ha. revert i out a. induction k as [|k IH]; intros i out a Ho Hl Hi Hk; cbn [join_loop]; [eexists; split; [done|]; by exists a|].
  destruct (rd_is_Some argv i) as [t E]; [lia|]. rewrite E. cbn [mbind option_bind].
  assert (is_text t) as Ht by (rewrite rd_lookup in E by lia; by apply (Forall_lookup_1 _ _ _ _ Ha E)).
  assert (exists r, (if negb (i =? first) then append_text out cap (zlen a) (clit " ") else Some (Some (out, zlen a))) = Some r /\
    match r with Some (o, n) => exists b, cstr o b /\ zlen o = cap /\ n = zlen b | None => True end) as (r & -> & Hr).
  { destruct (negb _); [|eexists; split; [done|]; by exists a]. destruct (append_total cap out a (clit " ") Ho Hl (is_text_clit _)) as (r & -> & Hr).
    exists r. split; [done|]. destruct r as [[o n]|]; [|done]. destruct Hr as (x & _ & ? & ? & ?). by eexists. }
  unfold try at 1. cbn [mbind option_bind]. destruct r as [[o n]|]; [|by exists None]. destruct Hr as (b & Hb & Hlo & ->).
  destruct (append_total cap o b t Hb Hlo Ht) as (r & -> & Hr). unfold try. cbn [mbind option_bind]. destruct r as [[o2 n2]|]; [|by exists None].
  destruct Hr as (x & _ & Hx & -> & Hl2). apply IH; (done || lia).
Qed.

Lemma exit_digits_total t n : is_text t -> 0 <= n -> exists r, exit_digits t n = Some r /\ match r with Some p => 0 <= p | None => True end.
Proof.
  intros [x Hx]. revert n. cstr_ind Hx; intros n Hn; cbn [exit_digits]; [by exists (Some n)|]. rewrite (eqb_neq _ 0) by done.
  destruct (negb (is_digit _) || (25 <? n)) eqn:E; [by exists None|]. apply orb_false_iff in E as [E _]. apply negb_false_iff in E.
  apply IH; [done|]. unfold is_digit, c_0, c_9 in *. lia.
Qed.

Lemma cstr_inj b x y : cstr b x -> cstr b y -> x = y.
Proof.
  intros Hx Hy. destruct (strcmp_cstr b x b y Hx Hy) as (r & E & <-). destruct (strcmp_cstr b x b x Hx Hx) as (r' & E' & Hr'). rewrite E in E'.
  injection E' as <-. by apply Hr'.
Qed.

(** ** Variables *)

Lemma value_stored v x val t :
  stored v -> cstr val t -> zlen t < BASH_VARIABLE_VALUE_SIZE -> cstr (name v) x ->
  exists d, strncpy_body (var_value v) val BASH_VARIABLE_VALUE_SIZE = Some (0, d) /\
    stored (BashVariable (name v) d) /\ variable_is (x, t) (BashVariable (name v) d).
Proof.
  intros [Hn [Hv _]] Ht Hl Hx. rewrite (strncpy_fits _ _ _ _ Ht) by done.
  destruct (blit_total (var_value v) (t ++ [0]) 0) as [d E]; [lia | zs |]. rewrite E. exists d. split; [done|].
  assert (cstr d t) as Hd by (eapply cstr_blit; [by eapply cstr_nozero | done]).
  split; [|by split]. split; [done|]. cbn. split; [by rewrite (blit_zlen _ _ _ _ E) | by exists t].
Qed.

Lemma name_stored v n rest :
  stored v -> nozero n -> zlen n < BASH_VARIABLE_NAME_SIZE ->
  exists d1 d, ncopy_loop (name v) 0 (n ++ rest) (Z.to_nat (zlen n)) = Some d1 /\ wr d1 (zlen n) 0 = Some d /\ cstr d n /\ zlen d = BASH_VARIABLE_NAME_SIZE.
Proof.
  intros [[Hv _] _] Hn Hl. pose proof (zlen_nonneg n). rewrite ncopy_blit by zs. replace (Z.to_nat (zlen n)) with (length n) by zs. rewrite take_app_length.
  destruct (blit_total (name v) n 0) as [d1 E1]; [lia..|]. pose proof (blit_zlen _ _ _ _ E1).
  destruct (wr_is_Some d1 (zlen n) 0) as [d E2]; [lia|]. exists d1, d. split; [done|]. split; [done|].
  assert (blit (name v) 0 (n ++ [0]) = Some d) as E.
  { rewrite blit_app, E1 by lia. cbn [mbind option_bind]. by rewrite <- wr_blit, Z.add_0_l. }
  split; [by eapply cstr_blit | by rewrite (blit_zlen _ _ _ _ E)].
Qed.

Lemma bash_set_variable vars count rho n rest val :
  variables_hold vars count rho -> nozero n -> is_text val ->
  exists b vars' count' rho', set_variable vars count (n ++ rest) (zlen n) val = Some (b, vars', count') /\ variables_hold vars' count' rho'.
Proof.
  intros Hh Hn [t Ht]. unfold set_variable. rewrite valid_name_ok. cbn [mbind option_bind].
  destruct (good_name n) eqn:Hg; cbn [negb]; [|by exists false, vars, count, rho].
  rewrite (strlen_cstr _ _ Ht). cbn [mbind option_bind]. destruct (Z.leb_spec BASH_VARIABLE_VALUE_SIZE (zlen t)); [by exists false, vars, count, rho|].
  destruct Hh as (Hl & -> & Hsz & vs & tail & -> & Hf). destruct (bash_find_variable rho vs [] tail n rest Hn Hf) as (i & E & Hi).
  change (zlen []) with 0 in E. cbn [app] in E. replace (Z.to_nat (zlen rho)) with (length rho) by zs. rewrite E. cbn [mbind option_bind].
  destruct (assoc rho n) as [x|].
  - destruct Hi as (rho1 & rho2 & vs1 & v & vs2 & -> & -> & H1 & [Hvn _] & H2 & ->). cbn [app fst] in *. pose proof (zlen_nonneg vs1).
    replace (zlen vs1 =? -1) with false by lia. cbn [negb]. rewrite <- app_assoc in *. cbn [app] in *. rewrite rd_mid. cbn [mbind option_bind].
    apply Forall_app in Hsz as Hsz'. destruct Hsz' as [Hs1 [Hsv Hs2]%Forall_cons].
    destruct (value_stored v n val t Hsv Ht ltac:(lia) Hvn) as (d & -> & Hsd & Hvd). cbn [mbind option_bind]. rewrite wr_mid. cbn [mbind option_bind].
    eexists _, _, _, (rho1 ++ (n, t) :: rho2). split; [done|]. split; [by revert Hl; zs|]. split; [zs|]. split; [apply Forall_app; split; [done|]; by constructor|].
    exists (vs1 ++ BashVariable (name v) d :: vs2), tail. split; [by rewrite <- app_assoc|]. apply Forall2_app; [done|]. by constructor.
  - subst i. change (-1 =? -1) with true. cbn [negb]. destruct (Z.eqb_spec (zlen rho) BASH_VARIABLE_COUNT).
    { exists false, (vs ++ tail), (zlen rho), rho. split; [done|]. split_and!; try done. by exists vs, tail. }
    assert (zlen vs = zlen rho) as Hlv by (unfold zlen; by rewrite (Forall2_length _ _ _ Hf)).
    destruct tail as [|v tail]; [rewrite app_nil_r in Hl; lia|]. rewrite <- Hlv, rd_mid. cbn [mbind option_bind].
    apply Forall_app in Hsz as Hsz'. destruct Hsz' as [Hs1 [Hsv Hs2]%Forall_cons].
    assert (zlen n < BASH_VARIABLE_NAME_SIZE) as Hnl by (unfold good_name in Hg; destruct n; [done|]; rewrite !andb_true_iff in Hg; lia).
    destruct (name_stored v n rest Hsv Hn Hnl) as (d1 & d & -> & E2 & Hd & Hld). cbn [mbind option_bind]. rewrite E2. cbn [mbind option_bind].
    destruct (value_stored (BashVariable d (var_value v)) n val t ltac:(destruct Hsv; split; [split; [done | by exists n] | done]) Ht ltac:(lia) Hd) as (dv & E3 & Hsd & Hvd).
    cbn [var_value name] in *. rewrite E3. cbn [mbind option_bind]. rewrite wr_mid. cbn [mbind option_bind]. change (0 =? 0) with true. cbv iota.
    eexists _, _, _, (rho ++ [(n, t)]). split; [done|]. split; [by revert Hl; zs|]. split; [zs|]. split; [apply Forall_app; split; [done|]; by constructor|].
    exists (vs ++ [BashVariable d dv]), tail. split; [by rewrite <- app_assoc|]. apply Forall2_app; [done|]. constructor; [done | constructor].
Qed.

(** The variables after one that is removed move up; the last one stays behind. *)
Lemma close_gap_ok vs1 v vs2 tail :
  exists x, x ∈ v :: vs2 /\ close_gap (length vs2) (zlen vs1 + 1) (vs1 ++ v :: vs2 ++ tail) = Some (vs1 ++ vs2 ++ x :: tail).
Proof.
  revert vs1 v. induction vs2 as [|v2 vs2 IH]; intros vs1 v; cbn [length close_gap app]; [exists v; by split; [left|]|].
  replace (zlen vs1 + 1) with (zlen (vs1 ++ [v])) by zs.
  replace (vs1 ++ v :: v2 :: vs2 ++ tail) with ((vs1 ++ [v]) ++ v2 :: vs2 ++ tail) by by rewrite <- app_assoc.
  rewrite rd_mid. cbn [mbind option_bind]. rewrite <- app_assoc. cbn [app]. replace (zlen (vs1 ++ [v]) - 1) with (zlen vs1) by zs.
  rewrite wr_mid. cbn [mbind option_bind]. destruct (IH (vs1 ++ [v2]) v2) as (x & Hx & E). exists x. split; [by right|].
  rewrite <- !app_assoc in E. cbn [app] in E. rewrite <- E. f_equal. zs.
Qed.

Lemma unset_loop rho vs pre tail nm n :
  Forall2 variable_is rho vs -> cstr nm n ->
  exists vars' b, unset_name (length rho) (zlen pre) (pre ++ vs ++ tail) (zlen (pre ++ vs)) nm =
      Some (vars', zlen (pre ++ vs) - (if b : bool then 1 else 0)) /\
    if b then exists rho1 r rho2 vs1 v vs2 x, rho = rho1 ++ r :: rho2 /\ vs = vs1 ++ v :: vs2 /\ x ∈ v :: vs2 /\
      vars' = pre ++ vs1 ++ vs2 ++ x :: tail /\ Forall2 variable_is rho1 vs1 /\ Forall2 variable_is rho2 vs2
    else vars' = pre ++ vs ++ tail.
Proof.
  intros H Hn. revert pre. induction H as [|[m y] v rho vs [Hm Hy] H IH]; intros pre; cbn [length unset_name app].
  { exists (pre ++ tail), false. rewrite app_nil_r, Z.sub_0_r. by rewrite ?app_nil_r. }
  rewrite rd_mid. cbn [mbind option_bind]. destruct (strcmp_cstr _ _ _ _ Hm Hn) as (r & -> & _). cbn [mbind option_bind]. destruct (r =? 0).
  - destruct (close_gap_ok pre v vs tail) as (x & Hx & E). replace (Z.to_nat (zlen (pre ++ v :: vs) - (zlen pre + 1))) with (length vs) by zs.
    rewrite E. cbn [mbind option_bind]. eexists _, true. split; [done|]. exists [], (m, y), rho, [], v, vs, x. by split_and!.
  - destruct (IH (pre ++ [v])) as (vars' & b & E & Hb). rewrite <- !app_assoc in E. cbn [app] in E. replace (zlen (pre ++ [v])) with (zlen pre + 1) in E by zs.
    exists vars', b. split; [done|]. destruct b; [|by rewrite <- app_assoc in Hb].
    destruct Hb as (rho1 & r' & rho2 & vs1 & v' & vs2 & x & -> & -> & Hx & -> & H1 & H2).
    exists ((m, y) :: rho1), r', rho2, (v :: vs1), v', vs2, x. rewrite <- app_assoc. split_and!; try done. by constructor.
Qed.

Lemma unset_ok vars count rho nm :
  variables_hold vars count rho -> is_text nm ->
  exists vars' count' rho', unset_name (Z.to_nat count) 0 vars count nm = Some (vars', count') /\ variables_hold vars' count' rho'.
Proof.
  intros (Hl & -> & Hsz & vs & tail & -> & Hf) [n Hn]. destruct (unset_loop rho vs [] tail nm n Hf Hn) as (vars' & b & E & Hb).
  assert (zlen vs = zlen rho) as Hlv by (unfold zlen; by rewrite (Forall2_length _ _ _ Hf)).
  change (zlen []) with 0 in E. cbn [app] in E, Hb. rewrite Hlv in E. replace (Z.to_nat (zlen rho)) with (length rho) by zs. rewrite E. destruct b.
  - destruct Hb as (rho1 & r & rho2 & vs1 & v & vs2 & x & -> & -> & Hx & -> & H1 & H2). eexists _, _, (rho1 ++ rho2). split; [done|].
    split; [revert Hl; zs|]. split; [zs|]. split.
    + apply Forall_app in Hsz as [[Hs1 Hs2]%Forall_app Hst].
      assert (stored x) as Hsx by by apply (proj1 (Forall_forall _ _) Hs2).
      apply Forall_cons in Hs2 as [_ Hs2]. rewrite !Forall_app, Forall_cons. by split.
    + exists (vs1 ++ vs2), (x :: tail). split; [by rewrite <- app_assoc|]. by apply Forall2_app.
  - subst vars'. eexists _, _, rho. split; [done|]. split; [done|]. split; [lia|]. split; [done|]. by exists vs, tail.
Qed.

(** ** Automation *)

Create HintDb bash.
Lemma is_text_nul b : is_text (0 :: b).
Proof. exists []. apply cstr_nil. Qed.

Lemma class_name_text c : is_text (pci_class_to_name c).
Proof. unfold pci_class_to_name. repeat case_match; apply is_text_clit. Qed.
#[export] Hint Resolve is_text_clit is_text_zero is_text_cons is_text_nul class_name_text : bash.

Lemma int_small n : -255 <= n <= 255 -> int n.
Proof. unfold int, INT_MIN, INT_MAX. lia. Qed.
#[export] Hint Extern 1 (int _) => apply int_small; lia : bash.
#[export] Hint Extern 1 (is_text (if _ then _ else _)) => case_match : bash.
#[export] Hint Extern 1 (int (if _ then _ else _)) => case_match; apply int_small; lia : bash.

(** What an operation is known to do comes from the hints. *)
Ltac ok_step :=
  lazymatch goal with
  | |- ok _ _ (mret _) _ => apply ok_ret
  | |- ok _ _ (exit _) _ => apply ok_exit; [first [assumption | solve [eauto with bash]] | solve [eauto with bash]]
  | |- ok _ _ (?m ≫= _) _ =>
      first [eapply ok_bind; [solve [eauto with bash]|let a := fresh "a" in let Ha := fresh "Ha" in intros a Ha; cbv beta in Ha; try subst a]
            | match m with
              | (if _ then _ else _) => apply (ok_bind _ _ _ _ (fun _ => True)); [|intros ? _]
              | match _ with _ => _ end => apply (ok_bind _ _ _ _ (fun _ => True)); [|intros ? _]
              end]
  | |- ok _ _ (if ?b then _ else _) _ => destruct b eqn:?
  | |- ok _ _ (match ?x with _ => _ end) _ => first [progress (cbv beta iota) | is_var x; destruct x | destruct x eqn:?]
  | |- ok _ _ _ _ => solve [eauto with bash | eapply ok_conseq; [solve [eauto with bash] | by intros]]
  | |- True => exact Logic.I
  end.

(** ** The invariant *)

Section Safe.
Context {W : Type} {bash_os : BashOs W} {J : W -> Prop} {laws : BashLaws bash_os J}.
Implicit Types s : bash W.

Definition well s : Prop :=
  J (machine s) /\ int (shell_status s) /\ exists rho, variables_hold (variables s) (variable_count s) rho.

(** A well-formed state with the user [bu] and the directory [d] *)
Definition at_ (bu d : bytes) s : Prop :=
  well s /\ current_user (machine s) = bu /\ fs_dirname (machine s) = Some d.

(** A user and a directory *)
Definition place (bu d u w : bytes) (l : Z) : Prop :=
  cstr bu u /\ zlen u < 63 /\ cstr d (cwd_string l w) /\ (l = 67 \/ l = 68).

Lemma at_well bu d s : at_ bu d s -> well s.
Proof. by intros [? _]. Qed.

Section At.
Context (I : bash W -> Prop) (bu d : bytes).
Abbreviation P := (at_ bu d).
Abbreviation bd := (Some d).
Hypothesis HI : forall s, P s -> I s.

Lemma ask_ok c : steady c = true -> permitted bu bd c -> ok I P (ask c) (answers c).
Proof.
  intros Hst Hp s ((HJ & Hs & Hv) & Hu & Hd). unfold ask. rewrite <- Hu, <- Hd in Hp. destruct (law_call _ _ HJ Hp) as [HJ' Ha].
  destruct (law_steady _ c HJ Hst) as [Hu' Hd']. destruct (os_call (machine s) c) as [r w]. exists (Val r), (set_machine w s). split; [done|].
  split; [|done]. split; [done|]. cbn in *. by rewrite Hu', Hd'.
Qed.

Lemma do_ok c : steady c = true -> permitted bu bd c -> ok I P (do_ c) (fun _ => True).
Proof. intros. eapply ok_bind; [by apply ask_ok|]. intros r _. by apply ok_ret. Qed.

Lemma ask_code_ok c :
  steady c = true -> permitted bu bd c -> (forall r, answers c r -> int (code r)) -> ok I P (ask_code c) int.
Proof. intros. eapply ok_bind; [by apply ask_ok|]. intros r Hr. apply ok_ret. auto. Qed.

Lemma io_print_ok t : is_text t -> ok I P (dogeio_print t) (fun _ => True).
Proof. intros. by apply do_ok. Qed.

Lemma println_ok t : is_text t -> ok I P (dogeio_println t) (fun _ => True).
Proof. intros. by apply do_ok. Qed.

Lemma say_ok t : ok I P (say t) (fun _ => True).
Proof. apply println_ok, is_text_clit. Qed.

Lemma user_ok : ok I P user (fun u => u = bu).
Proof. apply ok_gets. by intros s (_ & ? & _). Qed.

Lemma dirname_ok : ok I P dirname (fun x => x = Some d).
Proof. apply ok_gets. by intros s (_ & _ & ?). Qed.

(** *** Paths *)

(** A path that [authorize_path] accepts *)
Definition cleared (path : bytes) : Prop :=
  granted bu bd path /\ exists o, canonicalize_path bd (Some path) (zeros 256) 256 = Some (Some o).

Section Place.
Context (u w : bytes) (l : Z).
Hypothesis place_is : place bu d u w l.

Lemma user_text : is_text bu.
Proof. destruct place_is as (? & _). by exists u. Qed.

Lemma directory_text : is_text d.
Proof. destruct place_is as (_ & _ & ? & _). by eexists. Qed.

Lemma canonical_cases path p :
  cstr path p ->
  exists r, canonicalize_path bd (Some path) (zeros 256) 256 = Some r /\
    match r with
    | Some o => exists letter, (letter = 67 \/ letter = 68) /\ cstr o (letter :: c_colon :: render (norm (comps is_letter w p)))
    | None => True
    end.
Proof.
  intros Hp. destruct place_is as (_ & _ & Hd & Hl). destruct p as [|c p].
  { exists None. split; [|done]. destruct Hp as (t & -> & _). done. }
  destruct (canonicalize_ok d l w path (c :: p) (zeros 256) 256 Hd) as (r & E & Hr); [by destruct Hl as [->| ->] | done | done | done | lia |].
  exists r. split; [done|]. destruct r as [o|]; [|done]. destruct Hr as (letter & _ & Hbad & Hletter & Ho). exists letter. split; [|done].
  subst letter. unfold bad_drive in Hbad. revert Hbad. destruct (drive_of is_letter (c :: p)) as [[x p']|]; cbn; intros Hbad; [|by destruct Hl as [->| ->]; auto].
  assert (x ∈ [67; 68; 99; 100]) as Hx by by apply dec_stable. rewrite !elem_of_cons, elem_of_nil in Hx.
  destruct Hx as [->|[->|[->|[->|[]]]]]; auto.
Qed.

Lemma resolved_components path p : cstr path p -> Forall component (norm (comps is_letter w p)).
Proof.
  intros Hp. destruct place_is as (_ & _ & Hd & _).
  apply norm_component; [constructor|]. apply comps_component; [by apply (cwd_nozero d l) | by apply cstr_nozero in Hp].
Qed.

Lemma authorize_ok path : is_text path -> ok I P (authorize path) (fun b => b = true -> cleared path).
Proof.
  intros [p Hp]. unfold authorize. eapply ok_bind; [apply user_ok|]. intros ? ->. eapply ok_bind; [apply dirname_ok|]. intros ? ->.
  destruct (canonical_cases path p Hp) as (r & E & Hr). eapply ok_bind; [by apply ok_lift_eq|]. intros ? ->.
  destruct r as [o|]; [|eapply ok_bind; [apply say_ok|]; intros; by apply ok_ret].
  destruct Hr as (letter & Hl & Ho). pose proof (resolved_components path p Hp) as Hc. destruct place_is as (Hu & Hlu & Hdt & _).
  assert (is_letter letter = true) as Hl' by by destruct Hl as [->| ->].
  eapply ok_bind; [apply ok_lift_eq, (access_canonical bu u o letter _ Hu Hlu Hc Hl' Ho)|].
  intros ? ->. destruct (decide (blocked _ _)) as [Hb|Hb]; cbn.
  - eapply ok_bind; [apply say_ok|]. intros. by apply ok_ret.
  - apply ok_ret. intros _. split; [by exists u, d, l, w, p | by exists o].
Qed.

Lemma require_ok path rc : is_text path -> int rc -> ok I P (require_access path rc) (fun _ => cleared path).
Proof using All.
  intros Hp Hrc. eapply ok_bind; [by apply authorize_ok|]. intros [] Hb; [apply ok_ret; auto | by apply ok_exit].
Qed.

(** The two tests of [rm] *)
Lemma protected_ok path :
  is_text path -> cleared path -> exists a b, is_drive_root_path bd (Some path) = Some a /\ is_protected_path bd (Some path) = Some b /\
    (a = false -> b = false -> removable bd path).
Proof.
  intros [p Hp] [_ [o Eo]]. unfold is_drive_root_path, is_protected_path, protected_root. destruct (canonical_cases path p Hp) as (r & E & Hr).
  rewrite E in *. injection Eo as ->. cbn [mbind option_bind]. destruct Hr as (letter & Hl & Ho).
  set (st := norm (comps is_letter w p)) in *.
  assert (forall (t : string) x, nozero (lit t) -> cstr o x -> exists r, str_strcmp o (clit t) = Some r /\ (r = 0 <-> x = lit t)) as Hcmp
    by (intros; apply strcmp_cstr; [done | by apply cstr_clit]).
  assert (cstr (drop 2 o) (render st)) as Hd by (apply (cstr_drop o _ 2 Ho); cbn; lia).
  assert (forall t : string, nozero (lit t) -> exists r, str_strcmp (drop 2 o) (clit t) = Some r /\ (r = 0 <-> render st = lit t)) as Hcmp'
    by (intros; apply strcmp_cstr; [done | by apply cstr_clit]).
  destruct (Hcmp "C:/"%string _ ltac:(by repeat constructor) Ho) as (a1 & -> & Ha1). destruct (Hcmp "D:/"%string _ ltac:(by repeat constructor) Ho) as (a2 & -> & Ha2).
  destruct (Hcmp' "/.windoge"%string ltac:(by repeat constructor)) as (b1 & -> & Hb1). destruct (Hcmp' "/system"%string ltac:(by repeat constructor)) as (b2 & -> & Hb2).
  destruct (Hcmp' "/apps"%string ltac:(by repeat constructor)) as (b3 & -> & Hb3). destruct (Hcmp' "/users"%string ltac:(by repeat constructor)) as (b4 & -> & Hb4).
  cbn [mbind option_bind]. eexists _, _. split; [done|]. split; [done|].
  rewrite !orb_false_iff, !Z.eqb_neq. intros [Hn1 Hn2] [[[Hm1 Hm2] Hm3] Hm4].
  destruct place_is as (_ & _ & Hdt & _). exists d, l, w, p. split_and!; try done. fold st. clearbody st.
  rewrite !not_elem_of_cons. split_and!; [| | | | |apply not_elem_of_nil]; intros ->; [|by apply Hm1, Hb1|by apply Hm2, Hb2|by apply Hm3, Hb3|by apply Hm4, Hb4].
  destruct Hl as [->| ->]; [by apply Hn1, Ha1 | by apply Hn2, Ha2].
Qed.

#[local] Hint Resolve say_ok io_print_ok println_ok user_ok dirname_ok do_ok ask_ok ask_code_ok require_ok : bash.
#[local] Hint Extern 1 (permitted _ _ _) => cbn [permitted]; first [tauto | split; [first [tauto | apply is_text_clit] | reflexivity]] : bash.
#[local] Hint Extern 1 (steady _ = true) => reflexivity : bash.
#[local] Hint Extern 1 (forall r, answers _ r -> int (code r)) => cbn [answers]; tauto : bash.

(** *** Arguments *)

Lemma arg_ok argv i : Forall is_text argv -> 0 <= i < zlen argv -> ok I P (arg argv i) is_text.
Proof.
  intros Ha Hi. apply ok_lift. destruct (rd_is_Some argv i Hi) as [a E]. exists a. split; [done|].
  rewrite rd_lookup in E by lia. by apply (Forall_lookup_1 _ _ _ _ Ha E).
Qed.

Lemma one_of_ok t names : is_text t -> ok I P (lift (is_one_of t names)) (fun _ => True).
Proof. intros [b E]%(fun H => is_one_of_total t names H). apply ok_lift. by exists b. Qed.

Lemma head_ok t : is_text t -> ok I P (lift (rd t 0)) (fun _ => True).
Proof. intros [c E]%rd_head. apply ok_lift. by exists c. Qed.

Lemma strlen_ok t : is_text t -> ok I P (lift (strlen_loop t)) (fun n => exists x, cstr t x /\ n = zlen x).
Proof. intros [x Hx]. apply ok_lift. exists (zlen x). split; [by apply strlen_cstr | by exists x]. Qed.

Lemma history_ok : ok I P (lift (build_history_path bu (zeros 160) 160)) (fun r => match r with Some p => own_history bu p | None => True end).
Proof. destruct place_is as (Hu & _). apply ok_lift. by apply history_total in Hu. Qed.

#[local] Hint Resolve one_of_ok head_ok strlen_ok history_ok user_text directory_text : bash.
#[local] Hint Extern 1 (ok _ _ (arg _ _) _) => apply arg_ok; [assumption | lia] : bash.

Lemma each_argument_ok argv body :
  Forall is_text argv -> (forall a, is_text a -> ok I P (body a) (fun _ => True)) -> ok I P (each_argument argv body) (fun _ => True).
Proof. intros Ha Hb. apply ok_for_loop. intros j Hj. eapply ok_bind; [apply arg_ok; [done | lia] | done]. Qed.

(** *** Variables *)

Lemma each_variable_ok body :
  (forall v, stored v -> ok I P (body v) (fun _ => True)) -> ok I P (each_variable body) (fun _ => True).
Proof.
  intros Hb. apply (ok_bind _ _ _ _ (fun n => n <= BASH_VARIABLE_COUNT)).
  { apply ok_gets. intros s ((_ & _ & rho & Hl & -> & _ & vs & tail & E & Hf) & _). rewrite E, zlen_app in Hl. pose proof (zlen_nonneg tail).
    assert (zlen vs = zlen rho) by (unfold zlen; by rewrite (Forall2_length _ _ _ Hf)). lia. }
  intros n Hn. apply ok_for_loop. intros j Hj.
  apply (ok_bind _ _ _ _ (fun vs => zlen vs = BASH_VARIABLE_COUNT /\ Forall stored vs)).
  { apply ok_gets. by intros s ((_ & _ & rho & Hl & _ & Hs & _) & _). }
  intros vs [Hl Hs]. destruct (rd_is_Some vs j) as [v E]; [lia|]. eapply ok_bind; [by apply ok_lift_eq|]. intros ? ->. apply Hb.
  rewrite rd_lookup in E by lia. by apply (Forall_lookup_1 _ _ _ _ Hs E).
Qed.

(** A change of the variables *)
Lemma change_ok (m : list bash_variable_t -> Z -> option (bool * list bash_variable_t * Z)) :
  (forall vs n rho, variables_hold vs n rho -> exists b vs' n' rho', m vs n = Some (b, vs', n') /\ variables_hold vs' n' rho') ->
  ok I P (vs ← gets variables; n ← gets variable_count; '(b, vs, n) ← lift (m vs n); modify (set_vars vs n);; mret b) (fun _ => True).
Proof.
  intros Hm s ((HJ & Hs & rho & Hh) & Hp). destruct (Hm _ _ _ Hh) as (b & vs' & n' & rho' & E & Hh'). rewrite !bind_gets.
  rewrite (bind_lift _ _ _ _ E), bind_modify. exists (Val b), (set_vars vs' n' s). split; [done|]. split; [|done]. split; [|done].
  split; [done|]. split; [done|]. by exists rho'.
Qed.

Lemma assign_ok n rest val : nozero n -> is_text val -> ok I P (assign (n ++ rest) (zlen n) val) (fun _ => True).
Proof. intros. apply (change_ok (fun vs k => set_variable vs k (n ++ rest) (zlen n) val)). intros vs k rho Hh. by apply (bash_set_variable vs k rho). Qed.

Lemma at_sees s : P s -> exists rho, sees s rho u (cwd_string l w).
Proof.
  intros ((HJ & Hs & rho & Hh) & Hu & Hd). exists rho. split; [done|]. split; [done|]. rewrite Hu, Hd. by destruct place_is as (? & _ & ? & _).
Qed.

Lemma value_text s n rest :
  P s -> n <> [] /\ forallb is_name_char n = true -> exists v, variable_value s (n ++ rest) (zlen n) = Some v /\ is_text v.
Proof.
  intros Hs Hn. destruct (at_sees s Hs) as [rho Hr]. destruct (value_ok s rho u _ n rest Hr (or_intror Hn)) as (v & E & Hv).
  exists v. split; [done|]. by eexists.
Qed.

Lemma build_home_path_ok path cap :
  zlen path = cap -> 0 < cap -> ok I P (build_home_path path cap) (fun r => r.1 = 0 -> is_text r.2).
Proof.
  intros Hl Hc s Hs. unfold build_home_path. destruct (value_text s (lit "HOME") [0] Hs ltac:(done)) as (v & E & Hv).
  change (variable_value s (clit "HOME") 4 = Some v) in E. rewrite E.
  cbn [mbind option_bind]. destruct (strncpy_total path v cap Hv Hl Hc) as (rc & p & E' & _ & _ & Hp). rewrite E'. cbn [mbind option_bind].
  eexists (Val (rc, p)), s. split; [done|]. split; [done|]. intros H0. destruct (Hp H0) as (t & _ & ? & _). by exists t.
Qed.

(** *** Files that are shown, and the history *)

Lemma show_contents_ok n data :
  0 <= n < 8192 -> zlen data <= 8191 -> ok I P (show_contents n data) (fun _ => True).
Proof.
  intros Hn Hd. unfold show_contents. pose proof (zlen_nonneg data).
  assert (zlen (zeros (Z.to_nat 8192)) = 8192) as Hz by (unfold zeros; rewrite zlen_replicate; lia).
  destruct (blit_total (zeros (Z.to_nat 8192)) data 0) as [c E]; [lia..|]. rewrite E. cbn [mbind option_bind]. pose proof (blit_zlen _ _ _ _ E) as Hl.
  destruct (wr_is_Some c n 0) as [c' E']; [lia|]. rewrite E'. pose proof (wr_zlen _ _ _ _ E') as Hl'. eapply ok_bind; [by apply ok_lift_eq|]. intros ? ->.
  eapply ok_bind; [apply io_print_ok, (is_text_rd _ n), (rd_wr_eq _ _ _ _ E')|]. intros _ _.
  apply (ok_bind _ _ _ _ (fun _ => True)); [|intros [] _; by repeat ok_step]. apply ok_lift. destruct (Z.eqb_spec n 0); [by exists false|].
  destruct (rd_is_Some c' (n - 1)) as [x ->]; [lia|]. by eexists.
Qed.

End Place.
End At.

(** *** Functions that return *)

Section Commands.
Context (bu d u w : bytes) (l : Z) (place_is : place bu d u w l).
Abbreviation P := (at_ bu d).
Abbreviation bd := (Some d).

#[local] Hint Resolve say_ok io_print_ok println_ok user_ok dirname_ok do_ok ask_ok ask_code_ok require_ok one_of_ok head_ok strlen_ok history_ok
  show_contents_ok build_home_path_ok user_text directory_text : bash.
#[local] Hint Extern 1 (permitted _ _ _) => unfold cleared in *; cbn [permitted]; first [tauto | split; [first [tauto | apply is_text_clit] | reflexivity]] : bash.
#[local] Hint Extern 1 (steady _ = true) => reflexivity : bash.
#[local] Hint Extern 1 (forall r, answers _ r -> int (code r)) => cbn [answers]; tauto : bash.
#[local] Hint Extern 1 (ok _ _ (arg _ _) _) => apply arg_ok; [assumption | lia] : bash.
#[local] Hint Immediate at_well : bash.

Lemma print_file_ok I path : granted bu bd path \/ own_history bu path -> ok I P (print_file path) int.
Proof.
  intros Hp. apply ok_call. ok_step. destruct Ha as (_ & _ & Hl). cbv zeta. ok_step; [by repeat ok_step|].
  eapply ok_bind; [apply show_contents_ok; lia|]. intros. by repeat ok_step.
Qed.

Lemma show_history_ok I : ok I P show_history int.
Proof.
  apply ok_call. do 3 ok_step; [|by repeat ok_step]. ok_step. destruct Ha0 as (_ & Hc & Hl). cbv zeta. ok_step; [by repeat ok_step|].
  eapply ok_bind; [apply show_contents_ok; lia|]. intros. by repeat ok_step.
Qed.

(** The line with a newline behind it *)
Lemma history_line command t :
  cstr command t -> zlen t <= 255 ->
  exists line data, (l ← ncopy_loop (zeros 257) 0 command (Z.to_nat (zlen t)); wr l (zlen t) c_nl) = Some line /\ slice line 0 (zlen t + 1) = Some data.
Proof.
  intros Ht Hl. pose proof (zlen_nonneg t). pose proof (cstr_zlen _ _ Ht). rewrite ncopy_blit by (unfold zeros; zs).
  destruct (blit_total (zeros 257) (take (Z.to_nat (zlen t)) command) 0) as [b E]; [lia | unfold zeros; zs |]. rewrite E. cbn [mbind option_bind].
  pose proof (blit_zlen _ _ _ _ E) as Hb. change (zlen (zeros 257)) with 257 in Hb. destruct (wr_is_Some b (zlen t) c_nl) as [b' E']; [lia|].
  pose proof (wr_zlen _ _ _ _ E'). exists b'. eexists. split; [done|]. apply slice_Some. split_and!; [lia..|done].
Qed.

Lemma append_history_ok I command : is_text command -> ok I P (append_history command) int.
Proof.
  intros Hc. apply ok_call. ok_step. destruct Ha as (t & Ht & ->). ok_step; [by repeat ok_step|]. do 3 ok_step; [|by repeat ok_step].
  destruct (Z.leb_spec (BASH_LINE_SIZE + 1) (zlen t + 1)); [by repeat ok_step|]. unfold BASH_LINE_SIZE in *.
  destruct (history_line command t Ht ltac:(lia)) as (line & data & E1 & E2). ok_step.
  eapply (ok_bind _ _ _ _ (fun _ => True)); [by repeat ok_step|]. intros _ _.
  eapply ok_bind; [by apply ok_lift_eq|]. intros ? ->. eapply ok_bind; [by apply ok_lift_eq|]. intros ? ->. ok_step.
Qed.
#[local] Hint Resolve print_file_ok show_history_ok append_history_ok : bash.

(** *** Commands *)

Abbreviation returns m := (ok well P (m : M (bash W) unit) (fun _ => False)).

Lemma cmd_drives_ok : returns cmd_drives.
Proof.
  eapply ok_bind; [apply ok_for_loop|intros; by repeat ok_step]. intros j _. repeat ok_step.
Qed.

Lemma cmd_pwd_ok : returns cmd_pwd.
Proof. unfold cmd_pwd. repeat ok_step. Qed.

Lemma print_help_ok : returns print_help.
Proof. unfold print_help. cbn [fold_right help_lines]. repeat ok_step. Qed.

Lemma cmd_raminfo_ok : returns cmd_raminfo.
Proof.
  apply (ok_bind _ _ _ _ (fun m => zlen (uninitialized m) = 32)); [apply ok_gets; intros s ((HJ & _) & _); by apply law_uninitialized|].
  intros m Hm. apply (ok_bind _ _ _ _ (fun n => 0 <= n < 2 ^ 64)); [eapply ok_bind; [by apply ask_ok|]; intros r Hr; by apply ok_ret|]. intros n Hn.
  destruct (uint64_text n (uninitialized m)) as (q & b & E & Hb); [done..|]. eapply ok_bind; [by apply ok_lift_eq|]. intros ? ->. repeat ok_step.
Qed.

Lemma pci_functions_ok k bus slot f : ok well P (pci_functions k bus slot f) (fun _ => True).
Proof.
  revert f. induction k as [|k IH]; intros f; cbn [pci_functions]; [by repeat ok_step|]. repeat ok_step; by try apply IH.
Qed.

Lemma cmd_pci_ok : returns cmd_pci.
Proof.
  unfold cmd_pci. do 2 ok_step. eapply ok_bind; [|intros; by repeat ok_step]. apply ok_for_loop. intros bus _. apply ok_for_loop. intros slot _. apply pci_functions_ok.
Qed.

Lemma cmd_clear_history_ok : returns cmd_clear_history.
Proof. unfold cmd_clear_history. repeat ok_step. Qed.

Lemma cmd_env_ok : returns cmd_env.
Proof.
  unfold cmd_env. do 3 ok_step. eapply ok_bind; [by apply build_home_path_ok with (u := u) (w := w) (l := l)|]. intros [rc home] Hh. cbn [fst snd] in Hh.
  eapply (ok_bind _ _ _ _ (fun _ => True)). { destruct (Z.eqb_spec rc 0); repeat ok_step. } intros _ _.
  do 3 ok_step. eapply ok_bind; [|intros; by repeat ok_step]. apply each_variable_ok. intros v ((_ & ?) & _ & ?). repeat ok_step.
Qed.

Lemma cmd_exit_ok argv : Forall is_text argv -> returns (cmd_exit argv).
Proof.
  intros Ha. apply (ok_bind _ _ _ _ int); [apply ok_gets; by intros s ((_ & ? & _) & _)|]. intros st Hst. ok_step; [by repeat ok_step|].
  apply (ok_bind _ _ _ _ int).
  - ok_step; [|by repeat ok_step]. do 2 ok_step. ok_step; [by repeat ok_step|]. destruct (exit_digits_total a 0) as (r & E & Hr); [done..|].
    eapply ok_bind; [by apply ok_lift_eq|]. intros ? ->. destruct r as [n|]; repeat ok_step. apply int_small. lia.
  - intros n Hn. eapply ok_bind; [|intros; by repeat ok_step]. apply ok_modify. by intros s ((? & ? & ?) & ?).
Qed.

Lemma ls_arguments_ok argv k i h dir :
  Forall is_text argv -> 0 <= i -> i + Z.of_nat k <= zlen argv -> match dir with Some a => is_text a | None => True end ->
  ok well P (ls_arguments k i argv h dir) (fun r => match r.2 with Some a => is_text a | None => True end).
Proof.
  intros Ha. revert i h dir. induction k as [|k IH]; intros i h dir Hi Hk Hd; cbn [ls_arguments]; [by apply ok_ret|].
  do 3 ok_step; [apply IH; (done || lia)|]. ok_step; [by repeat ok_step|]. apply IH; (done || lia).
Qed.

Lemma cmd_ls_ok argv : Forall is_text argv -> 0 < zlen argv -> returns (cmd_ls argv).
Proof.
  intros Ha Hl. eapply ok_bind; [apply ls_arguments_ok; (done || lia)|]. intros [h [a|]] Hr; cbn [snd] in Hr; repeat ok_step.
Qed.

Lemma cmd_echo_ok argv : Forall is_text argv -> returns (cmd_echo argv).
Proof.
  intros Ha. unfold cmd_echo. ok_step; [by repeat ok_step|].
  unfold join_arguments. change (wr (zeros 256) 0 0) with (Some (zeros 256)). cbn [mbind option_bind].
  match goal with |- context [join_loop ?k ?i ?f argv ?o ?c 0] =>
    destruct (join_total argv f c k i o [] Ha) as (r & E & Hr); [apply zeros_cstr; lia | done | by destruct a | destruct a; lia |] end.
  eapply ok_bind; [by apply ok_lift_eq|]. intros ? ->. repeat ok_step.
Qed.

Lemma cmd_cat_ok argv : Forall is_text argv -> returns (cmd_cat argv).
Proof.
  intros Ha. unfold cmd_cat. ok_step; [by repeat ok_step|]. eapply ok_bind; [|intros; by repeat ok_step]. apply each_argument_ok; [done|].
  intros a Ht. do 2 ok_step. eapply (ok_bind _ _ _ _ (fun _ => True)); [|intros; by repeat ok_step]. ok_step; [by repeat ok_step|].
  eapply ok_conseq; [apply print_file_ok; left; by destruct Ha0 | done].
Qed.

Lemma cmd_touch_ok argv : Forall is_text argv -> returns (cmd_touch argv).
Proof.
  intros Ha. unfold cmd_touch. ok_step; [by repeat ok_step|]. eapply ok_bind; [|intros; by repeat ok_step]. apply each_argument_ok; [done|].
  intros a Ht. by repeat ok_step.
Qed.

Lemma cmd_mkdir_ok argv : Forall is_text argv -> returns (cmd_mkdir argv).
Proof. intros Ha. unfold cmd_mkdir. repeat ok_step. Qed.

(** [rm] goes on after its files. *)
Lemma cmd_rm_ok argv : Forall is_text argv -> ok well P (cmd_rm argv) (fun _ => True).
Proof.
  intros Ha. unfold cmd_rm. ok_step; [by repeat ok_step|]. apply each_argument_ok; [done|]. intros a Ht. ok_step. ok_step.
  destruct (protected_ok bu d u w l place_is a Ht Ha0) as (x & y & E1 & E2 & Hr).
  eapply ok_bind; [by apply ok_lift_eq|]. intros ? ->. ok_step; [by repeat ok_step|].
  eapply ok_bind; [by apply ok_lift_eq|]. intros ? ->. ok_step; [by repeat ok_step|]. destruct Ha0 as [Hg _]. specialize (Hr eq_refl eq_refl).
  by repeat ok_step.
Qed.

Lemma cmd_mv_ok argv argv0 : Forall is_text argv -> is_text argv0 -> returns (cmd_mv argv argv0).
Proof.
  intros Ha Ht. unfold cmd_mv. ok_step; [by repeat ok_step|]. do 5 ok_step.
  destruct (protected_ok bu d u w l place_is a Ha0 Ha2) as (x & y & E1 & E2 & Hr).
  eapply ok_bind; [by apply ok_lift_eq|]. intros ? ->. ok_step; [by repeat ok_step|]. do 2 ok_step.
  eapply (ok_bind _ _ _ _ int); [|intros; by repeat ok_step]. destruct a3, a4; repeat ok_step.
Qed.

Lemma input_text r t :
  answers (Input t BASH_LINE_SIZE) r -> exists b, blit (zeros 256) 0 (text r) = Some b /\ is_text b.
Proof.
  intros (_ & (x & y & E & Hx) & Hl). rewrite E in *. unfold BASH_LINE_SIZE in *.
  destruct (blit_total (zeros 256) (x ++ 0 :: y) 0) as [b Eb]; [lia | done |]. exists b. split; [done|].
  apply blit_Some in Eb as (_ & _ & ->). apply is_text_app. rewrite <- app_assoc. apply is_text_zero.
Qed.

Lemma cmd_write_ok argv : Forall is_text argv -> returns (cmd_write argv).
Proof.
  intros Ha. unfold cmd_write. ok_step; [by repeat ok_step|]. do 3 ok_step.
  eapply ok_bind; [apply ok_lift, (input_text _ _ Ha2)|]. intros b Hb. by repeat ok_step.
Qed.

#[local] Hint Extern 1 (is_text (text _)) => cbn [answers] in *; tauto : bash.

Lemma cmd_show_ok c : c = Date \/ c = Time \/ c = Cpuid -> returns (cmd_show c).
Proof. intros Hc. unfold cmd_show. destruct Hc as [->|[->| ->]]; repeat ok_step. Qed.

Lemma cmd_hostname_ok : returns (m ← gets machine; h ← lift (host_name m); dogeio_println h;; exit 0).
Proof.
  apply (ok_bind _ _ _ _ (fun m => is_text (computer_name m))); [apply ok_gets; intros s ((HJ & _) & _); by apply law_computer|].
  intros m Hm. apply (ok_bind _ _ _ _ is_text); [|intros; by repeat ok_step]. apply ok_lift. unfold host_name. destruct (rd_head _ Hm) as [c ->].
  cbn [mbind option_bind]. eexists. split; [done|]. destruct (c =? 0); [apply is_text_clit | done].
Qed.

(** Before the [=] there is the name, after it the value. *)
Lemma assignment_ok t i :
  is_text t -> find_equals t 0 = Some (Some i) -> ok well P (assign t i (drop (Z.to_nat (i + 1)) t)) (fun _ => True).
Proof.
  intros [x Hx] E. destruct (find_equals_ok t x 0 Hx) as (r & E' & Hr). rewrite E in E'. injection E' as <-. destruct Hr as [Hi Hv].
  replace (Z.to_nat (i - 0 + 1)) with (Z.to_nat (i + 1)) in Hv by lia. destruct Hx as (y & -> & Hz).
  assert (nozero (take (Z.to_nat i) x)) as Hn by by apply Forall_take.
  pose proof (assign_ok well bu d (take (Z.to_nat i) x) (drop (Z.to_nat i) x ++ 0 :: y) _ Hn Hv) as H.
  rewrite app_assoc, take_drop in H. by replace (zlen (take (Z.to_nat i) x)) with i in H by zs.
Qed.

Lemma equals_ok t : is_text t -> ok well P (lift (find_equals t 0)) (fun r => find_equals t 0 = Some r).
Proof. intros [x Hx]. destruct (find_equals_ok t x 0 Hx) as (r & E & _). apply ok_lift. by exists r. Qed.

#[local] Hint Resolve assignment_ok equals_ok : bash.

Lemma cmd_assignment_ok t : is_text t -> ok well P (cmd_assignment t) (fun _ => True).
Proof. intros Ht. unfold cmd_assignment. repeat ok_step. Qed.

Lemma cmd_export_ok argv : Forall is_text argv -> returns (cmd_export argv).
Proof.
  intros Ha. unfold cmd_export. ok_step; (eapply ok_bind; [|intros; by repeat ok_step]).
  - apply each_variable_ok. intros v ((_ & ?) & _ & ?). repeat ok_step.
  - apply each_argument_ok; [done|]. intros a Ht. repeat ok_step.
Qed.

Lemma cmd_unset_ok argv : Forall is_text argv -> returns (cmd_unset argv).
Proof.
  intros Ha. unfold cmd_unset. ok_step; [by repeat ok_step|]. eapply ok_bind; [|intros; by repeat ok_step]. apply each_argument_ok; [done|].
  intros a Ht s ((HJ & Hs & rho & Hh) & Hp). destruct (unset_ok _ _ _ a Hh Ht) as (vs & n & rho' & E & Hh'). rewrite !bind_gets, (bind_lift _ _ _ _ E).
  exists (Val tt), (set_vars vs n s). split; [done|]. split; [|done]. split; [|done]. split; [done|]. split; [done|]. by exists rho'.
Qed.

Lemma names_total t x :
  cstr t x -> zlen x < 250 ->
  (exists b, packed_name t = Some b) /\ (4 < zlen x -> (exists b, unpacked_name t (zlen x) = Some b)) /\ exists b, is_archive t (zlen x) = Some b.
Proof.
  intros Hx Hl. destruct (strcpy_cstr (zeros 256) t x Hx) as (c & E & Hc & Hlc); [unfold zeros; zs|]. change (zlen (zeros 256)) with 256 in Hlc.
  unfold packed_name, unpacked_name, is_archive. rewrite E. cbn [mbind option_bind]. split_and!.
  - destruct (strcat_cstr c x (clit ".lz4") (lit ".lz4") Hc) as (b & E' & _); [apply cstr_clit; by repeat constructor | change (zlen (lit ".lz4")) with 4; lia | by exists b].
  - intros H4. apply wr_is_Some. lia.
  - destruct (Z.ltb_spec 4 (zlen x)); [|by exists false]. destruct (strcmp_total (drop (Z.to_nat (zlen x - 4)) t) (clit ".lz4")) as [r ->]; [|apply is_text_clit|by eexists].
    exists (drop (Z.to_nat (zlen x - 4)) x). apply cstr_drop; [done|zs].
Qed.

Lemma cmd_pack_ok argv : Forall is_text argv -> returns (cmd_pack argv).
Proof.
  intros Ha. unfold cmd_pack. ok_step; [by repeat ok_step|]. ok_step; [by repeat ok_step|].
  eapply (ok_bind _ _ _ _ (fun b => b = true -> zlen argv = 2)); [ok_step; [|by repeat ok_step]; do 2 ok_step; ok_step; lia|].
  intros usable Hu. destruct usable; cbn [negb]; [|by repeat ok_step]. specialize (Hu eq_refl). ok_step. ok_step. ok_step; [by repeat ok_step|]. ok_step; [by repeat ok_step|].
  ok_step. destruct Ha2 as (x & Hx & ->). cbv zeta. destruct (Z.leb_spec 250 (zlen x)); [by repeat ok_step|].
  destruct (names_total _ x Hx ltac:(lia)) as ([b1 E1] & H2 & [b3 E3]). eapply ok_bind; [by apply ok_lift_eq|]. intros ? ->.
  assert (b3 = true -> 4 < zlen x) as H4 by (unfold is_archive in E3; destruct (Z.ltb_spec 4 (zlen x)); congruence).
  destruct b3; ok_step.
  - destruct (H2 (H4 eq_refl)) as [b2 E2]. eapply ok_bind; [by apply ok_lift_eq|]. intros ? ->. by repeat ok_step.
  - eapply ok_bind; [by apply ok_lift_eq|]. intros ? ->. by repeat ok_step.
Qed.

(** *** Calls after which the user or the directory may be another *)

Lemma call_any c : permitted bu bd c -> forall s, P s -> exists r s', ask c s = Some (Val r, s') /\ well s' /\ answers c r.
Proof.
  intros Hp s ((HJ & Hs & Hv) & Hu & Hd). unfold ask. rewrite <- Hu, <- Hd in Hp. destruct (law_call _ _ HJ Hp) as [HJ' Ha].
  destruct (os_call (machine s) c) as [r m]. by exists r, (set_machine m s).
Qed.

Lemma well_at s : well s -> exists bu d u w l, place bu d u w l /\ at_ bu d s.
Proof.
  intros Hs. pose proof Hs as (HJ & _ & _). destruct (law_user _ HJ) as (u' & Hu & Hlu). destruct (law_directory _ HJ) as (d' & l' & w' & Hd & Hdt & Hl).
  by exists (current_user (machine s)), d', u', w', l'.
Qed.

Lemma leaves_any {A} (m : M (bash W) A) :
  (forall bu d u w l, place bu d u w l -> ok well (at_ bu d) m (fun _ => False)) -> leaves well well m.
Proof.
  intros Hm s (bu' & d' & u' & w' & l' & Hp & Hs)%well_at. destruct (Hm _ _ _ _ _ Hp s Hs) as ([a|rc] & s' & E & Ho); [by destruct Ho|]. by exists (Ret rc), s'.
Qed.

Lemma last_call {A} c (k : reply -> M (bash W) A) R :
  permitted bu bd c -> (forall r, answers c r -> leaves well well (k r)) -> ok well P (ask c ≫= k) R.
Proof. intros Hp Hk. apply (ok_last _ _ _ _ (answers c)); [by apply call_any | done]. Qed.

Lemma last_do {A} c (k : M (bash W) A) R : permitted bu bd c -> leaves well well k -> ok well P (do_ c;; k) R.
Proof.
  intros Hp Hk. apply (ok_last _ _ _ _ (fun _ => True)); [|done]. intros s Hs. destruct (call_any c Hp s Hs) as (r & s' & E & Hw & _).
  exists tt, s'. unfold do_. by rewrite (bind_val _ _ _ _ _ E).
Qed.

Lemma last_code {A} c (k : Z -> M (bash W) A) R :
  permitted bu bd c -> (forall r, answers c r -> int (code r)) -> (forall n, int n -> leaves well well (k n)) -> ok well P (ask_code c ≫= k) R.
Proof.
  intros Hp Hi Hk. apply (ok_last _ _ _ _ int); [|done]. intros s Hs. destruct (call_any c Hp s Hs) as (r & s' & E & Hw & Ha).
  exists (code r), s'. unfold ask_code. rewrite (bind_val _ _ _ _ _ E). auto.
Qed.

Lemma leaves_exit {A} rc : int rc -> leaves well well (exit rc : M (bash W) A).
Proof. intros Hrc. by apply ok_exit. Qed.

#[local] Hint Resolve leaves_exit : bash.

Lemma cmd_select_ok t : is_text t -> returns (cmd_select t).
Proof.
  intros Ht. unfold cmd_select. ok_step. cbv zeta. apply last_code; [done | by intros|]. intros n Hn. apply leaves_any. intros. repeat ok_step.
Qed.

Lemma cmd_dogestore_ok argv : returns (cmd_dogestore argv).
Proof. unfold cmd_dogestore. ok_step; [by repeat ok_step|]. apply last_code; [done | by intros|]. intros n Hn. by apply leaves_exit. Qed.

Lemma cmd_sleep_ok : returns cmd_sleep.
Proof.
  unfold cmd_sleep. ok_step. apply last_do; [by right|]. apply leaves_any. intros. repeat ok_step.
Qed.

Lemma cmd_run_ok argv : Forall is_text argv -> returns (cmd_run argv).
Proof.
  intros Ha. unfold cmd_run. ok_step; [by repeat ok_step|]. do 3 ok_step. ok_step; [by repeat ok_step|]. apply last_do; [left; by destruct Ha1 | by apply leaves_exit, int_small].
Qed.

Lemma apps_editor : application (clit "/apps/editor.elf").
Proof. exists (lit "editor.elf"). split; [by repeat constructor|]. left. apply (cstr_clit "/apps/editor.elf"). by repeat constructor. Qed.

Lemma root_editor : application (clit "/editor.elf").
Proof. exists (lit "editor.elf"). split; [by repeat constructor|]. right. apply (cstr_clit "/editor.elf"). by repeat constructor. Qed.

Lemma cmd_edit_ok argv : Forall is_text argv -> returns (cmd_edit argv).
Proof.
  intros Ha. pose proof apps_editor. pose proof root_editor. unfold cmd_edit. ok_step; [by repeat ok_step|]. do 2 ok_step. ok_step; [by repeat ok_step|].
  ok_step. ok_step; [by repeat ok_step|]. do 2 ok_step. eapply (ok_bind _ _ _ _ (fun _ => True)); [by repeat ok_step|]. intros rc _. ok_step; [by repeat ok_step|].
  ok_step. cbv zeta. match goal with |- context [Exists_ ?x] => set (editor := x) end. assert (application editor) as He by (unfold editor; by case_match).
  ok_step. ok_step; [by repeat ok_step|]. apply last_do; [|by apply leaves_exit, int_small]. split; [by right | by repeat constructor].
Qed.

Lemma cd_target_ok argv : Forall is_text argv -> 0 < zlen argv <= 2 -> ok well P (cd_target argv) (fun r => is_text r.1).
Proof.
  intros Ha Hl. unfold cd_target. eapply (ok_bind _ _ _ _ (fun b : bool => b = false -> zlen argv = 2)).
  { destruct (Z.eqb_spec (zlen argv) 1); [by apply ok_ret|]. ok_step. eapply ok_conseq; [by apply one_of_ok|]. intros. lia. }
  intros home Hh. destruct home.
  - eapply ok_bind; [by apply build_home_path_ok with (u := u) (w := w) (l := l)|]. intros [rc path] Hp. cbn [fst snd] in Hp.
    destruct (Z.eqb_spec rc 0); cbn [negb]; [apply ok_ret; by apply Hp | by repeat ok_step].
  - specialize (Hh eq_refl). do 2 ok_step. ok_step; [|by apply ok_ret]. eapply (ok_bind _ _ _ _ is_text).
    { intros s Hs. destruct (value_text bu d u w l place_is s (lit "OLDPWD") [0] Hs ltac:(done)) as (v & E & Hv).
      change (variable_value s (clit "OLDPWD") 6 = Some v) in E. exists (Val v), s. by rewrite E. }
    intros old Hold. destruct (strncpy_total (zeros 256) old 256 Hold eq_refl ltac:(lia)) as (rc & p & E & _ & _ & Hp).
    eapply ok_bind; [by apply ok_lift_eq|]. intros ? ->. destruct (Z.eqb_spec rc 0); cbn [negb]; [|by repeat ok_step].
    apply ok_ret. destruct (Hp e) as (t & _ & ? & _). by exists t.
Qed.

(** The directory [cd] leaves is kept in [OLDPWD]. *)
Lemma cmd_cd_ok argv : Forall is_text argv -> 0 < zlen argv -> returns (cmd_cd argv).
Proof.
  intros Ha Hl. unfold cmd_cd. ok_step; [by repeat ok_step|]. eapply ok_bind; [apply cd_target_ok; [done|lia]|]. intros [target pd] Ht. cbn [fst] in Ht.
  ok_step. ok_step. destruct (strncpy_total (zeros 256) d 256) as (rc & p & E & _ & _ & Hp); [by eauto with bash|done|lia|].
  rewrite E. cbn [mbind option_bind]. eapply ok_bind; [by apply ok_lift_eq|]. intros ? ->. destruct (Z.eqb_spec rc 0) as [->|]; [|by repeat ok_step].
  assert (is_text p) as Hpt by (destruct (Hp eq_refl) as (t & _ & ? & _); by exists t).
  apply last_code; [by destruct Ha0 | by intros|]. intros n Hn. apply leaves_any. intros bu' d' u' w' l' Hplace. ok_step; [by repeat ok_step|]. ok_step.
  eapply (ok_bind _ _ _ _ (fun _ => True)); [by apply (assign_ok well bu' d' (lit "OLDPWD") [0]); [repeat constructor|]|]. intros b _.
  eapply (ok_bind _ _ _ _ (fun _ => True)); [destruct b; [|by apply ok_ret]; apply (assign_ok well bu' d' (lit "PWD") [0]); [by repeat constructor | by eauto with bash]|].
  intros b' _. repeat ok_step.
Qed.

(** *** Programs *)

Lemma separator_total t x :
  cstr t x -> exists b, has_separator t = Some b /\ (b = false -> Forall (fun c => c <> c_slash) x).
Proof.
  intros Hx. cstr_ind Hx; cbn [has_separator]; [by exists false|]. rewrite (eqb_neq _ 0) by done.
  destruct ((x0 =? c_slash) || (x0 =? c_backslash)) eqn:E; [by exists true|]. apply orb_false_iff in E as [E _]. destruct (IH _ Hx) as (b & -> & Hb).
  exists b. split; [done|]. intros Hf. constructor; [lia | auto].
Qed.

Lemma extension_total t x : cstr t x -> exists b, has_extension t (zlen x) = Some b.
Proof.
  intros Hx. unfold has_extension. destruct (Z.leb_spec 4 (zlen x)); [|by exists false].
  rewrite !(cstr_rd t x) by (done || lia). cbn [mbind option_bind]. by eexists.
Qed.

Lemma app_name_ok t x : cstr t x -> zlen x < 124 ->
  ok well P (lift (app_name_of t (zlen x))) (fun r => match r with Some n => is_text n | None => True end).
Proof.
  intros Hx Hl. apply ok_lift. unfold app_name_of. destruct (extension_total t x Hx) as [e ->]. cbn [mbind option_bind].
  destruct (strncpy_total (zeros 128) t 128 ltac:(by exists x) eq_refl ltac:(lia)) as (rc & b & -> & _ & Hlb & Hb). cbn [mbind option_bind].
  destruct (Z.eqb_spec rc 0) as [->|]; cbn [negb]; [|by exists None]. destruct (Hb eq_refl) as (y & Hy & Hb' & _).
  assert (y = x) as -> by exact (cstr_inj t y x Hy Hx).
  destruct e; [eexists; split; [done|]; by exists x|].
  destruct (append_total 128 b x (clit ".elf") Hb' Hlb (is_text_clit _)) as (r & -> & Hr). unfold try. cbn [mbind option_bind].
  destruct r as [[b2 n]|]; [|by exists None]. eexists. split; [done|]. destruct Hr as (z & _ & ? & _). by eexists.
Qed.

Lemma app_path_total (p : string) n x :
  nozero (lit p) -> zlen (lit p) < 256 -> cstr n x ->
  exists r, app_path (clit p) n (zlen (lit p)) = Some r /\ match r with Some b => cstr b (lit p ++ x) | None => True end.
Proof.
  intros Hp Hl Hx. unfold app_path. unfold clit. destruct (blit_total (zeros 256) (lit p ++ [0]) 0) as [b E]; [lia | change (zlen (zeros 256)) with 256; zs |].
  rewrite E. cbn [mbind option_bind]. assert (zlen b = 256) as Hlb by by rewrite (blit_zlen _ _ _ _ E). apply cstr_blit in E; [|done].
  pose proof (append_text_cap 256 b (lit p) n x E Hlb Hx) as H. destruct (_ <? _) in H; [|rewrite H; by exists None].
  destruct H as (b2 & -> & Hb2 & _). unfold try. cbn [mbind option_bind]. by eexists.
Qed.

Lemma not_found_ok t : is_text t -> returns (not_found t).
Proof. intros Ht. unfold not_found. repeat ok_step. Qed.

Lemma run_path_ok argv t n : Forall is_text argv -> is_text t -> ok well P (run_path argv t n) (fun _ => True).
Proof.
  intros Ha Ht. unfold run_path. ok_step; [by repeat ok_step|]. do 2 ok_step. ok_step; [|by repeat ok_step].
  apply last_do; [|by apply leaves_exit, int_small]. split; [left; by destruct Ha0 | by apply Forall_drop].
Qed.

Lemma run_app_ok argv t x : Forall is_text argv -> cstr t x -> zlen x < 124 -> ok well P (run_app argv t (zlen x)) (fun _ => True).
Proof.
  intros Ha Hx Hl. unfold run_app. eapply ok_bind; [by apply app_name_ok|]. intros [n|] Hn; [|by repeat ok_step]. destruct Hn as [y Hy].
  destruct (separator_total n y Hy) as (b & E & Hb). eapply ok_bind; [by apply ok_lift_eq|]. intros ? ->. destruct b; [by repeat ok_step|]. specialize (Hb eq_refl).
  destruct (app_path_total "/apps/" n y ltac:(by repeat constructor) ltac:(done) Hy) as (r1 & E1 & Hr1). change (zlen (lit "/apps/")) with 6 in E1.
  destruct (app_path_total "/" n y ltac:(by repeat constructor) ltac:(done) Hy) as (r2 & E2 & Hr2). change (zlen (lit "/")) with 1 in E2.
  eapply ok_bind; [by apply ok_lift_eq|]. intros ? ->. destruct r1 as [p1|]; [|by repeat ok_step].
  assert (application p1) by (exists y; split; [done | by left]). ok_step.
  eapply (ok_bind _ _ _ _ application).
  { ok_step; [|by apply ok_ret]. eapply ok_bind; [by apply ok_lift_eq|]. intros ? ->. destruct r2 as [p2|]; [|by repeat ok_step].
    apply ok_ret. exists y. split; [done | by right]. }
  intros path Hp. ok_step. ok_step; [|by apply ok_ret]. apply last_do; [|by apply leaves_exit, int_small]. split; [by right | by apply Forall_drop].
Qed.

Lemma run_program_ok argv t : Forall is_text argv -> is_text t -> returns (run_program argv t).
Proof.
  intros Ha Ht. unfold run_program. ok_step. apply (ok_bind _ _ _ _ (fun _ => True)); [|intros; by apply not_found_ok].
  ok_step; [by repeat ok_step|]. ok_step. destruct Ha1 as (x & Hx & ->). destruct (separator_total t x Hx) as (b & E & _).
  eapply ok_bind; [by apply ok_lift_eq|]. intros ? ->. destruct b; [by apply run_path_ok|]. destruct (Z.leb_spec 124 (zlen x)); [|by apply run_app_ok].
  eapply ok_conseq; [by apply not_found_ok | done].
Qed.

(** ** A command *)

Context (nested : M (bash W) unit) (nested_ok : forall s, well s -> exists s', nested s = Some (Val tt, s') /\ well s').

Lemma on_ok t names m : is_text t -> ok well P m (fun _ => True) -> ok well P (on t names m) (fun _ => True).
Proof. intros Ht Hm. unfold on. ok_step. ok_step; [done | by repeat ok_step]. Qed.

Lemma on_returns t names m : is_text t -> returns m -> ok well P (on t names m) (fun _ => True).
Proof. intros Ht Hm. apply on_ok; [done|]. by eapply ok_conseq. Qed.

Lemma ok_seq (m k : M (bash W) unit) : ok well P m (fun _ => True) -> ok well P k (fun _ => True) -> ok well P (m;; k) (fun _ => True).
Proof. intros Hm Hk. by eapply ok_bind. Qed.

Lemma cmd_nested_ok : returns (nested;; modify (set_exit false);; exit 0).
Proof.
  apply (ok_last _ _ _ _ (fun _ => True)); [intros s (? & E & ?)%at_well%nested_ok; by eexists _, _|]. intros _ _ s Hs.
  eexists (Ret 0), _. split; [done|]. split; [done | by apply int_small].
Qed.

#[local] Hint Resolve cmd_drives_ok cmd_pwd_ok print_help_ok cmd_raminfo_ok cmd_pci_ok cmd_clear_history_ok cmd_env_ok cmd_exit_ok cmd_ls_ok cmd_echo_ok
  cmd_cat_ok cmd_touch_ok cmd_mkdir_ok cmd_rm_ok cmd_mv_ok cmd_write_ok cmd_show_ok cmd_assignment_ok cmd_export_ok cmd_unset_ok cmd_pack_ok cmd_select_ok
  cmd_dogestore_ok cmd_sleep_ok cmd_run_ok cmd_edit_ok cmd_cd_ok cmd_nested_ok : bash.

Section Argv.
Context (argv : list bytes) (argv0 : bytes) (argv_ok : Forall is_text argv) (argc_ok : 0 < zlen argv) (argv0_ok : is_text argv0).

(** Every command of a list of guarded commands *)
Ltac commands := repeat apply ok_seq; (apply on_returns; [done|]); try solve [auto with bash | repeat ok_step | apply last_do; [done | by apply leaves_exit, int_small]].

Lemma file_commands_ok : ok well P (file_commands argv argv0) (fun _ => True).
Proof. unfold file_commands. repeat apply ok_seq; first [by apply on_ok; [|apply cmd_rm_ok] | apply on_returns; auto with bash]. Qed.

Lemma info_commands_ok : ok well P (info_commands argv0) (fun _ => True).
Proof. unfold info_commands. commands. apply cmd_hostname_ok. Qed.

Lemma shell_commands_ok : ok well P (shell_commands nested argv argv0) (fun _ => True).
Proof. unfold shell_commands. commands. Qed.

End Argv.

Lemma execute_body argv : Forall is_text argv -> 0 < zlen argv ->
  forall s, P s -> exists rc s', execute_command nested argv s = Some (Val rc, s') /\ well s' /\ int rc.
Proof.
  intros Ha Hl. unfold execute_command. apply (ok_fn _ _ (at_well bu d)). replace (zlen argv =? 0) with false by lia.
  eapply ok_bind; [by apply (ok_ret _ _ tt (fun _ => True))|]. intros _ _. eapply ok_bind; [apply arg_ok; [done|lia]|]. intros t Ht.
  do 3 (eapply ok_bind; [first [by apply cmd_assignment_ok | apply on_returns; [done|]; auto with bash]|intros _ _]).
  do 7 (eapply ok_bind; [apply on_returns; [done|]; solve [auto with bash | repeat ok_step]|intros _ _]).
  eapply ok_bind; [by apply file_commands_ok|]. intros _ _. eapply ok_bind; [by apply info_commands_ok|]. intros _ _.
  eapply ok_bind; [by apply shell_commands_ok|]. intros _ _. eapply ok_bind; [by apply run_program_ok|]. by intros ? [].
Qed.

End Commands.

(** ** A command line *)

Section Line.
Context (nested : M (bash W) unit) (nested_ok : forall s, well s -> exists s', nested s = Some (Val tt, s') /\ well s').

Lemma execute_ok argv s :
  Forall is_text argv -> 0 < zlen argv -> well s -> exists rc s', execute_command nested argv s = Some (Val rc, s') /\ well s' /\ int rc.
Proof. intros Ha Hl (bu & d & u & w & l & Hp & Hs)%well_at. by eapply execute_body. Qed.

(** No early return: [I] is arbitrary. *)
Section Rounds.
Context (I : bash W -> Prop).

Lemma any_ok {A} (m : M (bash W) A) (Q : A -> Prop) :
  (forall bu d u w l, place bu d u w l -> ok I (at_ bu d) m Q) -> ok I well m Q.
Proof.
  intros Hm s (bu & d & u & w & l & Hp & Hs)%well_at. destruct (Hm _ _ _ _ _ Hp s Hs) as ([a|rc] & s' & E & Ho); eexists _, s'; (split; [done|]); [|done].
  destruct Ho as [? ?]. by split; [eapply at_well|].
Qed.

Lemma say_any t : ok I well (say t) (fun _ => True).
Proof. apply any_ok. intros. apply say_ok. Qed.

Definition status_of (r : Z + Z) : Z := match r with inl n | inr n => n end.

Lemma run_segment_ok t status :
  nozero t -> quiet t 0 = true -> int status -> ok I well (run_segment nested (t ++ [0]) status) (fun r => int (status_of r)).
Proof.
  intros Hz Hq Hst s Hs. destruct (well_at s Hs) as (bu & d & u & w & l & Hp & Ha). destruct (at_sees bu d u w l Hp s Ha) as [rho Hr].
  destruct (run_segment_words nested s rho u _ t [] status Hr Hz Hq) as [E Hw]. rewrite E. clear E Hr.
  assert (ok I well (say "bash: syntax error or command line too long";; mret (inr 2)) (fun r : Z + Z => int (status_of r))) as Hno.
  { eapply ok_bind; [apply say_any|]. intros. apply ok_ret. by apply int_small. }
  unfold run_words. destruct (words _ t) as [ws|]; [|by apply Hno]. destruct (fits_arrays 256 ws); [|by apply Hno].
  destruct ws as [|x ws]; [by eexists (Val _), s|]. specialize (Hw _ eq_refl).
  destruct (execute_ok (arguments_of (x :: ws)) s) as (rc & s' & E & Hs' & Hrc); [| |done|].
  - apply Forall_forall. intros y Hy. apply list_elem_of_lookup in Hy as [i Hi]. destruct (Forall2_lookup_l _ _ _ _ _ Hw Hi) as (z & _ & Hz'). by exists z.
  - unfold arguments_of. rewrite suffixes_length. zs.
  - rewrite (bind_val _ _ _ _ _ E), bind_modify. eexists (Val (inl rc)), _. split; [done|]. split; [|done]. by destruct Hs' as (? & ? & ?).
Qed.

(** What is found from [i] on in the text [x]: its segment is quiet. *)
Definition found (x : bytes) (i q : Z) (r : option (Z * Z * token_type_t)) : Prop :=
  match r with
  | Some (e, n, ty) => i <= e /\ 0 <= n /\ e + n <= i + zlen x /\ quiet (take (Z.to_nat (e - i)) x) q = true /\ (n = 0 -> ty = TOKEN_WORD)
  | None => True
  end.

(** A longer text, when what precedes is quiet *)
Lemma found_more y x i q q' r :
  (forall z, quiet z q' = true -> quiet (y ++ z) q = true) -> found x (i + zlen y) q' r -> found (y ++ x) i q r.
Proof.
  intros Hq. destruct r as [[[e n] ty]|]; [|done]. cbn [found]. intros (H1 & H2 & H3 & H4 & H5). pose proof (zlen_nonneg y). split_and!; [lia | lia | zs | | done].
  replace (Z.to_nat (e - i)) with (length y + Z.to_nat (e - (i + zlen y)))%nat by zs. rewrite take_app_add. by apply Hq.
Qed.

Lemma operator_found c x t i :
  cstr t x -> c <> 0 -> exists r, (next ← (if c =? c_semicolon then Some 0 else rd t 0); let '(ty, n) := operator_at c next in Some (Some (i, n, ty))) = Some r /\
    found (c :: x) i 0 r.
Proof.
  intros Hx Hc. pose proof (zlen_nonneg x). assert (exists a, (if c =? c_semicolon then Some 0 else rd t 0) = Some a /\ (a = c -> 0 < zlen x)) as (a & -> & Ha).
  { destruct (c =? c_semicolon); [by exists 0; split; [|intros <-]|]. apply cstr_inv in Hx as [(-> & t' & ->) | (y & x' & t' & -> & -> & _)].
    - exists 0. by split; [|intros <-].
    - exists y. split; [done|]. zs. }
  cbn [mbind option_bind]. unfold operator_at. assert (forall n ty, n = 1 \/ n = 2 /\ a = c -> found (c :: x) i 0 (Some (i, n, ty))) as Hf.
  { intros n ty Hn. cbn [found]. rewrite Z.sub_diag. rewrite zlen_cons. destruct Hn as [->|[-> E]]; [|specialize (Ha E)]; split_and!; (done || lia). }
  destruct (c =? c_semicolon); [eexists; split; [done|]; apply Hf; by left|].
  destruct (((c =? c_and) || (c =? c_bar)) && (a =? c)) eqn:E1; [eexists; split; [done|]; apply Hf; right; lia|].
  destruct (((c =? c_less) || (c =? c_greater)) && (a =? c)) eqn:E2; [eexists; split; [done|]; apply Hf; right; lia|]. eexists. split; [done|]. apply Hf. by left.
Qed.

(** The end of the first segment and its operator *)
Lemma next_operator_ok t x i q : cstr t x -> exists r, find_next_operator t i q = Some r /\ found x i q r.
Proof.
  remember (length x) as k eqn:Hk. revert t x Hk i q. induction k as [k IH] using lt_wf_ind. intros t x Hk i q Hx.
  apply cstr_inv in Hx as [(-> & t' & ->) | (c & x' & t' & -> & -> & Hc & Hx)]; cbn [find_next_operator].
  { change (0 =? 0) with true. cbv iota. destruct (q =? 0) eqn:E; cbn [negb]; [|by exists None]. eexists. split; [done|]. cbn [found]. rewrite Z.sub_diag. cbn.
    split_and!; (done || lia). }
  assert (forall q', (forall z, quiet z q' = true -> quiet (c :: z) q = true) -> exists r, find_next_operator t' (i + 1) q' = Some r /\ found (c :: x') i q r) as IHt.
  { intros q' Hq. destruct (IH (length x') ltac:(cbn in Hk; lia) t' x' eq_refl (i + 1) q' Hx) as (r & E & Hr). exists r. split; [done|]. by apply (found_more [c] x' i q q'). }
  rewrite (eqb_neq c 0 Hc). fold (is_quote_char c). cbn [quiet] in IHt. destruct ((c =? c_backslash) && negb (q =? c_squote)) eqn:E1.
  { apply cstr_inv in Hx as [(-> & t2 & ->) | (e & x2 & t2 & -> & -> & He & Hx)]; [by exists None|]. rewrite (eqb_neq e 0 He).
    destruct (IH (length x2) ltac:(cbn in Hk; lia) t2 x2 eq_refl (i + 2) q Hx) as (r & E & Hr). exists r. split; [done|].
    apply (found_more [c; e] x2 i q q); [|done]. intros z Hz. cbn [app quiet]. by rewrite E1. }
  destruct (Z.eqb_spec q 0) as [->|]; cbn [negb] in *; [|by apply IHt]. destruct (is_quote_char c) eqn:E2; [by apply IHt|].
  destruct (is_operator c) eqn:E3; [by apply operator_found | by apply IHt].
Qed.

Lemma skip_blank_total t y i : cstr t y -> exists m, skip_blank t i = Some m /\ i <= m <= i + zlen y.
Proof.
  intros Hy. revert i. cstr_ind Hy; intros i; cbn [skip_blank]; [exists i; split; [done|]; rewrite zlen_nil; lia|].
  destruct (_ || _); [|eexists; split; [done|]; rewrite zlen_cons; match goal with |- context [zlen ?y] => pose proof (zlen_nonneg y) end; lia].
  destruct (IH _ Hy (i + 1)) as (m & -> & Hm). exists m. split; [done|]. rewrite zlen_cons. lia.
Qed.

Lemma fail_line_ok t : ok I well (fail_line t) int.
Proof. eapply ok_bind; [apply say_any|]. intros. apply ok_ret. by apply int_small. Qed.

Lemma slice_text x j i e :
  0 <= i <= e -> e <= zlen x -> slice (x ++ 0 :: j) i (e - i) = Some (take (Z.to_nat (e - i)) (drop (Z.to_nat i) x)).
Proof.
  intros Hi He. apply slice_Some. split_and!; [lia | lia | zs |]. rewrite drop_app_le by zs. rewrite take_app_le; [done|]. rewrite length_drop. zs.
Qed.

Lemma line_ok x j fuel i status execute req :
  nozero x -> 0 <= i <= zlen x -> zlen x - i <= Z.of_nat fuel -> int status ->
  ok I well (line_loop nested fuel (x ++ 0 :: j) (zlen x) i status execute req) int.
Proof.
  intros Hx. revert i status execute req. induction fuel as [|fuel IH]; intros i status execute req Hi Hf Hst; cbn [line_loop];
    (eapply (ok_bind _ _ _ _ (fun _ => True)); [by apply ok_gets|]; intros stop _; destruct (_ || _) eqn:Ei; [by apply ok_ret|]; apply orb_false_iff in Ei as [Ei _]); [lia|].
  assert (forall k, 0 <= k <= zlen x -> cstr (drop (Z.to_nat k) (x ++ 0 :: j)) (drop (Z.to_nat k) x)) as Hd
    by (intros k Hk; apply cstr_drop; [by exists j | zs]).
  destruct (next_operator_ok _ _ i 0 (Hd i Hi)) as (r & E & Hr). eapply ok_bind; [by apply ok_lift_eq|]. intros ? ->.
  destruct r as [[[e n] ty]|]; [|apply fail_line_ok]. destruct Hr as (He & Hn & Hen & Hq & Hty).
  assert (zlen (drop (Z.to_nat i) x) = zlen x - i) as Hl by zs. rewrite Hl in Hen.
  eapply ok_bind; [apply ok_lift_eq, slice_text; lia|]. intros ? ->. set (seg := take _ _) in *.
  assert (nozero seg) as Hz by by apply Forall_take, Forall_drop.
  eapply (ok_bind _ _ _ _ (fun r => int (status_of r))).
  { destruct (execute && has_command seg); [by apply run_segment_ok|]. destruct (_ && _ && _); [|by apply ok_ret].
    eapply ok_bind; [apply fail_line_ok|]. intros rc Hrc. by apply ok_ret. }
  intros [st|st] Hs; cbn [status_of] in Hs; [|by apply ok_ret]. cbv zeta. destruct (req && negb (has_command seg)); [apply fail_line_ok|].
  destruct (Z.eqb_spec n 0); [by apply ok_ret|]. destruct (after_operator ty st) as [[ex needs]|]; [|apply fail_line_ok].
  destruct (skip_blank_total _ _ (e + n) (Hd (e + n) ltac:(lia))) as (m & Em & Hm).
  assert (zlen (drop (Z.to_nat (e + n)) x) = zlen x - (e + n)) as Hl2 by zs. rewrite Hl2 in Hm.
  eapply ok_bind; [by apply ok_lift_eq|]. intros ? ->. destruct (m =? zlen x); [|apply IH; (done || lia)].
  destruct (bool_decide _); [by apply ok_ret | apply fail_line_ok].
Qed.

End Rounds.

Lemma runs {A} (m : M (bash W) A) (Q : A -> Prop) :
  ok (fun _ => False) well m Q -> forall s, well s -> exists a s', m s = Some (Val a, s') /\ well s' /\ Q a.
Proof. intros Hm s Hs. destruct (Hm s Hs) as ([a|rc] & s' & E & Ho); [by exists a, s' | by destruct Ho]. Qed.


End Line.
End Safe.

(** ** A machine that records what it is asked for *)

Module BashDemo.

Definition guest : bytes := clit "guest".
Definition home : option bytes := Some (clit "C:/users/guest").

#[global] Instance recorder : BashOs (list call) := {
  os_call w c := (Reply (match c with Delete _ => 1 | _ => 0 end) [0] 0 false, w ++ [c]);
  fs_dirname _ := home;
  current_user _ := guest;
  computer_name _ := clit "doge";
  saved_color _ := 0;
  uninitialized _ := zeros 32;
}.

(** Nothing was asked for that is not permitted. *)
Definition only_permitted (w : list call) : Prop := Forall (permitted guest home) w.

Lemma guest_text : cstr guest (lit "guest").
Proof. apply cstr_clit. by repeat constructor. Qed.

Lemma home_text_is : cstr (clit "C:/users/guest") (cwd_string 67 (lit "users/guest")).
Proof. apply (cstr_clit "C:/users/guest"). by repeat constructor. Qed.

Lemma recorder_answers c w : permitted guest home c -> answers c (os_call w c).1.
Proof.
  intros Hc. assert (is_text [0]) as H0 by apply is_text_nul. assert (int 0 /\ int 1) as [I0 I1] by (split; by apply int_small).
  destruct c; cbn in Hc |- *; try done.
  - destruct Hc. split; [done|]. split; [done|]. change (zlen [0]) with 1. lia.
  - destruct Hc. split; [done|]. change (zlen [0]) with 1. lia.
Qed.

#[global] Instance recorder_laws : BashLaws recorder only_permitted.
Proof.
  split; intros w.
  - intros _. exists (lit "guest"). split; [apply guest_text | done].
  - intros _. exists (clit "C:/users/guest"), 67, (lit "users/guest"). split; [done|]. split; [apply home_text_is | by left].
  - intros _. apply is_text_clit.
  - done.
  - intros c Hw Hc. split; [|by apply recorder_answers]. by apply Forall_app; split; [|constructor].
  - done.
Qed.

Definition fresh : bash (list call) := Bash (replicate 12 (BashVariable (zeros 32) (zeros 128))) 0 0 false [].

Lemma fresh_variables : variables_hold (variables fresh) (variable_count fresh) [].
Proof.
  split; [done|]. split; [done|]. split; [|exists [], (variables fresh); split; [done | constructor]].
  apply Forall_replicate. split; (split; [done|]; exists []; apply zeros_cstr; lia).
Qed.

Lemma fresh_well : well (J := only_permitted) fresh.
Proof. split; [constructor|]. split; [by apply int_small|]. exists []. apply fresh_variables. Qed.

(** The calls of a line, its status, and what was printed *)
Definition asked (line : string) : option (Z * list call) :=
  match system_bash_ex (mret tt) (Some (clit line)) fresh with Some (Val status, s) => Some (status, machine s) | _ => None end.

Definition printed (c : call) : option bytes :=
  match c with Print t | Println t => Some (span (fun c => negb (c =? 0)) t).1 | _ => None end.
Definition run (line : string) : option (Z * list bytes) := (fun r : Z * list call => (r.1, omap printed r.2)) <$> asked line.


Lemma fresh_sees : sees fresh [] (lit "guest") (cwd_string 67 (lit "users/guest")).
Proof. split; [apply fresh_variables|]. split; [by apply int_small|]. split; [apply guest_text | apply home_text_is]. Qed.

Definition echo_text : bytes := lit "echo 'a b'$USER\;${PWD} $?".

Lemma bash_arguments_exact_witness :
  run_segment (mret tt) (echo_text ++ [0]) 0 fresh =
    run_words (mret tt) (Some [lit "echo"; lit "a bguest;C:/users/guest"; lit "0"]) 0 fresh /\
  Forall2 cstr (arguments_of [lit "echo"; lit "a bguest;C:/users/guest"; lit "0"]) [lit "echo"; lit "a bguest;C:/users/guest"; lit "0"].
Proof.
  destruct (bash_arguments_exact (mret tt) fresh [] _ _ echo_text [] 0 fresh_sees ltac:(by repeat constructor) eq_refl) as [E Hw]. split; [exact E|]. by apply Hw.
Defined.

Definition demo_list : list link := [Link AndThen [c_space] (lit "false "); Link OrElse [] (lit "echo no")].

Lemma demo_list_ok : list_ok (lit "true ") demo_list (Some []).
Proof. split; [by repeat constructor|]. split; [done|]. split; [|done]. repeat constructor; done. Qed.

Lemma bash_list_exact_witness :
  system_bash_ex (mret tt) (Some (clit "true && false ||echo no;")) fresh =
    run_line (laid_out 256 (lit "true && false ||echo no;")) (run_list (mret tt) (lit "true ") demo_list true 0) fresh.
Proof. apply (bash_list_exact (mret tt) _ _ _ _ (Some [])); [apply cstr_clit; by repeat constructor | done | done | exact demo_list_ok]. Defined.

(** Quotes, expansions and connectors *)
Example list_left_to_right :
  run "x=5; echo 'a b'$x\;${x} && false || echo no $?" = Some (0, [lit "a b5;5"; lit "no 1"]).
Proof. vm_compute. reflexivity. Qed.

(** Another user's files *)
Example others_files : run "cat ../alice/x" = Some (1, [lit "bash: permission denied"]).
Proof. vm_compute. reflexivity. Qed.

(** [rm] removes its file and then looks for a program [rm]. *)
Example rm_not_found : run "rm notes" = Some (127, [lit "bash: "; lit "rm"; lit ": command not found"]).
Proof. vm_compute. reflexivity. Qed.

(** [pack] compresses a file the user may not read. *)
Definition compressed (c : call) : option bytes :=
  match c with Compress path _ _ => Some (span (fun c => negb (c =? 0)) path).1 | _ => None end.

Example pack_unchecked :
  ((fun r : Z * list call => omap compressed r.2) <$> asked "pack /system/key") = Some [lit "/system/key"] /\
  authorize_path (Some guest) home (Some (clit "/system/key")) = Some 0.
Proof. split; vm_compute; reflexivity. Qed.

(** A list may not begin with a connector; the message is that of a pipeline. *)
Example list_begins_with_and : run "&& true" = Some (2, [lit "bash: pipelines and redirections are not supported"]).
Proof. vm_compute. reflexivity. Qed.

(** [cd -] with no directory to go back to *)
Example cd_back_unset : run "cd -" = Some (1, [lit "bash: invalid or overlong path"]).
Proof. vm_compute. reflexivity. Qed.

End BashDemo.
